(* ===== verification/_CoqProject ===== *)
-Q . S2P
Prelude.v
Links.v
KList.v
KListFacts.v
KListSort.v
KListOrder.v
KListSpec.v
Utlist.v
Wq.v
KvWorld.v
KvCacheSet.v
KvCacheSetFacts.v
KvCacheSetSpec.v
KvCache.v
KvStore.v
KvStoreFacts.v
KvStoreSpec.v
TpcLog.v
TpcLogFacts.v
KvServer.v
KvServerSpec.v
KvMessage.v
TpcMaster.v
TpcMasterFacts.v
KvRegister.v
Bitmap.v
Vaddr.v
Palloc.v
PageDir.v
FixedPoint.v
Thread.v
Synch.v
SynchFacts.v
SynchEffects.v
SynchSpec.v
FileSys.v
FileSysIO.v
FileSysInv.v
FileSysMem.v
FileSysFiles.v
FileSysDir.v
FileSysOps.v
FileSysNames.v
FileSysSpec.v
FileSysMount.v
FileSysSession.v
Arithmetic.v
KStdlib.v
KListSet.v
Hash.v
HashFacts.v
HashOps.v
HashWalk.v
HashSpec.v
Malloc.v
MallocInv.v
MallocOps.v
MallocArena.v
MallocRun.v
MallocFree.v
MallocSpec.v
KString.v
KStringFacts.v
KStringSpec.v
KStdio.v
KStdioFacts.v
KStdioParse.v
KStdioFields.v
KStdioSpec.v
KSnprintf.v
Process.v
ProcessFacts.v
ProcessLoad.v
ProcessSpec.v
ProcessExit.v
Random.v
Block.v
BlockFacts.v
BlockSpec.v
Intq.v
