(* ===== verification/Prelude.v ===== *)
(** * Verification of the 162group repository: a key-value server and the Pintos kernel

    The repository holds two programs in C.  [kvstore/src/server] is a key-value server
    with a write-through cache over a persistent store, a log and a coordinator for
    two-phase commit.  [pintos/src] is an instructional i386 kernel: threads and their
    synchronisation, the page allocator, page tables, the file system, the loader of user
    programs, block devices, and the kernel's library.  This library models the parts below
    as executable definitions that follow the source function by function, and proves what
    makes them correct.

    ** Conventions

    A C function is a state transformer [M S A := S -> outcome (A * S)] (this file): it
    returns, crashes (a failed [ASSERT], [PANIC], a null or dangling dereference, an
    access outside an array) or runs out of the fuel of its loops.  Integers are [Z] with
    the C conversions [u32], [s32], [u64], [s64] written where the source converts;
    memory is a finite map or a function from addresses; an allocation that may fail
    reads its outcome from the state.  Loops carry fuel computed from the state (the
    number of cells, files or bytes), and the theorems are about results that are
    returned, so the fuel is proved to be enough.

    ** The key-value server

    - [Links], [KList] model [lib/kernel/list.c] (also used by the kernel): a heap of
      [list_elem] cells.  [KListFacts], [KListSort], [KListOrder], [KListSpec]: every
      operation on every well-formed list, the natural merge sort (sorted, a
      permutation), ordered insertion, uniqueness, maxima, and a session theorem that
      the heap refines sequences.
    - [Utlist]: the [DL_APPEND] and [DL_DELETE] macros of [utlist.h].
    - [Wq]: [wq.c] as threads that interleave at each lock and condition operation;
      every item is taken once and in order, and a waiting thread is not forgotten.
    - [KvWorld]: constants, messages, the file system and the allocator, the hashes.
    - [KvCacheSet] ([kvcacheset.c]), with [KvCacheSetFacts] and [KvCacheSetSpec]: the
      set refines an association list with second-chance eviction; [KvCache]
      ([kvcache.c]): the sets behind the hash.
    - [KvStore] ([kvstore.c]), with [KvStoreFacts] and [KvStoreSpec]: the chained entry
      files refine a map; restart, refusals, cleaning, and what overlapping calls do.
      The sessions of store and server assume that no allocation fails ([mem_ok]), since
      a store that cannot allocate does not answer as a map does, and that there are fewer
      than 2^31 files.
    - [TpcLog], [TpcLogFacts] ([tpclog.c]): what is logged is iterated in order, also
      after a restart.
    - [KvServer], [KvServerSpec] ([kvserver.c]): cache and store together refine a map,
      for every sequence of requests up to a delete with too long a key, which crashes.
    - [KvMessage] ([kvmessage.c]): messages round-trip through the length prefix and the
      JSON library, which is a parameter with its documented laws.
    - [TpcMaster], [TpcMasterFacts] ([tpcmaster.c]): registration, primary, successor.
    - [KvRegister] (registration and the info message of [kvserver.c]): the dialogue of a
      slave and [tpcmaster_register] over the wire ends with the slave in the master's
      list.  [tpcmaster_handle] and [kvserver_get_info_message] crash: they copy a string
      to a block without room for its null.

    ** The kernel

    - [Bitmap] ([lib/kernel/bitmap.c]): refinement of boolean sequences, file round trip.
    - [Vaddr] ([threads/vaddr.h], [threads/pte.h]); [Palloc] ([threads/palloc.c]): live
      blocks are disjoint, inside the pools and marked, and a request fails only when no
      run of free pages exists; [PageDir] ([userprog/pagedir.c]): a page directory refines
      a map from pages to frames with flags, and the TLB never holds a stale entry.
    - [Malloc] ([threads/malloc.c]) on [Palloc] and the lists of [KListSet]: arenas, free
      blocks and the words of all other memory.  [MallocInv]: the layout and the
      invariant; [MallocOps], [MallocArena], [MallocRun], [MallocFree]: a block changes
      hands, an arena comes and goes, the four functions; [MallocSpec]: blocks are apart
      and keep their contents, every call returns, freeing everything returns every page.
    - [FixedPoint] ([threads/fixed-point.h]): exactness and rounding within the range.
    - [Thread] ([threads/thread.c], interrupt levels of [threads/interrupt.c]): the
      scheduler and its invariant.  [Synch] ([threads/synch.c], and the parts of
      [thread.c] that block): a machine whose threads have stacks of frames, cut where
      another thread may run; the timer may interrupt whenever interrupts are enabled.
      [SynchFacts]: the invariant of all reachable states; [SynchEffects]: what each step
      does to semaphores, locks and stacks; [SynchSpec]: mutual exclusion, no lost
      wakeups, the order of the run queue, well-formed thread lists.

    ** The file system

    - [FileSys] ([filesys/inode.c], [free-map.c], [file.c], [directory.c], [filesys.c],
      and the block layer of [devices/block.c]): a device of bytes, inodes, files and
      directories in memory as records at addresses, allocations that may fail.
    - [FileSysIO]: what reading and writing an inode do to the bytes; [FileSysInv]: the
      layout of the disk and the free map; [FileSysMem]: the inodes in memory, their
      counts and their life cycle; [FileSysFiles]: handles; [FileSysDir]: the entries of
      the root directory; [FileSysOps], [FileSysNames]: opening, removing and creating
      files on the whole invariant [core_inv].
    - [FileSysSpec]: the abstract file system and the simulation of every operation;
      [FileSysMount]: formatting, mounting and unmounting; [FileSysSession]: sessions
      refine the specification, files survive a remount, when creation succeeds, and two
      defects.  The fuel of the loops over the entries of a directory is the number of
      entries its length allows and two more; the loops over sectors have one turn per
      byte.  Sessions assume that allocations succeed ([mem_ok]); the definitions do not.

    ** The library of the kernel

    - [Hash] ([lib/kernel/hash.c]): buckets on the kernel list in arrays that are
      reallocated as the table grows.  [HashFacts]: the lists of the
      buckets, the invariant, the choice of the bucket count and rehashing;
      [HashOps], [HashWalk]: each function; [HashSpec]: any session, from initialisation
      to destruction, refines a set, also when allocations fail, and frees what it took.
      Loops over a list have one turn per cell of the heap and one more, the loop that
      looks for a power of two 33.
    - [Arithmetic] ([lib/arithmetic.c]): 64-bit division built from the 32-bit
      instruction equals the mathematical one; the remainders are cut to 32 bits.
    - [KStdlib] ([lib/stdlib.c]): the heap sort returns a permutation for any comparison
      function and a sorted array for an order; binary search; [atoi].
    - [KString] ([lib/string.c]): every function on a memory of bytes in which an access
      outside the mapped bytes crashes.  [KStringFacts]: strings in memory and what each
      function returns; [KStringSpec]: moving between overlapping blocks, splitting into
      tokens, copies within a bound.
    - [KStdio] (the formatting of [lib/stdio.c], for any output callback).
      [KStdioFacts], [KStdioParse]: the parser of conversions; [KStdioFields]: the text of
      a field; [KStdioSpec]: a whole format; [KSnprintf]: [vsnprintf] writes the text that
      the format stands for, cut to the buffer, and [atoi] reads back what [%d] wrote.
    - [Random] ([lib/random.c]): the generator's output is the key stream of RC4, which is
      written on its own, for the bytes of the seed.

    ** User programs and block devices

    - [Process] ([userprog/process.c]: the ELF loader and the end of a process) on the page
      directories and the file system.  [ProcessFacts]: bytes in a memory of words, the
      pages of a program and the account of every page taken; [ProcessLoad]: segments,
      proved against [readable], what the loader needs of an open file; [ProcessSpec]: the
      file system provides it, and a program that [load] accepts is in memory as its
      headers say; [ProcessExit]: a process gives back all its memory.  The pools may run
      out of pages at any allocation of the loader; the blocks that the file system takes
      with [malloc] are allocated from a list of outcomes of their own and assumed to be
      there.  The loop over the pages of a segment has one turn per page and one more.
    - [Block] ([devices/block.c], [devices/partition.c], and the choice of devices in
      [threads/init.c]).  [BlockFacts]: partitions lie within devices registered before
      them, reading, writing, registering; [BlockSpec]: a read gives what was last written
      to the sector, also through partitions, a scan registers the entries of the table,
      and the loop a scan falls into on an extended partition.
    - [Intq] ([devices/intq.c]) as a machine of threads and interrupt handlers: it refines
      a bounded first-in first-out queue, a thread sleeps only while it has to, and the one
      case in which an assertion fails.

    ** Not modelled

    Sockets and command lines of the server ([socket_server.c], [main/]); the vendored
    [uthash.h] (used through its documented behaviour) and the macros of [utlist.h] that
    the server does not use; the client in Python; device drivers that talk to ports, the
    trap tables, the task state segment and start-up code of the kernel; the console and
    the messages the kernel prints; starting a user process ([process_execute],
    [start_process], [process_wait]) and the system call stub; the test and example
    programs.  They are input and output or processor set-up, whose effects lie outside the
    state a model of the code could speak of. *)

From stdpp Require Export base gmap list list_numbers strings numbers pretty sorting relations.
From Stdlib Require Export ZArith Lia.

#[export] Set Default Goal Selector "!".
Open Scope Z_scope.

(** ** Machine integers

    A [w]-bit unsigned value is a [Z] in [0, 2^w); a signed one is a [Z] in
    [-2^(w-1), 2^(w-1)).  The functions below are the C conversions to those
    types (two's complement for the signed ones, as gcc defines them). *)

Definition uwrap (w z : Z) : Z := z `mod` 2 ^ w.
Definition swrap (w z : Z) : Z := (z + 2 ^ (w - 1)) `mod` 2 ^ w - 2 ^ (w - 1).

Abbreviation u8 := (uwrap 8).
Abbreviation u16 := (uwrap 16).
Abbreviation u32 := (uwrap 32).
Abbreviation u64 := (uwrap 64).
Abbreviation s8 := (swrap 8).
Abbreviation s32 := (swrap 32).
Abbreviation s64 := (swrap 64).

Definition is_u32 (z : Z) : Prop := 0 ≤ z < 2 ^ 32.
Definition is_s32 (z : Z) : Prop := (- 2 ^ 31) ≤ z < 2 ^ 31.
Definition is_u64 (z : Z) : Prop := 0 ≤ z < 2 ^ 64.
Definition is_s64 (z : Z) : Prop := (- 2 ^ 63) ≤ z < 2 ^ 63.

(** ** Outcomes and the state monad of the models

    A C function is a state transformer that either returns, crashes (a failed
    [ASSERT] or [PANIC], a null or dangling dereference, a buffer overflow), or
    runs out of the fuel that bounds its loops. *)

Inductive outcome (A : Type) : Type :=
| Ret (a : A)
| Crash
| NoFuel.

Arguments Ret {A} a.
Arguments Crash {A}.
Arguments NoFuel {A}.

Definition M (S A : Type) : Type := S → outcome (A * S).

#[export] Instance M_ret {S} : MRet (M S) := λ A a s, Ret (a, s).
#[export] Instance M_bind {S} : MBind (M S) := λ A B k m s,
  match m s with
  | Ret (a, s') => k a s'
  | Crash => Crash
  | NoFuel => NoFuel
  end.

Definition crash {S A} : M S A := λ _, Crash.
Definition nofuel {S A} : M S A := λ _, NoFuel.
Definition get {S} : M S S := λ s, Ret (s, s).
Definition gets {S A} (f : S → A) : M S A := λ s, Ret (f s, s).
Definition put {S} (s : S) : M S unit := λ _, Ret (tt, s).
Definition modify {S} (f : S → S) : M S unit := λ s, Ret (tt, f s).

(** C's [ASSERT (b)]. *)
Definition assert {S} (b : bool) : M S unit := if b then mret tt else crash.

(** A partial read of the state: the dereference of a pointer. *)
Definition gets_opt {S A} (f : S → option A) : M S A :=
  λ s, match f s with Some a => Ret (a, s) | None => Crash end.

(** A partial update of the state. *)
Definition modify_opt {S} (f : S → option S) : M S unit :=
  λ s, match f s with Some s' => Ret (tt, s') | None => Crash end.

Section monad_lemmas.
Context {S : Type}.

Lemma bind_Ret {A B} (m : M S A) (k : A → M S B) s a s' :
  m s = Ret (a, s') → (m ≫= k) s = k a s'.
Proof. unfold mbind, M_bind. by intros ->. Qed.

Lemma bind_Crash {A B} (m : M S A) (k : A → M S B) s :
  m s = Crash → (m ≫= k) s = Crash.
Proof. unfold mbind, M_bind. by intros ->. Qed.

Lemma bind_inv {A B} (m : M S A) (k : A → M S B) s b s'' :
  (m ≫= k) s = Ret (b, s'') → ∃ a s', m s = Ret (a, s') ∧ k a s' = Ret (b, s'').
Proof. unfold mbind, M_bind. destruct (m s) as [[a s']| |]; naive_solver. Qed.

Lemma bind_assoc {A B C} (m : M S A) (k : A → M S B) (g : B → M S C) s :
  ((m ≫= k) ≫= g) s = (m ≫= λ a, k a ≫= g) s.
Proof. unfold mbind, M_bind. by destruct (m s) as [[a s']| |]. Qed.

Lemma ret_bind {A B} (a : A) (k : A → M S B) s : (mret a ≫= k) s = k a s.
Proof. done. Qed.

Lemma assert_bind {B} (b : bool) (k : unit → M S B) s :
  b = true → (assert b ≫= k) s = k tt s.
Proof. by intros ->. Qed.

Lemma assert_true b s : b = true → assert (S:=S) b s = Ret (tt, s).
Proof. by intros ->. Qed.

Lemma assert_false b s : b = false → assert (S:=S) b s = Crash.
Proof. by intros ->. Qed.

Lemma gets_opt_Some {A} (f : S → option A) s a :
  f s = Some a → gets_opt f s = Ret (a, s).
Proof. unfold gets_opt. by intros ->. Qed.
End monad_lemmas.

(** [run_step H] executes the head of a monadic program with the equation [H]. *)
Ltac run_step H := rewrite (bind_Ret _ _ _ _ _ H); cbn beta iota.

(** Steps over [mret] and over assertions that are syntactically true or about
    a null test settled by the context. *)
Ltac rb :=
  cbn beta iota;
  repeat (lazymatch goal with
          | |- (mret ?a ≫= ?k) ?s = _ => rewrite (ret_bind a k s)
          | |- ((?m ≫= ?k) ≫= ?g) ?s = _ => rewrite (bind_assoc m k g s)
          | |- (assert ?b ≫= ?k) ?s = _ =>
            rewrite (assert_bind b k s)
              by first [ apply bool_decide_eq_true_2; done | reflexivity ]
          end; cbn beta iota).

(** Executes everything that computes by itself. *)
Ltac run := repeat (unfold mbind, M_bind, mret, M_ret, get, gets, put, modify,
                    assert, gets_opt, modify_opt, crash; cbn beta iota).

(** ** Arithmetic of the conversions *)

Create HintDb cint.

Lemma uwrap_id w z : 0 ≤ z < 2 ^ w → uwrap w z = z.
Proof. apply Z.mod_small. Qed.

Lemma uwrap_range w z : 0 ≤ w → 0 ≤ uwrap w z < 2 ^ w.
Proof. intros. apply Z.mod_pos_bound. lia. Qed.

Lemma uwrap_uwrap w z : 0 ≤ w → uwrap w (uwrap w z) = uwrap w z.
Proof. intros. apply uwrap_id, uwrap_range; lia. Qed.

Lemma swrap_id w z : 0 < w → (- 2 ^ (w - 1)) ≤ z < 2 ^ (w - 1) → swrap w z = z.
Proof.
  intros Hw Hz. unfold swrap.
  assert (2 ^ w = 2 * 2 ^ (w - 1)) as Hp.
  { rewrite <- Z.pow_succ_r by lia. f_equal. lia. }
  rewrite Z.mod_small; lia.
Qed.

Lemma swrap_range w z : 0 < w → (- 2 ^ (w - 1)) ≤ swrap w z < 2 ^ (w - 1).
Proof.
  intros Hw. unfold swrap.
  assert (2 ^ w = 2 * 2 ^ (w - 1)) as Hp.
  { rewrite <- Z.pow_succ_r by lia. f_equal. lia. }
  assert (0 < 2 ^ (w - 1)) by (apply Z.pow_pos_nonneg; lia).
  pose proof (Z.mod_pos_bound (z + 2 ^ (w - 1)) (2 ^ w)). lia.
Qed.

#[export] Hint Resolve uwrap_range swrap_range : cint.

(** ** Lists *)

Lemma NoDup_app_cons_inv {A} (xs ys : list A) x :
  NoDup (xs ++ x :: ys) → (x ∉ xs) ∧ (x ∉ ys) ∧ NoDup (xs ++ ys).
Proof.
  rewrite !NoDup_app, NoDup_cons. intros (H1 & H2 & H3 & H4).
  repeat split; try done.
  - intros Hx. by apply (H2 x Hx), list_elem_of_here.
  - intros y Hy Hy'. by apply (H2 y Hy), list_elem_of_further.
Qed.

Lemma list_split_lookup {A} (l : list A) i x :
  l !! i = Some x → l = take i l ++ x :: drop (S i) l.
Proof. intros. symmetry. by apply take_drop_middle. Qed.

Lemma drop_app_cons {A} (l1 l2 : list A) x : drop (S (length l1)) (l1 ++ x :: l2) = l2.
Proof. induction l1; simpl; [by rewrite drop_0|done]. Qed.

Lemma StronglySorted_lookup_lt {A} (R : A → A → Prop) l i j x y :
  StronglySorted R l → (i < j)%nat → l !! i = Some x → l !! j = Some y → R x y.
Proof.
  intros Hs Hij Hi Hj. rewrite <- (take_drop j l) in Hs.
  apply (StronglySorted_app_1_elem_of R _ _ _ _ Hs).
  - apply list_elem_of_lookup_2 with i. by rewrite lookup_take_lt.
  - apply list_elem_of_lookup_2 with 0%nat. by rewrite lookup_drop, Nat.add_0_r.
Qed.

Lemma filter_all {A} (P : A → Prop) `{!∀ x, Decision (P x)} (l : list A) :
  (∀ x, x ∈ l → P x) → filter P l = l.
Proof.
  induction l as [|x l IH]; [done|]. intros Hl.
  rewrite filter_cons_True by (apply Hl; left). f_equal. apply IH.
  intros y Hy. apply Hl. by right.
Qed.

(** Membership in concatenations, up to hypotheses of the form [x ∈ l]. *)
Ltac mem :=
  rewrite ?elem_of_app;
  first [ tauto
        | repeat first [rewrite elem_of_app | rewrite elem_of_cons]; tauto
        | repeat first [ rewrite elem_of_app in * | rewrite elem_of_cons in *
                       | rewrite elem_of_nil in * ]; tauto ].

Lemma notin_ne {A} (X : list A) a b : a ∉ X → b ∈ X → a ≠ b.
Proof. by intros Ha Hb ->. Qed.

Lemma notin_ne' {A} (X : list A) a b : a ∉ X → b ∈ X → b ≠ a.
Proof. by intros Ha Hb ->. Qed.

Lemma elem_of_tail {A} (l : list A) x : x ∈ tail l → x ∈ l.
Proof. destruct l; [done|]. apply list_elem_of_further. Qed.

(** Equality of lists up to associativity of [++] and to [x :: l = [x] ++ l]. *)
Ltac app_norm := repeat first [ rewrite <- app_assoc | progress cbn [app] ].
Ltac app_norm_in H := repeat first [ rewrite <- app_assoc in H | progress cbn [app] in H ].
Ltac app_eq := app_norm; reflexivity.

(** ** Little-endian fields *)

(** The field of [n] bytes at [ofs]. *)
Definition le_field (bs : list Z) (ofs n : nat) : Z := foldr (λ b v, b + 256 * v) 0 (take n (drop ofs bs)).

Lemma le_field_range bs ofs n : Forall (λ b, 0 ≤ b < 256) bs → 0 ≤ le_field bs ofs n < 256 ^ Z.of_nat n.
Proof.
  intros Hb. unfold le_field. set (l := take n (drop ofs bs)). assert (Forall (λ b, 0 ≤ b < 256) l) as Hl by (by apply Forall_take, Forall_drop).
  assert (Z.of_nat (length l) ≤ Z.of_nat n) as Hn by (unfold l; rewrite length_take; lia).
  assert (0 ≤ foldr (λ b v, b + 256 * v) 0 l < 256 ^ Z.of_nat (length l)) as Hr.
  { clear Hn. induction Hl as [|x l Hx _ IH]; cbn [foldr length]; [simpl; lia|]. rewrite Nat2Z.inj_succ, Z.pow_succ_r by lia. lia. }
  pose proof (Z.pow_le_mono_r 256 _ _ ltac:(lia) Hn). lia.
Qed.
