(* ===== verification/Links.v ===== *)
(** * Links: the theory of doubly linked chains of heap nodes

    Two pieces of the repository thread objects through [prev]/[next] members:
    the kernel list of [pintos/src/lib/kernel/list.c] and the [DL_*] macros of
    [kvstore/src/server/utlist.h].  Both are modelled over a heap that maps
    addresses to nodes.  This file states what such a node offers (the class
    [Linked]), the pointer reads and writes of C as state transformers that crash
    on a null or dangling pointer, and the predicate [chain] (consecutive
    addresses of a sequence point at each other) with its splitting and framing
    lemmas, on which the refinement proofs of both clients rest. *)

From S2P Require Import Prelude.

(** The null pointer. *)
Definition NULL : Z := 0.

(** What a node type must provide, with the laws of its accessors. *)
Class Linked (N : Type) := {
  l_prev : N → Z;
  l_next : N → Z;
  l_set_prev : Z → N → N;
  l_set_next : Z → N → N;
  l_prev_set_prev v n : l_prev (l_set_prev v n) = v;
  l_next_set_next v n : l_next (l_set_next v n) = v;
  l_prev_set_next v n : l_prev (l_set_next v n) = l_prev n;
  l_next_set_prev v n : l_next (l_set_prev v n) = l_next n
}.

Section heap.
Context {N : Type} `{L : !Linked N}.
Implicit Types (h : gmap Z N) (p q v : Z).

(** Dereference: null points to nothing. *)
Definition deref h p : option N :=
  if bool_decide (p = NULL) then None else h !! p.

Definition valid h p : Prop := is_Some (deref h p).

Definition prv h p : option Z := l_prev <$> deref h p.
Definition nxt h p : option Z := l_next <$> deref h p.

Definition upd_prev p v h : gmap Z N := alter (l_set_prev v) p h.
Definition upd_next p v h : gmap Z N := alter (l_set_next v) p h.

(** [e->prev], [e->next], [e->prev = v] and [e->next = v]. *)
Definition get_prev p : M (gmap Z N) Z := gets_opt (λ h, prv h p).
Definition get_next p : M (gmap Z N) Z := gets_opt (λ h, nxt h p).
Definition set_prev p v : M (gmap Z N) unit :=
  modify_opt (λ h, (λ _, upd_prev p v h) <$> deref h p).
Definition set_next p v : M (gmap Z N) unit :=
  modify_opt (λ h, (λ _, upd_next p v h) <$> deref h p).

(** ** Reads and writes *)

Lemma valid_not_null h p : valid h p → p ≠ NULL.
Proof. unfold valid, deref. case_bool_decide; [by intros [? ?]|done]. Qed.

Lemma deref_upd (f : N → N) h p q :
  deref (alter f p h) q = if decide (p = q) then f <$> deref h q else deref h q.
Proof.
  unfold deref. case_bool_decide; [by case_decide|].
  rewrite lookup_alter. by repeat case_decide; subst.
Qed.

Lemma valid_upd_prev h p v q : valid (upd_prev p v h) q ↔ valid h q.
Proof.
  unfold valid, upd_prev. rewrite deref_upd. case_decide; [|done].
  by rewrite fmap_is_Some.
Qed.

Lemma valid_upd_next h p v q : valid (upd_next p v h) q ↔ valid h q.
Proof.
  unfold valid, upd_next. rewrite deref_upd. case_decide; [|done].
  by rewrite fmap_is_Some.
Qed.

Lemma nxt_upd_prev h p v q : nxt (upd_prev p v h) q = nxt h q.
Proof.
  unfold nxt, upd_prev. rewrite deref_upd. case_decide; [|done].
  destruct (deref h q); simpl; [by rewrite l_next_set_prev|done].
Qed.

Lemma prv_upd_next h p v q : prv (upd_next p v h) q = prv h q.
Proof.
  unfold prv, upd_next. rewrite deref_upd. case_decide; [|done].
  destruct (deref h q); simpl; [by rewrite l_prev_set_next|done].
Qed.

Lemma prv_upd_prev_eq h p v : valid h p → prv (upd_prev p v h) p = Some v.
Proof.
  intros [n Hn]. unfold prv, upd_prev. rewrite deref_upd, decide_True by done.
  rewrite Hn. simpl. by rewrite l_prev_set_prev.
Qed.

Lemma prv_upd_prev_ne h p v q : p ≠ q → prv (upd_prev p v h) q = prv h q.
Proof. intros. unfold prv, upd_prev. by rewrite deref_upd, decide_False by done. Qed.

Lemma nxt_upd_next_eq h p v : valid h p → nxt (upd_next p v h) p = Some v.
Proof.
  intros [n Hn]. unfold nxt, upd_next. rewrite deref_upd, decide_True by done.
  rewrite Hn. simpl. by rewrite l_next_set_next.
Qed.

Lemma nxt_upd_next_ne h p v q : p ≠ q → nxt (upd_next p v h) q = nxt h q.
Proof. intros. unfold nxt, upd_next. by rewrite deref_upd, decide_False by done. Qed.

Lemma prv_valid h p v : prv h p = Some v → valid h p.
Proof. unfold prv, valid. rewrite fmap_Some. intros (n & ? & _). by exists n. Qed.

Lemma nxt_valid h p v : nxt h p = Some v → valid h p.
Proof. unfold nxt, valid. rewrite fmap_Some. intros (n & ? & _). by exists n. Qed.

Lemma get_prev_run h p v : prv h p = Some v → get_prev p h = Ret (v, h).
Proof. intros H. unfold get_prev, gets_opt. by rewrite H. Qed.

Lemma get_next_run h p v : nxt h p = Some v → get_next p h = Ret (v, h).
Proof. intros H. unfold get_next, gets_opt. by rewrite H. Qed.

Lemma set_prev_run h p v : valid h p → set_prev p v h = Ret (tt, upd_prev p v h).
Proof. intros [n Hn]. unfold set_prev, modify_opt. by rewrite Hn. Qed.

Lemma set_next_run h p v : valid h p → set_next p v h = Ret (tt, upd_next p v h).
Proof. intros [n Hn]. unfold set_next, modify_opt. by rewrite Hn. Qed.

(** ** Chains *)

(** [chain h [a1; ...; an]]: every [ai] points forward to [ai+1], which points
    back to [ai]. *)
Fixpoint chain h (xs : list Z) : Prop :=
  match xs with
  | a :: ((b :: _) as t) => nxt h a = Some b ∧ prv h b = Some a ∧ chain h t
  | _ => True
  end.

Lemma chain_cons2 h a b xs :
  chain h (a :: b :: xs) ↔ nxt h a = Some b ∧ prv h b = Some a ∧ chain h (b :: xs).
Proof. done. Qed.

Lemma chain_split h xs a ys :
  chain h (xs ++ a :: ys) ↔ chain h (xs ++ [a]) ∧ chain h (a :: ys).
Proof.
  induction xs as [|x xs IH]; [simpl; tauto|].
  destruct xs as [|y xs]; cbn [app].
  - rewrite (chain_cons2 _ x a ys), (chain_cons2 _ x a []). simpl. tauto.
  - rewrite !chain_cons2. cbn [app] in IH. rewrite IH. tauto.
Qed.

Lemma chain_tail h a xs : chain h (a :: xs) → chain h xs.
Proof. destruct xs; [done|]. rewrite chain_cons2. tauto. Qed.

(** Framing: a write to [next] matters only for the elements before the last, a
    write to [prev] only for those after the first. *)
Lemma chain_upd_next h p v xs a :
  p ∉ xs → chain h (xs ++ [a]) → chain (upd_next p v h) (xs ++ [a]).
Proof.
  induction xs as [|x xs IH]; [done|]. rewrite not_elem_of_cons. intros [Hx Hxs].
  destruct xs as [|y xs]; cbn [app]; rewrite !chain_cons2, prv_upd_next,
    nxt_upd_next_ne by done.
  - done.
  - intros (? & ? & ?). repeat split; try done. by apply IH.
Qed.

Lemma chain_upd_prev h p v a xs :
  p ∉ xs → chain h (a :: xs) → chain (upd_prev p v h) (a :: xs).
Proof.
  revert a. induction xs as [|x xs IH]; [done|]. intros a.
  rewrite not_elem_of_cons. intros [Hx Hxs].
  rewrite !chain_cons2, nxt_upd_prev, prv_upd_prev_ne by done.
  intros (? & ? & ?). repeat split; try done. by apply IH.
Qed.

Lemma chain_upd_next' h p v xs : p ∉ xs → chain h xs → chain (upd_next p v h) xs.
Proof.
  intros Hp. destruct (decide (xs = [])) as [->|Hne]; [done|].
  apply exists_last in Hne as (xs' & a & ->).
  apply chain_upd_next. set_solver.
Qed.

Lemma chain_upd_prev' h p v xs : p ∉ xs → chain h xs → chain (upd_prev p v h) xs.
Proof. destruct xs; [done|]. intros Hp. apply chain_upd_prev. set_solver. Qed.

Lemma chain_next h xs a b ys : chain h (xs ++ a :: b :: ys) → nxt h a = Some b.
Proof. rewrite chain_split, chain_cons2. tauto. Qed.

Lemma chain_prev h xs a b ys : chain h (xs ++ a :: b :: ys) → prv h b = Some a.
Proof. rewrite chain_split, chain_cons2. tauto. Qed.

Lemma chain_valid h xs : chain h xs → (1 < length xs)%nat → Forall (valid h) xs.
Proof.
  induction xs as [|a [|b xs] IH]; cbn [length]; try lia.
  rewrite chain_cons2. intros (Hn & Hp & Hc) _.
  constructor; [by eapply nxt_valid|].
  destruct xs as [|c xs].
  - constructor; [by eapply prv_valid|constructor].
  - apply IH; [done|]. cbn [length]. lia.
Qed.

(** Two heaps that agree on the links of [xs] carry the same chain. *)
Lemma chain_ext h h' xs :
  (∀ p, p ∈ xs → nxt h p = nxt h' p ∧ prv h p = prv h' p) →
  chain h xs → chain h' xs.
Proof.
  induction xs as [|a [|b xs] IH]; try done. intros Hag.
  rewrite !chain_cons2. intros (H1 & H2 & H3).
  destruct (Hag a) as [Ha _]; [set_solver|].
  destruct (Hag b) as [_ Hb]; [set_solver|].
  rewrite <- Ha, <- Hb. repeat split; try done. apply IH; [|done]. set_solver.
Qed.
(** A finer frame: the last element's [next] and the first one's [prev] are free. *)
Lemma chain_frame h h' xs b :
  (∀ q, q ∈ xs → nxt h' q = nxt h q) →
  (∀ q, q ∈ tail (xs ++ [b]) → prv h' q = prv h q) →
  chain h (xs ++ [b]) → chain h' (xs ++ [b]).
Proof.
  induction xs as [|x xs IH]; [done|]. intros Hn Hp.
  destruct xs as [|y xs]; cbn [app] in *; rewrite !chain_cons2.
  - rewrite (Hn x), (Hp b) by set_solver. done.
  - rewrite (Hn x), (Hp y) by set_solver. intros (? & ? & ?). split_and!; try done.
    apply IH; [set_solver| |done]. intros q Hq. apply Hp. simpl in *. set_solver.
Qed.
Lemma chain_join h xs a b ys :
  chain h (xs ++ [a]) → nxt h a = Some b → prv h b = Some a → chain h (b :: ys) →
  chain h ((xs ++ [a]) ++ b :: ys).
Proof.
  intros. rewrite <- app_assoc. apply chain_split. split; [done|].
  cbn [app]. by rewrite chain_cons2.
Qed.

(** Inner elements have a valid neighbour on either side. *)
Lemma chain_prev_some h a xs q :
  chain h (a :: xs) → q ∈ xs → ∃ r, prv h q = Some r ∧ valid h r.
Proof.
  intros Hc Hq. apply list_elem_of_split in Hq as (ys & zs & ->).
  destruct (exists_last (l:=a :: ys)) as (ws & r & Hr); [done|].
  rewrite app_comm_cons, Hr, <- app_assoc in Hc. exists r.
  split; [exact (chain_prev _ _ _ _ _ Hc)|]. exact (nxt_valid _ _ _ (chain_next _ _ _ _ _ Hc)).
Qed.

Lemma chain_next_some h xs b q :
  chain h (xs ++ [b]) → q ∈ xs → ∃ r, nxt h q = Some r ∧ valid h r.
Proof.
  intros Hc Hq. apply list_elem_of_split in Hq as (ys & zs & ->).
  rewrite <- app_assoc in Hc. destruct (zs ++ [b]) as [|r ws] eqn:Hr; [by destruct zs|].
  cbn [app] in Hc. rewrite Hr in Hc. exists r.
  split; [exact (chain_next _ _ _ _ _ Hc)|]. exact (prv_valid _ _ _ (chain_prev _ _ _ _ _ Hc)).
Qed.
(** ** Framing and allocation *)

(** [h'] differs from [h] at most on the links of the addresses [S]. *)
Definition agree_off (S : list Z) (h h' : gmap Z N) : Prop :=
  ∀ q, q ∉ S → nxt h' q = nxt h q ∧ prv h' q = prv h q.

(** Same allocated cells. *)
Definition same_cells (h h' : gmap Z N) : Prop :=
  (∀ q, valid h' q ↔ valid h q) ∧ size h' = size h.

Lemma same_cells_refl h : same_cells h h.
Proof. done. Qed.

Lemma same_cells_trans h1 h2 h3 : same_cells h1 h2 → same_cells h2 h3 → same_cells h1 h3.
Proof. intros [A1 B1] [A2 B2]. split; [|congruence]. intros q. by rewrite A2, A1. Qed.

Lemma same_cells_upd_prev h p v : same_cells h (upd_prev p v h).
Proof.
  split; [intros; apply valid_upd_prev|].
  unfold upd_prev. rewrite <- !size_dom, dom_alter_L. done.
Qed.

Lemma same_cells_upd_next h p v : same_cells h (upd_next p v h).
Proof.
  split; [intros; apply valid_upd_next|].
  unfold upd_next. rewrite <- !size_dom, dom_alter_L. done.
Qed.

Lemma agree_off_refl S h : agree_off S h h.
Proof. done. Qed.

Lemma agree_off_trans S h1 h2 h3 :
  agree_off S h1 h2 → agree_off S h2 h3 → agree_off S h1 h3.
Proof.
  intros H1 H2 q Hq. destruct (H1 q Hq) as [? ?]. destruct (H2 q Hq) as [? ?].
  split; congruence.
Qed.

Lemma agree_off_mono (S S' : list Z) h h' :
  (∀ q, q ∈ S → q ∈ S') → agree_off S h h' → agree_off S' h h'.
Proof. intros HS H q Hq. apply H. naive_solver. Qed.

Lemma valid_links h e : valid h e → ∃ p n, prv h e = Some p ∧ nxt h e = Some n.
Proof. intros [x Hx]. unfold prv, nxt. rewrite Hx. eauto. Qed.
(** The heap has a cell for every element: enough fuel for any traversal. *)
Lemma NoDup_valid_size h xs : NoDup xs → Forall (valid h) xs → (length xs ≤ size h)%nat.
Proof.
  intros Hnd Hv. rewrite <- (size_list_to_set (C:=gset Z)) by done.
  rewrite <- size_dom. apply subseteq_size. intros q Hq.
  apply elem_of_list_to_set in Hq. eapply Forall_forall in Hv as [n Hn]; [|done].
  apply elem_of_dom. unfold deref in Hn. case_bool_decide; [done|]. by exists n.
Qed.
End heap.

Create HintDb links.
#[export] Hint Resolve prv_valid nxt_valid : links.
#[export] Hint Rewrite @valid_upd_prev @valid_upd_next @nxt_upd_prev @prv_upd_next : links.

#[export] Hint Resolve same_cells_refl same_cells_upd_prev same_cells_upd_next : links.

(** Solves goals [same_cells h (upd_next _ _ (upd_prev _ _ ... h))]. *)
Ltac cells :=
  repeat first [ assumption
               | apply same_cells_refl
               | eapply same_cells_trans; [|apply same_cells_upd_prev]
               | eapply same_cells_trans; [|apply same_cells_upd_next] ].

(** Validity goals under heap updates. *)
Ltac valids :=
  repeat first [ assumption | apply valid_upd_prev | apply valid_upd_next ];
  eauto 2 with links.

(** Normalises link reads of an updated heap, given the address disequalities in
    the context. *)
Ltac lk :=
  repeat first
    [ rewrite nxt_upd_prev | rewrite prv_upd_next
    | rewrite nxt_upd_next_ne by congruence
    | rewrite prv_upd_prev_ne by congruence
    | rewrite nxt_upd_next_eq by valids
    | rewrite prv_upd_prev_eq by valids ].

(** Steps over a pointer write, or over a pointer read that yields [v]. *)
Ltac wr_next := erewrite bind_Ret by (apply set_next_run; valids); cbn beta.
Ltac wr_prev := erewrite bind_Ret by (apply set_prev_run; valids); cbn beta.
Ltac rd_next v := rewrite (bind_Ret _ _ _ v _) by (apply get_next_run; lk; done); cbn beta.
Ltac rd_prev v := rewrite (bind_Ret _ _ _ v _) by (apply get_prev_run; lk; done); cbn beta.
