(* ===== verification/KList.v ===== *)
(** * KList: the kernel's doubly linked list ([pintos/src/lib/kernel/list.c])

    A [struct list] at address [list] holds its [head] element at offset 0 and its
    [tail] element at offset 8 (two 4-byte pointers per [struct list_elem] on
    i386); interior elements live anywhere else in the heap.  Every function of
    [list.c] is translated statement by statement over that heap.  Comparison
    callbacks are functions of the two element addresses.

    Loops carry fuel taken from the number of heap cells, which bounds the length
    of any well-formed list. *)

From S2P Require Import Prelude Links.

(** [struct list_elem]. *)
Record list_elem := ListElem { prev : Z; next : Z }.

#[export] Instance list_elem_linked : Linked list_elem.
Proof.
  refine {| l_prev := prev; l_next := next;
            l_set_prev v e := ListElem v (next e);
            l_set_next v e := ListElem (prev e) v |}; done.
Defined.

Abbreviation lheap := (gmap Z list_elem).

(** [&list->head] and [&list->tail]. *)
Definition head_of (list : Z) : Z := list.
Definition tail_of (list : Z) : Z := list + 8.

(** ** Traversal and tests *)

Definition is_head (elem : Z) : M lheap bool :=
  if bool_decide (elem = NULL) then mret false else
  p ← get_prev elem;
  if bool_decide (p = NULL) then
    n ← get_next elem; mret (bool_decide (n ≠ NULL))
  else mret false.

Definition is_interior (elem : Z) : M lheap bool :=
  if bool_decide (elem = NULL) then mret false else
  p ← get_prev elem;
  if bool_decide (p ≠ NULL) then
    n ← get_next elem; mret (bool_decide (n ≠ NULL))
  else mret false.

Definition is_tail (elem : Z) : M lheap bool :=
  if bool_decide (elem = NULL) then mret false else
  p ← get_prev elem;
  if bool_decide (p ≠ NULL) then
    n ← get_next elem; mret (bool_decide (n = NULL))
  else mret false.

(** C's short-circuit [a || b] on tests that read the heap. *)
Definition or_else (a b : M lheap bool) : M lheap bool :=
  x ← a; if (x : bool) then mret true else b.

Definition list_init (list : Z) : M lheap unit :=
  assert (bool_decide (list ≠ NULL));;
  set_prev (head_of list) NULL;;
  set_next (head_of list) (tail_of list);;
  set_prev (tail_of list) (head_of list);;
  set_next (tail_of list) NULL.

Definition list_begin (list : Z) : M lheap Z :=
  assert (bool_decide (list ≠ NULL));;
  get_next (head_of list).

Definition list_next (elem : Z) : M lheap Z :=
  ok ← or_else (is_head elem) (is_interior elem);
  assert ok;;
  get_next elem.

Definition list_end (list : Z) : M lheap Z :=
  assert (bool_decide (list ≠ NULL));;
  mret (tail_of list).

Definition list_rbegin (list : Z) : M lheap Z :=
  assert (bool_decide (list ≠ NULL));;
  get_prev (tail_of list).

Definition list_prev (elem : Z) : M lheap Z :=
  ok ← or_else (is_interior elem) (is_tail elem);
  assert ok;;
  get_prev elem.

Definition list_rend (list : Z) : M lheap Z :=
  assert (bool_decide (list ≠ NULL));;
  mret (head_of list).

Definition list_head (list : Z) : M lheap Z :=
  assert (bool_decide (list ≠ NULL));;
  mret (head_of list).

Definition list_tail (list : Z) : M lheap Z :=
  assert (bool_decide (list ≠ NULL));;
  mret (tail_of list).

(** ** Insertion and removal *)

Definition list_insert (before elem : Z) : M lheap unit :=
  ok ← or_else (is_interior before) (is_tail before);
  assert ok;;
  assert (bool_decide (elem ≠ NULL));;
  bp ← get_prev before;
  set_prev elem bp;;
  set_next elem before;;
  bp ← get_prev before;
  set_next bp elem;;
  set_prev before elem.

Definition list_splice (before first last : Z) : M lheap unit :=
  ok ← or_else (is_interior before) (is_tail before);
  assert ok;;
  if bool_decide (first = last) then mret tt else
  last ← list_prev last;
  ok ← is_interior first;
  assert ok;;
  ok ← is_interior last;
  assert ok;;
  (* Cleanly remove FIRST...LAST from its current list. *)
  fp ← get_prev first;
  ln ← get_next last;
  set_next fp ln;;
  ln ← get_next last;
  fp ← get_prev first;
  set_prev ln fp;;
  (* Splice FIRST...LAST into new list. *)
  bp ← get_prev before;
  set_prev first bp;;
  set_next last before;;
  bp ← get_prev before;
  set_next bp first;;
  set_prev before last.

Definition list_push_front (list elem : Z) : M lheap unit :=
  b ← list_begin list; list_insert b elem.

Definition list_push_back (list elem : Z) : M lheap unit :=
  e ← list_end list; list_insert e elem.

Definition list_remove (elem : Z) : M lheap Z :=
  ok ← is_interior elem;
  assert ok;;
  p ← get_prev elem;
  n ← get_next elem;
  set_next p n;;
  n ← get_next elem;
  p ← get_prev elem;
  set_prev n p;;
  get_next elem.

Definition list_empty (list : Z) : M lheap bool :=
  b ← list_begin list;
  e ← list_end list;
  mret (bool_decide (b = e)).

Definition list_front (list : Z) : M lheap Z :=
  e ← list_empty list;
  assert (negb e);;
  get_next (head_of list).

Definition list_back (list : Z) : M lheap Z :=
  e ← list_empty list;
  assert (negb e);;
  get_prev (tail_of list).

Definition list_pop_front (list : Z) : M lheap Z :=
  front ← list_front list;
  list_remove front;;
  mret front.

Definition list_pop_back (list : Z) : M lheap Z :=
  back ← list_back list;
  list_remove back;;
  mret back.

(** ** Whole-list operations *)

Fixpoint list_size_loop (fuel : nat) (list e cnt : Z) : M lheap Z :=
  match fuel with
  | O => nofuel
  | S fuel =>
    en ← list_end list;
    if bool_decide (e = en) then mret cnt else
    e' ← list_next e;
    list_size_loop fuel list e' (u32 (cnt + 1))
  end.

Definition list_size (list : Z) : M lheap Z :=
  n ← gets size;
  b ← list_begin list;
  list_size_loop n list b 0.

(** A C lvalue of type [struct list_elem *], for [swap]. *)
Record lvalue := LValue { rd : M lheap Z; wr : Z → M lheap unit }.
Definition lv_prev (e : Z) : lvalue := LValue (get_prev e) (set_prev e).
Definition lv_next (e : Z) : lvalue := LValue (get_next e) (set_next e).

Definition swap (a b : lvalue) : M lheap unit :=
  t ← rd a;
  vb ← rd b;
  wr a vb;;
  wr b t.

Fixpoint list_reverse_loop (fuel : nat) (list e : Z) : M lheap unit :=
  match fuel with
  | O => nofuel
  | S fuel =>
    en ← list_end list;
    if bool_decide (e = en) then mret tt else
    swap (lv_prev e) (lv_next e);;
    e' ← get_prev e;
    list_reverse_loop fuel list e'
  end.

Definition list_reverse (list : Z) : M lheap unit :=
  n ← gets size;
  emp ← list_empty list;
  if (emp : bool) then mret tt else
  b ← list_begin list;
  list_reverse_loop n list b;;
  swap (lv_next (head_of list)) (lv_prev (tail_of list));;
  hn ← get_next (head_of list);
  tp ← get_prev (tail_of list);
  swap (lv_prev hn) (lv_next tp).

(** ** Operations on ordered lists

    [less] is the client's [list_less_func], already applied to [aux]. *)
Section ordered.
Context (less : Z → Z → bool).

Fixpoint is_sorted_loop (fuel : nat) (a b : Z) : M lheap bool :=
  match fuel with
  | O => nofuel
  | S fuel =>
    a ← list_next a;
    if bool_decide (a = b) then mret true else
    p ← list_prev a;
    if less a p then mret false else is_sorted_loop fuel a b
  end.

Definition is_sorted (a b : Z) : M lheap bool :=
  n ← gets size;
  if bool_decide (a ≠ b) then is_sorted_loop n a b else mret true.

Fixpoint find_end_of_run_loop (fuel : nat) (a b : Z) : M lheap Z :=
  match fuel with
  | O => nofuel
  | S fuel =>
    a ← list_next a;
    if bool_decide (a = b) then mret a else
    p ← list_prev a;
    if less a p then mret a else find_end_of_run_loop fuel a b
  end.

Definition find_end_of_run (a b : Z) : M lheap Z :=
  n ← gets size;
  assert (bool_decide (a ≠ NULL));;
  assert (bool_decide (b ≠ NULL));;
  assert (bool_decide (a ≠ b));;
  find_end_of_run_loop n a b.

Fixpoint inplace_merge_loop (fuel : nat) (a0 a1b0 b1 : Z) : M lheap unit :=
  match fuel with
  | O => nofuel
  | S fuel =>
    if bool_decide (a0 = a1b0) || bool_decide (a1b0 = b1) then mret tt
    else if negb (less a1b0 a0) then
      a0 ← list_next a0;
      inplace_merge_loop fuel a0 a1b0 b1
    else
      a1b0 ← list_next a1b0;
      p ← list_prev a1b0;
      list_splice a0 p a1b0;;
      inplace_merge_loop fuel a0 a1b0 b1
  end.

Definition inplace_merge (a0 a1b0 b1 : Z) : M lheap unit :=
  n ← gets size;
  assert (bool_decide (a0 ≠ NULL));;
  assert (bool_decide (a1b0 ≠ NULL));;
  assert (bool_decide (b1 ≠ NULL));;
  ok ← is_sorted a0 a1b0;
  assert ok;;
  ok ← is_sorted a1b0 b1;
  assert ok;;
  inplace_merge_loop n a0 a1b0 b1.

(** The [for] loop of one pass of [list_sort]; returns [output_run_cnt]. *)
Fixpoint sort_pass_loop (fuel : nat) (list a0 output_run_cnt : Z) : M lheap Z :=
  match fuel with
  | O => nofuel
  | S fuel =>
    en ← list_end list;
    if bool_decide (a0 = en) then mret output_run_cnt else
    let output_run_cnt := u32 (output_run_cnt + 1) in
    en ← list_end list;
    a1b0 ← find_end_of_run a0 en;
    en ← list_end list;
    if bool_decide (a1b0 = en) then mret output_run_cnt else
    en ← list_end list;
    b1 ← find_end_of_run a1b0 en;
    inplace_merge a0 a1b0 b1;;
    sort_pass_loop fuel list b1 output_run_cnt
  end.

(** The enclosing [do ... while (output_run_cnt > 1)]. *)
Fixpoint list_sort_loop (fuel : nat) (list : Z) : M lheap unit :=
  match fuel with
  | O => nofuel
  | S fuel =>
    n ← gets size;
    a0 ← list_begin list;
    cnt ← sort_pass_loop n list a0 0;
    if bool_decide (1 < cnt) then list_sort_loop fuel list else mret tt
  end.

Definition list_sort (list : Z) : M lheap unit :=
  n ← gets size;
  assert (bool_decide (list ≠ NULL));;
  list_sort_loop n list;;
  b ← list_begin list;
  e ← list_end list;
  ok ← is_sorted b e;
  assert ok.

Fixpoint insert_ordered_loop (fuel : nat) (list elem e : Z) : M lheap Z :=
  match fuel with
  | O => nofuel
  | S fuel =>
    en ← list_end list;
    if bool_decide (e = en) then mret e else
    if less elem e then mret e else
    e ← list_next e;
    insert_ordered_loop fuel list elem e
  end.

Definition list_insert_ordered (list elem : Z) : M lheap unit :=
  n ← gets size;
  assert (bool_decide (list ≠ NULL));;
  assert (bool_decide (elem ≠ NULL));;
  b ← list_begin list;
  e ← insert_ordered_loop n list elem b;
  list_insert e elem.

Fixpoint list_unique_loop (fuel : nat) (list duplicates elem : Z) : M lheap unit :=
  match fuel with
  | O => nofuel
  | S fuel =>
    nx ← list_next elem;
    en ← list_end list;
    if bool_decide (nx = en) then mret tt else
    if negb (less elem nx) && negb (less nx elem) then
      list_remove nx;;
      (if bool_decide (duplicates ≠ NULL) then list_push_back duplicates nx else mret tt);;
      list_unique_loop fuel list duplicates elem
    else list_unique_loop fuel list duplicates nx
  end.

Definition list_unique (list duplicates : Z) : M lheap unit :=
  n ← gets size;
  assert (bool_decide (list ≠ NULL));;
  emp ← list_empty list;
  if (emp : bool) then mret tt else
  elem ← list_begin list;
  list_unique_loop n list duplicates elem.

Fixpoint list_max_loop (fuel : nat) (list max e : Z) : M lheap Z :=
  match fuel with
  | O => nofuel
  | S fuel =>
    en ← list_end list;
    if bool_decide (e = en) then mret max else
    let max := if less max e then e else max in
    e ← list_next e;
    list_max_loop fuel list max e
  end.

Definition list_max (list : Z) : M lheap Z :=
  n ← gets size;
  max ← list_begin list;
  en ← list_end list;
  if bool_decide (max ≠ en) then
    e ← list_next max;
    list_max_loop n list max e
  else mret max.

Fixpoint list_min_loop (fuel : nat) (list min e : Z) : M lheap Z :=
  match fuel with
  | O => nofuel
  | S fuel =>
    en ← list_end list;
    if bool_decide (e = en) then mret min else
    let min := if less e min then e else min in
    e ← list_next e;
    list_min_loop fuel list min e
  end.

Definition list_min (list : Z) : M lheap Z :=
  n ← gets size;
  min ← list_begin list;
  en ← list_end list;
  if bool_decide (min ≠ en) then
    e ← list_next min;
    list_min_loop n list min e
  else mret min.
End ordered.
