(* ===== verification/KListFacts.v ===== *)
(** * KListFacts: correctness of the kernel list

    The representation predicate [is_list h lst xs] says that the [struct list]
    at address [lst] holds exactly the elements [xs], in that order, in the heap
    [h].  For every operation of [KList] the file proves that it returns (no
    assertion fails, no loop runs out of fuel) and that the represented sequence
    changes as the list interface promises, everything outside the list being
    left alone. *)

From S2P Require Import Prelude Links KList.

Record is_list (h : lheap) (lst : Z) (xs : list Z) : Prop := {
  il_chain : chain h (head_of lst :: xs ++ [tail_of lst]);
  il_nodup : NoDup (head_of lst :: xs ++ [tail_of lst]);
  il_head : prv h (head_of lst) = Some NULL;
  il_tail : nxt h (tail_of lst) = Some NULL
}.

(** The addresses a list occupies. *)
Definition footprint (lst : Z) (xs : list Z) : list Z :=
  head_of lst :: xs ++ [tail_of lst].

(** ** Running the elementary operations *)

Lemma is_interior_run h e p n :
  prv h e = Some p → nxt h e = Some n →
  is_interior e h = Ret (bool_decide (p ≠ NULL) && bool_decide (n ≠ NULL), h).
Proof.
  intros Hp Hn. unfold is_interior.
  rewrite bool_decide_eq_false_2 by (eapply valid_not_null; eauto with links).
  run_step (get_prev_run _ _ _ Hp). destruct (bool_decide (p ≠ NULL)); [|done].
  by run_step (get_next_run _ _ _ Hn).
Qed.

Lemma is_head_run h e p n :
  prv h e = Some p → nxt h e = Some n →
  is_head e h = Ret (bool_decide (p = NULL) && bool_decide (n ≠ NULL), h).
Proof.
  intros Hp Hn. unfold is_head.
  rewrite bool_decide_eq_false_2 by (eapply valid_not_null; eauto with links).
  run_step (get_prev_run _ _ _ Hp). destruct (bool_decide (p = NULL)); [|done].
  by run_step (get_next_run _ _ _ Hn).
Qed.

Lemma is_tail_run h e p n :
  prv h e = Some p → nxt h e = Some n →
  is_tail e h = Ret (bool_decide (p ≠ NULL) && bool_decide (n = NULL), h).
Proof.
  intros Hp Hn. unfold is_tail.
  rewrite bool_decide_eq_false_2 by (eapply valid_not_null; eauto with links).
  run_step (get_prev_run _ _ _ Hp). destruct (bool_decide (p ≠ NULL)); [|done].
  by run_step (get_next_run _ _ _ Hn).
Qed.

Lemma list_next_run h e n : nxt h e = Some n → n ≠ NULL → list_next e h = Ret (n, h).
Proof.
  intros Hn Hnn. destruct (valid_links h e) as (p & n' & Hp & Hn'); [eauto with links|].
  rewrite Hn in Hn'. simplify_eq. unfold list_next, or_else. rewrite bind_assoc.
  run_step (is_head_run _ _ _ _ Hp Hn). rewrite (bool_decide_eq_true_2 (n' ≠ NULL)) by done.
  rewrite andb_true_r. case_bool_decide.
  - rb. by apply get_next_run.
  - run_step (is_interior_run _ _ _ _ Hp Hn). rewrite !bool_decide_eq_true_2 by done.
    rb. by apply get_next_run.
Qed.

(** [ASSERT (is_interior (before) || is_tail (before))] succeeds. *)
Lemma before_ok_run h e p :
  prv h e = Some p → p ≠ NULL → or_else (is_interior e) (is_tail e) h = Ret (true, h).
Proof.
  intros Hp Hpn. destruct (valid_links h e) as (p' & n & Hp' & Hn); [eauto with links|].
  rewrite Hp in Hp'. simplify_eq. unfold or_else.
  run_step (is_interior_run _ _ _ _ Hp Hn).
  rewrite (bool_decide_eq_true_2 (p' ≠ NULL)) by done. simpl. case_bool_decide; [done|].
  rewrite (is_tail_run _ _ _ _ Hp Hn).
  rewrite !bool_decide_eq_true_2 by (done || by apply dec_stable). done.
Qed.

Lemma list_prev_run h e p : prv h e = Some p → p ≠ NULL → list_prev e h = Ret (p, h).
Proof.
  intros Hp Hpn. unfold list_prev. run_step (before_ok_run _ _ _ Hp Hpn).
  rb. by apply get_prev_run.
Qed.

Lemma interior_ok_run h e p n :
  prv h e = Some p → nxt h e = Some n → p ≠ NULL → n ≠ NULL →
  is_interior e h = Ret (true, h).
Proof.
  intros Hp Hn ??. rewrite (is_interior_run _ _ _ _ Hp Hn).
  by rewrite !bool_decide_eq_true_2.
Qed.

(** ** Insertion and removal on chains *)

Section chains.
Implicit Types (h : lheap) (pre post : list Z) (a b e : Z).

Lemma list_insert_run h pre a b post e :
  chain h (pre ++ a :: b :: post) → NoDup (pre ++ a :: b :: post) →
  valid h e → e ∉ pre ++ a :: b :: post →
  ∃ h', list_insert b e h = Ret (tt, h') ∧ same_cells h h' ∧
    chain h' (pre ++ a :: e :: b :: post) ∧
    (∀ q, q ≠ a → q ≠ e → nxt h' q = nxt h q) ∧
    (∀ q, q ≠ b → q ≠ e → prv h' q = prv h q).
Proof.
  intros Hc Hnd He Hne.
  pose proof (chain_next _ _ _ _ _ Hc) as Hab. pose proof (chain_prev _ _ _ _ _ Hc) as Hba.
  assert (valid h a) as Hva by eauto with links.
  assert (valid h b) as Hvb by eauto with links.
  apply chain_split in Hc as [Hc1 Hc2]. rewrite chain_cons2 in Hc2.
  destruct Hc2 as (_ & _ & Hc2).
  rewrite NoDup_app, !NoDup_cons in Hnd. destruct Hnd as (_ & Hnd1 & Hnd2 & Hnd3 & _).
  assert ((e ≠ a) ∧ (e ≠ b) ∧ (a ≠ b) ∧ (e ∉ pre) ∧ (e ∉ post) ∧ (a ∉ pre) ∧
    (a ∉ post) ∧ (b ∉ pre))
    as (?&?&?&?&?&?&?&?) by (repeat split; set_solver).
  exists (upd_prev b e (upd_next a e (upd_next e b (upd_prev e a h)))).
  split_and!.
  - unfold list_insert. pose proof (valid_not_null _ _ Hva) as Hna.
    pose proof (valid_not_null _ _ He). run_step (before_ok_run _ _ _ Hba Hna). rb.
    run_step (get_prev_run _ _ _ Hba). run_step (set_prev_run h e a He).
    wr_next. rd_prev a. wr_next. apply set_prev_run. valids.
  - cells.
  - apply chain_split. split.
    + apply chain_upd_prev'; [set_solver|]. apply chain_upd_next; [done|].
      apply chain_upd_next'; [set_solver|]. by apply chain_upd_prev'; [set_solver|].
    + rewrite !chain_cons2. split_and!; lk; try done.
      apply chain_upd_prev; [set_solver|]. apply chain_upd_next'; [set_solver|].
      apply chain_upd_next'; [set_solver|]. by apply chain_upd_prev'; [set_solver|].
  - intros q ??. by lk.
  - intros q ??. by lk.
Qed.

Lemma list_remove_run h pre a e b post :
  chain h (pre ++ a :: e :: b :: post) → NoDup (pre ++ a :: e :: b :: post) →
  ∃ h', list_remove e h = Ret (b, h') ∧ same_cells h h' ∧
    chain h' (pre ++ a :: b :: post) ∧
    (∀ q, q ≠ a → nxt h' q = nxt h q) ∧ (∀ q, q ≠ b → prv h' q = prv h q).
Proof.
  intros Hc Hnd.
  pose proof (chain_next _ _ _ _ _ Hc) as Hae. pose proof (chain_prev _ _ _ _ _ Hc) as Hea.
  apply chain_split in Hc as [Hc1 Hc2]. rewrite !chain_cons2 in Hc2.
  destruct Hc2 as (_ & _ & Heb & Hbe & Hc2).
  rewrite NoDup_app, !NoDup_cons in Hnd.
  destruct Hnd as (_ & Hnd1 & Hnd2 & Hnd3 & Hnd4 & _).
  assert ((e ≠ a) ∧ (e ≠ b) ∧ (a ≠ b) ∧ (a ∉ pre) ∧ (a ∉ post) ∧ (b ∉ pre) ∧ (b ∉ post))
    as (?&?&?&?&?&?&?) by (repeat split; set_solver).
  assert (a ≠ NULL) by (eapply valid_not_null; eauto with links).
  assert (b ≠ NULL) by (eapply valid_not_null; eauto with links).
  exists (upd_prev b a (upd_next a b h)). split_and!.
  - unfold list_remove. rewrite (bind_Ret _ _ _ true h) by (by eapply interior_ok_run).
    rb. rd_prev a. rd_next b. wr_next. rd_next b. rd_prev a. wr_prev.
    apply get_next_run. by lk.
  - cells.
  - apply chain_split. split.
    + apply chain_upd_prev'; [set_solver|]. by apply chain_upd_next.
    + rewrite chain_cons2. split_and!; lk; try done.
      apply chain_upd_prev; [done|]. by apply chain_upd_next'; [set_solver|].
  - intros q ?. by lk.
  - intros q ?. by lk.
Qed.

(** What [list_splice (before, f, n)] does to the links, when [f] .. [l] is the
    non-empty range that ends before [n]. *)
Lemma list_splice_links h before bp p f l n :
  prv h before = Some bp → prv h f = Some p → nxt h p = Some f →
  nxt h l = Some n → prv h n = Some l → nxt h bp = Some before →
  is_Some (prv h l) → prv h l ≠ Some NULL → nxt h f ≠ Some NULL →
  f ≠ n → p ≠ l → p ≠ bp → l ≠ bp → n ≠ f → n ≠ before → f ≠ before →
  ∃ h', list_splice before f n h = Ret (tt, h') ∧ same_cells h h' ∧
    nxt h' p = Some n ∧ prv h' n = Some p ∧ prv h' f = Some bp ∧
    nxt h' l = Some before ∧ nxt h' bp = Some f ∧ prv h' before = Some l ∧
    (∀ q, q ≠ p → q ≠ l → q ≠ bp → nxt h' q = nxt h q) ∧
    (∀ q, q ≠ n → q ≠ f → q ≠ before → prv h' q = prv h q).
Proof.
  intros Hbp Hfp Hpf Hln Hnl Hbpn [lp Hlp] Hlp0 Hfn0 ???????.
  destruct (valid_links h f) as (fp & fn & Hfp' & Hfn); [eauto with links|].
  assert (valid h p) by eauto with links. assert (valid h l) by eauto with links.
  assert (valid h n) by eauto with links. assert (valid h bp) by eauto with links.
  assert (valid h f) by eauto with links. assert (valid h before) by eauto with links.
  assert (p ≠ NULL ∧ l ≠ NULL ∧ n ≠ NULL ∧ bp ≠ NULL) as (?&?&?&?)
    by (repeat split; by eapply valid_not_null).
  exists (upd_prev before l (upd_next bp f (upd_next l before
          (upd_prev f bp (upd_prev n p (upd_next p n h)))))).
  split_and!; [| cells | by lk ..| |].
  - unfold list_splice. run_step (before_ok_run h before bp Hbp ltac:(done)). rb.
    rewrite bool_decide_eq_false_2 by done.
    run_step (list_prev_run h n l Hnl ltac:(done)).
    rewrite (bind_Ret _ _ _ true h) by (eapply interior_ok_run; eauto; congruence). rb.
    rewrite (bind_Ret _ _ _ true h) by (eapply interior_ok_run; eauto; congruence). rb.
    rd_prev p. rd_next n. wr_next. rd_next n. rd_prev p. wr_prev.
    rd_prev bp. wr_prev. wr_next. rd_prev bp. wr_next. apply set_prev_run. valids.
  - intros q ???. by lk.
  - intros q ???. by lk.
Qed.
End chains.

(** ** Lists as sequences: traversal *)

Section traversal.
Implicit Types (h : lheap) (pre post xs : list Z).

Lemma chain_next_run h pre a b post :
  chain h (pre ++ a :: b :: post) → list_next a h = Ret (b, h).
Proof.
  intros Hc. apply list_next_run; [by eapply chain_next|].
  apply chain_prev in Hc. eapply valid_not_null; eauto with links.
Qed.

Lemma chain_prev_run h pre a b post :
  chain h (pre ++ a :: b :: post) → list_prev b h = Ret (a, h).
Proof.
  intros Hc. apply list_prev_run; [by eapply chain_prev|].
  apply chain_next in Hc. eapply valid_not_null; eauto with links.
Qed.

Lemma is_list_valid h lst xs q : is_list h lst xs → q ∈ footprint lst xs → valid h q.
Proof.
  intros [Hc _ _ _] Hq. apply chain_valid in Hc.
  - by eapply Forall_forall in Hc.
  - cbn [length]. rewrite length_app. simpl. lia.
Qed.

Lemma is_list_not_null h lst xs : is_list h lst xs → lst ≠ NULL.
Proof.
  intros Hl. eapply valid_not_null, is_list_valid; [done|]. unfold footprint, head_of.
  set_solver.
Qed.

Lemma is_list_size h lst xs : is_list h lst xs → (length xs + 2 ≤ size h)%nat.
Proof.
  intros Hl. pose proof (NoDup_valid_size h (footprint lst xs) (il_nodup _ _ _ Hl)) as Hs.
  unfold footprint in Hs. cbn [length] in Hs. rewrite length_app in Hs. cbn [length] in Hs.
  assert (Forall (valid h) (head_of lst :: xs ++ [tail_of lst])).
  { apply Forall_forall. intros q Hq. by eapply is_list_valid. }
  specialize (Hs H). lia.
Qed.

Lemma list_end_run h lst : lst ≠ NULL → list_end lst h = Ret (tail_of lst, h).
Proof. intros. unfold list_end. rb. done. Qed.

Lemma list_begin_run h lst xs :
  is_list h lst xs → list_begin lst h = Ret (hd (tail_of lst) xs, h).
Proof.
  intros Hl. pose proof (is_list_not_null _ _ _ Hl). unfold list_begin. rb.
  apply get_next_run. destruct Hl as [Hc _ _ _].
  destruct xs; apply (chain_next _ [] _ _ _ Hc).
Qed.

Lemma is_list_ne_tail h lst xs x : is_list h lst xs → x ∈ xs → x ≠ tail_of lst.
Proof.
  intros [_ Hnd _ _] Hx ->. rewrite NoDup_cons, NoDup_app in Hnd. set_solver.
Qed.

Lemma list_empty_run h lst xs :
  is_list h lst xs → list_empty lst h = Ret (bool_decide (xs = []), h).
Proof.
  intros Hl. unfold list_empty. run_step (list_begin_run _ _ _ Hl).
  run_step (list_end_run h lst (is_list_not_null _ _ _ Hl)).
  unfold mret, M_ret. do 2 f_equal. apply bool_decide_ext.
  destruct xs as [|x xs]; [done|]. simpl. split; [|done]. intros ->.
  by destruct (is_list_ne_tail _ _ _ (tail_of lst) Hl); [set_solver|].
Qed.

Lemma list_size_loop_run h lst pre xs cnt fuel :
  lst ≠ NULL →
  chain h (pre ++ xs ++ [tail_of lst]) → tail_of lst ∉ xs → (length xs < fuel)%nat →
  list_size_loop fuel lst (hd (tail_of lst) xs) cnt h
  = Ret (if bool_decide (xs = []) then cnt else u32 (cnt + Z.of_nat (length xs)), h).
Proof.
  intros Hnn. revert pre cnt fuel. induction xs as [|x xs IH]; intros pre cnt fuel Hc Ht Hf;
    (destruct fuel as [|fuel]; [simpl in Hf; lia|]); cbn [list_size_loop hd];
    run_step (list_end_run h lst Hnn).
  - rewrite !bool_decide_eq_true_2 by done. done.
  - rewrite bool_decide_eq_false_2 by set_solver.
    assert (list_next x h = Ret (hd (tail_of lst) xs, h)) as Hn.
    { destruct xs; eapply chain_next_run; exact Hc. }
    run_step Hn. rewrite (IH (pre ++ [x])).
    + rewrite (bool_decide_eq_false_2 (x :: xs = [])) by done. do 2 f_equal.
      case_bool_decide; subst; cbn [length]; [f_equal; lia|].
      unfold uwrap. rewrite Zplus_mod_idemp_l. f_equal. lia.
    + by rewrite <- app_assoc.
    + set_solver.
    + simpl in Hf. lia.
Qed.

Lemma list_size_run h lst xs :
  is_list h lst xs → list_size lst h = Ret (u32 (Z.of_nat (length xs)), h).
Proof.
  intros Hl. unfold list_size. rewrite (bind_Ret _ _ _ (size h) h) by done.
  run_step (list_begin_run _ _ _ Hl). rewrite (list_size_loop_run h lst [head_of lst] xs).
  - do 2 f_equal. by case_bool_decide; subst.
  - by eapply is_list_not_null.
  - apply (il_chain _ _ _ Hl).
  - intros Ht. by apply (is_list_ne_tail _ _ _ _ Hl Ht).
  - apply is_list_size in Hl. lia.
Qed.
End traversal.

(** ** Insertion, removal: the represented sequence *)

Section updates.
Implicit Types (h : lheap) (xs ys : list Z).

(** Rebuilds [is_list] after an operation that only relinked the footprint. *)
Lemma is_list_intro h h' lst xs ys :
  is_list h lst xs → chain h' (footprint lst ys) → NoDup (footprint lst ys) →
  prv h' (head_of lst) = prv h (head_of lst) →
  nxt h' (tail_of lst) = nxt h (tail_of lst) →
  is_list h' lst ys.
Proof. intros [_ _ H1 H2] ?? Hp Hn. split; [done|done|by rewrite Hp|by rewrite Hn]. Qed.

Lemma footprint_insert lst xs e ys :
  footprint lst (xs ++ e :: ys) ≡ₚ e :: footprint lst (xs ++ ys).
Proof.
  unfold footprint. rewrite <- (Permutation_middle xs ys e). simpl. apply Permutation_swap.
Qed.

(** The list seen from a gap: [a] is the last of the left part and [b] the first
    of the right one (sentinels included). *)
Lemma footprint_gap lst xs ys :
  ∃ pre a post, head_of lst :: xs = pre ++ [a] ∧
    ys ++ [tail_of lst] = hd (tail_of lst) ys :: post ∧
    footprint lst (xs ++ ys) = pre ++ a :: hd (tail_of lst) ys :: post.
Proof.
  destruct (exists_last (l:=head_of lst :: xs)) as (pre & a & Hpa); [done|].
  exists pre, a, (tail (ys ++ [tail_of lst])). split_and!; [done|by destruct ys|].
  unfold footprint. rewrite <- app_assoc, app_comm_cons, Hpa, <- app_assoc.
  by destruct ys.
Qed.

Lemma list_insert_is_list h lst xs ys e :
  is_list h lst (xs ++ ys) → valid h e → e ∉ footprint lst (xs ++ ys) →
  ∃ h', list_insert (hd (tail_of lst) ys) e h = Ret (tt, h') ∧ same_cells h h' ∧
    is_list h' lst (xs ++ e :: ys) ∧ agree_off (e :: footprint lst (xs ++ ys)) h h'.
Proof.
  intros Hl He Hne. destruct (footprint_gap lst xs ys) as (pre & a & post & Hpa & Hpb & Hfp).
  pose proof (il_chain _ _ _ Hl) as Hc. pose proof (il_nodup _ _ _ Hl) as Hnd.
  fold (footprint lst (xs ++ ys)) in Hc, Hnd.
  assert (NoDup (footprint lst (xs ++ e :: ys))) as Hnd'.
  { rewrite footprint_insert. by apply NoDup_cons. }
  rewrite Hfp in Hc, Hnd. pose proof Hne as Hne'. rewrite Hfp in Hne.
  destruct (list_insert_run h pre a _ post e Hc Hnd He Hne)
    as (h' & Hrun & Hs & Hc' & Hnx & Hpv).
  assert (head_of lst ∈ pre ++ [a]) as Hh by (rewrite <- Hpa; set_solver).
  assert (tail_of lst ∈ hd (tail_of lst) ys :: post) as Ht by (rewrite <- Hpb; set_solver).
  rewrite NoDup_app, !NoDup_cons in Hnd. destruct Hnd as (_ & Hnd1 & Hnd2 & Hnd3 & _).
  exists h'. split_and!; [done|done| |].
  - eapply is_list_intro; [exact Hl| |done|apply Hpv; set_solver|apply Hnx; set_solver].
    unfold footprint. rewrite <- app_assoc, app_comm_cons, Hpa, <- app_assoc.
    cbn [app]. by rewrite Hpb.
  - intros q Hq. rewrite Hfp in Hq. split; [apply Hnx|apply Hpv]; set_solver.
Qed.

Lemma list_remove_is_list h lst xs e ys :
  is_list h lst (xs ++ e :: ys) →
  ∃ h', list_remove e h = Ret (hd (tail_of lst) ys, h') ∧ same_cells h h' ∧
    is_list h' lst (xs ++ ys) ∧ agree_off (footprint lst (xs ++ ys)) h h'.
Proof.
  intros Hl. destruct (footprint_gap lst xs ys) as (pre & a & post & Hpa & Hpb & Hfp).
  pose proof (il_chain _ _ _ Hl) as Hc. pose proof (il_nodup _ _ _ Hl) as Hnd.
  fold (footprint lst (xs ++ e :: ys)) in Hc, Hnd.
  assert (footprint lst (xs ++ e :: ys) = pre ++ a :: e :: hd (tail_of lst) ys :: post)
    as Hfp'.
  { unfold footprint. rewrite <- app_assoc, app_comm_cons, Hpa, <- app_assoc.
    cbn [app]. by rewrite Hpb. }
  pose proof Hnd as Hnd0. rewrite footprint_insert, NoDup_cons in Hnd0.
  destruct Hnd0 as [Hne Hnd0]. rewrite Hfp' in Hc, Hnd.
  destruct (list_remove_run h pre a e _ post Hc Hnd) as (h' & Hrun & Hs & Hc' & Hnx & Hpv).
  assert (head_of lst ∈ pre ++ [a]) as Hh by (rewrite <- Hpa; set_solver).
  assert (tail_of lst ∈ hd (tail_of lst) ys :: post) as Ht by (rewrite <- Hpb; set_solver).
  rewrite NoDup_app, !NoDup_cons in Hnd. destruct Hnd as (_ & Hnd1 & Hnd2 & Hnd3 & _).
  exists h'. split_and!; [done|done| |].
  - eapply is_list_intro; [exact Hl|by rewrite Hfp|done|apply Hpv; set_solver|apply Hnx; set_solver].
  - intros q Hq. rewrite Hfp in Hq. split; [apply Hnx|apply Hpv]; set_solver.
Qed.

(** Another list disjoint from the touched addresses is not affected. *)
Lemma is_list_frame h h' lst xs S :
  is_list h lst xs → agree_off S h h' → (∀ q, q ∈ footprint lst xs → q ∉ S) →
  is_list h' lst xs.
Proof.
  intros [Hc Hnd Hh Ht] Ha Hd. split; [|done| |].
  - eapply chain_ext; [|exact Hc]. intros q Hq. destruct (Ha q (Hd q Hq)). done.
  - destruct (Ha (head_of lst)) as [_ ->]; [|done]. apply Hd. unfold footprint. set_solver.
  - destruct (Ha (tail_of lst)) as [-> _]; [|done]. apply Hd. unfold footprint. set_solver.
Qed.
End updates.

(** ** The deque operations *)

Section deque.
Implicit Types (h : lheap) (xs ys : list Z).

Lemma list_init_run h lst :
  valid h (head_of lst) → valid h (tail_of lst) →
  ∃ h', list_init lst h = Ret (tt, h') ∧ same_cells h h' ∧ is_list h' lst [] ∧
    agree_off [head_of lst; tail_of lst] h h'.
Proof.
  intros Hh Ht. assert (head_of lst ≠ tail_of lst) by (unfold head_of, tail_of; lia).
  assert (lst ≠ NULL) by (apply valid_not_null in Hh; done).
  exists (upd_next (tail_of lst) NULL (upd_prev (tail_of lst) (head_of lst)
         (upd_next (head_of lst) (tail_of lst) (upd_prev (head_of lst) NULL h)))).
  split_and!; [|cells| |].
  - unfold list_init. rb. wr_prev. wr_next. wr_prev. apply set_next_run. valids.
  - split; [cbn [app]; rewrite chain_cons2; split_and!; by lk| |by lk|by lk].
    cbn [app]. repeat constructor; set_solver.
  - intros q Hq. assert (q ≠ head_of lst ∧ q ≠ tail_of lst) as [? ?] by set_solver.
    split; by lk.
Qed.

Lemma list_push_front_run h lst xs e :
  is_list h lst xs → valid h e → e ∉ footprint lst xs →
  ∃ h', list_push_front lst e h = Ret (tt, h') ∧ same_cells h h' ∧
    is_list h' lst (e :: xs) ∧ agree_off (e :: footprint lst xs) h h'.
Proof.
  intros Hl He Hne. unfold list_push_front. run_step (list_begin_run _ _ _ Hl).
  by apply (list_insert_is_list h lst [] xs e).
Qed.

Lemma list_push_back_run h lst xs e :
  is_list h lst xs → valid h e → e ∉ footprint lst xs →
  ∃ h', list_push_back lst e h = Ret (tt, h') ∧ same_cells h h' ∧
    is_list h' lst (xs ++ [e]) ∧ agree_off (e :: footprint lst xs) h h'.
Proof.
  intros Hl He Hne. unfold list_push_back.
  run_step (list_end_run h lst (is_list_not_null _ _ _ Hl)).
  pose proof (list_insert_is_list h lst xs [] e) as Hi. rewrite app_nil_r in Hi. by apply Hi.
Qed.

Lemma list_front_run h lst x xs :
  is_list h lst (x :: xs) → list_front lst h = Ret (x, h).
Proof.
  intros Hl. unfold list_front. run_step (list_empty_run _ _ _ Hl).
  rewrite bool_decide_eq_false_2 by done. rb. apply get_next_run.
  apply (chain_next h [] _ _ _ (il_chain _ _ _ Hl)).
Qed.

Lemma list_back_run h lst x xs :
  is_list h lst (xs ++ [x]) → list_back lst h = Ret (x, h).
Proof.
  intros Hl. unfold list_back. run_step (list_empty_run _ _ _ Hl).
  rewrite bool_decide_eq_false_2 by (by destruct xs). rb. apply get_prev_run.
  pose proof (il_chain _ _ _ Hl) as Hc. rewrite <- app_assoc in Hc.
  apply (chain_prev h (head_of lst :: xs) _ _ _ Hc).
Qed.

Lemma list_front_empty h lst : is_list h lst [] → list_front lst h = Crash.
Proof.
  intros Hl. unfold list_front. run_step (list_empty_run _ _ _ Hl). by apply bind_Crash.
Qed.

Lemma list_back_empty h lst : is_list h lst [] → list_back lst h = Crash.
Proof.
  intros Hl. unfold list_back. run_step (list_empty_run _ _ _ Hl). by apply bind_Crash.
Qed.

Lemma list_pop_front_run h lst x xs :
  is_list h lst (x :: xs) →
  ∃ h', list_pop_front lst h = Ret (x, h') ∧ same_cells h h' ∧
    is_list h' lst xs ∧ agree_off (footprint lst xs) h h'.
Proof.
  intros Hl. destruct (list_remove_is_list h lst [] x xs Hl) as (h' & Hr & ? & ? & ?).
  exists h'. split_and!; try done.
  unfold list_pop_front. run_step (list_front_run _ _ _ _ Hl). by run_step Hr.
Qed.

Lemma list_pop_back_run h lst x xs :
  is_list h lst (xs ++ [x]) →
  ∃ h', list_pop_back lst h = Ret (x, h') ∧ same_cells h h' ∧
    is_list h' lst xs ∧ agree_off (footprint lst xs) h h'.
Proof.
  intros Hl. destruct (list_remove_is_list h lst xs x [] Hl) as (h' & Hr & ? & Hl' & Ha).
  rewrite app_nil_r in Hl', Ha. exists h'. split_and!; try done.
  unfold list_pop_back. run_step (list_back_run _ _ _ _ Hl). by run_step Hr.
Qed.

(** A client's session with one list: the operations of the interface, their
    execution by [list.c] and their meaning on sequences.  [spec_op] is [None]
    where the interface forbids the call (popping an empty list, inserting an
    element that is already a member, removing one that is not). *)
Inductive list_op :=
| OpPushFront (e : Z)
| OpPushBack (e : Z)
| OpPopFront
| OpPopBack
| OpRemove (e : Z)
| OpEmpty
| OpSize.

Definition b2z (b : bool) : Z := if b then 1 else 0.

Definition exec_op (lst : Z) (op : list_op) : M lheap Z :=
  match op with
  | OpPushFront e => list_push_front lst e;; mret 0
  | OpPushBack e => list_push_back lst e;; mret 0
  | OpPopFront => list_pop_front lst
  | OpPopBack => list_pop_back lst
  | OpRemove e => list_remove e;; mret 0
  | OpEmpty => b ← list_empty lst; mret (b2z b)
  | OpSize => list_size lst
  end.

Definition spec_op (op : list_op) (xs : list Z) : option (Z * list Z) :=
  match op with
  | OpPushFront e => if bool_decide (e ∈ xs) then None else Some (0, e :: xs)
  | OpPushBack e => if bool_decide (e ∈ xs) then None else Some (0, xs ++ [e])
  | OpPopFront => match xs with [] => None | x :: xs => Some (x, xs) end
  | OpPopBack => x ← last xs; Some (x, take (length xs - 1) xs)
  | OpRemove e => if bool_decide (e ∈ xs) then Some (0, filter (λ x, x ≠ e) xs) else None
  | OpEmpty => Some (b2z (bool_decide (xs = [])), xs)
  | OpSize => Some (u32 (Z.of_nat (length xs)), xs)
  end.

Fixpoint exec_ops (lst : Z) (ops : list list_op) : M lheap (list Z) :=
  match ops with
  | [] => mret []
  | op :: ops => r ← exec_op lst op; rs ← exec_ops lst ops; mret (r :: rs)
  end.

Fixpoint spec_ops (ops : list list_op) (xs : list Z) : option (list Z * list Z) :=
  match ops with
  | [] => Some ([], xs)
  | op :: ops =>
    '(r, xs) ← spec_op op xs; '(rs, xs) ← spec_ops ops xs; Some (r :: rs, xs)
  end.

(** The elements a session may insert: allocated, and not the sentinels. *)
Definition op_elem_ok (h : lheap) (lst : Z) (op : list_op) : Prop :=
  match op with
  | OpPushFront e | OpPushBack e => valid h e ∧ e ≠ head_of lst ∧ e ≠ tail_of lst
  | _ => True
  end.

Lemma not_in_footprint lst xs e :
  e ∉ xs → e ≠ head_of lst → e ≠ tail_of lst → e ∉ footprint lst xs.
Proof. unfold footprint. set_solver. Qed.

Lemma filter_ne_middle xs e ys :
  e ∉ xs → e ∉ ys → filter (λ x, x ≠ e) (xs ++ e :: ys) = xs ++ ys.
Proof.
  intros H1 H2. rewrite filter_app, filter_cons_False by tauto.
  by rewrite !filter_all by set_solver.
Qed.

Lemma exec_op_correct h lst xs op r xs' :
  is_list h lst xs → op_elem_ok h lst op → spec_op op xs = Some (r, xs') →
  ∃ h', exec_op lst op h = Ret (r, h') ∧ same_cells h h' ∧ is_list h' lst xs'.
Proof.
  intros Hl Hok Hsp. destruct op; cbn [exec_op spec_op op_elem_ok] in *.
  - case_bool_decide; simplify_eq. destruct Hok as (? & ? & ?).
    destruct (list_push_front_run h lst xs e) as (h' & Hr & ? & ? & _);
      [done..|by apply not_in_footprint|].
    exists h'. by run_step Hr.
  - case_bool_decide; simplify_eq. destruct Hok as (? & ? & ?).
    destruct (list_push_back_run h lst xs e) as (h' & Hr & ? & ? & _);
      [done..|by apply not_in_footprint|].
    exists h'. by run_step Hr.
  - destruct xs as [|x xs]; simplify_eq.
    destruct (list_pop_front_run h lst r xs' Hl) as (h' & ? & ? & ? & _). eauto.
  - destruct (last xs) as [x|] eqn:Hla; simplify_eq/=.
    apply last_Some in Hla as [ys ->].
    rewrite length_app, Nat.add_sub, take_app_length.
    destruct (list_pop_back_run h lst r ys Hl) as (h' & ? & ? & ? & _). eauto.
  - case_bool_decide as Hin; simplify_eq. apply list_elem_of_split in Hin as (ys & zs & ->).
    destruct (list_remove_is_list h lst ys e zs Hl) as (h' & Hr & ? & Hl' & _).
    exists h'. run_step Hr. split_and!; try done.
    pose proof (il_nodup _ _ _ Hl) as Hnd. fold (footprint lst (ys ++ e :: zs)) in Hnd.
    rewrite footprint_insert, NoDup_cons in Hnd. unfold footprint in Hnd.
    rewrite filter_ne_middle; [done|set_solver..].
  - simplify_eq. exists h. run_step (list_empty_run _ _ _ Hl). done.
  - simplify_eq. exists h. rewrite (list_size_run _ _ _ Hl). done.
Qed.

Lemma op_elem_ok_cells h h' lst op :
  same_cells h h' → op_elem_ok h lst op → op_elem_ok h' lst op.
Proof. intros [Hv _]. destruct op; simpl; rewrite ?Hv; done. Qed.

Lemma exec_ops_correct h lst xs ops rs xs' :
  is_list h lst xs → Forall (op_elem_ok h lst) ops → spec_ops ops xs = Some (rs, xs') →
  ∃ h', exec_ops lst ops h = Ret (rs, h') ∧ is_list h' lst xs'.
Proof.
  revert h xs rs. induction ops as [|op ops IH]; intros h xs rs Hl Hok Hsp;
    cbn [exec_ops spec_ops] in *; [simplify_eq; by exists h|].
  apply Forall_cons in Hok as [Hok Hoks].
  destruct (spec_op op xs) as [[r xs1]|] eqn:Hop; [|done]. cbn in Hsp.
  destruct (spec_ops ops xs1) as [[rs1 xs2]|] eqn:Hops; [|done]. cbn in Hsp. simplify_eq.
  destruct (exec_op_correct h lst xs op r xs1 Hl Hok Hop) as (h1 & Hr & Hs & Hl1).
  destruct (IH h1 xs1 rs1 Hl1) as (h2 & Hr2 & Hl2); [|done|].
  { eapply Forall_impl; [exact Hoks|]. intros. by eapply op_elem_ok_cells. }
  exists h2. run_step Hr. by run_step Hr2.
Qed.
End deque.
