(* ===== verification/KListSort.v ===== *)
(** * KListSort: the in-place natural merge sort of the kernel list

    The pure side ([span_run], [nruns], stdpp's [list_merge]) describes one pass
    of [list_sort]; the heap side shows that the pointer code realises it, that
    every assertion of the C code holds, and that the number of runs at least
    halves in each pass, so the [do ... while] loop ends with a sorted list. *)

From S2P Require Import Prelude Links KList KListFacts.

(** ** Splicing a range earlier in the same list *)

Lemma list_splice_earlier h pre bp x A f F n post :
  chain h (pre ++ bp :: (x :: A) ++ (f :: F) ++ n :: post) →
  NoDup (pre ++ bp :: (x :: A) ++ (f :: F) ++ n :: post) →
  ∃ h', list_splice x f n h = Ret (tt, h') ∧ same_cells h h' ∧
    chain h' (pre ++ bp :: (f :: F) ++ (x :: A) ++ n :: post) ∧
    (∀ q, q ∉ bp :: (x :: A) ++ f :: F → nxt h' q = nxt h q) ∧
    (∀ q, q ∉ (x :: A) ++ (f :: F) ++ [n] → prv h' q = prv h q).
Proof.
  intros Hc Hnd.
  destruct (exists_last (l:=x :: A)) as (A' & p & HA); [done|].
  destruct (exists_last (l:=f :: F)) as (F' & l & HF); [done|].
  pose proof (chain_next _ _ _ _ _ Hc) as Hbx. pose proof (chain_prev _ _ _ _ _ Hc) as Hxb.
  pose proof Hc as Hc0. apply chain_split in Hc as [Hc1 Hc]. apply chain_tail in Hc.
  pose proof Hc as HcA. rewrite HA, <- app_assoc in Hc. cbn [app] in Hc.
  pose proof (chain_next _ _ _ _ _ Hc) as Hpf. pose proof (chain_prev _ _ _ _ _ Hc) as Hfp.
  apply chain_split in Hc as [Hc2 Hc]. pose proof Hc as HcF. apply chain_tail in Hc.
  change (f :: F ++ n :: post) with ((f :: F) ++ n :: post) in Hc, HcF.
  rewrite HF, <- app_assoc in Hc. cbn [app] in Hc.
  pose proof (chain_next _ _ _ _ _ Hc) as Hln. pose proof (chain_prev _ _ _ _ _ Hc) as Hnl.
  apply chain_split in Hc as [Hc3 Hc]. apply chain_tail in Hc.
  assert (∃ r, prv h l = Some r ∧ valid h r) as (lp & Hlp & Hvlp).
  { eapply chain_prev_some; [exact HcF|]. rewrite HF. mem. }
  assert (∃ r, nxt h f = Some r ∧ valid h r) as (fn & Hfn & Hvfn).
  { eapply (chain_next_some h (f :: F) n); [|mem].
    apply chain_tail in HcF. by apply chain_split in HcF as [? _]. }
  apply valid_not_null in Hvlp, Hvfn.
  apply NoDup_app in Hnd as (_ & Npre & Hnd). apply NoDup_cons in Hnd as (Nbp & Hnd).
  apply NoDup_app in Hnd as (HndA & NA & Hnd). apply NoDup_app in Hnd as (HndF & NF & HndP).
  apply NoDup_cons in HndP as [Nn _].
  assert (p ∈ x :: A) as HpA by (rewrite HA; mem).
  assert (l ∈ f :: F) as HlF by (rewrite HF; mem).
  assert (x ∈ x :: A) as HxA by mem. assert (f ∈ f :: F) as HfF by mem.
  pose proof HndA as [HxA' _]%NoDup_cons. pose proof HndF as [HfF' _]%NoDup_cons.
  rewrite HA in HndA. apply NoDup_app in HndA as (_ & HpA' & _).
  rewrite HF in HndF. apply NoDup_app in HndF as (_ & HlF' & _).
  assert (f ≠ n) by (apply (notin_ne _ _ _ (NF f HfF)); mem).
  assert (p ≠ l) by (apply (notin_ne _ _ _ (NA p HpA)); mem).
  assert (p ≠ bp) by (apply (notin_ne' _ _ _ Nbp); mem).
  assert (l ≠ bp) by (apply (notin_ne' _ _ _ Nbp); mem).
  assert (n ≠ x) by (apply (notin_ne' _ _ _ (NA x HxA)); mem).
  assert (f ≠ x) by (apply (notin_ne' _ _ _ (NA x HxA)); mem).
  assert (is_Some (prv h l) ∧ prv h l ≠ Some NULL ∧ nxt h f ≠ Some NULL) as (?&?&?)
    by (split_and!; [by exists lp|congruence..]).
  destruct (list_splice_links h x bp p f l n) as
    (h' & Hr & Hs & L1 & L2 & L3 & L4 & L5 & L6 & Hnx & Hpv); [done..|].
  exists h'. split_and!; [done|done| | |].
  - replace (pre ++ bp :: (f :: F) ++ (x :: A) ++ n :: post)
      with ((pre ++ [bp]) ++ (f :: F ++ (x :: A) ++ n :: post)) by by rewrite <- app_assoc.
    apply chain_join; [|done|done|].
    { apply (chain_frame h); [| |done]; intros q Hq; [apply Hnx|apply Hpv].
      1-3: apply (notin_ne _ _ _ (Npre q Hq)); mem.
      all: apply elem_of_tail, elem_of_app in Hq as [Hq| ->%list_elem_of_singleton];
        [apply (notin_ne _ _ _ (Npre q Hq))|apply (notin_ne _ _ _ Nbp)]; mem. }
    change (f :: F ++ (x :: A) ++ n :: post) with ((f :: F) ++ x :: (A ++ n :: post)).
    rewrite HF. apply chain_join; [|done|done|].
    { apply (chain_frame h); [| |done]; intros q Hq; [apply Hnx|apply Hpv].
      4-6: rewrite <- HF in Hq; cbn [tail] in Hq; assert (q ∈ f :: F) as HqF by mem.
      1-3: assert (q ∈ f :: F) as HqF by (rewrite HF; mem).
      - apply (notin_ne' _ _ _ (NA p HpA)). mem.
      - apply (notin_ne _ _ _ (HlF' q Hq)). mem.
      - apply (notin_ne' _ _ _ Nbp). mem.
      - apply (notin_ne _ _ _ (NF q HqF)). mem.
      - by apply (notin_ne' _ _ _ HfF').
      - apply (notin_ne' _ _ _ (NA x HxA)). mem. }
    change (x :: A ++ n :: post) with ((x :: A) ++ n :: post).
    rewrite HA. apply chain_join; [|done|done|].
    { apply (chain_frame h); [| |done]; intros q Hq; [apply Hnx|apply Hpv].
      4-6: rewrite <- HA in Hq; cbn [tail] in Hq; assert (q ∈ x :: A) as HqA by mem.
      1-3: assert (q ∈ x :: A) as HqA by (rewrite HA; mem).
      - apply (notin_ne _ _ _ (HpA' q Hq)). mem.
      - apply (notin_ne _ _ _ (NA q HqA)). mem.
      - apply (notin_ne' _ _ _ Nbp). mem.
      - apply (notin_ne _ _ _ (NA q HqA)). mem.
      - apply (notin_ne _ _ _ (NA q HqA)). mem.
      - by apply (notin_ne' _ _ _ HxA'). }
    destruct (exists_last (l:=n :: post)) as (ws & w & Hw); [done|]. rewrite Hw.
    apply (chain_frame h); [| |by rewrite <- Hw]; intros q Hq; [apply Hnx|apply Hpv].
    4-6: rewrite <- Hw in Hq; cbn [tail] in Hq; assert (q ∈ n :: post) as HqP by mem.
    1-3: assert (q ∈ n :: post) as HqP by (rewrite Hw; mem).
    + apply (notin_ne' _ _ _ (NA p HpA)). mem.
    + apply (notin_ne' _ _ _ (NF l HlF)). mem.
    + apply (notin_ne' _ _ _ Nbp). mem.
    + by apply (notin_ne' _ _ _ Nn).
    + apply (notin_ne' _ _ _ (NF f HfF)). mem.
    + apply (notin_ne' _ _ _ (NA x HxA)). mem.
  - intros q Hq. apply Hnx; apply (notin_ne _ _ _ Hq); mem.
  - intros q Hq. apply Hpv; apply (notin_ne _ _ _ Hq); mem.
Qed.

Section sorting.
Context (less : Z → Z → bool).

(** A strict weak order, as the comparison callbacks of the list interface. *)
Class StrictWeakOrder := {
  swo_asym x y : less x y = true → less y x = false;
  swo_negtrans x y z : less x y = false → less y z = false → less x z = false
}.

(** [x] may stand before [y]. *)
Definition le_of (x y : Z) : Prop := less y x = false.

#[export] Instance le_of_dec x y : Decision (le_of x y).
Proof. unfold le_of. apply _. Defined.

Context `{!StrictWeakOrder}.

#[local] Instance le_of_total : Total le_of.
Proof.
  intros x y. unfold le_of. destruct (less y x) eqn:E; [right|by left].
  by apply swo_asym.
Qed.

#[local] Instance le_of_trans : Transitive le_of.
Proof. intros x y z. unfold le_of. intros H1 H2. by apply (swo_negtrans z y x). Qed.

(** ** Runs *)

(** The elements of [xs] that continue the run ending in [a], and the rest. *)
Fixpoint span_run (a : Z) (xs : list Z) : list Z * list Z :=
  match xs with
  | [] => ([], [])
  | x :: t => if less x a then ([], xs) else let '(r, rest) := span_run x t in (x :: r, rest)
  end.

Fixpoint nruns_from (a : Z) (xs : list Z) : nat :=
  match xs with
  | [] => 1
  | x :: t => (if less x a then 1 else 0) + nruns_from x t
  end.

(** The number of maximal nondecreasing runs. *)
Definition nruns (xs : list Z) : nat :=
  match xs with [] => 0 | a :: t => nruns_from a t end.

(** The adjacent test that [is_sorted] performs. *)
Fixpoint sortedb_from (a : Z) (xs : list Z) : bool :=
  match xs with
  | [] => true
  | x :: t => if less x a then false else sortedb_from x t
  end.

Definition sortedb (xs : list Z) : bool :=
  match xs with [] => true | a :: t => sortedb_from a t end.

Lemma sortedb_from_Sorted a xs : sortedb_from a xs = true ↔ Sorted le_of (a :: xs).
Proof.
  revert a. induction xs as [|x xs IH]; intros a; simpl.
  - split; [by repeat constructor|done].
  - destruct (less x a) eqn:E.
    + split; [done|]. intros Hs. apply Sorted_inv in Hs as [_ Hh].
      apply HdRel_inv in Hh. unfold le_of in Hh. congruence.
    + rewrite IH. split.
      * intros. constructor; [done|]. by constructor.
      * intros Hs. by apply Sorted_inv in Hs as [? _].
Qed.

Lemma sortedb_Sorted xs : sortedb xs = true ↔ Sorted le_of xs.
Proof.
  destruct xs as [|a xs]; [split; [constructor|done]|]. apply sortedb_from_Sorted.
Qed.

Lemma span_run_spec a xs r rest :
  span_run a xs = (r, rest) →
  xs = r ++ rest ∧ Sorted le_of (a :: r) ∧
  nruns_from a xs = S (nruns rest).
Proof.
  revert a r. induction xs as [|x xs IH]; intros a r; simpl.
  { intros [= <- <-]. split_and!; [done|by repeat constructor|done]. }
  destruct (less x a) eqn:E.
  { intros [= <- <-]. split_and!; [done|by repeat constructor|done]. }
  destruct (span_run x xs) as [r' rest'] eqn:Hs. intros [= <- <-].
  destruct (IH x r' Hs) as (-> & Hs' & Hn). split_and!; [done| |done].
  constructor; [done|]. by constructor.
Qed.

Lemma nruns_le_1_Sorted xs : (nruns xs ≤ 1)%nat → Sorted le_of xs.
Proof.
  destruct xs as [|a xs]; [constructor|]. simpl. revert a.
  induction xs as [|x xs IH]; intros a Hn; simpl in Hn; [by repeat constructor|].
  assert (∀ y ys, 1 ≤ nruns_from y ys)%nat as Hpos.
  { intros y ys. revert y. induction ys; intros y; simpl; [lia|]. specialize (IHys a0). lia. }
  destruct (less x a) eqn:E; [specialize (Hpos x xs); lia|].
  constructor; [by apply IH|]. by constructor.
Qed.

Lemma nruns_sorted_app xs ys : Sorted le_of xs → (nruns (xs ++ ys) ≤ 1 + nruns ys)%nat.
Proof.
  destruct xs as [|a xs]; [simpl; lia|]. cbn [app nruns]. revert a.
  induction xs as [|x xs IH]; intros a Hs; cbn [app nruns_from].
  - destruct ys as [|y ys]; simpl; [lia|]. destruct (less y a); lia.
  - apply Sorted_inv in Hs as [Hs Hh]. apply HdRel_inv in Hh. rewrite Hh. simpl. by apply IH.
Qed.

Lemma nruns_length xs : (nruns xs ≤ length xs)%nat.
Proof.
  destruct xs as [|a xs]; [done|]. simpl. revert a.
  induction xs as [|x xs IH]; intros a; simpl; [lia|]. specialize (IH x).
  destruct (less x a); lia.
Qed.

(** ** The heap side: scanning *)

Lemma is_sorted_loop_run h pre a xs b post fuel :
  chain h (pre ++ a :: xs ++ b :: post) → b ∉ xs → (length xs < fuel)%nat →
  is_sorted_loop less fuel a b h = Ret (sortedb_from a xs, h).
Proof.
  revert pre a fuel. induction xs as [|x xs IH]; intros pre a fuel Hc Hb Hf;
    (destruct fuel as [|fuel]; [simpl in Hf; lia|]); cbn [is_sorted_loop sortedb_from app] in *.
  - run_step (chain_next_run _ _ _ _ _ Hc). by rewrite bool_decide_eq_true_2.
  - run_step (chain_next_run _ _ _ _ _ Hc). rewrite bool_decide_eq_false_2 by set_solver.
    run_step (chain_prev_run _ _ _ _ _ Hc). destruct (less x a); [done|].
    apply (IH (pre ++ [a])); [|set_solver|simpl in Hf; lia]. by rewrite <- app_assoc.
Qed.

Lemma chain_size h pre xs post :
  chain h (pre ++ xs ++ post) → NoDup (pre ++ xs ++ post) →
  (1 < length (pre ++ xs ++ post))%nat → (length (pre ++ xs ++ post) ≤ size h)%nat.
Proof. intros Hc Hnd Hl. apply NoDup_valid_size; [done|]. by apply chain_valid. Qed.

Lemma is_sorted_run h pre xs b post :
  chain h (pre ++ xs ++ b :: post) → NoDup (pre ++ xs ++ b :: post) →
  is_sorted less (hd b xs) b h = Ret (sortedb xs, h).
Proof.
  intros Hc Hnd. unfold is_sorted. rewrite (bind_Ret _ _ _ (size h) h) by done.
  destruct xs as [|a xs]; cbn [hd sortedb].
  { rewrite bool_decide_eq_false_2; [done|]. intros Hbb. by apply Hbb. }
  assert (b ≠ a ∧ b ∉ xs) as [? ?].
  { rewrite !NoDup_app in Hnd. destruct Hnd as (_ & _ & _ & Hnd & _). set_solver. }
  rewrite bool_decide_eq_true_2 by done.
  eapply is_sorted_loop_run; [exact Hc|done|].
  pose proof (chain_size _ _ _ _ Hc Hnd) as Hs. rewrite !length_app in Hs. simpl in Hs. lia.
Qed.

Lemma find_end_of_run_loop_run h pre a xs b post fuel r rest :
  chain h (pre ++ a :: xs ++ b :: post) → b ∉ xs → (length xs < fuel)%nat →
  span_run a xs = (r, rest) →
  find_end_of_run_loop less fuel a b h = Ret (hd b rest, h).
Proof.
  revert pre a r fuel. induction xs as [|x xs IH]; intros pre a r fuel Hc Hb Hf Hsp;
    (destruct fuel as [|fuel]; [simpl in Hf; lia|]);
    cbn [find_end_of_run_loop span_run app] in *.
  - simplify_eq. run_step (chain_next_run _ _ _ _ _ Hc). by rewrite bool_decide_eq_true_2.
  - run_step (chain_next_run _ _ _ _ _ Hc). rewrite bool_decide_eq_false_2 by set_solver.
    run_step (chain_prev_run _ _ _ _ _ Hc). destruct (less x a); [by simplify_eq|].
    destruct (span_run x xs) as [r' rest'] eqn:Hsp'. simplify_eq.
    apply (IH (pre ++ [a]) x r'); [|set_solver|simpl in Hf; lia|done].
    by rewrite <- app_assoc.
Qed.

Lemma find_end_of_run_run h pre a xs b post r rest :
  chain h (pre ++ (a :: xs) ++ b :: post) → NoDup (pre ++ (a :: xs) ++ b :: post) →
  span_run a xs = (r, rest) →
  find_end_of_run less a b h = Ret (hd b rest, h).
Proof.
  intros Hc Hnd Hsp. unfold find_end_of_run. rewrite (bind_Ret _ _ _ (size h) h) by done.
  assert (b ≠ a ∧ b ∉ xs) as [? ?].
  { rewrite !NoDup_app in Hnd. destruct Hnd as (_ & _ & _ & Hnd & _). set_solver. }
  pose proof (chain_size _ _ _ _ Hc Hnd) as Hs. rewrite !length_app in Hs. simpl in Hs.
  assert (Forall (valid h) (pre ++ (a :: xs) ++ b :: post)) as Hv.
  { apply chain_valid; [done|]. rewrite !length_app. simpl. lia. }
  rewrite Forall_forall in Hv.
  assert (a ≠ NULL) by (eapply valid_not_null, Hv; set_solver).
  assert (b ≠ NULL) by (eapply valid_not_null, Hv; set_solver).
  rb. eapply find_end_of_run_loop_run; [exact Hc|done|lia|done].
Qed.

(** ** The heap side: merging *)

Lemma inplace_merge_loop_run h pre bp A B b1 post fuel :
  chain h (pre ++ bp :: A ++ B ++ b1 :: post) →
  NoDup (pre ++ bp :: A ++ B ++ b1 :: post) → (length A + length B < fuel)%nat →
  ∃ h', inplace_merge_loop less fuel (hd (hd b1 B) A) (hd b1 B) b1 h = Ret (tt, h') ∧
    same_cells h h' ∧ chain h' (pre ++ bp :: list_merge le_of A B ++ b1 :: post) ∧
    (∀ q, q ∉ bp :: A ++ B → nxt h' q = nxt h q) ∧
    (∀ q, q ∉ A ++ B ++ [b1] → prv h' q = prv h q).
Proof.
  revert h pre bp A B. induction fuel as [|fuel IH]; intros h pre bp A B Hc Hnd Hf; [lia|].
  cbn [inplace_merge_loop].
  destruct A as [|x A]; cbn [hd].
  { exists h. rewrite bool_decide_eq_true_2 by done. split_and!; try done. by destruct B. }
  destruct B as [|y B]; cbn [hd].
  { exists h. rewrite (bool_decide_eq_true_2 (b1 = b1)), orb_true_r by done.
    split_and!; done. }
  assert (x ≠ y ∧ y ≠ b1) as [? ?].
  { apply NoDup_app in Hnd as (_ & _ & Hnd). apply NoDup_cons in Hnd as (_ & Hnd).
    apply NoDup_app in Hnd as (_ & Hd & Hnd). apply NoDup_app in Hnd as (_ & Hd' & _).
    split; [apply (notin_ne _ _ _ (Hd x ltac:(mem)))|apply (notin_ne _ _ _ (Hd' y ltac:(mem)))];
      mem. }
  rewrite !bool_decide_eq_false_2 by done. cbn [orb].
  rewrite list_merge_cons. destruct (less y x) eqn:Hyx; cbn [negb].
  - (* take [y]: splice it before [x] *)
    rewrite decide_False by (unfold le_of; congruence).
    set (n := hd b1 B). assert (∃ post', B ++ b1 :: post = n :: post') as [post' Hpost].
    { destruct B; eauto. }
    assert (chain h ((pre ++ bp :: x :: A) ++ y :: n :: post')) as Hcy.
    { rewrite <- Hpost, <- app_assoc. exact Hc. }
    run_step (chain_next_run _ _ _ _ _ Hcy). run_step (chain_prev_run _ _ _ _ _ Hcy).
    destruct (list_splice_earlier h pre bp x A y [] n post') as (h1 & Hr & Hs & Hc1 & Hn1 & Hp1).
    { rewrite <- Hpost. exact Hc. } { rewrite <- Hpost. exact Hnd. }
    run_step Hr. destruct (IH h1 (pre ++ [bp]) y (x :: A) B) as (h' & Hr' & Hs' & Hc' & Hn' & Hp').
    { rewrite <- app_assoc, Hpost. exact Hc1. }
    { rewrite <- app_assoc. eapply NoDup_Permutation_proper; [|exact Hnd].
      cbn [app]. do 2 f_equiv. rewrite (Permutation_middle (x :: A) (B ++ b1 :: post) y). done. }
    { cbn [length] in *. lia. }
    exists h'. split_and!; [exact Hr'|by eapply same_cells_trans| | |].
    + rewrite <- app_assoc in Hc'. exact Hc'.
    + intros q Hq. rewrite Hn' by (intros Hq'; apply Hq; mem). apply Hn1. intros Hq'. apply Hq. mem.
    + intros q Hq. rewrite Hp' by (intros Hq'; apply Hq; mem). apply Hp1. intros Hq'. apply Hq.
      assert (n ∈ B ++ [b1]) as Hnin by (unfold n; destruct B; simpl; mem).
      destruct (decide (q = n)) as [->|]; mem.
  - (* take [x] *)
    rewrite decide_True by done.
    assert (list_next x h = Ret (hd y A, h)) as Hx.
    { assert (chain h ((pre ++ [bp]) ++ x :: A ++ y :: B ++ b1 :: post)) as Hcx
        by (rewrite <- app_assoc; exact Hc).
      destruct A; exact (chain_next_run _ _ _ _ _ Hcx). }
    run_step Hx. destruct (IH h (pre ++ [bp]) x A (y :: B)) as (h' & Hr' & Hs' & Hc' & Hn' & Hp').
    { rewrite <- app_assoc. exact Hc. } { rewrite <- app_assoc. exact Hnd. }
    { cbn [length] in *. lia. }
    exists h'. split_and!; [exact Hr'|done| | |].
    + rewrite <- app_assoc in Hc'. exact Hc'.
    + intros q Hq. apply Hn'. intros Hq'. apply Hq. mem.
    + intros q Hq. apply Hp'. intros Hq'. apply Hq. mem.
Qed.

Lemma inplace_merge_run h pre bp a0 A y B b1 post :
  chain h (pre ++ bp :: (a0 :: A) ++ (y :: B) ++ b1 :: post) →
  NoDup (pre ++ bp :: (a0 :: A) ++ (y :: B) ++ b1 :: post) →
  Sorted le_of (a0 :: A) → Sorted le_of (y :: B) →
  ∃ h', inplace_merge less a0 y b1 h = Ret (tt, h') ∧
    same_cells h h' ∧
    chain h' (pre ++ bp :: list_merge le_of (a0 :: A) (y :: B) ++ b1 :: post) ∧
    (∀ q, q ∉ bp :: (a0 :: A) ++ y :: B → nxt h' q = nxt h q) ∧
    (∀ q, q ∉ (a0 :: A) ++ (y :: B) ++ [b1] → prv h' q = prv h q).
Proof.
  intros Hc Hnd HsA HsB.
  pose proof (chain_size h pre (bp :: (a0 :: A) ++ (y :: B)) (b1 :: post)) as Hsz.
  cbn [app] in Hsz. rewrite <- !app_assoc in Hsz. specialize (Hsz Hc Hnd).
  rewrite length_app in Hsz. cbn [length] in Hsz. rewrite !length_app in Hsz.
  cbn [length] in Hsz.
  destruct (inplace_merge_loop_run h pre bp (a0 :: A) (y :: B) b1 post (size h))
    as (h' & Hr & ?); [done..|cbn [length]; lia|].
  exists h'. split; [|done]. unfold inplace_merge. rewrite (bind_Ret _ _ _ (size h) h) by done.
  assert (Forall (valid h) (pre ++ bp :: (a0 :: A) ++ (y :: B) ++ b1 :: post)) as Hv.
  { apply chain_valid; [done|]. rewrite length_app. cbn [length]. rewrite !length_app. simpl. lia. }
  rewrite Forall_forall in Hv.
  assert (a0 ≠ NULL) by (eapply valid_not_null, Hv; mem).
  assert (y ≠ NULL) by (eapply valid_not_null, Hv; mem).
  assert (b1 ≠ NULL) by (eapply valid_not_null, Hv; mem).
  rb. rewrite (bind_Ret _ _ _ true h).
  2: { rewrite <- (proj2 (sortedb_Sorted (a0 :: A)) HsA).
       apply (is_sorted_run h (pre ++ [bp]) (a0 :: A) y (B ++ b1 :: post)); by rewrite <- app_assoc. }
  rb. rewrite (bind_Ret _ _ _ true h).
  2: { rewrite <- (proj2 (sortedb_Sorted (y :: B)) HsB).
       apply (is_sorted_run h (pre ++ bp :: a0 :: A) (y :: B) b1 post); by rewrite <- app_assoc. }
  rb. exact Hr.
Qed.

(** ** One pass *)

Lemma sort_pass_loop_run h lst pre bp xs cnt fuel :
  lst ≠ NULL → chain h (pre ++ bp :: xs ++ [tail_of lst]) →
  NoDup (pre ++ bp :: xs ++ [tail_of lst]) →
  0 ≤ cnt → cnt + Z.of_nat (length xs) < 2 ^ 32 → (length xs < fuel)%nat →
  ∃ h' ys k, sort_pass_loop less fuel lst (hd (tail_of lst) xs) cnt h
      = Ret (cnt + Z.of_nat k, h') ∧
    same_cells h h' ∧ chain h' (pre ++ bp :: ys ++ [tail_of lst]) ∧ ys ≡ₚ xs ∧
    (nruns ys ≤ k)%nat ∧ (2 * k ≤ nruns xs + 1)%nat ∧
    (∀ q, q ∉ bp :: xs → nxt h' q = nxt h q) ∧
    (∀ q, q ∉ xs ++ [tail_of lst] → prv h' q = prv h q).
Proof.
  intros Hnn. revert h pre bp xs cnt. induction fuel as [|fuel IH];
    intros h pre bp xs cnt Hc Hnd Hcnt Hlt Hf; [lia|].
  cbn [sort_pass_loop]. run_step (list_end_run h lst Hnn).
  destruct xs as [|a0 xs]; cbn [hd].
  { rewrite bool_decide_eq_true_2 by done. exists h, [], 0%nat.
    split_and!; try done; [by rewrite Z.add_0_r|simpl; lia]. }
  assert (a0 ≠ tail_of lst) as Hat.
  { apply NoDup_app in Hnd as (_ & _ & Hnd). apply NoDup_cons in Hnd as (_ & Hnd).
    apply NoDup_app in Hnd as (_ & Hd & _). apply (notin_ne _ _ _ (Hd a0 ltac:(mem))). mem. }
  rewrite bool_decide_eq_false_2 by done. run_step (list_end_run h lst Hnn).
  cbn [length] in Hlt, Hf. rewrite uwrap_id by lia.
  destruct (span_run a0 xs) as [A rest] eqn:HA.
  pose proof (span_run_spec _ _ _ _ HA) as (-> & HsA & HnA).
  assert (chain h ((pre ++ [bp]) ++ (a0 :: A ++ rest) ++ [tail_of lst])) as HcA
    by (rewrite <- app_assoc; exact Hc).
  assert (NoDup ((pre ++ [bp]) ++ (a0 :: A ++ rest) ++ [tail_of lst])) as HndA
    by (rewrite <- app_assoc; exact Hnd).
  run_step (find_end_of_run_run _ _ _ _ _ _ _ _ HcA HndA HA).
  run_step (list_end_run h lst Hnn).
  destruct rest as [|y rest]; cbn [hd].
  { rewrite bool_decide_eq_true_2 by done. exists h, (a0 :: A), 1%nat.
    rewrite app_nil_r in *. split_and!; try done; cbn [nruns]; rewrite HnA; simpl; lia. }
  rewrite bool_decide_eq_false_2.
  2: { apply NoDup_app in Hnd as (_ & _ & Hnd). apply NoDup_cons in Hnd as (_ & Hnd).
       apply NoDup_app in Hnd as (_ & Hd & _). apply (notin_ne _ _ _ (Hd y ltac:(mem))). mem. }
  run_step (list_end_run h lst Hnn).
  destruct (span_run y rest) as [B rest'] eqn:HB.
  pose proof (span_run_spec _ _ _ _ HB) as (-> & HsB & HnB).
  replace ((pre ++ [bp]) ++ (a0 :: A ++ y :: B ++ rest') ++ [tail_of lst])
    with ((pre ++ bp :: a0 :: A) ++ (y :: B ++ rest') ++ [tail_of lst]) in HcA, HndA
    by app_eq.
  run_step (find_end_of_run_run _ _ _ _ _ _ _ _ HcA HndA HB).
  set (b1 := hd (tail_of lst) rest').
  assert (∃ post, rest' ++ [tail_of lst] = b1 :: post) as [post Hpost] by (destruct rest'; eauto).
  assert ((a0 :: A ++ y :: B ++ rest') ++ [tail_of lst]
    = (a0 :: A) ++ (y :: B) ++ b1 :: post) as Heq.
  { rewrite <- Hpost. app_eq. }
  rewrite Heq in Hc, Hnd.
  destruct (inplace_merge_run h pre bp a0 A y B b1 post Hc Hnd HsA HsB)
    as (h1 & Hr1 & Hs1 & Hc1 & Hn1 & Hp1).
  run_step Hr1.
  assert (list_merge le_of (a0 :: A) (y :: B) ≡ₚ (a0 :: A) ++ y :: B) as Hmp
    by apply merge_Permutation.
  destruct (exists_last (l:=list_merge le_of (a0 :: A) (y :: B))) as (L & w & HL).
  { intros E. rewrite E in Hmp. by apply Permutation_nil_l in Hmp. }
  destruct (IH h1 (pre ++ bp :: L) w rest' (cnt + 1))
    as (h' & ys & k & Hr & Hs & Hc' & Hys & Hk1 & Hk2 & Hn' & Hp').
  { rewrite Hpost, <- app_assoc. cbn [app]. rewrite HL in Hc1. rewrite <- app_assoc in Hc1. done. }
  { rewrite Hpost, <- app_assoc. cbn [app]. eapply NoDup_Permutation_proper; [|exact Hnd].
    do 2 f_equiv. rewrite (app_assoc (a0 :: A)), <- Hmp, HL, <- app_assoc. done. }
  { lia. } { rewrite !length_app in Hlt. cbn [length] in Hlt. rewrite !length_app in Hlt. lia. }
  { rewrite !length_app in Hf. cbn [length] in Hf. rewrite !length_app in Hf. lia. }
  exists h', (list_merge le_of (a0 :: A) (y :: B) ++ ys), (S k). split_and!.
  - etransitivity; [exact Hr|]. do 2 f_equal. lia.
  - by eapply same_cells_trans.
  - rewrite HL. rewrite <- app_assoc in Hc'. cbn [app] in Hc'. by rewrite <- !app_assoc.
  - rewrite Hys, Hmp. cbn [app]. by rewrite <- app_assoc.
  - pose proof (nruns_sorted_app (list_merge le_of (a0 :: A) (y :: B)) ys) as Hm.
    specialize (Hm (Sorted_list_merge _ _ _ HsA HsB)). lia.
  - cbn [nruns]. rewrite HnA. cbn [nruns]. rewrite HnB. lia.
  - intros q Hq. assert (q ≠ w) as Hqw.
    { intros ->. apply Hq. assert (w ∈ (a0 :: A) ++ y :: B) as Hw by (rewrite <- Hmp, HL; mem).
      clear - Hw. mem. }
    clear - Hn' Hn1 Hq Hqw. rewrite Hn' by (intros Hq'; apply Hq; mem).
    apply Hn1. intros Hq'. apply Hq. mem.
  - assert (b1 ∈ rest' ++ [tail_of lst]) as Hb1 by (rewrite Hpost; mem).
    clear - Hp' Hp1 Hb1. intros q Hq. rewrite Hp' by (intros Hq'; apply Hq; mem).
    apply Hp1. intros Hq'. apply Hq. destruct (decide (q = b1)) as [->|]; mem.
Qed.

(** ** The whole sort *)

Lemma list_sort_loop_run h lst xs fuel :
  is_list h lst xs → Z.of_nat (length xs) < 2 ^ 32 → (nruns xs < fuel)%nat →
  ∃ h' ys, list_sort_loop less fuel lst h = Ret (tt, h') ∧ same_cells h h' ∧
    is_list h' lst ys ∧ ys ≡ₚ xs ∧ Sorted le_of ys ∧ agree_off (footprint lst xs) h h'.
Proof.
  revert h xs. induction fuel as [|fuel IH]; intros h xs Hl Hlt Hf; [lia|].
  cbn [list_sort_loop]. rewrite (bind_Ret _ _ _ (size h) h) by done.
  run_step (list_begin_run _ _ _ Hl). pose proof (is_list_size _ _ _ Hl) as Hsz.
  destruct (sort_pass_loop_run h lst [] (head_of lst) xs 0 (size h))
    as (h1 & ys & k & Hr & Hs & Hc & Hys & Hk1 & Hk2 & Hn & Hp).
  { by eapply is_list_not_null. } { apply (il_chain _ _ _ Hl). } { apply (il_nodup _ _ _ Hl). }
  { lia. } { lia. } { lia. }
  run_step Hr. rewrite Z.add_0_l.
  assert (head_of lst ∉ xs ++ [tail_of lst]) as Hh.
  { pose proof (il_nodup _ _ _ Hl) as Hnd. by apply NoDup_cons in Hnd as [? _]. }
  assert (tail_of lst ∉ head_of lst :: xs) as Ht.
  { pose proof (il_nodup _ _ _ Hl) as Hnd. rewrite app_comm_cons in Hnd.
    apply NoDup_app in Hnd as (_ & Hd & _). intros Hin. apply (Hd _ Hin). mem. }
  assert (is_list h1 lst ys) as Hl1.
  { eapply is_list_intro; [exact Hl|exact Hc| |by apply Hp|by apply Hn].
    unfold footprint. rewrite Hys. apply (il_nodup _ _ _ Hl). }
  assert (agree_off (footprint lst xs) h h1) as Ha.
  { intros q Hq. unfold footprint in Hq. split; [apply Hn|apply Hp]; intros Hq'; apply Hq; mem. }
  case_bool_decide as Hk.
  - destruct (IH h1 ys) as (h' & zs & Hr' & Hs' & Hl' & Hzs & Hsort & Ha').
    { done. } { by rewrite Hys. } { lia. }
    exists h', zs. split_and!; [done|by eapply same_cells_trans|done|by rewrite Hzs|done|].
    eapply agree_off_trans; [exact Ha|]. eapply agree_off_mono; [|exact Ha'].
    intros q. unfold footprint. by rewrite Hys.
  - exists h1, ys. split_and!; try done. apply nruns_le_1_Sorted. lia.
Qed.

Lemma list_sort_run h lst xs :
  is_list h lst xs → Z.of_nat (length xs) < 2 ^ 32 →
  ∃ h' ys, list_sort less lst h = Ret (tt, h') ∧ same_cells h h' ∧
    is_list h' lst ys ∧ ys ≡ₚ xs ∧ Sorted le_of ys ∧ agree_off (footprint lst xs) h h'.
Proof.
  intros Hl Hlt. pose proof (is_list_size _ _ _ Hl). pose proof (nruns_length xs).
  destruct (list_sort_loop_run h lst xs (size h)) as (h' & ys & Hr & Hs & Hl' & Hys & Hsort & Ha);
    [done..|lia|].
  exists h', ys. split_and!; try done. unfold list_sort.
  rewrite (bind_Ret _ _ _ (size h) h) by done. pose proof (is_list_not_null _ _ _ Hl). rb.
  run_step Hr. run_step (list_begin_run _ _ _ Hl'). run_step (list_end_run h' lst ltac:(done)).
  rewrite (bind_Ret _ _ _ true h'); [done|].
  rewrite <- (proj2 (sortedb_Sorted ys) Hsort).
  apply (is_sorted_run h' [head_of lst] ys (tail_of lst) []);
    [apply (il_chain _ _ _ Hl')|apply (il_nodup _ _ _ Hl')].
Qed.
End sorting.

Arguments StrictWeakOrder : clear implicits.
