(* ===== verification/KListOrder.v ===== *)
(** * KListOrder: reversal and the other ordered operations of the kernel list

    [list_reverse] reverses, [list_insert_ordered] keeps a list sorted, [list_unique] drops adjacent equals, [list_max]/[list_min] return the
    first extremal element. *)

From S2P Require Import Prelude Links KList KListFacts KListSort.

(** ** Reversal *)

Section reverse.
Implicit Types (h : lheap) (xs : list Z).

Lemma chain_reverse h h' xs :
  chain h xs → (∀ x, x ∈ xs → nxt h' x = prv h x ∧ prv h' x = nxt h x) →
  chain h' (reverse xs).
Proof.
  induction xs as [|a [|b xs] IH]; intros Hc Hs; [done..|].
  rewrite chain_cons2 in Hc. destruct Hc as (H1 & H2 & Hc).
  rewrite !reverse_cons, <- app_assoc. apply chain_split. split.
  - rewrite <- reverse_cons. apply IH; [done|set_solver].
  - cbn [app]. rewrite chain_cons2. destruct (Hs a) as [? ?]; [set_solver|].
    destruct (Hs b) as [? ?]; [set_solver|]. split_and!; [congruence..|done].
Qed.

Lemma list_reverse_loop_run h lst xs fuel :
  lst ≠ NULL → chain h (xs ++ [tail_of lst]) → NoDup (xs ++ [tail_of lst]) →
  Forall (valid h) xs → (length xs < fuel)%nat →
  ∃ h', list_reverse_loop fuel lst (hd (tail_of lst) xs) h = Ret (tt, h') ∧
    same_cells h h' ∧
    (∀ x, x ∈ xs → nxt h' x = prv h x ∧ prv h' x = nxt h x) ∧
    agree_off xs h h'.
Proof.
  intros Hnn. revert h fuel. induction xs as [|x xs IH]; intros h fuel Hc Hnd Hv Hf;
    (destruct fuel as [|fuel]; [simpl in Hf; lia|]); cbn [list_reverse_loop hd].
  - exists h. run_step (list_end_run h lst Hnn). rewrite bool_decide_eq_true_2 by done.
    split_and!; [done|done|set_solver|done].
  - cbn [app] in Hnd. apply NoDup_cons in Hnd as [Hx Hnd]. apply Forall_cons in Hv as [Hvx Hv].
    destruct (valid_links h x Hvx) as (p & n & Hp & Hn).
    assert (n = hd (tail_of lst) xs) as ->.
    { destruct xs; apply (chain_next h []) in Hc; cbn [hd]; congruence. }
    set (h1 := upd_next x p (upd_prev x (hd (tail_of lst) xs) h)).
    destruct (IH h1 fuel) as (h' & Hr & Hs & Hsw & Ha).
    { apply chain_upd_next'; [done|]. apply chain_upd_prev'; [done|]. by eapply chain_tail. }
    { done. }
    { eapply Forall_impl; [exact Hv|]. intros q Hq. unfold h1. valids. }
    { simpl in Hf. lia. }
    exists h'. split_and!.
    + run_step (list_end_run h lst Hnn). rewrite bool_decide_eq_false_2 by set_solver.
      unfold swap; cbn [lv_prev lv_next rd wr]. rb. rd_prev p. rb. rd_next (hd (tail_of lst) xs).
      rb. wr_prev. rb. wr_next. rd_prev (hd (tail_of lst) xs). exact Hr.
    + eapply same_cells_trans; [|exact Hs]. unfold h1. cells.
    + intros y. rewrite elem_of_cons. intros [->|Hy].
      * destruct (Ha x) as [-> ->]; [set_solver|]. unfold h1. split; lk; congruence.
      * destruct (Hsw y Hy) as [-> ->]. assert (x ≠ y) by set_solver. unfold h1. by split; lk.
    + intros q Hq. destruct (Ha q) as [-> ->]; [set_solver|].
      assert (x ≠ q) by set_solver. unfold h1. by split; lk.
Qed.

Lemma list_reverse_run h lst xs :
  is_list h lst xs →
  ∃ h', list_reverse lst h = Ret (tt, h') ∧ same_cells h h' ∧
    is_list h' lst (reverse xs) ∧ agree_off (footprint lst xs) h h'.
Proof.
  intros Hl. pose proof (is_list_not_null _ _ _ Hl) as Hnn.
  pose proof (is_list_size _ _ _ Hl) as Hsz.
  destruct (decide (xs = [])) as [->|Hne].
  { exists h. split_and!; [|done..]. unfold list_reverse.
    rewrite (bind_Ret _ _ _ (size h) h) by done. run_step (list_empty_run _ _ _ Hl). done. }
  pose proof (il_chain _ _ _ Hl) as Hc. pose proof (il_nodup _ _ _ Hl) as Hnd.
  destruct (list_reverse_loop_run h lst xs (size h)) as (h1 & Hr & Hs & Hsw & Ha).
  { done. } { by eapply chain_tail. } { by apply NoDup_cons in Hnd as [_ ?]. }
  { apply Forall_forall. intros. eapply is_list_valid; [done|]. unfold footprint. set_solver. }
  { lia. }
  pose proof (exists_last Hne) as (xs2 & l & Hxl).
  destruct xs as [|f xs1]; [done|]. clear Hne.
  assert (nxt h (head_of lst) = Some f) as Hhf by apply (chain_next h [] _ _ _ Hc).
  assert (prv h f = Some (head_of lst)) as Hfh by apply (chain_prev h [] _ _ _ Hc).
  assert (nxt h l = Some (tail_of lst) ∧ prv h (tail_of lst) = Some l) as [Hlt Htl].
  { rewrite Hxl, <- app_assoc in Hc. cbn [app] in Hc.
    split; [apply (chain_next h (head_of lst :: xs2) _ _ _ Hc)
           |apply (chain_prev h (head_of lst :: xs2) _ _ _ Hc)]. }
  assert (f ∈ f :: xs1 ∧ l ∈ f :: xs1) as [Hf Hlin] by (rewrite Hxl at 2; set_solver).
  destruct (Hsw f Hf) as [Hf1 _]. destruct (Hsw l Hlin) as [_ Hl1].
  assert (NoDup (f :: xs1)) as Hnx.
  { apply NoDup_cons in Hnd as [_ Hnd]. by apply NoDup_app in Hnd as (? & _). }
  assert (head_of lst ∉ f :: xs1 ∧ tail_of lst ∉ f :: xs1 ∧ head_of lst ≠ tail_of lst)
    as (Hhx & Htx & Hht).
  { rewrite NoDup_cons, NoDup_app in Hnd. set_solver. }
  destruct (Ha (head_of lst) Hhx) as [Hh1 Hh2]. destruct (Ha (tail_of lst) Htx) as [Ht1 Ht2].
  assert (head_of lst ≠ l ∧ head_of lst ≠ f ∧ tail_of lst ≠ l ∧ tail_of lst ≠ f) as (?&?&?&?)
    by set_solver.
  assert (nxt h1 (head_of lst) = Some f) by congruence.
  assert (prv h1 (tail_of lst) = Some l) by congruence.
  assert (nxt h1 f = Some (head_of lst)) by congruence.
  assert (prv h1 l = Some (tail_of lst)) by congruence.
  set (h' := upd_next f (tail_of lst) (upd_prev l (head_of lst)
               (upd_prev (tail_of lst) f (upd_next (head_of lst) l h1)))).
  exists h'. split_and!.
  - unfold list_reverse. rewrite (bind_Ret _ _ _ (size h) h) by done.
    run_step (list_empty_run _ _ _ Hl). rewrite bool_decide_eq_false_2 by done.
    run_step (list_begin_run _ _ _ Hl). run_step Hr.
    unfold swap; cbn [lv_prev lv_next rd wr]. rb. rd_next f. rb. rd_prev l. rb.
    wr_next. wr_prev. rd_next l. rd_prev f.
    rd_prev (tail_of lst). rd_next (head_of lst). wr_prev. apply set_next_run. valids.
  - eapply same_cells_trans; [exact Hs|]. unfold h'. cells.
  - eapply is_list_intro; [exact Hl| | | |].
    + unfold footprint. change (head_of lst :: reverse (f :: xs1) ++ [tail_of lst])
        with ([head_of lst] ++ reverse (f :: xs1) ++ [tail_of lst]).
      assert (chain h' (reverse (f :: xs1))) as Hrev.
      { rewrite reverse_cons. apply (chain_frame h1).
        - intros q Hq. assert (q ≠ f ∧ q ≠ head_of lst) as [? ?].
          { apply NoDup_cons in Hnx as [? _]. rewrite elem_of_reverse in Hq. set_solver. }
          unfold h'. by lk.
        - rewrite <- reverse_cons, Hxl, reverse_snoc. cbn [tail]. intros q Hq.
          assert (q ≠ l ∧ q ≠ tail_of lst) as [? ?].
          { rewrite Hxl in Hnx, Htx. apply NoDup_app in Hnx as (_ & Hnx & _).
            rewrite elem_of_reverse in Hq. set_solver. }
          unfold h'. by lk.
        - rewrite <- reverse_cons. eapply chain_reverse; [|exact Hsw].
          apply chain_tail in Hc. destruct xs1; [done|].
          rewrite Hxl in Hc |- *. rewrite <- app_assoc in Hc. by apply chain_split in Hc as [? _]. }
      rewrite Hxl, reverse_snoc. cbn [app]. rewrite Hxl, reverse_snoc in Hrev.
      rewrite chain_cons2. split_and!; [unfold h'; by lk..|].
      assert (∃ ys, l :: reverse xs2 = ys ++ [f]) as [ys Hys].
      { rewrite <- reverse_snoc, <- Hxl, reverse_cons. eauto. }
      rewrite app_comm_cons, Hys, <- app_assoc. cbn [app]. apply chain_split.
      rewrite Hys in Hrev. split; [done|]. rewrite chain_cons2. unfold h'.
      split_and!; [by lk| |done].
      rewrite prv_upd_next, prv_upd_prev_ne by congruence. by lk.
    + unfold footprint. by rewrite reverse_Permutation.
    + unfold h'. lk. done.
    + unfold h'. lk. done.
  - intros q Hq. unfold footprint in Hq.
    assert (q ∉ f :: xs1) as Hqx by set_solver. destruct (Ha q Hqx) as [Hq1 Hq2].
    assert (q ≠ f ∧ q ≠ l ∧ q ≠ head_of lst ∧ q ≠ tail_of lst) as (?&?&?&?).
    { split_and!; set_solver. }
    unfold h'. split; lk; congruence.
Qed.
End reverse.

(** ** Ordered insertion *)

Section ordered.
Context (less : Z → Z → bool) `{!StrictWeakOrder less}.
Implicit Types (h : lheap) (xs : list Z).

(** Where [list_insert_ordered] stops: before the first element greater than
    [elem]. *)
Fixpoint ins_split (elem : Z) (xs : list Z) : list Z * list Z :=
  match xs with
  | [] => ([], [])
  | x :: t => if less elem x then ([], xs) else let '(a, b) := ins_split elem t in (x :: a, b)
  end.

Lemma ins_split_spec elem xs A B :
  ins_split elem xs = (A, B) →
  xs = A ++ B ∧ Forall (λ x, less elem x = false) A ∧
  match B with [] => True | b :: _ => less elem b = true end.
Proof.
  revert A. induction xs as [|x xs IH]; intros A; simpl; [by intros [= <- <-]|].
  destruct (less elem x) eqn:E; [by intros [= <- <-]|].
  destruct (ins_split elem xs) as [a b]. intros [= <- <-].
  destruct (IH a eq_refl) as (-> & ? & ?). split_and!; [done|by constructor|done].
Qed.

Lemma insert_ordered_loop_run h lst elem pre xs A B fuel :
  lst ≠ NULL → chain h (pre ++ xs ++ [tail_of lst]) → tail_of lst ∉ xs →
  (length xs < fuel)%nat → ins_split elem xs = (A, B) →
  insert_ordered_loop less fuel lst elem (hd (tail_of lst) xs) h = Ret (hd (tail_of lst) B, h).
Proof.
  intros Hnn. revert pre fuel A. induction xs as [|x xs IH]; intros pre fuel A Hc Ht Hf Hs;
    (destruct fuel as [|fuel]; [simpl in Hf; lia|]); cbn [insert_ordered_loop hd ins_split] in *;
    run_step (list_end_run h lst Hnn).
  - simplify_eq. by rewrite bool_decide_eq_true_2.
  - rewrite bool_decide_eq_false_2 by set_solver. destruct (less elem x); [by simplify_eq|].
    destruct (ins_split elem xs) as [a b]; simplify_eq.
    assert (list_next x h = Ret (hd (tail_of lst) xs, h)) as Hn
      by (destruct xs; eapply chain_next_run; exact Hc).
    run_step Hn. apply (IH (pre ++ [x]) _ a);
      [by rewrite <- app_assoc|set_solver|simpl in Hf; lia|done].
Qed.

Lemma list_insert_ordered_run h lst xs e :
  is_list h lst xs → valid h e → e ∉ footprint lst xs →
  ∃ h' A B, list_insert_ordered less lst e h = Ret (tt, h') ∧ same_cells h h' ∧
    xs = A ++ B ∧ is_list h' lst (A ++ e :: B) ∧
    Forall (λ x, less e x = false) A ∧
    match B with [] => True | b :: _ => less e b = true end.
Proof.
  intros Hl He Hne. destruct (ins_split e xs) as [A B] eqn:Hs.
  pose proof (ins_split_spec _ _ _ _ Hs) as (Hxs & HA & HB).
  rewrite Hxs in Hl, Hne. destruct (list_insert_is_list h lst A B e Hl He Hne)
    as (h' & Hr & Hcells & Hl' & _).
  exists h', A, B. split_and!; try done. unfold list_insert_ordered.
  rewrite (bind_Ret _ _ _ (size h) h) by done.
  pose proof (is_list_not_null _ _ _ Hl). pose proof (valid_not_null _ _ He). rb.
  run_step (list_begin_run _ _ _ Hl). rewrite <- Hxs in *.
  rewrite (bind_Ret _ _ _ (hd (tail_of lst) B) h); [done|].
  eapply (insert_ordered_loop_run h lst e [head_of lst]); [done| | | |exact Hs].
  - apply (il_chain _ _ _ Hl).
  - intros Ht. by apply (is_list_ne_tail _ _ _ _ Hl Ht).
  - apply is_list_size in Hl. lia.
Qed.

Lemma Sorted_insert A e B :
  Sorted (le_of less) (A ++ B) → Forall (λ x, less e x = false) A →
  match B with [] => True | b :: _ => less e b = true end →
  Sorted (le_of less) (A ++ e :: B).
Proof.
  induction A as [|a A IH]; cbn [app]; intros Hs HA HB.
  - constructor; [done|]. destruct B; constructor. by apply swo_asym.
  - apply Sorted_inv in Hs as [Hs Hh]. apply Forall_cons in HA as [Ha HA].
    constructor; [by apply IH|]. destruct A as [|a' A]; constructor; [done|].
    by apply HdRel_inv in Hh.
Qed.

(** ** Removing adjacent duplicates *)

Definition same_key (x y : Z) : bool := negb (less x y) && negb (less y x).

(** What is kept after [e], and what is dropped, when [e] is the last element
    kept so far. *)
Fixpoint uniq_from (e : Z) (xs : list Z) : list Z * list Z :=
  match xs with
  | [] => ([], [])
  | x :: t =>
    if same_key e x then let '(k, d) := uniq_from e t in (k, x :: d)
    else let '(k, d) := uniq_from x t in (x :: k, d)
  end.

(** The optional [duplicates] list: absent, or a list disjoint from the other. *)
Definition dup_list h (dup : Z) (ds xs : list Z) lst : Prop :=
  dup = NULL ∨
  (is_list h dup ds ∧ ∀ q, q ∈ footprint lst xs → q ∉ footprint dup ds).

Lemma footprint_snoc lst xs e : footprint lst (xs ++ [e]) ≡ₚ e :: footprint lst xs.
Proof. rewrite (footprint_insert lst xs e []), app_nil_r. done. Qed.

Lemma unique_drop_run h lst dup ds P x xs :
  is_list h lst (P ++ x :: xs) → dup_list h dup ds (P ++ x :: xs) lst →
  ∃ h', (list_remove x;;
         (if bool_decide (dup ≠ NULL) then list_push_back dup x else mret tt)) h
        = Ret (tt, h') ∧ same_cells h h' ∧ is_list h' lst (P ++ xs) ∧
    dup_list h' dup (ds ++ [x]) (P ++ xs) lst.
Proof.
  intros Hl Hd. destruct (list_remove_is_list h lst P x xs Hl) as (h1 & Hr & Hs & Hl1 & Ha1).
  pose proof (il_nodup _ _ _ Hl) as Hnd. fold (footprint lst (P ++ x :: xs)) in Hnd.
  rewrite footprint_insert in Hnd. apply NoDup_cons in Hnd as [Hx _].
  assert (x ∈ footprint lst (P ++ x :: xs)) as Hxin by (rewrite footprint_insert; mem).
  destruct (decide (dup = NULL)) as [->|Hdn].
  { exists h1. run_step Hr. rewrite bool_decide_eq_false_2 by (by intros Hn).
    split_and!; try done. by left. }
  destruct Hd as [|[Hd Hdis]]; [done|].
  assert (∀ q, q ∈ footprint lst (P ++ xs) → q ∉ footprint dup ds) as Hdis'.
  { intros q Hq. apply Hdis. rewrite footprint_insert. by right. }
  assert (is_list h1 dup ds) as Hd1.
  { eapply is_list_frame; [exact Hd|exact Ha1|]. intros q Hq Hq'. by apply (Hdis' q). }
  destruct (list_push_back_run h1 dup ds x Hd1) as (h2 & Hr2 & Hs2 & Hd2 & Ha2).
  { apply Hs. exact (is_list_valid _ _ _ _ Hl Hxin). } { by apply Hdis. }
  exists h2. run_step Hr. rewrite bool_decide_eq_true_2 by done.
  split_and!; [done|by eapply same_cells_trans| |].
  - eapply is_list_frame; [exact Hl1|exact Ha2|]. intros q Hq. rewrite not_elem_of_cons.
    split; [by intros ->|by apply Hdis'].
  - right. split; [done|]. intros q Hq. rewrite footprint_snoc, not_elem_of_cons.
    split; [by intros ->|by apply Hdis'].
Qed.

Lemma list_unique_loop_run h lst dup ds P e xs k d fuel :
  is_list h lst (P ++ e :: xs) → dup_list h dup ds (P ++ e :: xs) lst →
  uniq_from e xs = (k, d) → (length xs < fuel)%nat →
  ∃ h', list_unique_loop less fuel lst dup e h = Ret (tt, h') ∧
    is_list h' lst (P ++ e :: k) ∧ dup_list h' dup (ds ++ d) (P ++ e :: k) lst.
Proof.
  revert h P e xs k d ds. induction fuel as [|fuel IH]; intros h P e xs k d ds Hl Hd Hu Hf; [lia|].
  cbn [list_unique_loop]. pose proof (is_list_not_null _ _ _ Hl) as Hnn.
  assert (list_next e h = Ret (hd (tail_of lst) xs, h)) as Hn.
  { pose proof (il_chain _ _ _ Hl) as Hc. rewrite <- app_assoc, app_comm_cons in Hc.
    destruct xs; exact (chain_next_run _ _ _ _ _ Hc). }
  run_step Hn. run_step (list_end_run h lst Hnn).
  destruct xs as [|x xs]; cbn [hd uniq_from] in *.
  { simplify_eq. rewrite bool_decide_eq_true_2, app_nil_r by done. eauto. }
  rewrite bool_decide_eq_false_2 by (eapply is_list_ne_tail; [exact Hl|mem]).
  fold (same_key e x). destruct (same_key e x).
  - destruct (uniq_from e xs) as [k' d'] eqn:Hu'. simplify_eq.
    rewrite cons_middle, app_assoc in Hl, Hd.
    destruct (unique_drop_run h lst dup ds (P ++ [e]) x xs Hl Hd) as (h1 & Hr & Hs & Hl1 & Hd1).
    rewrite <- bind_assoc. run_step Hr. rewrite <- app_assoc in Hl1, Hd1.
    destruct (IH h1 P e xs k d' (ds ++ [x])) as (h' & ? & ? & Hd'); [done..|simpl in Hf; lia|].
    exists h'. split_and!; try done. rewrite <- app_assoc in Hd'. done.
  - destruct (uniq_from x xs) as [k' d'] eqn:Hu'. simplify_eq.
    destruct (IH h (P ++ [e]) x xs k' d ds) as (h' & ? & Hl' & Hd');
      [by rewrite <- app_assoc|by rewrite <- app_assoc|done|simpl in Hf; lia|].
    exists h'. rewrite <- app_assoc in Hl', Hd'. done.
Qed.

Lemma list_unique_run h lst dup ds xs :
  is_list h lst xs → dup_list h dup ds xs lst →
  ∃ h', list_unique less lst dup h = Ret (tt, h') ∧
    match xs with
    | [] => h' = h
    | e :: t => let '(k, d) := uniq_from e t in
      is_list h' lst (e :: k) ∧ dup_list h' dup (ds ++ d) (e :: k) lst
    end.
Proof.
  intros Hl Hd. unfold list_unique. rewrite (bind_Ret _ _ _ (size h) h) by done.
  pose proof (is_list_not_null _ _ _ Hl). pose proof (is_list_size _ _ _ Hl) as Hsz.
  rewrite assert_bind by (by apply bool_decide_eq_true_2).
  run_step (list_empty_run _ _ _ Hl). destruct xs as [|e xs].
  { exists h. by rewrite bool_decide_eq_true_2. }
  rewrite bool_decide_eq_false_2 by done. run_step (list_begin_run _ _ _ Hl). cbn [hd].
  destruct (uniq_from e xs) as [k d] eqn:Hu.
  apply (list_unique_loop_run h lst dup ds [] e xs k d (size h)); [done..|simpl in Hsz; lia].
Qed.

(** The kept elements have no two adjacent equals, and together with the dropped
    ones they are the original elements. *)
Lemma uniq_from_spec e xs k d :
  uniq_from e xs = (k, d) →
  k ++ d ≡ₚ xs ∧ Sorted (λ x y, same_key x y = false) (e :: k) ∧
  Forall (λ y, ∃ x, x ∈ e :: k ∧ same_key x y = true) d.
Proof.
  revert e k d. induction xs as [|x xs IH]; intros e k d; cbn [uniq_from].
  { intros [= <- <-]. split_and!; [done|by repeat constructor|constructor]. }
  destruct (same_key e x) eqn:E.
  - destruct (uniq_from e xs) as [k' d'] eqn:Hu. intros [= <- <-].
    destruct (IH e k' d' Hu) as (Hp & Hs & Hd). split_and!; [|done|].
    + by rewrite <- Permutation_middle, Hp.
    + constructor; [|done]. exists e. split; [left|done].
  - destruct (uniq_from x xs) as [k' d'] eqn:Hu. intros [= <- <-].
    destruct (IH x k' d' Hu) as (Hp & Hs & Hd). split_and!.
    + cbn [app]. by rewrite Hp.
    + constructor; [done|]. by constructor.
    + eapply Forall_impl; [exact Hd|]. intros y (z & Hz & ?). exists z. split; [by right|done].
Qed.

(** ** Extremal elements *)

Definition max_from (m : Z) (xs : list Z) : Z :=
  foldl (λ m e, if less m e then e else m) m xs.

Lemma list_max_loop_run h lst pre xs m fuel :
  lst ≠ NULL → chain h (pre ++ xs ++ [tail_of lst]) → tail_of lst ∉ xs →
  (length xs < fuel)%nat →
  list_max_loop less fuel lst m (hd (tail_of lst) xs) h = Ret (max_from m xs, h).
Proof.
  intros Hnn. revert pre fuel m. induction xs as [|x xs IH]; intros pre fuel m Hc Ht Hf;
    (destruct fuel as [|fuel]; [simpl in Hf; lia|]); cbn [list_max_loop hd max_from foldl] in *;
    run_step (list_end_run h lst Hnn).
  - by rewrite bool_decide_eq_true_2.
  - rewrite bool_decide_eq_false_2 by set_solver.
    assert (list_next x h = Ret (hd (tail_of lst) xs, h)) as Hn
      by (destruct xs; eapply chain_next_run; exact Hc).
    run_step Hn. apply (IH (pre ++ [x])); [by rewrite <- app_assoc|set_solver|simpl in Hf; lia].
Qed.

Lemma list_max_run h lst xs :
  is_list h lst xs →
  list_max less lst h = Ret (match xs with [] => tail_of lst | x :: t => max_from x t end, h).
Proof.
  intros Hl. unfold list_max. rewrite (bind_Ret _ _ _ (size h) h) by done.
  pose proof (is_list_not_null _ _ _ Hl) as Hnn. pose proof (is_list_size _ _ _ Hl) as Hsz.
  run_step (list_begin_run _ _ _ Hl). run_step (list_end_run h lst Hnn).
  destruct xs as [|x xs]; cbn [hd].
  { rewrite bool_decide_eq_false_2; [done|]. intros Hn. by apply Hn. }
  rewrite bool_decide_eq_true_2 by (eapply is_list_ne_tail; [exact Hl|mem]).
  pose proof (il_chain _ _ _ Hl) as Hc.
  assert (list_next x h = Ret (hd (tail_of lst) xs, h)) as Hn
    by (destruct xs; exact (chain_next_run h [head_of lst] _ _ _ Hc)).
  run_step Hn. apply (list_max_loop_run h lst [head_of lst; x]); [done|exact Hc| |simpl in Hsz; lia].
  intros Ht. apply (is_list_ne_tail _ _ _ (tail_of lst) Hl); [mem|done].
Qed.

Lemma less_trans x y z : less x y = true → less y z = true → less x z = true.
Proof.
  intros H1 H2. destruct (less x z) eqn:E; [done|].
  pose proof (swo_negtrans less x z y E (swo_asym less _ _ H2)). congruence.
Qed.

Lemma less_of_not_less m y z : less m y = false → less m z = true → less y z = true.
Proof.
  intros H1 H2. destruct (less y z) eqn:E; [done|].
  pose proof (swo_negtrans less m y z H1 E). congruence.
Qed.

(** The first of the maxima: everything before it is smaller, nothing after it
    is greater. *)
Lemma max_from_spec m xs :
  ∃ A B, m :: xs = A ++ max_from m xs :: B ∧
    Forall (λ y, less y (max_from m xs) = true) A ∧
    Forall (λ y, less (max_from m xs) y = false) B.
Proof.
  assert (∀ pre : list Z, Forall (λ y, less m y = false) pre → ∃ A B,
    m :: pre ++ xs = A ++ max_from m xs :: B ∧
    Forall (λ y, less y (max_from m xs) = true) A ∧
    Forall (λ y, less (max_from m xs) y = false) B) as Hgen; [|by apply (Hgen [])].
  revert m. induction xs as [|x xs IH]; intros m pre Hpre; cbn [max_from foldl].
  { exists [], pre. rewrite app_nil_r. by split_and!. }
  destruct (less m x) eqn:E.
  - destruct (IH x [] (Forall_nil_2 _)) as (A & B & Heq & HA & HB). fold (max_from x xs) in *.
    assert (less m (max_from x xs) = true) as Hm.
    { destruct A as [|a A]; cbn [app] in Heq; simplify_eq; [congruence|].
      apply Forall_cons in HA as [Ha _]. by eapply less_trans. }
    exists (m :: pre ++ A), B. split_and!; [|constructor; [done|]|done].
    + cbn [app] in *. rewrite <- app_assoc, <- Heq. done.
    + apply Forall_app. split; [|done]. eapply Forall_impl; [exact Hpre|].
      intros y Hy. exact (less_of_not_less _ _ _ Hy Hm).
  - fold (max_from m xs). destruct (IH m (pre ++ [x])) as (A & B & Heq & HA & HB).
    { apply Forall_app. split; [done|]. by constructor. }
    exists A, B. rewrite <- app_assoc in Heq. done.
Qed.
End ordered.

(** [list_min] is [list_max] for the opposite order. *)
Lemma list_min_loop_flip less fuel lst m e h :
  list_min_loop less fuel lst m e h = list_max_loop (λ a b, less b a) fuel lst m e h.
Proof.
  revert m e h. induction fuel as [|fuel IH]; intros m e h; [done|].
  cbn [list_min_loop list_max_loop]. unfold mbind, M_bind.
  destruct (list_end lst h) as [[en h1]| |]; [|done..]. case_bool_decide; [done|].
  destruct (list_next e h1) as [[e' h2]| |]; [|done..]. apply IH.
Qed.

Lemma list_min_flip less lst h : list_min less lst h = list_max (λ a b, less b a) lst h.
Proof.
  unfold list_min, list_max, mbind, M_bind, gets.
  destruct (list_begin lst h) as [[m h1]| |]; [|done..].
  destruct (list_end lst h1) as [[en h2]| |]; [|done..]. case_bool_decide; [|done].
  destruct (list_next m h2) as [[e h3]| |]; [|done..]. apply list_min_loop_flip.
Qed.

Lemma StrictWeakOrder_flip less :
  StrictWeakOrder less → StrictWeakOrder (λ a b, less b a).
Proof.
  intros H. split.
  - intros x y Hxy. exact (swo_asym less y x Hxy).
  - intros x y z H1 H2. exact (swo_negtrans less z y x H2 H1).
Qed.
