(* ===== verification/KListSpec.v ===== *)
(** * KListSpec: what the kernel list promises

    The properties of [list.c] in terms of the list of element addresses that a
    [struct list] holds ([is_list h lst xs]), with small concrete heaps that show
    their hypotheses met. *)

From S2P Require Import Prelude Links KList KListFacts KListSort KListOrder.

(** ** Concrete lists *)

(** The heap in which the list at [lst] holds [xs], and the free cells [free]. *)
Fixpoint link_cells (p : Z) (xs : list Z) (last : Z) (h : lheap) : lheap :=
  match xs with
  | [] => <[last := ListElem p NULL]> h
  | x :: t => <[x := ListElem p (hd last t)]> (link_cells x t last h)
  end.

Definition mk_list (lst : Z) (xs free : list Z) : lheap :=
  <[head_of lst := ListElem NULL (hd (tail_of lst) xs)]>
    (link_cells (head_of lst) xs (tail_of lst)
      (list_to_map ((λ p, (p, ListElem NULL NULL)) <$> free))).

(** Decides [is_list] on a concrete heap. *)
Ltac concrete_list :=
  constructor; [repeat split; reflexivity
               | apply (bool_decide_unpack _); vm_compute; exact I
               | reflexivity | reflexivity ].

Definition ltZ (x y : Z) : bool := x `mod` 10 <? y `mod` 10.

#[export] Instance ltZ_swo : StrictWeakOrder ltZ.
Proof. split; unfold ltZ; intros *; rewrite ?Z.ltb_lt, ?Z.ltb_ge; lia. Qed.

(** ** Properties *)

(** C29: the kernel list is a deque.  Any sequence of pushes, pops, removals and
    queries that is legal on the abstract list (an element is pushed only when
    absent, popped only from a non-empty list, removed only when present) runs on
    the pointer structure without a failed assertion, gives the abstract answers
    and leaves a well-formed list with the abstract content. *)
Theorem list_session_refines h lst xs ops rs xs' :
  is_list h lst xs → Forall (op_elem_ok h lst) ops → spec_ops ops xs = Some (rs, xs') →
  ∃ h', exec_ops lst ops h = Ret (rs, h') ∧ is_list h' lst xs'.
Proof. apply exec_ops_correct. Qed.

Lemma list_session_refines_witness :
  ∃ h', exec_ops 100 [OpPushBack 1; OpPushFront 2; OpRemove 1; OpSize; OpPopFront; OpEmpty]
          (mk_list 100 [] [1; 2]) = Ret ([0; 0; 0; 1; 2; 1], h') ∧ is_list h' 100 [].
Proof.
  apply (list_session_refines (mk_list 100 [] [1; 2]) 100 []); [concrete_list| |reflexivity].
  repeat constructor; try (eexists; reflexivity); done.
Defined.

(** C16: [list_sort] sorts in place.  It ends, its internal assertions hold, the
    result is a sorted permutation of the elements, and no cell outside the list
    changes. *)
Theorem list_sort_correct (less : Z → Z → bool) `{!StrictWeakOrder less} h lst xs :
  is_list h lst xs → Z.of_nat (length xs) < 2 ^ 32 →
  ∃ h' ys, list_sort less lst h = Ret (tt, h') ∧ is_list h' lst ys ∧
    ys ≡ₚ xs ∧ Sorted (le_of less) ys ∧ same_cells h h' ∧ agree_off (footprint lst xs) h h'.
Proof.
  intros Hl Hn. destruct (list_sort_run less h lst xs Hl Hn) as (h' & ys & ? & ? & ? & ? & ? & ?).
  exists h', ys. by split_and!.
Qed.

Lemma list_sort_correct_witness :
  ∃ h' ys, list_sort ltZ 100 (mk_list 100 [3; 5; 4; 1] []) = Ret (tt, h') ∧
    is_list h' 100 ys ∧ ys ≡ₚ [3; 5; 4; 1].
Proof.
  destruct (list_sort_correct ltZ (mk_list 100 [3; 5; 4; 1] []) 100 [3; 5; 4; 1])
    as (h' & ys & Hr & Hl & Hp & _); [concrete_list|reflexivity|].
  exists h', ys. split; [exact Hr|split; [exact Hl|exact Hp]].
Defined.

(** [list_insert_ordered] puts the element after every element that is not
    greater and before the first greater one, so that it keeps a sorted list
    sorted and, among equals, comes last. *)
Theorem list_insert_ordered_correct (less : Z → Z → bool) `{!StrictWeakOrder less} h lst xs e :
  is_list h lst xs → valid h e → e ∉ footprint lst xs → Sorted (le_of less) xs →
  ∃ h' A B, list_insert_ordered less lst e h = Ret (tt, h') ∧ xs = A ++ B ∧
    is_list h' lst (A ++ e :: B) ∧ Sorted (le_of less) (A ++ e :: B) ∧
    Forall (λ x, less e x = false) A ∧ (∀ b B', B = b :: B' → less e b = true).
Proof.
  intros Hl Hv Hne Hs.
  destruct (list_insert_ordered_run less h lst xs e Hl Hv Hne) as (h' & A & B & Hr & _ & -> & Hl' & HA & HB).
  exists h', A, B. split_and!; try done; [by apply Sorted_insert|]. by intros b B' ->.
Qed.

Lemma list_insert_ordered_correct_witness :
  ∃ h' A B, list_insert_ordered ltZ 100 12 (mk_list 100 [1; 2; 3] [12]) = Ret (tt, h') ∧
    [1; 2; 3] = A ++ B ∧ is_list h' 100 (A ++ 12 :: B).
Proof.
  destruct (list_insert_ordered_correct ltZ (mk_list 100 [1; 2; 3] [12]) 100 [1; 2; 3] 12)
    as (h' & A & B & Hr & Hx & Hl & _).
  - concrete_list.
  - eexists. reflexivity.
  - apply (bool_decide_unpack _). vm_compute. exact I.
  - repeat constructor.
  - exists h', A, B. split; [exact Hr|split; [exact Hx|exact Hl]].
Defined.

(** [list_unique] removes adjacent duplicates.  Of every run of equal elements
    the first stays; the others go, in order, to the end of the [duplicates] list
    when there is one.  Nothing is lost, no two neighbours of the result are equal,
    and every element moved equals one that stays. *)
Theorem list_unique_correct (less : Z → Z → bool) `{!StrictWeakOrder less} h lst dup ds xs :
  is_list h lst xs → dup_list h dup ds xs lst →
  ∃ h' ks moved, list_unique less lst dup h = Ret (tt, h') ∧
    is_list h' lst ks ∧ dup_list h' dup (ds ++ moved) ks lst ∧
    ks ++ moved ≡ₚ xs ∧ head ks = head xs ∧
    Sorted (λ x y, same_key less x y = false) ks ∧
    Forall (λ y, ∃ x, x ∈ ks ∧ same_key less x y = true) moved.
Proof.
  intros Hl Hd. destruct (list_unique_run less h lst dup ds xs Hl Hd) as (h' & Hr & Hx).
  destruct xs as [|e t].
  - subst h'. exists h, [], []. rewrite app_nil_r. split_and!; try done.
  - destruct (uniq_from less e t) as [k d] eqn:Hu. destruct Hx as [Hl' Hd'].
    destruct (uniq_from_spec less e t k d Hu) as (Hp & Hs & Hf).
    exists h', (e :: k), d. split_and!; try done. cbn [app]. by rewrite Hp.
Qed.

Lemma list_unique_correct_witness :
  ∃ h' ks moved, list_unique ltZ 100 NULL (mk_list 100 [1; 11; 2; 21] []) = Ret (tt, h') ∧
    is_list h' 100 ks ∧ ks ++ moved ≡ₚ [1; 11; 2; 21].
Proof.
  destruct (list_unique_correct ltZ (mk_list 100 [1; 11; 2; 21] []) 100 NULL [] [1; 11; 2; 21])
    as (h' & ks & moved & Hr & Hl & _ & Hp & _); [concrete_list|by left|].
  exists h', ks, moved. split; [exact Hr|split; [exact Hl|exact Hp]].
Defined.

(** [list_max] and [list_min] return the first greatest and the first least
    element, and the tail sentinel on an empty list; the heap is not written. *)
Theorem list_max_min_correct (less : Z → Z → bool) `{!StrictWeakOrder less} h lst xs :
  is_list h lst xs →
  (xs = [] → list_max less lst h = Ret (tail_of lst, h) ∧ list_min less lst h = Ret (tail_of lst, h)) ∧
  (xs ≠ [] → ∃ mx mn A B A' B',
     list_max less lst h = Ret (mx, h) ∧ list_min less lst h = Ret (mn, h) ∧
     xs = A ++ mx :: B ∧ xs = A' ++ mn :: B' ∧
     Forall (λ y, less y mx = true) A ∧ Forall (λ y, less mx y = false) B ∧
     Forall (λ y, less mn y = true) A' ∧ Forall (λ y, less y mn = false) B').
Proof.
  intros Hl. pose proof (StrictWeakOrder_flip less ltac:(done)) as Hflip.
  rewrite list_min_flip, (list_max_run less h lst xs Hl), (list_max_run _ h lst xs Hl).
  split; [by intros ->|]. intros Hne. destruct xs as [|x t]; [done|].
  destruct (max_from_spec less x t) as (A & B & HAB & HA & HB).
  destruct (max_from_spec (λ a b, less b a) x t) as (A' & B' & HAB' & HA' & HB').
  do 6 eexists. split_and!; try done.
Qed.

Lemma list_max_min_correct_witness :
  ∃ mx mn, list_max ltZ 100 (mk_list 100 [3; 5; 15; 1] []) = Ret (mx, mk_list 100 [3; 5; 15; 1] []) ∧
    list_min ltZ 100 (mk_list 100 [3; 5; 15; 1] []) = Ret (mn, mk_list 100 [3; 5; 15; 1] []).
Proof.
  destruct (list_max_min_correct ltZ (mk_list 100 [3; 5; 15; 1] []) 100 [3; 5; 15; 1])
    as [_ (mx & mn & A & B & A' & B' & Hmx & Hmn & _)]; [concrete_list|done|].
  exists mx, mn. split; [exact Hmx|exact Hmn].
Defined.

(** [list_reverse] reverses the list in place, and twice is the identity on
    its content. *)
Theorem list_reverse_involutive h lst xs :
  is_list h lst xs →
  ∃ h1 h2, list_reverse lst h = Ret (tt, h1) ∧ is_list h1 lst (reverse xs) ∧
    list_reverse lst h1 = Ret (tt, h2) ∧ is_list h2 lst xs ∧ agree_off (footprint lst xs) h h2.
Proof.
  intros Hl. destruct (list_reverse_run h lst xs Hl) as (h1 & Hr1 & _ & Hl1 & Ha1).
  destruct (list_reverse_run h1 lst _ Hl1) as (h2 & Hr2 & _ & Hl2 & Ha2).
  rewrite reverse_involutive in Hl2. exists h1, h2. split_and!; try done.
  intros q Hq. destruct (Ha1 q Hq) as [E1 E2]. destruct (Ha2 q) as [E3 E4]; [|split; congruence].
  unfold footprint in *. rewrite !elem_of_cons, !elem_of_app, elem_of_reverse in *. done.
Qed.

Lemma list_reverse_involutive_witness :
  ∃ h1 h2, list_reverse 100 (mk_list 100 [1; 2; 3] []) = Ret (tt, h1) ∧ is_list h1 100 [3; 2; 1] ∧
    list_reverse 100 h1 = Ret (tt, h2) ∧ is_list h2 100 [1; 2; 3].
Proof.
  destruct (list_reverse_involutive (mk_list 100 [1; 2; 3] []) 100 [1; 2; 3])
    as (h1 & h2 & H1 & H2 & H3 & H4 & _); [concrete_list|].
  exists h1, h2. split; [exact H1|split; [exact H2|split; [exact H3|exact H4]]].
Defined.
