(* ===== verification/Utlist.v ===== *)
(** * Utlist: the [DL_*] list macros of [kvstore/src/server/utlist.h]

    The macros keep a null-terminated list whose head's [prev] points at the last
    element.  [DL_APPEND] and [DL_DELETE] are translated branch by branch; each
    takes the current head pointer and returns the new one, the macro's assignment
    to [head].  Nodes carry a payload of any type, which the macros never touch. *)

From S2P Require Import Prelude Links.

Record dl_node (A : Type) := DlNode { dl_prev : Z; dl_next : Z; dl_data : A }.
Arguments DlNode {A} _ _ _.
Arguments dl_prev {A} _.
Arguments dl_next {A} _.
Arguments dl_data {A} _.

#[export] Instance dl_node_linked {A} : Linked (dl_node A).
Proof.
  refine {| l_prev := dl_prev; l_next := dl_next;
            l_set_prev v e := DlNode v (dl_next e) (dl_data e);
            l_set_next v e := DlNode (dl_prev e) v (dl_data e) |}; done.
Defined.

Section macros.
Context {D : Type}.
Abbreviation dheap := (gmap Z (dl_node D)).

Definition DL_APPEND (head add : Z) : M dheap Z :=
  if bool_decide (head ≠ NULL) then
    hp ← get_prev head;
    set_prev add hp;;
    hp ← get_prev head;
    set_next hp add;;
    set_prev head add;;
    set_next add NULL;;
    mret head
  else
    set_prev add add;;
    set_next add NULL;;
    mret add.

Definition DL_DELETE (head del : Z) : M dheap Z :=
  dp ← get_prev del;
  assert (bool_decide (dp ≠ NULL));;
  dp ← get_prev del;
  if bool_decide (dp = del) then mret NULL
  else if bool_decide (del = head) then
    dn ← get_next del;
    dp ← get_prev del;
    set_prev dn dp;;
    get_next del
  else
    dp ← get_prev del;
    dn ← get_next del;
    set_next dp dn;;
    dn ← get_next del;
    (if bool_decide (dn ≠ NULL) then
       dp ← get_prev del; set_prev dn dp
     else
       dp ← get_prev del; set_prev head dp);;
    mret head.

(** ** Representation *)

(** The payload at an address. *)
Definition dat (h : dheap) (p : Z) : option D := dl_data <$> deref h p.

Lemma dat_upd_prev h p v q : dat (upd_prev p v h) q = dat h q.
Proof.
  unfold dat, upd_prev. rewrite deref_upd. case_decide; [|done]. by destruct (deref h q).
Qed.

Lemma dat_upd_next h p v q : dat (upd_next p v h) q = dat h q.
Proof.
  unfold dat, upd_next. rewrite deref_upd. case_decide; [|done]. by destruct (deref h q).
Qed.

(** [dl h head xs]: the list headed by [head] holds the nodes [xs]. *)
Definition dl (h : dheap) (head : Z) (xs : list Z) : Prop :=
  NoDup xs ∧ chain h xs ∧
  match xs with
  | [] => head = NULL
  | x :: _ => head = x ∧ prv h x = last xs ∧
              (∀ z, last xs = Some z → nxt h z = Some NULL)
  end.

Lemma dl_cons_inv h head x xs :
  dl h head (x :: xs) →
  ∃ ys z, x :: xs = ys ++ [z] ∧ head = x ∧ NoDup (x :: xs) ∧ chain h (x :: xs) ∧
    prv h x = Some z ∧ nxt h z = Some NULL ∧ valid h x ∧ valid h z.
Proof.
  intros (Hnd & Hc & -> & Hp & Hn).
  destruct (exists_last (l:=x :: xs)) as (ys & z & Heq); [done|].
  rewrite Heq, last_snoc in Hp. rewrite Heq in Hn. specialize (Hn z (last_snoc _ _)).
  exists ys, z. split_and!; try done; eauto with links.
Qed.

Lemma dl_intro h x xs ys z :
  x :: xs = ys ++ [z] → NoDup (x :: xs) → chain h (x :: xs) →
  prv h x = Some z → nxt h z = Some NULL → dl h x (x :: xs).
Proof.
  intros Heq Hnd Hc Hp Hn. split_and!; try done; [by rewrite Heq, last_snoc|].
  intros w. rewrite Heq, last_snoc. by intros [= <-].
Qed.

Lemma dl_valid h head xs q : dl h head xs → q ∈ xs → valid h q.
Proof.
  intros Hd Hq. destruct xs as [|x xs]; [by apply elem_of_nil in Hq|].
  destruct (dl_cons_inv _ _ _ _ Hd) as (ys & z & Heq & _ & _ & Hc & _ & _ & Hx & _).
  destruct xs as [|y xs]; [apply list_elem_of_singleton in Hq; by subst|].
  apply chain_valid in Hc; [|simpl; lia]. rewrite Forall_forall in Hc. by apply Hc.
Qed.

(** Heaps that agree outside the nodes of a list, with payloads untouched. *)
Definition relinked (S : list Z) (h h' : dheap) : Prop :=
  same_cells h h' ∧ agree_off S h h' ∧ (∀ q, dat h' q = dat h q).

Lemma DL_APPEND_run h head xs a :
  dl h head xs → valid h a → a ∉ xs →
  ∃ head' h', DL_APPEND head a h = Ret (head', h') ∧ dl h' head' (xs ++ [a]) ∧
    relinked (a :: xs) h h'.
Proof.
  intros Hd Ha Hna. pose proof (valid_not_null _ _ Ha).
  destruct xs as [|x xs].
  { destruct Hd as (_ & _ & ->).
    exists a, (upd_next a NULL (upd_prev a a h)). split_and!.
    - unfold DL_APPEND. rewrite bool_decide_eq_false_2 by (intros Hn; by apply Hn).
      wr_prev. wr_next. done.
    - apply (dl_intro _ a [] [] a); try done; [by apply NoDup_singleton|by lk..].
    - split_and!; [cells| |intros; by rewrite dat_upd_next, dat_upd_prev].
      intros q Hq. assert (a ≠ q) by (intros ->; apply Hq; mem). split; by lk. }
  destruct (dl_cons_inv _ _ _ _ Hd) as (ys & z & Heq & -> & Hnd & Hc & Hxz & Hz & Hvx & Hvz).
  assert (a ≠ x) by (intros ->; apply Hna; mem).
  assert (a ≠ z) by (intros ->; apply Hna; rewrite Heq; mem).
  assert (x ≠ NULL) by (by eapply valid_not_null).
  exists x, (upd_next a NULL (upd_prev x a (upd_next z a (upd_prev a z h)))). split_and!.
  - unfold DL_APPEND. rewrite bool_decide_eq_true_2 by done.
    rd_prev z. wr_prev. rd_prev z. wr_next. wr_prev. wr_next. done.
  - apply (dl_intro _ x (xs ++ [a]) (x :: xs) a); [done| | |by lk|by lk].
    + rewrite app_comm_cons, NoDup_app. split_and!; [done| |by apply NoDup_singleton].
      intros q Hq Hq'. apply list_elem_of_singleton in Hq'. by subst.
    + rewrite app_comm_cons, Heq. apply chain_join; [|by lk|by lk|done].
      apply chain_upd_next'; [by rewrite <- Heq|]. rewrite <- Heq. 
      apply chain_upd_prev; [by apply NoDup_cons in Hnd as [? _]|]. rewrite Heq.
      apply chain_upd_next; [|apply chain_upd_prev'; [by rewrite <- Heq|by rewrite <- Heq]].
      rewrite Heq in Hnd. apply NoDup_app in Hnd as (_ & Hd' & _). intros Hzy.
      apply (Hd' z Hzy). mem.
  - split_and!; [cells| |intros; by rewrite dat_upd_next, dat_upd_prev, dat_upd_next, dat_upd_prev].
    intros q Hq. assert (a ≠ q) by (intros ->; apply Hq; mem).
    assert (x ≠ q) by (intros ->; apply Hq; mem).
    assert (z ≠ q) by (intros ->; apply Hq; rewrite Heq; mem). split; by lk.
Qed.

(** Deleting the head of a longer list, the last element, an inner element. *)
Lemma DL_DELETE_head h d b B :
  dl h d (d :: b :: B) →
  ∃ h', DL_DELETE d d h = Ret (b, h') ∧ dl h' b (b :: B) ∧ relinked (d :: b :: B) h h'.
Proof.
  intros Hd. destruct (dl_cons_inv _ _ _ _ Hd) as (ys & z & Heq & _ & Hnd & Hc & Hdz & Hz & Hvd & Hvz).
  pose proof Hc as Hc'. rewrite chain_cons2 in Hc'. destruct Hc' as (Hdb & Hbd & Hcb).
  apply NoDup_cons in Hnd as [Hdn Hnd].
  destruct ys as [|y ys]; [done|]. cbn [app] in Heq. injection Heq as <- Heq.
  assert (z ∈ b :: B) by (rewrite Heq; mem).
  assert (d ≠ z) by (intros ->; done). assert (d ≠ b) by (intros ->; apply Hdn; mem).
  assert (z ≠ NULL) by (by eapply valid_not_null).
  exists (upd_prev b z h). split_and!.
  - unfold DL_DELETE. rd_prev z. rb. rd_prev z.
    rewrite bool_decide_eq_false_2 by done. rewrite bool_decide_eq_true_2 by done.
    rd_next b. rd_prev z. wr_prev. apply get_next_run. by lk.
  - apply (dl_intro _ b B ys z); [done..| |by lk|by lk].
    apply chain_upd_prev; [by apply NoDup_cons in Hnd as [? _]|done].
  - split_and!; [cells| |intros; by rewrite dat_upd_prev].
    intros q Hq. assert (b ≠ q) by (intros ->; apply Hq; mem). split; by lk.
Qed.

Lemma DL_DELETE_inner h x A d B :
  dl h x (x :: A ++ d :: B) →
  ∃ h', DL_DELETE x d h = Ret (x, h') ∧ dl h' x (x :: A ++ B) ∧
    relinked (x :: A ++ d :: B) h h'.
Proof.
  intros Hd. destruct (dl_cons_inv _ _ _ _ Hd) as (ys & z & Heq & _ & Hnd & Hc & Hxz & Hz & Hvx & Hvz).
  destruct (exists_last (l:=x :: A)) as (A' & p & HA); [done|].
  rewrite app_comm_cons in Hnd, Hc. rewrite HA, <- app_assoc in Hc. cbn [app] in Hc.
  pose proof (chain_next _ _ _ _ _ Hc) as Hpd. pose proof (chain_prev _ _ _ _ _ Hc) as Hdp.
  apply NoDup_app in Hnd as (HndA & Hdis & HndB). apply NoDup_cons in HndB as [HdB HndB].
  assert (p ∈ x :: A) as HpA by (rewrite HA; mem).
  assert (p ≠ d) by (apply (notin_ne _ _ _ (Hdis p HpA)); mem).
  assert (x ≠ d) by (apply (notin_ne _ _ _ (Hdis x ltac:(mem))); mem).
  assert (p ≠ NULL) by (eapply valid_not_null; eauto with links).
  rewrite HA in HndA. pose proof HndA as HndA'. apply NoDup_app in HndA' as (_ & HpA' & _).
  assert (p ∉ A') as HpA0 by (intros Hin; apply (HpA' p Hin); mem).
  apply chain_split in Hc as [Hc1 Hc2]. apply chain_tail in Hc2.
  destruct B as [|b B].
  - (* [d] is the last element *)
    assert (z = d) as ->.
    { rewrite app_comm_cons in Heq. by apply app_inj_tail in Heq as [_ ->]. }
    exists (upd_prev x p (upd_next p NULL h)). rewrite app_nil_r. split_and!.
    + unfold DL_DELETE. rd_prev p. rb. rd_prev p. rewrite !bool_decide_eq_false_2 by done.
      rd_prev p. rd_next NULL. wr_next. rd_next NULL.
      rewrite bool_decide_eq_false_2 by (intros Hn; by apply Hn). rb. rd_prev p. wr_prev. done.
    + apply (dl_intro _ x A A' p); [done|by rewrite HA| |by lk|by lk].
      apply chain_upd_prev; [rewrite <- HA in HndA; by apply NoDup_cons in HndA as [? _]|].
      rewrite HA. by apply chain_upd_next.
    + split_and!; [cells| |intros; by rewrite dat_upd_prev, dat_upd_next].
      intros q Hq. assert (x ≠ q) by (intros ->; apply Hq; mem).
      assert (p ≠ q) by (intros ->; apply Hq; rewrite app_comm_cons; mem). split; by lk.
  - (* an element [b] follows *)
    rewrite chain_cons2 in Hc2. destruct Hc2 as (Hdb & Hbd & HcB).
    assert (b ∉ x :: A) as HbA by (intros Hin; apply (Hdis b Hin); mem).
    assert (z ∈ b :: B) as HzB.
    { assert (last (x :: A ++ d :: b :: B) = last (ys ++ [z])) as Hla by by rewrite Heq.
      rewrite app_comm_cons, last_snoc, last_app in Hla.
      assert (last (d :: b :: B) = last (b :: B)) as E by done. rewrite E in Hla.
      destruct (last (b :: B)) eqn:E'; [|by apply last_None in E'].
      simplify_eq. by apply last_Some_elem_of in E'. }
    assert (b ≠ x ∧ b ≠ p ∧ b ≠ d ∧ z ≠ p) as (?&?&?&?).
    { split_and!; [apply (notin_ne _ _ _ HbA); mem|by apply (notin_ne _ _ _ HbA)| |].
      - apply (notin_ne' _ _ _ HdB). mem.
      - intros ->. apply (Hdis p HpA). mem. }
    assert (b ≠ NULL) by (eapply valid_not_null; eauto with links).
    exists (upd_prev b p (upd_next p b h)). split_and!.
    + unfold DL_DELETE. rd_prev p. rb. rd_prev p. rewrite !bool_decide_eq_false_2 by done.
      rd_prev p. rd_next b. wr_next. rd_next b.
      rewrite bool_decide_eq_true_2 by done. rb. rd_prev p. wr_prev. done.
    + destruct (exists_last (l:=b :: B)) as (B' & z' & HB); [done|].
      assert (z' = z) as ->.
      { assert (ys ++ [z] = (x :: A ++ d :: B') ++ [z']) as E.
        { rewrite <- Heq, HB. app_eq. }
        by apply app_inj_tail in E as [_ <-]. }
      apply (dl_intro _ x (A ++ b :: B) ((x :: A) ++ B') z).
      * rewrite HB. app_eq.
      * rewrite app_comm_cons, NoDup_app. split_and!; [by rewrite HA| |done].
        intros q Hq Hq'. apply (Hdis q Hq). by right.
      * rewrite app_comm_cons, HA. apply chain_join; [|by lk|by lk|].
        -- apply chain_upd_prev'; [by rewrite <- HA|]. by apply chain_upd_next.
        -- apply chain_upd_prev; [by apply NoDup_cons in HndB as [? _]|].
           apply chain_upd_next'; [|done]. intros Hin. apply (Hdis p HpA). by right.
      * by lk.
      * by lk.
    + split_and!; [cells| |intros; by rewrite dat_upd_prev, dat_upd_next].
      intros q Hq. assert (b ≠ q) by (intros ->; apply Hq; mem).
      assert (p ≠ q) by (intros ->; apply Hq; rewrite app_comm_cons; mem). split; by lk.
Qed.

Lemma DL_DELETE_run h head A d B :
  dl h head (A ++ d :: B) →
  ∃ head' h', DL_DELETE head d h = Ret (head', h') ∧ dl h' head' (A ++ B) ∧
    relinked (A ++ d :: B) h h'.
Proof.
  intros Hd. destruct A as [|x A]; cbn [app] in *.
  - pose proof (dl_cons_inv _ _ _ _ Hd) as (ys & z & Heq & -> & _ & _ & Hdz & _ & Hvd & _).
    destruct B as [|b B]; [|destruct (DL_DELETE_head _ _ _ _ Hd) as (h' & ?); eauto].
    assert (z = d) as -> by (destruct ys as [|? [|??]]; by simplify_eq/=).
    exists NULL, h. pose proof (valid_not_null _ _ Hvd). split_and!; try done.
    + unfold DL_DELETE. rd_prev d. rb. rd_prev d. by rewrite bool_decide_eq_true_2.
    + split_and!; [constructor|done..].
  - pose proof (dl_cons_inv _ _ _ _ Hd) as (? & ? & _ & -> & _).
    destruct (DL_DELETE_inner _ _ _ _ _ Hd) as (h' & ?). eauto.
Qed.
End macros.
