(* ===== verification/Wq.v ===== *)
(** * Wq: the work queue of the server ([kvstore/src/server/wq.c])

    Any number of threads push and pop under a mutex; poppers sleep on a condition
    variable.  The code between two synchronisation points is translated as is
    ([push_item], [take_item] over the heap of [DL] nodes); the threads are a step
    function over their program counters, one event per synchronisation point, so
    that a list of events is an interleaving.

    - [pthread_mutex_lock] waits until the mutex is free;
    - [pthread_cond_wait] releases it and sleeps; woken, by a signal or spuriously,
      the thread locks the mutex again and tests its condition again;
    - [pthread_cond_signal] wakes one sleeping thread if there is one.

    [wq_push] does not test the result of [calloc]; here the allocation succeeds. *)

From S2P Require Import Prelude Links Utlist.

(** ** The queue *)

(** [wq_t] with the heap of its items and the next fresh address. *)
Record wq := WQ { wq_head : Z; wq_heap : gmap Z (dl_node Z); wq_brk : Z }.

Definition wq_init : wq := WQ NULL ∅ 1.

Definition on_heap {A} (m : M (gmap Z (dl_node Z)) A) : M wq A := λ s,
  match m (wq_heap s) with
  | Ret (a, h) => Ret (a, WQ (wq_head s) h (wq_brk s))
  | Crash => Crash
  | NoFuel => NoFuel
  end.

Definition set_wq_head (p : Z) : M wq unit := modify (λ s, WQ p (wq_heap s) (wq_brk s)).

(** [wq_push] under the lock: [calloc], the item, [DL_APPEND]. *)
Definition push_item (item : Z) : M wq unit :=
  wq_item ← gets wq_brk;
  modify (λ s, WQ (wq_head s) (<[wq_item := DlNode NULL NULL item]> (wq_heap s)) (wq_brk s + 1));;
  head ← gets wq_head;
  head ← on_heap (DL_APPEND head wq_item);
  set_wq_head head.

(** [wq_pop] under the lock, once the queue is not empty. *)
Definition take_item : M wq Z :=
  head ← gets wq_head;
  job ← on_heap (gets_opt (λ h, dat h head));
  head' ← on_heap (DL_DELETE head head);
  set_wq_head head';;
  mret job.

(** ** The threads *)

(** Where a thread is: outside, or in [wq_pop] or [wq_push]. *)
Inductive pc :=
| Idle
| PopEntry                (* before pthread_mutex_lock *)
| PopLoop                 (* at the while test, holding the lock *)
| PopSleep                (* asleep in pthread_cond_wait *)
| PopWoken                (* woken, waiting for the lock *)
| PushEntry (item : Z)    (* before pthread_mutex_lock *)
| PushBody (item : Z).    (* holding the lock *)

#[export] Instance pc_eq_dec : EqDecision pc.
Proof. solve_decision. Defined.

Record state := State {
  st_wq : wq;
  st_lock : option nat;          (* the thread that holds the mutex *)
  st_threads : list pc;
  st_pushed : list Z;            (* items whose push is complete, in order *)
  st_popped : list (nat * Z)     (* items returned by pops, with their thread *)
}.

Inductive event :=
| CallPop (t : nat)
| CallPush (t : nat) (item : Z)
| PopLock (t : nat)
| PopWait (t : nat)
| Spurious (t : nat)
| PopRelock (t : nat)
| PopTake (t : nat)
| PushLock (t : nat)
| PushDo (t : nat) (wake : option nat).   (* [wake]: the sleeper that is signalled *)

Definition set_pc (t : nat) (p : pc) (s : state) : state :=
  State (st_wq s) (st_lock s) (<[t := p]> (st_threads s)) (st_pushed s) (st_popped s).
Definition set_lock (l : option nat) (s : state) : state :=
  State (st_wq s) l (st_threads s) (st_pushed s) (st_popped s).

Definition asleep (s : state) (t : nat) : Prop := st_threads s !! t = Some PopSleep.

#[export] Instance asleep_dec s t : Decision (asleep s t).
Proof. unfold asleep. apply _. Defined.

Definition no_sleeper (s : state) : bool := bool_decide (PopSleep ∉ st_threads s).

(** [None]: the event is not possible in this state, or the code crashes. *)
Definition step (e : event) (s : state) : option state :=
  match e with
  | CallPop t =>
    match st_threads s !! t with Some Idle => Some (set_pc t PopEntry s) | _ => None end
  | CallPush t item =>
    match st_threads s !! t with Some Idle => Some (set_pc t (PushEntry item) s) | _ => None end
  | PopLock t =>
    match st_threads s !! t, st_lock s with
    | Some PopEntry, None => Some (set_pc t PopLoop (set_lock (Some t) s))
    | _, _ => None
    end
  | PopWait t =>
    match st_threads s !! t with
    | Some PopLoop =>
      if bool_decide (wq_head (st_wq s) = NULL)
      then Some (set_pc t PopSleep (set_lock None s)) else None
    | _ => None
    end
  | Spurious t =>
    match st_threads s !! t with Some PopSleep => Some (set_pc t PopWoken s) | _ => None end
  | PopRelock t =>
    match st_threads s !! t, st_lock s with
    | Some PopWoken, None => Some (set_pc t PopLoop (set_lock (Some t) s))
    | _, _ => None
    end
  | PopTake t =>
    match st_threads s !! t with
    | Some PopLoop =>
      if bool_decide (wq_head (st_wq s) = NULL) then None else
      match take_item (st_wq s) with
      | Ret (job, q) =>
        Some (State q None (<[t := Idle]> (st_threads s)) (st_pushed s) (st_popped s ++ [(t, job)]))
      | _ => None
      end
    | _ => None
    end
  | PushLock t =>
    match st_threads s !! t, st_lock s with
    | Some (PushEntry item), None => Some (set_pc t (PushBody item) (set_lock (Some t) s))
    | _, _ => None
    end
  | PushDo t wake =>
    match st_threads s !! t with
    | Some (PushBody item) =>
      match push_item item (st_wq s) with
      | Ret (_, q) =>
        let s1 := State q None (<[t := Idle]> (st_threads s)) (st_pushed s ++ [item]) (st_popped s) in
        match wake with
        | Some u => if decide (asleep s u) then Some (set_pc u PopWoken s1) else None
        | None => if no_sleeper s then Some s1 else None
        end
      | _ => None
      end
    | _ => None
    end
  end.

Fixpoint steps (es : list event) (s : state) : option state :=
  match es with
  | [] => Some s
  | e :: es => s' ← step e s; steps es s'
  end.

Definition init_state (n : nat) : state := State wq_init None (replicate n Idle) [] [].

(** ** The queue holds a list of items *)

Definition wq_ok (q : wq) (xs : list Z) : Prop :=
  ∃ ps, dl (wq_heap q) (wq_head q) ps ∧ Forall2 (λ p x, dat (wq_heap q) p = Some x) ps xs ∧
    0 < wq_brk q ∧ (∀ p, valid (wq_heap q) p → p < wq_brk q).

Lemma Forall2_dat_same (h h' : gmap Z (dl_node Z)) ps xs :
  (∀ p, p ∈ ps → dat h' p = dat h p) →
  Forall2 (λ p x, dat h p = Some x) ps xs → Forall2 (λ p x, dat h' p = Some x) ps xs.
Proof.
  intros He H. induction H as [|p x ps xs Hpx H IH]; constructor.
  - by rewrite He by left.
  - apply IH. intros q Hq. apply He. by right.
Qed.

Lemma wq_ok_head q xs : wq_ok q xs → wq_head q = NULL ↔ xs = [].
Proof.
  intros (ps & Hd & Hx & _). destruct ps as [|p ps], xs as [|x xs]; try by apply Forall2_length in Hx.
  - destruct Hd as (_ & _ & ->). done.
  - split; [|done]. intros Hh. exfalso.
    destruct (dl_cons_inv _ _ _ _ Hd) as (? & ? & _ & Hp & _ & _ & _ & _ & Hv & _).
    apply valid_not_null in Hv. congruence.
Qed.

Lemma push_item_run q xs item :
  wq_ok q xs → ∃ q', push_item item q = Ret (tt, q') ∧ wq_ok q' (xs ++ [item]).
Proof.
  intros (ps & Hd & Hx & Hb & Hf). set (p := wq_brk q).
  set (h := <[p := DlNode NULL NULL item]> (wq_heap q)).
  assert (∀ a, deref h a = if decide (p = a) then Some (DlNode NULL NULL item) else deref (wq_heap q) a) as Hder.
  { intros a. unfold h, deref. destruct (decide (p = a)) as [<-|Hne].
    - rewrite bool_decide_eq_false_2 by (unfold NULL; lia). apply lookup_insert_eq.
    - case_bool_decide; [done|]. by apply lookup_insert_ne. }
  assert (p ∉ ps) as Hp.
  { intros Hin. pose proof (Hf p (dl_valid _ _ _ _ Hd Hin)). lia. }
  assert (∀ a, a ∈ ps → deref h a = deref (wq_heap q) a) as Hsame.
  { intros a Ha. rewrite Hder, decide_False; [done|]. by intros ->. }
  assert (dl h (wq_head q) ps) as Hd1.
  { destruct Hd as (Hnd & Hc & Hm). split_and!; [done| |].
    - eapply chain_ext; [|exact Hc]. intros a Ha. unfold nxt, prv. by rewrite Hsame.
    - destruct ps as [|a ps]; [done|]. destruct Hm as (Hh & Hpr & Hla). split_and!; [done| |].
      + unfold prv. by rewrite Hsame by left.
      + intros z Hz. unfold nxt. rewrite Hsame by by eapply last_Some_elem_of. by apply Hla. }
  assert (valid h p) as Hvp by (unfold valid; rewrite Hder, decide_True by done; by eexists).
  destruct (DL_APPEND_run h (wq_head q) ps p Hd1 Hvp Hp) as (head' & h' & E & Hd2 & Hc & _ & Hdat).
  exists (WQ head' h' (p + 1)). split.
  - unfold push_item. rewrite (bind_Ret _ _ _ p q) by done.
    rewrite (bind_Ret _ _ _ tt (WQ (wq_head q) h (p + 1))) by done.
    rewrite (bind_Ret _ _ _ (wq_head q) (WQ (wq_head q) h (p + 1))) by done.
    rewrite (bind_Ret _ _ _ head' (WQ (wq_head q) h' (p + 1)))
      by (unfold on_heap; cbn [wq_heap]; by rewrite E). done.
  - exists (ps ++ [p]). cbn [wq_heap wq_head wq_brk]. split_and!; [done| |lia|].
    + apply Forall2_app.
      * eapply Forall2_dat_same; [|exact Hx]. intros a Ha. rewrite Hdat. unfold dat. by rewrite Hsame.
      * constructor; [|constructor]. rewrite Hdat. unfold dat. by rewrite Hder, decide_True.
    + intros a Ha. apply Hc in Ha. unfold valid in Ha. rewrite Hder in Ha.
      case_decide; [lia|]. specialize (Hf a Ha). lia.
Qed.

Lemma take_item_run q x xs :
  wq_ok q (x :: xs) → ∃ q', take_item q = Ret (x, q') ∧ wq_ok q' xs.
Proof.
  intros (ps & Hd & Hx & Hb & Hf). destruct ps as [|p ps]; [by apply Forall2_length in Hx|].
  apply Forall2_cons_1 in Hx as [Hp Hx].
  destruct (DL_DELETE_run (wq_heap q) (wq_head q) [] p ps Hd) as (head' & h' & E & Hd' & Hc & _ & Hdat).
  destruct (dl_cons_inv _ _ _ _ Hd) as (? & ? & _ & Hh & _).
  exists (WQ head' h' (wq_brk q)). split.
  - unfold take_item. rewrite (bind_Ret _ _ _ (wq_head q) q) by done. rewrite Hh.
    rewrite (bind_Ret _ _ _ x q)
      by (unfold on_heap, gets_opt; rewrite Hp; by destruct q).
    rewrite (bind_Ret _ _ _ head' (WQ (wq_head q) h' (wq_brk q)))
      by (unfold on_heap; rewrite <- Hh at 1; by rewrite E). done.
  - exists ps. cbn [wq_heap wq_head wq_brk]. split_and!; [done| |done|].
    + eapply Forall2_dat_same; [|exact Hx]. intros a _. apply Hdat.
    + intros a Ha. apply Hf. by apply Hc.
Qed.

(** ** The invariant of the threads *)

(** The thread holds the mutex. *)
Definition holds (p : pc) : bool :=
  match p with PopLoop | PushBody _ => true | _ => false end.

(** The thread is in [wq_pop] and will test the queue without being woken. *)
Definition awake (p : pc) : bool :=
  match p with PopWoken | PopLoop => true | _ => false end.

Definition count (f : pc → bool) (l : list pc) : nat := length (filter (λ p, f p = true) l).

Lemma count_insert f l t p p' :
  l !! t = Some p →
  (count f (<[t := p']> l) + (if f p then 1 else 0) = count f l + (if f p' then 1 else 0))%nat.
Proof.
  revert t. unfold count. induction l as [|q l IH]; intros [|t] Ht; simplify_eq/=.
  - rewrite !filter_cons. destruct (f p) eqn:E, (f p') eqn:E'; simpl; lia.
  - specialize (IH t Ht). rewrite !filter_cons. destruct (f q) eqn:E; simpl; lia.
Qed.

Record inv (s : state) (xs : list Z) : Prop := {
  i_queue : wq_ok (st_wq s) xs;
  i_fifo : st_pushed s = (st_popped s).*2 ++ xs;
  i_lock t : st_lock s = Some t ↔ ∃ p, st_threads s !! t = Some p ∧ holds p = true;
  i_wake : PopSleep ∈ st_threads s → (length xs ≤ count awake (st_threads s))%nat
}.

Lemma init_inv n : inv (init_state n) [].
Proof.
  split; cbn [st_wq st_pushed st_popped st_lock st_threads init_state].
  - exists []. cbn. split_and!; [split_and!; [constructor|done..]|constructor|lia|].
    intros p [x Hx]. unfold deref in Hx. by case_bool_decide.
  - done.
  - intros t. split; [done|]. intros (p & Hp & Hh). apply lookup_replicate in Hp as [-> _]. done.
  - intros _. simpl. lia.
Qed.

(** The lock clause after thread [t] moves from [p] to [p']. *)
Lemma lock_move s t p p' l :
  (∀ u, st_lock s = Some u ↔ ∃ q, st_threads s !! u = Some q ∧ holds q = true) →
  st_threads s !! t = Some p →
  (holds p = true ∨ st_lock s = None ∨ (holds p' = false ∧ l = st_lock s)) →
  (holds p' = true → l = Some t) → (holds p' = false → holds p = true → l = None) →
  (holds p' = false → st_lock s = None → l = None) →
  ∀ u, l = Some u ↔ ∃ q, <[t := p']> (st_threads s) !! u = Some q ∧ holds q = true.
Proof.
  intros Hl Hp Hc H1 H2 H3 u. pose proof (lookup_lt_Some _ _ _ Hp) as Hlt.
  assert (holds p = true → st_lock s = Some t) as Hpt by (intros Hh; apply Hl; eauto).
  destruct (decide (t = u)) as [<-|Hne].
  - rewrite list_lookup_insert_eq by done. split.
    + intros ->. exists p'. split; [done|]. destruct (holds p') eqn:E; [done|exfalso].
      destruct (holds p) eqn:Ep; [by specialize (H2 eq_refl eq_refl)|].
      destruct Hc as [?|[Hn|[_ Hls]]]; [done|by specialize (H3 eq_refl Hn)|].
      symmetry in Hls. apply Hl in Hls as (q & Hq & Hh). congruence.
    + intros (q & [= <-] & Hh). by apply H1.
  - rewrite list_lookup_insert_ne by done. destruct (holds p') eqn:E'.
    + rewrite H1 by done. split; [congruence|]. intros (q & Hq & Hh). exfalso.
      assert (st_lock s = Some u) as Hu by (apply Hl; eauto).
      destruct Hc as [Hh'|[Hn|[? _]]]; [rewrite Hpt in Hu by done|congruence..]. congruence.
    + destruct (holds p) eqn:Ep.
      * rewrite (H2 eq_refl eq_refl). split; [done|]. intros (q & Hq & Hh). exfalso.
        assert (st_lock s = Some u) as Hu by (apply Hl; eauto). rewrite Hpt in Hu by done. congruence.
      * destruct Hc as [?|[Hn|[_ ->]]]; [done| |apply Hl].
        rewrite (H3 eq_refl Hn). rewrite <- Hl, Hn. done.
Qed.

Lemma sleep_insert (l : list pc) t p :
  p ≠ PopSleep → PopSleep ∈ <[t := p]> l → PopSleep ∈ l.
Proof.
  intros Hp Hin. apply list_elem_of_lookup in Hin as (u & Hu).
  apply list_lookup_insert_Some in Hu as [(_ & ? & _)|(_ & Hu)]; [congruence|].
  by eapply list_elem_of_lookup_2.
Qed.

(** A thread moves while the queue and the histories stay. *)
Lemma inv_move s xs t p p' l :
  inv s xs → st_threads s !! t = Some p →
  (holds p = true ∨ st_lock s = None ∨ (holds p' = false ∧ l = st_lock s)) →
  (holds p' = true → l = Some t) → (holds p' = false → holds p = true → l = None) →
  (holds p' = false → st_lock s = None → l = None) →
  (p' = PopSleep → xs = []) → (awake p = true → awake p' = true ∨ xs = []) →
  inv (set_pc t p' (set_lock l s)) xs.
Proof.
  intros [Hq Hfi Hl Hw] Hp Hc H1 H2 H3 Hs Ha.
  split; cbn [st_wq st_pushed st_popped st_lock st_threads set_pc set_lock]; try done.
  - by eapply lock_move.
  - intros Hin. destruct (decide (p' = PopSleep)) as [->|Hne]; [rewrite Hs by done; simpl; lia|].
    pose proof (Hw (sleep_insert _ _ _ Hne Hin)) as Hle.
    pose proof (count_insert awake (st_threads s) t p p' Hp) as Hcnt.
    destruct (awake p) eqn:E; [|destruct (awake p'); lia].
    destruct (Ha eq_refl) as [E'| ->]; [rewrite E' in Hcnt; lia|simpl; lia].
Qed.

Lemma set_lock_id s : set_lock (st_lock s) s = s.
Proof. by destruct s. Qed.

Lemma inv_set_pc s xs t p p' :
  inv s xs → st_threads s !! t = Some p → holds p = false → holds p' = false →
  (p' = PopSleep → xs = []) → (awake p = true → awake p' = true) → inv (set_pc t p' s) xs.
Proof.
  intros Hi Hp Hh Hh' Hs Ha. rewrite <- (set_lock_id s).
  apply (inv_move s xs t p p'); try done; try congruence.
  - right. right. done.
  - intros Hap. left. by apply Ha.
Qed.

(** A thread leaves the critical section with a new queue. *)
Lemma inv_leave s xs xs' t p q pushed popped :
  inv s xs → st_threads s !! t = Some p → holds p = true →
  wq_ok q xs' → pushed = popped.*2 ++ xs' →
  (PopSleep ∈ <[t := Idle]> (st_threads s) →
     (length xs' ≤ count awake (<[t := Idle]> (st_threads s)))%nat) →
  inv (State q None (<[t := Idle]> (st_threads s)) pushed popped) xs'.
Proof.
  intros [_ _ Hl _] Hp Hh Hq Hfi Hw.
  split; cbn [st_wq st_pushed st_popped st_lock st_threads]; try done.
  apply (lock_move s t p Idle None); try done. by left.
Qed.

Lemma inv_pop_take s xs t s' :
  inv s xs → st_threads s !! t = Some PopLoop → step (PopTake t) s = Some s' → ∃ xs', inv s' xs'.
Proof.
  intros Hi Hp. cbn [step]. rewrite Hp. case_bool_decide as Hh; [done|].
  destruct xs as [|x xs]; [exfalso; apply Hh; by apply (wq_ok_head _ _ (i_queue _ _ Hi))|].
  destruct (take_item_run _ _ _ (i_queue _ _ Hi)) as (q & -> & Hq). intros [= <-]. exists xs.
  apply (inv_leave s (x :: xs) xs t PopLoop); try done.
  - rewrite (i_fifo _ _ Hi), fmap_app, <- app_assoc. done.
  - intros Hin. pose proof (i_wake _ _ Hi (sleep_insert _ t Idle ltac:(done) Hin)) as Hle.
    pose proof (count_insert awake _ t _ Idle Hp) as Hc. simpl in *. lia.
Qed.

Lemma inv_push_do s xs t item wake s' :
  inv s xs → st_threads s !! t = Some (PushBody item) → step (PushDo t wake) s = Some s' →
  inv s' (xs ++ [item]).
Proof.
  intros Hi Hp. cbn [step]. rewrite Hp.
  destruct (push_item_run _ _ item (i_queue _ _ Hi)) as (q & -> & Hq).
  pose proof (count_insert awake _ t _ Idle Hp) as Hc. cbn [awake] in Hc.
  assert (st_pushed s ++ [item] = (st_popped s).*2 ++ (xs ++ [item])) as Hfi
    by (rewrite (i_fifo _ _ Hi); by rewrite app_assoc).
  destruct wake as [u|].
  - case_decide as Hu; [|done]. intros [= <-]. unfold asleep in Hu.
    assert (t ≠ u) as Htu by (intros ->; congruence).
    assert (<[t := Idle]> (st_threads s) !! u = Some PopSleep) as Hu'
      by by rewrite list_lookup_insert_ne.
    pose proof (count_insert awake _ u _ PopWoken Hu') as Hc'. cbn [awake] in Hc'.
    set (s1 := State q None (<[t := Idle]> (st_threads s)) (st_pushed s ++ [item]) (st_popped s)).
    assert (∀ v, st_lock s1 = Some v ↔ ∃ q, st_threads s1 !! v = Some q ∧ holds q = true) as Hl1.
    { apply (lock_move s t (PushBody item) Idle None); try done; [apply (i_lock _ _ Hi)|by left]. }
    split; cbn [st_wq st_pushed st_popped st_lock st_threads set_pc s1]; try done.
    + apply (lock_move s1 u PopSleep PopWoken None); try done. right. by left.
    + intros _. pose proof (i_wake _ _ Hi (list_elem_of_lookup_2 _ _ _ Hu)) as Hle.
      rewrite length_app. simpl. lia.
  - unfold no_sleeper. case_bool_decide as Hn; [|done]. intros [= <-].
    apply (inv_leave s xs (xs ++ [item]) t (PushBody item)); try done.
    intros Hin. exfalso. by apply Hn, (sleep_insert _ t Idle).
Qed.

Lemma step_inv e s xs s' : inv s xs → step e s = Some s' → ∃ xs', inv s' xs'.
Proof.
  intros Hi Hstep. destruct e as [t|t item|t|t|t|t|t|t|t wake].
  8:{ cbn [step] in Hstep. destruct (st_threads s !! t) as [[]|] eqn:Hp; try done.
      destruct (st_lock s) eqn:Hl; [done|]. injection Hstep as <-. exists xs.
      apply (inv_move s xs t (PushEntry item)); try done. right. by left. }
  8:{ assert (∃ item, st_threads s !! t = Some (PushBody item)) as [item Hp].
      { cbn [step] in Hstep. destruct (st_threads s !! t) as [[]|]; try done. by eexists. }
      eexists. by eapply inv_push_do. }
  7:{ assert (st_threads s !! t = Some PopLoop) as Hp.
      { cbn [step] in Hstep. by destruct (st_threads s !! t) as [[]|]. }
      by eapply inv_pop_take. }
  all: cbn [step] in Hstep; destruct (st_threads s !! t) as [[]|] eqn:Hp; try done; exists xs.
  - injection Hstep as <-. by apply (inv_set_pc s xs t Idle).
  - injection Hstep as <-. by apply (inv_set_pc s xs t Idle).
  - destruct (st_lock s) eqn:Hl; [done|]. injection Hstep as <-.
    apply (inv_move s xs t PopEntry); try done. right. by left.
  - case_bool_decide as Hh; [|done]. injection Hstep as <-.
    apply (wq_ok_head _ _ (i_queue _ _ Hi)) in Hh. subst xs.
    apply (inv_move s [] t PopLoop); try done; [by left|by right].
  - injection Hstep as <-. by apply (inv_set_pc s xs t PopSleep).
  - destruct (st_lock s) eqn:Hl; [done|]. injection Hstep as <-.
    apply (inv_move s xs t PopWoken); try done; [right; by left|by left].
Qed.

Lemma steps_inv es s xs s' : inv s xs → steps es s = Some s' → ∃ xs', inv s' xs'.
Proof.
  revert s xs. induction es as [|e es IH]; intros s xs Hi Hs; cbn [steps] in Hs.
  { injection Hs as <-. by exists xs. }
  destruct (step e s) as [s1|] eqn:He; [|done]. cbn in Hs.
  destruct (step_inv e s xs s1 Hi He) as [xs1 Hi1]. by eapply IH.
Qed.

(** ** Properties *)

(** C21: every item is delivered exactly once and in order.  In every interleaving of
    any number of pushing and popping threads, with spurious wake-ups, the items
    returned by pops so far, followed by the items in the queue, are the items
    pushed so far. *)
Theorem wq_exactly_once_fifo n es s :
  steps es (init_state n) = Some s →
  ∃ xs, wq_ok (st_wq s) xs ∧ st_pushed s = (st_popped s).*2 ++ xs.
Proof.
  intros Hs. destruct (steps_inv es _ [] s (init_inv n) Hs) as [xs Hi].
  exists xs. split; [apply (i_queue _ _ Hi)|apply (i_fifo _ _ Hi)].
Qed.

(** Two poppers sleep, two items come, a third thread takes the first. *)
Definition es_test : list event :=
  [CallPop 0; CallPop 1; PopLock 0; PopWait 0; PopLock 1; PopWait 1;
   CallPush 2 7; PushLock 2; PushDo 2 (Some 1%nat); CallPush 2 8; PushLock 2; PushDo 2 (Some 0%nat);
   CallPop 2; PopLock 2; PopTake 2; PopRelock 0; PopTake 0; PopRelock 1; PopWait 1].

Lemma wq_exactly_once_fifo_witness :
  ∃ s, steps es_test (init_state 3) = Some s ∧ st_popped s = [(2%nat, 7); (0%nat, 8)] ∧
    ∃ xs, wq_ok (st_wq s) xs ∧ st_pushed s = (st_popped s).*2 ++ xs.
Proof.
  eexists. split; [vm_compute; reflexivity|]. split; [reflexivity|].
  apply (wq_exactly_once_fifo 3 es_test). vm_compute. reflexivity.
Defined.

(** Mutual exclusion.  In every interleaving at most one thread is between its
    lock and its unlock, and it is the holder of the mutex. *)
Theorem wq_mutual_exclusion n es s t u p q :
  steps es (init_state n) = Some s →
  st_threads s !! t = Some p → st_threads s !! u = Some q → holds p = true → holds q = true →
  t = u ∧ st_lock s = Some t.
Proof.
  intros Hs Hp Hq Hhp Hhq. destruct (steps_inv es _ [] s (init_inv n) Hs) as [xs Hi].
  assert (st_lock s = Some t) as Ht by (apply (i_lock _ _ Hi); eauto).
  assert (st_lock s = Some u) as Hu by (apply (i_lock _ _ Hi); eauto).
  split; [congruence|done].
Qed.

Lemma wq_mutual_exclusion_witness :
  ∃ s, steps [CallPop 0; PopLock 0] (init_state 2) = Some s ∧ 0%nat = 0%nat ∧ st_lock s = Some 0%nat.
Proof.
  eexists. split; [reflexivity|].
  apply (wq_mutual_exclusion 2 [CallPop 0; PopLock 0] _ 0 0 PopLoop PopLoop); reflexivity.
Defined.

(** The events of threads that are inside the queue's functions, apart from
    spurious wake-ups. *)
Definition internal (e : event) : bool :=
  match e with CallPop _ | CallPush _ _ | Spurious _ => false | _ => true end.

Definition popping (p : pc) : bool :=
  match p with PopEntry | PopLoop | PopSleep | PopWoken => true | _ => false end.

Lemma holder_steps s xs t p :
  inv s xs → xs ≠ [] → st_threads s !! t = Some p → holds p = true →
  ∃ e s', internal e = true ∧ step e s = Some s'.
Proof.
  intros Hi Hxs Hp Hh. destruct p; try done.
  - exists (PopTake t). destruct xs as [|x xs]; [done|].
    destruct (take_item_run _ _ _ (i_queue _ _ Hi)) as (q & E & _). cbn [step]. rewrite Hp, E.
    rewrite bool_decide_eq_false_2; [eexists; by split|].
    intros Hn. by apply (wq_ok_head _ _ (i_queue _ _ Hi)) in Hn.
  - destruct (push_item_run _ _ item (i_queue _ _ Hi)) as (q & E & _).
    destruct (decide (PopSleep ∈ st_threads s)) as [Hin|Hnin].
    + apply list_elem_of_lookup in Hin as (u & Hu). exists (PushDo t (Some u)). cbn [step].
      rewrite Hp, E, decide_True by done. eexists. by split.
    + exists (PushDo t None). cbn [step]. rewrite Hp, E. unfold no_sleeper.
      rewrite bool_decide_eq_true_2 by done. eexists. by split.
Qed.

(** C26: no wake-up is lost.  In every interleaving, when the queue is not empty and
    some thread is in [wq_pop], even asleep, some thread inside the queue's functions
    can make a step, and that without a spurious wake-up. *)
Theorem wq_no_lost_wakeup n es s t p :
  steps es (init_state n) = Some s → wq_head (st_wq s) ≠ NULL →
  st_threads s !! t = Some p → popping p = true →
  ∃ e s', internal e = true ∧ step e s = Some s'.
Proof.
  intros Hs Hne Hp Hpop. destruct (steps_inv es _ [] s (init_inv n) Hs) as [xs Hi].
  assert (xs ≠ []) as Hxs by (intros ->; by apply Hne, (wq_ok_head _ _ (i_queue _ _ Hi))).
  destruct (st_lock s) as [u|] eqn:Hl.
  { pose proof (proj1 (i_lock _ _ Hi u) Hl) as (q & Hq & Hh). by eapply holder_steps. }
  assert (∀ u, st_threads s !! u = Some PopWoken → ∃ e s', internal e = true ∧ step e s = Some s') as Hwok.
  { intros u Hu. exists (PopRelock u). cbn [step]. rewrite Hu, Hl. eexists. by split. }
  destruct p; try done.
  - exists (PopLock t). cbn [step]. rewrite Hp, Hl. eexists. by split.
  - assert (st_lock s = Some t) by (apply (i_lock _ _ Hi); eauto). congruence.
  - pose proof (i_wake _ _ Hi (list_elem_of_lookup_2 _ _ _ Hp)) as Hle.
    destruct (filter (λ p, awake p = true) (st_threads s)) as [|q qs] eqn:Hf.
    { unfold count in Hle. rewrite Hf in Hle. destruct xs; simpl in Hle; [done|lia]. }
    assert (q ∈ filter (λ p, awake p = true) (st_threads s)) as Hq by (rewrite Hf; left).
    apply list_elem_of_filter in Hq as [Ha Hin]. apply list_elem_of_lookup in Hin as (u & Hu).
    destruct q; try done; [|by apply (Hwok u)].
    assert (st_lock s = Some u) by (apply (i_lock _ _ Hi); eauto). congruence.
  - by apply (Hwok t).
Qed.

Lemma wq_no_lost_wakeup_witness :
  ∃ s, steps [CallPop 0; PopLock 0; PopWait 0; CallPush 1 7; PushLock 1; PushDo 1 (Some 0%nat)]
         (init_state 2) = Some s ∧
    ∃ e s', internal e = true ∧ step e s = Some s'.
Proof.
  eexists. split; [vm_compute; reflexivity|].
  apply (wq_no_lost_wakeup 2 [CallPop 0; PopLock 0; PopWait 0; CallPush 1 7; PushLock 1; PushDo 1 (Some 0%nat)]
    _ 0 PopWoken); try (vm_compute; reflexivity). vm_compute. discriminate.
Defined.
