(* ===== verification/KvWorld.v ===== *)
(** * KvWorld: what the key-value server sees of its platform

    The constants of [kvconstants.h], C strings, the two string hashes, the
    outcome of memory allocation, and the part of the file system that
    [kvstore.c] and [tpclog.c] use.

    - [char *] is Stdlib's [string]; a C string holds no NUL ([cstring]).  [char]
      is signed, [int] is 32 bits and [long] 64 bits wide (x86-64 Linux).
    - A file is the list of its bytes.  [w_denied] holds the paths on which the
      operating system refuses [open], [remove], [rename] and [mkdir]
      (permissions, read-only media): it drives the I/O error branches.
    - [w_mallocs] lists the outcomes of the coming [malloc]/[calloc] calls, all
      later ones succeeding; [w_brk] is the next fresh address. *)

From S2P Require Import Prelude Links.
From Stdlib Require Export Ascii.

(** ** [kvconstants.h] *)

Definition MAX_KEYLEN : Z := 1024.
Definition MAX_VALLEN : Z := 1024.
Definition MAX_FILENAME : Z := 1024.

Definition MSG_SUCCESS : string := "SUCCESS".
Definition ERRMSG_NO_KEY : string := "ERROR: NO KEY".
Definition ERRMSG_KEY_LEN : string := "ERROR: IMPROPER KEY LENGTH".
Definition ERRMSG_VAL_LEN : string := "ERROR: VALUE TOO LONG".
Definition ERRMSG_INVALID_REQUEST : string := "ERROR: INVALID REQUEST".
Definition ERRMSG_NOT_IMPLEMENTED : string := "ERROR: NOT IMPLEMENTED".
Definition ERRMSG_GENERIC_ERROR : string := "ERROR: UNABLE TO PROCESS REQUEST".

Definition ERRKEYLEN : Z := -11.
Definition ERRVALLEN : Z := -12.
Definition ERRNOKEY : Z := -13.
Definition ERRINVLDMSG : Z := -14.
Definition ERRFILLEN : Z := -15.
Definition ERRFILCRT : Z := -16.
Definition ERRFILACCESS : Z := -17.

(** The [GETMSG] macro. *)
Definition GETMSG (error : Z) : string :=
  if bool_decide (error = ERRKEYLEN) then ERRMSG_KEY_LEN
  else if bool_decide (error = ERRVALLEN) then ERRMSG_VAL_LEN
  else if bool_decide (error = ERRNOKEY) then ERRMSG_NO_KEY
  else ERRMSG_GENERIC_ERROR.

Inductive msgtype_t :=
| GETREQ | PUTREQ | DELREQ | GETRESP | RESP | ACK | ABORT | COMMIT
| VOTE_COMMIT | VOTE_ABORT | REGISTER | INFO.

#[export] Instance msgtype_eq_dec : EqDecision msgtype_t.
Proof. solve_decision. Defined.

(** The enumeration's integer values. *)
Definition msgtype_code (t : msgtype_t) : Z :=
  match t with
  | GETREQ => 0 | PUTREQ => 1 | DELREQ => 2 | GETRESP => 3 | RESP => 4 | ACK => 5
  | ABORT => 6 | COMMIT => 7 | VOTE_COMMIT => 8 | VOTE_ABORT => 9 | REGISTER => 10 | INFO => 11
  end.

(** [errno] values that reach the callers. *)
Definition ENOENT : Z := 2.
Definition ENOMEM : Z := 12.
Definition EACCES : Z := 13.
Definition ENOTEMPTY : Z := 39.

(** ** C strings *)

Definition NUL : ascii := Ascii.zero.

(** The value of a [char], which is signed. *)
Definition char_val (c : ascii) : Z := s8 (Z.of_N (N_of_ascii c)).

Definition strlen (s : string) : Z := Z.of_nat (String.length s).

Fixpoint no_nul (s : string) : bool :=
  match s with
  | EmptyString => true
  | String c s => bool_decide (c ≠ NUL) && no_nul s
  end.

Definition cstring (s : string) : Prop := no_nul s = true.

(** The bytes of a string and, read back, the C string that starts a buffer. *)
Definition bytes_of (s : string) : list ascii := String.list_ascii_of_string s.

(** [None]: no terminator, so a C string function would run off the buffer. *)
Fixpoint cstr_of (b : list ascii) : option string :=
  match b with
  | [] => None
  | c :: b => if bool_decide (c = NUL) then Some EmptyString else String c <$> cstr_of b
  end.

(** ** The string hashes *)

(** djb2, [kvstore.c]: [hash = ((hash << 5) + hash) + c] on [unsigned long]. *)
Fixpoint hash_loop (h : Z) (str : string) : Z :=
  match str with
  | EmptyString => h
  | String c str =>
    if bool_decide (char_val c = 0) then h
    else hash_loop (u64 (u64 (u64 (Z.shiftl h 5) + h) + char_val c)) str
  end.

Definition hash (str : string) : Z := hash_loop 5381 str.

(** [hash_64_bit] of [tpcmaster.c], on [int64_t]. *)
Fixpoint hash_64_bit_loop (h : Z) (s : string) : Z :=
  match s with
  | EmptyString => h
  | String c s =>
    if bool_decide (char_val c = 0) then h
    else hash_64_bit_loop (s64 (s64 (31 * h) + char_val c)) s
  end.

Definition hash_64_bit (s : string) : Z := hash_64_bit_loop 1125899906842597 s.

(** ** The platform state *)

Record world := World {
  w_files : gmap string (list ascii);
  w_dirs : gset string;
  w_denied : gset string;
  w_mallocs : list bool;
  w_brk : Z
}.

Definition set_files (f : gmap string (list ascii)) (w : world) : world :=
  World f (w_dirs w) (w_denied w) (w_mallocs w) (w_brk w).
Definition set_dirs (d : gset string) (w : world) : world :=
  World (w_files w) d (w_denied w) (w_mallocs w) (w_brk w).

(** [malloc]: a fresh address, or null. *)
Definition malloc : M world Z := λ w,
  match w_mallocs w with
  | [] => Ret (w_brk w, World (w_files w) (w_dirs w) (w_denied w) [] (w_brk w + 1))
  | true :: ms => Ret (w_brk w, World (w_files w) (w_dirs w) (w_denied w) ms (w_brk w + 1))
  | false :: ms => Ret (NULL, World (w_files w) (w_dirs w) (w_denied w) ms (w_brk w))
  end.

(** Allocation keeps succeeding, addresses are not reused, and the file system is
    untouched. *)
Definition mem_ok (w : world) : Prop := w_mallocs w = [].
Definition same_fs (w w' : world) : Prop :=
  w_files w' = w_files w ∧ w_dirs w' = w_dirs w ∧ w_denied w' = w_denied w ∧ mem_ok w' ∧
  w_brk w ≤ w_brk w'.

(** Proves [same_fs] between worlds that differ by allocations. *)
Ltac fs := unfold same_fs, mem_ok in *; split_and!; first [done | cbn in *; lia | congruence].

Lemma same_fs_trans w1 w2 w3 : same_fs w1 w2 → same_fs w2 w3 → same_fs w1 w3.
Proof. unfold same_fs. intuition (congruence || lia). Qed.

Lemma same_fs_refl w : mem_ok w → same_fs w w.
Proof. intros. unfold same_fs. by split_and!. Qed.

Lemma same_fs_brk w w' : same_fs w w' → w_brk w ≤ w_brk w'.
Proof. by intros (_ & _ & _ & _ & ?). Qed.

Lemma malloc_run w :
  mem_ok w → ∃ w', malloc w = Ret (w_brk w, w') ∧ same_fs w w' ∧ w_brk w' = w_brk w + 1.
Proof.
  intros H. unfold malloc. rewrite H. eexists. split_and!; [done| |done].
  unfold same_fs. split_and!; try done. simpl. lia.
Qed.

(** ** File system calls *)

Definition denied (w : world) (path : string) : bool := bool_decide (path ∈ w_denied w).

(** [stat (path, &st) != -1]. *)
Definition stat_ok (path : string) : M world bool :=
  gets (λ w, bool_decide (path ∈ w_dirs w) || bool_decide (is_Some (w_files w !! path))).

(** [mkdir]; the result is 0 or the [errno]. *)
Definition mkdir (path : string) : M world Z := λ w,
  if denied w path then Ret (EACCES, w)
  else Ret (0, set_dirs ({[path]} ∪ w_dirs w) w).

(** [fopen (path, "r")] followed by reading the file. *)
Definition fopen_read (path : string) : M world (option (list ascii)) :=
  gets (λ w, if denied w path then None else w_files w !! path).

(** [fopen (path, "w")]: truncates or creates. *)
Definition fopen_write (path : string) : M world bool := λ w,
  if denied w path then Ret (false, w)
  else Ret (true, set_files (<[path := []]> (w_files w)) w).

(** Writing the content of a freshly opened file. *)
Definition fwrite (path : string) (b : list ascii) : M world unit :=
  modify (λ w, set_files (<[path := b]> (w_files w)) w).

(** Whether a directory has entries: some path starts with its name and a slash. *)
Fixpoint strip (pre s : string) : option string :=
  match pre, s with
  | EmptyString, _ => Some s
  | String a pre, String b s => if bool_decide (a = b) then strip pre s else None
  | String _ _, EmptyString => None
  end.

Definition below (dir path : string) : bool := bool_decide (is_Some (strip (dir +:+ "/") path)).

Definition paths (w : world) : list string := elements (dom (w_files w)) ++ elements (w_dirs w).

(** [remove] of a file or of an empty directory; the result is 0 or the [errno]. *)
Definition remove (path : string) : M world Z := λ w,
  if denied w path then Ret (EACCES, w)
  else match w_files w !! path with
       | Some _ => Ret (0, set_files (delete path (w_files w)) w)
       | None =>
         if bool_decide (path ∈ w_dirs w) then
           if existsb (below path) (paths w) then Ret (ENOTEMPTY, w)
           else Ret (0, set_dirs (w_dirs w ∖ {[path]}) w)
         else Ret (ENOENT, w)
       end.

(** [rename]; the result is 0 or the [errno]. *)
Definition rename_file (src dst : string) : M world Z := λ w,
  if denied w src || denied w dst then Ret (EACCES, w)
  else match w_files w !! src with
       | None => Ret (ENOENT, w)
       | Some b => Ret (0, set_files (<[dst := b]> (delete src (w_files w))) w)
       end.

(** [sprintf] into a [char[MAX_FILENAME]]. *)
Definition sprintf (s : string) : M world string :=
  if bool_decide (strlen s < MAX_FILENAME) then mret s else crash.

(** Bounds the loops that probe for the first missing name of a sequence. *)
Definition chain_fuel (w : world) : nat := S (size (w_files w) + size (w_dirs w)).

(** ** Numbers in files and in file names *)

(** A 32-bit little-endian integer as four bytes, and back as an [int]. *)
Definition byte_at (z i : Z) : ascii := ascii_of_N (Z.to_N ((z `div` 2 ^ (8 * i)) `mod` 256)).
Definition le32 (z : Z) : list ascii := [byte_at z 0; byte_at z 1; byte_at z 2; byte_at z 3].
Definition of_le32 (b0 b1 b2 b3 : ascii) : Z :=
  let v c := Z.of_N (N_of_ascii c) in
  s32 (v b0 + v b1 * 2 ^ 8 + v b2 * 2 ^ 16 + v b3 * 2 ^ 24).

(** [%lu], [%u] and non-negative [%d]. *)
Definition fmt_u (z : Z) : string := pretty (Z.to_N z).

(** ** Facts *)

Lemma hash_loop_range h s : 0 ≤ h < 2 ^ 64 → 0 ≤ hash_loop h s < 2 ^ 64.
Proof.
  revert h. induction s as [|c s IH]; intros h Hh; simpl; [done|].
  case_bool_decide; [done|]. apply IH, uwrap_range. lia.
Qed.

Lemma hash_range s : 0 ≤ hash s < 2 ^ 64.
Proof. apply hash_loop_range. lia. Qed.

Lemma hash_64_bit_range s : is_s64 (hash_64_bit s).
Proof.
  unfold hash_64_bit. assert (is_s64 1125899906842597) as Hh by (unfold is_s64; lia).
  revert Hh. generalize 1125899906842597. induction s as [|c s IH]; intros h Hh; [done|].
  cbn [hash_64_bit_loop]. case_bool_decide; [done|]. apply IH. apply (swrap_range 64). lia.
Qed.

Lemma cstr_of_app s rest :
  cstring s → cstr_of (bytes_of s ++ NUL :: rest) = Some s.
Proof.
  unfold cstring, bytes_of. induction s as [|c s IH]; cbn -[NUL]; [done|].
  rewrite andb_true_iff, bool_decide_eq_true. intros [Hc Hs].
  rewrite bool_decide_eq_false_2 by done. by rewrite IH.
Qed.

Lemma length_bytes_of s : Z.of_nat (length (bytes_of s)) = strlen s.
Proof. unfold bytes_of, strlen. f_equal. induction s; simpl; congruence. Qed.

Lemma of_le32_le32 z : is_s32 z → match le32 z with
  | [b0; b1; b2; b3] => of_le32 b0 b1 b2 b3 = z
  | _ => False
  end.
Proof.
  intros Hz. unfold le32, of_le32, byte_at.
  assert (∀ x, Z.of_N (N_of_ascii (ascii_of_N (Z.to_N (x `mod` 256)))) = x `mod` 256) as E.
  { intros x. pose proof (Z.mod_pos_bound x 256). rewrite N_ascii_embedding by lia. lia. }
  rewrite !E. unfold is_s32 in Hz.
  assert (z `mod` 2 ^ 32 = (z `div` 2 ^ (8 * 0)) `mod` 256 + (z `div` 2 ^ (8 * 1)) `mod` 256 * 2 ^ 8
    + (z `div` 2 ^ (8 * 2)) `mod` 256 * 2 ^ 16 + (z `div` 2 ^ (8 * 3)) `mod` 256 * 2 ^ 24) as <-.
  { change (2 ^ (8 * 0)) with 1. change (2 ^ (8 * 1)) with 256.
    change (2 ^ (8 * 2)) with 65536. change (2 ^ (8 * 3)) with 16777216.
    change (2 ^ 8) with 256. change (2 ^ 16) with 65536. change (2 ^ 24) with 16777216.
    change (2 ^ 32) with 4294967296. Z.div_mod_to_equations. lia. }
  rewrite <- (swrap_id 32 z) at 2 by (simpl; lia). unfold swrap.
  rewrite Zplus_mod_idemp_l. done.
Qed.

Lemma fmt_u_inj a b : 0 ≤ a → 0 ≤ b → fmt_u a = fmt_u b → a = b.
Proof.
  unfold fmt_u. intros Ha Hb Heq. apply (inj pretty) in Heq. lia.
Qed.

(** *** Decimal numbers *)

Fixpoint all_digits (s : string) : bool :=
  match s with
  | EmptyString => true
  | String c s => (48 <=? N_of_ascii c)%N && (N_of_ascii c <=? 57)%N && all_digits s
  end.

Lemma pretty_digit_char x :
  (x < 10)%N → (48 <=? N_of_ascii (pretty_N_char x))%N && (N_of_ascii (pretty_N_char x) <=? 57)%N = true.
Proof.
  intros Hx. assert (x ∈ [0; 1; 2; 3; 4; 5; 6; 7; 8; 9]%N) as H.
  { assert (x = 0 ∨ x = 1 ∨ x = 2 ∨ x = 3 ∨ x = 4 ∨ x = 5 ∨ x = 6 ∨ x = 7 ∨ x = 8 ∨ x = 9)%N by lia.
    rewrite !elem_of_cons. tauto. }
  repeat (apply elem_of_cons in H as [->|H]; [reflexivity|]). by apply elem_of_nil in H.
Qed.

Lemma pretty_N_go_digits x s : all_digits s = true → all_digits (pretty_N_go x s) = true.
Proof.
  revert s. induction (N.lt_wf_0 x) as [x _ IH]; intros s Hs.
  destruct (decide (0 < x)%N) as [Hx|Hx].
  - rewrite pretty_N_go_step by done. apply IH; [apply N.div_lt; lia|].
    cbn [all_digits]. rewrite Hs, pretty_digit_char; [done|]. apply N.mod_lt. lia.
  - assert (x = 0%N) as -> by lia. by rewrite pretty_N_go_0.
Qed.

Lemma fmt_u_digits z : all_digits (fmt_u z) = true.
Proof.
  unfold fmt_u, pretty, pretty_N. case_decide; [done|]. by apply pretty_N_go_digits.
Qed.

Lemma pretty_N_go_length n x s :
  (x < 10 ^ N.of_nat n)%N → (String.length (pretty_N_go x s) ≤ String.length s + n)%nat.
Proof.
  revert x s. induction n as [|n IH]; intros x s Hx.
  - assert (x = 0%N) as -> by (simpl in Hx; lia). rewrite pretty_N_go_0. lia.
  - destruct (decide (0 < x)%N) as [H0|H0].
    + rewrite pretty_N_go_step by done. etrans; [apply IH|simpl; lia].
      apply N.Div0.div_lt_upper_bound. rewrite Nat2N.inj_succ, N.pow_succ_r' in Hx. lia.
    + assert (x = 0%N) as -> by lia. rewrite pretty_N_go_0. lia.
Qed.

Lemma fmt_u_length z : 0 ≤ z < 2 ^ 64 → strlen (fmt_u z) ≤ 20.
Proof.
  intros Hz. unfold fmt_u, pretty, pretty_N, strlen. case_decide; [by vm_compute|].
  assert (Z.to_N z < 10 ^ N.of_nat 20)%N as Hlt.
  { apply N2Z.inj_lt. rewrite Z2N.id by lia.
    change (Z.of_N (10 ^ N.of_nat 20)) with (10 ^ 20). lia. }
  pose proof (pretty_N_go_length 20 (Z.to_N z) "" Hlt) as H1. change (String.length "" + 20)%nat with 20%nat in H1. lia.
Qed.

(** Text before the first character that is not a digit is determined. *)
Lemma digits_split a b c x y :
  all_digits a = true → all_digits b = true →
  (48 <=? N_of_ascii c)%N && (N_of_ascii c <=? 57)%N = false →
  a +:+ String c x = b +:+ String c y → a = b ∧ x = y.
Proof.
  revert b. induction a as [|d a IH]; intros [|e b] Ha Hb Hc Heq; cbn in Heq; simplify_eq; try done.
  - cbn [all_digits] in Hb. by rewrite Hc in Hb.
  - cbn [all_digits] in Ha. by rewrite Hc in Ha.
  - cbn [all_digits] in *. apply andb_true_iff in Ha as [_ Ha], Hb as [_ Hb].
    by destruct (IH b Ha Hb Hc H) as [-> ->].
Qed.

Lemma string_app_inj_l a x y : a +:+ x = a +:+ y → x = y.
Proof. induction a; simpl; [done|]. intros [=]. auto. Qed.

Lemma string_app_assoc a b c : a +:+ (b +:+ c) = (a +:+ b) +:+ c.
Proof.
  induction a as [|x a IH]; [done|].
  change (String x (a +:+ (b +:+ c)) = String x ((a +:+ b) +:+ c)). by rewrite IH.
Qed.

Lemma strlen_app a b : strlen (a +:+ b) = strlen a + strlen b.
Proof.
  unfold strlen. rewrite <- Nat2Z.inj_add. f_equal.
  induction a as [|c a IH]; [done|]. change (S (String.length (a +:+ b)) = S (String.length a + String.length b)).
  by rewrite IH.
Qed.

(** *** The file system under the calls *)

Lemma le32_read z rest :
  is_s32 z → ∃ b0 b1 b2 b3, le32 z ++ rest = b0 :: b1 :: b2 :: b3 :: rest ∧ of_le32 b0 b1 b2 b3 = z.
Proof. intros Hz. pose proof (of_le32_le32 z Hz). do 4 eexists. by split. Qed.

Lemma sprintf_run s w : strlen s < MAX_FILENAME → sprintf s w = Ret (s, w).
Proof. intros Hs. unfold sprintf. by rewrite bool_decide_eq_true_2. Qed.
