(* ===== verification/KvCacheSet.v ===== *)
(** * KvCacheSet: one set of the cache ([kvstore/src/server/kvcacheset.c])

    A set owns its entries: the nodes of a [DL] list in FIFO order ([entries])
    that are also members of a uthash table ([hash]).  The table is modelled by
    what the uthash macros promise of it: the members in insertion order, found by
    key, deleted by address.  Everything else (the queue, the reference bits, the
    eviction loop with its saved [tmp] pointer, the allocations) is translated
    from the source.

    [find_data]/[set_data] read and write an entry's members; [free] removes its
    cell, so that a later access through a stale pointer crashes the model. *)

From S2P Require Import Prelude Links Utlist KvWorld.

(** [struct kvcacheentry], without the link members that [dl_node] holds.  A null
    [value] pointer is [None]. *)
Record centry := CEntry { ce_key : string; ce_value : option string; ce_refbit : bool }.

(** [kvcacheset_t]; the lock belongs to the callers. *)
Record kvcacheset := KVCacheSet {
  elem_per_set : Z;
  num_entries : Z;
  entries : Z;
  cs_hash : list (string * Z);
  cs_nodes : gmap Z (dl_node centry)
}.

(** The state of an operation: the set and the platform. *)
Abbreviation CS := (kvcacheset * world)%type.

Definition upd_cs (f : kvcacheset → kvcacheset) : M CS unit := modify (λ s, (f s.1, s.2)).
Definition set_entries (p : Z) (c : kvcacheset) : kvcacheset :=
  KVCacheSet (elem_per_set c) (num_entries c) p (cs_hash c) (cs_nodes c).
Definition set_hash (t : list (string * Z)) (c : kvcacheset) : kvcacheset :=
  KVCacheSet (elem_per_set c) (num_entries c) (entries c) t (cs_nodes c).
Definition set_num_entries (n : Z) (c : kvcacheset) : kvcacheset :=
  KVCacheSet (elem_per_set c) n (entries c) (cs_hash c) (cs_nodes c).
Definition set_nodes (h : gmap Z (dl_node centry)) (c : kvcacheset) : kvcacheset :=
  KVCacheSet (elem_per_set c) (num_entries c) (entries c) (cs_hash c) h.

(** Runs a pointer operation on the nodes of the set, an allocation on the world. *)
Definition on_nodes {A} (m : M (gmap Z (dl_node centry)) A) : M CS A := λ s,
  match m (cs_nodes s.1) with
  | Ret (a, h) => Ret (a, (set_nodes h s.1, s.2))
  | Crash => Crash
  | NoFuel => NoFuel
  end.

Definition on_world {A} (m : M world A) : M CS A := λ s,
  match m s.2 with
  | Ret (a, w) => Ret (a, (s.1, w))
  | Crash => Crash
  | NoFuel => NoFuel
  end.

(** ** uthash *)

Fixpoint assoc_find (t : list (string * Z)) (key : string) : Z :=
  match t with
  | [] => NULL
  | (k, p) :: t => if bool_decide (k = key) then p else assoc_find t key
  end.

Definition HASH_FIND_STR (key : string) : M CS Z := gets (λ s, assoc_find (cs_hash s.1) key).

Definition HASH_ADD_KEYPTR (key : string) (p : Z) : M CS unit :=
  upd_cs (λ c, set_hash (cs_hash c ++ [(key, p)]) c).

Definition HASH_DEL (p : Z) : M CS unit :=
  upd_cs (λ c, set_hash (filter (λ e, e.2 ≠ p) (cs_hash c)) c).

(** ** Entries *)

Definition find_data (p : Z) : M CS centry := gets_opt (λ s, dat (cs_nodes s.1) p).

Definition upd_data (p : Z) (f : centry → centry) (h : gmap Z (dl_node centry)) :=
  alter (λ n, DlNode (dl_prev n) (dl_next n) (f (dl_data n))) p h.

Definition set_data (p : Z) (f : centry → centry) : M CS unit :=
  on_nodes (modify_opt (λ h, (λ _, upd_data p f h) <$> deref h p)).

(** A fresh node; its members are not initialised, which any value may stand for. *)
Definition alloc_node (p : Z) : M CS unit :=
  on_nodes (modify (λ h, <[p := DlNode NULL NULL (CEntry "" None false)]> h)).

Definition free_node (p : Z) : M CS unit := on_nodes (modify (λ h, delete p h)).

Definition dl_append (p : Z) : M CS unit :=
  head ← gets (λ s, entries s.1);
  head ← on_nodes (DL_APPEND head p);
  upd_cs (set_entries head).

Definition dl_delete (p : Z) : M CS unit :=
  head ← gets (λ s, entries s.1);
  head ← on_nodes (DL_DELETE head p);
  upd_cs (set_entries head).

Definition with_value (v : option string) (e : centry) : centry :=
  CEntry (ce_key e) v (ce_refbit e).
Definition with_refbit (b : bool) (e : centry) : centry :=
  CEntry (ce_key e) (ce_value e) b.
Definition with_key (k : string) (e : centry) : centry :=
  CEntry k (ce_value e) (ce_refbit e).

(** ** The operations *)

(** [kvcacheset_init]: [ret] is the result of [pthread_rwlock_init]. *)
Definition kvcacheset_init (ret : Z) (eps : Z) : Z * option kvcacheset :=
  if bool_decide (eps < 2) then (-1, None)
  else if bool_decide (ret < 0) then (ret, None)
  else (0, Some (KVCacheSet eps 0 NULL [] ∅)).

(** The second component is what the function stores through [value]. *)
Definition kvcacheset_get (key : string) : M CS (Z * option string) :=
  elt ← HASH_FIND_STR key;
  if bool_decide (elt = NULL) then mret (ERRNOKEY, None) else
  set_data elt (with_refbit true);;
  e ← find_data elt;
  match ce_value e with
  | None => crash                       (* strlen (NULL) *)
  | Some v =>
    buf ← on_world malloc;
    if bool_decide (buf = NULL) then crash  (* strcpy (NULL, ...) *)
    else mret (0, Some v)
  end.

(** [DL_FOREACH_SAFE (cacheset->entries, elt, tmp) { ... }] of [kvcacheset_put]. *)
Fixpoint evict_loop (fuel : nat) (elt : Z) : M CS unit :=
  match fuel with
  | O => nofuel
  | S fuel =>
    if bool_decide (elt = NULL) then mret tt else
    tmp ← on_nodes (get_next elt);
    dl_delete elt;;
    e ← find_data elt;
    if negb (ce_refbit e) then
      HASH_DEL elt;;
      free_node elt
    else
      set_data elt (with_refbit false);;
      dl_append elt;;
      evict_loop fuel tmp
  end.

Definition kvcacheset_put (key value : string) : M CS Z :=
  selected ← HASH_FIND_STR key;
  (* find or allocate the entry: the address, or an error code *)
  sel ← (if bool_decide (selected ≠ NULL) then
           (* free (selected->value) leaves the member dangling until it is set *)
           set_data selected (with_refbit true);;
           mret (inl selected)
         else
           selected ← on_world malloc;
           if bool_decide (selected = NULL) then crash else
           alloc_node selected;;
           k ← on_world malloc;
           if bool_decide (k = NULL) then mret (inr ERRFILCRT) else
           set_data selected (with_key key);;
           set_data selected (with_refbit false);;
           mret (inl selected));
  match sel with
  | inr err => mret err
  | inl selected =>
    v ← on_world malloc;
    if bool_decide (v = NULL) then
      set_data selected (with_value None);;
      mret ERRFILCRT
    else
    set_data selected (with_value (Some value));;
    e ← find_data selected;
    (if negb (ce_refbit e) then
       c ← gets fst;
       (if bool_decide (u32 (num_entries c) < elem_per_set c) then
          upd_cs (λ c, set_num_entries (s32 (num_entries c + 1)) c)
        else
          evict_loop (S (2 * size (cs_nodes c))) (entries c));;
       dl_append selected;;
       HASH_ADD_KEYPTR key selected
     else mret tt);;
    mret 0
  end.

Definition kvcacheset_del (key : string) : M CS Z :=
  elt ← HASH_FIND_STR key;
  if bool_decide (elt ≠ NULL) then
    HASH_DEL elt;;
    dl_delete elt;;
    free_node elt;;
    mret 0
  else mret ERRNOKEY.

(** [HASH_ITER] visits the members in insertion order, the next one being saved
    before the current one is deleted. *)
Fixpoint clear_loop (members : list (string * Z)) : M CS unit :=
  match members with
  | [] => mret tt
  | (_, elt) :: members =>
    HASH_DEL elt;;
    dl_delete elt;;
    free_node elt;;
    clear_loop members
  end.

Definition kvcacheset_clear : M CS unit :=
  t ← gets (λ s, cs_hash s.1);
  clear_loop t.

Definition kvcacheset_refbit (key : string) : M CS Z :=
  entry ← HASH_FIND_STR key;
  if bool_decide (entry = NULL) then mret (-1) else
  e ← find_data entry;
  mret (if ce_refbit e then 1 else 0).
