(* ===== verification/KvCacheSetFacts.v ===== *)
(** * KvCacheSetFacts: correctness of a cache set

    The abstract set is the queue of its entries, oldest first ([centry] records
    with distinct keys).  [cs_ok c brk xs] says that the pointer structure [c]
    holds the queue [xs]; the lemmas show what each operation of [kvcacheset.c]
    does to the queue, in particular that the eviction loop is the second-chance
    policy. *)

From S2P Require Import Prelude Links Utlist KvWorld KvCacheSet.

(** ** Representation *)

(** The FIFO list holds the entries [xs] at the addresses [ps]. *)
Definition cs_list (c : kvcacheset) (ps : list Z) (xs : list centry) : Prop :=
  dl (cs_nodes c) (entries c) ps ∧
  Forall2 (λ p x, dat (cs_nodes c) p = Some x) ps xs.

(** The hash table has exactly those entries, under their keys. *)
Definition cs_tab (c : kvcacheset) (ps : list Z) (xs : list centry) : Prop :=
  cs_hash c ≡ₚ zip (ce_key <$> xs) ps ∧ NoDup (ce_key <$> xs).

Definition cs_fresh (c : kvcacheset) (brk : Z) : Prop :=
  0 < brk ∧ ∀ p, valid (cs_nodes c) p → p < brk.

Definition cs_repr (c : kvcacheset) (brk : Z) (xs : list centry) : Prop :=
  ∃ ps, cs_list c ps xs ∧ cs_tab c ps xs ∧ cs_fresh c brk.

(** The bookkeeping: the entry count covers the queue and never passes the
    capacity, which is at least 2 and fits an [int]; no value is null. *)
Record cs_ok (c : kvcacheset) (brk : Z) (xs : list centry) : Prop := {
  ok_repr : cs_repr c brk xs;
  ok_cap : 2 ≤ elem_per_set c < 2 ^ 31;
  ok_count : Z.of_nat (length xs) ≤ num_entries c ≤ elem_per_set c;
  ok_values : Forall (λ x, is_Some (ce_value x)) xs
}.

(** ** The second-chance policy on queues *)

Definition clear_ref (x : centry) : centry := with_refbit false x.

(** The oldest unreferenced entry goes; the referenced ones before it lose their
    bit and go to the back.  When all are referenced the oldest goes after a full
    turn.  A queue of one referenced entry only loses the bit. *)
Definition evict (xs : list centry) : list centry :=
  match list_find (λ x, ce_refbit x = false) xs with
  | Some (i, _) => drop (S i) xs ++ (clear_ref <$> take i xs)
  | None =>
    match xs with
    | [] => []
    | [x] => [clear_ref x]
    | _ :: t => clear_ref <$> t
    end
  end.

(** How many entries the loop skips before it evicts. *)
Definition evict_steps (xs : list centry) : nat :=
  match list_find (λ x, ce_refbit x = false) xs with
  | Some (i, _) => i
  | None => length xs
  end.

Lemma evict_cons_unref x t : ce_refbit x = false → evict (x :: t) = t.
Proof. intros Hx. unfold evict. simpl. rewrite decide_True by done. by rewrite app_nil_r. Qed.

Lemma evict_rotate x t :
  ce_refbit x = true → t ≠ [] → evict (x :: t) = evict (t ++ [clear_ref x]).
Proof.
  intros Hx Ht. unfold evict. cbn [list_find]. rewrite decide_False by congruence.
  destruct (list_find _ t) as [[i y]|] eqn:Hf; cbn [fmap option_fmap option_map].
  - rewrite (list_find_app_l _ _ _ _ _ Hf). cbn [prod_map].
    apply list_find_Some in Hf as (Hi & _). apply lookup_lt_Some in Hi.
    cbn [drop take]. rewrite drop_app_le, take_app_le by lia.
    rewrite fmap_cons, <- app_assoc. done.
  - rewrite (list_find_app_r _ _ _ Hf). simpl. rewrite take_app_length.
    rewrite drop_ge by (rewrite length_app; simpl; lia). by destruct t.
Qed.

Lemma evict_steps_rotate x t :
  ce_refbit x = true → t ≠ [] →
  evict_steps (x :: t) = S (evict_steps (t ++ [clear_ref x])).
Proof.
  intros Hx Ht. unfold evict_steps. cbn [list_find]. rewrite decide_False by congruence.
  destruct (list_find _ t) as [[i y]|] eqn:Hf; cbn [fmap option_fmap option_map].
  - by rewrite (list_find_app_l _ _ _ _ _ Hf).
  - by rewrite (list_find_app_r _ _ _ Hf).
Qed.

Lemma evict_steps_le xs : (evict_steps xs ≤ length xs)%nat.
Proof.
  unfold evict_steps. destruct (list_find _ xs) as [[i y]|] eqn:Hf; [|done].
  apply list_find_Some in Hf as (Hi & _). apply lookup_lt_Some in Hi. lia.
Qed.

Lemma evict_length xs : (2 ≤ length xs)%nat → S (length (evict xs)) = length xs.
Proof.
  unfold evict. destruct (list_find _ xs) as [[i y]|] eqn:Hf.
  - apply list_find_Some in Hf as (Hi & _). apply lookup_lt_Some in Hi.
    rewrite length_app, length_fmap, length_drop, length_take. lia.
  - destruct xs as [|x [|y xs]]; simpl; try lia. intros. by rewrite length_fmap.
Qed.

Lemma evict_length_small xs : (length xs < 2)%nat → (length (evict xs) ≤ length xs)%nat.
Proof.
  destruct xs as [|x [|y xs]]; simpl; try lia; intros _.
  destruct (ce_refbit x) eqn:E.
  - unfold evict. simpl. rewrite decide_False by congruence. simpl. lia.
  - rewrite evict_cons_unref by done. simpl. lia.
Qed.

(** An evicted queue holds entries of the old one, up to their reference bit. *)
Lemma evict_keys xs : ce_key <$> evict xs ⊆+ ce_key <$> xs.
Proof.
  assert (∀ l : list centry, ce_key <$> (clear_ref <$> l) = ce_key <$> l) as E.
  { intros l. rewrite <- list_fmap_compose. by apply list_fmap_ext. }
  unfold evict. destruct (list_find _ xs) as [[i y]|] eqn:Hf.
  - apply list_find_Some in Hf as (Hi & _). rewrite <- (take_drop_middle _ _ _ Hi) at 3.
    rewrite !fmap_app, E, fmap_cons. rewrite (Permutation_app_comm (ce_key <$> take i xs)).
    apply submseteq_skips_r, submseteq_cons. done.
  - destruct xs as [|x [|y xs]]; [done|done|]. rewrite E. apply submseteq_cons. done.
Qed.

Lemma evict_elem xs x : x ∈ evict xs → ∃ y, y ∈ xs ∧ (x = y ∨ x = clear_ref y).
Proof.
  unfold evict. destruct (list_find _ xs) as [[i y]|] eqn:Hf.
  - rewrite elem_of_app, list_elem_of_fmap. intros [Hx|(y' & -> & Hy)].
    + exists x. split; [|by left]. by apply (subseteq_drop (S i)).
    + exists y'. split; [|by right]. by apply elem_of_take in Hy as (? & ?%list_elem_of_lookup_2 & _).
  - destruct xs as [|z [|y xs]].
    + by intros ?%elem_of_nil.
    + intros ->%list_elem_of_singleton. exists z. split; [by left|by right].
    + intros (y' & -> & Hy)%list_elem_of_fmap. exists y'. split; [by right|by right].
Qed.

(** ** Running the helpers *)

Lemma on_nodes_run {A} (m : M (gmap Z (dl_node centry)) A) c w a h :
  m (cs_nodes c) = Ret (a, h) → on_nodes m (c, w) = Ret (a, (set_nodes h c, w)).
Proof. unfold on_nodes. simpl. by intros ->. Qed.

Lemma on_nodes_read {A} (m : M (gmap Z (dl_node centry)) A) c w a :
  m (cs_nodes c) = Ret (a, cs_nodes c) → on_nodes m (c, w) = Ret (a, (c, w)).
Proof. intros H. rewrite (on_nodes_run _ _ _ _ _ H). by destruct c. Qed.

Lemma on_world_run {A} (m : M world A) c w a w' :
  m w = Ret (a, w') → on_world m (c, w) = Ret (a, (c, w')).
Proof. unfold on_world. simpl. by intros ->. Qed.

Lemma dl_ext {D} (h h' : gmap Z (dl_node D)) head xs :
  dl h head xs → (∀ p, p ∈ xs → nxt h' p = nxt h p ∧ prv h' p = prv h p) → dl h' head xs.
Proof.
  intros Hd Ha. destruct xs as [|x xs].
  { destruct Hd as (_ & _ & ->). split_and!; [constructor|done..]. }
  destruct (dl_cons_inv _ _ _ _ Hd) as (ys & z & Heq & -> & Hnd & Hc & Hx & Hz & _).
  apply (dl_intro _ x xs ys z); [done..| | |].
  - eapply chain_ext; [|exact Hc]. intros p Hp. by destruct (Ha p Hp).
  - destruct (Ha x) as [_ ->]; [left|done].
  - destruct (Ha z) as [-> _]; [rewrite Heq; mem|done].
Qed.

Section data.
Context (f : centry → centry).
Implicit Types (h : gmap Z (dl_node centry)).

Lemma deref_upd_data h p q :
  deref (upd_data p f h) q =
  if decide (p = q) then (λ n, DlNode (dl_prev n) (dl_next n) (f (dl_data n))) <$> deref h q
  else deref h q.
Proof. apply deref_upd. Qed.

Lemma links_upd_data h p q :
  nxt (upd_data p f h) q = nxt h q ∧ prv (upd_data p f h) q = prv h q.
Proof.
  unfold nxt, prv. rewrite deref_upd_data. case_decide; [|done]. by destruct (deref h q).
Qed.

Lemma dat_upd_data h p q :
  dat (upd_data p f h) q = if decide (p = q) then f <$> dat h q else dat h q.
Proof.
  unfold dat. rewrite deref_upd_data. case_decide; [|done]. by destruct (deref h q).
Qed.
End data.

Lemma dat_valid (h : gmap Z (dl_node centry)) p x : dat h p = Some x → valid h p.
Proof. unfold dat, valid. rewrite fmap_Some. intros (n & Hn & _). by exists n. Qed.

Lemma find_data_run c w p x : dat (cs_nodes c) p = Some x → find_data p (c, w) = Ret (x, (c, w)).
Proof. intros H. unfold find_data, gets_opt. simpl. by rewrite H. Qed.

Lemma set_data_run c w p f :
  valid (cs_nodes c) p →
  set_data p f (c, w) = Ret (tt, (set_nodes (upd_data p f (cs_nodes c)) c, w)).
Proof.
  intros [n Hn]. unfold set_data. apply on_nodes_run. unfold modify_opt. by rewrite Hn.
Qed.

Lemma malloc_ok c w :
  w_mallocs w = [] →
  on_world malloc (c, w) =
    Ret (w_brk w, (c, World (w_files w) (w_dirs w) (w_denied w) [] (w_brk w + 1))).
Proof. intros H. apply on_world_run. unfold malloc. by rewrite H. Qed.

(** ** The queue under the pointer operations *)

Lemma cs_list_length c ps xs : cs_list c ps xs → length ps = length xs.
Proof. intros [_ H]. by eapply Forall2_length. Qed.

Lemma cs_list_app_inv c PA p PB xs :
  cs_list c (PA ++ p :: PB) xs →
  ∃ XA x XB, xs = XA ++ x :: XB ∧ length XA = length PA ∧ dat (cs_nodes c) p = Some x ∧
    Forall2 (λ p x, dat (cs_nodes c) p = Some x) PA XA ∧
    Forall2 (λ p x, dat (cs_nodes c) p = Some x) PB XB.
Proof.
  intros [_ H]. apply Forall2_app_inv_l in H as (XA & k & HA & Hk & ->).
  apply Forall2_cons_inv_l in Hk as (x & XB & Hx & HB & ->).
  exists XA, x, XB. split_and!; try done. symmetry. by eapply Forall2_length.
Qed.

Lemma Forall2_dat_ext h h' (ps : list Z) (xs : list centry) :
  (∀ p, p ∈ ps → dat h' p = dat h p) →
  Forall2 (λ p x, dat h p = Some x) ps xs → Forall2 (λ p x, dat h' p = Some x) ps xs.
Proof.
  intros He H. induction H as [|p x ps xs Hpx H IH]; constructor.
  - by rewrite He by left.
  - apply IH. intros q Hq. apply He. by right.
Qed.

Lemma dl_append_run c w ps xs p x :
  cs_list c ps xs → p ∉ ps → dat (cs_nodes c) p = Some x →
  ∃ head h, dl_append p (c, w) = Ret (tt, (set_entries head (set_nodes h c), w)) ∧
    cs_list (set_entries head (set_nodes h c)) (ps ++ [p]) (xs ++ [x]) ∧
    same_cells (cs_nodes c) h ∧ (∀ q, dat h q = dat (cs_nodes c) q).
Proof.
  intros [Hd Hx] Hp Hpx.
  destruct (DL_APPEND_run _ _ _ p Hd (dat_valid _ _ _ Hpx) Hp)
    as (head & h & Hr & Hd' & Hs & _ & Hdat).
  exists head, h. split_and!; try done.
  - unfold dl_append. rewrite (bind_Ret _ _ _ (entries c) (c, w)) by done.
    by rewrite (bind_Ret _ _ _ _ _ (on_nodes_run _ _ _ _ _ Hr)).
  - split; [done|]. simpl. apply Forall2_app.
    + eapply Forall2_dat_ext; [|exact Hx]. done.
    + constructor; [by rewrite Hdat|constructor].
Qed.

Lemma dl_delete_run c w PA p PB XA x XB :
  cs_list c (PA ++ p :: PB) (XA ++ x :: XB) → length PA = length XA →
  ∃ head h, dl_delete p (c, w) = Ret (tt, (set_entries head (set_nodes h c), w)) ∧
    cs_list (set_entries head (set_nodes h c)) (PA ++ PB) (XA ++ XB) ∧
    same_cells (cs_nodes c) h ∧ (∀ q, dat h q = dat (cs_nodes c) q).
Proof.
  intros [Hd Hx] Hlen.
  destruct (DL_DELETE_run _ _ _ _ _ Hd) as (head & h & Hr & Hd' & Hs & _ & Hdat).
  exists head, h. split_and!; try done.
  - unfold dl_delete. rewrite (bind_Ret _ _ _ (entries c) (c, w)) by done.
    by rewrite (bind_Ret _ _ _ _ _ (on_nodes_run _ _ _ _ _ Hr)).
  - split; [done|]. apply Forall2_app_inv in Hx as [HA HB]; [|done]. apply Forall2_cons_1 in HB as [_ HB].
    apply Forall2_app; (eapply Forall2_dat_ext; [|done]); done.
Qed.

Lemma cs_list_set_data c ps xs i p x f :
  cs_list c ps xs → ps !! i = Some p → xs !! i = Some x →
  cs_list (set_nodes (upd_data p f (cs_nodes c)) c) ps (<[i := f x]> xs).
Proof.
  intros [Hd Hx] Hp Hi. split.
  - eapply dl_ext; [exact Hd|]. intros q _. apply links_upd_data.
  - simpl. apply Forall2_same_length_lookup_2.
    { rewrite length_insert. by eapply Forall2_length. }
    intros j q y Hq Hy. rewrite dat_upd_data.
    destruct (decide (i = j)) as [->|Hne].
    + rewrite list_lookup_insert_eq in Hy by (by eapply lookup_lt_Some).
      assert (q = p) as -> by congruence. injection Hy as <-. rewrite decide_True by done.
      assert (dat (cs_nodes c) p = Some x) as -> by exact (Forall2_lookup_lr _ _ _ _ _ _ Hx Hp Hi).
      done.
    + rewrite list_lookup_insert_ne in Hy by done.
      rewrite decide_False; [by eapply (Forall2_lookup_lr _ _ _ _ _ _ Hx)|].
      intros ->. destruct Hd as (Hnd & _). apply Hne. by eapply NoDup_lookup.
Qed.

Lemma cs_list_free c ps xs p :
  cs_list c ps xs → p ∉ ps → cs_list (set_nodes (delete p (cs_nodes c)) c) ps xs.
Proof.
  intros [Hd Hx] Hp.
  assert (∀ q, q ∈ ps → deref (delete p (cs_nodes c)) q = deref (cs_nodes c) q) as E.
  { intros q Hq. unfold deref. case_bool_decide; [done|]. apply lookup_delete_ne.
    by intros ->. }
  split.
  - eapply dl_ext; [exact Hd|]. intros q Hq. unfold nxt, prv. simpl. by rewrite (E q Hq).
  - simpl. eapply Forall2_dat_ext; [|exact Hx]. intros q Hq. unfold dat. by rewrite (E q Hq).
Qed.

(** ** The hash table *)

Lemma zip_keys_lookup (xs : list centry) (ps : list Z) k p :
  (k, p) ∈ zip (ce_key <$> xs) ps ↔
  ∃ i x, xs !! i = Some x ∧ ps !! i = Some p ∧ ce_key x = k.
Proof.
  rewrite list_elem_of_lookup. split.
  - intros (i & Hi). apply lookup_zip_with_Some in Hi as (k' & p' & [= -> ->] & Hk & Hp).
    apply list_lookup_fmap_Some in Hk as (x & -> & Hx). eauto.
  - intros (i & x & Hx & Hp & <-). exists i. apply lookup_zip_with_Some.
    exists (ce_key x), p. by rewrite list_lookup_fmap, Hx.
Qed.

Lemma assoc_find_None t key : key ∉ t.*1 → assoc_find t key = NULL.
Proof.
  induction t as [|[k p] t IH]; [done|]. cbn [assoc_find fmap list_fmap fst].
  rewrite not_elem_of_cons. intros [? ?]. rewrite bool_decide_eq_false_2 by done. by apply IH.
Qed.

Lemma assoc_find_Some t key p : NoDup t.*1 → (key, p) ∈ t → assoc_find t key = p.
Proof.
  induction t as [|[k q] t IH]; [by intros _ ?%elem_of_nil|].
  cbn [assoc_find fmap list_fmap fst]. rewrite NoDup_cons, elem_of_cons.
  intros [Hk Hnd] [[= -> ->]|Hin]; [by rewrite bool_decide_eq_true_2|].
  rewrite bool_decide_eq_false_2; [by apply IH|]. intros ->.
  apply Hk. change key with (key, p).1. by apply list_elem_of_fmap_2.
Qed.

Lemma zip_keys_fst (xs : list centry) (ps : list Z) :
  length ps = length xs → (zip (ce_key <$> xs) ps).*1 = ce_key <$> xs.
Proof. intros. apply fst_zip. rewrite length_fmap. lia. Qed.

(** Looking a key up: its entry, or null. *)
Lemma HASH_FIND_STR_run c w ps xs key :
  cs_list c ps xs → cs_tab c ps xs →
  (∃ i x p, xs !! i = Some x ∧ ps !! i = Some p ∧ ce_key x = key ∧ p ≠ NULL ∧
     HASH_FIND_STR key (c, w) = Ret (p, (c, w))) ∨
  (key ∉ ce_key <$> xs ∧ HASH_FIND_STR key (c, w) = Ret (NULL, (c, w))).
Proof.
  intros Hl [Ht Hnd]. unfold HASH_FIND_STR, gets. simpl.
  pose proof (cs_list_length _ _ _ Hl) as Hlen.
  assert ((cs_hash c).*1 ≡ₚ ce_key <$> xs) as Hfst by by rewrite Ht, zip_keys_fst.
  destruct (decide (key ∈ ce_key <$> xs)) as [Hin|Hnin].
  - left. apply list_elem_of_fmap in Hin as (x & -> & Hx).
    apply list_elem_of_lookup in Hx as (i & Hi).
    destruct (lookup_lt_is_Some_2 ps i) as [p Hp].
    { rewrite Hlen. by eapply lookup_lt_Some. }
    exists i, x, p. split_and!; try done.
    + eapply valid_not_null, (dl_valid _ _ _ _ (proj1 Hl)). by eapply list_elem_of_lookup_2.
    + rewrite (assoc_find_Some _ _ p); [done|by rewrite Hfst|].
      rewrite Ht. apply zip_keys_lookup. eauto.
  - right. split; [done|]. rewrite assoc_find_None; [done|]. by rewrite Hfst.
Qed.

Lemma cs_tab_del c PA p PB XA x XB :
  NoDup (PA ++ p :: PB) → length PA = length XA →
  cs_tab c (PA ++ p :: PB) (XA ++ x :: XB) →
  filter (λ e : string * Z, e.2 ≠ p) (cs_hash c) ≡ₚ zip (ce_key <$> XA ++ XB) (PA ++ PB) ∧
  NoDup (ce_key <$> XA ++ XB).
Proof.
  intros Hnd Hlen [Ht Hk]. apply NoDup_app_cons_inv in Hnd as (HA & HB & _).
  rewrite Ht. rewrite !fmap_app, fmap_cons in *. split.
  - rewrite !zip_with_app by (by rewrite length_fmap). cbn [zip_with].
    rewrite filter_app, filter_cons_False by (simpl; tauto).
    rewrite !filter_all; [done|..]; intros [k q] Hq; simpl; intros ->.
    + apply HB. by apply elem_of_zip_r in Hq.
    + apply HA. by apply elem_of_zip_r in Hq.
  - by apply NoDup_app_cons_inv in Hk as (_ & _ & ?).
Qed.

(** ** The eviction loop *)

(** Preserved by every step of the loop: bookkeeping, payloads outside the queue,
    and no new cell. *)
Record evicting (ps : list Z) (c c' : kvcacheset) : Prop := {
  ev_num : num_entries c' = num_entries c;
  ev_cap : elem_per_set c' = elem_per_set c;
  ev_valid : ∀ q, valid (cs_nodes c') q → valid (cs_nodes c) q;
  ev_dat : ∀ q, q ∉ ps → dat (cs_nodes c') q = dat (cs_nodes c) q
}.

Lemma evicting_refl ps c : evicting ps c c.
Proof. by split. Qed.

Lemma evicting_trans ps ps' c1 c2 c3 :
  (∀ q, q ∈ ps' → q ∈ ps) → evicting ps c1 c2 → evicting ps' c2 c3 → evicting ps c1 c3.
Proof.
  intros Hps [A1 A2 A3 A4] [B1 B2 B3 B4]. split; [congruence..|eauto|].
  intros q Hq. rewrite B4; [by apply A4|]. naive_solver.
Qed.

Lemma cs_list_set_data_out c ps xs p f :
  cs_list c ps xs → p ∉ ps → cs_list (set_nodes (upd_data p f (cs_nodes c)) c) ps xs.
Proof.
  intros [Hd Hx] Hp. split.
  - eapply dl_ext; [exact Hd|]. intros q _. apply links_upd_data.
  - simpl. eapply Forall2_dat_ext; [|exact Hx]. intros q Hq. rewrite dat_upd_data.
    rewrite decide_False; [done|]. by intros ->.
Qed.

Lemma valid_upd_data (h : gmap Z (dl_node centry)) p f q : valid (upd_data p f h) q ↔ valid h q.
Proof. unfold valid. rewrite deref_upd_data. case_decide; [|done]. by rewrite fmap_is_Some. Qed.

(** An unreferenced head is unlinked, dropped from the table and freed. *)
Lemma evict_iter_drop fuel c w p PB x XB :
  cs_list c (p :: PB) (x :: XB) → cs_tab c (p :: PB) (x :: XB) → ce_refbit x = false →
  ∃ c', evict_loop (S fuel) p (c, w) = Ret (tt, (c', w)) ∧
    cs_list c' PB XB ∧ cs_tab c' PB XB ∧ evicting (p :: PB) c c'.
Proof.
  intros Hl Ht Hx. destruct (dl_delete_run c w [] p PB [] x XB Hl eq_refl)
    as (head & h & Hr & Hl1 & Hs & Hdat). cbn [app] in *.
  assert (dat (cs_nodes c) p = Some x) as Hpx by (by destruct Hl as [_ [? _]%Forall2_cons_1]).
  assert (valid (cs_nodes c) p) as Hvp by (by eapply dat_valid).
  destruct (valid_links _ _ Hvp) as (pp & nn & _ & Hnn).
  assert (NoDup (p :: PB)) as Hnd by (by destruct Hl as [[? _] _]).
  eexists. split_and!.
  - cbn [evict_loop]. rewrite bool_decide_eq_false_2 by (by eapply valid_not_null).
    rewrite (bind_Ret _ _ _ _ _ (on_nodes_read _ c w _ (get_next_run _ _ _ Hnn))).
    rewrite (bind_Ret _ _ _ _ _ Hr).
    rewrite (bind_Ret _ _ _ x _) by (apply find_data_run; simpl; by rewrite Hdat).
    rewrite Hx. cbn [negb]. reflexivity.
  - apply NoDup_cons in Hnd as [Hp _].
    apply (cs_list_free (set_hash _ (set_entries head (set_nodes h c))) PB XB p); done.
  - destruct (cs_tab_del c [] p PB [] x XB Hnd eq_refl Ht) as [? ?]. done.
  - split; [done|done| |].
    + intros q [n Hn]. apply Hs. unfold valid, deref in *. simpl in Hn.
      case_bool_decide; [done|]. apply lookup_delete_Some in Hn as [_ Hn]. eauto.
    + intros q Hq. assert (p ≠ q) by (intros ->; apply Hq; mem). unfold dat, deref. simpl.
      rewrite lookup_delete_ne by done. apply Hdat.
Qed.

(** A referenced head loses its bit, goes to the back, and the loop goes on with
    its old successor. *)
Lemma evict_iter_rotate fuel c w p PB x XB tmp :
  cs_list c (p :: PB) (x :: XB) → cs_tab c (p :: PB) (x :: XB) → ce_refbit x = true →
  nxt (cs_nodes c) p = Some tmp →
  ∃ c', evict_loop (S fuel) p (c, w) = evict_loop fuel tmp (c', w) ∧
    cs_list c' (PB ++ [p]) (XB ++ [clear_ref x]) ∧
    cs_tab c' (PB ++ [p]) (XB ++ [clear_ref x]) ∧ evicting (p :: PB) c c'.
Proof.
  intros Hl Ht Hx Hnn. destruct (dl_delete_run c w [] p PB [] x XB Hl eq_refl)
    as (head & h & Hr & Hl1 & Hs & Hdat). cbn [app] in *.
  assert (dat (cs_nodes c) p = Some x) as Hpx by (by destruct Hl as [_ [? _]%Forall2_cons_1]).
  assert (valid (cs_nodes c) p) as Hvp by (by eapply dat_valid).
  assert (NoDup (p :: PB)) as Hnd by (by destruct Hl as [[? _] _]).
  apply NoDup_cons in Hnd as [Hp _].
  set (c1 := set_entries head (set_nodes h c)) in *.
  pose proof (cs_list_set_data_out c1 PB XB p clear_ref Hl1 Hp) as Hl2.
  set (c2 := set_nodes (upd_data p clear_ref (cs_nodes c1)) c1) in *.
  assert (dat (cs_nodes c2) p = Some (clear_ref x)) as Hpx2.
  { unfold c2. simpl. rewrite dat_upd_data, decide_True by done. by rewrite Hdat, Hpx. }
  destruct (dl_append_run c2 w PB XB p (clear_ref x) Hl2 Hp Hpx2)
    as (head' & h' & Hr' & Hl3 & Hs' & Hdat').
  exists (set_entries head' (set_nodes h' c2)). split_and!.
  - cbn [evict_loop]. rewrite bool_decide_eq_false_2 by (by eapply valid_not_null).
    rewrite (bind_Ret _ _ _ _ _ (on_nodes_read _ c w _ (get_next_run _ _ _ Hnn))).
    rewrite (bind_Ret _ _ _ _ _ Hr).
    rewrite (bind_Ret _ _ _ x _) by (apply find_data_run; simpl; by rewrite Hdat).
    rewrite Hx. cbn [negb].
    rewrite (bind_Ret _ _ _ _ _ (set_data_run c1 w p (with_refbit false) ltac:(by apply Hs))).
    by rewrite (bind_Ret _ _ _ _ _ Hr').
  - done.
  - destruct Ht as [Ht Hk]. split.
    + change (cs_hash (set_entries head' (set_nodes h' c2))) with (cs_hash c). rewrite Ht.
      rewrite fmap_app, zip_with_app, fmap_cons; [cbn; by rewrite Permutation_app_comm|].
      rewrite length_fmap. symmetry. by apply (cs_list_length _ _ _ Hl1).
    + eapply NoDup_Permutation_proper; [|exact Hk]. rewrite fmap_app.
      cbn. by rewrite Permutation_app_comm.
  - split; [done|done| |].
    + intros q Hq. apply Hs. apply (valid_upd_data h p clear_ref). by apply Hs'.
    + intros q Hq. assert (p ≠ q) by (intros ->; apply Hq; mem).
      simpl. rewrite Hdat'. unfold c2. simpl. rewrite dat_upd_data, decide_False by done. apply Hdat.
Qed.

Lemma dl_next_hd (h : gmap Z (dl_node centry)) head p PB :
  dl h head (p :: PB) → nxt h p = Some (hd NULL PB).
Proof.
  intros Hd. destruct (dl_cons_inv _ _ _ _ Hd) as (ys & z & Heq & _ & _ & Hc & _ & Hz & _).
  destruct PB as [|q PB]; [|by rewrite chain_cons2 in Hc; destruct Hc as [? _]].
  destruct ys as [|? [|??]]; by simplify_eq/=.
Qed.

Lemma evict_loop_long fuel c w ps xs :
  cs_list c ps xs → cs_tab c ps xs → (2 ≤ length xs)%nat → (evict_steps xs < fuel)%nat →
  ∃ c' ps', evict_loop fuel (hd NULL ps) (c, w) = Ret (tt, (c', w)) ∧
    cs_list c' ps' (evict xs) ∧ cs_tab c' ps' (evict xs) ∧
    (∀ q, q ∈ ps' → q ∈ ps) ∧ evicting ps c c'.
Proof.
  revert c ps xs. induction fuel as [|fuel IH]; intros c ps xs Hl Ht Hlen Hf; [lia|].
  pose proof (cs_list_length _ _ _ Hl) as Hll.
  destruct xs as [|x [|y XB]]; cbn [length] in Hlen; [lia..|].
  destruct ps as [|p [|q PB]]; [done..|]. cbn [hd]. destruct (ce_refbit x) eqn:Hx.
  - destruct (evict_iter_rotate fuel c w p (q :: PB) x (y :: XB) q Hl Ht Hx)
      as (c1 & Hr & Hl1 & Ht1 & He1); [exact (dl_next_hd _ _ _ _ (proj1 Hl))|].
    rewrite evict_steps_rotate in Hf by done. rewrite evict_rotate by done.
    destruct (IH c1 ((q :: PB) ++ [p]) ((y :: XB) ++ [clear_ref x]) Hl1 Ht1)
      as (c' & ps' & Hr' & Hl' & Ht' & Hps & He'); [rewrite length_app; simpl; lia|lia|].
    exists c', ps'. split_and!; [by rewrite Hr|done|done| |].
    + intros r Hr0. apply Hps in Hr0. clear - Hr0. mem.
    + eapply evicting_trans; [|exact He1|exact He']. intros r Hr0. clear - Hr0. mem.
  - destruct (evict_iter_drop fuel c w p (q :: PB) x (y :: XB) Hl Ht Hx) as (c' & Hr & Hl' & Ht' & He).
    rewrite evict_cons_unref by done. exists c', (q :: PB). split_and!; try done.
    intros r Hr0. by right.
Qed.

Lemma evict_loop_run fuel c w ps xs :
  cs_list c ps xs → cs_tab c ps xs → (S (length xs) < fuel)%nat →
  ∃ c' ps', evict_loop fuel (hd NULL ps) (c, w) = Ret (tt, (c', w)) ∧
    cs_list c' ps' (evict xs) ∧ cs_tab c' ps' (evict xs) ∧
    (∀ q, q ∈ ps' → q ∈ ps) ∧ evicting ps c c'.
Proof.
  intros Hl Ht Hf. destruct (decide (2 ≤ length xs)%nat) as [Hlen|Hlen].
  { apply evict_loop_long; try done. pose proof (evict_steps_le xs). lia. }
  pose proof (cs_list_length _ _ _ Hl) as Hll.
  destruct fuel as [|[|fuel]]; [lia..|].
  destruct xs as [|x [|y XB]]; cbn [length] in Hlen; [| |lia].
  - destruct ps; [|done]. exists c, []. split_and!; try done.
  - destruct ps as [|p [|q PB]]; [done| |done]. cbn [hd]. destruct (ce_refbit x) eqn:Hx.
    + destruct (evict_iter_rotate (S fuel) c w p [] x [] NULL Hl Ht Hx)
        as (c1 & Hr & Hl1 & Ht1 & He1); [exact (dl_next_hd _ _ _ _ (proj1 Hl))|].
      exists c1, [p]. assert (evict [x] = [clear_ref x]) as ->.
      { unfold evict. simpl. by rewrite decide_False by congruence. }
      by split_and!.
    + destruct (evict_iter_drop (S fuel) c w p [] x [] Hl Ht Hx) as (c' & Hr & Hl' & Ht' & He).
      rewrite evict_cons_unref by done. exists c', []. split_and!; try done.
      by intros r ?%elem_of_nil.
Qed.

(** ** The operations on queues *)

Definition q_find (key : string) (xs : list centry) : option (nat * centry) :=
  list_find (λ x, ce_key x = key) xs.

Definition spec_get (key : string) (xs : list centry) : (Z * option string) * list centry :=
  match q_find key xs with
  | None => ((ERRNOKEY, None), xs)
  | Some (i, x) => ((0, ce_value x), <[i := with_refbit true x]> xs)
  end.

(** [full]: the entry count has reached the capacity. *)
Definition spec_put (full : bool) (key value : string) (xs : list centry) : list centry :=
  match q_find key xs with
  | Some (i, x) => <[i := CEntry key (Some value) true]> xs
  | None => (if full then evict xs else xs) ++ [CEntry key (Some value) false]
  end.

Definition spec_del (key : string) (xs : list centry) : Z * list centry :=
  match q_find key xs with
  | None => (ERRNOKEY, xs)
  | Some (i, _) => (0, delete i xs)
  end.

Lemma q_find_Some xs i x key :
  NoDup (ce_key <$> xs) → xs !! i = Some x → ce_key x = key → q_find key xs = Some (i, x).
Proof.
  intros Hnd Hi Hk. apply list_find_Some. split_and!; try done.
  intros j y Hj Hlt Hky. assert (j = i); [|lia].
  apply (NoDup_lookup _ _ _ key Hnd); rewrite list_lookup_fmap; [rewrite Hj|rewrite Hi];
    simpl; congruence.
Qed.

Lemma q_find_None xs key : key ∉ ce_key <$> xs → q_find key xs = None.
Proof.
  intros Hk. apply list_find_None. apply Forall_forall. intros x Hx <-.
  apply Hk. by apply list_elem_of_fmap_2.
Qed.

Lemma keys_insert (xs : list centry) i x y :
  xs !! i = Some x → ce_key y = ce_key x → ce_key <$> <[i := y]> xs = ce_key <$> xs.
Proof.
  intros Hi Hk. rewrite list_fmap_insert, Hk. apply list_insert_id.
  by rewrite list_lookup_fmap, Hi.
Qed.

Lemma upd_data_compose f g p (h : gmap Z (dl_node centry)) :
  upd_data p f (upd_data p g h) = upd_data p (f ∘ g) h.
Proof.
  unfold upd_data. apply map_eq. intros q. destruct (decide (p = q)) as [<-|Hne].
  - rewrite !lookup_alter_eq. by destruct (h !! p).
  - by rewrite !lookup_alter_ne.
Qed.

(** Changing an entry's members, not its key. *)
Lemma cs_repr_set_data c brk xs ps i p x f :
  cs_list c ps xs → cs_tab c ps xs → cs_fresh c brk → ps !! i = Some p → xs !! i = Some x →
  ce_key (f x) = ce_key x →
  cs_repr (set_nodes (upd_data p f (cs_nodes c)) c) brk (<[i := f x]> xs).
Proof.
  intros Hl [Ht Hk] [Hb Hf] Hp Hx Hkf. exists ps. split_and!.
  - by apply cs_list_set_data.
  - split; by rewrite (keys_insert _ _ _ _ Hx Hkf).
  - split; [done|]. intros q Hq. apply Hf. by apply (valid_upd_data _ p f).
Qed.

Lemma cs_repr_mono c brk brk' xs : brk ≤ brk' → cs_repr c brk xs → cs_repr c brk' xs.
Proof.
  intros Hb (ps & ? & ? & H0 & Hf). exists ps. split_and!; [done..|]. split; [lia|].
  intros q Hq. specialize (Hf q Hq). lia.
Qed.

Lemma kvcacheset_get_run c w key xs :
  cs_ok c (w_brk w) xs → mem_ok w →
  ∃ c' w', kvcacheset_get key (c, w) = Ret (fst (spec_get key xs), (c', w')) ∧
    cs_ok c' (w_brk w') (snd (spec_get key xs)) ∧
    num_entries c' = num_entries c ∧ elem_per_set c' = elem_per_set c ∧ same_fs w w'.
Proof.
  intros [(ps & Hl & Ht & Hf) Hcap Hcnt Hval] Hm. unfold kvcacheset_get, spec_get.
  destruct (HASH_FIND_STR_run c w ps xs key Hl Ht)
    as [(i & x & p & Hx & Hp & Hk & Hpn & Hr)|[Hnk Hr]]; run_step Hr.
  - rewrite bool_decide_eq_false_2 by done.
    rewrite (q_find_Some xs i x) by (done || by destruct Ht).
    assert (dat (cs_nodes c) p = Some x) as Hd
      by exact (Forall2_lookup_lr _ _ _ _ _ _ (proj2 Hl) Hp Hx).
    rewrite (bind_Ret _ _ _ _ _ (set_data_run c w p _ (dat_valid _ _ _ Hd))).
    rewrite (bind_Ret _ _ _ (with_refbit true x) _)
      by (apply find_data_run; simpl; by rewrite dat_upd_data, decide_True, Hd).
    rewrite Forall_forall in Hval. destruct (Hval x) as [v Hv]; [by eapply list_elem_of_lookup_2|].
    simpl. rewrite Hv. rewrite (bind_Ret _ _ _ _ _ (malloc_ok _ _ Hm)).
    destruct Hf as [Hb Hf]. rewrite bool_decide_eq_false_2 by (unfold NULL; lia).
    do 2 eexists. split_and!; [done| |done|done|fs]. split; simpl; try done.
    + apply (cs_repr_mono _ (w_brk w)); [lia|]. by eapply cs_repr_set_data.
    + by rewrite length_insert.
    + apply Forall_insert; [by apply Forall_forall|]. simpl. rewrite ?Hv. eauto.
  - rewrite (q_find_None xs) by done. rewrite bool_decide_eq_true_2 by done.
    exists c, w. split_and!; [done| |done|done|fs]. split; try done. by exists ps.
Qed.

(** ** [kvcacheset_put] *)

Section fresh.
Context (c : kvcacheset) (p : Z) (x : centry).
Hypothesis (Hp : ¬ valid (cs_nodes c) p) (Hp0 : p ≠ NULL).

Definition fresh_node : gmap Z (dl_node centry) :=
  <[p := DlNode NULL NULL x]> (cs_nodes c).

Lemma fresh_deref q :
  deref fresh_node q = if decide (p = q) then Some (DlNode NULL NULL x) else deref (cs_nodes c) q.
Proof.
  unfold fresh_node, deref. case_decide as E.
  - subst q. rewrite bool_decide_eq_false_2 by done. apply lookup_insert_eq.
  - case_bool_decide; [done|]. by apply lookup_insert_ne.
Qed.

Lemma fresh_valid q : valid fresh_node q ↔ p = q ∨ valid (cs_nodes c) q.
Proof.
  unfold valid. rewrite fresh_deref. case_decide as E.
  - split; [by left|]. eauto.
  - naive_solver.
Qed.

Lemma fresh_notin ps xs : cs_list c ps xs → p ∉ ps.
Proof. intros [Hd _] Hin. by apply Hp, (dl_valid _ _ _ _ Hd). Qed.

Lemma fresh_list ps xs : cs_list c ps xs → cs_list (set_nodes fresh_node c) ps xs.
Proof.
  intros Hl. pose proof (fresh_notin _ _ Hl) as Hn. destruct Hl as [Hd Hx].
  assert (∀ q, q ∈ ps → deref fresh_node q = deref (cs_nodes c) q) as E.
  { intros q Hq. rewrite fresh_deref. by rewrite decide_False by (by intros ->). }
  split.
  - eapply dl_ext; [exact Hd|]. intros q Hq. unfold nxt, prv. simpl. by rewrite E.
  - simpl. eapply Forall2_dat_ext; [|exact Hx]. intros q Hq. unfold dat. by rewrite E.
Qed.

Lemma fresh_dat : dat fresh_node p = Some x.
Proof. unfold dat. rewrite fresh_deref. by rewrite decide_True. Qed.
End fresh.

Lemma upd_fresh c p x f : upd_data p f (fresh_node c p x) = fresh_node c p (f x).
Proof.
  unfold upd_data, fresh_node. rewrite alter_insert_eq. done.
Qed.

Lemma put_append c w ps xs p x brk :
  cs_list c ps xs → cs_tab c ps xs → p ∉ ps → dat (cs_nodes c) p = Some x →
  ce_key x ∉ ce_key <$> xs → cs_fresh c brk →
  ∃ c', (dl_append p;; HASH_ADD_KEYPTR (ce_key x) p) (c, w) = Ret (tt, (c', w)) ∧
    cs_repr c' brk (xs ++ [x]) ∧ num_entries c' = num_entries c ∧
    elem_per_set c' = elem_per_set c.
Proof.
  intros Hl [Ht Hk] Hp Hd Hnk [Hb Hf].
  destruct (dl_append_run c w ps xs p x Hl Hp Hd) as (head & h & Hr & Hl' & Hs & Hdat).
  exists (set_hash (cs_hash c ++ [(ce_key x, p)]) (set_entries head (set_nodes h c))).
  split_and!; [|exists (ps ++ [p])|done..].
  - by rewrite (bind_Ret _ _ _ _ _ Hr).
  - split_and!; [done| |].
    + split; simpl.
      * rewrite fmap_app, zip_with_app; [by rewrite Ht|].
        rewrite length_fmap. symmetry. by eapply cs_list_length.
      * rewrite fmap_app. apply NoDup_app. split_and!; [done| |apply NoDup_singleton].
        intros k Hin ->%list_elem_of_singleton. done.
    + split; [done|]. intros q Hq. by apply Hf, Hs.
Qed.

Definition full (c : kvcacheset) : bool := negb (bool_decide (u32 (num_entries c) < elem_per_set c)).

(** What is left to do when the new node is ready: count it or make room, then link it. *)
Definition put_link (key : string) (selected : Z) : M CS unit :=
  c ← gets fst;
  (if bool_decide (u32 (num_entries c) < elem_per_set c) then
     upd_cs (λ c, set_num_entries (s32 (num_entries c + 1)) c)
   else evict_loop (S (2 * size (cs_nodes c))) (entries c));;
  dl_append selected;;
  HASH_ADD_KEYPTR key selected.

Lemma evict_not_full_length xs n :
  2 ≤ n → Z.of_nat (length xs) ≤ n → Z.of_nat (length (evict xs)) + 1 ≤ n.
Proof.
  intros Hn Hx. destruct (decide (2 ≤ length xs)%nat) as [H|H].
  - pose proof (evict_length xs H). lia.
  - pose proof (evict_length_small xs ltac:(lia)). lia.
Qed.

Lemma dl_head {D} (h : gmap Z (dl_node D)) head ps : dl h head ps → head = hd NULL ps.
Proof.
  destruct ps as [|p ps]; intros Hd; [by destruct Hd as (_ & _ & ->)|].
  by destruct (dl_cons_inv _ _ _ _ Hd) as (ys & z & _ & -> & _).
Qed.

Lemma put_link_run c w ps xs p x brk :
  cs_list c ps xs → cs_tab c ps xs → p ∉ ps → dat (cs_nodes c) p = Some x →
  ce_key x ∉ ce_key <$> xs → cs_fresh c brk →
  2 ≤ elem_per_set c < 2 ^ 31 → Z.of_nat (length xs) ≤ num_entries c ≤ elem_per_set c →
  ∃ c', put_link (ce_key x) p (c, w) = Ret (tt, (c', w)) ∧
    cs_repr c' brk ((if full c then evict xs else xs) ++ [x]) ∧
    num_entries c' = (if full c then num_entries c else num_entries c + 1) ∧
    elem_per_set c' = elem_per_set c.
Proof.
  intros Hl Ht Hp Hd Hnk Hf Hcap Hcnt. unfold put_link, full.
  rewrite (bind_Ret _ _ _ c (c, w)) by done. case_bool_decide as Hlt; cbn [negb].
  - assert (s32 (num_entries c + 1) = num_entries c + 1) as E.
    { rewrite uwrap_id in Hlt by lia. apply swrap_id; lia. }
    rewrite (bind_Ret _ _ _ tt (set_num_entries (num_entries c + 1) c, w))
      by (unfold upd_cs, modify; simpl; by rewrite E).
    destruct (put_append (set_num_entries (num_entries c + 1) c) w ps xs p x brk)
      as (c' & Hr & Hrep & Hn & He); try done.
    exists c'. split_and!; done.
  - assert (p ∉ ps ∧ valid (cs_nodes c) p) as [_ Hvp] by (by split; [|eapply dat_valid]).
    assert (S (length xs) < S (2 * size (cs_nodes c)))%nat as Hfuel.
    { assert (length (p :: ps) ≤ size (cs_nodes c))%nat as Hsz.
      { apply NoDup_valid_size.
        - apply NoDup_cons. split; [done|]. apply Hl.
        - apply Forall_forall. intros q [->|Hq]%elem_of_cons; [done|].
          by apply (dl_valid _ _ _ _ (proj1 Hl)). }
      simpl in Hsz. rewrite (cs_list_length _ _ _ Hl) in Hsz. lia. }
    rewrite (dl_head _ _ _ (proj1 Hl)).
    destruct (evict_loop_run _ c w ps xs Hl Ht Hfuel) as (c1 & ps1 & Hr & Hl1 & Ht1 & Hps & Hev).
    rewrite (bind_Ret _ _ _ _ _ Hr). destruct Hev as [E1 E2 E3 E4].
    destruct (put_append c1 w ps1 (evict xs) p x brk) as (c' & Hr' & Hrep & Hn & He); try done.
    + naive_solver.
    + by rewrite E4.
    + intros Hin. apply Hnk. by eapply elem_of_submseteq, evict_keys.
    + destruct Hf as [Hb Hf]. split; [done|]. eauto.
    + exists c'. split_and!; [done|done|congruence|congruence].
Qed.

Lemma set_data_upd c w p h f :
  valid h p → set_data p f (set_nodes h c, w) = Ret (tt, (set_nodes (upd_data p f h) c, w)).
Proof. intros Hv. by rewrite set_data_run. Qed.

(** The two ways through [kvcacheset_put]: the key is there, ... *)
Lemma put_hit_run c w key value xs ps i x p :
  cs_ok c (w_brk w) xs → mem_ok w → cs_list c ps xs → cs_tab c ps xs → cs_fresh c (w_brk w) →
  xs !! i = Some x → ps !! i = Some p → ce_key x = key → p ≠ NULL →
  HASH_FIND_STR key (c, w) = Ret (p, (c, w)) →
  ∃ c' w', kvcacheset_put key value (c, w) = Ret (0, (c', w')) ∧
    cs_ok c' (w_brk w') (<[i := CEntry key (Some value) true]> xs) ∧
    num_entries c' = num_entries c ∧ elem_per_set c' = elem_per_set c ∧ same_fs w w'.
Proof.
  intros [_ Hcap Hcnt Hval] Hm Hl Ht Hf Hx Hp Hk Hpn Hr. pose proof Hf as [Hb Hfr].
  unfold kvcacheset_put. run_step Hr. rewrite bool_decide_eq_true_2 by done.
  assert (dat (cs_nodes c) p = Some x) as Hd
    by exact (Forall2_lookup_lr _ _ _ _ _ _ (proj2 Hl) Hp Hx).
  pose proof (dat_valid _ _ _ Hd) as Hv.
  rewrite bind_assoc, (bind_Ret _ _ _ _ _ (set_data_run c w p _ Hv)), ret_bind.
  rewrite (bind_Ret _ _ _ _ _ (malloc_ok _ _ Hm)).
  rewrite bool_decide_eq_false_2 by (unfold NULL; lia).
  rewrite (bind_Ret _ _ _ _ _ (set_data_upd c _ p _ _ (proj2 (valid_upd_data _ _ _ _) Hv))).
  rewrite (bind_Ret _ _ _ (with_value (Some value) (with_refbit true x)) _)
    by (apply find_data_run; simpl; by rewrite !dat_upd_data, !decide_True, Hd).
  cbn [negb ce_refbit with_value with_refbit]. rewrite ret_bind.
  do 2 eexists. split_and!; [done| |done|done|fs].
  split; simpl; [|done|by rewrite length_insert|apply Forall_insert; [done|eauto]].
  apply (cs_repr_mono _ (w_brk w)); [lia|].
  rewrite upd_data_compose, <- Hk.
  exact (cs_repr_set_data c (w_brk w) xs ps i p x
    (with_value (Some value) ∘ with_refbit true) Hl Ht Hf Hp Hx eq_refl).
Qed.

(** ... or a node is allocated and filled before it is linked. *)
Lemma put_miss_alloc c w key value :
  mem_ok w → 0 < w_brk w → HASH_FIND_STR key (c, w) = Ret (NULL, (c, w)) →
  ∃ w', kvcacheset_put key value (c, w) =
      (put_link key (w_brk w);; mret 0)
        (set_nodes (fresh_node c (w_brk w) (CEntry key (Some value) false)) c, w') ∧
    same_fs w w' ∧ w_brk w < w_brk w'.
Proof.
  intros Hm Hb Hr. unfold kvcacheset_put. run_step Hr.
  rewrite bool_decide_eq_false_2 by tauto. set (p := w_brk w) in *.
  assert (p ≠ NULL) as Hp0 by (unfold NULL; lia).
  assert (∀ x, valid (fresh_node c p x) p) as Hvp by (intros x; apply fresh_valid; auto).
  rewrite bind_assoc, (bind_Ret _ _ _ _ _ (malloc_ok c w Hm)). fold p.
  set (w1 := World (w_files w) (w_dirs w) (w_denied w) [] (p + 1)).
  rewrite bool_decide_eq_false_2 by done.
  rewrite bind_assoc, (bind_Ret _ _ _ tt (set_nodes (fresh_node c p (CEntry "" None false)) c, w1))
    by done.
  rewrite bind_assoc, (bind_Ret _ _ _ _ _ (malloc_ok _ w1 eq_refl)).
  set (w2 := World _ _ _ _ _).
  rewrite bool_decide_eq_false_2 by (cbn; unfold NULL; lia).
  rewrite bind_assoc, (bind_Ret _ _ _ _ _ (set_data_upd c _ p _ _ (Hvp _))), upd_fresh.
  rewrite bind_assoc, (bind_Ret _ _ _ _ _ (set_data_upd c _ p _ _ (Hvp _))), upd_fresh.
  rewrite ret_bind, (bind_Ret _ _ _ _ _ (malloc_ok _ w2 eq_refl)).
  rewrite bool_decide_eq_false_2 by (cbn; unfold NULL; lia).
  rewrite (bind_Ret _ _ _ _ _ (set_data_upd c _ p _ _ (Hvp _))), upd_fresh.
  rewrite (bind_Ret _ _ _ (CEntry key (Some value) false) _)
    by (apply find_data_run; by apply fresh_dat).
  eexists. split_and!; [reflexivity|fs|cbn; lia].
Qed.

Lemma kvcacheset_put_run c w key value xs :
  cs_ok c (w_brk w) xs → mem_ok w →
  ∃ c' w', kvcacheset_put key value (c, w) = Ret (0, (c', w')) ∧
    cs_ok c' (w_brk w') (spec_put (full c) key value xs) ∧
    num_entries c' = (if decide (key ∈ ce_key <$> xs) then num_entries c
                      else if full c then num_entries c else num_entries c + 1) ∧
    elem_per_set c' = elem_per_set c ∧ same_fs w w'.
Proof.
  intros Hok Hm. pose proof Hok as [(ps & Hl & Ht & Hf) Hcap Hcnt Hval]. pose proof Hf as [Hb Hfr].
  unfold spec_put. destruct (HASH_FIND_STR_run c w ps xs key Hl Ht)
    as [(i & x & p & Hx & Hp & Hk & Hpn & Hr)|[Hnk Hr]].
  - rewrite (q_find_Some xs i x) by (done || by destruct Ht).
    rewrite decide_True; [by eapply put_hit_run|].
    rewrite <- Hk. apply list_elem_of_fmap_2. by eapply list_elem_of_lookup_2.
  - rewrite (q_find_None xs), decide_False by done.
    destruct (put_miss_alloc c w key value Hm Hb Hr) as (w' & -> & Hw & Hbw).
    assert (¬ valid (cs_nodes c) (w_brk w)) as Hnv by (intros Hv; specialize (Hfr _ Hv); lia).
    assert (w_brk w ≠ NULL) as Hp0 by (unfold NULL; lia).
    set (x := CEntry key (Some value) false). set (c1 := set_nodes (fresh_node c (w_brk w) x) c).
    destruct (put_link_run c1 w' ps xs (w_brk w) x (w_brk w')) as (c' & Hr' & Hrep & Hn & He);
      try done.
    { exact (fresh_list c _ x Hnv Hp0 ps xs Hl). }
    { exact (fresh_notin c _ Hnv ps xs Hl). }
    { by apply fresh_dat. }
    { split; [lia|]. intros q Hq. apply fresh_valid in Hq as [<-|Hq]; [lia| |done].
      specialize (Hfr q Hq). lia. }
    rewrite (bind_Ret _ _ _ _ _ Hr'). exists c', w'. split_and!; try done.
    split; [done|by rewrite He| |].
    + rewrite He, Hn, length_app. cbn [length num_entries elem_per_set c1 set_nodes].
      change (full c1) with (full c). unfold full. case_bool_decide as Hlt; cbn [negb];
        rewrite uwrap_id in Hlt by lia; [lia|].
      pose proof (evict_not_full_length xs (num_entries c)). lia.
    + apply Forall_app. split; [|by repeat econstructor].
      destruct (full c); [|done]. rewrite Forall_forall in *. intros y Hy.
      apply evict_elem in Hy as (z & Hz & [->| ->]); by apply (Hval z).
Qed.

(** ** [kvcacheset_del], [kvcacheset_clear], [kvcacheset_refbit] *)

Definition unlink (p : Z) : M CS unit := HASH_DEL p;; dl_delete p;; free_node p.

Lemma unlink_run c w PA p PB XA x XB brk :
  cs_list c (PA ++ p :: PB) (XA ++ x :: XB) → length PA = length XA →
  cs_tab c (PA ++ p :: PB) (XA ++ x :: XB) → cs_fresh c brk →
  ∃ c', unlink p (c, w) = Ret (tt, (c', w)) ∧ cs_list c' (PA ++ PB) (XA ++ XB) ∧
    cs_tab c' (PA ++ PB) (XA ++ XB) ∧ cs_fresh c' brk ∧
    cs_hash c' = filter (λ e : string * Z, e.2 ≠ p) (cs_hash c) ∧
    num_entries c' = num_entries c ∧ elem_per_set c' = elem_per_set c.
Proof.
  intros Hl Hlen Ht [Hb Hf].
  assert (NoDup (PA ++ p :: PB)) as Hnd by (by destruct Hl as [[? _] _]).
  set (c0 := set_hash (filter (λ e : string * Z, e.2 ≠ p) (cs_hash c)) c).
  destruct (dl_delete_run c0 w PA p PB XA x XB Hl Hlen) as (head & h & Hr & Hl1 & Hs & Hdat).
  exists (set_nodes (delete p h) (set_entries head (set_nodes h c0))). split_and!; try done.
  - unfold unlink. rewrite (bind_Ret _ _ _ tt (c0, w)) by done. by rewrite (bind_Ret _ _ _ _ _ Hr).
  - apply (cs_list_free (set_entries head (set_nodes h c0))); [done|].
    apply NoDup_app_cons_inv in Hnd as (? & ? & _). mem.
  - exact (cs_tab_del c PA p PB XA x XB Hnd Hlen Ht).
  - split; [done|]. intros q [n Hn]. apply Hf, Hs. unfold valid, deref in *. simpl in Hn.
    case_bool_decide; [done|]. apply lookup_delete_Some in Hn as [_ Hn]. eauto.
Qed.

Lemma kvcacheset_del_run c w key xs :
  cs_ok c (w_brk w) xs →
  ∃ c', kvcacheset_del key (c, w) = Ret (fst (spec_del key xs), (c', w)) ∧
    cs_ok c' (w_brk w) (snd (spec_del key xs)) ∧
    num_entries c' = num_entries c ∧ elem_per_set c' = elem_per_set c.
Proof.
  intros Hok. pose proof Hok as [(ps & Hl & Ht & Hf) Hcap Hcnt Hval].
  unfold kvcacheset_del, spec_del.
  destruct (HASH_FIND_STR_run c w ps xs key Hl Ht)
    as [(i & x & p & Hx & Hp & Hk & Hpn & Hr)|[Hnk Hr]]; run_step Hr.
  - rewrite bool_decide_eq_true_2 by done.
    rewrite (q_find_Some xs i x) by (done || by destruct Ht).
    rewrite (list_split_lookup _ _ _ Hp), (list_split_lookup _ _ _ Hx) in Hl, Ht.
    destruct (unlink_run c w _ _ _ _ _ _ (w_brk w) Hl) as (c' & Hr' & Hl' & Ht' & Hf' & _ & Hn & He);
      [|done..|].
    { rewrite !length_take. apply lookup_lt_Some in Hp, Hx. lia. }
    exists c'. cbn [fst snd]. split_and!; [|split|done..].
    + unfold unlink in Hr'. apply bind_inv in Hr' as ([] & s1 & H1 & Hr').
      apply bind_inv in Hr' as ([] & s2 & H2 & H3).
      by rewrite (bind_Ret _ _ _ _ _ H1), (bind_Ret _ _ _ _ _ H2), (bind_Ret _ _ _ _ _ H3).
    + rewrite delete_take_drop. eexists; split_and!; done.
    + by rewrite He.
    + rewrite Hn, He. pose proof (length_delete xs i ltac:(eauto)). lia.
    + by apply Forall_delete.
  - rewrite (q_find_None xs) by done. rewrite bool_decide_eq_false_2 by tauto. by exists c.
Qed.

Lemma clear_loop_run t c w brk ps xs :
  cs_list c ps xs → cs_tab c ps xs → cs_fresh c brk → t = cs_hash c →
  ∃ c', clear_loop t (c, w) = Ret (tt, (c', w)) ∧ cs_repr c' brk [] ∧
    num_entries c' = num_entries c ∧ elem_per_set c' = elem_per_set c.
Proof.
  revert c ps xs. induction t as [|[k p] t IH]; intros c ps xs Hl Ht Hf Heq.
  - exists c. split_and!; try done. destruct Ht as [Ht Hnd].
    rewrite <- Heq in Ht. apply Permutation_nil_l in Ht.
    pose proof (cs_list_length _ _ _ Hl) as Hlen.
    destruct xs as [|x xs]; [|by destruct ps]. exists ps. split_and!; try done.
    split; [|constructor]. by rewrite <- Heq.
  - pose proof (cs_list_length _ _ _ Hl) as Hlen.
    assert ((k, p) ∈ zip (ce_key <$> xs) ps) as Hin.
    { rewrite <- (proj1 Ht), <- Heq. left. }
    apply zip_keys_lookup in Hin as (i & x & Hx & Hp & Hk).
    assert (NoDup (snd <$> cs_hash c)) as Hnd.
    { rewrite (proj1 Ht), snd_zip by (rewrite length_fmap; lia). by destruct Hl as [[? _] _]. }
    rewrite (list_split_lookup _ _ _ Hp), (list_split_lookup _ _ _ Hx) in Hl, Ht.
    destruct (unlink_run c w _ _ _ _ _ _ brk Hl) as (c1 & Hr' & Hl' & Ht' & Hf' & Hh & Hn & He);
      [|done..|].
    { rewrite !length_take. apply lookup_lt_Some in Hp, Hx. lia. }
    destruct (IH c1 _ _ Hl' Ht' Hf') as (c' & Hr & Hrep & Hn' & He').
    { rewrite Hh, <- Heq. rewrite filter_cons_False by (simpl; tauto).
      rewrite <- Heq, fmap_cons, NoDup_cons in Hnd. destruct Hnd as [Hnp _].
      rewrite filter_all; [done|]. intros e Hie Hep. apply Hnp. cbn [snd]. rewrite <- Hep.
      by apply list_elem_of_fmap_2. }
    exists c'. split_and!; [|done|congruence..]. cbn [clear_loop].
    unfold unlink in Hr'. apply bind_inv in Hr' as ([] & s1 & H1 & Hr').
    apply bind_inv in Hr' as ([] & s2 & H2 & H3).
    by rewrite (bind_Ret _ _ _ _ _ H1), (bind_Ret _ _ _ _ _ H2), (bind_Ret _ _ _ _ _ H3).
Qed.

Lemma kvcacheset_clear_run c w xs :
  cs_ok c (w_brk w) xs →
  ∃ c', kvcacheset_clear (c, w) = Ret (tt, (c', w)) ∧ cs_ok c' (w_brk w) [] ∧
    num_entries c' = num_entries c ∧ elem_per_set c' = elem_per_set c.
Proof.
  intros [(ps & Hl & Ht & Hf) Hcap Hcnt Hval].
  destruct (clear_loop_run _ c w (w_brk w) ps xs Hl Ht Hf eq_refl) as (c' & Hr & Hrep & Hn & He).
  exists c'. split_and!; try done. split; [done|by rewrite He| |constructor].
  rewrite Hn, He. simpl. lia.
Qed.

Lemma kvcacheset_refbit_run c w key xs :
  cs_ok c (w_brk w) xs →
  kvcacheset_refbit key (c, w) =
    Ret (match q_find key xs with
         | None => -1
         | Some (_, x) => if ce_refbit x then 1 else 0
         end, (c, w)).
Proof.
  intros [(ps & Hl & Ht & Hf) _ _ _]. unfold kvcacheset_refbit.
  destruct (HASH_FIND_STR_run c w ps xs key Hl Ht)
    as [(i & x & p & Hx & Hp & Hk & Hpn & Hr)|[Hnk Hr]]; run_step Hr.
  - rewrite bool_decide_eq_false_2 by done.
    rewrite (q_find_Some xs i x) by (done || by destruct Ht).
    by rewrite (bind_Ret _ _ _ _ _ (find_data_run c w p x
      (Forall2_lookup_lr _ _ _ _ _ _ (proj2 Hl) Hp Hx))).
  - rewrite bool_decide_eq_true_2, (q_find_None xs) by done. done.
Qed.
