(* ===== verification/KvCacheSetSpec.v ===== *)
(** * KvCacheSetSpec: what a cache set promises

    Sequences of operations on one set ([cs_exec_all], the code of
    [kvcacheset.c]) against the abstract machine on queues ([cs_spec_all]), and the
    coherence of the answers with the ideal map of the last values put. *)

From S2P Require Import Prelude Links Utlist KvWorld KvCacheSet KvCacheSetFacts.

(** ** Sessions: sequences of operations on one set *)

Inductive cs_op :=
| OpGet (key : string)
| OpPut (key value : string)
| OpDel (key : string)
| OpClear
| OpRefbit (key : string).

(** The code of an operation, with the value it stores for its caller. *)
Definition cs_exec (op : cs_op) : M CS (Z * option string) :=
  match op with
  | OpGet key => kvcacheset_get key
  | OpPut key value => r ← kvcacheset_put key value; mret (r, None)
  | OpDel key => r ← kvcacheset_del key; mret (r, None)
  | OpClear => kvcacheset_clear;; mret (0, None)
  | OpRefbit key => r ← kvcacheset_refbit key; mret (r, None)
  end.

(** The abstract set: the entry count and the queue. *)
Definition cs_spec (cap : Z) (op : cs_op) (a : Z * list centry) :
    (Z * option string) * (Z * list centry) :=
  let '(n, xs) := a in
  let is_full := negb (bool_decide (n < cap)) in
  match op with
  | OpGet key => let '(r, xs') := spec_get key xs in (r, (n, xs'))
  | OpPut key value =>
    let n' := if decide (key ∈ ce_key <$> xs) then n else if is_full then n else n + 1 in
    ((0, None), (n', spec_put is_full key value xs))
  | OpDel key => let '(r, xs') := spec_del key xs in ((r, None), (n, xs'))
  | OpClear => ((0, None), (n, []))
  | OpRefbit key =>
    ((match q_find key xs with
      | None => -1
      | Some (_, x) => if ce_refbit x then 1 else 0
      end, None), (n, xs))
  end.

Fixpoint cs_exec_all (ops : list cs_op) : M CS (list (Z * option string)) :=
  match ops with
  | [] => mret []
  | op :: ops => r ← cs_exec op; rs ← cs_exec_all ops; mret (r :: rs)
  end.

Fixpoint cs_spec_all (cap : Z) (ops : list cs_op) (a : Z * list centry) :
    list (Z * option string) * (Z * list centry) :=
  match ops with
  | [] => ([], a)
  | op :: ops =>
    let '(r, a1) := cs_spec cap op a in
    let '(rs, a2) := cs_spec_all cap ops a1 in
    (r :: rs, a2)
  end.

Lemma full_spec c brk xs :
  cs_ok c brk xs → full c = negb (bool_decide (num_entries c < elem_per_set c)).
Proof. intros [_ Hcap Hcnt _]. unfold full. by rewrite uwrap_id by lia. Qed.

Lemma cs_exec_run op c w xs :
  cs_ok c (w_brk w) xs → mem_ok w →
  ∃ c' w', let res := cs_spec (elem_per_set c) op (num_entries c, xs) in
    cs_exec op (c, w) = Ret (res.1, (c', w')) ∧
    cs_ok c' (w_brk w') res.2.2 ∧ num_entries c' = res.2.1 ∧
    elem_per_set c' = elem_per_set c ∧ same_fs w w'.
Proof.
  intros Hok Hm. pose proof (full_spec _ _ _ Hok) as Hfull.
  assert (same_fs w w) as Hw by by apply same_fs_refl. destruct op as [key|key value|key| |key]; cbn [cs_exec cs_spec].
  - destruct (kvcacheset_get_run c w key xs Hok Hm) as (c' & w' & Hr & Hok' & Hn & He & Hs).
    destruct (spec_get key xs) as [r xs'] eqn:E. exists c', w'. done.
  - destruct (kvcacheset_put_run c w key value xs Hok Hm) as (c' & w' & Hr & Hok' & Hn & He & Hs).
    rewrite Hfull in *. exists c', w'. run_step Hr. done.
  - destruct (kvcacheset_del_run c w key xs Hok) as (c' & Hr & Hok' & Hn & He).
    destruct (spec_del key xs) as [r xs'] eqn:E. exists c', w. run_step Hr. done.
  - destruct (kvcacheset_clear_run c w xs Hok) as (c' & Hr & Hok' & Hn & He).
    exists c', w. run_step Hr. done.
  - exists c, w. rewrite (bind_Ret _ _ _ _ _ (kvcacheset_refbit_run c w key xs Hok)). done.
Qed.

Lemma cs_exec_all_run ops c w xs :
  cs_ok c (w_brk w) xs → mem_ok w →
  ∃ c' w', let res := cs_spec_all (elem_per_set c) ops (num_entries c, xs) in
    cs_exec_all ops (c, w) = Ret (res.1, (c', w')) ∧
    cs_ok c' (w_brk w') res.2.2 ∧ num_entries c' = res.2.1 ∧
    elem_per_set c' = elem_per_set c ∧ same_fs w w'.
Proof.
  revert c w xs. induction ops as [|op ops IH]; intros c w xs Hok Hm.
  { exists c, w. split_and!; [done..|]. by apply same_fs_refl. }
  destruct (cs_exec_run op c w xs Hok Hm) as (c1 & w1 & Hr & Hok1 & Hn1 & He1 & Hs1).
  cbn [cs_exec_all cs_spec_all]. run_step Hr.
  destruct (cs_spec _ op _) as [r [n1 xs1]]. cbn [fst snd] in *.
  destruct (IH c1 w1 xs1 Hok1) as (c2 & w2 & Hr2 & Hok2 & Hn2 & He2 & Hs2); [by apply Hs1|].
  rewrite He1, Hn1 in *. exists c2, w2. run_step Hr2.
  destruct (cs_spec_all _ ops _) as [rs [n2 xs2]]. cbn [fst snd] in *.
  split_and!; try done. by eapply same_fs_trans.
Qed.

Lemma cs_init_ok eps brk : 2 ≤ eps < 2 ^ 31 → 0 < brk → cs_ok (KVCacheSet eps 0 NULL [] ∅) brk [].
Proof.
  intros He Hb. split; simpl; [|lia|lia|constructor].
  exists []. split_and!; [|by split; [|constructor]|].
  - split; [|constructor]. split_and!; [constructor|done..].
  - split; [done|]. intros p [n Hn]. unfold deref in Hn. by case_bool_decide.
Qed.

(** ** Coherence: a set never answers with anything but the last value put *)

(** Every cached pair is in the ideal map. *)
Definition coherent (m : gmap string string) (xs : list centry) : Prop :=
  ∀ x, x ∈ xs → ∃ v, ce_value x = Some v ∧ m !! ce_key x = Some v.

(** The ideal map after an operation. *)
Definition ideal (op : cs_op) (m : gmap string string) : gmap string string :=
  match op with
  | OpPut key value => <[key := value]> m
  | OpDel key => delete key m
  | OpClear => ∅
  | _ => m
  end.

Lemma q_find_inv key xs i x :
  q_find key xs = Some (i, x) → xs !! i = Some x ∧ ce_key x = key.
Proof. intros (? & ? & _)%list_find_Some. done. Qed.

Lemma q_find_None_inv key xs x : q_find key xs = None → x ∈ xs → ce_key x ≠ key.
Proof. intros H%list_find_None. rewrite Forall_forall in H. intros Hx. by apply H. Qed.

Lemma coherent_insert m xs i x :
  coherent m xs → (∃ v, ce_value x = Some v ∧ m !! ce_key x = Some v) → coherent m (<[i := x]> xs).
Proof.
  intros Hc Hx y Hy. apply list_elem_of_lookup in Hy as (j & Hj).
  apply list_lookup_insert_Some in Hj as [(-> & -> & _)|(_ & Hj)]; [done|].
  apply Hc. by eapply list_elem_of_lookup_2.
Qed.

Lemma coherent_evict m xs : coherent m xs → coherent m (evict xs).
Proof. intros Hc x (y & Hy & [->| ->])%evict_elem; by apply (Hc y). Qed.

Lemma coherent_put m b key value xs :
  NoDup (ce_key <$> xs) → coherent m xs →
  coherent (<[key := value]> m) (spec_put b key value xs).
Proof.
  intros Hnd Hc. unfold spec_put. destruct (q_find key xs) as [[i x]|] eqn:Hf.
  - apply q_find_inv in Hf as [Hi Hk]. intros y Hy. apply list_elem_of_lookup in Hy as (j & Hj).
    apply list_lookup_insert_Some in Hj as [(-> & <- & _)|(Hne & Hj)].
    { exists value. by rewrite lookup_insert_eq. }
    destruct (Hc y) as (v & Hv & Hm); [by eapply list_elem_of_lookup_2|]. exists v.
    rewrite lookup_insert_ne; [done|]. intros Hkk. apply Hne.
    apply (NoDup_lookup _ _ _ key Hnd); rewrite list_lookup_fmap; [rewrite Hi|rewrite Hj];
      simpl; congruence.
  - intros y [Hy| ->%list_elem_of_singleton]%elem_of_app; [|exists value; by rewrite lookup_insert_eq].
    assert (∃ z, z ∈ xs ∧ (y = z ∨ y = clear_ref z)) as (z & Hz & Hyz).
    { destruct b; [by apply evict_elem|]. eauto. }
    destruct (Hc z Hz) as (v & Hv & Hm). pose proof (q_find_None_inv _ _ _ Hf Hz) as Hne.
    exists v. destruct Hyz as [->| ->]; simpl; by rewrite lookup_insert_ne.
Qed.

Lemma coherent_step cap op m n xs :
  NoDup (ce_key <$> xs) → coherent m xs → coherent (ideal op m) (cs_spec cap op (n, xs)).2.2.
Proof.
  intros Hnd Hc. destruct op as [key|key value|key| |key]; cbn [cs_spec ideal].
  - unfold spec_get. destruct (q_find key xs) as [[i x]|] eqn:Hf; [|done].
    apply q_find_inv in Hf as [Hi Hk]. apply coherent_insert; [done|].
    apply (Hc x). by eapply list_elem_of_lookup_2.
  - by apply coherent_put.
  - unfold spec_del. destruct (q_find key xs) as [[i x]|] eqn:Hf; simpl.
    + apply q_find_inv in Hf as [Hi Hk]. intros y Hy. apply list_elem_of_lookup in Hy as (j & Hj).
      assert (∃ k, k ≠ i ∧ xs !! k = Some y) as (k & Hne & Hky).
      { destruct (decide (j < i)%nat) as [Hlt|Hge].
        - rewrite list_lookup_delete_lt in Hj by done. exists j. split; [lia|done].
        - rewrite list_lookup_delete_ge in Hj by lia. exists (S j). split; [lia|done]. }
      destruct (Hc y) as (v & Hv & Hm); [by eapply list_elem_of_lookup_2|]. exists v.
      rewrite lookup_delete_ne; [done|]. intros Hkk. apply Hne.
      apply (NoDup_lookup _ _ _ key Hnd); rewrite list_lookup_fmap; [rewrite Hky|rewrite Hi];
        simpl; congruence.
    + intros y Hy. destruct (Hc y Hy) as (v & Hv & Hm). exists v.
      rewrite lookup_delete_ne; [done|]. apply not_eq_sym. by eapply q_find_None_inv.
  - by intros y ?%elem_of_nil.
  - done.
Qed.

Lemma cs_ok_nodup c brk xs : cs_ok c brk xs → NoDup (ce_key <$> xs).
Proof. by intros [(ps & _ & [_ ?] & _) _ _ _]. Qed.

Lemma coherent_all ops c w xs m :
  cs_ok c (w_brk w) xs → mem_ok w → coherent m xs →
  coherent (foldl (λ m op, ideal op m) m ops)
    (cs_spec_all (elem_per_set c) ops (num_entries c, xs)).2.2.
Proof.
  revert c w xs m. induction ops as [|op ops IH]; intros c w xs m Hok Hm Hc; [done|].
  destruct (cs_exec_run op c w xs Hok Hm) as (c1 & w1 & Hr & Hok1 & Hn1 & He1 & Hs1).
  pose proof (coherent_step (elem_per_set c) op m (num_entries c) xs (cs_ok_nodup _ _ _ Hok) Hc) as Hc1.
  cbn [cs_spec_all foldl]. destruct (cs_spec _ op _) as [r [n1 xs1]]. cbn [fst snd] in *.
  specialize (IH c1 w1 xs1 _ Hok1 ltac:(by apply Hs1) Hc1). rewrite He1, Hn1 in IH.
  by destruct (cs_spec_all _ ops _) as [rs [n2 xs2]].
Qed.

Lemma spec_get_coherent m key xs :
  coherent m xs →
  (spec_get key xs).1 = (ERRNOKEY, None) ∨
  ∃ v, m !! key = Some v ∧ (spec_get key xs).1 = (0, Some v).
Proof.
  intros Hc. unfold spec_get. destruct (q_find key xs) as [[i x]|] eqn:Hf; [right|by left].
  apply q_find_inv in Hf as [Hi Hk]. destruct (Hc x) as (v & Hv & Hm).
  { by eapply list_elem_of_lookup_2. }
  exists v. rewrite <- Hk. simpl. by rewrite Hv.
Qed.

Lemma q_find_last key x xs :
  q_find key xs = None → ce_key x = key → ∃ i, q_find key (xs ++ [x]) = Some (i, x).
Proof.
  intros Hn Hk. exists (length xs). unfold q_find in *.
  rewrite (list_find_app_r _ _ _ Hn). simpl. rewrite decide_True by done. done.
Qed.

Lemma q_find_submseteq key xs ys :
  ce_key <$> ys ⊆+ ce_key <$> xs → q_find key xs = None → q_find key ys = None.
Proof.
  intros Hs Hn. apply q_find_None. intros Hin.
  eapply elem_of_submseteq in Hin; [|exact Hs]. apply list_elem_of_fmap in Hin as (x & -> & Hx).
  by eapply q_find_None_inv in Hx.
Qed.

(** What was just put is found. *)
Lemma spec_get_put b key value xs :
  (spec_get key (spec_put b key value xs)).1 = (0, Some value).
Proof.
  unfold spec_get, spec_put. destruct (q_find key xs) as [[i x]|] eqn:Hf.
  - pose proof Hf as (Hi & Hk & Hbefore)%list_find_Some.
    assert (q_find key (<[i := CEntry key (Some value) true]> xs)
            = Some (i, CEntry key (Some value) true)) as E; [|by rewrite E].
    apply list_find_Some. split_and!; [|done|].
    + apply list_lookup_insert_eq. by eapply lookup_lt_Some.
    + intros j y Hj Hlt. rewrite list_lookup_insert_ne in Hj by lia. by eapply Hbefore.
  - destruct (q_find_last key (CEntry key (Some value) false) (if b then evict xs else xs))
      as [i ->]; [|done..]. destruct b; [|done].
    exact (q_find_submseteq _ _ _ (evict_keys xs) Hf).
Qed.

(** ** Properties *)

(** C15: every sequence of cache-set operations, from a fresh set and with memory
    available, runs to the end without crashing, answers exactly what the queue
    machine answers, and leaves a well-formed set that holds the machine's queue,
    never more than [elem_per_set] entries. *)
Theorem cacheset_session_refines (ops : list cs_op) (eps : Z) (w : world) :
  2 ≤ eps < 2 ^ 31 → 0 < w_brk w → mem_ok w →
  ∃ c0 c' w', let res := cs_spec_all eps ops (0, []) in
    kvcacheset_init 0 eps = (0, Some c0) ∧
    cs_exec_all ops (c0, w) = Ret (res.1, (c', w')) ∧
    cs_ok c' (w_brk w') res.2.2 ∧ num_entries c' = res.2.1 ∧
    Z.of_nat (length res.2.2) ≤ eps ∧ same_fs w w'.
Proof.
  intros He Hb Hm. destruct (cs_exec_all_run ops _ w [] (cs_init_ok eps (w_brk w) He Hb) Hm)
    as (c' & w' & Hr & Hok & Hn & Hc & Hs).
  cbn [elem_per_set num_entries] in *. eexists _, c', w'. split_and!; try done.
  - unfold kvcacheset_init. rewrite !bool_decide_eq_false_2 by lia. done.
  - destruct Hok as [_ Hcap Hcnt _]. lia.
Qed.

Definition w_test : world := World ∅ ∅ ∅ [] 100.

Lemma cacheset_session_refines_witness :
  ∃ c0 c' w', kvcacheset_init 0 2 = (0, Some c0) ∧
    cs_exec_all [OpPut "a" "1"; OpPut "b" "2"; OpGet "a"; OpPut "c" "3"; OpGet "b"] (c0, w_test)
      = Ret ([(0, None); (0, None); (0, Some "1"); (0, None); (ERRNOKEY, None)], (c', w')).
Proof.
  destruct (cacheset_session_refines
    [OpPut "a" "1"; OpPut "b" "2"; OpGet "a"; OpPut "c" "3"; OpGet "b"] 2 w_test)
    as (c0 & c' & w' & Hi & Hr & _); [lia|reflexivity|reflexivity|].
  exists c0, c', w'. split; [exact Hi|exact Hr].
Defined.

(** The eviction policy is second chance.  Putting a new key in a full set
    whose queue is [A ++ x :: B], all of [A] referenced and [x] not, evicts [x]:
    [B] comes first, then [A] with its reference bits cleared, then the new
    entry, unreferenced. *)
Theorem put_full_second_chance c w key value A x B :
  cs_ok c (w_brk w) (A ++ x :: B) → mem_ok w →
  num_entries c = elem_per_set c → key ∉ ce_key <$> A ++ x :: B →
  Forall (λ y, ce_refbit y = true) A → ce_refbit x = false →
  ∃ c' w', kvcacheset_put key value (c, w) = Ret (0, (c', w')) ∧
    cs_ok c' (w_brk w') (B ++ (with_refbit false <$> A) ++ [CEntry key (Some value) false]) ∧
    num_entries c' = elem_per_set c'.
Proof.
  intros Hok Hm Hn Hk HA Hx.
  destruct (kvcacheset_put_run c w key value _ Hok Hm) as (c' & w' & Hr & Hok' & Hn' & He & _).
  rewrite decide_False in Hn' by done. rewrite (full_spec _ _ _ Hok), Hn in *.
  rewrite bool_decide_eq_false_2 in * by lia. cbn [negb] in *.
  exists c', w'. split_and!; [done| |congruence].
  unfold spec_put in Hok'. rewrite q_find_None in Hok' by done.
  unfold evict in Hok'. erewrite (list_find_app_r _ A) in Hok'.
  - cbn [list_find] in Hok'. rewrite decide_True in Hok' by done.
    cbn [fmap option_fmap option_map prod_map Nat.add fst] in Hok'.
    rewrite take_app_length, <- app_assoc, drop_app_cons in Hok'. exact Hok'.
  - apply list_find_None. eapply Forall_impl; [exact HA|]. intros y ->. done.
Qed.

Lemma put_full_second_chance_witness :
  ∃ c w, num_entries c = elem_per_set c ∧
    ∃ c' w', kvcacheset_put "c" "3" (c, w) = Ret (0, (c', w')) ∧
      cs_ok c' (w_brk w') [CEntry "a" (Some "1") false; CEntry "c" (Some "3") false].
Proof.
  destruct (cs_exec_all_run [OpPut "a" "1"; OpPut "b" "2"; OpGet "a"] _ w_test []
    (cs_init_ok 2 100 ltac:(lia) ltac:(lia)) eq_refl) as (c & w & _ & Hok & Hn & He & Hs).
  exists c, w. split; [by rewrite Hn, He|].
  destruct (put_full_second_chance c w "c" "3" [CEntry "a" (Some "1") true]
    (CEntry "b" (Some "2") false) []) as (c' & w' & Hr & Hok' & _).
  - exact Hok.
  - by apply Hs.
  - by rewrite Hn, He.
  - vm_compute. intros H. repeat (apply elem_of_cons in H as [H|H]; [done|]). by apply elem_of_nil in H.
  - by constructor.
  - done.
  - exists c', w'. split; [exact Hr|exact Hok'].
Defined.

(** The answers are coherent.  After any session, [kvcacheset_get] answers
    either that the key is absent or the value the key was last put with, never a
    value that was overwritten, deleted or cleared. *)
Theorem cacheset_get_coherent (ops : list cs_op) (eps : Z) (w : world) key :
  2 ≤ eps < 2 ^ 31 → 0 < w_brk w → mem_ok w →
  ∃ rs c1 w1 r c2 w2,
    cs_exec_all ops (KVCacheSet eps 0 NULL [] ∅, w) = Ret (rs, (c1, w1)) ∧
    kvcacheset_get key (c1, w1) = Ret (r, (c2, w2)) ∧
    (r = (ERRNOKEY, None) ∨
     ∃ v, foldl (λ m op, ideal op m) ∅ ops !! key = Some v ∧ r = (0, Some v)).
Proof.
  intros He Hb Hm. pose proof (cs_init_ok eps (w_brk w) He Hb) as Hok0.
  destruct (cs_exec_all_run ops _ w [] Hok0 Hm) as (c' & w' & Hr & Hok & _ & _ & Hs).
  assert (coherent ∅ []) as Hc0 by (by intros x ?%elem_of_nil).
  pose proof (coherent_all ops _ w [] ∅ Hok0 Hm Hc0) as Hc. cbn [elem_per_set num_entries] in *.
  destruct (kvcacheset_get_run c' w' key _ Hok ltac:(by apply Hs)) as (c2 & w2 & Hr2 & _).
  do 6 eexists. split_and!; [exact Hr|exact Hr2|]. by apply spec_get_coherent.
Qed.

Lemma cacheset_get_coherent_witness :
  ∃ rs c1 w1 c2 w2,
    cs_exec_all [OpPut "a" "1"; OpPut "a" "2"] (KVCacheSet 2 0 NULL [] ∅, w_test) = Ret (rs, (c1, w1)) ∧
    kvcacheset_get "a" (c1, w1) = Ret ((0, Some "2"), (c2, w2)).
Proof.
  destruct (cacheset_get_coherent [OpPut "a" "1"; OpPut "a" "2"] 2 w_test "a")
    as (rs & c1 & w1 & r & c2 & w2 & H1 & H2 & Hr); [lia|reflexivity|reflexivity|].
  exists rs, c1, w1, c2, w2. split; [exact H1|]. rewrite H2. do 2 f_equal.
  destruct Hr as [->|(v & Hv & ->)].
  - vm_compute in H1. injection H1 as _ <- <-. vm_compute in H2. discriminate H2.
  - vm_compute in Hv. injection Hv as <-. reflexivity.
Defined.

(** A value just put is found: [kvcacheset_put] followed by
    [kvcacheset_get] of the same key succeeds with that value, whatever the set
    held and whether or not an entry had to be evicted. *)
Theorem cacheset_get_after_put c w key value xs :
  cs_ok c (w_brk w) xs → mem_ok w →
  ∃ c' w', (kvcacheset_put key value;; kvcacheset_get key) (c, w)
    = Ret ((0, Some value), (c', w')).
Proof.
  intros Hok Hm.
  destruct (kvcacheset_put_run c w key value _ Hok Hm) as (c1 & w1 & Hr & Hok1 & _ & _ & Hs).
  destruct (kvcacheset_get_run c1 w1 key _ Hok1 ltac:(by apply Hs)) as (c2 & w2 & Hr2 & _).
  exists c2, w2. run_step Hr. by rewrite Hr2, spec_get_put.
Qed.

Lemma cacheset_get_after_put_witness :
  ∃ c' w', (kvcacheset_put "k" "v";; kvcacheset_get "k") (KVCacheSet 2 0 NULL [] ∅, w_test)
    = Ret ((0, Some "v"), (c', w')).
Proof.
  apply (cacheset_get_after_put (KVCacheSet 2 0 NULL [] ∅) w_test "k" "v" []); [|reflexivity].
  apply cs_init_ok; cbn; lia.
Defined.

(** Deleting never gives room back.  [kvcacheset_del] leaves the entry count
    as it was, so that after two puts and two deletes a set of capacity 2 keeps
    only one of the next two puts. *)
Theorem del_leaks_capacity :
  ∃ c w, cs_exec_all
      [OpPut "a" "1"; OpPut "b" "2"; OpDel "a"; OpDel "b"; OpPut "c" "3"; OpPut "d" "4"; OpGet "c"]
      (KVCacheSet 2 0 NULL [] ∅, w_test)
    = Ret ([(0, None); (0, None); (0, None); (0, None); (0, None); (0, None); (ERRNOKEY, None)], (c, w)).
Proof. do 2 eexists. vm_compute. reflexivity. Qed.
