(* ===== verification/KvCache.v ===== *)
(** * KvCache: the set-associative cache ([kvstore/src/server/kvcache.c])

    The cache is an array of cache sets; a key belongs to the set its hash selects.
    The file translates [kvcache.c], and proves that the cache, whatever it has
    evicted, only ever holds pairs of the ideal map of the last values put
    ([cache_inv]), each in the set of its key. *)

From S2P Require Import Prelude Links Utlist KvWorld KvCacheSet KvCacheSetFacts KvCacheSetSpec.

(** [kvcache_t]. *)
Record kvcache := KVCache { kc_sets : list kvcacheset; kc_num_sets : Z; kc_elem_per_set : Z }.

Abbreviation KC := (kvcache * world)%type.

(** The loop of [kvcache_init], which initialises the locks without an error. *)
Fixpoint init_sets (n : nat) (elem_per_set : Z) : option (list kvcacheset) :=
  match n with
  | O => Some []
  | S n =>
    match kvcacheset_init 0 elem_per_set with
    | (0, Some c) => (c ::.) <$> init_sets n elem_per_set
    | _ => None
    end
  end.

(** The counter of the loop is an [int], which overflows on its way to 2^31 sets. *)
Definition kvcache_init (num_sets elem_per_set : Z) : M world (Z * option kvcache) :=
  if bool_decide (num_sets = 0 ∨ elem_per_set = 0) then mret (-1, None) else
  sets ← malloc;
  if bool_decide (sets = NULL) then mret (ENOMEM, None) else
  match init_sets (Z.to_nat num_sets) elem_per_set with
  | None => mret (-1, None)
  | Some sets => if bool_decide (2 ^ 31 ≤ num_sets) then crash else
                 mret (0, Some (KVCache sets num_sets elem_per_set))
  end.

(** [get_cache_set]: the index of the set.  The hash is stored in an [int] and
    converted to [unsigned] by the [%] operator. *)
Definition get_cache_set (cache : kvcache) (key : string) : Z :=
  let hash_val := s32 (hash key) in
  u32 hash_val `mod` kc_num_sets cache.

(** Runs an operation on [cache->sets[i]]. *)
Definition on_set {A} (i : Z) (m : M CS A) : M KC A := λ s,
  let '(cache, w) := s in
  match kc_sets cache !! Z.to_nat i with
  | None => Crash
  | Some c =>
    match m (c, w) with
    | Ret (a, (c', w')) =>
      Ret (a, (KVCache (<[Z.to_nat i := c']> (kc_sets cache)) (kc_num_sets cache)
                 (kc_elem_per_set cache), w'))
    | Crash => Crash
    | NoFuel => NoFuel
    end
  end.

Definition kvcache_get (key : string) : M KC (Z * option string) :=
  if bool_decide (strlen key > MAX_KEYLEN) then mret (ERRKEYLEN, None) else
  i ← gets (λ s, get_cache_set s.1 key);
  on_set i (kvcacheset_get key).

Definition kvcache_put (key value : string) : M KC Z :=
  if bool_decide (strlen key > MAX_KEYLEN) then mret ERRKEYLEN else
  if bool_decide (strlen value > MAX_VALLEN) then mret ERRVALLEN else
  i ← gets (λ s, get_cache_set s.1 key);
  on_set i (kvcacheset_put key value).

Definition kvcache_del (key : string) : M KC Z :=
  if bool_decide (strlen key > MAX_KEYLEN) then mret ERRKEYLEN else
  i ← gets (λ s, get_cache_set s.1 key);
  on_set i (kvcacheset_del key).

(** The lock of the key's set, or null. *)
Definition kvcache_getlock (key : string) : M KC (option Z) :=
  if bool_decide (strlen key > MAX_KEYLEN) then mret None else
  i ← gets (λ s, get_cache_set s.1 key);
  mret (Some i).

Fixpoint clear_sets (n : nat) (i : Z) : M KC unit :=
  match n with
  | O => mret tt
  | S n => on_set i kvcacheset_clear;; clear_sets n (i + 1)
  end.

Definition kvcache_clear : M KC unit :=
  n ← gets (λ s, Z.to_nat (kc_num_sets s.1));
  clear_sets n 0.

(** ** The invariant *)

Record cache_repr (cache : kvcache) (brk : Z) (qs : list (list centry)) : Prop := {
  cr_sets : Forall2 (λ c xs, cs_ok c brk xs ∧ elem_per_set c = kc_elem_per_set cache)
              (kc_sets cache) qs;
  cr_num : Z.of_nat (length (kc_sets cache)) = kc_num_sets cache;
  cr_range : 0 < kc_num_sets cache < 2 ^ 32;
  cr_place i xs x : qs !! i = Some xs → x ∈ xs → Z.of_nat i = get_cache_set cache (ce_key x)
}.

(** Every cached pair is a pair of the ideal map [m]. *)
Definition cache_inv (cache : kvcache) (brk : Z) (m : gmap string string) : Prop :=
  ∃ qs, cache_repr cache brk qs ∧ Forall (coherent m) qs.

Lemma cs_ok_mono c brk brk' xs : brk ≤ brk' → cs_ok c brk xs → cs_ok c brk' xs.
Proof. intros Hb [H1 H2 H3 H4]. split; try done. by eapply cs_repr_mono. Qed.

Lemma cache_inv_mono cache brk brk' m : brk ≤ brk' → cache_inv cache brk m → cache_inv cache brk' m.
Proof.
  intros Hb (qs & [H1 H2 H3 H4] & Hc). exists qs. split; [|done]. split; try done.
  eapply Forall2_impl; [exact H1|]. intros c xs [? ?]. split; [by eapply cs_ok_mono|done].
Qed.

(** The sets with one changed. *)
Definition upd_set (cache : kvcache) (i : nat) (c : kvcacheset) : kvcache :=
  KVCache (<[i := c]> (kc_sets cache)) (kc_num_sets cache) (kc_elem_per_set cache).

Lemma get_cache_set_lookup cache brk qs key :
  cache_repr cache brk qs →
  ∃ i c xs, get_cache_set cache key = Z.of_nat i ∧ kc_sets cache !! i = Some c ∧ qs !! i = Some xs ∧
    cs_ok c brk xs ∧ elem_per_set c = kc_elem_per_set cache.
Proof.
  intros [H1 H2 H3 _]. assert (0 ≤ get_cache_set cache key < kc_num_sets cache) as Hi.
  { unfold get_cache_set. apply Z.mod_pos_bound. lia. }
  destruct (lookup_lt_is_Some_2 (kc_sets cache) (Z.to_nat (get_cache_set cache key))) as [c Hc].
  { rewrite <- H2 in Hi. lia. }
  destruct (Forall2_lookup_l _ _ _ _ _ H1 Hc) as (xs & Hxs & Hok & He).
  exists (Z.to_nat (get_cache_set cache key)), c, xs. split_and!; [lia|done..].
Qed.

(** Replacing the queue of the key's set. *)
Lemma cache_inv_upd cache brk brk' m m' qs key i c xs c' xs' :
  cache_repr cache brk qs → Forall (coherent m) qs → brk ≤ brk' →
  get_cache_set cache key = Z.of_nat i → kc_sets cache !! i = Some c → qs !! i = Some xs →
  cs_ok c' brk' xs' → elem_per_set c' = kc_elem_per_set cache →
  (∀ x, x ∈ xs' → ce_key x ∈ key :: (ce_key <$> xs)) →
  coherent m' xs' → (∀ k, k ≠ key → m' !! k = m !! k) →
  cache_inv (upd_set cache i c') brk' m'.
Proof.
  intros [H1 H2 H3 H4] Hco Hb Hi Hc Hxs Hok He Hkeys Hco' Hm. exists (<[i := xs']> qs). split.
  - split; cbn [kc_sets kc_num_sets kc_elem_per_set upd_set]; [|by rewrite length_insert|done|].
    + apply Forall2_insert; [|done]. eapply Forall2_impl; [exact H1|].
      intros d ys [? ?]. split; [by eapply cs_ok_mono|done].
    + intros j ys x Hj Hx. unfold get_cache_set in *. cbn [kc_num_sets].
      apply list_lookup_insert_Some in Hj as [(<- & <- & _)|(_ & Hj)]; [|by eapply H4].
      apply Hkeys in Hx as [->|Hx]%elem_of_cons; [done|].
      apply list_elem_of_fmap in Hx as (y & -> & Hy). by eapply H4.
  - apply Forall_lookup_2. intros j ys Hj.
    apply list_lookup_insert_Some in Hj as [(<- & <- & _)|(Hne & Hj)]; [done|].
    intros x Hx. rewrite Forall_lookup in Hco. destruct (Hco j ys Hj x Hx) as (v & Hv & Hmv).
    exists v. rewrite Hm; [done|]. intros Hk. pose proof (H4 j ys x Hj Hx) as Hp.
    rewrite Hk, Hi in Hp. lia.
Qed.

Lemma on_set_run {A} (m : M CS A) cache w i c a c' w' :
  kc_sets cache !! i = Some c → m (c, w) = Ret (a, (c', w')) →
  on_set (Z.of_nat i) m (cache, w) = Ret (a, (upd_set cache i c', w')).
Proof. intros Hc Hm. unfold on_set. by rewrite Nat2Z.id, Hc, Hm. Qed.

Section ops.
Context (cache : kvcache) (w : world) (m : gmap string string).
Hypothesis (Hinv : cache_inv cache (w_brk w) m) (Hmem : mem_ok w).
Implicit Types (key value : string).

(** All three operations are one step of the queue machine on the key's set. *)
Lemma cache_step key (op : cs_op) :
  (∀ cap n xs x, x ∈ (cs_spec cap op (n, xs)).2.2 → ce_key x ∈ key :: (ce_key <$> xs)) →
  (∀ k, k ≠ key → ideal op m !! k = m !! k) →
  ∃ i cache' w' n xs, get_cache_set cache key = Z.of_nat i ∧
    on_set (Z.of_nat i) (cs_exec op) (cache, w) =
      Ret ((cs_spec (kc_elem_per_set cache) op (n, xs)).1, (cache', w')) ∧
    coherent m xs ∧ cache_inv cache' (w_brk w') (ideal op m) ∧ same_fs w w' ∧
    kc_num_sets cache' = kc_num_sets cache.
Proof.
  intros Hkeys Hm. destruct Hinv as (qs & Hr & Hco).
  destruct (get_cache_set_lookup cache (w_brk w) qs key Hr) as (i & c & xs & Hi & Hc & Hxs & Hok & He).
  destruct (cs_exec_run op c w xs Hok Hmem) as (c' & w' & E & Hok' & Hn & He' & Hs).
  rewrite Forall_lookup in Hco. pose proof (Hco i xs Hxs) as Hcoxs.
  pose proof (coherent_step (elem_per_set c) op m (num_entries c) xs (cs_ok_nodup _ _ _ Hok) Hcoxs) as Hstep.
  pose proof (same_fs_brk _ _ Hs) as Hb.
  exists i, (upd_set cache i c'), w', (num_entries c), xs. rewrite <- He. split_and!; try done.
  - by eapply on_set_run.
  - eapply (cache_inv_upd cache (w_brk w) _ m); try done; [by apply Forall_lookup|congruence|].
    intros x Hx. by eapply Hkeys.
Qed.

(** Keys the machine keeps. *)
Lemma spec_get_keys key xs x : x ∈ (spec_get key xs).2 → ce_key x ∈ key :: (ce_key <$> xs).
Proof.
  unfold spec_get. destruct (q_find key xs) as [[i y]|] eqn:Hf; cbn [snd].
  - apply q_find_inv in Hf as [Hi Hk]. intros Hx. apply list_elem_of_lookup in Hx as (j & Hj).
    apply list_lookup_insert_Some in Hj as [(_ & <- & _)|(_ & Hj)]; cbn [ce_key with_refbit].
    + rewrite Hk. left.
    + right. apply list_elem_of_fmap_2. by eapply list_elem_of_lookup_2.
  - intros Hx. right. by apply list_elem_of_fmap_2.
Qed.

Lemma spec_put_keys b key value xs x :
  x ∈ spec_put b key value xs → ce_key x ∈ key :: (ce_key <$> xs).
Proof.
  unfold spec_put. destruct (q_find key xs) as [[i y]|] eqn:Hf.
  - intros Hx. apply list_elem_of_lookup in Hx as (j & Hj).
    apply list_lookup_insert_Some in Hj as [(_ & <- & _)|(_ & Hj)]; [left|].
    right. apply list_elem_of_fmap_2. by eapply list_elem_of_lookup_2.
  - intros [Hx| ->%list_elem_of_singleton]%elem_of_app; [right|left].
    destruct b; [|by apply list_elem_of_fmap_2].
    eapply elem_of_submseteq; [|apply evict_keys]. by apply list_elem_of_fmap_2.
Qed.

Lemma spec_del_keys key xs x : x ∈ (spec_del key xs).2 → ce_key x ∈ key :: (ce_key <$> xs).
Proof.
  unfold spec_del. intros Hx. right. apply list_elem_of_fmap_2.
  destruct (q_find key xs) as [[i y]|] eqn:Hf; cbn [snd] in Hx; [|done].
  eapply elem_of_submseteq; [exact Hx|]. apply submseteq_delete.
Qed.

(** A hit answers from the ideal map; a miss says nothing. *)
Lemma kvcache_get_run key :
  strlen key ≤ MAX_KEYLEN →
  ∃ r cache' w', kvcache_get key (cache, w) = Ret (r, (cache', w')) ∧
    (r = (ERRNOKEY, None) ∨ ∃ v, m !! key = Some v ∧ r = (0, Some v)) ∧
    cache_inv cache' (w_brk w') m ∧ same_fs w w' ∧ kc_num_sets cache' = kc_num_sets cache.
Proof.
  intros Hk. destruct (cache_step key (OpGet key)) as (i & cache' & w' & n & xs & Hi & E & Hco & Hinv' & Hs & Hn).
  { intros cap n xs x. cbn [cs_spec]. pose proof (spec_get_keys key xs x).
    by destruct (spec_get key xs). }
  { done. }
  eexists _, cache', w'. split_and!; [|apply (spec_get_coherent m key xs Hco)|done..].
  unfold kvcache_get. rewrite bool_decide_eq_false_2 by lia.
  rewrite (bind_Ret _ _ _ (Z.of_nat i) (cache, w)) by (unfold gets; simpl; by rewrite Hi).
  cbn [cs_exec cs_spec] in E. rewrite E. by destruct (spec_get key xs).
Qed.

Lemma on_set_bind {A B} (mm : M CS A) (f : A → B) i s b s' :
  on_set i (r ← mm; mret (f r)) s = Ret (b, s') → ∃ a, on_set i mm s = Ret (a, s') ∧ b = f a.
Proof.
  unfold on_set, mbind, M_bind. destruct s as [c0 w0]. destruct (kc_sets c0 !! _); [|done].
  destruct (mm _) as [[a [c1 w1]]| |]; [|done..]. simpl. intros [= <- <-]. by eexists.
Qed.

Lemma kvcache_put_run key value :
  strlen key ≤ MAX_KEYLEN → strlen value ≤ MAX_VALLEN →
  ∃ cache' w', kvcache_put key value (cache, w) = Ret (0, (cache', w')) ∧
    cache_inv cache' (w_brk w') (<[key := value]> m) ∧ same_fs w w' ∧
    kc_num_sets cache' = kc_num_sets cache.
Proof.
  intros Hk Hv. destruct (cache_step key (OpPut key value))
    as (i & cache' & w' & n & xs & Hi & E & Hco & Hinv' & Hs & Hn).
  { intros cap n xs x. cbn [cs_spec snd]. apply spec_put_keys. }
  { intros k Hne. cbn [ideal]. by rewrite lookup_insert_ne. }
  exists cache', w'. split_and!; try done.
  unfold kvcache_put. rewrite !bool_decide_eq_false_2 by lia.
  rewrite (bind_Ret _ _ _ (Z.of_nat i) (cache, w)) by (unfold gets; simpl; by rewrite Hi).
  cbn [cs_exec] in E. apply on_set_bind in E as (a & -> & Ha). cbn [cs_spec fst] in Ha.
  by injection Ha as <-.
Qed.

Lemma kvcache_del_run key :
  strlen key ≤ MAX_KEYLEN →
  ∃ r cache' w', kvcache_del key (cache, w) = Ret (r, (cache', w')) ∧
    cache_inv cache' (w_brk w') (delete key m) ∧ same_fs w w' ∧
    kc_num_sets cache' = kc_num_sets cache.
Proof.
  intros Hk. destruct (cache_step key (OpDel key))
    as (i & cache' & w' & n & xs & Hi & E & Hco & Hinv' & Hs & Hn).
  { intros cap n xs x. cbn [cs_spec]. pose proof (spec_del_keys key xs x).
    by destruct (spec_del key xs). }
  { intros k Hne. cbn [ideal]. by rewrite lookup_delete_ne. }
  cbn [cs_exec] in E. apply on_set_bind in E as (a & E & _).
  exists a, cache', w'. split_and!; try done.
  unfold kvcache_del. rewrite bool_decide_eq_false_2 by lia.
  by rewrite (bind_Ret _ _ _ (Z.of_nat i) (cache, w)) by (unfold gets; simpl; by rewrite Hi).
Qed.
End ops.

(** ** Initialisation *)

Lemma init_sets_run n eps : 2 ≤ eps → init_sets n eps = Some (replicate n (KVCacheSet eps 0 NULL [] ∅)).
Proof.
  intros He. induction n as [|n IH]; [done|]. cbn [init_sets]. unfold kvcacheset_init.
  rewrite !bool_decide_eq_false_2 by lia. by rewrite IH.
Qed.

Lemma kvcache_init_run num_sets eps w :
  0 < num_sets < 2 ^ 31 → 2 ≤ eps < 2 ^ 31 → mem_ok w → 0 < w_brk w →
  ∃ cache w', kvcache_init num_sets eps w = Ret ((0, Some cache), w') ∧
    cache_inv cache (w_brk w') ∅ ∧ same_fs w w' ∧ kc_num_sets cache = num_sets.
Proof.
  intros Hn He Hm Hb. unfold kvcache_init. rewrite bool_decide_eq_false_2 by lia.
  destruct (malloc_run w Hm) as (w' & E & Hs & Hb'). run_step E.
  rewrite bool_decide_eq_false_2 by (unfold NULL; lia). rewrite init_sets_run by lia.
  rewrite bool_decide_eq_false_2 by lia. do 2 eexists. split_and!; [done| |done|done].
  exists (replicate (Z.to_nat num_sets) []). split.
  - split; cbn [kc_sets kc_num_sets kc_elem_per_set]; [|rewrite length_replicate; lia|lia|].
    + apply Forall2_replicate. split; [|done]. apply cs_init_ok; lia.
    + intros i xs x Hi Hx. apply lookup_replicate in Hi as [-> _]. by apply elem_of_nil in Hx.
  - apply Forall_replicate. by intros x ?%elem_of_nil.
Qed.

(** ** Clearing *)

Lemma clear_sets_run n i cache w m qs :
  cache_repr cache (w_brk w) qs → Forall (coherent m) qs → (i + n = length qs)%nat →
  ∃ cache', clear_sets n (Z.of_nat i) (cache, w) = Ret (tt, (cache', w)) ∧
    cache_repr cache' (w_brk w) (take i qs ++ replicate n []) ∧
    kc_num_sets cache' = kc_num_sets cache.
Proof.
  revert i cache qs. induction n as [|n IH]; intros i cache qs Hr Hco Hin.
  - exists cache. cbn [replicate]. rewrite app_nil_r, take_ge by lia. done.
  - destruct (lookup_lt_is_Some_2 qs i) as [xs Hxs]; [lia|].
    destruct (Forall2_lookup_r _ _ _ _ _ (cr_sets _ _ _ Hr) Hxs) as (c & Hc & Hok & He).
    destruct (kvcacheset_clear_run c w xs Hok) as (c' & E & Hok' & Hn' & He').
    cbn [clear_sets].
    rewrite (bind_Ret _ _ _ _ _ (on_set_run _ cache w i c _ c' w Hc E)).
    destruct (IH (S i) (upd_set cache i c') (<[i := []]> qs)) as (cache' & E' & Hr' & Hn2).
    + destruct Hr as [H1 H2 H3 H4]. split; cbn [kc_sets kc_num_sets kc_elem_per_set upd_set];
        [|by rewrite length_insert|done|].
      * apply Forall2_insert; [done|]. split; [done|congruence].
      * intros j ys x Hj Hx. apply list_lookup_insert_Some in Hj as [(_ & <- & _)|(_ & Hj)];
          [by apply elem_of_nil in Hx|by eapply H4].
    + apply Forall_insert; [done|]. by intros x ?%elem_of_nil.
    + rewrite length_insert. lia.
    + exists cache'. split_and!; [|clear E'|done].
      * replace (Z.of_nat i + 1) with (Z.of_nat (S i)) by lia. exact E'.
      * rewrite (take_S_r _ _ []) in Hr' by (apply list_lookup_insert_eq; lia).
        rewrite take_insert_ge, <- app_assoc in Hr' by lia. exact Hr'.
Qed.

Lemma kvcache_clear_run cache w m :
  cache_inv cache (w_brk w) m →
  ∃ cache', kvcache_clear (cache, w) = Ret (tt, (cache', w)) ∧ cache_inv cache' (w_brk w) ∅ ∧
    kc_num_sets cache' = kc_num_sets cache.
Proof.
  intros (qs & Hr & Hco). pose proof (Forall2_length _ _ _ (cr_sets _ _ _ Hr)) as Hl.
  pose proof (cr_num _ _ _ Hr) as Hn. unfold kvcache_clear.
  rewrite (bind_Ret _ _ _ (length qs) (cache, w)) by (unfold gets; simpl; by rewrite <- Hn, Nat2Z.id, Hl).
  destruct (clear_sets_run (length qs) 0 cache w m qs Hr Hco) as (cache' & E & Hr' & Hn'); [done|].
  exists cache'. split_and!; [done| |done]. eexists. split; [exact Hr'|].
  apply Forall_replicate. by intros x ?%elem_of_nil.
Qed.
