(* ===== verification/KvStore.v ===== *)
(** * KvStore: the persistent store ([kvstore/src/server/kvstore.c])

    An entry is a file [<dirname>/<hash>-<chainpos>.entry] that holds the dump of a
    [kventry_t]: the length of [data] as a little-endian [int], then the key and the
    value, each with its terminator.  The functions are translated over the file
    system of [KvWorld].

    The store's read-write lock delimits the critical sections: [find_entry] is
    one, and the rest of [kvstore_put] and [kvstore_del] is another
    ([kvstore_put_locked], [kvstore_del_locked]), which is how they are composed
    here.  Loops that probe the chain carry fuel; each probe that goes on finds
    another file, so the number of files bounds them. *)

From S2P Require Import Prelude Links KvWorld.

Definition KVSTORE_FILETYPE : string := ".entry".

(** [kvstore_t]; its lock is implicit. *)
Record kvstore := KVStore { st_dirname : string }.

(** The name ["%s/%lu-%u%s"]. *)
Definition entry_file (dir : string) (hashval counter : Z) : string :=
  dir +:+ "/" +:+ fmt_u hashval +:+ "-" +:+ fmt_u counter +:+ KVSTORE_FILETYPE.

Definition kvstore_init (dirname : string) : M world (Z * option kvstore) :=
  ok ← stat_ok dirname;
  err ← (if negb ok then mkdir dirname else mret 0);
  if bool_decide (err ≠ 0) then mret (err, None) else
  if bool_decide (strlen dirname < MAX_FILENAME)        (* strcpy into dirname[] *)
  then mret (0, Some (KVStore dirname)) else crash.

(** The content of an entry file. *)
Definition kventry_bytes (key value : string) : list ascii :=
  le32 (strlen key + strlen value + 2) ++ bytes_of key ++ NUL :: bytes_of value ++ [NUL].

(** [fread] of the header, then of the whole entry: the [data] member.  A file too
    short for the header leaves it uninitialised. *)
Definition read_entry (b : list ascii) : option (list ascii) :=
  match b with
  | b0 :: b1 :: b2 :: b3 :: rest =>
    let len := of_le32 b0 b1 b2 b3 in
    if bool_decide (len < 0) then None else Some (take (Z.to_nat len) rest)
  | _ => None
  end.

(** The [while] loop of [find_entry]: [counter] is the position being probed. *)
Fixpoint find_entry_loop (fuel : nat) (store : kvstore) (hashval counter : Z)
    (key : string) (want : bool) : M world (Z * option string) :=
  match fuel with
  | O => nofuel
  | S fuel =>
    currfile ← sprintf (entry_file (st_dirname store) hashval counter);
    ok ← stat_ok currfile;
    if negb ok then mret (ERRNOKEY, None) else
    file ← fopen_read currfile;
    match file with
    | None => mret (ERRFILACCESS, None)
    | Some b =>
      entry ← malloc;
      if bool_decide (entry = NULL) then mret (ENOMEM, None) else
      match read_entry b with
      | None => crash
      | Some data =>
        match cstr_of data with
        | None => crash
        | Some k =>
          if bool_decide (k = key) then
            if want then
              v ← malloc;
              if bool_decide (v = NULL) then mret (ENOMEM, None) else
              match cstr_of (drop (S (String.length k)) data) with
              | None => crash
              | Some value => mret (s32 counter, Some value)
              end
            else mret (s32 counter, None)
          else find_entry_loop fuel store hashval (u32 (counter + 1)) key want
        end
      end
    end
  end.

(** [want]: whether the [value] argument is not null. *)
Definition find_entry (store : kvstore) (key : string) (want : bool) : M world (Z * option string) :=
  if bool_decide (strlen key > MAX_KEYLEN) then mret (ERRKEYLEN, None) else
  ok ← stat_ok (st_dirname store);
  if negb ok then mret (ERRFILACCESS, None) else
  fuel ← gets chain_fuel;
  find_entry_loop fuel store (hash key) 0 key want.

Definition kvstore_haskey (store : kvstore) (key : string) : M world bool :=
  r ← find_entry store key false;
  mret (bool_decide (0 ≤ r.1)).

Definition kvstore_get (store : kvstore) (key : string) : M world (Z * option string) :=
  r ← find_entry store key true;
  if bool_decide (r.1 < 0) then mret r else mret (0, r.2).

Definition kvstore_put_check (store : kvstore) (key value : string) : M world Z :=
  if bool_decide (strlen key > MAX_KEYLEN) then mret ERRKEYLEN else
  if bool_decide (strlen value > MAX_VALLEN) then mret ERRVALLEN else
  ok ← stat_ok (st_dirname store);
  mret (if negb ok then ERRFILACCESS else 0).

(** The search for the end of the chain: the first free name. *)
Fixpoint chain_end_loop (fuel : nat) (store : kvstore) (hashval counter : Z) : M world string :=
  match fuel with
  | O => nofuel
  | S fuel =>
    filename ← sprintf (entry_file (st_dirname store) hashval counter);
    ok ← stat_ok filename;
    if negb ok then mret filename
    else chain_end_loop fuel store hashval (s32 (counter + 1))
  end.

(** [kvstore_put] from [pthread_rwlock_wrlock] on. *)
Definition kvstore_put_locked (store : kvstore) (key value : string) (counter : Z) : M world Z :=
  filename ← (if bool_decide (0 ≤ counter) then
                sprintf (entry_file (st_dirname store) (hash key) counter)
              else
                fuel ← gets chain_fuel;
                chain_end_loop fuel store (hash key) 0);
  ok ← fopen_write filename;
  if negb ok then mret ERRFILACCESS else
  entry ← malloc;
  if bool_decide (entry = NULL) then crash else    (* entry->length = ... *)
  fwrite filename (kventry_bytes key value);;
  mret 0.

Definition kvstore_put (store : kvstore) (key value : string) : M world Z :=
  check ← kvstore_put_check store key value;
  if bool_decide (check < 0) then mret check else
  r ← find_entry store key false;
  kvstore_put_locked store key value r.1.

Definition kvstore_del_check (store : kvstore) (key : string) : M world Z :=
  if bool_decide (strlen key > MAX_KEYLEN) then mret ERRKEYLEN else
  ok ← stat_ok (st_dirname store);
  if negb ok then mret ERRFILACCESS else
  has ← kvstore_haskey store key;
  mret (if (has : bool) then 0 else ERRNOKEY).

(** The [while] loop of [kvstore_del]: the first free position at or after
    [counter]. *)
Fixpoint del_loop (fuel : nat) (store : kvstore) (hashval counter : Z) : M world Z :=
  match fuel with
  | O => nofuel
  | S fuel =>
    currfile ← sprintf (entry_file (st_dirname store) hashval counter);
    ok ← stat_ok currfile;
    if negb ok then mret counter
    else del_loop fuel store hashval (u32 (counter + 1))
  end.

(** [kvstore_del] from [pthread_rwlock_wrlock] on. *)
Definition kvstore_del_locked (store : kvstore) (key : string) (chainpos : Z) : M world Z :=
  delfile ← sprintf (entry_file (st_dirname store) (hash key) chainpos);
  fuel ← gets chain_fuel;
  counter ← del_loop fuel store (hash key) (u32 (chainpos + 1));
  if bool_decide (counter = u32 (chainpos + 1)) then
    remove delfile
  else
    currfile ← sprintf (entry_file (st_dirname store) (hash key) (u32 (counter - 1)));
    rename_file currfile delfile.

Definition kvstore_del (store : kvstore) (key : string) : M world Z :=
  r ← find_entry store key false;
  if bool_decide (r.1 < 0) then mret r.1 else
  kvstore_del_locked store key r.1.

(** [readdir]: the names in a directory. *)
Fixpoint no_slash (s : string) : bool :=
  match s with
  | EmptyString => true
  | String c s => bool_decide (c ≠ "/"%char) && no_slash s
  end.

Definition child_of (dir path : string) : bool :=
  match strip (dir +:+ "/") path with
  | Some name => bool_decide (name ≠ "") && no_slash name
  | None => false
  end.

Definition readdir (dir : string) (w : world) : list string :=
  [dir +:+ "/."; dir +:+ "/.."] ++ filter (λ p, child_of dir p = true) (paths w).

Fixpoint clean_loop (files : list string) : M world unit :=
  match files with
  | [] => mret tt
  | f :: files =>
    filename ← sprintf f;
    remove filename;;
    clean_loop files
  end.

Definition kvstore_clean (store : kvstore) : M world Z :=
  is_dir ← gets (λ w, bool_decide (st_dirname store ∈ w_dirs w) && negb (denied w (st_dirname store)));
  if negb is_dir then mret 0 else
  files ← gets (readdir (st_dirname store));
  clean_loop files;;
  remove (st_dirname store);;
  mret 0.
