(* ===== verification/KvStoreFacts.v ===== *)
(** * KvStoreFacts: the store refines a finite map

    [store_ok w dir ch] says that the directory holds exactly the hash chains
    [ch]; [kv_repr w dir m] that the chains hold the finite map [m].  The lemmas
    show what the operations of [kvstore.c] do to the map. *)

From S2P Require Import Prelude Links KvWorld KvStore.

(** ** File names *)

Definition is_pos (z : Z) : Prop := 0 ≤ z < 2 ^ 64.

Lemma entry_file_inj dir hv i hv' i' :
  0 ≤ hv → 0 ≤ hv' → 0 ≤ i → 0 ≤ i' →
  entry_file dir hv i = entry_file dir hv' i' → hv = hv' ∧ i = i'.
Proof.
  unfold entry_file. intros ???? Heq.
  apply string_app_inj_l in Heq. apply (string_app_inj_l "/") in Heq.
  apply (digits_split _ _ "-"%char) in Heq as [E1 Heq]; [|apply fmt_u_digits..|reflexivity].
  apply (digits_split _ _ "."%char) in Heq as [E2 _]; [|apply fmt_u_digits..|reflexivity].
  split; apply fmt_u_inj; done || lia.
Qed.

Lemma entry_file_length dir hv i :
  is_pos hv → is_pos i → strlen dir ≤ 960 → strlen (entry_file dir hv i) < MAX_FILENAME.
Proof.
  intros Hh Hi Hd. unfold entry_file. rewrite !strlen_app.
  pose proof (fmt_u_length hv Hh). pose proof (fmt_u_length i Hi).
  change (strlen "/") with 1. change (strlen "-") with 1. change (strlen KVSTORE_FILETYPE) with 6.
  unfold MAX_FILENAME. lia.
Qed.

Lemma hash_pos k : is_pos (hash k).
Proof. apply hash_range. Qed.

(** ** Chains *)

Abbreviation chain := (list (string * string)).

Definition enc (kv : string * string) : list ascii := kventry_bytes kv.1 kv.2.

Definition entry_ok (hv : Z) (kv : string * string) : Prop :=
  hash kv.1 = hv ∧ cstring kv.1 ∧ cstring kv.2 ∧
  strlen kv.1 ≤ MAX_KEYLEN ∧ strlen kv.2 ≤ MAX_VALLEN.

Definition chain_ok (hv : Z) (l : chain) : Prop := NoDup l.*1 ∧ Forall (entry_ok hv) l.

Record store_ok (w : world) (dir : string) (ch : Z → chain) : Prop := {
  so_dir : dir ∈ w_dirs w;
  so_len : strlen dir ≤ 960;
  so_files hv i : is_pos hv → w_files w !! entry_file dir hv (Z.of_nat i) = enc <$> ch hv !! i;
  so_nodir hv i : entry_file dir hv i ∉ w_dirs w;
  so_granted hv i : entry_file dir hv i ∉ w_denied w;
  so_chain hv : is_pos hv → chain_ok hv (ch hv)
}.

(** The platform can index the files with an [int]. *)
Definition few_files (w : world) : Prop := Z.of_nat (chain_fuel w) < 2 ^ 31.

Definition kv_repr (w : world) (dir : string) (m : gmap string string) : Prop :=
  ∃ ch, store_ok w dir ch ∧
    ∀ k, m !! k = (list_to_map (ch (hash k)) : gmap string string) !! k.

Lemma store_ok_same_fs w w' dir ch : same_fs w w' → store_ok w dir ch → store_ok w' dir ch.
Proof.
  intros (Hf & Hd & Hn & _) [H1 H2 H3 H4 H5 H6]. split; rewrite ?Hf, ?Hd, ?Hn; done.
Qed.

Lemma kv_repr_same_fs w w' dir m : same_fs w w' → kv_repr w dir m → kv_repr w' dir m.
Proof. intros Hs (ch & Hok & Hm). exists ch. split; [by eapply store_ok_same_fs|done]. Qed.

Lemma few_files_same_fs w w' : same_fs w w' → few_files w → few_files w'.
Proof. intros (Hf & Hd & _). unfold few_files, chain_fuel. by rewrite Hf, Hd. Qed.

(** The files of a chain are distinct, so a chain is no longer than the fuel. *)
Lemma chain_length w dir ch hv :
  store_ok w dir ch → is_pos hv → few_files w → (length (ch hv) < chain_fuel w)%nat.
Proof.
  intros Hok Hhv Hsm. unfold few_files in Hsm. set (n := chain_fuel w) in *.
  destruct (decide (length (ch hv) < n)%nat) as [|Hge]; [done|exfalso].
  set (names := (λ i, entry_file dir hv (Z.of_nat i)) <$> seq 0 n).
  assert (NoDup names) as Hnd.
  { apply NoDup_fmap_2_strong; [|apply NoDup_seq].
    intros i j Hi%elem_of_seq Hj%elem_of_seq Heq.
    apply entry_file_inj in Heq as [_ ?]; [lia|unfold is_pos in Hhv; lia..]. }
  assert (length names ≤ size (w_files w))%nat as Hle.
  { rewrite <- (size_list_to_set (C:=gset string)) by done. rewrite <- size_dom.
    apply subseteq_size. intros f Hf. apply elem_of_list_to_set, list_elem_of_fmap in Hf as (i & -> & Hi).
    apply elem_of_seq in Hi. apply elem_of_dom. rewrite (so_files _ _ _ Hok) by done.
    destruct (lookup_lt_is_Some_2 (ch hv) i) as [x ->]; [lia|]. by eexists. }
  unfold names in Hle. rewrite length_fmap, length_seq in Hle. unfold n, chain_fuel in Hle. lia.
Qed.

(** ** Reading an entry back *)

Lemma read_entry_enc k v :
  cstring k → cstring v → strlen k ≤ MAX_KEYLEN → strlen v ≤ MAX_VALLEN →
  ∃ data, read_entry (enc (k, v)) = Some data ∧ cstr_of data = Some k ∧
    cstr_of (drop (S (String.length k)) data) = Some v.
Proof.
  unfold MAX_KEYLEN, MAX_VALLEN. intros Hk Hv Hkl Hvl.
  exists (bytes_of k ++ NUL :: bytes_of v ++ [NUL]). unfold enc, kventry_bytes. cbn [fst snd].
  destruct (le32_read (strlen k + strlen v + 2) (bytes_of k ++ NUL :: bytes_of v ++ [NUL]))
    as (b0 & b1 & b2 & b3 & -> & Hlen).
  { unfold is_s32, strlen in *. lia. }
  pose proof (length_bytes_of k) as Lk. pose proof (length_bytes_of v) as Lv.
  assert (0 ≤ strlen k) by (unfold strlen; lia). assert (0 ≤ strlen v) by (unfold strlen; lia).
  split_and!.
  - cbn [read_entry]. rewrite Hlen, bool_decide_eq_false_2 by lia. f_equal. apply take_ge.
    rewrite length_app. cbn [length]. rewrite length_app. cbn [length]. lia.
  - by apply cstr_of_app.
  - replace (S (String.length k)) with (S (length (bytes_of k))) by (unfold strlen in Lk; lia).
    rewrite drop_app_cons. by apply cstr_of_app.
Qed.

(** ** Looking a key up *)

Lemma stat_entry w dir ch hv i :
  store_ok w dir ch → is_pos hv →
  stat_ok (entry_file dir hv (Z.of_nat i)) w = Ret (bool_decide (i < length (ch hv))%nat, w).
Proof.
  intros Hok Hhv. unfold stat_ok, gets. do 2 f_equal.
  rewrite bool_decide_eq_false_2 by apply (so_nodir _ _ _ Hok). cbn [orb].
  apply bool_decide_ext. rewrite (so_files _ _ _ Hok) by done. rewrite fmap_is_Some.
  symmetry. rewrite <- lookup_lt_is_Some. done.
Qed.

Lemma stat_dir w dir ch : store_ok w dir ch → stat_ok dir w = Ret (true, w).
Proof.
  intros Hok. unfold stat_ok, gets. by rewrite bool_decide_eq_true_2 by apply (so_dir _ _ _ Hok).
Qed.

(** What [find_entry] answers for a chain. *)
Definition found (want : bool) (key : string) (l : chain) : Z * option string :=
  match list_find (λ kv, kv.1 = key) l with
  | Some (i, kv) => (Z.of_nat i, if want then Some kv.2 else None)
  | None => (ERRNOKEY, None)
  end.

Definition shift (n : nat) (r : Z * option string) : Z * option string :=
  if bool_decide (0 ≤ r.1) then (Z.of_nat n + r.1, r.2) else r.

Lemma found_cons want key kv l :
  kv.1 ≠ key → found want key (kv :: l) = shift 1 (found want key l).
Proof.
  intros Hne. unfold found, shift. cbn [list_find]. rewrite decide_False by done.
  destruct (list_find _ l) as [[i x]|]; cbn [fmap option_fmap option_map prod_map fst snd].
  - rewrite bool_decide_eq_true_2 by lia. f_equal. lia.
  - done.
Qed.

Lemma shift_shift n r : shift n (shift 1 r) = shift (S n) r.
Proof.
  unfold shift. destruct (bool_decide (0 ≤ r.1)) eqn:E; cbn [fst snd].
  - apply bool_decide_eq_true in E. rewrite bool_decide_eq_true_2 by lia. f_equal. lia.
  - by rewrite E.
Qed.

Lemma find_entry_loop_run fuel w dir ch hv key want pre suf :
  store_ok w dir ch → mem_ok w → few_files w → 0 < w_brk w → is_pos hv → ch hv = pre ++ suf →
  (length suf < fuel)%nat →
  ∃ w', find_entry_loop fuel (KVStore dir) hv (Z.of_nat (length pre)) key want w =
      Ret (shift (length pre) (found want key suf), w') ∧ same_fs w w' ∧ w_brk w ≤ w_brk w'.
Proof.
  revert w pre suf. induction fuel as [|fuel IH]; intros w pre suf Hok Hm Hff Hb Hhv Hch Hf; [lia|].
  pose proof (chain_length _ _ _ hv Hok Hhv Hff) as Hlen. unfold few_files in Hff.
  rewrite Hch, length_app in Hlen. cbn [find_entry_loop st_dirname].
  rewrite (bind_Ret _ _ _ _ _ (sprintf_run (entry_file dir hv (Z.of_nat (length pre))) w
    ltac:(apply entry_file_length; [done|unfold is_pos; lia|apply (so_len _ _ _ Hok)]))).
  rewrite (bind_Ret _ _ _ _ _ (stat_entry w dir ch hv (length pre) Hok Hhv)).
  rewrite Hch, length_app. destruct suf as [|[k v] suf].
  { rewrite bool_decide_eq_false_2 by (simpl; lia). cbn [negb]. by exists w. }
  rewrite bool_decide_eq_true_2 by (simpl; lia). cbn [negb length] in *.
  assert (ch hv !! length pre = Some (k, v)) as Hlk.
  { rewrite Hch. by rewrite lookup_app_r, Nat.sub_diag by lia. }
  rewrite (bind_Ret _ _ _ (Some (enc (k, v))) w).
  2:{ unfold fopen_read, gets, denied. rewrite bool_decide_eq_false_2 by apply (so_granted _ _ _ Hok).
      by rewrite (so_files _ _ _ Hok), Hlk by done. }
  destruct (malloc_run w Hm) as (w1 & Hr1 & Hs1 & Hb1). run_step Hr1.
  rewrite bool_decide_eq_false_2 by (unfold NULL; lia).
  destruct (so_chain _ _ _ Hok hv Hhv) as [_ Hall].
  eapply Forall_lookup_1 in Hall as (Hh & Hk & Hv & Hkl & Hvl); [|exact Hlk]. cbn [fst snd] in *.
  destruct (read_entry_enc k v Hk Hv Hkl Hvl) as (data & -> & -> & Hval).
  case_bool_decide as Heq.
  - assert (found want key ((k, v) :: suf) = (0, if want then Some v else None)) as ->.
    { unfold found. cbn [list_find]. by rewrite decide_True. }
    unfold shift. cbn [fst snd]. rewrite bool_decide_eq_true_2, Z.add_0_r by done.
    rewrite swrap_id by lia. destruct want; [|exists w1; split_and!; [done|done|lia]].
    destruct (malloc_run w1) as (w2 & Hr2 & Hs2 & Hb2); [by apply Hs1|]. run_step Hr2.
    rewrite bool_decide_eq_false_2 by (unfold NULL; lia). rewrite Hval.
    exists w2. split_and!; [done|by eapply same_fs_trans|lia].
  - rewrite found_cons, shift_shift by done.
    destruct (IH w1 (pre ++ [(k, v)]) suf) as (w2 & Hr2 & Hs2 & Hb2); try done.
    { by eapply store_ok_same_fs. } { by apply Hs1. } { by eapply few_files_same_fs. }
    { lia. } { by rewrite <- app_assoc. } { lia. }
    rewrite length_app in Hr2. cbn [length] in Hr2. rewrite Nat.add_1_r in Hr2.
    exists w2. split_and!; [|by eapply same_fs_trans|lia].
    rewrite <- Hr2. f_equal. rewrite uwrap_id by lia. lia.
Qed.

Lemma find_entry_run w dir ch key want :
  store_ok w dir ch → mem_ok w → few_files w → 0 < w_brk w → strlen key ≤ MAX_KEYLEN →
  ∃ w', find_entry (KVStore dir) key want w = Ret (found want key (ch (hash key)), w') ∧
    same_fs w w' ∧ w_brk w ≤ w_brk w'.
Proof.
  intros Hok Hm Hff Hb Hk. unfold find_entry. rewrite bool_decide_eq_false_2 by lia.
  rewrite (bind_Ret _ _ _ _ _ (stat_dir w dir ch Hok)). cbn [negb].
  rewrite (bind_Ret _ _ _ (chain_fuel w) w) by done.
  destruct (find_entry_loop_run (chain_fuel w) w dir ch (hash key) key want [] (ch (hash key)))
    as (w' & Hr & Hs & Hb'); try done.
  { apply hash_pos. } { by eapply chain_length; [|apply hash_pos|]. }
  exists w'. split_and!; try done. change 0 with (Z.of_nat (@length (string * string) [])).
  rewrite Hr. do 2 f_equal. unfold shift. case_bool_decide; [|done]. by destruct (found _ _ _).
Qed.

Lemma found_cases want key (l : chain) :
  (∃ i v, l !! i = Some (key, v) ∧ (list_to_map l : gmap string string) !! key = Some v ∧
     found want key l = (Z.of_nat i, if want then Some v else None)) ∨
  (key ∉ l.*1 ∧ (list_to_map l : gmap string string) !! key = None ∧
     found want key l = (ERRNOKEY, None)).
Proof.
  induction l as [|[k v] l IH].
  - right. split_and!; [apply not_elem_of_nil|apply lookup_empty|done].
  - destruct (decide (k = key)) as [->|Hne].
    + left. exists 0%nat, v. unfold found. cbn [list_find]. rewrite decide_True by done.
      split_and!; [done|apply lookup_insert_eq|done].
    + rewrite found_cons by done. destruct IH as [(i & v' & Hi & Hm & ->)|(Hk & Hm & ->)].
      * left. exists (S i), v'. split_and!; [done| |].
        { cbn. by rewrite lookup_insert_ne. }
        { unfold shift. cbn [fst snd]. rewrite bool_decide_eq_true_2 by lia. f_equal. lia. }
      * right. cbn. rewrite not_elem_of_cons, lookup_insert_ne by done. by split_and!.
Qed.

(** ** Changing one chain *)

Definition set_chain (ch : Z → chain) (hv : Z) (l : chain) : Z → chain :=
  λ h, if decide (h = hv) then l else ch h.

Lemma store_ok_update w dir ch hv l files :
  store_ok w dir ch → is_pos hv → chain_ok hv l →
  (∀ i : nat, files !! entry_file dir hv (Z.of_nat i) = enc <$> l !! i) →
  (∀ p, (∀ i : nat, p ≠ entry_file dir hv (Z.of_nat i)) → files !! p = w_files w !! p) →
  store_ok (set_files files w) dir (set_chain ch hv l).
Proof.
  intros [H1 H2 H3 H4 H5 H6] Hhv Hl Hf Hother. unfold set_chain.
  split; cbn [w_dirs w_files w_denied set_files]; try done.
  - intros hv' i Hhv'. case_decide as E; [by subst|]. rewrite Hother, H3; [done|done|].
    intros j Heq. apply E. unfold is_pos in *.
    by apply entry_file_inj in Heq as [? _]; [|lia..].
  - intros hv' Hhv'. case_decide as E; [by subst|]. by apply H6.
Qed.

Lemma map_update (ch : Z → chain) (m : gmap string string) k l g :
  (∀ k, m !! k = (list_to_map (ch (hash k)) : gmap string string) !! k) →
  list_to_map l = partial_alter g k (list_to_map (ch (hash k)) : gmap string string) →
  ∀ k', partial_alter g k m !! k'
    = (list_to_map (set_chain ch (hash k) l (hash k')) : gmap string string) !! k'.
Proof.
  intros Hm Hl k'. unfold set_chain. destruct (decide (k = k')) as [<-|Hne].
  - by rewrite decide_True, Hl, !lookup_partial_alter_eq, Hm.
  - rewrite lookup_partial_alter_ne, Hm by done. case_decide as E; [|done].
    rewrite Hl, lookup_partial_alter_ne by done. by rewrite E.
Qed.

Lemma entry_file_nat_inj dir hv i j :
  is_pos hv → entry_file dir hv (Z.of_nat i) = entry_file dir hv (Z.of_nat j) → i = j.
Proof. unfold is_pos. intros Hhv Heq. apply entry_file_inj in Heq as [_ ?]; lia. Qed.

(** Writing position [i] of a chain, inside it or just after its end. *)
Lemma store_ok_write w dir ch hv i kv l :
  store_ok w dir ch → is_pos hv → chain_ok hv l →
  (∀ j : nat, l !! j = if decide (i = j) then Some kv else ch hv !! j) →
  store_ok (set_files (<[entry_file dir hv (Z.of_nat i) := enc kv]> (w_files w)) w) dir
    (set_chain ch hv l).
Proof.
  intros Hok Hhv Hl Hlk. apply store_ok_update; try done.
  - intros j. rewrite Hlk. case_decide as E.
    + subst. by rewrite lookup_insert_eq.
    + rewrite lookup_insert_ne; [by apply (so_files _ _ _ Hok)|].
      intros Heq. by apply E, (entry_file_nat_inj dir hv).
  - intros p Hp. apply lookup_insert_ne. intros Heq. by apply (Hp i).
Qed.

Lemma chain_end_loop_run fuel w dir ch hv n :
  store_ok w dir ch → few_files w → is_pos hv → (n ≤ length (ch hv))%nat →
  (length (ch hv) - n < fuel)%nat →
  chain_end_loop fuel (KVStore dir) hv (Z.of_nat n) w =
    Ret (entry_file dir hv (Z.of_nat (length (ch hv))), w).
Proof.
  intros Hok Hff Hhv. pose proof (chain_length _ _ _ hv Hok Hhv Hff) as Hlen.
  unfold few_files in Hff. revert n. induction fuel as [|fuel IH]; intros n Hn Hf; [lia|].
  cbn [chain_end_loop st_dirname].
  rewrite (bind_Ret _ _ _ _ _ (sprintf_run (entry_file dir hv (Z.of_nat n)) w
    ltac:(apply entry_file_length; [done|unfold is_pos; lia|apply (so_len _ _ _ Hok)]))).
  rewrite (bind_Ret _ _ _ _ _ (stat_entry w dir ch hv n Hok Hhv)).
  case_bool_decide as Hlt; cbn [negb].
  - rewrite swrap_id by lia. replace (Z.of_nat n + 1) with (Z.of_nat (S n)) by lia. apply IH; lia.
  - by replace n with (length (ch hv)) by lia.
Qed.

Lemma del_loop_run fuel w dir ch hv n :
  store_ok w dir ch → few_files w → is_pos hv → (n ≤ length (ch hv))%nat →
  (length (ch hv) - n < fuel)%nat →
  del_loop fuel (KVStore dir) hv (Z.of_nat n) w = Ret (Z.of_nat (length (ch hv)), w).
Proof.
  intros Hok Hff Hhv. pose proof (chain_length _ _ _ hv Hok Hhv Hff) as Hlen.
  unfold few_files in Hff. revert n. induction fuel as [|fuel IH]; intros n Hn Hf; [lia|].
  cbn [del_loop st_dirname].
  rewrite (bind_Ret _ _ _ _ _ (sprintf_run (entry_file dir hv (Z.of_nat n)) w
    ltac:(apply entry_file_length; [done|unfold is_pos; lia|apply (so_len _ _ _ Hok)]))).
  rewrite (bind_Ret _ _ _ _ _ (stat_entry w dir ch hv n Hok Hhv)).
  case_bool_decide as Hlt; cbn [negb].
  - rewrite uwrap_id by lia. replace (Z.of_nat n + 1) with (Z.of_nat (S n)) by lia. apply IH; lia.
  - by replace n with (length (ch hv)) by lia.
Qed.

(** ** The operations on maps *)

Definition size_ok (key value : string) : Prop :=
  cstring key ∧ cstring value ∧ strlen key ≤ MAX_KEYLEN ∧ strlen value ≤ MAX_VALLEN.

Lemma put_check_run w dir ch key value :
  store_ok w dir ch → strlen key ≤ MAX_KEYLEN → strlen value ≤ MAX_VALLEN →
  kvstore_put_check (KVStore dir) key value w = Ret (0, w).
Proof.
  intros Hok Hk Hv. unfold kvstore_put_check. rewrite !bool_decide_eq_false_2 by lia.
  by rewrite (bind_Ret _ _ _ _ _ (stat_dir w dir ch Hok)).
Qed.

Lemma write_entry_run w dir ch hv i key value :
  store_ok w dir ch → mem_ok w → 0 < w_brk w →
  ∃ w', (ok ← fopen_write (entry_file dir hv i);
         if negb ok then mret ERRFILACCESS else
         entry ← malloc;
         if bool_decide (entry = NULL) then crash else
         fwrite (entry_file dir hv i) (kventry_bytes key value);; mret 0) w = Ret (0, w') ∧
    same_fs (set_files (<[entry_file dir hv i := enc (key, value)]> (w_files w)) w) w' ∧
    w_brk w ≤ w_brk w'.
Proof.
  intros Hok Hm Hb. set (f := entry_file dir hv i).
  rewrite (bind_Ret _ _ _ true (set_files (<[f := []]> (w_files w)) w)).
  2:{ unfold fopen_write, denied. by rewrite bool_decide_eq_false_2 by apply (so_granted _ _ _ Hok). }
  cbn [negb]. destruct (malloc_run (set_files (<[f := []]> (w_files w)) w)) as (w1 & Hr & Hs & Hb1);
    [done|]. run_step Hr. rewrite bool_decide_eq_false_2 by (cbn; unfold NULL; lia).
  destruct Hs as (Hf & Hd & Hn & Hmem & Hbw). cbn in Hf, Hd, Hn, Hbw.
  eexists. split_and!; [done| |cbn; lia]. unfold same_fs. split_and!; try done.
  cbn. by rewrite Hf, insert_insert_eq.
Qed.

Lemma list_to_map_insert_at (l : chain) i k v0 v :
  NoDup l.*1 → l !! i = Some (k, v0) →
  NoDup (<[i := (k, v)]> l).*1 ∧
  list_to_map (<[i := (k, v)]> l) = <[k := v]> (list_to_map l : gmap string string).
Proof.
  intros Hnd Hi. assert ((<[i := (k, v)]> l).*1 = l.*1) as Hk.
  { rewrite list_fmap_insert. apply list_insert_id. by rewrite list_lookup_fmap, Hi. }
  split; [by rewrite Hk|]. pose proof (lookup_lt_Some _ _ _ Hi) as Hlt.
  assert (<[i := (k, v)]> l ≡ₚ (k, v) :: delete i l) as Hp.
  { etrans; [apply (delete_Permutation _ i (k, v)); by apply list_lookup_insert_eq|].
    apply Permutation_refl'. f_equal. by rewrite !delete_take_drop, take_insert_ge, drop_insert_lt by lia. }
  rewrite (list_to_map_proper _ _ ltac:(by rewrite Hk) Hp).
  rewrite (list_to_map_proper l _ Hnd (delete_Permutation _ _ _ Hi)).
  cbn. by rewrite insert_insert_eq.
Qed.

Lemma list_to_map_snoc (l : chain) k v :
  NoDup l.*1 → k ∉ l.*1 →
  NoDup (l ++ [(k, v)]).*1 ∧
  list_to_map (l ++ [(k, v)]) = <[k := v]> (list_to_map l : gmap string string).
Proof.
  intros Hnd Hk. assert (NoDup (l ++ [(k, v)]).*1) as Hnd'.
  { rewrite fmap_app. apply NoDup_app. split_and!; [done| |apply NoDup_singleton].
    intros x Hx ->%list_elem_of_singleton. done. }
  split; [done|]. assert (l ++ [(k, v)] ≡ₚ (k, v) :: l) as Hp by by rewrite Permutation_app_comm.
  by rewrite (list_to_map_proper _ _ Hnd' Hp).
Qed.

(** The chain after a put, and that it is well formed. *)
Lemma put_chain_ok hv key value l :
  chain_ok hv l → hash key = hv → size_ok key value →
  ∃ i l', (∀ j : nat, l' !! j = if decide (i = j) then Some (key, value) else l !! j) ∧
    chain_ok hv l' ∧ list_to_map l' = <[key := value]> (list_to_map l : gmap string string) ∧
    (found false key l = (Z.of_nat i, None) ∨ found false key l = (ERRNOKEY, None) ∧ i = length l).
Proof.
  intros [Hnd Hall] Hh (Hk & Hv & Hkl & Hvl).
  assert (entry_ok hv (key, value)) as Hkv by (by split_and!).
  destruct (found_cases false key l) as [(i & v & Hi & _ & Hf)|(Hnk & _ & Hf)].
  - destruct (list_to_map_insert_at l i key v value Hnd Hi) as [Hnd' Hmap].
    pose proof (lookup_lt_Some _ _ _ Hi). exists i, (<[i := (key, value)]> l). split_and!; try done.
    + intros j. case_decide; [subst; by apply list_lookup_insert_eq|by apply list_lookup_insert_ne].
    + split; [done|]. by apply Forall_insert.
    + by left.
  - destruct (list_to_map_snoc l key value Hnd Hnk) as [Hnd' Hmap].
    exists (length l), (l ++ [(key, value)]). split_and!; try done.
    + intros j. case_decide as E; [subst; by apply list_lookup_middle|].
      destruct (decide (j < length l)%nat); [by apply lookup_app_l|].
      rewrite !lookup_ge_None_2; [done|lia|rewrite length_app; simpl; lia].
    + split; [done|]. apply Forall_app. split; [done|by constructor].
    + right. done.
Qed.

(** Hypotheses shared by the operations on a store. *)
Record store_at (w : world) (dir : string) (m : gmap string string) : Prop := {
  sa_repr : kv_repr w dir m;
  sa_mem : mem_ok w;
  sa_brk : 0 < w_brk w;
  sa_few : few_files w
}.

Lemma store_at_same_fs w w' dir m :
  store_at w dir m → same_fs w w' → w_brk w ≤ w_brk w' → store_at w' dir m.
Proof.
  intros [H1 H2 H3 H4] Hs Hb. split; [by eapply kv_repr_same_fs|by apply Hs|lia|].
  by eapply few_files_same_fs.
Qed.

Lemma kvstore_get_run w dir m key :
  store_at w dir m → strlen key ≤ MAX_KEYLEN →
  ∃ w', kvstore_get (KVStore dir) key w =
      Ret (match m !! key with Some v => (0, Some v) | None => (ERRNOKEY, None) end, w') ∧
    same_fs w w' ∧ w_brk w ≤ w_brk w'.
Proof.
  intros [(ch & Hok & Hm) Hmem Hb Hff] Hk.
  destruct (find_entry_run w dir ch key true Hok Hmem Hff Hb Hk) as (w' & Hr & Hs & Hb').
  exists w'. split_and!; try done. unfold kvstore_get. run_step Hr. rewrite Hm.
  destruct (found_cases true key (ch (hash key))) as [(i & v & Hi & -> & ->)|(Hnk & -> & ->)].
  - cbn [fst snd]. by rewrite bool_decide_eq_false_2 by lia.
  - done.
Qed.

Lemma kvstore_haskey_run w dir m key :
  store_at w dir m → strlen key ≤ MAX_KEYLEN →
  ∃ w', kvstore_haskey (KVStore dir) key w = Ret (bool_decide (is_Some (m !! key)), w') ∧
    same_fs w w' ∧ w_brk w ≤ w_brk w'.
Proof.
  intros [(ch & Hok & Hm) Hmem Hb Hff] Hk.
  destruct (find_entry_run w dir ch key false Hok Hmem Hff Hb Hk) as (w' & Hr & Hs & Hb').
  exists w'. split_and!; try done. unfold kvstore_haskey. run_step Hr. rewrite Hm.
  destruct (found_cases false key (ch (hash key))) as [(i & v & Hi & -> & ->)|(Hnk & -> & ->)].
  - cbn [fst snd]. rewrite !bool_decide_eq_true_2; [done|by eexists|lia].
  - rewrite (bool_decide_eq_false_2 (is_Some _)); [done|]. by intros [? ?].
Qed.

(** The files of other directories, the log among them, are left alone. *)
Definition other_files (w w' : world) (dir : string) : Prop :=
  w_dirs w' = w_dirs w ∧ w_denied w' = w_denied w ∧
  ∀ p, (∀ hv i, 0 ≤ i → p ≠ entry_file dir hv i) → w_files w' !! p = w_files w !! p.

Lemma other_files_refl w dir : other_files w w dir.
Proof. done. Qed.

Lemma other_files_trans w1 w2 w3 dir :
  other_files w1 w2 dir → other_files w2 w3 dir → other_files w1 w3 dir.
Proof.
  intros (A1 & A2 & A3) (B1 & B2 & B3). split_and!; [congruence..|].
  intros p Hp. by rewrite B3, A3.
Qed.

Lemma same_fs_other w w' dir : same_fs w w' → other_files w w' dir.
Proof. intros (Hf & Hd & Hn & _). split_and!; try done. intros. by rewrite Hf. Qed.

(** The file [kvstore_put] writes: the key's position, or the end of its chain. *)
Lemma put_filename_run w dir ch key i :
  store_ok w dir ch → few_files w →
  (found false key (ch (hash key)) = (Z.of_nat i, None) ∨
   found false key (ch (hash key)) = (ERRNOKEY, None) ∧ i = length (ch (hash key))) →
  (if bool_decide (0 ≤ (found false key (ch (hash key))).1) then
     sprintf (entry_file dir (hash key) (found false key (ch (hash key))).1)
   else fuel ← gets chain_fuel; chain_end_loop fuel (KVStore dir) (hash key) 0) w
  = Ret (entry_file dir (hash key) (Z.of_nat i), w).
Proof.
  intros Hok Hff Hfound. pose proof (hash_pos key) as Hhv.
  pose proof (chain_length _ _ _ _ Hok Hhv Hff) as Hlen. unfold few_files in Hff.
  destruct (found_cases false key (ch (hash key))) as [(j & v & Hj & _ & E')|(_ & _ & E')];
    rewrite E' in *; cbn [fst].
  - destruct Hfound as [E|[E _]]; injection E as E; [|unfold ERRNOKEY in E; lia].
    apply lookup_lt_Some in Hj. rewrite bool_decide_eq_true_2, E by lia.
    apply sprintf_run, entry_file_length; [done|unfold is_pos; lia|apply (so_len _ _ _ Hok)].
  - destruct Hfound as [E|[_ ->]]; [injection E as E; unfold ERRNOKEY in E; lia|].
    rewrite bool_decide_eq_false_2 by (unfold ERRNOKEY; lia).
    rewrite (bind_Ret _ _ _ (chain_fuel w) w) by done.
    apply (chain_end_loop_run _ w dir ch (hash key) 0); try done; lia.
Qed.

Lemma kvstore_put_run w dir m key value :
  store_at w dir m → size_ok key value →
  ∃ w', kvstore_put (KVStore dir) key value w = Ret (0, w') ∧
    kv_repr w' dir (<[key := value]> m) ∧ mem_ok w' ∧ w_brk w ≤ w_brk w' ∧
    (chain_fuel w' ≤ S (chain_fuel w))%nat ∧ other_files w w' dir.
Proof.
  intros [(ch & Hok & Hm) Hmem Hb Hff] Hsz. pose proof Hsz as (_ & _ & Hkl & Hvl).
  unfold kvstore_put. pose proof (hash_pos key) as Hhv.
  rewrite (bind_Ret _ _ _ _ _ (put_check_run w dir ch key value Hok Hkl Hvl)).
  rewrite bool_decide_eq_false_2 by lia.
  destruct (find_entry_run w dir ch key false Hok Hmem Hff Hb Hkl) as (w1 & Hr & Hs & Hb').
  run_step Hr. unfold kvstore_put_locked.
  destruct (put_chain_ok _ key value _ (so_chain _ _ _ Hok _ Hhv) eq_refl Hsz)
    as (i & l' & Hlk & Hl' & Hmap & Hfound).
  pose proof (store_ok_same_fs _ _ _ _ Hs Hok) as Hok1.
  pose proof (few_files_same_fs _ _ Hs Hff) as Hff1.
  rewrite (bind_Ret _ _ _ _ _ (put_filename_run w1 dir ch key i Hok1 Hff1 Hfound)).
  destruct (write_entry_run w1 dir ch (hash key) (Z.of_nat i) key value Hok1) as (w2 & Hr2 & Hs2 & Hb2);
    [by apply Hs|lia|].
  exists w2. split_and!; [exact Hr2| |by apply Hs2|lia| |].
  - eapply kv_repr_same_fs; [exact Hs2|]. exists (set_chain ch (hash key) l').
    split; [by apply store_ok_write|by apply map_update].
  - destruct Hs as (Hsf & Hsd & _), Hs2 as (Hf2 & Hd2 & _). unfold chain_fuel.
    rewrite Hf2, Hd2. cbn [w_files w_dirs set_files]. rewrite Hsf, Hsd, map_size_insert.
    destruct (w_files w !! _); simpl; lia.
  - eapply other_files_trans; [by apply same_fs_other|].
    eapply other_files_trans; [|by apply same_fs_other]. split_and!; [done..|].
    intros p Hp. cbn. apply lookup_insert_ne. intros Heq. apply (Hp (hash key) (Z.of_nat i)); [lia|done].
Qed.

(** Deleting position [i] of a chain: the last entry takes its place. *)
Definition swap_out (i : nat) (y : string * string) (l : chain) : chain :=
  take (length l - 1) (<[i := y]> l).

Lemma swap_out_lookup (l : chain) i y j :
  (i < length l)%nat →
  swap_out i y l !! j =
    if decide (j = (length l - 1)%nat) then None
    else if decide (i = j) then Some y else l !! j.
Proof.
  intros Hi. unfold swap_out. destruct (decide (j = (length l - 1)%nat)) as [->|Hne].
  { by apply lookup_take_ge. }
  destruct (decide (j < length l - 1)%nat) as [Hlt|Hge].
  - rewrite lookup_take_lt by done. case_decide; [subst; by apply list_lookup_insert_eq|].
    by apply list_lookup_insert_ne.
  - rewrite lookup_take_ge by lia. rewrite decide_False by lia. symmetry. apply lookup_ge_None_2. lia.
Qed.

Lemma swap_out_perm (l : chain) i x y :
  l !! i = Some x → l !! (length l - 1)%nat = Some y → l ≡ₚ x :: swap_out i y l.
Proof.
  intros Hi Hy. etrans; [exact (delete_Permutation _ _ _ Hi)|]. constructor.
  pose proof (lookup_lt_Some _ _ _ Hi) as Hlt. apply (Permutation_cons_inv (a:=y)).
  assert (<[i := y]> l ≡ₚ y :: delete i l) as Hp.
  { etrans; [apply (delete_Permutation _ i y); by apply list_lookup_insert_eq|].
    apply Permutation_refl'. f_equal. by rewrite !delete_take_drop, take_insert_ge, drop_insert_lt by lia. }
  rewrite <- Hp. unfold swap_out.
  assert (length (<[i := y]> l) = length l) as Hlen by apply length_insert.
  assert (<[i := y]> l !! (length l - 1)%nat = Some y) as Hlast.
  { destruct (decide (i = (length l - 1)%nat)) as [->|Hne].
    - apply list_lookup_insert_eq. lia.
    - by rewrite list_lookup_insert_ne. }
  clear Hp. revert Hlen Hlast. generalize (<[i := y]> l). intros l2 Hlen Hlast.
  rewrite Permutation_cons_append, <- (take_S_r l2 _ y Hlast).
  by rewrite take_ge by lia.
Qed.

Lemma swap_out_ok hv (l : chain) i key v y :
  chain_ok hv l → l !! i = Some (key, v) → l !! (length l - 1)%nat = Some y →
  chain_ok hv (swap_out i y l) ∧
  list_to_map (swap_out i y l) = delete key (list_to_map l : gmap string string).
Proof.
  intros [Hnd Hall] Hi Hy. pose proof (swap_out_perm l i _ y Hi Hy) as Hp.
  pose proof Hnd as Hnd'. rewrite Hp, fmap_cons, NoDup_cons in Hnd'. destruct Hnd' as [Hk Hnd'].
  split.
  - split; [done|]. rewrite Hp in Hall. by apply Forall_cons in Hall as [_ ?].
  - rewrite (list_to_map_proper _ _ Hnd Hp). cbn. rewrite delete_insert_id; [done|].
    by apply not_elem_of_list_to_map_1.
Qed.

(** The two file operations that realise it. *)
Lemma del_files w dir ch hv i x y :
  store_ok w dir ch → is_pos hv → ch hv !! i = Some x → ch hv !! (length (ch hv) - 1)%nat = Some y →
  chain_ok hv (swap_out i y (ch hv)) →
  let f j := entry_file dir hv (Z.of_nat j) in
  let last := f (length (ch hv) - 1)%nat in
  store_ok (set_files (if decide (i = (length (ch hv) - 1)%nat) then delete last (w_files w)
                       else <[f i := enc y]> (delete last (w_files w))) w)
    dir (set_chain ch hv (swap_out i y (ch hv))).
Proof.
  intros Hok Hhv Hi Hy Hc f last. pose proof (lookup_lt_Some _ _ _ Hi) as Hlt.
  assert (∀ a b, f a = f b → a = b) as Hinj by (intros a b; by apply entry_file_nat_inj).
  apply store_ok_update; try done.
  - intros j. fold (f j). rewrite swap_out_lookup by done.
    assert (w_files w !! f j = enc <$> ch hv !! j) as Hf by by apply (so_files _ _ _ Hok).
    destruct (decide (j = (length (ch hv) - 1)%nat)) as [->|Hne].
    + fold last. case_decide as E; [by rewrite lookup_delete_eq|].
      rewrite lookup_insert_ne, lookup_delete_eq; [done|]. intros Heq. by apply E, Hinj.
    + assert (last ≠ f j) by (intros Heq; by apply Hne; symmetry; apply Hinj).
      case_decide as E.
      * rewrite lookup_delete_ne by done. rewrite decide_False by congruence. done.
      * case_decide as E'; [subst; by rewrite lookup_insert_eq|].
        rewrite lookup_insert_ne, lookup_delete_ne; [done|done|]. intros Heq. by apply E', Hinj.
  - intros p Hp. assert (∀ j, p ≠ f j) as Hp' by exact Hp.
    case_decide; rewrite ?lookup_insert_ne, lookup_delete_ne; try done; apply not_eq_sym; apply Hp'.
Qed.

Lemma remove_entry_run w dir ch hv i x :
  store_ok w dir ch → is_pos hv → ch hv !! i = Some x →
  remove (entry_file dir hv (Z.of_nat i)) w =
    Ret (0, set_files (delete (entry_file dir hv (Z.of_nat i)) (w_files w)) w).
Proof.
  intros Hok Hhv Hi. unfold remove, denied.
  rewrite bool_decide_eq_false_2 by apply (so_granted _ _ _ Hok).
  by rewrite (so_files _ _ _ Hok), Hi by done.
Qed.

Lemma rename_entry_run w dir ch hv i j x :
  store_ok w dir ch → is_pos hv → ch hv !! j = Some x →
  rename_file (entry_file dir hv (Z.of_nat j)) (entry_file dir hv (Z.of_nat i)) w =
    Ret (0, set_files (<[entry_file dir hv (Z.of_nat i) := enc x]>
                        (delete (entry_file dir hv (Z.of_nat j)) (w_files w))) w).
Proof.
  intros Hok Hhv Hi. unfold rename_file, denied.
  rewrite !bool_decide_eq_false_2 by apply (so_granted _ _ _ Hok).
  by rewrite (so_files _ _ _ Hok), Hi by done.
Qed.

Lemma del_locked_run w dir ch key i x y :
  let l := ch (hash key) in
  store_ok w dir ch → few_files w → l !! i = Some x → l !! (length l - 1)%nat = Some y →
  let f j := entry_file dir (hash key) (Z.of_nat j) in
  let last := f (length l - 1)%nat in
  kvstore_del_locked (KVStore dir) key (Z.of_nat i) w =
    Ret (0, set_files (if decide (i = (length l - 1)%nat) then delete last (w_files w)
                       else <[f i := enc y]> (delete last (w_files w))) w).
Proof.
  intros l Hok Hff Hi Hy f last. pose proof (hash_pos key) as Hhv.
  pose proof (chain_length _ _ _ _ Hok Hhv Hff) as Hlen. pose proof Hff as Hff'.
  unfold few_files in Hff'. fold l in Hlen. pose proof (lookup_lt_Some _ _ _ Hi) as Hlt.
  assert (∀ j, (j ≤ length l)%nat → strlen (f j) < MAX_FILENAME) as Hname.
  { intros j Hj. apply entry_file_length; [done|unfold is_pos; lia|apply (so_len _ _ _ Hok)]. }
  unfold kvstore_del_locked. cbn [st_dirname].
  rewrite (bind_Ret _ _ _ _ _ (sprintf_run (f i) w (Hname i ltac:(lia)))).
  rewrite (bind_Ret _ _ _ (chain_fuel w) w) by done.
  assert (u32 (Z.of_nat i + 1) = Z.of_nat (S i)) as -> by (rewrite uwrap_id; lia).
  rewrite (bind_Ret _ _ _ _ _ (del_loop_run (chain_fuel w) w dir ch (hash key) (S i) Hok Hff Hhv
    ltac:(fold l; lia) ltac:(fold l; lia))). fold l.
  destruct (decide (i = (length l - 1)%nat)) as [E|E].
  - rewrite bool_decide_eq_true_2 by lia. unfold f, last. rewrite <- E.
    by eapply remove_entry_run.
  - rewrite bool_decide_eq_false_2 by lia.
    assert (u32 (Z.of_nat (length l) - 1) = Z.of_nat (length l - 1)) as -> by (rewrite uwrap_id; lia).
    rewrite (bind_Ret _ _ _ _ _ (sprintf_run last w (Hname (length l - 1)%nat ltac:(lia)))).
    by apply rename_entry_run with (ch := ch).
Qed.

Lemma size_delete_le (m : gmap string (list ascii)) b : (size (delete b m) ≤ size m)%nat.
Proof. rewrite map_size_delete. destruct (m !! b); unfold id; lia. Qed.

Lemma size_move_le (m : gmap string (list ascii)) a b z :
  is_Some (m !! b) → (size (<[a := z]> (delete b m)) ≤ size m)%nat.
Proof.
  intros [x Hx]. rewrite map_size_insert, map_size_delete, Hx.
  assert (size m ≠ 0%nat) by (intros E; apply map_size_empty_inv in E; by rewrite E, lookup_empty in Hx).
  destruct (delete b m !! a); unfold id; lia.
Qed.

Lemma kvstore_del_run w dir m key :
  store_at w dir m → strlen key ≤ MAX_KEYLEN →
  ∃ w', kvstore_del (KVStore dir) key w =
      Ret (if decide (is_Some (m !! key)) then 0 else ERRNOKEY, w') ∧
    kv_repr w' dir (delete key m) ∧ mem_ok w' ∧ w_brk w ≤ w_brk w' ∧
    (chain_fuel w' ≤ chain_fuel w)%nat ∧ other_files w w' dir.
Proof.
  intros Hat Hkl. pose proof Hat as [(ch & Hok & Hm) Hmem Hb Hff].
  destruct (find_entry_run w dir ch key false Hok Hmem Hff Hb Hkl) as (w1 & Hr & Hs & Hb').
  unfold kvstore_del. run_step Hr. pose proof (hash_pos key) as Hhv.
  pose proof (store_ok_same_fs _ _ _ _ Hs Hok) as Hok1.
  pose proof (few_files_same_fs _ _ Hs Hff) as Hff1.
  destruct (found_cases false key (ch (hash key))) as [(i & v & Hi & Hk & ->)|(Hnk & Hk & ->)];
    cbn [fst]; rewrite Hm, Hk.
  - rewrite decide_True by eauto. rewrite bool_decide_eq_false_2 by lia.
    destruct (lookup_lt_is_Some_2 (ch (hash key)) (length (ch (hash key)) - 1)) as [y Hy].
    { apply lookup_lt_Some in Hi. lia. }
    destruct (swap_out_ok _ _ i key v y (so_chain _ _ _ Hok _ Hhv) Hi Hy) as [Hc Hmap].
    pose proof (del_files w1 dir ch (hash key) i _ y Hok1 Hhv Hi Hy Hc) as Hok2.
    rewrite (del_locked_run w1 dir ch key i _ y Hok1 Hff1 Hi Hy). eexists. split_and!; [done| |by apply Hs|cbn; lia| |].
    + exists (set_chain ch (hash key) (swap_out i y (ch (hash key)))). split; [exact Hok2|].
      by apply map_update.
    + assert (chain_fuel w1 = chain_fuel w) as <-.
      { destruct Hs as (Hsf & Hsd & _). unfold chain_fuel. by rewrite Hsf, Hsd. }
      unfold chain_fuel in *. cbn [w_files w_dirs set_files].
      assert (is_Some (w_files w1 !! entry_file dir (hash key) (Z.of_nat (length (ch (hash key)) - 1))))
          as Hlast by (rewrite (so_files _ _ _ Hok1), Hy by done; eauto).
      pose proof (size_delete_le (w_files w1) (entry_file dir (hash key)
          (Z.of_nat (length (ch (hash key)) - 1)))).
      pose proof (size_move_le (w_files w1) (entry_file dir (hash key) (Z.of_nat i)) _ (enc y) Hlast).
      case_decide; lia.
    + eapply other_files_trans; [by apply same_fs_other|]. split_and!; [done..|].
      intros p Hp. cbn. case_decide; rewrite ?lookup_insert_ne, lookup_delete_ne; try done;
        apply not_eq_sym; apply Hp; lia.
  - rewrite decide_False by (by intros [? ?]). exists w1. rewrite delete_id by (by rewrite Hm).
    split_and!; [done|by apply (kv_repr_same_fs w w1), Hat|by apply Hs|lia| |by apply same_fs_other].
    destruct Hs as (Hsf & Hsd & _). unfold chain_fuel. by rewrite Hsf, Hsd.
Qed.
