(* ===== verification/KvStoreSpec.v ===== *)
(** * KvStoreSpec: what the persistent store promises

    Sessions of operations on one store against a finite map, the error answers,
    reopening and cleaning, and what the split critical sections of [kvstore_put]
    and [kvstore_del] allow when two calls overlap.

    The sessions assume [mem_ok]: no allocation fails.  Without it the store does not
    answer as the map does: [find_entry] then fails with a positive code that
    [kvstore_get] takes for the number of an entry, as [get_reports_oom_as_success]
    shows.  They also assume fewer than 2^31 files, so that the number of an entry is an
    [int]. *)

From S2P Require Import Prelude Links KvWorld KvStore KvStoreFacts.

(** ** Sessions *)

Inductive st_op :=
| StGet (key : string)
| StPut (key value : string)
| StDel (key : string)
| StHas (key : string).

Definition st_exec (store : kvstore) (op : st_op) : M world (Z * option string) :=
  match op with
  | StGet key => kvstore_get store key
  | StPut key value => r ← kvstore_put store key value; mret (r, None)
  | StDel key => r ← kvstore_del store key; mret (r, None)
  | StHas key => r ← kvstore_haskey store key; mret (if (r : bool) then 1 else 0, None)
  end.

Definition st_spec (op : st_op) (m : gmap string string) : (Z * option string) * gmap string string :=
  match op with
  | StGet key => (match m !! key with Some v => (0, Some v) | None => (ERRNOKEY, None) end, m)
  | StPut key value => ((0, None), <[key := value]> m)
  | StDel key => ((if decide (is_Some (m !! key)) then 0 else ERRNOKEY, None), delete key m)
  | StHas key => ((if bool_decide (is_Some (m !! key)) then 1 else 0, None), m)
  end.

Definition st_op_ok (op : st_op) : Prop :=
  match op with
  | StGet key | StDel key | StHas key => strlen key ≤ MAX_KEYLEN
  | StPut key value => size_ok key value
  end.

Fixpoint st_exec_all (store : kvstore) (ops : list st_op) : M world (list (Z * option string)) :=
  match ops with
  | [] => mret []
  | op :: ops => r ← st_exec store op; rs ← st_exec_all store ops; mret (r :: rs)
  end.

Fixpoint st_spec_all (ops : list st_op) (m : gmap string string) :
    list (Z * option string) * gmap string string :=
  match ops with
  | [] => ([], m)
  | op :: ops =>
    let '(r, m1) := st_spec op m in let '(rs, m2) := st_spec_all ops m1 in (r :: rs, m2)
  end.

(** As [store_at], with room for [n] more files. *)
Record store_room (w : world) (dir : string) (m : gmap string string) (n : nat) : Prop := {
  sr_repr : kv_repr w dir m;
  sr_mem : mem_ok w;
  sr_brk : 0 < w_brk w;
  sr_few : Z.of_nat (chain_fuel w + n) < 2 ^ 31
}.

Lemma store_room_at w dir m n : store_room w dir m n → store_at w dir m.
Proof. intros [? ? ? H]. split; try done. unfold few_files. lia. Qed.

Lemma st_exec_run op w dir m n :
  store_room w dir m (S n) → st_op_ok op →
  ∃ w', st_exec (KVStore dir) op w = Ret ((st_spec op m).1, w') ∧
    store_room w' dir (st_spec op m).2 n ∧ other_files w w' dir.
Proof.
  intros Hroom Hop. pose proof (store_room_at _ _ _ _ Hroom) as Hat.
  destruct Hroom as [Hr Hm Hb Hf].
  assert (∀ w', same_fs w w' → w_brk w ≤ w_brk w' → store_room w' dir m n) as Hsame.
  { intros w' Hs Hbw. split; [by eapply kv_repr_same_fs|by apply Hs|lia|].
    destruct Hs as (Hsf & Hsd & _). unfold chain_fuel in *. rewrite Hsf, Hsd. lia. }
  destruct op as [key|key value|key|key]; cbn [st_exec st_spec st_op_ok fst snd] in *.
  - destruct (kvstore_get_run w dir m key Hat Hop) as (w' & E & Hs & Hbw). exists w'.
    split_and!; [done|by apply Hsame|by apply same_fs_other].
  - destruct (kvstore_put_run w dir m key value Hat Hop) as (w' & E & Hr' & Hm' & Hbw & Hfu & Ho).
    exists w'. run_step E. split_and!; [done| |done]. split; try done; lia.
  - destruct (kvstore_del_run w dir m key Hat Hop) as (w' & E & Hr' & Hm' & Hbw & Hfu & Ho).
    exists w'. run_step E. split_and!; [done| |done]. split; try done; lia.
  - destruct (kvstore_haskey_run w dir m key Hat Hop) as (w' & E & Hs & Hbw). exists w'. run_step E.
    split_and!; [done|by apply Hsame|by apply same_fs_other].
Qed.

Lemma st_exec_all_run ops w dir m :
  store_room w dir m (length ops) → Forall st_op_ok ops →
  ∃ w', st_exec_all (KVStore dir) ops w = Ret ((st_spec_all ops m).1, w') ∧
    store_room w' dir (st_spec_all ops m).2 0 ∧ other_files w w' dir.
Proof.
  revert w m. induction ops as [|op ops IH]; intros w m Hroom Hops.
  { exists w. by split_and!. }
  apply Forall_cons in Hops as [Hop Hops]. cbn [length] in Hroom.
  destruct (st_exec_run op w dir m _ Hroom Hop) as (w1 & E1 & Hroom1 & Ho1).
  cbn [st_exec_all st_spec_all]. run_step E1. destruct (st_spec op m) as [r m1]. cbn [fst snd] in *.
  destruct (IH w1 m1 Hroom1 Hops) as (w2 & E2 & Hroom2 & Ho2). run_step E2.
  destruct (st_spec_all ops m1) as [rs m2]. exists w2. split_and!; try done.
  by eapply other_files_trans.
Qed.

(** ** Opening a store *)

(** A directory name that the entry files of no other path clash with. *)
Record fresh_dir (w : world) (dir : string) : Prop := {
  fd_len : strlen dir ≤ 960;
  fd_new : dir ∉ w_dirs w ∧ w_files w !! dir = None;
  fd_allowed : dir ∉ w_denied w ∧ ∀ hv i, entry_file dir hv i ∉ w_denied w;
  fd_empty : ∀ hv i, w_files w !! entry_file dir hv i = None ∧ entry_file dir hv i ∉ w_dirs w
}.

Lemma entry_file_ne_dir dir hv i : entry_file dir hv i ≠ dir.
Proof.
  intros Heq. apply (f_equal strlen) in Heq. unfold entry_file in Heq. rewrite !strlen_app in Heq.
  change (strlen "/") with 1 in Heq. unfold strlen in Heq. lia.
Qed.

Lemma kvstore_init_new w dir :
  fresh_dir w dir →
  ∃ w', kvstore_init dir w = Ret ((0, Some (KVStore dir)), w') ∧ kv_repr w' dir ∅ ∧
    w' = set_dirs ({[dir]} ∪ w_dirs w) w.
Proof.
  intros [Hl [Hn1 Hn2] [Ha1 Ha2] He]. exists (set_dirs ({[dir]} ∪ w_dirs w) w). split_and!; [| |done].
  - unfold kvstore_init, stat_ok.
    rewrite (bind_Ret _ _ _ false w).
    2:{ unfold gets. rewrite Hn2, !bool_decide_eq_false_2; [done|by intros [? ?]|done]. }
    cbn [negb]. rewrite (bind_Ret _ _ _ 0 (set_dirs ({[dir]} ∪ w_dirs w) w)).
    2:{ unfold mkdir, denied. by rewrite bool_decide_eq_false_2. }
    rewrite bool_decide_eq_false_2 by tauto.
    rewrite bool_decide_eq_true_2 by (unfold MAX_FILENAME; lia). done.
  - exists (λ _, []). split; [|done]. split; cbn [w_dirs w_files w_denied set_dirs]; try done.
    + apply elem_of_union_l, elem_of_singleton. done.
    + intros hv i _. by destruct (He hv (Z.of_nat i)) as [-> _].
    + intros hv i [Hi%elem_of_singleton|Hi]%elem_of_union; [by eapply entry_file_ne_dir|].
      by destruct (He hv i) as [_ ?].
    + intros hv _. split; constructor.
Qed.

Lemma kvstore_init_again w dir m :
  kv_repr w dir m → kvstore_init dir w = Ret ((0, Some (KVStore dir)), w).
Proof.
  intros (ch & Hok & _). unfold kvstore_init.
  rewrite (bind_Ret _ _ _ _ _ (stat_dir w dir ch Hok)). cbn [negb]. rewrite ret_bind.
  rewrite bool_decide_eq_false_2 by tauto. pose proof (so_len _ _ _ Hok).
  by rewrite bool_decide_eq_true_2 by (unfold MAX_FILENAME; lia).
Qed.

(** ** Cleaning *)

Definition without (fs : list string) (m : gmap string (list ascii)) : gmap string (list ascii) :=
  filter (λ kv, kv.1 ∉ fs) m.

Lemma clean_loop_run fs w :
  Forall (λ f, strlen f < MAX_FILENAME ∧ f ∉ w_denied w ∧ f ∉ w_dirs w) fs →
  clean_loop fs w = Ret (tt, set_files (without fs (w_files w)) w).
Proof.
  revert w. induction fs as [|f fs IH]; intros w Hfs.
  - cbn [clean_loop]. unfold without. rewrite map_filter_id by (intros; apply not_elem_of_nil).
    by destruct w.
  - apply Forall_cons in Hfs as [(Hl & Hd & Hn) Hfs]. cbn [clean_loop].
    rewrite (bind_Ret _ _ _ _ _ (sprintf_run f w Hl)).
    assert (remove f w = Ret (if w_files w !! f then 0 else ENOENT, set_files (delete f (w_files w)) w))
      as Hr.
    { unfold remove, denied. rewrite !bool_decide_eq_false_2 by done.
      destruct (w_files w !! f) eqn:E; [done|]. rewrite delete_id by done. by destruct w. }
    rewrite (bind_Ret _ _ _ _ _ Hr), IH by done. do 2 f_equal. unfold set_files, without.
    cbn [w_files w_dirs w_denied w_mallocs w_brk]. f_equal. apply map_eq. intros p.
    apply option_eq. intros b. rewrite !map_lookup_filter_Some, lookup_delete_Some. cbn [fst].
    rewrite not_elem_of_cons. naive_solver.
Qed.

Lemma strip_app pre s : strip pre (pre +:+ s) = Some s.
Proof.
  induction pre as [|c pre IH]; [done|]. change (String c pre +:+ s) with (String c (pre +:+ s)).
  cbn [strip]. by rewrite bool_decide_eq_true_2.
Qed.

Lemma strip_Some pre p s : strip pre p = Some s → p = pre +:+ s.
Proof.
  revert p. induction pre as [|c pre IH]; intros [|d p] H; cbn [strip] in H; simplify_eq; try done.
  case_bool_decide; [|done]. subst. by rewrite (IH p H).
Qed.

Lemma below_iff dir p : below dir p = true ↔ ∃ s, p = dir +:+ "/" +:+ s.
Proof.
  unfold below. rewrite bool_decide_eq_true. split.
  - intros [s Hs%strip_Some]. exists s. by rewrite Hs, <- string_app_assoc.
  - intros [s ->]. rewrite string_app_assoc, strip_app. eauto.
Qed.

Lemma elem_of_paths p w : p ∈ paths w ↔ is_Some (w_files w !! p) ∨ p ∈ w_dirs w.
Proof. unfold paths. by rewrite elem_of_app, !elem_of_elements, elem_of_dom. Qed.

Lemma readdir_below dir w p : p ∈ readdir dir w → below dir p = true.
Proof.
  unfold readdir. intros [Hp|Hp]%elem_of_app.
  - apply below_iff. repeat (apply elem_of_cons in Hp as [->|Hp]; [by eexists|]).
    by apply elem_of_nil in Hp.
  - apply list_elem_of_filter in Hp as [Hc _]. unfold child_of, below in *.
    destruct (strip _ p); [|done]. apply bool_decide_eq_true_2. eauto.
Qed.

Lemma readdir_length dir w p :
  p ∈ readdir dir w → strlen p ≤ strlen dir + 3 ∨ is_Some (w_files w !! p) ∨ p ∈ w_dirs w.
Proof.
  unfold readdir. intros [Hp|Hp]%elem_of_app.
  - left. apply elem_of_cons in Hp as [->|Hp].
    { rewrite strlen_app. change (strlen "/.") with 2. lia. }
    apply list_elem_of_singleton in Hp as ->. rewrite strlen_app. change (strlen "/..") with 3. lia.
  - right. apply list_elem_of_filter in Hp as [_ Hp]. by apply elem_of_paths in Hp.
Qed.

Lemma readdir_without dir w p :
  (∀ p, below dir p = true → is_Some (w_files w !! p) → child_of dir p = true) →
  without (readdir dir w) (w_files w) !! p = if below dir p then None else w_files w !! p.
Proof.
  intros Hc. apply option_eq. intros b. unfold without. rewrite map_lookup_filter_Some. cbn [fst].
  destruct (below dir p) eqn:E.
  - split; [|done]. intros [Hp Hn]. exfalso. apply Hn. apply elem_of_app. right.
    apply list_elem_of_filter. split; [by apply Hc; eauto|]. apply elem_of_paths. eauto.
  - split; [by intros [? _]|]. intros Hp. split; [done|].
    intros Hin%readdir_below. congruence.
Qed.

(** ** Properties *)

(** C4: the store is a map, as long as no allocation fails.  On a platform where every
    [malloc] succeeds and fewer than 2^31 files can come to exist, any sequence of gets, puts,
    deletes and membership tests with keys and values of legal size runs without crashing,
    answers what the finite map answers, leaves a directory that holds the resulting map,
    and touches no file that is not an entry of the store. *)
Theorem store_session_refines ops w dir m :
  kv_repr w dir m → mem_ok w → 0 < w_brk w → Z.of_nat (chain_fuel w + length ops) < 2 ^ 31 → Forall st_op_ok ops →
  ∃ w', st_exec_all (KVStore dir) ops w = Ret ((st_spec_all ops m).1, w') ∧
    kv_repr w' dir (st_spec_all ops m).2 ∧ other_files w w' dir.
Proof.
  intros Hk Hm Hb Hf Hops. destruct (st_exec_all_run ops w dir m) as (w' & E & [Hk' _ _ _] & Ho); [by split|done|].
  by exists w'.
Qed.

(** An empty platform, and one with an empty store. *)
Definition w_empty : world := World ∅ ∅ ∅ [] 100.
Definition w_store : world := World ∅ {["d"]} ∅ [] 100.

Lemma w_store_room n : Z.of_nat n < 2 ^ 30 → store_room w_store "d" ∅ n.
Proof.
  intros Hn. split; [|done|done|].
  - destruct (kvstore_init_new w_empty "d") as (w' & _ & Hr & ->).
    + split; [by vm_compute|done|split; [done|intros; apply not_elem_of_empty]|done].
    + exact Hr.
  - change (chain_fuel w_store) with 2%nat. lia.
Qed.

(** ["aB"] and ["b!"] have the same hash. *)
Lemma store_session_refines_witness :
  ∃ w', st_exec_all (KVStore "d")
      [StPut "aB" "1"; StPut "b!" "2"; StPut "aB" "3"; StDel "aB"; StGet "b!"; StGet "aB"] w_store
    = Ret ([(0, None); (0, None); (0, None); (0, None); (0, Some "2"); (ERRNOKEY, None)], w').
Proof.
  destruct (store_session_refines
    [StPut "aB" "1"; StPut "b!" "2"; StPut "aB" "3"; StDel "aB"; StGet "b!"; StGet "aB"]
    w_store "d" ∅) as (w' & Hr & _).
  - apply (w_store_room 0). reflexivity.
  - reflexivity.
  - reflexivity.
  - reflexivity.
  - repeat constructor; vm_compute; done.
  - exists w'. exact Hr.
Defined.

(** C38: the store persists.  Initialising a store on a directory that already holds the map
    [m] succeeds and changes nothing, and as long as no allocation fails a get through the
    store it returns answers from [m] (for a key of legal size and with fewer than 2^31
    files); on a new directory that it may create, of at most 960 characters, it succeeds, creates the directory
    and nothing else, and the store it returns is empty. *)
Theorem store_init_persists w dir m :
  (kv_repr w dir m →
   ∃ st, kvstore_init dir w = Ret ((0, Some st), w) ∧
     (mem_ok w → 0 < w_brk w → few_files w → ∀ key, strlen key ≤ MAX_KEYLEN →
      ∃ w', kvstore_get st key w = Ret (match m !! key with Some v => (0, Some v) | None => (ERRNOKEY, None) end, w') ∧ same_fs w w')) ∧
  (fresh_dir w dir →
   ∃ st, kvstore_init dir w = Ret ((0, Some st), set_dirs ({[dir]} ∪ w_dirs w) w) ∧
     st_dirname st = dir ∧ kv_repr (set_dirs ({[dir]} ∪ w_dirs w) w) (st_dirname st) ∅).
Proof.
  split.
  - intros Hr. exists (KVStore dir). split; [by apply (kvstore_init_again w dir m)|]. intros Hm Hb Hf key Hk.
    destruct (kvstore_get_run w dir m key) as (w' & E & Hs & _); [by split|done|]. by exists w'.
  - intros Hf. destruct (kvstore_init_new w dir Hf) as (w' & ? & ? & ->). by exists (KVStore dir).
Qed.

Lemma store_init_persists_witness :
  (∃ st, kvstore_init "d" w_store = Ret ((0, Some st), w_store) ∧ ∃ w', kvstore_get st "k" w_store = Ret ((ERRNOKEY, None), w')) ∧
  ∃ st, kvstore_init "d" w_empty = Ret ((0, Some st), set_dirs ({["d"]} ∪ ∅) w_empty) ∧ st_dirname st = "d".
Proof.
  split.
  - destruct (store_init_persists w_store "d" ∅) as [H _]. destruct H as (st & E & Hg); [apply (w_store_room 0); reflexivity|].
    exists st. split; [exact E|]. destruct (Hg eq_refl eq_refl eq_refl "k") as (w' & Eg & _); [by vm_compute|].
    exists w'. exact Eg.
  - destruct (store_init_persists w_empty "d" ∅) as [_ H].
    destruct H as (st & E & Hd & _); [|exists st; split; [exact E|exact Hd]].
    split; [by vm_compute|done|split; [done|intros; apply not_elem_of_empty]|done].
Defined.

(** Arguments of illegal size are refused and nothing is written: a key over
    [MAX_KEYLEN] by every operation with [ERRKEYLEN], a value over [MAX_VALLEN] by
    [kvstore_put] with [ERRVALLEN], and every operation on a missing directory with
    [ERRFILACCESS]. *)
Theorem store_refuses store key value w :
  (strlen key > MAX_KEYLEN →
   kvstore_get store key w = Ret ((ERRKEYLEN, None), w) ∧
   kvstore_put store key value w = Ret (ERRKEYLEN, w) ∧
   kvstore_del store key w = Ret (ERRKEYLEN, w) ∧
   kvstore_del_check store key w = Ret (ERRKEYLEN, w)) ∧
  (strlen key ≤ MAX_KEYLEN → strlen value > MAX_VALLEN →
   kvstore_put store key value w = Ret (ERRVALLEN, w)) ∧
  (strlen key ≤ MAX_KEYLEN → strlen value ≤ MAX_VALLEN →
   st_dirname store ∉ w_dirs w → w_files w !! st_dirname store = None →
   kvstore_get store key w = Ret ((ERRFILACCESS, None), w) ∧
   kvstore_put store key value w = Ret (ERRFILACCESS, w) ∧
   kvstore_del store key w = Ret (ERRFILACCESS, w)).
Proof.
  unfold kvstore_get, kvstore_put, kvstore_put_check, kvstore_del, kvstore_del_check, find_entry.
  split_and!.
  - intros Hk. by rewrite !bool_decide_eq_true_2 by done.
  - intros Hk Hv. rewrite bool_decide_eq_false_2 by lia. by rewrite bool_decide_eq_true_2 by done.
  - intros Hk Hv Hd Hf. rewrite !bool_decide_eq_false_2 by lia.
    assert (stat_ok (st_dirname store) w = Ret (false, w)) as Hst.
    { unfold stat_ok, gets. rewrite Hf, !bool_decide_eq_false_2; [done|by intros [? ?]|done]. }
    unfold mbind, M_bind. by rewrite Hst.
Qed.

Fixpoint repeat_char (n : nat) (c : ascii) : string :=
  match n with O => EmptyString | S n => String c (repeat_char n c) end.

Lemma store_refuses_witness :
  kvstore_put (KVStore "d") (repeat_char 1025 "a") "v" w_store = Ret (ERRKEYLEN, w_store) ∧
  kvstore_put (KVStore "d") "k" (repeat_char 1025 "a") w_store = Ret (ERRVALLEN, w_store) ∧
  kvstore_get (KVStore "e") "k" w_store = Ret ((ERRFILACCESS, None), w_store).
Proof.
  split; [|split].
  - apply (store_refuses (KVStore "d") (repeat_char 1025 "a") "v" w_store). by vm_compute.
  - apply (store_refuses (KVStore "d") "k" (repeat_char 1025 "a") w_store); by vm_compute.
  - apply (store_refuses (KVStore "e") "k" "v" w_store); by vm_compute.
Defined.

(** [kvstore_clean] empties the store: when everything below the directory is a
    plain file the process may remove, the files and the directory are gone and all
    other files remain. *)
Theorem store_clean_empties store w :
  let dir := st_dirname store in
  dir ∈ w_dirs w → w_files w !! dir = None → dir ∉ w_denied w → strlen dir ≤ 1020 →
  (∀ p, below dir p = true →
     p ∉ w_dirs w ∧ p ∉ w_denied w ∧
     (is_Some (w_files w !! p) → child_of dir p = true ∧ strlen p < MAX_FILENAME)) →
  ∃ w', kvstore_clean store w = Ret (0, w') ∧ dir ∉ w_dirs w' ∧
    (∀ p, w_files w' !! p = if below dir p then None else w_files w !! p).
Proof.
  intros dir Hd Hfd Hnd Hlen Hb. unfold kvstore_clean. fold dir.
  rewrite (bind_Ret _ _ _ true w).
  2:{ unfold gets, denied. by rewrite bool_decide_eq_true_2, bool_decide_eq_false_2. }
  cbn [negb]. rewrite (bind_Ret _ _ _ (readdir dir w) w) by done.
  assert (Forall (λ f, strlen f < MAX_FILENAME ∧ f ∉ w_denied w ∧ f ∉ w_dirs w) (readdir dir w))
    as Hall.
  { apply Forall_forall. intros p Hp. destruct (Hb p (readdir_below _ _ _ Hp)) as (? & ? & Hf).
    split_and!; try done. apply readdir_length in Hp as [?|[?|?]]; [|by apply Hf|done].
    unfold MAX_FILENAME. lia. }
  rewrite (bind_Ret _ _ _ _ _ (clean_loop_run (readdir dir w) w Hall)).
  set (w1 := set_files _ w).
  assert (∀ p, w_files w1 !! p = if below dir p then None else w_files w !! p) as Hw1.
  { intros p. apply readdir_without. intros q Hq Hs. by apply Hb. }
  rewrite (bind_Ret _ _ _ 0 (set_dirs (w_dirs w1 ∖ {[dir]}) w1)).
  - eexists. split_and!; [done| |done]. cbn. apply not_elem_of_difference. right.
    by apply elem_of_singleton.
  - unfold remove, denied. rewrite bool_decide_eq_false_2 by done.
    rewrite Hw1, Hfd. replace (if below dir dir then None else None) with (@None (list ascii))
      by (by destruct (below dir dir)).
    rewrite bool_decide_eq_true_2 by done.
    destruct (existsb (below dir) (paths w1)) eqn:E; [exfalso|done].
    apply existsb_exists in E as (p & Hp & Hbp). apply list_elem_of_In, elem_of_paths in Hp as [Hp|Hp].
    + rewrite Hw1, Hbp in Hp. by destruct Hp.
    + by destruct (Hb p Hbp) as [? _].
Qed.

Definition w_two : world := World {["d/1-0.entry" := []; "e" := []]} {["d"]} ∅ [] 100.

Lemma store_clean_empties_witness :
  ∃ w', kvstore_clean (KVStore "d") w_two = Ret (0, w') ∧
    w_files w' !! "d/1-0.entry" = None ∧ w_files w' !! "e" = Some [].
Proof.
  destruct (store_clean_empties (KVStore "d") w_two)
    as (w' & Hr & _ & Hf); [by apply (bool_decide_unpack _); vm_compute|done
                           |apply not_elem_of_empty|by vm_compute| |].
  - intros p Hp. split; [|split; [apply not_elem_of_empty|]].
    + intros Hd. change (p ∈ ({["d"]} : gset string)) in Hd.
      apply elem_of_singleton in Hd as ->. by vm_compute in Hp.
    + intros [b Hb]. cbn [w_files w_two] in Hb. apply lookup_insert_Some in Hb as [[<- _]|[_ Hb]]; [by vm_compute|].
      apply lookup_singleton_Some in Hb as [<- _]. by vm_compute in Hp.
  - exists w'. rewrite !Hf. split; [exact Hr|split; reflexivity].
Defined.

(** Overlapping puts break the map.  Two puts of the same new key whose
    [find_entry] sections both run before either writes leave two entries for the
    key, so that deleting the key does not delete it. *)
Theorem overlapping_puts_resurrect :
  ∃ w', (let st := KVStore "d" in
     rA ← find_entry st "k" false;
     rB ← find_entry st "k" false;
     kvstore_put_locked st "k" "1" rA.1;;
     kvstore_put_locked st "k" "2" rB.1;;
     d ← kvstore_del st "k";
     g ← kvstore_get st "k";
     mret (d, g)) w_store = Ret ((0, (0, Some "2")), w').
Proof. eexists. vm_compute. reflexivity. Qed.

(** Running out of memory is reported as success.  When the copy of the value
    cannot be allocated, [find_entry] returns the positive [ENOMEM], which
    [kvstore_get] takes for a chain position: it returns 0 with no value. *)
Theorem get_reports_oom_as_success :
  ∃ w', (kvstore_put (KVStore "d") "k" "1";; kvstore_get (KVStore "d") "k")
    (World ∅ {["d"]} ∅ [true; true; false] 100) = Ret ((0, None), w').
Proof. eexists. vm_compute. reflexivity. Qed.
