(* ===== verification/TpcLogFacts.v ===== *)
(** * TpcLogFacts: the log is an append-only sequence of records

    [log_ok w dir es] says that the directory holds the records [es].  Logging
    appends, iterating reads them back in order, opening the directory again finds
    the next identifier, and clearing empties it. *)

From S2P Require Import Prelude Links KvWorld TpcLog.

(** ** Records *)

Inductive logrec :=
| LPut (key value : string)
| LDel (key : string)
| LAbort
| LCommit.

Definition rec_type (r : logrec) : msgtype_t :=
  match r with LPut _ _ => PUTREQ | LDel _ => DELREQ | LAbort => ABORT | LCommit => COMMIT end.
Definition rec_key (r : logrec) : option string :=
  match r with LPut k _ | LDel k => Some k | _ => None end.
Definition rec_value (r : logrec) : option string :=
  match r with LPut _ v => Some v | _ => None end.
Definition rec_data (r : logrec) : list ascii :=
  match r with
  | LPut k v => bytes_of k ++ NUL :: bytes_of v ++ [NUL]
  | LDel k => bytes_of k ++ [NUL]
  | _ => []
  end.
Definition rec_bytes (r : logrec) : list ascii := entry_bytes (rec_type r) (rec_data r).

(** What the iterator hands out for a record. *)
Definition rec_entry (r : logrec) : logentry :=
  LogEntry (msgtype_code (rec_type r)) (Z.of_nat (length (rec_data r))) (rec_data r).

Definition rec_ok (r : logrec) : Prop :=
  match r with
  | LPut k v => cstring k ∧ cstring v ∧ strlen k ≤ MAX_KEYLEN ∧ strlen v ≤ MAX_VALLEN
  | LDel k => cstring k ∧ strlen k ≤ MAX_KEYLEN
  | _ => True
  end.

(** Reading a record out of an entry, as a server that rebuilds its state would:
    the type, then the C strings at the start of [data] and after its first
    terminator. *)
Definition decode (e : logentry) : option logrec :=
  if bool_decide (le_type e = msgtype_code PUTREQ) then
    k ← cstr_of (le_data e);
    v ← cstr_of (drop (S (String.length k)) (le_data e));
    Some (LPut k v)
  else if bool_decide (le_type e = msgtype_code DELREQ) then LDel <$> cstr_of (le_data e)
  else if bool_decide (le_type e = msgtype_code ABORT) then Some LAbort
  else if bool_decide (le_type e = msgtype_code COMMIT) then Some LCommit
  else None.

Lemma bytes_of_length k : length (bytes_of k) = String.length k.
Proof. pose proof (length_bytes_of k). unfold strlen in *. lia. Qed.

Lemma decode_rec_entry r : rec_ok r → decode (rec_entry r) = Some r.
Proof.
  unfold decode, rec_entry. destruct r as [k v|k| |]; cbn [rec_ok le_type le_data rec_type]; try done.
  - intros (Hk & Hv & _). rewrite bool_decide_eq_true_2 by done. cbn [rec_data].
    rewrite cstr_of_app by done. cbn [mbind option_bind]. rewrite <- bytes_of_length, drop_app_cons.
    by rewrite cstr_of_app.
  - intros (Hk & _). rewrite bool_decide_eq_false_2, bool_decide_eq_true_2 by done.
    cbn [rec_data]. by rewrite cstr_of_app.
Qed.

Lemma rec_data_length r : rec_ok r → Z.of_nat (length (rec_data r)) < 2 ^ 31.
Proof.
  unfold rec_ok, MAX_KEYLEN, MAX_VALLEN, strlen. destruct r as [k v|k| |]; cbn [rec_data];
    rewrite ?length_app; cbn [length]; rewrite ?length_app, ?bytes_of_length; cbn [length]; lia.
Qed.

(** ** Representation *)

Record log_ok (w : world) (dir : string) (es : list logrec) : Prop := {
  lo_dir : dir ∈ w_dirs w;
  lo_len : strlen dir ≤ 960;
  lo_files i : w_files w !! log_file dir (Z.of_nat i) = rec_bytes <$> es !! i;
  lo_nodir i : log_file dir i ∉ w_dirs w;
  lo_granted i : log_file dir i ∉ w_denied w;
  lo_recs : Forall rec_ok es;
  lo_mem : mem_ok w;
  lo_brk : 0 < w_brk w
}.

Definition few (w : world) : Prop := Z.of_nat (chain_fuel w) < 2 ^ 62.

Lemma log_file_inj dir i j : 0 ≤ i → 0 ≤ j → log_file dir i = log_file dir j → i = j.
Proof.
  unfold log_file. intros ?? Heq. apply string_app_inj_l in Heq. apply (string_app_inj_l "/") in Heq.
  apply (digits_split _ _ "."%char) in Heq as [E1 _]; [|apply fmt_u_digits..|reflexivity].
  by apply fmt_u_inj.
Qed.

Lemma log_file_length dir i : 0 ≤ i < 2 ^ 64 → strlen dir ≤ 960 → strlen (log_file dir i) < MAX_FILENAME.
Proof.
  intros Hi Hd. unfold log_file. rewrite !strlen_app. pose proof (fmt_u_length i Hi).
  change (strlen "/") with 1. change (strlen TPCLOG_FILETYPE) with 4. unfold MAX_FILENAME. lia.
Qed.

Lemma log_ok_same_fs w w' dir es : same_fs w w' → log_ok w dir es → log_ok w' dir es.
Proof.
  intros (Hf & Hd & Hn & Hm & Hb) [H1 H2 H3 H4 H5 H6 H7 H8].
  split; rewrite ?Hf, ?Hd, ?Hn; try done. lia.
Qed.

Lemma log_length w dir es : log_ok w dir es → few w → (length es < chain_fuel w)%nat.
Proof.
  intros Hok Hsm. unfold few in Hsm. set (n := chain_fuel w) in *.
  destruct (decide (length es < n)%nat) as [|Hge]; [done|exfalso].
  set (names := (λ i, log_file dir (Z.of_nat i)) <$> seq 0 n).
  assert (NoDup names) as Hnd.
  { apply NoDup_fmap_2_strong; [|apply NoDup_seq]. intros i j _ _ Heq.
    apply log_file_inj in Heq; lia. }
  assert (length names ≤ size (w_files w))%nat as Hle.
  { rewrite <- (size_list_to_set (C:=gset string)) by done. rewrite <- size_dom.
    apply subseteq_size. intros f Hf. apply elem_of_list_to_set, list_elem_of_fmap in Hf as (i & -> & Hi).
    apply elem_of_seq in Hi. apply elem_of_dom. rewrite (lo_files _ _ _ Hok).
    destruct (lookup_lt_is_Some_2 es i) as [x ->]; [lia|]. by eexists. }
  unfold names in Hle. rewrite length_fmap, length_seq in Hle. unfold n, chain_fuel in Hle. lia.
Qed.

Lemma stat_log w dir es i :
  log_ok w dir es →
  stat_ok (log_file dir (Z.of_nat i)) w = Ret (bool_decide (i < length es)%nat, w).
Proof.
  intros Hok. unfold stat_ok, gets. do 2 f_equal.
  rewrite bool_decide_eq_false_2 by apply (lo_nodir _ _ _ Hok). cbn [orb].
  apply bool_decide_ext. rewrite (lo_files _ _ _ Hok), fmap_is_Some.
  symmetry. rewrite <- lookup_lt_is_Some. done.
Qed.

Lemma log_world_run {A} (m : M world A) lg w a w' :
  m w = Ret (a, w') → log_world m (lg, w) = Ret (a, (lg, w')).
Proof. unfold log_world. simpl. by intros ->. Qed.

(** ** Opening *)

Lemma nextid_loop_run fuel w dir es n :
  log_ok w dir es → few w → (n ≤ length es)%nat → (length es - n < fuel)%nat →
  nextid_loop fuel dir (Z.of_nat n) w = Ret (Z.of_nat (length es), w).
Proof.
  intros Hok Hff. pose proof (log_length _ _ _ Hok Hff) as Hlen. unfold few in Hff.
  revert n. induction fuel as [|fuel IH]; intros n Hn Hf; [lia|]. cbn [nextid_loop].
  rewrite (bind_Ret _ _ _ _ _ (sprintf_run (log_file dir (Z.of_nat n)) w
    ltac:(apply log_file_length; [lia|apply (lo_len _ _ _ Hok)]))).
  rewrite (bind_Ret _ _ _ _ _ (stat_log w dir es n Hok)).
  case_bool_decide as Hlt; cbn [negb].
  - rewrite uwrap_id by lia. replace (Z.of_nat n + 1) with (Z.of_nat (S n)) by lia. apply IH; lia.
  - by replace n with (length es) by lia.
Qed.

Lemma tpclog_init_run w dir es :
  log_ok w dir es → few w →
  ∃ w', tpclog_init dir w = Ret ((0, Some (TPCLog dir (Z.of_nat (length es)) 0)), w') ∧ same_fs w w'.
Proof.
  intros Hok Hff. unfold tpclog_init.
  rewrite (bind_Ret _ _ _ true w)
    by (unfold stat_ok, gets; by rewrite bool_decide_eq_true_2 by apply (lo_dir _ _ _ Hok)).
  cbn [negb]. rewrite ret_bind, bool_decide_eq_false_2 by tauto.
  destruct (malloc_run w (lo_mem _ _ _ Hok)) as (w1 & E & Hs & Hb). run_step E.
  pose proof (lo_brk _ _ _ Hok). rewrite bool_decide_eq_false_2 by (unfold NULL; lia).
  rewrite (bind_Ret _ _ _ (chain_fuel w1) w1) by done.
  assert (few w1 ∧ log_ok w1 dir es) as [Hff1 Hok1].
  { split; [|by eapply log_ok_same_fs]. destruct Hs as (Hf & Hd & _). unfold few, chain_fuel.
    by rewrite Hf, Hd. }
  pose proof (log_length _ _ _ Hok1 Hff1).
  rewrite (bind_Ret _ _ _ _ _ (nextid_loop_run (chain_fuel w1) w1 dir es 0 Hok1 Hff1
    ltac:(lia) ltac:(lia))). by exists w1.
Qed.

(** ** Appending *)

Lemma entry_data_rec r : entry_data (rec_type r) (rec_key r) (rec_value r) = Some (rec_data r).
Proof. by destruct r. Qed.

Lemma log_ok_append w dir es r :
  log_ok w dir es → rec_ok r →
  log_ok (set_files (<[log_file dir (Z.of_nat (length es)) := rec_bytes r]> (w_files w)) w) dir (es ++ [r]).
Proof.
  intros [H1 H2 H3 H4 H5 H6 H7 H8] Hr. split; cbn [w_files w_dirs w_denied set_files]; try done.
  - intros i. destruct (decide (i = length es)) as [->|Hne].
    + by rewrite lookup_insert_eq, list_lookup_middle.
    + rewrite lookup_insert_ne, H3 by (intros E; apply log_file_inj in E; lia). f_equal.
      destruct (decide (i < length es)%nat); [symmetry; by apply lookup_app_l|].
      rewrite !lookup_ge_None_2; [done|rewrite length_app; simpl; lia|lia].
  - apply Forall_app. split; [done|by constructor].
Qed.

Lemma open_create_run w dir es :
  log_ok w dir es →
  open_create (log_file dir (Z.of_nat (length es))) w =
    Ret (true, set_files (<[log_file dir (Z.of_nat (length es)) := []]> (w_files w)) w).
Proof.
  intros Hok. unfold open_create, denied. rewrite bool_decide_eq_false_2 by apply (lo_granted _ _ _ Hok).
  by rewrite (lo_files _ _ _ Hok), lookup_ge_None_2.
Qed.

Lemma write_at_start_run f b w m :
  w_files w = <[f := []]> m → write_at_start f b w = Ret (tt, set_files (<[f := b]> m) w).
Proof.
  intros Hf. unfold write_at_start, modify. do 3 f_equal. rewrite Hf. apply map_eq. intros p.
  destruct (decide (f = p)) as [<-|Hne].
  - rewrite lookup_alter_eq, !lookup_insert_eq. simpl. by rewrite drop_nil, app_nil_r.
  - by rewrite lookup_alter_ne, !lookup_insert_ne.
Qed.

Lemma tpclog_log_run w dir es r pos :
  log_ok w dir es → few w → rec_ok r →
  ∃ w', tpclog_log (rec_type r) (rec_key r) (rec_value r) (TPCLog dir (Z.of_nat (length es)) pos, w) =
      Ret (0, (TPCLog dir (Z.of_nat (length (es ++ [r]))) pos, w')) ∧
    log_ok w' dir (es ++ [r]) ∧ (chain_fuel w' ≤ S (chain_fuel w))%nat.
Proof.
  intros Hok Hff Hr. pose proof (log_length _ _ _ Hok Hff) as Hlen. unfold few in Hff.
  unfold tpclog_log. assert (loggable (rec_type r) = true) as -> by by destruct r. cbn [negb].
  set (lg := TPCLog dir (Z.of_nat (length es)) pos). rewrite (bind_Ret _ _ _ lg (lg, w)) by done.
  cbn [lg_dirname lg_nextid lg]. set (f := log_file dir (Z.of_nat (length es))).
  rewrite (bind_Ret _ _ _ _ _ (log_world_run _ lg _ _ _ (sprintf_run f w
    ltac:(apply log_file_length; [lia|apply (lo_len _ _ _ Hok)])))).
  rewrite (bind_Ret _ _ _ _ _ (log_world_run _ lg _ _ _ (open_create_run w dir es Hok))).
  cbn [negb]. set (lg' := TPCLog dir (Z.of_nat (length (es ++ [r]))) pos).
  rewrite (bind_Ret _ _ _ tt (lg', set_files (<[f := []]> (w_files w)) w)).
  2:{ unfold modify, lg, lg'. simpl. rewrite uwrap_id, length_app by lia. simpl. do 4 f_equal. lia. }
  rewrite entry_data_rec.
  destruct (malloc_run (set_files (<[f := []]> (w_files w)) w) (lo_mem _ _ _ Hok)) as (w2 & E & Hs & Hb2).
  rewrite (bind_Ret _ _ _ _ _ (log_world_run _ lg' _ _ _ E)). pose proof (lo_brk _ _ _ Hok) as Hb.
  rewrite bool_decide_eq_false_2 by (cbn; unfold NULL; lia).
  destruct Hs as (Hsf & Hsd & Hsn & Hsm & Hsb). cbn in Hsf, Hsd, Hsn, Hsb.
  rewrite (bind_Ret _ _ _ _ _ (log_world_run _ lg' _ _ _ (write_at_start_run f _ w2 _ Hsf))).
  eexists. split_and!; [reflexivity| |].
  - unfold set_files. rewrite Hsd, Hsn.
    destruct (log_ok_append w dir es r Hok Hr) as [A1 A2 A3 A4 A5 A6 A7 A8].
    split; try done. cbn. lia.
  - unfold chain_fuel. cbn [w_files w_dirs set_files]. rewrite Hsd, map_size_insert.
    destruct (w_files w !! f); unfold id; lia.
Qed.

(** ** Iterating *)

Lemma load_entry_run w dir es i r :
  log_ok w dir es → es !! i = Some r →
  ∃ w', tpclog_load_entry (log_file dir (Z.of_nat i)) w = Ret ((0, Some (rec_entry r)), w') ∧ same_fs w w'.
Proof.
  intros Hok Hi. assert (rec_ok r) as Hr by (eapply Forall_lookup_1; [apply (lo_recs _ _ _ Hok)|done]).
  unfold tpclog_load_entry. rewrite (bind_Ret _ _ _ (Some (rec_bytes r)) w).
  2:{ unfold fopen_read, gets, denied. rewrite bool_decide_eq_false_2 by apply (lo_granted _ _ _ Hok).
      by rewrite (lo_files _ _ _ Hok), Hi. }
  unfold rec_bytes, entry_bytes. pose proof (rec_data_length r Hr) as Hlen.
  destruct (le32_read (Z.of_nat (length (rec_data r))) (rec_data r)) as (l0 & l1 & l2 & l3 & -> & Hl).
  { unfold is_s32. lia. }
  destruct (le32_read (msgtype_code (rec_type r)) (l0 :: l1 :: l2 :: l3 :: rec_data r))
    as (t0 & t1 & t2 & t3 & -> & Ht).
  { unfold is_s32. destruct r; simpl; lia. }
  destruct (malloc_run w (lo_mem _ _ _ Hok)) as (w' & E & Hs & Hb). run_step E.
  pose proof (lo_brk _ _ _ Hok). rewrite bool_decide_eq_false_2 by (unfold NULL; lia).
  rewrite Hl, Ht, bool_decide_eq_false_2 by lia. exists w'. split; [|done].
  rewrite Nat2Z.id, take_ge by done. done.
Qed.

Lemma has_next_run w dir es n i :
  log_ok w dir es → Z.of_nat i < 2 ^ 64 →
  tpclog_iterate_has_next (TPCLog dir n (Z.of_nat i), w) =
    Ret (bool_decide (i < length es)%nat, (TPCLog dir n (Z.of_nat i), w)).
Proof.
  intros Hok Hi. unfold tpclog_iterate_has_next. set (lg := TPCLog dir n (Z.of_nat i)).
  rewrite (bind_Ret _ _ _ lg (lg, w)) by done. cbn [lg_dirname lg_iterpos lg].
  rewrite (bind_Ret _ _ _ _ _ (log_world_run _ lg _ _ _ (sprintf_run (log_file dir (Z.of_nat i)) w
    ltac:(apply log_file_length; [lia|apply (lo_len _ _ _ Hok)])))).
  exact (log_world_run _ lg _ _ _ (stat_log w dir es i Hok)).
Qed.

Lemma iterate_next_run w dir es n i :
  log_ok w dir es → Z.of_nat (length es) < 2 ^ 63 → (i ≤ length es)%nat →
  ∃ w', tpclog_iterate_next (TPCLog dir n (Z.of_nat i), w) =
      Ret (rec_entry <$> es !! i,
           (TPCLog dir n (Z.of_nat (if decide (i < length es)%nat then S i else i)), w')) ∧ same_fs w w'.
Proof.
  intros Hok Hlen Hi. unfold tpclog_iterate_next. set (lg := TPCLog dir n (Z.of_nat i)).
  rewrite (bind_Ret _ _ _ _ _ (has_next_run w dir es n i Hok ltac:(lia))).
  destruct (decide (i < length es)%nat) as [Hlt|Hge].
  - destruct (lookup_lt_is_Some_2 es i Hlt) as [r Hr]. rewrite Hr.
    rewrite bool_decide_eq_true_2 by done. cbn [negb].
    rewrite (bind_Ret _ _ _ lg (lg, w)) by done. cbn [lg_dirname lg_iterpos lg].
    rewrite (bind_Ret _ _ _ _ _ (log_world_run _ lg _ _ _ (sprintf_run (log_file dir (Z.of_nat i)) w
      ltac:(apply log_file_length; [lia|apply (lo_len _ _ _ Hok)])))).
    set (lg' := TPCLog dir n (Z.of_nat (S i))). rewrite (bind_Ret _ _ _ tt (lg', w)).
    2:{ unfold modify, lg, lg'. simpl. rewrite uwrap_id by lia. do 4 f_equal. lia. }
    destruct (load_entry_run w dir es i r Hok Hr) as (w' & E & Hs).
    rewrite (bind_Ret _ _ _ _ _ (log_world_run _ lg' _ _ _ E)). exists w'. split; [|done].
    cbn [fst snd]. by rewrite bool_decide_eq_false_2 by lia.
  - rewrite bool_decide_eq_false_2, lookup_ge_None_2 by lia. cbn [negb]. exists w.
    split; [done|]. apply same_fs_refl, (lo_mem _ _ _ Hok).
Qed.

(** ** Clearing *)

Lemma clear_log_loop_run fuel w dir (suf : list logrec) n :
  dir ∈ w_dirs w → strlen dir ≤ 960 → (∀ i, log_file dir i ∉ w_dirs w) → (∀ i, log_file dir i ∉ w_denied w) →
  (∀ i : nat, w_files w !! log_file dir (Z.of_nat i) =
     if decide (i < n)%nat then None else rec_bytes <$> suf !! (i - n)%nat) →
  Z.of_nat (n + length suf) < 2 ^ 63 → (length suf < fuel)%nat →
  ∃ files, clear_log_loop fuel dir (Z.of_nat n) w = Ret (0, set_files files w) ∧
    (∀ i : nat, files !! log_file dir (Z.of_nat i) = None) ∧
    (∀ p, (∀ i : nat, p ≠ log_file dir (Z.of_nat i)) → files !! p = w_files w !! p) ∧
    (size files ≤ size (w_files w))%nat.
Proof.
  revert w suf n. induction fuel as [|fuel IH]; intros w suf n Hd Hl Hnd Hng Hf Hn Hfu; [lia|].
  cbn [clear_log_loop].
  rewrite (bind_Ret _ _ _ _ _ (sprintf_run (log_file dir (Z.of_nat n)) w
    ltac:(apply log_file_length; [lia|done]))).
  rewrite (bind_Ret _ _ _ (bool_decide (suf ≠ [])) w).
  2:{ unfold stat_ok, gets. rewrite bool_decide_eq_false_2 by done. cbn [orb]. do 2 f_equal.
      apply bool_decide_ext. rewrite Hf, decide_False, Nat.sub_diag by lia.
      destruct suf; simpl; [split; [by intros [? ?]|done]|split; [done|by eexists]]. }
  destruct suf as [|r suf].
  - rewrite bool_decide_eq_false_2 by tauto. cbn [negb]. exists (w_files w). split_and!; try done.
    + by destruct w.
    + intros i. rewrite Hf. by case_decide.
  - rewrite bool_decide_eq_true_2 by done. cbn [negb length] in *.
    set (f := log_file dir (Z.of_nat n)).
    rewrite (bind_Ret _ _ _ 0 (set_files (delete f (w_files w)) w)).
    2:{ unfold remove, denied, f. rewrite bool_decide_eq_false_2 by done.
        by rewrite Hf, decide_False, Nat.sub_diag by lia. }
    rewrite bool_decide_eq_false_2 by tauto. rewrite uwrap_id by lia.
    replace (Z.of_nat n + 1) with (Z.of_nat (S n)) by lia.
    destruct (IH (set_files (delete f (w_files w)) w) suf (S n)) as (files & E & H1 & H2 & H3); try done; [|lia..|].
    + intros i. cbn [w_files set_files]. destruct (decide (i = n)) as [->|Hne].
      * rewrite lookup_delete_eq. by rewrite decide_True by lia.
      * rewrite lookup_delete_ne by (unfold f; intros E0; apply log_file_inj in E0; lia).
        rewrite Hf. destruct (decide (i < n)%nat); [by rewrite decide_True by lia|].
        rewrite decide_False by lia. replace (i - n)%nat with (S (i - S n)) by lia. done.
    + exists files. rewrite E. split_and!; try done.
      * intros p Hp. rewrite H2 by done. cbn. apply lookup_delete_ne, not_eq_sym, Hp.
      * etrans; [exact H3|]. cbn. rewrite map_size_delete. destruct (w_files w !! f); unfold id; lia.
Qed.

Lemma tpclog_clear_run w dir es n pos :
  log_ok w dir es → few w →
  ∃ w', tpclog_clear_log (TPCLog dir n pos, w) = Ret (0, (TPCLog dir 0 pos, w')) ∧ log_ok w' dir [] ∧
    few w' ∧ (∀ p, (∀ i : nat, p ≠ log_file dir (Z.of_nat i)) → w_files w' !! p = w_files w !! p).
Proof.
  intros Hok Hff. pose proof (log_length _ _ _ Hok Hff) as Hlen. unfold few in *.
  unfold tpclog_clear_log. set (lg := TPCLog dir n pos). rewrite (bind_Ret _ _ _ lg (lg, w)) by done.
  rewrite (bind_Ret _ _ _ (chain_fuel w) (lg, w)) by done. cbn [lg_dirname lg].
  destruct Hok as [H1 H2 H3 H4 H5 H6 H7 H8].
  destruct (clear_log_loop_run (chain_fuel w) w dir es 0) as (files & E & Hn & Ho & Hsz); try done.
  { intros i. by rewrite decide_False, Nat.sub_0_r by lia. }
  { simpl. lia. }
  rewrite (bind_Ret _ _ _ _ _ (log_world_run _ lg _ _ _ E)). rewrite bool_decide_eq_false_2 by tauto.
  eexists. split_and!; [reflexivity| | |done].
  - split; done.
  - unfold chain_fuel in *. cbn [w_files w_dirs set_files snd]. lia.
Qed.

(** ** Properties *)

(** Logs the records one after the other; the log must accept each. *)
Fixpoint log_all (rs : list logrec) : M TL unit :=
  match rs with
  | [] => mret tt
  | r :: rs =>
    e ← tpclog_log (rec_type r) (rec_key r) (rec_value r);
    assert (bool_decide (e = 0));;
    log_all rs
  end.

(** [while (tpclog_iterate_has_next (log)) tpclog_iterate_next (log)], the result
    being decoded. *)
Fixpoint read_all (fuel : nat) : M TL (list (option logrec)) :=
  match fuel with
  | O => nofuel
  | S fuel =>
    has ← tpclog_iterate_has_next;
    if negb has then mret [] else
    e ← tpclog_iterate_next;
    es ← read_all fuel;
    mret ((e ≫= decode) :: es)
  end.

Lemma log_all_run rs w dir es pos :
  log_ok w dir es → Z.of_nat (chain_fuel w + length rs) < 2 ^ 62 → Forall rec_ok rs →
  ∃ w', log_all rs (TPCLog dir (Z.of_nat (length es)) pos, w) =
      Ret (tt, (TPCLog dir (Z.of_nat (length (es ++ rs))) pos, w')) ∧
    log_ok w' dir (es ++ rs) ∧ few w'.
Proof.
  revert w es. induction rs as [|r rs IH]; intros w es Hok Hf Hrs; cbn [length] in *.
  { exists w. rewrite app_nil_r. split_and!; [done..|]. unfold few. lia. }
  apply Forall_cons in Hrs as [Hr Hrs].
  destruct (tpclog_log_run w dir es r pos Hok) as (w1 & E & Hok1 & Hf1); [unfold few; lia|done|].
  destruct (IH w1 (es ++ [r]) Hok1) as (w2 & E2 & Hok2 & Hf2); [lia|done|].
  cbn [log_all]. run_step E. rewrite assert_bind by done. rewrite E2.
  rewrite <- !app_assoc in *. by exists w2.
Qed.

Lemma read_all_run fuel w dir es n i :
  log_ok w dir es → Z.of_nat (length es) < 2 ^ 63 → (i ≤ length es)%nat → (length es - i < fuel)%nat →
  ∃ w', read_all fuel (TPCLog dir n (Z.of_nat i), w) =
      Ret (Some <$> drop i es, (TPCLog dir n (Z.of_nat (length es)), w')) ∧ same_fs w w'.
Proof.
  revert w i. induction fuel as [|fuel IH]; intros w i Hok Hlen Hi Hf; [lia|]. cbn [read_all].
  rewrite (bind_Ret _ _ _ _ _ (has_next_run w dir es n i Hok ltac:(lia))).
  case_bool_decide as Hlt; cbn [negb].
  - destruct (lookup_lt_is_Some_2 es i Hlt) as [r Hr].
    destruct (iterate_next_run w dir es n i Hok Hlen Hi) as (w1 & E & Hs). run_step E.
    rewrite decide_True by done. destruct (IH w1 (S i)) as (w2 & E2 & Hs2); [|done|lia|lia|].
    { by eapply log_ok_same_fs. }
    run_step E2. exists w2. split; [|by eapply same_fs_trans].
    rewrite (drop_S _ _ _ Hr), Hr. cbn. rewrite decode_rec_entry; [done|].
    eapply Forall_lookup_1; [apply (lo_recs _ _ _ Hok)|done].
  - replace i with (length es) by lia. exists w. rewrite drop_ge by lia.
    split; [done|]. apply same_fs_refl, (lo_mem _ _ _ Hok).
Qed.

(** C24: the log survives a restart.  As long as no allocation fails, after records were appended to a log, opening
    the directory again and iterating gives back all the records, the old ones
    first, in the order they were logged, with their keys and values, and the next
    record will be appended after them. *)
Theorem log_roundtrip rs w dir es pos :
  log_ok w dir es → Z.of_nat (chain_fuel w + length rs) < 2 ^ 62 → Forall rec_ok rs →
  ∃ w' w'', log_all rs (TPCLog dir (Z.of_nat (length es)) pos, w) =
      Ret (tt, (TPCLog dir (Z.of_nat (length (es ++ rs))) pos, w')) ∧
    ∃ w1, tpclog_init dir w' = Ret ((0, Some (TPCLog dir (Z.of_nat (length (es ++ rs))) 0)), w1) ∧
    (tpclog_iterate_begin;; read_all (S (length (es ++ rs))))
      (TPCLog dir (Z.of_nat (length (es ++ rs))) 0, w1) =
    Ret (Some <$> (es ++ rs), (TPCLog dir (Z.of_nat (length (es ++ rs))) (Z.of_nat (length (es ++ rs))), w'')).
Proof.
  intros Hok Hf Hrs. destruct (log_all_run rs w dir es pos Hok Hf Hrs) as (w' & E & Hok' & Hf').
  destruct (tpclog_init_run w' dir _ Hok' Hf') as (w1 & E1 & Hs1).
  pose proof (log_length _ _ _ Hok' Hf') as Hlen. unfold few in Hf'.
  destruct (read_all_run (S (length (es ++ rs))) w1 dir (es ++ rs) (Z.of_nat (length (es ++ rs))) 0)
    as (w'' & E2 & _); [by eapply log_ok_same_fs|lia|lia|lia|].
  exists w', w''. split; [done|]. exists w1. split; [done|]. exact E2.
Qed.

Definition w_log : world := World ∅ {["l"]} ∅ [] 100.

Lemma w_log_ok : log_ok w_log "l" [].
Proof.
  assert (∀ i, log_file "l" i ∉ ({["l"]} : gset string)) as Hd.
  { intros i Hi%elem_of_singleton. apply (f_equal strlen) in Hi. unfold log_file in Hi.
    rewrite !strlen_app in Hi. change (strlen "/") with 1 in Hi. change (strlen "l") with 1 in Hi.
    change (strlen TPCLOG_FILETYPE) with 4 in Hi. unfold strlen in Hi. lia. }
  split; try done.
Qed.

Lemma log_roundtrip_witness :
  ∃ w' w'', log_all [LPut "k" "v"; LCommit; LDel "k"; LAbort] (TPCLog "l" 0 0, w_log) =
      Ret (tt, (TPCLog "l" 4 0, w')) ∧
    ∃ w1, tpclog_init "l" w' = Ret ((0, Some (TPCLog "l" 4 0)), w1) ∧
    (tpclog_iterate_begin;; read_all 5) (TPCLog "l" 4 0, w1) =
    Ret (Some <$> [LPut "k" "v"; LCommit; LDel "k"; LAbort], (TPCLog "l" 4 4, w'')).
Proof.
  apply (log_roundtrip [LPut "k" "v"; LCommit; LDel "k"; LAbort] w_log "l" [] 0 w_log_ok);
    [reflexivity|by repeat constructor].
Defined.

(** [tpclog_clear_log] removes every entry and only entries, and restarts the
    numbering, so that the log behaves as a new one. *)
Theorem log_clear_empties w dir es n pos :
  log_ok w dir es → few w →
  ∃ w', tpclog_clear_log (TPCLog dir n pos, w) = Ret (0, (TPCLog dir 0 pos, w')) ∧
    log_ok w' dir [] ∧
    (∀ p, (∀ i : nat, p ≠ log_file dir (Z.of_nat i)) → w_files w' !! p = w_files w !! p).
Proof.
  intros Hok Hf. destruct (tpclog_clear_run w dir es n pos Hok Hf) as (w' & ? & ? & _ & ?). by exists w'.
Qed.

Lemma log_clear_empties_witness :
  ∃ w', tpclog_clear_log (TPCLog "l" 0 0, w_log) = Ret (0, (TPCLog "l" 0 0, w')) ∧ log_ok w' "l" [].
Proof.
  destruct (log_clear_empties w_log "l" [] 0 0 w_log_ok) as (w' & H1 & H2 & _); [reflexivity|].
  exists w'. split; [exact H1|exact H2].
Defined.
