(* ===== verification/KvServer.v ===== *)
(** * KvServer: the key-value server ([kvstore/src/server/kvserver.c])

    The server composes the cache and the store: gets go to the cache first, puts
    are written through, deletes go to both.  The file translates [kvserver.c]; the
    socket and the message parser are outside it: [kvserver_handle] takes the parsed
    request and returns the response that is sent. *)

From S2P Require Import Prelude Links Utlist KvWorld KvCacheSet KvCache KvStore TpcLog.

(** [kvmessage_t]; null members are [None]. *)
Record kvmessage := KVMessage {
  km_type : msgtype_t;
  km_key : option string;
  km_value : option string;
  km_message : option string
}.

(** [kvserver_t], without the socket members and the handler pointer. *)
Record kvserver := KVServer {
  sv_cache : kvcache;
  sv_store : kvstore;
  sv_log : option tpclog;
  sv_hostname : string;
  sv_port : Z;
  sv_max_threads : Z;
  sv_use_tpc : bool
}.

Abbreviation SV := (kvserver * world)%type.

Definition set_cache (c : kvcache) (s : kvserver) : kvserver :=
  KVServer c (sv_store s) (sv_log s) (sv_hostname s) (sv_port s) (sv_max_threads s) (sv_use_tpc s).

Definition on_cache {A} (m : M KC A) : M SV A := λ s,
  match m (sv_cache s.1, s.2) with
  | Ret (a, (c, w)) => Ret (a, (set_cache c s.1, w))
  | Crash => Crash
  | NoFuel => NoFuel
  end.

Definition on_store {A} (m : kvstore → M world A) : M SV A := λ s,
  match m (sv_store s.1) s.2 with
  | Ret (a, w) => Ret (a, (s.1, w))
  | Crash => Crash
  | NoFuel => NoFuel
  end.

(** Only negative results stop the initialisation; members that a positive error
    leaves uninitialised are given arbitrary values. *)
Definition kvserver_init (dirname : string) (num_sets elem_per_set max_threads : Z)
    (hostname : string) (port : Z) (use_tpc : bool) : M world (Z * option kvserver) :=
  rc ← kvcache_init num_sets elem_per_set;
  if bool_decide (rc.1 < 0) then mret (rc.1, None) else
  rs ← kvstore_init dirname;
  if bool_decide (rs.1 < 0) then mret (rs.1, None) else
  rl ← (if use_tpc then tpclog_init dirname else mret (0, None));
  if bool_decide (rl.1 < 0) then mret (rl.1, None) else
  p ← malloc;
  if bool_decide (p = NULL) then mret (ENOMEM, None) else
  mret (0, Some (KVServer (default (KVCache [] 0 0) rc.2) (default (KVStore "") rs.2) rl.2
                   hostname port max_threads use_tpc)).

Definition kvserver_get (key : string) : M SV (Z * option string) :=
  if bool_decide (strlen key > MAX_KEYLEN) then mret (ERRKEYLEN, None) else
  lock ← on_cache (kvcache_getlock key);
  assert (bool_decide (is_Some lock));;
  r ← on_cache (kvcache_get key);
  if bool_decide (r.1 < 0) then
    r ← on_store (λ st, kvstore_get st key);
    if bool_decide (r.1 = 0) then
      match r.2 with
      | None => crash                       (* strlen (NULL) in kvcache_put *)
      | Some v => on_cache (kvcache_put key v);; mret r
      end
    else mret r
  else mret r.

Definition kvserver_put_check (key value : string) : M SV Z :=
  on_store (λ st, kvstore_put_check st key value).

Definition kvserver_put (key value : string) : M SV Z :=
  err ← kvserver_put_check key value;
  if bool_decide (err < 0) then mret err else
  err ← on_store (λ st, kvstore_put st key value);
  if bool_decide (err < 0) then mret err else
  lock ← on_cache (kvcache_getlock key);
  assert (bool_decide (is_Some lock));;
  on_cache (kvcache_put key value).

Definition kvserver_del_check (key : string) : M SV Z :=
  on_store (λ st, kvstore_del_check st key).

(** Locking through the null pointer of a key that is too long crashes. *)
Definition kvserver_del (key : string) : M SV Z :=
  lock ← on_cache (kvcache_getlock key);
  assert (bool_decide (is_Some lock));;
  on_cache (kvcache_del key);;
  on_store (λ st, kvstore_del st key).

Definition kvserver_handle_tpc (reqmsg respmsg : kvmessage) : M SV kvmessage :=
  mret (KVMessage RESP (km_key respmsg) (km_value respmsg) (Some ERRMSG_NOT_IMPLEMENTED)).

(** Dereferences an argument string. *)
Definition deref_str (s : option string) : M SV string :=
  match s with Some s => mret s | None => crash end.

(** [garbage] is the value of the variable [error] before it is assigned, which
    is what the test after the dispatch reads for other request types. *)
Definition kvserver_handle_no_tpc (garbage : Z) (reqmsg respmsg : kvmessage) : M SV kvmessage :=
  value ← (λ s, match malloc s.2 with
                | Ret (a, w) => Ret (a, (s.1, w)) | Crash => Crash | NoFuel => NoFuel end);
  let finish (resp : kvmessage) (error : Z) : M SV kvmessage :=
    mret (KVMessage (km_type resp) (km_key resp) (km_value resp)
            (Some (if bool_decide (error = 0) then MSG_SUCCESS else GETMSG error))) in
  let respmsg := KVMessage RESP (km_key respmsg) (km_value respmsg) (km_message respmsg) in
  match km_type reqmsg with
  | GETREQ =>
    key ← deref_str (km_key reqmsg);
    r ← kvserver_get key;
    assert (bool_decide (value ≠ NULL) || bool_decide (r.2 = None));;
    if bool_decide (r.1 = 0)
    then finish (KVMessage GETRESP (km_key reqmsg) r.2 (km_message respmsg)) r.1
    else finish respmsg r.1
  | PUTREQ =>
    key ← deref_str (km_key reqmsg);
    v ← deref_str (km_value reqmsg);
    error ← kvserver_put key v;
    finish respmsg error
  | DELREQ =>
    key ← deref_str (km_key reqmsg);
    error ← kvserver_del key;
    finish respmsg error
  | _ => finish respmsg garbage
  end.

(** [reqmsg] is what [kvmessage_parse] returned; the result is what is sent.  The
    response starts as zeroed memory. *)
Definition kvserver_handle (garbage : Z) (reqmsg : option kvmessage) : M SV kvmessage :=
  let respmsg := KVMessage GETREQ None None None in
  s ← get;
  match reqmsg with
  | None => mret (KVMessage RESP None None (Some ERRMSG_INVALID_REQUEST))
  | Some req =>
    if sv_use_tpc s.1 then kvserver_handle_tpc req respmsg
    else kvserver_handle_no_tpc garbage req respmsg
  end.

Definition kvserver_rebuild_state (s : kvserver) : Z := -1.

Definition kvserver_clean : M SV Z := on_store kvstore_clean.
