(* ===== verification/KvServerSpec.v ===== *)
(** * KvServerSpec: the server is a map

    [srv_ok s w m n] says that the server's store holds the map [m] and that its
    cache holds nothing else, with room for [n] more files.  Every request is then
    answered from [m], whatever the cache has kept or evicted.  The sessions assume that
    no allocation fails ([mem_ok]) and that there are fewer than 2^31 files, as those of
    [KvStoreSpec] do.  A delete of a key that is too long crashes the server, so the main
    theorem follows a session up to the first such request. *)

From S2P Require Import Prelude Links Utlist KvWorld KvCacheSet KvCacheSetFacts KvCacheSetSpec.
From S2P Require Import KvCache KvStore KvStoreFacts KvStoreSpec TpcLog KvServer.

Record srv_ok (s : kvserver) (w : world) (m : gmap string string) (n : nat) : Prop := {
  sv_cache_ok : cache_inv (sv_cache s) (w_brk w) m;
  sv_store_ok : store_room w (st_dirname (sv_store s)) m n
}.

Lemma on_cache_run {A} (mm : M KC A) s w a c w' :
  mm (sv_cache s, w) = Ret (a, (c, w')) → on_cache mm (s, w) = Ret (a, (set_cache c s, w')).
Proof. unfold on_cache. simpl. by intros ->. Qed.

Lemma on_store_run {A} (mm : kvstore → M world A) s w a w' :
  mm (sv_store s) w = Ret (a, w') → on_store mm (s, w) = Ret (a, (s, w')).
Proof. unfold on_store. simpl. by intros ->. Qed.

Lemma kvstore_eta st : KVStore (st_dirname st) = st.
Proof. by destruct st. Qed.

Lemma getlock_run key s w :
  strlen key ≤ MAX_KEYLEN →
  ∃ i, on_cache (kvcache_getlock key) (s, w) = Ret (Some i, (s, w)).
Proof.
  intros Hk. unfold on_cache, kvcache_getlock. rewrite bool_decide_eq_false_2 by lia.
  eexists. simpl. by destruct s.
Qed.

Lemma store_room_same w w' dir m n : same_fs w w' → store_room w dir m n → store_room w' dir m n.
Proof.
  intros Hs [H1 H2 H3 H4]. pose proof (same_fs_brk _ _ Hs).
  split; [by eapply kv_repr_same_fs|by apply Hs|lia|].
  destruct Hs as (Hf & Hd & _). unfold chain_fuel in *. by rewrite Hf, Hd.
Qed.

Lemma store_room_le w dir m n n' : (n' ≤ n)%nat → store_room w dir m n → store_room w dir m n'.
Proof. intros Hn [H1 H2 H3 H4]. split; try done. lia. Qed.

(** The store holds only entries of legal size. *)
Lemma kv_repr_sizes w dir m k v : kv_repr w dir m → m !! k = Some v → size_ok k v.
Proof.
  intros (ch & Hok & Hm) Hk. rewrite Hm in Hk. apply elem_of_list_to_map_2 in Hk.
  destruct (so_chain _ _ _ Hok (hash k) (hash_pos k)) as [_ Hall].
  rewrite Forall_forall in Hall. by destruct (Hall _ Hk) as (_ & ? & ? & ? & ?).
Qed.

(** ** The operations *)

Lemma kvserver_get_run s w m n key :
  srv_ok s w m n → strlen key ≤ MAX_KEYLEN →
  ∃ s' w', kvserver_get key (s, w) =
      Ret (match m !! key with Some v => (0, Some v) | None => (ERRNOKEY, None) end, (s', w')) ∧
    srv_ok s' w' m n ∧ sv_use_tpc s' = sv_use_tpc s.
Proof.
  intros [Hc Hst] Hk. unfold kvserver_get. rewrite bool_decide_eq_false_2 by lia.
  destruct (getlock_run key s w Hk) as [i El]. run_step El. rewrite assert_bind by done.
  destruct (kvcache_get_run _ _ _ Hc (sr_mem _ _ _ _ Hst) key Hk)
    as (r & c1 & w1 & E1 & Hr & Hc1 & Hs1 & Hn1).
  rewrite (bind_Ret _ _ _ _ _ (on_cache_run _ s w _ _ _ E1)).
  pose proof (store_room_same _ _ _ _ _ Hs1 Hst) as Hst1.
  destruct Hr as [->|(v & Hv & ->)]; cbn [fst snd].
  - rewrite bool_decide_eq_true_2 by (unfold ERRNOKEY; lia).
    destruct (kvstore_get_run w1 _ m key (store_room_at _ _ _ _ Hst1) Hk) as (w2 & E2 & Hs2 & Hb2).
    rewrite kvstore_eta in E2.
    rewrite (bind_Ret _ _ _ _ _ (on_store_run (λ st, kvstore_get st key) (set_cache c1 s) w1 _ _ E2)).
    pose proof (store_room_same _ _ _ _ _ Hs2 Hst1) as Hst2.
    pose proof (cache_inv_mono _ _ _ _ Hb2 Hc1) as Hc2.
    destruct (m !! key) as [v|] eqn:Hv; cbn [fst snd].
    + rewrite bool_decide_eq_true_2 by done.
      destruct (kv_repr_sizes _ _ _ _ _ (sr_repr _ _ _ _ Hst2) Hv) as (_ & _ & _ & Hvl).
      destruct (kvcache_put_run c1 w2 m Hc2 (sr_mem _ _ _ _ Hst2) key v Hk Hvl)
        as (c3 & w3 & E3 & Hc3 & Hs3 & Hn3).
      rewrite (bind_Ret _ _ _ _ _ (on_cache_run _ (set_cache c1 s) w2 _ _ _ E3)).
      exists (set_cache c3 s), w3. rewrite insert_id in Hc3 by done. split_and!; [done| |done].
      split; [done|]. by eapply store_room_same.
    + exists (set_cache c1 s), w2. split_and!; [done| |done]. by split.
  - rewrite bool_decide_eq_false_2, Hv by lia. exists (set_cache c1 s), w1. by split_and!.
Qed.

Lemma kvserver_put_run s w m n key value :
  srv_ok s w m (S n) → size_ok key value →
  ∃ s' w', kvserver_put key value (s, w) = Ret (0, (s', w')) ∧
    srv_ok s' w' (<[key := value]> m) n ∧ sv_use_tpc s' = sv_use_tpc s.
Proof.
  intros [Hc Hst] Hsz. pose proof Hsz as (_ & _ & Hk & Hv). unfold kvserver_put, kvserver_put_check.
  destruct (sr_repr _ _ _ _ Hst) as (ch & Hok & _).
  rewrite (bind_Ret _ _ _ 0 (s, w)).
  2:{ apply on_store_run. destruct (sv_store s). by eapply put_check_run. }
  rewrite bool_decide_eq_false_2 by lia.
  destruct (kvstore_put_run w _ m key value (store_room_at _ _ _ _ Hst) Hsz)
    as (w1 & E1 & Hr1 & Hm1 & Hb1 & Hf1 & Ho1).
  rewrite (bind_Ret _ _ _ 0 (s, w1)) by (apply on_store_run; by destruct (sv_store s)).
  rewrite bool_decide_eq_false_2 by lia.
  destruct (getlock_run key s w1 Hk) as [i El]. run_step El. rewrite assert_bind by done.
  destruct (kvcache_put_run (sv_cache s) w1 m (cache_inv_mono _ _ _ _ Hb1 Hc) Hm1 key value Hk Hv)
    as (c2 & w2 & E2 & Hc2 & Hs2 & Hn2).
  rewrite (on_cache_run _ s w1 _ _ _ E2). exists (set_cache c2 s), w2. split_and!; [done| |done].
  split; [done|]. eapply store_room_same; [exact Hs2|]. destruct Hst as [_ _ Hb Hf].
  split; try done; lia.
Qed.

Lemma kvserver_del_run s w m n key :
  srv_ok s w m n → strlen key ≤ MAX_KEYLEN →
  ∃ s' w', kvserver_del key (s, w) =
      Ret (if decide (is_Some (m !! key)) then 0 else ERRNOKEY, (s', w')) ∧
    srv_ok s' w' (delete key m) n ∧ sv_use_tpc s' = sv_use_tpc s.
Proof.
  intros [Hc Hst] Hk. unfold kvserver_del.
  destruct (getlock_run key s w Hk) as [i El]. run_step El. rewrite assert_bind by done.
  destruct (kvcache_del_run _ _ _ Hc (sr_mem _ _ _ _ Hst) key Hk) as (r & c1 & w1 & E1 & Hc1 & Hs1 & Hn1).
  rewrite (bind_Ret _ _ _ _ _ (on_cache_run _ s w _ _ _ E1)).
  pose proof (store_room_same _ _ _ _ _ Hs1 Hst) as Hst1.
  destruct (kvstore_del_run w1 _ m key (store_room_at _ _ _ _ Hst1) Hk)
    as (w2 & E2 & Hr2 & Hm2 & Hb2 & Hf2 & Ho2).
  exists (set_cache c1 s), w2. split_and!; [|split|done].
  - apply on_store_run. cbn [sv_store set_cache]. by destruct (sv_store s).
  - by eapply cache_inv_mono.
  - destruct Hst1 as [_ _ Hb Hf]. split; try done; lia.
Qed.

(** ** Requests *)

Inductive request :=
| ReqGet (key : string)
| ReqPut (key value : string)
| ReqDel (key : string).

Definition req_msg (r : request) : kvmessage :=
  match r with
  | ReqGet key => KVMessage GETREQ (Some key) None None
  | ReqPut key value => KVMessage PUTREQ (Some key) (Some value) None
  | ReqDel key => KVMessage DELREQ (Some key) None None
  end.

Definition resp (message : string) : kvmessage := KVMessage RESP None None (Some message).

(** The protocol's answer and the map after it. *)
Definition spec_request (r : request) (m : gmap string string) : kvmessage * gmap string string :=
  match r with
  | ReqGet key =>
    (if bool_decide (strlen key > MAX_KEYLEN) then resp ERRMSG_KEY_LEN
     else match m !! key with
          | Some v => KVMessage GETRESP (Some key) (Some v) (Some MSG_SUCCESS)
          | None => resp ERRMSG_NO_KEY
          end, m)
  | ReqPut key value =>
    if bool_decide (strlen key > MAX_KEYLEN) then (resp ERRMSG_KEY_LEN, m)
    else if bool_decide (strlen value > MAX_VALLEN) then (resp ERRMSG_VAL_LEN, m)
    else (resp MSG_SUCCESS, <[key := value]> m)
  | ReqDel key =>
    (resp (if decide (is_Some (m !! key)) then MSG_SUCCESS else ERRMSG_NO_KEY), delete key m)
  end.

(** The request the server does not survive: to delete a key that is too long. *)
Definition long_del (r : request) : bool := if r is ReqDel key then bool_decide (strlen key > MAX_KEYLEN) else false.

(** What is put are C strings. *)
Definition c_strings (r : request) : Prop := if r is ReqPut key value then cstring key ∧ cstring value else True.

(** A request that the server answers. *)
Definition req_ok (r : request) : Prop :=
  match r with
  | ReqGet key => True
  | ReqPut key value => cstring key ∧ cstring value
  | ReqDel key => strlen key ≤ MAX_KEYLEN
  end.

Lemma answered r : c_strings r → long_del r = false → req_ok r.
Proof. destruct r; try done. cbn. intros _ H%bool_decide_eq_false. lia. Qed.

Lemma answered_all rs : Forall c_strings rs → existsb long_del rs = false → Forall req_ok rs.
Proof. induction 1 as [|r rs Hr _ IH]; cbn [existsb]; [constructor|]. intros [Hl H]%orb_false_iff. constructor; [by apply answered|by apply IH]. Qed.

(** [kvcache_getlock] returns null for a key that is too long, and the lock is taken without
    a test. *)
Lemma del_long_key key s w : strlen key > MAX_KEYLEN → kvserver_del key (s, w) = Crash.
Proof.
  intros Hk. unfold kvserver_del, on_cache at 1, kvcache_getlock.
  by rewrite (bool_decide_eq_true_2 (strlen key > MAX_KEYLEN)) by done.
Qed.

Lemma srv_ok_same s w w' m n : same_fs w w' → srv_ok s w m n → srv_ok s w' m n.
Proof.
  intros Hs [H1 H2]. split; [|by eapply store_room_same].
  eapply cache_inv_mono; [by apply same_fs_brk|done].
Qed.

Lemma srv_ok_le s w m n n' : (n' ≤ n)%nat → srv_ok s w m n → srv_ok s w m n'.
Proof. intros Hn [H1 H2]. split; [done|by eapply store_room_le]. Qed.

Lemma put_refused s w m n key value :
  srv_ok s w m n → strlen key > MAX_KEYLEN ∨ strlen value > MAX_VALLEN →
  kvserver_put key value (s, w) =
    Ret (if bool_decide (strlen key > MAX_KEYLEN) then ERRKEYLEN else ERRVALLEN, (s, w)).
Proof.
  intros _ Hkv. unfold kvserver_put, kvserver_put_check.
  rewrite (bind_Ret _ _ _ (if bool_decide (strlen key > MAX_KEYLEN) then ERRKEYLEN else ERRVALLEN) (s, w)).
  - by destruct (bool_decide (strlen key > MAX_KEYLEN)).
  - apply on_store_run. unfold kvstore_put_check. case_bool_decide; [done|].
    by rewrite bool_decide_eq_true_2 by (destruct Hkv; done).
Qed.

Lemma handle_run g r s w m n :
  srv_ok s w m (S n) → sv_use_tpc s = false → req_ok r →
  ∃ s' w', kvserver_handle g (Some (req_msg r)) (s, w) = Ret ((spec_request r m).1, (s', w')) ∧
    srv_ok s' w' (spec_request r m).2 n ∧ sv_use_tpc s' = false.
Proof.
  intros Hok Htpc Hreq. unfold kvserver_handle. rewrite (bind_Ret _ _ _ (s, w) (s, w)) by done.
  cbn [fst]. rewrite Htpc. unfold kvserver_handle_no_tpc.
  destruct (malloc_run w (sr_mem _ _ _ _ (sv_store_ok _ _ _ _ Hok))) as (w1 & E1 & Hs1 & Hb1).
  pose proof (sr_brk _ _ _ _ (sv_store_ok _ _ _ _ Hok)) as Hb.
  rewrite (bind_Ret _ _ _ (w_brk w) (s, w1)) by (simpl; by rewrite E1).
  pose proof (srv_ok_same _ _ _ _ _ Hs1 Hok) as Hok1. clear Hok Hs1 E1.
  destruct r as [key|key value|key]; cbn [req_msg km_type km_key km_value spec_request deref_str req_ok fst snd] in *;
    rewrite ?ret_bind.
  - destruct (decide (strlen key > MAX_KEYLEN)) as [Hk|Hk].
    + unfold kvserver_get. rewrite !(bool_decide_eq_true_2 (strlen key > MAX_KEYLEN)), ret_bind by done.
      cbn [fst snd].
      rewrite assert_bind by (by rewrite orb_true_r). exists s, w1. split_and!; [done| |done].
      eapply srv_ok_le; [|done]. lia.
    + destruct (kvserver_get_run s w1 m (S n) key Hok1) as (s' & w' & E & Hok' & Ht); [lia|].
      rewrite (bool_decide_eq_false_2 (strlen key > MAX_KEYLEN)) by done.
      run_step E. exists s', w'. rewrite Ht. split_and!; [|eapply srv_ok_le; [|done]; lia|done].
      rewrite assert_bind by (rewrite bool_decide_eq_true_2; [done|unfold NULL; lia]).
      by destruct (m !! key).
  - case_bool_decide as Hk; [|case_bool_decide as Hv].
    + rewrite (bind_Ret _ _ _ _ _ (put_refused s w1 m (S n) key value Hok1 (or_introl Hk))).
      rewrite (bool_decide_eq_true_2 (strlen key > MAX_KEYLEN)) by done.
      exists s, w1. split_and!; [done| |done]. eapply srv_ok_le; [|done]. lia.
    + rewrite (bind_Ret _ _ _ _ _ (put_refused s w1 m (S n) key value Hok1 (or_intror Hv))).
      rewrite (bool_decide_eq_false_2 (strlen key > MAX_KEYLEN)) by done.
      exists s, w1. split_and!; [done| |done]. eapply srv_ok_le; [|done]. lia.
    + destruct (kvserver_put_run s w1 m n key value Hok1) as (s' & w' & E & Hok' & Ht).
      { destruct Hreq. split_and!; try done; lia. }
      run_step E. exists s', w'. rewrite Ht. by split_and!.
  - destruct (kvserver_del_run s w1 m (S n) key Hok1 Hreq) as (s' & w' & E & Hok' & Ht).
    run_step E. exists s', w'. rewrite Ht. split_and!; [|eapply srv_ok_le; [|done]; lia|done].
    by case_decide.
Qed.

Fixpoint serve (g : Z) (rs : list request) : M SV (list kvmessage) :=
  match rs with
  | [] => mret []
  | r :: rs => m ← kvserver_handle g (Some (req_msg r)); ms ← serve g rs; mret (m :: ms)
  end.

Fixpoint spec_serve (rs : list request) (m : gmap string string) : list kvmessage * gmap string string :=
  match rs with
  | [] => ([], m)
  | r :: rs =>
    let '(a, m1) := spec_request r m in let '(as_, m2) := spec_serve rs m1 in (a :: as_, m2)
  end.

Lemma serve_run g rs s w m :
  srv_ok s w m (length rs) → sv_use_tpc s = false → Forall req_ok rs →
  ∃ s' w', serve g rs (s, w) = Ret ((spec_serve rs m).1, (s', w')) ∧
    srv_ok s' w' (spec_serve rs m).2 0.
Proof.
  revert s w m. induction rs as [|r rs IH]; intros s w m Hok Ht Hrs; cbn [length] in *.
  { by exists s, w. }
  apply Forall_cons in Hrs as [Hr Hrs].
  destruct (handle_run g r s w m _ Hok Ht Hr) as (s1 & w1 & E1 & Hok1 & Ht1).
  cbn [serve spec_serve]. run_step E1. destruct (spec_request r m) as [a m1]. cbn [fst snd] in *.
  destruct (IH s1 w1 m1 Hok1 Ht1 Hrs) as (s2 & w2 & E2 & Hok2). run_step E2.
  destruct (spec_serve rs m1) as [as_ m2]. by exists s2, w2.
Qed.

Lemma handle_long_del g r s w : mem_ok w → long_del r = true → sv_use_tpc s = false → kvserver_handle g (Some (req_msg r)) (s, w) = Crash.
Proof.
  destruct r as [| |key]; try done. intros Hm Hk%bool_decide_eq_true Ht. unfold kvserver_handle. rewrite (bind_Ret _ _ _ (s, w) (s, w)) by done.
  cbn [fst]. rewrite Ht. unfold kvserver_handle_no_tpc. destruct (malloc_run w Hm) as (w1 & E1 & _ & _).
  rewrite (bind_Ret _ _ _ (w_brk w) (s, w1)) by (simpl; by rewrite E1).
  cbn [req_msg km_type km_key km_value deref_str]. rewrite ?ret_bind. apply bind_Crash. by apply del_long_key.
Qed.

(** A session with such a request ends in a crash, whatever follows the request. *)
Lemma serve_crash g rs s w m :
  srv_ok s w m (length rs) → sv_use_tpc s = false → Forall c_strings rs → existsb long_del rs = true → serve g rs (s, w) = Crash.
Proof.
  revert s w m. induction rs as [|r rs IH]; intros s w m Hok Ht Hrs; cbn [existsb serve length] in *; [done|].
  apply Forall_cons in Hrs as [Hr Hrs]. destruct (long_del r) eqn:Hl; cbn [orb]; intros Hex.
  { apply bind_Crash. apply handle_long_del; [apply (sr_mem _ _ _ _ (sv_store_ok _ _ _ _ Hok))|done|done]. }
  destruct (handle_run g r s w m _ Hok Ht (answered r Hr Hl)) as (s1 & w1 & E1 & Hok1 & Ht1). run_step E1.
  apply bind_Crash. by apply (IH s1 w1 _ Hok1).
Qed.

(** ** Starting a server *)

Lemma fresh_dir_same w w' dir : same_fs w w' → fresh_dir w dir → fresh_dir w' dir.
Proof. intros (Hf & Hd & Hn & _) [H1 H2 H3 H4]. split; by rewrite ?Hf, ?Hd, ?Hn. Qed.

Lemma kvserver_init_run w dir num_sets eps threads host port n :
  0 < num_sets < 2 ^ 31 → 2 ≤ eps < 2 ^ 31 → fresh_dir w dir → mem_ok w → 0 < w_brk w →
  Z.of_nat (S (chain_fuel w + n)) < 2 ^ 31 →
  ∃ s w', kvserver_init dir num_sets eps threads host port false w = Ret ((0, Some s), w') ∧
    srv_ok s w' ∅ n ∧ sv_use_tpc s = false ∧ st_dirname (sv_store s) = dir.
Proof.
  intros Hn He Hd Hm Hb Hf. unfold kvserver_init.
  destruct (kvcache_init_run num_sets eps w Hn He Hm Hb) as (c & w1 & E1 & Hc & Hs1 & _). run_step E1.
  cbn [fst snd]. rewrite bool_decide_eq_false_2 by lia.
  destruct (kvstore_init_new w1 dir (fresh_dir_same _ _ _ Hs1 Hd)) as (w2 & E2 & Hr2 & Hw2). run_step E2.
  cbn [fst snd]. rewrite bool_decide_eq_false_2 by lia. rewrite ret_bind. cbn [fst snd].
  rewrite bool_decide_eq_false_2 by lia. pose proof (same_fs_brk _ _ Hs1) as Hb1.
  assert (mem_ok w2 ∧ w_brk w2 = w_brk w1) as [Hm2 Hb2] by (rewrite Hw2; split; [apply Hs1|done]).
  destruct (malloc_run w2 Hm2) as (w3 & E3 & Hs3 & Hb3). run_step E3.
  rewrite bool_decide_eq_false_2 by (unfold NULL; lia).
  do 2 eexists. split_and!; [done| |done|done]. split; cbn [sv_cache sv_store default st_dirname].
  - eapply cache_inv_mono; [|exact Hc]. lia.
  - eapply store_room_same; [exact Hs3|]. split; [done|done|lia|].
    rewrite Hw2. destruct Hs1 as (Hf1 & Hd1 & _). unfold chain_fuel in *.
    cbn [w_files w_dirs set_dirs]. rewrite Hf1, Hd1.
    assert (size ({[dir]} ∪ w_dirs w) ≤ S (size (w_dirs w)))%nat as Hsz.
    { pose proof (size_union_alt {[dir]} (w_dirs w)) as Hu. rewrite Hu, size_singleton.
      pose proof (subseteq_size (w_dirs w ∖ {[dir]}) (w_dirs w) ltac:(set_solver)). lia. }
    lia.
Qed.

(** ** Properties *)

(** C1: the server is a map.  As long as no allocation fails, and with fewer than 2^31
    files, a server started on a new directory (a name of at most 960 characters that it may
    write to), without two-phase commit and with a cache of at least one set and two entries
    in each set, answers every sequence of get, put and delete requests exactly as a finite map would, with the protocol's success and error messages,
    those for too long a key in a get or a put and for too long a value included,
    independently of the size of the cache; at the end its store holds the map and its cache
    nothing that contradicts it.  The one exception is a request to delete a key that is too
    long: a session that has one crashes the server. *)
Theorem server_refines_map g rs w dir num_sets eps threads host port :
  0 < num_sets < 2 ^ 31 → 2 ≤ eps < 2 ^ 31 → fresh_dir w dir → mem_ok w → 0 < w_brk w →
  Z.of_nat (S (chain_fuel w + length rs)) < 2 ^ 31 → Forall c_strings rs →
  ∃ s w1, kvserver_init dir num_sets eps threads host port false w = Ret ((0, Some s), w1) ∧
    if existsb long_del rs then serve g rs (s, w1) = Crash
    else ∃ s' w', serve g rs (s, w1) = Ret ((spec_serve rs ∅).1, (s', w')) ∧ srv_ok s' w' (spec_serve rs ∅).2 0.
Proof.
  intros Hn He Hd Hm Hb Hf Hrs.
  destruct (kvserver_init_run w dir num_sets eps threads host port (length rs) Hn He Hd Hm Hb Hf)
    as (s & w1 & E1 & Hok & Ht & _). exists s, w1. split; [done|]. destruct (existsb long_del rs) eqn:Hl.
  - by apply (serve_crash g rs s w1 ∅).
  - by apply (serve_run g rs s w1 ∅ Hok Ht), answered_all.
Qed.

Lemma server_refines_map_witness :
  ∃ s w1, kvserver_init "d" 1 2 4 "localhost" 8888 false w_empty = Ret ((0, Some s), w1) ∧
    ∃ s' w', serve 0 [ReqPut "a" "1"; ReqPut "b" "2"; ReqPut "c" "3"; ReqGet "a"; ReqDel "b"; ReqGet "b"] (s, w1)
    = Ret ([resp MSG_SUCCESS; resp MSG_SUCCESS; resp MSG_SUCCESS;
            KVMessage GETRESP (Some "a") (Some "1") (Some MSG_SUCCESS); resp MSG_SUCCESS;
            resp ERRMSG_NO_KEY], (s', w')).
Proof.
  destruct (server_refines_map 0
    [ReqPut "a" "1"; ReqPut "b" "2"; ReqPut "c" "3"; ReqGet "a"; ReqDel "b"; ReqGet "b"]
    w_empty "d" 1 2 4 "localhost" 8888) as (s & w1 & H1 & s' & w' & H2 & _).
  - lia.
  - lia.
  - split; [by vm_compute|done|split; [done|intros; apply not_elem_of_empty]|done].
  - reflexivity.
  - reflexivity.
  - reflexivity.
  - repeat constructor; by vm_compute.
  - exists s, w1. split; [exact H1|]. exists s', w'. exact H2.
Defined.

(** A get that overlaps a delete leaves a stale cache.  The get misses the
    cache and reads the store; the delete then runs to its end; the get stores what
    it has read in the cache.  Every later get of the deleted key succeeds. *)
Theorem overlapping_get_del_stale :
  ∃ s w1 s' w', kvserver_init "d" 1 2 4 "localhost" 8888 false w_empty = Ret ((0, Some s), w1) ∧
    (kvserver_put "k" "v";;
     on_cache kvcache_clear;;
     r1 ← on_cache (kvcache_get "k");
     r2 ← on_store (λ st, kvstore_get st "k");
     d ← kvserver_del "k";
     on_cache (kvcache_put "k" (default "" r2.2));;
     r3 ← kvserver_get "k";
     mret (r1.1, d, r3)) (s, w1) = Ret ((ERRNOKEY, 0, (0, Some "v")), (s', w')).
Proof.
  do 4 eexists. split; [vm_compute; reflexivity|]. vm_compute. reflexivity.
Qed.
