(* ===== verification/KvMessage.v ===== *)
(** * KvMessage: the wire format ([kvstore/src/server/kvmessage.c])

    A message travels as the big-endian length of a JSON text and the text.  The
    JSON library (json-c) is not part of the repository: [JsonC] lists the functions
    the code calls and [JsonLaws] the behaviour it relies on.  A socket is the list of
    the bytes still to be read. *)

From S2P Require Import Prelude Links Utlist KvWorld KvCacheSet KvCache KvStore TpcLog KvServer.

(** ** json-c *)

Class JsonC := {
  json : Type;
  json_object_new_object : json;
  json_object_new_int : Z → json;
  json_object_new_string : string → json;
  json_object_object_add : json → string → json → json;
  json_object_object_get_ex : json → string → option json;
  json_object_get_int : json → Z;
  json_object_get_string : json → string;
  json_object_to_json_string : json → string;
  (** The argument is the memory from the start of the text on. *)
  json_tokener_parse : list ascii → option json
}.

(** Objects built field by field from integers and C strings are found again in
    what the tokener makes of their text, whatever follows the text in memory. *)
Class JsonLaws (J : JsonC) := {
  (** The objects built by the constructors: their text can be parsed back. *)
  printable : json → Prop;
  printable_new : printable json_object_new_object;
  printable_int o s z : printable o → is_s32 z → printable (json_object_object_add o s (json_object_new_int z));
  printable_string o s v :
    printable o → cstring v → printable (json_object_object_add o s (json_object_new_string v));
  parse_print o rest :
    printable o → json_tokener_parse (bytes_of (json_object_to_json_string o) ++ rest) = Some o;
  get_new s : json_object_object_get_ex json_object_new_object s = None;
  get_add_eq o s v : printable o → json_object_object_get_ex (json_object_object_add o s v) s = Some v;
  get_add_ne o s s' v :
    printable o → s ≠ s' →
    json_object_object_get_ex (json_object_object_add o s v) s' = json_object_object_get_ex o s';
  get_int_new z : is_s32 z → json_object_get_int (json_object_new_int z) = z;
  get_string_new s : cstring s → json_object_get_string (json_object_new_string s) = s
}.

(** ** Numbers on the wire *)

(** [htonl] followed by a 4-byte write, and the inverse. *)
Definition be32 (z : Z) : list ascii := rev (le32 z).
Definition of_be32 (b0 b1 b2 b3 : ascii) : Z := of_le32 b3 b2 b1 b0.

(** ** The messages *)

(** A message as parsed; the type is any [int]. *)
Record rawmsg := RawMsg {
  rm_type : Z;
  rm_key : option string;
  rm_value : option string;
  rm_message : option string
}.

Definition raw_of (m : kvmessage) : rawmsg :=
  RawMsg (msgtype_code (km_type m)) (km_key m) (km_value m) (km_message m).

Section messages.
Context `{!JsonC}.

Definition add_opt (o : json) (name : string) (v : option string) : json :=
  match v with
  | Some s => json_object_object_add o name (json_object_new_string s)
  | None => o
  end.

Definition message_json (m : rawmsg) : json :=
  let o := json_object_object_add json_object_new_object "type" (json_object_new_int (rm_type m)) in
  let o := add_opt o "key" (rm_key m) in
  let o := add_opt o "value" (rm_value m) in
  add_opt o "message" (rm_message m).

(** The bytes written to the socket. *)
Definition kvmessage_send (m : rawmsg) : list ascii :=
  let text := json_object_to_json_string (message_json m) in
  be32 (strlen text) ++ bytes_of text.

(** [beyond] is the memory after the buffer, which carries no terminator of its
    own.  The results: crash (a negative size), null, or the message and the bytes
    left in the socket. *)
Definition kvmessage_parse (beyond : list ascii) : M (list ascii) (option rawmsg) := λ input,
  match input with
  | b0 :: b1 :: b2 :: b3 :: rest =>
    let size := of_be32 b0 b1 b2 b3 in
    if bool_decide (size < 0) then Crash else
    if bool_decide (Z.of_nat (length rest) < size) then Ret (None, []) else
    let buffer := take (Z.to_nat size) rest in
    let o := json_tokener_parse (buffer ++ beyond) in
    let field name := json_object_get_string <$> (o ≫= λ o, json_object_object_get_ex o name) in
    let type := match o ≫= λ o, json_object_object_get_ex o "type" with
                | Some v => json_object_get_int v
                | None => 0
                end in
    Ret (Some (RawMsg type (field "key") (field "value") (field "message")), drop (Z.to_nat size) rest)
  | _ => Ret (None, [])
  end.
End messages.

(** ** Round trip *)

Definition raw_ok (m : rawmsg) : Prop :=
  is_s32 (rm_type m) ∧
  (∀ s, rm_key m = Some s → cstring s) ∧ (∀ s, rm_value m = Some s → cstring s) ∧
  (∀ s, rm_message m = Some s → cstring s).

Lemma be32_read z rest :
  is_s32 z → ∃ b0 b1 b2 b3, be32 z ++ rest = b0 :: b1 :: b2 :: b3 :: rest ∧ of_be32 b0 b1 b2 b3 = z.
Proof. intros Hz. pose proof (of_le32_le32 z Hz). do 4 eexists. by split. Qed.

Section roundtrip.
Context `{!JsonC} `{!JsonLaws _}.

Lemma get_add_opt_eq o name v :
  printable o → json_object_object_get_ex o name = None → (∀ s, v = Some s → cstring s) →
  json_object_get_string <$> json_object_object_get_ex (add_opt o name v) name = v.
Proof.
  intros Hp Ho Hv. destruct v as [s|]; cbn [add_opt]; [|by rewrite Ho].
  rewrite get_add_eq by done. cbn. by rewrite get_string_new by by apply Hv.
Qed.

Lemma get_add_opt_ne o name name' v :
  printable o → name ≠ name' →
  json_object_object_get_ex (add_opt o name v) name' = json_object_object_get_ex o name'.
Proof. intros Hp Hne. destruct v; cbn [add_opt]; [by apply get_add_ne|done]. Qed.

Lemma printable_opt o name v :
  printable o → (∀ s, v = Some s → cstring s) → printable (add_opt o name v).
Proof. intros Ho Hv. destruct v; cbn [add_opt]; [apply printable_string; auto|done]. Qed.

Lemma message_json_fields m :
  raw_ok m → printable (message_json m) ∧
  (json_object_get_int <$> json_object_object_get_ex (message_json m) "type") = Some (rm_type m) ∧
  (json_object_get_string <$> json_object_object_get_ex (message_json m) "key") = rm_key m ∧
  (json_object_get_string <$> json_object_object_get_ex (message_json m) "value") = rm_value m ∧
  (json_object_get_string <$> json_object_object_get_ex (message_json m) "message") = rm_message m.
Proof.
  intros (Ht & Hk & Hv & Hm). unfold message_json.
  pose proof (printable_int _ "type" _ printable_new Ht) as P1.
  pose proof (printable_opt _ "key" _ P1 Hk) as P2. pose proof (printable_opt _ "value" _ P2 Hv) as P3.
  pose proof printable_new as P0.
  split_and!; [by apply printable_opt|..].
  - rewrite !get_add_opt_ne, get_add_eq by done. cbn. by rewrite get_int_new.
  - rewrite !get_add_opt_ne by done. apply get_add_opt_eq; [done| |done].
    by rewrite get_add_ne, get_new.
  - rewrite get_add_opt_ne by done. apply get_add_opt_eq; [done| |done].
    by rewrite get_add_opt_ne, get_add_ne, get_new.
  - apply get_add_opt_eq; [done| |done]. by rewrite !get_add_opt_ne, get_add_ne, get_new.
Qed.

Lemma parse_send m rest beyond :
  raw_ok m → strlen (json_object_to_json_string (message_json m)) < 2 ^ 31 →
  kvmessage_parse beyond (kvmessage_send m ++ rest) = Ret (Some m, rest).
Proof.
  intros Hok Hlen. set (text := json_object_to_json_string (message_json m)) in *.
  assert (0 ≤ strlen text) as H0 by (unfold strlen; lia).
  unfold kvmessage_send. fold text. rewrite <- app_assoc.
  destruct (be32_read (strlen text) (bytes_of text ++ rest)) as (b0 & b1 & b2 & b3 & -> & Hsz).
  { unfold is_s32. lia. }
  unfold kvmessage_parse. rewrite Hsz. rewrite bool_decide_eq_false_2 by lia.
  pose proof (length_bytes_of text) as Hlb.
  assert (Z.to_nat (strlen text) = length (bytes_of text)) as -> by lia.
  rewrite bool_decide_eq_false_2 by (rewrite length_app; lia).
  rewrite take_app_length, drop_app_length.
  destruct (message_json_fields m Hok) as (Hp & Ht & Hk & Hv & Hm).
  unfold text. rewrite parse_print by done. cbn [mbind option_bind]. rewrite Hk, Hv, Hm.
  destruct (json_object_object_get_ex (message_json m) "type"); [|done]. injection Ht as ->.
  by destruct m.
Qed.
End roundtrip.

(** ** Properties *)

(** C28: messages survive the wire.  What [kvmessage_send] writes,
    [kvmessage_parse] reads back field by field, leaving the bytes of the next
    message in the socket, so that a sequence of messages is received as sent. *)
Theorem message_roundtrip (J : JsonC) (L : JsonLaws J) (ms : list rawmsg) (rest beyond : list ascii) :
  Forall (λ m, raw_ok m ∧ strlen (json_object_to_json_string (message_json m)) < 2 ^ 31) ms →
  foldr (λ m k, r ← kvmessage_parse beyond; rs ← k; mret (r :: rs)) (mret []) ms
    (concat (kvmessage_send <$> ms) ++ rest) = Ret (Some <$> ms, rest).
Proof.
  induction ms as [|m ms IH]; intros Hms; [done|]. apply Forall_cons in Hms as [[Hm Hl] Hms].
  cbn [foldr fmap list_fmap concat]. rewrite <- app_assoc.
  rewrite (bind_Ret _ _ _ _ _ (parse_send m _ beyond Hm Hl)).
  by rewrite (bind_Ret _ _ _ _ _ (IH Hms)).
Qed.

(** ** A JSON library for which the laws hold

    Every character of a string is announced by a ["c"], the end by an ["e"]. *)

Inductive mini := MInt (z : Z) | MStr (s : string) | MObj (fs : list (string * mini)).

Definition mini_add (o : mini) (k : string) (v : mini) : mini :=
  match o with MObj fs => MObj ((k, v) :: fs) | _ => o end.

Fixpoint mini_find (fs : list (string * mini)) (k : string) : option mini :=
  match fs with
  | [] => None
  | (k', v) :: fs => if bool_decide (k' = k) then Some v else mini_find fs k
  end.

Fixpoint enc_str (s : string) : list ascii :=
  match s with EmptyString => ["e"%char] | String c s => "c"%char :: c :: enc_str s end.

Fixpoint dec_str (fuel : nat) (b : list ascii) : option (string * list ascii) :=
  match fuel, b with
  | S fuel, "e"%char :: b => Some (EmptyString, b)
  | S fuel, "c"%char :: c :: b => '(s, b) ← dec_str fuel b; Some (String c s, b)
  | _, _ => None
  end.

Definition enc_nat (n : nat) : list ascii := replicate n "+"%char ++ ["e"%char].

Fixpoint dec_nat (b : list ascii) : option (nat * list ascii) :=
  match b with
  | "e"%char :: b => Some (0%nat, b)
  | "+"%char :: b => '(n, b) ← dec_nat b; Some (S n, b)
  | _ => None
  end.

Definition enc_field (f : string * mini) : list ascii :=
  enc_str f.1 ++
  match f.2 with
  | MInt z => ["i"%char] ++ enc_nat (Z.to_nat (Z.abs z)) ++ [if bool_decide (z < 0) then "-"%char else "+"%char]
  | MStr s => ["s"%char] ++ enc_str s
  | MObj _ => ["o"%char]
  end.

Definition dec_field (fuel : nat) (b : list ascii) : option ((string * mini) * list ascii) :=
  '(k, b) ← dec_str fuel b;
  match b with
  | "i"%char :: b =>
    '(n, b) ← dec_nat b;
    match b with
    | "-"%char :: b => Some ((k, MInt (- Z.of_nat n)), b)
    | _ :: b => Some ((k, MInt (Z.of_nat n)), b)
    | [] => None
    end
  | "s"%char :: b => '(s, b) ← dec_str fuel b; Some ((k, MStr s), b)
  | _ => None
  end.

Definition enc_fields (fs : list (string * mini)) : list ascii :=
  concat ((λ f, "f"%char :: enc_field f) <$> fs) ++ ["e"%char].

Fixpoint dec_fields (fuel : nat) (b : list ascii) : option (list (string * mini)) :=
  match fuel, b with
  | S fuel, "e"%char :: b => Some []
  | S fuel, "f"%char :: b => '(f, b) ← dec_field (S fuel) b; fs ← dec_fields fuel b; Some (f :: fs)
  | _, _ => None
  end.

Lemma dec_enc_str s rest fuel :
  (String.length s < fuel)%nat → dec_str fuel (enc_str s ++ rest) = Some (s, rest).
Proof.
  revert fuel. induction s as [|c s IH]; intros [|fuel] Hf; cbn in Hf |- *; try lia; [done|].
  rewrite IH by lia. done.
Qed.

Lemma dec_enc_nat n rest : dec_nat (enc_nat n ++ rest) = Some (n, rest).
Proof. unfold enc_nat. induction n as [|n IH]; [done|]. cbn in *. by rewrite IH. Qed.

Lemma length_enc_str s : (String.length s < length (enc_str s))%nat.
Proof. induction s; simpl; lia. Qed.

Definition flat (f : string * mini) : Prop := match f.2 with MObj _ => False | _ => True end.

Lemma dec_enc_field f rest fuel :
  flat f → (length (enc_field f) ≤ fuel)%nat → dec_field fuel (enc_field f ++ rest) = Some (f, rest).
Proof.
  destruct f as [k v]. unfold flat, enc_field, dec_field. cbn [fst snd]. intros Hfl Hf.
  pose proof (length_enc_str k) as Hk. rewrite length_app in Hf. rewrite <- app_assoc.
  rewrite dec_enc_str by lia. cbn [mbind option_bind]. destruct v as [z|s|fs]; [| |done].
  - cbn [app]. rewrite <- app_assoc, dec_enc_nat. cbn [mbind option_bind app].
    case_bool_decide; do 3 f_equal; f_equal; lia.
  - cbn [app]. pose proof (length_enc_str s). simpl in Hf. by rewrite dec_enc_str by lia.
Qed.

Lemma dec_enc_fields fs rest fuel :
  Forall flat fs → (length (enc_fields fs) ≤ fuel)%nat → dec_fields fuel (enc_fields fs ++ rest) = Some fs.
Proof.
  revert fuel. unfold enc_fields. induction fs as [|f fs IH]; intros [|fuel] Hfs Hf;
    cbn [fmap list_fmap concat app length] in Hf |- *; try lia; [done|].
  apply Forall_cons in Hfs as [Hfl Hfs]. rewrite !length_app in Hf. cbn [length] in Hf.
  cbn [dec_fields]. rewrite <- !app_assoc. rewrite dec_enc_field by (done || lia).
  cbn [mbind option_bind]. rewrite app_assoc, IH; [done|done|].
  rewrite length_app. cbn [length]. lia.
Qed.

Definition string_of (b : list ascii) : string := String.string_of_list_ascii b.

#[export] Instance mini_json : JsonC := {|
  json := mini;
  json_object_new_object := MObj [];
  json_object_new_int := MInt;
  json_object_new_string := MStr;
  json_object_object_add := mini_add;
  json_object_object_get_ex o k := match o with MObj fs => mini_find fs k | _ => None end;
  json_object_get_int o := match o with MInt z => z | _ => 0 end;
  json_object_get_string o := match o with MStr s => s | _ => "" end;
  json_object_to_json_string o := match o with MObj fs => string_of (enc_fields fs) | _ => "" end;
  json_tokener_parse b := MObj <$> dec_fields (length b) b
|}.

Lemma bytes_of_string_of b : bytes_of (string_of b) = b.
Proof. apply String.list_ascii_of_string_of_list_ascii. Qed.

#[export] Instance mini_laws : JsonLaws mini_json.
Proof.
  refine {| printable o := match o with MObj fs => Forall flat fs | _ => False end |}; cbn.
  - constructor.
  - intros [z0|s0|fs] s z Hfs _; [done..|]. by constructor.
  - intros [z0|s0|fs] s v Hfs _; [done..|]. by constructor.
  - intros [z0|s0|fs] rest Hfs; [done..|]. rewrite bytes_of_string_of, dec_enc_fields; [done|done|].
    rewrite length_app. lia.
  - done.
  - intros [z0|s0|fs] s v Hfs; [done..|]. cbn. by rewrite bool_decide_eq_true_2.
  - intros [z0|s0|fs] s s' v Hfs Hne; [done..|]. cbn. by rewrite bool_decide_eq_false_2.
  - done.
  - done.
Defined.

Lemma message_roundtrip_witness :
  let ms := [RawMsg 0 (Some "k") None None; RawMsg 3 (Some "k") (Some "v") (Some "SUCCESS")] in
  foldr (λ m k, r ← kvmessage_parse []; rs ← k; mret (r :: rs)) (mret []) ms
    (concat (kvmessage_send <$> ms) ++ []) = Ret (Some <$> ms, []).
Proof.
  apply (message_roundtrip mini_json mini_laws
    [RawMsg 0 (Some "k") None None; RawMsg 3 (Some "k") (Some "v") (Some "SUCCESS")] [] []).
  repeat constructor; try (intros s [= <-]); vm_compute; done.
Defined.

(** A text that is no JSON crashes the server.  The parser then returns a
    message of type 0, which is [GETREQ], with no key, and the server takes the
    length of the null key. *)
Theorem malformed_json_crashes (J : JsonC) (text beyond rest : list ascii) g s w :
  json_tokener_parse (text ++ beyond) = None → Z.of_nat (length text) < 2 ^ 31 → sv_use_tpc s = false →
  ∃ m, kvmessage_parse beyond (be32 (Z.of_nat (length text)) ++ text ++ rest) = Ret (Some (raw_of m), rest) ∧
    kvserver_handle g (Some m) (s, w) = Crash.
Proof.
  intros Hp Hl Ht. exists (KVMessage GETREQ None None None). split.
  - destruct (be32_read (Z.of_nat (length text)) (text ++ rest)) as (b0 & b1 & b2 & b3 & -> & Hsz).
    { unfold is_s32. lia. }
    unfold kvmessage_parse. rewrite Hsz, bool_decide_eq_false_2 by lia.
    rewrite bool_decide_eq_false_2 by (rewrite length_app; lia).
    by rewrite Nat2Z.id, take_app_length, drop_app_length, Hp.
  - unfold kvserver_handle. rewrite (bind_Ret _ _ _ (s, w) (s, w)) by done. cbn [fst]. rewrite Ht.
    unfold kvserver_handle_no_tpc, mbind, M_bind. simpl. unfold malloc.
    by destruct (w_mallocs w) as [|[] ms].
Qed.

Lemma malformed_json_crashes_witness :
  ∃ m, kvmessage_parse [] (be32 1 ++ ["?"%char] ++ []) = Ret (Some (raw_of m), []) ∧
    kvserver_handle 0 (Some m)
      (KVServer (KVCache [] 1 2) (KVStore "d") None "localhost" 8888 4 false, World ∅ ∅ ∅ [] 100) = Crash.
Proof. apply (malformed_json_crashes mini_json ["?"%char] [] []); vm_compute; done. Defined.
