(* ===== verification/TpcMaster.v ===== *)
(** * TpcMaster: the master's list of slaves ([kvstore/src/server/tpcmaster.c])

    The master keeps its slaves in a doubly linked list of heap nodes with null
    ends.  The file translates registration, the choice of the primary slave of a
    key and the successor of a slave, and the dispatch of requests; the handlers the
    source leaves unimplemented answer so here. *)

From S2P Require Import Prelude Links Utlist KvWorld KvCacheSet KvCache KvServer.

(** [tpcslave_t], without the link members. *)
Record tpcslave := TPCSlave { sl_id : Z; sl_host : string; sl_port : Z }.

Abbreviation sheap := (gmap Z (dl_node tpcslave)).

(** [tpcmaster_t] with the heap of its slaves. *)
Record tpcmaster := TPCMaster {
  slave_capacity : Z;
  slave_count : Z;
  redundancy : Z;
  slaves_head : Z;
  tm_slaves : sheap;
  tm_cache : kvcache
}.

Abbreviation TM := (tpcmaster * world)%type.

Definition tpcmaster_init (capacity redund num_sets elem_per_set : Z) : M world (Z * option tpcmaster) :=
  ret ← kvcache_init num_sets elem_per_set;
  if bool_decide (ret.1 < 0) then mret (ret.1, None) else
  mret (0, Some (TPCMaster capacity 0 (if bool_decide (redund > capacity) then capacity else redund)
                   NULL ∅ (default (KVCache [] 0 0) ret.2))).

(** Runs a pointer operation on the slaves. *)
Definition on_slaves {A} (m : M sheap A) : M TM A := λ s,
  match m (tm_slaves s.1) with
  | Ret (a, h) =>
    Ret (a, (TPCMaster (slave_capacity s.1) (slave_count s.1) (redundancy s.1) (slaves_head s.1) h
               (tm_cache s.1), s.2))
  | Crash => Crash
  | NoFuel => NoFuel
  end.

Definition on_w {A} (m : M world A) : M TM A := λ s,
  match m s.2 with
  | Ret (a, w) => Ret (a, (s.1, w))
  | Crash => Crash
  | NoFuel => NoFuel
  end.

Definition set_head (p : Z) : M TM unit :=
  modify (λ s, (TPCMaster (slave_capacity s.1) (slave_count s.1) (redundancy s.1) p (tm_slaves s.1)
                  (tm_cache s.1), s.2)).

Definition slave_id (p : Z) : M sheap Z := gets_opt (λ h, sl_id <$> dat h p).

(** ** [atoi] *)

Definition digit (c : ascii) : option Z :=
  let n := Z.of_N (N_of_ascii c) in
  if bool_decide (48 ≤ n ≤ 57) then Some (n - 48) else None.

Fixpoint digits_value (acc : Z) (s : string) : Z :=
  match s with
  | EmptyString => acc
  | String c s => match digit c with Some d => digits_value (acc * 10 + d) s | None => acc end
  end.

Definition is_space (c : ascii) : bool :=
  let n := N_of_ascii c in bool_decide (n = 32 ∨ 9 ≤ n ≤ 13)%N.

Fixpoint skip_space (s : string) : string :=
  match s with
  | String c t => if is_space c then skip_space t else s
  | EmptyString => s
  end.

(** [(int) strtol (s, NULL, 10)], which saturates at the bounds of [long]. *)
Definition atoi (s : string) : Z :=
  let v := match skip_space s with
           | String "-" t => - digits_value 0 t
           | String "+" t => digits_value 0 t
           | t => digits_value 0 t
           end in
  s32 (Z.max (- 2 ^ 63) (Z.min v (2 ^ 63 - 1))).

(** ** Registration *)

(** The [while] loop: the node after which to insert, and whether the
    identifier was met. *)
Fixpoint register_loop (fuel : nat) (idhash current : Z) (already_exists : bool) : M sheap (Z * bool) :=
  match fuel with
  | O => nofuel
  | S fuel =>
    n ← get_next current;
    if bool_decide (n = NULL) then mret (current, already_exists) else
    id ← slave_id current;
    if bool_decide (id < idhash) then
      id' ← slave_id n;
      register_loop fuel idhash n (already_exists || bool_decide (id' = idhash))
    else mret (current, already_exists)
  end.

(** Inserting [newslave] after [current]. *)
Definition insert_after (current newslave : Z) : M sheap unit :=
  n ← get_next current;
  (if bool_decide (n ≠ NULL) then
     set_next newslave n;;
     nn ← get_next newslave;
     set_prev nn newslave
   else mret tt);;
  set_next current newslave;;
  set_prev newslave current.

(** The critical section: true when the slave list has (or already had) the slave. *)
Definition register_slave (idhash : Z) (host : string) (port : Z) : M TM bool :=
  s ← get;
  let master := s.1 in
  if bool_decide (slave_count master < slave_capacity master) then
    newslave ← on_w malloc;
    if bool_decide (newslave = NULL) then crash else
    on_slaves (modify (λ h, <[newslave := DlNode NULL NULL (TPCSlave idhash host port)]> h));;
    already_exists ←
      (if bool_decide (slaves_head master ≠ NULL) then
         hid ← on_slaves (slave_id (slaves_head master));
         if bool_decide (idhash < hid) then
           on_slaves (set_next newslave (slaves_head master));;
           on_slaves (set_prev (slaves_head master) newslave);;
           set_head newslave;;
           mret false
         else
           fuel ← gets (λ s, S (size (tm_slaves s.1)));
           r ← on_slaves (register_loop fuel idhash (slaves_head master) (bool_decide (hid = idhash)));
           (if negb r.2 then on_slaves (insert_after r.1 newslave) else mret tt);;
           mret r.2
       else
         set_head newslave;;
         mret false);
    (if negb already_exists then
       modify (λ s, (TPCMaster (slave_capacity s.1) (u32 (slave_count s.1 + 1)) (redundancy s.1)
                       (slaves_head s.1) (tm_slaves s.1) (tm_cache s.1), s.2))
     else mret tt);;
    mret true
  else mret false.

Definition tpcmaster_register (reqmsg respmsg : kvmessage) : M TM kvmessage :=
  match km_key reqmsg, km_value reqmsg with
  | Some host, Some value =>
    h ← on_w malloc;
    if bool_decide (h = NULL) then crash else
    idstring ← on_w malloc;
    if bool_decide (idstring = NULL) then crash else
    ok ← register_slave (hash_64_bit (value +:+ ":" +:+ host)) host (u32 (atoi value));
    mret (if (ok : bool) then KVMessage RESP None None (Some MSG_SUCCESS)
          else KVMessage (km_type respmsg) (km_key respmsg) (km_value respmsg) (Some ERRMSG_GENERIC_ERROR))
  | _, _ => crash
  end.

(** ** Choosing slaves *)

Fixpoint primary_loop (fuel : nat) (keyhash current : Z) : M sheap Z :=
  match fuel with
  | O => nofuel
  | S fuel =>
    n ← get_next current;
    if bool_decide (n = NULL) then mret current else
    id ← slave_id current;
    if bool_decide (id ≤ keyhash) then primary_loop fuel keyhash n else mret current
  end.

Definition tpcmaster_get_primary (key : string) : M TM Z :=
  let keyhash := hash_64_bit key in
  s ← get;
  let head := slaves_head s.1 in
  current ← on_slaves (primary_loop (S (size (tm_slaves s.1))) keyhash head);
  n ← on_slaves (get_next current);
  if bool_decide (n ≠ NULL) then mret current else
  id ← on_slaves (slave_id current);
  mret (if bool_decide (id ≤ keyhash) then head else current).

Definition tpcmaster_get_successor (predecessor : Z) : M TM Z :=
  n ← on_slaves (get_next predecessor);
  if bool_decide (n ≠ NULL) then mret n else gets (λ s, slaves_head s.1).

(** ** Requests *)

Definition with_message (m : string) (r : kvmessage) : kvmessage :=
  KVMessage (km_type r) (km_key r) (km_value r) (Some m).

Definition tpcmaster_handle_get (reqmsg respmsg : kvmessage) : M TM kvmessage :=
  mret (with_message ERRMSG_NOT_IMPLEMENTED respmsg).
Definition tpcmaster_handle_tpc (reqmsg respmsg : kvmessage) : M TM kvmessage :=
  mret (with_message ERRMSG_NOT_IMPLEMENTED respmsg).
Definition tpcmaster_info (reqmsg respmsg : kvmessage) : M TM kvmessage :=
  mret (with_message ERRMSG_NOT_IMPLEMENTED respmsg).

(** A string written with its terminating null to a block of [n] characters. *)
Definition in_buffer {S} (n : Z) (s : string) : M S string := if bool_decide (strlen s < n) then mret s else crash.

(** [reqmsg] is what [kvmessage_parse] returned; a null one is dereferenced before
    it is tested.  The block for the key is one character short. *)
Definition tpcmaster_handle (reqmsg : option kvmessage) : M TM kvmessage :=
  match reqmsg with
  | None => crash
  | Some req =>
    k ← (match km_key req with
         | None => mret None
         | Some key => p ← on_w malloc;
                       if bool_decide (p = NULL) then crash else
                       copy ← in_buffer (strlen key) key;
                       mret (Some copy)
         end);
    let respmsg := KVMessage RESP k None None in
    if bool_decide (km_type req = INFO) then tpcmaster_info req respmsg
    else if bool_decide (km_key req = None) then mret (with_message ERRMSG_INVALID_REQUEST respmsg)
    else if bool_decide (km_type req = REGISTER) then tpcmaster_register req respmsg
    else if bool_decide (km_type req = GETREQ) then tpcmaster_handle_get req respmsg
    else tpcmaster_handle_tpc req respmsg
  end.

Definition tpcmaster_clear_cache : M TM unit := λ s,
  match kvcache_clear (tm_cache s.1, s.2) with
  | Ret (a, (c, w)) =>
    Ret (a, (TPCMaster (slave_capacity s.1) (slave_count s.1) (redundancy s.1) (slaves_head s.1)
               (tm_slaves s.1) c, w))
  | Crash => Crash
  | NoFuel => NoFuel
  end.
