(* ===== verification/TpcMasterFacts.v ===== *)
(** * TpcMasterFacts: the slave list and the choice of slaves

    [slaves_at h head ps ss] says that the list headed by [head] consists of the
    nodes [ps] that hold the slaves [ss].  The lemmas describe registration and the
    choice of primary and successor on [ss]; on a list sorted by identifier they are
    the documented ones, but registration does not keep the list sorted. *)

From S2P Require Import Prelude Links Utlist KvWorld KvCacheSet KvCache KvServer TpcMaster.

Record slaves_at (h : sheap) (head : Z) (ps : list Z) (ss : list tpcslave) : Prop := {
  sa_nodup : NoDup ps;
  sa_chain : chain h ps;
  sa_head : head = hd NULL ps;
  sa_last p : last ps = Some p → nxt h p = Some NULL;
  sa_data : Forall2 (λ p s, dat h p = Some s) ps ss
}.

(** ** Registration on lists *)

(** Where the loop stops, counted from its start, and whether it met [id]. *)
Fixpoint reg_walk (id : Z) (s : tpcslave) (t : list tpcslave) (ex : bool) : nat * bool :=
  match t with
  | [] => (0%nat, ex)
  | s' :: t' =>
    if bool_decide (sl_id s < id) then
      let '(n, e) := reg_walk id s' t' (ex || bool_decide (sl_id s' = id)) in (S n, e)
    else (0%nat, ex)
  end.

Definition reg_list (new : tpcslave) (ss : list tpcslave) : list tpcslave :=
  match ss with
  | [] => [new]
  | s :: t =>
    if bool_decide (sl_id new < sl_id s) then new :: ss
    else let '(n, e) := reg_walk (sl_id new) s t (bool_decide (sl_id s = sl_id new)) in
         if e then ss else take (S n) ss ++ new :: drop (S n) ss
  end.

Lemma reg_walk_bound id s t ex : ((reg_walk id s t ex).1 ≤ length t)%nat.
Proof.
  revert s ex. induction t as [|s' t IH]; intros s ex; cbn [reg_walk length]; [done|].
  case_bool_decide; [|simpl; lia]. specialize (IH s' (ex || bool_decide (sl_id s' = id))).
  destruct (reg_walk _ _ _ _). simpl in *. lia.
Qed.

(** ** Running the loops *)

Lemma slave_id_run h p s : dat h p = Some s → slave_id p h = Ret (sl_id s, h).
Proof. intros H. unfold slave_id, gets_opt. by rewrite H. Qed.

Lemma dat_is_valid {D} (h : gmap Z (dl_node D)) p x : dat h p = Some x → valid h p.
Proof. unfold dat, valid. rewrite fmap_Some. intros (n & Hn & _). by exists n. Qed.

Lemma slaves_next h head A p B ss :
  slaves_at h head (A ++ p :: B) ss → nxt h p = Some (hd NULL B).
Proof.
  intros [Hnd Hc Hh Hl Hd]. destruct B as [|q B]; [apply Hl; by rewrite last_snoc|].
  by eapply chain_next.
Qed.

Lemma slaves_not_null h head ps ss p : slaves_at h head ps ss → p ∈ ps → p ≠ NULL.
Proof.
  intros [_ _ _ _ Hd] Hp. apply list_elem_of_lookup in Hp as (i & Hi).
  destruct (Forall2_lookup_l _ _ _ _ _ Hd Hi) as (s & _ & Hs).
  by eapply valid_not_null, dat_is_valid.
Qed.

Lemma slaves_split h head A p B ss :
  slaves_at h head (A ++ p :: B) ss →
  ∃ SA s SB, ss = SA ++ s :: SB ∧ length SA = length A ∧ dat h p = Some s ∧ length SB = length B.
Proof.
  intros [_ _ _ _ H]. apply Forall2_app_inv_l in H as (SA & k & HA & Hk & ->).
  apply Forall2_cons_inv_l in Hk as (s & SB & Hs & HB & ->).
  exists SA, s, SB. split_and!; try done; symmetry; by eapply Forall2_length.
Qed.

Lemma register_loop_run fuel h head id A p B SA s SB ex :
  slaves_at h head (A ++ p :: B) (SA ++ s :: SB) → length SA = length A → (length B < fuel)%nat →
  ∃ q, (p :: B) !! (reg_walk id s SB ex).1 = Some q ∧
    register_loop fuel id p ex h = Ret ((q, (reg_walk id s SB ex).2), h).
Proof.
  revert A p B SA s SB ex. induction fuel as [|fuel IH]; intros A p B SA s SB ex Hat Hlen Hf; [lia|].
  pose proof (slaves_next _ _ _ _ _ _ Hat) as Hnx.
  destruct (Forall2_app_inv _ _ _ _ _ (eq_sym Hlen) (sa_data _ _ _ _ Hat)) as [_ Hpb].
  apply Forall2_cons_1 in Hpb as [Hs HB].
  cbn [register_loop]. run_step (get_next_run _ _ _ Hnx).
  destruct B as [|q B], SB as [|s' SB]; try by apply Forall2_length in HB.
  - cbn [hd]. rewrite bool_decide_eq_true_2 by done. exists p. done.
  - cbn [hd]. apply Forall2_cons_1 in HB as [Hs' HB].
    rewrite bool_decide_eq_false_2 by (eapply slaves_not_null; [exact Hat|mem]).
    run_step (slave_id_run _ _ _ Hs). cbn [reg_walk]. case_bool_decide as Hlt; [|by exists p].
    run_step (slave_id_run _ _ _ Hs'). cbn [length] in Hf.
    destruct (IH (A ++ [p]) q B (SA ++ [s]) s' SB (ex || bool_decide (sl_id s' = id))) as (r & Hr & E).
    + rewrite <- !app_assoc. exact Hat.
    + rewrite !length_app. simpl. lia.
    + lia.
    + exists r. rewrite E. destruct (reg_walk _ _ _ _). done.
Qed.

(** ** Linking a node *)

Lemma slaves_cons h head ps ss new s :
  slaves_at h head ps ss → ps ≠ [] → dat h new = Some s → new ∉ ps → nxt h new = Some NULL →
  ∃ h', (set_next new head;; set_prev head new) h = Ret (tt, h') ∧
    slaves_at h' new (new :: ps) (s :: ss) ∧ same_cells h h' ∧ (∀ q, dat h' q = dat h q).
Proof.
  intros [Hnd Hc Hh Hl Hd] Hne Hnew Hnin Hnn. destruct ps as [|p ps]; [done|]. cbn [hd] in Hh. subst head.
  assert (∃ sp, dat h p = Some sp) as [sp Hsp].
  { apply Forall2_cons_inv_l in Hd as (sp & ? & ? & _). eauto. }
  assert (new ≠ p) by (intros ->; apply Hnin; mem).
  pose proof (dat_is_valid _ _ _ Hnew). pose proof (dat_is_valid _ _ _ Hsp).
  exists (upd_prev p new (upd_next new p h)).
  assert (∀ q, dat (upd_prev p new (upd_next new p h)) q = dat h q) as Hdat.
  { intros q. by rewrite dat_upd_prev, dat_upd_next. }
  split_and!; [wr_next; apply set_prev_run; valids| |cells|done]. split.
  - by apply NoDup_cons.
  - rewrite chain_cons2. split_and!; [by lk|by lk|].
    apply chain_upd_prev; [by apply NoDup_cons in Hnd as [? _]|].
    by apply chain_upd_next'.
  - done.
  - intros q Hq. rewrite last_cons_cons in Hq. rewrite nxt_upd_prev, nxt_upd_next_ne; [by apply Hl|].
    intros ->. apply Hnin. by apply last_Some_elem_of in Hq.
  - constructor; [by rewrite Hdat|]. eapply Forall2_impl; [exact Hd|]. intros q x Hq. by rewrite Hdat.
Qed.

Lemma insert_after_run h head A c B ss SA s SB new sn :
  slaves_at h head (A ++ c :: B) ss → ss = SA ++ s :: SB → length SA = length A →
  dat h new = Some sn → new ∉ A ++ c :: B → nxt h new = Some NULL →
  ∃ h', insert_after c new h = Ret (tt, h') ∧
    slaves_at h' head (A ++ c :: new :: B) (SA ++ s :: sn :: SB) ∧ same_cells h h' ∧
    (∀ q, dat h' q = dat h q).
Proof.
  intros Hat -> Hlen Hnew Hnin Hnn. pose proof (slaves_next _ _ _ _ _ _ Hat) as Hcn.
  pose proof (slaves_not_null _ _ _ _ c Hat ltac:(mem)) as Hc0.
  pose proof (λ q, slaves_not_null _ _ _ _ q Hat) as Hq0.
  destruct Hat as [Hnd Hc Hh Hl Hd].
  destruct (Forall2_app_inv _ _ _ _ _ (eq_sym Hlen) Hd) as [HdA HdB].
  apply Forall2_cons_1 in HdB as [Hs HdB].
  assert (new ≠ c) by (intros ->; apply Hnin; mem).
  pose proof (dat_is_valid _ _ _ Hnew). pose proof (dat_is_valid _ _ _ Hs).
  pose proof Hnd as (HA & HcB & _)%NoDup_app_cons_inv.
  pose proof Hc as [HcA HcB']%chain_split.
  assert (∀ h' : sheap, (∀ q, dat h' q = dat h q) →
    Forall2 (λ p s, dat h' p = Some s) (A ++ c :: new :: B) (SA ++ s :: sn :: SB)) as Hdata.
  { intros h' He. apply Forall2_app; [|constructor; [by rewrite He|constructor; [by rewrite He|]]];
      (eapply Forall2_impl; [eassumption|]; intros q x Hq; by rewrite He). }
  assert (NoDup (A ++ c :: new :: B)) as Hnd'.
  { rewrite (cons_middle c), app_assoc. apply (NoDup_Permutation_proper _ (new :: A ++ c :: B)).
    - rewrite <- Permutation_middle. by rewrite <- app_assoc.
    - by apply NoDup_cons. }
  destruct B as [|b B].
  - exists (upd_prev new c (upd_next c new h)). cbn [hd] in Hcn.
    assert (∀ q, dat (upd_prev new c (upd_next c new h)) q = dat h q) as Hdat
      by (intros q; by rewrite dat_upd_prev, dat_upd_next).
    split_and!; [| |cells|done].
    + unfold insert_after. rd_next NULL. rewrite bool_decide_eq_false_2 by tauto. rb. wr_next.
      apply set_prev_run. valids.
    + split; [done| |by rewrite Hh; destruct A| |by apply Hdata].
      * rewrite (cons_middle c), app_assoc. apply chain_join; [|by lk|by lk|done].
        apply chain_upd_prev'; [clear - Hnin; intros ?; apply Hnin; mem|]. by apply chain_upd_next.
      * intros p Hp. rewrite (cons_middle c), app_assoc, last_snoc in Hp. injection Hp as <-. by lk.
  - cbn [hd] in Hcn. pose proof HcB' as (_ & Hbc & HcB'')%chain_cons2.
    assert (b ≠ NULL) as Hb0 by (apply Hq0; mem).
    assert (new ≠ b) by (intros ->; apply Hnin; mem). assert (c ≠ b) by (intros ->; apply HcB; mem).
    assert (valid h b) by eauto with links.
    exists (upd_prev new c (upd_next c new (upd_prev b new (upd_next new b h)))).
    assert (∀ q, dat (upd_prev new c (upd_next c new (upd_prev b new (upd_next new b h)))) q = dat h q)
      as Hdat by (intros q; by rewrite dat_upd_prev, dat_upd_next, dat_upd_prev, dat_upd_next).
    split_and!; [| |cells|done].
    + unfold insert_after. rd_next b. rewrite bool_decide_eq_true_2 by done. rb. wr_next.
      rb. rd_next b. wr_prev. wr_next. apply set_prev_run. valids.
    + split; [done| |by rewrite Hh; destruct A| |by apply Hdata].
      * rewrite (cons_middle c), app_assoc. apply chain_join; [|by lk|by lk|].
        -- apply chain_upd_prev'; [clear - Hnin; intros ?; apply Hnin; mem|]. apply chain_upd_next; [done|].
           apply chain_upd_prev'; [|apply chain_upd_next'; [clear - Hnin; intros ?; apply Hnin; mem|done]].
           intros Hin. apply NoDup_app in Hnd as (_ & Hdis & _).
           apply elem_of_app in Hin as [Hin|Hin%list_elem_of_singleton]; [|congruence].
           apply (Hdis b Hin). mem.
        -- rewrite chain_cons2. split_and!; [by lk|by lk|].
           apply chain_upd_prev'; [clear - Hnin; intros ?; apply Hnin; mem|].
           apply chain_upd_next'; [done|].
           apply chain_upd_prev; [apply NoDup_app in Hnd as (_ & _ & Hnd);
             apply NoDup_cons in Hnd as [_ Hnd]; by apply NoDup_cons in Hnd as [? _]|].
           apply chain_upd_next'; [clear - Hnin; intros ?; apply Hnin; mem|done].
      * intros p Hp. rewrite last_app, last_cons_cons, last_cons_cons in Hp.
        assert (p ∈ b :: B) as Hpb.
        { destruct (last (b :: B)) eqn:E; [|by apply last_None in E]. injection Hp as <-.
          by apply last_Some_elem_of. }
        assert (c ≠ p) by (intros ->; done).
        assert (new ≠ p) by (intros ->; apply Hnin; mem).
        lk. apply Hl. rewrite last_app, last_cons_cons. exact Hp.
Qed.

(** ** Registration *)

Record master_ok (m : tpcmaster) (brk : Z) (ss : list tpcslave) : Prop := {
  mo_slaves : ∃ ps, slaves_at (tm_slaves m) (slaves_head m) ps ss;
  mo_fresh : 0 < brk ∧ ∀ p, valid (tm_slaves m) p → p < brk;
  mo_count : slave_count m = Z.of_nat (length ss);
  mo_cap : Z.of_nat (length ss) ≤ slave_capacity m < 2 ^ 32
}.

Definition set_slaves (head : Z) (h : sheap) (m : tpcmaster) : tpcmaster :=
  TPCMaster (slave_capacity m) (slave_count m) (redundancy m) head h (tm_cache m).

Definition alloc_slave (p : Z) (s : tpcslave) (h : sheap) : sheap := <[p := DlNode NULL NULL s]> h.

Lemma alloc_slave_deref h p s q :
  p ≠ NULL →
  deref (alloc_slave p s h) q = if decide (p = q) then Some (DlNode NULL NULL s) else deref h q.
Proof.
  intros Hp. unfold alloc_slave, deref. case_decide as E.
  - subst q. rewrite bool_decide_eq_false_2 by done. apply lookup_insert_eq.
  - case_bool_decide; [done|]. by apply lookup_insert_ne.
Qed.

Lemma alloc_slave_at h head ps ss p s :
  slaves_at h head ps ss → p ≠ NULL → ¬ valid h p →
  slaves_at (alloc_slave p s h) head ps ss ∧ p ∉ ps ∧ dat (alloc_slave p s h) p = Some s ∧
  nxt (alloc_slave p s h) p = Some NULL.
Proof.
  intros Hat Hp Hv. assert (p ∉ ps) as Hnin.
  { intros Hin. apply Hv. apply list_elem_of_lookup in Hin as (i & Hi).
    destruct (Forall2_lookup_l _ _ _ _ _ (sa_data _ _ _ _ Hat) Hi) as (x & _ & Hx). by eapply dat_is_valid. }
  assert (∀ q, q ∈ ps → deref (alloc_slave p s h) q = deref h q) as E.
  { intros q Hq. rewrite alloc_slave_deref by done. rewrite decide_False; [done|]. by intros ->. }
  destruct Hat as [Hnd Hc Hh Hl Hd]. split_and!; [|done|..].
  - split; try done.
    + eapply chain_ext; [|exact Hc]. intros q Hq. unfold nxt, prv. by rewrite E.
    + intros q Hq. unfold nxt. rewrite E by (by eapply last_Some_elem_of). by apply Hl.
    + apply Forall2_same_length_lookup_2; [by eapply Forall2_length|].
      intros i q x Hq Hx. unfold dat. rewrite E by (by eapply list_elem_of_lookup_2).
      exact (Forall2_lookup_lr _ _ _ _ _ _ Hd Hq Hx).
  - unfold dat. by rewrite alloc_slave_deref, decide_True.
  - unfold nxt. by rewrite alloc_slave_deref, decide_True.
Qed.

Lemma on_slaves_run {A} (mm : M sheap A) m w a h :
  mm (tm_slaves m) = Ret (a, h) → on_slaves mm (m, w) = Ret (a, (set_slaves (slaves_head m) h m, w)).
Proof. unfold on_slaves. simpl. by intros ->. Qed.

Lemma on_slaves_read {A} (mm : M sheap A) m w a :
  mm (tm_slaves m) = Ret (a, tm_slaves m) → on_slaves mm (m, w) = Ret (a, (m, w)).
Proof. intros H. rewrite (on_slaves_run _ _ _ _ _ H). by destruct m. Qed.

(** What the middle of [register_slave] does with the allocated node. *)
Definition link_slave (idhash head newslave : Z) : M TM bool :=
  if bool_decide (head ≠ NULL) then
    hid ← on_slaves (slave_id head);
    if bool_decide (idhash < hid) then
      on_slaves (set_next newslave head);;
      on_slaves (set_prev head newslave);;
      set_head newslave;;
      mret false
    else
      fuel ← gets (λ s, S (size (tm_slaves s.1)));
      r ← on_slaves (register_loop fuel idhash head (bool_decide (hid = idhash)));
      (if negb r.2 then on_slaves (insert_after r.1 newslave) else mret tt);;
      mret r.2
  else
    set_head newslave;;
    mret false.

Lemma link_slave_run m w ps ss p new :
  slaves_at (tm_slaves m) (slaves_head m) ps ss → p ∉ ps → dat (tm_slaves m) p = Some new →
  nxt (tm_slaves m) p = Some NULL →
  ∃ ex head h ps', link_slave (sl_id new) (slaves_head m) p (m, w) = Ret (ex, (set_slaves head h m, w)) ∧
    slaves_at h head ps' (reg_list new ss) ∧ same_cells (tm_slaves m) h ∧
    length (reg_list new ss) = (if ex then length ss else S (length ss)).
Proof.
  intros Hat Hnin Hnew Hnn. unfold link_slave.
  pose proof (dat_is_valid _ _ _ Hnew) as Hvp.
  destruct ps as [|q ps], ss as [|s ss]; try by destruct Hat as [_ _ _ _ ?%Forall2_length].
  - rewrite (sa_head _ _ _ _ Hat). cbn [hd]. rewrite bool_decide_eq_false_2 by tauto.
    exists false, p, (tm_slaves m), [p]. split_and!; [done| |done|done].
    split; [apply NoDup_singleton|done|done| |by constructor]. by intros ? [= <-].
  - pose proof (slaves_not_null _ _ _ _ q Hat ltac:(mem)) as Hq. pose proof (sa_head _ _ _ _ Hat) as Hh.
    cbn [hd] in Hh. rewrite bool_decide_eq_true_2 by congruence.
    pose proof (sa_data _ _ _ _ Hat) as [Hs _]%Forall2_cons_1.
    rewrite (bind_Ret _ _ _ (sl_id s) (m, w))
      by (apply on_slaves_read, slave_id_run; by rewrite Hh). cbn [reg_list].
    case_bool_decide as Hlt.
    + destruct (slaves_cons _ _ _ _ p new Hat) as (h & E & Hat' & Hcells & _); [done..|].
      apply bind_inv in E as ([] & h1 & E1 & E2).
      rewrite (bind_Ret _ _ _ _ _ (on_slaves_run _ m w _ _ E1)).
      rewrite (bind_Ret _ _ _ _ _ (on_slaves_run _ (set_slaves (slaves_head m) h1 m) w _ _ E2)).
      exists false, p, h, (p :: q :: ps). split_and!; done.
    + rewrite (bind_Ret _ _ _ (S (size (tm_slaves m))) (m, w)) by done.
      assert (length (q :: ps) ≤ size (tm_slaves m))%nat as Hsz.
      { apply NoDup_valid_size; [apply (sa_nodup _ _ _ _ Hat)|]. apply Forall_forall. intros r Hr.
        apply list_elem_of_lookup in Hr as (i & Hi).
        destruct (Forall2_lookup_l _ _ _ _ _ (sa_data _ _ _ _ Hat) Hi) as (x & _ & Hx).
        by eapply dat_is_valid. }
      cbn [length] in Hsz.
      destruct (register_loop_run (S (size (tm_slaves m))) _ _ (sl_id new) [] q ps [] s ss
        (bool_decide (sl_id s = sl_id new)) Hat eq_refl) as (c & Hc & E); [lia|].
      rewrite Hh. rewrite (bind_Ret _ _ _ _ _ (on_slaves_read _ m w _ E)).
      pose proof (reg_walk_bound (sl_id new) s ss (bool_decide (sl_id s = sl_id new))) as Hbd.
      destruct (reg_walk _ s ss _) as [n ex]. cbn [fst snd] in *. destruct ex; cbn [negb].
      * exists true, (slaves_head m), (tm_slaves m), (q :: ps). split_and!; try done.
        rewrite ret_bind. by destruct m.
      * destruct (lookup_lt_is_Some_2 (s :: ss) n) as [x Hx]; [simpl; lia|].
        rewrite (list_split_lookup _ _ _ Hc) in Hat, Hnin.
        destruct (insert_after_run _ _ _ _ _ (s :: ss) (take n (s :: ss)) x (drop (S n) (s :: ss)) p new Hat)
          as (h & E2 & Hat' & Hcells & _); try done.
        { by apply list_split_lookup. }
        { apply lookup_lt_Some in Hc, Hx. rewrite !length_take. lia. }
        rewrite (bind_Ret _ _ _ _ _ (on_slaves_run _ m w _ _ E2)).
        exists false, (slaves_head m), h, (take n (q :: ps) ++ c :: p :: drop (S n) (q :: ps)).
        split_and!; [done| |done|].
        { rewrite (take_S_r _ _ _ Hx), <- app_assoc. exact Hat'. }
        { rewrite length_app. cbn [length]. rewrite length_take, length_drop. simpl. lia. }
Qed.

Lemma register_slave_run m w ss id host port :
  master_ok m (w_brk w) ss → mem_ok w →
  ∃ m' w', register_slave id host port (m, w) =
      Ret (bool_decide (Z.of_nat (length ss) < slave_capacity m), (m', w')) ∧
    master_ok m' (w_brk w')
      (if bool_decide (Z.of_nat (length ss) < slave_capacity m)
       then reg_list (TPCSlave id host port) ss else ss) ∧
    slave_capacity m' = slave_capacity m ∧ same_fs w w'.
Proof.
  intros [(ps & Hat) [Hb Hfr] Hcnt Hcap] Hm. unfold register_slave.
  rewrite (bind_Ret _ _ _ (m, w) (m, w)) by done. cbn [fst]. rewrite Hcnt.
  case_bool_decide as Hlt.
  2:{ exists m, w. split_and!; [done| |done|by apply same_fs_refl]. split; try done. by exists ps. }
  destruct (malloc_run w Hm) as (w1 & E1 & Hs1 & Hb1).
  rewrite (bind_Ret _ _ _ (w_brk w) (m, w1)) by (unfold on_w; simpl; by rewrite E1).
  rewrite bool_decide_eq_false_2 by (unfold NULL; lia).
  set (new := TPCSlave id host port). set (p := w_brk w) in *.
  assert (¬ valid (tm_slaves m) p) as Hnv by (intros Hv; specialize (Hfr p Hv); lia).
  destruct (alloc_slave_at _ _ _ _ p new Hat) as (Hat1 & Hnin & Hnew & Hnn); [unfold NULL; lia|done|].
  set (m1 := set_slaves (slaves_head m) (alloc_slave p new (tm_slaves m)) m).
  rewrite (bind_Ret _ _ _ tt (m1, w1)) by done.
  destruct (link_slave_run m1 w1 ps ss p new Hat1 Hnin Hnew Hnn)
    as (ex & head & h & ps' & E2 & Hat2 & Hcells & Hlen).
  unfold link_slave in E2. cbn [slaves_head m1 set_slaves] in E2. rewrite (bind_Ret _ _ _ _ _ E2).
  assert (∀ q, valid h q → q < w_brk w1) as Hfr2.
  { intros q Hq. apply Hcells in Hq. unfold valid, m1 in Hq. cbn [tm_slaves set_slaves] in Hq.
    rewrite alloc_slave_deref in Hq by (unfold NULL; lia). case_decide; [lia|].
    specialize (Hfr q Hq). lia. }
  exists (TPCMaster (slave_capacity m) (if ex then slave_count m else u32 (slave_count m + 1))
            (redundancy m) head h (tm_cache m)), w1. split_and!; [by destruct ex| |done|done].
  split; cbn [tm_slaves slaves_head slave_count slave_capacity]; [by exists ps'|split; [lia|done]| |];
    rewrite Hlen, ?Hcnt; destruct ex; rewrite ?uwrap_id by lia; lia.
Qed.

(** ** Choosing slaves *)

(** The first slave in list order with an identifier above the key's, else the
    first of the list. *)
Definition primary_of (keyhash : Z) (ss : list tpcslave) : nat :=
  match list_find (λ s, keyhash < sl_id s) ss with Some (i, _) => i | None => 0%nat end.

Lemma primary_loop_run fuel h head kh A p B SA s SB :
  slaves_at h head (A ++ p :: B) (SA ++ s :: SB) → length SA = length A → (length B < fuel)%nat →
  ∃ i q x, (p :: B) !! i = Some q ∧ (s :: SB) !! i = Some x ∧
    primary_loop fuel kh p h = Ret (q, h) ∧
    (list_find (λ s, kh < sl_id s) (s :: SB) = Some (i, x) ∨
     list_find (λ s, kh < sl_id s) (s :: SB) = None ∧ i = length SB).
Proof.
  revert A p B SA s SB. induction fuel as [|fuel IH]; intros A p B SA s SB Hat Hlen Hf; [lia|].
  pose proof (slaves_next _ _ _ _ _ _ Hat) as Hnx.
  destruct (Forall2_app_inv _ _ _ _ _ (eq_sym Hlen) (sa_data _ _ _ _ Hat)) as [_ Hpb].
  apply Forall2_cons_1 in Hpb as [Hs HB]. cbn [primary_loop]. run_step (get_next_run _ _ _ Hnx).
  destruct B as [|q B], SB as [|s' SB]; try by apply Forall2_length in HB.
  - cbn [hd]. rewrite bool_decide_eq_true_2 by done. exists 0%nat, p, s. split_and!; try done.
    cbn [list_find]. case_decide; [by left|by right].
  - cbn [hd]. rewrite bool_decide_eq_false_2 by (eapply slaves_not_null; [exact Hat|mem]).
    run_step (slave_id_run _ _ _ Hs). case_bool_decide as Hlt.
    + destruct (IH (A ++ [p]) q B (SA ++ [s]) s' SB) as (i & r & x & Hr & Hx & E & Hfind).
      { rewrite <- !app_assoc. exact Hat. } { rewrite !length_app. simpl. lia. } { simpl in Hf. lia. }
      exists (S i), r, x. split_and!; try done.
      assert (list_find (λ s0, kh < sl_id s0) (s :: s' :: SB) =
        prod_map S id <$> list_find (λ s0, kh < sl_id s0) (s' :: SB)) as ->.
      { remember (s' :: SB) as l. cbn [list_find]. by rewrite decide_False by lia. }
      destruct Hfind as [->|[-> ->]]; [by left|by right].
    + exists 0%nat, p, s. split_and!; try done. left. cbn [list_find]. by rewrite decide_True by lia.
Qed.

Lemma get_primary_run m w ps ss key :
  slaves_at (tm_slaves m) (slaves_head m) ps ss → ss ≠ [] →
  ∃ p, ps !! primary_of (hash_64_bit key) ss = Some p ∧
    tpcmaster_get_primary key (m, w) = Ret (p, (m, w)).
Proof.
  intros Hat Hne. set (kh := hash_64_bit key).
  destruct ps as [|q ps], ss as [|s ss]; try by destruct Hat as [_ _ _ _ ?%Forall2_length].
  pose proof (sa_head _ _ _ _ Hat) as Hh. cbn [hd] in Hh.
  assert (length (q :: ps) ≤ size (tm_slaves m))%nat as Hsz.
  { apply NoDup_valid_size; [apply (sa_nodup _ _ _ _ Hat)|]. apply Forall_forall. intros r Hr.
    apply list_elem_of_lookup in Hr as (i & Hi).
    destruct (Forall2_lookup_l _ _ _ _ _ (sa_data _ _ _ _ Hat) Hi) as (x & _ & Hx).
    by eapply dat_is_valid. }
  cbn [length] in Hsz.
  destruct (primary_loop_run (S (size (tm_slaves m))) _ _ kh [] q ps [] s ss Hat eq_refl)
    as (i & r & x & Hr & Hx & E & Hfind); [lia|].
  unfold tpcmaster_get_primary. rewrite (bind_Ret _ _ _ (m, w) (m, w)) by done. cbn [fst].
  rewrite Hh. rewrite (bind_Ret _ _ _ _ _ (on_slaves_read _ m w _ E)).
  assert (nxt (tm_slaves m) r = Some (hd NULL (drop (S i) (q :: ps)))) as Hnx.
  { rewrite (list_split_lookup _ _ _ Hr) in Hat. by eapply slaves_next. }
  rewrite (bind_Ret _ _ _ _ _ (on_slaves_read _ m w _ (get_next_run _ _ _ Hnx))).
  pose proof (Forall2_lookup_lr _ _ _ _ _ _ (sa_data _ _ _ _ Hat) Hr Hx) as Hdr.
  pose proof (Forall2_length _ _ _ (sa_data _ _ _ _ Hat)) as Hlen. cbn [length] in Hlen.
  unfold primary_of. destruct Hfind as [Hf|[Hf ->]].
  - rewrite Hf. apply list_find_Some in Hf as (_ & Hlt & _). exists r. split; [done|].
    case_bool_decide; [done|].
    rewrite (bind_Ret _ _ _ _ _ (on_slaves_read _ m w _ (slave_id_run _ _ _ Hdr))).
    by rewrite bool_decide_eq_false_2 by lia.
  - rewrite Hf. exists q. split; [done|].
    rewrite bool_decide_eq_false_2 by (rewrite drop_ge by (simpl; lia); tauto).
    rewrite (bind_Ret _ _ _ _ _ (on_slaves_read _ m w _ (slave_id_run _ _ _ Hdr))).
    rewrite bool_decide_eq_true_2; [done|]. apply list_find_None in Hf. rewrite Forall_forall in Hf.
    specialize (Hf x (list_elem_of_lookup_2 _ _ _ Hx)). lia.
Qed.

(** On a list sorted by identifier, the primary is the slave with the least
    identifier above the key's, or the least of all. *)
Lemma primary_of_sorted kh ss i :
  StronglySorted (λ a b, sl_id a < sl_id b) ss → i = primary_of kh ss → ss ≠ [] →
  ∃ s, ss !! i = Some s ∧
    (kh < sl_id s ∧ (∀ t, t ∈ ss → kh < sl_id t → sl_id s ≤ sl_id t) ∨
     (∀ t, t ∈ ss → sl_id t ≤ kh) ∧ (∀ t, t ∈ ss → sl_id s ≤ sl_id t)).
Proof.
  intros Hs -> Hne. unfold primary_of. destruct (list_find _ ss) as [[i s]|] eqn:Hf.
  - apply list_find_Some in Hf as (Hi & Hlt & Hbef). exists s. split; [done|]. left. split; [done|].
    intros t Ht Hkt. apply list_elem_of_lookup in Ht as (j & Hj).
    destruct (decide (j < i)%nat) as [Hji|Hji]; [exfalso; by apply (Hbef j t Hj Hji)|].
    destruct (decide (i = j)) as [->|]; [assert (s = t) by congruence; subst; lia|].
    pose proof (StronglySorted_lookup_lt _ _ i j s t Hs ltac:(lia) Hi Hj). simpl in *. lia.
  - apply list_find_None in Hf. rewrite Forall_forall in Hf. destruct ss as [|s ss]; [done|].
    exists s. split; [done|]. right. split.
    + intros t Ht. specialize (Hf t Ht). lia.
    + apply StronglySorted_inv in Hs as [_ Hall]. rewrite Forall_forall in Hall.
      intros t [->|Ht]%elem_of_cons; [done|]. specialize (Hall t Ht). simpl in Hall. lia.
Qed.

(** ** Order *)

Definition by_id (a b : tpcslave) : Prop := sl_id a < sl_id b.

Lemma reg_walk_spec id s t ex :
  (∀ x, x ∈ t → sl_id x ≠ id) →
  (reg_walk id s t ex).2 = ex ∧
  ∃ c, (s :: t) !! (reg_walk id s t ex).1 = Some c ∧
    (id ≤ sl_id c ∨ (reg_walk id s t ex).1 = length t).
Proof.
  revert s ex. induction t as [|s' t IH]; intros s ex Ht; cbn [reg_walk].
  { split; [done|]. exists s. split; [done|by right]. }
  case_bool_decide as Hlt; cbn [fst snd]; [|split; [done|exists s; split; [done|left; lia]]].
  rewrite bool_decide_eq_false_2 by (apply Ht; left). rewrite orb_false_r.
  destruct (IH s' ex) as [He (c & Hc & Hor)]; [intros x Hx; apply Ht; by right|].
  destruct (reg_walk id s' t ex) as [n e]. cbn [fst snd] in *. split; [done|].
  exists c. split; [done|]. destruct Hor as [|Hn]; [by left|right]. simpl. lia.
Qed.

(** When a sorted list stays sorted. *)
Lemma reg_list_sorted new ss :
  StronglySorted by_id ss → (∀ x, x ∈ ss → sl_id x ≠ sl_id new) →
  StronglySorted by_id (reg_list new ss) ↔
    (∀ x, x ∈ ss → sl_id new < sl_id x) ∨ (∀ x, x ∈ ss → sl_id x < sl_id new).
Proof.
  intros Hs Hne. destruct ss as [|s t].
  { cbn [reg_list]. split; [|by repeat constructor]. intros _. left. by intros x ?%elem_of_nil. }
  cbn [reg_list]. pose proof Hs as [Hst Hall]%StronglySorted_inv. rewrite Forall_forall in Hall.
  case_bool_decide as Hlt.
  { split; [intros _; left|intros _].
    - intros x [->|Hx]%elem_of_cons; [done|]. specialize (Hall x Hx). unfold by_id in Hall. lia.
    - constructor; [done|]. apply Forall_forall. intros x [->|Hx]%elem_of_cons; [done|].
      specialize (Hall x Hx). unfold by_id in *. lia. }
  assert (sl_id s < sl_id new) as Hsn by (specialize (Hne s (list_elem_of_here _ _)); lia).
  rewrite bool_decide_eq_false_2 by lia.
  destruct (reg_walk_spec (sl_id new) s t false) as [He (c & Hc & Hor)].
  { intros x Hx. apply Hne. by right. }
  destruct (reg_walk (sl_id new) s t false) as [n e]. cbn [fst snd] in *. subst e.
  pose proof (list_elem_of_lookup_2 _ _ _ Hc) as Hin.
  split.
  - intros Hsort. right. rewrite (take_S_r _ _ _ Hc), <- app_assoc in Hsort.
    assert (sl_id c < sl_id new) as Hcn.
    { apply StronglySorted_app_1_r, StronglySorted_cons in Hsort as [Hf _].
      rewrite Forall_forall in Hf. apply (Hf new). mem. }
    destruct Hor as [|Hn]; [lia|]. intros x Hx. apply list_elem_of_lookup in Hx as (j & Hj).
    pose proof (lookup_lt_Some _ _ _ Hj) as Hjl. cbn [length] in Hjl.
    destruct (decide (j = n)) as [->|]; [assert (x = c) by congruence; subst; lia|].
    pose proof (StronglySorted_lookup_lt _ _ j n x c Hs ltac:(lia) Hj Hc) as Hb. unfold by_id in Hb. lia.
  - intros [Hor'|Hor']; [specialize (Hor' s (list_elem_of_here _ _)); lia|].
    destruct Hor as [Hge|Hn]; [specialize (Hor' c Hin); lia|].
    rewrite take_ge, drop_ge by (simpl; lia). apply StronglySorted_app_2; [|done|by repeat constructor].
    intros x y Hx ->%list_elem_of_singleton. by apply Hor'.
Qed.

Lemma reg_walk_met id s t ex : (reg_walk id s t ex).2 = true → ex = true ∨ ∃ x, x ∈ t ∧ sl_id x = id.
Proof.
  revert s ex. induction t as [|s' t IH]; intros s ex; cbn [reg_walk]; [by left|].
  case_bool_decide; [|by left]. destruct (reg_walk id s' t _) as [n e] eqn:E. cbn [snd]. intros ->.
  destruct (IH s' (ex || bool_decide (sl_id s' = id))) as [Ho|(x & Hx & Hid)]; [by rewrite E| |right; exists x; split; [by right|done]].
  apply orb_true_iff in Ho as [Ho|Ho%bool_decide_eq_true]; [by left|]. right. exists s'. split; [left|done].
Qed.

(** A registration adds the slave, or finds a slave with its identifier. *)
Lemma reg_list_adds new ss : reg_list new ss ≡ₚ new :: ss ∨ reg_list new ss = ss ∧ ∃ x, x ∈ ss ∧ sl_id x = sl_id new.
Proof.
  destruct ss as [|s t]; [by left|]. cbn [reg_list]. case_bool_decide; [by left|].
  pose proof (reg_walk_met (sl_id new) s t (bool_decide (sl_id s = sl_id new))) as Hm. destruct (reg_walk _ s t _) as [n []]; cbn [snd] in Hm.
  - right. split; [done|]. destruct (Hm eq_refl) as [Hs%bool_decide_eq_true|(x & Hx & Hid)]; [exists s; split; [left|done]|exists x; split; [by right|done]].
  - left. rewrite <- Permutation_middle. by rewrite take_drop.
Qed.

Lemma reg_walk_keeps id s t : (reg_walk id s t true).2 = true.
Proof.
  revert s. induction t as [|s' t IH]; intros s; cbn [reg_walk]; [done|]. case_bool_decide; [|done].
  cbn [orb]. specialize (IH s'). by destruct (reg_walk id s' t true).
Qed.

Lemma reg_walk_finds id s t ex x :
  StronglySorted by_id (s :: t) → x ∈ t → sl_id x = id → (reg_walk id s t ex).2 = true.
Proof.
  revert s ex. induction t as [|s' t IH]; intros s ex Hs Hx Hid; [by apply elem_of_nil in Hx|].
  apply StronglySorted_inv in Hs as [Hs Hall]. rewrite Forall_forall in Hall. cbn [reg_walk].
  specialize (Hall x Hx) as Hlt. unfold by_id in Hlt. rewrite bool_decide_eq_true_2 by lia.
  apply elem_of_cons in Hx as [->|Hx].
  - rewrite (bool_decide_eq_true_2 (sl_id s' = id)), orb_true_r by done. pose proof (reg_walk_keeps id s' t) as Hk. by destruct (reg_walk id s' t true).
  - specialize (IH s' (ex || bool_decide (sl_id s' = id)) Hs Hx Hid). by destruct (reg_walk id s' t _).
Qed.

(** In a sorted list the search meets a slave that is there. *)
Lemma reg_list_present new ss x : StronglySorted by_id ss → x ∈ ss → sl_id x = sl_id new → reg_list new ss = ss.
Proof.
  intros Hs Hx Hid. destruct ss as [|s t]; [by apply elem_of_nil in Hx|]. cbn [reg_list].
  assert (sl_id s ≤ sl_id new) as Hle.
  { apply StronglySorted_inv in Hs as [_ Hall]. rewrite Forall_forall in Hall.
    apply elem_of_cons in Hx as [->|Hx]; [lia|]. specialize (Hall x Hx). unfold by_id in Hall. lia. }
  rewrite bool_decide_eq_false_2 by lia. apply elem_of_cons in Hx as [->|Hx].
  - rewrite bool_decide_eq_true_2 by done. pose proof (reg_walk_keeps (sl_id new) s t) as Hk. by destruct (reg_walk _ s t true) as [n []].
  - pose proof (reg_walk_finds (sl_id new) s t (bool_decide (sl_id s = sl_id new)) x Hs Hx Hid) as Hk. by destruct (reg_walk _ s t _) as [n []].
Qed.

(** ** Properties *)

(** The slave a registration request describes. *)
Definition new_slave (host port : string) : tpcslave :=
  TPCSlave (hash_64_bit (port +:+ ":" +:+ host)) host (u32 (atoi port)).

Lemma tpcmaster_register_run m w ss host port resp0 :
  master_ok m (w_brk w) ss → mem_ok w →
  ∃ m' w', tpcmaster_register (KVMessage REGISTER (Some host) (Some port) None) resp0 (m, w) =
      Ret (if bool_decide (Z.of_nat (length ss) < slave_capacity m)
           then KVMessage RESP None None (Some MSG_SUCCESS)
           else with_message ERRMSG_GENERIC_ERROR resp0, (m', w')) ∧
    master_ok m' (w_brk w')
      (if bool_decide (Z.of_nat (length ss) < slave_capacity m) then reg_list (new_slave host port) ss else ss).
Proof.
  intros Hok Hm. pose proof (proj1 (mo_fresh _ _ _ Hok)) as Hb.
  assert (∀ b b', b ≤ b' → master_ok m b ss → master_ok m b' ss) as Hmono.
  { intros b b' Hbb [H1 [H2 H3] H4 H5]. split; try done. split; [lia|]. intros p Hp. specialize (H3 p Hp). lia. }
  destruct (malloc_run w Hm) as (w1 & E1 & Hs1 & Hb1).
  destruct (malloc_run w1 ltac:(apply Hs1)) as (w2 & E2 & Hs2 & Hb2).
  destruct (register_slave_run m w2 ss (hash_64_bit (port +:+ ":" +:+ host)) host (u32 (atoi port)))
    as (m' & w' & E & Hok' & _); [apply (Hmono (w_brk w)); [lia|done]|by apply Hs2|].
  exists m', w'. split; [|done]. unfold tpcmaster_register. cbn [km_key km_value].
  rewrite (bind_Ret _ _ _ (w_brk w) (m, w1)) by (unfold on_w; simpl; by rewrite E1).
  rewrite bool_decide_eq_false_2 by (unfold NULL; lia).
  rewrite (bind_Ret _ _ _ (w_brk w1) (m, w2)) by (unfold on_w; simpl; by rewrite E2).
  rewrite bool_decide_eq_false_2 by (unfold NULL; lia). run_step E. by case_bool_decide.
Qed.

(** Registration.  With room for another slave, [tpcmaster_register] answers
    success and the pointer list becomes the list with the new slave in front when
    its identifier is the least, else behind the node where the search stops, or
    unchanged when the search met the identifier; without room it answers an error
    and the list is unchanged.  The count always is the length of the list. *)
Theorem master_register_correct m w ss host port resp0 :
  master_ok m (w_brk w) ss → mem_ok w →
  ∃ m' w' ss', tpcmaster_register (KVMessage REGISTER (Some host) (Some port) None) resp0 (m, w) =
      Ret (if bool_decide (Z.of_nat (length ss) < slave_capacity m)
           then KVMessage RESP None None (Some MSG_SUCCESS)
           else with_message ERRMSG_GENERIC_ERROR resp0, (m', w')) ∧
    ss' = (if bool_decide (Z.of_nat (length ss) < slave_capacity m)
           then reg_list (new_slave host port) ss else ss) ∧
    master_ok m' (w_brk w') ss' ∧ slave_count m' = Z.of_nat (length ss').
Proof.
  intros Hok Hm. destruct (tpcmaster_register_run m w ss host port resp0 Hok Hm) as (m' & w' & E & Hok').
  exists m', w'. eexists. split_and!; [exact E|reflexivity|done|]. apply (mo_count _ _ _ Hok').
Qed.

(** An empty master. *)
Definition tm_test : tpcmaster := TPCMaster 4 0 2 NULL ∅ (KVCache [] 0 0).
Definition w_tm : world := World ∅ ∅ ∅ [] 100.

Lemma tm_test_ok : master_ok tm_test (w_brk w_tm) [].
Proof.
  split; cbn [tm_slaves slaves_head slave_count slave_capacity tm_test length]; [|split; [done|]|done|lia].
  - exists []. split; [constructor|done|done|done|constructor].
  - intros p [n Hn]. unfold deref in Hn. by case_bool_decide.
Qed.

Lemma master_register_correct_witness :
  ∃ m' w' ss', tpcmaster_register (KVMessage REGISTER (Some "localhost") (Some "8080") None)
      (KVMessage RESP None None None) (tm_test, w_tm) =
    Ret (KVMessage RESP None None (Some MSG_SUCCESS), (m', w')) ∧
    ss' = [new_slave "localhost" "8080"] ∧ slave_count m' = 1.
Proof.
  destruct (master_register_correct tm_test w_tm [] "localhost" "8080" (KVMessage RESP None None None)
    tm_test_ok eq_refl) as (m' & w' & ss' & E & Hss & Hok & Hc).
  exists m', w', ss'. split; [exact E|split; [exact Hss|]]. rewrite Hc, Hss. reflexivity.
Defined.

(** The order of the slaves breaks.  A new slave keeps a sorted list sorted
    exactly when its identifier is below or above all of them: any other is put
    after the first larger one. *)
Theorem master_register_sorted_iff m w ss host port resp0 :
  master_ok m (w_brk w) ss → mem_ok w → Z.of_nat (length ss) < slave_capacity m →
  StronglySorted by_id ss → (∀ x, x ∈ ss → sl_id x ≠ sl_id (new_slave host port)) →
  ∃ r m' w' ss', tpcmaster_register (KVMessage REGISTER (Some host) (Some port) None) resp0 (m, w) =
      Ret (r, (m', w')) ∧ master_ok m' (w_brk w') ss' ∧
    (StronglySorted by_id ss' ↔
      (∀ x, x ∈ ss → sl_id (new_slave host port) < sl_id x) ∨
      (∀ x, x ∈ ss → sl_id x < sl_id (new_slave host port))).
Proof.
  intros Hok Hm Hlt Hs Hne.
  destruct (tpcmaster_register_run m w ss host port resp0 Hok Hm) as (m' & w' & E & Hok').
  rewrite (bool_decide_eq_true_2 (Z.of_nat (length ss) < slave_capacity m)) in Hok' by done.
  do 4 eexists. split_and!; [exact E|exact Hok'|]. by apply reg_list_sorted.
Qed.

Lemma master_register_sorted_iff_witness :
  ∃ r m' w' ss', tpcmaster_register (KVMessage REGISTER (Some "localhost") (Some "8080") None)
      (KVMessage RESP None None None) (tm_test, w_tm) = Ret (r, (m', w')) ∧ StronglySorted by_id ss'.
Proof.
  destruct (master_register_sorted_iff tm_test w_tm [] "localhost" "8080" (KVMessage RESP None None None)
    tm_test_ok) as (r & m' & w' & ss' & E & _ & Hiff); [reflexivity|reflexivity|constructor| |].
  - by intros x ?%elem_of_nil.
  - exists r, m', w', ss'. split; [exact E|]. apply Hiff. left. by intros x ?%elem_of_nil.
Defined.

(** The primary of a key.  On a list sorted by identifier,
    [tpcmaster_get_primary] returns the slave with the least identifier greater than
    the key's hash, and the slave with the least identifier when there is none. *)
Theorem master_primary_correct m w ps ss key :
  slaves_at (tm_slaves m) (slaves_head m) ps ss → ss ≠ [] → StronglySorted by_id ss →
  ∃ p i s, tpcmaster_get_primary key (m, w) = Ret (p, (m, w)) ∧
    ps !! i = Some p ∧ ss !! i = Some s ∧
    (hash_64_bit key < sl_id s ∧ (∀ t, t ∈ ss → hash_64_bit key < sl_id t → sl_id s ≤ sl_id t) ∨
     (∀ t, t ∈ ss → sl_id t ≤ hash_64_bit key) ∧ (∀ t, t ∈ ss → sl_id s ≤ sl_id t)).
Proof.
  intros Hat Hne Hs. destruct (get_primary_run m w ps ss key Hat Hne) as (p & Hp & E).
  destruct (primary_of_sorted (hash_64_bit key) ss _ Hs eq_refl Hne) as (s & Hs' & Hor).
  exists p. eexists. exists s. split_and!; [exact E|exact Hp|exact Hs'|exact Hor].
Qed.

(** Two slaves with fixed identifiers. *)
Definition tm_two : tpcmaster :=
  TPCMaster 4 2 2 1
    {[1 := DlNode NULL 2 (TPCSlave 10 "a" 1); 2 := DlNode 1 NULL (TPCSlave 20 "b" 2)]} (KVCache [] 0 0).

Lemma tm_two_at :
  slaves_at (tm_slaves tm_two) (slaves_head tm_two) [1; 2] [TPCSlave 10 "a" 1; TPCSlave 20 "b" 2].
Proof.
  split; [apply (bool_decide_unpack _); vm_compute; exact I|repeat split; reflexivity|reflexivity| |].
  - intros p [= <-]. reflexivity.
  - repeat constructor.
Qed.

Lemma master_primary_correct_witness :
  ∃ p i, tpcmaster_get_primary "k" (tm_two, w_tm) = Ret (p, (tm_two, w_tm)) ∧ [1; 2] !! i = Some p.
Proof.
  destruct (master_primary_correct tm_two w_tm [1; 2] [TPCSlave 10 "a" 1; TPCSlave 20 "b" 2] "k" tm_two_at)
    as (p & i & s & E & Hp & _); [done|repeat constructor|].
  exists p, i. split; [exact E|exact Hp].
Defined.

(** The successor of a slave is the next one of the list, cyclically. *)
Theorem master_successor_correct m w ps ss i p :
  slaves_at (tm_slaves m) (slaves_head m) ps ss → ps !! i = Some p →
  ∃ q, ps !! (S i `mod` length ps)%nat = Some q ∧
    tpcmaster_get_successor p (m, w) = Ret (q, (m, w)).
Proof.
  intros Hat Hi. pose proof (lookup_lt_Some _ _ _ Hi) as Hlt.
  assert (nxt (tm_slaves m) p = Some (hd NULL (drop (S i) ps))) as Hnx.
  { pose proof Hat as Hat'. rewrite (list_split_lookup _ _ _ Hi) in Hat'. by eapply slaves_next. }
  unfold tpcmaster_get_successor.
  rewrite (bind_Ret _ _ _ _ _ (on_slaves_read _ m w _ (get_next_run _ _ _ Hnx))).
  destruct (decide (S i < length ps)%nat) as [Hl|Hl].
  - destruct (lookup_lt_is_Some_2 ps (S i) Hl) as [q Hq].
    rewrite Nat.mod_small by done. rewrite (drop_S _ _ _ Hq). cbn [hd].
    rewrite bool_decide_eq_true_2 by (eapply slaves_not_null; [exact Hat|by eapply list_elem_of_lookup_2]).
    by exists q.
  - rewrite drop_ge by lia. cbn [hd]. rewrite bool_decide_eq_false_2 by tauto.
    replace (S i) with (length ps) by lia. rewrite Nat.Div0.mod_same.
    destruct ps as [|q ps]; [done|]. exists q. split; [done|]. unfold gets. cbn [fst].
    by rewrite (sa_head _ _ _ _ Hat).
Qed.

Lemma master_successor_correct_witness :
  ∃ q, [1; 2] !! (2 `mod` 2)%nat = Some q ∧ tpcmaster_get_successor 2 (tm_two, w_tm) = Ret (q, (tm_two, w_tm)).
Proof. apply (master_successor_correct tm_two w_tm [1; 2] _ 1 2 tm_two_at). reflexivity. Defined.
