(* ===== verification/KvRegister.v ===== *)
(** * KvRegister: a slave registers with the master

    [kvserver_register_master] and [kvserver_get_info_message] of
    [kvstore/src/server/kvserver.c], and the dialogue of a slave and the master over the
    wire format.  A connection is the bytes still to be read and the bytes written. *)

From S2P Require Import Prelude Links Utlist KvWorld KvCacheSet KvCache KvStore TpcLog KvServer KvMessage TpcMaster TpcMasterFacts.

Record conn := Conn { c_in : list ascii; c_out : list ascii }.

Abbreviation SC := (SV * conn)%type.

Definition on_server_world {A} (m : M world A) : M SC A := λ s,
  match m s.1.2 with
  | Ret (a, w) => Ret (a, ((s.1.1, w), s.2))
  | Crash => Crash
  | NoFuel => NoFuel
  end.

Definition on_input {A} (m : M (list ascii) A) : M SC A := λ s,
  match m (c_in s.2) with
  | Ret (a, b) => Ret (a, (s.1, Conn b (c_out s.2)))
  | Crash => Crash
  | NoFuel => NoFuel
  end.

Definition write_conn (b : list ascii) : M SC unit := modify (λ s, (s.1, Conn (c_in s.2) (c_out s.2 ++ b))).

(** [%d]. *)
Definition fmt_d (z : Z) : string := if bool_decide (z < 0) then "-" +:+ fmt_u (- z) else fmt_u z.

(** [calloc] of [n] characters and [strcpy] into the block. *)
Definition copy_string (n : Z) (s : string) : M SC string :=
  p ← on_server_world malloc;
  if bool_decide (p = NULL) then crash else in_buffer n s.

Section register.
Context `{!JsonC}.

Definition kvserver_register_master (beyond : list ascii) : M SC Z :=
  server ← gets (λ s, s.1.1);
  key ← copy_string (strlen (sv_hostname server) + 1) (sv_hostname server);
  portstr ← in_buffer 15 (fmt_d (sv_port server));
  value ← copy_string (strlen portstr + 1) portstr;
  write_conn (kvmessage_send (RawMsg (msgtype_code REGISTER) (Some key) (Some value) None));;
  respmsg ← on_input (kvmessage_parse beyond);
  match respmsg with
  | None => mret 0
  | Some r => match rm_message r with
              | None => crash
              | Some m => mret (if bool_decide (m ≠ MSG_SUCCESS) then -1 else 0)
              end
  end.
End register.

(** [now] is the text of the current time.  The block for the text is one character short. *)
Definition kvserver_get_info_message (now : string) : M SC string :=
  server ← gets (λ s, s.1.1);
  info ← in_buffer 1024 now;
  buf ← in_buffer 256 ("{" +:+ sv_hostname server +:+ ", " +:+ fmt_d (sv_port server) +:+ "}");
  info ← in_buffer 1024 (info +:+ buf);
  copy_string (strlen info) info.

(** ** Numbers in text *)

Lemma digit_pretty d : (d < 10)%N → digit (pretty_N_char d) = Some (Z.of_N d).
Proof. intros Hd. assert (d = 0 ∨ d = 1 ∨ d = 2 ∨ d = 3 ∨ d = 4 ∨ d = 5 ∨ d = 6 ∨ d = 7 ∨ d = 8 ∨ d = 9)%N as H by lia. by destruct_or! H; subst d. Qed.

Lemma digits_value_pretty x s : digits_value 0 (pretty_N_go x s) = digits_value (Z.of_N x) s.
Proof.
  revert s. induction (N.lt_wf_0 x) as [x _ IH]; intros s. destruct (decide (x = 0%N)) as [->|Hx]; [done|].
  rewrite pretty_N_go_step by lia. rewrite IH by (apply N.div_lt; lia). cbn [digits_value].
  rewrite digit_pretty by (apply N.mod_lt; lia). f_equal. pose proof (N.div_mod x 10 ltac:(lia)). lia.
Qed.

Lemma digits_value_fmt z : 0 ≤ z → digits_value 0 (fmt_u z) = z.
Proof.
  intros Hz. unfold fmt_u, pretty, pretty_N. case_decide as E; [|rewrite digits_value_pretty; cbn [digits_value]; lia].
  assert (z = 0) as -> by lia. done.
Qed.

Lemma fmt_u_head z : 0 ≤ z → ∃ c t, fmt_u z = String c t ∧ (48 ≤ N_of_ascii c ≤ 57)%N.
Proof.
  intros Hz. pose proof (fmt_u_digits z) as Hd. pose proof (digits_value_fmt z Hz) as Hv. destruct (fmt_u z) as [|c t] eqn:E.
  - cbn in Hv. subst z. discriminate E.
  - exists c, t. split; [done|]. cbn [all_digits] in Hd. apply andb_true_iff in Hd as [[?%N.leb_le ?%N.leb_le]%andb_true_iff _]. done.
Qed.

(** [atoi] reads what [%d] wrote. *)
Lemma atoi_fmt_d z : is_s32 z → atoi (fmt_d z) = z.
Proof.
  unfold is_s32. intros Hz. unfold fmt_d, atoi. case_bool_decide as Hn.
  - change (skip_space ("-" +:+ fmt_u (- z))) with ("-" +:+ fmt_u (- z)). cbv [String.append]. cbn iota beta.
    rewrite digits_value_fmt, Z.opp_involutive by lia. rewrite Z.min_l, Z.max_r, swrap_id by lia. done.
  - destruct (fmt_u_head z ltac:(lia)) as (c & t & E & Hc). pose proof (digits_value_fmt z ltac:(lia)) as Hv. rewrite E in *.
    assert (is_space c = false) as Hsp.
    { unfold is_space. cbn zeta. apply bool_decide_eq_false_2. intros [H|H]; lia. }
    cbn [skip_space]. rewrite Hsp.
    assert (c ≠ "-"%char ∧ c ≠ "+"%char) as [Hm Hp] by
      (split; intros ->; [change (N_of_ascii "-") with 45%N in Hc|change (N_of_ascii "+") with 43%N in Hc]; lia).
    replace (match String c t with String "-" t => - digits_value 0 t | String "+" t => digits_value 0 t | t => digits_value 0 t end) with z.
    + rewrite Z.min_l, Z.max_r, swrap_id by lia. done.
    + rewrite <- Hv. by destruct c as [[] [] [] [] [] [] [] []].
Qed.

Lemma all_digits_cstring s : all_digits s = true → cstring s.
Proof.
  unfold cstring. induction s as [|c s IH]; [done|]. cbn [all_digits no_nul]. intros [[H _]%andb_true_iff Hs]%andb_true_iff.
  rewrite IH, andb_true_r by done. apply N.leb_le in H.
  apply bool_decide_eq_true_2. intros ->. by vm_compute in H.
Qed.

Lemma fmt_d_cstring z : cstring (fmt_d z).
Proof.
  unfold fmt_d. pose proof (all_digits_cstring _ (fmt_u_digits z)). pose proof (all_digits_cstring _ (fmt_u_digits (- z))) as Hn.
  case_bool_decide; [|done]. exact Hn.
Qed.

Lemma fmt_d_length z : is_s32 z → strlen (fmt_d z) < 15.
Proof.
  unfold is_s32. intros Hz. assert (∀ x, 0 ≤ x ≤ 2 ^ 31 → strlen (fmt_u x) ≤ 10) as Hl.
  { intros x Hx. unfold fmt_u, pretty, pretty_N, strlen. case_decide; [by vm_compute|].
    assert (Z.to_N x < 10 ^ N.of_nat 10)%N as Hlt by (apply N2Z.inj_lt; rewrite Z2N.id by lia; change (Z.of_N (10 ^ N.of_nat 10)) with (10 ^ 10); lia).
    pose proof (pretty_N_go_length 10 (Z.to_N x) "" Hlt) as H1. change (String.length "" + 10)%nat with 10%nat in H1. lia. }
  unfold fmt_d. case_bool_decide; [|pose proof (Hl z ltac:(lia)); lia].
  pose proof (Hl (- z) ltac:(lia)) as H1. unfold strlen in *. change (String.length ("-" +:+ fmt_u (- z))) with (S (String.length (fmt_u (- z)))). lia.
Qed.

(** ** The two sides *)

Section dialogue.
Context `{!JsonC} `{!JsonLaws _}.

(** The text of a message fits the length field. *)
Definition sendable (m : rawmsg) : Prop := strlen (json_object_to_json_string (message_json m)) < 2 ^ 31.

Definition request (server : kvserver) : kvmessage := KVMessage REGISTER (Some (sv_hostname server)) (Some (fmt_d (sv_port server))) None.

Lemma copy_string_run s server w c : mem_ok w → 0 < w_brk w → ∃ w', copy_string (strlen s + 1) s ((server, w), c) = Ret (s, ((server, w'), c)) ∧ mem_ok w' ∧ 0 < w_brk w'.
Proof.
  intros Hm Hb. destruct (malloc_run w Hm) as (w' & E & Hs & Hb'). exists w'. split; [|split; [apply Hs|lia]]. unfold copy_string.
  rewrite (bind_Ret _ _ _ (w_brk w) ((server, w'), c)) by (unfold on_server_world; cbn; by rewrite E).
  rewrite bool_decide_eq_false_2 by (unfold NULL; lia). unfold in_buffer. by rewrite bool_decide_eq_true_2 by lia.
Qed.

(** A block of the length of the string has no room for it. *)
Lemma in_buffer_short {S} s (st : S) : in_buffer (strlen s) s st = Crash.
Proof. unfold in_buffer. by rewrite bool_decide_eq_false_2 by lia. Qed.

Lemma malloc_returns w : ∃ p w', malloc w = Ret (p, w').
Proof. unfold malloc. destruct (w_mallocs w) as [|[] ?]; by eexists _, _. Qed.

Lemma handle_key_crashes req key m w : km_key req = Some key → tpcmaster_handle (Some req) (m, w) = Crash.
Proof.
  intros Hk. unfold tpcmaster_handle. rewrite Hk. unfold mbind, M_bind, on_w. cbn [snd].
  destruct (malloc_returns w) as (p & w' & ->). case_bool_decide; [done|]. by rewrite in_buffer_short.
Qed.

(** No text fits the block of the info message. *)
Lemma info_message_crashes now s : kvserver_get_info_message now s = Crash.
Proof.
  assert (∀ n t (k : string → M SC string), (∀ u, k u s = Crash) → (in_buffer n t ≫= k) s = Crash) as Hin.
  { intros n t k Hk. unfold mbind, M_bind, in_buffer. case_bool_decide; [apply Hk|done]. }
  unfold kvserver_get_info_message, gets. rewrite (bind_Ret _ _ _ _ _ eq_refl). do 3 (apply Hin; intros ?).
  unfold copy_string, mbind, M_bind, on_server_world. destruct (malloc_returns s.1.2) as (p & w' & ->).
  case_bool_decide; [done|]. apply in_buffer_short.
Qed.

(** The slave sends the request and takes the answer it reads. *)
Lemma register_master_run server w beyond resp msg rest out :
  mem_ok w → 0 < w_brk w → is_s32 (sv_port server) → raw_ok (raw_of resp) → sendable (raw_of resp) → km_message resp = Some msg →
  ∃ w', kvserver_register_master beyond ((server, w), Conn (kvmessage_send (raw_of resp) ++ rest) out) =
    Ret (if bool_decide (msg = MSG_SUCCESS) then 0 else -1, ((server, w'), Conn rest (out ++ kvmessage_send (raw_of (request server))))).
Proof using JsonLaws0.
  intros Hm Hb Hp Hr Hs Hmsg. unfold kvserver_register_master, gets. rewrite (bind_Ret _ _ _ _ _ eq_refl). cbn [fst].
  destruct (copy_string_run (sv_hostname server) server w (Conn (kvmessage_send (raw_of resp) ++ rest) out) Hm Hb) as (w1 & E1 & Hm1 & Hb1). run_step E1.
  unfold in_buffer. rewrite bool_decide_eq_true_2 by (by apply fmt_d_length). rewrite ret_bind.
  destruct (copy_string_run (fmt_d (sv_port server)) server w1 (Conn (kvmessage_send (raw_of resp) ++ rest) out) Hm1 Hb1) as (w2 & E2 & _ & _). run_step E2.
  unfold write_conn, modify. rewrite (bind_Ret _ _ _ _ _ eq_refl). cbn [fst snd c_in c_out]. exists w2.
  rewrite (bind_Ret _ _ _ (Some (raw_of resp)) ((server, w2), Conn rest (out ++ kvmessage_send (raw_of (request server))))) by
    (unfold on_input; cbn [fst snd c_in c_out]; by rewrite parse_send).
  cbn [rm_message raw_of]. rewrite Hmsg. unfold mret, M_ret. do 2 f_equal. destruct (decide (msg = MSG_SUCCESS)).
  - by rewrite (bool_decide_eq_true_2 (msg = _)), (bool_decide_eq_false_2 (msg ≠ _)) by tauto.
  - by rewrite (bool_decide_eq_false_2 (msg = _)), (bool_decide_eq_true_2 (msg ≠ _)) by done.
Qed.

(** The master's answer to a registration. *)
Definition answer (room : bool) (host : string) : kvmessage :=
  if room then KVMessage RESP None None (Some MSG_SUCCESS) else KVMessage RESP (Some host) None (Some ERRMSG_GENERIC_ERROR).

End dialogue.

(** C39: registration over the wire.  The master reads from the connection just the request
    the slave wrote.  With room for another slave, [tpcmaster_register] adds the slave with its
    host, its port and the identifier that is the hash of the two, or leaves the list alone
    when it met a slave with that identifier, as it always does in a sorted list that has one,
    and the slave's call returns 0; without room the list is unchanged and the call returns
    -1.  No allocation fails, and the messages fit their length field.  [tpcmaster_handle], which should make the call, does not get
    that far: it copies the key of the request to a block that is one character short. *)
Theorem register_dialogue (J : JsonC) (L : JsonLaws J) server ws beyond m w ss :
  mem_ok ws → 0 < w_brk ws → cstring (sv_hostname server) → is_s32 (sv_port server) → master_ok m (w_brk w) ss → mem_ok w →
  sendable (raw_of (request server)) → (∀ b, sendable (raw_of (answer b (sv_hostname server)))) →
  let room := bool_decide (Z.of_nat (length ss) < slave_capacity m) in
  let host := sv_hostname server in
  let new := TPCSlave (hash_64_bit (fmt_d (sv_port server) +:+ ":" +:+ host)) host (u32 (sv_port server)) in
  ∃ resp m' w' ws' ss',
    kvmessage_parse beyond (kvmessage_send (raw_of (request server))) = Ret (Some (raw_of (request server)), []) ∧
    tpcmaster_register (request server) (KVMessage RESP (Some host) None None) (m, w) = Ret (resp, (m', w')) ∧
    kvserver_register_master beyond ((server, ws), Conn (kvmessage_send (raw_of resp)) []) =
      Ret (if room then 0 else -1, ((server, ws'), Conn [] (kvmessage_send (raw_of (request server))))) ∧
    master_ok m' (w_brk w') ss' ∧
    (room = false → ss' = ss) ∧
    (room = true → ss' ≡ₚ new :: ss ∨ ss' = ss ∧ ∃ x, x ∈ ss ∧ sl_id x = sl_id new) ∧
    (StronglySorted by_id ss → (∃ x, x ∈ ss ∧ sl_id x = sl_id new) → ss' = ss) ∧
    tpcmaster_handle (Some (request server)) (m, w) = Crash.
Proof.
  intros Hms Hb Hh Hp Hok Hm Hreq Hans room host new.
  destruct (tpcmaster_register_run m w ss host (fmt_d (sv_port server)) (KVMessage RESP (Some host) None None) Hok Hm) as (m' & w' & E & Hok').
  fold room in E, Hok'. pose proof (fmt_d_cstring (sv_port server)) as Hc.
  assert (raw_ok (raw_of (answer room host))) as Hr by (destruct room; repeat split; cbn; try lia; intros s [= <-]; done).
  destruct (register_master_run server ws beyond (answer room host) (if room then MSG_SUCCESS else ERRMSG_GENERIC_ERROR) [] [] Hms Hb Hp Hr (Hans room))
    as (ws' & E'); [by destruct room|]. rewrite app_nil_r in E'.
  assert (new_slave host (fmt_d (sv_port server)) = new) as Hnew by (unfold new_slave; by rewrite atoi_fmt_d by done). rewrite Hnew in Hok'.
  exists (answer room host), m', w', ws', (if room then reg_list new ss else ss). split_and!.
  - rewrite <- (app_nil_r (kvmessage_send _)). apply parse_send; [|done]. repeat split; cbn; try lia; intros s [= <-]; done.
  - unfold request. fold host. rewrite E. by destruct room.
  - rewrite E'. by destruct room.
  - done.
  - by intros ->.
  - intros ->. apply reg_list_adds.
  - intros Hs (x & Hx & Hid). destruct room; [|done]. by apply (reg_list_present new ss x).
  - by apply (handle_key_crashes _ host).
Qed.

(** A slave of a master with room. *)
Definition slave_test : kvserver := KVServer (KVCache [] 1 2) (KVStore "d") None "localhost" 8888 4 false.

Lemma register_dialogue_witness :
  ∃ resp m' w' ws' ss', tpcmaster_register (request slave_test) (KVMessage RESP (Some "localhost") None None) (tm_test, w_tm) = Ret (resp, (m', w')) ∧
    kvserver_register_master [] ((slave_test, w_tm), Conn (kvmessage_send (raw_of resp)) []) =
      Ret (0, ((slave_test, ws'), Conn [] (kvmessage_send (raw_of (request slave_test))))) ∧
    master_ok m' (w_brk w') ss' ∧ TPCSlave (hash_64_bit "8888:localhost") "localhost" 8888 ∈ ss'.
Proof.
  destruct (register_dialogue mini_json mini_laws slave_test w_tm [] tm_test w_tm []) as (resp & m' & w' & ws' & ss' & _ & E1 & E2 & Hok & _ & Hadd & _);
    [reflexivity|reflexivity|reflexivity|split; [discriminate|reflexivity]|exact tm_test_ok|reflexivity|vm_compute; reflexivity|intros []; vm_compute; reflexivity|].
  exists resp, m', w', ws', ss'. split; [exact E1|split; [exact E2|split; [exact Hok|]]].
  destruct (Hadd eq_refl) as [->|[_ (x & Hx & _)]]; [left|by apply elem_of_nil in Hx].
Defined.
