(* ===== verification/Bitmap.v ===== *)
(** * Bitmap: the kernel's bitmaps ([pintos/src/lib/kernel/bitmap.c])

    A bitmap is an array of 32-bit elements ([unsigned long] on i386).  The functions
    are translated with their assertions and their 32-bit [size_t] arithmetic; an
    access outside the element array crashes.  [bit_at] reads a bit of the array; the
    lemmas describe every operation by its effect on the bits. *)

From S2P Require Import Prelude.

Definition ELEM_BITS : Z := 32.
Definition BITMAP_ERROR : Z := 2 ^ 32 - 1.

(** [struct bitmap]. *)
Record bitmap := Bitmap { bit_cnt : Z; bits : list Z }.

Definition elem_idx (bit_idx : Z) : Z := bit_idx `div` ELEM_BITS.
Definition bit_mask (bit_idx : Z) : Z := u32 (Z.shiftl 1 (bit_idx `mod` ELEM_BITS)).
Definition DIV_ROUND_UP (x step : Z) : Z := u32 (x + step - 1) `div` step.
Definition elem_cnt (bit_cnt : Z) : Z := DIV_ROUND_UP bit_cnt ELEM_BITS.
Definition byte_cnt (bit_cnt : Z) : Z := u32 (4 * elem_cnt bit_cnt).

Definition last_mask (b : bitmap) : Z :=
  let last_bits := s32 (bit_cnt b `mod` ELEM_BITS) in
  if bool_decide (last_bits ≠ 0) then u32 (Z.shiftl 1 last_bits - 1) else u32 (-1).

Definition bitmap_buf_size (bit_cnt : Z) : Z := u32 (8 + byte_cnt bit_cnt).
Definition bitmap_size (b : bitmap) : Z := bit_cnt b.

(** [b->bits[idx]], read and written. *)
Definition get_elem (idx : Z) : M bitmap Z := gets_opt (λ b, bits b !! Z.to_nat idx).
Definition set_elem (idx v : Z) : M bitmap unit :=
  modify_opt (λ b, (λ _, Bitmap (bit_cnt b) (<[Z.to_nat idx := v]> (bits b))) <$> bits b !! Z.to_nat idx).

Definition bitmap_mark (bit_idx : Z) : M bitmap unit :=
  e ← get_elem (elem_idx bit_idx);
  set_elem (elem_idx bit_idx) (Z.lor e (bit_mask bit_idx)).

Definition bitmap_reset (bit_idx : Z) : M bitmap unit :=
  e ← get_elem (elem_idx bit_idx);
  set_elem (elem_idx bit_idx) (Z.land e (u32 (Z.lnot (bit_mask bit_idx)))).

Definition bitmap_flip (bit_idx : Z) : M bitmap unit :=
  e ← get_elem (elem_idx bit_idx);
  set_elem (elem_idx bit_idx) (Z.lxor e (bit_mask bit_idx)).

Definition bitmap_set (idx : Z) (value : bool) : M bitmap unit :=
  b ← get;
  assert (bool_decide (idx < bit_cnt b));;
  if value then bitmap_mark idx else bitmap_reset idx.

Definition bitmap_test (idx : Z) : M bitmap bool :=
  b ← get;
  assert (bool_decide (idx < bit_cnt b));;
  e ← get_elem (elem_idx idx);
  mret (bool_decide (Z.land e (bit_mask idx) ≠ 0)).

(** [for (i = 0; i < cnt; i++) bitmap_set (b, start + i, value)], [n] being the
    iterations left. *)
Fixpoint set_multiple_loop (n : nat) (start i : Z) (value : bool) : M bitmap unit :=
  match n with
  | O => mret tt
  | S n => bitmap_set (u32 (start + i)) value;; set_multiple_loop n start (i + 1) value
  end.

(** The assertions on a range. *)
Definition assert_range (start cnt : Z) : M bitmap unit :=
  b ← get;
  assert (bool_decide (start ≤ bit_cnt b));;
  assert (bool_decide (u32 (start + cnt) ≤ bit_cnt b)).

Definition bitmap_set_multiple (start cnt : Z) (value : bool) : M bitmap unit :=
  assert_range start cnt;;
  set_multiple_loop (Z.to_nat cnt) start 0 value.

Definition bitmap_set_all (value : bool) : M bitmap unit :=
  n ← gets bitmap_size;
  bitmap_set_multiple 0 n value.

Fixpoint count_loop (n : nat) (start i : Z) (value : bool) (value_cnt : Z) : M bitmap Z :=
  match n with
  | O => mret value_cnt
  | S n =>
    t ← bitmap_test (u32 (start + i));
    count_loop n start (i + 1) value (if bool_decide (t = value) then u32 (value_cnt + 1) else value_cnt)
  end.

Definition bitmap_count (start cnt : Z) (value : bool) : M bitmap Z :=
  assert_range start cnt;;
  count_loop (Z.to_nat cnt) start 0 value 0.

Fixpoint contains_loop (n : nat) (start i : Z) (value : bool) : M bitmap bool :=
  match n with
  | O => mret false
  | S n =>
    t ← bitmap_test (u32 (start + i));
    if bool_decide (t = value) then mret true else contains_loop n start (i + 1) value
  end.

Definition bitmap_contains (start cnt : Z) (value : bool) : M bitmap bool :=
  assert_range start cnt;;
  contains_loop (Z.to_nat cnt) start 0 value.

Definition bitmap_any (start cnt : Z) : M bitmap bool := bitmap_contains start cnt true.
Definition bitmap_none (start cnt : Z) : M bitmap bool :=
  r ← bitmap_contains start cnt true; mret (negb r).
Definition bitmap_all (start cnt : Z) : M bitmap bool :=
  r ← bitmap_contains start cnt false; mret (negb r).

(** [for (i = start; i <= last; i++)]. *)
Fixpoint scan_loop (n : nat) (i cnt : Z) (value : bool) : M bitmap Z :=
  match n with
  | O => mret BITMAP_ERROR
  | S n =>
    r ← bitmap_contains i cnt (negb value);
    if negb r then mret i else scan_loop n (u32 (i + 1)) cnt value
  end.

Definition bitmap_scan (start cnt : Z) (value : bool) : M bitmap Z :=
  b ← get;
  assert (bool_decide (start ≤ bit_cnt b));;
  if bool_decide (cnt ≤ bit_cnt b) then
    let last := bit_cnt b - cnt in
    scan_loop (Z.to_nat (last + 1 - start)) start cnt value
  else mret BITMAP_ERROR.

Definition bitmap_scan_and_flip (start cnt : Z) (value : bool) : M bitmap Z :=
  idx ← bitmap_scan start cnt value;
  (if bool_decide (idx ≠ BITMAP_ERROR) then bitmap_set_multiple idx cnt (negb value) else mret tt);;
  mret idx.

(** Creation; [ok1] and [ok2] say whether the allocations succeed, [junk] is what the
    fresh memory holds. *)
Definition bitmap_create (ok1 ok2 : bool) (junk : list Z) (bit_cnt : Z) : outcome (option bitmap) :=
  if negb ok1 then Ret None else
  if ok2 || bool_decide (bit_cnt = 0) then
    match bitmap_set_all false (Bitmap bit_cnt junk) with
    | Ret (_, b) => Ret (Some b)
    | Crash => Crash
    | NoFuel => NoFuel
    end
  else Ret None.

Definition bitmap_create_in_buf (bit_cnt block_size : Z) (junk : list Z) : outcome bitmap :=
  if bool_decide (bitmap_buf_size bit_cnt ≤ block_size) then
    match bitmap_set_all false (Bitmap bit_cnt junk) with
    | Ret (_, b) => Ret b
    | Crash => Crash
    | NoFuel => NoFuel
    end
  else Crash.

(** ** Files: the elements are dumped in memory order, as little-endian words *)

Definition elem_bytes (e : Z) : list Z :=
  [e `mod` 256; (e `div` 2 ^ 8) `mod` 256; (e `div` 2 ^ 16) `mod` 256; (e `div` 2 ^ 24) `mod` 256].

Fixpoint elems_of (bytes : list Z) : list Z :=
  match bytes with
  | b0 :: b1 :: b2 :: b3 :: bs => (b0 + b1 * 2 ^ 8 + b2 * 2 ^ 16 + b3 * 2 ^ 24) :: elems_of bs
  | _ => []
  end.

Definition bitmap_file_size (b : bitmap) : Z := byte_cnt (bit_cnt b).

(** The memory of the elements, and a store of [data] at its beginning. *)
Definition memory_of (es : list Z) : list Z := concat (elem_bytes <$> es).
Definition overwrite (data old : list Z) : list Z := data ++ drop (length data) old.

(** [k] is what [file_write_at] returns: the file takes the first [k] of the bytes it
    is given. *)
Definition bitmap_write (k : Z) (file : list Z) (b : bitmap) : bool * list Z :=
  let size := byte_cnt (bit_cnt b) in
  (bool_decide (k = size), overwrite (take (Z.to_nat k) (take (Z.to_nat size) (memory_of (bits b)))) file).

(** [k] is what [file_read_at] returns: the first [k] bytes of the elements are
    those of the file, the others stay. *)
Definition bitmap_read (k : Z) (file : list Z) : M bitmap bool := λ b,
  if bool_decide (bit_cnt b > 0) then
    let size := byte_cnt (bit_cnt b) in
    let es := elems_of (overwrite (take (Z.to_nat k) (take (Z.to_nat size) file)) (memory_of (bits b))) in
    let last := Z.to_nat (elem_cnt (bit_cnt b) - 1) in
    match es !! last with
    | None => Crash
    | Some e => Ret (bool_decide (k = size),
                     Bitmap (bit_cnt b) (<[last := Z.land e (last_mask b)]> es))
    end
  else Ret (true, b).

(** ** The bits *)

Definition bit_at (b : bitmap) (i : Z) : bool :=
  match bits b !! Z.to_nat (elem_idx i) with
  | Some e => Z.testbit e (i `mod` ELEM_BITS)
  | None => false
  end.

(** The array has an element for every bit, and 32-bit elements. *)
Record bm_ok (b : bitmap) : Prop := {
  bm_cnt : 0 ≤ bit_cnt b < 2 ^ 32 - 32;
  bm_len : elem_cnt (bit_cnt b) ≤ Z.of_nat (length (bits b));
  bm_elems : Forall (λ e, 0 ≤ e < 2 ^ 32) (bits b)
}.

Lemma elem_cnt_spec n : 0 ≤ n < 2 ^ 32 - 32 → elem_cnt n = (n + 31) `div` 32.
Proof.
  intros Hn. unfold elem_cnt, DIV_ROUND_UP, ELEM_BITS. rewrite uwrap_id by lia. f_equal. lia.
Qed.

Lemma elem_lookup b i :
  bm_ok b → 0 ≤ i < bit_cnt b →
  ∃ e, bits b !! Z.to_nat (elem_idx i) = Some e ∧ 0 ≤ e < 2 ^ 32.
Proof.
  intros [Hc Hl He] Hi. rewrite elem_cnt_spec in Hl by done.
  destruct (lookup_lt_is_Some_2 (bits b) (Z.to_nat (elem_idx i))) as [e E].
  { unfold elem_idx, ELEM_BITS. Z.div_mod_to_equations. lia. }
  exists e. split; [done|]. exact (Forall_lookup_1 _ _ _ _ He E).
Qed.

Lemma bit_mask_spec i : bit_mask i = 2 ^ (i `mod` 32).
Proof.
  unfold bit_mask, ELEM_BITS. rewrite Z.shiftl_1_l. apply uwrap_id.
  pose proof (Z.mod_pos_bound i 32). split; [lia|]. apply Z.pow_lt_mono_r; lia.
Qed.

Lemma testbit_pow2 n k : 0 ≤ n → Z.testbit (2 ^ n) k = bool_decide (n = k).
Proof.
  intros Hn. case_bool_decide as E; [subst; by apply Z.pow2_bits_true|].
  by apply Z.pow2_bits_false.
Qed.

(** One element changes in one bit. *)
Lemma bit_at_update b i (f : bool → bool) e e' :
  bm_ok b → 0 ≤ i < bit_cnt b → bits b !! Z.to_nat (elem_idx i) = Some e → 0 ≤ e' < 2 ^ 32 →
  (∀ k, 0 ≤ k < 32 → Z.testbit e' k = if bool_decide (i `mod` 32 = k) then f (Z.testbit e k) else Z.testbit e k) →
  let b' := Bitmap (bit_cnt b) (<[Z.to_nat (elem_idx i) := e']> (bits b)) in
  bm_ok b' ∧ ∀ j, 0 ≤ j → bit_at b' j = if decide (i = j) then f (bit_at b i) else bit_at b j.
Proof.
  intros [Hc Hl He] Hi Hlk He' Hbits b'. split.
  { split; [done|cbn; by rewrite length_insert|]. cbn. by apply Forall_insert. }
  intros j Hj. unfold bit_at. cbn [bits b']. rewrite Hlk.
  destruct (decide (elem_idx i = elem_idx j)) as [E|E].
  - rewrite <- E, list_lookup_insert_eq by (by eapply lookup_lt_Some). rewrite Hlk.
    rewrite Hbits by (unfold ELEM_BITS; apply Z.mod_pos_bound; lia). unfold elem_idx, ELEM_BITS in *.
    case_decide as Ed.
    + subst j. by rewrite bool_decide_eq_true_2.
    + rewrite bool_decide_eq_false_2; [done|]. intros Em. apply Ed. Z.div_mod_to_equations. lia.
  - rewrite list_lookup_insert_ne.
    2:{ intros En. apply E. unfold elem_idx, ELEM_BITS in *. Z.div_mod_to_equations. lia. }
    rewrite decide_False; [done|]. by intros ->.
Qed.

Lemma set_elem_run b i e v :
  bits b !! Z.to_nat i = Some e →
  set_elem i v b = Ret (tt, Bitmap (bit_cnt b) (<[Z.to_nat i := v]> (bits b))).
Proof. intros H. unfold set_elem, modify_opt. by rewrite H. Qed.

Lemma get_elem_run b i e : bits b !! Z.to_nat i = Some e → get_elem i b = Ret (e, b).
Proof. intros H. unfold get_elem, gets_opt. by rewrite H. Qed.

Lemma range_lor a b : 0 ≤ a < 2 ^ 32 → 0 ≤ b < 2 ^ 32 → 0 ≤ Z.lor a b < 2 ^ 32.
Proof.
  intros Ha Hb. assert (0 ≤ Z.lor a b) by (apply Z.lor_nonneg; lia). split; [done|].
  rewrite <- (Z.mod_small a (2 ^ 32)), <- (Z.mod_small b (2 ^ 32)) by done.
  rewrite <- !Z.land_ones, <- Z.land_lor_distr_l, Z.land_ones by lia. apply Z.mod_pos_bound. lia.
Qed.

Lemma range_land a b : 0 ≤ a < 2 ^ 32 → 0 ≤ Z.land a b < 2 ^ 32.
Proof.
  intros Ha. split; [apply Z.land_nonneg; left; lia|].
  rewrite <- (Z.mod_small a (2 ^ 32)) by done.
  rewrite <- Z.land_ones, <- Z.land_assoc, (Z.land_comm (Z.ones 32)), Z.land_assoc, Z.land_ones by lia.
  apply Z.mod_pos_bound. lia.
Qed.

Lemma range_lxor a b : 0 ≤ a < 2 ^ 32 → 0 ≤ b < 2 ^ 32 → 0 ≤ Z.lxor a b < 2 ^ 32.
Proof.
  intros Ha Hb. assert (0 ≤ Z.lxor a b) by (apply Z.lxor_nonneg; lia). split; [done|].
  destruct (decide (Z.lxor a b = 0)) as [->|Hne]; [lia|].
  apply Z.log2_lt_pow2; [lia|]. pose proof (Z.log2_lxor a b ltac:(lia) ltac:(lia)).
  assert (∀ x, 0 ≤ x < 2 ^ 32 → Z.log2 x < 32) as Hlog.
  { intros x Hx. destruct (decide (x = 0)) as [->|]; [vm_compute; done|]. apply Z.log2_lt_pow2; lia. }
  pose proof (Hlog a Ha). pose proof (Hlog b Hb). lia.
Qed.

(** ** The single-bit operations *)

Section single.
Context (b : bitmap) (i : Z).
Hypothesis (Hok : bm_ok b) (Hi : 0 ≤ i < bit_cnt b).

Lemma mask_range : 0 ≤ bit_mask i < 2 ^ 32.
Proof. apply uwrap_range. lia. Qed.

Lemma bitmap_mark_run :
  ∃ b', bitmap_mark i b = Ret (tt, b') ∧ bm_ok b' ∧ bit_cnt b' = bit_cnt b ∧
    ∀ j, 0 ≤ j → bit_at b' j = if decide (i = j) then true else bit_at b j.
Proof.
  destruct (elem_lookup b i Hok Hi) as (e & E & He). unfold bitmap_mark. run_step (get_elem_run _ _ _ E).
  destruct (bit_at_update b i (λ _, true) e (Z.lor e (bit_mask i)) Hok Hi E) as [Hok' Hb].
  - apply range_lor; [done|apply mask_range].
  - intros k Hk. rewrite Z.lor_spec, bit_mask_spec, testbit_pow2 by (apply Z.mod_pos_bound; lia).
    case_bool_decide; [by rewrite orb_true_r|by rewrite orb_false_r].
  - rewrite (set_elem_run _ _ _ _ E). by eexists.
Qed.

Lemma bitmap_reset_run :
  ∃ b', bitmap_reset i b = Ret (tt, b') ∧ bm_ok b' ∧ bit_cnt b' = bit_cnt b ∧
    ∀ j, 0 ≤ j → bit_at b' j = if decide (i = j) then false else bit_at b j.
Proof.
  destruct (elem_lookup b i Hok Hi) as (e & E & He). unfold bitmap_reset. run_step (get_elem_run _ _ _ E).
  destruct (bit_at_update b i (λ _, false) e (Z.land e (u32 (Z.lnot (bit_mask i)))) Hok Hi E) as [Hok' Hb].
  - by apply range_land.
  - intros k Hk. unfold uwrap. rewrite <- Z.land_ones, !Z.land_spec, Z.lnot_spec by lia.
    rewrite bit_mask_spec, testbit_pow2 by (apply Z.mod_pos_bound; lia).
    rewrite Z.ones_spec_low by lia. rewrite andb_true_r.
    case_bool_decide; [by rewrite andb_false_r|by rewrite andb_true_r].
  - rewrite (set_elem_run _ _ _ _ E). by eexists.
Qed.

Lemma bitmap_flip_run :
  ∃ b', bitmap_flip i b = Ret (tt, b') ∧ bm_ok b' ∧ bit_cnt b' = bit_cnt b ∧
    ∀ j, 0 ≤ j → bit_at b' j = if decide (i = j) then negb (bit_at b i) else bit_at b j.
Proof.
  destruct (elem_lookup b i Hok Hi) as (e & E & He). unfold bitmap_flip. run_step (get_elem_run _ _ _ E).
  destruct (bit_at_update b i negb e (Z.lxor e (bit_mask i)) Hok Hi E) as [Hok' Hb].
  - apply range_lxor; [done|apply mask_range].
  - intros k Hk. rewrite Z.lxor_spec, bit_mask_spec, testbit_pow2 by (apply Z.mod_pos_bound; lia).
    case_bool_decide; [by rewrite xorb_true_r|by rewrite xorb_false_r].
  - rewrite (set_elem_run _ _ _ _ E). by eexists.
Qed.

Lemma bitmap_set_run value :
  ∃ b', bitmap_set i value b = Ret (tt, b') ∧ bm_ok b' ∧ bit_cnt b' = bit_cnt b ∧
    ∀ j, 0 ≤ j → bit_at b' j = if decide (i = j) then value else bit_at b j.
Proof.
  unfold bitmap_set. rewrite (bind_Ret _ _ _ b b) by done.
  rewrite assert_bind by (apply bool_decide_eq_true_2; lia).
  destruct value; [apply bitmap_mark_run|apply bitmap_reset_run].
Qed.

Lemma bitmap_test_run : bitmap_test i b = Ret (bit_at b i, b).
Proof.
  destruct (elem_lookup b i Hok Hi) as (e & E & He). unfold bitmap_test.
  rewrite (bind_Ret _ _ _ b b) by done. rewrite assert_bind by (apply bool_decide_eq_true_2; lia).
  run_step (get_elem_run _ _ _ E). unfold bit_at. rewrite E.
  unfold mret, M_ret. do 2 f_equal.
  rewrite bit_mask_spec. unfold ELEM_BITS. pose proof (Z.mod_pos_bound i 32 ltac:(lia)) as Hm.
  destruct (Z.testbit e (i `mod` 32)) eqn:Eb.
  - apply bool_decide_eq_true_2. intros H0. apply (f_equal (λ z, Z.testbit z (i `mod` 32))) in H0.
    rewrite Z.land_spec, Eb, testbit_pow2, bool_decide_eq_true_2, Z.bits_0 in H0 by (done || lia). done.
  - apply bool_decide_eq_false_2. intros Hn. apply Hn. apply Z.bits_inj_0. intros k.
    rewrite Z.land_spec, testbit_pow2 by lia. case_bool_decide; [subst; by rewrite Eb|by rewrite andb_false_r].
Qed.
End single.

(** ** Ranges *)

Definition in_range (start cnt j : Z) : Prop := start ≤ j < start + cnt.

#[export] Instance in_range_dec start cnt j : Decision (in_range start cnt j).
Proof. unfold in_range. apply _. Defined.

(** The assertions hold for a range inside the bitmap. *)
Lemma assert_range_run b start cnt :
  bm_ok b → 0 ≤ start → 0 ≤ cnt → start + cnt ≤ bit_cnt b → assert_range start cnt b = Ret (tt, b).
Proof.
  intros [Hc _ _] Hs Hn Hr. unfold assert_range. rewrite (bind_Ret _ _ _ b b) by done.
  rewrite assert_bind by (apply bool_decide_eq_true_2; lia).
  rewrite uwrap_id by lia. apply assert_true. apply bool_decide_eq_true_2. done.
Qed.

Lemma set_multiple_loop_run n b start i value :
  bm_ok b → 0 ≤ start → 0 ≤ i → start + i + Z.of_nat n ≤ bit_cnt b →
  ∃ b', set_multiple_loop n start i value b = Ret (tt, b') ∧ bm_ok b' ∧ bit_cnt b' = bit_cnt b ∧
    ∀ j, 0 ≤ j → bit_at b' j = if decide (in_range (start + i) (Z.of_nat n) j) then value else bit_at b j.
Proof.
  revert b i. induction n as [|n IH]; intros b i Hok Hs Hi Hr; cbn [set_multiple_loop].
  { exists b. split_and!; try done. intros j Hj. rewrite decide_False; [done|]. unfold in_range. lia. }
  pose proof (bm_cnt _ Hok) as Hc. rewrite (uwrap_id 32 (start + i)) by lia.
  destruct (bitmap_set_run b (start + i) Hok ltac:(lia) value) as (b1 & E1 & Hok1 & Hc1 & Hb1).
  run_step E1. destruct (IH b1 (i + 1)) as (b2 & E2 & Hok2 & Hc2 & Hb2); [done|lia..|].
  exists b2. split_and!; [done|done|congruence|]. intros j Hj. rewrite Hb2, Hb1 by done.
  unfold in_range. repeat case_decide; try done; lia.
Qed.

Lemma bitmap_set_multiple_run b start cnt value :
  bm_ok b → 0 ≤ start → 0 ≤ cnt → start + cnt ≤ bit_cnt b →
  ∃ b', bitmap_set_multiple start cnt value b = Ret (tt, b') ∧ bm_ok b' ∧ bit_cnt b' = bit_cnt b ∧
    ∀ j, 0 ≤ j → bit_at b' j = if decide (in_range start cnt j) then value else bit_at b j.
Proof.
  intros Hok Hs Hn Hr. unfold bitmap_set_multiple. run_step (assert_range_run b start cnt Hok Hs Hn Hr).
  destruct (set_multiple_loop_run (Z.to_nat cnt) b start 0 value) as (b' & E & Hok' & Hc & Hb);
    [done|lia..|]. exists b'. rewrite Z.add_0_r, Z2Nat.id in Hb by done. done.
Qed.

(** The bits of a range as a list. *)
Definition bits_in (b : bitmap) (start : Z) (n : nat) : list bool :=
  (λ k, bit_at b (start + Z.of_nat k)) <$> seq 0 n.

Lemma bits_in_S b start n : bits_in b start (S n) = bit_at b start :: bits_in b (start + 1) n.
Proof.
  unfold bits_in. cbn [seq]. rewrite fmap_cons. f_equal; [by rewrite Z.add_0_r|].
  rewrite <- fmap_S_seq, <- list_fmap_compose. apply list_fmap_ext. intros _ k _. cbn. f_equal. lia.
Qed.

Lemma contains_loop_run n b start i value :
  bm_ok b → 0 ≤ start → 0 ≤ i → start + i + Z.of_nat n ≤ bit_cnt b →
  contains_loop n start i value b = Ret (bool_decide (value ∈ bits_in b (start + i) n), b).
Proof.
  revert i. induction n as [|n IH]; intros i Hok Hs Hi Hr; cbn [contains_loop]; [done|].
  pose proof (bm_cnt _ Hok) as Hc. rewrite (uwrap_id 32 (start + i)) by lia.
  run_step (bitmap_test_run b (start + i) Hok ltac:(lia)). rewrite bits_in_S.
  destruct (decide (bit_at b (start + i) = value)) as [E|E].
  - rewrite !bool_decide_eq_true_2; [done| |done]. rewrite E. left.
  - rewrite bool_decide_eq_false_2 by done. rewrite IH by (done || lia). do 2 f_equal.
    rewrite Z.add_assoc. apply bool_decide_ext. rewrite elem_of_cons. naive_solver.
Qed.

Lemma bitmap_contains_run b start cnt value :
  bm_ok b → 0 ≤ start → 0 ≤ cnt → start + cnt ≤ bit_cnt b →
  bitmap_contains start cnt value b = Ret (bool_decide (value ∈ bits_in b start (Z.to_nat cnt)), b).
Proof.
  intros Hok Hs Hn Hr. unfold bitmap_contains. run_step (assert_range_run b start cnt Hok Hs Hn Hr).
  rewrite contains_loop_run by (done || lia). by rewrite Z.add_0_r.
Qed.

Lemma count_loop_run n b start i value acc :
  bm_ok b → 0 ≤ start → 0 ≤ i → start + i + Z.of_nat n ≤ bit_cnt b → 0 ≤ acc → acc + Z.of_nat n < 2 ^ 32 →
  count_loop n start i value acc b =
    Ret (acc + Z.of_nat (length (filter (λ v, v = value) (bits_in b (start + i) n))), b).
Proof.
  revert i acc. induction n as [|n IH]; intros i acc Hok Hs Hi Hr Ha Hb; cbn [count_loop].
  { rewrite Z.add_0_r. done. }
  pose proof (bm_cnt _ Hok) as Hc. rewrite (uwrap_id 32 (start + i)) by lia.
  run_step (bitmap_test_run b (start + i) Hok ltac:(lia)). rewrite bits_in_S, filter_cons.
  destruct (decide (bit_at b (start + i) = value)) as [E|E].
  - rewrite bool_decide_eq_true_2, uwrap_id, IH by (done || lia). rewrite Z.add_assoc.
    do 2 f_equal. cbn [length]. lia.
  - rewrite bool_decide_eq_false_2, IH by (done || lia). by rewrite Z.add_assoc.
Qed.

Lemma bitmap_count_run b start cnt value :
  bm_ok b → 0 ≤ start → 0 ≤ cnt → start + cnt ≤ bit_cnt b →
  bitmap_count start cnt value b =
    Ret (Z.of_nat (length (filter (λ v, v = value) (bits_in b start (Z.to_nat cnt)))), b).
Proof.
  intros Hok Hs Hn Hr. pose proof (bm_cnt _ Hok) as Hc.
  unfold bitmap_count. run_step (assert_range_run b start cnt Hok Hs Hn Hr).
  rewrite count_loop_run by (done || lia). by rewrite Z.add_0_r, Z.add_0_l.
Qed.

(** ** The abstraction: a bitmap is a list of Booleans *)

Definition abs (b : bitmap) : list bool := bits_in b 0 (Z.to_nat (bit_cnt b)).

Lemma bits_in_lookup b start n k :
  bits_in b start n !! k = if decide (k < n)%nat then Some (bit_at b (start + Z.of_nat k)) else None.
Proof.
  unfold bits_in. rewrite list_lookup_fmap. case_decide.
  - by rewrite lookup_seq_lt.
  - by rewrite lookup_seq_ge by lia.
Qed.

Lemma length_abs b : length (abs b) = Z.to_nat (bit_cnt b).
Proof. unfold abs, bits_in. by rewrite length_fmap, length_seq. Qed.

Lemma bits_in_abs b start cnt :
  0 ≤ start → 0 ≤ cnt → start + cnt ≤ bit_cnt b →
  bits_in b start (Z.to_nat cnt) = take (Z.to_nat cnt) (drop (Z.to_nat start) (abs b)).
Proof.
  intros Hs Hn Hr. apply list_eq. intros k. rewrite bits_in_lookup, lookup_take, lookup_drop.
  unfold abs. rewrite bits_in_lookup. case_decide; [|done]. rewrite decide_True by lia. do 2 f_equal. lia.
Qed.

(** A bitmap whose bits are known has the list they spell. *)
Lemma abs_eq b l :
  0 ≤ bit_cnt b → length l = Z.to_nat (bit_cnt b) →
  (∀ k v, l !! k = Some v → bit_at b (Z.of_nat k) = v) → abs b = l.
Proof.
  intros Hc Hl Hk. apply list_eq_same_length with (n := Z.to_nat (bit_cnt b)); [done|by rewrite length_abs|].
  intros k x y Hkn. unfold abs. rewrite bits_in_lookup, decide_True by lia.
  intros [= <-] Hy. by apply Hk.
Qed.

Definition set_range (l : list bool) (start cnt : nat) (value : bool) : list bool :=
  take start l ++ replicate cnt value ++ drop (start + cnt) l.

Lemma set_range_lookup l start cnt value k :
  (start + cnt ≤ length l)%nat →
  set_range l start cnt value !! k = if decide (start ≤ k < start + cnt)%nat then Some value else l !! k.
Proof.
  intros Hl. unfold set_range. destruct (decide (k < start)%nat).
  { rewrite decide_False, lookup_app_l by (rewrite ?length_take; lia). by apply lookup_take_lt. }
  rewrite lookup_app_r by (rewrite length_take; lia). rewrite length_take, Nat.min_l by lia.
  case_decide.
  - rewrite lookup_app_l by (rewrite length_replicate; lia). apply lookup_replicate_2. lia.
  - rewrite lookup_app_r by (rewrite length_replicate; lia). rewrite length_replicate, lookup_drop. f_equal. lia.
Qed.

Lemma length_set_range l start cnt value :
  (start + cnt ≤ length l)%nat → length (set_range l start cnt value) = length l.
Proof.
  intros Hl. unfold set_range. rewrite !length_app, length_replicate, length_take, length_drop. lia.
Qed.

(** The first index at or after [start] from which [cnt] bits have the value. *)
Definition group_at (l : list bool) (cnt : nat) (value : bool) (i : nat) : Prop :=
  (i + cnt ≤ length l)%nat ∧ Forall (λ v, v = value) (take cnt (drop i l)).

#[export] Instance group_at_dec l cnt value i : Decision (group_at l cnt value i).
Proof. unfold group_at. apply _. Defined.

Definition first_group (l : list bool) (start cnt : nat) (value : bool) : option nat :=
  snd <$> list_find (group_at l cnt value) (seq start (S (length l) - start)).

Lemma first_group_Some l start cnt value i :
  first_group l start cnt value = Some i →
  (start ≤ i)%nat ∧ group_at l cnt value i ∧ ∀ j, (start ≤ j < i)%nat → ¬ group_at l cnt value j.
Proof.
  unfold first_group. rewrite fmap_Some. intros ([k i'] & Hf & ->). cbn [snd].
  apply list_find_Some in Hf as (Hk & Hg & Hmin). apply lookup_seq in Hk as [-> Hk].
  split_and!; [lia|done|]. intros j Hj. apply (Hmin (j - start)%nat); [|lia].
  apply lookup_seq. lia.
Qed.

Lemma first_group_None l start cnt value :
  first_group l start cnt value = None → ∀ j, (start ≤ j)%nat → ¬ group_at l cnt value j.
Proof.
  unfold first_group. rewrite fmap_None, list_find_None, Forall_forall. intros Hf j Hj Hg.
  destruct Hg as [Hlen Hg]. apply (Hf j); [|done]. apply elem_of_seq. lia.
Qed.

Lemma first_group_step l start cnt value :
  (start ≤ length l)%nat →
  first_group l start cnt value =
    if decide (group_at l cnt value start) then Some start else first_group l (S start) cnt value.
Proof.
  intros Hs. unfold first_group. replace (S (length l) - start)%nat with (S (S (length l) - S start)) by lia.
  cbn [seq list_find]. case_decide; [done|]. by destruct (list_find _ _) as [[? ?]|].
Qed.

Lemma first_group_over l start cnt value :
  (length l < start + cnt)%nat → first_group l start cnt value = None.
Proof.
  intros Hl. unfold first_group. rewrite fmap_None, list_find_None, Forall_forall.
  intros j Hj [Hlen _]. apply elem_of_seq in Hj. lia.
Qed.

(** ** The operations on the abstraction *)

Definition err_or (o : option nat) : Z := from_option Z.of_nat BITMAP_ERROR o.

(** No bit of a range has the value exactly when all have the other one. *)
Lemma not_contains_group b i cnt value :
  0 ≤ i → 0 ≤ cnt → i + cnt ≤ bit_cnt b →
  negb (bool_decide (negb value ∈ bits_in b i (Z.to_nat cnt))) =
    bool_decide (group_at (abs b) (Z.to_nat cnt) value (Z.to_nat i)).
Proof.
  intros Hi Hn Hr. rewrite <- bool_decide_not. apply bool_decide_ext.
  rewrite bits_in_abs by lia. unfold group_at. rewrite length_abs, Forall_forall. split.
  - intros Hno. split; [lia|]. intros v Hv. destruct (decide (v = value)) as [|Hne]; [done|].
    destruct Hno. by replace (negb value) with v by (destruct v, value; done).
  - intros [_ Hall] Hin. apply Hall in Hin. by destruct value.
Qed.

Lemma scan_loop_run n b i cnt value :
  bm_ok b → 0 ≤ i → 0 ≤ cnt → Z.of_nat n = Z.max 0 (bit_cnt b - cnt + 1 - i) → i ≤ bit_cnt b + 1 →
  scan_loop n i cnt value b = Ret (err_or (first_group (abs b) (Z.to_nat i) (Z.to_nat cnt) value), b).
Proof.
  intros Hok. pose proof (bm_cnt _ Hok) as Hc. revert i. induction n as [|n IH]; intros i Hi Hn Hr Hi'; cbn [scan_loop].
  { rewrite first_group_over; [done|]. rewrite length_abs. lia. }
  run_step (bitmap_contains_run b i cnt (negb value) Hok ltac:(lia) Hn ltac:(lia)).
  rewrite not_contains_group, first_group_step by (rewrite ?length_abs; lia).
  destruct (decide (group_at (abs b) (Z.to_nat cnt) value (Z.to_nat i))) as [Hg|Hg].
  - rewrite bool_decide_eq_true_2 by done. unfold mret, M_ret. do 2 f_equal. cbn. lia.
  - rewrite bool_decide_eq_false_2 by done. rewrite uwrap_id, IH by lia.
    by rewrite Z.add_1_r, Z2Nat.inj_succ.
Qed.

Lemma bitmap_scan_run b start cnt value :
  bm_ok b → 0 ≤ start ≤ bit_cnt b → 0 ≤ cnt →
  bitmap_scan start cnt value b =
    Ret (err_or (first_group (abs b) (Z.to_nat start) (Z.to_nat cnt) value), b).
Proof.
  intros Hok Hs Hn. unfold bitmap_scan. rewrite (bind_Ret _ _ _ b b) by done.
  rewrite assert_bind by (apply bool_decide_eq_true_2; lia). case_bool_decide.
  - apply scan_loop_run; [done|lia..].
  - rewrite first_group_over; [done|]. rewrite length_abs. lia.
Qed.

Lemma set_multiple_abs b start cnt value :
  bm_ok b → 0 ≤ start → 0 ≤ cnt → start + cnt ≤ bit_cnt b →
  ∃ b', bitmap_set_multiple start cnt value b = Ret (tt, b') ∧ bm_ok b' ∧ bit_cnt b' = bit_cnt b ∧
    abs b' = set_range (abs b) (Z.to_nat start) (Z.to_nat cnt) value.
Proof.
  intros Hok Hs Hn Hr. destruct (bitmap_set_multiple_run b start cnt value Hok Hs Hn Hr) as (b' & E & Hok' & Hc & Hb).
  exists b'. split_and!; [done..|]. pose proof (bm_cnt _ Hok') as Hc'. apply abs_eq; [lia| |].
  { rewrite length_set_range, length_abs by (rewrite length_abs; lia). congruence. }
  intros k v. rewrite set_range_lookup by (rewrite length_abs; lia). rewrite Hb by lia.
  unfold abs. rewrite bits_in_lookup. unfold in_range.
  repeat case_decide; naive_solver lia.
Qed.

Lemma single_abs b b' i v :
  bm_ok b' → bit_cnt b' = bit_cnt b → 0 ≤ i < bit_cnt b →
  (∀ j, 0 ≤ j → bit_at b' j = if decide (i = j) then v else bit_at b j) →
  abs b' = <[Z.to_nat i := v]> (abs b).
Proof.
  intros Hok' Hc Hi Hb. apply abs_eq; [lia|rewrite length_insert, length_abs; congruence|].
  intros k w. rewrite Hb by lia. rewrite list_lookup_insert, length_abs.
  unfold abs. rewrite bits_in_lookup. repeat case_decide; naive_solver lia.
Qed.

Lemma bit_at_abs b i : 0 ≤ i < bit_cnt b → abs b !! Z.to_nat i = Some (bit_at b i).
Proof. intros Hi. unfold abs. rewrite bits_in_lookup, decide_True by lia. do 2 f_equal. lia. Qed.

(** ** Sessions *)

Inductive bop :=
| OpSet (i : Z) (v : bool) | OpMark (i : Z) | OpReset (i : Z) | OpFlip (i : Z) | OpTest (i : Z)
| OpSetAll (v : bool) | OpSetMultiple (start cnt : Z) (v : bool) | OpCount (start cnt : Z) (v : bool)
| OpContains (start cnt : Z) (v : bool) | OpAny (start cnt : Z) | OpNone (start cnt : Z) | OpAll (start cnt : Z)
| OpScan (start cnt : Z) (v : bool) | OpScanAndFlip (start cnt : Z) (v : bool).

Definition result : Type := unit + bool + Z.
Abbreviation RUnit := (inl (inl tt) : result).
Abbreviation RBool b := (inl (inr b) : result).
Abbreviation RNum z := (inr z : result).

Definition bexec (o : bop) : M bitmap result :=
  match o with
  | OpSet i v => bitmap_set i v;; mret RUnit
  | OpMark i => bitmap_mark i;; mret RUnit
  | OpReset i => bitmap_reset i;; mret RUnit
  | OpFlip i => bitmap_flip i;; mret RUnit
  | OpTest i => r ← bitmap_test i; mret (RBool r)
  | OpSetAll v => bitmap_set_all v;; mret RUnit
  | OpSetMultiple s c v => bitmap_set_multiple s c v;; mret RUnit
  | OpCount s c v => r ← bitmap_count s c v; mret (RNum r)
  | OpContains s c v => r ← bitmap_contains s c v; mret (RBool r)
  | OpAny s c => r ← bitmap_any s c; mret (RBool r)
  | OpNone s c => r ← bitmap_none s c; mret (RBool r)
  | OpAll s c => r ← bitmap_all s c; mret (RBool r)
  | OpScan s c v => r ← bitmap_scan s c v; mret (RNum r)
  | OpScanAndFlip s c v => r ← bitmap_scan_and_flip s c v; mret (RNum r)
  end.

Fixpoint bexecs (os : list bop) : M bitmap (list result) :=
  match os with
  | [] => mret []
  | o :: os => r ← bexec o; rs ← bexecs os; mret (r :: rs)
  end.

(** What the operation may be called with. *)
Definition bop_ok (n : Z) (o : bop) : Prop :=
  match o with
  | OpSet i _ | OpMark i | OpReset i | OpFlip i | OpTest i => 0 ≤ i < n
  | OpSetAll _ => True
  | OpSetMultiple s c _ | OpCount s c _ | OpContains s c _ | OpAny s c | OpNone s c | OpAll s c =>
    0 ≤ s ∧ 0 ≤ c ∧ s + c ≤ n
  | OpScan s c _ | OpScanAndFlip s c _ => 0 ≤ s ≤ n ∧ 0 ≤ c
  end.

Definition window (l : list bool) (s c : Z) : list bool := take (Z.to_nat c) (drop (Z.to_nat s) l).

(** The specification of each operation on a list of Booleans. *)
Definition bspec (o : bop) (l : list bool) : result * list bool :=
  match o with
  | OpSet i v => (RUnit, <[Z.to_nat i := v]> l)
  | OpMark i => (RUnit, <[Z.to_nat i := true]> l)
  | OpReset i => (RUnit, <[Z.to_nat i := false]> l)
  | OpFlip i => (RUnit, alter negb (Z.to_nat i) l)
  | OpTest i => (RBool (default false (l !! Z.to_nat i)), l)
  | OpSetAll v => (RUnit, replicate (length l) v)
  | OpSetMultiple s c v => (RUnit, set_range l (Z.to_nat s) (Z.to_nat c) v)
  | OpCount s c v => (RNum (Z.of_nat (length (filter (λ w, w = v) (window l s c)))), l)
  | OpContains s c v => (RBool (bool_decide (v ∈ window l s c)), l)
  | OpAny s c => (RBool (bool_decide (true ∈ window l s c)), l)
  | OpNone s c => (RBool (bool_decide (true ∉ window l s c)), l)
  | OpAll s c => (RBool (bool_decide (false ∉ window l s c)), l)
  | OpScan s c v => (RNum (err_or (first_group l (Z.to_nat s) (Z.to_nat c) v)), l)
  | OpScanAndFlip s c v =>
    match first_group l (Z.to_nat s) (Z.to_nat c) v with
    | Some i => (RNum (Z.of_nat i), set_range l i (Z.to_nat c) (negb v))
    | None => (RNum BITMAP_ERROR, l)
    end
  end.

Fixpoint bspecs (os : list bop) (l : list bool) : list result * list bool :=
  match os with
  | [] => ([], l)
  | o :: os => let '(r, l1) := bspec o l in let '(rs, l2) := bspecs os l1 in (r :: rs, l2)
  end.

Lemma set_all_range l v : set_range l 0 (length l) v = replicate (length l) v.
Proof. unfold set_range. cbn. by rewrite drop_all, app_nil_r. Qed.

Lemma bitmap_scan_and_flip_run b start cnt value :
  bm_ok b → 0 ≤ start ≤ bit_cnt b → 0 ≤ cnt →
  ∃ b', bitmap_scan_and_flip start cnt value b =
      Ret (err_or (first_group (abs b) (Z.to_nat start) (Z.to_nat cnt) value), b') ∧
    bm_ok b' ∧ bit_cnt b' = bit_cnt b ∧
    abs b' = match first_group (abs b) (Z.to_nat start) (Z.to_nat cnt) value with
             | Some i => set_range (abs b) i (Z.to_nat cnt) (negb value)
             | None => abs b
             end ∧
    (first_group (abs b) (Z.to_nat start) (Z.to_nat cnt) value = None → b' = b).
Proof.
  intros Hok Hs Hn. pose proof (bm_cnt _ Hok) as Hc. unfold bitmap_scan_and_flip.
  run_step (bitmap_scan_run b start cnt value Hok Hs Hn).
  destruct (first_group _ _ _ _) as [i|] eqn:Ef; cbn [err_or from_option].
  - apply first_group_Some in Ef as (Hsi & [Hlen _] & _). rewrite length_abs in Hlen.
    rewrite bool_decide_eq_true_2 by (unfold BITMAP_ERROR; lia).
    destruct (set_multiple_abs b (Z.of_nat i) cnt (negb value) Hok) as (b' & E & Hok' & Hc' & Ha); [lia..|].
    run_step E. exists b'. rewrite Nat2Z.id in Ha. done.
  - rewrite bool_decide_eq_false_2 by naive_solver. by exists b.
Qed.

(** What a run of [o] owes the specification. *)
Definition sim (b : bitmap) (o : bop) : Prop :=
  ∃ b', bexec o b = Ret ((bspec o (abs b)).1, b') ∧ bm_ok b' ∧ bit_cnt b' = bit_cnt b ∧
        abs b' = (bspec o (abs b)).2.

Lemma sim_single b i v (m : M bitmap unit) o :
  0 ≤ i < bit_cnt b → bexec o = (m;; mret RUnit) →
  bspec o (abs b) = (RUnit, <[Z.to_nat i := v]> (abs b)) →
  (∃ b', m b = Ret (tt, b') ∧ bm_ok b' ∧ bit_cnt b' = bit_cnt b ∧
     ∀ j, 0 ≤ j → bit_at b' j = if decide (i = j) then v else bit_at b j) → sim b o.
Proof.
  intros Hi Ho Hs (b' & E & Hok & Hc & Hb). exists b'. rewrite Ho, Hs. run_step E.
  split_and!; [done..|]. by apply single_abs.
Qed.

Lemma sim_read b {A} (m : M bitmap A) (f : A → result) a o :
  bm_ok b → bexec o = (r ← m; mret (f r)) → m b = Ret (a, b) → bspec o (abs b) = (f a, abs b) → sim b o.
Proof. intros Hok Ho E Hs. exists b. rewrite Ho, Hs. by run_step E. Qed.

Lemma alter_as_insert (l : list bool) i f x : l !! i = Some x → alter f i l = <[i := f x]> l.
Proof.
  revert i. induction l as [|y l IH]; intros [|i] Hi; cbn in *; try done.
  - by injection Hi as ->.
  - f_equal. by apply IH.
Qed.

Lemma bexec_sim b o : bm_ok b → bop_ok (bit_cnt b) o → sim b o.
Proof.
  intros Hok Ho. destruct o as [i v|i|i|i|i|v|s c v|s c v|s c v|s c|s c|s c|s c v|s c v]; cbn [bop_ok] in Ho.
  - by apply (sim_single b i v (bitmap_set i v)); [..|apply bitmap_set_run].
  - by apply (sim_single b i true (bitmap_mark i)); [..|apply bitmap_mark_run].
  - by apply (sim_single b i false (bitmap_reset i)); [..|apply bitmap_reset_run].
  - apply (sim_single b i (negb (bit_at b i)) (bitmap_flip i)); [done..| |by apply bitmap_flip_run].
    cbn. f_equal. by apply alter_as_insert, bit_at_abs.
  - apply (sim_read b (bitmap_test i) (λ r, RBool r) (bit_at b i)); [done..|by apply bitmap_test_run|].
    cbn [bspec]. by rewrite bit_at_abs.
  - destruct (set_multiple_abs b 0 (bit_cnt b) v Hok) as (b' & E & Hok' & Hc & Ha); [pose proof (bm_cnt _ Hok); lia..|].
    exists b'. cbn [bexec bspec fst snd]. split_and!; [|done|done|].
    + unfold bitmap_set_all. rewrite bind_assoc, (bind_Ret _ _ _ (bit_cnt b) b) by done. by run_step E.
    + by rewrite Ha, <- length_abs, set_all_range.
  - destruct Ho as (Hs & Hc & Hr). destruct (set_multiple_abs b s c v Hok Hs Hc Hr) as (b' & E & Hb).
    exists b'. cbn [bexec]. by run_step E.
  - destruct Ho as (Hs & Hc & Hr). eapply (sim_read b (bitmap_count s c v) (λ r, RNum r)); [done..|by apply bitmap_count_run|].
    cbn [bspec]. by rewrite bits_in_abs.
  - destruct Ho as (Hs & Hc & Hr). eapply (sim_read b (bitmap_contains s c v) (λ r, RBool r)); [done..|by apply bitmap_contains_run|].
    cbn [bspec]. by rewrite bits_in_abs.
  - destruct Ho as (Hs & Hc & Hr). eapply (sim_read b (bitmap_any s c) (λ r, RBool r)); [done..|by apply bitmap_contains_run|].
    cbn [bspec]. by rewrite bits_in_abs.
  - destruct Ho as (Hs & Hc & Hr). eapply (sim_read b (bitmap_none s c) (λ r, RBool r)); [done..| |].
    + unfold bitmap_none. by run_step (bitmap_contains_run b s c true Hok Hs Hc Hr).
    + cbn [bspec]. by rewrite bits_in_abs, bool_decide_not.
  - destruct Ho as (Hs & Hc & Hr). eapply (sim_read b (bitmap_all s c) (λ r, RBool r)); [done..| |].
    + unfold bitmap_all. by run_step (bitmap_contains_run b s c false Hok Hs Hc Hr).
    + cbn [bspec]. by rewrite bits_in_abs, bool_decide_not.
  - destruct Ho as [Hs Hc]. eapply (sim_read b (bitmap_scan s c v) (λ r, RNum r)); [done..|by apply bitmap_scan_run|done].
  - destruct Ho as [Hs Hc]. destruct (bitmap_scan_and_flip_run b s c v Hok Hs Hc) as (b' & E & Hok' & Hcn & Ha & _).
    exists b'. cbn [bexec bspec]. run_step E. by destruct (first_group _ _ _ _).
Qed.

(** ** Creation *)

(** Memory of the size [bitmap_create] asks for. *)
Definition fresh_ok (n : Z) (junk : list Z) : Prop :=
  elem_cnt n ≤ Z.of_nat (length junk) ∧ Forall (λ e, 0 ≤ e < 2 ^ 32) junk.

Lemma bitmap_set_all_abs b v :
  bm_ok b → ∃ b', bitmap_set_all v b = Ret (tt, b') ∧ bm_ok b' ∧ bit_cnt b' = bit_cnt b ∧
    abs b' = replicate (Z.to_nat (bit_cnt b)) v.
Proof.
  intros Hok. destruct (set_multiple_abs b 0 (bit_cnt b) v Hok) as (b' & E & Hok' & Hc & Ha); [pose proof (bm_cnt _ Hok); lia..|].
  exists b'. split_and!; try done. by rewrite Ha, <- length_abs, set_all_range.
Qed.

Lemma bitmap_create_run n junk :
  0 ≤ n < 2 ^ 32 - 32 → fresh_ok n junk →
  ∃ b, bitmap_create true true junk n = Ret (Some b) ∧ bm_ok b ∧ bit_cnt b = n ∧ abs b = replicate (Z.to_nat n) false.
Proof.
  intros Hn [Hl He]. destruct (bitmap_set_all_abs (Bitmap n junk) false) as (b & E & Hb); [by split|].
  exists b. unfold bitmap_create. cbn [negb orb]. by rewrite E.
Qed.

Lemma bexecs_sim os b :
  bm_ok b → Forall (bop_ok (bit_cnt b)) os →
  ∃ b', bexecs os b = Ret ((bspecs os (abs b)).1, b') ∧ bm_ok b' ∧ bit_cnt b' = bit_cnt b ∧
        abs b' = (bspecs os (abs b)).2.
Proof.
  revert b. induction os as [|o os IH]; intros b Hok Hos; [by exists b|].
  apply Forall_cons in Hos as [Ho Hos]. destruct (bexec_sim b o Hok Ho) as (b1 & E1 & Hok1 & Hc1 & Ha1).
  destruct (IH b1 Hok1 ltac:(by rewrite Hc1)) as (b2 & E2 & Hok2 & Hc2 & Ha2).
  exists b2. cbn [bexecs bspecs]. run_step E1. run_step E2.
  rewrite Ha1 in *. destruct (bspec o (abs b)) as [r l]. cbn [fst snd] in *.
  destruct (bspecs os l) as [rs l2]. split_and!; [done|done|congruence|done].
Qed.

(** C25: a bitmap made by [bitmap_create], whatever the memory it was given contained,
    and then operated on by any sequence of calls with indices inside it, behaves as a
    list of Booleans that starts all false: no call crashes, and marking, resetting,
    flipping, testing, filling, counting, searching and allocating a range answer and
    change what the list operations do (a scan finds the first group, or says
    [BITMAP_ERROR]; a scan-and-flip flips that group and nothing else). *)
Theorem bitmap_session_refines n junk os :
  0 ≤ n < 2 ^ 32 - 32 → fresh_ok n junk → Forall (bop_ok n) os →
  ∃ b b', bitmap_create true true junk n = Ret (Some b) ∧
    bexecs os b = Ret ((bspecs os (replicate (Z.to_nat n) false)).1, b') ∧
    abs b' = (bspecs os (replicate (Z.to_nat n) false)).2.
Proof.
  intros Hn Hf Hos. destruct (bitmap_create_run n junk Hn Hf) as (b & E & Hok & Hc & Ha).
  destruct (bexecs_sim os b Hok) as (b' & E' & _ & _ & Ha'); [by rewrite Hc|].
  rewrite Ha in *. by exists b, b'.
Qed.

Lemma bitmap_session_refines_witness :
  ∃ b b', bitmap_create true true [7; 2 ^ 32 - 1] 40 = Ret (Some b) ∧
    bexecs [OpMark 1; OpScanAndFlip 0 33 false; OpFlip 2; OpScanAndFlip 0 7 false; OpCount 0 40 true] b =
      Ret ([RUnit; RNum 2; RUnit; RNum BITMAP_ERROR; RNum 33], b') ∧
    abs b' = [false; true; false] ++ replicate 32 true ++ replicate 5 false.
Proof.
  apply (bitmap_session_refines 40 [7; 2 ^ 32 - 1]
    [OpMark 1; OpScanAndFlip 0 33 false; OpFlip 2; OpScanAndFlip 0 7 false; OpCount 0 40 true]).
  - lia.
  - split; [vm_compute; congruence|]. repeat constructor; lia.
  - repeat constructor; cbn; lia.
Defined.

(** ** Files *)

Lemma elem_bytes_inv e tl :
  0 ≤ e < 2 ^ 32 → elems_of (elem_bytes e ++ tl) = e :: elems_of tl.
Proof.
  intros He. cbn [elem_bytes app elems_of]. f_equal. Z.div_mod_to_equations. lia.
Qed.

Lemma elems_of_memory es : Forall (λ e, 0 ≤ e < 2 ^ 32) es → elems_of (memory_of es) = es.
Proof.
  unfold memory_of. induction 1 as [|e es He Hes IH]; [done|].
  rewrite fmap_cons. cbn [concat]. by rewrite elem_bytes_inv, IH.
Qed.

Lemma memory_of_app es fs : memory_of (es ++ fs) = memory_of es ++ memory_of fs.
Proof. unfold memory_of. by rewrite fmap_app, concat_app. Qed.

Lemma length_memory es : length (memory_of es) = (4 * length es)%nat.
Proof. unfold memory_of. induction es as [|e es IH]; [done|]. rewrite fmap_cons. cbn [concat]. rewrite length_app, IH. cbn. lia. Qed.

Lemma take_memory n es : take (4 * n) (memory_of es) = memory_of (take n es).
Proof.
  destruct (decide (n ≤ length es)%nat) as [Hn|Hn].
  - rewrite <- (take_drop n es) at 1. rewrite memory_of_app. apply take_app_length'.
    rewrite length_memory, length_take. lia.
  - rewrite !take_ge by (rewrite ?length_memory; lia). done.
Qed.

Lemma drop_memory n es : (n ≤ length es)%nat → drop (4 * n) (memory_of es) = memory_of (drop n es).
Proof.
  intros Hn. rewrite <- (take_drop n es) at 1. rewrite memory_of_app. apply drop_app_length'.
  rewrite length_memory, length_take. lia.
Qed.

Lemma byte_cnt_spec n :
  0 ≤ n < 2 ^ 32 - 32 → Z.to_nat (byte_cnt n) = (4 * Z.to_nat (elem_cnt n))%nat.
Proof.
  intros Hn. unfold byte_cnt. rewrite elem_cnt_spec by done.
  rewrite uwrap_id by (Z.div_mod_to_equations; lia). Z.div_mod_to_equations. lia.
Qed.

(** The last element's mask keeps the bits below [bit_cnt]. *)
Lemma last_mask_spec b k :
  0 ≤ bit_cnt b → 0 ≤ k < 32 →
  Z.testbit (last_mask b) k = bool_decide (bit_cnt b `mod` 32 = 0 ∨ k < bit_cnt b `mod` 32).
Proof.
  intros Hc Hk. unfold last_mask, ELEM_BITS. pose proof (Z.mod_pos_bound (bit_cnt b) 32 ltac:(lia)) as Hm.
  rewrite swrap_id by lia. case_bool_decide as Hz.
  - rewrite Z.shiftl_1_l. replace (2 ^ (bit_cnt b `mod` 32) - 1) with (Z.ones (bit_cnt b `mod` 32)) by (rewrite Z.ones_equiv; lia).
    unfold uwrap. rewrite <- Z.land_ones, Z.land_spec by lia.
    rewrite (Z.ones_spec_low 32), andb_true_r by lia. destruct (decide (k < bit_cnt b `mod` 32)).
    + rewrite Z.ones_spec_low, bool_decide_eq_true_2 by lia. done.
    + rewrite Z.ones_spec_high, bool_decide_eq_false_2 by lia. done.
  - rewrite bool_decide_eq_true_2 by lia. change (u32 (-1)) with (Z.ones 32). by apply Z.ones_spec_low.
Qed.

(** Masking the last element keeps the bits of the bitmap. *)
Lemma mask_last_bits n es e :
  0 < n < 2 ^ 32 - 32 → es !! Z.to_nat (elem_cnt n - 1) = Some e → elem_cnt n ≤ Z.of_nat (length es) →
  Forall (λ e, 0 ≤ e < 2 ^ 32) es →
  let b' := Bitmap n (<[Z.to_nat (elem_cnt n - 1) := Z.land e (last_mask (Bitmap n []))]> es) in
  bm_ok b' ∧ ∀ i, 0 ≤ i < n → bit_at b' i = bit_at (Bitmap n es) i.
Proof.
  intros Hn He Hl Hall b'. assert (0 ≤ e < 2 ^ 32) as Hr by exact (Forall_lookup_1 _ _ _ _ Hall He). split.
  { split; [cbn; lia|cbn; by rewrite length_insert|]. cbn. apply Forall_insert; [done|]. by apply range_land. }
  intros i Hi. unfold bit_at. cbn [bits b']. rewrite elem_cnt_spec in * by lia.
  destruct (decide (Z.to_nat (elem_idx i) = Z.to_nat ((n + 31) `div` 32 - 1))) as [E|E].
  - rewrite E, list_lookup_insert_eq, He by (by eapply lookup_lt_Some).
    unfold ELEM_BITS, elem_idx in *. pose proof (Z.mod_pos_bound i 32 ltac:(lia)) as Hm.
    rewrite Z.land_spec, last_mask_spec by (cbn; lia). cbn [bit_cnt].
    rewrite bool_decide_eq_true_2; [by rewrite andb_true_r|]. unfold ELEM_BITS in E. Z.div_mod_to_equations. lia.
  - by rewrite list_lookup_insert_ne.
Qed.

(** The elements a full read leaves. *)
Lemma overwrite_elems n es fs :
  (n ≤ length es)%nat → (n ≤ length fs)%nat →
  Forall (λ e, 0 ≤ e < 2 ^ 32) es → Forall (λ e, 0 ≤ e < 2 ^ 32) fs →
  elems_of (overwrite (memory_of (take n es)) (memory_of fs)) = take n es ++ drop n fs.
Proof.
  intros He Hf Hes Hfs. unfold overwrite. rewrite length_memory, length_take, Nat.min_l, drop_memory by done.
  rewrite <- memory_of_app. apply elems_of_memory. apply Forall_app. split; [by apply Forall_take|by apply Forall_drop].
Qed.

(** Reading a file that begins with the elements of [b] into a bitmap of the same size. *)
Lemma bitmap_reread b b2 file :
  bm_ok b → bm_ok b2 → bit_cnt b2 = bit_cnt b →
  take (Z.to_nat (byte_cnt (bit_cnt b))) file = take (Z.to_nat (byte_cnt (bit_cnt b))) (memory_of (bits b)) →
  ∃ b', bitmap_read (byte_cnt (bit_cnt b)) file b2 = Ret (true, b') ∧ bm_ok b' ∧ bit_cnt b' = bit_cnt b ∧ abs b' = abs b.
Proof.
  intros [Hc Hl He] Hok2 Hcc Hfile. pose proof Hok2 as [Hc2 Hl2 He2]. unfold bitmap_read. rewrite Hcc in *. case_bool_decide as Hpos.
  2:{ exists b2. split_and!; [done..|]. unfold abs. rewrite Hcc. by replace (bit_cnt b) with 0 by lia. }
  pose proof (byte_cnt_spec (bit_cnt b) Hc) as Hbc. rewrite take_take, Nat.min_id, Hfile, Hbc, take_memory.
  assert (1 ≤ elem_cnt (bit_cnt b)) as H1 by (rewrite elem_cnt_spec by lia; Z.div_mod_to_equations; lia).
  set (n := Z.to_nat (elem_cnt (bit_cnt b))) in *. rewrite overwrite_elems by (done || lia).
  assert (length (take n (bits b) ++ drop n (bits b2)) = length (bits b2)) as Hlen
    by (rewrite length_app, length_take, length_drop; lia).
  destruct (lookup_lt_is_Some_2 (take n (bits b) ++ drop n (bits b2)) (Z.to_nat (elem_cnt (bit_cnt b) - 1))) as [e E];
    [lia|].
  replace (last_mask b2) with (last_mask (Bitmap (bit_cnt b) [])) by (unfold last_mask; cbn; by rewrite Hcc).
  rewrite E, bool_decide_eq_true_2 by done. eexists. split; [done|].
  destruct (mask_last_bits (bit_cnt b) _ e ltac:(lia) E) as [Hok' Hb]; [lia|apply Forall_app; split; [by apply Forall_take|by apply Forall_drop]|].
  split; [exact Hok'|]. split; [done|]. apply abs_eq; [cbn; lia|by rewrite length_abs|].
  intros k v. unfold abs. rewrite bits_in_lookup. case_decide; [|done]. intros [= <-]. rewrite Hb by lia.
  unfold bit_at. cbn [bits]. rewrite Z.add_0_l, lookup_app_l, lookup_take_lt; [done|..].
  all: rewrite ?length_take; subst n; rewrite elem_cnt_spec in * by lia;
    unfold elem_idx, ELEM_BITS; Z.div_mod_to_equations; lia.
Qed.

(** A bitmap written to a file that takes all its bytes, whatever the file held
    before, and read back from the file into any bitmap of the same size, is the
    same bitmap: both calls report success and every bit is restored. *)
Theorem bitmap_file_roundtrip b b2 file :
  bm_ok b → bm_ok b2 → bit_cnt b2 = bit_cnt b →
  (bitmap_write (bitmap_file_size b) file b).1 = true ∧
  ∃ b', bitmap_read (bitmap_file_size b2) (bitmap_write (bitmap_file_size b) file b).2 b2 = Ret (true, b') ∧
        bm_ok b' ∧ abs b' = abs b.
Proof.
  intros Hok Hok2 Hcc. unfold bitmap_write, bitmap_file_size. cbn [fst snd]. split; [by apply bool_decide_eq_true_2|].
  rewrite take_take, Nat.min_id, Hcc.
  destruct (bitmap_reread b b2 (overwrite (take (Z.to_nat (byte_cnt (bit_cnt b))) (memory_of (bits b))) file) Hok Hok2 Hcc) as (b' & E & Hok' & _ & Ha); [|by exists b'].
  unfold overwrite. rewrite take_app_length'; [done|]. destruct Hok as [Hc Hl _]. pose proof (byte_cnt_spec (bit_cnt b) Hc).
  rewrite length_take, length_memory. lia.
Qed.

Lemma bitmap_file_roundtrip_witness :
  ∃ b', bitmap_read 8 (bitmap_write 8 [1; 2; 3] (Bitmap 40 [5; 3])).2 (Bitmap 40 [0; 0]) = Ret (true, b') ∧
        bm_ok b' ∧ abs b' = abs (Bitmap 40 [5; 3]).
Proof.
  apply (bitmap_file_roundtrip (Bitmap 40 [5; 3]) (Bitmap 40 [0; 0]) [1; 2; 3]).
  - split; [cbn; lia|vm_compute; congruence|repeat constructor; lia].
  - split; [cbn; lia|vm_compute; congruence|repeat constructor; lia].
  - reflexivity.
Defined.
