(* ===== verification/Vaddr.v ===== *)
(** * Vaddr: virtual addresses and page table entries
      ([pintos/src/threads/vaddr.h], [pintos/src/threads/pte.h])

    Addresses are 32-bit values.  The functions keep the masks and shifts of the
    headers; the lemmas restate them as division and remainder by the page size, and
    show that an entry made for a page gives back the page and its permissions. *)

From S2P Require Import Prelude.

Definition BITMASK (shift cnt : Z) : Z := u32 (Z.shiftl (u32 (Z.shiftl 1 cnt - 1)) shift).

Definition PGSHIFT : Z := 0.
Definition PGBITS : Z := 12.
Definition PGSIZE : Z := Z.shiftl 1 PGBITS.
Definition PGMASK : Z := BITMASK PGSHIFT PGBITS.

Definition pg_ofs (va : Z) : Z := Z.land va PGMASK.
Definition pg_no (va : Z) : Z := Z.shiftr va PGBITS.
Definition pg_round_up (va : Z) : Z := Z.land (u32 (va + PGSIZE - 1)) (u32 (Z.lnot PGMASK)).
Definition pg_round_down (va : Z) : Z := Z.land va (u32 (Z.lnot PGMASK)).

Definition PHYS_BASE : Z := 3221225472. (* 0xc0000000 *)
Definition is_user_vaddr (vaddr : Z) : bool := bool_decide (vaddr < PHYS_BASE).
Definition is_kernel_vaddr (vaddr : Z) : bool := bool_decide (PHYS_BASE ≤ vaddr).

Definition ptov {S} (paddr : Z) : M S Z :=
  assert (bool_decide (paddr < PHYS_BASE));;
  mret (u32 (paddr + PHYS_BASE)).

Definition vtop {S} (vaddr : Z) : M S Z :=
  assert (is_kernel_vaddr vaddr);;
  mret (u32 (vaddr - PHYS_BASE)).

Definition PTSHIFT : Z := PGBITS.
Definition PTBITS : Z := 10.
Definition PTMASK : Z := BITMASK PTSHIFT PTBITS.
Definition PDSHIFT : Z := PTSHIFT + PTBITS.

Definition pt_no (va : Z) : Z := Z.shiftr (Z.land va PTMASK) PTSHIFT.
Definition pd_no (va : Z) : Z := Z.shiftr va PDSHIFT.

Definition PTE_ADDR : Z := 4294963200. (* 0xfffff000 *)
Definition PTE_P : Z := 1.
Definition PTE_W : Z := 2.
Definition PTE_U : Z := 4.
Definition PTE_A : Z := 32.
Definition PTE_D : Z := 64.

Definition pde_create {S} (pt : Z) : M S Z :=
  assert (bool_decide (pg_ofs pt = 0));;
  p ← vtop pt;
  mret (Z.lor (Z.lor (Z.lor p PTE_U) PTE_P) PTE_W).

Definition pde_get_pt {S} (pde : Z) : M S Z :=
  assert (bool_decide (Z.land pde PTE_P ≠ 0));;
  ptov (Z.land pde PTE_ADDR).

Definition pte_create_kernel {S} (page : Z) (writable : bool) : M S Z :=
  assert (bool_decide (pg_ofs page = 0));;
  p ← vtop page;
  mret (Z.lor (Z.lor p PTE_P) (if writable then PTE_W else 0)).

Definition pte_create_user {S} (page : Z) (writable : bool) : M S Z :=
  e ← pte_create_kernel page writable;
  mret (Z.lor e PTE_U).

Definition pte_get_page {S} (pte : Z) : M S Z := ptov (Z.land pte PTE_ADDR).

(** ** The masks and shifts as arithmetic *)

Lemma pg_ofs_mod va : pg_ofs va = va `mod` 4096.
Proof. unfold pg_ofs. change PGMASK with (Z.ones 12). by rewrite Z.land_ones. Qed.

Lemma pg_no_div va : pg_no va = va `div` 4096.
Proof. unfold pg_no, PGBITS. by rewrite Z.shiftr_div_pow2. Qed.

Lemma land_page_mask a : is_u32 a → Z.land a PTE_ADDR = a - a `mod` 4096.
Proof.
  intros Ha. change PTE_ADDR with (Z.ldiff (Z.ones 32) (Z.ones 12)).
  assert (Z.land a (Z.ldiff (Z.ones 32) (Z.ones 12)) = Z.ldiff a (Z.ones 12)) as ->.
  { apply Z.bits_inj'. intros n Hn. rewrite Z.land_spec, !Z.ldiff_spec.
    destruct (decide (n < 32)); [by rewrite Z.ones_spec_low by lia|].
    replace (Z.testbit a n) with false; [done|]. symmetry.
    rewrite <- (Z.mod_small a (2 ^ 32)) by exact Ha. apply Z.mod_pow2_bits_high. lia. }
  rewrite Z.ldiff_ones_r, Z.shiftl_mul_pow2, Z.shiftr_div_pow2 by lia.
  change (2 ^ 12) with 4096. Z.div_mod_to_equations. lia.
Qed.

Lemma pg_round_down_spec va : is_u32 va → pg_round_down va = va - va `mod` 4096.
Proof. apply land_page_mask. Qed.

Lemma pg_round_up_spec va :
  is_u32 va → va ≤ 2 ^ 32 - 4096 → pg_round_up va = (va + 4095) `div` 4096 * 4096.
Proof.
  intros Hva Hr. unfold pg_round_up. change PGSIZE with 4096. unfold is_u32 in Hva.
  rewrite uwrap_id by lia. rewrite land_page_mask by (unfold is_u32; lia). Z.div_mod_to_equations. lia.
Qed.

Lemma pt_no_spec va : pt_no va = (va `div` 4096) `mod` 1024.
Proof.
  unfold pt_no. change PTMASK with (Z.shiftl (Z.ones 10) 12). unfold PTSHIFT, PGBITS.
  rewrite Z.shiftr_land, Z.shiftr_shiftl_l, Z.sub_diag, Z.shiftl_0_r by lia.
  by rewrite Z.land_ones, Z.shiftr_div_pow2 by lia.
Qed.

Lemma pd_no_spec va : pd_no va = va `div` 2 ^ 22.
Proof. unfold pd_no. change PDSHIFT with 22. by rewrite Z.shiftr_div_pow2. Qed.

Lemma pd_no_user va : 0 ≤ va → is_user_vaddr va = true → 0 ≤ pd_no va < 768.
Proof.
  unfold is_user_vaddr. rewrite bool_decide_eq_true, pd_no_spec. unfold PHYS_BASE.
  intros. Z.div_mod_to_equations. lia.
Qed.

Lemma pt_no_range va : 0 ≤ pt_no va < 1024.
Proof. rewrite pt_no_spec. apply Z.mod_pos_bound. lia. Qed.

(** The two indices are the page number. *)
Lemma page_indices va : pd_no va * 1024 + pt_no va = pg_no va.
Proof. rewrite pd_no_spec, pt_no_spec, pg_no_div. Z.div_mod_to_equations. lia. Qed.

(** ** Entries *)

(** A page of the kernel's direct mapping: an aligned address whose physical address
    [ptov] maps back. *)
Definition is_kpage (a : Z) : Prop := a `mod` 4096 = 0 ∧ PHYS_BASE ≤ a < 2 ^ 32.

(** The physical address of a page, which is what its entries hold. *)
Definition frame (a : Z) : Z := a - PHYS_BASE.

Lemma frame_range a : is_kpage a → 0 ≤ frame a < 2 ^ 30 ∧ frame a `mod` 4096 = 0.
Proof. unfold is_kpage, frame, PHYS_BASE. intros. Z.div_mod_to_equations. lia. Qed.

Lemma vtop_run {S} (s : S) a : is_kpage a → vtop a s = Ret (frame a, s).
Proof.
  intros [Ha Hr]. unfold vtop. rewrite assert_bind by (apply bool_decide_eq_true_2; lia).
  unfold mret, M_ret. rewrite uwrap_id; [done|]. unfold PHYS_BASE in *. lia.
Qed.

Lemma ptov_run {S} (s : S) a : is_kpage a → ptov (frame a) s = Ret (a, s).
Proof.
  intros Ha. pose proof (frame_range a Ha) as [Hf _]. destruct Ha as [_ Hr]. unfold ptov.
  rewrite assert_bind by (apply bool_decide_eq_true_2; unfold PHYS_BASE; lia).
  unfold mret, M_ret, frame. rewrite Z.sub_add, uwrap_id; [done|]. unfold PHYS_BASE in *. lia.
Qed.

(** Flags do not touch the address of an entry. *)
Lemma aligned_lor a f : a `mod` 4096 = 0 → 0 ≤ f < 4096 → Z.lor a f = a + f.
Proof.
  intros Ha Hf. assert (Z.land a f = 0) as H0.
  { apply Z.bits_inj_0. intros n. rewrite Z.land_spec.
    destruct (decide (n < 0)); [by rewrite Z.testbit_neg_r|].
    destruct (decide (n < 12)).
    - rewrite <- (Z.mod_pow2_bits_low a 12 n) by lia. change (2 ^ 12) with 4096. by rewrite Ha, Z.bits_0.
    - rewrite <- (Z.mod_small f (2 ^ 12)) by lia. rewrite (Z.mod_pow2_bits_high f) by lia. apply andb_false_r. }
  rewrite <- Z.lxor_lor by done. symmetry. by apply Z.add_nocarry_lxor.
Qed.

(** The entry of a page with some flags. *)
Definition entry (a f : Z) : Z := frame a + f.

Lemma entry_lor a f g :
  is_kpage a → 0 ≤ f < 4096 → 0 ≤ Z.lor f g < 4096 → Z.lor (entry a f) g = entry a (Z.lor f g).
Proof.
  intros Ha Hf Hg. pose proof (frame_range a Ha) as [_ Hm]. unfold entry.
  rewrite <- (aligned_lor _ f) by done. rewrite <- Z.lor_assoc. by apply aligned_lor.
Qed.

Lemma entry_range a f : is_kpage a → 0 ≤ f < 4096 → is_u32 (entry a f).
Proof.
  intros Ha Hf. pose proof (frame_range a Ha) as [Hr _]. unfold is_u32, entry. lia.
Qed.

Lemma entry_addr a f : is_kpage a → 0 ≤ f < 4096 → Z.land (entry a f) PTE_ADDR = frame a.
Proof.
  intros Ha Hf. rewrite land_page_mask by (by apply entry_range).
  pose proof (frame_range a Ha) as [_ Hm]. unfold entry. Z.div_mod_to_equations. lia.
Qed.

(** A flag test reads the flags of the entry. *)
Lemma entry_flag a f g :
  is_kpage a → 0 ≤ f < 4096 → 0 ≤ g < 4096 → Z.land (entry a f) g = Z.land f g.
Proof.
  intros Ha Hf Hg. pose proof (frame_range a Ha) as [_ Hm]. unfold entry.
  rewrite <- aligned_lor, Z.land_lor_distr_l by done.
  replace (Z.land (frame a) g) with 0; [done|]. symmetry.
  assert (Z.land (frame a) (Z.ones 12) = 0) as H0 by (by rewrite Z.land_ones).
  rewrite <- (Z.mod_small g (2 ^ 12)) by lia. rewrite <- Z.land_ones by lia.
  by rewrite (Z.land_comm g), Z.land_assoc, H0, Z.land_0_l.
Qed.

Lemma pde_create_run {S} (s : S) pt : is_kpage pt → pde_create pt s = Ret (entry pt 7, s).
Proof.
  intros Ha. pose proof Ha as [Hm _]. unfold pde_create.
  rewrite assert_bind by (apply bool_decide_eq_true_2; by rewrite pg_ofs_mod).
  run_step (vtop_run s pt Ha). unfold mret, M_ret. do 2 f_equal.
  replace (frame pt) with (entry pt 0) by (unfold entry; lia).
  rewrite !entry_lor by (done || (cbn; lia)). done.
Qed.

Lemma pde_get_pt_run {S} (s : S) pt f :
  is_kpage pt → 0 ≤ f < 4096 → Z.land f PTE_P ≠ 0 → pde_get_pt (entry pt f) s = Ret (pt, s).
Proof.
  intros Ha Hf Hp. unfold pde_get_pt.
  rewrite assert_bind by (apply bool_decide_eq_true_2; rewrite entry_flag; [done|done|done|unfold PTE_P; lia]).
  rewrite entry_addr by done. by apply ptov_run.
Qed.

Lemma pte_get_page_run {S} (s : S) page f :
  is_kpage page → 0 ≤ f < 4096 → pte_get_page (entry page f) s = Ret (page, s).
Proof. intros Ha Hf. unfold pte_get_page. rewrite entry_addr by done. by apply ptov_run. Qed.

(** The flags of a new user mapping. *)
Definition user_flags (writable : bool) : Z := if writable then 7 else 5.

Lemma pte_create_user_run {S} (s : S) page w :
  is_kpage page → pte_create_user page w s = Ret (entry page (user_flags w), s).
Proof.
  intros Ha. pose proof Ha as [Hm _]. unfold pte_create_user, pte_create_kernel.
  rewrite bind_assoc, assert_bind by (apply bool_decide_eq_true_2; by rewrite pg_ofs_mod).
  rewrite bind_assoc. run_step (vtop_run s page Ha). unfold mbind, M_bind, mret, M_ret. do 2 f_equal.
  replace (frame page) with (entry page 0) by (unfold entry; lia).
  destruct w; rewrite !entry_lor by (done || (cbn; lia)); done.
Qed.
