(* ===== verification/Palloc.v ===== *)
(** * Palloc: the page allocator ([pintos/src/threads/palloc.c])

    Two pools of pages, each a bitmap of used pages and a base address, and the
    memory the pages are in.  Memory is a function from word addresses to 32-bit
    words: every transfer of the allocator is a [memset] of whole pages.  The pools'
    locks only order calls, each of which is one step here. *)

From S2P Require Import Prelude Bitmap Vaddr.

Definition PAL_ASSERT : Z := 1.
Definition PAL_ZERO : Z := 2.
Definition PAL_USER : Z := 4.

Definition has_flag (flags f : Z) : bool := bool_decide (Z.land flags f ≠ 0).

(** [struct pool], without its lock. *)
Record pool := Pool { used_map : bitmap; base : Z }.

Record pmem := PMem { kernel_pool : pool; user_pool : pool; words : Z → Z }.

Definition pool_of (user : bool) (s : pmem) : pool := if user then user_pool s else kernel_pool s.

Definition set_pool (user : bool) (p : pool) (s : pmem) : pmem :=
  if user then PMem (kernel_pool s) p (words s) else PMem p (user_pool s) (words s).

(** A bitmap operation on the map of a pool. *)
Definition on_map {A} (user : bool) (m : M bitmap A) : M pmem A := λ s,
  match m (used_map (pool_of user s)) with
  | Ret (a, b) => Ret (a, set_pool user (Pool b (base (pool_of user s))) s)
  | Crash => Crash
  | NoFuel => NoFuel
  end.

(** [memset] of whole words. *)
Definition fill (p byte n : Z) (m : Z → Z) (a : Z) : Z :=
  if bool_decide (p ≤ a < p + n) then byte * 16843009 else m a.

Definition memset (p byte n : Z) : M pmem unit :=
  modify (λ s, PMem (kernel_pool s) (user_pool s) (fill p byte n (words s))).

(** The words the new bitmap finds in the memory it is put in. *)
Definition buf_words (m : Z → Z) (buf size : Z) : list Z :=
  (λ i, m (buf + 8 + 4 * Z.of_nat i)) <$> seq 0 (Z.to_nat ((size - 8) `div` 4)).

Definition init_pool (user : bool) (buf page_cnt : Z) : M pmem unit := λ s,
  let bm_pages := DIV_ROUND_UP (bitmap_buf_size page_cnt) PGSIZE in
  if bool_decide (bm_pages > page_cnt) then Crash else
  match bitmap_create_in_buf (page_cnt - bm_pages) (u32 (bm_pages * PGSIZE))
          (buf_words (words s) buf (u32 (bm_pages * PGSIZE))) with
  | Ret b => Ret (tt, set_pool user (Pool b (u32 (buf + bm_pages * PGSIZE))) s)
  | Crash => Crash
  | NoFuel => NoFuel
  end.

Definition palloc_init (init_ram_pages user_page_limit : Z) : M pmem unit :=
  free_start ← ptov (1024 * 1024);
  free_end ← ptov (u32 (init_ram_pages * PGSIZE));
  let free_pages := u32 (Z.quot (s32 (free_end - free_start)) PGSIZE) in
  let half := free_pages `div` 2 in
  let user_pages := if bool_decide (half > user_page_limit) then user_page_limit else half in
  let kernel_pages := free_pages - user_pages in
  init_pool false free_start kernel_pages;;
  init_pool true (u32 (free_start + kernel_pages * PGSIZE)) user_pages.

Definition page_from_pool (p : pool) (page : Z) : bool :=
  let page_no := pg_no page in
  let start_page := pg_no (base p) in
  let end_page := u32 (start_page + bitmap_size (used_map p)) in
  bool_decide (start_page ≤ page_no) && bool_decide (page_no < end_page).

Definition palloc_get_multiple (flags page_cnt : Z) : M pmem Z :=
  let user := has_flag flags PAL_USER in
  if bool_decide (page_cnt = 0) then mret 0 else
  page_idx ← on_map user (bitmap_scan_and_flip 0 page_cnt false);
  pool ← gets (pool_of user);
  let pages := if bool_decide (page_idx ≠ BITMAP_ERROR) then u32 (base pool + PGSIZE * page_idx) else 0 in
  if bool_decide (pages ≠ 0) then
    (if has_flag flags PAL_ZERO then memset pages 0 (u32 (PGSIZE * page_cnt)) else mret tt);;
    mret pages
  else
    (if has_flag flags PAL_ASSERT then crash else mret tt);;
    mret pages.

Definition palloc_get_page (flags : Z) : M pmem Z := palloc_get_multiple flags 1.

Definition palloc_free_multiple (pages page_cnt : Z) : M pmem unit :=
  assert (bool_decide (pg_ofs pages = 0));;
  if bool_decide (pages = 0) || bool_decide (page_cnt = 0) then mret tt else
  s ← get;
  user ← (if page_from_pool (kernel_pool s) pages then mret false
          else if page_from_pool (user_pool s) pages then mret true
          else crash);
  let page_idx := u32 (pg_no pages - pg_no (base (pool_of user s))) in
  memset pages 204 (u32 (PGSIZE * page_cnt));;
  all ← on_map user (bitmap_all page_idx page_cnt);
  assert all;;
  on_map user (bitmap_set_multiple page_idx page_cnt false).

Definition palloc_free_page (page : Z) : M pmem unit := palloc_free_multiple page 1.

(** ** The invariant *)

Definition npages (p : pool) : Z := bit_cnt (used_map p).

Record pool_ok (p : pool) : Prop := {
  po_map : bm_ok (used_map p);
  po_base : base p `mod` 4096 = 0;
  po_low : PHYS_BASE ≤ base p;
  po_high : base p + 4096 * npages p ≤ 2 ^ 32
}.

Record palloc_ok (s : pmem) : Prop := {
  pa_pool : ∀ u, pool_ok (pool_of u s);
  pa_apart : base (kernel_pool s) + 4096 * npages (kernel_pool s) ≤ base (user_pool s);
  pa_words : ∀ a, is_u32 (words s a)
}.

(** The state of the page at [a] in a pool: none when the pool does not have it,
    otherwise whether it is in use. *)
Definition page_state (s : pmem) (u : bool) (a : Z) : option bool :=
  let p := pool_of u s in
  if bool_decide (a `mod` 4096 = 0 ∧ base p ≤ a) then abs (used_map p) !! Z.to_nat ((a - base p) `div` 4096)
  else None.

(** The pages of a block of [n] pages at [p]. *)
Definition in_block (p n a : Z) : Prop := a `mod` 4096 = 0 ∧ p ≤ a < p + 4096 * n.

#[export] Instance in_block_dec p n a : Decision (in_block p n a).
Proof. unfold in_block. apply _. Defined.

Lemma pool_set u p v s : pool_of v (set_pool u p s) = if bool_decide (u = v) then p else pool_of v s.
Proof. by destruct u, v. Qed.

Lemma words_set u p s : words (set_pool u p s) = words s.
Proof. by destruct u. Qed.

Lemma set_pool_ok s u p :
  palloc_ok s → pool_ok p → base p = base (pool_of u s) → npages p = npages (pool_of u s) →
  palloc_ok (set_pool u p s).
Proof.
  intros [Hp Ha Hw] Hok Hb Hn. split.
  - intros v. rewrite pool_set. by case_bool_decide.
  - destruct u; cbn in *; lia.
  - by rewrite words_set.
Qed.

Lemma fill_ok s p byte n :
  palloc_ok s → 0 ≤ byte < 256 → palloc_ok (PMem (kernel_pool s) (user_pool s) (fill p byte n (words s))).
Proof.
  intros [Hp Ha Hw] Hb. split; [intros []; [apply (Hp true)|apply (Hp false)]|done|].
  intros a. cbn. unfold fill. case_bool_decide; [unfold is_u32; lia|done].
Qed.

(** A change of the map of a pool is a change of the state of its pages. *)
Lemma page_state_range s u b' i n v :
  palloc_ok s → bit_cnt b' = npages (pool_of u s) → 0 ≤ i → 0 ≤ n → i + n ≤ npages (pool_of u s) →
  abs b' = set_range (abs (used_map (pool_of u s))) (Z.to_nat i) (Z.to_nat n) v →
  ∀ w a, page_state (set_pool u (Pool b' (base (pool_of u s))) s) w a =
    if decide (w = u ∧ in_block (base (pool_of u s) + 4096 * i) n a) then Some v else page_state s w a.
Proof.
  intros Hok Hc Hi Hn Hr Ha w a. unfold page_state. rewrite pool_set.
  destruct (decide (u = w)) as [<-|Hne].
  2:{ rewrite (bool_decide_eq_false_2 (u = w)) by done. rewrite decide_False; [done|]. intros [E _]. by destruct Hne. }
  rewrite (bool_decide_eq_true_2 (u = u)) by done. cbn [used_map base].
  pose proof (po_base _ (pa_pool _ Hok u)) as Hb. case_bool_decide as Hal.
  2:{ rewrite decide_False; [done|]. unfold in_block. intros [_ Hin]. lia. }
  rewrite Ha, set_range_lookup by (rewrite length_abs; unfold npages in Hr; lia).
  case_decide as Hk.
  - rewrite decide_True; [done|]. split; [done|]. split; [lia|]. Z.div_mod_to_equations. lia.
  - rewrite decide_False; [done|]. intros [_ [_ Hin]]. apply Hk. Z.div_mod_to_equations. lia.
Qed.

(** The free pages of a pool are the clear bits of its map. *)
Lemma page_state_index s u i :
  palloc_ok s → page_state s u (base (pool_of u s) + 4096 * Z.of_nat i) = abs (used_map (pool_of u s)) !! i.
Proof.
  intros Hok. pose proof (po_base _ (pa_pool _ Hok u)) as Hb. unfold page_state.
  rewrite bool_decide_eq_true_2 by (Z.div_mod_to_equations; lia). f_equal. Z.div_mod_to_equations. lia.
Qed.

Lemma page_state_Some s u a b :
  palloc_ok s → page_state s u a = Some b →
  ∃ i, a = base (pool_of u s) + 4096 * Z.of_nat i ∧ Z.of_nat i < npages (pool_of u s) ∧
       abs (used_map (pool_of u s)) !! i = Some b.
Proof.
  intros Hok. pose proof (po_base _ (pa_pool _ Hok u)) as Hb. pose proof (po_map _ (pa_pool _ Hok u)) as Hm.
  unfold page_state. case_bool_decide as Hal; [|done]. intros Hl.
  exists (Z.to_nat ((a - base (pool_of u s)) `div` 4096)). split_and!; [Z.div_mod_to_equations; lia| |done].
  apply lookup_lt_Some in Hl. rewrite length_abs in Hl. unfold npages. pose proof (bm_cnt _ Hm). lia.
Qed.

(** ** Allocation *)

Lemma on_map_run {A} u (m : M bitmap A) s a b :
  m (used_map (pool_of u s)) = Ret (a, b) →
  on_map u m s = Ret (a, set_pool u (Pool b (base (pool_of u s))) s).
Proof. unfold on_map. by intros ->. Qed.

Lemma map_changed_ok s u b' :
  palloc_ok s → bm_ok b' → bit_cnt b' = npages (pool_of u s) →
  palloc_ok (set_pool u (Pool b' (base (pool_of u s))) s).
Proof.
  intros Hok Hb Hc. pose proof (pa_pool _ Hok u) as [_ H2 H3 H4].
  apply set_pool_ok; [done| |done|done]. split; [done..|]. unfold npages in *. cbn. congruence.
Qed.

Lemma set_pool_id s u b :
  b = used_map (pool_of u s) → set_pool u (Pool b (base (pool_of u s))) s = s.
Proof. intros ->. by destruct s as [[] []], u. Qed.

(** What a call owes its caller when it hands out the block at [p]. *)
Record allocated (flags n p : Z) (s s' : pmem) : Prop := {
  al_ok : palloc_ok s';
  al_kpage : is_kpage p;
  al_end : p + 4096 * n ≤ 2 ^ 32;
  al_free : ∀ k, 0 ≤ k < n → page_state s (has_flag flags PAL_USER) (p + 4096 * k) = Some false;
  al_state : ∀ v a, page_state s' v a =
    if decide (v = has_flag flags PAL_USER ∧ in_block p n a) then Some true else page_state s v a;
  al_words : ∀ a, words s' a =
    if decide (has_flag flags PAL_ZERO = true ∧ p ≤ a < p + 4096 * n) then 0 else words s a;
  al_frame : ∀ v, base (pool_of v s') = base (pool_of v s) ∧ npages (pool_of v s') = npages (pool_of v s)
}.

(** No [n] consecutive pages of the pool are free. *)
Definition exhausted (flags n : Z) (s : pmem) : Prop :=
  ∀ p, ¬ ∀ k, 0 ≤ k < n → page_state s (has_flag flags PAL_USER) (p + 4096 * k) = Some false.

Lemma group_free s u i n :
  palloc_ok s → 0 ≤ n → group_at (abs (used_map (pool_of u s))) (Z.to_nat n) false i →
  ∀ k, 0 ≤ k < n → page_state s u (base (pool_of u s) + 4096 * Z.of_nat i + 4096 * k) = Some false.
Proof.
  intros Hok Hn [Hl Hf] k Hk. rewrite Forall_forall in Hf.
  replace (base (pool_of u s) + 4096 * Z.of_nat i + 4096 * k)
    with (base (pool_of u s) + 4096 * Z.of_nat (i + Z.to_nat k)) by lia.
  rewrite page_state_index by done.
  destruct (lookup_lt_is_Some_2 (abs (used_map (pool_of u s))) (i + Z.to_nat k)) as [v Ev]; [lia|].
  rewrite Ev. f_equal. apply Hf. apply list_elem_of_lookup_2 with (Z.to_nat k).
  by rewrite lookup_take_lt, lookup_drop by lia.
Qed.

Lemma free_group s u p n :
  palloc_ok s → 0 < n → (∀ k, 0 ≤ k < n → page_state s u (p + 4096 * k) = Some false) →
  ∃ i, group_at (abs (used_map (pool_of u s))) (Z.to_nat n) false i.
Proof.
  intros Hok Hn Hf. pose proof (Hf 0 ltac:(lia)) as H0.
  apply page_state_Some in H0 as (i & Hp & Hi & _); [|done]. exists i.
  assert (∀ k, (k < Z.to_nat n)%nat → abs (used_map (pool_of u s)) !! (i + k)%nat = Some false) as Hb.
  { intros k Hk. rewrite <- page_state_index by done. rewrite <- (Hf (Z.of_nat k)) by lia. f_equal. lia. }
  split.
  - pose proof (Hb (Z.to_nat n - 1)%nat ltac:(lia)) as Hl. apply lookup_lt_Some in Hl. lia.
  - rewrite Forall_lookup. intros k v. rewrite lookup_take, lookup_drop. case_decide; [|done].
    rewrite Hb by done. by intros [= <-].
Qed.

(** Setting the bits of a free group hands the block out; clearing its words is
    what [PAL_ZERO] asks for. *)
Lemma hand_out s flags n i b' :
  let u := has_flag flags PAL_USER in
  let p := base (pool_of u s) + 4096 * Z.of_nat i in
  let s1 := set_pool u (Pool b' (base (pool_of u s))) s in
  palloc_ok s → 0 < n → group_at (abs (used_map (pool_of u s))) (Z.to_nat n) false i →
  bm_ok b' → bit_cnt b' = npages (pool_of u s) →
  abs b' = set_range (abs (used_map (pool_of u s))) i (Z.to_nat n) true →
  allocated flags n p s
    (if has_flag flags PAL_ZERO then PMem (kernel_pool s1) (user_pool s1) (fill p 0 (4096 * n) (words s1)) else s1).
Proof.
  intros u p s1 Hok Hn Hg Hm' Hc' Ha. pose proof Hg as [Hlen _]. rewrite length_abs in Hlen.
  pose proof (pa_pool _ Hok u) as [Hm Hb Hlo Hhi]. pose proof (bm_cnt _ Hm) as Hc. unfold npages, PHYS_BASE in *.
  assert (palloc_ok s1) as Hok1 by (by apply map_changed_ok).
  assert (∀ w a, page_state s1 w a = if decide (w = u ∧ in_block p n a) then Some true else page_state s w a) as Hps.
  { apply page_state_range; [done|done|lia|lia|unfold npages; lia|]. by rewrite Nat2Z.id. }
  assert (∀ v, base (pool_of v s1) = base (pool_of v s) ∧ npages (pool_of v s1) = npages (pool_of v s)) as Hfr.
  { intros v. subst s1. rewrite pool_set. case_bool_decide; [by subst v|done]. }
  assert (is_kpage p) as Hp by (split; [subst p; Z.div_mod_to_equations; lia|unfold PHYS_BASE; lia]).
  destruct (has_flag flags PAL_ZERO) eqn:Ez;
    (split; [|done|lia|apply group_free; [done|lia|done]|apply Hps| |]).
  - by apply fill_ok.
  - intros a. cbn. unfold fill. subst s1. rewrite words_set, Ez. case_bool_decide; case_decide; naive_solver.
  - intros []; [apply (Hfr true)|apply (Hfr false)].
  - done.
  - intros a. rewrite Ez, decide_False by naive_solver. subst s1. by rewrite words_set.
  - apply Hfr.
Qed.

Lemma palloc_get_run s flags n :
  palloc_ok s → 0 < n →
  (∃ p s', palloc_get_multiple flags n s = Ret (p, s') ∧ allocated flags n p s s') ∨
  (exhausted flags n s ∧
   palloc_get_multiple flags n s = if has_flag flags PAL_ASSERT then Crash else Ret (0, s)).
Proof.
  intros Hok Hn. unfold palloc_get_multiple. set (u := has_flag flags PAL_USER).
  rewrite (bool_decide_eq_false_2 (n = 0)) by lia.
  pose proof (pa_pool _ Hok u) as [Hm Hb Hlo Hhi]. pose proof (bm_cnt _ Hm) as Hc.
  destruct (bitmap_scan_and_flip_run (used_map (pool_of u s)) 0 n false Hm) as (b' & E & Hm' & Hc' & Ha & Hid); [lia..|].
  apply (on_map_run u) in E. run_step E. rewrite (bind_Ret _ _ _ _ _ eq_refl). rewrite pool_set.
  rewrite (bool_decide_eq_true_2 (u = u)) by done. cbn [base].
  change (Z.to_nat 0) with 0%nat in *. destruct (first_group _ _ _ _) as [i|] eqn:Ef; cbn [err_or from_option].
  - left. apply first_group_Some in Ef as (_ & Hg & _). pose proof Hg as [Hlen _]. rewrite length_abs in Hlen.
    pose proof (hand_out s flags n i b' Hok Hn Hg Hm' Hc' Ha) as Hal. fold u in Hal.
    unfold npages, PHYS_BASE in *. change PGSIZE with 4096.
    rewrite (bool_decide_eq_true_2 (Z.of_nat i ≠ BITMAP_ERROR)) by (unfold BITMAP_ERROR; lia).
    rewrite (uwrap_id 32 (4096 * n)), (uwrap_id 32 (_ + _)) by lia. rewrite bool_decide_eq_true_2 by lia.
    eexists _, _. split; [|exact Hal]. by destruct (has_flag flags PAL_ZERO).
  - right. split.
    + intros p Hf. destruct (free_group s u p n Hok Hn Hf) as [i Hg].
      exact (first_group_None _ _ _ _ Ef i (Nat.le_0_l i) Hg).
    + rewrite (bool_decide_eq_false_2 (BITMAP_ERROR ≠ BITMAP_ERROR)) by naive_solver.
      rewrite (bool_decide_eq_false_2 (0 ≠ 0)) by naive_solver. rewrite set_pool_id by (by apply Hid).
      by destruct (has_flag flags PAL_ASSERT).
Qed.

(** ** Release *)

Lemma page_from_pool_spec p a :
  pool_ok p → page_from_pool p a = bool_decide (base p ≤ a < base p + 4096 * npages p).
Proof.
  intros [Hm Hb Hlo Hhi]. pose proof (bm_cnt _ Hm) as Hc. unfold page_from_pool, npages, PHYS_BASE in *.
  rewrite !pg_no_div. unfold bitmap_size. rewrite uwrap_id by (Z.div_mod_to_equations; lia).
  rewrite <- bool_decide_and. apply bool_decide_ext. Z.div_mod_to_equations. lia.
Qed.

Definition all_used (s : pmem) (u : bool) (p n : Z) : Prop :=
  ∀ k, 0 ≤ k < n → page_state s u (p + 4096 * k) = Some true.

(** The pool the release chooses is the one that has the page. *)
Lemma find_pool s u i :
  palloc_ok s → 0 ≤ i < npages (pool_of u s) →
  (if page_from_pool (kernel_pool s) (base (pool_of u s) + 4096 * i) then mret false
   else if page_from_pool (user_pool s) (base (pool_of u s) + 4096 * i) then mret true
   else crash) s = Ret (u, s).
Proof.
  intros Hok Hi. pose proof (pa_apart _ Hok) as Hap.
  rewrite (page_from_pool_spec (kernel_pool s)) by exact (pa_pool _ Hok false).
  rewrite (page_from_pool_spec (user_pool s)) by exact (pa_pool _ Hok true). destruct u; cbn [pool_of] in *.
  - rewrite bool_decide_eq_false_2, bool_decide_eq_true_2 by lia. done.
  - rewrite bool_decide_eq_true_2 by lia. done.
Qed.

Record freed (u : bool) (n p : Z) (s s' : pmem) : Prop := {
  fr_ok : palloc_ok s';
  fr_state : ∀ v a, page_state s' v a = if decide (v = u ∧ in_block p n a) then Some false else page_state s v a;
  fr_words : ∀ a, words s' a = if decide (p ≤ a < p + 4096 * n) then 3435973836 else words s a;
  fr_frame : ∀ v, base (pool_of v s') = base (pool_of v s) ∧ npages (pool_of v s') = npages (pool_of v s)
}.

Lemma all_used_index s u p n :
  palloc_ok s → 0 < n → all_used s u p n →
  ∃ i, p = base (pool_of u s) + 4096 * i ∧ 0 ≤ i ∧ i + n ≤ npages (pool_of u s) ∧
       false ∉ window (abs (used_map (pool_of u s))) i n.
Proof.
  intros Hok Hn Hu. pose proof (Hu 0 ltac:(lia)) as H0.
  apply page_state_Some in H0 as (i & Hp & Hi & _); [|done]. exists (Z.of_nat i).
  assert (∀ k, (k < Z.to_nat n)%nat → abs (used_map (pool_of u s)) !! (i + k)%nat = Some true) as Hb.
  { intros k Hk. rewrite <- page_state_index by done. rewrite <- (Hu (Z.of_nat k)) by lia. f_equal. lia. }
  split_and!; [lia|lia| |].
  - pose proof (Hb (Z.to_nat n - 1)%nat ltac:(lia)) as Hl. apply lookup_lt_Some in Hl. rewrite length_abs in Hl.
    unfold npages. lia.
  - unfold window. rewrite Nat2Z.id, list_elem_of_lookup. intros [k Hk]. rewrite lookup_take, lookup_drop in Hk.
    case_decide; [|done]. by rewrite Hb in Hk.
Qed.

(** The call up to the test of the map. *)
Lemma free_reaches s u i n :
  let p := base (pool_of u s) + 4096 * i in
  palloc_ok s → 0 ≤ i < npages (pool_of u s) → 0 < n →
  palloc_free_multiple p n s =
    (all ← on_map u (bitmap_all i n); assert all;; on_map u (bitmap_set_multiple i n false))
      (PMem (kernel_pool s) (user_pool s) (fill p 204 (u32 (4096 * n)) (words s))).
Proof.
  intros p Hok Hi Hn. pose proof (pa_pool _ Hok u) as [_ Hb Hlo Hhi]. unfold PHYS_BASE in *.
  unfold palloc_free_multiple.
  rewrite assert_bind by (apply bool_decide_eq_true_2; rewrite pg_ofs_mod; subst p; Z.div_mod_to_equations; lia).
  rewrite (bool_decide_eq_false_2 (p = 0)), (bool_decide_eq_false_2 (n = 0)) by lia. cbn [orb].
  rewrite (bind_Ret _ _ _ s s) by done. run_step (find_pool s u i Hok Hi).
  rewrite !pg_no_div. replace (u32 (p `div` 4096 - base (pool_of u s) `div` 4096)) with i; [done|].
  rewrite uwrap_id; subst p; Z.div_mod_to_equations; lia.
Qed.

Lemma palloc_free_run s u p n :
  palloc_ok s → 0 < n → all_used s u p n →
  ∃ s', palloc_free_multiple p n s = Ret (tt, s') ∧ freed u n p s s'.
Proof.
  intros Hok Hn Hu. destruct (all_used_index s u p n Hok Hn Hu) as (i & -> & Hi & Hin & Hw).
  pose proof (pa_pool _ Hok u) as [Hm Hb Hlo Hhi]. pose proof (bm_cnt _ Hm) as Hc. unfold npages, PHYS_BASE in *.
  rewrite (free_reaches s u i n Hok) by (unfold npages; lia). rewrite (uwrap_id 32 (4096 * n)) by lia.
  set (s1 := PMem _ _ _). assert (pool_of u s1 = pool_of u s) as Hs1 by (by destruct u).
  assert (palloc_ok s1) as Hok1 by (by apply fill_ok).
  assert (on_map u (bitmap_all i n) s1 = Ret (true, s1)) as Eall.
  { rewrite (on_map_run u (bitmap_all i n) s1 true (used_map (pool_of u s1))); [by rewrite set_pool_id|].
    rewrite Hs1. unfold bitmap_all. run_step (bitmap_contains_run _ i n false Hm Hi ltac:(lia) Hin).
    rewrite bits_in_abs by lia. unfold window in Hw. by rewrite bool_decide_eq_false_2. }
  run_step Eall. rewrite assert_bind by done.
  destruct (set_multiple_abs (used_map (pool_of u s)) i n false Hm Hi ltac:(lia) Hin) as (b' & E & Hm' & Hc' & Ha).
  rewrite <- Hs1 in E. rewrite (on_map_run u _ s1 _ _ E). eexists. split; [done|].
  rewrite Hs1 in *. split.
  - rewrite <- Hs1. apply map_changed_ok; [done|done|]. by rewrite Hs1.
  - rewrite <- Hs1. intros w a. rewrite (page_state_range s1 u b' i n false) by (try done; try lia; rewrite ?Hs1; (done || unfold npages; lia)).
    rewrite Hs1. by replace (page_state s1 w a) with (page_state s w a) by (by destruct w).
  - intros a. rewrite words_set. cbn. unfold fill. case_bool_decide; case_decide; done.
  - intros v. rewrite pool_set. case_bool_decide; [subst v; split; [done|cbn; unfold npages; done]|by destruct v].
Qed.

(** A block that is not all in use is not released: the kernel panics. *)
Lemma palloc_free_refused s u i n :
  palloc_ok s → 0 ≤ i < npages (pool_of u s) → 0 < n ≤ 2 ^ 20 →
  ¬ all_used s u (base (pool_of u s) + 4096 * i) n →
  palloc_free_multiple (base (pool_of u s) + 4096 * i) n s = Crash.
Proof.
  intros Hok Hi Hn Hnot. pose proof (pa_pool _ Hok u) as [Hm Hb Hlo Hhi]. pose proof (bm_cnt _ Hm) as Hc.
  unfold PHYS_BASE in *. rewrite (free_reaches s u i n Hok Hi) by lia. set (s1 := PMem _ _ _).
  assert (pool_of u s1 = pool_of u s) as Hs1 by (by destruct u).
  destruct (decide (i + n ≤ bit_cnt (used_map (pool_of u s)))) as [Hin|Hin].
  - rewrite (bind_Ret _ _ _ false s1); [done|].
    rewrite (on_map_run u (bitmap_all i n) s1 false (used_map (pool_of u s1))); [by rewrite set_pool_id|].
    rewrite Hs1. unfold bitmap_all. run_step (bitmap_contains_run _ i n false Hm ltac:(lia) ltac:(lia) Hin).
    rewrite bool_decide_eq_true_2; [done|]. rewrite bits_in_abs by lia.
    destruct (decide (false ∈ take (Z.to_nat n) (drop (Z.to_nat i) (abs (used_map (pool_of u s)))))) as [|Hnin]; [done|].
    destruct Hnot. intros k Hk.
    replace (base (pool_of u s) + 4096 * i + 4096 * k)
      with (base (pool_of u s) + 4096 * Z.of_nat (Z.to_nat i + Z.to_nat k)) by lia.
    rewrite page_state_index by done.
    destruct (lookup_lt_is_Some_2 (abs (used_map (pool_of u s))) (Z.to_nat i + Z.to_nat k)) as [[] Ev];
      [rewrite length_abs; lia|done|].
    destruct Hnin. apply list_elem_of_lookup_2 with (Z.to_nat k). by rewrite lookup_take_lt, lookup_drop by lia.
  - apply bind_Crash. unfold on_map. rewrite Hs1. unfold bitmap_all, bitmap_contains, assert_range.
    unfold mbind, M_bind, get. rewrite uwrap_id by (unfold npages in *; lia).
    rewrite (bool_decide_eq_false_2 (i + n ≤ _)) by lia. by case_bool_decide.
Qed.

(** ** Initialisation *)

Lemma length_buf_words m buf size : length (buf_words m buf size) = Z.to_nat ((size - 8) `div` 4).
Proof. unfold buf_words. by rewrite length_fmap, length_seq. Qed.

(** The pages a pool's map takes. *)
Definition map_pages (page_cnt : Z) : Z := (8 + 4 * ((page_cnt + 31) `div` 32) + 4095) `div` 4096.

Lemma buf_size_spec n : 0 ≤ n < 2 ^ 20 → bitmap_buf_size n = 8 + 4 * ((n + 31) `div` 32).
Proof.
  intros Hn. unfold bitmap_buf_size, byte_cnt. rewrite elem_cnt_spec by lia.
  rewrite (uwrap_id 32 (4 * _)), uwrap_id; Z.div_mod_to_equations; lia.
Qed.

Lemma map_pages_spec n : 0 ≤ n < 2 ^ 20 → DIV_ROUND_UP (bitmap_buf_size n) PGSIZE = map_pages n.
Proof.
  intros Hn. unfold DIV_ROUND_UP, map_pages. rewrite buf_size_spec by done.
  change PGSIZE with 4096. rewrite uwrap_id by (Z.div_mod_to_equations; lia). f_equal. lia.
Qed.

Lemma init_pool_run s u buf n :
  (∀ a, is_u32 (words s a)) → 1 ≤ n < 2 ^ 20 → PHYS_BASE ≤ buf → buf + 4096 * n < 2 ^ 32 →
  ∃ b, init_pool u buf n s = Ret (tt, set_pool u (Pool b (buf + 4096 * map_pages n)) s) ∧
       bm_ok b ∧ bit_cnt b = n - map_pages n ∧ 0 ≤ n - map_pages n ∧ 0 ≤ map_pages n ∧
       abs b = replicate (Z.to_nat (n - map_pages n)) false.
Proof.
  intros Hw Hn Hb He. unfold init_pool. rewrite map_pages_spec by lia. change PGSIZE with 4096.
  assert (0 < map_pages n ≤ n) as Hmp by (unfold map_pages; Z.div_mod_to_equations; lia).
  rewrite (bool_decide_eq_false_2 (map_pages n > n)) by lia. unfold bitmap_create_in_buf, PHYS_BASE in *.
  rewrite (uwrap_id 32 (map_pages n * 4096)), (uwrap_id 32 (buf + _)) by lia.
  assert (elem_cnt (n - map_pages n) ≤ (map_pages n * 4096 - 8) `div` 4 ∧
          bitmap_buf_size (n - map_pages n) ≤ map_pages n * 4096) as [Hel Hbs].
  { rewrite buf_size_spec, elem_cnt_spec by lia. unfold map_pages in *. Z.div_mod_to_equations. lia. }
  rewrite bool_decide_eq_true_2 by done.
  destruct (bitmap_set_all_abs (Bitmap (n - map_pages n) (buf_words (words s) buf (map_pages n * 4096))) false)
    as (b & E & Hok & Hc & Ha).
  { split; [cbn; lia|cbn; rewrite length_buf_words; Z.div_mod_to_equations; lia|].
    cbn. unfold buf_words. rewrite Forall_fmap, Forall_forall. intros i _. apply Hw. }
  exists b. rewrite E. split_and!; [|done|done|lia|lia|done]. do 3 f_equal. f_equal. lia.
Qed.

Lemma palloc_init_run s ram limit :
  (∀ a, is_u32 (words s a)) → 258 ≤ ram < 2 ^ 18 → 1 ≤ limit →
  ∃ s', palloc_init ram limit s = Ret (tt, s') ∧ palloc_ok s' ∧ words s' = words s ∧
    (∀ u a, page_state s' u a ≠ Some true) ∧
    ∀ u, PHYS_BASE + 2 ^ 20 ≤ base (pool_of u s') ∧
         base (pool_of u s') + 4096 * npages (pool_of u s') ≤ PHYS_BASE + 4096 * ram.
Proof.
  intros Hw Hram Hlim. unfold palloc_init, ptov. change PGSIZE with 4096. change (1024 * 1024) with (2 ^ 20).
  rewrite (uwrap_id 32 (ram * 4096)) by lia.
  rewrite bind_assoc, assert_bind, (bind_Ret _ _ _ _ _ eq_refl) by done.
  rewrite bind_assoc, assert_bind, (bind_Ret _ _ _ _ _ eq_refl) by (apply bool_decide_eq_true_2; unfold PHYS_BASE; lia).
  unfold PHYS_BASE in *. rewrite (uwrap_id 32 (2 ^ 20 + _)), (uwrap_id 32 (ram * 4096 + _)) by lia.
  rewrite (swrap_id 32) by lia. rewrite (Z.quot_div_nonneg _ 4096) by lia.
  replace ((ram * 4096 + 3221225472 - (2 ^ 20 + 3221225472)) `div` 4096) with (ram - 256) by (Z.div_mod_to_equations; lia).
  rewrite (uwrap_id 32 (ram - 256)) by lia.
  set (up := if bool_decide _ then _ else _).
  assert (1 ≤ up ∧ up + 1 ≤ ram - 256) as Hup by (subst up; case_bool_decide; Z.div_mod_to_equations; lia). clearbody up.
  destruct (init_pool_run s false (2 ^ 20 + 3221225472) (ram - 256 - up)) as (b1 & E1 & Hm1 & Hc1 & Hr1 & Hp1 & Ha1);
    [done|lia|unfold PHYS_BASE; lia|lia|].
  rewrite (bind_Ret _ _ _ _ _ E1). rewrite (uwrap_id 32) by lia.
  destruct (init_pool_run (set_pool false (Pool b1 (2 ^ 20 + 3221225472 + 4096 * map_pages (ram - 256 - up))) s) true
    (2 ^ 20 + 3221225472 + (ram - 256 - up) * 4096) up) as (b2 & E2 & Hm2 & Hc2 & Hr2 & Hp2 & Ha2);
    [done|lia|unfold PHYS_BASE; lia|lia|].
  rewrite E2. eexists. split; [done|]. split_and!.
  - split; [intros []; split; cbn; unfold npages, PHYS_BASE in *; cbn; try done; try lia; Z.div_mod_to_equations; lia| |done].
    cbn. unfold npages. cbn. lia.
  - done.
  - intros u a. unfold page_state. case_bool_decide; [|done]. destruct u; cbn [pool_of set_pool kernel_pool user_pool used_map];
      rewrite ?Ha1, ?Ha2; intros [? _]%lookup_replicate_1; done.
  - intros []; cbn; unfold npages; cbn; lia.
Qed.

(** ** Sessions *)

(** The states after [s0] with the blocks that are handed out and not yet released. *)
Inductive reach (s0 : pmem) : pmem → list (Z * Z) → Prop :=
| reach_init : reach s0 s0 []
| reach_get s l flags n p s' :
    reach s0 s l → 0 < n → palloc_get_multiple flags n s = Ret (p, s') →
    reach s0 s' (if decide (p = 0) then l else (p, n) :: l)
| reach_free s l1 p n l2 s' :
    reach s0 s (l1 ++ (p, n) :: l2) → palloc_free_multiple p n s = Ret (tt, s') → reach s0 s' (l1 ++ l2).

Definition used (s : pmem) (a : Z) : Prop := ∃ u, page_state s u a = Some true.
Definition in_blocks (l : list (Z * Z)) (a : Z) : Prop := ∃ p n, (p, n) ∈ l ∧ in_block p n a.

(** The blocks are whole, in one pool, apart from each other, and they are the pages in use. *)
Fixpoint apart (l : list (Z * Z)) : Prop :=
  match l with
  | [] => True
  | (p, n) :: l => (∀ a, in_block p n a → ¬ in_blocks l a) ∧ apart l
  end.

Record live_ok (s : pmem) (l : list (Z * Z)) : Prop := {
  lo_ok : palloc_ok s;
  lo_used : ∀ a, used s a ↔ in_blocks l a;
  lo_whole : ∀ p n, (p, n) ∈ l → 0 < n ∧ ∃ u, all_used s u p n;
  lo_apart : apart l
}.

Lemma in_blocks_cons p n l a : in_blocks ((p, n) :: l) a ↔ in_block p n a ∨ in_blocks l a.
Proof. unfold in_blocks. setoid_rewrite elem_of_cons. naive_solver. Qed.

Lemma in_blocks_app l1 l2 a : in_blocks (l1 ++ l2) a ↔ in_blocks l1 a ∨ in_blocks l2 a.
Proof. unfold in_blocks. setoid_rewrite elem_of_app. naive_solver. Qed.

Lemma apart_middle l1 p n l2 :
  apart (l1 ++ (p, n) :: l2) → apart (l1 ++ l2) ∧ ∀ a, in_block p n a → ¬ in_blocks (l1 ++ l2) a.
Proof.
  induction l1 as [|[q m] l1 IH]; cbn [app apart]; [by intros [??]|].
  intros [Hq Hl]. destruct (IH Hl) as [H1 H2]. split; [split; [|done]|].
  - intros a Ha Hin. apply (Hq a Ha). rewrite in_blocks_app, in_blocks_cons. rewrite in_blocks_app in Hin. tauto.
  - intros a Ha. rewrite in_blocks_cons. intros [Hin|Hin]; [|by apply (H2 a)].
    apply (Hq a Hin). rewrite in_blocks_app, in_blocks_cons. tauto.
Qed.

(** A page is in one pool only. *)
Lemma page_state_one s u v a x y : palloc_ok s → page_state s u a = Some x → page_state s v a = Some y → u = v.
Proof.
  intros Hok Hu Hv. apply page_state_Some in Hu as (i & -> & Hi & _); [|done].
  apply page_state_Some in Hv as (j & Hj & Hjn & _); [|done].
  pose proof (pa_apart _ Hok) as Ha. destruct u, v; cbn [pool_of] in *; (done || lia).
Qed.

Lemma in_block_index p n a : p `mod` 4096 = 0 → in_block p n a ↔ ∃ k, 0 ≤ k < n ∧ a = p + 4096 * k.
Proof.
  intros Hp. unfold in_block. split.
  - intros [Ha Hr]. exists ((a - p) `div` 4096). Z.div_mod_to_equations. lia.
  - intros (k & Hk & ->). Z.div_mod_to_equations. lia.
Qed.

Lemma all_used_block s u p n a :
  palloc_ok s → 0 < n → all_used s u p n → in_block p n a → page_state s u a = Some true.
Proof.
  intros Hok Hn Hu. destruct (all_used_index s u p n Hok Hn Hu) as (i & -> & _).
  pose proof (po_base _ (pa_pool _ Hok u)). rewrite in_block_index by (Z.div_mod_to_equations; lia).
  intros (k & Hk & ->). by apply Hu.
Qed.

Lemma live_get s l flags n p s' :
  live_ok s l → 0 < n → allocated flags n p s s' → live_ok s' ((p, n) :: l).
Proof.
  intros [Hok Hu Hw Ha] Hn [Hok' [Hp Hpr] He Hf Hst _ _].
  assert (∀ a, in_block p n a → ¬ used s a) as Hnew.
  { intros a Hin [v Hv]. rewrite in_block_index in Hin by done. destruct Hin as (k & Hk & ->).
    specialize (Hf k Hk). by rewrite (page_state_one _ _ _ _ _ _ Hok Hv Hf), Hf in Hv. }
  assert (∀ v a, page_state s v a = Some true → page_state s' v a = Some true) as Hmono.
  { intros v a Hv. rewrite Hst. by case_decide. }
  split; [done| | |].
  - intros a. rewrite in_blocks_cons, <- Hu. unfold used. split.
    + intros [v Hv]. rewrite Hst in Hv. case_decide; naive_solver.
    + intros [Hin|[v Hv]]; [|eauto]. exists (has_flag flags PAL_USER). rewrite Hst. by rewrite decide_True.
  - intros q m. rewrite elem_of_cons. intros [[= -> ->]|Hin].
    + split; [done|]. exists (has_flag flags PAL_USER). intros k Hk. rewrite Hst. rewrite decide_True; [done|].
      split; [done|]. rewrite in_block_index by done. eauto.
    + destruct (Hw q m Hin) as [? [v Hv]]. split; [done|]. exists v. intros k Hk. by apply Hmono, Hv.
  - split; [|done]. intros a Hin. rewrite <- Hu. by apply Hnew.
Qed.

Lemma live_free s l1 p n l2 u s' :
  live_ok s (l1 ++ (p, n) :: l2) → all_used s u p n → freed u n p s s' → live_ok s' (l1 ++ l2).
Proof.
  intros [Hok Hu Hw Ha] Hall [Hok' Hst _ _].
  destruct (Hw p n ltac:(set_solver)) as [Hn _]. apply apart_middle in Ha as [Ha Hd].
  assert (∀ v a, page_state s v a = Some true → ¬ in_block p n a → page_state s' v a = Some true) as Hkeep.
  { intros v a Hv Hnin. rewrite Hst. rewrite decide_False; naive_solver. }
  split; [done| | |done].
  - intros a. split.
    + intros [v Hv]. rewrite Hst in Hv. case_decide as Hd'; [done|].
      assert (used s a) as Hus by (by exists v). rewrite Hu, in_blocks_app, in_blocks_cons in Hus.
      rewrite in_blocks_app. destruct Hus as [?|[Hin|?]]; [tauto| |tauto]. destruct Hd'. split; [|done].
      exact (page_state_one _ _ _ _ _ _ Hok Hv (all_used_block _ _ _ _ _ Hok Hn Hall Hin)).
    + intros Hin. assert (¬ in_block p n a) as Hnin by (intros Hb; by apply (Hd a)).
      destruct (proj2 (Hu a)) as [v Hv]; [rewrite in_blocks_app, in_blocks_cons; rewrite in_blocks_app in Hin; tauto|].
      exists v. by apply Hkeep.
  - intros q m Hin. destruct (Hw q m ltac:(set_solver)) as [Hm [v Hv]]. split; [done|]. exists v.
    intros k Hk. apply Hkeep; [by apply Hv|]. intros Hb. apply (Hd _ Hb). exists q, m. split; [done|].
    destruct (all_used_index s v q m Hok Hm Hv) as (i & -> & _).
    pose proof (po_base _ (pa_pool _ Hok v)). rewrite in_block_index by (Z.div_mod_to_equations; lia). eauto.
Qed.

Lemma reach_live s0 s l :
  palloc_ok s0 → (∀ u a, page_state s0 u a ≠ Some true) → reach s0 s l → live_ok s l.
Proof.
  intros Hok0 Hfree. induction 1 as [|s l flags n p s' _ IH Hn E|s l1 p n l2 s' _ IH E].
  - split; [done| |by intros ?? ?%elem_of_nil|done]. intros a. split.
    + intros [u Hu]. by destruct (Hfree u a).
    + intros (? & ? & ?%elem_of_nil & _). done.
  - pose proof (lo_ok _ _ IH) as Hok. destruct (palloc_get_run s flags n Hok Hn) as [(q & s1 & E' & Hal)|[_ E']].
    + rewrite E in E'. injection E' as <- <-. rewrite decide_False; [by eapply live_get|].
      pose proof (al_kpage _ _ _ _ _ Hal) as [_ Hr]. unfold PHYS_BASE in Hr. lia.
    + rewrite E in E'. destruct (has_flag _ _); [done|]. injection E' as <- <-. by rewrite decide_True.
  - pose proof (lo_ok _ _ IH) as Hok. destruct (lo_whole _ _ IH p n ltac:(set_solver)) as [Hn [u Hu]].
    destruct (palloc_free_run s u p n Hok Hn Hu) as (s1 & E' & Hfr). rewrite E in E'. injection E' as <-.
    by eapply live_free.
Qed.

(** C10: after [palloc_init], along any sequence of allocations from either pool and
    releases of blocks handed out, the blocks in the hands of the callers never share a
    page, the pages in use are exactly theirs, releasing any of them succeeds, and
    releasing pages of a pool that are not all in use (a second release, a block that
    was never handed out) panics. *)
Theorem palloc_session_safe ram limit si s0 s l :
  (∀ a, is_u32 (words si a)) → 258 ≤ ram < 2 ^ 18 → 1 ≤ limit →
  palloc_init ram limit si = Ret (tt, s0) → reach s0 s l →
  apart l ∧ (∀ a, used s a ↔ in_blocks l a) ∧
  (∀ p n, (p, n) ∈ l → ∃ s', palloc_free_multiple p n s = Ret (tt, s')) ∧
  (∀ u i n, 0 ≤ i < npages (pool_of u s) → 0 < n ≤ 2 ^ 20 →
     ¬ all_used s u (base (pool_of u s) + 4096 * i) n →
     palloc_free_multiple (base (pool_of u s) + 4096 * i) n s = Crash).
Proof.
  intros Hw Hram Hlim E Hreach. destruct (palloc_init_run si ram limit Hw Hram Hlim) as (s1 & E1 & Hok & _ & Hfree & _).
  rewrite E in E1. injection E1 as <-. destruct (reach_live s0 s l Hok Hfree Hreach) as [Hok' Hu Hwh Ha].
  split_and!; [done..| |].
  - intros p n Hin. destruct (Hwh p n Hin) as [Hn [u Hall]].
    destruct (palloc_free_run s u p n Hok' Hn Hall) as (s' & E' & _). by exists s'.
  - intros u i n Hi Hn Hnot. by apply palloc_free_refused.
Qed.

(** An allocation of [n] pages finds a block whenever the pool has [n] free
    consecutive pages, and only then: the block is page-aligned kernel memory, all its
    pages were free, exactly they become used, its words are zero when [PAL_ZERO] asks
    for it, and no other page and no other word changes.  Otherwise nothing changes and
    the result is the null pointer, or a panic under [PAL_ASSERT]. *)
Theorem palloc_get_correct s flags n :
  palloc_ok s → 0 < n →
  (∃ p s', palloc_get_multiple flags n s = Ret (p, s') ∧ allocated flags n p s s') ∨
  (exhausted flags n s ∧
   palloc_get_multiple flags n s = if has_flag flags PAL_ASSERT then Crash else Ret (0, s)).
Proof. apply palloc_get_run. Qed.

(** A machine with 260 pages of memory: one usable page in each pool. *)
Definition machine : pmem := PMem (Pool (Bitmap 0 []) 0) (Pool (Bitmap 0 []) 0) (λ _, 7).

Definition after {A} (s : pmem) (o : outcome (A * pmem)) : pmem := if o is Ret (_, s') then s' else s.

Definition value {A} (o : outcome (A * pmem)) : option A := if o is Ret (a, _) then Some a else None.

Lemma after_eq {A} s (o : outcome (A * pmem)) a : value o = Some a → o = Ret (a, after s o).
Proof. destruct o as [[]| |]; naive_solver. Qed.

Lemma reach_get_block s0 s l flags n p s' :
  reach s0 s l → 0 < n → p ≠ 0 → palloc_get_multiple flags n s = Ret (p, s') → reach s0 s' ((p, n) :: l).
Proof. intros Hr Hn Hp E. pose proof (reach_get _ _ _ _ _ _ _ Hr Hn E) as H. by rewrite decide_False in H. Qed.

Definition machine0 : pmem := after machine (palloc_init 260 100 machine).
Definition machine1 : pmem := after machine (palloc_get_multiple PAL_ZERO 1 machine0).
Definition machine2 : pmem := after machine (palloc_get_multiple PAL_USER 1 machine1).

Lemma palloc_session_safe_witness :
  reach machine0 machine2 [(3222286336, 1); (3222278144, 1)] ∧
  (∃ s', palloc_free_multiple 3222278144 1 machine2 = Ret (tt, s')) ∧
  ∀ a, used machine2 a ↔ in_blocks [(3222286336, 1); (3222278144, 1)] a.
Proof.
  assert (reach machine0 machine2 [(3222286336, 1); (3222278144, 1)]) as Hr.
  { apply (reach_get_block machine0 machine1 _ PAL_USER); [|lia|lia|apply after_eq; vm_compute; reflexivity].
    apply (reach_get_block machine0 machine0 _ PAL_ZERO); [|lia|lia|apply after_eq; vm_compute; reflexivity].
    apply reach_init. }
  split; [exact Hr|].
  destruct (palloc_session_safe 260 100 machine machine0 machine2 [(3222286336, 1); (3222278144, 1)])
    as (_ & Hu & Hf & _).
  - intros a. vm_compute. split; congruence.
  - lia.
  - lia.
  - apply after_eq. vm_compute. reflexivity.
  - exact Hr.
  - split; [apply Hf; right; left|exact Hu].
Defined.

Lemma palloc_get_correct_witness :
  (∃ p s', palloc_get_multiple PAL_ZERO 1 machine0 = Ret (p, s') ∧ allocated PAL_ZERO 1 p machine0 s') ∨
  (exhausted PAL_ZERO 1 machine0 ∧ palloc_get_multiple PAL_ZERO 1 machine0 = Ret (0, machine0)).
Proof.
  destruct (palloc_init_run machine 260 100) as (s & E & Hok & _).
  - intros a. vm_compute. split; congruence.
  - lia.
  - lia.
  - apply (palloc_get_correct machine0 PAL_ZERO 1); [|lia].
    unfold machine0. rewrite E. exact Hok.
Defined.
