(* ===== verification/PageDir.v ===== *)
(** * PageDir: page directories ([pintos/src/userprog/pagedir.c])

    Page directories and page tables are words of the page allocator's memory, so the
    two-level structure, its aliasing and the allocation of new page tables are those
    of the code.  The processor's part is the register CR3 and a translation
    lookaside buffer, which a load of CR3 empties.  [init_ram_pages] and
    [init_page_dir] are the kernel's globals of those names. *)

From S2P Require Import Prelude Bitmap Vaddr Palloc.

Record vm := VM { pm : pmem; cr3 : Z; tlb : gmap Z Z }.

Definition palloc {A} (m : M pmem A) : M vm A := λ s,
  match m (pm s) with
  | Ret (a, p) => Ret (a, VM p (cr3 s) (tlb s))
  | Crash => Crash
  | NoFuel => NoFuel
  end.

(** [*a] and [*a = v] for word pointers. *)
Definition load (a : Z) : M vm Z := gets (λ s, words (pm s) a).
Definition update (a v : Z) (m : Z → Z) (x : Z) : Z := if bool_decide (x = a) then v else m x.
Definition store (a v : Z) : M vm unit := modify (λ s,
  VM (PMem (kernel_pool (pm s)) (user_pool (pm s)) (update a v (words (pm s)))) (cr3 s) (tlb s)).

Section pagedir.
Context (init_ram_pages init_page_dir : Z).

Definition pagedir_activate (pd : Z) : M vm unit :=
  let pd := if bool_decide (pd = 0) then init_page_dir else pd in
  p ← vtop pd;
  modify (λ s, VM (pm s) p ∅).

Definition active_pd : M vm Z :=
  p ← gets cr3;
  ptov p.

Definition invalidate_pagedir (pd : Z) : M vm unit :=
  a ← active_pd;
  if bool_decide (a = pd) then pagedir_activate pd else mret tt.

(** [memcpy] of a page. *)
Definition copy_page (dst src : Z) : M vm unit := modify (λ s,
  let m := words (pm s) in
  VM (PMem (kernel_pool (pm s)) (user_pool (pm s))
       (λ x, if bool_decide (dst ≤ x < dst + PGSIZE) then m (src + (x - dst)) else m x)) (cr3 s) (tlb s)).

Definition pagedir_create : M vm Z :=
  pd ← palloc (palloc_get_page 0);
  (if bool_decide (pd ≠ 0) then copy_page pd init_page_dir else mret tt);;
  mret pd.

Definition lookup_page (pd vaddr : Z) (create : bool) : M vm Z :=
  assert (bool_decide (pd ≠ 0));;
  assert (negb create || is_user_vaddr vaddr);;
  let pde := u32 (pd + 4 * pd_no vaddr) in
  e ← load pde;
  ok ← (if bool_decide (e = 0) then
          if create then
            pt ← palloc (palloc_get_page PAL_ZERO);
            if bool_decide (pt = 0) then mret false
            else e' ← pde_create pt; store pde e';; mret true
          else mret false
        else mret true);
  if (ok : bool) then
    e ← load pde;
    pt ← pde_get_pt e;
    mret (u32 (pt + 4 * pt_no vaddr))
  else mret 0.

Definition pagedir_set_page (pd upage kpage : Z) (writable : bool) : M vm bool :=
  assert (bool_decide (pg_ofs upage = 0));;
  assert (bool_decide (pg_ofs kpage = 0));;
  assert (is_user_vaddr upage);;
  p ← vtop kpage;
  assert (bool_decide (Z.shiftr p PTSHIFT < init_ram_pages));;
  assert (bool_decide (pd ≠ init_page_dir));;
  pte ← lookup_page pd upage true;
  if bool_decide (pte ≠ 0) then
    e ← load pte;
    assert (bool_decide (Z.land e PTE_P = 0));;
    e' ← pte_create_user kpage writable;
    store pte e';;
    mret true
  else mret false.

Definition pagedir_get_page (pd uaddr : Z) : M vm Z :=
  assert (is_user_vaddr uaddr);;
  pte ← lookup_page pd uaddr false;
  if bool_decide (pte ≠ 0) then
    e ← load pte;
    if bool_decide (Z.land e PTE_P ≠ 0) then
      page ← pte_get_page e;
      mret (u32 (page + pg_ofs uaddr))
    else mret 0
  else mret 0.

Definition pagedir_clear_page (pd upage : Z) : M vm unit :=
  assert (bool_decide (pg_ofs upage = 0));;
  assert (is_user_vaddr upage);;
  pte ← lookup_page pd upage false;
  if bool_decide (pte ≠ 0) then
    e ← load pte;
    if bool_decide (Z.land e PTE_P ≠ 0) then
      store pte (Z.land e (u32 (Z.lnot PTE_P)));;
      invalidate_pagedir pd
    else mret tt
  else mret tt.

(** [pagedir_is_dirty] and [pagedir_is_accessed]: the test of a flag. *)
Definition test_flag (f pd vpage : Z) : M vm bool :=
  pte ← lookup_page pd vpage false;
  if bool_decide (pte ≠ 0) then
    e ← load pte;
    mret (bool_decide (Z.land e f ≠ 0))
  else mret false.

(** [pagedir_set_dirty] and [pagedir_set_accessed]. *)
Definition set_flag (f pd vpage : Z) (value : bool) : M vm unit :=
  pte ← lookup_page pd vpage false;
  if bool_decide (pte ≠ 0) then
    e ← load pte;
    if value then store pte (Z.lor e f)
    else
      store pte (Z.land e (u32 (Z.lnot f)));;
      invalidate_pagedir pd
  else mret tt.

Definition pagedir_is_dirty := test_flag PTE_D.
Definition pagedir_is_accessed := test_flag PTE_A.
Definition pagedir_set_dirty := set_flag PTE_D.
Definition pagedir_set_accessed := set_flag PTE_A.

(** The two loops of [pagedir_destroy], [n] being the iterations left. *)
Fixpoint free_pages (n : nat) (pte : Z) : M vm unit :=
  match n with
  | O => mret tt
  | S n =>
    e ← load pte;
    (if bool_decide (Z.land e PTE_P ≠ 0) then
       page ← pte_get_page e; palloc (palloc_free_page page)
     else mret tt);;
    free_pages n (u32 (pte + 4))
  end.

Fixpoint free_tables (n : nat) (pde : Z) : M vm unit :=
  match n with
  | O => mret tt
  | S n =>
    e ← load pde;
    (if bool_decide (Z.land e PTE_P ≠ 0) then
       pt ← pde_get_pt e;
       free_pages (Z.to_nat (PGSIZE `div` 4)) pt;;
       palloc (palloc_free_page pt)
     else mret tt);;
    free_tables n (u32 (pde + 4))
  end.

Definition pagedir_destroy (pd : Z) : M vm unit :=
  if bool_decide (pd = 0) then mret tt else
  assert (bool_decide (pd ≠ init_page_dir));;
  free_tables (Z.to_nat (pd_no PHYS_BASE)) pd;;
  palloc (palloc_free_page pd).
End pagedir.

(** ** The two levels *)

Definition pde (s : vm) (pd i : Z) : Z := words (pm s) (pd + 4 * i).

(** The page table of a directory entry, and the entry of a page in it (0 where there
    is no page table). *)
Definition table (s : vm) (pd i : Z) : option Z :=
  if bool_decide (pde s pd i = 0) then None else Some (PHYS_BASE + Z.land (pde s pd i) PTE_ADDR).

Definition pte (s : vm) (pd i k : Z) : Z :=
  if table s pd i is Some pt then words (pm s) (pt + 4 * k) else 0.

Definition user_index (i : Z) : Prop := 0 ≤ i < 768.

(** A directory entry that is not empty is present and points to a page table. *)
Definition pde_ok (s : vm) (pd i : Z) : Prop :=
  pde s pd i = 0 ∨
  ∃ pt f, pde s pd i = entry pt f ∧ is_kpage pt ∧ 0 ≤ f < 4096 ∧ Z.land f PTE_P ≠ 0.

(** The directory and its page tables are distinct pages of the kernel pool that are
    in use; the entries hold physical addresses of the direct mapping. *)
Record pd_ok (s : vm) (pd : Z) : Prop := {
  pk_palloc : palloc_ok (pm s);
  pk_used : page_state (pm s) false pd = Some true;
  pk_pde : ∀ i, user_index i → pde_ok s pd i;
  pk_table : ∀ i pt, user_index i → table s pd i = Some pt → pt ≠ pd ∧ page_state (pm s) false pt = Some true;
  pk_distinct : ∀ i j pt, user_index i → user_index j → table s pd i = Some pt → table s pd j = Some pt → i = j;
  pk_ptes : ∀ i k, user_index i → 0 ≤ k < 1024 → 0 ≤ pte s pd i k < 2 ^ 30;
  pk_cr3 : ∃ a, is_kpage a ∧ cr3 s = frame a
}.

Lemma page_state_kpage s u a b : palloc_ok s → page_state s u a = Some b → is_kpage a ∧ a + 4096 ≤ 2 ^ 32.
Proof.
  intros Hok H. apply page_state_Some in H as (i & -> & Hi & _); [|done].
  destruct (pa_pool _ Hok u) as [_ Hb Hlo Hhi]. unfold is_kpage. split_and!; Z.div_mod_to_equations; lia.
Qed.

Lemma cell_inj p q j k :
  p `mod` 4096 = 0 → q `mod` 4096 = 0 → 0 ≤ j < 1024 → 0 ≤ k < 1024 → p + 4 * j = q + 4 * k → p = q ∧ j = k.
Proof. intros Hp Hq Hj Hk E. Z.div_mod_to_equations. lia. Qed.

Lemma table_Some s pd i pt :
  pd_ok s pd → user_index i → table s pd i = Some pt →
  is_kpage pt ∧ ∃ f, pde s pd i = entry pt f ∧ 0 ≤ f < 4096 ∧ Z.land f PTE_P ≠ 0.
Proof.
  intros Hok Hi. unfold table. case_bool_decide as H0; [done|]. intros [= <-].
  destruct (pk_pde _ _ Hok i Hi) as [|(pt & f & E & Hk & Hf & Hp)]; [done|].
  rewrite E, entry_addr by done. unfold frame. replace (PHYS_BASE + (pt - PHYS_BASE)) with pt by lia. eauto.
Qed.

Lemma entry_of_pt pt f :
  is_kpage pt → 0 ≤ f < 4096 → PHYS_BASE + Z.land (entry pt f) PTE_ADDR = pt.
Proof. intros Hk Hf. rewrite entry_addr by done. unfold frame. lia. Qed.

Section views.
Context (s : vm) (pd va : Z).
Hypothesis (Hok : pd_ok s pd) (Hva : 0 ≤ va < PHYS_BASE).

Lemma va_index : user_index (pd_no va).
Proof. apply pd_no_user; [lia|]. apply bool_decide_eq_true_2. lia. Qed.

Lemma pd_page : is_kpage pd ∧ pd + 4096 ≤ 2 ^ 32.
Proof. exact (page_state_kpage _ _ _ _ (pk_palloc _ _ Hok) (pk_used _ _ Hok)). Qed.

Lemma pde_addr : u32 (pd + 4 * pd_no va) = pd + 4 * pd_no va.
Proof. pose proof pd_page as [[_ Hp] Hq]. pose proof va_index as Hi. unfold user_index, PHYS_BASE in *. apply uwrap_id. lia. Qed.

Lemma lookup_prefix c :
  lookup_page pd va c s =
    (ok ← (if bool_decide (pde s pd (pd_no va) = 0) then
             if c then
               pt ← palloc (palloc_get_page PAL_ZERO);
               if bool_decide (pt = 0) then mret false
               else e' ← pde_create pt; store (pd + 4 * pd_no va) e';; mret true
             else mret false
           else mret true);
     if (ok : bool) then
       e ← load (pd + 4 * pd_no va);
       pt ← pde_get_pt e;
       mret (u32 (pt + 4 * pt_no va))
     else mret 0) s.
Proof.
  unfold lookup_page. pose proof pd_page as [[_ Hp] _].
  rewrite assert_bind by (apply bool_decide_eq_true_2; unfold PHYS_BASE in *; lia).
  rewrite assert_bind by (apply orb_true_iff; right; apply bool_decide_eq_true_2; lia).
  rewrite pde_addr. by rewrite (bind_Ret _ _ _ _ _ eq_refl).
Qed.

Lemma table_addr pt : table s pd (pd_no va) = Some pt → u32 (pt + 4 * pt_no va) = pt + 4 * pt_no va.
Proof.
  intros E. destruct (pk_table _ _ Hok _ _ va_index E) as [_ Hu].
  pose proof (page_state_kpage _ _ _ _ (pk_palloc _ _ Hok) Hu) as [[_ Hr] Hq].
  pose proof (pt_no_range va). unfold PHYS_BASE in *. apply uwrap_id. lia.
Qed.

Lemma lookup_found c pt :
  table s pd (pd_no va) = Some pt → lookup_page pd va c s = Ret (pt + 4 * pt_no va, s).
Proof.
  intros E. rewrite lookup_prefix. destruct (table_Some s pd _ pt Hok va_index E) as (Hk & f & Ef & Hf & Hp).
  assert (pde s pd (pd_no va) ≠ 0) as Hn by (unfold table in E; by case_bool_decide).
  rewrite (bool_decide_eq_false_2 (_ = 0)) by done.
  rewrite ret_bind. unfold load. rewrite (bind_Ret _ _ _ _ _ eq_refl). fold (pde s pd (pd_no va)). rewrite Ef.
  run_step (pde_get_pt_run s pt f Hk Hf Hp). unfold mret, M_ret. by rewrite table_addr.
Qed.

Lemma lookup_missing : table s pd (pd_no va) = None → lookup_page pd va false s = Ret (0, s).
Proof.
  intros E. rewrite lookup_prefix. unfold table in E. case_bool_decide; [|done].
  done.
Qed.
End views.

(** ** Writing an entry *)

Definition poke (a v : Z) (s : vm) : vm :=
  VM (PMem (kernel_pool (pm s)) (user_pool (pm s)) (update a v (words (pm s)))) (cr3 s) (tlb s).

Lemma store_run a v s : store a v s = Ret (tt, poke a v s).
Proof. done. Qed.

Lemma poke_palloc a v s : palloc_ok (pm s) → is_u32 v → palloc_ok (pm (poke a v s)).
Proof.
  intros [Hp Ha Hw] Hv. split; [intros []; [apply (Hp true)|apply (Hp false)]|done|].
  intros x. cbn. unfold update. by case_bool_decide.
Qed.

Lemma poke_state a v s u x : page_state (pm (poke a v s)) u x = page_state (pm s) u x.
Proof. by destruct u. Qed.

(** A write to a page table leaves the directory and the other entries. *)
Lemma poke_pde s pd i k pt v j :
  pd_ok s pd → user_index i → 0 ≤ k < 1024 → table s pd i = Some pt → user_index j →
  pde (poke (pt + 4 * k) v s) pd j = pde s pd j.
Proof.
  intros Hok Hi Hk Et Hj. unfold pde. cbn. unfold update. rewrite bool_decide_eq_false_2; [done|].
  intros E. destruct (pk_table _ _ Hok _ _ Hi Et) as [Hne _].
  pose proof (pd_page s pd Hok) as [[Hp _] _]. destruct (table_Some _ _ _ _ Hok Hi Et) as [[Hq _] _].
  unfold user_index in *. apply Hne. symmetry. apply (cell_inj pd pt j k); lia || done.
Qed.

Lemma poke_table s pd i k pt v j :
  pd_ok s pd → user_index i → 0 ≤ k < 1024 → table s pd i = Some pt → user_index j →
  table (poke (pt + 4 * k) v s) pd j = table s pd j.
Proof. intros. unfold table. by rewrite (poke_pde s pd i). Qed.

Lemma poke_pte s pd i k pt v j l :
  pd_ok s pd → user_index i → 0 ≤ k < 1024 → table s pd i = Some pt → user_index j → 0 ≤ l < 1024 →
  pte (poke (pt + 4 * k) v s) pd j l = if decide (j = i ∧ l = k) then v else pte s pd j l.
Proof.
  intros Hok Hi Hk Et Hj Hl. unfold pte. rewrite (poke_table s pd i) by done.
  destruct (table_Some _ _ _ _ Hok Hi Et) as [[Hq _] _].
  destruct (table s pd j) as [pt'|] eqn:Ej.
  - destruct (table_Some _ _ _ _ Hok Hj Ej) as [[Hq' _] _]. cbn. unfold update. case_decide as Hd.
    + destruct Hd as [-> ->]. rewrite Et in Ej. injection Ej as ->. by rewrite bool_decide_eq_true_2.
    + rewrite bool_decide_eq_false_2; [done|]. intros E.
      destruct (cell_inj pt' pt l k Hq' Hq Hl Hk E) as [-> ->]. destruct Hd. split; [|done].
      exact (pk_distinct _ _ Hok j i pt Hj Hi Ej Et).
  - rewrite decide_False; [done|]. intros [-> _]. congruence.
Qed.

Lemma poke_ok s pd i k pt v :
  pd_ok s pd → user_index i → 0 ≤ k < 1024 → table s pd i = Some pt → 0 ≤ v < 2 ^ 30 →
  pd_ok (poke (pt + 4 * k) v s) pd.
Proof.
  intros Hok Hi Hk Et Hv. split.
  - apply poke_palloc; [apply Hok|]. unfold is_u32. lia.
  - rewrite poke_state. apply Hok.
  - intros j Hj. unfold pde_ok. rewrite (poke_pde s pd i) by done. by apply Hok.
  - intros j pt' Hj. rewrite (poke_table s pd i), poke_state by done. by apply Hok.
  - intros j j' pt' Hj Hj'. rewrite !(poke_table s pd i) by done. by apply Hok.
  - intros j l Hj Hl. rewrite (poke_pte s pd i) by done. case_decide; [done|]. by apply Hok.
  - apply Hok.
Qed.

(** ** A new page table *)

(** The state after [lookup_page] has put a page table in an empty entry. *)
Definition with_table (pd i pt : Z) (p : pmem) (s : vm) : vm :=
  poke (pd + 4 * i) (entry pt 7) (VM p (cr3 s) (tlb s)).

Section new_table.
Context (s : vm) (pd i pt : Z) (p : pmem).
Hypothesis (Hok : pd_ok s pd) (Hi : user_index i) (Hnone : table s pd i = None).
Hypothesis (Hal : allocated PAL_ZERO 1 pt (pm s) p).

Local Abbreviation s' := (with_table pd i pt p s).

Lemma new_state a : page_state p false a = if decide (a = pt) then Some true else page_state (pm s) false a.
Proof.
  rewrite (al_state _ _ _ _ _ Hal). destruct (al_kpage _ _ _ _ _ Hal) as [Hm _].
  change (has_flag PAL_ZERO PAL_USER) with false.
  destruct (decide (a = pt)) as [->|Hne].
  - rewrite decide_True; [done|]. split; [done|]. unfold in_block. lia.
  - rewrite decide_False; [done|]. intros [_ [Ha Hr]]. apply Hne. Z.div_mod_to_equations. lia.
Qed.

(** The fresh page is not one of the structure's. *)
Lemma new_fresh a : page_state (pm s) false a = Some true → a ≠ pt.
Proof.
  intros Ha ->. pose proof (al_free _ _ _ _ _ Hal 0 ltac:(lia)) as Hf.
  change (has_flag PAL_ZERO PAL_USER) with false in Hf. rewrite Z.add_0_r in Hf. congruence.
Qed.

Lemma new_words x k : x `mod` 4096 = 0 → x ≠ pt → 0 ≤ k < 1024 → words p (x + 4 * k) = words (pm s) (x + 4 * k).
Proof.
  intros Hx Hne Hk. rewrite (al_words _ _ _ _ _ Hal). destruct (al_kpage _ _ _ _ _ Hal) as [Hm _].
  rewrite decide_False; [done|]. intros [_ Hr]. apply Hne. Z.div_mod_to_equations. lia.
Qed.

Lemma new_zero k : 0 ≤ k < 1024 → words p (pt + 4 * k) = 0.
Proof.
  intros Hk. rewrite (al_words _ _ _ _ _ Hal). rewrite decide_True; [done|]. split; [done|]. lia.
Qed.

Lemma pd_aligned : pd `mod` 4096 = 0.
Proof. by destruct (pd_page s pd Hok) as [[Hp _] _]. Qed.

Lemma new_pde j : user_index j → pde s' pd j = if decide (j = i) then entry pt 7 else pde s pd j.
Proof.
  intros Hj. unfold pde. cbn. unfold update. unfold user_index in *. destruct (decide (j = i)) as [->|Hne].
  - by rewrite bool_decide_eq_true_2.
  - rewrite bool_decide_eq_false_2 by lia. apply new_words; [apply pd_aligned| |lia].
    apply new_fresh. apply Hok.
Qed.

Lemma new_table j : user_index j → table s' pd j = if decide (j = i) then Some pt else table s pd j.
Proof.
  intros Hj. unfold table. rewrite new_pde by done. destruct (decide (j = i)) as [->|]; [|done].
  pose proof (al_kpage _ _ _ _ _ Hal) as Hk. rewrite bool_decide_eq_false_2.
  - by rewrite entry_of_pt.
  - unfold entry. pose proof (frame_range pt Hk). lia.
Qed.

Lemma new_pte j k : user_index j → 0 ≤ k < 1024 → pte s' pd j k = pte s pd j k.
Proof.
  intros Hj Hk. unfold pte. rewrite new_table by done. pose proof (al_kpage _ _ _ _ _ Hal) as [Hm _].
  assert (∀ q, q `mod` 4096 = 0 → q ≠ pd → words (pm s') (q + 4 * k) = words p (q + 4 * k)) as Hw.
  { intros q Hq Hne. cbn. unfold update. rewrite bool_decide_eq_false_2; [done|]. intros E.
    unfold user_index in *. apply Hne. pose proof pd_aligned. apply (cell_inj q pd k i); lia || done. }
  destruct (decide (j = i)) as [->|].
  - rewrite Hnone, Hw, new_zero; [done|done|done|]. apply not_eq_sym, new_fresh. apply Hok.
  - destruct (table s pd j) as [q|] eqn:E; [|done]. destruct (pk_table _ _ Hok _ _ Hj E) as [Hne Hu].
    destruct (table_Some _ _ _ _ Hok Hj E) as [[Hq _] _].
    rewrite Hw, new_words; try done. by apply new_fresh.
Qed.

Lemma new_ok : pd_ok s' pd.
Proof.
  pose proof (al_kpage _ _ _ _ _ Hal) as Hk.
  assert (pt ≠ pd) as Hne by (apply not_eq_sym, new_fresh; apply Hok). split.
  - apply poke_palloc; [by apply Hal|]. by apply entry_range.
  - unfold with_table. rewrite poke_state. cbn [pm]. rewrite new_state. rewrite decide_False by done. apply Hok.
  - intros j Hj. unfold pde_ok. rewrite new_pde by done. case_decide; [|by apply Hok].
    right. exists pt, 7. split_and!; done || lia.
  - intros j q Hj. unfold with_table at 2. rewrite poke_state. cbn [pm]. rewrite new_table, new_state by done.
    case_decide; [intros [= <-]; by rewrite decide_True|].
    intros E. destruct (pk_table _ _ Hok _ _ Hj E) as [? Hu]. rewrite decide_False by (by apply new_fresh). done.
  - intros j j' q Hj Hj'. rewrite !new_table by done.
    assert (∀ x, user_index x → table s pd x ≠ Some pt) as Hn.
    { intros x Hx E. destruct (pk_table _ _ Hok _ _ Hx E) as [_ Hu]. by apply new_fresh in Hu. }
    repeat case_decide; intros E1 E2; subst; try done.
    + injection E1 as <-. by destruct (Hn j').
    + injection E2 as <-. by destruct (Hn j).
    + by apply (pk_distinct _ _ Hok j j' q).
  - intros j k Hj Hk'. rewrite new_pte by done. by apply Hok.
  - apply Hok.
Qed.
End new_table.

Lemma lookup_create s pd va :
  pd_ok s pd → 0 ≤ va < PHYS_BASE → table s pd (pd_no va) = None →
  (exhausted PAL_ZERO 1 (pm s) ∧ lookup_page pd va true s = Ret (0, s)) ∨
  ∃ pt p, allocated PAL_ZERO 1 pt (pm s) p ∧
    lookup_page pd va true s = Ret (pt + 4 * pt_no va, with_table pd (pd_no va) pt p s).
Proof.
  intros Hok Hva Hn. rewrite lookup_prefix by done. pose proof (va_index va Hva) as Hi.
  assert (pde s pd (pd_no va) = 0) as H0 by (unfold table in Hn; by case_bool_decide).
  rewrite (bool_decide_eq_true_2 (_ = 0)) by done.
  destruct (palloc_get_run (pm s) PAL_ZERO 1 (pk_palloc _ _ Hok) ltac:(lia)) as [(pt & p & E & Hal)|[Hex E]].
  - right. exists pt, p. split; [done|]. pose proof (al_kpage _ _ _ _ _ Hal) as Hk.
    assert (palloc (palloc_get_page PAL_ZERO) s = Ret (pt, VM p (cr3 s) (tlb s))) as Ep
      by (unfold palloc, palloc_get_page; by rewrite E).
    rewrite bind_assoc. run_step Ep. rewrite (bool_decide_eq_false_2 (pt = 0))
      by (destruct Hk as [_ Hr]; unfold PHYS_BASE in Hr; lia).
    rewrite bind_assoc. run_step (pde_create_run (VM p (cr3 s) (tlb s)) pt Hk).
    rewrite bind_assoc, (bind_Ret _ _ _ _ _ (store_run _ _ _)), ret_bind. fold (with_table pd (pd_no va) pt p s).
    unfold load. rewrite (bind_Ret _ _ _ _ _ eq_refl).
    fold (pde (with_table pd (pd_no va) pt p s) pd (pd_no va)).
    rewrite (new_pde s pd (pd_no va) pt p Hok Hal _ Hi), decide_True by done.
    rewrite (bind_Ret _ _ _ _ _ (pde_get_pt_run _ pt 7 Hk ltac:(lia) ltac:(done))).
    unfold mret, M_ret. rewrite uwrap_id; [done|]. pose proof (al_end _ _ _ _ _ Hal). pose proof (pt_no_range va).
    destruct Hk as [_ Hr]. unfold PHYS_BASE in Hr. lia.
  - left. split; [done|]. assert (palloc (palloc_get_page PAL_ZERO) s = Ret (0, s)) as Ep.
    { unfold palloc, palloc_get_page. rewrite E. by destruct s. }
    rewrite bind_assoc. by run_step Ep.
Qed.

(** ** The directory as a map from user pages to entries *)

Definition view (s : vm) (pd va : Z) : Z := pte s pd (pd_no va) (pt_no va).
Definition user (va : Z) : Prop := 0 ≤ va < PHYS_BASE.
Definition present (e : Z) : Prop := Z.land e PTE_P ≠ 0.
Definition same_page (a b : Z) : Prop := pg_no a = pg_no b.

#[export] Instance present_dec e : Decision (present e).
Proof. unfold present. apply _. Defined.
#[export] Instance same_page_dec a b : Decision (same_page a b).
Proof. unfold same_page. apply _. Defined.

Lemma same_indices a b : pd_no a = pd_no b ∧ pt_no a = pt_no b ↔ same_page a b.
Proof.
  unfold same_page. rewrite <- !page_indices. pose proof (pt_no_range a). pose proof (pt_no_range b).
  split; [by intros [-> ->]|lia].
Qed.

Lemma view_range s pd va : pd_ok s pd → user va → 0 ≤ view s pd va < 2 ^ 30.
Proof. intros Hok Hva. apply (pk_ptes _ _ Hok); [by apply va_index|apply pt_no_range]. Qed.

Lemma view_table s pd va pt : table s pd (pd_no va) = Some pt → words (pm s) (pt + 4 * pt_no va) = view s pd va.
Proof. unfold view, pte. by intros ->. Qed.

Lemma view_None s pd va : table s pd (pd_no va) = None → view s pd va = 0.
Proof. unfold view, pte. by intros ->. Qed.

Lemma poke_view s pd va pt v vb :
  pd_ok s pd → user va → user vb → table s pd (pd_no va) = Some pt →
  view (poke (pt + 4 * pt_no va) v s) pd vb = if decide (same_page vb va) then v else view s pd vb.
Proof.
  intros Hok Hva Hvb Et. unfold view.
  rewrite (poke_pte s pd _ _ pt v _ _ Hok (va_index va Hva) (pt_no_range va) Et (va_index vb Hvb) (pt_no_range vb)).
  destruct (decide (same_page vb va)) as [H|H]; rewrite <- same_indices in H.
  - by rewrite decide_True.
  - by rewrite decide_False.
Qed.

Lemma poke_view_ok s pd va pt v :
  pd_ok s pd → user va → table s pd (pd_no va) = Some pt → 0 ≤ v < 2 ^ 30 →
  pd_ok (poke (pt + 4 * pt_no va) v s) pd.
Proof. intros Hok Hva Et Hv. exact (poke_ok s pd _ _ pt v Hok (va_index va Hva) (pt_no_range va) Et Hv). Qed.

Lemma pt_nonzero s pd va pt : pd_ok s pd → user va → table s pd (pd_no va) = Some pt → pt + 4 * pt_no va ≠ 0.
Proof.
  intros Hok Hva Et. destruct (table_Some _ _ _ _ Hok (va_index va Hva) Et) as [[_ Hr] _].
  pose proof (pt_no_range va). unfold PHYS_BASE in Hr. lia.
Qed.

(** An entry in range is the entry of a page of the direct mapping. *)
Lemma as_entry v :
  0 ≤ v < 2 ^ 30 → ∃ a f, v = entry a f ∧ is_kpage a ∧ 0 ≤ f < 4096 ∧ a = PHYS_BASE + Z.land v PTE_ADDR.
Proof.
  intros Hv. exists (PHYS_BASE + Z.land v PTE_ADDR), (v `mod` 4096).
  rewrite land_page_mask by (unfold is_u32; lia). unfold entry, frame, is_kpage, PHYS_BASE.
  split_and!; try done; Z.div_mod_to_equations; lia.
Qed.

(** ** The processor's side *)

Definition flush (pd : Z) (s : vm) : vm :=
  if bool_decide (cr3 s = frame pd) then VM (pm s) (cr3 s) ∅ else s.

Lemma invalidate_run ipd s pd :
  pd_ok s pd → invalidate_pagedir ipd pd s = Ret (tt, flush pd s).
Proof.
  intros Hok. destruct (pk_cr3 _ _ Hok) as (a & Ha & Ec). destruct (pd_page s pd Hok) as [Hp _].
  unfold invalidate_pagedir, active_pd. rewrite bind_assoc, (bind_Ret _ _ _ _ _ eq_refl). rewrite Ec.
  run_step (ptov_run s a Ha). unfold flush. rewrite Ec. destruct (decide (a = pd)) as [->|Hne].
  - rewrite !bool_decide_eq_true_2 by done. unfold pagedir_activate.
    rewrite (bool_decide_eq_false_2 (pd = 0)) by (destruct Hp as [_ Hr]; unfold PHYS_BASE in Hr; lia).
    by run_step (vtop_run s pd Hp).
  - rewrite !bool_decide_eq_false_2; [done| |done]. unfold frame. lia.
Qed.

Lemma flush_pm pd s : pm (flush pd s) = pm s.
Proof. unfold flush. by case_bool_decide. Qed.

Lemma flush_cr3 pd s : cr3 (flush pd s) = cr3 s.
Proof. unfold flush. by case_bool_decide. Qed.

Lemma flush_view q pd s va : view (flush q s) pd va = view s pd va.
Proof. unfold view, pte, table, pde. by rewrite flush_pm. Qed.

Lemma flush_ok q pd s : pd_ok s pd → pd_ok (flush q s) pd.
Proof. unfold flush. case_bool_decide; [|done]. intros [H1 H2 H3 H4 H5 H6 H7]. by split. Qed.

(** A cached entry may be used by the processor as long as the page is present with
    the same frame and permission, and the cached accessed and dirty bits are in memory. *)
Record coherent (e v : Z) : Prop := {
  co_present : present v;
  co_addr : Z.land e PTE_ADDR = Z.land v PTE_ADDR;
  co_writable : Z.land e PTE_W = Z.land v PTE_W;
  co_accessed : Z.land e PTE_A ≠ 0 → Z.land v PTE_A ≠ 0;
  co_dirty : Z.land e PTE_D ≠ 0 → Z.land v PTE_D ≠ 0
}.

Definition tlb_ok (s : vm) (pd : Z) : Prop :=
  cr3 s = frame pd → ∀ va e, user va → tlb s !! pg_no va = Some e → coherent e (view s pd va).

Lemma flush_tlb pd s : tlb_ok (flush pd s) pd.
Proof.
  unfold tlb_ok, flush. case_bool_decide as H; [|done]. intros _ va e _. cbn [tlb]. by rewrite lookup_empty.
Qed.

(** The cache survives a change of entries that keeps it coherent. *)
Lemma tlb_change s s' pd :
  tlb_ok s pd → cr3 s' = cr3 s → tlb s' = tlb s →
  (∀ va e, user va → coherent e (view s pd va) → coherent e (view s' pd va)) → tlb_ok s' pd.
Proof. unfold tlb_ok. intros H -> -> Hc Hcr va e Hva He. by apply Hc, H. Qed.

(** ** The operations *)

Definition is_flag (f : Z) : Prop := f = PTE_A ∨ f = PTE_D.
Definition clear_bits (f e : Z) : Z := Z.land e (u32 (Z.lnot f)).

Lemma lor_range w a b : 0 ≤ w → 0 ≤ a < 2 ^ w → 0 ≤ b < 2 ^ w → 0 ≤ Z.lor a b < 2 ^ w.
Proof.
  intros Hw Ha Hb. assert (0 ≤ Z.lor a b) by (apply Z.lor_nonneg; lia). split; [done|].
  rewrite <- (Z.mod_small a (2 ^ w)), <- (Z.mod_small b (2 ^ w)) by done.
  rewrite <- !Z.land_ones, <- Z.land_lor_distr_l, Z.land_ones by lia. apply Z.mod_pos_bound. lia.
Qed.

Lemma clear_range f e : 0 ≤ e < 2 ^ 30 → 0 ≤ clear_bits f e < 2 ^ 30.
Proof.
  intros He. unfold clear_bits. split; [apply Z.land_nonneg; lia|].
  rewrite <- (Z.mod_small e (2 ^ 30)) by done.
  rewrite <- Z.land_ones, <- Z.land_assoc, (Z.land_comm (Z.ones 30)), Z.land_assoc, Z.land_ones by lia.
  apply Z.mod_pos_bound. lia.
Qed.

(** Setting or clearing a bit leaves the bits of a disjoint mask. *)
Lemma land_lor_other e f g : Z.land f g = 0 → Z.land (Z.lor e f) g = Z.land e g.
Proof. intros H. by rewrite Z.land_lor_distr_l, H, Z.lor_0_r. Qed.

Lemma clear_other e f g : Z.land (u32 (Z.lnot f)) g = g → Z.land (clear_bits f e) g = Z.land e g.
Proof. intros H. unfold clear_bits. by rewrite <- Z.land_assoc, H. Qed.

(** The physical page of an address, 0 when it is not mapped. *)
Definition translate (e va : Z) : Z :=
  if decide (present e) then PHYS_BASE + Z.land e PTE_ADDR + pg_ofs va else 0.

Section operations.
Context (ram ipd : Z) (s : vm) (pd va : Z).
Hypothesis (Hok : pd_ok s pd) (Hva : user va).

Lemma user_check : is_user_vaddr va = true.
Proof. apply bool_decide_eq_true_2. by destruct Hva. Qed.

Lemma get_page_run : pagedir_get_page pd va s = Ret (translate (view s pd va) va, s).
Proof.
  unfold pagedir_get_page. rewrite assert_bind by apply user_check. unfold translate, present.
  destruct (table s pd (pd_no va)) as [pt|] eqn:Et.
  - rewrite (bind_Ret _ _ _ _ _ (lookup_found s pd va Hok Hva false pt Et)).
    rewrite bool_decide_eq_true_2 by exact (pt_nonzero s pd va pt Hok Hva Et).
    unfold load. rewrite (bind_Ret _ _ _ _ _ eq_refl), (view_table s pd va pt Et).
    pose proof (view_range s pd va Hok Hva) as Hr. case_decide as Hp.
    + rewrite bool_decide_eq_true_2 by done. destruct (as_entry _ Hr) as (a & f & E & Ha & Hf & Ead).
      rewrite E. run_step (pte_get_page_run s a f Ha Hf). rewrite <- E, <- Ead. unfold mret, M_ret.
      rewrite pg_ofs_mod, uwrap_id; [done|]. destruct Ha as [Hm Ha]. unfold PHYS_BASE in *. Z.div_mod_to_equations. lia.
    + rewrite bool_decide_eq_false_2 by (intros Hn; by apply Hn). done.
  - rewrite (bind_Ret _ _ _ _ _ (lookup_missing s pd va Hok Hva Et)), (view_None s pd va Et). done.
Qed.

Lemma test_flag_run f : test_flag f pd va s = Ret (bool_decide (Z.land (view s pd va) f ≠ 0), s).
Proof.
  unfold test_flag. destruct (table s pd (pd_no va)) as [pt|] eqn:Et.
  - rewrite (bind_Ret _ _ _ _ _ (lookup_found s pd va Hok Hva false pt Et)).
    rewrite bool_decide_eq_true_2 by exact (pt_nonzero s pd va pt Hok Hva Et).
    unfold load. by rewrite (bind_Ret _ _ _ _ _ eq_refl), (view_table s pd va pt Et).
  - by rewrite (bind_Ret _ _ _ _ _ (lookup_missing s pd va Hok Hva Et)), (view_None s pd va Et).
Qed.

(** The entry after an operation that replaces it by [v] when the page table exists. *)
Definition changed (v : Z) (s' : vm) : Prop :=
  (∀ vb, user vb → ¬ same_page vb va → view s' pd vb = view s pd vb) ∧
  (view s' pd va = v ∨ (view s pd va = 0 ∧ view s' pd va = 0)).

Lemma poke_changed pt v :
  table s pd (pd_no va) = Some pt → changed v (poke (pt + 4 * pt_no va) v s).
Proof.
  intros Et. split.
  - intros vb Hvb Hne. rewrite (poke_view s pd va) by done. by rewrite decide_False.
  - left. rewrite (poke_view s pd va) by done. by rewrite decide_True.
Qed.

Lemma unchanged v : view s pd va = 0 → changed v s.
Proof. intros H. split; [done|by right]. Qed.

Lemma set_flag_run f value :
  is_flag f → tlb_ok s pd →
  ∃ s', set_flag ipd f pd va value s = Ret (tt, s') ∧ pd_ok s' pd ∧ tlb_ok s' pd ∧
    changed (if value then Z.lor (view s pd va) f else clear_bits f (view s pd va)) s'.
Proof.
  intros Hf Ht. unfold set_flag. destruct (table s pd (pd_no va)) as [pt|] eqn:Et.
  2:{ rewrite (bind_Ret _ _ _ _ _ (lookup_missing s pd va Hok Hva Et)). exists s. split_and!; try done.
      by apply unchanged, view_None. }
  rewrite (bind_Ret _ _ _ _ _ (lookup_found s pd va Hok Hva false pt Et)).
  rewrite bool_decide_eq_true_2 by exact (pt_nonzero s pd va pt Hok Hva Et).
  unfold load. rewrite (bind_Ret _ _ _ _ _ eq_refl), (view_table s pd va pt Et).
  pose proof (view_range s pd va Hok Hva) as Hr. destruct value.
  - eexists. split; [done|]. fold (poke (pt + 4 * pt_no va) (Z.lor (view s pd va) f) s). split_and!.
    + apply poke_view_ok; try done. apply lor_range; [lia|done|]. destruct Hf as [-> | ->]; unfold PTE_A, PTE_D; lia.
    + apply (tlb_change s _ pd Ht); [done..|]. intros vb e Hvb [C1 C2 C3 C4 C5]. rewrite (poke_view s pd va) by done.
      case_decide as Hs; [|by split]. apply same_indices in Hs as [Hi Hk].
      unfold present, view in *. rewrite Hi, Hk in *.
      destruct Hf as [-> | ->]; split; unfold present; rewrite ?land_lor_other by done; try done; intros _;
        rewrite Z.land_lor_distr_l; intros [_ ?]%Z.lor_eq_0_iff; done.
    + by apply poke_changed.
  - rewrite (bind_Ret _ _ _ _ _ (store_run _ _ _)). fold (clear_bits f (view s pd va)).
    assert (pd_ok (poke (pt + 4 * pt_no va) (clear_bits f (view s pd va)) s) pd) as Hok'
      by (apply poke_view_ok; try done; by apply clear_range).
    rewrite (invalidate_run ipd _ pd Hok'). eexists. split; [done|].
    split_and!; [by apply flush_ok|apply flush_tlb|].
    destruct (poke_changed pt (clear_bits f (view s pd va)) Et) as [H1 H2].
    split; [intros vb Hvb Hne; rewrite flush_view; by apply H1|by rewrite flush_view].
Qed.

Lemma clear_page_run :
  tlb_ok s pd → va `mod` 4096 = 0 →
  ∃ s', pagedir_clear_page ipd pd va s = Ret (tt, s') ∧ pd_ok s' pd ∧ tlb_ok s' pd ∧
    changed (if decide (present (view s pd va)) then clear_bits PTE_P (view s pd va) else view s pd va) s'.
Proof.
  intros Ht Hal. unfold pagedir_clear_page. rewrite assert_bind by (apply bool_decide_eq_true_2; by rewrite pg_ofs_mod).
  rewrite assert_bind by apply user_check. destruct (table s pd (pd_no va)) as [pt|] eqn:Et.
  2:{ rewrite (bind_Ret _ _ _ _ _ (lookup_missing s pd va Hok Hva Et)). exists s. split_and!; try done.
      by apply unchanged, view_None. }
  rewrite (bind_Ret _ _ _ _ _ (lookup_found s pd va Hok Hva false pt Et)).
  rewrite bool_decide_eq_true_2 by exact (pt_nonzero s pd va pt Hok Hva Et).
  unfold load. rewrite (bind_Ret _ _ _ _ _ eq_refl), (view_table s pd va pt Et).
  pose proof (view_range s pd va Hok Hva) as Hr. unfold present. case_decide as Hp.
  2:{ rewrite bool_decide_eq_false_2 by (intros Hn; by apply Hn). exists s. split_and!; try done. split; [done|by left]. }
  rewrite bool_decide_eq_true_2 by done.
  rewrite (bind_Ret _ _ _ _ _ (store_run _ _ _)). fold (clear_bits PTE_P (view s pd va)).
  assert (pd_ok (poke (pt + 4 * pt_no va) (clear_bits PTE_P (view s pd va)) s) pd) as Hok'
    by (apply poke_view_ok; try done; by apply clear_range).
  rewrite (invalidate_run ipd _ pd Hok'). eexists. split; [done|].
  split_and!; [by apply flush_ok|apply flush_tlb|].
  destruct (poke_changed pt (clear_bits PTE_P (view s pd va)) Et) as [H1 H2].
  split; [intros vb Hvb Hne; rewrite flush_view; by apply H1|by rewrite flush_view].
Qed.
End operations.

(** The entry of a page that is not present is replaced. *)
Lemma install s pd va kp w pt :
  pd_ok s pd → tlb_ok s pd → user va → is_kpage kp → ¬ present (view s pd va) → table s pd (pd_no va) = Some pt →
  (if bool_decide (pt + 4 * pt_no va ≠ 0) then
     e ← load (pt + 4 * pt_no va);
     assert (bool_decide (Z.land e PTE_P = 0));;
     e' ← pte_create_user kp w;
     store (pt + 4 * pt_no va) e';;
     mret true
   else mret false) s = Ret (true, poke (pt + 4 * pt_no va) (entry kp (user_flags w)) s) ∧
  let s' := poke (pt + 4 * pt_no va) (entry kp (user_flags w)) s in
  pd_ok s' pd ∧ tlb_ok s' pd ∧
  ∀ vb, user vb → view s' pd vb = if decide (same_page vb va) then entry kp (user_flags w) else view s pd vb.
Proof.
  intros Hok Ht Hva Hk Hnp Et. split; [|intros s'; split_and!].
  - rewrite bool_decide_eq_true_2 by exact (pt_nonzero s pd va pt Hok Hva Et).
    unfold load. rewrite (bind_Ret _ _ _ _ _ eq_refl), (view_table s pd va pt Et).
    rewrite assert_bind; [|apply bool_decide_eq_true_2; by apply dec_stable].
    by run_step (pte_create_user_run s kp w Hk).
  - apply poke_view_ok; try done. pose proof (frame_range kp Hk) as [Hf Hm]. unfold entry.
    destruct w; cbn; Z.div_mod_to_equations; lia.
  - apply (tlb_change s _ pd Ht); [done..|]. intros vb e Hvb He. unfold s'. rewrite (poke_view s pd va) by done.
    case_decide as Hs; [|done]. destruct Hnp. apply same_indices in Hs as [Hi Hj].
    pose proof (co_present _ _ He) as Hpr. unfold view in *. by rewrite Hi, Hj in Hpr.
  - intros vb Hvb. by apply poke_view.
Qed.

(** A change that touches only pages in use of the kernel pool. *)
Record kernel_change (s s' : vm) : Prop := {
  kc_state : ∀ a, page_state (pm s') true a = page_state (pm s) true a;
  kc_words : ∀ x, words (pm s') x ≠ words (pm s) x → ∃ a, page_state (pm s') false a = Some true ∧ a ≤ x < a + 4096
}.

Lemma poke_kernel_change s a v x :
  page_state (pm s) false a = Some true → a ≤ x < a + 4096 → kernel_change s (poke x v s).
Proof.
  intros Ha Hx. split; [intros b; by rewrite poke_state|]. intros y. cbn. unfold update. case_bool_decide as E; [|done].
  intros _. exists a. subst y. done.
Qed.

Lemma kernel_change_trans s1 s2 s3 :
  kernel_change s1 s2 → kernel_change s2 s3 → (∀ a, page_state (pm s2) false a = Some true → page_state (pm s3) false a = Some true) →
  kernel_change s1 s3.
Proof.
  intros [A1 A2] [B1 B2] Hk. split; [intros a; by rewrite B1, A1|]. intros x Hx.
  destruct (decide (words (pm s3) x = words (pm s2) x)) as [E|E]; [|by apply B2].
  destruct (A2 x) as (a & Ha & Hr); [congruence|]. exists a. auto.
Qed.

Lemma new_table_change s pd i pt p :
  pd_ok s pd → allocated PAL_ZERO 1 pt (pm s) p → user_index i → kernel_change s (with_table pd i pt p s).
Proof.
  intros Hok Hal Hi. set (s1 := VM p (cr3 s) (tlb s)).
  assert (∀ a, page_state p false a = if decide (a = pt) then Some true else page_state (pm s) false a) as Hst by (by apply new_state).
  assert (page_state p false pd = Some true) as Hpd by (rewrite Hst; case_decide; [done|apply Hok]).
  apply (kernel_change_trans s s1).
  - split; cbn.
    + intros a. rewrite (al_state _ _ _ _ _ Hal). by rewrite decide_False by (by intros [? _]).
    + intros x Hx. exists pt. rewrite Hst, decide_True by done. split; [done|]. rewrite (al_words _ _ _ _ _ Hal) in Hx.
      case_decide as Hd; [|done]. destruct Hd as [_ ?]. lia.
  - apply (poke_kernel_change s1 pd); [done|]. unfold user_index in Hi. lia.
  - intros a Ha. unfold with_table. by rewrite poke_state.
Qed.

(** The pages of the kernel pool that the structure [pd] is made of. *)
Definition own_tables (s : vm) (pd x : Z) : Prop := x = pd ∨ ∃ i, user_index i ∧ table s pd i = Some x.

(** The kernel pool is as in [s0] but for the pages of the structure, which were free. *)
Record kernel_account (s0 : pmem) (s : vm) (pd : Z) : Prop := {
  ka_new : ∀ x, own_tables s pd x → page_state s0 false x = Some false;
  ka_old : ∀ x, ¬ own_tables s pd x → page_state (pm s) false x = page_state s0 false x
}.

Lemma own_used s pd x : pd_ok s pd → own_tables s pd x → page_state (pm s) false x = Some true.
Proof. intros Hok [->|(i & Hi & Et)]; [apply Hok|by apply (pk_table _ _ Hok i)]. Qed.

Lemma account_same s0 s s' pd :
  (∀ i, user_index i → table s' pd i = table s pd i) → (∀ x, page_state (pm s') false x = page_state (pm s) false x) →
  kernel_account s0 s pd → kernel_account s0 s' pd.
Proof.
  intros Ht Hs [K1 K2]. assert (∀ x, own_tables s' pd x ↔ own_tables s pd x) as Ho.
  { intros x. split; (intros [->|(i & Hi & E)]; [by left|right; exists i]); [rewrite <- Ht|rewrite Ht]; done. }
  split; intros x Hx; [apply K1|rewrite Hs; apply K2]; by rewrite <- Ho.
Qed.

Lemma account_new s0 s pd i pt p :
  pd_ok s pd → user_index i → table s pd i = None → allocated PAL_ZERO 1 pt (pm s) p →
  kernel_account s0 s pd → kernel_account s0 (with_table pd i pt p s) pd.
Proof.
  intros Hok Hi Hn Hal [K1 K2]. 
  assert (∀ j, user_index j → table (with_table pd i pt p s) pd j = if decide (j = i) then Some pt else table s pd j) as Ht by (intros; by apply new_table).
  assert (∀ a, page_state p false a = if decide (a = pt) then Some true else page_state (pm s) false a) as Hst by (by apply new_state).
  assert (¬ own_tables s pd pt) as Hno by (intros Ho; apply (own_used s pd pt Hok) in Ho; by apply (new_fresh s pt p) in Ho).
  pose proof (al_free _ _ _ _ _ Hal 0 ltac:(lia)) as Hf. change (has_flag PAL_ZERO PAL_USER) with false in Hf. rewrite Z.add_0_r in Hf.
  assert (own_tables (with_table pd i pt p s) pd pt) as Hpt by (right; exists i; rewrite Ht, decide_True by done; done).
  assert (∀ x, own_tables s pd x → own_tables (with_table pd i pt p s) pd x) as Hmono.
  { intros x [->|(j & Hj & E)]; [by left|right; exists j]. rewrite Ht by done. split; [done|]. case_decide; [congruence|done]. }
  split.
  - intros x [->|(j & Hj & E)]; [apply K1; by left|]. rewrite Ht in E by done. case_decide; [injection E as <-; by rewrite <- K2|].
    apply K1. right. eauto.
  - intros x Hx. unfold with_table. rewrite poke_state. cbn [pm]. rewrite Hst, decide_False by (intros ->; done). apply K2. auto.
Qed.

Lemma set_page_run ram ipd s pd va kp w :
  pd_ok s pd → tlb_ok s pd → user va → va `mod` 4096 = 0 → is_kpage kp → frame kp `div` 4096 < ram → pd ≠ ipd →
  ¬ present (view s pd va) →
  (∃ s', pagedir_set_page ram ipd pd va kp w s = Ret (true, s') ∧ pd_ok s' pd ∧ tlb_ok s' pd ∧
     (∀ vb, user vb → view s' pd vb = if decide (same_page vb va) then entry kp (user_flags w) else view s pd vb) ∧
     kernel_change s s' ∧ cr3 s' = cr3 s ∧ ∀ s0, kernel_account s0 s pd → kernel_account s0 s' pd) ∨
  (exhausted PAL_ZERO 1 (pm s) ∧ pagedir_set_page ram ipd pd va kp w s = Ret (false, s)).
Proof.
  intros Hok Ht Hva Hal Hk Hram Hpd Hnp. unfold pagedir_set_page. pose proof Hk as [Hkm _].
  rewrite !assert_bind by (apply bool_decide_eq_true_2; rewrite ?pg_ofs_mod; apply Hva || done).
  run_step (vtop_run s kp Hk).
  rewrite !assert_bind by (apply bool_decide_eq_true_2; rewrite ?Z.shiftr_div_pow2 by done; done).
  destruct (table s pd (pd_no va)) as [pt|] eqn:Et.
  - left. destruct (install s pd va kp w pt Hok Ht Hva Hk Hnp Et) as [E H].
    rewrite (bind_Ret _ _ _ _ _ (lookup_found s pd va Hok Hva true pt Et)). rewrite E. destruct H as (? & ? & ?).
    pose proof (va_index va Hva) as Hi. eexists. split_and!; [done..| |done|].
    { apply (poke_kernel_change s pt); [by apply (pk_table _ _ Hok (pd_no va))|]. pose proof (pt_no_range va). lia. }
    intros s0. apply account_same; [|intros x; by rewrite poke_state]. intros i Hi'. apply (poke_table s pd (pd_no va)); try done. apply pt_no_range.
  - destruct (lookup_create s pd va Hok Hva Et) as [[Hex El]|(pt & p & Hal' & El)].
    + right. split; [done|]. by run_step El.
    + left. pose proof (va_index va Hva) as Hi. set (s1 := with_table pd (pd_no va) pt p s) in *.
      assert (pd_ok s1 pd) as Hok1 by (by apply new_ok).
      assert (∀ vb, user vb → view s1 pd vb = view s pd vb) as Hv1.
      { intros vb Hvb. apply new_pte; try done; [by apply va_index|apply pt_no_range]. }
      assert (tlb_ok s1 pd) as Ht1 by (apply (tlb_change s s1 pd Ht); [done..|]; intros; by rewrite Hv1).
      assert (table s1 pd (pd_no va) = Some pt) as Et1 by (unfold s1; rewrite new_table by done; by rewrite decide_True).
      destruct (install s1 pd va kp w pt Hok1 Ht1 Hva Hk) as (E & Hok2 & Ht2 & Hv2); [by rewrite Hv1|done|].
      run_step El. rewrite E. eexists. split_and!; [done..| | |done|].
      { intros vb Hvb. rewrite Hv2, Hv1 by done. done. }
      { apply (kernel_change_trans s s1); [by apply new_table_change| |intros a; by rewrite poke_state].
        apply (poke_kernel_change s1 pt); [by apply (pk_table _ _ Hok1 (pd_no va))|]. pose proof (pt_no_range va). lia. }
      intros s0 Ha. apply (account_same s0 s1); [|intros x; by rewrite poke_state|by apply account_new].
      intros i Hi'. apply (poke_table s1 pd (pd_no va)); try done. apply pt_no_range.
Qed.

(** ** The specification *)

Inductive pop :=
| PSet (up kp : Z) (w : bool) | PGet (va : Z) | PClear (up : Z)
| PIsDirty (va : Z) | PSetDirty (va : Z) (b : bool) | PIsAccessed (va : Z) | PSetAccessed (va : Z) (b : bool).

Definition pexec (ram ipd pd : Z) (o : pop) : M vm Z :=
  match o with
  | PSet up kp w => r ← pagedir_set_page ram ipd pd up kp w; mret (Z.b2z r)
  | PGet va => pagedir_get_page pd va
  | PClear up => pagedir_clear_page ipd pd up;; mret 0
  | PIsDirty va => r ← pagedir_is_dirty pd va; mret (Z.b2z r)
  | PSetDirty va b => pagedir_set_dirty ipd pd va b;; mret 0
  | PIsAccessed va => r ← pagedir_is_accessed pd va; mret (Z.b2z r)
  | PSetAccessed va b => pagedir_set_accessed ipd pd va b;; mret 0
  end.

(** The caller's obligations, and what the operation does to the map of entries. *)
Definition pop_ok (ram ipd pd : Z) (s : vm) (o : pop) : Prop :=
  match o with
  | PSet up kp w => user up ∧ up `mod` 4096 = 0 ∧ is_kpage kp ∧ frame kp `div` 4096 < ram ∧ pd ≠ ipd ∧
                    ¬ present (view s pd up)
  | PClear up => user up ∧ up `mod` 4096 = 0
  | PGet va | PIsDirty va | PSetDirty va _ | PIsAccessed va | PSetAccessed va _ => user va
  end.

Definition kept (pd : Z) (s s' : vm) : Prop := ∀ vb, user vb → view s' pd vb = view s pd vb.

Definition pspec (pd : Z) (o : pop) (r : Z) (s s' : vm) : Prop :=
  match o with
  | PSet up kp w =>
    (r = 1 ∧ ∀ vb, user vb → view s' pd vb = if decide (same_page vb up) then entry kp (user_flags w) else view s pd vb) ∨
    (r = 0 ∧ exhausted PAL_ZERO 1 (pm s) ∧ kept pd s s')
  | PGet va => r = translate (view s pd va) va ∧ kept pd s s'
  | PClear up => changed s pd up (if decide (present (view s pd up)) then clear_bits PTE_P (view s pd up) else view s pd up) s'
  | PIsDirty va => r = Z.b2z (bool_decide (Z.land (view s pd va) PTE_D ≠ 0)) ∧ kept pd s s'
  | PIsAccessed va => r = Z.b2z (bool_decide (Z.land (view s pd va) PTE_A ≠ 0)) ∧ kept pd s s'
  | PSetDirty va b => changed s pd va (if b then Z.lor (view s pd va) PTE_D else clear_bits PTE_D (view s pd va)) s'
  | PSetAccessed va b => changed s pd va (if b then Z.lor (view s pd va) PTE_A else clear_bits PTE_A (view s pd va)) s'
  end.

Lemma pexec_sim ram ipd s pd o :
  pd_ok s pd → tlb_ok s pd → pop_ok ram ipd pd s o →
  ∃ r s', pexec ram ipd pd o s = Ret (r, s') ∧ pspec pd o r s s' ∧ pd_ok s' pd ∧ tlb_ok s' pd.
Proof.
  intros Hok Ht Ho. destruct o as [up kp w|va|up|va|va b|va|va b]; cbn [pexec pop_ok pspec] in *.
  - destruct Ho as (H1 & H2 & H3 & H4 & H5 & H6).
    destruct (set_page_run ram ipd s pd up kp w Hok Ht H1 H2 H3 H4 H5 H6) as [(s' & E & Hok' & Ht' & Hv & _)|[Hex E]].
    + exists 1, s'. run_step E. split_and!; [done| |done|done]. by left.
    + exists 0, s. run_step E. split_and!; [done| |done|done]. right. split_and!; [done|done|]. by intros vb _.
  - exists (translate (view s pd va) va), s. rewrite get_page_run by done. done.
  - destruct Ho as [H1 H2]. destruct (clear_page_run ipd s pd up Hok H1 Ht H2) as (s' & E & Hok' & Ht' & Hc).
    exists 0, s'. run_step E. done.
  - eexists _, s. unfold pagedir_is_dirty. run_step (test_flag_run s pd va Hok Ho PTE_D). done.
  - destruct (set_flag_run ipd s pd va Hok Ho PTE_D b) as (s' & E & Hok' & Ht' & Hc); [by right|done|].
    exists 0, s'. unfold pagedir_set_dirty. run_step E. done.
  - eexists _, s. unfold pagedir_is_accessed. run_step (test_flag_run s pd va Hok Ho PTE_A). done.
  - destruct (set_flag_run ipd s pd va Hok Ho PTE_A b) as (s' & E & Hok' & Ht' & Hc); [by left|done|].
    exists 0, s'. unfold pagedir_set_accessed. run_step E. done.
Qed.

(** ** Creation *)

(** The kernel's directory: a used page without user mappings. *)
Record kernel_ok (ipd : Z) (s : vm) : Prop := {
  ko_palloc : palloc_ok (pm s);
  ko_page : is_kpage ipd;
  ko_used : page_state (pm s) false ipd = Some true;
  ko_empty : ∀ i, user_index i → words (pm s) (ipd + 4 * i) = 0;
  ko_cr3 : ∃ a, cr3 s = frame a ∧ page_state (pm s) false a = Some true
}.

Lemma copy_page_words s dst src i :
  dst `mod` 4096 = 0 → user_index i →
  ∃ s', copy_page dst src s = Ret (tt, s') ∧ pde s' dst i = words (pm s) (src + 4 * i) ∧
        kernel_pool (pm s') = kernel_pool (pm s) ∧ user_pool (pm s') = user_pool (pm s) ∧ cr3 s' = cr3 s ∧ tlb s' = tlb s.
Proof.
  intros Hd Hi. eexists. split; [done|]. split_and!; try done. unfold pde. cbn. unfold user_index in Hi.
  change PGSIZE with 4096. rewrite bool_decide_eq_true_2 by lia. f_equal. lia.
Qed.

Lemma copy_page_palloc s dst src :
  palloc_ok (pm s) → ∃ s', copy_page dst src s = Ret (tt, s') ∧ palloc_ok (pm s').
Proof.
  intros [Hp Ha Hw]. eexists. split; [done|]. split; [intros []; [apply (Hp true)|apply (Hp false)]|done|].
  intros x. cbn. by case_bool_decide.
Qed.

(** A directory without page tables. *)
Lemma empty_pd_ok s pd :
  palloc_ok (pm s) → page_state (pm s) false pd = Some true → (∀ i, user_index i → pde s pd i = 0) →
  (∃ a, is_kpage a ∧ cr3 s = frame a) → pd_ok s pd ∧ ∀ va, user va → view s pd va = 0.
Proof.
  intros Hok Hu H0 Hc. assert (∀ i, user_index i → table s pd i = None) as Ht.
  { intros i Hi. unfold table. by rewrite bool_decide_eq_true_2 by (by apply H0). }
  split; [split; try done|].
  - intros i Hi. left. by apply H0.
  - intros i pt Hi. by rewrite Ht.
  - intros i j pt Hi Hj. by rewrite Ht.
  - intros i k Hi Hk. unfold pte. rewrite Ht by done. lia.
  - intros va Hva. apply view_None, Ht. by apply va_index.
Qed.

Lemma pagedir_create_run ipd s :
  kernel_ok ipd s →
  (exhausted 0 1 (pm s) ∧ pagedir_create ipd s = Ret (0, s)) ∨
  ∃ pd s', pagedir_create ipd s = Ret (pd, s') ∧ pd ≠ ipd ∧ pd_ok s' pd ∧ tlb_ok s' pd ∧ cr3 s' = cr3 s ∧
    (∀ va, user va → view s' pd va = 0) ∧ (∀ a, page_state (pm s') true a = page_state (pm s) true a) ∧ kernel_account (pm s) s' pd.
Proof.
  intros [Hok Hk Hu He Hc]. unfold pagedir_create.
  destruct (palloc_get_run (pm s) 0 1 Hok ltac:(lia)) as [(pd & p & E & Hal)|[Hex E]].
  2:{ left. split; [done|]. assert (palloc (palloc_get_page 0) s = Ret (0, s)) as Ep.
      { unfold palloc, palloc_get_page. rewrite E. by destruct s. }
      by run_step Ep. }
  right. pose proof (al_kpage _ _ _ _ _ Hal) as Hkp. pose proof (al_free _ _ _ _ _ Hal 0 ltac:(lia)) as Hf.
  rewrite Z.add_0_r in Hf. change (has_flag 0 PAL_USER) with false in Hf.
  assert (pd ≠ ipd) as Hne by congruence. set (s1 := VM p (cr3 s) (tlb s)).
  assert (palloc (palloc_get_page 0) s = Ret (pd, s1)) as Ep by (unfold palloc, palloc_get_page; by rewrite E).
  run_step Ep. rewrite bool_decide_eq_true_2 by (destruct Hkp as [_ Hr]; unfold PHYS_BASE in Hr; lia).
  destruct (copy_page_palloc s1 pd ipd (al_ok _ _ _ _ _ Hal)) as (s2 & E2 & Hok2). run_step E2.
  assert (∀ i, user_index i → pde s2 pd i = 0) as H0.
  { intros i Hi. destruct (copy_page_words s1 pd ipd i) as (s2' & E2' & Hp & _); [apply Hkp|done|].
    rewrite E2 in E2'. injection E2' as <-. rewrite Hp. cbn. rewrite (al_words _ _ _ _ _ Hal).
    rewrite decide_False by (intros [? _]; done). by apply He. }
  destruct (copy_page_words s1 pd ipd 0) as (s2' & E2' & _ & Hkp2 & Hup2 & Hc2 & Ht2); [apply Hkp|unfold user_index; lia|].
  rewrite E2 in E2'. injection E2' as <-. destruct Hc as (a & Ea & Hua).
  assert (∀ x, page_state (pm s2) false x = page_state p false x) as Hps by (intros x; unfold page_state; cbn; by rewrite Hkp2).
  destruct (empty_pd_ok s2 pd) as [Hpd Hv]; [done| |done| |].
  - rewrite Hps, (al_state _ _ _ _ _ Hal). rewrite decide_True; [done|]. split; [done|].
    split; [apply Hkp|lia].
  - exists a. rewrite Hc2. split; [|done]. exact (proj1 (page_state_kpage _ _ _ _ Hok Hua)).
  - exists pd, s2. split_and!; try done.
    + unfold tlb_ok. rewrite Hc2. cbn. rewrite Ea. unfold frame. intros Heq. assert (a = pd) by lia. congruence.
    + intros x. transitivity (page_state p true x); [unfold page_state; cbn; by rewrite Hup2|].
      rewrite (al_state _ _ _ _ _ Hal). by rewrite decide_False by (by intros [? _]).
    + assert (∀ x, own_tables s2 pd x → x = pd) as Hown.
      { intros x [->|(i & Hi & Et)]; [done|]. unfold table in Et. by rewrite bool_decide_eq_true_2 in Et by (by apply H0). }
      split; [intros x ->%Hown; done|]. intros x Hx. rewrite Hps, (al_state _ _ _ _ _ Hal). rewrite decide_False; [done|].
      intros [_ [Ha Hr]]. apply Hx. left. destruct Hkp as [Hkp _]. Z.div_mod_to_equations. lia.
Qed.

(** ** Executions: the kernel's calls and the processor's accesses *)

(** What the processor does to the structure [pd]: while [pd] is loaded it sets the
    accessed and dirty bits of pages it uses and caches their entries; it may drop
    cached entries; while another directory is loaded its cache is not ours. *)
Inductive hw (pd : Z) : vm → vm → Prop :=
| hw_access s va pt (write : bool) :
    cr3 s = frame pd → user va → table s pd (pd_no va) = Some pt → present (view s pd va) →
    (write = true → Z.land (view s pd va) PTE_W ≠ 0) →
    let e := Z.lor (Z.lor (view s pd va) PTE_A) (if write then PTE_D else 0) in
    let s' := poke (pt + 4 * pt_no va) e s in
    hw pd s (VM (pm s') (cr3 s') (<[pg_no va := e]> (tlb s')))
| hw_evict s k : hw pd s (VM (pm s) (cr3 s) (delete k (tlb s)))
| hw_other s t : cr3 s ≠ frame pd → hw pd s (VM (pm s) (cr3 s) t).

Inductive vreach (ram ipd pd : Z) (s0 : vm) : vm → Prop :=
| vr_init : vreach ram ipd pd s0 s0
| vr_call s o r s' :
    vreach ram ipd pd s0 s → pop_ok ram ipd pd s o → pexec ram ipd pd o s = Ret (r, s') → vreach ram ipd pd s0 s'
| vr_activate s q s' :
    vreach ram ipd pd s0 s → is_kpage (if bool_decide (q = 0) then ipd else q) →
    pagedir_activate ipd q s = Ret (tt, s') → vreach ram ipd pd s0 s'
| vr_hw s s' : vreach ram ipd pd s0 s → hw pd s s' → vreach ram ipd pd s0 s'.

Lemma pd_ok_tlb s pd c t :
  pd_ok s pd → (∃ a, is_kpage a ∧ c = frame a) → pd_ok (VM (pm s) c t) pd.
Proof. intros [H1 H2 H3 H4 H5 H6 H7] Hc. by split. Qed.

Lemma coherent_refl e : present e → coherent e e.
Proof. intros. by split. Qed.

(** The bits an access sets keep a cached entry coherent. *)
Lemma coherent_access e v (w : bool) : coherent e v → coherent e (Z.lor (Z.lor v PTE_A) (if w then PTE_D else 0)).
Proof.
  intros [C1 C2 C3 C4 C5]. split; unfold present in *.
  - destruct w; rewrite ?land_lor_other by done; done.
  - destruct w; rewrite ?land_lor_other by done; done.
  - destruct w; rewrite ?land_lor_other by done; done.
  - intros _. rewrite land_lor_other by (by destruct w). rewrite Z.land_lor_distr_l. by intros [_ ?]%Z.lor_eq_0_iff.
  - intros Hd. apply C5 in Hd. rewrite Z.land_lor_distr_l, (land_lor_other v) by done.
    intros [? _]%Z.lor_eq_0_iff. done.
Qed.

Lemma hw_ok pd s s' : hw pd s s' → pd_ok s pd → tlb_ok s pd → pd_ok s' pd ∧ tlb_ok s' pd.
Proof.
  intros Hhw Hok Ht. destruct Hhw as [s va pt w Hc Hva Et Hp Hw e s'|s k|s t Hc].
  - pose proof (view_range s pd va Hok Hva) as Hr. pose proof (pk_cr3 _ _ Hok) as Hcr.
    assert (0 ≤ e < 2 ^ 30) as He.
    { unfold e. apply lor_range; [lia|apply lor_range; [lia|done|]|destruct w]; unfold PTE_A, PTE_D; lia. }
    assert (pd_ok s' pd) as Hok' by (by apply poke_view_ok). split; [by apply pd_ok_tlb|].
    intros _ vb e' Hvb. cbn [tlb]. change (view (VM _ _ _) pd vb) with (view s' pd vb).
    unfold s' at 2. rewrite (poke_view s pd va) by done. destruct (decide (same_page vb va)) as [Hs|Hs].
    + unfold same_page in Hs. rewrite Hs, lookup_insert_eq. intros [= <-]. apply coherent_refl.
      unfold present, e. destruct w; rewrite ?land_lor_other by done; done.
    + rewrite lookup_insert_ne by (by intros E; apply Hs). by apply Ht.
  - pose proof (pk_cr3 _ _ Hok). split; [by apply pd_ok_tlb|]. intros Hc va e Hva. cbn [tlb].
    intros [_ He]%lookup_delete_Some. by apply Ht.
  - pose proof (pk_cr3 _ _ Hok). split; [by apply pd_ok_tlb|]. by intros H'.
Qed.

Lemma vreach_ok ram ipd pd s0 s :
  pd_ok s0 pd → tlb_ok s0 pd → vreach ram ipd pd s0 s → pd_ok s pd ∧ tlb_ok s pd.
Proof.
  intros Hok0 Ht0. induction 1 as [|s o r s' _ [Hok Ht] Ho E|s q s' _ [Hok Ht] Hq E|s s' _ [Hok Ht] Hh]; [done|..].
  - destruct (pexec_sim ram ipd s pd o Hok Ht Ho) as (r1 & s1 & E1 & _ & Hok1 & Ht1). rewrite E in E1.
    by injection E1 as <- <-.
  - unfold pagedir_activate in E. rewrite (bind_Ret _ _ _ _ _ (vtop_run s _ Hq)) in E. injection E as <-. split.
    + apply pd_ok_tlb; [done|]. by eexists.
    + intros _ va e _. cbn [tlb]. by rewrite lookup_empty.
  - by apply (hw_ok pd s).
Qed.

(** C6: a new page directory maps no user page, and along any execution of the
    kernel's calls, of directory switches and of the processor's accesses, every legal
    call returns (no assertion fails) and acts on the map from user pages to entries as
    specified: [pagedir_set_page] makes the page map to the frame with its permission
    and leaves all other pages, or reports that the kernel pool has no page for a page
    table and changes nothing; [pagedir_get_page] translates addresses accordingly,
    [pagedir_clear_page] unmaps only its page, and the accessed and dirty bits are read
    and written for their page only. *)
Theorem pagedir_session_refines ram ipd si pd s0 s o :
  kernel_ok ipd si → pagedir_create ipd si = Ret (pd, s0) → pd ≠ 0 →
  vreach ram ipd pd s0 s → pop_ok ram ipd pd s o →
  (∀ va, user va → view s0 pd va = 0) ∧
  ∃ r s', pexec ram ipd pd o s = Ret (r, s') ∧ pspec pd o r s s'.
Proof.
  intros Hk E Hne Hr Ho. destruct (pagedir_create_run ipd si Hk) as [[_ E']|(pd' & s0' & E' & _ & Hok & Ht & _ & Hv & _)].
  { rewrite E in E'. by injection E' as -> _. }
  rewrite E in E'. injection E' as <- <-. destruct (vreach_ok ram ipd pd s0 s Hok Ht Hr) as [Hok' Ht'].
  split; [done|]. destruct (pexec_sim ram ipd s pd o Hok' Ht' Ho) as (r & s' & E' & Hs & _). eauto.
Qed.

(** C7: along any such execution, whenever the directory is the one the processor
    uses, every user translation the processor has cached agrees with the directory in
    memory: the page is present, with the same frame and write permission, and no
    accessed or dirty bit is cached that memory has lost. *)
Theorem pagedir_tlb_coherent ram ipd si pd s0 s va e :
  kernel_ok ipd si → pagedir_create ipd si = Ret (pd, s0) → pd ≠ 0 →
  vreach ram ipd pd s0 s → cr3 s = frame pd → user va → tlb s !! pg_no va = Some e →
  coherent e (view s pd va).
Proof.
  intros Hk E Hne Hr Hc Hva He.
  destruct (pagedir_create_run ipd si Hk) as [[_ E']|(pd' & s0' & E' & _ & Hok & Ht & _)].
  { rewrite E in E'. by injection E' as -> _. }
  rewrite E in E'. injection E' as <- <-. destruct (vreach_ok ram ipd pd s0 s Hok Ht Hr) as [_ Ht']. by apply Ht'.
Qed.

(** ** A machine with a kernel directory *)

Definition vstate {A} (s : vm) (o : outcome (A * vm)) : vm := if o is Ret (_, s') then s' else s.
Definition vvalue {A} (o : outcome (A * vm)) : option A := if o is Ret (a, _) then Some a else None.

Lemma vstate_eq {A} s (o : outcome (A * vm)) a : vvalue o = Some a → o = Ret (a, vstate s o).
Proof. destruct o as [[]| |]; naive_solver. Qed.

Definition pm0 : pmem := after machine (palloc_init 300 100 machine).
Definition kdir : Z := 3222278144.
Definition udir : Z := 3222282240.
Definition pm1 : pmem := after machine (palloc_get_multiple PAL_ZERO 1 pm0).
Definition vm1 : vm := VM pm1 (frame kdir) ∅.
Definition vm2 : vm := vstate vm1 (pagedir_create kdir vm1).

Lemma Ret_inj {A S} (a b : A) (s t : S) : Ret (a, s) = Ret (b, t) → a = b ∧ s = t.
Proof. by intros [= -> ->]. Qed.

Lemma vm1_ok : kernel_ok kdir vm1.
Proof.
  destruct (palloc_init_run machine 300 100) as (s & E & Hok & _); [intros a; vm_compute; split; congruence|lia|lia|].
  assert (pm0 = s) as Hs by (unfold pm0; by rewrite E). rewrite <- Hs in Hok.
  assert (palloc_get_multiple PAL_ZERO 1 pm0 = Ret (kdir, pm1)) as E1 by (apply after_eq; vm_compute; reflexivity).
  destruct (palloc_get_run pm0 PAL_ZERO 1 Hok ltac:(lia)) as [(p & s' & E' & Hal)|[_ E']];
    rewrite E1 in E'; [apply Ret_inj in E' as [<- <-]|by apply Ret_inj in E' as [? _]].
  pose proof (al_kpage _ _ _ _ _ Hal) as Hk.
  assert (page_state pm1 false kdir = Some true) as Hu.
  { rewrite (al_state _ _ _ _ _ Hal), decide_True; [done|]. split; [done|]. split; [apply Hk|lia]. }
  split; [exact (al_ok _ _ _ _ _ Hal)|exact Hk|exact Hu| |exists kdir; split; [reflexivity|exact Hu]].
  intros i Hi. change (pm vm1) with pm1. rewrite (al_words _ _ _ _ _ Hal), decide_True; [reflexivity|]. unfold user_index in Hi. split; [done|]. lia.
Qed.

Lemma vm2_created : pagedir_create kdir vm1 = Ret (udir, vm2).
Proof. apply vstate_eq. vm_compute. reflexivity. Qed.

Lemma pagedir_session_refines_witness :
  ∃ r s', pexec 300 kdir udir (PSet 134512640 3222290432 true) vm2 = Ret (r, s') ∧
          pspec udir (PSet 134512640 3222290432 true) r vm2 s'.
Proof.
  apply (pagedir_session_refines 300 kdir vm1 udir vm2 vm2 (PSet 134512640 3222290432 true)).
  - exact vm1_ok.
  - exact vm2_created.
  - discriminate.
  - apply vr_init.
  - cbn [pop_ok]. split_and!; [unfold user, PHYS_BASE; lia|reflexivity|split; [reflexivity|unfold PHYS_BASE; lia]
      |vm_compute; reflexivity|discriminate|].
    intros Hp. apply Hp. vm_compute. reflexivity.
Defined.

Definition pt3 : Z := 3222286336.
Definition vm3 : vm := vstate vm2 (pexec 300 kdir udir (PSet 134512640 3222290432 true) vm2).
Definition vm4 : vm := vstate vm3 (pagedir_activate kdir udir vm3).
Definition vm5 : vm :=
  let e := Z.lor (Z.lor (view vm4 udir 134512645) PTE_A) PTE_D in
  let s' := poke (pt3 + 4 * pt_no 134512645) e vm4 in
  VM (pm s') (cr3 s') (<[pg_no 134512645 := e]> (tlb s')).

Lemma vm5_reached : vreach 300 kdir udir vm2 vm5.
Proof.
  apply vr_hw with vm4.
  2:{ apply (hw_access udir vm4 134512645 pt3 true).
      - vm_compute. reflexivity.
      - unfold user, PHYS_BASE. lia.
      - vm_compute. reflexivity.
      - intros H. vm_compute in H. discriminate.
      - intros _ H. vm_compute in H. discriminate. }
  apply (vr_activate 300 kdir udir vm2 vm3 udir).
  2:{ split; [reflexivity|]. vm_compute. split; congruence. }
  2:{ apply vstate_eq. vm_compute. reflexivity. }
  apply (vr_call 300 kdir udir vm2 vm2 (PSet 134512640 3222290432 true) 1); [apply vr_init| |].
  - cbn [pop_ok]. split_and!; [unfold user, PHYS_BASE; lia|reflexivity|split; [reflexivity|unfold PHYS_BASE; lia]
      |vm_compute; reflexivity|discriminate|].
    intros Hp. apply Hp. vm_compute. reflexivity.
  - apply vstate_eq. vm_compute. reflexivity.
Qed.

Lemma pagedir_tlb_coherent_witness : coherent 1065063 (view vm5 udir 134512650).
Proof.
  apply (pagedir_tlb_coherent 300 kdir vm1 udir vm2 vm5 134512650 1065063).
  - exact vm1_ok.
  - exact vm2_created.
  - discriminate.
  - exact vm5_reached.
  - vm_compute. reflexivity.
  - unfold user, PHYS_BASE. lia.
  - vm_compute. reflexivity.
Defined.
