(* ===== verification/FixedPoint.v ===== *)
(** * FixedPoint: 16.16 fixed-point numbers ([pintos/src/threads/fixed-point.h])

    A [fixed_point_t] is its 32-bit internal value.  Signed arithmetic that leaves the
    32-bit range wraps around; division truncates towards zero, as in C. *)

From S2P Require Import Prelude.

Definition FIX_P : Z := 16.
Definition FIX_Q : Z := 16.
Definition FIX_F : Z := Z.shiftl 1 FIX_Q.
Definition FIX_MAX_INT : Z := Z.shiftl 1 FIX_P - 1.
Definition FIX_MIN_INT : Z := - FIX_MAX_INT.

Record fixed_point_t := mk_fix { f : Z }.

(** [__mk_fix]: the argument is converted to [int]. *)
Definition __mk_fix (v : Z) : fixed_point_t := mk_fix (s32 v).

Section fixed.
Context {S : Type}.

Definition fix_int (n : Z) : M S fixed_point_t :=
  assert (bool_decide (FIX_MIN_INT ≤ n) && bool_decide (n ≤ FIX_MAX_INT));;
  mret (__mk_fix (n * FIX_F)).

(** Integer division: a zero divisor traps, and so does the quotient that overflows. *)
Definition idiv (w a b : Z) : M S Z :=
  if bool_decide (b = 0) then crash
  else if bool_decide (Z.quot a b = 2 ^ (w - 1)) then crash
  else mret (Z.quot a b).

Definition fix_frac (n d : Z) : M S fixed_point_t :=
  assert (bool_decide (d ≠ 0));;
  q ← idiv 32 n d;
  assert (bool_decide (FIX_MIN_INT ≤ q) && bool_decide (q ≤ FIX_MAX_INT));;
  v ← idiv 64 (s64 (n * FIX_F)) d;
  mret (__mk_fix v).

Definition fix_round (x : fixed_point_t) : M S Z := mret (Z.quot (s32 (f x + Z.quot FIX_F 2)) FIX_F).
Definition fix_trunc (x : fixed_point_t) : M S Z := mret (Z.quot (f x) FIX_F).
Definition fix_add (x y : fixed_point_t) : M S fixed_point_t := mret (__mk_fix (f x + f y)).
Definition fix_sub (x y : fixed_point_t) : M S fixed_point_t := mret (__mk_fix (f x - f y)).
Definition fix_mul (x y : fixed_point_t) : M S fixed_point_t :=
  mret (__mk_fix (Z.quot (s64 (f x * f y)) FIX_F)).

Definition fix_scale (x : fixed_point_t) (n : Z) : M S fixed_point_t :=
  assert (bool_decide (0 ≤ n));;
  mret (__mk_fix (f x * n)).

Definition fix_div (x y : fixed_point_t) : M S fixed_point_t :=
  v ← idiv 64 (s64 (f x * FIX_F)) (f y);
  mret (__mk_fix v).

Definition fix_unscale (x : fixed_point_t) (n : Z) : M S fixed_point_t :=
  assert (bool_decide (0 < n));;
  v ← idiv 32 (f x) n;
  mret (__mk_fix v).

Definition fix_inv (x : fixed_point_t) : M S fixed_point_t :=
  one ← fix_int 1;
  fix_div one x.

Definition fix_compare (x y : fixed_point_t) : M S Z :=
  mret (if bool_decide (f x < f y) then -1 else if bool_decide (f x > f y) then 1 else 0).

(** ** Exactness *)

Definition fp (v : Z) : Prop := is_s32 v.

(** [r] is the integer nearest to [a / b] towards zero. *)
Definition towards_zero (a b r : Z) : Prop :=
  Z.abs (r * b) ≤ Z.abs a ∧ Z.abs (a - r * b) < Z.abs b ∧ 0 ≤ (r * b) * a.

Lemma quot_towards_zero a b : b ≠ 0 → towards_zero a b (Z.quot a b).
Proof.
  intros Hb. pose proof (Z.quot_rem a b Hb) as Hq. pose proof (Z.rem_bound_abs a b Hb) as Hr.
  pose proof (Z.rem_sign_nz a b Hb) as Hs. unfold towards_zero.
  assert (Z.rem a b = 0 ∨ Z.rem a b ≠ 0) as [E|E] by lia.
  - rewrite E in *. replace (Z.quot a b * b) with a by lia. nia.
  - specialize (Hs E). replace (Z.quot a b * b) with (a - Z.rem a b) by lia.
    assert (Z.abs (Z.rem a b) ≤ Z.abs a) as Hle.
    { pose proof (Z.quot_abs a b Hb) as Hqa. pose proof (Z.rem_abs a b Hb) as Hra.
      pose proof (Z.rem_le (Z.abs a) (Z.abs b) ltac:(lia) ltac:(lia)). lia. }
    assert ((0 < a ∧ 0 < Z.rem a b) ∨ (a < 0 ∧ Z.rem a b < 0)) as [?|?].
    { destruct (Z.sgn_spec a) as [[? ?]|[[? ?]|[? ?]]]; destruct (Z.sgn_spec (Z.rem a b)) as [[? ?]|[[? ?]|[? ?]]]; lia. }
    + nia.
    + nia.
Qed.

Lemma quot_range a n : is_s32 a → 0 < n → is_s32 (Z.quot a n).
Proof.
  unfold is_s32. intros Ha Hn. destruct (decide (0 ≤ a)).
  - rewrite Z.quot_div_nonneg by lia. pose proof (Z.div_le_upper_bound a n a ltac:(lia) ltac:(nia)).
    pose proof (Z.div_pos a n). lia.
  - replace a with (- (- a)) by lia. rewrite Z.quot_opp_l, Z.quot_div_nonneg by lia.
    pose proof (Z.div_le_upper_bound (- a) n (- a) ltac:(lia) ltac:(nia)). pose proof (Z.div_pos (- a) n). lia.
Qed.

(** Converting an integer to fixed point and back. *)
Lemma fix_int_run n s :
  FIX_MIN_INT ≤ n ≤ FIX_MAX_INT → fix_int n s = Ret (mk_fix (s32 (n * 65536)), s).
Proof.
  intros Hn. unfold fix_int. rewrite assert_bind; [done|]. rewrite andb_true_iff, !bool_decide_eq_true. lia.
Qed.

Lemma s32_int n :
  FIX_MIN_INT ≤ n ≤ FIX_MAX_INT →
  s32 (n * 65536) = if decide ((-32768) ≤ n < 32768) then n * 65536 else if decide (0 ≤ n) then (n - 65536) * 65536 else (n + 65536) * 65536.
Proof.
  intros Hn. change FIX_MIN_INT with (-65535) in Hn. change FIX_MAX_INT with 65535 in Hn. unfold swrap.
  change (32 - 1) with 31. repeat case_decide; Z.div_mod_to_equations; lia.
Qed.

(** The assertion of [fix_int] admits 65535 on either side of zero, but the value
    survives the conversion exactly for the integers from -32768 to 32767: the others
    come back wrapped by 65536. *)
Theorem fix_int_trunc_iff n s :
  FIX_MIN_INT ≤ n ≤ FIX_MAX_INT →
  ∃ x r, fix_int n s = Ret (x, s) ∧ fix_trunc x s = Ret (r, s) ∧ (r = n ↔ (-32768) ≤ n < 32768).
Proof.
  intros Hn. rewrite fix_int_run by done. eexists _, _. split_and!; [done|done|]. cbn [f].
  rewrite s32_int by done. change FIX_F with 65536.
  repeat case_decide; rewrite Z.quot_mul by done; lia.
Qed.

(** [fix_round] of an integer is the integer for those that are not negative, but
    one more than it for the negative ones, since the division truncates towards
    zero. *)
Theorem fix_round_int n s :
  (-32768) ≤ n < 32768 →
  ∃ x, fix_int n s = Ret (x, s) ∧ fix_round x s = Ret (if decide (0 ≤ n) then n else n + 1, s).
Proof.
  intros Hn. rewrite fix_int_run by (change FIX_MIN_INT with (-65535); change FIX_MAX_INT with 65535; lia).
  eexists. split; [done|]. unfold fix_round, mret, M_ret. cbn [f]. change FIX_F with 65536.
  change (Z.quot 65536 2) with 32768. rewrite (swrap_id 32 (n * 65536)) by lia. rewrite swrap_id by lia. do 2 f_equal.
  case_decide.
  - rewrite Z.quot_div_nonneg by lia. Z.div_mod_to_equations. lia.
  - replace (n * 65536 + 32768) with (- ((- n - 1) * 65536 + 32768)) by lia. rewrite Z.quot_opp_l by lia.
    rewrite Z.quot_div_nonneg by lia. Z.div_mod_to_equations. lia.
Qed.

(** On internal values whose exact result is representable, addition, subtraction
    and scaling are exact, and multiplication, division and unscaling give the exact
    quotient rounded towards zero, off by less than one unit of the last place. *)
Theorem fix_arith_exact (x y : fixed_point_t) n s :
  fp (f x) → fp (f y) → is_s32 n →
  (fp (f x + f y) → ∃ z, fix_add x y s = Ret (z, s) ∧ f z = f x + f y) ∧
  (fp (f x - f y) → ∃ z, fix_sub x y s = Ret (z, s) ∧ f z = f x - f y) ∧
  (0 ≤ n → fp (f x * n) → ∃ z, fix_scale x n s = Ret (z, s) ∧ f z = f x * n) ∧
  (fp (Z.quot (f x * f y) 65536) → ∃ z, fix_mul x y s = Ret (z, s) ∧ towards_zero (f x * f y) 65536 (f z)) ∧
  (f y ≠ 0 → fp (Z.quot (f x * 65536) (f y)) →
     ∃ z, fix_div x y s = Ret (z, s) ∧ towards_zero (f x * 65536) (f y) (f z)) ∧
  (0 < n → ∃ z, fix_unscale x n s = Ret (z, s) ∧ towards_zero (f x) n (f z)).
Proof.
  unfold fp, is_s32. intros Hx Hy Hn. split_and!.
  - intros H. eexists. split; [done|]. by apply swrap_id.
  - intros H. eexists. split; [done|]. by apply swrap_id.
  - intros H0 H. unfold fix_scale. rewrite assert_bind by (by apply bool_decide_eq_true_2).
    eexists. split; [done|]. by apply swrap_id.
  - intros H. eexists. split; [done|]. change FIX_F with 65536. cbn [f __mk_fix].
    rewrite (swrap_id 64) by nia. rewrite swrap_id by done. by apply quot_towards_zero.
  - intros H0 H. unfold fix_div, idiv. change FIX_F with 65536. rewrite (swrap_id 64) by lia.
    rewrite bool_decide_eq_false_2, bool_decide_eq_false_2 by lia. rewrite ret_bind. eexists. split; [done|].
    cbn [f __mk_fix]. rewrite swrap_id by done. by apply quot_towards_zero.
  - intros H. unfold fix_unscale, idiv. rewrite assert_bind by (by apply bool_decide_eq_true_2).
    pose proof (quot_range (f x) n Hx H) as Hq. unfold is_s32 in Hq.
    rewrite bool_decide_eq_false_2 by lia. rewrite bool_decide_eq_false_2 by (change (32 - 1) with 31; lia).
    rewrite ret_bind. eexists. split; [done|]. cbn [f __mk_fix]. rewrite swrap_id by done.
    apply quot_towards_zero. lia.
Qed.
End fixed.

Lemma fix_int_trunc_iff_witness :
  ∃ x r, fix_int 40000 tt = Ret (x, tt) ∧ fix_trunc x tt = Ret (r, tt) ∧ (r = 40000 ↔ (-32768) ≤ 40000 < 32768).
Proof. apply (fix_int_trunc_iff 40000 tt). vm_compute. split; congruence. Defined.

Lemma fix_round_int_witness : ∃ x, fix_int (-1) tt = Ret (x, tt) ∧ fix_round x tt = Ret (0, tt).
Proof. apply (fix_round_int (-1) tt). lia. Defined.

Lemma fix_arith_exact_witness :
  ∃ z, fix_mul (mk_fix (- 98304)) (mk_fix 3) tt = Ret (z, tt) ∧ towards_zero (-294912) 65536 (f z).
Proof.
  destruct (fix_arith_exact (mk_fix (- 98304)) (mk_fix 3) 1 tt) as (_ & _ & _ & Hm & _); cbn [f].
  - unfold fp, is_s32. lia.
  - unfold fp, is_s32. lia.
  - unfold is_s32. lia.
  - apply Hm. vm_compute. split; congruence.
Defined.
