(* ===== verification/Thread.v ===== *)
(** * Thread: the scheduler ([pintos/src/threads/thread.c], [threads/interrupt.c])

    The state is what the file keeps: the thread structures by address, the run queue
    and the list of all threads (the lists that [list_session_refines] justifies, with
    the threads as elements), the idle and initial threads, the tick counters and the
    processor's interrupt flag.  [running] is the thread whose stack the processor is
    on: [switch_threads] changes it, so what follows a call of [schedule] runs as the
    next thread.  The configuration is the one without user programs. *)

From S2P Require Import Prelude Vaddr.

Inductive thread_status := THREAD_RUNNING | THREAD_READY | THREAD_BLOCKED | THREAD_DYING.

#[export] Instance thread_status_eq_dec : EqDecision thread_status.
Proof. solve_decision. Defined.

Definition THREAD_MAGIC : Z := 3446325067. (* 0xcd6abf4b *)
Definition TID_ERROR : Z := -1.
Definition PRI_MIN : Z := 0.
Definition PRI_DEFAULT : Z := 31.
Definition PRI_MAX : Z := 63.
Definition TIME_SLICE : Z := 4.

(** [struct thread]; [elem] and [allelem] are its memberships in lists. *)
Record thread := Thread {
  tid : Z; status : thread_status; name : string; stack : Z; priority : Z; magic : Z
}.

Record sched := Sched {
  threads : gmap Z thread;
  running : Z;
  ready_list : list Z;
  all_list : list Z;
  idle_thread : Z;
  initial_thread : Z;
  next_tid : Z;
  thread_ticks : Z;
  idle_ticks : Z;
  kernel_ticks : Z;
  intr_on : bool;
  in_external_intr : bool;
  yield_on_return : bool
}.

Definition set_threads f s := Sched (f (threads s)) (running s) (ready_list s) (all_list s) (idle_thread s)
  (initial_thread s) (next_tid s) (thread_ticks s) (idle_ticks s) (kernel_ticks s) (intr_on s) (in_external_intr s) (yield_on_return s).
Definition set_running v s := Sched (threads s) v (ready_list s) (all_list s) (idle_thread s)
  (initial_thread s) (next_tid s) (thread_ticks s) (idle_ticks s) (kernel_ticks s) (intr_on s) (in_external_intr s) (yield_on_return s).
Definition set_ready v s := Sched (threads s) (running s) v (all_list s) (idle_thread s)
  (initial_thread s) (next_tid s) (thread_ticks s) (idle_ticks s) (kernel_ticks s) (intr_on s) (in_external_intr s) (yield_on_return s).
Definition set_all v s := Sched (threads s) (running s) (ready_list s) v (idle_thread s)
  (initial_thread s) (next_tid s) (thread_ticks s) (idle_ticks s) (kernel_ticks s) (intr_on s) (in_external_intr s) (yield_on_return s).
Definition set_idle v s := Sched (threads s) (running s) (ready_list s) (all_list s) v
  (initial_thread s) (next_tid s) (thread_ticks s) (idle_ticks s) (kernel_ticks s) (intr_on s) (in_external_intr s) (yield_on_return s).
Definition set_initial v s := Sched (threads s) (running s) (ready_list s) (all_list s) (idle_thread s)
  v (next_tid s) (thread_ticks s) (idle_ticks s) (kernel_ticks s) (intr_on s) (in_external_intr s) (yield_on_return s).
Definition set_next_tid v s := Sched (threads s) (running s) (ready_list s) (all_list s) (idle_thread s)
  (initial_thread s) v (thread_ticks s) (idle_ticks s) (kernel_ticks s) (intr_on s) (in_external_intr s) (yield_on_return s).
Definition set_ticks t i k s := Sched (threads s) (running s) (ready_list s) (all_list s) (idle_thread s)
  (initial_thread s) (next_tid s) t i k (intr_on s) (in_external_intr s) (yield_on_return s).
Definition set_intr v s := Sched (threads s) (running s) (ready_list s) (all_list s) (idle_thread s)
  (initial_thread s) (next_tid s) (thread_ticks s) (idle_ticks s) (kernel_ticks s) v (in_external_intr s) (yield_on_return s).
Definition set_ext e y s := Sched (threads s) (running s) (ready_list s) (all_list s) (idle_thread s)
  (initial_thread s) (next_tid s) (thread_ticks s) (idle_ticks s) (kernel_ticks s) (intr_on s) e y.

Definition with_status (st : thread_status) (th : thread) : thread :=
  Thread (tid th) st (name th) (stack th) (priority th) (magic th).
Definition with_tid (v : Z) (th : thread) : thread :=
  Thread v (status th) (name th) (stack th) (priority th) (magic th).
Definition with_stack (v : Z) (th : thread) : thread :=
  Thread (tid th) (status th) (name th) v (priority th) (magic th).
Definition with_priority (v : Z) (th : thread) : thread :=
  Thread (tid th) (status th) (name th) (stack th) v (magic th).

(** [t->...]: a thread structure read and written. *)
Definition get_thread (t : Z) : M sched thread := gets_opt (λ s, threads s !! t).
Definition upd_thread (t : Z) (f : thread → thread) : M sched unit :=
  _ ← get_thread t;
  modify (set_threads (alter f t)).

(** ** Interrupts *)

Definition intr_get_level : M sched bool := gets intr_on.
Definition intr_context : M sched bool := gets in_external_intr.

Definition intr_enable : M sched bool :=
  old ← intr_get_level;
  c ← intr_context;
  assert (negb c);;
  modify (set_intr true);;
  mret old.

Definition intr_disable : M sched bool :=
  old ← intr_get_level;
  modify (set_intr false);;
  mret old.

Definition intr_set_level (level : bool) : M sched bool := if level then intr_enable else intr_disable.

Definition intr_yield_on_return : M sched unit :=
  c ← intr_context;
  assert c;;
  modify (set_ext true true).

(** ** Threads *)

Definition is_thread (t : Z) : M sched bool :=
  if bool_decide (t = 0) then mret false
  else th ← get_thread t; mret (bool_decide (magic th = THREAD_MAGIC)).

Definition running_thread : M sched Z := gets running.

Definition thread_current : M sched Z :=
  t ← running_thread;
  ok ← is_thread t;
  assert ok;;
  th ← get_thread t;
  assert (bool_decide (status th = THREAD_RUNNING));;
  mret t.

Definition thread_tid : M sched Z := t ← thread_current; th ← get_thread t; mret (tid th).
Definition thread_name : M sched string := t ← thread_current; th ← get_thread t; mret (name th).

Definition thread_set_priority (new_priority : Z) : M sched unit :=
  t ← thread_current; upd_thread t (with_priority new_priority).
Definition thread_get_priority : M sched Z := t ← thread_current; th ← get_thread t; mret (priority th).

(** [memset], [strlcpy] into the 16 characters of [name], and the other fields; the
    structure occupies the page [t]. *)
Definition init_thread (t : Z) (nm : string) (prio : Z) : M sched unit :=
  assert (bool_decide (t ≠ 0));;
  assert (bool_decide (PRI_MIN ≤ prio) && bool_decide (prio ≤ PRI_MAX));;
  modify (set_threads (insert t (Thread 0 THREAD_BLOCKED (String.substring 0 15 nm) (u32 (t + PGSIZE)) prio THREAD_MAGIC)));;
  old ← intr_disable;
  modify (λ s, set_all (all_list s ++ [t]) s);;
  intr_set_level old;;
  mret tt.

Definition alloc_frame (t size : Z) : M sched unit :=
  ok ← is_thread t;
  assert ok;;
  assert (bool_decide (size `mod` 4 = 0));;
  upd_thread t (λ th, with_stack (u32 (stack th - size)) th).

Definition next_thread_to_run : M sched Z :=
  s ← get;
  match ready_list s with
  | [] => mret (idle_thread s)
  | t :: rest => modify (set_ready rest);; mret t
  end.

(** [prev] is 0 when no switch took place; the page of a dying thread is freed. *)
Definition thread_schedule_tail (prev : Z) : M sched unit :=
  cur ← running_thread;
  l ← intr_get_level;
  assert (negb l);;
  upd_thread cur (with_status THREAD_RUNNING);;
  modify (λ s, set_ticks 0 (idle_ticks s) (kernel_ticks s) s);;
  if bool_decide (prev = 0) then mret tt else
  th ← get_thread prev;
  init ← gets initial_thread;
  if bool_decide (status th = THREAD_DYING) && bool_decide (prev ≠ init) then
    assert (bool_decide (prev ≠ cur));;
    modify (set_threads (delete prev))
  else mret tt.

Definition schedule : M sched unit :=
  cur ← running_thread;
  next ← next_thread_to_run;
  l ← intr_get_level;
  assert (negb l);;
  th ← get_thread cur;
  assert (bool_decide (status th ≠ THREAD_RUNNING));;
  ok ← is_thread next;
  assert ok;;
  if bool_decide (cur ≠ next) then
    modify (set_running next);;
    thread_schedule_tail cur
  else thread_schedule_tail 0.

Definition thread_block : M sched unit :=
  c ← intr_context;
  assert (negb c);;
  l ← intr_get_level;
  assert (negb l);;
  t ← thread_current;
  upd_thread t (with_status THREAD_BLOCKED);;
  schedule.

Definition thread_unblock (t : Z) : M sched unit :=
  ok ← is_thread t;
  assert ok;;
  old ← intr_disable;
  th ← get_thread t;
  assert (bool_decide (status th = THREAD_BLOCKED));;
  modify (λ s, set_ready (ready_list s ++ [t]) s);;
  upd_thread t (with_status THREAD_READY);;
  intr_set_level old;;
  mret tt.

(** [thread_yield] up to its switch; the result is the level the thread restores when
    it runs again. *)
Definition thread_yield : M sched bool :=
  cur ← thread_current;
  c ← intr_context;
  assert (negb c);;
  old ← intr_disable;
  idle ← gets idle_thread;
  (if bool_decide (cur ≠ idle) then modify (λ s, set_ready (ready_list s ++ [cur]) s) else mret tt);;
  upd_thread cur (with_status THREAD_READY);;
  schedule;;
  mret old.

Definition thread_exit : M sched unit :=
  c ← intr_context;
  assert (negb c);;
  _ ← intr_disable;
  cur ← thread_current;
  modify (λ s, set_all (filter (λ t, t ≠ cur) (all_list s)) s);;
  upd_thread cur (with_status THREAD_DYING);;
  schedule.

Definition thread_tick : M sched unit :=
  t ← thread_current;
  s ← get;
  (if bool_decide (t = idle_thread s)
   then modify (set_ticks (thread_ticks s) (idle_ticks s + 1) (kernel_ticks s))
   else modify (set_ticks (thread_ticks s) (idle_ticks s) (kernel_ticks s + 1)));;
  modify (λ s, set_ticks (u32 (thread_ticks s + 1)) (idle_ticks s) (kernel_ticks s) s);;
  n ← gets thread_ticks;
  if bool_decide (TIME_SLICE ≤ n) then intr_yield_on_return else mret tt.

(** [intr_handler] for the timer: the processor has cleared the interrupt flag; the
    result says whether the interrupted thread yields. *)
Definition timer_interrupt : M sched bool :=
  modify (set_intr false);;
  c ← intr_context;
  assert (negb c);;
  modify (set_ext true false);;
  thread_tick;;
  y ← gets yield_on_return;
  modify (set_ext false y);;
  mret y.

(** The critical section of [allocate_tid]; [tid_lock] is taken around it. *)
Definition allocate_tid : M sched Z :=
  t ← gets next_tid;
  modify (set_next_tid (s32 (t + 1)));;
  mret t.

(** [thread_init] on the stack in page [main]. *)
Definition thread_init (main : Z) : M sched unit :=
  l ← intr_get_level;
  assert (negb l);;
  modify (set_ready []);;
  modify (set_all []);;
  modify (set_running main);;
  modify (set_initial main);;
  init_thread main "main" PRI_DEFAULT;;
  upd_thread main (with_status THREAD_RUNNING);;
  t ← allocate_tid;
  upd_thread main (with_tid t).

(** ** The invariant *)

(** The thread at [t] has the status. *)
Definition has_status (s : sched) (t : Z) (st : thread_status) : Prop := status <$> threads s !! t = Some st.

(** [sched_inv s st]: the run queue holds exactly the ready threads (the idle thread
    apart), without repetition; only the thread on the processor may be running, and
    its status is [st]; the list of all threads is the threads that are not dying, and
    a dying thread that is still allocated is the one on the processor or the initial
    one. *)
Record sched_inv (s : sched) (st : thread_status) : Prop := {
  si_running : has_status s (running s) st;
  si_unique : ∀ t, has_status s t THREAD_RUNNING → t = running s;
  si_nodup : NoDup (ready_list s);
  si_ready : ∀ t, t ∈ ready_list s ↔ t ≠ idle_thread s ∧ has_status s t THREAD_READY;
  si_magic : ∀ t th, threads s !! t = Some th → magic th = THREAD_MAGIC;
  si_null : threads s !! 0 = None;
  si_idle : idle_thread s ≠ 0 → ∃ st', has_status s (idle_thread s) st' ∧ st' ≠ THREAD_DYING;
  si_all_nodup : NoDup (all_list s);
  si_all : ∀ t, t ∈ all_list s ↔ ∃ st', has_status s t st' ∧ st' ≠ THREAD_DYING;
  si_dying : ∀ t, has_status s t THREAD_DYING → t = running s ∨ t = initial_thread s;
  si_ext : in_external_intr s = false
}.

Abbreviation sched_ok s := (sched_inv s THREAD_RUNNING).

Lemma has_status_Some s t st : has_status s t st ↔ ∃ th, threads s !! t = Some th ∧ status th = st.
Proof. unfold has_status. rewrite fmap_Some. naive_solver. Qed.

Lemma has_status_fun s t st st' : has_status s t st → has_status s t st' → st = st'.
Proof. unfold has_status. congruence. Qed.

Lemma get_thread_run s t th : threads s !! t = Some th → get_thread t s = Ret (th, s).
Proof. intros H. unfold get_thread. by apply gets_opt_Some. Qed.

Lemma upd_thread_run s t th f :
  threads s !! t = Some th → upd_thread t f s = Ret (tt, set_threads (alter f t) s).
Proof. intros H. unfold upd_thread. by run_step (get_thread_run _ _ _ H). Qed.

Lemma is_thread_run s st t th : sched_inv s st → threads s !! t = Some th → is_thread t s = Ret (true, s).
Proof.
  intros Hok H. unfold is_thread. rewrite bool_decide_eq_false_2.
  2:{ intros ->. by rewrite (si_null _ _ Hok) in H. }
  run_step (get_thread_run _ _ _ H). rewrite bool_decide_eq_true_2; [done|]. exact (si_magic _ _ Hok _ _ H).
Qed.

Lemma thread_current_run s : sched_ok s → thread_current s = Ret (running s, s).
Proof.
  intros Hok. pose proof (si_running _ _ Hok) as Hr. apply has_status_Some in Hr as (th & Ht & Hs).
  unfold thread_current. rewrite (bind_Ret _ _ _ _ _ eq_refl). run_step (is_thread_run _ _ _ _ Hok Ht).
  rewrite assert_bind by done. run_step (get_thread_run _ _ _ Ht). rewrite assert_bind by (by apply bool_decide_eq_true_2).
  done.
Qed.

(** ** Changing one status *)

Lemma status_alter s t st u v :
  has_status (set_threads (alter (with_status st) t) s) u v ↔
  if decide (u = t) then v = st ∧ ∃ w, has_status s t w else has_status s u v.
Proof.
  unfold has_status. cbn. case_decide as E.
  - subst u. rewrite lookup_alter_eq. destruct (threads s !! t) as [th|]; cbn; [|naive_solver].
    split; [intros [= <-]; eauto|]. by intros [-> _].
  - by rewrite lookup_alter_ne.
Qed.

(** Fields the change of a status leaves. *)
Lemma alter_magic s t st :
  (∀ u th, threads s !! u = Some th → magic th = THREAD_MAGIC) →
  ∀ u th, threads (set_threads (alter (with_status st) t) s) !! u = Some th → magic th = THREAD_MAGIC.
Proof.
  intros H u th. cbn. destruct (decide (u = t)) as [->|].
  - rewrite lookup_alter_eq. destruct (threads s !! t) eqn:E; cbn; [|done]. intros [= <-]. exact (H _ _ E).
  - rewrite lookup_alter_ne by done. apply H.
Qed.

Lemma alter_null s t st : threads s !! 0 = None → threads (set_threads (alter (with_status st) t) s) !! 0 = None.
Proof.
  intros H. cbn. destruct (decide (t = 0)) as [->|]; [by rewrite lookup_alter_eq, H|by rewrite lookup_alter_ne].
Qed.

(** ** Scheduling *)

(** The thread [schedule] switches to. *)
Definition next_of (s : sched) : Z := if ready_list s is t :: _ then t else idle_thread s.

Lemma next_exists s st :
  sched_inv s st → st ≠ THREAD_RUNNING → (ready_list s ≠ [] ∨ idle_thread s ≠ 0) →
  (idle_thread s = running s → st ≠ THREAD_DYING) →
  ∃ st', has_status s (next_of s) st' ∧ st' ≠ THREAD_DYING ∧ st' ≠ THREAD_RUNNING ∧
         (st' = THREAD_BLOCKED → next_of s = idle_thread s).
Proof.
  intros Hok Hst Hne Hd. unfold next_of. destruct (ready_list s) as [|t l] eqn:E.
  - destruct Hne as [|Hi]; [done|]. destruct (si_idle _ _ Hok Hi) as (st' & Hs & Hnd). exists st'.
    split_and!; [done|done| |done]. intros ->. apply (si_unique _ _ Hok) in Hs as Hr.
    rewrite Hr in Hs. by destruct (has_status_fun _ _ _ _ Hs (si_running _ _ Hok)).
  - destruct (proj1 (si_ready _ _ Hok t)) as [_ Ht]; [rewrite E; left|]. exists THREAD_READY.
    split_and!; done.
Qed.

#[export] Instance has_status_dec s t st : Decision (has_status s t st).
Proof. unfold has_status. apply _. Defined.

(** The state after a switch from a thread whose status is [st]. *)
Definition switched (s : sched) : sched :=
  let next := next_of s in
  let s1 := set_ticks 0 (idle_ticks s) (kernel_ticks s)
              (set_threads (alter (with_status THREAD_RUNNING) next) (set_running next (set_ready (tail (ready_list s)) s))) in
  if bool_decide (has_status s (running s) THREAD_DYING) && bool_decide (running s ≠ initial_thread s)
  then set_threads (delete (running s)) s1 else s1.

Lemma next_run s : next_thread_to_run s = Ret (next_of s, set_ready (tail (ready_list s)) s).
Proof.
  unfold next_thread_to_run, next_of. rewrite (bind_Ret _ _ _ s s) by done.
  destruct (ready_list s) eqn:E; [|done]. destruct s. cbn in *. by subst.
Qed.

Lemma schedule_run s st :
  sched_inv s st → st ≠ THREAD_RUNNING → intr_on s = false → (ready_list s ≠ [] ∨ idle_thread s ≠ 0) →
  (idle_thread s = running s → st ≠ THREAD_DYING) →
  schedule s = Ret (tt, switched s).
Proof.
  intros Hok Hst Hoff Hne Hd. destruct (next_exists s st Hok Hst Hne Hd) as (st' & Hn & Hnd & Hnr & _).
  pose proof Hn as Hn'. apply has_status_Some in Hn' as (nth & Hnt & Hns).
  pose proof (si_running _ _ Hok) as Hr. pose proof Hr as Hr'. apply has_status_Some in Hr' as (th & Ht & Hs).
  unfold schedule, running_thread. rewrite (bind_Ret _ _ _ _ _ eq_refl). run_step (next_run s).
  set (s0 := set_ready (tail (ready_list s)) s). unfold intr_get_level. rewrite (bind_Ret _ _ _ _ _ eq_refl).
  rewrite assert_bind by (cbn; by rewrite Hoff). run_step (get_thread_run s0 (running s) th Ht).
  rewrite assert_bind by (apply bool_decide_eq_true_2; congruence).
  assert (is_thread (next_of s) s0 = Ret (true, s0)) as Eis.
  { unfold is_thread. rewrite bool_decide_eq_false_2 by (intros E0; rewrite E0, (si_null _ _ Hok) in Hnt; done).
    run_step (get_thread_run s0 _ _ Hnt). rewrite bool_decide_eq_true_2; [done|]. exact (si_magic _ _ Hok _ _ Hnt). }
  run_step Eis. rewrite assert_bind by done. unfold switched, thread_schedule_tail, running_thread, intr_get_level.
  destruct (decide (running s = next_of s)) as [E|E].
  - rewrite (bool_decide_eq_false_2 (running s ≠ next_of s)) by (intros H; by apply H).
    rewrite !(bind_Ret _ _ _ _ _ eq_refl). rewrite assert_bind by (cbn; by rewrite Hoff).
    change (running s0) with (running s). rewrite (bind_Ret _ _ _ _ _ (upd_thread_run s0 (running s) th _ Ht)).
    rewrite (bind_Ret _ _ _ _ _ eq_refl). cbn [bool_decide decide].
    rewrite (bool_decide_eq_true_2 (0 = 0)) by done.
    rewrite (bool_decide_eq_false_2 (has_status _ _ _)). { rewrite <- E. by destruct s. }
    intros Hdy. rewrite E in Hdy. by destruct (has_status_fun _ _ _ _ Hdy Hn).
  - rewrite (bool_decide_eq_true_2 (running s ≠ next_of s)) by done.
    rewrite !(bind_Ret _ _ _ _ _ eq_refl). rewrite assert_bind by (cbn; by rewrite Hoff).
    rewrite (bind_Ret _ _ _ _ _ (upd_thread_run (set_running (next_of s) s0) (next_of s) nth _ Hnt)).
    rewrite (bind_Ret _ _ _ _ _ eq_refl).
    assert (running s ≠ 0) as H0 by (intros E0; rewrite E0, (si_null _ _ Hok) in Ht; done).
    rewrite (bool_decide_eq_false_2 (running s = 0)) by done.
    set (s1 := set_ticks _ _ _ _).
    assert (threads s1 !! running s = Some th) as Ht1 by (cbn; by rewrite lookup_alter_ne).
    run_step (get_thread_run s1 _ _ Ht1). rewrite (bind_Ret _ _ _ _ _ eq_refl). change (initial_thread s1) with (initial_thread s).
    assert (bool_decide (status th = THREAD_DYING) = bool_decide (has_status s (running s) THREAD_DYING)) as ->.
    { apply bool_decide_ext. unfold has_status. rewrite Ht. cbn. split; [by intros ->|by intros [= ->]]. }
    destruct (bool_decide (has_status _ _ _) && _) eqn:Eb; [|done].
    rewrite assert_bind by (by apply bool_decide_eq_true_2). done.
Qed.

Lemma switched_status s u v :
  (∃ w, has_status s (next_of s) w ∧ w ≠ THREAD_DYING) →
  has_status (switched s) u v ↔
  if decide (u = next_of s) then v = THREAD_RUNNING
  else has_status s u v ∧ ¬ (u = running s ∧ v = THREAD_DYING ∧ u ≠ initial_thread s).
Proof.
  intros (w & Hw & Hnd). set (s0 := set_running (next_of s) (set_ready (tail (ready_list s)) s)).
  pose proof (status_alter s0 (next_of s) THREAD_RUNNING u v) as Ha.
  change (has_status s0 ?x ?y) with (has_status s x y) in Ha. unfold switched.
  destruct (bool_decide (has_status s (running s) THREAD_DYING) && _) eqn:Eb.
  - rewrite andb_true_iff, !bool_decide_eq_true in Eb. destruct Eb as [Hdy Hin].
    assert (next_of s ≠ running s) as Hne by (intros E; rewrite E in Hw; by destruct (has_status_fun _ _ _ _ Hdy Hw)).
    unfold has_status in Ha |- *. cbn in Ha |- *. destruct (decide (u = running s)) as [->|Hu].
    + rewrite lookup_delete_eq, decide_False by done. split; [done|]. intros [Hs Hc].
      destruct Hc. split_and!; [done| |done]. unfold has_status in Hdy. congruence.
    + rewrite lookup_delete_ne, Ha by done. case_decide; [|naive_solver]. split; [by intros [? _]|]. intros ->. split; [done|].
      by exists w.
  - etransitivity; [exact Ha|]. case_decide as E; [split; [by intros [? _]|]; intros ->; split; [done|by exists w]|].
    split; [|by intros [? _]]. intros Hs. split; [done|]. intros (-> & -> & Hi).
    rewrite (bool_decide_eq_true_2 _ Hs), (bool_decide_eq_true_2 _ Hi) in Eb. done.
Qed.

Lemma switched_magic s :
  (∀ u th, threads s !! u = Some th → magic th = THREAD_MAGIC) → threads s !! 0 = None →
  (∀ u th, threads (switched s) !! u = Some th → magic th = THREAD_MAGIC) ∧ threads (switched s) !! 0 = None.
Proof.
  intros Hm H0. set (s0 := set_running (next_of s) (set_ready (tail (ready_list s)) s)).
  pose proof (alter_magic s0 (next_of s) THREAD_RUNNING Hm) as Ha. pose proof (alter_null s0 (next_of s) THREAD_RUNNING H0) as Hn.
  unfold switched. destruct (_ && _); [|done]. split.
  - intros u th. cbn. intros [_ H]%lookup_delete_Some. exact (Ha _ _ H).
  - cbn. apply lookup_delete_None. by right.
Qed.

Lemma switched_fields s :
  running (switched s) = next_of s ∧ ready_list (switched s) = tail (ready_list s) ∧ all_list (switched s) = all_list s ∧
  idle_thread (switched s) = idle_thread s ∧ initial_thread (switched s) = initial_thread s ∧ intr_on (switched s) = intr_on s ∧
  in_external_intr (switched s) = in_external_intr s ∧ next_tid (switched s) = next_tid s.
Proof. unfold switched. by destruct (_ && _). Qed.

Lemma switched_ok s st :
  sched_inv s st → st ≠ THREAD_RUNNING → (ready_list s ≠ [] ∨ idle_thread s ≠ 0) →
  (idle_thread s = running s → st ≠ THREAD_DYING) → sched_ok (switched s).
Proof.
  intros Hok Hst Hne Hd. destruct (next_exists s st Hok Hst Hne Hd) as (w & Hw & Hwd & Hwr & Hwb).
  pose proof (λ u v, switched_status s u v (ex_intro _ w (conj Hw Hwd))) as Hs.
  destruct (switched_magic s (si_magic _ _ Hok) (si_null _ _ Hok)) as [Hm H0].
  destruct (switched_fields s) as (F1 & F2 & F3 & F4 & F5 & F6 & F7 & F8).
  split; rewrite ?F1, ?F2, ?F3, ?F4, ?F5, ?F7; try done.
  - apply Hs. by rewrite decide_True.
  - intros t Ht. apply Hs in Ht. case_decide; [done|]. destruct Ht as [Ht _].
    pose proof (si_unique _ _ Hok t Ht) as ->.
    destruct Hst. exact (has_status_fun _ _ _ _ (si_running _ _ Hok) Ht).
  - pose proof (si_nodup _ _ Hok) as Hnd. destruct (ready_list s); [done|]. by apply NoDup_cons in Hnd as [_ ?].
  - intros t. rewrite Hs. pose proof (si_nodup _ _ Hok) as Hnd. pose proof (si_ready _ _ Hok t) as Hrt.
    unfold next_of in *. destruct (ready_list s) as [|x l] eqn:El; cbn [tail].
    + split; [by intros ?%elem_of_nil|]. intros [Hi Hx]. case_decide; [done|].
      apply Hrt. tauto.
    + rewrite elem_of_cons in Hrt. apply NoDup_cons in Hnd as [Hx _]. case_decide as E.
      * subst t. naive_solver.
      * split; [intros Hin; split; [|split; [|naive_solver]]; naive_solver|].
        intros [Hi [Hx' _]]. destruct (proj2 Hrt (conj Hi Hx')); [done|done].
  - intros Hi. destruct (decide (idle_thread s = next_of s)) as [E|E].
    + exists THREAD_RUNNING. split; [|done]. apply Hs. by rewrite decide_True.
    + destruct (si_idle _ _ Hok Hi) as (v & Hv & Hvd). exists v. split; [|done]. apply Hs.
      rewrite decide_False by done. split; [done|]. naive_solver.
  - apply Hok.
  - intros t. rewrite (si_all _ _ Hok). destruct (decide (t = next_of s)) as [->|E].
    + split; [intros _; exists THREAD_RUNNING; split; [|done]; apply Hs; by rewrite decide_True|eauto].
    + split; intros (v & Hv & Hvd); exists v; (split; [|done]).
      * apply Hs. rewrite decide_False by done. split; [done|]. naive_solver.
      * apply Hs in Hv. rewrite decide_False in Hv by done. by destruct Hv.
  - intros t Ht. apply Hs in Ht. case_decide; [done|]. destruct Ht as [Ht Hn].
    destruct (si_dying _ _ Hok t Ht) as [->|?]; [|by right]. right.
    destruct (decide (running s = initial_thread s)); [done|]. by destruct Hn.
  - apply Hok.
Qed.

(** ** Leaving the processor *)

(** The running thread gives up the processor with status [st]. *)
Definition left_as (st : thread_status) (s : sched) : sched :=
  let cur := running s in
  set_threads (alter (with_status st) cur)
    (set_all (if decide (st = THREAD_DYING) then filter (λ t, t ≠ cur) (all_list s) else all_list s)
      (set_ready (if decide (st = THREAD_READY ∧ cur ≠ idle_thread s) then ready_list s ++ [cur] else ready_list s) s)).

Definition departs (st : thread_status) (s : sched) : sched := switched (left_as st s).

Lemma left_as_status st s u v :
  sched_ok s → has_status (left_as st s) u v ↔ if decide (u = running s) then v = st else has_status s u v.
Proof.
  intros Hok. unfold left_as. set (s0 := set_all _ _). pose proof (status_alter s0 (running s) st u v) as Ha.
  etransitivity; [exact Ha|]. case_decide; [|done]. split; [by intros [? _]|]. intros ->. split; [done|].
  exists THREAD_RUNNING. exact (si_running _ _ Hok).
Qed.

Lemma left_as_inv st s :
  sched_ok s → st ≠ THREAD_RUNNING → (st = THREAD_DYING → running s ≠ idle_thread s) → sched_inv (left_as st s) st.
Proof.
  intros Hok Hst Hd. pose proof (λ u v, left_as_status st s u v Hok) as Hs.
  assert (∀ st', st' ≠ THREAD_RUNNING → ¬ has_status s (running s) st') as Hnr.
  { intros st' Hne H. by destruct (has_status_fun _ _ _ _ H (si_running _ _ Hok)). }
  assert (running s ∉ ready_list s) as Hnin.
  { intros [_ H]%(si_ready _ _ Hok). by apply Hnr in H. }
  split.
  - apply Hs. by rewrite decide_True.
  - intros t Ht. apply Hs in Ht. case_decide; [done|]. by apply (si_unique _ _ Hok).
  - cbn. case_decide; [|apply Hok]. apply NoDup_app. split_and!; [apply Hok| |apply NoDup_singleton].
    intros x Hx ->%list_elem_of_singleton. done.
  - intros t. rewrite Hs. change (idle_thread (left_as st s)) with (idle_thread s). cbn [ready_list left_as set_threads set_all set_ready].
    pose proof (si_ready _ _ Hok t) as Hr. destruct (decide (t = running s)) as [->|Ht].
    + case_decide as Hc; [rewrite elem_of_app, list_elem_of_singleton|]; destruct st; naive_solver.
    + case_decide; [rewrite elem_of_app, list_elem_of_singleton|]; naive_solver.
  - apply (alter_magic s). apply Hok.
  - apply (alter_null s). apply Hok.
  - intros Hi. destruct (si_idle _ _ Hok Hi) as (v & Hv & Hvd).
    change (idle_thread (left_as st s)) with (idle_thread s). destruct (decide (idle_thread s = running s)) as [E|E].
    + exists st. split; [apply Hs; by rewrite decide_True|]. intros ->. by apply Hd.
    + exists v. split; [|done]. apply Hs. by rewrite decide_False.
  - cbn. case_decide; [apply NoDup_filter|]; apply Hok.
  - intros t. cbn [all_list left_as set_threads set_all set_ready]. pose proof (si_all _ _ Hok t) as Ha.
    destruct (decide (t = running s)) as [->|Ht].
    + case_decide as Hc.
      * rewrite list_elem_of_filter. split; [by intros [? _]|]. intros (v & Hv & Hvd). apply Hs in Hv.
        rewrite decide_True in Hv by done. congruence.
      * split; [|intros _; apply Ha; exists THREAD_RUNNING; split; [apply Hok|done]].
        intros _. exists st. split; [|done]. apply Hs. by rewrite decide_True.
    + assert (t ∈ (if decide (st = THREAD_DYING) then filter (λ t, t ≠ running s) (all_list s) else all_list s) ↔ t ∈ all_list s) as ->
        by (case_decide; [rewrite list_elem_of_filter|]; naive_solver).
      rewrite Ha. apply exist_proper. intros v. rewrite Hs, decide_False by done. done.
  - intros t Ht. apply Hs in Ht. case_decide; [by left|]. by apply (si_dying _ _ Hok) in Ht.
  - apply Hok.
Qed.

(** There is a thread to switch to. *)
Definition can_switch (st : thread_status) (s : sched) : Prop :=
  ready_list s ≠ [] ∨ idle_thread s ≠ 0 ∨ st = THREAD_READY.

Lemma left_as_next st s :
  sched_ok s → can_switch st s → ready_list (left_as st s) ≠ [] ∨ idle_thread (left_as st s) ≠ 0.
Proof.
  intros Hok [Hr|[Hi| ->]].
  - left. cbn. case_decide; [|done]. by destruct (ready_list s).
  - by right.
  - cbn. destruct (decide (running s = idle_thread s)) as [E|E].
    + right. rewrite <- E. pose proof (si_running _ _ Hok) as H. intros E0. unfold has_status in H.
      by rewrite E0, (si_null _ _ Hok) in H.
    + left. rewrite decide_True by done. by destruct (ready_list s).
Qed.

Lemma departs_ok st s :
  sched_ok s → st ≠ THREAD_RUNNING → can_switch st s → (st = THREAD_DYING → running s ≠ idle_thread s) →
  sched_ok (departs st s).
Proof.
  intros Hok Hst Hc Hd. pose proof (left_as_inv st s Hok Hst Hd) as Hinv.
  apply (switched_ok _ st Hinv Hst (left_as_next st s Hok Hc)). intros E ->. by apply Hd.
Qed.

(** What the other threads see of the switch. *)
Lemma departs_status st s u v :
  sched_ok s → st ≠ THREAD_RUNNING → can_switch st s → (st = THREAD_DYING → running s ≠ idle_thread s) →
  has_status (departs st s) u v ↔
  if decide (u = running (departs st s)) then v = THREAD_RUNNING
  else if decide (u = running s) then v = st ∧ (st = THREAD_DYING → u = initial_thread s) else has_status s u v.
Proof.
  intros Hok Hst Hc Hd. pose proof (left_as_inv st s Hok Hst Hd) as Hinv.
  assert (idle_thread (left_as st s) = running (left_as st s) → st ≠ THREAD_DYING) as Hd'
    by (intros E ->; by apply Hd).
  destruct (next_exists _ st Hinv Hst (left_as_next st s Hok Hc) Hd') as (w & Hw & Hwd & _).
  unfold departs. rewrite switched_status by eauto. destruct (switched_fields (left_as st s)) as (-> & _).
  case_decide; [done|]. rewrite left_as_status by done. change (running (left_as st s)) with (running s).
  change (initial_thread (left_as st s)) with (initial_thread s). case_decide as Hu.
  - subst u. split.
    + intros [-> Hn]. split; [done|]. intros ->. destruct (decide (running s = initial_thread s)); [done|]. by destruct Hn.
    + intros [-> Hi]. split; [done|]. intros (_ & -> & H'). by apply H', Hi.
  - naive_solver.
Qed.

Lemma set_ready_id s : set_ready (ready_list s) s = s.
Proof. by destruct s. Qed.
Lemma set_all_id s : set_all (all_list s) s = s.
Proof. by destruct s. Qed.

Lemma departs_schedule st s :
  sched_ok s → st ≠ THREAD_RUNNING → intr_on s = false → can_switch st s →
  (st = THREAD_DYING → running s ≠ idle_thread s) → schedule (left_as st s) = Ret (tt, departs st s).
Proof.
  intros Hok Hst Hoff Hc Hd. apply (schedule_run _ st); [by apply left_as_inv|done|done|by apply left_as_next|].
  intros E ->. by apply Hd.
Qed.

(** ** The calls that switch *)

Lemma thread_block_run s :
  sched_ok s → intr_on s = false → can_switch THREAD_BLOCKED s → thread_block s = Ret (tt, departs THREAD_BLOCKED s).
Proof.
  intros Hok Hoff Hc. unfold thread_block, intr_context, intr_get_level.
  rewrite (bind_Ret _ _ _ _ _ eq_refl), assert_bind by (by rewrite (si_ext _ _ Hok)).
  rewrite (bind_Ret _ _ _ _ _ eq_refl), assert_bind by (by rewrite Hoff).
  run_step (thread_current_run s Hok). pose proof (si_running _ _ Hok) as Hr. apply has_status_Some in Hr as (th & Ht & _).
  run_step (upd_thread_run s _ _ (with_status THREAD_BLOCKED) Ht).
  rewrite <- (departs_schedule THREAD_BLOCKED s) by done. unfold left_as.
  rewrite (decide_False (P := THREAD_BLOCKED = THREAD_DYING)) by done.
  rewrite decide_False by (by intros [? _]). by rewrite set_ready_id, set_all_id.
Qed.

Lemma set_intr_ok b s st : sched_inv s st → sched_inv (set_intr b s) st.
Proof. by intros []. Qed.

Lemma thread_yield_run s :
  sched_ok s → thread_yield s = Ret (intr_on s, departs THREAD_READY (set_intr false s)).
Proof.
  intros Hok. unfold thread_yield, intr_context, intr_disable, intr_get_level. run_step (thread_current_run s Hok).
  rewrite (bind_Ret _ _ _ _ _ eq_refl), assert_bind by (by rewrite (si_ext _ _ Hok)).
  rewrite (bind_Ret _ _ _ (intr_on s) (set_intr false s)) by done. set (s0 := set_intr false s).
  rewrite (bind_Ret _ _ _ (idle_thread s0) s0) by done.
  assert (sched_ok s0) as Hok0 by (by apply set_intr_ok). pose proof (si_running _ _ Hok) as Hr.
  apply has_status_Some in Hr as (th & Ht & _).
  change (idle_thread s0) with (idle_thread s).
  destruct (decide (running s = idle_thread s)) as [E|E].
  - rewrite (bool_decide_eq_false_2 (running s ≠ idle_thread s)) by (intros H; by apply H). rewrite ret_bind.
    run_step (upd_thread_run s0 _ _ (with_status THREAD_READY) Ht).
    rewrite (bind_Ret _ _ _ tt (departs THREAD_READY s0)); [done|].
    rewrite <- (departs_schedule THREAD_READY s0) by (done || (by right; right)). unfold left_as.
    rewrite (decide_False (P := THREAD_READY = THREAD_DYING)) by done. rewrite decide_False by (by intros [_ ?]).
    by rewrite set_ready_id, set_all_id.
  - rewrite (bool_decide_eq_true_2 (running s ≠ idle_thread s)) by done. rewrite (bind_Ret _ _ _ _ _ eq_refl).
    run_step (upd_thread_run (set_ready (ready_list s0 ++ [running s]) s0) _ _ (with_status THREAD_READY) Ht).
    rewrite (bind_Ret _ _ _ tt (departs THREAD_READY s0)); [done|].
    rewrite <- (departs_schedule THREAD_READY s0) by (done || (by right; right)). unfold left_as.
    rewrite (decide_False (P := THREAD_READY = THREAD_DYING)) by done. rewrite decide_True by done. done.
Qed.

Lemma thread_exit_run s :
  sched_ok s → running s ≠ idle_thread s → can_switch THREAD_DYING s →
  thread_exit s = Ret (tt, departs THREAD_DYING (set_intr false s)).
Proof.
  intros Hok Hni Hc. unfold thread_exit, intr_context, intr_disable, intr_get_level.
  rewrite (bind_Ret _ _ _ _ _ eq_refl), assert_bind by (by rewrite (si_ext _ _ Hok)).
  rewrite (bind_Ret _ _ _ (intr_on s) (set_intr false s)) by done. set (s0 := set_intr false s). assert (sched_ok s0) as Hok0 by (by apply set_intr_ok).
  run_step (thread_current_run s0 Hok0). rewrite (bind_Ret _ _ _ _ _ eq_refl).
  pose proof (si_running _ _ Hok) as Hr. apply has_status_Some in Hr as (th & Ht & _). change (running s0) with (running s).
  run_step (upd_thread_run (set_all (filter (λ t, t ≠ running s) (all_list s0)) s0) _ _ (with_status THREAD_DYING) Ht).
  rewrite <- (departs_schedule THREAD_DYING s0) by done. unfold left_as.
  rewrite (decide_True (P := THREAD_DYING = THREAD_DYING)) by done. rewrite decide_False by (by intros [? _]).
  by rewrite set_ready_id.
Qed.

(** ** Calls that do not switch *)

(** The states agree on everything but counters and the interrupt flag. *)
Record same_sched (s s' : sched) : Prop := {
  ss_threads : threads s' = threads s;
  ss_running : running s' = running s;
  ss_ready : ready_list s' = ready_list s;
  ss_all : all_list s' = all_list s;
  ss_idle : idle_thread s' = idle_thread s;
  ss_initial : initial_thread s' = initial_thread s;
  ss_ext : in_external_intr s' = in_external_intr s
}.

Lemma same_sched_inv s s' st : same_sched s s' → sched_inv s st → sched_inv s' st.
Proof.
  intros [H1 H2 H3 H4 H5 H6 H7] []. split; unfold has_status in *; by rewrite ?H1, ?H2, ?H3, ?H4, ?H5, ?H6, ?H7.
Qed.

Lemma intr_disable_run s : intr_disable s = Ret (intr_on s, set_intr false s).
Proof. done. Qed.

Lemma intr_set_level_run s b :
  in_external_intr s = false → intr_set_level b s = Ret (intr_on s, set_intr b s).
Proof.
  intros H. destruct b; [|done]. unfold intr_set_level, intr_enable, intr_get_level, intr_context.
  rewrite !(bind_Ret _ _ _ _ _ eq_refl). rewrite assert_bind by (by rewrite H). done.
Qed.

Lemma set_intr_same b s : same_sched s (set_intr b s).
Proof. done. Qed.

(** [thread_unblock]. *)
Definition woken (t : Z) (s : sched) : sched :=
  set_threads (alter (with_status THREAD_READY) t) (set_ready (ready_list s ++ [t]) s).

Lemma woken_status t s u v :
  has_status s t THREAD_BLOCKED →
  has_status (woken t s) u v ↔ if decide (u = t) then v = THREAD_READY else has_status s u v.
Proof.
  intros Ht. pose proof (status_alter (set_ready (ready_list s ++ [t]) s) t THREAD_READY u v) as Ha.
  etransitivity; [exact Ha|]. case_decide; [|done]. split; [by intros [? _]|]. intros ->. split; [done|]. by exists THREAD_BLOCKED.
Qed.

Lemma woken_ok t s :
  sched_ok s → has_status s t THREAD_BLOCKED → t ≠ idle_thread s → sched_ok (woken t s).
Proof.
  intros Hok Ht Hi. pose proof (λ u v, woken_status t s u v Ht) as Hs.
  assert (running s ≠ t) as Hr.
  { intros <-. by pose proof (has_status_fun _ _ _ _ Ht (si_running _ _ Hok)). }
  assert (t ∉ ready_list s) as Hnin.
  { intros [_ H]%(si_ready _ _ Hok). by pose proof (has_status_fun _ _ _ _ Ht H). }
  assert (∀ v, v ≠ THREAD_DYING → ∀ u, (∃ w, has_status s u w ∧ w ≠ THREAD_DYING) ↔
               (∃ w, has_status (woken t s) u w ∧ w ≠ THREAD_DYING)) as Hnd.
  { intros _ _ u. destruct (decide (u = t)) as [->|Hu].
    - split; intros _; [exists THREAD_READY|exists THREAD_BLOCKED]; (split; [|done]); [|done].
      apply Hs. by rewrite decide_True.
    - apply exist_proper. intros w. rewrite Hs, decide_False by done. done. }
  split; change (running (woken t s)) with (running s); change (idle_thread (woken t s)) with (idle_thread s);
    change (initial_thread (woken t s)) with (initial_thread s).
  - apply Hs. rewrite decide_False by done. apply Hok.
  - intros u Hu. apply Hs in Hu. case_decide; [done|]. by apply (si_unique _ _ Hok).
  - cbn. apply NoDup_app. split_and!; [apply Hok| |apply NoDup_singleton]. intros x Hx ->%list_elem_of_singleton. done.
  - intros u. cbn [ready_list woken set_threads set_ready]. rewrite Hs, elem_of_app, list_elem_of_singleton, (si_ready _ _ Hok).
    case_decide; naive_solver.
  - apply (alter_magic s). apply Hok.
  - apply (alter_null s). apply Hok.
  - intros H0. apply (Hnd THREAD_READY); [done|]. by apply (si_idle _ _ Hok).
  - apply Hok.
  - intros u. rewrite <- (Hnd THREAD_READY) by done. apply Hok.
  - intros u Hu. apply Hs in Hu. case_decide; [done|]. by apply (si_dying _ _ Hok).
  - apply Hok.
Qed.

Lemma thread_unblock_run s st t :
  sched_inv s st → has_status s t THREAD_BLOCKED → thread_unblock t s = Ret (tt, woken t s).
Proof.
  intros Hok Ht. pose proof Ht as Ht'. apply has_status_Some in Ht' as (th & Hl & Hs). unfold thread_unblock.
  run_step (is_thread_run _ _ _ _ Hok Hl). rewrite assert_bind by done. run_step (intr_disable_run s).
  run_step (get_thread_run (set_intr false s) _ _ Hl). rewrite assert_bind by (by apply bool_decide_eq_true_2).
  rewrite (bind_Ret _ _ _ _ _ eq_refl).
  rewrite (bind_Ret _ _ _ _ _ (upd_thread_run (set_ready _ (set_intr false s)) t th _ Hl)).
  set (s2 := set_threads _ _). rewrite (bind_Ret _ _ s2 _ _ (intr_set_level_run s2 (intr_on s) (si_ext _ _ Hok))).
  by destruct s.
Qed.

(** A new thread in a free page. *)
Definition new_thread (t : Z) (nm : string) (prio : Z) : thread :=
  Thread 0 THREAD_BLOCKED (String.substring 0 15 nm) (u32 (t + PGSIZE)) prio THREAD_MAGIC.

Definition born (t : Z) (th : thread) (s : sched) : sched :=
  set_all (all_list s ++ [t]) (set_threads (insert t th) s).

Lemma init_thread_run s st t nm prio :
  sched_inv s st → t ≠ 0 → PRI_MIN ≤ prio ≤ PRI_MAX →
  init_thread t nm prio s = Ret (tt, born t (new_thread t nm prio) s).
Proof.
  intros Hok H0 Hp. unfold init_thread. rewrite assert_bind by (by apply bool_decide_eq_true_2).
  rewrite assert_bind by (rewrite andb_true_iff, !bool_decide_eq_true; lia).
  rewrite (bind_Ret _ _ _ _ _ eq_refl), (bind_Ret _ _ _ _ _ (intr_disable_run _)), (bind_Ret _ _ _ _ _ eq_refl).
  set (s2 := set_all _ _). rewrite (bind_Ret _ _ s2 _ _ (intr_set_level_run s2 _ (si_ext _ _ Hok))).
  by destruct s.
Qed.

Lemma born_status t th s u v :
  has_status (born t th s) u v ↔ if decide (u = t) then v = status th else has_status s u v.
Proof.
  unfold has_status. cbn. case_decide as E; [subst; rewrite lookup_insert_eq; cbn; naive_solver|].
  by rewrite lookup_insert_ne.
Qed.

Lemma born_ok t th s :
  sched_ok s → threads s !! t = None → t ≠ 0 → status th = THREAD_BLOCKED → magic th = THREAD_MAGIC → sched_ok (born t th s).
Proof.
  intros Hok Hf H0 Hst Hm. pose proof (λ u v, born_status t th s u v) as Hs. rewrite Hst in Hs.
  assert (∀ v, ¬ has_status s t v) as Hno by (intros v H; unfold has_status in H; by rewrite Hf in H).
  assert (∀ u v, has_status s u v → u ≠ t) as Hne by (intros u v H ->; by apply (Hno v)).
  split; change (running (born t th s)) with (running s); change (idle_thread (born t th s)) with (idle_thread s);
    change (initial_thread (born t th s)) with (initial_thread s); change (ready_list (born t th s)) with (ready_list s).
  - apply Hs. rewrite decide_False; [apply Hok|]. exact (Hne _ _ (si_running _ _ Hok)).
  - intros u Hu. apply Hs in Hu. case_decide; [done|]. by apply (si_unique _ _ Hok).
  - apply Hok.
  - intros u. rewrite Hs, (si_ready _ _ Hok). case_decide; [subst; split; [intros [_ H]; by apply Hno in H|by intros [_ ?]]|done].
  - intros u x. cbn. rewrite lookup_insert_Some. intros [[-> <-]|[_ H]]; [done|]. exact (si_magic _ _ Hok _ _ H).
  - cbn. rewrite lookup_insert_ne by done. apply Hok.
  - intros Hi. destruct (si_idle _ _ Hok Hi) as (v & Hv & Hvd). exists v. split; [|done]. apply Hs.
    rewrite decide_False; [done|]. exact (Hne _ _ Hv).
  - cbn. apply NoDup_app. split_and!; [apply Hok| |apply NoDup_singleton]. intros x Hx ->%list_elem_of_singleton.
    apply (si_all _ _ Hok) in Hx as (v & Hv & _). by apply Hno in Hv.
  - intros u. cbn [all_list born set_all set_threads]. rewrite elem_of_app, list_elem_of_singleton, (si_all _ _ Hok).
    destruct (decide (u = t)) as [->|Hu].
    + split; [intros _; exists THREAD_BLOCKED; split; [|done]; apply Hs; by rewrite decide_True|by right].
    + split; [intros [(v & Hv & Hvd)|]; [|done]|intros (v & Hv & Hvd); left]; exists v; (split; [|done]).
      * apply Hs. by rewrite decide_False.
      * apply Hs in Hv. by rewrite decide_False in Hv.
  - intros u Hu. apply Hs in Hu. case_decide; [done|]. by apply (si_dying _ _ Hok).
  - apply Hok.
Qed.

(** Fields other than the status and the magic number. *)
Lemma harmless_status f t s u v :
  (∀ th, status (f th) = status th) →
  has_status (set_threads (alter f t) s) u v ↔ has_status s u v.
Proof.
  intros Hf. unfold has_status. cbn. destruct (decide (u = t)) as [->|].
  - rewrite lookup_alter_eq. destruct (threads s !! t); cbn; [by rewrite Hf|done].
  - by rewrite lookup_alter_ne.
Qed.

Lemma harmless_ok f t s st :
  (∀ th, status (f th) = status th ∧ magic (f th) = magic th) →
  sched_inv s st → sched_inv (set_threads (alter f t) s) st.
Proof.
  intros Hf Hok. pose proof (λ u v, harmless_status f t s u v (λ th, proj1 (Hf th))) as Hs.
  split; cbn [running idle_thread initial_thread ready_list all_list set_threads in_external_intr].
  - apply Hs. apply Hok.
  - intros u Hu. apply (si_unique _ _ Hok). by apply Hs.
  - apply Hok.
  - intros u. rewrite Hs. apply Hok.
  - intros u th. cbn. destruct (decide (u = t)) as [->|].
    + rewrite lookup_alter_eq. destruct (threads s !! t) eqn:E; cbn; [|done]. intros [= <-].
      rewrite (proj2 (Hf _)). exact (si_magic _ _ Hok _ _ E).
    + rewrite lookup_alter_ne by done. apply Hok.
  - cbn. destruct (decide (t = 0)) as [->|]; [by rewrite lookup_alter_eq, (si_null _ _ Hok)|].
    rewrite lookup_alter_ne by done. apply Hok.
  - intros H0. destruct (si_idle _ _ Hok H0) as (v & Hv & Hd). exists v. by rewrite Hs.
  - apply Hok.
  - intros u. rewrite (si_all _ _ Hok). apply exist_proper. intros v. by rewrite Hs.
  - intros u Hu. apply (si_dying _ _ Hok). by apply Hs.
  - apply Hok.
Qed.

(** The timer interrupt only counts. *)
Lemma timer_interrupt_run s :
  sched_ok s → ∃ y s', timer_interrupt s = Ret (y, s') ∧ same_sched s s' ∧ intr_on s' = false.
Proof.
  intros Hok. unfold timer_interrupt. rewrite (bind_Ret _ _ _ _ _ eq_refl). unfold intr_context.
  rewrite (bind_Ret _ _ _ _ _ eq_refl), assert_bind by (cbn; by rewrite (si_ext _ _ Hok)).
  rewrite (bind_Ret _ _ _ _ _ eq_refl). set (s0 := set_ext true false (set_intr false s)).
  assert (thread_current s0 = Ret (running s0, s0)) as Ec.
  { pose proof (si_running _ _ Hok) as Hr. apply has_status_Some in Hr as (th & Ht & Hs).
    unfold thread_current, running_thread. rewrite (bind_Ret _ _ _ _ _ eq_refl).
    assert (is_thread (running s0) s0 = Ret (true, s0)) as Ei.
    { unfold is_thread. rewrite bool_decide_eq_false_2 by (intros E; cbn in E; rewrite E, (si_null _ _ Hok) in Ht; done).
      run_step (get_thread_run s0 _ _ Ht). rewrite bool_decide_eq_true_2; [done|]. exact (si_magic _ _ Hok _ _ Ht). }
    run_step Ei. rewrite assert_bind by done. run_step (get_thread_run s0 _ _ Ht). by rewrite assert_bind by (by apply bool_decide_eq_true_2). }
  unfold thread_tick. rewrite bind_assoc. run_step Ec. rewrite bind_assoc, (bind_Ret _ _ _ s0 s0) by done.
  pose proof (si_ext _ _ Hok) as He.
  case_bool_decide; rewrite bind_assoc, (bind_Ret _ _ _ _ _ eq_refl), bind_assoc, (bind_Ret _ _ _ _ _ eq_refl),
    bind_assoc, (bind_Ret _ _ _ _ _ eq_refl); case_bool_decide;
    (eexists _, _; split; [reflexivity|split; [by split|done]]).
Qed.
