(* ===== verification/Synch.v ===== *)
(** * Synch: semaphores, locks and condition variables ([pintos/src/threads/synch.c]),
      and the kernel as a machine of threads

    A thread that is inside a kernel call has a stack of frames: the parts of the calls
    that are still to run, cut where interrupts are enabled (another thread may run
    there) and where the thread is switched away from.  A frame runs without
    interruption.  A thread with an empty stack is in its own code, which may make any
    call.  The timer may interrupt whenever the interrupt flag is set. *)

From S2P Require Import Prelude Vaddr Thread.

(** Semaphores: those of the kernel's clients, that of a lock, and the one a thread
    waits on inside [cond_wait]. *)
Inductive sid := SId (n : Z) | SLock (l : Z) | SWait (t : Z).

#[export] Instance sid_eq_dec : EqDecision sid.
Proof. solve_decision. Defined.

#[export] Instance sid_countable : Countable sid.
Proof.
  refine (inj_countable' (λ m, match m with SId n => (0, n) | SLock l => (1, l) | SWait t => (2, t) end)
            (λ p, match p with (0, n) => SId n | (1, l) => SLock l | (_, t) => SWait t end) _).
  by intros [].
Defined.

(** [struct semaphore]. *)
Record sema := Sema { value : Z; waiters : list Z }.

Inductive frame :=
| FSetLevel (level : bool)
| FIret
| FSemaDown (m : sid) (k : list frame)
| FSemaLoop (m : sid) (old : bool) (k : list frame)
| FSemaTryDown (m : sid) (k : list frame)
| FSemaUp (m : sid)
| FLockAcquire (l : Z)
| FLockTryAcquire (l : Z)
| FSetHolder (l : Z)
| FLockRelease (l : Z)
| FCondWait (c l : Z)
| FCondSignal (c l : Z)
| FCondBroadcast (c l : Z)
| FCreate (nm : string) (prio : Z) (entry : list frame)
| FTid
| FCreateTail (t : Z) (entry : list frame)
| FKernelThread
| FYield
| FExit
| FIdle (started : sid)
| FIdleLoop
| FIdleResume.

(** [holders] and [conds] are the locks' [holder] and the condition variables'
    [waiters]; [rets] is the value the last call of a thread returned. *)
Record kernel := Kernel {
  sc : sched;
  semas : gmap sid sema;
  holders : gmap Z Z;
  conds : gmap Z (list Z);
  stacks : gmap Z (list frame);
  rets : gmap Z Z
}.

Definition set_sc v s := Kernel v (semas s) (holders s) (conds s) (stacks s) (rets s).
Definition set_semas v s := Kernel (sc s) v (holders s) (conds s) (stacks s) (rets s).
Definition set_holders v s := Kernel (sc s) (semas s) v (conds s) (stacks s) (rets s).
Definition set_conds v s := Kernel (sc s) (semas s) (holders s) v (stacks s) (rets s).
Definition set_stacks v s := Kernel (sc s) (semas s) (holders s) (conds s) v (rets s).
Definition set_rets v s := Kernel (sc s) (semas s) (holders s) (conds s) (stacks s) v.

Definition lift {A} (m : M sched A) : M kernel A := λ s,
  match m (sc s) with
  | Ret (a, v) => Ret (a, set_sc v s)
  | Crash => Crash
  | NoFuel => NoFuel
  end.

Definition get_sema (m : sid) : M kernel sema := gets_opt (λ s, semas s !! m).
Definition put_sema (m : sid) (v : sema) : M kernel unit := modify (λ s, set_semas (<[m := v]> (semas s)) s).
Definition get_holder (l : Z) : M kernel Z := gets_opt (λ s, holders s !! l).
Definition put_holder (l t : Z) : M kernel unit := modify (λ s, set_holders (<[l := t]> (holders s)) s).
Definition get_cond (c : Z) : M kernel (list Z) := gets_opt (λ s, conds s !! c).
Definition put_cond (c : Z) (ws : list Z) : M kernel unit := modify (λ s, set_conds (<[c := ws]> (conds s)) s).

Definition get_stack (s : kernel) (t : Z) : list frame := default [] (stacks s !! t).
Definition put_stack (t : Z) (fs : list frame) (s : kernel) : kernel := set_stacks (<[t := fs]> (stacks s)) s.

(** The current thread has [fs] to run before the rest of its stack. *)
Definition push (fs : list frame) : M kernel unit :=
  modify (λ s, put_stack (running (sc s)) (fs ++ get_stack s (running (sc s))) s).

Definition set_ret (v : Z) : M kernel unit :=
  modify (λ s, set_rets (<[running (sc s) := v]> (rets s)) s).

(** ** Semaphores *)

Definition sema_init (m : sid) (v : Z) : M kernel unit := put_sema m (Sema v []).

(** One turn of the loop of [sema_down], with interrupts off: the thread that does not
    find a positive value continues here when it is woken up.  [k] is what the caller
    does after the call. *)
Definition sema_down_loop (m : sid) (old : bool) (k : list frame) : M kernel unit :=
  sm ← get_sema m;
  if bool_decide (value sm = 0) then
    t ← lift thread_current;
    put_sema m (Sema (value sm) (waiters sm ++ [t]));;
    push [FSemaLoop m old k];;
    lift thread_block
  else
    put_sema m (Sema (value sm - 1) (waiters sm));;
    push k;;
    _ ← lift (intr_set_level old);
    mret tt.

Definition sema_down (m : sid) (k : list frame) : M kernel unit :=
  c ← lift intr_context;
  assert (negb c);;
  old ← lift intr_disable;
  sema_down_loop m old k.

Definition sema_try_down (m : sid) (k : list frame) : M kernel unit :=
  old ← lift intr_disable;
  sm ← get_sema m;
  (if bool_decide (value sm > 0) then
     put_sema m (Sema (value sm - 1) (waiters sm));; push k;; set_ret 1
   else set_ret 0);;
  _ ← lift (intr_set_level old);
  mret tt.

Definition sema_up (m : sid) : M kernel unit :=
  old ← lift intr_disable;
  sm ← get_sema m;
  (match waiters sm with
   | [] => mret tt
   | t :: rest => put_sema m (Sema (value sm) rest);; lift (thread_unblock t)
   end);;
  sm ← get_sema m;
  put_sema m (Sema (u32 (value sm + 1)) (waiters sm));;
  _ ← lift (intr_set_level old);
  mret tt.

(** ** Locks *)

Definition lock_init (l : Z) : M kernel unit :=
  put_holder l 0;;
  sema_init (SLock l) 1.

Definition lock_held_by_current_thread (l : Z) : M kernel bool :=
  h ← get_holder l;
  t ← lift thread_current;
  mret (bool_decide (h = t)).

Definition lock_acquire (l : Z) : M kernel unit :=
  c ← lift intr_context;
  assert (negb c);;
  held ← lock_held_by_current_thread l;
  assert (negb held);;
  push [FSemaDown (SLock l) [FSetHolder l]].

(** [lock->holder = thread_current ()]. *)
Definition set_holder (l : Z) : M kernel unit :=
  t ← lift thread_current;
  _ ← get_holder l;
  put_holder l t.

Definition lock_try_acquire (l : Z) : M kernel unit :=
  held ← lock_held_by_current_thread l;
  assert (negb held);;
  push [FSemaTryDown (SLock l) [FSetHolder l]].

Definition lock_release (l : Z) : M kernel unit :=
  held ← lock_held_by_current_thread l;
  assert held;;
  put_holder l 0;;
  push [FSemaUp (SLock l)].

(** ** Condition variables *)

Definition cond_init (c : Z) : M kernel unit := put_cond c [].

(** A waiter is known by its thread, whose stack holds its semaphore. *)
Definition cond_wait (c l : Z) : M kernel unit :=
  x ← lift intr_context;
  assert (negb x);;
  held ← lock_held_by_current_thread l;
  assert held;;
  t ← lift thread_current;
  sema_init (SWait t) 0;;
  ws ← get_cond c;
  put_cond c (ws ++ [t]);;
  push [FLockRelease l; FSemaDown (SWait t) []; FLockAcquire l].

Definition cond_signal (c l : Z) : M kernel unit :=
  x ← lift intr_context;
  assert (negb x);;
  held ← lock_held_by_current_thread l;
  assert held;;
  ws ← get_cond c;
  match ws with
  | [] => mret tt
  | t :: rest => put_cond c rest;; push [FSemaUp (SWait t)]
  end.

Definition cond_broadcast (c l : Z) : M kernel unit :=
  ws ← get_cond c;
  match ws with
  | [] => mret tt
  | _ => push [FCondSignal c l; FCondBroadcast c l]
  end.

(** ** Threads *)

Definition tid_lock : Z := 0.

(** [thread_create] in a page the allocator gave ([page] is 0 when it had none): up to
    [allocate_tid], and after it. *)
Definition thread_create (page : Z) (nm : string) (prio : Z) (entry : list frame) : M kernel unit :=
  if bool_decide (page = 0) then set_ret TID_ERROR else
  lift (init_thread page nm prio);;
  modify (put_stack page []);;
  push [FLockAcquire tid_lock; FTid; FLockRelease tid_lock; FCreateTail page entry].

Definition take_tid : M kernel unit :=
  t ← lift allocate_tid;
  set_ret t.

Definition thread_create_tail (t : Z) (entry : list frame) : M kernel unit :=
  s ← get;
  lift (upd_thread t (with_tid (default 0 (rets s !! running (sc s)))));;
  lift (alloc_frame t 12);;
  lift (alloc_frame t 4);;
  lift (alloc_frame t 28);;
  modify (put_stack t (FKernelThread :: entry));;
  lift (thread_unblock t).

(** [thread_yield]; the thread goes on with its saved level, after [k]. *)
Definition yield_then (k : list frame) : M kernel unit :=
  s ← get;
  old ← lift thread_yield;
  modify (λ s', put_stack (running (sc s)) (FSetLevel old :: k ++ get_stack s' (running (sc s))) s').

Definition idle (started : sid) : M kernel unit :=
  t ← lift thread_current;
  lift (modify (set_idle t));;
  push [FSemaUp started; FIdleLoop].

Definition idle_loop : M kernel unit :=
  _ ← lift intr_disable;
  push [FIdleResume];;
  lift thread_block.

(** [sti; hlt]. *)
Definition idle_resume : M kernel unit :=
  lift (modify (set_intr true));;
  push [FIdleLoop].

(** ** The machine *)

(** [page] is what the allocator returns if the frame asks for a page. *)
Definition run_frame (page : Z) (f : frame) : M kernel unit :=
  match f with
  | FSetLevel level => _ ← lift (intr_set_level level); mret tt
  | FIret => lift (modify (set_intr true))
  | FSemaDown m k => sema_down m k
  | FSemaLoop m old k => sema_down_loop m old k
  | FSemaTryDown m k => sema_try_down m k
  | FSemaUp m => sema_up m
  | FLockAcquire l => lock_acquire l
  | FLockTryAcquire l => lock_try_acquire l
  | FSetHolder l => set_holder l
  | FLockRelease l => lock_release l
  | FCondWait c l => cond_wait c l
  | FCondSignal c l => cond_signal c l
  | FCondBroadcast c l => cond_broadcast c l
  | FCreate nm prio entry => thread_create page nm prio entry
  | FTid => take_tid
  | FCreateTail t entry => thread_create_tail t entry
  | FKernelThread => _ ← lift intr_enable; mret tt
  | FYield => yield_then []
  | FExit => lift thread_exit
  | FIdle started => idle started
  | FIdleLoop => idle_loop
  | FIdleResume => idle_resume
  end.

(** The timer interrupt, with the [iret] that ends it. *)
Definition tick : M kernel unit :=
  y ← lift timer_interrupt;
  if (y : bool) then yield_then [FIret] else lift (modify (set_intr true)).

(** The calls of a thread's own code. *)
Inductive call :=
| CSemaInit (n v : Z) | CSemaDown (n : Z) | CSemaTryDown (n : Z) | CSemaUp (n : Z)
| CLockInit (l : Z) | CLockAcquire (l : Z) | CLockTryAcquire (l : Z) | CLockRelease (l : Z)
| CCondInit (c : Z) | CCondWait (c l : Z) | CCondSignal (c l : Z) | CCondBroadcast (c l : Z)
| CCreate (nm : string) (prio : Z) | CYield | CExit.

Definition run_call (o : call) : M kernel unit :=
  match o with
  | CSemaInit n v => sema_init (SId n) v
  | CSemaDown n => push [FSemaDown (SId n) []]
  | CSemaTryDown n => push [FSemaTryDown (SId n) []]
  | CSemaUp n => push [FSemaUp (SId n)]
  | CLockInit l => lock_init l
  | CLockAcquire l => push [FLockAcquire l]
  | CLockTryAcquire l => push [FLockTryAcquire l]
  | CLockRelease l => push [FLockRelease l]
  | CCondInit c => cond_init c
  | CCondWait c l => push [FCondWait c l]
  | CCondSignal c l => push [FCondSignal c l]
  | CCondBroadcast c l => push [FCondBroadcast c l]
  | CCreate nm prio => push [FCreate nm prio []]
  | CYield => push [FYield]
  | CExit => push [FExit]
  end.

(** An object is initialised once, with a value that fits. *)
Definition call_ok (s : kernel) (o : call) : Prop :=
  match o with
  | CSemaInit n v => semas s !! SId n = None ∧ 0 ≤ v < 2 ^ 32
  | CLockInit l => semas s !! SLock l = None ∧ holders s !! l = None
  | CCreate _ prio => PRI_MIN ≤ prio ≤ PRI_MAX
  | _ => True
  end.

Definition page_ok (s : kernel) (page : Z) : Prop := threads (sc s) !! page = None.

Inductive kstep : kernel → kernel → Prop :=
| k_frame s page f fs s' :
    stacks s !! running (sc s) = Some (f :: fs) → page_ok s page →
    run_frame page f (put_stack (running (sc s)) fs s) = Ret (tt, s') → kstep s s'
| k_call s o s' :
    stacks s !! running (sc s) = Some [] → call_ok s o → run_call o s = Ret (tt, s') → kstep s s'
| k_tick s s' : intr_on (sc s) = true → tick s = Ret (tt, s') → kstep s s'.

(** ** Boot: [thread_init], [thread_start] and the first run of the idle thread *)

Definition thread_start : M kernel unit :=
  sema_init (SId 0) 0;;
  push [FCreate "idle" PRI_MIN [FIdle (SId 0)]; FSetLevel true; FSemaDown (SId 0) []].

(** Frames run until the current thread is in its own code. *)
Fixpoint run_kernel (fuel : nat) (page : Z) : M kernel unit := λ s,
  match get_stack s (running (sc s)) with
  | [] => Ret (tt, s)
  | f :: fs =>
    match fuel with
    | O => NoFuel
    | S fuel => (run_frame page f;; run_kernel fuel page) (put_stack (running (sc s)) fs s)
    end
  end.

Definition off : sched := Sched ∅ 0 [] [] 0 0 1 0 0 0 false false false.

Definition boot (main page : Z) : M kernel unit :=
  lift (thread_init main);;
  lock_init tid_lock;;
  modify (put_stack main []);;
  thread_start;;
  run_kernel 30 page.

Definition booted : kernel :=
  match boot 3221282816 3222278144 (Kernel off ∅ ∅ ∅ ∅ ∅) with
  | Ret (_, s) => s
  | _ => Kernel off ∅ ∅ ∅ ∅ ∅
  end.

Example boots :
  running (sc booted) = 3221282816 ∧ idle_thread (sc booted) = 3222278144 ∧
  stacks booted !! 3221282816 = Some [] ∧ stacks booted !! 3222278144 = Some [FIdleResume] ∧
  ready_list (sc booted) = [] ∧ intr_on (sc booted) = true ∧ semas booted !! SId 0 = Some (Sema 0 []).
Proof. vm_compute. done. Qed.
