(* ===== verification/SynchFacts.v ===== *)
(** * SynchFacts: the invariant of the kernel's threads

    What every frame does to the state, and the structural invariant [kA]: the
    scheduler's invariant, the shape of the stacks, and the wait lists, whose members
    are blocked threads that are inside the loop of [sema_down] on that semaphore (so a
    thread is in one list only, as its single [elem] demands). *)

From S2P Require Import Prelude Vaddr Thread Synch.

Lemma lift_run {A} (m : M sched A) s a v : m (sc s) = Ret (a, v) → lift m s = Ret (a, set_sc v s).
Proof. unfold lift. by intros ->. Qed.

Lemma lift_same {A} (m : M sched A) s a : m (sc s) = Ret (a, sc s) → lift m s = Ret (a, s).
Proof. intros E. rewrite (lift_run _ _ _ _ E). by destruct s. Qed.

Lemma lift_inv {A} (m : M sched A) s a s' :
  lift m s = Ret (a, s') → ∃ v, m (sc s) = Ret (a, v) ∧ s' = set_sc v s.
Proof. unfold lift. destruct (m (sc s)) as [[b v]| |]; naive_solver. Qed.

Lemma gets_opt_inv {S A} (f : S → option A) s a s' : gets_opt f s = Ret (a, s') → f s = Some a ∧ s' = s.
Proof. unfold gets_opt. destruct (f s); naive_solver. Qed.

Lemma assert_inv {S} b (s s' : S) u : assert b s = Ret (u, s') → b = true ∧ s' = s.
Proof. unfold assert. destruct b; [|done]. by intros [= _ ->]. Qed.

Lemma get_put_stack s t fs u : get_stack (put_stack t fs s) u = if decide (u = t) then fs else get_stack s u.
Proof.
  unfold get_stack. cbn. case_decide; [subst; by rewrite lookup_insert_eq|by rewrite lookup_insert_ne].
Qed.

Lemma get_stack_sc v s u : get_stack (set_sc v s) u = get_stack s u.
Proof. done. Qed.

(** The stacks after pushes by the current thread. *)
Ltac stk :=
  let t := fresh "t" in intros t; unfold get_stack; cbn;
  repeat (rewrite lookup_insert_eq; cbn);
  case_decide; [subst; by rewrite ?lookup_insert_eq | by rewrite ?lookup_insert_ne by done].

(** [minv H as x s1 E] opens the first bind of an execution that returned. *)
Tactic Notation "minv" hyp(H) "as" ident(x) ident(s1) ident(E) :=
  apply bind_inv in H as (x & s1 & E & H).

(** ** Stacks *)

Definition is_loop (f : frame) : Prop := match f with FSemaLoop _ _ _ => True | _ => False end.
Definition loopless (fs : list frame) : Prop := Forall (λ f, ¬ is_loop f) fs.

(** The threads that a stack is about to put on the run queue for the first time. *)
Definition tails (fs : list frame) : list Z := omap (λ f, if f is FCreateTail t _ then Some t else None) fs.

(** What a semaphore operation leaves to its caller: on a lock's semaphore it is
    called by the lock operations, which record the holder. *)
Definition cont_ok (m : sid) (k : list frame) : Prop := k = if m is SLock l then [FSetHolder l] else [].

Lemma cont_cases m k : cont_ok m k → k = [] ∨ ∃ l, k = [FSetHolder l].
Proof. unfold cont_ok. destruct m; [by left|right; by eexists|by left]. Qed.

Fixpoint wf_stack (fs : list frame) : Prop :=
  match fs with
  | [] => True
  | f :: fs =>
    wf_stack fs ∧
    match f with
    | FCreate _ prio e => fs = [] ∧ e = [] ∧ PRI_MIN ≤ prio ≤ PRI_MAX
    | FExit | FIdleLoop | FIdleResume => fs = []
    | FCreateTail _ e => tails fs = [] ∧ e = []
    | FIdle _ => False
    | FSemaDown m k | FSemaLoop m _ k | FSemaTryDown m k => cont_ok m k
    | _ => True
    end
  end.

(** The idle thread only ever has its loop, under the frames of an interrupt. *)
Definition is_light (f : frame) : Prop := match f with FSetLevel _ | FIret => True | _ => False end.
Definition idle_stack (fs : list frame) : Prop :=
  ∃ pre x, fs = pre ++ [x] ∧ (x = FIdleLoop ∨ x = FIdleResume) ∧ Forall is_light pre.

Abbreviation cur s := (running (sc s)).
Abbreviation idle_of s := (idle_thread (sc s)).

Record kA (s : kernel) : Prop := {
  a_sched : sched_ok (sc s);
  a_idle : idle_of s ≠ 0;
  a_idle_stack : idle_stack (get_stack s (idle_of s));
  a_dead : ∀ t, threads (sc s) !! t = None → get_stack s t = [];
  a_wf : ∀ t, wf_stack (get_stack s t);
  a_tail : ∀ t, loopless (tail (get_stack s t));
  a_on : intr_on (sc s) = true → loopless (get_stack s (cur s));
  a_sema : ∀ m sm, semas s !! m = Some sm → 0 ≤ value sm < 2 ^ 32 ∧ NoDup (waiters sm);
  a_wait : ∀ m sm t, semas s !! m = Some sm → t ∈ waiters sm →
    has_status (sc s) t THREAD_BLOCKED ∧ t ≠ idle_of s ∧ ∃ old k fs, get_stack s t = FSemaLoop m old k :: fs;
  a_new : ∀ t p, p ∈ tails (get_stack s t) →
    has_status (sc s) p THREAD_BLOCKED ∧ get_stack s p = [] ∧ p ≠ idle_of s;
  a_new_one : ∀ t t' p, p ∈ tails (get_stack s t) → p ∈ tails (get_stack s t') → t = t'
}.

Lemma tails_app fs gs : tails (fs ++ gs) = tails fs ++ tails gs.
Proof. unfold tails. apply omap_app. Qed.

Lemma cur_not_blocked s : kA s → ¬ has_status (sc s) (cur s) THREAD_BLOCKED.
Proof. intros Ha H. by pose proof (has_status_fun _ _ _ _ H (si_running _ _ (a_sched _ Ha))). Qed.

Lemma alive_threads s t v : has_status s t v → threads s !! t ≠ None.
Proof. unfold has_status. by destruct (threads s !! t). Qed.

(** ** Steps of the current thread that do not switch

    The statuses stay, the wait lists lose nothing but whole semaphores, and the
    current thread's stack becomes [ns]. *)
Record local_step (ns : list frame) (s s' : kernel) : Prop := {
  ls_sched : sched_ok (sc s');
  ls_cur : cur s' = cur s;
  ls_idle : idle_of s' = idle_of s;
  ls_ready : ready_list (sc s') = ready_list (sc s);
  ls_status : ∀ t v, has_status (sc s') t v ↔ has_status (sc s) t v;
  ls_stacks : ∀ t, get_stack s' t = if decide (t = cur s) then ns else get_stack s t;
  ls_loopless : loopless ns;
  ls_wf : wf_stack ns;
  ls_tails : ∀ p, p ∈ tails ns → p ∈ tails (get_stack s (cur s));
  ls_idle_ok : cur s = idle_of s → idle_stack ns;
  ls_sema : ∀ m sm', semas s' !! m = Some sm' → 0 ≤ value sm' < 2 ^ 32 ∧
    (waiters sm' = [] ∨ ∃ sm, semas s !! m = Some sm ∧ waiters sm' = waiters sm)
}.

Lemma status_dead s s' : (∀ t v, has_status s' t v ↔ has_status s t v) → ∀ t, threads s' !! t = None → threads s !! t = None.
Proof.
  intros H t Ht. destruct (threads s !! t) as [th|] eqn:E; [|done].
  assert (has_status s' t (status th)) as Hs by (apply H; unfold has_status; by rewrite E).
  unfold has_status in Hs. by rewrite Ht in Hs.
Qed.

Lemma local_kA ns s s' : kA s → local_step ns s s' → kA s'.
Proof.
  intros Ha [H1 H2 H3 _ H4 H5 Hl H7 H8 H9 H10].
  assert (∀ t p, p ∈ tails (get_stack s' t) → p ∈ tails (get_stack s t)) as Ht.
  { intros t p. rewrite H5. case_decide as E; [|done]. subst t. apply H8. }
  assert (∀ t, has_status (sc s) t THREAD_BLOCKED → get_stack s' t = get_stack s t) as Hb.
  { intros t Hb. rewrite H5. case_decide as E; [|done]. subst t. by apply cur_not_blocked in Hb. }
  split; rewrite ?H2, ?H3.
  - done.
  - apply Ha.
  - rewrite H5. case_decide as E; [by apply H9|apply Ha].
  - intros t Hd. rewrite H5. case_decide as E.
    + subst t. pose proof (si_running _ _ H1) as Hr. rewrite H2 in Hr. by apply alive_threads in Hr.
    + apply (a_dead _ Ha). exact (status_dead _ _ H4 _ Hd).
  - intros t. rewrite H5. case_decide; [done|apply Ha].
  - intros t. rewrite H5. case_decide; [|apply Ha]. destruct ns; [done|]. by apply Forall_cons in Hl as [_ ?].
  - intros _. rewrite H5, decide_True by done. done.
  - intros m sm' Hm. destruct (H10 _ _ Hm) as [Hv [-> |(sm & Hs & ->)]]; (split; [done|]); [apply NoDup_nil_2|by eapply a_sema].
  - intros m sm' t Hm Hin. destruct (H10 _ _ Hm) as [_ [E|(sm & Hs & E)]]; rewrite E in Hin; [by apply elem_of_nil in Hin|].
    destruct (a_wait _ Ha _ _ _ Hs Hin) as (Hbl & Hi & Hst). rewrite H4, Hb by done. done.
  - intros t p Hp. destruct (a_new _ Ha t p (Ht _ _ Hp)) as (Hbl & Hst & Hi). rewrite H4, Hb by done. done.
  - intros t t' p Hp Hp'. exact (a_new_one _ Ha t t' p (Ht _ _ Hp) (Ht _ _ Hp')).
Qed.

(** ** Steps that switch

    The current thread leaves with the stack [ns]; when it blocks on a semaphore it
    joins that wait list. *)
Record switch_step (ns : list frame) (st : thread_status) (s s' : kernel) : Prop := {
  sw_sc : sc s' = departs st (set_intr false (sc s));
  sw_st : st ≠ THREAD_RUNNING;
  sw_dying : st = THREAD_DYING → cur s ≠ idle_of s ∧ ns = [];
  sw_stacks : ∀ t, get_stack s' t = if decide (t = cur s) then ns else get_stack s t;
  sw_wf : wf_stack ns;
  sw_loopless : loopless (tail ns);
  sw_tails : ∀ p, p ∈ tails ns → p ∈ tails (get_stack s (cur s));
  sw_idle_ok : cur s = idle_of s → idle_stack ns;
  sw_sema : ∀ m sm', semas s' !! m = Some sm' → ∃ sm, semas s !! m = Some sm ∧ value sm' = value sm ∧
    (waiters sm' = waiters sm ∨
     (waiters sm' = waiters sm ++ [cur s] ∧ st = THREAD_BLOCKED ∧ cur s ≠ idle_of s ∧
      ∃ old k fs, ns = FSemaLoop m old k :: fs))
}.

Lemma depart_facts s st :
  kA s → st ≠ THREAD_RUNNING → (st = THREAD_DYING → cur s ≠ idle_of s) →
  let v := departs st (set_intr false (sc s)) in
  sched_ok v ∧ idle_thread v = idle_of s ∧ intr_on v = false ∧
  ∀ t w, has_status v t w ↔
    if decide (t = running v) then w = THREAD_RUNNING
    else if decide (t = cur s) then w = st ∧ (st = THREAD_DYING → t = initial_thread (sc s)) else has_status (sc s) t w.
Proof.
  intros Ha Hst Hd v. pose proof (set_intr_ok false _ _ (a_sched _ Ha)) as Hok.
  assert (can_switch st (set_intr false (sc s))) as Hc by (right; left; apply Ha).
  destruct (switched_fields (left_as st (set_intr false (sc s)))) as (_ & _ & _ & Hi & _ & Hoff & _).
  split_and!; [by apply departs_ok|exact Hi|exact Hoff|]. intros t w. exact (departs_status st (set_intr false (sc s)) t w Hok Hst Hc Hd).
Qed.

(** The thread that runs next was ready, or is the idle thread. *)
Lemma depart_next s st :
  kA s → st ≠ THREAD_RUNNING → (st = THREAD_DYING → cur s ≠ idle_of s) →
  ¬ has_status (sc s) (running (departs st (set_intr false (sc s)))) THREAD_BLOCKED ∨
  running (departs st (set_intr false (sc s))) = idle_of s.
Proof.
  intros Ha Hst Hd. set (s0 := set_intr false (sc s)). unfold departs.
  destruct (switched_fields (left_as st s0)) as (-> & _). unfold next_of.
  destruct (ready_list (left_as st s0)) as [|x l] eqn:E; [by right|]. left. intros Hb.
  pose proof (set_intr_ok false _ _ (a_sched _ Ha)) as Hok. change (set_intr false (sc s)) with s0 in Hok.
  pose proof (left_as_inv st s0 Hok Hst Hd) as Hinv. destruct (proj1 (si_ready _ _ Hinv x)) as [_ Hr]; [rewrite E; left|].
  apply left_as_status in Hr; [|done]. case_decide as Ex.
  - subst x. by apply cur_not_blocked in Hb.
  - by pose proof (has_status_fun _ _ _ _ Hb Hr).
Qed.

Lemma switch_kA ns st s s' : kA s → switch_step ns st s s' → kA s'.
Proof.
  intros Ha [H1 Hst H3 H5 H6 H7 H8 H9 H10].
  destruct (depart_facts s st Ha Hst (λ E, proj1 (H3 E))) as (Hok & Hi & Hoff & Hs).
  pose proof (depart_next s st Ha Hst (λ E, proj1 (H3 E))) as Hn. rewrite <- H1 in *.
  assert (∀ t p, p ∈ tails (get_stack s' t) → p ∈ tails (get_stack s t)) as Ht.
  { intros t p. rewrite H5. case_decide as E; [|done]. subst t. apply H8. }
  assert (∀ t, has_status (sc s) t THREAD_BLOCKED → t ≠ idle_of s →
            has_status (sc s') t THREAD_BLOCKED ∧ get_stack s' t = get_stack s t) as Hb.
  { intros t Hb Hti. assert (t ≠ cur s) as Htc by (intros ->; by apply cur_not_blocked in Hb).
    split; [|rewrite H5; by rewrite decide_False]. apply Hs. rewrite decide_False; [by rewrite decide_False|].
    intros ->. destruct Hn; done. }
  split; rewrite ?Hi.
  - done.
  - apply Ha.
  - rewrite H5. case_decide; [by apply H9|apply Ha].
  - intros t Hd. rewrite H5. case_decide as E.
    + subst t. destruct (decide (st = THREAD_DYING)) as [Hdy|Hdy]; [by apply H3|]. exfalso.
      assert (∃ w, has_status (sc s') (cur s) w) as [w Hw]; [|by apply alive_threads in Hw].
      destruct (decide (cur s = running (sc s'))) as [E|E]; [exists THREAD_RUNNING; apply Hs; by rewrite decide_True|].
      exists st. apply Hs. rewrite decide_False, decide_True by done. done.
    + apply (a_dead _ Ha). destruct (threads (sc s) !! t) as [th|] eqn:El; [|done]. exfalso.
      assert (∃ w, has_status (sc s') t w) as [w Hw]; [|by apply alive_threads in Hw].
      destruct (decide (t = running (sc s'))) as [E'|E']; [exists THREAD_RUNNING; apply Hs; by rewrite decide_True|].
      exists (status th). apply Hs. rewrite !decide_False by done. unfold has_status. by rewrite El.
  - intros t. rewrite H5. case_decide; [done|apply Ha].
  - intros t. rewrite H5. case_decide; [done|apply Ha].
  - rewrite Hoff. done.
  - intros m sm' Hm. destruct (H10 _ _ Hm) as (sm & Hsm & -> & Hw). destruct (a_sema _ Ha _ _ Hsm) as [Hv Hnd].
    split; [done|]. destruct Hw as [-> |(-> & _)]; [done|]. apply NoDup_app. split_and!; [done| |apply NoDup_singleton].
    intros x Hx ->%list_elem_of_singleton. apply (a_wait _ Ha _ _ _ Hsm) in Hx as [Hx _]. by apply cur_not_blocked in Hx.
  - intros m sm' t Hm Hin. destruct (H10 _ _ Hm) as (sm & Hsm & _ & Hw).
    assert (t ∈ waiters sm → has_status (sc s') t THREAD_BLOCKED ∧ t ≠ idle_of s ∧ ∃ old k fs, get_stack s' t = FSemaLoop m old k :: fs) as Hold.
    { intros Hin'. destruct (a_wait _ Ha _ _ _ Hsm Hin') as (Hbl & Hti & Hst'). destruct (Hb t Hbl Hti) as [? ->]. done. }
    destruct Hw as [E|(E & -> & Hci & old & k & fs & ->)]; rewrite E in Hin; [by apply Hold|].
    rewrite elem_of_app, list_elem_of_singleton in Hin. destruct Hin as [Hin| ->]; [by apply Hold|]. split_and!; [|done|].
    + apply Hs. rewrite decide_False; [by rewrite decide_True|]. intros E'.
      destruct (decide (cur s ∈ ready_list (sc s))) as [Hr|Hr].
      * apply (si_ready _ _ (a_sched _ Ha)) in Hr as [_ Hr].
        by pose proof (has_status_fun _ _ _ _ Hr (si_running _ _ (a_sched _ Ha))).
      * rewrite H1 in E'. unfold departs in E'. destruct (switched_fields (left_as THREAD_BLOCKED (set_intr false (sc s)))) as (Hx & _).
        rewrite Hx in E'. unfold next_of in E'. cbn in E'. rewrite decide_False in E' by (by intros [? _]).
        destruct (ready_list (sc s)) as [|y l]; [by apply Hci|]. apply Hr. rewrite E'. left.
    + rewrite H5, decide_True by done. eauto.
  - intros t p Hp. destruct (a_new _ Ha t p (Ht _ _ Hp)) as (Hbl & Hst' & Hpi). destruct (Hb p Hbl Hpi) as [? ->]. done.
  - intros t t' p Hp Hp'. exact (a_new_one _ Ha t t' p (Ht _ _ Hp) (Ht _ _ Hp')).
Qed.

(** ** Steps that make a thread ready *)
Record wake_step (t0 : Z) (f : frame) (fs g0 : list frame) (s s' : kernel) : Prop := {
  wk_sched : sched_ok (sc s');
  wk_cur : cur s' = cur s;
  wk_idle : idle_of s' = idle_of s;
  wk_ready : ready_list (sc s') = ready_list (sc s) ++ [t0];
  wk_blocked : has_status (sc s) t0 THREAD_BLOCKED;
  wk_not_idle : t0 ≠ idle_of s;
  wk_cur_idle : cur s ≠ idle_of s;
  wk_status : ∀ t v, has_status (sc s') t v ↔ if decide (t = t0) then v = THREAD_READY else has_status (sc s) t v;
  wk_stacks : ∀ t, get_stack s' t = if decide (t = cur s) then fs else if decide (t = t0) then g0 else get_stack s t;
  wk_g0 : wf_stack g0 ∧ loopless (tail g0) ∧ ∀ p, p ∈ tails g0 → p ∈ tails (get_stack s t0);
  wk_tails : ∀ t, t0 ∉ tails (get_stack s' t);
  wk_sema : ∀ m sm', semas s' !! m = Some sm' → ∃ sm, semas s !! m = Some sm ∧ 0 ≤ value sm' < 2 ^ 32 ∧
    ((waiters sm' = waiters sm ∧ t0 ∉ waiters sm) ∨ waiters sm = t0 :: waiters sm')
}.

Lemma wake_kA t0 f fs g0 s s' :
  kA s → get_stack s (cur s) = f :: fs → wake_step t0 f fs g0 s s' → kA s'.
Proof.
  intros Ha Ef [H1 H2 H3 _ Hbl Hni Hci H4 H5 [Hg1 [Hg2 Hg3]] H8 H10].
  assert (t0 ≠ cur s) as Htc by (intros ->; by apply cur_not_blocked in Hbl).
  assert (∀ t p, p ∈ tails (get_stack s' t) → p ∈ tails (get_stack s t)) as Ht.
  { intros t p. rewrite H5. case_decide as E; [subst t; rewrite Ef; change (f :: fs) with ([f] ++ fs);
      rewrite tails_app, elem_of_app; by right|]. case_decide as E'; [subst t; apply Hg3|done]. }
  assert (∀ t, has_status (sc s) t THREAD_BLOCKED → t ≠ t0 → has_status (sc s') t THREAD_BLOCKED ∧ get_stack s' t = get_stack s t) as Hb.
  { intros t Hb Hne. assert (t ≠ cur s) by (intros ->; by apply cur_not_blocked in Hb).
    rewrite H4, H5, !decide_False by done. done. }
  split; rewrite ?H2, ?H3.
  - done.
  - apply Ha.
  - rewrite H5, !decide_False by done. apply Ha.
  - intros t Hd. assert (∀ w, ¬ has_status (sc s) t w) as Hno.
    { intros w Hw. destruct (decide (t = t0)) as [->|E].
      - assert (has_status (sc s') t0 THREAD_READY) as H by (apply H4; by rewrite decide_True). by apply alive_threads in H.
      - assert (has_status (sc s') t w) as H by (apply H4; by rewrite decide_False). by apply alive_threads in H. }
    rewrite H5. case_decide as E; [subst t; by destruct (Hno _ (si_running _ _ (a_sched _ Ha)))|].
    case_decide as E'; [subst t; by apply Hno in Hbl|]. apply (a_dead _ Ha).
    destruct (threads (sc s) !! t) as [th|] eqn:El; [|done]. destruct (Hno (status th)). unfold has_status. by rewrite El.
  - intros t. rewrite H5. pose proof (a_wf _ Ha (cur s)) as Hw. rewrite Ef in Hw. destruct Hw as [Hw _].
    repeat case_decide; try done. apply Ha.
  - intros t. rewrite H5. pose proof (a_tail _ Ha (cur s)) as Hl. rewrite Ef in Hl. cbn in Hl.
    repeat case_decide; [|done|apply Ha]. destruct fs; [done|]. by apply Forall_cons in Hl as [_ ?].
  - intros _. rewrite H5, decide_True by done. pose proof (a_tail _ Ha (cur s)) as Hl. by rewrite Ef in Hl.
  - intros m sm' Hm. destruct (H10 _ _ Hm) as (sm & Hsm & Hv & Hw). split; [done|]. destruct (a_sema _ Ha _ _ Hsm) as [_ Hnd].
    destruct Hw as [[-> _]|E]; [done|]. rewrite E in Hnd. by apply NoDup_cons in Hnd as [_ ?].
  - intros m sm' t Hm Hin. destruct (H10 _ _ Hm) as (sm & Hsm & _ & Hw). destruct (a_sema _ Ha _ _ Hsm) as [_ Hnd].
    assert (t ∈ waiters sm ∧ t ≠ t0) as [Hin' Hne].
    { destruct Hw as [[E Hnin]|E]; [rewrite E in Hin; split; [done|]; by intros ->|]. rewrite E in Hnd |- *.
      apply NoDup_cons in Hnd as [Hnin _]. split; [by right|]. by intros ->. }
    destruct (a_wait _ Ha _ _ _ Hsm Hin') as (Hb1 & Hti & Hst). destruct (Hb t Hb1 Hne) as [? ->]. done.
  - intros t p Hp. destruct (a_new _ Ha t p (Ht _ _ Hp)) as (Hb1 & Hst & Hpi).
    assert (p ≠ t0) as Hne by (intros ->; by apply (H8 t)). destruct (Hb p Hb1 Hne) as [? ->]. done.
  - intros t t' p Hp Hp'. exact (a_new_one _ Ha t t' p (Ht _ _ Hp) (Ht _ _ Hp')).
Qed.

(** ** A step that makes a thread *)
Record birth_step (p : Z) (f : frame) (gs : list frame) (s s' : kernel) : Prop := {
  bs_sched : sched_ok (sc s');
  bs_cur : cur s' = cur s;
  bs_idle : idle_of s' = idle_of s;
  bs_ready : ready_list (sc s') = ready_list (sc s);
  bs_fresh : threads (sc s) !! p = None;
  bs_cur_idle : cur s ≠ idle_of s;
  bs_status : ∀ t v, has_status (sc s') t v ↔ if decide (t = p) then v = THREAD_BLOCKED else has_status (sc s) t v;
  bs_stacks : ∀ t, get_stack s' t = if decide (t = cur s) then gs else if decide (t = p) then [] else get_stack s t;
  bs_loopless : loopless gs;
  bs_wf : wf_stack gs;
  bs_tails : tails gs = [p];
  bs_semas : semas s' = semas s
}.

Lemma birth_kA p f gs s s' : kA s → get_stack s (cur s) = [f] → tails [f] = [] → birth_step p f gs s s' → kA s'.
Proof.
  intros Ha Ef Hf [H1 H2 H3 _ H4 Hci H5 H6 H7 H8 H9 H10].
  assert (∀ v, ¬ has_status (sc s) p v) as Hno by (intros v H; by apply alive_threads in H).
  assert (∀ t v, has_status (sc s) t v → t ≠ p) as Hne by (intros t v H ->; by apply (Hno v)).
  pose proof (Hne _ _ (si_running _ _ (a_sched _ Ha))) as Hcp.
  assert (∀ t, has_status (sc s) t THREAD_BLOCKED → has_status (sc s') t THREAD_BLOCKED ∧ get_stack s' t = get_stack s t) as Hb.
  { intros t Hb. assert (t ≠ cur s) by (intros ->; by apply cur_not_blocked in Hb).
    pose proof (Hne _ _ Hb). rewrite H5, H6, !decide_False by done. done. }
  assert (∀ t q, q ∈ tails (get_stack s' t) → (t = cur s ∧ q = p) ∨ (t ≠ cur s ∧ q ∈ tails (get_stack s t))) as Ht.
  { intros t q. rewrite H6. case_decide as E; [rewrite H9, list_elem_of_singleton; tauto|].
    case_decide; [by intros ?%elem_of_nil|]. tauto. }
  split; rewrite ?H2, ?H3, ?H10.
  - done.
  - apply Ha.
  - rewrite H6, decide_False by done. rewrite decide_False; [apply Ha|].
    destruct (si_idle _ _ (a_sched _ Ha) (a_idle _ Ha)) as (v & Hv & _). exact (Hne _ _ Hv).
  - intros t Hd. rewrite H6. case_decide as E.
    + subst t. pose proof (si_running _ _ H1) as Hr. rewrite H2 in Hr. by apply alive_threads in Hr.
    + case_decide as E'; [done|]. apply (a_dead _ Ha). destruct (threads (sc s) !! t) as [th|] eqn:El; [|done].
      assert (has_status (sc s') t (status th)) as H by (apply H5; rewrite decide_False by done; unfold has_status; by rewrite El).
      by apply alive_threads in H.
  - intros t. rewrite H6. repeat case_decide; [done|done|apply Ha].
  - intros t. rewrite H6. repeat case_decide; [|apply Forall_nil_2|apply Ha]. destruct gs; [done|]. by apply Forall_cons in H7 as [_ ?].
  - intros _. rewrite H6, decide_True by done. done.
  - apply Ha.
  - intros m sm t Hm Hin. destruct (a_wait _ Ha _ _ _ Hm Hin) as (Hbl & Hti & Hst). destruct (Hb t Hbl) as [? ->]. done.
  - intros t q Hq. destruct (Ht _ _ Hq) as [[-> ->]|[_ Hq']].
    + split_and!; [apply H5; by rewrite decide_True|rewrite H6, decide_False by done; by rewrite decide_True|].
      intros ->. destruct (si_idle _ _ (a_sched _ Ha) (a_idle _ Ha)) as (v & Hv & _). by apply Hno in Hv.
    + destruct (a_new _ Ha t q Hq') as (Hbl & Hst & Hqi). destruct (Hb q Hbl) as [? ->]. done.
  - intros t t' q Hq Hq'. destruct (Ht _ _ Hq) as [[-> ->]|[_ Hq1]], (Ht _ _ Hq') as [[-> E]|[_ Hq2]]; [done|..].
    + destruct (a_new _ Ha _ _ Hq2) as [Hx _]. by apply Hno in Hx.
    + subst q. destruct (a_new _ Ha _ _ Hq1) as [Hx _]. by apply Hno in Hx.
    + exact (a_new_one _ Ha t t' q Hq1 Hq2).
Qed.

(** ** The kinds of steps *)

Inductive kind (s s' : kernel) : Prop :=
| kind_local ns : local_step ns s s' → kind s s'
| kind_switch ns st : switch_step ns st s s' → kind s s'
| kind_yield s2 ns2 ns : local_step ns2 s s2 → switch_step ns THREAD_READY s2 s' → kind s s'
| kind_wake t0 f fs g0 : get_stack s (cur s) = f :: fs → wake_step t0 f fs g0 s s' → kind s s'
| kind_birth p f gs : get_stack s (cur s) = [f] → tails [f] = [] → birth_step p f gs s s' → kind s s'.

Lemma kind_kA s s' : kA s → kind s s' → kA s'.
Proof.
  intros Ha [ns H|ns st H|s2 ns2 ns H1 H2|t0 f fs g0 E H|p f gs E Ht H].
  - by apply (local_kA ns s).
  - by apply (switch_kA ns st s).
  - apply (switch_kA ns THREAD_READY s2); [|done]. by apply (local_kA ns2 s).
  - by apply (wake_kA t0 f fs g0 s).
  - by apply (birth_kA p f gs s).
Qed.

(** ** The frames *)

(** No frame of an explicit list is a loop. *)
Ltac notloop := repeat (constructor; [by intros []|]); constructor.

Definition heavy (f : frame) : Prop :=
  match f with FSetLevel _ | FIret | FIdleLoop | FIdleResume => False | _ => True end.

Lemma idle_head f fs :
  idle_stack (f :: fs) → (is_light f ∧ idle_stack fs) ∨ (fs = [] ∧ (f = FIdleLoop ∨ f = FIdleResume)).
Proof.
  intros (pre & x & E & Hx & Hpre). destruct pre as [|g pre]; cbn in E; injection E as -> ->; [by right|].
  apply Forall_cons in Hpre as [Hg Hpre]. left. split; [done|]. by exists pre, x.
Qed.

Section frame_steps.
Context (s : kernel) (f : frame) (fs : list frame).
Hypothesis (Ha : kA s) (Ef : get_stack s (cur s) = f :: fs).

(** The state in which the frame runs. *)
Local Abbreviation s0 := (put_stack (running (sc s)) fs s).

Lemma not_idle : heavy f → cur s ≠ idle_of s.
Proof.
  intros Hh E. pose proof (a_idle_stack _ Ha) as Hi. rewrite <- E, Ef in Hi.
  apply idle_head in Hi as [[Hl _]|[_ [-> | ->]]]; [by destruct f|done|done].
Qed.

Lemma popped_stack t : get_stack s0 t = if decide (t = cur s) then fs else get_stack s t.
Proof. apply get_put_stack. Qed.

Lemma popped_wf : wf_stack fs.
Proof. pose proof (a_wf _ Ha (cur s)) as H. rewrite Ef in H. by destruct H. Qed.

Lemma popped_loopless : loopless fs.
Proof. pose proof (a_tail _ Ha (cur s)) as H. by rewrite Ef in H. Qed.

Lemma push_stack gs v t :
  get_stack (put_stack (cur s) (gs ++ get_stack s0 (cur s)) v) t = if decide (t = cur s) then gs ++ fs else get_stack v t.
Proof. rewrite get_put_stack, popped_stack. by rewrite (decide_True (P := cur s = cur s)) by done. Qed.

Lemma popped_tails p : p ∈ tails fs → p ∈ tails (get_stack s (cur s)).
Proof. rewrite Ef. change (f :: fs) with ([f] ++ fs). rewrite tails_app, elem_of_app. by right. Qed.

(** A step that leaves the scheduler alone but for its counters and interrupt flag. *)
Lemma plain_step gs s' :
  same_sched (sc s) (sc s') →
  (∀ t, get_stack s' t = if decide (t = cur s) then gs ++ fs else get_stack s t) →
  loopless gs → wf_stack (gs ++ fs) → tails gs = [] → (cur s = idle_of s → idle_stack (gs ++ fs)) →
  (∀ m sm', semas s' !! m = Some sm' → 0 ≤ value sm' < 2 ^ 32 ∧
     (waiters sm' = [] ∨ ∃ sm, semas s !! m = Some sm ∧ waiters sm' = waiters sm)) →
  local_step (gs ++ fs) s s'.
Proof.
  intros Hs Hst Hl Hw Ht Hi Hm. split; try done.
  - exact (same_sched_inv _ _ _ Hs (a_sched _ Ha)).
  - apply Hs.
  - apply Hs.
  - apply Hs.
  - intros t v. unfold has_status. by rewrite (ss_threads _ _ Hs).
  - apply Forall_app. split; [done|apply popped_loopless].
  - intros p. rewrite tails_app, Ht. apply popped_tails.
Qed.

(** Semaphores kept as they are. *)
Lemma semas_kept s' : semas s' = semas s → ∀ m sm', semas s' !! m = Some sm' → 0 ≤ value sm' < 2 ^ 32 ∧
  (waiters sm' = [] ∨ ∃ sm, semas s !! m = Some sm ∧ waiters sm' = waiters sm).
Proof. intros -> m sm' H. split; [by apply (a_sema _ Ha m)|]. right. eauto. Qed.

(** A semaphore whose value or whole contents changes. *)
Lemma semas_put s' m v ws :
  semas s' = <[m := Sema v ws]> (semas s) → 0 ≤ v < 2 ^ 32 →
  (ws = [] ∨ ∃ sm, semas s !! m = Some sm ∧ ws = waiters sm) →
  ∀ m' sm', semas s' !! m' = Some sm' → 0 ≤ value sm' < 2 ^ 32 ∧
  (waiters sm' = [] ∨ ∃ sm, semas s !! m' = Some sm ∧ waiters sm' = waiters sm).
Proof.
  intros E Hv Hw m' sm'. rewrite E, lookup_insert_Some. intros [[-> <-]|[_ H]]; [done|].
  split; [by apply (a_sema _ Ha m')|]. right. eauto.
Qed.

Lemma push_only gs s' :
  push gs s0 = Ret (tt, s') → heavy f → loopless gs → wf_stack (gs ++ fs) → tails gs = [] → kind s s'.
Proof.
  intros [= <-] Hh Hl Hw Ht. apply (kind_local s _ (gs ++ fs)). apply plain_step; try done.
  - intros t. cbn [sc put_stack set_stacks]. rewrite push_stack, popped_stack. by repeat case_decide.
  - intros E. by destruct (not_idle Hh).
  - by apply semas_kept.
Qed.

(** Only the interrupt flag or data outside the invariant changes. *)
Lemma quiet s' :
  same_sched (sc s) (sc s') → stacks s' = stacks s0 → semas s' = semas s →
  (cur s = idle_of s → idle_stack fs) → kind s s'.
Proof.
  intros Hs Hst Hm Hi. apply (kind_local s _ ([] ++ fs)). apply plain_step; try done.
  - intros t. unfold get_stack. rewrite Hst. apply popped_stack.
  - by apply Forall_nil_2.
  - apply popped_wf.
  - by apply semas_kept.
Qed.

Lemma idle_rest : is_light f → cur s = idle_of s → idle_stack fs.
Proof.
  intros Hl E. pose proof (a_idle_stack _ Ha) as Hi. rewrite <- E, Ef in Hi.
  apply idle_head in Hi as [[_ ?]|[_ [-> | ->]]]; [done|by destruct Hl..].
Qed.

Lemma ext_off : in_external_intr (sc s) = false.
Proof. exact (si_ext _ _ (a_sched _ Ha)). Qed.

(** [sema_down]'s loop, entered with interrupts off. *)
Lemma loop_kind m old k s' :
  heavy f → cont_ok m k →
  sema_down_loop m old k (set_sc (set_intr false (sc s)) s0) = Ret (tt, s') → kind s s'.
Proof.
  intros Hh Hk H. pose proof (not_idle Hh) as Hni. unfold sema_down_loop in H. minv H as sm s1 E.
  unfold get_sema in E. apply gets_opt_inv in E as [Esm ->]. cbn [semas set_sc put_stack set_stacks] in Esm. case_bool_decide as Hv.
  - pose proof (set_intr_ok false _ _ (a_sched _ Ha)) as Hok.
    set (s1 := set_sc _ _) in H.
    rewrite (bind_Ret (lift thread_current) _ s1 (cur s) s1) in H by (apply lift_same; exact (thread_current_run _ Hok)).
    rewrite (bind_Ret _ _ _ _ _ eq_refl), (bind_Ret _ _ _ _ _ eq_refl) in H.
    rewrite (lift_run _ _ tt (departs THREAD_BLOCKED (set_intr false (sc s)))) in H.
    2:{ apply thread_block_run; [done|done|]. right. left. apply Ha. }
    injection H as <-. apply (kind_switch s _ (FSemaLoop m old k :: fs) THREAD_BLOCKED). split; try done.
    + stk.
    + split; [apply popped_wf|done].
    + apply popped_loopless.
    + intros p Hp. by apply popped_tails.
    + intros m' sm'. cbn. rewrite lookup_insert_Some. intros [[<- <-]|[_ Hm]]; [|by exists sm'; eauto].
      exists sm. split_and!; [done|done|]. right. split_and!; [done|done|done|by eauto].
  - rewrite (bind_Ret _ _ _ _ _ eq_refl), (bind_Ret _ _ _ _ _ eq_refl) in H. minv H as u s1 E. injection H as <-.
    rewrite (lift_run _ _ false (set_intr old (set_intr false (sc s)))) in E by (apply intr_set_level_run; apply ext_off).
    injection E as _ <-. destruct (a_sema _ Ha _ _ Esm) as [Hr _].
    apply (kind_local s _ (k ++ fs)). apply plain_step; try done.
    + stk.
    + destruct (cont_cases _ _ Hk) as [-> |[l ->]]; repeat constructor. by intros [].
    + destruct (cont_cases _ _ Hk) as [-> |[l ->]]; [apply popped_wf|]. split; [apply popped_wf|done].
    + by destruct (cont_cases _ _ Hk) as [-> |[l ->]].
    + by apply (semas_put _ m (value sm - 1) (waiters sm)); [done|lia|eauto].
Qed.

Lemma set_intr_id b v : intr_on v = b → set_intr b v = v.
Proof. intros <-. by destruct v. Qed.

Lemma sema_down_kind m k s' : heavy f → cont_ok m k → sema_down m k s0 = Ret (tt, s') → kind s s'.
Proof.
  intros Hh Hk H. unfold sema_down in H. minv H as c s1 E. apply lift_inv in E as (v & [= <- <-] & ->).
  minv H as u s1 E. apply assert_inv in E as [_ ->]. minv H as o s1 E. apply lift_inv in E as (v & [= <- <-] & ->).
  exact (loop_kind m _ k s' Hh Hk H).
Qed.

Lemma sema_loop_kind m old k s' : f = FSemaLoop m old k → sema_down_loop m old k s0 = Ret (tt, s') → kind s s'.
Proof.
  intros Hf H. assert (intr_on (sc s) = false) as Hoff.
  { destruct (intr_on (sc s)) eqn:E; [|done]. pose proof (a_on _ Ha E) as Hl. rewrite Ef, Hf in Hl.
    apply Forall_cons in Hl as [Hl _]. by destruct Hl. }
  assert (cont_ok m k) as Hk by (pose proof (a_wf _ Ha (cur s)) as Hw; rewrite Ef, Hf in Hw; by destruct Hw).
  apply (loop_kind m old k s'); [by rewrite Hf|done|]. by rewrite set_intr_id.
Qed.

Lemma sema_try_down_kind m k s' : heavy f → cont_ok m k → sema_try_down m k s0 = Ret (tt, s') → kind s s'.
Proof.
  intros Hh Hk H. unfold sema_try_down in H. minv H as o s1 E. apply lift_inv in E as (v & [= <- <-] & ->).
  minv H as sm s1 E. unfold get_sema in E. apply gets_opt_inv in E as [Esm ->]. cbn [semas set_sc put_stack set_stacks] in Esm.
  destruct (a_sema _ Ha _ _ Esm) as [Hr _]. minv H as u s1 E1. minv H as l s2 E2. injection H as <-.
  apply lift_inv in E2 as (v & E2 & ->). pose proof ext_off as Hext. case_bool_decide as Hv.
  - minv E1 as u1 s2 E3. injection E3 as _ <-. minv E1 as u2 s2 E3. injection E3 as _ <-. injection E1 as _ <-.
    rewrite intr_set_level_run in E2 by exact Hext. injection E2 as _ <-.
    apply (kind_local s _ (k ++ fs)). apply plain_step; try done.
    + stk.
    + destruct (cont_cases _ _ Hk) as [-> |[x ->]]; repeat constructor. by intros [].
    + destruct (cont_cases _ _ Hk) as [-> |[x ->]]; [apply popped_wf|]. split; [apply popped_wf|done].
    + by destruct (cont_cases _ _ Hk) as [-> |[x ->]].
    + intros E. by destruct (not_idle Hh).
    + apply (semas_put _ m (value sm - 1) (waiters sm)); [done|lia|eauto].
  - injection E1 as _ <-. rewrite intr_set_level_run in E2 by exact Hext. injection E2 as _ <-.
    apply quiet; try done. intros E. by destruct (not_idle Hh).
Qed.

Lemma sema_up_kind m s' : heavy f → sema_up m s0 = Ret (tt, s') → kind s s'.
Proof.
  intros Hh H. pose proof (not_idle Hh) as Hni. unfold sema_up in H. minv H as o s1 E. apply lift_inv in E as (v & [= <- <-] & ->).
  minv H as sm s1 E. unfold get_sema in E. apply gets_opt_inv in E as [Esm ->]. cbn [semas set_sc put_stack set_stacks] in Esm.
  destruct (a_sema _ Ha _ _ Esm) as [Hr Hnd]. pose proof ext_off as Hext. destruct (waiters sm) as [|t rest] eqn:Ew.
  - rewrite ret_bind in H. minv H as sm2 s1 E. unfold get_sema in E. apply gets_opt_inv in E as [Esm2 ->].
    cbn [semas set_sc put_stack set_stacks] in Esm2. rewrite Esm in Esm2. injection Esm2 as <-.
    rewrite (bind_Ret _ _ _ _ _ eq_refl) in H. minv H as l s2 E2. injection H as <-. apply lift_inv in E2 as (v & E2 & ->).
    rewrite intr_set_level_run in E2 by exact Hext. injection E2 as _ <-.
    apply (kind_local s _ ([] ++ fs)). apply plain_step; try done.
    + stk.
    + apply Forall_nil_2.
    + apply popped_wf.
    + apply (semas_put _ m (u32 (value sm + 1)) (waiters sm)); [done|apply uwrap_range; lia|eauto].
  - destruct (a_wait _ Ha _ _ t Esm) as (Hbl & Hti & old & k & gs & Hst); [rewrite Ew; left|].
    rewrite bind_assoc, (bind_Ret _ _ _ _ _ eq_refl) in H.
    pose proof (set_intr_ok false _ _ (a_sched _ Ha)) as Hok. set (s1 := set_semas _ _) in H.
    rewrite (bind_Ret _ _ s1 tt (set_sc (woken t (set_intr false (sc s))) s1)) in H
      by (apply lift_run; exact (thread_unblock_run _ _ t Hok Hbl)).
    minv H as sm2 s2 E. unfold get_sema in E. apply gets_opt_inv in E as [Esm2 ->]. cbn in Esm2.
    rewrite lookup_insert_eq in Esm2. injection Esm2 as <-. rewrite (bind_Ret _ _ _ _ _ eq_refl) in H.
    minv H as l s2 E2. injection H as <-. apply lift_inv in E2 as (v & E2 & ->).
    rewrite intr_set_level_run in E2 by exact Hext. injection E2 as _ <-.
    apply (kind_wake s _ t f fs (get_stack s t) Ef). split; try done.
    + apply set_intr_ok. by apply woken_ok.
    + intros u w. exact (woken_status t (set_intr false (sc s)) u w Hbl).
    + intros u. transitivity (get_stack s0 u); [done|]. rewrite popped_stack. repeat case_decide; by subst.
    + split_and!; [apply Ha|apply Ha|done].
    + intros u Hu. assert (t ∈ tails (get_stack s u)) as Hu'.
      { change (t ∈ tails (get_stack s0 u)) in Hu. rewrite popped_stack in Hu. case_decide; [|done]. subst u. rewrite Ef.
        change (f :: fs) with ([f] ++ fs). rewrite tails_app, elem_of_app. by right. }
      destruct (a_new _ Ha _ _ Hu') as (_ & E & _). by rewrite Hst in E.
    + intros m' sm'. cbn. rewrite lookup_insert_Some. intros [[<- <-]|[Hne Hm]].
      * exists sm. split_and!; [done|apply uwrap_range; lia..|]. by right.
      * rewrite lookup_insert_ne in Hm by done. exists sm'. destruct (a_sema _ Ha _ _ Hm) as [Hr' _].
        split_and!; [done|lia|lia|]. left. split; [done|]. intros Hin.
        destruct (a_wait _ Ha _ _ _ Hm Hin) as (_ & _ & o' & k' & gs' & E). rewrite Hst in E. by injection E as ->.
Qed.

Lemma held_inv l s1 b s' :
  sc s1 = sc s → lock_held_by_current_thread l s1 = Ret (b, s') →
  s' = s1 ∧ ∃ h, holders s1 !! l = Some h ∧ b = bool_decide (h = cur s).
Proof.
  intros E1 H. unfold lock_held_by_current_thread in H. minv H as h s2 E. unfold get_holder in E.
  apply gets_opt_inv in E as [Eh ->]. minv H as t s2 E. apply lift_inv in E as (v & E & ->). rewrite E1 in E.
  rewrite (thread_current_run _ (a_sched _ Ha)) in E. injection E as <- <-. injection H as <- <-.
  rewrite <- E1. split; [by destruct s1|]. eauto.
Qed.

Lemma lock_acquire_inv l s' :
  lock_acquire l s0 = Ret (tt, s') → push [FSemaDown (SLock l) [FSetHolder l]] s0 = Ret (tt, s').
Proof.
  intros H. unfold lock_acquire in H. minv H as c s1 E. apply lift_inv in E as (v & [= <- <-] & ->).
  minv H as u s1 E. apply assert_inv in E as [_ ->]. minv H as b s1 E. apply held_inv in E as [-> _]; [|done].
  minv H as u1 s1 E. by apply assert_inv in E as [_ ->].
Qed.

Lemma lock_try_inv l s' :
  lock_try_acquire l s0 = Ret (tt, s') → push [FSemaTryDown (SLock l) [FSetHolder l]] s0 = Ret (tt, s').
Proof.
  intros H. unfold lock_try_acquire in H. minv H as b s1 E. apply held_inv in E as [-> _]; [|done].
  minv H as u s1 E. by apply assert_inv in E as [_ ->].
Qed.

Lemma set_holder_inv l s' :
  set_holder l s0 = Ret (tt, s') → is_Some (holders s !! l) ∧ s' = set_holders (<[l := cur s]> (holders s)) s0.
Proof.
  intros H. unfold set_holder in H. minv H as t s1 E. apply lift_inv in E as (v & E & ->).
  cbn [sc put_stack set_stacks] in E. rewrite (thread_current_run _ (a_sched _ Ha)) in E. injection E as <- <-. minv H as h s1 E. unfold get_holder in E.
  apply gets_opt_inv in E as [Eh ->]. injection H as <-. split; [by exists h|done].
Qed.

Lemma lock_release_inv l s' :
  lock_release l s0 = Ret (tt, s') →
  holders s !! l = Some (cur s) ∧ push [FSemaUp (SLock l)] (set_holders (<[l := 0]> (holders s)) s0) = Ret (tt, s').
Proof.
  intros H. unfold lock_release in H. minv H as b s1 E. apply held_inv in E as (-> & h & Eh & ->); [|done].
  minv H as u s1 E. apply assert_inv in E as [Hb%bool_decide_eq_true ->]. subst h.
  rewrite (bind_Ret _ _ _ _ _ eq_refl) in H. done.
Qed.

Lemma cond_wait_inv c l s' :
  cond_wait c l s0 = Ret (tt, s') →
  ∃ ws, s' = put_stack (cur s) ([FLockRelease l; FSemaDown (SWait (cur s)) []; FLockAcquire l] ++ fs)
    (set_conds (<[c := ws]> (conds s)) (set_semas (<[SWait (cur s) := Sema 0 []]> (semas s)) s0)).
Proof.
  intros H. unfold cond_wait in H. minv H as x s1 E. apply lift_inv in E as (v & [= <- <-] & ->).
  minv H as u s1 E. apply assert_inv in E as [_ ->]. minv H as b s1 E. apply held_inv in E as [-> _]; [|done].
  minv H as u1 s1 E. apply assert_inv in E as [_ ->]. minv H as t s1 E. apply lift_inv in E as (v & E & ->).
  cbn [sc set_sc put_stack set_stacks] in E. rewrite (thread_current_run _ (a_sched _ Ha)) in E. injection E as <- <-.
  rewrite (bind_Ret _ _ _ _ _ eq_refl) in H. minv H as ws s1 E. unfold get_cond in E. apply gets_opt_inv in E as [_ ->].
  rewrite (bind_Ret _ _ _ _ _ eq_refl) in H. injection H as <-. exists (ws ++ [cur s]).
  unfold get_stack. cbn. by rewrite lookup_insert_eq.
Qed.

Lemma cond_signal_inv c l s' :
  cond_signal c l s0 = Ret (tt, s') →
  s' = s0 ∨ ∃ t rest, push [FSemaUp (SWait t)] (set_conds (<[c := rest]> (conds s)) s0) = Ret (tt, s').
Proof.
  intros H. unfold cond_signal in H. minv H as x s1 E. apply lift_inv in E as (v & [= <- <-] & ->).
  minv H as u s1 E. apply assert_inv in E as [_ ->]. minv H as b s1 E. apply held_inv in E as [-> _]; [|done].
  minv H as u1 s1 E. apply assert_inv in E as [_ ->]. minv H as ws s1 E. unfold get_cond in E.
  apply gets_opt_inv in E as [_ ->]. destruct ws as [|t rest]; [injection H as <-; left; by destruct s|].
  rewrite (bind_Ret _ _ _ _ _ eq_refl) in H. right. exists t, rest. done.
Qed.

(** Pushes on states that differ from [s0] in locks and condition variables. *)
Lemma push_kind gs s1 s' :
  push gs s1 = Ret (tt, s') → sc s1 = sc s → semas s1 = semas s → stacks s1 = stacks s0 →
  heavy f → loopless gs → wf_stack (gs ++ fs) → tails gs = [] → kind s s'.
Proof.
  intros [= <-] E1 E2 E3 Hh Hl Hw Ht. apply (kind_local s _ (gs ++ fs)). apply plain_step; try done.
  - by cbn; rewrite E1.
  - unfold get_stack. cbn. rewrite E1, E3. stk.
  - intros E. by destruct (not_idle Hh).
  - by apply semas_kept.
Qed.

Lemma locks_kind s' :
  (∃ l, (f = FLockAcquire l ∧ lock_acquire l s0 = Ret (tt, s')) ∨
        (f = FLockTryAcquire l ∧ lock_try_acquire l s0 = Ret (tt, s')) ∨
        (f = FSetHolder l ∧ set_holder l s0 = Ret (tt, s')) ∨
        (f = FLockRelease l ∧ lock_release l s0 = Ret (tt, s'))) → kind s s'.
Proof.
  intros (l & [[Hf H]|[[Hf H]|[[Hf H]|[Hf H]]]]); (assert (heavy f) as Hh by (by rewrite Hf)).
  - apply lock_acquire_inv in H. apply (push_kind _ _ _ H); try done; [notloop|]. split; [apply popped_wf|done].
  - apply lock_try_inv in H. apply (push_kind _ _ _ H); try done; [notloop|]. split; [apply popped_wf|done].
  - apply set_holder_inv in H as [_ ->]. apply quiet; try done. intros E. by destruct (not_idle Hh).
  - apply lock_release_inv in H as [_ H]. apply (push_kind _ _ _ H); try done; [notloop|]. split; [apply popped_wf|done].
Qed.

Lemma conds_kind s' :
  (∃ c l, (f = FCondWait c l ∧ cond_wait c l s0 = Ret (tt, s')) ∨
          (f = FCondSignal c l ∧ cond_signal c l s0 = Ret (tt, s')) ∨
          (f = FCondBroadcast c l ∧ cond_broadcast c l s0 = Ret (tt, s'))) → kind s s'.
Proof.
  intros (c & l & [[Hf H]|[[Hf H]|[Hf H]]]); (assert (heavy f) as Hh by (by rewrite Hf)).
  - apply cond_wait_inv in H as [ws ->].
    apply (kind_local s _ ([FLockRelease l; FSemaDown (SWait (cur s)) []; FLockAcquire l] ++ fs)).
    apply plain_step; try done.
    + stk.
    + notloop.
    + repeat split; apply popped_wf.
    + intros E. by destruct (not_idle Hh).
    + apply (semas_put _ (SWait (cur s)) 0 []); [done|lia|by left].
  - apply cond_signal_inv in H as [-> |(t & rest & H)].
    + apply quiet; try done. intros E. by destruct (not_idle Hh).
    + apply (push_kind _ _ _ H); try done; [notloop|]. split; [apply popped_wf|done].
  - unfold cond_broadcast in H. minv H as ws s1 E. unfold get_cond in E. apply gets_opt_inv in E as [_ ->].
    destruct ws as [|t rest].
    + injection H as <-. apply quiet; try done. intros E. by destruct (not_idle Hh).
    + apply (push_kind _ _ _ H); try done; [notloop|]. repeat split. apply popped_wf.
Qed.

Lemma create_kind page nm prio s' :
  f = FCreate nm prio [] → page_ok s page → thread_create page nm prio [] s0 = Ret (tt, s') → kind s s'.
Proof.
  intros Hf Hp H. assert (heavy f) as Hh by (by rewrite Hf). pose proof (a_wf _ Ha (cur s)) as Hw.
  rewrite Ef, Hf in Hw. destruct Hw as [_ (Hfs & _ & Hpr)]. unfold thread_create in H. case_bool_decide as H0.
  { injection H as <-. apply quiet; try done. intros E. by destruct (not_idle Hh). }
  rewrite (bind_Ret _ _ _ tt (set_sc (born page (new_thread page nm prio) (sc s)) s0)) in H
    by (apply lift_run; exact (init_thread_run _ _ page nm prio (a_sched _ Ha) H0 Hpr)).
  rewrite (bind_Ret _ _ _ _ _ eq_refl) in H. injection H as <-.
  assert (page ≠ cur s) as Hpc.
  { intros E. pose proof (si_running _ _ (a_sched _ Ha)) as Hr. apply alive_threads in Hr. by rewrite <- E in Hr. }
  apply (kind_birth s _ page f [FLockAcquire tid_lock; FTid; FLockRelease tid_lock; FCreateTail page []]); [by rewrite Ef, Hfs|by rewrite Hf|].
  split; try done.
  - exact (born_ok page (new_thread page nm prio) (sc s) (a_sched _ Ha) Hp H0 eq_refl eq_refl).
  - exact (not_idle Hh).
  - intros t v. exact (born_status page (new_thread page nm prio) (sc s) t v).
  - intros t. unfold get_stack. cbn. rewrite Hfs. destruct (decide (t = cur s)) as [->|Ht].
    + rewrite lookup_insert_eq. cbn. rewrite lookup_insert_ne by done. by rewrite lookup_insert_eq.
    + rewrite lookup_insert_ne by done. case_decide; [subst; by rewrite lookup_insert_eq|].
      by rewrite !lookup_insert_ne.
  - notloop.
Qed.

(** The three frames [thread_create] lays out on the new stack. *)
Lemma alloc_frame_run v st t th n :
  sched_inv v st → threads v !! t = Some th → n `mod` 4 = 0 →
  alloc_frame t n v = Ret (tt, set_threads (alter (λ th, with_stack (u32 (stack th - n)) th) t) v).
Proof.
  intros Hok Ht Hn. unfold alloc_frame. run_step (is_thread_run _ _ _ _ Hok Ht). rewrite assert_bind by done.
  rewrite assert_bind by (by apply bool_decide_eq_true_2). exact (upd_thread_run _ _ _ _ Ht).
Qed.

Lemma alloc_frame_lift v s1 st t w n :
  sc s1 = v → sched_inv v st → has_status v t w → n `mod` 4 = 0 →
  ∃ v', lift (alloc_frame t n) s1 = Ret (tt, set_sc v' s1) ∧ sched_inv v' st ∧ running v' = running v ∧
    idle_thread v' = idle_thread v ∧ ready_list v' = ready_list v ∧ ∀ u x, has_status v' u x ↔ has_status v u x.
Proof.
  intros Es Hok Hw Hn. pose proof Hw as Hw'. apply has_status_Some in Hw' as (th & Ht & _).
  eexists. split; [apply lift_run; rewrite Es; exact (alloc_frame_run _ _ _ _ _ Hok Ht Hn)|].
  split_and!; [by apply harmless_ok|done|done|done|]. intros u x. by apply harmless_status.
Qed.

Lemma create_tail_kind t s' :
  f = FCreateTail t [] → thread_create_tail t [] s0 = Ret (tt, s') → kind s s'.
Proof.
  intros Hf H. assert (heavy f) as Hh by (by rewrite Hf). pose proof (not_idle Hh) as Hni.
  pose proof (a_wf _ Ha (cur s)) as Hw. rewrite Ef, Hf in Hw. destruct Hw as [_ [Htl _]].
  assert (t ∈ tails (get_stack s (cur s))) as Hin by (rewrite Ef, Hf; left).
  destruct (a_new _ Ha _ _ Hin) as (Hbl & Hst & Hti). pose proof Hbl as Hbl'. apply has_status_Some in Hbl' as (th & Ht & _).
  assert (t ≠ cur s) as Htc by (intros ->; by apply cur_not_blocked in Hbl).
  unfold thread_create_tail in H. rewrite (bind_Ret _ _ _ s0 s0) in H by done.
  set (v0 := set_threads (alter (with_tid (default 0 (rets s0 !! running (sc s0)))) t) (sc s)).
  rewrite (bind_Ret _ _ _ tt (set_sc v0 s0)) in H by (apply lift_run; exact (upd_thread_run _ _ _ _ Ht)).
  assert (sched_ok v0) as Hok0 by (by apply harmless_ok, Ha).
  assert (∀ u x, has_status v0 u x ↔ has_status (sc s) u x) as Hs0 by (intros; by apply harmless_status).
  destruct (alloc_frame_lift v0 (set_sc v0 s0) _ t THREAD_BLOCKED 12 eq_refl Hok0) as (v1 & E1 & Hok1 & R1 & I1 & L1 & Hs1); [by apply Hs0|done|].
  rewrite (bind_Ret _ _ _ _ _ E1) in H.
  destruct (alloc_frame_lift v1 (set_sc v1 (set_sc v0 s0)) _ t THREAD_BLOCKED 4 eq_refl Hok1) as (v2 & E2 & Hok2 & R2 & I2 & L2 & Hs2); [by apply Hs1, Hs0|done|].
  rewrite (bind_Ret _ _ _ _ _ E2) in H.
  destruct (alloc_frame_lift v2 (set_sc v2 (set_sc v1 (set_sc v0 s0))) _ t THREAD_BLOCKED 28 eq_refl Hok2) as (v3 & E3 & Hok3 & R3 & I3 & L3 & Hs3); [by apply Hs2, Hs1, Hs0|done|].
  rewrite (bind_Ret _ _ _ _ _ E3) in H. rewrite (bind_Ret _ _ _ _ _ eq_refl) in H.
  assert (∀ u x, has_status v3 u x ↔ has_status (sc s) u x) as Hs by (intros; by rewrite Hs3, Hs2, Hs1, Hs0).
  assert (idle_thread v3 = idle_of s) as Hi3 by (by rewrite I3, I2, I1).
  rewrite (lift_run _ _ tt (woken t v3)) in H by (apply (thread_unblock_run v3 THREAD_RUNNING); [done|by apply Hs]).
  injection H as <-. apply (kind_wake s _ t f fs [FKernelThread] Ef). split; try done.
  - apply woken_ok; [done|by apply Hs|by rewrite Hi3].
  - cbn. by rewrite R3, R2, R1.
  - cbn. by rewrite L3, L2, L1.
  - intros u x. change (has_status (woken t v3) u x ↔ if decide (u = t) then x = THREAD_READY else has_status (sc s) u x).
    rewrite woken_status by (by apply Hs). by case_decide; [|apply Hs].
  - intros u. unfold get_stack. cbn. destruct (decide (u = cur s)) as [->|].
    + rewrite lookup_insert_ne by done. by rewrite lookup_insert_eq.
    + case_decide; [subst; by rewrite lookup_insert_eq|by rewrite !lookup_insert_ne].
  - repeat split; [apply Forall_nil_2|]. by intros p ?%elem_of_nil.
  - intros u Hu. assert (get_stack (set_sc (woken t v3) (put_stack t [FKernelThread] (set_sc v3 (set_sc v2 (set_sc v1 (set_sc v0 s0)))))) u
      = if decide (u = cur s) then fs else if decide (u = t) then [FKernelThread] else get_stack s u) as Hg.
    { unfold get_stack. cbn. destruct (decide (u = cur s)) as [->|].
      - rewrite lookup_insert_ne by done. by rewrite lookup_insert_eq.
      - case_decide; [subst; by rewrite lookup_insert_eq|by rewrite !lookup_insert_ne]. }
    rewrite Hg in Hu. case_decide as Eu; [rewrite Htl in Hu; by apply elem_of_nil in Hu|].
    case_decide; [by apply elem_of_nil in Hu|]. apply Eu. exact (a_new_one _ Ha _ _ _ Hu Hin).
  - intros m sm' Hm. exists sm'. split; [done|]. destruct (a_sema _ Ha _ _ Hm) as [Hr _]. split; [done|]. left.
    split; [done|]. intros Hw. destruct (a_wait _ Ha _ _ _ Hm Hw) as (_ & _ & o & k & gs & E). by rewrite Hst in E.
Qed.

Lemma exit_kind s' : f = FExit → lift thread_exit s0 = Ret (tt, s') → kind s s'.
Proof.
  intros Hf H. assert (heavy f) as Hh by (by rewrite Hf). pose proof (not_idle Hh) as Hni.
  pose proof (a_wf _ Ha (cur s)) as Hw. rewrite Ef, Hf in Hw. destruct Hw as [_ Hfs].
  rewrite (lift_run thread_exit s0 _ _ (thread_exit_run (sc s) (a_sched _ Ha) Hni (or_intror (or_introl (a_idle _ Ha))))) in H.
  injection H as <-. apply (kind_switch s _ fs THREAD_DYING). split; try done.
  - apply popped_stack.
  - apply popped_wf.
  - by rewrite Hfs; apply Forall_nil_2.
  - apply popped_tails.
  - intros m sm' Hm. exists sm'. split_and!; [done|done|]. by left.
Qed.

Lemma idle_loop_kind s' : f = FIdleLoop → idle_loop s0 = Ret (tt, s') → kind s s'.
Proof.
  intros Hf H. pose proof (a_wf _ Ha (cur s)) as Hw. rewrite Ef, Hf in Hw. destruct Hw as [_ Hfs].
  unfold idle_loop in H. rewrite (bind_Ret _ _ _ _ _ (lift_run _ s0 _ _ (intr_disable_run (sc s)))) in H.
  rewrite (bind_Ret _ _ _ _ _ eq_refl) in H.
  rewrite (lift_run _ _ tt (departs THREAD_BLOCKED (set_intr false (sc s)))) in H.
  2:{ apply thread_block_run; [by apply set_intr_ok, Ha|done|]. right. left. apply Ha. }
  injection H as <-. apply (kind_switch s _ [FIdleResume] THREAD_BLOCKED). split; try done.
  - rewrite Hfs. stk.
  - by apply Forall_nil_2.
  - by intros p ?%elem_of_nil.
  - intros _. exists [], FIdleResume. split_and!; [done|by right|apply Forall_nil_2].
  - intros m sm' Hm. exists sm'. split_and!; [done|done|]. by left.
Qed.

Lemma idle_resume_kind s' : f = FIdleResume → idle_resume s0 = Ret (tt, s') → kind s s'.
Proof.
  intros Hf H. pose proof (a_wf _ Ha (cur s)) as Hw. rewrite Ef, Hf in Hw. destruct Hw as [_ Hfs].
  unfold idle_resume in H. rewrite (bind_Ret _ _ _ _ _ (lift_run _ s0 _ _ eq_refl)) in H. injection H as <-.
  apply (kind_local s _ ([FIdleLoop] ++ fs)). apply plain_step; try done.
  - stk.
  - notloop.
  - split; [apply popped_wf|by rewrite Hfs].
  - intros _. rewrite Hfs. exists [], FIdleLoop. split_and!; [done|by left|apply Forall_nil_2].
  - by apply semas_kept.
Qed.
End frame_steps.

(** [thread_yield], called by the thread or by the end of a timer interrupt. *)
Lemma yield_kind k ns s1 s s' :
  kA s → same_sched (sc s) (sc s1) → intr_on (sc s1) = false ∨ sc s1 = sc s → semas s1 = semas s →
  (∀ t, get_stack s1 t = if decide (t = cur s) then ns else get_stack s t) →
  loopless ns → wf_stack ns → (∀ p, p ∈ tails ns → p ∈ tails (get_stack s (cur s))) →
  (cur s = idle_of s → idle_stack ns) → Forall is_light k →
  yield_then k s1 = Ret (tt, s') → kind s s'.
Proof.
  intros Ha Hs _ Hm Hst Hl Hw Ht Hi Hk H. pose proof (same_sched_inv _ _ _ Hs (a_sched _ Ha)) as Hok1.
  set (s2 := Kernel (sc s1) (semas s1) (holders s1) (conds s1) (<[cur s := ns]> (stacks s)) (rets s1)).
  assert (local_step ns s s2) as Hloc.
  { split; try done.
    - apply Hs.
    - apply Hs.
    - apply Hs.
    - intros t v. unfold has_status. cbn. by rewrite (ss_threads _ _ Hs).
    - intros t. unfold get_stack. cbn. case_decide; [subst; by rewrite lookup_insert_eq|by rewrite lookup_insert_ne].
    - cbn. rewrite Hm. by apply semas_kept. }
  unfold yield_then in H. rewrite (bind_Ret _ _ _ s1 s1) in H by done.
  rewrite (bind_Ret _ _ _ _ _ (lift_run _ s1 _ _ (thread_yield_run (sc s1) Hok1))) in H. injection H as <-.
  assert (cur s2 = cur s) as Hc by exact (ss_running _ _ Hs).
  assert (get_stack s2 (cur s2) = ns) as Hns by (rewrite Hc; unfold get_stack; cbn; by rewrite lookup_insert_eq).
  assert (Forall (λ f, ¬ is_loop f) k) as Hkl by (eapply Forall_impl; [exact Hk|]; intros [] Hg Hn; by destruct Hg || by destruct Hn).
  assert (wf_stack (k ++ ns) ∧ tails (k ++ ns) = tails ns) as [Hwk Htk].
  { clear -Hk Hw. induction Hk as [|g k Hg Hk [IH1 IH2]]; [done|]. by destruct g. }
  apply (kind_yield s _ s2 ns (FSetLevel (intr_on (sc s1)) :: k ++ ns) Hloc). split; try done.
  - intros t. rewrite Hc. cbn [sc]. rewrite get_put_stack. change (running (sc s1)) with (cur s2). rewrite Hc.
    change (get_stack (set_sc _ s1) ?x) with (get_stack s1 x). rewrite !Hst. rewrite (decide_True (P := cur s = cur s)) by done.
    case_decide; [done|]. unfold get_stack. cbn. by rewrite lookup_insert_ne.
  - by apply Forall_app.
  - intros p. change (tails (_ :: k ++ ns)) with (tails (k ++ ns)). by rewrite Htk, Hns.
  - intros E. destruct Hi as (pre & x & -> & Hx & Hp); [rewrite <- Hc, E; exact (ss_idle _ _ Hs)|].
    exists (FSetLevel (intr_on (sc s1)) :: k ++ pre), x. split_and!; [by cbn; rewrite <- app_assoc|done|].
    constructor; [done|]. by apply Forall_app.
  - intros m sm' E. exists sm'. split_and!; [done|done|]. by left.
Qed.

Lemma tick_kind s s' : kA s → intr_on (sc s) = true → tick s = Ret (tt, s') → kind s s'.
Proof.
  intros Ha Hon H. unfold tick in H. destruct (timer_interrupt_run (sc s) (a_sched _ Ha)) as (y & v & E & Hs & Hoff).
  rewrite (bind_Ret _ _ _ _ _ (lift_run _ s _ _ E)) in H. destruct y.
  - apply (yield_kind [FIret] (get_stack s (cur s)) (set_sc v s) s s' Ha Hs); try done.
    + by left.
    + intros t. rewrite get_stack_sc. case_decide; [by subst|done].
    + by apply (a_on _ Ha).
    + apply Ha.
    + intros E'. rewrite E'. apply Ha.
    + by constructor.
  - injection H as <-. apply (kind_local s _ (get_stack s (cur s))). split; try done.
    + apply set_intr_ok. exact (same_sched_inv _ _ _ Hs (a_sched _ Ha)).
    + apply Hs.
    + apply Hs.
    + apply Hs.
    + intros t w. unfold has_status. cbn. by rewrite (ss_threads _ _ Hs).
    + intros t. rewrite get_stack_sc. case_decide; [by subst|done].
    + by apply (a_on _ Ha).
    + apply Ha.
    + intros E'. rewrite E'. apply Ha.
    + by apply semas_kept.
Qed.

Lemma frame_kind page s f fs s' :
  kA s → get_stack s (cur s) = f :: fs → page_ok s page →
  run_frame page f (put_stack (cur s) fs s) = Ret (tt, s') → kind s s'.
Proof.
  intros Ha Ef Hp H. pose proof (a_wf _ Ha (cur s)) as Hw. rewrite Ef in Hw. destruct Hw as [Hwfs Hwf].
  destruct f as [lv| |m k|m old k|m k|m|l|l|l|l|c l|c l|c l|nm prio e| |t e| | | |m| |]; cbn [run_frame] in H.
  - minv H as u s1 E. injection H as <-. apply lift_inv in E as (v & E & ->).
    rewrite intr_set_level_run in E by exact (ext_off s Ha). injection E as _ <-.
    eapply quiet; try done. by apply (idle_rest s (FSetLevel lv)).
  - injection H as <-. eapply quiet; try done. by apply (idle_rest s FIret).
  - by eapply sema_down_kind.
  - by eapply sema_loop_kind.
  - by eapply sema_try_down_kind.
  - by eapply sema_up_kind.
  - eapply locks_kind; [done|done|]. exists l. by left.
  - eapply locks_kind; [done|done|]. exists l. right. by left.
  - eapply locks_kind; [done|done|]. exists l. right. right. by left.
  - eapply locks_kind; [done|done|]. exists l. right. right. by right.
  - eapply conds_kind; [done|done|]. exists c, l. by left.
  - eapply conds_kind; [done|done|]. exists c, l. right. by left.
  - eapply conds_kind; [done|done|]. exists c, l. right. by right.
  - destruct Hwf as (_ & -> & _). by eapply create_kind.
  - unfold take_tid in H. rewrite (bind_Ret _ _ _ _ _ (lift_run _ _ _ _ eq_refl)) in H. injection H as <-.
    eapply quiet; try done. intros E. by destruct (not_idle s _ _ Ha Ef I).
  - destruct Hwf as [_ ->]. by eapply create_tail_kind.
  - minv H as u s1 E. injection H as <-. apply lift_inv in E as (v & E & ->).
    change (intr_set_level true (sc s) = Ret (u, v)) in E.
    rewrite intr_set_level_run in E by exact (ext_off s Ha). injection E as _ <-.
    eapply quiet; try done. intros E'. by destruct (not_idle s _ _ Ha Ef I).
  - apply (yield_kind [] fs (put_stack (cur s) fs s) s s' Ha); try done.
    + by right.
    + apply popped_stack.
    + by eapply popped_loopless.
    + by apply (popped_tails s FYield).
    + intros E'. by destruct (not_idle s _ _ Ha Ef I).
  - by eapply exit_kind.
  - done.
  - by eapply idle_loop_kind.
  - by eapply idle_resume_kind.
Qed.

Lemma user_not_idle s : kA s → get_stack s (cur s) = [] → cur s ≠ idle_of s.
Proof.
  intros Ha E Hi. pose proof (a_idle_stack _ Ha) as (pre & x & Hs & _). rewrite <- Hi, E in Hs. by destruct pre.
Qed.

(** A call that only enters the kernel. *)
Lemma enter_kind gs s s' :
  kA s → get_stack s (cur s) = [] → push gs s = Ret (tt, s') → loopless gs → wf_stack gs → tails gs = [] → kind s s'.
Proof.
  intros Ha E [= <-] Hl Hw Ht. apply (kind_local s _ gs). split; try done.
  - apply Ha.
  - intros t. rewrite get_put_stack, E, app_nil_r. done.
  - intros p. rewrite Ht. by intros ?%elem_of_nil.
  - intros E'. by destruct (user_not_idle s Ha E).
  - by apply semas_kept.
Qed.

(** A call that initialises an object. *)
Lemma object_kind s s' :
  kA s → get_stack s (cur s) = [] → sc s' = sc s → stacks s' = stacks s →
  (∀ m sm', semas s' !! m = Some sm' → 0 ≤ value sm' < 2 ^ 32 ∧
     (waiters sm' = [] ∨ ∃ sm, semas s !! m = Some sm ∧ waiters sm' = waiters sm)) → kind s s'.
Proof.
  intros Ha E E1 E2 Hm. apply (kind_local s _ []). split; rewrite ?E1; try done.
  - apply Ha.
  - intros t. unfold get_stack in *. rewrite E2. case_decide; [by subst|done].
  - by apply Forall_nil_2.
  - by intros p ?%elem_of_nil.
  - intros E'. by destruct (user_not_idle s Ha E).
Qed.

Lemma call_kind o s s' : kA s → get_stack s (cur s) = [] → call_ok s o → run_call o s = Ret (tt, s') → kind s s'.
Proof.
  intros Ha E Ho H. destruct o as [n v|n|n|n|l|l|l|l|c|c l|c l|c l|nm prio| |]; cbn [run_call call_ok] in *.
  - injection H as <-. apply (object_kind s); try done. apply (semas_put s Ha _ (SId n) v []); [done|lia|by left].
  - apply (enter_kind _ _ _ Ha E H); [notloop| |done]. by split.
  - apply (enter_kind _ _ _ Ha E H); [notloop| |done]. by split.
  - by apply (enter_kind _ _ _ Ha E H); [notloop| |].
  - unfold lock_init in H. rewrite (bind_Ret _ _ _ _ _ eq_refl) in H. injection H as <-.
    apply (object_kind s); try done. apply (semas_put s Ha _ (SLock l) 1 []); [done|lia|by left].
  - by apply (enter_kind _ _ _ Ha E H); [notloop| |].
  - by apply (enter_kind _ _ _ Ha E H); [notloop| |].
  - by apply (enter_kind _ _ _ Ha E H); [notloop| |].
  - injection H as <-. apply (object_kind s); try done. by apply semas_kept.
  - by apply (enter_kind _ _ _ Ha E H); [notloop| |].
  - by apply (enter_kind _ _ _ Ha E H); [notloop| |].
  - by apply (enter_kind _ _ _ Ha E H); [notloop| |].
  - apply (enter_kind _ _ _ Ha E H); [notloop| |done]. split; [done|]. split_and!; [done|done|lia|lia].
  - by apply (enter_kind _ _ _ Ha E H); [notloop| |].
  - by apply (enter_kind _ _ _ Ha E H); [notloop| |].
Qed.

Lemma kstep_kind s s' : kA s → kstep s s' → kind s s'.
Proof.
  intros Ha Hk. destruct Hk as [s page f fs s' Ef Hp H|s o s' Ef Ho H|s s' Hon H].
  - apply (frame_kind page s f fs s' Ha); [|done|done]. unfold get_stack. by rewrite Ef.
  - apply (call_kind o s s' Ha); [|done|done]. unfold get_stack. by rewrite Ef.
  - by apply (tick_kind s s' Ha).
Qed.

(** ** Boot *)

(** The state after boot, by its fields. *)
Section boot.
Context (s : kernel).
Local Abbreviation main := 3221282816.
Local Abbreviation idler := 3222278144.
Hypothesis (Ht : threads (sc s) = {[ main := Thread 1 THREAD_RUNNING "main" 3221286912 31 THREAD_MAGIC;
                                     idler := Thread 2 THREAD_BLOCKED "idle" 3222282196 0 THREAD_MAGIC ]}).
Hypothesis (Hr : cur s = main) (Hrl : ready_list (sc s) = []) (Hal : all_list (sc s) = [main; idler]).
Hypothesis (Hi : idle_of s = idler) (Hx : in_external_intr (sc s) = false).
Hypothesis (Hst : stacks s = {[ main := []; idler := [FIdleResume] ]}).
Hypothesis (Hsm : semas s = {[ SLock 0 := Sema 1 []; SId 0 := Sema 0 [] ]}).

Lemma boot_threads t th :
  threads (sc s) !! t = Some th →
  (t = main ∧ status th = THREAD_RUNNING ∧ magic th = THREAD_MAGIC) ∨
  (t = idler ∧ status th = THREAD_BLOCKED ∧ magic th = THREAD_MAGIC).
Proof. rewrite Ht, lookup_insert_Some, lookup_singleton_Some. intros [[<- <-]|[_ [<- <-]]]; auto. Qed.

Lemma boot_status t st :
  has_status (sc s) t st ↔ (t = main ∧ st = THREAD_RUNNING) ∨ (t = idler ∧ st = THREAD_BLOCKED).
Proof.
  split.
  - intros (th & Hl & <-)%has_status_Some. apply boot_threads in Hl as [(-> & -> & _)|(-> & -> & _)]; auto.
  - unfold has_status. rewrite Ht. intros [[-> ->]|[-> ->]]; [by rewrite lookup_insert_eq|].
    by rewrite lookup_insert_ne, lookup_singleton_eq.
Qed.

Lemma boot_stacks t : get_stack s t = if decide (t = idler) then [FIdleResume] else [].
Proof.
  unfold get_stack. rewrite Hst. destruct (decide (t = main)) as [->|]; [by rewrite lookup_insert_eq|].
  rewrite lookup_insert_ne by done. case_decide; [subst; by rewrite lookup_singleton_eq|by rewrite lookup_singleton_ne].
Qed.

Lemma boot_semas m sm :
  semas s !! m = Some sm → (m = SLock 0 ∧ sm = Sema 1 []) ∨ (m = SId 0 ∧ sm = Sema 0 []).
Proof. rewrite Hsm, lookup_insert_Some, lookup_singleton_Some. naive_solver. Qed.

Lemma boot_sched : sched_ok (sc s).
Proof.
  split; rewrite ?Hr, ?Hrl, ?Hal, ?Hi.
  - apply boot_status. by left.
  - intros t H. apply boot_status in H. naive_solver.
  - apply NoDup_nil_2.
  - intros t. rewrite boot_status. split; [by intros ?%elem_of_nil|]. naive_solver.
  - intros t th H. by apply boot_threads in H as [(_ & _ & ?)|(_ & _ & ?)].
  - rewrite Ht, lookup_insert_ne, lookup_singleton_ne by done. done.
  - intros _. exists THREAD_BLOCKED. rewrite boot_status. naive_solver.
  - repeat constructor; [|by intros ?%elem_of_nil]. by intros ?%list_elem_of_singleton.
  - intros t. rewrite elem_of_cons, list_elem_of_singleton. setoid_rewrite boot_status. naive_solver.
  - intros t H. apply boot_status in H. naive_solver.
  - done.
Qed.

Lemma boot_fields_kA : kA s.
Proof.
  split; rewrite ?Hr, ?Hi.
  - apply boot_sched.
  - done.
  - rewrite boot_stacks, decide_True by done. exists [], FIdleResume. split_and!; [done|by right|apply Forall_nil_2].
  - intros t H. rewrite boot_stacks. case_decide; [|done]. subst t. rewrite Ht, lookup_insert_ne, lookup_singleton_eq in H; done.
  - intros t. rewrite boot_stacks. by case_decide.
  - intros t. rewrite boot_stacks. case_decide; apply Forall_nil_2.
  - intros _. rewrite boot_stacks, decide_False by done. apply Forall_nil_2.
  - intros m sm Hm. apply boot_semas in Hm as [[-> ->]|[-> ->]]; (split; [cbn; lia|apply NoDup_nil_2]).
  - intros m sm t Hm Hin. apply boot_semas in Hm as [[-> ->]|[-> ->]]; by apply elem_of_nil in Hin.
  - intros t p. rewrite boot_stacks. case_decide; by intros ?%elem_of_nil.
  - intros t t' p. rewrite boot_stacks. case_decide; by intros ?%elem_of_nil.
Qed.
End boot.

Lemma boot_kA : kA booted.
Proof. apply boot_fields_kA; vm_compute; reflexivity. Qed.

Lemma reachable_kA s : rtc kstep booted s → kA s.
Proof.
  intros Hr. assert (∀ a, rtc kstep a s → kA a → kA s) as H; [|apply (H booted Hr boot_kA)].
  clear Hr. intros a Hr. induction Hr as [|a b c Hab _ IH]; [done|]. intros Ha. apply IH. apply (kind_kA a b Ha). by apply kstep_kind.
Qed.
