(* ===== verification/SynchEffects.v ===== *)
(** * SynchEffects: the effect of each step on semaphores, locks and stacks

    Every step of the kernel, whatever it does to the scheduler, replaces the top [rs] of
    the current thread's stack by [ps] and changes at most one semaphore and one lock
    holder ([effect]).  The counting arguments of the specification rest on it. *)

From S2P Require Import Prelude Vaddr Thread Synch SynchFacts.

(** ** Sums over the stacks *)

Definition total (g : list frame → Z) (m : gmap Z (list frame)) : Z := map_fold (λ _ fs acc, g fs + acc) 0 m.

Section total.
Context (g : list frame → Z).
Hypothesis (g_nil : g [] = 0).

Lemma total_insert_fresh m t fs : m !! t = None → total g (<[t := fs]> m) = g fs + total g m.
Proof. intros H. unfold total. rewrite map_fold_insert_L; [done| |done]. intros. lia. Qed.

Lemma total_delete m t : total g m = g (default [] (m !! t)) + total g (delete t m).
Proof.
  destruct (m !! t) as [fs|] eqn:E; cbn [default].
  - rewrite <- (insert_delete_id m t fs E) at 1. by rewrite total_insert_fresh by apply lookup_delete_eq.
  - rewrite delete_id, g_nil by done. lia.
Qed.

Lemma total_insert m t fs : total g (<[t := fs]> m) = total g m - g (default [] (m !! t)) + g fs.
Proof.
  rewrite (total_delete (<[t := fs]> m) t), lookup_insert_eq. change (default [] (Some fs)) with fs.
  rewrite delete_insert_eq. pose proof (total_delete m t). lia.
Qed.

Lemma total_zero m : (∀ t, g (default [] (m !! t)) = 0) → total g m = 0.
Proof.
  induction m as [|t fs m Hf IH] using map_ind; intros H; [done|]. rewrite total_insert_fresh by done.
  pose proof (H t) as Ht. rewrite lookup_insert_eq in Ht. change (default [] (Some fs)) with fs in Ht. rewrite Ht, IH; [done|].
  intros u. destruct (decide (u = t)) as [->|]; [by rewrite Hf|]. specialize (H u). by rewrite lookup_insert_ne in H.
Qed.

(** The sum depends on the parts only. *)
Lemma total_ext m m' : (∀ t, g (default [] (m !! t)) = g (default [] (m' !! t))) → total g m = total g m'.
Proof.
  revert m'. induction m as [|t fs m Hf IH] using map_ind; intros m' H.
  - symmetry. apply total_zero. intros t. rewrite <- H, lookup_empty. exact g_nil.
  - rewrite total_insert_fresh by done. rewrite (total_delete m' t). pose proof (H t) as Ht. rewrite lookup_insert_eq in Ht.
    change (default [] (Some fs)) with fs in Ht. rewrite Ht. f_equal. apply IH. intros u.
    destruct (decide (u = t)) as [->|]; [by rewrite Hf, lookup_delete_eq|].
    rewrite lookup_delete_ne by done. specialize (H u). by rewrite lookup_insert_ne in H.
Qed.

Lemma total_nonneg m : (∀ fs, 0 ≤ g fs) → 0 ≤ total g m.
Proof.
  intros Hg. unfold total. apply (map_fold_weak_ind (λ r _, 0 ≤ r)); [lia|].
  intros t fs m' r _ Hr. pose proof (Hg fs). lia.
Qed.

(** Distinct threads with a part each. *)
Lemma total_members (ts : list Z) m :
  (∀ fs, 0 ≤ g fs) → NoDup ts → (∀ t, t ∈ ts → 1 ≤ g (default [] (m !! t))) → Z.of_nat (length ts) ≤ total g m.
Proof.
  intros Hg. revert m. induction ts as [|t ts IH]; intros m Hnd Hin; [by apply total_nonneg|].
  apply NoDup_cons in Hnd as [Hnin Hnd]. rewrite (total_delete m t).
  pose proof (Hin t ltac:(left)). assert (Z.of_nat (length ts) ≤ total g (delete t m)) as Hle.
  { apply IH; [done|]. intros u Hu. rewrite lookup_delete_ne by (by intros ->). apply Hin. by right. }
  cbn [length]. lia.
Qed.

(** A sum that exceeds what the listed threads hold has a part elsewhere. *)
Lemma total_other (ts : list Z) m :
  NoDup ts → (∀ t, t ∈ ts → g (default [] (m !! t)) ≤ 1) → Z.of_nat (length ts) < total g m →
  ∃ t, t ∉ ts ∧ g (default [] (m !! t)) ≠ 0.
Proof.
  revert m. induction ts as [|t ts IH]; intros m Hnd Hin Hlt.
  - cbn in Hlt.
    destruct (decide (map_Forall (λ _ fs, g fs = 0) m)) as [Hall|Hall].
    + rewrite total_zero in Hlt; [lia|]. intros t. destruct (m !! t) as [fs|] eqn:E; [exact (Hall t fs E)|exact g_nil].
    + apply map_not_Forall in Hall as (t & fs & E & Hne); [|apply _]. exists t. rewrite E. split; [apply not_elem_of_nil|done].
  - apply NoDup_cons in Hnd as [Hnin Hnd]. rewrite (total_delete m t) in Hlt. pose proof (Hin t ltac:(left)).
    destruct (IH (delete t m)) as (u & Hu & Hg); [done| |cbn [length] in Hlt; lia|].
    { intros u Hu. rewrite lookup_delete_ne by (by intros ->). apply Hin. by right. }
    destruct (decide (u = t)) as [->|Hne]; [by rewrite lookup_delete_eq in Hg|]. rewrite lookup_delete_ne in Hg by done.
    exists u. split; [|done]. rewrite elem_of_cons. tauto.
Qed.
End total.

(** Counting the frames that satisfy a test. *)
Fixpoint count (p : frame → bool) (fs : list frame) : Z :=
  match fs with
  | [] => 0
  | f :: fs => Z.b2z (p f) + count p fs
  end.

Lemma count_app p fs gs : count p (fs ++ gs) = count p fs + count p gs.
Proof. induction fs as [|f fs IH]; cbn; lia. Qed.

Lemma count_nonneg p fs : 0 ≤ count p fs.
Proof. induction fs as [|f fs IH]; cbn; [lia|]. destruct (p f); cbn; lia. Qed.

Lemma count_elem p f fs : p f = true → f ∈ fs → 1 ≤ count p fs.
Proof.
  intros Hp Hf. induction Hf as [f fs|f g fs Hf IH]; cbn; [rewrite Hp; cbn; pose proof (count_nonneg p fs); lia|].
  specialize (IH Hp). destruct (p g); cbn; lia.
Qed.

Lemma count_zero p fs : count p fs ≠ 0 → ∃ f, f ∈ fs ∧ p f = true.
Proof.
  induction fs as [|f fs IH]; cbn; [done|]. destruct (p f) eqn:E; [intros _; exists f; split; [left|done]|].
  intros (g & Hg & Hp)%IH. exists g. split; [by right|done].
Qed.

Definition frames_of (p : frame → bool) (s : kernel) : Z := total (count p) (stacks s).

Lemma frames_push p t gs s : frames_of p (put_stack t (gs ++ get_stack s t) s) = frames_of p s + count p gs.
Proof. unfold frames_of, get_stack. cbn. rewrite total_insert, count_app by done. lia. Qed.

Lemma frames_put p t fs s : frames_of p (put_stack t fs s) = frames_of p s - count p (get_stack s t) + count p fs.
Proof. unfold frames_of, get_stack. cbn. by rewrite total_insert. Qed.

Lemma frames_nonneg p s : 0 ≤ frames_of p s.
Proof. apply total_nonneg, count_nonneg. Qed.

(** ** Effects *)

(** The current thread's stack has [ps] in the place of [rs]; a new thread may have got
    its first frame. *)
Record moves (rs ps : list frame) (s s' : kernel) : Prop := {
  mv_cur : ∃ fs, get_stack s (cur s) = rs ++ fs ∧ get_stack s' (cur s) = ps ++ fs;
  mv_other : ∀ t, t ≠ cur s → get_stack s' t = get_stack s t ∨ (get_stack s t = [] ∧ get_stack s' t = [FKernelThread])
}.

(** Frames that no counting argument is about. *)
Definition plain (f : frame) : Prop :=
  match f with
  | FSemaLoop _ _ _ | FSetHolder _ | FSemaUp (SLock _) | FSemaDown (SWait _) _ | FSemaTryDown (SWait _) _ => False
  | _ => True
  end.

Inductive effect (s s' : kernel) : Prop :=
| eff_plain rs ps : moves rs ps s s' → Forall plain rs → Forall plain ps →
    (rs = [] → loopless (get_stack s (cur s))) → semas s' = semas s → holders s' = holders s → effect s s'
| eff_wait c l : moves [FCondWait c l] [FLockRelease l; FSemaDown (SWait (cur s)) []; FLockAcquire l] s s' →
    semas s' = <[SWait (cur s) := Sema 0 []]> (semas s) → holders s' = holders s → effect s s'
| eff_sema_init n v : moves [] [] s s' → get_stack s (cur s) = [] → semas s !! SId n = None →
    semas s' = <[SId n := Sema v []]> (semas s) → holders s' = holders s → effect s s'
| eff_lock_init l : moves [] [] s s' → get_stack s (cur s) = [] → semas s !! SLock l = None → holders s !! l = None →
    semas s' = <[SLock l := Sema 1 []]> (semas s) → holders s' = <[l := 0]> (holders s) → effect s s'
| eff_block f m ws old k : moves [f] [FSemaLoop m old k] s s' → semas s !! m = Some (Sema 0 ws) →
    (f = FSemaDown m k ∨ f = FSemaLoop m old k) →
    semas s' = <[m := Sema 0 (ws ++ [cur s])]> (semas s) → holders s' = holders s → effect s s'
| eff_take f m v ws old k : moves [f] k s s' → semas s !! m = Some (Sema v ws) → v ≠ 0 → cont_ok m k →
    (f = FSemaDown m k ∨ f = FSemaLoop m old k ∨ f = FSemaTryDown m k) →
    semas s' = <[m := Sema (v - 1) ws]> (semas s) → holders s' = holders s → effect s s'
| eff_refuse m k : moves [FSemaTryDown m k] [] s s' → semas s' = semas s → holders s' = holders s → effect s s'
| eff_up m v ws : moves [FSemaUp m] [] s s' → semas s !! m = Some (Sema v ws) →
    (∀ t, t ∈ ws → t ∉ tail ws → has_status (sc s') t THREAD_READY) →
    semas s' = <[m := Sema (u32 (v + 1)) (tail ws)]> (semas s) → holders s' = holders s → effect s s'
| eff_holder l : moves [FSetHolder l] [] s s' → is_Some (holders s !! l) →
    semas s' = semas s → holders s' = <[l := cur s]> (holders s) → effect s s'
| eff_release l : moves [FLockRelease l] [FSemaUp (SLock l)] s s' → holders s !! l = Some (cur s) →
    semas s' = semas s → holders s' = <[l := 0]> (holders s) → effect s s'.

Lemma moves_frames p rs ps s s' :
  p FKernelThread = false → moves rs ps s s' → frames_of p s' = frames_of p s - count p rs + count p ps.
Proof.
  intros Hp [(fs & E1 & E2) Ho]. unfold frames_of.
  rewrite (total_ext (count p) eq_refl (stacks s') (<[cur s := ps ++ fs]> (stacks s))).
  - rewrite total_insert by done. fold (get_stack s (cur s)). rewrite E1, !count_app. lia.
  - intros t. fold (get_stack s' t). destruct (decide (t = cur s)) as [->|Ht]; [by rewrite E2, lookup_insert_eq|].
    rewrite lookup_insert_ne by done. fold (get_stack s t). destruct (Ho t Ht) as [-> |[-> ->]]; [done|]. cbn. by rewrite Hp.
Qed.

Lemma count_one p f : p f = true → count p [f] = 1.
Proof. intros H. cbn. by rewrite H. Qed.

Lemma frames_here p s t f : p f = true → f ∈ get_stack s t → 1 ≤ frames_of p s.
Proof.
  intros Hp Hf. unfold frames_of. rewrite (total_delete (count p) eq_refl _ t). fold (get_stack s t).
  pose proof (total_nonneg (count p) (delete t (stacks s)) (count_nonneg p)). pose proof (count_elem p f _ Hp Hf). lia.
Qed.

Lemma moves_here p f ps s s' : moves [f] ps s s' → p f = true → 1 ≤ frames_of p s.
Proof. intros [(fs & E & _) _] Hp. apply (frames_here p s (cur s) f Hp). rewrite E. left. Qed.

Lemma count_plain p fs : (∀ f, plain f → p f = false) → Forall plain fs → count p fs = 0.
Proof. intros Hp H. induction H as [|f fs Hf H IH]; [done|]. cbn. by rewrite (Hp f Hf), IH. Qed.

(** Moves of a state that differs from the popped one in the current stack only. *)
Lemma moves_put rs ps fs s s' v :
  get_stack s (cur s) = rs ++ fs → stacks s' = <[cur s := ps ++ fs]> v →
  (∀ t, t ≠ cur s → v !! t = stacks s !! t) → moves rs ps s s'.
Proof.
  intros E1 E2 Hv. split.
  - exists fs. split; [done|]. unfold get_stack. by rewrite E2, lookup_insert_eq.
  - intros t Ht. left. unfold get_stack. by rewrite E2, lookup_insert_ne, Hv by done.
Qed.

Section frame_effects.
Context (s : kernel) (f : frame) (fs : list frame).
Hypothesis (Ha : kA s) (Ef : get_stack s (cur s) = f :: fs).
Local Abbreviation s0 := (put_stack (running (sc s)) fs s).

Lemma moves_pop s' : stacks s' = stacks s0 → moves [f] [] s s'.
Proof. intros E. exact (moves_put [f] [] fs s s' (stacks s) Ef E (λ _ _, eq_refl)). Qed.

Lemma moves_push gs s1 s' : push gs s1 = Ret (tt, s') → cur s1 = cur s → stacks s1 = stacks s0 → moves [f] gs s s'.
Proof.
  intros [= <-] E1 E2. apply (moves_put [f] gs fs s _ (stacks s0)); [done| |].
  - unfold get_stack. cbn. rewrite E1, E2. cbn. by rewrite lookup_insert_eq.
  - intros t Ht. by cbn; rewrite lookup_insert_ne.
Qed.

(** What follows from the pushed frames alone. *)
Lemma plain_push gs s1 s' :
  push gs s1 = Ret (tt, s') → cur s1 = cur s → stacks s1 = stacks s0 → plain f → Forall plain gs →
  semas s1 = semas s → holders s1 = holders s → effect s s'.
Proof.
  intros H E1 E2 Hf Hg E3 E4. pose proof (moves_push gs s1 s' H E1 E2) as Hm.
  apply (eff_plain s s' [f] gs Hm); [by constructor|done|done|by injection H as <-|by injection H as <-].
Qed.

Lemma plain_pop s' : stacks s' = stacks s0 → plain f → semas s' = semas s → holders s' = holders s → effect s s'.
Proof.
  intros E Hf E1 E2. apply (eff_plain s s' [f] [] (moves_pop s' E)); [by constructor|by constructor|done|done|done].
Qed.

Lemma lift_pop {A} (m : M sched A) a s' : lift m s0 = Ret (a, s') → plain f → effect s s'.
Proof. intros H Hf. apply lift_inv in H as (v & _ & ->). by apply plain_pop. Qed.

Lemma loop_effect m old k v s' :
  running v = cur s → sched_ok v → cont_ok m k → (f = FSemaDown m k ∨ f = FSemaLoop m old k) →
  sema_down_loop m old k (set_sc v s0) = Ret (tt, s') → effect s s'.
Proof.
  intros Hv Hok Hk Hf H. unfold sema_down_loop in H. minv H as sm s1 E. unfold get_sema in E.
  apply gets_opt_inv in E as [Esm ->]. cbn [semas set_sc put_stack set_stacks] in Esm. destruct sm as [n ws]. cbn [value waiters] in H.
  case_bool_decide as Hn.
  - subst n. minv H as t s1 E. apply lift_inv in E as (v1 & E & ->). cbn [sc set_sc] in E. rewrite thread_current_run in E by done.
    injection E as <- <-. minv H as u s1 E. injection E as _ <-. minv H as u1 s1 E. destruct u1.
    pose proof (moves_push _ _ _ E Hv eq_refl) as Hm. injection E as <-. apply lift_inv in H as (v2 & _ & ->).
    eapply (eff_block s _ f m ws old k); [by destruct Hm|done|done| |done]. cbn. by rewrite Hv.
  - minv H as u s1 E. injection E as _ <-. minv H as u1 s1 E. destruct u1.
    pose proof (moves_push _ _ _ E Hv eq_refl) as Hm. injection E as <-. minv H as u2 s1 E. apply lift_inv in E as (v2 & _ & ->).
    injection H as <-. eapply (eff_take s _ f m n ws old k); [by destruct Hm|done|done|done|tauto|done|done].
Qed.

Lemma sema_down_effect m k s' : f = FSemaDown m k → sema_down m k s0 = Ret (tt, s') → effect s s'.
Proof.
  intros Hf H. unfold sema_down in H. minv H as c s1 E. apply lift_inv in E as (v & [= <- <-] & ->).
  minv H as u s1 E. apply assert_inv in E as [_ ->]. minv H as o s1 E. apply lift_inv in E as (v & [= <- <-] & ->).
  pose proof (a_wf _ Ha (cur s)) as Hw. rewrite Ef, Hf in Hw. apply loop_effect in H; [done|done| |by destruct Hw|by left].
  apply (set_intr_ok false), Ha.
Qed.

Lemma sema_loop_effect m old k s' : f = FSemaLoop m old k → sema_down_loop m old k s0 = Ret (tt, s') → effect s s'.
Proof.
  intros Hf H. pose proof (a_wf _ Ha (cur s)) as Hw. rewrite Ef, Hf in Hw.
  apply (loop_effect m old k (sc s)); [done|apply Ha|by destruct Hw|by right|exact H].
Qed.

Lemma sema_try_down_effect m k s' : f = FSemaTryDown m k → sema_try_down m k s0 = Ret (tt, s') → effect s s'.
Proof.
  intros Hf H. pose proof (a_wf _ Ha (cur s)) as Hw. rewrite Ef, Hf in Hw. destruct Hw as [_ Hk].
  unfold sema_try_down in H. minv H as o s1 E. apply lift_inv in E as (v & [= <- <-] & ->).
  minv H as sm s1 E. unfold get_sema in E. apply gets_opt_inv in E as [Esm ->]. cbn [semas set_sc put_stack set_stacks] in Esm.
  destruct sm as [n ws]. cbn [value waiters] in H.
  minv H as u s1 E1. minv H as l s2 E2. injection H as <-. apply lift_inv in E2 as (v & _ & ->). case_bool_decide as Hn.
  - minv E1 as u1 s2 E3. injection E3 as _ <-. minv E1 as u2 s2 E3. destruct u2.
    pose proof (moves_push _ _ _ E3 eq_refl eq_refl) as Hm. injection E3 as <-. injection E1 as _ <-.
    eapply (eff_take s _ f m n ws true k); [by destruct Hm|done|lia|done|tauto|done|done].
  - injection E1 as _ <-. apply (eff_refuse s _ m k); [|done|done]. rewrite <- Hf. by apply moves_pop.
Qed.

Lemma sema_up_effect m s' : f = FSemaUp m → sema_up m s0 = Ret (tt, s') → effect s s'.
Proof.
  intros Hf H. unfold sema_up in H. minv H as o s1 E. apply lift_inv in E as (v & [= <- <-] & ->).
  minv H as sm s1 E. unfold get_sema in E. apply gets_opt_inv in E as [Esm ->]. cbn [semas set_sc put_stack set_stacks] in Esm.
  destruct sm as [n ws]. cbn [value waiters] in H. minv H as u s1 E1. minv H as sm2 s2 E. unfold get_sema in E.
  apply gets_opt_inv in E as [Esm2 ->]. minv H as u1 s2 E. injection E as _ <-. minv H as l s2 E. apply lift_inv in E as (v & E & ->).
  injection H as <-. destruct ws as [|t rest].
  - injection E1 as _ <-. cbn in Esm2. rewrite Esm in Esm2. injection Esm2 as <-.
    apply (eff_up s _ m n []); [rewrite <- Hf; by apply moves_pop|done|by intros t ?%elem_of_nil|done|done].
  - minv E1 as u2 s2 E2. injection E2 as _ <-. apply lift_inv in E1 as (v1 & E1 & ->).
    destruct (a_wait _ Ha _ _ t Esm) as (Hbl & _); [left|].
    pose proof (set_intr_ok false _ _ (a_sched _ Ha)) as Hok. cbn [sc set_semas] in E1. change (sc (set_sc _ _)) with (set_intr false (sc s)) in E1.
    rewrite (thread_unblock_run _ _ t Hok Hbl) in E1. injection E1 as _ <-. cbn in Esm2. rewrite lookup_insert_eq in Esm2.
    injection Esm2 as <-. cbn [sc set_semas set_sc] in E. rewrite intr_set_level_run in E by exact (ext_off s Ha). injection E as _ <-.
    apply (eff_up s _ m n (t :: rest)); [rewrite <- Hf; by apply moves_pop|done| |cbn; by rewrite insert_insert_eq|done].
    intros x Hx Hn. apply elem_of_cons in Hx as [-> |Hx]; [|done].
    change (has_status (woken t (set_intr false (sc s))) t THREAD_READY). apply woken_status; [done|]. by rewrite decide_True.
Qed.

Lemma locks_effect s' :
  (∃ l, (f = FLockAcquire l ∧ lock_acquire l s0 = Ret (tt, s')) ∨
        (f = FLockTryAcquire l ∧ lock_try_acquire l s0 = Ret (tt, s')) ∨
        (f = FSetHolder l ∧ set_holder l s0 = Ret (tt, s')) ∨
        (f = FLockRelease l ∧ lock_release l s0 = Ret (tt, s'))) → effect s s'.
Proof.
  intros (l & [[Hf H]|[[Hf H]|[[Hf H]|[Hf H]]]]).
  - apply (lock_acquire_inv s fs Ha) in H. apply (plain_push _ _ _ H); try done; [by rewrite Hf|by repeat constructor].
  - apply (lock_try_inv s fs Ha) in H. apply (plain_push _ _ _ H); try done; [by rewrite Hf|by repeat constructor].
  - apply (set_holder_inv s fs Ha) in H as [Hh ->]. apply (eff_holder s _ l); [rewrite <- Hf; by apply moves_pop|done|done|done].
  - apply (lock_release_inv s fs Ha) in H as [Hh H]. pose proof (moves_push _ _ _ H eq_refl eq_refl) as Hm.
    rewrite Hf in Hm. apply (eff_release s _ l); [done|done|by injection H as <-|by injection H as <-].
Qed.

Lemma conds_effect s' :
  (∃ c l, (f = FCondWait c l ∧ cond_wait c l s0 = Ret (tt, s')) ∨
          (f = FCondSignal c l ∧ cond_signal c l s0 = Ret (tt, s')) ∨
          (f = FCondBroadcast c l ∧ cond_broadcast c l s0 = Ret (tt, s'))) → effect s s'.
Proof.
  intros (c & l & [[Hf H]|[[Hf H]|[Hf H]]]).
  - apply (cond_wait_inv s fs Ha) in H as [ws ->]. apply (eff_wait s _ c l); [|done|done]. rewrite <- Hf.
    eapply moves_put; [exact Ef|done|]. intros t Ht. by cbn; rewrite lookup_insert_ne.
  - apply (cond_signal_inv s f fs Ha Ef) in H as [-> |(t & rest & H)].
    + apply plain_pop; [done|by rewrite Hf|done|done].
    + apply (plain_push _ _ _ H); try done; [by rewrite Hf|by repeat constructor].
  - unfold cond_broadcast in H. minv H as ws s1 E. unfold get_cond in E. apply gets_opt_inv in E as [_ ->].
    destruct ws as [|t rest].
    + injection H as <-. apply plain_pop; [done|by rewrite Hf|done|done].
    + apply (plain_push _ _ _ H); try done; [by rewrite Hf|by repeat constructor].
Qed.

Lemma create_effect page nm prio s' :
  f = FCreate nm prio [] → page_ok s page → thread_create page nm prio [] s0 = Ret (tt, s') → effect s s'.
Proof.
  intros Hf Hp H. pose proof (a_wf _ Ha (cur s)) as Hw.
  rewrite Ef, Hf in Hw. destruct Hw as [_ (_ & _ & Hpr)]. unfold thread_create in H. case_bool_decide as H0.
  { injection H as <-. apply plain_pop; [done|by rewrite Hf|done|done]. }
  rewrite (bind_Ret _ _ _ tt (set_sc (born page (new_thread page nm prio) (sc s)) s0)) in H
    by (apply lift_run; exact (init_thread_run _ _ page nm prio (a_sched _ Ha) H0 Hpr)).
  rewrite (bind_Ret _ _ _ _ _ eq_refl) in H. injection H as <-.
  assert (page ≠ cur s) as Hpc.
  { intros E. pose proof (si_running _ _ (a_sched _ Ha)) as Hr. apply alive_threads in Hr. by rewrite <- E in Hr. }
  apply (eff_plain s _ [f] [FLockAcquire tid_lock; FTid; FLockRelease tid_lock; FCreateTail page []]);
    [|rewrite Hf; by repeat constructor|by repeat constructor|done|done|done].
  split.
  - exists fs. split; [done|]. unfold get_stack. cbn. by rewrite lookup_insert_eq, lookup_insert_ne, lookup_insert_eq.
  - intros t Ht. left. unfold get_stack. cbn. rewrite lookup_insert_ne by done. destruct (decide (t = page)) as [->|].
    + rewrite lookup_insert_eq. symmetry. exact (a_dead _ Ha _ Hp).
    + by rewrite !lookup_insert_ne.
Qed.

Lemma create_tail_effect t s' :
  f = FCreateTail t [] → thread_create_tail t [] s0 = Ret (tt, s') → effect s s'.
Proof.
  intros Hf H. assert (t ∈ tails (get_stack s (cur s))) as Hin by (rewrite Ef, Hf; left).
  destruct (a_new _ Ha _ _ Hin) as (Hbl & Hst & Hti).
  assert (t ≠ cur s) as Htc by (intros ->; by apply cur_not_blocked in Hbl).
  unfold thread_create_tail in H. rewrite (bind_Ret _ _ _ s0 s0) in H by done.
  do 4 (apply bind_inv in H as (? & ? & (? & _ & ->)%lift_inv & H)). rewrite (bind_Ret _ _ _ _ _ eq_refl) in H.
  apply lift_inv in H as (? & _ & ->).
  apply (eff_plain s _ [f] []); [|rewrite Hf; by repeat constructor|by repeat constructor|done|done|done]. split.
  - exists fs. split; [done|]. unfold get_stack. cbn. by rewrite lookup_insert_ne, lookup_insert_eq.
  - intros w Hw. unfold get_stack. cbn. destruct (decide (w = t)) as [->|].
    + right. split; [exact Hst|]. by rewrite lookup_insert_eq.
    + left. by rewrite !lookup_insert_ne.
Qed.
End frame_effects.

(** [thread_yield], from the thread's own call or an interrupt. *)
Lemma yield_effect k rs fs s1 s s' :
  cur s1 = cur s → get_stack s (cur s) = rs ++ fs → get_stack s1 (cur s) = fs →
  (∀ t, t ≠ cur s → get_stack s1 t = get_stack s t) → semas s1 = semas s → holders s1 = holders s →
  Forall plain k → Forall plain rs → (rs = [] → loopless (get_stack s (cur s))) →
  yield_then k s1 = Ret (tt, s') → effect s s'.
Proof.
  intros Hc E1 E2 Ho Em Eh Hk Hrs Hl H. unfold yield_then in H. rewrite (bind_Ret _ _ _ s1 s1) in H by done.
  minv H as o s2 E. apply lift_inv in E as (v & _ & ->). injection H as <-.
  apply (eff_plain s _ rs (FSetLevel o :: k)); [|done|by constructor|done|done|done]. split.
  - exists fs. split; [done|]. rewrite <- Hc, get_put_stack, decide_True by done. change (get_stack (set_sc v s1) ?x) with (get_stack s1 x).
    by rewrite Hc, E2.
  - intros t Ht. left. rewrite get_put_stack, decide_False by (by rewrite Hc). exact (Ho t Ht).
Qed.

Lemma tick_effect s s' : kA s → intr_on (sc s) = true → tick s = Ret (tt, s') → effect s s'.
Proof.
  intros Ha Hon H. unfold tick in H. destruct (timer_interrupt_run (sc s) (a_sched _ Ha)) as (y & v & E & Hs & _).
  rewrite (bind_Ret _ _ _ _ _ (lift_run _ s _ _ E)) in H. pose proof (a_on _ Ha Hon) as Hl. destruct y.
  - apply (yield_effect [FIret] [] (get_stack s (cur s)) (set_sc v s) s s'); try done; [apply Hs|by repeat constructor].
  - injection H as <-. apply (eff_plain s _ [] []); try done. split; [by exists (get_stack s (cur s))|]. intros t _. by left.
Qed.

Lemma frame_effect page s f fs s' :
  kA s → get_stack s (cur s) = f :: fs → page_ok s page →
  run_frame page f (put_stack (cur s) fs s) = Ret (tt, s') → effect s s'.
Proof.
  intros Ha Ef Hp H. pose proof (a_wf _ Ha (cur s)) as Hw. rewrite Ef in Hw. destruct Hw as [_ Hwf].
  destruct f as [lv| |m k|m old k|m k|m|l|l|l|l|c l|c l|c l|nm prio e| |t e| | | |m| |]; cbn [run_frame] in H.
  - minv H as u s1 E. injection H as <-. by eapply lift_pop.
  - by eapply lift_pop.
  - by eapply sema_down_effect.
  - by eapply sema_loop_effect.
  - by eapply sema_try_down_effect.
  - by eapply sema_up_effect.
  - eapply locks_effect; [done|done|]. exists l. by left.
  - eapply locks_effect; [done|done|]. exists l. right. by left.
  - eapply locks_effect; [done|done|]. exists l. right. right. by left.
  - eapply locks_effect; [done|done|]. exists l. right. right. by right.
  - eapply conds_effect; [done|done|]. exists c, l. by left.
  - eapply conds_effect; [done|done|]. exists c, l. right. by left.
  - eapply conds_effect; [done|done|]. exists c, l. right. by right.
  - destruct Hwf as (_ & -> & _). by eapply create_effect.
  - unfold take_tid in H. minv H as u s1 E. apply lift_inv in E as (v & _ & ->). injection H as <-. by eapply plain_pop.
  - destruct Hwf as [_ ->]. by eapply create_tail_effect.
  - minv H as u s1 E. injection H as <-. by eapply lift_pop.
  - apply (yield_effect [] [FYield] fs (put_stack (cur s) fs s) s s'); try done.
    + by rewrite get_put_stack, decide_True.
    + intros t Ht. by rewrite get_put_stack, decide_False.
    + by repeat constructor.
  - by eapply lift_pop.
  - done.
  - unfold idle_loop in H. minv H as o s1 E. apply lift_inv in E as (v & [= <- <-] & ->). minv H as u s1 E. destruct u.
    apply lift_inv in H as (v & _ & ->). pose proof (moves_push s FIdleLoop fs Ef _ _ _ E eq_refl eq_refl) as Hm. injection E as <-.
    apply (eff_plain s _ [FIdleLoop] [FIdleResume]); [by destruct Hm|by repeat constructor|by repeat constructor|done|done|done].
  - unfold idle_resume in H. minv H as u s1 E. apply lift_inv in E as (v & [= <- <-] & ->).
    eapply (plain_push s FIdleResume fs Ef _ _ _ H); try done. by repeat constructor.
Qed.

(** A call only enters the kernel or initialises an object. *)
Lemma enter_effect gs s s' :
  get_stack s (cur s) = [] → push gs s = Ret (tt, s') → Forall plain gs → effect s s'.
Proof.
  intros E [= <-] Hg. apply (eff_plain s _ [] gs); try done; [|by rewrite E; intros _; apply Forall_nil_2].
  apply (moves_put [] gs [] s _ (stacks s)); [done| |done]. cbn. by rewrite E.
Qed.

Lemma moves_same s s' : stacks s' = stacks s → get_stack s (cur s) = [] → moves [] [] s s'.
Proof.
  intros E E1. assert (∀ t, get_stack s' t = get_stack s t) as Hg by (intros t; unfold get_stack; by rewrite E).
  split; [exists []; by rewrite Hg|]. intros t _. left. by rewrite Hg.
Qed.

Lemma call_effect o s s' : get_stack s (cur s) = [] → call_ok s o → run_call o s = Ret (tt, s') → effect s s'.
Proof.
  intros E Ho H. destruct o as [n v|n|n|n|l|l|l|l|c|c l|c l|c l|nm prio| |]; cbn [run_call call_ok] in *;
    try (apply (enter_effect _ _ _ E H); by repeat constructor).
  - injection H as <-. apply (eff_sema_init s _ n v); [by apply moves_same|done|by destruct Ho|done|done].
  - injection H as <-. apply (eff_lock_init s _ l); [by apply moves_same|done|by destruct Ho|by destruct Ho|done|done].
  - injection H as <-. apply (eff_plain s _ [] []); [by apply moves_same|done|done|by rewrite E; intros _; apply Forall_nil_2|done|done].
Qed.

Lemma kstep_effect s s' : kA s → kstep s s' → effect s s'.
Proof.
  intros Ha Hk. destruct Hk as [s page f fs s' Ef Hp H|s o s' Ef Ho H|s s' Hon H].
  - apply (frame_effect page s f fs s' Ha); [|done|done]. unfold get_stack. by rewrite Ef.
  - apply (call_effect o s s'); [|done|done]. unfold get_stack. by rewrite Ef.
  - by apply (tick_effect s s' Ha).
Qed.
