(* ===== verification/SynchSpec.v ===== *)
(** * SynchSpec: what the scheduler and the synchronisation primitives promise

    All statements are about the states the kernel reaches after boot by calls of its
    threads, timer interrupts at any enabled point, and the frames of the calls. *)

From S2P Require Import Prelude Vaddr Thread Synch SynchFacts SynchEffects.

(** ** The run queue *)

Definition stays (s s' : kernel) : Prop :=
  cur s' = cur s ∧ ∃ l, ready_list (sc s') = ready_list (sc s) ++ l.

(** The processor passes to the head of the run queue, or to the idle thread when the
    queue is empty; threads may have been appended first. *)
Definition switches (s s' : kernel) : Prop :=
  ∃ l, (ready_list (sc s) ++ l = [] ∧ ready_list (sc s') = [] ∧ cur s' = idle_of s) ∨
       ready_list (sc s) ++ l = cur s' :: ready_list (sc s').

Lemma switch_switches ns st s s' : switch_step ns st s s' → switches s s'.
Proof.
  intros [H1 _ _ _ _ _ _ _ _]. unfold switches. rewrite H1. unfold departs.
  destruct (switched_fields (left_as st (set_intr false (sc s)))) as (-> & -> & _). unfold next_of. cbn.
  case_decide.
  - exists [cur s]. destruct (ready_list (sc s) ++ [cur s]); [by left|by right].
  - exists []. rewrite app_nil_r. destruct (ready_list (sc s)); [by left|by right].
Qed.

Lemma kind_moves s s' : kind s s' → stays s s' ∨ switches s s'.
Proof.
  intros [ns H|ns st H|s2 ns2 ns H1 H2|t0 f fs g0 E H|p f gs E Ht H].
  - left. split; [apply H|]. exists []. rewrite app_nil_r. apply H.
  - right. by eapply switch_switches.
  - right. apply switch_switches in H2. unfold switches in *. by rewrite (ls_ready _ _ _ H1), (ls_idle _ _ _ H1) in H2.
  - left. split; [apply H|]. exists [t0]. apply H.
  - left. split; [apply H|]. exists []. rewrite app_nil_r. apply H.
Qed.

(** [run n s s']: an execution with [n] switches. *)
Inductive run : nat → kernel → kernel → Prop :=
| run_refl s : run 0 s s
| run_stay n s s1 s' : kstep s s1 → stays s s1 → run n s1 s' → run n s s'
| run_switch n s s1 s' : kstep s s1 → switches s s1 → run n s1 s' → run (S n) s s'.

Lemma run_head k n s s' t :
  run n s s' → ready_list (sc s) !! k = Some t → (k < n)%nat →
  ∃ s1, run (S k) s s1 ∧ rtc kstep s1 s' ∧ cur s1 = t.
Proof.
  intros Hr. assert (∀ n a b, run n a b → rtc kstep a b) as Hrtc.
  { clear. induction 1; [done|..]; by eapply rtc_l. }
  revert k. induction Hr as [s|n s s1 s' Hst [Hc [l Hl]] Hr IH|n s s1 s' Hst Hsw Hr IH]; intros k Hk Hn; [lia|..].
  - destruct (IH k) as (s2 & Hr2 & Hx & Hct); [by rewrite Hl; apply lookup_app_l_Some|done|].
    exists s2. split_and!; [|done|done]. eapply run_stay; [done| |done]. split; [done|by exists l].
  - pose proof Hsw as [l Hq]. assert ((ready_list (sc s) ++ l) !! k = Some t) as Hk' by (by apply lookup_app_l_Some).
    destruct Hq as [(Hq & _ & _)|Hq]; rewrite Hq in Hk'; [done|]. destruct k as [|k].
    + injection Hk' as Hk'. exists s1. split_and!; [by eapply run_switch, run_refl|by eapply Hrtc|done].
    + destruct (IH k Hk' ltac:(lia)) as (s2 & Hr2 & Hx & Hct). exists s2. split_and!; [by eapply run_switch|done|done].
Qed.

(** C22: every step of the kernel either leaves the running thread and only appends to
    the run queue, or switches to the head of the queue; so a ready thread at position
    [k] of the run queue is the running thread after exactly [k + 1] switches, whatever
    the threads do and whenever the timer interrupts: no thread is overtaken. *)
Theorem ready_thread_runs s :
  rtc kstep booted s →
  (∀ s', kstep s s' → stays s s' ∨ switches s s') ∧
  ∀ k n s' t, ready_list (sc s) !! k = Some t → run n s s' → (k < n)%nat →
    ∃ s1, run (S k) s s1 ∧ rtc kstep s1 s' ∧ cur s1 = t.
Proof.
  intros Hr. split.
  - intros s' Hk. apply kind_moves, kstep_kind; [|done]. by apply reachable_kA.
  - intros k n s' t Hk Hrun Hn. by apply (run_head k n s s' t).
Qed.

(** C23: in every state the kernel reaches, the thread on the processor is the only
    running thread; the run queue is exactly the ready threads (but for the idle
    thread), each once; every thread on a semaphore's wait list is blocked, is on it
    once and on no other wait list, and is not on the run queue: the single [elem] of a
    thread is in at most one list. *)
Theorem threads_wellformed s :
  rtc kstep booted s →
  (∀ t, has_status (sc s) t THREAD_RUNNING ↔ t = cur s) ∧
  NoDup (ready_list (sc s)) ∧
  (∀ t, t ∈ ready_list (sc s) ↔ t ≠ idle_of s ∧ has_status (sc s) t THREAD_READY) ∧
  (∀ m sm, semas s !! m = Some sm → NoDup (waiters sm) ∧ ∀ t, t ∈ waiters sm →
     has_status (sc s) t THREAD_BLOCKED ∧ t ∉ ready_list (sc s) ∧
     ∀ m' sm', semas s !! m' = Some sm' → t ∈ waiters sm' → m' = m).
Proof.
  intros Hr. pose proof (reachable_kA s Hr) as Ha. pose proof (a_sched _ Ha) as Hok. split_and!.
  - intros t. split; [apply Hok|]. intros ->. apply Hok.
  - apply Hok.
  - apply Hok.
  - intros m sm Hm. split; [by apply (a_sema _ Ha m)|]. intros t Hin.
    destruct (a_wait _ Ha _ _ _ Hm Hin) as (Hb & _ & old & k & fs & Hst). split_and!; [done| |].
    + intros [_ H]%(si_ready _ _ Hok). by pose proof (has_status_fun _ _ _ _ Hb H).
    + intros m' sm' Hm' Hin'. destruct (a_wait _ Ha _ _ _ Hm' Hin') as (_ & _ & o' & k' & fs' & Hst').
      rewrite Hst in Hst'. by injection Hst' as ->.
Qed.

(** ** Locks *)

Section reach.
Context (P : kernel → Prop).
Hypothesis (P_boot : P booted) (P_step : ∀ s s', kA s → P s → kstep s s' → P s').

Lemma reach_ind s : rtc kstep booted s → P s.
Proof.
  intros Hr. assert (∀ a, rtc kstep a s → kA a → P a → P s) as H; [|apply (H booted Hr boot_kA P_boot)].
  clear Hr. intros a Hr. induction Hr as [|a b c Hab _ IH]; [done|]. intros Ha Hp.
  apply IH; [apply (kind_kA a b Ha); by apply kstep_kind|by apply (P_step a)].
Qed.
End reach.

(** The lock is taken for a thread that is about to record itself as the holder, or has
    stopped being it and is about to free the lock. *)
Definition is_token (l : Z) (f : frame) : bool :=
  match f with
  | FSetHolder l' | FSemaUp (SLock l') => bool_decide (l' = l)
  | _ => false
  end.

Definition lock_value (s : kernel) (l : Z) : Z := from_option value 1 (semas s !! SLock l).
Definition lock_held (s : kernel) (l : Z) : Z := Z.b2z (bool_decide (default 0 (holders s !! l) ≠ 0)).
Definition credit (s : kernel) (l : Z) : Z := lock_value s l + lock_held s l + frames_of (is_token l) s.

Lemma plain_no_token l f : plain f → is_token l f = false.
Proof. destruct f as [| | | | |[]| | | | | | | | | | | | | | | |]; done. Qed.

Lemma lock_value_insert s s' l m sm :
  semas s' = <[m := sm]> (semas s) → lock_value s' l = if decide (m = SLock l) then value sm else lock_value s l.
Proof.
  intros E. unfold lock_value. rewrite E. case_decide; [subst; by rewrite lookup_insert_eq|by rewrite lookup_insert_ne].
Qed.

Lemma lock_held_insert s s' l l' t :
  holders s' = <[l' := t]> (holders s) →
  lock_held s' l = if decide (l' = l) then Z.b2z (bool_decide (t ≠ 0)) else lock_held s l.
Proof.
  intros E. unfold lock_held. rewrite E. case_decide; [subst; by rewrite lookup_insert_eq|by rewrite lookup_insert_ne].
Qed.

Lemma lock_held_bounds s l : 0 ≤ lock_held s l ≤ 1.
Proof. unfold lock_held. case_bool_decide; cbn; lia. Qed.

Lemma cur_nonzero s : kA s → cur s ≠ 0.
Proof.
  intros Ha E. pose proof (si_running _ _ (a_sched _ Ha)) as Hr. rewrite E in Hr. apply alive_threads in Hr.
  apply Hr. apply (a_sched _ Ha).
Qed.

(** A lock is free, held or in passing: exactly one. *)
Lemma credit_step s s' l : kA s → credit s l = 1 → kstep s s' → credit s' l = 1.
Proof.
  intros Ha Hc Hk. pose proof (lock_held_bounds s l) as Hb.
  assert (0 ≤ lock_value s l) as Hv.
  { unfold lock_value. destruct (semas s !! SLock l) as [sm|] eqn:E; [|cbn; lia]. destruct (a_sema _ Ha _ _ E) as [[? _] _]. done. }
  pose proof (cur_nonzero s Ha) as Hcur. unfold credit in *.
  destruct (kstep_effect s s' Ha Hk) as
    [rs ps Hm Hr Hp _ Es Eh|c l' Hm Es Eh|n v Hm _ _ Es Eh|l' Hm _ El El' Es Eh|f m ws old k Hm Em Hf Es Eh|
     f m v ws old k Hm Em Hv0 Hk' Hf Es Eh|m k Hm Es Eh|m v ws Hm Em _ Es Eh|l' Hm Eh' Es Eh|l' Hm Eh' Es Eh];
    rewrite (moves_frames (is_token l) _ _ _ _ eq_refl Hm).
  - rewrite !(count_plain _ _ (plain_no_token l)) by done. unfold lock_value, lock_held in *. rewrite Es, Eh. lia.
  - rewrite (lock_value_insert _ _ l _ _ Es), decide_False by done. unfold lock_held in *. rewrite Eh. cbn. lia.
  - rewrite (lock_value_insert _ _ l _ _ Es), decide_False by done. unfold lock_held in *. rewrite Eh. cbn. lia.
  - rewrite (lock_value_insert _ _ l _ _ Es), (lock_held_insert _ _ l _ _ Eh). cbn.
    unfold lock_value, lock_held in *. destruct (decide (l' = l)) as [->|Hne].
    + rewrite decide_True by done. rewrite El, El' in *. cbn in *. lia.
    + rewrite decide_False by congruence. lia.
  - rewrite (lock_value_insert _ _ l _ _ Es). unfold lock_held in *. rewrite Eh. unfold lock_value in *.
    assert (count (is_token l) [f] = 0) as -> by (by destruct Hf as [-> | ->]). change (count _ [_]) with 0.
    destruct (decide (m = SLock l)) as [->|E]; [|lia]. rewrite Em in *. cbn [from_option value] in *. lia.
  - rewrite (lock_value_insert _ _ l _ _ Es). unfold lock_held in *. rewrite Eh. unfold lock_value in *.
    assert (count (is_token l) [f] = 0) as -> by (by destruct Hf as [-> |[-> | ->]]). rewrite Hk'.
    destruct (decide (m = SLock l)) as [->|E].
    + rewrite Em in *. cbn [from_option value] in *. rewrite (count_one _ (FSetHolder l)) by (by apply bool_decide_eq_true_2). lia.
    + destruct m as [|l'|]; cbn [count is_token Z.b2z]; [lia| |lia]. rewrite (bool_decide_eq_false_2 (l' = l)) by congruence. cbn [Z.b2z]. lia.
  - unfold lock_value, lock_held in *. rewrite Es, Eh. cbn. lia.
  - rewrite (lock_value_insert _ _ l _ _ Es). unfold lock_held in *. rewrite Eh. unfold lock_value in *.
    destruct (decide (m = SLock l)) as [->|E].
    + rewrite Em in *. cbn [from_option value] in *. assert (is_token l (FSemaUp (SLock l)) = true) as Ht by (by apply bool_decide_eq_true_2).
      rewrite (count_one _ _ Ht). change (count _ []) with 0. pose proof (moves_here _ _ _ _ _ Hm Ht).
      assert (v = 0) as -> by lia. change (u32 (0 + 1)) with 1. lia.
    + destruct m as [|l'|]; cbn [count is_token Z.b2z]; [lia| |lia]. rewrite (bool_decide_eq_false_2 (l' = l)) by congruence. cbn [Z.b2z]. lia.
  - rewrite (lock_held_insert _ _ l _ _ Eh). unfold lock_value in *. rewrite Es. destruct (decide (l' = l)) as [->|E].
    + rewrite (bool_decide_eq_true_2 (cur s ≠ 0)) by done. assert (is_token l (FSetHolder l) = true) as Ht by (by apply bool_decide_eq_true_2).
      rewrite (count_one _ _ Ht). change (count _ []) with 0. pose proof (moves_here _ _ _ _ _ Hm Ht). cbn [Z.b2z]. lia.
    + cbn [count is_token]. rewrite (bool_decide_eq_false_2 (l' = l)) by done. cbn. lia.
  - rewrite (lock_held_insert _ _ l _ _ Eh). unfold lock_value in *. rewrite Es. destruct (decide (l' = l)) as [->|E].
    + assert (is_token l (FSemaUp (SLock l)) = true) as Ht by (by apply bool_decide_eq_true_2).
      rewrite (count_one _ _ Ht). change (count _ [_]) with 0. unfold lock_held in *. rewrite Eh' in *. cbn [default from_option id] in *.
      rewrite (bool_decide_eq_true_2 (cur s ≠ 0)) in Hc by done. rewrite bool_decide_eq_false_2 by tauto. cbn [Z.b2z] in *. lia.
    + cbn [count is_token]. rewrite (bool_decide_eq_false_2 (l' = l)) by done. cbn. lia.
Qed.

Lemma credit_boot s l :
  semas s = {[ SLock 0 := Sema 1 []; SId 0 := Sema 0 [] ]} → holders s = {[ 0 := 0 ]} →
  stacks s = {[ 3221282816 := []; 3222278144 := [FIdleResume] ]} → credit s l = 1.
Proof.
  intros Es Eh Ek. unfold credit, lock_value, lock_held, frames_of. rewrite Ek, total_insert_fresh by done. cbn [count].
  rewrite Es, Eh. destruct (decide (l = 0)) as [->|Hl]; [by vm_compute|].
  rewrite lookup_insert_ne by congruence. rewrite !lookup_singleton_ne by done. by vm_compute.
Qed.

Lemma credit_one s l : rtc kstep booted s → credit s l = 1.
Proof.
  apply (reach_ind (λ s, credit s l = 1)); [apply credit_boot; vm_compute; reflexivity|].
  intros a b Ha Hc. by apply credit_step.
Qed.

(** Thread [t] is between taking lock [l] and giving it back. *)
Definition owns (s : kernel) (l t : Z) : Prop :=
  (t ≠ 0 ∧ holders s !! l = Some t) ∨ (∃ f, f ∈ get_stack s t ∧ is_token l f = true).

Lemma one_frame p s t t' f f' :
  frames_of p s ≤ 1 → f ∈ get_stack s t → p f = true → f' ∈ get_stack s t' → p f' = true → t' = t.
Proof.
  intros Hle Hin Hf Hin' Hf'. destruct (decide (t' = t)) as [->|Hne]; [done|]. exfalso.
  assert (Z.of_nat (length [t'; t]) ≤ frames_of p s) as H2; [|cbn in H2; lia].
  apply total_members; [done|apply count_nonneg|repeat constructor; [by intros ->%list_elem_of_singleton|by intros ?%elem_of_nil]|].
  intros u [-> |[-> |Hu%elem_of_nil]%elem_of_cons]%elem_of_cons; [by apply (count_elem p f')|by apply (count_elem p f)|done].
Qed.

Lemma some_frame p s : frames_of p s ≠ 0 → ∃ t f, f ∈ get_stack s t ∧ p f = true.
Proof.
  intros H. pose proof (frames_nonneg p s). destruct (total_other (count p) eq_refl [] (stacks s)) as (t & _ & Ht);
    [apply NoDup_nil_2|by intros t ?%elem_of_nil|unfold frames_of in *; cbn; lia|].
  apply count_zero in Ht as (f & Hin & Hf). by exists t, f.
Qed.

(** C5: a lock's semaphore is 1 and nobody owns the lock, or it is 0 and exactly one
    thread owns it: it is the recorded holder, or it has taken the lock and not yet
    recorded itself, or it has withdrawn itself and not yet raised the semaphore. *)
Theorem lock_mutual_exclusion s l sm :
  rtc kstep booted s → semas s !! SLock l = Some sm →
  (value sm = 1 ∧ ∀ t, ¬ owns s l t) ∨ (value sm = 0 ∧ ∃ t, owns s l t ∧ ∀ t', owns s l t' → t' = t).
Proof.
  intros Hr Hm. pose proof (credit_one s l Hr) as Hc. pose proof (reachable_kA s Hr) as Ha.
  destruct (a_sema _ Ha _ _ Hm) as [[Hv _] _]. unfold credit, lock_value, lock_held in Hc. rewrite Hm in Hc. cbn [from_option] in Hc.
  pose proof (frames_nonneg (is_token l) s) as Hn. case_bool_decide as Hh; cbn [Z.b2z] in Hc.
  - right. split; [lia|]. destruct (holders s !! l) as [h|] eqn:Eh; [|done]. exists h. split; [by left|].
    intros t [[_ E]|(f & Hin & Hf)]; [congruence|]. pose proof (frames_here _ s t f Hf Hin). lia.
  - assert (∀ t, owns s l t → ∃ f, f ∈ get_stack s t ∧ is_token l f = true) as Ho.
    { intros t [[Ht E]|?]; [|done]. rewrite E in Hh. by destruct (Ht Hh). }
    destruct (decide (frames_of (is_token l) s = 0)) as [E0|E0].
    + left. split; [lia|]. intros t (f & Hin & Hf)%Ho. pose proof (frames_here _ s t f Hf Hin). lia.
    + right. split; [lia|]. destruct (some_frame _ _ E0) as (t & f & Hin & Hf). exists t. split; [right; by exists f|].
      intros t' (f' & Hin' & Hf')%Ho. apply (one_frame (is_token l) s t t' f f'); [lia|done..].
Qed.

(** ** Semaphores *)

Definition waits_on (m : sid) (f : frame) : bool :=
  match f with FSemaLoop m' _ _ => bool_decide (m' = m) | _ => false end.

(** The semaphore a thread waits on inside [cond_wait] is its own. *)
Definition own (t : Z) (f : frame) : Prop :=
  match f with FSemaDown (SWait u) _ | FSemaLoop (SWait u) _ _ | FSemaTryDown (SWait u) _ => u = t | _ => True end.

Record kW (s : kernel) : Prop := {
  w_own : ∀ t, Forall (own t) (get_stack s t);
  w_dying : ∀ t, has_status (sc s) t THREAD_DYING → get_stack s t = [];
  w_blocked : ∀ t m old k fs, get_stack s t = FSemaLoop m old k :: fs → has_status (sc s) t THREAD_BLOCKED →
    ∃ sm, semas s !! m = Some sm ∧ t ∈ waiters sm;
  w_count : ∀ m sm, semas s !! m = Some sm → waiters sm ≠ [] →
    value sm + Z.of_nat (length (waiters sm)) ≤ frames_of (waits_on m) s
}.

Lemma plain_own t f : plain f → own t f.
Proof. by destruct f as [| |[]|[]|[]| | | | | | | | | | | | | | | | |]. Qed.

Lemma plain_waits m f : plain f → waits_on m f = false.
Proof. by destruct f. Qed.

Lemma moves_own rs ps s s' :
  moves rs ps s s' → (∀ t, Forall (own t) (get_stack s t)) →
  (Forall (own (cur s)) rs → Forall (own (cur s)) ps) → ∀ t, Forall (own t) (get_stack s' t).
Proof.
  intros [(fs & E1 & E2) Ho] H Hp t. destruct (decide (t = cur s)) as [->|Ht].
  - rewrite E2. pose proof (H (cur s)) as Hc. rewrite E1 in Hc. apply Forall_app in Hc as [Hr Hf]. apply Forall_app. auto.
  - destruct (Ho t Ht) as [-> |[_ ->]]; [apply H|by repeat constructor].
Qed.

Lemma effect_own s s' : effect s s' → (∀ t, Forall (own t) (get_stack s t)) → ∀ t, Forall (own t) (get_stack s' t).
Proof.
  intros He H. destruct He as
    [rs ps Hm Hr Hp _ Es Eh|c l' Hm Es Eh|n v Hm _ _ Es Eh|l' Hm _ El El' Es Eh|f m ws old k Hm Em Hf Es Eh|
     f m v ws old k Hm Em Hv0 Hk' Hf Es Eh|m k Hm Es Eh|m v ws Hm Em _ Es Eh|l' Hm Eh' Es Eh|l' Hm Eh' Es Eh];
    apply (moves_own _ _ _ _ Hm H); intros Ho; try by repeat constructor.
  - eapply Forall_impl; [exact Hp|]. apply plain_own.
  - apply Forall_cons in Ho as [Ho _]. apply Forall_singleton. destruct Hf as [-> | ->]; exact Ho.
  - rewrite Hk'. destruct m; by repeat constructor.
Qed.

(** A thread that is not the current one is blocked after a step only if it was before,
    or is new. *)
Lemma kind_blocked s s' t :
  kA s → kind s s' → t ≠ cur s → has_status (sc s') t THREAD_BLOCKED →
  has_status (sc s) t THREAD_BLOCKED ∨ get_stack s t = [].
Proof.
  intros Ha Hk Ht Hs.
  assert (∀ s1 ns st1, kA s1 → switch_step ns st1 s1 s' → t ≠ cur s1 → has_status (sc s1) t THREAD_BLOCKED) as Hsw.
  { intros s1 ns st1 Ha1 H Ht1. destruct (depart_facts s1 st1 Ha1 (sw_st _ _ _ _ H) (λ E, proj1 (sw_dying _ _ _ _ H E))) as (_ & _ & _ & Hd).
    rewrite (sw_sc _ _ _ _ H) in Hs. apply Hd in Hs. case_decide; [done|]. by rewrite decide_False in Hs. }
  destruct Hk as [ns H|ns st1 H|s2 ns2 ns H1 H2|t0 f fs g0 E H|p f gs E Htl H].
  - left. by apply (ls_status _ _ _ H).
  - left. by apply (Hsw s ns st1).
  - left. apply (ls_status _ _ _ H1). apply (Hsw s2 ns THREAD_READY); [by apply (local_kA ns2 s)|done|]. by rewrite (ls_cur _ _ _ H1).
  - left. apply (wk_status _ _ _ _ _ _ H) in Hs. by case_decide.
  - apply (bs_status _ _ _ _ _ H) in Hs. case_decide; [|by left]. right. subst t. apply (a_dead _ Ha), H.
Qed.

(** A dying thread has no frames left. *)
Lemma kind_dying s s' :
  kA s → kind s s' → (∀ t, has_status (sc s) t THREAD_DYING → get_stack s t = []) →
  ∀ t, has_status (sc s') t THREAD_DYING → get_stack s' t = [].
Proof.
  intros Ha Hk Hold t Hs. assert (t = cur s → ¬ has_status (sc s) t THREAD_DYING) as Hr.
  { intros -> H. by pose proof (has_status_fun _ _ _ _ H (si_running _ _ (a_sched _ Ha))). }
  assert (∀ s1 ns st1, kA s1 → switch_step ns st1 s1 s' → (∀ t, has_status (sc s1) t THREAD_DYING → get_stack s1 t = []) → get_stack s' t = []) as Hsw.
  { intros s1 ns st1 Ha1 H Hold1. destruct (depart_facts s1 st1 Ha1 (sw_st _ _ _ _ H) (λ E, proj1 (sw_dying _ _ _ _ H E))) as (_ & _ & _ & Hd).
    rewrite (sw_sc _ _ _ _ H) in Hs. apply Hd in Hs. case_decide; [done|]. rewrite (sw_stacks _ _ _ _ H). case_decide; [|by apply Hold1].
    destruct Hs as [Hst _]. by apply (sw_dying _ _ _ _ H). }
  destruct Hk as [ns H|ns st1 H|s2 ns2 ns H1 H2|t0 f fs g0 E H|p f gs E Htl H].
  - apply (ls_status _ _ _ H) in Hs. rewrite (ls_stacks _ _ _ H). case_decide; [by destruct Hr|by apply Hold].
  - by apply (Hsw s ns st1).
  - apply (Hsw s2 ns THREAD_READY); [by apply (local_kA ns2 s)|done|]. intros u Hu. apply (ls_status _ _ _ H1) in Hu.
    rewrite (ls_stacks _ _ _ H1). case_decide; [|by apply Hold]. subst u.
    by pose proof (has_status_fun _ _ _ _ Hu (si_running _ _ (a_sched _ Ha))).
  - apply (wk_status _ _ _ _ _ _ H) in Hs. case_decide; [done|]. rewrite (wk_stacks _ _ _ _ _ _ H).
    case_decide; [by destruct Hr|]. rewrite decide_False by done. by apply Hold.
  - apply (bs_status _ _ _ _ _ H) in Hs. case_decide; [done|]. rewrite (bs_stacks _ _ _ _ _ H).
    case_decide; [by destruct Hr|]. rewrite decide_False by done. by apply Hold.
Qed.

(** A loop frame on top of the current thread's stack after a step was put there by it. *)
Lemma moves_loop rs ps s s' m old k gs :
  kA s → moves rs ps s s' → loopless ps → (rs = [] → loopless (get_stack s (cur s))) →
  get_stack s' (cur s) ≠ FSemaLoop m old k :: gs.
Proof.
  intros Ha [(fs & E1 & E2) _] Hp Hr E. assert (loopless fs) as Hl.
  { destruct rs as [|r rs]; [specialize (Hr eq_refl); by rewrite E1 in Hr|]. pose proof (a_tail _ Ha (cur s)) as Ht.
    rewrite E1 in Ht. cbn in Ht. by apply Forall_app in Ht as [_ ?]. }
  rewrite E in E2. assert (loopless (FSemaLoop m old k :: gs)) as H by (rewrite E2; by apply Forall_app).
  apply Forall_cons in H as [H _]. by apply H.
Qed.

Lemma plain_loopless fs : Forall plain fs → loopless fs.
Proof. intros H. eapply Forall_impl; [exact H|]. intros []; cbn; tauto. Qed.

Lemma loopless_count m fs : loopless fs → count (waits_on m) fs = 0.
Proof. intros H. induction H as [|f fs Hf H IH]; [done|]. cbn. rewrite IH. by destruct f. Qed.

Lemma head_loop m fs : loopless (tail fs) → count (waits_on m) fs ≠ 0 → ∃ old k gs, fs = FSemaLoop m old k :: gs.
Proof.
  destruct fs as [|f fs]; [done|]. cbn. intros Hl. rewrite (loopless_count m fs Hl). destruct f as [| | |m' old k| | | | | | | | | | | | | | | | | |]; try done.
  cbn. case_bool_decide; [subst|done]. intros _. by exists old, k, fs.
Qed.

Lemma cont_loopless m k : cont_ok m k → loopless k.
Proof. intros ->. destruct m; notloop. Qed.

Lemma block_cur s s' m old k gs :
  kA s → effect s s' → get_stack s' (cur s) = FSemaLoop m old k :: gs → ∃ sm, semas s' !! m = Some sm ∧ cur s ∈ waiters sm.
Proof.
  intros Ha He E. destruct He as
    [rs ps Hm Hr Hp Hl Es Eh|c l' Hm Es Eh|n v Hm Hst _ Es Eh|l' Hm Hst El El' Es Eh|f m0 ws old0 k0 Hm Em Hf Es Eh|
     f m0 v ws old0 k0 Hm Em Hv0 Hk' Hf Es Eh|m0 k0 Hm Es Eh|m0 v ws Hm Em _ Es Eh|l' Hm Eh' Es Eh|l' Hm Eh' Es Eh].
  5:{ destruct (mv_cur _ _ _ _ Hm) as (fs & _ & E2). rewrite E in E2. injection E2 as -> -> -> ->. rewrite Es.
      exists (Sema 0 (ws ++ [cur s])). rewrite lookup_insert_eq. split; [done|]. cbn. apply elem_of_app. right. by apply list_elem_of_singleton. }
  all: exfalso; apply (moves_loop _ _ _ _ _ _ _ _ Ha Hm) in E; [done| |try done].
  all: try (by apply plain_loopless); try notloop; try (by rewrite Hst; intros _; apply Forall_nil_2).
  by eapply cont_loopless.
Qed.

(** A waiter stays on its wait list until it is made ready. *)
Lemma waiter_stays s s' m sm t :
  kW s → effect s s' → semas s !! m = Some sm → t ∈ waiters sm → t ≠ cur s →
  (∃ old k fs, get_stack s t = FSemaLoop m old k :: fs) →
  (∃ sm', semas s' !! m = Some sm' ∧ t ∈ waiters sm') ∨ has_status (sc s') t THREAD_READY.
Proof.
  intros Hw He Hs Hin Ht (old & k & fs & Hst). destruct He as
    [rs ps Hm Hr Hp _ Es Eh|c l' Hm Es Eh|n v Hm _ En Es Eh|l' Hm _ El El' Es Eh|f m0 ws old0 k0 Hm Em Hf Es Eh|
     f m0 v ws old0 k0 Hm Em Hv0 Hk' Hf Es Eh|m0 k0 Hm Es Eh|m0 v ws Hm Em Hrd Es Eh|l' Hm Eh' Es Eh|l' Hm Eh' Es Eh]; rewrite Es.
  all: try (left; by exists sm).
  all: match goal with |- context [<[?x := _]> _] => destruct (decide (x = m)) as [<-|Hne] end;
    [|rewrite lookup_insert_ne by done; left; by exists sm].
  all: rewrite lookup_insert_eq.
  - pose proof (w_own _ Hw t) as Ho. rewrite Hst in Ho. apply Forall_cons in Ho as [Ho _]. by cbn in Ho.
  - congruence.
  - congruence.
  - rewrite Hs in Em. injection Em as ->. left. eexists. split; [done|]. cbn in *. apply elem_of_app. by left.
  - rewrite Hs in Em. injection Em as ->. left. by eexists.
  - rewrite Hs in Em. injection Em as ->. cbn in *. destruct (decide (t ∈ tail ws)); [left; by eexists|]. right. by apply Hrd.
Qed.

Lemma effect_count s s' m sm :
  kA s' → effect s s' →
  (∀ sm, semas s !! m = Some sm → 0 ≤ value sm ∧
     (waiters sm ≠ [] → value sm + Z.of_nat (length (waiters sm)) ≤ frames_of (waits_on m) s)) →
  semas s' !! m = Some sm → waiters sm ≠ [] → value sm + Z.of_nat (length (waiters sm)) ≤ frames_of (waits_on m) s'.
Proof.
  intros Ha' He H Hs Hne. destruct (decide (value sm = 0)) as [E0|E0].
  { rewrite E0. destruct (a_sema _ Ha' _ _ Hs) as [_ Hnd]. apply (total_members (count (waits_on m)) eq_refl); [apply count_nonneg|done|].
    intros t Hin. destruct (a_wait _ Ha' _ _ _ Hs Hin) as (_ & _ & old & k & fs & Hst). fold (get_stack s' t). rewrite Hst.
    apply (count_elem _ (FSemaLoop m old k)); [by apply bool_decide_eq_true_2|left]. }
  assert (semas s !! m = Some sm → value sm + Z.of_nat (length (waiters sm)) ≤ frames_of (waits_on m) s) as Hold
    by (intros E; by apply (H _ E)).
  destruct He as
    [rs ps Hm Hr Hp _ Es Eh|c l' Hm Es Eh|n v Hm _ En Es Eh|l' Hm _ El El' Es Eh|f m0 ws old0 k0 Hm Em Hf Es Eh|
     f m0 v ws old0 k0 Hm Em Hv0 Hk' Hf Es Eh|m0 k0 Hm Es Eh|m0 v ws Hm Em Hrd Es Eh|l' Hm Eh' Es Eh|l' Hm Eh' Es Eh];
    rewrite (moves_frames (waits_on m) _ _ _ _ eq_refl Hm); rewrite Es in Hs.
  - rewrite !(count_plain _ _ (plain_waits m)) by done. specialize (Hold Hs). lia.
  - rewrite lookup_insert_Some in Hs. destruct Hs as [[_ <-]|[_ Hs]]; [done|]. specialize (Hold Hs). cbn. lia.
  - rewrite lookup_insert_Some in Hs. destruct Hs as [[_ <-]|[_ Hs]]; [done|]. specialize (Hold Hs). cbn. lia.
  - rewrite lookup_insert_Some in Hs. destruct Hs as [[_ <-]|[_ Hs]]; [done|]. specialize (Hold Hs). cbn. lia.
  - rewrite lookup_insert_Some in Hs. destruct Hs as [[_ <-]|[Hx Hs]]; [done|]. specialize (Hold Hs).
    destruct Hf as [-> | ->]; cbn [count waits_on]; rewrite bool_decide_eq_false_2 by done; cbn [Z.b2z]; lia.
  - assert (count (waits_on m) k0 = 0) as -> by (rewrite Hk'; by destruct m0). rewrite lookup_insert_Some in Hs. destruct Hs as [[<- <-]|[Hx Hs]].
    + destruct (H _ Em) as [_ Hc]. cbn in *. specialize (Hc Hne). destruct Hf as [-> |[-> | ->]]; cbn [count waits_on Z.b2z]; try lia.
      rewrite bool_decide_eq_true_2 by done. cbn. lia.
    + specialize (Hold Hs).
      destruct Hf as [-> |[-> | ->]]; cbn [count waits_on Z.b2z]; try lia. rewrite bool_decide_eq_false_2 by done. cbn. lia.
  - specialize (Hold Hs). cbn. lia.
  - rewrite lookup_insert_Some in Hs. cbn [count waits_on Z.b2z]. destruct Hs as [[<- <-]|[_ Hs]].
    + destruct (H _ Em) as [Hv Hc]. cbn in *. destruct ws as [|t ws]; [done|]. cbn in *. specialize (Hc ltac:(done)).
      pose proof (Z.mod_le (v + 1) (2 ^ 32) ltac:(lia) ltac:(lia)). unfold u32, uwrap in *. lia.
    + specialize (Hold Hs). lia.
  - specialize (Hold Hs). cbn. lia.
  - specialize (Hold Hs). cbn. lia.
Qed.

Lemma kW_step s s' : kA s → kW s → kstep s s' → kW s'.
Proof.
  intros Ha Hw Hk. pose proof (kstep_effect s s' Ha Hk) as He. pose proof (kstep_kind s s' Ha Hk) as Hkd.
  pose proof (kind_kA s s' Ha Hkd) as Ha'.
  assert (∀ t, t ≠ cur s → get_stack s' t = get_stack s t ∨ (get_stack s t = [] ∧ get_stack s' t = [FKernelThread])) as Ho
    by (intros t; destruct He; by eapply mv_other).
  split.
  - apply (effect_own s s' He), Hw.
  - apply (kind_dying s s' Ha Hkd), Hw.
  - intros t m old k fs Hst Hb. destruct (decide (t = cur s)) as [->|Ht]; [by eapply block_cur|].
    destruct (Ho t Ht) as [E|[_ E]]; [|by rewrite E in Hst]. rewrite E in Hst.
    destruct (kind_blocked s s' t Ha Hkd Ht Hb) as [H|H]; [|by rewrite H in Hst].
    destruct (w_blocked _ Hw t m old k fs Hst H) as (sm & Hs & Hin).
    destruct (waiter_stays s s' m sm t Hw He Hs Hin Ht) as [?|Hr]; [by eauto|done|].
    by pose proof (has_status_fun _ _ _ _ Hb Hr).
  - intros m sm Hs Hne. apply (effect_count s s' m sm Ha' He); [|done|done]. intros sm0 Hs0.
    destruct (a_sema _ Ha _ _ Hs0) as [[Hv _] _]. split; [done|]. by apply (w_count _ Hw).
Qed.

Lemma kW_boot s :
  threads (sc s) = {[ 3221282816 := Thread 1 THREAD_RUNNING "main" 3221286912 31 THREAD_MAGIC;
                      3222278144 := Thread 2 THREAD_BLOCKED "idle" 3222282196 0 THREAD_MAGIC ]} →
  semas s = {[ SLock 0 := Sema 1 []; SId 0 := Sema 0 [] ]} →
  stacks s = {[ 3221282816 := []; 3222278144 := [FIdleResume] ]} → kW s.
Proof.
  intros Et Es Ek. pose proof (boot_stacks s Ek) as Hst. split.
  - intros t. rewrite Hst. case_decide; by repeat constructor.
  - intros t Hd. apply (boot_status s Et) in Hd. naive_solver.
  - intros t m old k fs E. rewrite Hst in E. by case_decide.
  - intros m sm Hm Hne. by apply (boot_semas s Es) in Hm as [[-> ->]|[-> ->]].
Qed.

Lemma reachable_kW s : rtc kstep booted s → kW s.
Proof. apply (reach_ind kW); [apply kW_boot; vm_compute; reflexivity|]. apply kW_step. Qed.

(** C14: a wakeup is never lost: when a semaphore is positive and threads are still on its
    wait list, some thread that is not on the list is inside the loop of [sema_down] on
    that semaphore, and it is running or on the run queue, so it will look at the value. *)
Theorem sema_no_lost_wakeup s m sm :
  rtc kstep booted s → semas s !! m = Some sm → waiters sm ≠ [] → 0 < value sm →
  ∃ t old k fs, get_stack s t = FSemaLoop m old k :: fs ∧ t ∉ waiters sm ∧ (t = cur s ∨ t ∈ ready_list (sc s)).
Proof.
  intros Hr Hm Hne Hv. pose proof (reachable_kA s Hr) as Ha. pose proof (reachable_kW s Hr) as Hw.
  pose proof (w_count _ Hw m sm Hm Hne) as Hc. pose proof (a_sched _ Ha) as Hok.
  destruct (total_other (count (waits_on m)) eq_refl (waiters sm) (stacks s)) as (t & Hnin & Hc0).
  - by apply (a_sema _ Ha m).
  - intros t Hin. fold (get_stack s t). destruct (a_wait _ Ha _ _ _ Hm Hin) as (_ & _ & old & k & fs & Hst).
    pose proof (a_tail _ Ha t) as Hl. rewrite Hst in Hl |- *. cbn in *. rewrite (loopless_count m fs Hl), bool_decide_eq_true_2; done.
  - unfold frames_of in Hc. lia.
  - fold (get_stack s t) in Hc0. destruct (head_loop m (get_stack s t) (a_tail _ Ha t) Hc0) as (old & k & fs & Hst).
    exists t, old, k, fs. split_and!; [done|done|]. destruct (threads (sc s) !! t) as [th|] eqn:Et; [|by rewrite (a_dead _ Ha t Et) in Hst].
    assert (has_status (sc s) t (status th)) as Hs by (unfold has_status; by rewrite Et). destruct (status th).
    + left. by apply Hok.
    + right. apply Hok. split; [|done]. intros ->. destruct (a_idle_stack _ Ha) as (pre & x & E & Hx & Hp). rewrite Hst in E.
      destruct pre as [|g pre]; injection E as <- _; [by destruct Hx|]. by apply Forall_cons in Hp as [[] _].
    + destruct (w_blocked _ Hw _ _ _ _ _ Hst Hs) as (sm' & Hm' & Hin). congruence.
    + by rewrite (w_dying _ Hw t Hs) in Hst.
Qed.

(** ** Runs *)

(** A step chosen by what happens: the current frame runs (with a page for it), the
    current thread makes a call, or the timer interrupts. *)
Inductive event := EFrame (page : Z) | ECall (o : call) | ETick.

#[export] Instance call_ok_dec s o : Decision (call_ok s o).
Proof. destruct o; apply _. Defined.

Definition exec (e : event) : M kernel unit := λ s,
  match e, stacks s !! cur s with
  | EFrame page, Some (f :: fs) =>
      if bool_decide (threads (sc s) !! page = None) then run_frame page f (put_stack (cur s) fs s) else Crash
  | ECall o, Some [] => if bool_decide (call_ok s o) then run_call o s else Crash
  | ETick, _ => if intr_on (sc s) then tick s else Crash
  | _, _ => Crash
  end.

Fixpoint play (es : list event) (s : kernel) : option kernel :=
  match es with
  | [] => Some s
  | e :: es => match exec e s with Ret (_, s') => play es s' | _ => None end
  end.

Lemma exec_kstep e s s' u : exec e s = Ret (u, s') → kstep s s'.
Proof.
  destruct u. unfold exec. destruct e as [page|o|].
  - destruct (stacks s !! cur s) as [[|f fs]|] eqn:E; try done. case_bool_decide; [|done]. by apply (k_frame s page f fs).
  - destruct (stacks s !! cur s) as [[|f fs]|] eqn:E; try done. case_bool_decide; [|done]. by apply (k_call s o).
  - destruct (stacks s !! cur s) as [[|f fs]|] eqn:E; destruct (intr_on (sc s)) eqn:Ei; try done; by apply k_tick.
Qed.

Lemma play_reach es s s' : play es s = Some s' → rtc kstep s s'.
Proof.
  revert s. induction es as [|e es IH]; intros s; cbn; [by intros [= ->]|].
  destruct (exec e s) as [[u s1]| |] eqn:E; [|done..]. intros H. eapply rtc_l; [by eapply exec_kstep|by apply IH].
Qed.

Lemma play_test es (test : kernel → bool) :
  (if play es booted is Some s then test s else false) = true → ∃ s, rtc kstep booted s ∧ test s = true.
Proof. destruct (play es booted) as [s|] eqn:E; [|done]. intros H. exists s. split; [by apply (play_reach es)|done]. Qed.

#[export] Instance sema_eq_dec : EqDecision sema.
Proof. solve_decision. Defined.

Definition queue_is (q : list Z) (s : kernel) : bool := bool_decide (ready_list (sc s) = q).
Definition sema_is (m : sid) (sm : sema) (s : kernel) : bool := bool_decide (semas s !! m = Some sm).
Definition holder_is (l t : Z) (s : kernel) : bool := bool_decide (holders s !! l = Some t).
Definition idle_is (t : Z) (s : kernel) : bool := bool_decide (idle_of s = t).

(** [main] makes two threads. *)
Definition two_threads : list event :=
  let create page := ECall (CCreate "t" 31) :: EFrame page :: repeat (EFrame 1) 7 in
  create 3223326720 ++ create 3223330816.

(** Both wait on a semaphore, which [main] raises once. *)
Definition one_up : list event :=
  let waits := [EFrame 1; ECall (CSemaDown 1); EFrame 1] in
  ECall (CSemaInit 1 0) :: two_threads ++ [ECall CYield; EFrame 1] ++ waits ++ waits ++ [EFrame 1; ECall (CSemaUp 1); EFrame 1].

Lemma ready_thread_runs_witness :
  ∃ s, rtc kstep booted s ∧ ready_list (sc s) = [3223326720; 3223330816] ∧
    ∀ n s', run n s s' → (1 < n)%nat → ∃ s1, run 2 s s1 ∧ rtc kstep s1 s' ∧ cur s1 = 3223330816.
Proof.
  destruct (play_test two_threads (queue_is [3223326720; 3223330816])
              ltac:(vm_compute; reflexivity)) as (s & Hr & Ht). apply bool_decide_eq_true in Ht.
  exists s. split_and!; [exact Hr|exact Ht|]. intros n s' Hrun Hn.
  apply (proj2 (ready_thread_runs s Hr) 1%nat n s' 3223330816); [rewrite Ht; reflexivity|exact Hrun|exact Hn].
Defined.

Lemma threads_wellformed_witness :
  ∃ s, rtc kstep booted s ∧ ready_list (sc s) = [3223326720] ∧
    has_status (sc s) 3223326720 THREAD_READY ∧ ¬ has_status (sc s) 3223330816 THREAD_READY.
Proof.
  destruct (play_test one_up (λ s, queue_is [3223326720] s && idle_is 3222278144 s)
              ltac:(vm_compute; reflexivity)) as (s & Hr & [Ht Hi]%andb_true_iff). apply bool_decide_eq_true in Ht, Hi.
  destruct (threads_wellformed s Hr) as (_ & _ & Hq & _). rewrite Ht, Hi in Hq. exists s. split_and!; [exact Hr|exact Ht| |].
  - apply (Hq 3223326720). by apply list_elem_of_singleton.
  - intros H. assert (3223330816 ∈ [3223326720]) as Hin by (apply Hq; split; [discriminate|exact H]). by apply list_elem_of_singleton in Hin.
Defined.

(** [main] takes lock 7. *)
Definition takes_lock : list event := [ECall (CLockInit 7); ECall (CLockAcquire 7); EFrame 1; EFrame 1; EFrame 1].

Lemma lock_mutual_exclusion_witness :
  ∃ s, rtc kstep booted s ∧ holders s !! 7 = Some 3221282816 ∧ ∀ t, owns s 7 t → t = 3221282816.
Proof.
  destruct (play_test takes_lock (λ s, holder_is 7 3221282816 s && sema_is (SLock 7) (Sema 0 []) s)
              ltac:(vm_compute; reflexivity)) as (s & Hr & [Ht Hs]%andb_true_iff). apply bool_decide_eq_true in Ht, Hs.
  exists s. split_and!; [exact Hr|exact Ht|]. destruct (lock_mutual_exclusion s 7 _ Hr Hs) as [[E _]|(_ & t & _ & Hu)]; [discriminate E|].
  intros t' Ho. rewrite (Hu t' Ho). symmetry. apply Hu. left. split; [discriminate|exact Ht].
Defined.

Lemma sema_no_lost_wakeup_witness :
  ∃ s, rtc kstep booted s ∧ semas s !! SId 1 = Some (Sema 1 [3223330816]) ∧
    ∃ t old k fs, get_stack s t = FSemaLoop (SId 1) old k :: fs ∧ t ∉ [3223330816] ∧ (t = cur s ∨ t ∈ ready_list (sc s)).
Proof.
  destruct (play_test one_up (sema_is (SId 1) (Sema 1 [3223330816]))
              ltac:(vm_compute; reflexivity)) as (s & Hr & Ht). apply bool_decide_eq_true in Ht.
  exists s. split_and!; [exact Hr|exact Ht|]. exact (sema_no_lost_wakeup s _ _ Hr Ht ltac:(discriminate) ltac:(reflexivity)).
Defined.
