(* ===== verification/FileSys.v ===== *)
(** * FileSys: the file system ([pintos/src/filesys])

    Inodes ([inode.c]), the free map ([free-map.c]), open files ([file.c]), directories
    ([directory.c]) and the file system's operations ([filesys.c]), over a block device
    ([block_read] and [block_write] of [devices/block.c]).

    The device is an array of bytes.  Structures in memory are records at addresses that
    [malloc] gives out; [mallocs] holds the outcomes of the coming allocations, all of
    which succeed once it is empty.  The [SIZE] bytes at a [BUFFER] are a list. *)

From S2P Require Import Prelude Bitmap.

Definition BLOCK_SECTOR_SIZE : Z := 512.
Definition FREE_MAP_SECTOR : Z := 0.
Definition ROOT_DIR_SECTOR : Z := 1.
Definition INODE_MAGIC : Z := 1229868868. (* 0x494e4f44 *)
Definition NAME_MAX : Z := 14.

(** [struct inode_disk]; [unused] is always zero. *)
Record inode_disk := InodeDisk { id_start : Z; id_length : Z; id_magic : Z }.

(** [struct inode], [struct file], [struct dir]. *)
Record inode := Inode { sector : Z; open_cnt : Z; removed : bool; deny_write_cnt : Z; data : inode_disk }.
Record file := File { f_inode : Z; f_pos : Z; f_deny_write : bool }.
Record dir := Dir { d_inode : Z; d_pos : Z }.

Record fs := FS {
  dev_size : Z;
  disk : Z → Z;
  inodes : gmap Z inode;
  open_inodes : list Z;
  files : gmap Z file;
  dirs : gmap Z dir;
  free_map : bitmap;
  free_map_file : Z;
  brk : Z;
  mallocs : list bool
}.

Definition set_disk v s := FS (dev_size s) v (inodes s) (open_inodes s) (files s) (dirs s) (free_map s) (free_map_file s) (brk s) (mallocs s).
Definition set_inodes v s := FS (dev_size s) (disk s) v (open_inodes s) (files s) (dirs s) (free_map s) (free_map_file s) (brk s) (mallocs s).
Definition set_open v s := FS (dev_size s) (disk s) (inodes s) v (files s) (dirs s) (free_map s) (free_map_file s) (brk s) (mallocs s).
Definition set_files v s := FS (dev_size s) (disk s) (inodes s) (open_inodes s) v (dirs s) (free_map s) (free_map_file s) (brk s) (mallocs s).
Definition set_dirs v s := FS (dev_size s) (disk s) (inodes s) (open_inodes s) (files s) v (free_map s) (free_map_file s) (brk s) (mallocs s).
Definition set_map v s := FS (dev_size s) (disk s) (inodes s) (open_inodes s) (files s) (dirs s) v (free_map_file s) (brk s) (mallocs s).
Definition set_map_file v s := FS (dev_size s) (disk s) (inodes s) (open_inodes s) (files s) (dirs s) (free_map s) v (brk s) (mallocs s).
Definition set_mem b ms s := FS (dev_size s) (disk s) (inodes s) (open_inodes s) (files s) (dirs s) (free_map s) (free_map_file s) b ms.

(** A fresh address, or null. *)
Definition malloc : M fs Z := λ s,
  match mallocs s with
  | false :: ms => Ret (0, set_mem (brk s) ms s)
  | ms => Ret (brk s, set_mem (brk s + 1) (tail ms) s)
  end.

Definition get_inode (p : Z) : M fs inode := gets_opt (λ s, inodes s !! p).
Definition put_inode (p : Z) (i : inode) : M fs unit := modify (λ s, set_inodes (<[p := i]> (inodes s)) s).
Definition get_file (p : Z) : M fs file := gets_opt (λ s, files s !! p).
Definition put_file (p : Z) (f : file) : M fs unit := modify (λ s, set_files (<[p := f]> (files s)) s).
Definition get_dir (p : Z) : M fs dir := gets_opt (λ s, dirs s !! p).
Definition put_dir (p : Z) (d : dir) : M fs unit := modify (λ s, set_dirs (<[p := d]> (dirs s)) s).

Definition with_open_cnt v i := Inode (sector i) v (removed i) (deny_write_cnt i) (data i).
Definition with_removed v i := Inode (sector i) (open_cnt i) v (deny_write_cnt i) (data i).
Definition with_deny_cnt v i := Inode (sector i) (open_cnt i) (removed i) v (data i).
Definition with_pos v f := File (f_inode f) v (f_deny_write f).
Definition with_deny v f := File (f_inode f) (f_pos f) v.

(** ** The block device *)

Definition bytes_at (m : Z → Z) (a n : Z) : list Z := m <$> seqZ a n.

Definition store_bytes (a : Z) (bs : list Z) (m : Z → Z) (x : Z) : Z :=
  if bool_decide (a ≤ x < a + Z.of_nat (length bs)) then default 0 (bs !! Z.to_nat (x - a)) else m x.

Definition check_sector (sec : Z) : M fs unit := s ← get; assert (bool_decide (sec < dev_size s)).

Definition block_read (sec : Z) : M fs (list Z) :=
  check_sector sec;;
  gets (λ s, bytes_at (disk s) (BLOCK_SECTOR_SIZE * sec) BLOCK_SECTOR_SIZE).

Definition block_write (sec : Z) (buffer : list Z) : M fs unit :=
  check_sector sec;;
  modify (λ s, set_disk (store_bytes (BLOCK_SECTOR_SIZE * sec) buffer (disk s)) s).

(** ** Inodes: reading and writing *)

Definition bytes_to_sectors (size : Z) : Z := u32 (Z.quot (s32 (size + BLOCK_SECTOR_SIZE - 1)) BLOCK_SECTOR_SIZE).

Definition inode_bytes (d : inode_disk) : list Z :=
  elem_bytes (id_start d) ++ elem_bytes (u32 (id_length d)) ++ elem_bytes (id_magic d) ++ replicate 500 0.

Definition inode_of (bs : list Z) : inode_disk :=
  match elems_of (take 12 bs) with
  | [a; b; c] => InodeDisk a (s32 b) c
  | _ => InodeDisk 0 0 0
  end.

Definition byte_to_sector (i : inode) (pos : Z) : Z :=
  if bool_decide (pos < id_length (data i)) then u32 (id_start (data i) + Z.quot pos BLOCK_SECTOR_SIZE)
  else u32 (-1).

(** The bytes to copy in one turn of the loops of [inode_read_at] and
    [inode_write_at]. *)
Definition chunk_size (i : inode) (size offset : Z) : Z :=
  let sector_ofs := Z.rem offset BLOCK_SECTOR_SIZE in
  let inode_left := s32 (id_length (data i) - offset) in
  let sector_left := BLOCK_SECTOR_SIZE - sector_ofs in
  let min_left := if bool_decide (inode_left < sector_left) then inode_left else sector_left in
  if bool_decide (size < min_left) then size else min_left.

(** The bounce buffer, allocated when it is first needed. *)
Definition get_bounce (bounce : bool) : M fs bool :=
  if bounce then mret true else p ← malloc; mret (bool_decide (p ≠ 0)).

Fixpoint read_loop (fuel : nat) (i : inode) (bounce : bool) (size offset : Z) (buffer : list Z) : M fs (list Z) :=
  match fuel with
  | O => nofuel
  | S fuel =>
    if bool_decide (size > 0) then
      let sector_idx := byte_to_sector i offset in
      let sector_ofs := Z.rem offset BLOCK_SECTOR_SIZE in
      let chunk := chunk_size i size offset in
      if bool_decide (chunk ≤ 0) then mret buffer else
      if bool_decide (sector_ofs = 0) && bool_decide (chunk = BLOCK_SECTOR_SIZE) then
        bs ← block_read sector_idx;
        read_loop fuel i bounce (size - chunk) (offset + chunk) (buffer ++ bs)
      else
        ok ← get_bounce bounce;
        if negb ok then mret buffer else
        bs ← block_read sector_idx;
        read_loop fuel i true (size - chunk) (offset + chunk)
          (buffer ++ take (Z.to_nat chunk) (drop (Z.to_nat sector_ofs) bs))
    else mret buffer
  end.

Definition inode_read_at (p size offset : Z) : M fs (list Z) :=
  i ← get_inode p;
  read_loop (S (Z.to_nat size)) i false size offset [].

Fixpoint write_loop (fuel : nat) (i : inode) (bounce : bool) (buffer : list Z) (offset written : Z) : M fs Z :=
  match fuel with
  | O => nofuel
  | S fuel =>
    let size := Z.of_nat (length buffer) in
    if bool_decide (size > 0) then
      let sector_idx := byte_to_sector i offset in
      let sector_ofs := Z.rem offset BLOCK_SECTOR_SIZE in
      let sector_left := BLOCK_SECTOR_SIZE - sector_ofs in
      let chunk := chunk_size i size offset in
      if bool_decide (chunk ≤ 0) then mret written else
      if bool_decide (sector_ofs = 0) && bool_decide (chunk = BLOCK_SECTOR_SIZE) then
        block_write sector_idx (take (Z.to_nat chunk) buffer);;
        write_loop fuel i bounce (drop (Z.to_nat chunk) buffer) (offset + chunk) (written + chunk)
      else
        ok ← get_bounce bounce;
        if negb ok then mret written else
        old ← (if bool_decide (sector_ofs > 0) || bool_decide (chunk < sector_left) then block_read sector_idx
               else mret (replicate 512 0));
        block_write sector_idx (take (Z.to_nat sector_ofs) old ++ take (Z.to_nat chunk) buffer
                                ++ drop (Z.to_nat (sector_ofs + chunk)) old);;
        write_loop fuel i true (drop (Z.to_nat chunk) buffer) (offset + chunk) (written + chunk)
    else mret written
  end.

Definition inode_write_at (p : Z) (buffer : list Z) (offset : Z) : M fs Z :=
  i ← get_inode p;
  if bool_decide (deny_write_cnt i ≠ 0) then mret 0 else
  write_loop (S (length buffer)) i false buffer offset 0.

Definition inode_length (p : Z) : M fs Z := i ← get_inode p; mret (id_length (data i)).
Definition inode_get_inumber (p : Z) : M fs Z := i ← get_inode p; mret (sector i).

Definition inode_deny_write (p : Z) : M fs unit :=
  i ← get_inode p;
  let i := with_deny_cnt (deny_write_cnt i + 1) i in
  put_inode p i;;
  assert (bool_decide (deny_write_cnt i ≤ open_cnt i)).

Definition inode_allow_write (p : Z) : M fs unit :=
  i ← get_inode p;
  assert (bool_decide (deny_write_cnt i > 0));;
  assert (bool_decide (deny_write_cnt i ≤ open_cnt i));;
  put_inode p (with_deny_cnt (deny_write_cnt i - 1) i).

Definition file_read_at (f size ofs : Z) : M fs (list Z) := fl ← get_file f; inode_read_at (f_inode fl) size ofs.
Definition file_write_at (f : Z) (buffer : list Z) (ofs : Z) : M fs Z :=
  fl ← get_file f; inode_write_at (f_inode fl) buffer ofs.

(** ** The free map *)

Definition on_map {A} (m : M bitmap A) : M fs A := λ s,
  match m (free_map s) with
  | Ret (a, b) => Ret (a, set_map b s)
  | Crash => Crash
  | NoFuel => NoFuel
  end.

(** [bitmap_write (free_map, f)] and [bitmap_read (free_map, f)]. *)
Definition map_write (f : Z) : M fs bool :=
  b ← gets free_map;
  k ← file_write_at f (take (Z.to_nat (bitmap_file_size b)) (memory_of (bits b))) 0;
  mret (bitmap_write k [] b).1.

Definition map_read (f : Z) : M fs bool :=
  b ← gets free_map;
  if bool_decide (bit_cnt b > 0) then
    bs ← file_read_at f (bitmap_file_size b) 0;
    on_map (bitmap_read (Z.of_nat (length bs)) bs)
  else mret true.

Definition free_map_allocate (cnt : Z) : M fs (option Z) :=
  sec ← on_map (bitmap_scan_and_flip 0 cnt false);
  if bool_decide (sec ≠ BITMAP_ERROR) then
    f ← gets free_map_file;
    ok ← (if bool_decide (f ≠ 0) then map_write f else mret true);
    if (ok : bool) then mret (Some sec)
    else on_map (bitmap_set_multiple sec cnt false);; mret None
  else mret None.

Definition free_map_release (sec cnt : Z) : M fs unit :=
  all ← on_map (bitmap_all sec cnt);
  assert all;;
  on_map (bitmap_set_multiple sec cnt false);;
  f ← gets free_map_file;
  _ ← map_write f;
  mret tt.

(** ** Inodes: life cycle *)

Definition inode_init : M fs unit := modify (set_open []).

Fixpoint zero_loop (n : nat) (sec : Z) : M fs unit :=
  match n with
  | O => mret tt
  | S n => block_write sec (replicate 512 0);; zero_loop n (u32 (sec + 1))
  end.

Definition inode_create (sec length : Z) : M fs bool :=
  assert (bool_decide (0 ≤ length));;
  p ← malloc;
  if bool_decide (p ≠ 0) then
    let sectors := bytes_to_sectors length in
    r ← free_map_allocate sectors;
    match r with
    | Some start =>
      block_write sec (inode_bytes (InodeDisk start length INODE_MAGIC));;
      zero_loop (Z.to_nat sectors) start;;
      mret true
    | None => mret false
    end
  else mret false.

Definition inode_reopen (p : Z) : M fs Z :=
  if bool_decide (p ≠ 0) then
    i ← get_inode p; put_inode p (with_open_cnt (s32 (open_cnt i + 1)) i);; mret p
  else mret p.

Fixpoint find_open (l : list Z) (sec : Z) : M fs (option Z) :=
  match l with
  | [] => mret None
  | p :: l => i ← get_inode p; if bool_decide (sector i = sec) then mret (Some p) else find_open l sec
  end.

Definition inode_open (sec : Z) : M fs Z :=
  l ← gets open_inodes;
  r ← find_open l sec;
  match r with
  | Some p => inode_reopen p
  | None =>
    p ← malloc;
    if bool_decide (p = 0) then mret 0 else
    modify (set_open (p :: l));;
    bs ← block_read sec;
    put_inode p (Inode sec 1 false 0 (inode_of bs));;
    mret p
  end.

Definition inode_close (p : Z) : M fs unit :=
  if bool_decide (p = 0) then mret tt else
  i ← get_inode p;
  let i := with_open_cnt (s32 (open_cnt i - 1)) i in
  put_inode p i;;
  if bool_decide (open_cnt i = 0) then
    modify (λ s, set_open (filter (λ q, q ≠ p) (open_inodes s)) s);;
    (if removed i then
       free_map_release (sector i) 1;;
       free_map_release (id_start (data i)) (bytes_to_sectors (id_length (data i)))
     else mret tt);;
    modify (λ s, set_inodes (delete p (inodes s)) s)
  else mret tt.

Definition inode_remove (p : Z) : M fs unit := i ← get_inode p; put_inode p (with_removed true i).

(** ** Open files *)

Definition file_open (i : Z) : M fs Z :=
  p ← malloc;
  if bool_decide (i ≠ 0) && bool_decide (p ≠ 0) then put_file p (File i 0 false);; mret p
  else inode_close i;; mret 0.

Definition file_reopen (f : Z) : M fs Z :=
  fl ← get_file f; i ← inode_reopen (f_inode fl); file_open i.

Definition file_deny_write (f : Z) : M fs unit :=
  fl ← get_file f;
  if f_deny_write fl then mret tt else put_file f (with_deny true fl);; inode_deny_write (f_inode fl).

Definition file_allow_write (f : Z) : M fs unit :=
  fl ← get_file f;
  if f_deny_write fl then put_file f (with_deny false fl);; inode_allow_write (f_inode fl) else mret tt.

Definition file_close (f : Z) : M fs unit :=
  if bool_decide (f ≠ 0) then
    file_allow_write f;;
    fl ← get_file f;
    inode_close (f_inode fl);;
    modify (λ s, set_files (delete f (files s)) s)
  else mret tt.

Definition file_get_inode (f : Z) : M fs Z := fl ← get_file f; mret (f_inode fl).

Definition file_read (f size : Z) : M fs (list Z) :=
  fl ← get_file f;
  bs ← inode_read_at (f_inode fl) size (f_pos fl);
  put_file f (with_pos (s32 (f_pos fl + Z.of_nat (length bs))) fl);;
  mret bs.

Definition file_write (f : Z) (buffer : list Z) : M fs Z :=
  fl ← get_file f;
  n ← inode_write_at (f_inode fl) buffer (f_pos fl);
  put_file f (with_pos (s32 (f_pos fl + n)) fl);;
  mret n.

Definition file_length (f : Z) : M fs Z := fl ← get_file f; inode_length (f_inode fl).

Definition file_seek (f new_pos : Z) : M fs unit :=
  fl ← get_file f;
  assert (bool_decide (0 ≤ new_pos));;
  put_file f (with_pos new_pos fl).

Definition file_tell (f : Z) : M fs Z := fl ← get_file f; mret (f_pos fl).

(** ** Directories *)

(** [struct dir_entry], by the bytes of its memory: the sector, the name, [in_use]. *)
Definition ENTRY_SIZE : Z := 20.

Definition e_sector (e : list Z) : Z := if elems_of (take 4 e) is [x] then x else 0.
Definition e_in_use (e : list Z) : bool := bool_decide (default 0 (e !! 19%nat) ≠ 0).
Definition e_chars (e : list Z) : list Z := take 15 (drop 4 e).

(** The string that starts at the beginning of [l]; none if it is not terminated. *)
Fixpoint c_string (l : list Z) : option (list Z) :=
  match l with
  | [] => None
  | c :: l => if bool_decide (c = 0) then Some [] else cons c <$> c_string l
  end.

Definition e_name {S} (e : list Z) : M S (list Z) := gets_opt (λ _, c_string (e_chars e)).

(** [strlcpy (dst, src, size)] into the [size] bytes [dst]. *)
Definition strlcpy (dst src : list Z) : list Z :=
  overwrite (take (length dst - 1) src ++ [0]) dst.

Definition used_entry (e name : list Z) (sec : Z) : list Z := elem_bytes sec ++ strlcpy (e_chars e) name ++ [1].
Definition unused_entry (e : list Z) : list Z := take 19 e ++ [0].

Definition dir_create (sec entry_cnt : Z) : M fs bool := inode_create sec (s32 (u32 (entry_cnt * ENTRY_SIZE))).

Definition dir_open (i : Z) : M fs Z :=
  p ← malloc;
  if bool_decide (i ≠ 0) && bool_decide (p ≠ 0) then put_dir p (Dir i 0);; mret p
  else inode_close i;; mret 0.

Definition dir_open_root : M fs Z := i ← inode_open ROOT_DIR_SECTOR; dir_open i.

Definition dir_reopen (d : Z) : M fs Z := dr ← get_dir d; i ← inode_reopen (d_inode dr); dir_open i.

Definition dir_close (d : Z) : M fs unit :=
  if bool_decide (d ≠ 0) then
    dr ← get_dir d;
    inode_close (d_inode dr);;
    modify (λ s, set_dirs (delete d (dirs s)) s)
  else mret tt.

Definition dir_get_inode (d : Z) : M fs Z := dr ← get_dir d; mret (d_inode dr).

(** The entries an inode can hold, and one more turn to find its end. *)
Definition entry_fuel (i : Z) : M fs nat := n ← inode_length i; mret (S (S (Z.to_nat (n `div` ENTRY_SIZE)))).

Fixpoint lookup_loop (fuel : nat) (i : Z) (name : list Z) (ofs : Z) : M fs (option (list Z * Z)) :=
  match fuel with
  | O => nofuel
  | S fuel =>
    e ← inode_read_at i ENTRY_SIZE (s32 ofs);
    if bool_decide (Z.of_nat (length e) = ENTRY_SIZE) then
      same ← (if e_in_use e then n ← e_name e; mret (bool_decide (n = name)) else mret false);
      if (same : bool) then mret (Some (e, ofs)) else lookup_loop fuel i name (u32 (ofs + ENTRY_SIZE))
    else mret None
  end.

(** [lookup]: the entry and its offset. *)
Definition lookup (d : Z) (name : list Z) : M fs (option (list Z * Z)) :=
  dr ← get_dir d;
  fuel ← entry_fuel (d_inode dr);
  lookup_loop fuel (d_inode dr) name 0.

Definition dir_lookup (d : Z) (name : list Z) : M fs Z :=
  r ← lookup d name;
  match r with
  | Some (e, _) => inode_open (e_sector e)
  | None => mret 0
  end.

(** The search for a free slot; [e] is what the local variable holds. *)
Fixpoint slot_loop (fuel : nat) (i : Z) (e : list Z) (ofs : Z) : M fs (list Z * Z) :=
  match fuel with
  | O => nofuel
  | S fuel =>
    bs ← inode_read_at i ENTRY_SIZE ofs;
    let e := overwrite bs e in
    if bool_decide (Z.of_nat (length bs) = ENTRY_SIZE) then
      if e_in_use e then slot_loop fuel i e (s32 (ofs + ENTRY_SIZE)) else mret (e, ofs)
    else mret (e, ofs)
  end.

(** [junk] is the uninitialised memory of the local entry. *)
Definition dir_add (junk : list Z) (d : Z) (name : list Z) (inode_sector : Z) : M fs bool :=
  if bool_decide (name = []) || bool_decide (Z.of_nat (length name) > NAME_MAX) then mret false else
  r ← lookup d name;
  match r with
  | Some _ => mret false
  | None =>
    dr ← get_dir d;
    fuel ← entry_fuel (d_inode dr);
    '(e, ofs) ← slot_loop fuel (d_inode dr) junk 0;
    n ← inode_write_at (d_inode dr) (used_entry e name inode_sector) ofs;
    mret (bool_decide (n = ENTRY_SIZE))
  end.

Definition dir_remove (d : Z) (name : list Z) : M fs bool :=
  r ← lookup d name;
  match r with
  | None => mret false
  | Some (e, ofs) =>
    i ← inode_open (e_sector e);
    if bool_decide (i = 0) then mret false else
    dr ← get_dir d;
    n ← inode_write_at (d_inode dr) (unused_entry e) (s32 ofs);
    if bool_decide (n = ENTRY_SIZE) then
      inode_remove i;;
      inode_close i;;
      mret true
    else inode_close i;; mret false
  end.

Fixpoint readdir_loop (fuel : nat) (d : Z) : M fs (option (list Z)) :=
  match fuel with
  | O => nofuel
  | S fuel =>
    dr ← get_dir d;
    e ← inode_read_at (d_inode dr) ENTRY_SIZE (d_pos dr);
    if bool_decide (Z.of_nat (length e) = ENTRY_SIZE) then
      put_dir d (Dir (d_inode dr) (s32 (d_pos dr + ENTRY_SIZE)));;
      if e_in_use e then n ← e_name e; mret (Some n) else readdir_loop fuel d
    else mret None
  end.

Definition dir_readdir (d : Z) : M fs (option (list Z)) :=
  dr ← get_dir d;
  fuel ← entry_fuel (d_inode dr);
  readdir_loop fuel d.

(** ** The file system *)

(** [junk] is what the fresh memory of the bitmap holds. *)
Definition free_map_init (junk : list Z) : M fs unit :=
  n ← gets dev_size;
  p ← malloc;
  q ← (if bool_decide (p ≠ 0) then malloc else mret 0);
  (λ s, match bitmap_create (bool_decide (p ≠ 0)) (bool_decide (q ≠ 0)) junk n with
        | Ret (Some b) => Ret (tt, set_map b s)
        | Ret None | Crash => Crash
        | NoFuel => NoFuel
        end);;
  on_map (bitmap_mark FREE_MAP_SECTOR);;
  on_map (bitmap_mark ROOT_DIR_SECTOR).

Definition free_map_open : M fs unit :=
  i ← inode_open FREE_MAP_SECTOR;
  f ← file_open i;
  modify (set_map_file f);;
  assert (bool_decide (f ≠ 0));;
  ok ← map_read f;
  assert ok.

Definition free_map_close : M fs unit := f ← gets free_map_file; file_close f.

Definition free_map_create : M fs unit :=
  b ← gets free_map;
  ok ← inode_create FREE_MAP_SECTOR (s32 (bitmap_file_size b));
  assert ok;;
  i ← inode_open FREE_MAP_SECTOR;
  f ← file_open i;
  modify (set_map_file f);;
  assert (bool_decide (f ≠ 0));;
  ok ← map_write f;
  assert ok.

Definition do_format : M fs unit :=
  free_map_create;;
  ok ← dir_create ROOT_DIR_SECTOR 16;
  assert ok;;
  free_map_close.

(** The machine has a device for the file system, so that the search for one at the start of
    [filesys_init] finds it. *)
Definition filesys_init (junk : list Z) (format : bool) : M fs unit :=
  inode_init;;
  free_map_init junk;;
  (if format then do_format else mret tt);;
  free_map_open.

Definition filesys_done : M fs unit := free_map_close.

Definition filesys_create (junk : list Z) (name : list Z) (initial_size : Z) : M fs bool :=
  d ← dir_open_root;
  r ← (if bool_decide (d ≠ 0) then free_map_allocate 1 else mret None);
  success ← match r with
            | Some sec =>
              ok ← inode_create sec initial_size;
              if (ok : bool) then dir_add junk d name sec else mret false
            | None => mret false
            end;
  (if (success : bool) then mret tt
   else let inode_sector := default 0 r in
        if bool_decide (inode_sector ≠ 0) then free_map_release inode_sector 1 else mret tt);;
  dir_close d;;
  mret success.

Definition filesys_open (name : list Z) : M fs Z :=
  d ← dir_open_root;
  i ← (if bool_decide (d ≠ 0) then dir_lookup d name else mret 0);
  dir_close d;;
  file_open i.

Definition filesys_remove (name : list Z) : M fs bool :=
  d ← dir_open_root;
  success ← (if bool_decide (d ≠ 0) then dir_remove d name else mret false);
  dir_close d;;
  mret success.

(** A run: format a device of 40 sectors, make a file, write to it, read it back. *)
Definition blank (n : Z) : fs := FS n (λ _, 7) ∅ [] ∅ ∅ (Bitmap 0 []) 0 1 [].

Definition demo : M fs (bool * bool * Z * list Z * list Z) :=
  filesys_init (replicate 2 7) true;;
  a ← filesys_create (replicate 20 7) [97; 98] 700;
  b ← filesys_create (replicate 20 7) [97; 98] 5;
  f ← filesys_open [97; 98];
  file_seek f 510;;
  n ← file_write f [1; 2; 3; 4];
  file_seek f 509;;
  bs ← file_read f 6;
  file_close f;;
  _ ← filesys_remove [97; 98];
  f ← filesys_open [97; 98];
  mret (a, b, n, bs, [f]).

Example demo_runs : fst <$> (if demo (blank 40) is Ret r then Some r else None) = Some (true, false, 4, [0; 1; 2; 3; 4; 0], [0]).
Proof. vm_compute. reflexivity. Qed.
