(* ===== verification/FileSysIO.v ===== *)
(** * FileSysIO: reading and writing the data of an inode

    [inode_read_at] returns the bytes of the inode's extent that are asked for, up to its
    end; [inode_write_at] stores them there and changes nothing else.  Both are loops
    over sectors with a bounce buffer for partial ones. *)

From S2P Require Import Prelude Bitmap FileSys.

(** ** Bytes *)

Lemma length_bytes_at m a n : length (bytes_at m a n) = Z.to_nat n.
Proof. unfold bytes_at. by rewrite length_fmap, length_seqZ. Qed.

Lemma bytes_at_lookup m a n k : (k < Z.to_nat n)%nat → bytes_at m a n !! k = Some (m (a + Z.of_nat k)).
Proof. intros H. unfold bytes_at. by rewrite list_lookup_fmap, lookup_seqZ_lt by lia. Qed.

Lemma bytes_at_app m a n1 n2 : 0 ≤ n1 → 0 ≤ n2 → bytes_at m a (n1 + n2) = bytes_at m a n1 ++ bytes_at m (a + n1) n2.
Proof. intros. unfold bytes_at. by rewrite seqZ_app, fmap_app by lia. Qed.

Lemma bytes_at_nil m a n : n ≤ 0 → bytes_at m a n = [].
Proof. intros. unfold bytes_at. by rewrite seqZ_nil. Qed.

Lemma bytes_at_sub m a n j k : 0 ≤ j → 0 ≤ k → j + k ≤ n → take (Z.to_nat k) (drop (Z.to_nat j) (bytes_at m a n)) = bytes_at m (a + j) k.
Proof.
  intros Hj Hk Hn. replace n with (j + (k + (n - j - k))) by lia. rewrite (bytes_at_app _ _ j) by lia.
  rewrite drop_app_length' by (by rewrite length_bytes_at). rewrite bytes_at_app by lia.
  by rewrite take_app_length' by (by rewrite length_bytes_at).
Qed.

Lemma bytes_at_ext m m' a n : (∀ x, a ≤ x < a + n → m' x = m x) → bytes_at m' a n = bytes_at m a n.
Proof.
  intros H. unfold bytes_at. apply list_fmap_ext. intros k x Hx. apply lookup_seqZ in Hx as [-> Hk]. apply H. lia.
Qed.

Lemma store_bytes_out a bs m x : ¬ (a ≤ x < a + Z.of_nat (length bs)) → store_bytes a bs m x = m x.
Proof. intros H. unfold store_bytes. by rewrite bool_decide_eq_false_2. Qed.

Lemma store_bytes_in a bs m : bytes_at (store_bytes a bs m) a (Z.of_nat (length bs)) = bs.
Proof.
  apply list_eq_same_length with (n := length bs); [done|by rewrite length_bytes_at, Nat2Z.id|].
  intros k x y Hk. rewrite bytes_at_lookup by lia. intros [= <-] Hy. unfold store_bytes.
  rewrite bool_decide_eq_true_2 by lia. replace (Z.to_nat (a + Z.of_nat k - a)) with k by lia. by rewrite Hy.
Qed.

Lemma store_bytes_app a bs cs m x : store_bytes a (bs ++ cs) m x = store_bytes (a + Z.of_nat (length bs)) cs (store_bytes a bs m) x.
Proof.
  unfold store_bytes. rewrite length_app. repeat case_bool_decide; try lia; try done.
  - rewrite lookup_app_r by lia. do 2 f_equal. lia.
  - by rewrite lookup_app_l by lia.
Qed.

(** Storing what is there changes nothing. *)
Lemma store_bytes_same a n m x : store_bytes a (bytes_at m a n) m x = m x.
Proof.
  unfold store_bytes. rewrite length_bytes_at. case_bool_decide; [|done]. rewrite bytes_at_lookup by lia. cbn. f_equal. lia.
Qed.

Lemma store_bytes_nil a m x : store_bytes a [] m x = m x.
Proof. unfold store_bytes. rewrite bool_decide_eq_false_2; [done|cbn; lia]. Qed.

(** A partial sector, read, patched and written back. *)
Lemma store_patched a o cs m x :
  0 ≤ o → o + Z.of_nat (length cs) ≤ 512 →
  store_bytes a (take (Z.to_nat o) (bytes_at m a 512) ++ cs ++ drop (Z.to_nat (o + Z.of_nat (length cs))) (bytes_at m a 512)) m x
  = store_bytes (a + o) cs m x.
Proof.
  intros Ho Hc. unfold store_bytes. rewrite !length_app, length_take, length_drop, length_bytes_at.
  repeat case_bool_decide; try lia; [|..].
  - rewrite lookup_app_r by (rewrite length_take, length_bytes_at; lia). rewrite length_take, length_bytes_at.
    rewrite lookup_app_l by lia. do 2 f_equal. lia.
  - destruct (decide (x < a + o)).
    + rewrite lookup_app_l by (rewrite length_take, length_bytes_at; lia). rewrite lookup_take_lt by lia.
      rewrite bytes_at_lookup by lia. cbn. f_equal. lia.
    + rewrite lookup_app_r by (rewrite length_take, length_bytes_at; lia). rewrite length_take, length_bytes_at.
      rewrite lookup_app_r by lia. rewrite lookup_drop, bytes_at_lookup by lia. cbn. f_equal. lia.
Qed.

(** ** The state between allocations *)

Definition mem_ok (s : fs) : Prop := mallocs s = [] ∧ 0 < brk s.
Definition bump (b : Z) (s : fs) : fs := set_mem b [] s.

Lemma fs_malloc_run s : mem_ok s → malloc s = Ret (brk s, bump (brk s + 1) s).
Proof. intros [H _]. unfold malloc. by rewrite H. Qed.

Lemma bump_self s : mem_ok s → bump (brk s) s = s.
Proof. intros [H _]. unfold bump, set_mem. destruct s. cbn in *. by subst. Qed.

Lemma bump_ok b s : 0 < b → mem_ok (bump b s).
Proof. by split. Qed.

Lemma bounce_run bo s : mem_ok s → ∃ b, brk s ≤ b ∧ get_bounce bo s = Ret (true, bump b s).
Proof.
  intros Hm. unfold get_bounce. destruct bo.
  - exists (brk s). split; [lia|]. by rewrite bump_self.
  - exists (brk s + 1). split; [lia|]. run_step (fs_malloc_run s Hm). destruct Hm as [_ Hb]. unfold mret, M_ret. by rewrite bool_decide_eq_true_2 by lia.
Qed.

Lemma block_read_run s sec : sec < dev_size s → block_read sec s = Ret (bytes_at (disk s) (512 * sec) 512, s).
Proof. intros H. unfold block_read, check_sector. rewrite bind_assoc. unfold get, gets, assert, mbind, M_bind. by rewrite bool_decide_eq_true_2. Qed.

Lemma block_write_run s sec bs : sec < dev_size s → block_write sec bs s = Ret (tt, set_disk (store_bytes (512 * sec) bs (disk s)) s).
Proof. intros H. unfold block_write, check_sector. rewrite bind_assoc. unfold get, modify, assert, mbind, M_bind. by rewrite bool_decide_eq_true_2. Qed.

(** ** One inode *)

Definition nsec (len : Z) : Z := (len + 511) `div` 512.

(** The extent of [e] is on the device. *)
Definition ext_ok (s : fs) (e : Z * Z) : Prop :=
  0 ≤ e.1 ∧ 0 ≤ e.2 < 2 ^ 31 - 512 ∧ e.1 + nsec e.2 ≤ dev_size s ∧ dev_size s < 2 ^ 32 - 32.

Definition extent (i : inode) : Z * Z := (id_start (data i), id_length (data i)).

(** How much of a request of [size] bytes at [offset] lies in the file. *)
Definition clamp (len size offset : Z) : Z := Z.max 0 (Z.min size (len - offset)).

Section io.
Context (i : inode).
Local Abbreviation st := (id_start (data i)).
Local Abbreviation len := (id_length (data i)).

Lemma chunk_run size offset :
  0 ≤ len < 2 ^ 31 → 0 ≤ offset < 2 ^ 31 →
  chunk_size i size offset = Z.min size (Z.min (len - offset) (512 - offset `mod` 512)).
Proof.
  intros Hl Ho. unfold chunk_size. change BLOCK_SECTOR_SIZE with 512. rewrite Z.rem_mod_nonneg by lia. rewrite swrap_id by lia.
  repeat case_bool_decide; lia.
Qed.

Lemma sector_run s offset :
  ext_ok s (extent i) → 0 ≤ offset < len → byte_to_sector i offset = st + offset `div` 512 ∧ st + offset `div` 512 < dev_size s.
Proof.
  intros (H1 & H2 & H3 & H4) Ho. cbn [extent fst snd] in *. unfold byte_to_sector, nsec in *. rewrite bool_decide_eq_true_2 by lia. change BLOCK_SECTOR_SIZE with 512.
  rewrite Z.quot_div_nonneg by lia. assert (st + offset `div` 512 < dev_size s) by (Z.div_mod_to_equations; lia).
  assert (0 ≤ offset `div` 512) by (Z.div_mod_to_equations; lia). split; [rewrite uwrap_id by lia|]; done.
Qed.

(** What a turn of the loops knows when there is something to copy. *)
Lemma chunk_facts s size offset :
  ext_ok s (extent i) → 0 ≤ offset < 2 ^ 31 → 0 < size → 0 < chunk_size i size offset →
  let c := chunk_size i size offset in let o := Z.rem offset 512 in let sec := byte_to_sector i offset in
  o = offset `mod` 512 ∧ 0 ≤ o ∧ o + c ≤ 512 ∧ c ≤ size ∧ offset + c ≤ len ∧ sec < dev_size s ∧
  512 * sec + o = 512 * st + offset ∧ clamp len size offset = c + clamp len (size - c) (offset + c).
Proof.
  intros He Ho Hs Hc c o sec. pose proof He as (H1 & H2 & H3 & H4). cbn [extent fst snd] in *. rewrite chunk_run in Hc by lia.
  assert (c = Z.min size (Z.min (len - offset) (512 - offset `mod` 512))) as -> by (apply chunk_run; lia).
  assert (o = offset `mod` 512) as -> by (apply Z.rem_mod_nonneg; lia).
  destruct (sector_run s offset He) as [Hsec Hdev]; [lia|]. unfold sec. rewrite Hsec. unfold clamp.
  split_and!; try done; Z.div_mod_to_equations; lia.
Qed.

Lemma chunk_none s size offset :
  ext_ok s (extent i) → 0 ≤ offset < 2 ^ 31 → 0 < size → chunk_size i size offset ≤ 0 → clamp len size offset = 0.
Proof.
  intros (H1 & H2 & H3 & H4) Ho Hs Hc. cbn [extent fst snd] in *. rewrite chunk_run in Hc by lia. unfold clamp.
  Z.div_mod_to_equations; lia.
Qed.

Lemma read_loop_run fuel bo size offset buf s :
  mem_ok s → ext_ok s (extent i) → 0 ≤ offset < 2 ^ 31 → (Z.to_nat size < fuel)%nat →
  ∃ b, brk s ≤ b ∧
    read_loop fuel i bo size offset buf s = Ret (buf ++ bytes_at (disk s) (512 * st + offset) (clamp len size offset), bump b s).
Proof.
  revert bo size offset buf s. induction fuel as [|fuel IH]; intros bo size offset buf s Hm He Ho Hf; [lia|].
  cbn [read_loop]. change BLOCK_SECTOR_SIZE with 512. case_bool_decide as Hs.
  2:{ exists (brk s). split; [lia|]. rewrite bytes_at_nil by (unfold clamp; lia). by rewrite app_nil_r, bump_self. }
  case_bool_decide as Hc.
  { exists (brk s). split; [lia|]. rewrite (chunk_none s) by (lia || done). rewrite bytes_at_nil by lia. by rewrite app_nil_r, bump_self. }
  destruct (chunk_facts s size offset He Ho ltac:(lia) ltac:(lia)) as (E0 & Ho0 & Hoc & Hcs & Hcl & Hsec & Ea & Ecl).
  pose proof He as (_ & He2 & _ & _). cbn [extent snd] in He2. set (c := chunk_size i size offset) in *. set (o := Z.rem offset 512) in *.
  assert (∀ bo b, brk s ≤ b → ∃ b', brk s ≤ b' ∧ read_loop fuel i bo (size - c) (offset + c) (buf ++ bytes_at (disk s) (512 * st + offset) c) (bump b s)
            = Ret (buf ++ bytes_at (disk s) (512 * st + offset) (clamp len size offset), bump b' s)) as Hnext.
  { intros bo' b Hb. destruct (IH bo' (size - c) (offset + c) (buf ++ bytes_at (disk s) (512 * st + offset) c) (bump b s)) as (b' & Hb' & E);
      [apply bump_ok; destruct Hm; lia|done|lia|lia|]. exists b'. split; [cbn in Hb'; lia|]. rewrite E. rewrite Ecl, bytes_at_app by (unfold clamp; lia).
    rewrite app_assoc. do 3 f_equal. f_equal. lia. }
  destruct (bool_decide (o = 0) && bool_decide (c = 512)) eqn:Eb.
  - apply andb_true_iff in Eb as [Eo%bool_decide_eq_true Ec%bool_decide_eq_true].
    run_step (block_read_run s _ Hsec). replace (512 * byte_to_sector i offset) with (512 * st + offset) by lia.
    rewrite Ec in Hnext |- *. destruct (Hnext bo (brk s)) as (b' & Hb' & E); [lia|]. exists b'. split; [done|].
    rewrite bump_self in E by done. exact E.
  - destruct (bounce_run bo s Hm) as (b & Hb & E). run_step E. cbn [negb].
    run_step (block_read_run (bump b s) _ Hsec). cbn [disk bump set_mem]. rewrite bytes_at_sub by lia. rewrite Ea. by apply Hnext.
Qed.

Lemma write_loop_run fuel bo buf offset w s :
  mem_ok s → ext_ok s (extent i) → 0 ≤ offset < 2 ^ 31 → (length buf < fuel)%nat →
  let n := clamp len (Z.of_nat (length buf)) offset in
  ∃ b d, brk s ≤ b ∧ write_loop fuel i bo buf offset w s = Ret (w + n, set_disk d (bump b s)) ∧
    ∀ x, d x = store_bytes (512 * st + offset) (take (Z.to_nat n) buf) (disk s) x.
Proof.
  revert bo buf offset w s. induction fuel as [|fuel IH]; intros bo buf offset w s Hm He Ho Hf; [lia|].
  assert (∀ n, n = 0 → ∃ b d, brk s ≤ b ∧ Ret (w, s) = Ret (w + n, set_disk d (bump b s)) ∧
            ∀ x, d x = store_bytes (512 * st + offset) (take (Z.to_nat n) buf) (disk s) x) as Hstop.
  { intros n ->. exists (brk s), (disk s). split_and!; [lia| |].
    - rewrite bump_self by done. destruct s. cbn. do 2 f_equal. lia.
    - intros x. cbn [Z.to_nat]. rewrite take_0. by rewrite store_bytes_nil. }
  cbn [write_loop]. change BLOCK_SECTOR_SIZE with 512. case_bool_decide as Hs; [|apply Hstop; unfold clamp; lia].
  case_bool_decide as Hc; [apply Hstop; by apply (chunk_none s); [| |lia|]|].
  set (size := Z.of_nat (length buf)) in *.
  destruct (chunk_facts s size offset He Ho ltac:(lia) ltac:(lia)) as (E0 & Ho0 & Hoc & Hcs & Hcl & Hsec & Ea & Ecl).
  pose proof He as (_ & He2 & _ & _). cbn [extent snd] in He2. set (c := chunk_size i size offset) in *. set (o := Z.rem offset 512) in *.
  assert (length (take (Z.to_nat c) buf) = Z.to_nat c) as Hlt by (rewrite length_take; lia).
  assert (∀ bo b d, brk s ≤ b → (∀ x, d x = store_bytes (512 * st + offset) (take (Z.to_nat c) buf) (disk s) x) →
    ∃ b' d', brk s ≤ b' ∧ write_loop fuel i bo (drop (Z.to_nat c) buf) (offset + c) (w + c) (set_disk d (bump b s))
       = Ret (w + clamp len size offset, set_disk d' (bump b' s)) ∧
       ∀ x, d' x = store_bytes (512 * st + offset) (take (Z.to_nat (clamp len size offset)) buf) (disk s) x) as Hnext.
  { intros bo' b d Hb Hd. destruct (IH bo' (drop (Z.to_nat c) buf) (offset + c) (w + c) (set_disk d (bump b s))) as (b' & d' & Hb' & E & Hd');
      [destruct Hm; split; [done|cbn; lia]|done|lia|rewrite length_drop; lia|].
    rewrite length_drop in E, Hd'. replace (Z.of_nat (length buf - Z.to_nat c)) with (size - c) in E, Hd' by lia.
    exists b', d'. split_and!; [cbn in Hb'; lia|rewrite E, Ecl; by rewrite Z.add_assoc|]. intros x. rewrite Hd', Ecl.
    rewrite (Z2Nat.inj_add c) by (unfold clamp; lia). rewrite <- take_take_drop, store_bytes_app, Hlt.
    rewrite Z2Nat.id by lia. replace (512 * st + offset + c) with (512 * st + (offset + c)) by lia.
    unfold store_bytes. case_bool_decide; [done|]. apply Hd. }
  destruct (bool_decide (o = 0) && bool_decide (c = 512)) eqn:Eb.
  - apply andb_true_iff in Eb as [Eo%bool_decide_eq_true Ec%bool_decide_eq_true].
    run_step (block_write_run s _ (take (Z.to_nat c) buf) Hsec).
    destruct (Hnext bo (brk s) (store_bytes (512 * byte_to_sector i offset) (take (Z.to_nat c) buf) (disk s))) as (b' & d' & Hb' & E & Hd'); [lia| |].
    { intros x. by replace (512 * byte_to_sector i offset) with (512 * st + offset) by lia. }
    rewrite (bump_self s Hm) in E. by exists b', d'.
  - destruct (bounce_run bo s Hm) as (b & Hb & E). run_step E. cbn [negb].
    assert ((if bool_decide (o > 0) || bool_decide (c < 512 - o) then block_read (byte_to_sector i offset) else mret (replicate 512 0)) (bump b s)
      = Ret (bytes_at (disk s) (512 * byte_to_sector i offset) 512, bump b s)) as Hold.
    { destruct (bool_decide (o > 0) || bool_decide (c < 512 - o)) eqn:Eg; [exact (block_read_run (bump b s) _ Hsec)|].
      apply orb_false_iff in Eg as [Eg1%bool_decide_eq_false Eg2%bool_decide_eq_false]. apply andb_false_iff in Eb as [Eb|Eb]; apply bool_decide_eq_false in Eb; lia. }
    run_step Hold. run_step (block_write_run (bump b s) _ (take (Z.to_nat o) (bytes_at (disk s) (512 * byte_to_sector i offset) 512) ++
      take (Z.to_nat c) buf ++ drop (Z.to_nat (o + c)) (bytes_at (disk s) (512 * byte_to_sector i offset) 512)) Hsec).
    apply Hnext; [done|]. intros x. rewrite <- Ea. replace (o + c) with (o + Z.of_nat (length (take (Z.to_nat c) buf))) by lia.
    apply store_patched; [lia|]. rewrite Hlt. lia.
Qed.
End io.

(** ** The operations *)

Lemma inode_read_at_run s p i size offset :
  mem_ok s → inodes s !! p = Some i → ext_ok s (extent i) → 0 ≤ offset < 2 ^ 31 →
  ∃ b, brk s ≤ b ∧ inode_read_at p size offset s =
    Ret (bytes_at (disk s) (512 * id_start (data i) + offset) (clamp (id_length (data i)) size offset), bump b s).
Proof.
  intros Hm Hi He Ho. unfold inode_read_at. run_step (gets_opt_Some (λ s, inodes s !! p) s i Hi).
  destruct (read_loop_run i (S (Z.to_nat size)) false size offset [] s) as (b & Hb & E); [done|done|done|lia|]. by exists b.
Qed.

Lemma inode_write_at_run s p i buf offset :
  mem_ok s → inodes s !! p = Some i → ext_ok s (extent i) → 0 ≤ offset < 2 ^ 31 → deny_write_cnt i = 0 →
  let n := clamp (id_length (data i)) (Z.of_nat (length buf)) offset in
  ∃ b d, brk s ≤ b ∧ inode_write_at p buf offset s = Ret (n, set_disk d (bump b s)) ∧
    ∀ x, d x = store_bytes (512 * id_start (data i) + offset) (take (Z.to_nat n) buf) (disk s) x.
Proof.
  intros Hm Hi He Ho Hd. unfold inode_write_at. run_step (gets_opt_Some (λ s, inodes s !! p) s i Hi).
  rewrite (bool_decide_eq_false_2 (deny_write_cnt i ≠ 0)) by tauto.
  exact (write_loop_run i (S (length buf)) false buf offset 0 s Hm He Ho ltac:(lia)).
Qed.

Lemma inode_write_denied s p i buf offset :
  inodes s !! p = Some i → deny_write_cnt i ≠ 0 → inode_write_at p buf offset s = Ret (0, s).
Proof.
  intros Hi Hd. unfold inode_write_at. run_step (gets_opt_Some (λ s, inodes s !! p) s i Hi).
  by rewrite (bool_decide_eq_true_2 (deny_write_cnt i ≠ 0)).
Qed.
