(* ===== verification/FileSysInv.v ===== *)
(** * FileSysInv: the layout of the disk and the free map

    The inodes in use are described by a map [L] from the sector of an inode to its
    extent (first data sector and length).  [layout] says that the disk holds these
    inodes, that their sectors are disjoint and that the free map has them all marked.
    The operations of the free map change its bits and the sectors of its own file. *)

From S2P Require Import Prelude Bitmap FileSys FileSysIO.

(** The sectors of an inode: its own and those of its data. *)
Definition secs (sec : Z) (e : Z * Z) (x : Z) : Prop := x = sec ∨ e.1 ≤ x < e.1 + nsec e.2.

Record layout (s : fs) (L : gmap Z (Z * Z)) : Prop := {
  ly_map : bm_ok (free_map s);
  ly_cnt : bit_cnt (free_map s) = dev_size s;
  ly_ext : ∀ sec e, L !! sec = Some e → ext_ok s e ∧ 0 ≤ sec < dev_size s ∧ ¬ e.1 ≤ sec < e.1 + nsec e.2;
  ly_used : ∀ sec e x, L !! sec = Some e → secs sec e x → bit_at (free_map s) x = true;
  ly_apart : ∀ sec sec' e e' x, L !! sec = Some e → L !! sec' = Some e' → secs sec e x → secs sec' e' x → sec = sec';
  ly_disk : ∀ sec e, L !! sec = Some e → inode_of (bytes_at (disk s) (512 * sec) 512) = InodeDisk e.1 e.2 INODE_MAGIC
}.

(** The data of the inode at a sector. *)
Definition content (s : fs) (e : Z * Z) : list Z := bytes_at (disk s) (512 * e.1) e.2.

(** The file of the free map: absent while the disk is formatted, otherwise open on the
    inode of sector 0. *)
Definition map_home (s : fs) (L : gmap Z (Z * Z)) : Prop :=
  free_map_file s = 0 ∨
  ∃ fl i e, files s !! free_map_file s = Some fl ∧ inodes s !! f_inode fl = Some i ∧ deny_write_cnt i = 0 ∧
    sector i = 0 ∧ data i = InodeDisk e.1 e.2 INODE_MAGIC ∧ L !! 0 = Some e ∧ e.2 = byte_cnt (dev_size s) ∧ free_map_file s ≠ 0.

Definition map_bytes (b : bitmap) : list Z := take (Z.to_nat (byte_cnt (bit_cnt b))) (memory_of (bits b)).

(** The bytes [c] have the bits of [b]; the unused bits of the last element may differ. *)
Definition encodes (c : list Z) (b : bitmap) : Prop :=
  ∃ b0, bm_ok b0 ∧ bit_cnt b0 = bit_cnt b ∧ Bitmap.abs b0 = Bitmap.abs b ∧ c = map_bytes b0.

(** The disk has the free map of the memory. *)
Definition saved (s : fs) (L : gmap Z (Z * Z)) : Prop :=
  free_map_file s ≠ 0 → ∃ e, L !! 0 = Some e ∧ encodes (content s e) (free_map s).

(** The sectors of the free map's own data. *)
Definition map_sector (L : gmap Z (Z * Z)) (x : Z) : Prop :=
  ∃ e, L !! 0 = Some e ∧ e.1 ≤ x < e.1 + nsec e.2.

(** A change of the bits in a range, saved. *)
Record map_step (L : gmap Z (Z * Z)) (st cnt : Z) (v : bool) (s s' : fs) : Prop := {
  ms_rest : s' = set_disk (disk s') (bump (brk s') (set_map (free_map s') s));
  ms_brk : brk s ≤ brk s';
  ms_map : bm_ok (free_map s');
  ms_cnt : bit_cnt (free_map s') = bit_cnt (free_map s);
  ms_bits : ∀ x, 0 ≤ x → bit_at (free_map s') x = if decide (in_range st cnt x) then v else bit_at (free_map s) x;
  ms_disk : ∀ a, ¬ map_sector L (a `div` 512) → disk s' a = disk s a;
  ms_saved : saved s' L
}.

Lemma length_map_bytes b : bm_ok b → Z.of_nat (length (map_bytes b)) = byte_cnt (bit_cnt b).
Proof.
  intros [Hc Hl He]. unfold map_bytes. rewrite length_take, length_memory. pose proof (byte_cnt_spec _ Hc) as H. rewrite H.
  assert (0 ≤ byte_cnt (bit_cnt b)) by (unfold byte_cnt; apply uwrap_range; lia). lia.
Qed.

Lemma nsec_bounds len : 0 ≤ len → len ≤ 512 * nsec len < len + 512 ∧ 0 ≤ nsec len.
Proof. intros H. unfold nsec. Z.div_mod_to_equations. lia. Qed.

Lemma ext_sector s e a : ext_ok s e → 512 * e.1 ≤ a < 512 * e.1 + e.2 → e.1 ≤ a `div` 512 < e.1 + nsec e.2.
Proof. intros (H1 & H2 & _ & _) Ha. unfold nsec. Z.div_mod_to_equations. lia. Qed.

Lemma map_write_run s L :
  mem_ok s → layout s L → map_home s L → free_map_file s ≠ 0 →
  ∃ b d, brk s ≤ b ∧ map_write (free_map_file s) s = Ret (true, set_disk d (bump b s)) ∧
    (∀ a, ¬ map_sector L (a `div` 512) → d a = disk s a) ∧ saved (set_disk d (bump b s)) L.
Proof.
  intros Hm Hl [E|(fl & i & e & Hf & Hi & Hd & Hs & Hdat & He & Hlen & _)] Hnz; [done|].
  destruct (ly_ext _ _ Hl _ _ He) as (Hext & _). pose proof (length_map_bytes _ (ly_map _ _ Hl)) as Hlb. rewrite (ly_cnt _ _ Hl) in Hlb.
  unfold map_write. rewrite (bind_Ret _ _ s (free_map s) s) by done. unfold file_write_at. rewrite bind_assoc.
  run_step (gets_opt_Some (λ s', files s' !! free_map_file s) s fl Hf).
  destruct (inode_write_at_run s (f_inode fl) i (map_bytes (free_map s)) 0 Hm Hi) as (b & d & Hb & E & Hst); [|lia|done|].
  { unfold extent. by rewrite Hdat; destruct e. }
  rewrite Hdat in E, Hst. cbn [id_start id_length] in *. rewrite Hlb, <- Hlen in E, Hst.
  destruct Hext as (He1 & He2 & He3 & He4). assert (clamp e.2 e.2 0 = e.2) as Ec by (unfold clamp; lia). rewrite Ec in E, Hst.
  assert (take (Z.to_nat e.2) (map_bytes (free_map s)) = map_bytes (free_map s)) as Et by (apply take_ge; lia). rewrite Et, Z.add_0_r in Hst.
  unfold bitmap_file_size. fold (map_bytes (free_map s)). run_step E. exists b, d. split_and!; [done| | |].
  - unfold bitmap_write. cbn [fst]. rewrite (ly_cnt _ _ Hl), <- Hlen. by rewrite bool_decide_eq_true_2.
  - intros a Ha. rewrite Hst. apply store_bytes_out. intros Hin. apply Ha. exists e. split; [done|].
    apply (ext_sector s); [done|]. lia.
  - intros _. exists e. split; [done|]. exists (free_map s). split_and!; [apply Hl|done|done|]. unfold content. cbn [disk set_disk bump set_mem free_map].
    rewrite (bytes_at_ext (store_bytes (512 * e.1) (map_bytes (free_map s)) (disk s)) d) by (intros; apply Hst).
    rewrite Hlen, <- Hlb. apply store_bytes_in.
Qed.

(** ** Operations of the free map *)

(** After the bits have changed in memory, the map is written. *)
Lemma map_flush s L st cnt v b :
  mem_ok s → layout s L → map_home s L → bm_ok b → bit_cnt b = bit_cnt (free_map s) →
  (∀ x, 0 ≤ x → bit_at b x = if decide (in_range st cnt x) then v else bit_at (free_map s) x) →
  (∀ sec e x, L !! sec = Some e → secs sec e x → bit_at b x = true) →
  ∃ s', (if bool_decide (free_map_file s ≠ 0) then map_write (free_map_file s) else mret true) (set_map b s) = Ret (true, s') ∧
    map_step L st cnt v s s'.
Proof.
  intros Hm Hl Hh Hb Hc Hbits Hu. case_bool_decide as Hz.
  - assert (layout (set_map b s) L) as Hl'.
    { destruct Hl as [_ H2 H3 H4 H5 H6]. split; try done. cbn. by rewrite Hc. }
    destruct (map_write_run (set_map b s) L) as (k & d & Hk & E & Hd & Hs); [exact Hm|done|exact Hh|done|].
    eexists. split; [exact E|]. by split.
  - eexists. split; [done|]. split; try done.
    + destruct s. cbn. unfold set_disk, bump, set_mem, set_map. destruct Hm as [Hm _]. cbn in *. by subst.
    + intros H. by destruct H.
Qed.

Lemma group_at_bits b cnt v i :
  group_at (Bitmap.abs b) cnt v i ↔ (i + cnt ≤ Z.to_nat (bit_cnt b))%nat ∧ ∀ x, Z.of_nat i ≤ x < Z.of_nat (i + cnt) → bit_at b x = v.
Proof.
  unfold group_at. rewrite length_abs. split; intros [Hle H]; (split; [done|]).
  - intros x Hx. rewrite Forall_lookup in H. apply (H (Z.to_nat x - i)%nat).
    rewrite lookup_take_lt by lia. rewrite lookup_drop. replace (i + (Z.to_nat x - i))%nat with (Z.to_nat x) by lia.
    apply bit_at_abs. lia.
  - apply Forall_lookup. intros k y Hk. assert (k < cnt)%nat as Hlt by (apply lookup_lt_Some in Hk; rewrite length_take in Hk; lia).
    rewrite lookup_take_lt, lookup_drop in Hk by lia. rewrite <- (Nat2Z.id (i + k)) in Hk. rewrite bit_at_abs in Hk by lia.
    injection Hk as <-. apply H. lia.
Qed.

(** No run of [cnt] free sectors. *)
Definition no_run (s : fs) (cnt : Z) : Prop :=
  ∀ st, 0 ≤ st → st + cnt ≤ dev_size s → ∃ x, st ≤ x < st + cnt ∧ bit_at (free_map s) x = true.

Lemma free_map_allocate_run s L cnt :
  mem_ok s → layout s L → map_home s L → 0 ≤ cnt →
  (∃ st s', free_map_allocate cnt s = Ret (Some st, s') ∧ 0 ≤ st ∧ st + cnt ≤ dev_size s ∧
     (∀ x, st ≤ x < st + cnt → bit_at (free_map s) x = false) ∧ map_step L st cnt true s s' ∧
     ∀ st', 0 ≤ st' → st' + cnt ≤ dev_size s → (∀ x, st' ≤ x < st' + cnt → bit_at (free_map s) x = false) → st ≤ st') ∨
  (free_map_allocate cnt s = Ret (None, s) ∧ no_run s cnt).
Proof.
  intros Hm Hl Hh Hc. unfold free_map_allocate, bitmap_scan_and_flip. pose proof (ly_map _ _ Hl) as Hb. pose proof (bm_cnt _ Hb) as Hbc.
  pose proof (bitmap_scan_run (free_map s) 0 cnt false Hb ltac:(lia) Hc) as Es.
  destruct (first_group (Bitmap.abs (free_map s)) (Z.to_nat 0) (Z.to_nat cnt) false) as [i|] eqn:Eg; cbn [err_or from_option] in Es.
  - left. apply first_group_Some in Eg as (_ & [Hle Hfree]%group_at_bits & Hmin).
    assert (Z.of_nat i ≠ BITMAP_ERROR) as Hne by (change BITMAP_ERROR with (2 ^ 32 - 1); lia).
    destruct (bitmap_set_multiple_run (free_map s) (Z.of_nat i) cnt true Hb) as (b' & E2 & Hb' & Hcnt & Hbits); [lia..|].
    assert (on_map (bitmap_scan 0 cnt false ≫= λ idx, ((if bool_decide (idx ≠ BITMAP_ERROR) then bitmap_set_multiple idx cnt (negb false) else mret tt) ≫= λ _, mret idx)) s
      = Ret (Z.of_nat i, set_map b' s)) as E3.
    { unfold on_map. rewrite (bind_Ret _ _ _ _ _ Es). rewrite bool_decide_eq_true_2 by done. cbn [negb]. by rewrite (bind_Ret _ _ _ _ _ E2). }
    run_step E3. rewrite bool_decide_eq_true_2 by done. rewrite (bind_Ret _ _ (set_map b' s) (free_map_file s) (set_map b' s)) by done.
    destruct (map_flush s L (Z.of_nat i) cnt true b' Hm Hl Hh Hb' Hcnt) as (s' & E4 & Hst); [|..].
    { intros x Hx. by apply Hbits. }
    { intros sec e x He Hx. assert (0 ≤ x). { destruct (ly_ext _ _ Hl _ _ He) as ((? & _) & ? & _). destruct Hx as [-> |?]; lia. }
      rewrite Hbits by done. case_decide; [done|]. by apply (ly_used _ _ Hl _ _ _ He). }
    exists (Z.of_nat i), s'. run_step E4. split_and!; [done|lia|rewrite <- (ly_cnt _ _ Hl); lia| |done|].
    + intros x Hx. apply Hfree. lia.
    + intros st' H0 Hdev Hf. destruct (decide (Z.of_nat i ≤ st')); [done|]. destruct (Hmin (Z.to_nat st')); [lia|].
      apply group_at_bits. rewrite (ly_cnt _ _ Hl). split; [lia|]. intros x Hx. apply Hf. lia.
  - right. split.
    + assert (on_map (bitmap_scan 0 cnt false ≫= λ idx, ((if bool_decide (idx ≠ BITMAP_ERROR) then bitmap_set_multiple idx cnt (negb false) else mret tt) ≫= λ _, mret idx)) s
        = Ret (BITMAP_ERROR, s)) as E3.
      { unfold on_map. rewrite (bind_Ret _ _ _ _ _ Es). rewrite bool_decide_eq_false_2 by tauto. rewrite ret_bind. destruct s. done. }
      run_step E3. by rewrite bool_decide_eq_false_2 by tauto.
    + intros st Hst Hle. destruct (decide (Exists (λ x, bit_at (free_map s) x = true) (seqZ st cnt))) as [(x & Hx & Hbx)%Exists_exists|Hno].
      { exists x. apply elem_of_seqZ in Hx. split; [lia|done]. }
      exfalso. apply (first_group_None _ _ _ _ Eg (Z.to_nat st)); [lia|]. apply group_at_bits. rewrite (ly_cnt _ _ Hl).
      split; [lia|]. intros x Hx. destruct (bit_at (free_map s) x) eqn:E; [|done]. destruct Hno. apply Exists_exists. exists x. split; [|done].
      apply elem_of_seqZ. lia.
Qed.

Lemma free_map_release_run s L st cnt :
  mem_ok s → layout s L → map_home s L → free_map_file s ≠ 0 → 0 ≤ st → 0 ≤ cnt → st + cnt ≤ dev_size s →
  (∀ x, st ≤ x < st + cnt → bit_at (free_map s) x = true) →
  (∀ sec e x, L !! sec = Some e → secs sec e x → ¬ in_range st cnt x) →
  ∃ s', free_map_release st cnt s = Ret (tt, s') ∧ map_step L st cnt false s s'.
Proof.
  intros Hm Hl Hh Hz Hst Hc Hle Hall Hapart. unfold free_map_release. pose proof (ly_map _ _ Hl) as Hb. rewrite <- (ly_cnt _ _ Hl) in Hle.
  assert (on_map (bitmap_all st cnt) s = Ret (true, s)) as E1.
  { unfold on_map, bitmap_all. rewrite (bind_Ret _ _ _ _ _ (bitmap_contains_run _ st cnt false Hb Hst Hc Hle)).
    rewrite bool_decide_eq_false_2; [by destruct s|]. intros (k & Hk)%list_elem_of_lookup. rewrite bits_in_lookup in Hk.
    case_decide; [|done]. rewrite Hall in Hk by lia. done. }
  run_step E1. rewrite assert_bind by done.
  destruct (bitmap_set_multiple_run (free_map s) st cnt false Hb Hst Hc Hle) as (b' & E2 & Hb' & Hcnt & Hbits).
  rewrite (bind_Ret _ _ _ tt (set_map b' s)) by (unfold on_map; by rewrite E2). rewrite (bind_Ret _ _ (set_map b' s) (free_map_file s) (set_map b' s)) by done.
  destruct (map_flush s L st cnt false b' Hm Hl Hh Hb' Hcnt Hbits) as (s' & E4 & Hs).
  { intros sec e x He Hx. assert (0 ≤ x). { destruct (ly_ext _ _ Hl _ _ He) as ((? & _) & ? & _). destruct Hx as [-> |?]; lia. }
    rewrite Hbits by done. rewrite decide_False by (by eapply Hapart). by apply (ly_used _ _ Hl _ _ _ He). }
  rewrite bool_decide_eq_true_2 in E4 by done. exists s'. run_step E4. done.
Qed.

(** ** What keeps the layout *)

Lemma layout_frame s s' L :
  layout s L → dev_size s' = dev_size s → bm_ok (free_map s') → bit_cnt (free_map s') = bit_cnt (free_map s) →
  (∀ sec e x, L !! sec = Some e → secs sec e x → bit_at (free_map s') x = true) →
  (∀ sec e a, L !! sec = Some e → a `div` 512 = sec → disk s' a = disk s a) → layout s' L.
Proof.
  intros [H1 H2 H3 H4 H5 H6] E1 Hb Ec Hu Hd. split; [done|by rewrite Ec, E1| |done|done|].
  - intros sec e He. destruct (H3 _ _ He) as (He1 & He2 & He3). unfold ext_ok. by rewrite E1.
  - intros sec e He. rewrite <- (H6 _ _ He). f_equal. apply bytes_at_ext. intros x Hx. apply (Hd sec e); [done|].
    Z.div_mod_to_equations. lia.
Qed.

(** Whoever owns a data sector of the free map is the free map. *)
Lemma map_sector_owner s L sec e x : layout s L → L !! sec = Some e → secs sec e x → map_sector L x → sec = 0.
Proof. intros Hl He Hx (e0 & He0 & Hx0). apply (ly_apart _ _ Hl sec 0 e e0 x); [done|done|done|]. by right. Qed.

Lemma map_sector_not_inode s L sec e : layout s L → L !! sec = Some e → ¬ map_sector L sec.
Proof.
  intros Hl He Hx. assert (sec = 0) as -> by (apply (map_sector_owner s L sec e sec); [done|done|by left|done]).
  destruct Hx as (e0 & He0 & Hx). destruct (ly_ext _ _ Hl _ _ He0) as (_ & _ & H). by apply H.
Qed.

Lemma map_step_layout s s' L st cnt v :
  layout s L → map_step L st cnt v s s' →
  (v = true ∨ ∀ sec e x, L !! sec = Some e → secs sec e x → ¬ in_range st cnt x) → layout s' L.
Proof.
  intros Hl [Hr _ Hb Hc Hbits Hd _] Hv. apply (layout_frame s); [done|by rewrite Hr|done|done| |].
  - intros sec e x He Hx. assert (0 ≤ x). { destruct (ly_ext _ _ Hl _ _ He) as ((? & _) & ? & _). destruct Hx as [-> |?]; lia. }
    rewrite Hbits by done. case_decide as Hin; [|by apply (ly_used _ _ Hl _ _ _ He)].
    destruct Hv as [?|Hv]; [done|]. by destruct (Hv sec e x He Hx).
  - intros sec e a He Ha. apply Hd. rewrite Ha. by apply (map_sector_not_inode s L sec e).
Qed.

(** The data of the other inodes stays. *)
Lemma map_step_content s s' L st cnt v sec e :
  layout s L → map_step L st cnt v s s' → L !! sec = Some e → sec ≠ 0 → content s' e = content s e.
Proof.
  intros Hl Hs He Hne. apply bytes_at_ext. intros a Ha. apply (ms_disk _ _ _ _ _ _ Hs). intros Hm. apply Hne.
  apply (map_sector_owner s L sec e (a `div` 512)); [done|done| |done]. right.
  destruct (ly_ext _ _ Hl _ _ He) as (Hx & _). by apply (ext_sector s).
Qed.

(** The inode at [sec] is forgotten; its sectors stay marked. *)
Lemma layout_delete s L sec : layout s L → layout s (delete sec L).
Proof.
  intros [H1 H2 H3 H4 H5 H6]. split; [done|done|..].
  - intros x e [_ He]%lookup_delete_Some. by apply H3.
  - intros x e y [_ He]%lookup_delete_Some. by apply H4.
  - intros x x' e e' y [_ He]%lookup_delete_Some [_ He']%lookup_delete_Some. by apply H5.
  - intros x e [_ He]%lookup_delete_Some. by apply H6.
Qed.

(** ** Making an inode *)

Lemma bytes_to_sectors_run len : 0 ≤ len < 2 ^ 31 - 512 → bytes_to_sectors len = nsec len.
Proof.
  intros H. unfold bytes_to_sectors, nsec. change BLOCK_SECTOR_SIZE with 512. rewrite swrap_id by lia.
  rewrite Z.quot_div_nonneg by lia. rewrite uwrap_id; [f_equal; lia|]. Z.div_mod_to_equations. lia.
Qed.

Lemma zero_loop_run n st s :
  0 ≤ st → st + Z.of_nat n ≤ dev_size s → dev_size s < 2 ^ 32 →
  ∃ d, zero_loop n st s = Ret (tt, set_disk d s) ∧
    ∀ a, d a = if decide (st ≤ a `div` 512 < st + Z.of_nat n) then 0 else disk s a.
Proof.
  revert st s. induction n as [|n IH]; intros st s Hst Hle Hdev.
  { exists (disk s). split; [by destruct s|]. intros a. rewrite decide_False; [done|lia]. }
  cbn [zero_loop]. run_step (block_write_run s st (replicate 512 0) ltac:(lia)).
  destruct (decide (n = 0)%nat) as [->|Hn].
  { eexists. split; [done|]. intros a. unfold store_bytes. rewrite length_replicate. case_bool_decide; case_decide; try done.
    - rewrite lookup_replicate_2 by lia. done.
    - Z.div_mod_to_equations; lia.
    - Z.div_mod_to_equations; lia. }
  rewrite uwrap_id by lia. destruct (IH (st + 1) (set_disk (store_bytes (512 * st) (replicate 512 0) (disk s)) s)) as (d & E & Hd); [lia|cbn; lia|done|].
  exists d. split; [done|]. intros a. rewrite Hd. cbn [disk set_disk]. unfold store_bytes. rewrite length_replicate.
  repeat case_decide; try done; try (Z.div_mod_to_equations; lia); case_bool_decide; try done; try (Z.div_mod_to_equations; lia).
  by rewrite lookup_replicate_2 by lia.
Qed.

Lemma length_inode_bytes d : length (inode_bytes d) = 512%nat.
Proof. unfold inode_bytes. by rewrite !length_app, length_replicate. Qed.

Lemma inode_bytes_of st len m : 0 ≤ st < 2 ^ 32 → 0 ≤ len < 2 ^ 31 → 0 ≤ m < 2 ^ 32 →
  inode_of (inode_bytes (InodeDisk st len m)) = InodeDisk st len m.
Proof.
  intros H1 H2 H3. unfold inode_of, inode_bytes. cbn [id_start id_length id_magic].
  rewrite uwrap_id by lia. rewrite !app_assoc. rewrite take_app_le by done. rewrite take_ge by done. rewrite <- app_assoc.
  rewrite !elem_bytes_inv by lia. rewrite <- (app_nil_r (elem_bytes m)), elem_bytes_inv by lia. cbn. by rewrite swrap_id by lia.
Qed.

Record create_step (L : gmap Z (Z * Z)) (sec st len : Z) (s s' : fs) : Prop := {
  cs_rest : s' = set_disk (disk s') (bump (brk s') (set_map (free_map s') s));
  cs_brk : brk s ≤ brk s';
  cs_layout : layout s' (<[sec := (st, len)]> L);
  cs_saved : saved s' (<[sec := (st, len)]> L);
  cs_free : ∀ x, in_range st (nsec len) x → bit_at (free_map s) x = false;
  cs_bits : ∀ x, 0 ≤ x → bit_at (free_map s') x = if decide (in_range st (nsec len) x) then true else bit_at (free_map s) x;
  cs_zero : content s' (st, len) = replicate (Z.to_nat len) 0;
  cs_content : ∀ x e, L !! x = Some e → x ≠ 0 → content s' e = content s e
}.

(** Adding an inode whose sectors nobody owns. *)
Lemma layout_insert s L sec e :
  layout s L → (∀ x e', L !! x = Some e' → ∀ y, secs sec e y → ¬ secs x e' y) →
  ext_ok s e → 0 ≤ sec < dev_size s → ¬ e.1 ≤ sec < e.1 + nsec e.2 →
  (∀ x, secs sec e x → bit_at (free_map s) x = true) →
  inode_of (bytes_at (disk s) (512 * sec) 512) = InodeDisk e.1 e.2 INODE_MAGIC → layout s (<[sec := e]> L).
Proof.
  intros [H1 H2 H3 H4 H5 H6] Hfree He Hsec Hself Hu Hd. split; [done|done|..].
  - intros x e' [[<- <-]|[_ Hx]]%lookup_insert_Some; [done|by apply H3].
  - intros x e' y [[<- <-]|[_ Hx]]%lookup_insert_Some; [by apply Hu|by apply H4].
  - intros x x' f f' y [[<- <-]|[_ Hx]]%lookup_insert_Some [[<- <-]|[_ Hx']]%lookup_insert_Some Hy Hy'; [done|..].
    + by destruct (Hfree _ _ Hx' y).
    + by destruct (Hfree _ _ Hx y).
    + by apply (H5 x x' f f' y).
  - intros x e' [[<- <-]|[_ Hx]]%lookup_insert_Some; [done|by apply H6].
Qed.

Lemma inode_create_run s L sec len :
  mem_ok s → layout s L → map_home s L → 0 ≤ len < 2 ^ 31 - 512 → 0 ≤ sec < dev_size s → sec ≠ 0 ∨ free_map_file s = 0 →
  (∀ x e, L !! x = Some e → ¬ secs x e sec) → bit_at (free_map s) sec = true →
  (∃ st s', inode_create sec len s = Ret (true, s') ∧ create_step L sec st len s s') ∨
  (inode_create sec len s = Ret (false, bump (brk s + 1) s) ∧ no_run s (nsec len)).
Proof.
  intros Hm Hl Hh Hlen Hsec H0 Hown Hbit. unfold inode_create. rewrite assert_bind by (apply bool_decide_eq_true_2; lia).
  run_step (fs_malloc_run s Hm). destruct Hm as [Hm Hbrk]. rewrite bool_decide_eq_true_2 by lia. rewrite bytes_to_sectors_run by done.
  pose proof (nsec_bounds len ltac:(lia)) as [Hns Hns0].
  set (s1 := bump (brk s + 1) s). assert (layout s1 L) as Hl1 by (apply (layout_frame s); try done; apply Hl).
  destruct (free_map_allocate_run s1 L (nsec len)) as [(st & s2 & E & Hst & Hle & Hfree & Hs2 & _)|[E Hno]];
    [apply bump_ok; lia|done|exact Hh|done| |].
  2:{ right. run_step E. done. }
  change (free_map s1) with (free_map s) in Hfree. change (dev_size s1) with (dev_size s) in Hle.
  left. run_step E. pose proof (map_step_layout _ _ _ _ _ _ Hl1 Hs2 (or_introl eq_refl)) as Hl2.
  assert (dev_size s2 = dev_size s) as Hdev by (by rewrite (ms_rest _ _ _ _ _ _ Hs2)).
  assert (dev_size s < 2 ^ 32 - 32) as Hd32 by (rewrite <- (ly_cnt _ _ Hl); apply (bm_cnt _ (ly_map _ _ Hl))).
  run_step (block_write_run s2 sec (inode_bytes (InodeDisk st len INODE_MAGIC)) ltac:(lia)).
  set (s3 := set_disk _ s2). destruct (zero_loop_run (Z.to_nat (nsec len)) st s3) as (d & Ez & Hd); [done|change (dev_size s3) with (dev_size s2); lia|cbn; lia|].
  run_step Ez. exists st, (set_disk d s3). split; [done|]. rewrite Z2Nat.id in Hd by done.
  assert (¬ in_range st (nsec len) sec) as Hsr by (intros Hin; apply Hfree in Hin; by rewrite Hbit in Hin).
  (* the owners keep their sectors *)
  assert (∀ x e a, L !! x = Some e → secs x e (a `div` 512) → d a = disk s2 a) as Hkeep.
  { intros x e a Hx Ha. rewrite Hd, decide_False.
    - unfold s3. cbn [disk set_disk]. apply store_bytes_out. rewrite length_inode_bytes. intros Hin. apply (Hown _ _ Hx).
      replace sec with (a `div` 512); [done|]. Z.div_mod_to_equations. lia.
    - intros Hin. pose proof (ly_used _ _ Hl _ _ _ Hx Ha) as Hu. by rewrite Hfree in Hu. }
  assert (layout (set_disk d s3) L) as Hl3.
  { apply (layout_frame s2); try done; [apply Hl2|apply Hl2|]. intros x e a Hx Ha. apply (Hkeep x e); [done|]. by left. }
  split.
  - pose proof (ms_rest _ _ _ _ _ _ Hs2) as Hr. unfold s3. destruct s2 as [f0 f1 f2 f3 f4 f5 f6 f7 f8 f9]. by injection Hr as -> -> -> -> -> -> ->.
  - pose proof (ms_brk _ _ _ _ _ _ Hs2) as Hb. cbn in *. lia.
  - apply layout_insert; [done|..].
    + intros x e Hx y [-> |Hy] Hy'; [by apply (Hown x e)|]. cbn in Hy. pose proof (ly_used _ _ Hl _ _ _ Hx Hy') as Hu. by rewrite Hfree in Hu.
    + unfold ext_ok. cbn. rewrite Hdev. lia.
    + change (0 ≤ sec < dev_size s2). lia.
    + exact Hsr.
    + intros x Hx. change (bit_at (free_map s2) x = true). assert (0 ≤ x) by (destruct Hx as [-> |?]; cbn in *; lia).
      rewrite (ms_bits _ _ _ _ _ _ Hs2) by done. case_decide as Hin; [done|]. destruct Hx as [-> |Hx]; [exact Hbit|]. by destruct Hin.
    + cbn [disk set_disk fst snd]. rewrite (bytes_at_ext (disk s3)).
      * unfold s3. cbn [disk set_disk]. pose proof (store_bytes_in (512 * sec) (inode_bytes (InodeDisk st len INODE_MAGIC)) (disk s2)) as Hin.
        rewrite length_inode_bytes in Hin. change (Z.of_nat 512) with 512 in Hin. rewrite Hin.
        apply inode_bytes_of; [lia|lia|done].
      * intros a Ha. rewrite Hd, decide_False; [done|]. intros Hin. apply Hsr. replace sec with (a `div` 512); [done|]. Z.div_mod_to_equations. lia.
  - intros Hz. destruct H0 as [H0|H0]; [|exfalso; apply Hz; change (free_map_file s2 = 0); by rewrite (ms_rest _ _ _ _ _ _ Hs2)].
    destruct (ms_saved _ _ _ _ _ _ Hs2 Hz) as (e & He & Hc). exists e. rewrite lookup_insert_ne by done. split; [done|].
    change (free_map (set_disk d s3)) with (free_map s2). replace (content (set_disk d s3) e) with (content s2 e); [done|]. symmetry. apply bytes_at_ext. intros a Ha. apply (Hkeep 0 e); [done|]. right. apply (ext_sector s); [|done].
    by destruct (ly_ext _ _ Hl _ _ He).
  - intros x Hx. by apply Hfree.
  - intros x Hx. exact (ms_bits _ _ _ _ _ _ Hs2 x Hx).
  - unfold content. cbn [disk set_disk fst snd]. apply list_eq_same_length with (n := Z.to_nat len); [by rewrite length_replicate|by rewrite length_bytes_at|].
    intros k y y' Hk. rewrite bytes_at_lookup, lookup_replicate by lia. intros [= <-] [-> _]. rewrite Hd, decide_True; [done|].
    Z.div_mod_to_equations. lia.
  - intros x e Hx Hne. change (content s e) with (content s1 e). rewrite <- (map_step_content s1 s2 L st (nsec len) true x e Hl1 Hs2 Hx Hne). apply bytes_at_ext. intros a Ha.
    apply (Hkeep x e); [done|]. right. apply (ext_sector s); [|done]. by destruct (ly_ext _ _ Hl _ _ Hx).
Qed.
