(* ===== verification/FileSysMem.v ===== *)
(** * FileSysMem: the inodes in memory

    An inode that is open is in memory once, with the number of files and directories
    that refer to it; when the last of them closes it, it goes, and with it the sectors
    of a removed file.  [ex] lists references the running operation still holds. *)

From S2P Require Import Prelude Bitmap FileSys FileSysIO FileSysInv.

(** ** Sums over a map *)

Definition sum_map {V} (g : V → Z) (m : gmap Z V) : Z := map_fold (λ _ v acc, g v + acc) 0 m.

Section sums.
Context {V : Type} (g : V → Z).

Lemma sum_insert_fresh m k v : m !! k = None → sum_map g (<[k := v]> m) = g v + sum_map g m.
Proof. intros H. unfold sum_map. rewrite map_fold_insert_L; [done| |done]. intros. lia. Qed.

Lemma sum_lookup m k v : m !! k = Some v → sum_map g m = g v + sum_map g (delete k m).
Proof. intros H. rewrite <- (insert_delete_id m k v H) at 1. by rewrite sum_insert_fresh by apply lookup_delete_eq. Qed.

Lemma sum_insert m k v w : m !! k = Some v → sum_map g (<[k := w]> m) = sum_map g m - g v + g w.
Proof.
  intros H. rewrite (sum_lookup _ k w) by apply lookup_insert_eq. rewrite delete_insert_eq. rewrite (sum_lookup m k v H). lia.
Qed.

Lemma sum_bounds m : (∀ v, 0 ≤ g v ≤ 1) → 0 ≤ sum_map g m ≤ Z.of_nat (size m).
Proof.
  intros Hg. induction m as [|k v m Hf IH] using map_ind; [unfold sum_map; rewrite map_fold_empty, map_size_empty; lia|].
  rewrite sum_insert_fresh, map_size_insert_None by done. pose proof (Hg v). lia.
Qed.

Lemma sum_zero m : (∀ k v, m !! k = Some v → g v = 0) → sum_map g m = 0.
Proof.
  induction m as [|k v m Hf IH] using map_ind; intros H; [done|]. rewrite sum_insert_fresh by done.
  rewrite (H k v) by apply lookup_insert_eq. rewrite IH; [done|]. intros k' v' Hk. apply (H k'). rewrite lookup_insert_ne; [done|]. by intros ->; congruence.
Qed.

Lemma sum_nonzero m : sum_map g m ≠ 0 → ∃ k v, m !! k = Some v ∧ g v ≠ 0.
Proof.
  induction m as [|k v m Hf IH] using map_ind; intros H; [done|]. rewrite sum_insert_fresh in H by done.
  destruct (decide (g v = 0)) as [E|E]; [|exists k, v; by rewrite lookup_insert_eq].
  destruct IH as (k' & v' & Hk & Hg); [lia|]. exists k', v'. rewrite lookup_insert_ne; [done|]. by intros ->; congruence.
Qed.
End sums.

Definition at_inode (p q : Z) : Z := Z.b2z (bool_decide (q = p)).
Definition denies_at (p : Z) (f : file) : Z := Z.b2z (bool_decide (f_inode f = p) && f_deny_write f).

Definition refs (s : fs) (p : Z) : Z :=
  sum_map (λ f, at_inode p (f_inode f)) (files s) + sum_map (λ d, at_inode p (d_inode d)) (dirs s).
Definition denies (s : fs) (p : Z) : Z := sum_map (denies_at p) (files s).
Definition occ (p : Z) (ex : list Z) : Z := Z.of_nat (length (filter (λ q, q = p) ex)).

Lemma at_inode_bounds p q : 0 ≤ at_inode p q ≤ 1.
Proof. unfold at_inode. case_bool_decide; cbn; lia. Qed.

Lemma occ_cons p q ex : occ p (q :: ex) = at_inode p q + occ p ex.
Proof. unfold occ, at_inode. rewrite filter_cons. case_decide; case_bool_decide; cbn; try done; lia. Qed.

Lemma occ_zero p ex : p ∉ ex → occ p ex = 0.
Proof.
  induction ex as [|q ex IH]; [done|]. rewrite elem_of_cons, occ_cons. intros H. unfold at_inode.
  rewrite bool_decide_eq_false_2 by (intros ->; tauto). rewrite IH by tauto. done.
Qed.

Lemma occ_bounds p ex : 0 ≤ occ p ex ≤ Z.of_nat (length ex).
Proof. unfold occ. pose proof (length_filter (λ q, q = p) ex). lia. Qed.

Lemma refs_bounds s p : 0 ≤ refs s p ≤ Z.of_nat (size (files s)) + Z.of_nat (size (dirs s)).
Proof.
  unfold refs. pose proof (sum_bounds (λ f, at_inode p (f_inode f)) (files s) (λ f, at_inode_bounds p (f_inode f))).
  pose proof (sum_bounds (λ d, at_inode p (d_inode d)) (dirs s) (λ d, at_inode_bounds p (d_inode d))). lia.
Qed.

(** ** The invariant *)

Record mem_inv (s : fs) (L : gmap Z (Z * Z)) (ex : list Z) : Prop := {
  mi_ok : mem_ok s;
  mi_nodup : NoDup (open_inodes s);
  mi_dom : ∀ p, p ∈ open_inodes s ↔ is_Some (inodes s !! p);
  mi_fresh : ∀ p, is_Some (inodes s !! p) ∨ is_Some (files s !! p) ∨ is_Some (dirs s !! p) → 0 < p < brk s;
  mi_node : ∀ p i, inodes s !! p = Some i → ∃ e, L !! sector i = Some e ∧ data i = InodeDisk e.1 e.2 INODE_MAGIC;
  mi_inj : ∀ p p' i i', inodes s !! p = Some i → inodes s !! p' = Some i' → sector i = sector i' → p = p';
  mi_cnt : ∀ p i, inodes s !! p = Some i → open_cnt i = refs s p + occ p ex ∧ 1 ≤ open_cnt i ∧ deny_write_cnt i = denies s p;
  mi_files : ∀ f fl, files s !! f = Some fl → is_Some (inodes s !! f_inode fl) ∧ 0 ≤ f_pos fl < 2 ^ 31;
  mi_dirs : ∀ d dr, dirs s !! d = Some dr → is_Some (inodes s !! d_inode dr);
  mi_ex : ∀ p, p ∈ ex → is_Some (inodes s !! p);
  mi_few : Z.of_nat (size (files s)) + Z.of_nat (size (dirs s)) + Z.of_nat (length ex) < 2 ^ 31
}.

Record st_inv (s : fs) (L : gmap Z (Z * Z)) (ex : list Z) : Prop := {
  si_lay : layout s L;
  si_mem : mem_inv s L ex;
  si_home : map_home s L;
  si_saved : saved s L
}.

Lemma st_mem_ok s L ex : st_inv s L ex → mem_ok s.
Proof. intros H. apply H. Qed.

Lemma open_ext s L ex p i :
  st_inv s L ex → inodes s !! p = Some i →
  ∃ e, L !! sector i = Some e ∧ data i = InodeDisk e.1 e.2 INODE_MAGIC ∧ extent i = e ∧ ext_ok s (extent i).
Proof.
  intros Hs Hi. destruct (mi_node _ _ _ (si_mem _ _ _ Hs) _ _ Hi) as (e & He & Hd). exists e.
  assert (extent i = e) as E by (unfold extent; rewrite Hd; by destruct e). split_and!; [done|done|done|].
  rewrite E. by destruct (ly_ext _ _ (si_lay _ _ _ Hs) _ _ He).
Qed.

(** Only the break moves. *)
Lemma st_bump s L ex b : st_inv s L ex → brk s ≤ b → st_inv (bump b s) L ex.
Proof.
  intros [Hl Hm Hh Hv] Hb. split; [|..].
  - by apply (layout_frame s); try done; apply Hl.
  - destruct Hm as [H1 H2 H3 H4 H5 H6 H7 H8 H9 H10 H11]. split; try done.
    + destruct H1. split; [done|cbn; lia].
    + intros p Hp. apply H4 in Hp. cbn. lia.
  - exact Hh.
  - exact Hv.
Qed.

(** ** Opening *)

Record open_step (sec p : Z) (s s' : fs) : Prop := {
  os_rest : s' = set_open (open_inodes s') (set_inodes (inodes s') (bump (brk s') s));
  os_brk : brk s ≤ brk s';
  os_new : ∃ i', inodes s' !! p = Some i' ∧ sector i' = sec ∧
    ((inodes s !! p = None ∧ removed i' = false ∧ ∀ q i, inodes s !! q = Some i → sector i ≠ sec) ∨
     ∃ i, inodes s !! p = Some i ∧ sector i = sec ∧ removed i' = removed i);
  os_other : ∀ q, q ≠ p → inodes s' !! q = inodes s !! q
}.

Lemma find_open_run l sec s :
  (∀ p, p ∈ l → is_Some (inodes s !! p)) →
  (∃ p i, find_open l sec s = Ret (Some p, s) ∧ inodes s !! p = Some i ∧ sector i = sec) ∨
  (find_open l sec s = Ret (None, s) ∧ ∀ p i, p ∈ l → inodes s !! p = Some i → sector i ≠ sec).
Proof.
  induction l as [|p l IH]; intros Hl; [right; split; [done|by intros p i ?%elem_of_nil]|].
  destruct (Hl p) as [i Hi]; [left|]. cbn [find_open]. rewrite (bind_Ret _ _ _ _ _ (gets_opt_Some (λ s, inodes s !! p) s i Hi)). case_bool_decide as E.
  - left. by exists p, i.
  - destruct IH as [(q & j & E' & Hj)|(E' & Hno)]; [intros q Hq; apply Hl; by right|left; by exists q, j|right].
    split; [done|]. intros q j [-> |Hq]%elem_of_cons Hj; [congruence|by apply (Hno q)].
Qed.

(** A change of one inode's counts. *)
Lemma mem_update s L ex ex' p i i' :
  mem_inv s L ex → inodes s !! p = Some i → sector i' = sector i → data i' = data i →
  (open_cnt i' = refs s p + occ p ex' ∧ 1 ≤ open_cnt i' ∧ deny_write_cnt i' = denies s p) →
  (∀ q, q ≠ p → occ q ex' = occ q ex) → (∀ q, q ∈ ex' → q = p ∨ q ∈ ex) →
  Z.of_nat (size (files s)) + Z.of_nat (size (dirs s)) + Z.of_nat (length ex') < 2 ^ 31 →
  mem_inv (set_inodes (<[p := i']> (inodes s)) s) L ex'.
Proof.
  intros [H1 H2 H3 H4 H5 H6 H7 H8 H9 H10 H11] Hi Es Ed Hc Ho He Hf.
  assert (∀ q, is_Some (<[p := i']> (inodes s) !! q) ↔ is_Some (inodes s !! q)) as Hd.
  { intros q. destruct (decide (q = p)) as [->|]; [rewrite lookup_insert_eq, Hi; split; intros _; by eexists|by rewrite lookup_insert_ne]. }
  split; cbn [inodes set_inodes open_inodes files dirs brk]; try done.
  - intros q. by rewrite Hd.
  - intros q. rewrite Hd. apply H4.
  - intros q j [[<- <-]|[_ Hj]]%lookup_insert_Some; [rewrite Es, Ed; by apply (H5 p)|by apply (H5 q)].
  - intros q q' j j' [[<- <-]|[Hq Hj]]%lookup_insert_Some [[<- <-]|[Hq' Hj']]%lookup_insert_Some; [done|..].
    + rewrite Es. by apply (H6 p q' i j').
    + rewrite Es. by apply (H6 q p j i).
    + by apply (H6 q q' j j').
  - intros q j [[<- <-]|[Hq Hj]]%lookup_insert_Some; [exact Hc|]. rewrite Ho by done. exact (H7 q j Hj).
  - intros f fl Hfl. rewrite Hd. by apply (H8 f).
  - intros d dr Hdr. rewrite Hd. by apply (H9 d).
  - intros q Hq. rewrite Hd. destruct (He q Hq) as [-> |?]; [by eexists|by apply H10].
Qed.

(** The parts of the store that do not look at the counts. *)
Lemma st_inodes s L ex ex' p i i' :
  st_inv s L ex → inodes s !! p = Some i → sector i' = sector i → data i' = data i →
  (sector i = 0 → deny_write_cnt i' = deny_write_cnt i) →
  mem_inv (set_inodes (<[p := i']> (inodes s)) s) L ex' → st_inv (set_inodes (<[p := i']> (inodes s)) s) L ex'.
Proof.
  intros [Hl Hm Hh Hv] Hi Es Ed Hdn Hm'. split; [|done| |exact Hv].
  - by apply (layout_frame s); try done; apply Hl.
  - destruct Hh as [Hz|(fl & j & e & Hf & Hj & Hd & Hs & Hdat & He & Hlen & Hz)]; [by left|right].
    cbn [files set_inodes free_map_file inodes dev_size]. destruct (decide (f_inode fl = p)) as [Ep|Ep].
    + rewrite Ep in Hj. rewrite Hi in Hj. injection Hj as <-. exists fl, i', e. rewrite Ep, lookup_insert_eq, Es, Ed, (Hdn Hs). done.
    + exists fl, j, e. by rewrite lookup_insert_ne.
Qed.

Lemma inode_reopen_run s L ex p i :
  st_inv s L ex → inodes s !! p = Some i →
  Z.of_nat (size (files s)) + Z.of_nat (size (dirs s)) + Z.of_nat (length (p :: ex)) < 2 ^ 31 →
  let s' := set_inodes (<[p := with_open_cnt (open_cnt i + 1) i]> (inodes s)) s in
  inode_reopen p s = Ret (p, s') ∧ st_inv s' L (p :: ex).
Proof.
  intros Hs Hi Hfew s'. pose proof (si_mem _ _ _ Hs) as Hm. destruct (mi_cnt _ _ _ Hm _ _ Hi) as (Hc & H1 & Hd).
  pose proof (refs_bounds s p). pose proof (occ_bounds p ex). cbn [length] in Hfew.
  assert (p ≠ 0) as Hp by (pose proof (mi_fresh _ _ _ Hm p) as Hf; rewrite Hi in Hf; specialize (Hf ltac:(eauto)); lia).
  split.
  - unfold inode_reopen. rewrite bool_decide_eq_true_2 by done. run_step (gets_opt_Some (λ s, inodes s !! p) s i Hi).
    rewrite swrap_id by lia. done.
  - apply (st_inodes s L ex _ p i); [done|done|done|done|done|]. apply (mem_update s L ex _ p i); try done; [|..].
    + cbn. rewrite occ_cons. unfold at_inode. rewrite bool_decide_eq_true_2 by done. cbn. lia.
    + intros q Hq. rewrite occ_cons. unfold at_inode. by rewrite bool_decide_eq_false_2 by done.
    + intros q [-> |?]%elem_of_cons; auto.
Qed.

Lemma refs_zero s p :
  (∀ f fl, files s !! f = Some fl → f_inode fl ≠ p) → (∀ d dr, dirs s !! d = Some dr → d_inode dr ≠ p) → refs s p = 0.
Proof.
  intros Hf Hd. unfold refs, at_inode. rewrite !sum_zero; [done|..].
  - intros k v Hk. rewrite bool_decide_eq_false_2; [done|]. by eapply Hd.
  - intros k v Hk. rewrite bool_decide_eq_false_2; [done|]. by eapply Hf.
Qed.

Lemma denies_zero s p : (∀ f fl, files s !! f = Some fl → f_inode fl ≠ p) → denies s p = 0.
Proof.
  intros Hf. unfold denies, denies_at. apply sum_zero. intros k v Hk. rewrite bool_decide_eq_false_2; [done|]. by eapply Hf.
Qed.

(** A new inode in memory. *)
Definition loaded (sec : Z) (s : fs) : fs :=
  set_inodes (<[brk s := Inode sec 1 false 0 (inode_of (bytes_at (disk s) (512 * sec) 512))]> (inodes s))
    (set_open (brk s :: open_inodes s) (bump (brk s + 1) s)).

Lemma loaded_inv s L ex sec e :
  st_inv s L ex → L !! sec = Some e → (∀ p i, inodes s !! p = Some i → sector i ≠ sec) →
  Z.of_nat (size (files s)) + Z.of_nat (size (dirs s)) + Z.of_nat (length (brk s :: ex)) < 2 ^ 31 →
  st_inv (loaded sec s) L (brk s :: ex).
Proof.
  intros [Hl Hm Hh Hv] He Hno Hfew. destruct Hm as [H1 H2 H3 H4 H5 H6 H7 H8 H9 H10 H11].
  assert (inodes s !! brk s = None) as Hfr.
  { destruct (inodes s !! brk s) as [i|] eqn:E; [|done]. specialize (H4 (brk s)). rewrite E in H4. specialize (H4 ltac:(eauto)). lia. }
  assert (∀ q, is_Some (inodes s !! q) → q ≠ brk s) as Hne by (intros q Hq ->; rewrite Hfr in Hq; by destruct Hq).
  assert (inode_of (bytes_at (disk s) (512 * sec) 512) = InodeDisk e.1 e.2 INODE_MAGIC) as Hdsk by (by apply (ly_disk _ _ Hl)).
  assert (refs s (brk s) = 0 ∧ denies s (brk s) = 0) as [Hr0 Hd0].
  { split; [apply refs_zero|apply denies_zero].
    - intros f fl Hf. apply Hne. by apply (H8 f).
    - intros d dr Hd. apply Hne. by apply (H9 d).
    - intros f fl Hf. apply Hne. by apply (H8 f). }
  assert (∀ q, is_Some (<[brk s := Inode sec 1 false 0 (inode_of (bytes_at (disk s) (512 * sec) 512))]> (inodes s) !! q) ↔ q = brk s ∨ is_Some (inodes s !! q)) as Hd.
  { intros q. destruct (decide (q = brk s)) as [->|]; [rewrite lookup_insert_eq; split; [by left|by eexists]|rewrite lookup_insert_ne by done; tauto]. }
  split; [|split|..].
  - by apply (layout_frame s); try done; apply Hl.
  - destruct H1. split; [done|cbn; lia].
  - cbn. apply NoDup_cons. split; [|done]. rewrite H3. intros Hq. by apply Hne in Hq.
  - intros q. cbn. rewrite Hd, elem_of_cons, H3. done.
  - intros q. cbn. rewrite Hd. intros Hq. destruct H1. assert (q = brk s ∨ 0 < q < brk s); [|lia].
    destruct Hq as [[-> |Hq]|Hq]; [by left|right; apply H4; tauto..].
  - intros q i. cbn. intros [[<- <-]|[_ Hi]]%lookup_insert_Some; [|by apply (H5 q)]. exists e. by rewrite Hdsk.
  - intros q q' i i'. cbn. intros [[<- <-]|[Hq Hi]]%lookup_insert_Some [[<- <-]|[Hq' Hi']]%lookup_insert_Some; [done|..]; cbn; intros Es.
    + by destruct (Hno _ _ Hi').
    + by destruct (Hno _ _ Hi).
    + by apply (H6 q q' i i').
  - intros q i. cbn. rewrite occ_cons. intros [[<- <-]|[Hq Hi]]%lookup_insert_Some.
    + change (refs (loaded sec s) (brk s)) with (refs s (brk s)). change (denies (loaded sec s) (brk s)) with (denies s (brk s)).
      assert (occ (brk s) ex = 0) as Ho.
      { apply occ_zero. intros Hx. by destruct (Hne (brk s)); [apply H10|]. }
      unfold at_inode. rewrite bool_decide_eq_true_2 by done. cbn. lia.
    + unfold at_inode. rewrite bool_decide_eq_false_2 by done. exact (H7 q i Hi).
  - intros f fl Hf. cbn. rewrite Hd. split; [right|]; by apply (H8 f).
  - intros d dr Hdr. cbn. rewrite Hd. right. by apply (H9 d).
  - intros q. cbn. rewrite Hd. intros [-> |Hq]%elem_of_cons; [by left|right; by apply H10].
  - exact Hfew.
  - destruct Hh as [Hz|(fl & j & e' & Hf & Hj & Hx)]; [by left|right]. exists fl, j, e'. split; [done|]. split; [|exact Hx].
    cbn. rewrite lookup_insert_ne; [done|]. intros E. rewrite <- E, Hfr in Hj. done.
  - exact Hv.
Qed.

Lemma inode_open_run s L ex sec e :
  st_inv s L ex → L !! sec = Some e →
  Z.of_nat (size (files s)) + Z.of_nat (size (dirs s)) + Z.of_nat (length ex) + 1 < 2 ^ 31 →
  ∃ p s', inode_open sec s = Ret (p, s') ∧ p ≠ 0 ∧ open_step sec p s s' ∧ st_inv s' L (p :: ex).
Proof.
  intros Hs He Hfew. pose proof (si_mem _ _ _ Hs) as Hm. unfold inode_open. rewrite (bind_Ret _ _ s (open_inodes s) s) by done.
  destruct (find_open_run (open_inodes s) sec s) as [(p & i & E & Hi & Es)|[E Hno]]; [intros p; apply Hm|..]; run_step E.
  - destruct (inode_reopen_run s L ex p i Hs Hi) as [E' Hs']; [cbn [length]; lia|]. eexists p, _. split; [exact E'|].
    assert (0 < p) by (pose proof (mi_fresh _ _ _ Hm p) as Hf; rewrite Hi in Hf; specialize (Hf ltac:(eauto)); lia).
    split_and!; [lia| |done]. split.
    + destruct (st_mem_ok _ _ _ Hs) as [Hml _]. destruct s. cbn in *. by subst.
    + cbn. lia.
    + eexists. cbn. rewrite lookup_insert_eq. split_and!; [done|done|]. right. by exists i.
    + intros q Hq. cbn. by rewrite lookup_insert_ne.
  - assert (∀ p i, inodes s !! p = Some i → sector i ≠ sec) as Hno'.
    { intros p i Hi. apply (Hno p i); [|done]. apply Hm. by eexists. }
    run_step (fs_malloc_run s (mi_ok _ _ _ Hm)). pose proof (mi_ok _ _ _ Hm) as [_ Hb]. rewrite bool_decide_eq_false_2 by lia.
    destruct (ly_ext _ _ (si_lay _ _ _ Hs) _ _ He) as (_ & Hsec & _).
    assert (inodes s !! brk s = None) as Hfr.
    { destruct (inodes s !! brk s) as [i|] eqn:Ei; [|done]. pose proof (mi_fresh _ _ _ Hm (brk s)) as H4. rewrite Ei in H4. specialize (H4 ltac:(eauto)). lia. }
    rewrite (bind_Ret _ _ _ _ _ eq_refl). run_step (block_read_run (set_open (brk s :: open_inodes s) (bump (brk s + 1) s)) sec ltac:(cbn; lia)).
    exists (brk s), (loaded sec s). split; [done|]. split_and!; [lia| |apply (loaded_inv s L ex sec e); try done; cbn [length]; lia]. split.
    + done.
    + cbn. lia.
    + eexists. cbn. rewrite lookup_insert_eq. split_and!; [done|done|]. by left.
    + intros q Hq. cbn. by rewrite lookup_insert_ne.
Qed.

(** ** Closing *)

Record close_exec (p : Z) (i : inode) (L L' : gmap Z (Z * Z)) (s s' : fs) : Prop := {
  ce_L : L' = if bool_decide (open_cnt i = 1) && removed i then delete (sector i) L else L;
  ce_dev : dev_size s' = dev_size s;
  ce_files : files s' = files s;
  ce_dirs : dirs s' = dirs s;
  ce_map_file : free_map_file s' = free_map_file s;
  ce_mem : mem_ok s';
  ce_brk : brk s ≤ brk s';
  ce_open : open_inodes s' = if bool_decide (open_cnt i = 1) then filter (λ q, q ≠ p) (open_inodes s) else open_inodes s;
  ce_inodes : inodes s' = if bool_decide (open_cnt i = 1) then delete p (inodes s) else <[p := with_open_cnt (open_cnt i - 1) i]> (inodes s);
  ce_lay : layout s' L';
  ce_home : map_home s' L';
  ce_saved : saved s' L';
  ce_content : ∀ x e, L' !! x = Some e → x ≠ 0 → content s' e = content s e
}.

(** States that agree on what the layout and the free map are about. *)
Record agree (s s' : fs) : Prop := {
  ag_dev : dev_size s' = dev_size s;
  ag_disk : disk s' = disk s;
  ag_map : free_map s' = free_map s;
  ag_map_file : free_map_file s' = free_map_file s
}.

Lemma agree_layout s s' L : agree s s' → layout s L → layout s' L.
Proof.
  intros [H1 H2 H3 H4] Hl. apply (layout_frame s); try done; rewrite ?H3; [apply Hl|done|apply Hl|]. intros. by rewrite H2.
Qed.

Lemma agree_saved s s' L : agree s s' → saved s L → saved s' L.
Proof. intros [H1 H2 H3 H4] Hs. unfold saved, content. by rewrite H2, H3, H4. Qed.

(** The free map's file survives a change of other inodes. *)
Lemma home_frame s s' L L' p :
  map_home s L → dev_size s' = dev_size s → free_map_file s' = free_map_file s → files s' !! free_map_file s = files s !! free_map_file s →
  L' !! 0 = L !! 0 → (∀ i, inodes s !! p = Some i → sector i ≠ 0) → (∀ q, q ≠ p → inodes s' !! q = inodes s !! q) → map_home s' L'.
Proof.
  intros Hh Ed Em Ef EL Hp Hi. destruct Hh as [Hz|(fl & j & e & Hf & Hj & Hx)]; [left; by rewrite Em|right].
  exists fl, j, e. rewrite Em, Ef, EL, Ed. split; [done|]. split; [|exact Hx]. rewrite Hi; [done|]. intros E. rewrite E in Hj.
  destruct (Hp j Hj). by destruct Hx as (_ & -> & _).
Qed.

Lemma home_delete s L sec : map_home s L → sec ≠ 0 → map_home s (delete sec L).
Proof.
  intros [Hz|(fl & j & e & Hx)] Hne; [by left|right]. exists fl, j, e. by rewrite lookup_delete_ne.
Qed.

Lemma saved_delete s L sec : saved s L → sec ≠ 0 → saved s (delete sec L).
Proof. intros Hs Hne Hz. destruct (Hs Hz) as (e & He). exists e. by rewrite lookup_delete_ne. Qed.

Lemma map_step_home s s' L st cnt v : map_step L st cnt v s s' → map_home s L → map_home s' L.
Proof. intros [-> _ _ _ _ _ _] Hh. exact Hh. Qed.

(** Giving the sectors of a removed inode back. *)
Lemma release_both s L sec e :
  mem_ok s → layout s L → map_home s L → free_map_file s ≠ 0 → L !! sec = Some e → sec ≠ 0 →
  let L' := delete sec L in
  ∃ s', (free_map_release sec 1;; free_map_release e.1 (bytes_to_sectors e.2)) s = Ret (tt, s') ∧
    s' = set_disk (disk s') (bump (brk s') (set_map (free_map s') s)) ∧ brk s ≤ brk s' ∧
    layout s' L' ∧ map_home s' L' ∧ saved s' L' ∧
    ∀ x f, L' !! x = Some f → x ≠ 0 → content s' f = content s f.
Proof.
  intros Hm Hl Hh Hz He Hne L'. destruct (ly_ext _ _ Hl _ _ He) as ((He1 & He2 & He3 & He4) & Hsec & Hself).
  pose proof (nsec_bounds e.2 ltac:(lia)) as [_ Hn0]. pose proof (layout_delete s L sec Hl) as Hl0. fold L' in Hl0.
  assert (∀ x f y, L' !! x = Some f → secs x f y → ¬ secs sec e y) as Hap.
  { intros x f y [Hx Hf]%lookup_delete_Some Hy Hy'. apply Hx. exact (ly_apart _ _ Hl _ _ _ _ y He Hf Hy' Hy). }
  destruct (free_map_release_run s L' sec 1) as (s1 & E1 & H1); [done|done|by apply home_delete|done|lia|lia|lia|..].
  { intros x Hx. replace x with sec by lia. apply (ly_used _ _ Hl _ _ _ He). by left. }
  { intros x f y Hf Hy Hin. apply (Hap x f y Hf Hy). left. unfold in_range in Hin. lia. }
  assert (layout s1 L') as Hl1.
  { apply (map_step_layout s s1 L' sec 1 false); [done|done|]. right. intros x f y Hf Hy Hin. apply (Hap x f y Hf Hy). left. unfold in_range in Hin. lia. }
  assert (mem_ok s1 ∧ free_map_file s1 = free_map_file s ∧ dev_size s1 = dev_size s) as (Hm1 & Ef1 & Ed1).
  { pose proof (ms_brk _ _ _ _ _ _ H1) as Hb. destruct Hm. rewrite (ms_rest _ _ _ _ _ _ H1). cbn in *. split_and!; [split; [done|cbn; lia]|done|done]. }
  destruct (free_map_release_run s1 L' e.1 (nsec e.2)) as (s2 & E2 & H2);
    [done|done|by eapply map_step_home, home_delete|by rewrite Ef1|lia|lia|lia|..].
  { intros x Hx. rewrite (ms_bits _ _ _ _ _ _ H1) by lia. unfold in_range. rewrite decide_False by lia.
    apply (ly_used _ _ Hl _ _ _ He). by right. }
  { intros x f y Hf Hy Hin. apply (Hap x f y Hf Hy). by right. }
  exists s2. rewrite (bind_Ret _ _ _ _ _ E1). rewrite bytes_to_sectors_run by lia. split; [done|]. split_and!.
  - pose proof (ms_rest _ _ _ _ _ _ H1) as R1. pose proof (ms_rest _ _ _ _ _ _ H2) as R2. rewrite R1 in R2. exact R2.
  - pose proof (ms_brk _ _ _ _ _ _ H1). pose proof (ms_brk _ _ _ _ _ _ H2). lia.
  - apply (map_step_layout s1 s2 L' e.1 (nsec e.2) false); [done|done|]. right. intros x f y Hf Hy Hin. apply (Hap x f y Hf Hy). by right.
  - by eapply map_step_home, map_step_home, home_delete.
  - apply H2.
  - intros x f Hf Hx. rewrite (map_step_content s1 s2 L' _ _ _ x f Hl1 H2 Hf Hx). by apply (map_step_content s s1 L' _ _ _ x f Hl0 H1 Hf Hx).
Qed.

Lemma inode_close_exec s L p i :
  mem_ok s → layout s L → map_home s L → saved s L → inodes s !! p = Some i → p ≠ 0 → 1 ≤ open_cnt i < 2 ^ 31 → sector i ≠ 0 →
  (∃ e, L !! sector i = Some e ∧ data i = InodeDisk e.1 e.2 INODE_MAGIC) → free_map_file s ≠ 0 →
  ∃ s' L', inode_close p s = Ret (tt, s') ∧ close_exec p i L L' s s'.
Proof.
  intros Hm Hl Hh Hv Hi Hp Hc Hs0 (e & He & Hd) Hz. unfold inode_close. rewrite bool_decide_eq_false_2 by done.
  run_step (gets_opt_Some (λ s, inodes s !! p) s i Hi). rewrite swrap_id by lia. rewrite (bind_Ret _ _ _ _ _ eq_refl).
  cbn [open_cnt with_open_cnt removed sector data]. destruct (decide (open_cnt i = 1)) as [E|E].
  2:{ rewrite bool_decide_eq_false_2 by lia. eexists _, L. split; [done|].
      split; rewrite ?(bool_decide_eq_false_2 (open_cnt i = 1)) by done; try done.
      - by apply (agree_layout s).
      - apply (home_frame s _ L L p); try done; [intros j; rewrite Hi; congruence|]. intros q Hq. cbn. by rewrite lookup_insert_ne. }
  rewrite bool_decide_eq_true_2 by lia. rewrite (bind_Ret _ _ _ _ _ eq_refl).
  set (s1 := set_open _ _). assert (map_home s1 L) as Hh1.
  { apply (home_frame s s1 L L p); try done; [intros j; rewrite Hi; congruence|]. intros q Hq. cbn. by rewrite lookup_insert_ne. }
  destruct (removed i) eqn:Er.
  - rewrite Hd. cbn [id_start id_length].
    destruct (release_both s1 L (sector i) e) as (s2 & E2 & R2 & Hb2 & Hl2 & Hh2 & Hv2 & Hct2); [done|by apply (agree_layout s)|done|done|done|done|].
    run_step E2. eexists _, (delete (sector i) L). split; [done|].
    assert (∃ d b m, s2 = set_disk d (bump b (set_map m s1)) ∧ 0 < b) as (d & b & m & -> & Hb).
    { exists (disk s2), (brk s2), (free_map s2). split; [done|]. destruct Hm. cbn in *. lia. }
    split; rewrite ?(bool_decide_eq_true_2 (open_cnt i = 1)) by done; cbn [andb]; try done.
    + by rewrite Er.
    + unfold s1. cbn. by rewrite delete_insert_eq.
    + by apply (agree_layout (set_disk d (bump b (set_map m s1)))).
    + apply (home_frame (set_disk d (bump b (set_map m s1))) _ (delete (sector i) L) _ p); try done.
      * intros j. unfold s1. cbn. rewrite lookup_insert_eq. by intros [= <-].
      * intros q Hq. cbn. by rewrite lookup_delete_ne.
  - rewrite ret_bind. eexists _, L. split; [done|].
    split; rewrite ?(bool_decide_eq_true_2 (open_cnt i = 1)) by done; cbn [andb]; try done.
    + by rewrite Er.
    + cbn. by rewrite delete_insert_eq.
    + by apply (agree_layout s).
    + apply (home_frame s _ L L p); try done; [intros j; rewrite Hi; congruence|]. intros q Hq. cbn. rewrite lookup_delete_ne by done. by rewrite lookup_insert_ne.
Qed.

Lemma refs_none s p :
  refs s p = 0 → (∀ f fl, files s !! f = Some fl → f_inode fl ≠ p) ∧ (∀ d dr, dirs s !! d = Some dr → d_inode dr ≠ p).
Proof.
  unfold refs. intros H.
  pose proof (sum_bounds (λ f, at_inode p (f_inode f)) (files s) (λ f, at_inode_bounds p (f_inode f))) as H1.
  pose proof (sum_bounds (λ d, at_inode p (d_inode d)) (dirs s) (λ d, at_inode_bounds p (d_inode d))) as H2.
  split; intros k v Hk E.
  - rewrite (sum_lookup _ _ _ _ Hk), E in H. unfold at_inode at 1 in H. rewrite bool_decide_eq_true_2 in H by done. cbn in H.
    pose proof (sum_bounds (λ f, at_inode p (f_inode f)) (delete k (files s)) (λ f, at_inode_bounds p (f_inode f))). lia.
  - rewrite (sum_lookup (λ d, at_inode p (d_inode d)) (dirs s) _ _ Hk), E in H. unfold at_inode at 2 in H. rewrite bool_decide_eq_true_2 in H by done. cbn in H.
    pose proof (sum_bounds (λ d, at_inode p (d_inode d)) (delete k (dirs s)) (λ d, at_inode_bounds p (d_inode d))). lia.
Qed.

Lemma occ_none p ex : occ p ex = 0 → p ∉ ex.
Proof.
  induction ex as [|q ex IH]; [by intros _ ?%elem_of_nil|]. rewrite occ_cons. unfold at_inode. pose proof (occ_bounds p ex).
  case_bool_decide as E; cbn; intros H0; [lia|]. rewrite elem_of_cons. intros [-> |Hin]; [done|]. by apply IH; [lia|].
Qed.

(** The counts after a close, for any files that refer to the inodes. *)
Lemma close_mem s s' t t' L L' ex p i :
  close_exec p i L L' s s' → mem_inv t L (p :: ex) → inodes s !! p = Some i →
  inodes t = inodes s → open_inodes t = open_inodes s → brk t = brk s →
  inodes t' = inodes s' → open_inodes t' = open_inodes s' → brk t' = brk s' → mallocs t' = mallocs s' →
  files t' = files t → dirs t' = dirs t → mem_inv t' L' ex.
Proof.
  intros Hc [H1 H2 H3 H4 H5 H6 H7 H8 H9 H10 H11] Hi Ei Eo Eb Ei' Eo' Eb' Em' Ef' Ed'.
  rewrite Ei, Eo, Eb in *. destruct (H7 _ _ Hi) as (Hcnt & _ & Hdn). rewrite occ_cons in Hcnt.
  unfold at_inode in Hcnt. rewrite bool_decide_eq_true_2 in Hcnt by done. cbn [Z.b2z] in Hcnt.
  pose proof (refs_bounds t p) as Hrb. pose proof (occ_bounds p ex) as Hob.
  pose proof (ce_inodes _ _ _ _ _ _ Hc) as Ein. pose proof (ce_open _ _ _ _ _ _ Hc) as Eop. pose proof (ce_L _ _ _ _ _ _ Hc) as EL.
  assert (∀ q, refs t' q = refs t q) as Er by (intros; unfold refs; by rewrite Ef', Ed').
  assert (∀ q, denies t' q = denies t q) as Edn by (intros; unfold denies; by rewrite Ef').
  assert (mem_ok t') as Hm'. { destruct (ce_mem _ _ _ _ _ _ Hc). split; [by rewrite Em'|by rewrite Eb']. }
  assert (∀ q, is_Some (files t' !! q) ∨ is_Some (dirs t' !! q) → 0 < q < brk s) as Hfr by (intros q; rewrite Ef', Ed'; intros ?; apply H4; tauto).
  pose proof (ce_brk _ _ _ _ _ _ Hc) as Hb.
  destruct (decide (open_cnt i = 1)) as [E|E].
  - rewrite bool_decide_eq_true_2 in Ein, Eop, EL by done. cbn [andb] in EL.
    destruct (refs_none t p) as [Hnf Hnd]; [lia|]. pose proof (occ_none p ex ltac:(lia)) as Hne.
    assert (∀ q, is_Some (inodes t' !! q) ↔ q ≠ p ∧ is_Some (inodes s !! q)) as Hd.
    { intros q. rewrite Ei', Ein, lookup_delete_is_Some. naive_solver. }
    split; [done|..].
    + rewrite Eo', Eop. by apply NoDup_filter.
    + intros q. rewrite Hd, Eo', Eop, list_elem_of_filter, H3. done.
    + intros q. rewrite Hd, Eb'. intros [[_ Hq]|Hq]; [specialize (H4 q); naive_solver lia|apply Hfr in Hq; lia].
    + intros q j. rewrite Ei', Ein, lookup_delete_Some. intros [Hq Hj]. destruct (H5 _ _ Hj) as (e & He & Hdat). exists e. split; [|done].
      rewrite EL. destruct (removed i); [|done]. rewrite lookup_delete_ne; [done|]. intros Es. apply Hq. by apply (H6 p q i j).
    + intros q q' j j'. rewrite Ei', Ein, !lookup_delete_Some. intros [_ Hj] [_ Hj']. by apply (H6 q q').
    + intros q j. rewrite Ei', Ein, lookup_delete_Some. intros [Hq Hj]. rewrite Er, Edn. destruct (H7 _ _ Hj) as (Hx & ? & ?).
      rewrite occ_cons in Hx. unfold at_inode in Hx. rewrite bool_decide_eq_false_2 in Hx by done. cbn in Hx. done.
    + intros f fl. rewrite Ef'. intros Hf. destruct (H8 _ _ Hf) as [? ?]. rewrite Hd. split; [|done]. split; [by apply (Hnf f)|done].
    + intros d dr. rewrite Ed'. intros Hf. rewrite Hd. split; [by apply (Hnd d)|by apply (H9 d)].
    + intros q Hq. rewrite Hd. split; [by intros ->|apply H10; by right].
    + rewrite Ef', Ed'. cbn [length] in H11. lia.
  - rewrite bool_decide_eq_false_2 in Ein, Eop, EL by done. cbn [andb] in EL. subst L'.
    assert (mem_inv (set_inodes (<[p := with_open_cnt (open_cnt i - 1) i]> (inodes t)) t) L ex) as Hx.
    { apply (mem_update t L (p :: ex) ex p i); try done.
      - split; rewrite ?Ei, ?Eo, ?Eb; done.
      - by rewrite Ei.
      - cbn. lia.
      - intros q Hq. rewrite occ_cons. unfold at_inode. by rewrite bool_decide_eq_false_2 by done.
      - intros q Hq. right. by right.
      - cbn [length] in H11. lia. }
    destruct Hx as [G1 G2 G3 G4 G5 G6 G7 G8 G9 G10 G11]. cbn [inodes set_inodes open_inodes files dirs brk mallocs] in *.
    split; rewrite ?Ei', ?Eo', ?Eb', ?Ef', ?Ed', ?Ein, ?Eop, <- ?Ei, <- ?Eo; try done.
    + intros q Hq. specialize (G4 q Hq). lia.
    + intros q j Hj. rewrite Er, Edn. by apply G7.
Qed.

Lemma inode_close_run s L ex p i :
  st_inv s L (p :: ex) → inodes s !! p = Some i → sector i ≠ 0 → free_map_file s ≠ 0 →
  ∃ s' L', inode_close p s = Ret (tt, s') ∧ close_exec p i L L' s s' ∧ st_inv s' L' ex.
Proof.
  intros [Hl Hm Hh Hv] Hi Hs Hz. destruct (mi_cnt _ _ _ Hm _ _ Hi) as (Hc & H1 & _).
  pose proof (mi_few _ _ _ Hm) as Hfew. pose proof (refs_bounds s p). pose proof (occ_bounds p (p :: ex)).
  assert (p ≠ 0) as Hp by (pose proof (mi_fresh _ _ _ Hm p) as Hf; rewrite Hi in Hf; specialize (Hf ltac:(eauto)); lia).
  destruct (inode_close_exec s L p i) as (s' & L' & E & Hce); try done; [apply Hm|lia|by apply (mi_node _ _ _ Hm p)|].
  exists s', L'. split_and!; [done|done|]. split; [apply Hce| |apply Hce|apply Hce].
  apply (close_mem s s' s s' L L' ex p i Hce Hm Hi); try done; apply Hce.
Qed.
