(* ===== verification/FileSysFiles.v ===== *)
(** * FileSysFiles: open files and directories, and the data of files

    The operations of [file.c] and the life cycle of [struct dir] on states that satisfy
    the invariant of the inodes. *)

From S2P Require Import Prelude Bitmap FileSys FileSysIO FileSysInv FileSysMem.

(** ** Data *)

(** [bs] stored over [c] from [off] on. *)
Definition patch (c : list Z) (off : nat) (bs : list Z) : list Z := take off c ++ bs ++ drop (off + length bs) c.

Lemma length_patch c off bs : (off + length bs ≤ length c)%nat → length (patch c off bs) = length c.
Proof. intros H. unfold patch. rewrite !length_app, length_take, length_drop. lia. Qed.

Lemma patch_nil c off : patch c off [] = c.
Proof. unfold patch. cbn. rewrite Nat.add_0_r. apply take_drop. Qed.

Lemma length_content s e : length (content s e) = Z.to_nat e.2.
Proof. apply length_bytes_at. Qed.

Lemma bytes_at_slice m a n off k :
  0 ≤ off → bytes_at m (a + off) (clamp n k off) = take (Z.to_nat k) (drop (Z.to_nat off) (bytes_at m a n)).
Proof.
  intros Ho. destruct (decide (off < n)) as [Hn|Hn].
  - destruct (decide (0 < k)) as [Hk|Hk].
    + rewrite <- (bytes_at_sub m a n off (clamp n k off)) by (unfold clamp; lia).
      unfold clamp. destruct (decide (k ≤ n - off)).
      * rewrite Z.min_l, Z.max_r by lia. done.
      * rewrite Z.min_r, Z.max_r by lia. rewrite !take_ge; [done|rewrite length_drop, length_bytes_at; lia..].
    + rewrite bytes_at_nil by (unfold clamp; lia). by replace (Z.to_nat k) with 0%nat by lia.
  - rewrite bytes_at_nil by (unfold clamp; lia). rewrite drop_ge, take_nil by (rewrite length_bytes_at; lia). done.
Qed.

Lemma content_patched d m e off bs :
  0 ≤ off → off + Z.of_nat (length bs) ≤ e.2 → (∀ x, d x = store_bytes (512 * e.1 + off) bs m x) →
  bytes_at d (512 * e.1) e.2 = patch (bytes_at m (512 * e.1) e.2) (Z.to_nat off) bs.
Proof.
  intros Ho Hl Hd. apply list_eq_same_length with (n := Z.to_nat e.2); [rewrite length_patch; rewrite length_bytes_at; lia|by rewrite length_bytes_at|].
  intros k x y Hk. rewrite bytes_at_lookup by lia. intros [= <-]. rewrite Hd. unfold store_bytes, patch.
  rewrite !lookup_app, length_take, length_bytes_at. case_bool_decide as Hin; intros Hy.
  - rewrite lookup_take_ge in Hy by lia. destruct (bs !! (k - Z.to_nat off `min` Z.to_nat e.2)%nat) as [z|] eqn:Ez.
    + injection Hy as <-. replace (Z.to_nat (512 * e.1 + Z.of_nat k - (512 * e.1 + off))) with (k - Z.to_nat off `min` Z.to_nat e.2)%nat by lia. by rewrite Ez.
    + apply lookup_ge_None in Ez. lia.
  - destruct (decide (k < Z.to_nat off)%nat).
    + rewrite lookup_take_lt, bytes_at_lookup in Hy by lia. by injection Hy.
    + rewrite lookup_take_ge in Hy by lia. destruct (bs !! (k - Z.to_nat off `min` Z.to_nat e.2)%nat) as [z|] eqn:Ez; [apply lookup_lt_Some in Ez; lia|].
      rewrite lookup_drop, bytes_at_lookup in Hy by lia. injection Hy as <-. f_equal. lia.
Qed.

Lemma read_run s L ex p i e size off :
  st_inv s L ex → inodes s !! p = Some i → L !! sector i = Some e → 0 ≤ off < 2 ^ 31 →
  ∃ b, brk s ≤ b ∧ inode_read_at p size off s = Ret (take (Z.to_nat size) (drop (Z.to_nat off) (content s e)), bump b s) ∧
    st_inv (bump b s) L ex.
Proof.
  intros Hs Hi He Ho. destruct (open_ext _ _ _ _ _ Hs Hi) as (e' & He' & Hd & _ & Hx). rewrite He in He'. injection He' as <-.
  destruct (inode_read_at_run s p i size off (st_mem_ok _ _ _ Hs) Hi Hx Ho) as (b & Hb & E). exists b. split_and!; [done| |by apply st_bump].
  rewrite E, Hd. cbn [id_start id_length]. by rewrite bytes_at_slice by lia.
Qed.

Record write_step (L : gmap Z (Z * Z)) (ex : list Z) (sec : Z) (e : Z * Z) (off : Z) (bs : list Z) (s s' : fs) : Prop := {
  wr_rest : s' = set_disk (disk s') (bump (brk s') s);
  wr_brk : brk s ≤ brk s';
  wr_inv : st_inv s' L ex;
  wr_content : content s' e = patch (content s e) (Z.to_nat off) bs;
  wr_other : ∀ x f, L !! x = Some f → x ≠ sec → content s' f = content s f
}.

(** Two inodes share no byte of their data, and none has its data in an inode. *)
Lemma data_apart s L sec e a x f :
  layout s L → L !! sec = Some e → L !! x = Some f → 512 * e.1 ≤ a < 512 * e.1 + e.2 →
  (512 * f.1 ≤ a < 512 * f.1 + f.2 → x = sec) ∧ a `div` 512 ≠ x.
Proof.
  intros Hl He Hf Ha. destruct (ly_ext _ _ Hl _ _ He) as (Hx & _ & Hself). pose proof (ext_sector s e a Hx Ha) as Hin. split.
  - intros Ha'. destruct (ly_ext _ _ Hl _ _ Hf) as (Hx' & _). pose proof (ext_sector s f a Hx' Ha') as Hin'.
    apply (ly_apart _ _ Hl x sec f e (a `div` 512)); [done|done|by right|by right].
  - intros E. assert (x = sec) as ->.
    { apply (ly_apart _ _ Hl x sec f e (a `div` 512)); [done|done|by left|by right]. }
    apply Hself. by rewrite <- E.
Qed.

Lemma mem_disk d s L ex : mem_inv s L ex → mem_inv (set_disk d s) L ex.
Proof. intros []. by split. Qed.

Lemma write_run s L ex p i e buf off :
  st_inv s L ex → inodes s !! p = Some i → L !! sector i = Some e → 0 ≤ off < 2 ^ 31 → deny_write_cnt i = 0 → sector i ≠ 0 →
  let n := clamp e.2 (Z.of_nat (length buf)) off in
  ∃ s', inode_write_at p buf off s = Ret (n, s') ∧ write_step L ex (sector i) e off (take (Z.to_nat n) buf) s s'.
Proof.
  intros Hs Hi He Ho Hdn Hne. destruct (open_ext _ _ _ _ _ Hs Hi) as (e' & He' & Hd & _ & Hx). rewrite He in He'. injection He' as <-.
  destruct (inode_write_at_run s p i buf off (st_mem_ok _ _ _ Hs) Hi Hx Ho Hdn) as (b & d & Hb & E & Hst).
  rewrite Hd in E, Hst. cbn [id_start id_length] in *. eexists. split; [exact E|].
  set (n := clamp e.2 (Z.of_nat (length buf)) off) in *. assert (length (take (Z.to_nat n) buf) = Z.to_nat n) as Hln by (rewrite length_take; subst n; unfold clamp; lia).
  assert (∀ a, d a ≠ disk s a → 512 * e.1 ≤ a < 512 * e.1 + e.2) as Hch.
  { intros a Ha. destruct (decide (512 * e.1 + off ≤ a < 512 * e.1 + off + Z.of_nat (length (take (Z.to_nat n) buf)))) as [Hin|Hin].
    - rewrite Hln in Hin. subst n. unfold clamp in Hin. lia.
    - destruct Ha. rewrite Hst. by apply store_bytes_out. }
  pose proof (si_lay _ _ _ Hs) as Hl. split.
  - done.
  - done.
  - pose proof (st_bump _ _ _ b Hs Hb) as [Hl1 Hm1 Hh1 Hv1]. split; [|by apply mem_disk|exact Hh1|].
    + apply (layout_frame s); try done; [apply Hl|apply Hl|]. intros x f a Hf Ha. cbn.
      destruct (decide (d a = disk s a)) as [|Hda]; [done|]. by destruct (proj2 (data_apart s L _ _ a x f Hl He Hf (Hch a Hda))).
    + intros Hz. destruct (Hv1 Hz) as (e0 & He0 & Hc0). exists e0. split; [done|]. unfold content in *. erewrite bytes_at_ext; [exact Hc0|]. intros a Ha. cbn.
      destruct (decide (d a = disk s a)) as [|Hda]; [done|]. destruct Hne. symmetry.
      exact (proj1 (data_apart s L _ _ a 0 e0 Hl He He0 (Hch a Hda)) Ha).
  - destruct (decide (n = 0)) as [E0|E0].
    + rewrite E0, take_0, patch_nil. apply bytes_at_ext. intros a _. cbn. rewrite Hst, E0, take_0. apply store_bytes_nil.
    + apply content_patched; [lia| |done]. rewrite Hln. subst n. unfold clamp in *. lia.
  - intros x f Hf Hxne. apply bytes_at_ext. intros a Ha. cbn. destruct (decide (d a = disk s a)) as [|Hda]; [done|].
    destruct Hxne. exact (proj1 (data_apart s L _ _ a x f Hl He Hf (Hch a Hda)) Ha).
Qed.

(** ** Handles *)

(** A change of the files, with the counts of the inode they are about. *)
Lemma mem_change s L ex ex' F p i i' :
  mem_inv s L ex → inodes s !! p = Some i → sector i' = sector i → data i' = data i → 1 ≤ open_cnt i' →
  let s' := set_inodes (<[p := i']> (inodes s)) (set_files F s) in
  open_cnt i' = refs s' p + occ p ex' → deny_write_cnt i' = denies s' p →
  (∀ q, q ≠ p → refs s' q + occ q ex' = refs s q + occ q ex ∧ denies s' q = denies s q) →
  (∀ f fl, F !! f = Some fl → is_Some (inodes s !! f_inode fl) ∧ 0 ≤ f_pos fl < 2 ^ 31) →
  (∀ f, is_Some (F !! f) → 0 < f < brk s) → (∀ q, q ∈ ex' → q = p ∨ q ∈ ex) →
  Z.of_nat (size F) + Z.of_nat (size (dirs s)) + Z.of_nat (length ex') < 2 ^ 31 →
  mem_inv s' L ex'.
Proof.
  intros [H1 H2 H3 H4 H5 H6 H7 H8 H9 H10 H11] Hi Es Ed Ho s' Hc Hdn Hq HF HFf He Hf.
  assert (∀ q, is_Some (inodes s' !! q) ↔ is_Some (inodes s !! q)) as Hd.
  { intros q. unfold s'. cbn. destruct (decide (q = p)) as [->|]; [rewrite lookup_insert_eq, Hi; split; intros _; by eexists|by rewrite lookup_insert_ne]. }
  split; try done.
  - intros q. by rewrite Hd.
  - intros q. rewrite Hd. intros [?|[?|?]]; [apply H4; tauto|by apply HFf|apply H4; tauto].
  - intros q j. unfold s'. cbn. intros [[<- <-]|[_ Hj]]%lookup_insert_Some; [rewrite Es, Ed; by apply (H5 p)|by apply (H5 q)].
  - intros q q' j j'. unfold s'. cbn. intros [[<- <-]|[Hx Hj]]%lookup_insert_Some [[<- <-]|[Hx' Hj']]%lookup_insert_Some; [done|..].
    + rewrite Es. by apply (H6 p q' i j').
    + rewrite Es. by apply (H6 q p j i).
    + by apply (H6 q q' j j').
  - intros q j Hj. unfold s' in Hj. cbn in Hj. apply lookup_insert_Some in Hj as [[<- <-]|[Hne Hj]]; [done|].
    destruct (Hq q ltac:(done)) as [Eq Edn]. destruct (H7 q j Hj) as (Hx & Hy & Hz). split_and!; [lia|done|lia].
  - intros f fl Hfl. rewrite Hd. by apply (HF f).
  - intros d dr Hdr. rewrite Hd. by apply (H9 d).
  - intros q Hqe. rewrite Hd. destruct (He q Hqe) as [-> |?]; [by eexists|by apply H10].
Qed.

(** The store after such a change. *)
Lemma st_change s L ex ex' F p i i' :
  st_inv s L ex → inodes s !! p = Some i → sector i' = sector i → data i' = data i → (sector i = 0 → deny_write_cnt i' = deny_write_cnt i) →
  F !! free_map_file s = files s !! free_map_file s →
  mem_inv (set_inodes (<[p := i']> (inodes s)) (set_files F s)) L ex' → st_inv (set_inodes (<[p := i']> (inodes s)) (set_files F s)) L ex'.
Proof.
  intros [Hl Hm Hh Hv] Hi Es Ed Hdn HF Hm'. split; [by apply (agree_layout s)|done| |exact Hv].
  destruct Hh as [Hz|(fl & j & e & Hf & Hj & Hd & Hs & Hdat & He & Hlen & Hz)]; [by left|right].
  cbn [files set_inodes set_files free_map_file inodes dev_size]. rewrite HF. destruct (decide (f_inode fl = p)) as [Ep|Ep].
  - rewrite Ep in Hj. rewrite Hi in Hj. injection Hj as <-. exists fl, i', e. rewrite Ep, lookup_insert_eq, Es, Ed, (Hdn Hs). done.
  - exists fl, j, e. by rewrite lookup_insert_ne.
Qed.

Lemma set_inodes_id s F p i : inodes s !! p = Some i → set_inodes (<[p := i]> (inodes s)) (set_files F s) = set_files F s.
Proof. intros H. rewrite insert_id by done. by destruct s. Qed.

Lemma inode_nonzero s L ex p i : mem_inv s L ex → inodes s !! p = Some i → 0 < p < brk s.
Proof. intros Hm Hi. apply (mi_fresh _ _ _ Hm). left. by eexists. Qed.

Lemma fresh_brk s L ex : mem_inv s L ex → inodes s !! brk s = None ∧ files s !! brk s = None ∧ dirs s !! brk s = None.
Proof.
  intros Hm. pose proof (mi_fresh _ _ _ Hm (brk s)) as H.
  destruct (inodes s !! brk s); [specialize (H ltac:(eauto)); lia|]. destruct (files s !! brk s); [specialize (H ltac:(eauto)); lia|].
  destruct (dirs s !! brk s); [specialize (H ltac:(eauto)); lia|]. done.
Qed.

(** The file of the free map is none of the handles given out. *)
Lemma map_file_old s L ex : st_inv s L ex → free_map_file s ≠ brk s.
Proof.
  intros Hs E. pose proof (si_mem _ _ _ Hs) as Hm. destruct (fresh_brk _ _ _ Hm) as (_ & Hf & _). destruct (mi_ok _ _ _ Hm) as [_ Hb].
  destruct (si_home _ _ _ Hs) as [Hz|(fl & j & e & Hf' & _)]; [lia|]. rewrite E, Hf in Hf'. done.
Qed.

Lemma file_open_run s L ex p i :
  st_inv s L (p :: ex) → inodes s !! p = Some i →
  let s' := set_files (<[brk s := File p 0 false]> (files s)) (bump (brk s + 1) s) in
  file_open p s = Ret (brk s, s') ∧ st_inv s' L ex.
Proof.
  intros Hs Hi s'. pose proof (si_mem _ _ _ Hs) as Hm. pose proof (inode_nonzero _ _ _ _ _ Hm Hi) as Hp.
  destruct (fresh_brk _ _ _ Hm) as (_ & Hff & _). pose proof (map_file_old _ _ _ Hs) as Hmf.
  split.
  - unfold file_open. run_step (fs_malloc_run s (mi_ok _ _ _ Hm)). rewrite !bool_decide_eq_true_2 by lia. done.
  - pose proof (st_bump s L (p :: ex) (brk s + 1) Hs ltac:(lia)) as Hs1. set (s1 := bump (brk s + 1) s) in *.
    destruct (mi_cnt _ _ _ Hm _ _ Hi) as (Hc & Ho & Hd). rewrite occ_cons in Hc.
    assert (∀ q, refs s' q = refs s q + at_inode q p) as Hr.
    { intros q. unfold refs, s'. cbn. rewrite sum_insert_fresh by done. cbn. lia. }
    assert (∀ q, denies s' q = denies s q) as Hdn.
    { intros q. unfold denies, s'. cbn. rewrite sum_insert_fresh by done. unfold denies_at at 1. cbn. rewrite andb_false_r. done. }
    enough (st_inv (set_inodes (<[p := i]> (inodes s1)) (set_files (<[brk s := File p 0 false]> (files s)) s1)) L ex) as Hen
      by (by rewrite set_inodes_id in Hen).
    apply (st_change s1 L (p :: ex) ex _ p i i); try done; [by cbn; rewrite lookup_insert_ne|].
    apply (mem_change s1 L (p :: ex) ex _ p i i); try done.
    + apply Hs1.
    + change (open_cnt i = refs s' p + occ p ex). rewrite Hr. lia.
    + change (deny_write_cnt i = denies s' p). rewrite Hdn. lia.
    + intros q Hq. change (refs s' q + occ q ex = refs s q + occ q (p :: ex) ∧ denies s' q = denies s q). rewrite Hr, Hdn, occ_cons. split; [lia|done].
    + intros f fl [[<- <-]|[_ Hfl]]%lookup_insert_Some; [|by apply (mi_files _ _ _ Hm f)]. cbn. split; [by eexists|lia].
    + intros f Hf. change (brk s1) with (brk s + 1). destruct (decide (f = brk s)) as [->|]; [lia|]. rewrite lookup_insert_ne in Hf by done.
      pose proof (mi_fresh _ _ _ Hm f ltac:(tauto)). lia.
    + intros q Hq. right. by right.
    + rewrite map_size_insert_None by done. pose proof (mi_few _ _ _ Hm) as Hfew. cbn [length] in Hfew. change (dirs s1) with (dirs s). lia.
Qed.

Lemma mem_dirs s L ex ex' G :
  mem_inv s L ex → (∀ q, refs (set_dirs G s) q + occ q ex' = refs s q + occ q ex) →
  (∀ d dr, G !! d = Some dr → is_Some (inodes s !! d_inode dr)) → (∀ d, is_Some (G !! d) → 0 < d < brk s) →
  (∀ q, q ∈ ex' → is_Some (inodes s !! q)) →
  Z.of_nat (size (files s)) + Z.of_nat (size G) + Z.of_nat (length ex') < 2 ^ 31 → mem_inv (set_dirs G s) L ex'.
Proof.
  intros [H1 H2 H3 H4 H5 H6 H7 H8 H9 H10 H11] Hr HG HGf He Hf. split; try done.
  - intros q [?|[?|?]]; [apply H4; tauto|apply H4; tauto|by apply HGf].
  - intros q j Hj. destruct (H7 q j Hj) as (? & ? & ?). split_and!; [rewrite Hr; done|done|done].
Qed.

Lemma st_dirs s L ex ex' G : st_inv s L ex → mem_inv (set_dirs G s) L ex' → st_inv (set_dirs G s) L ex'.
Proof. intros [Hl Hm Hh Hv] Hm'. split; [by apply (agree_layout s)|done|exact Hh|exact Hv]. Qed.

Lemma refs_dirs_delete s d dr q :
  dirs s !! d = Some dr → refs s q = refs (set_dirs (delete d (dirs s)) s) q + at_inode q (d_inode dr).
Proof. intros H. unfold refs. cbn. rewrite (sum_lookup (λ d, at_inode q (d_inode d)) (dirs s) d dr H). lia. Qed.

Lemma dir_open_run s L ex p i :
  st_inv s L (p :: ex) → inodes s !! p = Some i →
  let s' := set_dirs (<[brk s := Dir p 0]> (dirs s)) (bump (brk s + 1) s) in
  dir_open p s = Ret (brk s, s') ∧ st_inv s' L ex.
Proof.
  intros Hs Hi s'. pose proof (si_mem _ _ _ Hs) as Hm. pose proof (inode_nonzero _ _ _ _ _ Hm Hi) as Hp.
  destruct (fresh_brk _ _ _ Hm) as (_ & _ & Hff). split.
  - unfold dir_open. run_step (fs_malloc_run s (mi_ok _ _ _ Hm)). rewrite !bool_decide_eq_true_2 by lia. done.
  - pose proof (st_bump s L (p :: ex) (brk s + 1) Hs ltac:(lia)) as Hs1. apply (st_dirs _ L (p :: ex)); [done|].
    apply (mem_dirs _ L (p :: ex)); [apply Hs1|..].
    + intros q. rewrite occ_cons. unfold refs. cbn. rewrite sum_insert_fresh by done. cbn. lia.
    + intros d dr [[<- <-]|[_ Hd]]%lookup_insert_Some; [by eexists|by apply (mi_dirs _ _ _ Hm d)].
    + intros d Hd. cbn. destruct (decide (d = brk s)) as [->|]; [lia|]. rewrite lookup_insert_ne in Hd by done.
      pose proof (mi_fresh _ _ _ Hm d ltac:(tauto)). lia.
    + intros q Hq. apply (mi_ex _ _ _ Hm). by right.
    + rewrite map_size_insert_None by done. pose proof (mi_few _ _ _ Hm) as Hfew. cbn [length] in Hfew. cbn. lia.
Qed.

(** A close seen from outside: what the other inodes, their data and the handles keep. *)
Record closed (p : Z) (i : inode) (L L' : gmap Z (Z * Z)) (s s' : fs) : Prop := {
  cl_L : L' = L ∨ (removed i = true ∧ L' = delete (sector i) L);
  cl_dev : dev_size s' = dev_size s;
  cl_map_file : free_map_file s' = free_map_file s;
  cl_brk : brk s ≤ brk s';
  cl_other : ∀ q, q ≠ p → inodes s' !! q = inodes s !! q;
  cl_self : (inodes s' !! p = None ∧ (removed i = true → L' = delete (sector i) L)) ∨
            (∃ i', inodes s' !! p = Some i' ∧ sector i' = sector i ∧ removed i' = removed i ∧ L' = L);
  cl_content : ∀ x e, L' !! x = Some e → x ≠ 0 → content s' e = content s e
}.

Lemma close_exec_closed p i L L' s s' : close_exec p i L L' s s' → closed p i L L' s s'.
Proof.
  intros H. pose proof (ce_L _ _ _ _ _ _ H) as EL. pose proof (ce_inodes _ _ _ _ _ _ H) as Ei. split; try apply H.
  - destruct (bool_decide (open_cnt i = 1)), (removed i); cbn [andb] in EL; auto.
  - intros q Hq. rewrite Ei. destruct (bool_decide (open_cnt i = 1)); [by rewrite lookup_delete_ne|by rewrite lookup_insert_ne].
  - rewrite Ei. destruct (bool_decide (open_cnt i = 1)).
    + left. rewrite lookup_delete_eq. split; [done|]. intros E. by rewrite E in EL.
    + right. eexists. by rewrite lookup_insert_eq.
Qed.

Lemma dir_close_run s L ex d dr i :
  st_inv s L ex → dirs s !! d = Some dr → inodes s !! d_inode dr = Some i → sector i ≠ 0 → free_map_file s ≠ 0 →
  ∃ s' L', dir_close d s = Ret (tt, s') ∧ st_inv s' L' ex ∧ closed (d_inode dr) i L L' s s' ∧
    files s' = files s ∧ dirs s' = delete d (dirs s).
Proof.
  intros Hs Hd Hi Hsec Hz. pose proof (si_mem _ _ _ Hs) as Hm. destruct Hs as [Hl _ Hh Hv].
  pose proof (mi_fresh _ _ _ Hm d) as Hdf. specialize (Hdf ltac:(rewrite Hd; eauto)). pose proof (inode_nonzero _ _ _ _ _ Hm Hi) as Hp.
  destruct (mi_cnt _ _ _ Hm _ _ Hi) as (Hc & H1 & _). pose proof (mi_few _ _ _ Hm) as Hfew. pose proof (refs_bounds s (d_inode dr)). pose proof (occ_bounds (d_inode dr) ex).
  unfold dir_close. rewrite bool_decide_eq_true_2 by lia. run_step (gets_opt_Some (λ s, dirs s !! d) s dr Hd).
  destruct (inode_close_exec s L (d_inode dr) i) as (s1 & L' & E & Hce); try done; [apply Hm|lia|lia|by apply (mi_node _ _ _ Hm (d_inode dr))|].
  run_step E. eexists _, L'. split; [done|]. pose proof (close_exec_closed _ _ _ _ _ _ Hce) as Hcl.
  assert (mem_inv (set_dirs (delete d (dirs s)) s) L (d_inode dr :: ex)) as Hmt.
  { apply (mem_dirs s L ex); [done|..].
    - intros q. rewrite occ_cons. rewrite (refs_dirs_delete s d dr q Hd). lia.
    - intros d' dr' [_ Hd']%lookup_delete_Some. by apply (mi_dirs _ _ _ Hm d').
    - intros d' Hd'. apply lookup_delete_is_Some in Hd' as [_ Hd']. apply (mi_fresh _ _ _ Hm). tauto.
    - intros q [-> |Hq]%elem_of_cons; [by eexists|by apply (mi_ex _ _ _ Hm)].
    - rewrite map_size_delete, Hd. cbn [length].
      assert (size (dirs s) ≠ 0)%nat by (rewrite map_size_ne_0_lookup; exists d; by eexists). lia. }
  split_and!.
  - split; [by apply (agree_layout s1), Hce| |exact (ce_home _ _ _ _ _ _ Hce)|exact (ce_saved _ _ _ _ _ _ Hce)].
    apply (close_mem s s1 (set_dirs (delete d (dirs s)) s) _ L L' ex _ i Hce Hmt Hi); try done; cbn; [apply Hce|by rewrite (ce_dirs _ _ _ _ _ _ Hce)].
  - destruct Hcl. by split.
  - cbn. apply Hce.
  - cbn. by rewrite (ce_dirs _ _ _ _ _ _ Hce).
Qed.

(** ** Files *)

Lemma sum_le {V} (g h : V → Z) (m : gmap Z V) : (∀ v, g v ≤ h v) → sum_map g m ≤ sum_map h m.
Proof.
  intros H. induction m as [|k v m Hf IH] using map_ind; [done|]. rewrite !sum_insert_fresh by done. specialize (H v). lia.
Qed.

Lemma denies_at_le p f : 0 ≤ denies_at p f ≤ at_inode p (f_inode f).
Proof. unfold denies_at, at_inode. destruct (bool_decide _), (f_deny_write f); cbn; lia. Qed.

Lemma denies_at_self p f : f_inode f = p → denies_at p f = Z.b2z (f_deny_write f).
Proof. intros H. unfold denies_at. by rewrite bool_decide_eq_true_2. Qed.

Lemma denies_at_ne p f : f_inode f ≠ p → denies_at p f = 0.
Proof. intros H. unfold denies_at. by rewrite bool_decide_eq_false_2. Qed.

Lemma at_inode_self p : at_inode p p = 1.
Proof. unfold at_inode. by rewrite bool_decide_eq_true_2. Qed.

Lemma at_inode_ne p q : q ≠ p → at_inode p q = 0.
Proof. intros H. unfold at_inode. by rewrite bool_decide_eq_false_2. Qed.

(** A file and the others, in the counts of its inode. *)
Lemma counts_split s f fl :
  files s !! f = Some fl →
  let p := f_inode fl in
  refs s p = 1 + sum_map (λ f, at_inode p (f_inode f)) (delete f (files s)) + sum_map (λ d, at_inode p (d_inode d)) (dirs s) ∧
  denies s p = Z.b2z (f_deny_write fl) + sum_map (denies_at p) (delete f (files s)) ∧
  0 ≤ sum_map (denies_at p) (delete f (files s)) ≤ sum_map (λ f, at_inode p (f_inode f)) (delete f (files s)) ∧
  0 ≤ sum_map (λ d, at_inode p (d_inode d)) (dirs s).
Proof.
  intros Hf p. unfold refs, denies. rewrite (sum_lookup (λ f, at_inode p (f_inode f)) _ _ _ Hf), (sum_lookup (denies_at p) _ _ _ Hf).
  rewrite (denies_at_self p fl) by done.
  unfold p. rewrite at_inode_self. fold p. split_and!; [lia|lia| | |].
  - apply (sum_bounds (denies_at p)). intros v. pose proof (denies_at_le p v). pose proof (at_inode_bounds p (f_inode v)). lia.
  - apply sum_le. intros v. apply denies_at_le.
  - apply (sum_bounds (λ d, at_inode p (d_inode d))). intros v. apply at_inode_bounds.
Qed.

(** A change of the state of one file that keeps its inode. *)
Lemma file_update s L ex f fl fl' i i' :
  st_inv s L ex → files s !! f = Some fl → inodes s !! f_inode fl = Some i → f_inode fl' = f_inode fl → 0 ≤ f_pos fl' < 2 ^ 31 →
  sector i' = sector i → data i' = data i → open_cnt i' = open_cnt i → f ≠ free_map_file s → (sector i = 0 → deny_write_cnt i' = deny_write_cnt i) →
  deny_write_cnt i' = deny_write_cnt i - Z.b2z (f_deny_write fl) + Z.b2z (f_deny_write fl') →
  st_inv (set_inodes (<[f_inode fl := i']> (inodes s)) (set_files (<[f := fl']> (files s)) s)) L ex.
Proof.
  intros Hs Hf Hi Ei Hpos Es Ed Eo Hne H0 Edn. pose proof (si_mem _ _ _ Hs) as Hm. destruct (mi_cnt _ _ _ Hm _ _ Hi) as (Hc & H1 & Hd).
  assert (∀ q, sum_map (λ f, at_inode q (f_inode f)) (<[f := fl']> (files s)) = sum_map (λ f, at_inode q (f_inode f)) (files s)) as Hr.
  { intros q. rewrite (sum_insert _ _ f fl fl' Hf). rewrite Ei. lia. }
  assert (∀ q, sum_map (denies_at q) (<[f := fl']> (files s)) = sum_map (denies_at q) (files s) - denies_at q fl + denies_at q fl') as Hdn
    by (intros q; by apply sum_insert).
  apply (st_change s L ex ex _ _ i i'); try done; [by rewrite lookup_insert_ne|]. apply (mem_change s L ex ex _ _ i i'); try done.
  - lia.
  - unfold refs. cbn [files dirs set_inodes set_files]. rewrite Hr, Eo. exact Hc.
  - unfold denies. cbn [files set_inodes set_files]. rewrite Hdn, Edn, Hd, !denies_at_self by done. done.
  - intros q Hq. unfold refs, denies. cbn [files dirs set_inodes set_files]. rewrite Hr, Hdn. split; [done|].
    rewrite !denies_at_ne by congruence. lia.
  - intros g gl [[<- <-]|[_ Hg]]%lookup_insert_Some; [|by apply (mi_files _ _ _ Hm g)]. rewrite Ei. split; [by eexists|done].
  - intros g Hg. apply (mi_fresh _ _ _ Hm). right. left. destruct (decide (g = f)) as [->|]; [by eexists|by rewrite lookup_insert_ne in Hg].
  - auto.
  - rewrite map_size_insert, Hf. apply Hm.
Qed.

Lemma file_pos_run s L ex f fl i v :
  st_inv s L ex → files s !! f = Some fl → inodes s !! f_inode fl = Some i → 0 ≤ v < 2 ^ 31 → f ≠ free_map_file s →
  st_inv (set_files (<[f := with_pos v fl]> (files s)) s) L ex.
Proof.
  intros Hs Hf Hi Hv Hne. rewrite <- (set_inodes_id s (<[f := with_pos v fl]> (files s)) (f_inode fl) i Hi).
  apply (file_update s L ex f fl (with_pos v fl) i i); try done. cbn. lia.
Qed.

Lemma file_allow_write_run s L ex f fl i :
  st_inv s L ex → files s !! f = Some fl → inodes s !! f_inode fl = Some i → sector i ≠ 0 → f ≠ free_map_file s →
  let s' := set_inodes (<[f_inode fl := with_deny_cnt (deny_write_cnt i - Z.b2z (f_deny_write fl)) i]> (inodes s))
              (set_files (<[f := with_deny false fl]> (files s)) s) in
  file_allow_write f s = Ret (tt, s') ∧ st_inv s' L ex.
Proof.
  intros Hs Hf Hi Hsec Hne s'. pose proof (si_mem _ _ _ Hs) as Hm. destruct (mi_cnt _ _ _ Hm _ _ Hi) as (Hc & H1 & Hd).
  destruct (counts_split s f fl Hf) as (Hr & Hdn & Hb1 & Hb2). pose proof (occ_bounds (f_inode fl) ex).
  destruct (mi_files _ _ _ Hm _ _ Hf) as [_ Hpos]. split.
  - unfold file_allow_write. run_step (gets_opt_Some (λ s, files s !! f) s fl Hf). unfold s'. destruct (f_deny_write fl) eqn:Ed; cbn [Z.b2z] in *.
    + rewrite (bind_Ret _ _ _ _ _ eq_refl). unfold inode_allow_write. run_step (gets_opt_Some (λ s', inodes s' !! f_inode fl) (set_files (<[f := with_deny false fl]> (files s)) s) i Hi).
      rewrite !assert_bind by (apply bool_decide_eq_true_2; lia). done.
    + rewrite Z.sub_0_r. assert (with_deny_cnt (deny_write_cnt i) i = i) as -> by (by destruct i).
      assert (with_deny false fl = fl) as -> by (destruct fl; cbn in *; by subst). rewrite set_inodes_id by done. rewrite insert_id by done. by destruct s.
  - apply (file_update s L ex f fl (with_deny false fl) i _); try done. cbn. lia.
Qed.

Lemma file_deny_write_run s L ex f fl i :
  st_inv s L ex → files s !! f = Some fl → inodes s !! f_inode fl = Some i → sector i ≠ 0 → f ≠ free_map_file s →
  let s' := set_inodes (<[f_inode fl := with_deny_cnt (deny_write_cnt i + 1 - Z.b2z (f_deny_write fl)) i]> (inodes s))
              (set_files (<[f := with_deny true fl]> (files s)) s) in
  file_deny_write f s = Ret (tt, s') ∧ st_inv s' L ex.
Proof.
  intros Hs Hf Hi Hsec Hne s'. pose proof (si_mem _ _ _ Hs) as Hm. destruct (mi_cnt _ _ _ Hm _ _ Hi) as (Hc & H1 & Hd).
  destruct (counts_split s f fl Hf) as (Hr & Hdn & Hb1 & Hb2). pose proof (occ_bounds (f_inode fl) ex).
  destruct (mi_files _ _ _ Hm _ _ Hf) as [_ Hpos]. split.
  - unfold file_deny_write. run_step (gets_opt_Some (λ s, files s !! f) s fl Hf). unfold s'. destruct (f_deny_write fl) eqn:Ed; cbn [Z.b2z] in *.
    + replace (deny_write_cnt i + 1 - 1) with (deny_write_cnt i) by lia. assert (with_deny_cnt (deny_write_cnt i) i = i) as -> by (by destruct i).
      assert (with_deny true fl = fl) as -> by (destruct fl; cbn in *; by subst). rewrite set_inodes_id by done. rewrite insert_id by done. by destruct s.
    + rewrite Z.sub_0_r. rewrite (bind_Ret _ _ _ _ _ eq_refl). unfold inode_deny_write. run_step (gets_opt_Some (λ s', inodes s' !! f_inode fl) (set_files (<[f := with_deny true fl]> (files s)) s) i Hi).
      rewrite (bind_Ret _ _ _ _ _ eq_refl). unfold assert. rewrite bool_decide_eq_true_2; [done|]. cbn. lia.
  - apply (file_update s L ex f fl (with_deny true fl) i _); try done. cbn. lia.
Qed.

Lemma file_close_run s L ex f fl i :
  st_inv s L ex → files s !! f = Some fl → inodes s !! f_inode fl = Some i → sector i ≠ 0 → f ≠ free_map_file s → free_map_file s ≠ 0 →
  ∃ s' L', file_close f s = Ret (tt, s') ∧ st_inv s' L' ex ∧ closed (f_inode fl) i L L' s s' ∧
    files s' = delete f (files s) ∧ dirs s' = dirs s.
Proof.
  intros Hs Hf Hi Hsec Hne Hz. pose proof (si_mem _ _ _ Hs) as Hm0. pose proof (inode_nonzero _ _ _ _ _ Hm0 Hi) as Hp.
  pose proof (mi_fresh _ _ _ Hm0 f) as Hff. specialize (Hff ltac:(rewrite Hf; eauto)).
  unfold file_close. rewrite bool_decide_eq_true_2 by lia. destruct (file_allow_write_run s L ex f fl i Hs Hf Hi Hsec Hne) as [E1 Hs1].
  run_step E1. set (i1 := with_deny_cnt _ i) in *. set (s1 := set_inodes _ _) in *. set (fl1 := with_deny false fl) in *.
  assert (files s1 !! f = Some fl1) as Hf1 by (unfold s1; cbn; by rewrite lookup_insert_eq).
  assert (inodes s1 !! f_inode fl = Some i1) as Hi1 by (unfold s1; cbn; by rewrite lookup_insert_eq).
  run_step (gets_opt_Some (λ s, files s !! f) s1 fl1 Hf1). change (f_inode fl1) with (f_inode fl).
  pose proof (si_mem _ _ _ Hs1) as Hm. destruct (mi_cnt _ _ _ Hm _ _ Hi1) as (Hc & H1 & Hd).
  pose proof (mi_few _ _ _ Hm) as Hfew. pose proof (refs_bounds s1 (f_inode fl)). pose proof (occ_bounds (f_inode fl) ex).
  destruct (inode_close_exec s1 L (f_inode fl) i1) as (s2 & L' & E2 & Hce); try done; [apply Hm|apply Hs1|apply Hs1|apply Hs1|lia|lia|by apply (mi_node _ _ _ Hm (f_inode fl))|].
  run_step E2. eexists _, L'. split; [done|]. pose proof (close_exec_closed _ _ _ _ _ _ Hce) as Hcl.
  pose proof (ce_files _ _ _ _ _ _ Hce) as Ef2.
  assert (mem_inv (set_files (delete f (files s1)) s1) L (f_inode fl :: ex)) as Hmt.
  { rewrite <- (set_inodes_id s1 (delete f (files s1)) (f_inode fl) i1 Hi1). destruct (counts_split s1 f fl1 Hf1) as (Hr & Hdn & _).
    change (f_inode fl1) with (f_inode fl) in *. cbn [f_deny_write fl1 with_deny Z.b2z] in Hdn.
    apply (mem_change s1 L ex _ _ _ i1 i1); try done.
    - rewrite occ_cons, at_inode_self. unfold refs. cbn [files dirs set_inodes set_files]. lia.
    - unfold denies. cbn [files set_inodes set_files]. lia.
    - intros q Hq. rewrite occ_cons, at_inode_ne by done. unfold refs, denies. cbn [files dirs set_inodes set_files].
      rewrite (sum_lookup (λ f, at_inode q (f_inode f)) (files s1) f fl1 Hf1), (sum_lookup (denies_at q) (files s1) f fl1 Hf1).
      rewrite denies_at_ne by done. change (f_inode fl1) with (f_inode fl). rewrite at_inode_ne by done. lia.
    - intros g gl [_ Hg]%lookup_delete_Some. by apply (mi_files _ _ _ Hm g).
    - intros g Hg. apply lookup_delete_is_Some in Hg as [_ Hg]. apply (mi_fresh _ _ _ Hm). tauto.
    - intros q [-> |Hq]%elem_of_cons; auto.
    - rewrite map_size_delete, Hf1. cbn [length].
      assert (size (files s1) ≠ 0)%nat by (rewrite map_size_ne_0_lookup; exists f; by eexists). lia. }
  split_and!.
  - split; [by apply (agree_layout s2), Hce| | |exact (ce_saved _ _ _ _ _ _ Hce)].
    + apply (close_mem s1 s2 (set_files (delete f (files s1)) s1) _ L L' ex _ i1 Hce Hmt Hi1); try done; cbn; [by rewrite Ef2|apply Hce].
    + apply (home_frame s2 _ L' L' 0); try done; [apply Hce| |].
      * cbn. rewrite lookup_delete_ne; [done|]. rewrite (ce_map_file _ _ _ _ _ _ Hce). done.
      * intros j Hj. destruct (decide (f_inode fl = 0)); [lia|]. rewrite (cl_other _ _ _ _ _ _ Hcl) in Hj by lia.
        pose proof (inode_nonzero _ _ _ _ _ Hm Hj). lia.
  - destruct Hcl as [C1 C2 C3 C4 C5 C6 C7]. split; try done.
    intros q Hq. cbn. rewrite C5 by done. unfold s1. cbn. by rewrite lookup_insert_ne.
  - cbn. rewrite Ef2. unfold s1. cbn. apply delete_insert_eq.
  - cbn. apply Hce.
Qed.
