(* ===== verification/FileSysDir.v ===== *)
(** * FileSysDir: the root directory

    The data of the root directory is 16 slots of 20 bytes; [dir_inv] relates them to a
    map [D] from names to inode sectors.  [core_inv] adds to the invariant of the inodes
    that the named inodes are in use, that the inodes that are in use but not named are
    those removed while open, and that they are freed by their last close. *)

From S2P Require Import Prelude Bitmap FileSys FileSysIO FileSysInv FileSysMem FileSysFiles.

(** ** Slots *)

Definition slot (c : list Z) (k : nat) : list Z := take 20 (drop (20 * k) c).

Definition is_entry (c : list Z) (k : nat) (name : list Z) (sec : Z) : Prop :=
  (k < 16)%nat ∧ e_in_use (slot c k) = true ∧ c_string (e_chars (slot c k)) = Some name ∧ e_sector (slot c k) = sec.

Record dir_inv (c : list Z) (D : gmap (list Z) Z) : Prop := {
  di_len : length c = 320%nat;
  di_string : ∀ k, (k < 16)%nat → e_in_use (slot c k) = true → ∃ name, c_string (e_chars (slot c k)) = Some name;
  di_map : ∀ name sec, D !! name = Some sec ↔ ∃ k, is_entry c k name sec;
  di_one : ∀ k k' name sec sec', is_entry c k name sec → is_entry c k' name sec' → k = k'
}.

Lemma length_slot c k : length c = 320%nat → (k < 16)%nat → length (slot c k) = 20%nat.
Proof. intros Hc Hk. unfold slot. rewrite length_take, length_drop. lia. Qed.

Lemma slot_patch c j k bs :
  length c = 320%nat → (j < 16)%nat → (k < 16)%nat → length bs = 20%nat →
  slot (patch c (20 * j) bs) k = if decide (k = j) then bs else slot c k.
Proof.
  intros Hc Hj Hk Hb. apply list_eq_same_length with (n := 20%nat).
  - case_decide; [done|by apply length_slot].
  - apply length_slot; [rewrite length_patch; lia|done].
  - intros x y y' Hx. unfold slot, patch. rewrite lookup_take_lt, lookup_drop by lia. intros Hy Hy'.
    rewrite !lookup_app, length_take in Hy. case_decide as E.
    + subst k. rewrite lookup_take_ge in Hy by lia. replace (20 * j + x - (20 * j) `min` length c)%nat with x in Hy by lia.
      rewrite Hy' in Hy. by injection Hy.
    + rewrite lookup_take_lt, lookup_drop in Hy' by lia. destruct (decide (20 * k + x < 20 * j)%nat).
      * rewrite lookup_take_lt, Hy' in Hy by lia. by injection Hy.
      * rewrite lookup_take_ge in Hy by lia. rewrite lookup_ge_None_2 in Hy by lia. rewrite lookup_drop in Hy.
        replace (20 * j + length bs + (20 * k + x - (20 * j) `min` length c - length bs))%nat with (20 * k + x)%nat in Hy by lia.
        rewrite Hy' in Hy. by injection Hy.
Qed.

(** ** Entries *)

(** A name as C has it: without zero bytes. *)
Definition is_name (name : list Z) : Prop := Forall (λ c, c ≠ 0) name.

Lemma c_string_name l name : c_string l = Some name → is_name name.
Proof.
  revert name. induction l as [|c l IH]; intros name; cbn; [done|]. case_bool_decide; [intros [= <-]; constructor|].
  destruct (c_string l) as [n|]; [|done]. intros [= <-]. constructor; [done|by apply IH].
Qed.

Lemma c_string_app name rest : is_name name → c_string (name ++ 0 :: rest) = Some name.
Proof.
  intros H. induction H as [|c name Hc H IH]; [done|]. cbn. rewrite bool_decide_eq_false_2 by done. by rewrite IH.
Qed.

Lemma length_e_chars e : length e = 20%nat → length (e_chars e) = 15%nat.
Proof. intros H. unfold e_chars. rewrite length_take, length_drop. lia. Qed.

Lemma strlcpy_run dst name :
  length dst = 15%nat → (length name ≤ 14)%nat → strlcpy dst name = name ++ 0 :: drop (S (length name)) dst ∧ length (strlcpy dst name) = 15%nat.
Proof.
  intros Hd Hn. unfold strlcpy, overwrite. rewrite take_ge by lia. rewrite length_app. cbn [length].
  replace (length name + 1)%nat with (S (length name)) by lia. split; [by rewrite <- app_assoc|].
  rewrite !length_app, length_drop. cbn. lia.
Qed.

Lemma used_entry_run e name sec :
  length e = 20%nat → (length name ≤ 14)%nat → is_name name → 0 ≤ sec < 2 ^ 32 →
  length (used_entry e name sec) = 20%nat ∧ e_in_use (used_entry e name sec) = true ∧
  c_string (e_chars (used_entry e name sec)) = Some name ∧ e_sector (used_entry e name sec) = sec.
Proof.
  intros He Hn Hname Hs. pose proof (length_e_chars e He) as Hc. destruct (strlcpy_run (e_chars e) name Hc Hn) as [E Hl].
  assert (length (elem_bytes sec) = 4%nat) as H4 by done. unfold used_entry. split_and!.
  - rewrite !length_app. cbn [length]. lia.
  - unfold e_in_use. rewrite lookup_app_r by lia. rewrite lookup_app_r by lia. rewrite H4, Hl. done.
  - unfold e_chars at 1. rewrite (drop_app_length' _ _ 4) by done. rewrite take_app_length' by done. rewrite E. by apply c_string_app.
  - unfold e_sector. rewrite take_app_length' by done. by rewrite <- (app_nil_r (elem_bytes sec)), elem_bytes_inv.
Qed.

Lemma unused_entry_run e : length e = 20%nat → length (unused_entry e) = 20%nat ∧ e_in_use (unused_entry e) = false.
Proof.
  intros He. unfold unused_entry. split; [by rewrite length_app, length_take, He|].
  unfold e_in_use. rewrite lookup_app_r by (rewrite length_take; lia). rewrite length_take, He. done.
Qed.

(** Slot [j] is filled, or emptied. *)
Lemma dir_add_inv c D j name sec bs :
  dir_inv c D → (j < 16)%nat → e_in_use (slot c j) = false → D !! name = None → length bs = 20%nat →
  e_in_use bs = true → c_string (e_chars bs) = Some name → e_sector bs = sec →
  dir_inv (patch c (20 * j) bs) (<[name := sec]> D).
Proof.
  intros [H1 H2 H3 H4] Hj Hfree Hno Hb Hu Hn Hs.
  assert (∀ k, (k < 16)%nat → slot (patch c (20 * j) bs) k = if decide (k = j) then bs else slot c k) as Hsl by (intros; by apply slot_patch).
  assert (∀ k n x, is_entry (patch c (20 * j) bs) k n x ↔ (k = j ∧ n = name ∧ x = sec) ∨ (k ≠ j ∧ is_entry c k n x)) as He.
  { intros k n x. unfold is_entry. split.
    - intros (Hk & Hx). rewrite Hsl in Hx by done. case_decide; [left|right; done]. destruct Hx as (_ & Hx & Hy). rewrite Hn in Hx. injection Hx as <-. by subst.
    - intros [(-> & -> & ->)|(Hne & Hk & Hx)]; (split; [done|]); rewrite Hsl by done; [by rewrite decide_True|by rewrite decide_False]. }
  split.
  - rewrite length_patch; lia.
  - intros k Hk. rewrite Hsl by done. case_decide; [intros _; by eexists|by apply H2].
  - intros n x. setoid_rewrite He. destruct (decide (n = name)) as [->|Hne].
    + rewrite lookup_insert_eq. split; [intros [= <-]; exists j; by left|]. intros (k & [(_ & _ & ->)|(_ & Hk)]); [done|].
      assert (D !! name = Some x) by (apply H3; by exists k). congruence.
    + rewrite lookup_insert_ne by done. rewrite H3. split.
      * intros (k & Hk). exists k. right. split; [|done]. intros ->. destruct Hk as (_ & Hk & _). by rewrite Hfree in Hk.
      * intros (k & [(_ & -> & _)|(_ & Hk)]); [done|by exists k].
  - intros k k' n x x' [(-> & -> & _)|(Hk & Hx)]%He [(-> & E & _)|(Hk' & Hx')]%He; [done|..].
    + assert (D !! name = Some x') by (apply H3; by exists k'). congruence.
    + subst n. assert (D !! name = Some x) by (apply H3; by exists k). congruence.
    + by apply (H4 k k' n x x').
Qed.

Lemma dir_remove_inv c D j name sec bs :
  dir_inv c D → is_entry c j name sec → length bs = 20%nat → e_in_use bs = false → dir_inv (patch c (20 * j) bs) (delete name D).
Proof.
  intros [H1 H2 H3 H4] Hj Hb Hu. pose proof Hj as (Hj16 & _).
  assert (∀ k, (k < 16)%nat → slot (patch c (20 * j) bs) k = if decide (k = j) then bs else slot c k) as Hsl by (intros; by apply slot_patch).
  assert (∀ k n x, is_entry (patch c (20 * j) bs) k n x ↔ k ≠ j ∧ is_entry c k n x) as He.
  { intros k n x. unfold is_entry. split.
    - intros (Hk & Hx). rewrite Hsl in Hx by done. case_decide; [|done]. destruct Hx as (Hx & _). congruence.
    - intros (Hne & Hk & Hx). split; [done|]. rewrite Hsl by done. by rewrite decide_False. }
  split.
  - rewrite length_patch; lia.
  - intros k Hk. rewrite Hsl by done. case_decide; [congruence|by apply H2].
  - intros n x. setoid_rewrite He. rewrite lookup_delete_Some, H3. split.
    + intros (Hne & k & Hk). exists k. split; [|done]. intros ->. apply Hne. destruct Hj as (_ & _ & E & _). destruct Hk as (_ & _ & E' & _). congruence.
    + intros (k & Hne & Hk). split; [|by exists k]. intros <-. apply Hne. by apply (H4 k j name x sec).
  - intros k k' n x x' [_ Hx]%He [_ Hx']%He. by apply (H4 k k' n x x').
Qed.

(** ** Reading the directory *)

(** The inode in memory at [p] is that of the root directory, whose data is [c]. *)
Record root_at (s : fs) (L : gmap Z (Z * Z)) (ex : list Z) (p : Z) (c : list Z) : Prop := {
  ra_st : st_inv s L ex;
  ra_inode : ∃ i e, inodes s !! p = Some i ∧ sector i = 1 ∧ L !! 1 = Some e ∧ e.2 = 320 ∧ content s e = c
}.

Lemma root_bump s L ex p c b : root_at s L ex p c → brk s ≤ b → root_at (bump b s) L ex p c.
Proof. intros [Hs Hi] Hb. split; [by apply st_bump|exact Hi]. Qed.

Lemma read_slot s L ex p c k :
  root_at s L ex p c → (k ≤ 16)%nat →
  ∃ b, brk s ≤ b ∧ inode_read_at p ENTRY_SIZE (20 * Z.of_nat k) s = Ret (slot c k, bump b s).
Proof.
  intros [Hs (i & e & Hi & Hsec & He & Hlen & Hc)] Hk. rewrite <- Hsec in He.
  destruct (read_run s L ex p i e ENTRY_SIZE (20 * Z.of_nat k) Hs Hi He) as (b & Hb & E & _); [lia|]. exists b. split; [done|].
  rewrite E, Hc. unfold slot. replace (Z.to_nat (20 * Z.of_nat k)) with (20 * k)%nat by lia. done.
Qed.

Lemma slot_end c k : length c = 320%nat → (16 ≤ k)%nat → slot c k = [].
Proof. intros Hc Hk. unfold slot. rewrite drop_ge by lia. done. Qed.

Lemma lookup_loop_run fuel s L ex p c D name k :
  root_at s L ex p c → dir_inv c D → (k ≤ 16)%nat → (16 - k < fuel)%nat →
  ∃ b, brk s ≤ b ∧
    ((∃ j sec, is_entry c j name sec ∧ lookup_loop fuel p name (20 * Z.of_nat k) s = Ret (Some (slot c j, 20 * Z.of_nat j), bump b s)) ∨
     ((∀ j sec, (k ≤ j)%nat → ¬ is_entry c j name sec) ∧ lookup_loop fuel p name (20 * Z.of_nat k) s = Ret (None, bump b s))).
Proof.
  revert s k. induction fuel as [|fuel IH]; intros s k Hr Hd Hk Hf; [lia|].
  destruct (read_slot s L ex p c k Hr Hk) as (b & Hb & E). pose proof (di_len _ _ Hd) as Hc.
  destruct (decide (k = 16)%nat) as [->|Hk16].
  { exists b. split; [done|]. right. split; [intros j sec Hj (Hj' & _); lia|]. cbn [lookup_loop]. rewrite swrap_id by lia.
    run_step E. by rewrite slot_end by lia. }
  assert (lookup_loop (S fuel) p name (20 * Z.of_nat k) s =
    (same ← (if e_in_use (slot c k) then n ← e_name (slot c k); mret (bool_decide (n = name)) else mret false);
     if (same : bool) then mret (Some (slot c k, 20 * Z.of_nat k)) else lookup_loop fuel p name (20 * Z.of_nat (S k))) (bump b s)) as Estep.
  { cbn [lookup_loop]. rewrite swrap_id by lia. run_step E. rewrite length_slot by lia. rewrite bool_decide_eq_true_2 by done.
    change ENTRY_SIZE with 20. by replace (u32 (20 * Z.of_nat k + 20)) with (20 * Z.of_nat (S k)) by (rewrite uwrap_id by lia; lia). }
  destruct (decide (e_in_use (slot c k) = true ∧ c_string (e_chars (slot c k)) = Some name)) as [[Eu En]|Hno].
  - exists b. split; [done|]. left. exists k, (e_sector (slot c k)). split; [split_and!; [lia|done|done|done]|].
    rewrite Estep, Eu, bind_assoc. unfold e_name at 1. rewrite (bind_Ret _ _ (bump b s) name (bump b s)) by (apply gets_opt_Some; exact En).
    rewrite ret_bind. by rewrite bool_decide_eq_true_2.
  - assert (lookup_loop (S fuel) p name (20 * Z.of_nat k) s = lookup_loop fuel p name (20 * Z.of_nat (S k)) (bump b s)) as Eskip.
    { rewrite Estep. destruct (e_in_use (slot c k)) eqn:Eu; [|by rewrite ret_bind]. destruct (di_string _ _ Hd k ltac:(lia) Eu) as (n & En).
      rewrite bind_assoc. unfold e_name at 1. rewrite (bind_Ret _ _ (bump b s) n (bump b s)) by (apply gets_opt_Some; exact En).
      rewrite ret_bind. rewrite bool_decide_eq_false_2; [done|]. intros ->. by apply Hno. }
    rewrite Eskip. destruct (IH (bump b s) (S k)) as (b' & Hb' & H); [by apply root_bump|done|lia|lia|].
    exists b'. split; [cbn in Hb'; lia|]. destruct H as [H|[H1 H2]]; [by left|right]. split; [|done].
    intros j sec Hj He. destruct (decide (j = k)) as [->|]; [apply Hno; by destruct He as (_ & ? & ? & _)|]. apply (H1 j sec); [lia|done].
Qed.

Lemma slot_loop_run fuel s L ex p c e0 k :
  root_at s L ex p c → length c = 320%nat → length e0 = 20%nat → (k ≤ 16)%nat → (16 - k < fuel)%nat →
  ∃ b, brk s ≤ b ∧
    ((∃ j, (k ≤ j < 16)%nat ∧ e_in_use (slot c j) = false ∧ slot_loop fuel p e0 (20 * Z.of_nat k) s = Ret ((slot c j, 20 * Z.of_nat j), bump b s)) ∨
     ((∀ j, (k ≤ j < 16)%nat → e_in_use (slot c j) = true) ∧
      ∃ e, length e = 20%nat ∧ slot_loop fuel p e0 (20 * Z.of_nat k) s = Ret ((e, 320), bump b s))).
Proof.
  revert s k e0. induction fuel as [|fuel IH]; intros s k e0 Hr Hc He0 Hk Hf; [lia|]. cbn [slot_loop].
  destruct (read_slot s L ex p c k Hr Hk) as (b & Hb & E). rewrite (bind_Ret _ _ _ _ _ E).
  destruct (decide (k = 16)%nat) as [->|Hk16].
  { rewrite slot_end by lia. cbn [length]. rewrite bool_decide_eq_false_2 by done. exists b. split; [done|]. right. split; [intros j; lia|].
    exists e0. split; [done|]. unfold overwrite. cbn. by rewrite drop_0. }
  assert (overwrite (slot c k) e0 = slot c k) as Eo.
  { unfold overwrite. rewrite length_slot by lia. rewrite drop_ge by lia. apply app_nil_r. }
  rewrite Eo, length_slot by lia. rewrite bool_decide_eq_true_2 by done. destruct (e_in_use (slot c k)) eqn:Eu.
  - change ENTRY_SIZE with 20. replace (s32 (20 * Z.of_nat k + 20)) with (20 * Z.of_nat (S k)) by (rewrite swrap_id by lia; lia).
    destruct (IH (bump b s) (S k) (slot c k)) as (b' & Hb' & H); [by apply root_bump|done|apply length_slot; lia|lia|lia|].
    exists b'. split; [cbn in Hb'; lia|]. destruct H as [(j & Hj & Hx)|[H1 H2]]; [left; exists j; split; [lia|exact Hx]|right]. split; [|exact H2].
    intros j Hj. destruct (decide (j = k)) as [->|]; [done|apply H1; lia].
  - exists b. split; [done|]. left. exists k. split_and!; [lia|lia|done|done].
Qed.

Lemma root_fuel s L ex p c : root_at s L ex p c → entry_fuel p s = Ret (18%nat, s).
Proof.
  intros [Hs (i & e & Hi & Hsec & He & Hlen & Hc)]. destruct (open_ext _ _ _ _ _ Hs Hi) as (e' & He' & Hd & _). rewrite Hsec, He in He'. injection He' as <-.
  unfold entry_fuel, inode_length. rewrite bind_assoc. rewrite (bind_Ret _ _ _ _ _ (gets_opt_Some (λ s, inodes s !! p) s i Hi)), ret_bind.
  rewrite Hd. cbn [id_length]. by rewrite Hlen.
Qed.

Lemma lookup_run s L ex d dr c D name :
  dirs s !! d = Some dr → root_at s L ex (d_inode dr) c → dir_inv c D →
  ∃ b, brk s ≤ b ∧
    match D !! name with
    | Some sec => ∃ j, is_entry c j name sec ∧ lookup d name s = Ret (Some (slot c j, 20 * Z.of_nat j), bump b s)
    | None => lookup d name s = Ret (None, bump b s)
    end.
Proof.
  intros Hdr Hr Hd. unfold lookup. rewrite (bind_Ret _ _ _ _ _ (gets_opt_Some (λ s, dirs s !! d) s dr Hdr)), (bind_Ret _ _ _ _ _ (root_fuel _ _ _ _ _ Hr)).
  destruct (lookup_loop_run 18 s L ex (d_inode dr) c D name 0 Hr Hd ltac:(lia) ltac:(lia)) as (b & Hb & [(j & sec & Hj & E)|[Hno E]]); exists b; (split; [done|]).
  - rewrite (proj2 (di_map _ _ Hd name sec)) by (by exists j). by exists j.
  - destruct (D !! name) as [sec|] eqn:Es; [|done]. apply (di_map _ _ Hd) in Es as (j & Hj). by destruct (Hno j sec ltac:(lia)).
Qed.
