(* ===== verification/FileSysOps.v ===== *)
(** * FileSysOps: the operations of [filesys.c] on the invariant *)

From S2P Require Import Prelude Bitmap FileSys FileSysIO FileSysInv FileSysMem FileSysFiles FileSysDir.

Definition named (D : gmap (list Z) Z) (sec : Z) : Prop := sec = 0 ∨ sec = 1 ∨ ∃ name, D !! name = Some sec.

Lemma named_list D sec : named D sec ↔ sec = 0 ∨ sec = 1 ∨ Exists (λ kv, kv.2 = sec) (map_to_list D).
Proof.
  unfold named. rewrite Exists_exists. split; intros [?|[?|H]]; try tauto; right; right.
  - destruct H as [n Hn]. exists (n, sec). split; [by apply elem_of_map_to_list|done].
  - destruct H as ([n x] & Hin & Hx). exists n. apply elem_of_map_to_list in Hin. cbn in Hx. congruence.
Qed.

#[export] Instance named_dec D sec : Decision (named D sec).
Proof. destruct (decide (sec = 0 ∨ sec = 1 ∨ Exists (λ kv, kv.2 = sec) (map_to_list D))) as [H|H]; [left|right]; by rewrite named_list. Defined.

Record core_inv (s : fs) (L : gmap Z (Z * Z)) (D : gmap (list Z) Z) (ex : list Z) : Prop := {
  ci_st : st_inv s L ex;
  ci_mapf : free_map_file s ≠ 0;
  ci_root : ∃ e, L !! 1 = Some e ∧ e.2 = 320 ∧ dir_inv (content s e) D;
  ci_named : ∀ name sec, D !! name = Some sec → sec ≠ 0 ∧ sec ≠ 1 ∧ is_Some (L !! sec);
  ci_inj : ∀ n n' sec, D !! n = Some sec → D !! n' = Some sec → n = n';
  ci_removed : ∀ p i, inodes s !! p = Some i → removed i = true ↔ ¬ named D (sector i);
  ci_live : ∀ sec, is_Some (L !! sec) → named D sec ∨ ∃ p i, inodes s !! p = Some i ∧ sector i = sec;
  ci_files : ∀ f fl i, files s !! f = Some fl → inodes s !! f_inode fl = Some i → f ≠ free_map_file s → sector i ≠ 0 ∧ sector i ≠ 1
}.

(** What the users of the file system see of a state stays. *)
Record same_view (L : gmap Z (Z * Z)) (s s' : fs) : Prop := {
  sv_files : files s' = files s;
  sv_mapf : free_map_file s' = free_map_file s;
  sv_dev : dev_size s' = dev_size s;
  sv_content : ∀ x e, L !! x = Some e → x ≠ 0 → content s' e = content s e;
  sv_sector : ∀ f fl, files s !! f = Some fl → sector <$> inodes s' !! f_inode fl = sector <$> inodes s !! f_inode fl
}.

Lemma same_view_trans L s1 s2 s3 : same_view L s1 s2 → same_view L s2 s3 → same_view L s1 s3.
Proof.
  intros [A1 A2 A3 A4 A5] [B1 B2 B3 B4 B5]. split; [congruence|congruence|congruence|..].
  - intros x e He Hx. by rewrite (B4 x e), (A4 x e).
  - intros f fl Hf. rewrite (B5 f) by (by rewrite A1). by apply (A5 f).
Qed.

Lemma same_view_bump L b s : same_view L s (bump b s).
Proof. by split. Qed.

Lemma core_bump s L D ex b : core_inv s L D ex → brk s ≤ b → core_inv (bump b s) L D ex.
Proof. intros [H1 H2 H3 H4 H5 H6 H7 H8] Hb. split; try done. by apply st_bump. Qed.

(** ** Opening *)

Definition few (s : fs) (n : Z) : Prop := Z.of_nat (size (files s)) + Z.of_nat (size (dirs s)) + n < 2 ^ 31.

Lemma core_open s L D ex sec :
  core_inv s L D ex → named D sec → is_Some (L !! sec) → few s (Z.of_nat (length ex) + 1) →
  ∃ p s', inode_open sec s = Ret (p, s') ∧ p ≠ 0 ∧ core_inv s' L D (p :: ex) ∧ same_view L s s' ∧ (dirs s' = dirs s ∧ free_map s' = free_map s) ∧
    (∃ i, inodes s' !! p = Some i ∧ sector i = sec) ∧
    ∀ q i, inodes s !! q = Some i → ∃ i', inodes s' !! q = Some i' ∧ sector i' = sector i.
Proof.
  intros [H1 H2 H3 H4 H5 H6 H7 H8] Hn [e He] Hf. destruct (inode_open_run s L ex sec e H1 He) as (p & s' & E & Hp & Hst & Hs'); [unfold few in Hf; lia|].
  exists p, s'. pose proof (os_rest _ _ _ _ Hst) as Hr. destruct (os_new _ _ _ _ Hst) as (i' & Hi' & Es & Hold).
  assert (files s' = files s ∧ dirs s' = dirs s ∧ free_map_file s' = free_map_file s ∧ dev_size s' = dev_size s ∧ disk s' = disk s) as (Ef & Ed & Em & Edv & Edk)
    by (by rewrite Hr).
  assert (∀ q i, inodes s !! q = Some i → ∃ i', inodes s' !! q = Some i' ∧ sector i' = sector i ∧ removed i' = removed i) as Hkeep.
  { intros q i Hi. destruct (decide (q = p)) as [->|Hq]; [|exists i; by rewrite (os_other _ _ _ _ Hst)].
    exists i'. split; [done|]. destruct Hold as [(Hno & _)|(j & Hj & Hjs & Hjr)]; [congruence|]. rewrite Hi in Hj. injection Hj as <-. by split; [congruence|]. }
  assert (∀ q i, inodes s' !! q = Some i → (q = p ∧ i = i') ∨ inodes s !! q = Some i) as Hback.
  { intros q i Hi. destruct (decide (q = p)) as [->|Hq]; [left; split; congruence|right; by rewrite <- (os_other _ _ _ _ Hst)]. }
  split_and!; [done|done| | |done|by rewrite Hr|by exists i'|].
  - split; [done|by rewrite Em|..].
    + destruct H3 as (e1 & He1 & Hl1 & Hd1). exists e1. unfold content. by rewrite Edk.
    + done.
    + done.
    + intros q i Hi. destruct (Hback q i Hi) as [[-> ->]|Hi0]; [|by apply (H6 q)]. destruct Hold as [(_ & Hr' & _)|(j & Hj & Hjs & Hjr)].
      * rewrite Hr', Es. split; [done|]. by intros [].
      * rewrite Hjr, Es, <- Hjs. by apply (H6 p).
    + intros x Hx. destruct (H7 x Hx) as [?|(q & i & Hi & Hx')]; [by left|right]. destruct (Hkeep q i Hi) as (i2 & Hi2 & Hs2 & _). exists q, i2. split; [done|congruence].
    + intros f fl i. rewrite Ef, Em. intros Hfl Hi Hne. destruct (mi_files _ _ _ (si_mem _ _ _ H1) f fl Hfl) as [[i0 Hi0] _].
      destruct (Hkeep _ _ Hi0) as (i2 & Hi2 & Hs2 & _). rewrite Hi in Hi2. injection Hi2 as ->. rewrite Hs2. by apply (H8 f fl i0).
  - split; [done|done|done|..].
    + intros x f _ _. unfold content. by rewrite Edk.
    + intros f fl Hfl. destruct (mi_files _ _ _ (si_mem _ _ _ H1) f fl Hfl) as [[i0 Hi0] _]. destruct (Hkeep _ _ Hi0) as (i2 & Hi2 & Hs2 & _).
      rewrite Hi2, Hi0. cbn. by rewrite Hs2.
  - intros q i Hi. destruct (Hkeep q i Hi) as (i2 & Hi2 & Hs2 & _). by exists i2.
Qed.

(** Handles do not touch the inodes. *)
Lemma core_dir_open s L D ex p i :
  core_inv s L D (p :: ex) → inodes s !! p = Some i →
  let s' := set_dirs (<[brk s := Dir p 0]> (dirs s)) (bump (brk s + 1) s) in
  dir_open p s = Ret (brk s, s') ∧ core_inv s' L D ex.
Proof.
  intros [H1 H2 H3 H4 H5 H6 H7 H8] Hi s'. destruct (dir_open_run s L ex p i H1 Hi) as [E Hs']. split; [done|]. by split.
Qed.

(** ** Closing *)

Lemma core_closed s s' L L' D ex ex' p i :
  core_inv s L D ex → st_inv s' L' ex' → closed p i L L' s s' → inodes s !! p = Some i →
  (∀ f fl, files s' !! f = Some fl → files s !! f = Some fl) →
  core_inv s' L' D ex' ∧ (removed i = false → L' = L).
Proof.
  intros [H1 H2 H3 H4 H5 H6 H7 H8] Hs' [C1 C2 C3 C4 C5 C6 C7] Hi Hf.
  assert (removed i = false → L' = L) as HL by (intros Hr; destruct C1 as [?|[Hx _]]; congruence).
  assert (∀ sec, named D sec → is_Some (L !! sec) → L' !! sec = L !! sec) as Hnm.
  { intros sec Hn _. destruct C1 as [-> |[Hr ->]]; [done|]. rewrite lookup_delete_ne; [done|]. intros Ex. apply (H6 p i Hi) in Hr. apply Hr. by rewrite Ex. }
  assert (∀ q j, inodes s' !! q = Some j → ∃ j0, inodes s !! q = Some j0 ∧ sector j0 = sector j ∧ removed j0 = removed j) as Hback.
  { intros q j Hj. destruct (decide (q = p)) as [->|Hq]; [|exists j; by rewrite <- C5].
    destruct C6 as [[Hno _]|(i' & Hi' & Hs & Hr & _)]; [congruence|]. rewrite Hj in Hi'. injection Hi' as ->. by exists i. }
  split; [|done]. split; [done|by rewrite C3|..].
  - destruct H3 as (e1 & He1 & Hl1 & Hd1). assert (L' !! 1 = Some e1) as He1' by (rewrite Hnm; [done|right; by left|by eexists]).
    exists e1. split_and!; [done|done|]. by rewrite (C7 1 e1).
  - intros n sec Hn. destruct (H4 n sec Hn) as (? & ? & ?). split_and!; [done|done|]. rewrite Hnm; [done|right; right; by exists n|done].
  - done.
  - intros q j Hj. destruct (Hback q j Hj) as (j0 & Hj0 & <- & <-). by apply (H6 q).
  - intros sec Hsec. assert (is_Some (L !! sec)) as Hsec0.
    { destruct C1 as [-> |[_ ->]]; [done|]. by apply lookup_delete_is_Some in Hsec as [_ ?]. }
    destruct (H7 sec Hsec0) as [?|(q & j & Hj & Hjs)]; [by left|]. destruct (decide (q = p)) as [->|Hq].
    + rewrite Hi in Hj. injection Hj as <-. destruct C6 as [[Hno Hdel]|(i' & Hi' & Hs & Hr & _)].
      * destruct (removed i) eqn:Er; [rewrite Hdel in Hsec by done; apply lookup_delete_is_Some in Hsec as [Hx _]; congruence|].
        left. destruct (decide (named D (sector i))) as [|Hn]; [by rewrite <- Hjs|]. apply (H6 p i Hi) in Hn. congruence.
      * right. exists p, i'. split; [done|congruence].
    + right. exists q, j. by rewrite C5.
  - intros f fl j Hfl Hj Hne. destruct (Hback _ _ Hj) as (j0 & Hj0 & <- & _). rewrite C3 in Hne. apply (H8 f fl j0); [by apply Hf|done|done].
Qed.

Lemma view_closed s s' L ex p i :
  st_inv s' L ex → closed p i L L s s' → inodes s !! p = Some i → files s' = files s → same_view L s s'.
Proof.
  intros Hs' [C1 C2 C3 C4 C5 C6 C7] Hi Ef. split; [done|done|done|done|].
  intros f fl Hf. destruct (decide (f_inode fl = p)) as [E|E]; [|by rewrite C5].
  destruct C6 as [[Hno _]|(i' & Hi' & Hs & _)].
  - rewrite <- Ef in Hf. destruct (mi_files _ _ _ (si_mem _ _ _ Hs') f fl Hf) as [[j Hj] _]. congruence.
  - rewrite E, Hi', Hi. cbn. by rewrite Hs.
Qed.

(** ** The root directory as the operations use it *)

(** The directory [d] is open on the root and nothing else is. *)
Record root_open (s : fs) (d p : Z) : Prop := {
  ro_dirs : dirs s = {[ d := Dir p 0 ]};
  ro_inode : ∃ i, inodes s !! p = Some i ∧ sector i = 1;
  ro_nonzero : d ≠ 0
}.

Lemma root_open_lookup s d p : root_open s d p → dirs s !! d = Some (Dir p 0).
Proof. intros H. rewrite (ro_dirs _ _ _ H). apply lookup_singleton_eq. Qed.

Lemma root_open_bump s d p b : root_open s d p → root_open (bump b s) d p.
Proof. intros [H1 H2 H3]. by split. Qed.

Lemma dir_open_root_run s L D :
  core_inv s L D [] → dirs s = ∅ → few s 2 →
  ∃ d p s', dir_open_root s = Ret (d, s') ∧ core_inv s' L D [] ∧ same_view L s s' ∧ root_open s' d p ∧ free_map s' = free_map s.
Proof.
  intros Hc Hd Hf. assert (is_Some (L !! 1)) as H1 by (destruct (ci_root _ _ _ _ Hc) as (e & He & _); by eexists).
  destruct (core_open s L D [] 1 Hc) as (p & s1 & E & Hp & Hc1 & Hv & [Ed Em] & (i & Hi & Hs) & _); [right; by left|done|unfold few in *; cbn; lia|].
  destruct (core_dir_open s1 L D [] p i Hc1 Hi) as [E2 Hc2]. exists (brk s1), p, (set_dirs (<[brk s1 := Dir p 0]> (dirs s1)) (bump (brk s1 + 1) s1)).
  unfold dir_open_root. change ROOT_DIR_SECTOR with 1. run_step E. split_and!; [done|done| | |done].
  - destruct Hv as [V1 V2 V3 V4 V5]. by split.
  - split; [cbn; by rewrite Ed, Hd|by exists i|]. destruct (st_mem_ok _ _ _ (ci_st _ _ _ _ Hc1)). lia.
Qed.

Lemma dir_close_root s L D ex d p :
  core_inv s L D ex → root_open s d p →
  ∃ s', dir_close d s = Ret (tt, s') ∧ core_inv s' L D ex ∧ same_view L s s' ∧ dirs s' = ∅ ∧
    ∀ q i, sector i ≠ 1 → inodes s !! q = Some i → inodes s' !! q = Some i.
Proof.
  intros Hc Hr. pose proof (root_open_lookup _ _ _ Hr) as Hd. destruct (ro_inode _ _ _ Hr) as (i & Hi & Hs).
  destruct (dir_close_run s L ex d (Dir p 0) i (ci_st _ _ _ _ Hc) Hd Hi) as (s' & L' & E & Hs' & Hcl & Ef & Ed); [lia|apply Hc|].
  destruct (core_closed s s' L L' D ex ex p i Hc Hs' Hcl Hi) as [Hc' HL]; [by rewrite Ef|].
  assert (L' = L) as ->.
  { apply HL. destruct (removed i) eqn:Er; [|done]. apply (ci_removed _ _ _ _ Hc p i Hi) in Er. destruct Er. rewrite Hs. right. by left. }
  exists s'. split_and!; [done|done|by apply (view_closed s s' L ex p i)| |].
  - rewrite Ed, (ro_dirs _ _ _ Hr). apply delete_singleton_eq.
  - intros q j Hj Hq. rewrite (cl_other _ _ _ _ _ _ Hcl); [done|]. cbn. intros ->. congruence.
Qed.

Lemma core_root_at s L D ex p i :
  core_inv s L D ex → inodes s !! p = Some i → sector i = 1 → ∃ c, root_at s L ex p c ∧ dir_inv c D ∧ ∃ e, L !! 1 = Some e ∧ e.2 = 320 ∧ content s e = c.
Proof.
  intros Hc Hi Hs. destruct (ci_root _ _ _ _ Hc) as (e & He & Hl & Hd). exists (content s e). split_and!; [|done|by exists e].
  split; [apply Hc|]. by exists i, e.
Qed.

Lemma same_view_few L s s' n : same_view L s s' → dirs s' = ∅ ∨ (∃ d p, dirs s' = {[ d := Dir p 0 ]}) → few s (n + 1) → dirs s = ∅ → few s' n.
Proof.
  intros [V1 _ _ _ _] Hd Hf Hd0. unfold few in *. rewrite V1. rewrite Hd0, map_size_empty in Hf.
  destruct Hd as [-> |(d & p & ->)]; [rewrite map_size_empty; lia|]. rewrite map_size_singleton. lia.
Qed.

(** ** [filesys_open] *)

Lemma filesys_open_run s L D name :
  core_inv s L D [] → dirs s = ∅ → few s 4 →
  match D !! name with
  | Some sec => ∃ f p s', filesys_open name s = Ret (f, s') ∧ core_inv s' L D [] ∧ dirs s' = ∅ ∧ f ≠ 0 ∧ files s !! f = None ∧
      (∃ s1, same_view L s s1 ∧ dev_size s' = dev_size s1 ∧ disk s' = disk s1 ∧ inodes s' = inodes s1 ∧ free_map_file s' = free_map_file s1 ∧
             files s' = <[f := File p 0 false]> (files s1)) ∧
      ∃ i, inodes s' !! p = Some i ∧ sector i = sec
  | None => ∃ s', filesys_open name s = Ret (0, s') ∧ core_inv s' L D [] ∧ dirs s' = ∅ ∧ same_view L s s'
  end.
Proof.
  intros Hc Hd Hf. destruct (dir_open_root_run s L D Hc Hd) as (d & p & s1 & E1 & Hc1 & Hv1 & Hr1 & _); [unfold few in *; lia|].
  destruct (ro_inode _ _ _ Hr1) as (i & Hi & Hs). destruct (core_root_at _ _ _ _ _ _ Hc1 Hi Hs) as (c & Hra & Hdi & _).
  destruct (lookup_run s1 L [] d (Dir p 0) c D name (root_open_lookup _ _ _ Hr1) Hra Hdi) as (b & Hb & Hlk).
  pose proof (core_bump _ _ _ _ _ Hc1 Hb) as Hc2. pose proof (root_open_bump _ _ _ b Hr1) as Hr2.
  pose proof (same_view_trans _ _ _ _ Hv1 (same_view_bump L b s1)) as Hv2.
  unfold filesys_open. run_step E1. rewrite bool_decide_eq_true_2 by apply Hr1. unfold dir_lookup. rewrite bind_assoc.
  destruct (D !! name) as [sec|] eqn:En.
  - destruct Hlk as (j & Hj & El). run_step El. destruct (ci_named _ _ _ _ Hc name sec En) as (Hn0 & Hn1 & HL).
    assert (e_sector (slot c j) = sec) as Es by apply Hj. rewrite Es.
    destruct (core_open (bump b s1) L D [] sec Hc2) as (q & s3 & E3 & Hq & Hc3 & Hv3 & [Ed3 _] & (k & Hk & Hks) & Hkp); [right; right; by exists name|done| |].
    { cbn [length]. apply (same_view_few L s _ 1); [done|right; exists d, p; apply Hr2|unfold few in *; lia|done]. }
    run_step E3. assert (root_open s3 d p) as Hr3.
    { split; [rewrite Ed3; apply Hr2| |apply Hr2]. destruct (ro_inode _ _ _ Hr2) as (i2 & Hi2 & Hs2). destruct (Hkp _ _ Hi2) as (i3 & Hi3 & Hs3).
      exists i3. split; [done|congruence]. }
    destruct (dir_close_root s3 L D [q] d p Hc3 Hr3) as (s4 & E4 & Hc4 & Hv4 & Hd4 & Hk4). run_step E4.
    assert (inodes s4 !! q = Some k) as Hk' by (apply Hk4; [congruence|done]).
    destruct (file_open_run s4 L [] q k (ci_st _ _ _ _ Hc4) Hk') as [E5 Hs5].
    exists (brk s4), q, (set_files (<[brk s4 := File q 0 false]> (files s4)) (bump (brk s4 + 1) s4)).
    pose proof (same_view_trans _ _ _ _ Hv2 (same_view_trans _ _ _ _ Hv3 Hv4)) as Hv.
    split_and!; [done| |done| | | |by exists k].
    + destruct Hc4 as [H1 H2 H3 H4 H5 H6 H7 H8]. split; try done. intros f fl j'. cbn. intros [[<- <-]|[Hne Hfl]]%lookup_insert_Some Hj' Hnf; [|by apply (H8 f fl)].
      cbn in Hj'. rewrite Hk' in Hj'. injection Hj' as <-. by rewrite Hks.
    + destruct (st_mem_ok _ _ _ (ci_st _ _ _ _ Hc4)). lia.
    + destruct (fresh_brk _ _ _ (si_mem _ _ _ (ci_st _ _ _ _ Hc4))) as (_ & Hfr & _). by rewrite (sv_files _ _ _ Hv) in Hfr.
    + exists s4. done.
  - run_step Hlk. rewrite ret_bind. cbn beta. destruct (dir_close_root (bump b s1) L D [] d p Hc2 Hr2) as (s4 & E4 & Hc4 & Hv4 & Hd4 & _). run_step E4.
    unfold file_open. run_step (fs_malloc_run s4 (st_mem_ok _ _ _ (ci_st _ _ _ _ Hc4))). cbn [bool_decide]. 
    exists (bump (brk s4 + 1) s4). split_and!; [done|apply core_bump; [done|lia]|done|].
    exact (same_view_trans _ _ _ _ Hv2 (same_view_trans _ _ _ _ Hv4 (same_view_bump L _ s4))).
Qed.
