(* ===== verification/FileSysNames.v ===== *)
(** * FileSysNames: [filesys_remove] and [filesys_create] on the invariant

    Both change the data of the root directory.  Removing a file frees its sectors at
    once when nobody has it open, and at its last close otherwise. *)

From S2P Require Import Prelude Bitmap FileSys FileSysIO FileSysInv FileSysMem FileSysFiles FileSysDir FileSysOps.

(** What the open files see stays; the root directory may have changed. *)
Record same_files (L : gmap Z (Z * Z)) (s s' : fs) : Prop := {
  sf_files : files s' = files s;
  sf_mapf : free_map_file s' = free_map_file s;
  sf_dev : dev_size s' = dev_size s;
  sf_content : ∀ x e, L !! x = Some e → x ≠ 0 → x ≠ 1 → content s' e = content s e;
  sf_sector : ∀ f fl, files s !! f = Some fl → sector <$> inodes s' !! f_inode fl = sector <$> inodes s !! f_inode fl
}.

Lemma same_view_files L s s' : same_view L s s' → same_files L s s'.
Proof. intros [V1 V2 V3 V4 V5]. split; [done|done|done| |done]. intros x e He H0 _. by apply (V4 x). Qed.

Lemma same_files_trans L L' s1 s2 s3 :
  (∀ x e, L' !! x = Some e → L !! x = Some e) → same_files L s1 s2 → same_files L' s2 s3 → same_files L' s1 s3.
Proof.
  intros HL [A1 A2 A3 A4 A5] [B1 B2 B3 B4 B5]. split; [congruence|congruence|congruence|..].
  - intros x e He H0 H1. rewrite (B4 x e), (A4 x e); auto.
  - intros f fl Hf. rewrite (B5 f) by (by rewrite A1). by apply (A5 f).
Qed.

(** ** Writing to the root directory *)

(** No file is open on the root directory, so nobody denies writing to it. *)
Lemma root_undenied s L D ex p i : core_inv s L D ex → inodes s !! p = Some i → sector i = 1 → deny_write_cnt i = 0.
Proof.
  intros Hc Hi Hs. destruct (mi_cnt _ _ _ (si_mem _ _ _ (ci_st _ _ _ _ Hc)) p i Hi) as (_ & _ & ->).
  apply denies_zero. intros f fl Hf Hp. destruct (decide (f = free_map_file s)) as [->|Hne].
  - destruct (si_home _ _ _ (ci_st _ _ _ _ Hc)) as [E|(fl' & i' & e & Hf' & Hi' & _ & Hs' & _)]; [by apply (ci_mapf _ _ _ _ Hc)|].
    rewrite Hf in Hf'. injection Hf' as <-. rewrite Hp, Hi in Hi'. injection Hi' as <-. congruence.
  - destruct (ci_files _ _ _ _ Hc f fl i Hf) as [_ ?]; [by rewrite Hp|done|congruence].
Qed.

Lemma root_write_run s L ex p i e j bs :
  st_inv s L ex → inodes s !! p = Some i → sector i = 1 → deny_write_cnt i = 0 → L !! 1 = Some e → e.2 = 320 →
  (j < 16)%nat → length bs = 20%nat →
  ∃ s', inode_write_at p bs (20 * Z.of_nat j) s = Ret (20, s') ∧ write_step L ex 1 e (20 * Z.of_nat j) bs s s'.
Proof.
  intros Hs Hi H1 Hd He Hl Hj Hb. rewrite <- H1 in He.
  destruct (write_run s L ex p i e bs (20 * Z.of_nat j) Hs Hi He) as (s' & E & Hw); [lia|done|lia|].
  assert (clamp e.2 (Z.of_nat (length bs)) (20 * Z.of_nat j) = 20) as Ec by (unfold clamp; lia). rewrite Ec in E, Hw.
  rewrite (take_ge bs) in Hw by lia. rewrite H1 in Hw. by exists s'.
Qed.

(** A write keeps everything but the disk. *)
Lemma write_rest L ex sec e off bs s s' :
  write_step L ex sec e off bs s s' →
  dev_size s' = dev_size s ∧ inodes s' = inodes s ∧ files s' = files s ∧ dirs s' = dirs s ∧ free_map_file s' = free_map_file s.
Proof. intros [Hr _ _ _ _]. by rewrite Hr. Qed.

(** ** Removing *)

(** The state after the entry of [name] is cleared and its inode is marked. *)
Lemma core_unname s s' L D ex e p i j name sec bs :
  core_inv s L D ex → D !! name = Some sec → inodes s !! p = Some i → sector i = sec →
  L !! 1 = Some e → is_entry (content s e) j name sec → length bs = 20%nat → e_in_use bs = false →
  write_step L ex 1 e (20 * Z.of_nat j) bs s s' →
  core_inv (set_inodes (<[p := with_removed true i]> (inodes s')) s') L (delete name D) ex.
Proof.
  intros [H1 H2 H3 H4 H5 H6 H7 H8] Hn Hi Hs He Hj Hb Hu Hw. pose proof (write_rest _ _ _ _ _ _ _ _ Hw) as (_ & Ein & Ef & Ed & Em).
  destruct (H4 name sec Hn) as (Hn0 & Hn1 & HLs).
  assert (∀ x, named (delete name D) x ↔ named D x ∧ x ≠ sec) as Hnm.
  { intros x. unfold named. split.
    - intros [-> |[-> |(n & [Hne Hx]%lookup_delete_Some)]]; [split; [tauto|congruence]..|]. split; [right; right; by exists n|]. intros ->. by apply Hne, (H5 name n sec).
    - intros [[?|[?|(n & Hx)]] Hne]; [by left|by right; left|]. right. right. exists n. apply lookup_delete_Some. split; [congruence|done]. }
  assert (mem_inv s' L ex) as Hm by apply (wr_inv _ _ _ _ _ _ _ _ Hw). assert (inodes s' !! p = Some i) as Hi' by (by rewrite Ein).
  assert (mem_inv (set_inodes (<[p := with_removed true i]> (inodes s')) s') L ex) as Hm'.
  { apply (mem_update s' L ex ex p i); [done|done|done|done| |done|intros q Hq; by right|apply Hm]. exact (mi_cnt _ _ _ Hm p i Hi'). }
  split.
  - apply (st_inodes s' L ex ex p i); [apply Hw|done|done|done|done|exact Hm'].
  - by cbn; rewrite Em.
  - destruct H3 as (e1 & He1 & Hl1 & Hd1). rewrite He in He1. injection He1 as <-. exists e. split_and!; [done|done|].
    change (dir_inv (content s' e) (delete name D)). rewrite (wr_content _ _ _ _ _ _ _ _ Hw).
    replace (Z.to_nat (20 * Z.of_nat j)) with (20 * j)%nat by lia. by apply (dir_remove_inv _ _ j name sec).
  - intros n x [_ Hx]%lookup_delete_Some. by apply (H4 n).
  - intros n n' x [_ Hx]%lookup_delete_Some [_ Hx']%lookup_delete_Some. by apply (H5 n n' x).
  - intros q k. cbn [inodes set_inodes]. rewrite Ein. intros [[<- <-]|[Hne Hk]]%lookup_insert_Some; rewrite Hnm.
    + cbn. rewrite Hs. tauto.
    + rewrite (H6 q k Hk). split; [tauto|]. intros Hno Hd. apply Hno. split; [done|]. intros Hx. apply Hne.
      apply (mi_inj _ _ _ (si_mem _ _ _ H1) p q i k); [done|done|congruence].
  - intros x Hx. cbn [inodes set_inodes]. rewrite Ein, Hnm. destruct (decide (x = sec)) as [->|Hne].
    + right. exists p, (with_removed true i). by rewrite lookup_insert_eq.
    + destruct (H7 x Hx) as [?|(q & k & Hk & Hkx)]; [by left|right]. exists q, k. rewrite lookup_insert_ne; [done|]. intros <-. congruence.
  - intros f fl k. cbn [inodes files free_map_file set_inodes]. rewrite Ein, Ef, Em. intros Hfl [[E <-]|[_ Hk]]%lookup_insert_Some Hne.
    + cbn. by rewrite Hs.
    + by apply (H8 f fl).
Qed.

Lemma files_closed s s' L L' ex p i :
  st_inv s' L' ex → closed p i L L' s s' → inodes s !! p = Some i → files s' = files s → same_files L' s s'.
Proof.
  intros Hs' Hcl Hi Ef. pose proof Hcl as [C1 C2 C3 C4 C5 C6 C7]. split; [done|done|done|intros; by apply (C7 x)|].
  intros f fl Hf. destruct (decide (f_inode fl = p)) as [E|E]; [|by rewrite C5].
  destruct C6 as [[Hno _]|(i' & Hi' & Hs & _)].
  - rewrite <- Ef in Hf. destruct (mi_files _ _ _ (si_mem _ _ _ Hs') f fl Hf) as [[j Hj] _]. congruence.
  - rewrite E, Hi', Hi. cbn. by rewrite Hs.
Qed.

Lemma files_written s s' L ex e off bs p i i' :
  write_step L ex 1 e off bs s s' → inodes s !! p = Some i → sector i' = sector i →
  same_files L s (set_inodes (<[p := i']> (inodes s')) s').
Proof.
  intros Hw Hi Hs. destruct (write_rest _ _ _ _ _ _ _ _ Hw) as (Edv & Ein & Ef & _ & Em). split; [done|done|done|..].
  - intros x f Hx _ H1. exact (wr_other _ _ _ _ _ _ _ _ Hw x f Hx H1).
  - intros f fl Hf. cbn [inodes set_inodes]. rewrite Ein. destruct (decide (f_inode fl = p)) as [->|E]; [|by rewrite lookup_insert_ne].
    rewrite lookup_insert_eq, Hi. cbn. by rewrite Hs.
Qed.

Lemma root_open_keep s s' d p :
  root_open s d p → dirs s' = dirs s → (∀ i, inodes s !! p = Some i → ∃ i', inodes s' !! p = Some i' ∧ sector i' = sector i) → root_open s' d p.
Proof.
  intros [R1 (i & Hi & Hs) R3] Ed Hk. split; [by rewrite Ed| |done]. destruct (Hk i Hi) as (i' & Hi' & Hs'). exists i'. split; [done|congruence].
Qed.

(** The loop-free part of [dir_remove], after the entry was found. *)
Lemma dir_remove_found s L D d p name sec :
  core_inv s L D [] → root_open s d p → few s 1 → D !! name = Some sec →
  ∃ s' L', dir_remove d name s = Ret (true, s') ∧ core_inv s' L' (delete name D) [] ∧ root_open s' d p ∧ same_files L' s s' ∧
    ∀ x e, L' !! x = Some e → L !! x = Some e.
Proof.
  intros Hc Hr Hf Hn. destruct (ro_inode _ _ _ Hr) as (i & Hi & Hs). destruct (core_root_at _ _ _ _ _ _ Hc Hi Hs) as (c & Hra & Hdi & e & He & Hl & Ec).
  destruct (lookup_run s L [] d (Dir p 0) c D name (root_open_lookup _ _ _ Hr) Hra Hdi) as (b & Hb & Hlk). rewrite Hn in Hlk. destruct Hlk as (j & Hj & El).
  pose proof (core_bump _ _ _ _ _ Hc Hb) as Hc1. pose proof (root_open_bump _ _ _ b Hr) as Hr1.
  unfold dir_remove. run_step El. pose proof Hj as (Hj16 & _ & _ & Es). rewrite Es. destruct (ci_named _ _ _ _ Hc name sec Hn) as (Hn0 & Hn1 & HL).
  destruct (core_open (bump b s) L D [] sec Hc1) as (q & s3 & E3 & Hq & Hc3 & Hv3 & [Ed3 _] & (k & Hk & Hks) & Hkp); [right; right; by exists name|done|exact Hf|].
  run_step E3. rewrite bool_decide_eq_false_2 by done.
  assert (root_open s3 d p) as Hr3 by (apply (root_open_keep _ _ _ _ Hr1 Ed3); intros i0 Hi0; by apply Hkp).
  run_step (gets_opt_Some (λ s, dirs s !! d) s3 _ (root_open_lookup _ _ _ Hr3)). cbn [d_inode].
  destruct (ro_inode _ _ _ Hr3) as (i3 & Hi3 & Hs3). assert (content s3 e = c) as Ec3 by (rewrite (sv_content _ _ _ Hv3 1 e); done).
  pose proof (length_slot c j (di_len _ _ Hdi) Hj16) as Hls. destruct (unused_entry_run _ Hls) as [Hlu Hu].
  destruct (root_write_run s3 L [q] p i3 e j (unused_entry (slot c j)) (ci_st _ _ _ _ Hc3) Hi3 Hs3 (root_undenied _ _ _ _ _ _ Hc3 Hi3 Hs3) He Hl Hj16 Hlu) as (s4 & E4 & Hw).
  rewrite swrap_id by lia. run_step E4. rewrite bool_decide_eq_true_2 by done. pose proof (write_rest _ _ _ _ _ _ _ _ Hw) as (_ & Ein & _ & Ed4 & _).
  rewrite <- Ec3 in Hj. pose proof (core_unname s3 s4 L D [q] e q k j name sec _ Hc3 Hn Hk Hks He Hj Hlu Hu Hw) as Hc5.
  pose proof (files_written s3 s4 L [q] e _ _ q k (with_removed true k) Hw Hk eq_refl) as Hf5.
  set (s5 := set_inodes (<[q := with_removed true k]> (inodes s4)) s4) in *.
  assert (inode_remove q s4 = Ret (tt, s5)) as E5.
  { unfold inode_remove. assert (inodes s4 !! q = Some k) as Hk4 by (by rewrite Ein). by run_step (gets_opt_Some (λ s, inodes s !! q) s4 k Hk4). }
  run_step E5. assert (inodes s5 !! q = Some (with_removed true k)) as Hk5 by apply lookup_insert_eq.
  assert (q ≠ p) as Hqp by congruence.
  destruct (inode_close_run s5 L [] q _ (ci_st _ _ _ _ Hc5) Hk5) as (s6 & L' & E6 & Hce & Hs6); [cbn; congruence|apply Hc5|].
  run_step E6. pose proof (close_exec_closed _ _ _ _ _ _ Hce) as Hcl. pose proof (ce_files _ _ _ _ _ _ Hce) as Ef6.
  destruct (core_closed s5 s6 L L' (delete name D) [q] [] q _ Hc5 Hs6 Hcl Hk5) as [Hc6 _]; [by rewrite Ef6|].
  assert (∀ x f, L' !! x = Some f → L !! x = Some f) as HLs.
  { intros x f. destruct (cl_L _ _ _ _ _ _ Hcl) as [-> |[_ ->]]; [done|]. by intros [_ ?]%lookup_delete_Some. }
  exists s6, L'. split_and!; [done|done| | |done].
  - apply (root_open_keep s3); [done|by rewrite (ce_dirs _ _ _ _ _ _ Hce)|]. intros i0 Hi0. exists i0. split; [|done].
    rewrite (cl_other _ _ _ _ _ _ Hcl) by done. unfold s5. cbn [inodes set_inodes]. by rewrite lookup_insert_ne, Ein by done.
  - apply (same_files_trans L L' s s5); [done| |by apply (files_closed _ _ L _ [] q (with_removed true k))].
    apply (same_files_trans L L s s3); [done| |done]. apply same_view_files. exact (same_view_trans _ _ _ _ (same_view_bump L b s) Hv3).
Qed.

Lemma filesys_remove_run s L D name :
  core_inv s L D [] → dirs s = ∅ → few s 4 →
  match D !! name with
  | Some sec => ∃ s' L', filesys_remove name s = Ret (true, s') ∧ core_inv s' L' (delete name D) [] ∧ dirs s' = ∅ ∧ same_files L' s s' ∧
      ∀ x e, L' !! x = Some e → L !! x = Some e
  | None => ∃ s', filesys_remove name s = Ret (false, s') ∧ core_inv s' L D [] ∧ dirs s' = ∅ ∧ same_view L s s'
  end.
Proof.
  intros Hc Hd Hf. destruct (dir_open_root_run s L D Hc Hd) as (d & p & s1 & E1 & Hc1 & Hv1 & Hr1 & _); [unfold few in *; lia|].
  unfold filesys_remove. run_step E1. rewrite bool_decide_eq_true_2 by apply Hr1.
  assert (few s1 1) as Hf1 by (apply (same_view_few L s _ 1); [done|right; exists d, p; apply Hr1|unfold few in *; lia|done]).
  destruct (D !! name) as [sec|] eqn:En.
  - destruct (dir_remove_found s1 L D d p name sec Hc1 Hr1 Hf1 En) as (s2 & L' & E2 & Hc2 & Hr2 & Hf2 & HL). run_step E2.
    destruct (dir_close_root s2 L' _ [] d p Hc2 Hr2) as (s3 & E3 & Hc3 & Hv3 & Hd3 & _). run_step E3.
    exists s3, L'. split_and!; [done|done|done| |done]. apply (same_files_trans L' L' s s2); [done| |by apply same_view_files].
    apply (same_files_trans L L' s s1); [done|by apply same_view_files|done].
  - destruct (ro_inode _ _ _ Hr1) as (i & Hi & Hs). destruct (core_root_at _ _ _ _ _ _ Hc1 Hi Hs) as (c & Hra & Hdi & _).
    destruct (lookup_run s1 L [] d (Dir p 0) c D name (root_open_lookup _ _ _ Hr1) Hra Hdi) as (b & Hb & Hlk). rewrite En in Hlk.
    unfold dir_remove. rewrite bind_assoc. run_step Hlk. rewrite ret_bind.
    destruct (dir_close_root (bump b s1) L D [] d p (core_bump _ _ _ _ _ Hc1 Hb) (root_open_bump _ _ _ b Hr1)) as (s3 & E3 & Hc3 & Hv3 & Hd3 & _). run_step E3.
    exists s3. split_and!; [done|done|done|]. exact (same_view_trans _ _ _ _ Hv1 (same_view_trans _ _ _ _ (same_view_bump L b s1) Hv3)).
Qed.

(** ** Creating *)

(** The disk, the free map and the memory in use change, but nothing that is in use. *)
Record quiet (L : gmap Z (Z * Z)) (s s' : fs) : Prop := {
  qt_rest : s' = set_disk (disk s') (bump (brk s') (set_map (free_map s') s));
  qt_brk : brk s ≤ brk s';
  qt_layout : layout s' L;
  qt_saved : saved s' L;
  qt_content : ∀ x e, L !! x = Some e → x ≠ 0 → content s' e = content s e
}.

Lemma mem_quiet s L ex d b m : mem_inv s L ex → brk s ≤ b → mem_inv (set_disk d (bump b (set_map m s))) L ex.
Proof.
  intros [H1 H2 H3 H4 H5 H6 H7 H8 H9 H10 H11] Hb. split; try done.
  - apply bump_ok. destruct H1 as [_ ?]. lia.
  - intros p Hp. cbn. specialize (H4 p Hp). lia.
Qed.

Lemma st_quiet s s' L L' ex :
  st_inv s L ex → s' = set_disk (disk s') (bump (brk s') (set_map (free_map s') s)) → brk s ≤ brk s' →
  (∀ x e, L !! x = Some e → L' !! x = Some e) → layout s' L' → saved s' L' → st_inv s' L' ex.
Proof.
  intros [_ Hm Hh _] Hr Hb HL Hl Hs. split; [done| | |done].
  - rewrite Hr. apply mem_quiet; [|done]. destruct Hm as [H1 H2 H3 H4 H5 H6 H7 H8 H9 H10 H11]. split; try done.
    intros p i Hi. destruct (H5 p i Hi) as (e & He & Hd). exists e. by split; [apply HL|].
  - rewrite Hr. destruct Hh as [?|(fl & i & e & F1 & F2 & F3 & F4 & F5 & F6 & F7 & F8)]; [by left|right]. exists fl, i, e. split_and!; try done. by apply HL.
Qed.

Lemma core_quiet s s' L D ex :
  core_inv s L D ex → quiet L s s' →
  core_inv s' L D ex ∧ same_view L s s' ∧ dirs s' = dirs s ∧ inodes s' = inodes s.
Proof.
  intros [H1 H2 H3 H4 H5 H6 H7 H8] [Q1 Q2 Q3 Q4 Q5].
  assert (files s' = files s ∧ dirs s' = dirs s ∧ free_map_file s' = free_map_file s ∧ dev_size s' = dev_size s ∧ inodes s' = inodes s) as (Ef & Ed & Em & Edv & Ein)
    by (by rewrite Q1).
  split_and!; [|split; try done; by rewrite Ein|done|done]. split; rewrite ?Ein, ?Ef, ?Em; try done.
  - by apply (st_quiet s s' L L).
  - destruct H3 as (e & He & Hl & Hd). exists e. by rewrite (Q5 1 e).
Qed.

Lemma map_step_quiet s s' L st cnt v :
  layout s L → map_step L st cnt v s s' →
  (v = true ∨ ∀ sec e x, L !! sec = Some e → secs sec e x → ¬ in_range st cnt x) → quiet L s s'.
Proof.
  intros Hl Hs Hv. split; [apply Hs|apply Hs|by apply (map_step_layout s _ _ st cnt v)|apply Hs|].
  intros x e He Hx. by apply (map_step_content s s' L st cnt v x e).
Qed.

Lemma bump_quiet s L D ex b : core_inv s L D ex → brk s ≤ b → quiet L s (bump b s).
Proof.
  intros Hc Hb. pose proof (st_mem_ok _ _ _ (ci_st _ _ _ _ Hc)) as [Hm _]. pose proof (st_bump _ _ _ _ (ci_st _ _ _ _ Hc) Hb) as [B1 _ _ B4].
  split; [|done|done|done|done]. by destruct s.
Qed.

Lemma quiet_trans s1 s2 s3 L : quiet L s1 s2 → quiet L s2 s3 → quiet L s1 s3.
Proof.
  intros [A1 A2 A3 A4 A5] [B1 B2 B3 B4 B5]. split; [|lia|done|done|].
  - clear -A1 B1. destruct s1, s2, s3. unfold set_disk, bump, set_mem, set_map in *. cbn in *. congruence.
  - intros x e He Hx. by rewrite (B5 x e), (A5 x e).
Qed.

Lemma dir_full c D : dir_inv c D → (∀ j, (j < 16)%nat → e_in_use (slot c j) = true) → (16 ≤ size D)%nat.
Proof.
  intros Hd Hall.
  assert (∀ n, (n ≤ 16)%nat → ∃ ns : list (list Z), length ns = n ∧ ∀ k x, ns !! k = Some x → ∃ sec, is_entry c k x sec) as Hns.
  { induction n as [|n IH]; intros Hn; [by exists []|]. destruct IH as (ns & Hl & Hk); [lia|].
    destruct (di_string _ _ Hd n ltac:(lia) (Hall n ltac:(lia))) as (x & Hx). exists (ns ++ [x]). rewrite length_app, Hl. split; [cbn; lia|].
    intros k y [Hy|[Hge Hy]]%lookup_app_Some; [by apply Hk|]. rewrite Hl in *. apply list_lookup_singleton_Some in Hy as [Hz <-].
    replace k with n by lia. exists (e_sector (slot c n)). split_and!; [lia|apply Hall; lia|done|done]. }
  destruct (Hns 16%nat ltac:(lia)) as (ns & Hl & Hk). assert (NoDup ns) as Hnd.
  { apply NoDup_alt. intros k k' x Hx Hx'. destruct (Hk k x Hx) as (a & Ha). destruct (Hk k' x Hx') as (a' & Ha'). by apply (di_one _ _ Hd k k' x a a'). }
  rewrite <- Hl, <- (size_dom D). rewrite <- (size_list_to_set (C := gset (list Z)) ns Hnd). apply subseteq_size. intros x Hx.
  apply elem_of_list_to_set, list_elem_of_lookup in Hx as (k & Hx). destruct (Hk k x Hx) as (sec & He). apply elem_of_dom. exists sec. apply (di_map _ _ Hd). by exists k.
Qed.

(** [dir_add] on the root directory. *)
Lemma dir_add_run s L ex d p c D e i junk name sec :
  root_open s d p → root_at s L ex p c → dir_inv c D → inodes s !! p = Some i → deny_write_cnt i = 0 →
  L !! 1 = Some e → content s e = c → length junk = 20%nat → is_name name → 0 ≤ sec < 2 ^ 32 →
  ∃ b s', brk s ≤ b ∧
    ((dir_add junk d name sec s = Ret (true, s') ∧ name ≠ [] ∧ (length name ≤ 14)%nat ∧ D !! name = None ∧
      ∃ j bs, write_step L ex 1 e (20 * Z.of_nat j) bs (bump b s) s' ∧ dir_inv (content s' e) (<[name := sec]> D)) ∨
     (dir_add junk d name sec s = Ret (false, s') ∧
      (name = [] ∨ (14 < length name)%nat ∨ is_Some (D !! name) ∨ (16 ≤ size D)%nat) ∧
      (s' = s ∨ s' = bump b s ∨ write_step L ex 1 e 320 [] (bump b s) s'))).
Proof.
  intros Hr Hra Hdi Hi Hden He Ec Hju Hnm Hsec. unfold dir_add. destruct (bool_decide (name = []) || bool_decide (Z.of_nat (length name) > NAME_MAX)) eqn:Ev.
  { exists (brk s), s. split; [done|]. right. split_and!; [done| |by left]. apply orb_true_iff in Ev as [Ev|Ev]; apply bool_decide_eq_true_1 in Ev; [by left|].
    right. left. unfold NAME_MAX in Ev. lia. }
  apply orb_false_iff in Ev as [Ev1 Ev2]. apply bool_decide_eq_false_1 in Ev1. apply bool_decide_eq_false_1 in Ev2. unfold NAME_MAX in Ev2.
  destruct (lookup_run s L ex d (Dir p 0) c D name (root_open_lookup _ _ _ Hr) Hra Hdi) as (b & Hb & Hlk).
  destruct (D !! name) as [x|] eqn:En.
  { destruct Hlk as (j & _ & El). run_step El. exists b, (bump b s). split; [done|]. right. split_and!; [done| |by right; left]. right. right. left. by eexists. }
  run_step Hlk. pose proof (root_bump _ _ _ _ _ _ Hra Hb) as Hra1.
  run_step (gets_opt_Some (λ s, dirs s !! d) (bump b s) _ (root_open_lookup _ _ _ (root_open_bump _ _ _ b Hr))). cbn [d_inode].
  run_step (root_fuel _ _ _ _ _ Hra1).
  destruct (slot_loop_run 18 (bump b s) L ex p c junk 0 Hra1 (di_len _ _ Hdi) Hju ltac:(lia) ltac:(lia)) as (b' & Hb' & Hsl). cbn in Hb'.
  assert (sector i = 1 ∧ e.2 = 320) as [Hs1 Hl].
  { destruct (ra_inode _ _ _ _ _ Hra) as (i' & e' & Hi' & ? & He' & ? & _). split; congruence. }
  pose proof (root_bump _ _ _ _ _ _ Hra1 Hb') as Hra2. change (bump b' (bump b s)) with (bump b' s) in *.
  exists b'. destruct Hsl as [(j & Hj & Hfree & E)|(Hall & e0 & He0 & E)].
  - run_step E. pose proof (length_slot c j (di_len _ _ Hdi) ltac:(lia)) as Hls.
    destruct (used_entry_run (slot c j) name sec Hls ltac:(lia) Hnm Hsec) as (Hlu & Hu & Hcs & Hes).
    destruct (root_write_run (bump b' s) L ex p i e j (used_entry (slot c j) name sec) (ra_st _ _ _ _ _ Hra2) Hi Hs1 Hden He Hl ltac:(lia) Hlu) as (s' & E' & Hw).
    run_step E'. exists s'. split; [lia|]. left. split_and!; [done|done|lia|done|]. exists j, (used_entry (slot c j) name sec). split; [done|].
    rewrite (wr_content _ _ _ _ _ _ _ _ Hw). replace (Z.to_nat (20 * Z.of_nat j)) with (20 * j)%nat by lia.
    change (content (bump b' s) e) with (content s e). rewrite Ec. apply dir_add_inv; try done. lia.
  - run_step E. rewrite <- Hs1 in He. destruct (write_run (bump b' s) L ex p i e (used_entry e0 name sec) 320 (ra_st _ _ _ _ _ Hra2) Hi He) as (s' & E' & Hw); [lia|done|lia|].
    assert (clamp e.2 (Z.of_nat (length (used_entry e0 name sec))) 320 = 0) as Ek by (unfold clamp; lia). rewrite Ek in E', Hw.
    run_step E'. exists s'. split; [lia|]. right. rewrite Hs1 in Hw. split_and!; [done| |by right; right]. right. right. right. apply (dir_full c D Hdi). intros j Hj. apply Hall. lia.
Qed.

Lemma core_create s s1 s' L D ex sec st len name b e off bs :
  core_inv s L D ex → L !! sec = None → sec ≠ 0 → sec ≠ 1 → D !! name = None →
  create_step L sec st len s s1 → L !! 1 = Some e →
  write_step (<[sec := (st, len)]> L) ex 1 e off bs (bump b s1) s' → dir_inv (content s' e) (<[name := sec]> D) →
  core_inv s' (<[sec := (st, len)]> L) (<[name := sec]> D) ex ∧ same_files L s s' ∧ content s' (st, len) = replicate (Z.to_nat len) 0 ∧
  dirs s' = dirs s ∧ inodes s' = inodes s.
Proof.
  intros [H1 H2 H3 H4 H5 H6 H7 H8] HLs H0 H01 Hn Hcs He Hw Hdi. destruct (write_rest _ _ _ _ _ _ _ _ Hw) as (Edv & Ein & Ef & Ed & Em).
  rewrite (cs_rest _ _ _ _ _ _ Hcs) in Edv, Ein, Ef, Ed, Em. cbn in Edv, Ein, Ef, Ed, Em.
  assert (∀ q i, inodes s !! q = Some i → sector i ≠ sec) as Hns.
  { intros q i Hi Hs. destruct (mi_node _ _ _ (si_mem _ _ _ H1) q i Hi) as (e' & He' & _). congruence. }
  assert (∀ n, D !! n ≠ Some sec) as Hnn by (intros n Hx; destruct (H4 n sec Hx) as (_ & _ & [? ?]); congruence).
  assert (∀ x, named (<[name := sec]> D) x ↔ named D x ∨ x = sec) as Hnm.
  { intros x. unfold named. split.
    - intros [?|[?|(n & [[_ ?]|[_ Hx]]%lookup_insert_Some)]]; [left; tauto..|by right|]. left. right. right. by exists n.
    - intros [[?|[?|(n & Hx)]]| ->]; [tauto|tauto| |].
      + right. right. exists n. rewrite lookup_insert_ne; congruence.
      + right. right. exists name. apply lookup_insert_eq. }
  split_and!; [| | |done|done].
  - split; rewrite ?Ein, ?Ef, ?Em.
    + apply Hw.
    + done.
    + destruct H3 as (e1 & He1 & Hl1 & _). assert (e1 = e) as -> by congruence. exists e. by rewrite lookup_insert_ne.
    + intros n x [[<- <-]|[_ Hx]]%lookup_insert_Some; [rewrite lookup_insert_eq; split_and!; [done|done|by eexists]|].
      destruct (H4 n x Hx) as (? & ? & ?). split_and!; [done|done|]. rewrite lookup_insert_ne; [done|]. intros <-. by destruct (Hnn n).
    + intros n n' x [[<- <-]|[_ Hx]]%lookup_insert_Some [[<- E]|[_ Hx']]%lookup_insert_Some; [done|..].
      * by destruct (Hnn n').
      * subst x. by destruct (Hnn n).
      * by apply (H5 n n' x).
    + intros q i Hi. rewrite (H6 q i Hi), Hnm. pose proof (Hns q i Hi). tauto.
    + intros x. rewrite Hnm. intros [<-|[_ Hx]]%lookup_insert_is_Some; [by left; right|]. destruct (H7 x Hx) as [?|?]; [by left; left|by right].
    + done.
  - split; [done|done|done| |by rewrite Ein]. intros x f Hx Hx0 Hx1.
    rewrite (wr_other _ _ _ _ _ _ _ _ Hw x f); [|by rewrite lookup_insert_ne by congruence|done]. by apply (cs_content _ _ _ _ _ _ Hcs x).
  - rewrite (wr_other _ _ _ _ _ _ _ _ Hw sec (st, len)); [apply Hcs|apply lookup_insert_eq|done].
Qed.

(** The sector taken for the inode. *)
Lemma fresh_sector s L sec :
  layout s L → bit_at (free_map s) sec = false → ∀ x e, L !! x = Some e → ¬ secs x e sec.
Proof. intros Hl Hb x e Hx Hs. pose proof (ly_used _ _ Hl x e sec Hx Hs). congruence. Qed.

(** If no run is left once the first free sector is taken, there was no longer run. *)
Lemma no_run_first s s' L sec n :
  map_step L sec 1 true s s' → 0 ≤ n → dev_size s' = dev_size s →
  (∀ st', 0 ≤ st' → st' + 1 ≤ dev_size s → (∀ x, st' ≤ x < st' + 1 → bit_at (free_map s) x = false) → sec ≤ st') →
  no_run s' n → no_run s (n + 1).
Proof.
  intros Hs Hn Ed Hmin Hno st Hst Hle. destruct (bit_at (free_map s) st) eqn:Eb; [exists st; split; [lia|done]|].
  assert (sec ≤ st) by (apply Hmin; [done|lia|]; intros x Hx; by replace x with st by lia).
  destruct (Hno (st + 1)) as (x & Hx & Hbx); [lia|lia|]. exists x. split; [lia|].
  rewrite (ms_bits _ _ _ _ _ _ Hs) in Hbx by lia. rewrite decide_False in Hbx; [done|]. unfold in_range. lia.
Qed.

(** Undoing a failed creation: the sector taken for the inode is released. *)
Lemma release_sector s L D d p sec :
  core_inv s L D [] → root_open s d p → 0 < sec < dev_size s → bit_at (free_map s) sec = true → (∀ x e, L !! x = Some e → ¬ secs x e sec) →
  ∃ s', ((if bool_decide (sec ≠ 0) then free_map_release sec 1 else mret tt);; dir_close d;; mret false) s = Ret (false, s') ∧
    core_inv s' L D [] ∧ dirs s' = ∅ ∧ same_view L s s'.
Proof.
  intros Hc Hr Hsec Hb Hown. pose proof (ci_st _ _ _ _ Hc) as Hst. rewrite bool_decide_eq_true_2 by lia.
  assert (∀ x, in_range sec 1 x → x = sec) as Hone by (unfold in_range; lia).
  assert (∀ x e y, L !! x = Some e → secs x e y → ¬ in_range sec 1 y) as Hap by (intros x e y Hx Hy Hin; apply Hone in Hin as ->; by apply (Hown x e)).
  destruct (free_map_release_run s L sec 1 (st_mem_ok _ _ _ Hst) (si_lay _ _ _ Hst) (si_home _ _ _ Hst) (ci_mapf _ _ _ _ Hc)) as (s1 & E & Hms); [lia|lia|lia| |done|].
  { intros x Hx. by rewrite (Hone x Hx). }
  run_step E. destruct (core_quiet s s1 L D [] Hc) as (Hc1 & Hv1 & Ed1 & Ei1).
  { apply (map_step_quiet s s1 L sec 1 false); [apply Hst|done|by right]. }
  destruct (dir_close_root s1 L D [] d p Hc1) as (s2 & E2 & Hc2 & Hv2 & Hd2 & _).
  { apply (root_open_keep s); [done|done|]. intros i Hi. exists i. by rewrite Ei1. }
  run_step E2. exists s2. split_and!; [done|done|done|]. by apply (same_view_trans _ _ s1).
Qed.

Definition bad_name (D : gmap (list Z) Z) (name : list Z) : Prop :=
  name = [] ∨ (14 < length name)%nat ∨ is_Some (D !! name) ∨ (16 ≤ size D)%nat.

(** A file was made: [L'] and [D'] have it, and it is full of zeros. *)
Record made (name : list Z) (len : Z) (L : gmap Z (Z * Z)) (D : gmap (list Z) Z) (s s' : fs) (sec st : Z) : Prop := {
  mk_core : core_inv s' (<[sec := (st, len)]> L) (<[name := sec]> D) [];
  mk_files : same_files L s s';
  mk_zero : content s' (st, len) = replicate (Z.to_nat len) 0;
  mk_fresh : L !! sec = None ∧ sec ≠ 0 ∧ sec ≠ 1;
  mk_name : name ≠ [] ∧ (length name ≤ 14)%nat ∧ D !! name = None
}.

Lemma rest_trans s s1 t :
  s1 = set_disk (disk s1) (bump (brk s1) (set_map (free_map s1) s)) → t = set_disk (disk t) (bump (brk t) s1) →
  t = set_disk (disk t) (bump (brk t) (set_map (free_map t) s)).
Proof. destruct s, s1, t. unfold set_disk, bump, set_mem, set_map. cbn. congruence. Qed.

(** [dir_add] failed: nothing in use has changed. *)
Lemma add_failed s s1 s' L D sec st len b e :
  core_inv s L D [] → L !! sec = None → sec ≠ 0 → create_step L sec st len s s1 → brk s1 ≤ b → L !! 1 = Some e →
  (s' = s1 ∨ s' = bump b s1 ∨ write_step (<[sec := (st, len)]> L) [] 1 e 320 [] (bump b s1) s') → quiet L s s' ∧ free_map s' = free_map s1.
Proof.
  intros Hc HL H0 Hcs Hb He Hs'. set (L' := <[sec := (st, len)]> L) in *.
  assert (st_inv s1 L' []) as Hst1.
  { apply (st_quiet s s1 L L' []); [apply Hc|apply Hcs|apply Hcs| |apply Hcs|apply Hcs]. intros x f Hx. unfold L'. rewrite lookup_insert_ne; congruence. }
  assert (delete sec L' = L) as HdL by (apply delete_insert_id; exact HL).
  assert (∀ t, st_inv t L' [] → t = set_disk (disk t) (bump (brk t) s1) → brk s1 ≤ brk t → (∀ x f, L' !! x = Some f → content t f = content s1 f) →
    quiet L s t ∧ free_map t = free_map s1) as Hall.
  { intros t Ht Hr Hbt Hcn. assert (free_map t = free_map s1) as Em by (by rewrite Hr). split; [|done]. split.
    - exact (rest_trans _ _ _ (cs_rest _ _ _ _ _ _ Hcs) Hr).
    - pose proof (cs_brk _ _ _ _ _ _ Hcs). lia.
    - rewrite <- HdL. apply layout_delete, Ht.
    - rewrite <- HdL. apply saved_delete; [apply Ht|done].
    - intros x f Hx Hx0. rewrite (Hcn x f); [|unfold L'; rewrite lookup_insert_ne; congruence]. by apply (cs_content _ _ _ _ _ _ Hcs x). }
  destruct Hs' as [-> |[-> |Hw]]; apply Hall.
  - done.
  - rewrite (bump_self s1 (st_mem_ok _ _ _ Hst1)). by destruct s1.
  - lia.
  - done.
  - by apply st_bump.
  - by destruct s1.
  - done.
  - done.
  - apply Hw.
  - rewrite (wr_rest _ _ _ _ _ _ _ _ Hw) at 1. done.
  - pose proof (wr_brk _ _ _ _ _ _ _ _ Hw) as Hwb. cbn in Hwb. lia.
  - intros x f Hx. destruct (decide (x = 1)) as [->|Hx1]; [|by apply (wr_other _ _ _ _ _ _ _ _ Hw x)].
    assert (f = e) as -> by (unfold L' in Hx; rewrite lookup_insert_ne in Hx by congruence; congruence). rewrite (wr_content _ _ _ _ _ _ _ _ Hw). apply patch_nil.
Qed.

Section create.
Context (junk name : list Z) (len : Z).
Hypothesis Hjunk : length junk = 20%nat.
Hypothesis Hname : is_name name.
Hypothesis Hlen : 0 ≤ len < 2 ^ 31 - 512.

(** The part of [filesys_create] after a sector was found for the inode. *)
Definition create_tail (d sec : Z) : M fs bool :=
  success ← (ok ← inode_create sec len; if (ok : bool) then dir_add junk d name sec else mret false);
  (if (success : bool) then mret tt
   else if bool_decide (sec ≠ 0) then free_map_release sec 1 else mret tt);;
  dir_close d;;
  mret success.

Lemma create_tail_run s L D d p sec :
  core_inv s L D [] → root_open s d p → 0 < sec < dev_size s → sec ≠ 1 → bit_at (free_map s) sec = true →
  (∀ x e, L !! x = Some e → ¬ secs x e sec) →
  ∃ s', dirs s' = ∅ ∧
    ((∃ st, create_tail d sec s = Ret (true, s') ∧ made name len L D s s' sec st) ∨
     (create_tail d sec s = Ret (false, s') ∧ core_inv s' L D [] ∧ same_view L s s' ∧ (bad_name D name ∨ no_run s (nsec len)))).
Proof.
  intros Hc Hr Hsec H1 Hb Hown. pose proof (ci_st _ _ _ _ Hc) as Hst. unfold create_tail.
  assert (L !! sec = None) as HL by (destruct (L !! sec) as [e|] eqn:E; [destruct (Hown sec e E); by left|done]).
  assert (dev_size s < 2 ^ 32) as Hd32 by (rewrite <- (ly_cnt _ _ (si_lay _ _ _ Hst)); pose proof (bm_cnt _ (ly_map _ _ (si_lay _ _ _ Hst))); lia).
  destruct (inode_create_run s L sec len (st_mem_ok _ _ _ Hst) (si_lay _ _ _ Hst) (si_home _ _ _ Hst) Hlen ltac:(lia) ltac:(left; lia) Hown Hb)
    as [(st & s1 & E1 & Hcs)|[E1 Hno]].
  2:{ rewrite bind_assoc. run_step E1. rewrite ret_bind. cbn beta iota.
      destruct (core_quiet s (bump (brk s + 1) s) L D [] Hc) as (Hc1 & Hv1 & _); [apply (bump_quiet s L D []); [done|lia]|].
      destruct (release_sector _ L D d p sec Hc1 (root_open_bump _ _ _ _ Hr) Hsec Hb Hown) as (s2 & E2 & Hc2 & Hd2 & Hv2).
      exists s2. split; [done|]. right. split_and!; [done|done|by apply (same_view_trans _ _ (bump (brk s + 1) s))|by right]. }
  rewrite bind_assoc. run_step E1. destruct (ro_inode _ _ _ Hr) as (i & Hi & Hs).
  destruct (core_root_at _ _ _ _ _ _ Hc Hi Hs) as (c & Hra & Hdi & e & He & Hl & Ec).
  set (L' := <[sec := (st, len)]> L) in *. assert (L' !! 1 = Some e) as He' by (unfold L'; by rewrite lookup_insert_ne).
  assert (inodes s1 = inodes s ∧ dirs s1 = dirs s) as [Ein1 Ed1] by (by rewrite (cs_rest _ _ _ _ _ _ Hcs)).
  assert (st_inv s1 L' []) as Hst1.
  { apply (st_quiet s s1 L L' []); [done|apply Hcs|apply Hcs| |apply Hcs|apply Hcs]. intros x f Hx. unfold L'. rewrite lookup_insert_ne; congruence. }
  assert (content s1 e = c) as Ec1 by (rewrite <- Ec; by apply (cs_content _ _ _ _ _ _ Hcs 1)).
  assert (root_open s1 d p) as Hr1 by (apply (root_open_keep s); [done|done|intros i0 Hi0; exists i0; by rewrite Ein1]).
  destruct (dir_add_run s1 L' [] d p c D e i junk name sec) as (b & s2 & Hb2 & [(E2 & Hn1 & Hn2 & Hn3 & j & bs & Hw & Hd2)|(E2 & Hbad & Hs2)]);
    [done|split; [done|exists i, e; by rewrite Ein1]|done|by rewrite Ein1|by apply (root_undenied s L D [] p i)|done|done|done|done|lia|..]; run_step E2.
  - rewrite ret_bind. destruct (core_create s s1 s2 L D [] sec st len name b e _ bs Hc HL ltac:(lia) H1 Hn3 Hcs He Hw Hd2) as (Hc2 & Hf2 & Hz2 & Ed2 & Ei2).
    destruct (dir_close_root s2 L' _ [] d p Hc2) as (s3 & E3 & Hc3 & Hv3 & Hd3 & _).
    { apply (root_open_keep s); [done|done|]. intros i0 Hi0. exists i0. by rewrite Ei2. }
    run_step E3. exists s3. split; [done|]. left. exists st. split; [done|]. assert (same_files L' s2 s3) as Hv3' by (by apply same_view_files).
    split; [done| | |split_and!; [done|lia|done]|done].
    + destruct Hv3' as [V1 V2 V3 V4 V5]. apply (same_files_trans L L s s2); [done|done|]. split; try done. intros x f Hx. apply (V4 x). unfold L'. rewrite lookup_insert_ne; congruence.
    + rewrite (sv_content _ _ _ Hv3 sec); [done|apply lookup_insert_eq|lia].
  - destruct (add_failed s s1 s2 L D sec st len b e Hc HL ltac:(lia) Hcs Hb2 He Hs2) as [Hq Em]. destruct (core_quiet s s2 L D [] Hc Hq) as (Hc2 & Hv2 & Ed2 & Ei2).
    destruct (release_sector s2 L D d p sec Hc2) as (s3 & E3 & Hc3 & Hd3 & Hv3).
    + apply (root_open_keep s); [done|done|]. intros i0 Hi0. exists i0. by rewrite Ei2.
    + by rewrite (sv_dev _ _ _ Hv2).
    + rewrite Em. rewrite (cs_bits _ _ _ _ _ _ Hcs) by lia. by case_decide.
    + done.
    + exists s3. split; [done|]. right. split_and!; [done|done|by apply (same_view_trans _ _ s2)|by left].
Qed.

Lemma filesys_create_run s L D :
  core_inv s L D [] → dirs s = ∅ → few s 4 →
  ∃ s', dirs s' = ∅ ∧
    ((∃ sec st, filesys_create junk name len s = Ret (true, s') ∧ made name len L D s s' sec st) ∨
     (filesys_create junk name len s = Ret (false, s') ∧ core_inv s' L D [] ∧ same_view L s s' ∧ (bad_name D name ∨ no_run s (nsec len + 1)))).
Proof.
  intros Hc Hd Hf. pose proof (nsec_bounds len ltac:(lia)) as [_ Hn0].
  destruct (dir_open_root_run s L D Hc Hd) as (d & p & s1 & E1 & Hc1 & Hv1 & Hr1 & Em); [unfold few in *; lia|].
  unfold filesys_create. run_step E1. rewrite bool_decide_eq_true_2 by apply Hr1. pose proof (ci_st _ _ _ _ Hc1) as Hst.
  assert (∀ n, no_run s1 n → no_run s n) as Hnr by (intros n; unfold no_run; by rewrite Em, (sv_dev _ _ _ Hv1)).
  destruct (free_map_allocate_run s1 L 1 (st_mem_ok _ _ _ Hst) (si_lay _ _ _ Hst) (si_home _ _ _ Hst) ltac:(lia))
    as [(sec & s2 & E2 & Hsec & Hle & Hfree & Hms & Hmin)|[E2 Hno]]; run_step E2.
  2:{ rewrite ret_bind. cbn beta iota. cbn [default from_option]. rewrite bool_decide_eq_false_2 by tauto. rewrite ret_bind.
      destruct (dir_close_root s1 L D [] d p Hc1 Hr1) as (s3 & E3 & Hc3 & Hv3 & Hd3 & _). run_step E3. exists s3. split; [done|]. right.
      split_and!; [done|done|by apply (same_view_trans _ _ s1)|]. right. apply Hnr. intros st Hst0 Hst1. destruct (Hno st) as (x & Hx & Hbx); [lia|lia|].
      exists x. split; [lia|done]. }
  assert (bit_at (free_map s1) sec = false) as Hb by (apply Hfree; lia). pose proof (fresh_sector s1 L sec (si_lay _ _ _ Hst) Hb) as Hown.
  assert (is_Some (L !! 0)) as [e0 He0] by (destruct (si_home _ _ _ Hst) as [E|(? & ? & e0 & _ & _ & _ & _ & _ & ? & _)]; [by destruct (ci_mapf _ _ _ _ Hc1)|by exists e0]).
  destruct (ci_root _ _ _ _ Hc1) as (e1 & He1 & _).
  assert (sec ≠ 0) by (intros ->; apply (Hown 0 e0 He0); by left). assert (sec ≠ 1) by (intros ->; apply (Hown 1 e1 He1); by left).
  destruct (core_quiet s1 s2 L D [] Hc1) as (Hc2 & Hv2 & Ed2 & Ei2); [apply (map_step_quiet s1 s2 L sec 1 true); [apply Hst|done|by left]|].
  destruct (create_tail_run s2 L D d p sec Hc2) as (s3 & Hd3 & H3).
  { apply (root_open_keep s1); [done|done|]. intros i0 Hi0. exists i0. by rewrite Ei2. }
  { rewrite (sv_dev _ _ _ Hv2). lia. }
  { done. }
  { rewrite (ms_bits _ _ _ _ _ _ Hms) by done. rewrite decide_True; [done|]. unfold in_range. lia. }
  { done. }
  exists s3. split; [done|]. pose proof (same_view_trans _ _ _ _ Hv1 Hv2) as Hv. destruct H3 as [(st & E3 & Hmk)|(E3 & Hc3 & Hv3 & Hbad)].
  - left. exists sec, st. split; [exact E3|]. destruct Hmk as [M1 M2 M3 M4 M5]. split; try done. by apply (same_files_trans L L s s2); [|apply same_view_files|].
  - right. split_and!; [exact E3|done|by apply (same_view_trans _ _ s2)|]. destruct Hbad as [?|Hno]; [by left|right]. apply Hnr.
    by apply (no_run_first s1 s2 L sec); [|lia|rewrite (sv_dev _ _ _ Hv2)|..].
Qed.
End create.
