(* ===== verification/FileSysSpec.v ===== *)
(** * FileSysSpec: the file system refines a map of names and a table of open files

    The abstract state has the names with the identity of their files (the inode
    number), the data of every file that has a name or is open, and the open files.
    [fspec] says what each operation may answer and do.  Every operation of the file
    system, on a disk and a memory of any contents that the invariant allows, returns
    and does what [fspec] says. *)

From S2P Require Import Prelude Bitmap FileSys FileSysIO FileSysInv FileSysMem FileSysFiles FileSysDir FileSysOps FileSysNames.

Record afile := AFile { af_id : Z; af_pos : Z; af_deny : bool }.
Record astate := AState { a_names : gmap (list Z) Z; a_data : gmap Z (list Z); a_files : gmap Z afile }.

Inductive fop :=
| FCreate (name : list Z) (size : Z)
| FRemove (name : list Z)
| FOpen (name : list Z)
| FReopen (f : Z)
| FClose (f : Z)
| FRead (f size : Z)
| FWrite (f : Z) (bs : list Z)
| FSeek (f pos : Z)
| FTell (f : Z)
| FLength (f : Z)
| FDeny (f : Z)
| FAllow (f : Z).

Inductive fres :=
| RBool (b : bool)
| RNum (n : Z)
| RData (bs : list Z)
| RUnit.

Definition run_op (junk : list Z) (op : fop) : M fs fres :=
  match op with
  | FCreate name size => b ← filesys_create junk name size; mret (RBool b)
  | FRemove name => b ← filesys_remove name; mret (RBool b)
  | FOpen name => f ← filesys_open name; mret (RNum f)
  | FReopen f => g ← file_reopen f; mret (RNum g)
  | FClose f => file_close f;; mret RUnit
  | FRead f size => bs ← file_read f size; mret (RData bs)
  | FWrite f bs => n ← file_write f bs; mret (RNum n)
  | FSeek f pos => file_seek f pos;; mret RUnit
  | FTell f => n ← file_tell f; mret (RNum n)
  | FLength f => n ← file_length f; mret (RNum n)
  | FDeny f => file_deny_write f;; mret RUnit
  | FAllow f => file_allow_write f;; mret RUnit
  end.

(** ** The specification *)

(** The files that have a name or are open. *)
Definition a_live (D : gmap (list Z) Z) (F : gmap Z afile) : gset Z := map_img D ∪ map_img (af_id <$> F).

Definition gc (a : astate) : astate :=
  AState (a_names a) (filter (λ kv, kv.1 ∈ a_live (a_names a) (a_files a)) (a_data a)) (a_files a).

Definition denied (a : astate) (id : Z) : bool := bool_decide (map_Exists (λ _ g, af_id g = id ∧ af_deny g = true) (a_files a)).

Definition on_files (F : gmap Z afile) (a : astate) : astate := AState (a_names a) (a_data a) F.
Definition move (f : Z) (g : afile) (pos : Z) (a : astate) : astate := on_files (<[f := AFile (af_id g) pos (af_deny g)]> (a_files a)) a.
Definition set_deny (f : Z) (g : afile) (b : bool) (a : astate) : astate := on_files (<[f := AFile (af_id g) (af_pos g) b]> (a_files a)) a.

Definition new_file (f id : Z) (a : astate) (r : fres) (a' : astate) : Prop :=
  a_files a !! f = None ∧ f ≠ 0 ∧ r = RNum f ∧ a' = on_files (<[f := AFile id 0 false]> (a_files a)) a.

Definition good_name (name : list Z) : Prop := name ≠ [] ∧ (length name ≤ 14)%nat.

(** What [op] may answer and do in the state [a]. *)
Definition fspec (a : astate) (op : fop) (r : fres) (a' : astate) : Prop :=
  match op with
  | FCreate name size =>
    (∃ id, good_name name ∧ a_names a !! name = None ∧ a_data a !! id = None ∧ r = RBool true ∧
       a' = AState (<[name := id]> (a_names a)) (<[id := replicate (Z.to_nat size) 0]> (a_data a)) (a_files a)) ∨
    (r = RBool false ∧ a' = a)
  | FRemove name =>
    match a_names a !! name with
    | Some _ => r = RBool true ∧ a' = gc (AState (delete name (a_names a)) (a_data a) (a_files a))
    | None => r = RBool false ∧ a' = a
    end
  | FOpen name =>
    match a_names a !! name with
    | Some id => ∃ f, new_file f id a r a'
    | None => r = RNum 0 ∧ a' = a
    end
  | FReopen f => ∃ g h, a_files a !! f = Some g ∧ new_file h (af_id g) a r a'
  | FClose f => r = RUnit ∧ a' = gc (AState (a_names a) (a_data a) (delete f (a_files a)))
  | FRead f size => ∃ g c, a_files a !! f = Some g ∧ a_data a !! af_id g = Some c ∧
      let bs := take (Z.to_nat size) (drop (Z.to_nat (af_pos g)) c) in
      r = RData bs ∧ a' = move f g (af_pos g + Z.of_nat (length bs)) a
  | FWrite f bs => ∃ g c, a_files a !! f = Some g ∧ a_data a !! af_id g = Some c ∧
      let n := if denied a (af_id g) then 0 else clamp (Z.of_nat (length c)) (Z.of_nat (length bs)) (af_pos g) in
      r = RNum n ∧
      a' = move f g (af_pos g + n)
             (AState (a_names a) (<[af_id g := patch c (Z.to_nat (af_pos g)) (take (Z.to_nat n) bs)]> (a_data a)) (a_files a))
  | FSeek f pos => ∃ g, a_files a !! f = Some g ∧ r = RUnit ∧ a' = move f g pos a
  | FTell f => ∃ g, a_files a !! f = Some g ∧ r = RNum (af_pos g) ∧ a' = a
  | FLength f => ∃ g c, a_files a !! f = Some g ∧ a_data a !! af_id g = Some c ∧ r = RNum (Z.of_nat (length c)) ∧ a' = a
  | FDeny f => ∃ g, a_files a !! f = Some g ∧ r = RUnit ∧ a' = set_deny f g true a
  | FAllow f => ∃ g, a_files a !! f = Some g ∧ r = RUnit ∧ a' = set_deny f g false a
  end.

(** What a caller may ask: handles are open, positions and sizes are in range, and there
    are not two billion open files. *)
Definition op_ok (a : astate) (op : fop) : Prop :=
  match op with
  | FCreate name size => is_name name ∧ 0 ≤ size < 2 ^ 31 - 512
  | FRemove _ | FOpen _ => True
  | FSeek f pos => is_Some (a_files a !! f) ∧ 0 ≤ pos < 2 ^ 31
  | FReopen f | FClose f | FRead f _ | FWrite f _ | FTell f | FLength f | FDeny f | FAllow f => is_Some (a_files a !! f)
  end ∧ Z.of_nat (size (a_files a)) < 2 ^ 31 - 8.

(** ** The abstraction *)

Definition file_at (s : fs) (f : Z) : option afile :=
  if decide (f = free_map_file s) then None else
  fl ← files s !! f; i ← inodes s !! f_inode fl; Some (AFile (sector i) (f_pos fl) (f_deny_write fl)).

Definition data_at (s : fs) (L : gmap Z (Z * Z)) (x : Z) : option (list Z) :=
  if decide (x = 0 ∨ x = 1) then None else content s <$> L !! x.

Record models_at (s : fs) (a : astate) (L : gmap Z (Z * Z)) : Prop := {
  md_core : core_inv s L (a_names a) [];
  md_dirs : dirs s = ∅;
  md_data : ∀ x, a_data a !! x = data_at s L x;
  md_files : ∀ f, a_files a !! f = file_at s f
}.

Definition models (s : fs) (a : astate) : Prop := ∃ L, models_at s a L.

(** ** Facts of the abstraction *)

Lemma file_at_Some s f g :
  file_at s f = Some g ↔ f ≠ free_map_file s ∧ ∃ fl i, files s !! f = Some fl ∧ inodes s !! f_inode fl = Some i ∧ g = AFile (sector i) (f_pos fl) (f_deny_write fl).
Proof.
  unfold file_at. case_decide as E; [split; [done|by intros [? _]]|]. split.
  - destruct (files s !! f) as [fl|]; [|done]. cbn. destruct (inodes s !! f_inode fl) as [i|] eqn:Ei; [|done]. cbn. intros [= <-]. split; [done|]. by exists fl, i.
  - intros (_ & fl & i & -> & Hi & ->). cbn. by rewrite Hi.
Qed.

Lemma file_at_frame s s' f :
  files s' !! f = files s !! f → free_map_file s' = free_map_file s →
  (∀ fl, files s !! f = Some fl → sector <$> inodes s' !! f_inode fl = sector <$> inodes s !! f_inode fl) → file_at s' f = file_at s f.
Proof.
  intros Ef Em Es. unfold file_at. rewrite Ef, Em. case_decide; [done|]. destruct (files s !! f) as [fl|] eqn:E; [|done]. cbn. specialize (Es fl eq_refl).
  destruct (inodes s' !! f_inode fl) as [i'|], (inodes s !! f_inode fl) as [i|]; cbn in *; congruence.
Qed.

Lemma same_files_at L s s' f : same_files L s s' → file_at s' f = file_at s f.
Proof. intros [V1 V2 _ _ V5]. apply file_at_frame; [by rewrite V1|done|]. intros fl Hf. by apply (V5 f). Qed.

Lemma same_files_data L L' s s' : same_files L' s s' → (∀ x e, L' !! x = Some e → L !! x = Some e) → ∀ x, is_Some (L' !! x) → data_at s' L' x = data_at s L x.
Proof.
  intros Hv HL x [e He]. unfold data_at. case_decide as E; [done|]. rewrite He, (HL x e He). cbn. f_equal. apply (sf_content _ _ _ Hv x); [done|tauto..].
Qed.

Section models.
Context (s : fs) (a : astate) (L : gmap Z (Z * Z)) (Hm : models_at s a L).

(** What the invariant says of an open file. *)
Record handle (f : Z) (g : afile) (fl : file) (i : inode) (e : Z * Z) : Prop := {
  hd_file : files s !! f = Some fl;
  hd_inode : inodes s !! f_inode fl = Some i;
  hd_abs : g = AFile (sector i) (f_pos fl) (f_deny_write fl);
  hd_user : f ≠ free_map_file s;
  hd_sector : sector i ≠ 0 ∧ sector i ≠ 1;
  hd_ext : L !! sector i = Some e;
  hd_disk : data i = InodeDisk e.1 e.2 INODE_MAGIC;
  hd_len : 0 ≤ e.2 < 2 ^ 31 - 512;
  hd_pos : 0 ≤ f_pos fl < 2 ^ 31;
  hd_data : a_data a !! sector i = Some (content s e)
}.

Lemma handle_of f g : a_files a !! f = Some g → ∃ fl i e, handle f g fl i e.
Proof.
  rewrite (md_files _ _ _ Hm). intros (Hne & fl & i & Hf & Hi & Hg)%file_at_Some. pose proof (md_core _ _ _ Hm) as Hc.
  pose proof (ci_st _ _ _ _ Hc) as Hst. destruct (ci_files _ _ _ _ Hc f fl i Hf Hi Hne) as [H0 H1].
  destruct (open_ext _ _ _ _ _ Hst Hi) as (e & He & Hd & Hex & Hok). exists fl, i, e. rewrite Hex in Hok. split; try done.
  - by destruct Hok as (_ & ? & _).
  - by destruct (mi_files _ _ _ (si_mem _ _ _ Hst) f fl Hf).
  - rewrite (md_data _ _ _ Hm). unfold data_at. rewrite decide_False by tauto. by rewrite He.
Qed.

Lemma models_few : Z.of_nat (size (a_files a)) < 2 ^ 31 - 8 → few s 4.
Proof.
  intros Hlt. unfold few. rewrite (md_dirs _ _ _ Hm), map_size_empty.
  assert (size (files s) ≤ S (size (a_files a)))%nat; [|lia].
  rewrite <- !size_dom. transitivity (size (dom (a_files a) ∪ {[ free_map_file s ]})).
  - apply subseteq_size. intros f Hf. apply elem_of_union. destruct (decide (f = free_map_file s)) as [->|Hne]; [right; by apply elem_of_singleton|left].
    apply elem_of_dom in Hf as [fl Hf]. destruct (mi_files _ _ _ (si_mem _ _ _ (ci_st _ _ _ _ (md_core _ _ _ Hm))) f fl Hf) as [[i Hi] _].
    apply elem_of_dom. exists (AFile (sector i) (f_pos fl) (f_deny_write fl)). rewrite (md_files _ _ _ Hm). apply file_at_Some. split; [done|]. by exists fl, i.
  - rewrite size_union_alt. pose proof (subseteq_size ({[ free_map_file s ]} ∖ dom (a_files a)) {[ free_map_file s ]} ltac:(set_solver)) as H. rewrite size_singleton in H. lia.
Qed.
End models.

(** A file is in use when it has a name or is open. *)
Lemma live_iff s L D F x :
  core_inv s L D [] → dirs s = ∅ → (∀ f, F !! f = file_at s f) → x ≠ 0 → x ≠ 1 →
  is_Some (L !! x) ↔ x ∈ a_live D F.
Proof.
  intros Hc Hd HF H0 H1. unfold a_live. rewrite elem_of_union, !elem_of_map_img. pose proof (si_mem _ _ _ (ci_st _ _ _ _ Hc)) as Hmi. split.
  - intros Hx. destruct (ci_live _ _ _ _ Hc x Hx) as [[?|[?|?]]|(p & i & Hi & Hs)]; [done|done|by left|right].
    destruct (mi_cnt _ _ _ Hmi p i Hi) as (Hcnt & Hpos & _). assert (refs s p ≠ 0) as Hr by (change (occ p []) with 0 in Hcnt; lia).
    unfold refs in Hr. rewrite Hd in Hr. assert (sum_map (λ d, at_inode p (d_inode d)) (∅ : gmap Z dir) = 0) as Hz by done. rewrite Hz, Z.add_0_r in Hr.
    destruct (sum_nonzero _ _ Hr) as (f & fl & Hf & Hat). unfold at_inode in Hat. case_bool_decide as Ep; [|done].
    exists f. rewrite lookup_fmap, HF. assert (f ≠ free_map_file s) as Hne.
    { intros ->. destruct (si_home _ _ _ (ci_st _ _ _ _ Hc)) as [E|(fl' & i' & e & Hf' & Hi' & _ & Hs' & _)]; [by apply (ci_mapf _ _ _ _ Hc)|]. congruence. }
    rewrite (proj2 (file_at_Some s f _)) by (split; [exact Hne|]; exists fl, i; by rewrite Ep). cbn. by rewrite Hs.
  - intros [(n & Hn)|(f & Hf)]; [by apply (ci_named _ _ _ _ Hc n)|]. rewrite lookup_fmap, HF in Hf.
    destruct (file_at s f) as [g|] eqn:Eg; [|done]. cbn in Hf. injection Hf as <-. apply file_at_Some in Eg as (_ & fl & i & _ & Hi & ->).
    destruct (mi_node _ _ _ Hmi _ _ Hi) as (e & He & _). by exists e.
Qed.

(** Removing a name or a handle: what is then not in use is freed. *)
Lemma models_gc s s' a L L' D F :
  models_at s a L → core_inv s' L' D [] → dirs s' = ∅ → (∀ f, F !! f = file_at s' f) →
  (∀ x e, L' !! x = Some e → L !! x = Some e) → (∀ x, is_Some (L' !! x) → data_at s' L' x = data_at s L x) →
  models s' (gc (AState D (a_data a) F)).
Proof.
  intros Hm Hc Hd HF HL Hcon. exists L'. split; [done|done| |done]. intros x. cbn [a_data gc a_names a_files].
  apply option_eq. intros c. rewrite map_lookup_filter_Some. cbn [fst]. rewrite (md_data _ _ _ Hm).
  destruct (decide (x = 0 ∨ x = 1)) as [E|E]. { unfold data_at. rewrite !decide_True by done. by split; [intros [? _]|]. }
  rewrite <- (live_iff s' L' D F x Hc Hd HF) by tauto. split.
  - intros [Hx Hs]. by rewrite Hcon.
  - intros Hx. assert (is_Some (L' !! x)) as Hs. { unfold data_at in Hx. rewrite decide_False in Hx by done. destruct (L' !! x); [by eexists|done]. }
    by rewrite <- Hcon.
Qed.

(** ** The operations *)

Definition step_ok (junk : list Z) (s : fs) (a : astate) (op : fop) : Prop :=
  ∃ r s' a', run_op junk op s = Ret (r, s') ∧ models s' a' ∧ fspec a op r a'.

Lemma models_view s s' a L : models_at s a L → core_inv s' L (a_names a) [] → dirs s' = ∅ → same_view L s s' → models s' a.
Proof.
  intros Hm Hc Hd Hv. apply same_view_files in Hv. exists L. split; [done|done|..].
  - intros x. rewrite (md_data _ _ _ Hm). destruct (L !! x) as [e|] eqn:E; [symmetry; by apply (same_files_data L L s s'); [| |eexists]|].
    unfold data_at. by rewrite E.
  - intros f. rewrite (md_files _ _ _ Hm). symmetry. by apply (same_files_at L).
Qed.

Lemma create_ok junk s a L name size :
  length junk = 20%nat → models_at s a L → op_ok a (FCreate name size) → step_ok junk s a (FCreate name size).
Proof.
  intros Hj Hm [[Hn Hs] Hf]. destruct (filesys_create_run junk name size Hj Hn Hs s L _ (md_core _ _ _ Hm) (md_dirs _ _ _ Hm) (models_few _ _ _ Hm Hf))
    as (s' & Hd & [(sec & st & E & [M1 M2 M3 (M4 & M5 & M6) (M7 & M8 & M9)])|(E & Hc & Hv & _)]).
  - exists (RBool true), s', (AState (<[name := sec]> (a_names a)) (<[sec := replicate (Z.to_nat size) 0]> (a_data a)) (a_files a)).
    split_and!; [cbn [run_op]; by run_step E| |].
    + exists (<[sec := (st, size)]> L). split; [done|done|..]; cbn [a_data a_files].
      * intros x. destruct (decide (x = sec)) as [->|Hne].
        { rewrite lookup_insert_eq. unfold data_at. rewrite decide_False by tauto. rewrite lookup_insert_eq. cbn. by rewrite M3. }
        rewrite lookup_insert_ne, (md_data _ _ _ Hm) by done. unfold data_at. case_decide as E01; [done|]. rewrite lookup_insert_ne by done.
        destruct (L !! x) as [e|] eqn:Ex; [|done]. cbn. f_equal. symmetry. apply (sf_content _ _ _ M2 x); [done|tauto..].
      * intros f. rewrite (md_files _ _ _ Hm). symmetry. by apply (same_files_at L).
    + left. exists sec. split_and!; [done|done| |done|done]. rewrite (md_data _ _ _ Hm). unfold data_at. case_decide; [done|]. by rewrite M4.
  - exists (RBool false), s', a. split_and!; [cbn [run_op]; by run_step E|by apply (models_view s s' a L)|by right].
Qed.

Lemma remove_ok junk s a L name : models_at s a L → op_ok a (FRemove name) → step_ok junk s a (FRemove name).
Proof.
  intros Hm [_ Hf]. pose proof (filesys_remove_run s L _ name (md_core _ _ _ Hm) (md_dirs _ _ _ Hm) (models_few _ _ _ Hm Hf)) as Hr. unfold step_ok, fspec.
  destruct (a_names a !! name) as [sec|].
  - destruct Hr as (s' & L' & E & Hc & Hd & Hv & HL). exists (RBool true), s', (gc (AState (delete name (a_names a)) (a_data a) (a_files a))).
    split_and!; [cbn [run_op]; by run_step E| |done|done]. apply (models_gc s s' a L L'); [done|done|done| |done|by apply same_files_data].
    intros f. rewrite (md_files _ _ _ Hm). symmetry. by apply (same_files_at L').
  - destruct Hr as (s' & E & Hc & Hd & Hv). exists (RBool false), s', a. split_and!; [cbn [run_op]; by run_step E|by apply (models_view s s' a L)|done|done].
Qed.

(** A new handle on a file. *)
Lemma models_insert s s1 s' a L f p i :
  models_at s a L → same_view L s s1 → core_inv s' L (a_names a) [] → dirs s' = ∅ → f ≠ free_map_file s →
  dev_size s' = dev_size s1 → disk s' = disk s1 → inodes s' = inodes s1 → free_map_file s' = free_map_file s1 →
  files s' = <[f := File p 0 false]> (files s1) → inodes s' !! p = Some i →
  models s' (on_files (<[f := AFile (sector i) 0 false]> (a_files a)) a).
Proof.
  intros Hm Hv Hc Hd Hne Edv Edk Ein Em Ef Hi. pose proof (same_view_files _ _ _ Hv) as Hvf. exists L. split; [done|done|..]; cbn [a_data a_files on_files].
  - intros x. rewrite (md_data _ _ _ Hm). unfold data_at. case_decide as E; [done|]. destruct (L !! x) as [e|] eqn:Ex; [|done]. cbn. f_equal.
    transitivity (content s1 e); [symmetry; apply (sv_content _ _ _ Hv x); [done|tauto]|]. unfold content. by rewrite Edk.
  - intros g. destruct (decide (g = f)) as [->|Hg].
    + rewrite lookup_insert_eq. symmetry. apply file_at_Some. split; [by rewrite Em, (sv_mapf _ _ _ Hv)|]. exists (File p 0 false), i.
      split_and!; [by rewrite Ef, lookup_insert_eq|done|done].
    + rewrite lookup_insert_ne, (md_files _ _ _ Hm) by done. rewrite <- (same_files_at L s s1 g Hvf). symmetry. apply file_at_frame; [by rewrite Ef, lookup_insert_ne|done|].
      intros fl _. by rewrite Ein.
Qed.

Lemma fresh_handle s a L f : models_at s a L → files s !! f = None → a_files a !! f = None ∧ f ≠ free_map_file s.
Proof.
  intros Hm Hf. pose proof (md_core _ _ _ Hm) as Hc. split.
  - rewrite (md_files _ _ _ Hm). unfold file_at. case_decide; [done|]. by rewrite Hf.
  - intros ->. destruct (si_home _ _ _ (ci_st _ _ _ _ Hc)) as [E|(fl & i & e & Hf' & _)]; [by apply (ci_mapf _ _ _ _ Hc)|congruence].
Qed.

Lemma open_ok junk s a L name : models_at s a L → op_ok a (FOpen name) → step_ok junk s a (FOpen name).
Proof.
  intros Hm [_ Hf]. pose proof (filesys_open_run s L _ name (md_core _ _ _ Hm) (md_dirs _ _ _ Hm) (models_few _ _ _ Hm Hf)) as Hr. unfold step_ok, fspec.
  destruct (a_names a !! name) as [sec|].
  - destruct Hr as (f & p & s' & E & Hc & Hd & Hf0 & Hfr & (s1 & Hv & Edv & Edk & Ein & Em & Ef) & i & Hi & Hs).
    destruct (fresh_handle s a L f Hm Hfr) as [Ha Hne]. rewrite <- Hs.
    exists (RNum f), s', (on_files (<[f := AFile (sector i) 0 false]> (a_files a)) a). split_and!; [cbn [run_op]; by run_step E| |by exists f].
    by apply (models_insert s s1 s' a L f p i).
  - destruct Hr as (s' & E & Hc & Hd & Hv). exists (RNum 0), s', a. split_and!; [cbn [run_op]; by run_step E|by apply (models_view s s' a L)|done|done].
Qed.

(** A change of one inode in memory and of the handles on files other than the two of
    the file system itself. *)
Lemma core_update s L D p i i' F :
  core_inv s L D [] → inodes s !! p = Some i → sector i' = sector i → removed i' = removed i →
  (∀ f fl, F !! f = Some fl → f ≠ free_map_file s → (∃ fl0, files s !! f = Some fl0 ∧ f_inode fl0 = f_inode fl) ∨ (f_inode fl = p ∧ sector i ≠ 0 ∧ sector i ≠ 1)) →
  let s' := set_inodes (<[p := i']> (inodes s)) (set_files F s) in
  st_inv s' L [] → core_inv s' L D [].
Proof.
  intros [H1 H2 H3 H4 H5 H6 H7 H8] Hi Hs Hr HF s' Hst. split; [done|done|done|done|done|..].
  - intros q j. cbn. intros [[<- <-]|[_ Hj]]%lookup_insert_Some; [rewrite Hs, Hr; by apply (H6 p)|by apply (H6 q)].
  - intros x Hx. destruct (H7 x Hx) as [?|(q & j & Hj & Hx')]; [by left|right]. destruct (decide (q = p)) as [->|Hq].
    + exists p, i'. cbn. rewrite lookup_insert_eq. split; [done|congruence].
    + exists q, j. cbn. by rewrite lookup_insert_ne.
  - intros f fl j Hf Hj Hne. cbn in Hf, Hj. destruct (HF f fl Hf Hne) as [(fl0 & Hf0 & E)|(E & Hx)].
    + apply lookup_insert_Some in Hj as [[Ep <-]|[Hq Hj]].
      * rewrite Hs. apply (H8 f fl0 i); [done|by rewrite E, <- Ep|done].
      * apply (H8 f fl0 j); [done|by rewrite E|done].
    + rewrite E, lookup_insert_eq in Hj. injection Hj as <-. by rewrite Hs.
Qed.

Lemma reopen_ok junk s a L f : models_at s a L → op_ok a (FReopen f) → step_ok junk s a (FReopen f).
Proof.
  intros Hm [[g Hg] Hf]. destruct (handle_of s a L Hm f g Hg) as (fl & i & e & Hh). pose proof (md_core _ _ _ Hm) as Hc. pose proof (ci_st _ _ _ _ Hc) as Hst.
  pose proof (models_few _ _ _ Hm Hf) as Hfew. destruct Hh as [Hfl Hi Hab Hu Hsec Hex Hdk Hl Hp Hda].
  destruct (inode_reopen_run s L [] (f_inode fl) i Hst Hi) as [E1 Hst1]; [unfold few in Hfew; cbn; lia|].
  set (i1 := with_open_cnt (open_cnt i + 1) i) in *. set (s1 := set_inodes (<[f_inode fl := i1]> (inodes s)) s) in *.
  assert (inodes s1 !! f_inode fl = Some i1) as Hi1 by apply lookup_insert_eq.
  destruct (file_open_run s1 L [] (f_inode fl) i1 Hst1 Hi1) as [E2 Hst2]. set (s2 := set_files _ _) in Hst2, E2.
  destruct (fresh_brk _ _ _ (si_mem _ _ _ Hst)) as (_ & Hfr & _). destruct (fresh_handle s a L _ Hm Hfr) as [Ha Hne].
  exists (RNum (brk s)), s2, (on_files (<[brk s := AFile (sector i1) 0 false]> (a_files a)) a). split_and!.
  - cbn [run_op]. unfold file_reopen. rewrite bind_assoc. run_step (gets_opt_Some (λ s, files s !! f) s fl Hfl). rewrite bind_assoc. run_step E1. by run_step E2.
  - apply (models_insert s s1 s2 a L (brk s) (f_inode fl) i1); try done; [| |apply Hm].
    + split; try done. intros h hl Hh. cbn [inodes s1 set_inodes]. destruct (decide (f_inode hl = f_inode fl)) as [->|En]; [|by rewrite lookup_insert_ne].
      by rewrite lookup_insert_eq, Hi.
    + refine (core_update (bump (brk s + 1) s) L _ (f_inode fl) i i1 (<[brk s := File (f_inode fl) 0 false]> (files s)) _ Hi eq_refl eq_refl _ Hst2); [apply core_bump; [done|lia]|].
      intros h hl [[<- <-]|[_ Hh]]%lookup_insert_Some _; [by right|left; by exists hl].
  - exists g, (brk s). split; [done|]. split_and!; [done| |done|by rewrite Hab]. destruct (st_mem_ok _ _ _ Hst). lia.
Qed.

Lemma close_ok junk s a L f : models_at s a L → op_ok a (FClose f) → step_ok junk s a (FClose f).
Proof.
  intros Hm [[g Hg] Hf]. destruct (handle_of s a L Hm f g Hg) as (fl & i & e & [Hfl Hi Hab Hu Hsec Hex Hdk Hl Hp Hda]).
  pose proof (md_core _ _ _ Hm) as Hc. pose proof (ci_st _ _ _ _ Hc) as Hst.
  destruct (file_close_run s L [] f fl i Hst Hfl Hi ltac:(tauto) Hu (ci_mapf _ _ _ _ Hc)) as (s' & L' & E & Hst' & Hcl & Ef & Ed).
  destruct (core_closed s s' L L' _ [] [] (f_inode fl) i Hc Hst' Hcl Hi) as [Hc' _]; [intros h hl; rewrite Ef; by intros [_ ?]%lookup_delete_Some|].
  exists RUnit, s', (gc (AState (a_names a) (a_data a) (delete f (a_files a)))). split_and!; [cbn [run_op]; by run_step E| |done].
  assert (∀ x e, L' !! x = Some e → L !! x = Some e) as HL.
  { intros x e'. destruct (cl_L _ _ _ _ _ _ Hcl) as [-> |[_ ->]]; [done|]. by intros [_ ?]%lookup_delete_Some. }
  apply (models_gc s s' a L L'); [done|done|by rewrite Ed; apply Hm| |done|].
  - intros h. destruct (decide (h = f)) as [->|Hne].
    { rewrite lookup_delete_eq. unfold file_at. case_decide; [done|]. by rewrite Ef, lookup_delete_eq. }
    rewrite lookup_delete_ne, (md_files _ _ _ Hm) by done. symmetry. apply file_at_frame; [by rewrite Ef, lookup_delete_ne|apply Hcl|].
    intros hl Hh. destruct (decide (f_inode hl = f_inode fl)) as [Ei|Ei]; [|by rewrite (cl_other _ _ _ _ _ _ Hcl)].
    destruct (cl_self _ _ _ _ _ _ Hcl) as [[Hno _]|(i' & Hi' & Hs & _)].
    + assert (files s' !! h = Some hl) as Hh' by (by rewrite Ef, lookup_delete_ne). destruct (mi_files _ _ _ (si_mem _ _ _ Hst') h hl Hh') as [[j Hj] _]. congruence.
    + rewrite Ei, Hi', Hi. cbn. by rewrite Hs.
  - intros x [e' He']. unfold data_at. case_decide as E01; [done|]. rewrite He', (HL x e' He'). cbn. f_equal. apply (cl_content _ _ _ _ _ _ Hcl x); [done|tauto].
Qed.

(** A change of one handle. *)
Lemma models_update s a L f g fl fl' i i' e :
  models_at s a L → handle s a L f g fl i e → f_inode fl' = f_inode fl → sector i' = sector i → removed i' = removed i →
  let s' := set_inodes (<[f_inode fl := i']> (inodes s)) (set_files (<[f := fl']> (files s)) s) in
  st_inv s' L [] → models s' (on_files (<[f := AFile (af_id g) (f_pos fl') (f_deny_write fl')]> (a_files a)) a).
Proof.
  intros Hm [Hfl Hi Hab Hu Hsec Hex Hdk Hl Hp Hda] Hin Hs Hr s' Hst. exists L. split.
  - apply (core_update s L _ (f_inode fl) i i'); [apply Hm|done|done|done| |done].
    intros h hl [[<- <-]|[_ Hh]]%lookup_insert_Some _; left; [by exists fl|by exists hl].
  - apply Hm.
  - apply Hm.
  - intros h. cbn [a_files on_files]. destruct (decide (h = f)) as [->|Hne].
    + rewrite lookup_insert_eq. symmetry. apply file_at_Some. split; [done|]. exists fl', i'. rewrite Hin, Hab, Hs. cbn. by rewrite !lookup_insert_eq.
    + rewrite lookup_insert_ne, (md_files _ _ _ Hm) by done. symmetry. apply file_at_frame; [cbn; by rewrite lookup_insert_ne|done|].
      intros hl Hh. cbn. destruct (decide (f_inode hl = f_inode fl)) as [->|En]; [|by rewrite lookup_insert_ne]. rewrite lookup_insert_eq, Hi. cbn. by rewrite Hs.
Qed.

Lemma models_move s a L f g fl i e v :
  models_at s a L → handle s a L f g fl i e → 0 ≤ v < 2 ^ 31 →
  put_file f (with_pos v fl) s = Ret (tt, set_files (<[f := with_pos v fl]> (files s)) s) ∧
  models (set_files (<[f := with_pos v fl]> (files s)) s) (move f g v a).
Proof.
  intros Hm Hh Hv. split; [done|]. pose proof Hh as [Hfl Hi Hab Hu Hsec Hex Hdk Hl Hp Hda].
  pose proof (file_pos_run s L [] f fl i v (ci_st _ _ _ _ (md_core _ _ _ Hm)) Hfl Hi Hv Hu) as Hst.
  rewrite <- (set_inodes_id s _ (f_inode fl) i Hi) in Hst |- *. unfold move. assert (af_deny g = f_deny_write fl) as -> by (by rewrite Hab).
  exact (models_update s a L f g fl (with_pos v fl) i i e Hm Hh eq_refl eq_refl eq_refl Hst).
Qed.

Lemma models_bump s a L b : models_at s a L → brk s ≤ b → models_at (bump b s) a L.
Proof. intros [H1 H2 H3 H4] Hb. split; [by apply core_bump|done..]. Qed.

Lemma handle_bump s a L f g fl i e b : handle s a L f g fl i e → handle (bump b s) a L f g fl i e.
Proof. by intros [? ? ? ? ? ? ? ? ? ?]. Qed.

Lemma length_slice (c : list Z) n k : 0 ≤ k < 2 ^ 31 → Z.of_nat (length c) < 2 ^ 31 → 0 ≤ k + Z.of_nat (length (take n (drop (Z.to_nat k) c))) < 2 ^ 31.
Proof. intros Hk Hc. rewrite length_take, length_drop. lia. Qed.

Lemma read_ok junk s a L f size : models_at s a L → op_ok a (FRead f size) → step_ok junk s a (FRead f size).
Proof.
  intros Hm [[g Hg] Hf]. destruct (handle_of s a L Hm f g Hg) as (fl & i & e & Hh). pose proof Hh as [Hfl Hi Hab Hu Hsec Hex Hdk Hl Hp Hda].
  destruct (read_run s L [] (f_inode fl) i e size (f_pos fl) (ci_st _ _ _ _ (md_core _ _ _ Hm)) Hi Hex Hp) as (b & Hb & E & _).
  set (bs := take (Z.to_nat size) (drop (Z.to_nat (f_pos fl)) (content s e))) in *.
  assert (0 ≤ f_pos fl + Z.of_nat (length bs) < 2 ^ 31) as Hv by (apply length_slice; [done|rewrite length_content; lia]).
  destruct (models_move (bump b s) a L f g fl i e _ (models_bump _ _ _ _ Hm Hb) (handle_bump _ _ _ _ _ _ _ _ b Hh) Hv) as [E2 Hm2].
  eexists (RData bs), _, _. split_and!; [|exact Hm2|].
  - cbn [run_op]. unfold file_read. rewrite bind_assoc. run_step (gets_opt_Some (λ s, files s !! f) s fl Hfl). rewrite bind_assoc. run_step E.
    rewrite bind_assoc, swrap_id by lia. by run_step E2.
  - exists g, (content s e). rewrite Hab. by split_and!; [rewrite Hg, Hab|..].
Qed.

(** Nobody but the callers denies writing. *)
Lemma denied_iff s a L f g fl i e : models_at s a L → handle s a L f g fl i e → denied a (af_id g) = bool_decide (deny_write_cnt i ≠ 0).
Proof.
  intros Hm [Hfl Hi Hab Hu Hsec Hex Hdk Hl Hp Hda]. pose proof (ci_st _ _ _ _ (md_core _ _ _ Hm)) as Hst. pose proof (si_mem _ _ _ Hst) as Hmi.
  destruct (mi_cnt _ _ _ Hmi _ _ Hi) as (_ & _ & Hd). apply bool_decide_ext. rewrite Hab, Hd. cbn [af_id]. split.
  - intros (h & k & Hk & Eid & Eden). rewrite (md_files _ _ _ Hm) in Hk. apply file_at_Some in Hk as (_ & hl & j & Hh & Hj & ->). cbn in Eid, Eden.
    assert (f_inode hl = f_inode fl) as Ep by (by apply (mi_inj _ _ _ Hmi _ _ j i)).
    unfold denies. rewrite (sum_lookup _ _ h hl Hh). rewrite (denies_at_self _ _ Ep), Eden.
    pose proof (sum_le (λ _, 0) (denies_at (f_inode fl)) (delete h (files s)) ltac:(intros v; apply denies_at_le)) as Hge. rewrite (sum_zero (λ _, 0)) in Hge by done. cbn. lia.
  - intros (h & hl & Hh & Hden)%sum_nonzero. unfold denies_at in Hden. destruct (bool_decide (f_inode hl = f_inode fl)) eqn:Ep; [|done]. apply bool_decide_eq_true_1 in Ep.
    destruct (f_deny_write hl) eqn:Eden; [|done]. exists h, (AFile (sector i) (f_pos hl) true). split_and!; [|done|done]. rewrite (md_files _ _ _ Hm).
    apply file_at_Some. split; [|exists hl, i; by rewrite Ep, Eden]. intros ->.
    destruct (si_home _ _ _ Hst) as [E0|(fl' & i' & e' & Hf' & Hi' & _ & Hs' & _)]; [by apply (ci_mapf _ _ _ _ (md_core _ _ _ Hm))|].
    rewrite Hh in Hf'. injection Hf' as <-. rewrite Ep, Hi in Hi'. injection Hi' as <-. tauto.
Qed.

(** A write to a file. *)
Lemma models_write s s' a L sec e off bs :
  models_at s a L → sec ≠ 0 → sec ≠ 1 → L !! sec = Some e → write_step L [] sec e off bs s s' →
  models_at s' (AState (a_names a) (<[sec := patch (content s e) (Z.to_nat off) bs]> (a_data a)) (a_files a)) L.
Proof.
  intros Hm H0 H1 He Hw. destruct (write_rest _ _ _ _ _ _ _ _ Hw) as (Edv & Ein & Ef & Ed & Em).
  destruct (md_core _ _ _ Hm) as [C1 C2 C3 C4 C5 C6 C7 C8]. split.
  - split; rewrite ?Ein, ?Ef, ?Em; try done; [apply Hw|]. destruct C3 as (e1 & He1 & Hl1 & Hd1). exists e1. by rewrite (wr_other _ _ _ _ _ _ _ _ Hw 1 e1).
  - rewrite Ed. apply Hm.
  - intros x. cbn [a_data]. destruct (decide (x = sec)) as [->|Hne].
    + rewrite lookup_insert_eq. unfold data_at. rewrite decide_False by tauto. rewrite He. cbn. by rewrite (wr_content _ _ _ _ _ _ _ _ Hw).
    + rewrite lookup_insert_ne, (md_data _ _ _ Hm) by done. unfold data_at. case_decide; [done|]. destruct (L !! x) as [f|] eqn:Ex; [|done]. cbn. f_equal.
      symmetry. by apply (wr_other _ _ _ _ _ _ _ _ Hw x).
  - intros f. cbn [a_files]. rewrite (md_files _ _ _ Hm). symmetry. apply file_at_frame; [by rewrite Ef|done|]. intros fl _. by rewrite Ein.
Qed.

Lemma write_ok junk s a L f bs : models_at s a L → op_ok a (FWrite f bs) → step_ok junk s a (FWrite f bs).
Proof.
  intros Hm [[g Hg] Hf]. destruct (handle_of s a L Hm f g Hg) as (fl & i & e & Hh). pose proof (denied_iff s a L f g fl i e Hm Hh) as Hden.
  pose proof Hh as [Hfl Hi Hab Hu Hsec Hex Hdk Hl Hp Hda]. pose proof (ci_st _ _ _ _ (md_core _ _ _ Hm)) as Hst.
  set (n := if denied a (af_id g) then 0 else clamp e.2 (Z.of_nat (length bs)) (f_pos fl)).
  assert (0 ≤ f_pos fl + n < 2 ^ 31) as Hv by (unfold n, clamp; destruct (denied a (af_id g)); lia).
  assert (∃ s1, inode_write_at (f_inode fl) bs (f_pos fl) s = Ret (n, s1) ∧ files s1 = files s ∧ inodes s1 = inodes s ∧ free_map_file s1 = free_map_file s ∧
    models_at s1 (AState (a_names a) (<[sector i := patch (content s e) (Z.to_nat (f_pos fl)) (take (Z.to_nat n) bs)]> (a_data a)) (a_files a)) L) as (s1 & E1 & Ef1 & Ein1 & Em1 & Hm1).
  { unfold n. rewrite Hden. case_bool_decide as Hdn.
    - exists s. split_and!; [by apply (inode_write_denied s _ i)|done|done|done|]. rewrite take_0, patch_nil, insert_id by done. by destruct a.
    - destruct (write_run s L [] (f_inode fl) i e bs (f_pos fl) Hst Hi Hex Hp ltac:(lia) ltac:(tauto)) as (s1 & E & Hw).
      exists s1. destruct (write_rest _ _ _ _ _ _ _ _ Hw) as (_ & ? & ? & _ & ?). split_and!; [done|done|done|done|]. apply (models_write s s1 a L); [done|tauto|tauto|done|done]. }
  assert (a_files a !! f = Some g) as Hg1 by done.
  destruct (handle_of s1 _ L Hm1 f g Hg1) as (fl1 & i1 & e1 & Hh1). pose proof Hh1 as [Hfl1 Hi1 _ _ _ _ _ _ _ _].
  assert (fl1 = fl) as -> by congruence. destruct (models_move s1 _ L f g fl i1 e1 _ Hm1 Hh1 Hv) as [E2 Hm2].
  eexists (RNum n), _, _. split_and!; [|exact Hm2|].
  - cbn [run_op]. unfold file_write. rewrite bind_assoc. run_step (gets_opt_Some (λ s, files s !! f) s fl Hfl). rewrite bind_assoc. run_step E1.
    rewrite bind_assoc, swrap_id by lia. by run_step E2.
  - exists g, (content s e). assert (Z.of_nat (length (content s e)) = e.2) as Hlc by (rewrite length_content; lia).
    rewrite Hlc. assert (af_pos g = f_pos fl ∧ af_id g = sector i) as [-> Eid] by (by rewrite Hab). fold n. rewrite Eid. by split_and!.
Qed.

Lemma handle_ops_ok junk s a L op :
  models_at s a L → op_ok a op → match op with FSeek _ _ | FTell _ | FLength _ | FDeny _ | FAllow _ => True | _ => False end → step_ok junk s a op.
Proof.
  intros Hm [Ho Hf] Hop. pose proof (ci_st _ _ _ _ (md_core _ _ _ Hm)) as Hst.
  assert (∀ f, is_Some (a_files a !! f) → ∃ g fl i e, a_files a !! f = Some g ∧ handle s a L f g fl i e) as Hget.
  { intros f [g Hg]. destruct (handle_of s a L Hm f g Hg) as (fl & i & e & Hh). by exists g, fl, i, e. }
  destruct op as [| | | | | | |f v|f|f|f|f]; try done; [destruct Ho as [Ho Hv]|..]; destruct (Hget f Ho) as (g & fl & i & e & Hg & Hh);
    pose proof Hh as [Hfl Hi Hab Hu Hsec Hex Hdk Hl Hp Hda].
  - destruct (models_move s a L f g fl i e v Hm Hh Hv) as [E Hm']. eexists RUnit, _, _. split_and!; [|exact Hm'|by exists g].
    cbn [run_op]. unfold file_seek. rewrite bind_assoc. run_step (gets_opt_Some (λ s, files s !! f) s fl Hfl). rewrite bind_assoc.
    rewrite assert_bind by (apply bool_decide_eq_true_2; lia). by run_step E.
  - exists (RNum (af_pos g)), s, a. split_and!; [|by exists L|by exists g]. cbn [run_op]. unfold file_tell. rewrite bind_assoc.
    run_step (gets_opt_Some (λ s, files s !! f) s fl Hfl). by rewrite Hab.
  - exists (RNum e.2), s, a. split_and!; [|by exists L|].
    + cbn [run_op]. unfold file_length, inode_length. rewrite bind_assoc. run_step (gets_opt_Some (λ s, files s !! f) s fl Hfl). rewrite bind_assoc.
      run_step (gets_opt_Some (λ s, inodes s !! f_inode fl) s i Hi). by rewrite Hdk.
    + exists g, (content s e). rewrite length_content, Z2Nat.id by lia. rewrite Hab. by split_and!; [rewrite Hg, Hab|..].
  - destruct (file_deny_write_run s L [] f fl i Hst Hfl Hi ltac:(tauto) Hu) as [E Hst']. eexists RUnit, _, (set_deny f g true a).
    split_and!; [cbn [run_op]; by run_step E| |by exists g]. assert (af_pos g = f_pos fl) as Ep by (by rewrite Hab). unfold set_deny. rewrite Ep.
    by apply (models_update s a L f g fl (with_deny true fl) i _ e).
  - destruct (file_allow_write_run s L [] f fl i Hst Hfl Hi ltac:(tauto) Hu) as [E Hst']. eexists RUnit, _, (set_deny f g false a).
    split_and!; [cbn [run_op]; by run_step E| |by exists g]. assert (af_pos g = f_pos fl) as Ep by (by rewrite Hab). unfold set_deny. rewrite Ep.
    by apply (models_update s a L f g fl (with_deny false fl) i _ e).
Qed.
