(* ===== verification/FileSysMount.v ===== *)
(** * FileSysMount: formatting, mounting and unmounting

    [mountable] says that a disk holds a file system: the inodes [L], the root directory
    [D] and the free map [b].  Formatting makes such a disk, unmounting leaves one, and
    mounting one gives a state that the invariant describes. *)

From S2P Require Import Prelude Bitmap FileSys FileSysIO FileSysInv FileSysMem FileSysFiles FileSysDir FileSysOps FileSysNames FileSysSpec.

(** A disk seen alone. *)
Definition ondisk (n : Z) (d : Z → Z) (b : bitmap) : fs := FS n d ∅ [] ∅ ∅ b 0 1 [].

Record mountable (n : Z) (d : Z → Z) (L : gmap Z (Z * Z)) (D : gmap (list Z) Z) (b : bitmap) : Prop := {
  mt_layout : layout (ondisk n d b) L;
  mt_map : ∃ e, L !! 0 = Some e ∧ e.2 = byte_cnt n ∧ encodes (content (ondisk n d b) e) b;
  mt_root : ∃ e, L !! 1 = Some e ∧ e.2 = 320 ∧ dir_inv (content (ondisk n d b) e) D;
  mt_named : ∀ name sec, D !! name = Some sec → sec ≠ 0 ∧ sec ≠ 1 ∧ is_Some (L !! sec);
  mt_inj : ∀ n n' sec, D !! n = Some sec → D !! n' = Some sec → n = n';
  mt_live : ∀ sec, is_Some (L !! sec) → named D sec
}.

(** Nothing of the file system is open. *)
Record fs_idle (s : fs) : Prop := {
  id_inodes : inodes s = ∅;
  id_open : open_inodes s = [];
  id_files : files s = ∅;
  id_dirs : dirs s = ∅;
  id_mem : mem_ok s
}.

Lemma mem_same s s' L ex :
  mem_inv s L ex → inodes s' = inodes s → open_inodes s' = open_inodes s → files s' = files s → dirs s' = dirs s → brk s ≤ brk s' → mallocs s' = [] →
  mem_inv s' L ex.
Proof.
  intros [H1 H2 H3 H4 H5 H6 H7 H8 H9 H10 H11] Ei Eo Ef Ed Hb Hm. unfold refs, denies in *. split; rewrite ?Ei, ?Eo, ?Ef, ?Ed; try done.
  - split; [done|]. destruct H1. lia.
  - intros p Hp. specialize (H4 p Hp). lia.
  - unfold refs, denies. by rewrite Ef, Ed.
Qed.

Lemma mem_idle s L : fs_idle s → mem_inv s L [].
Proof.
  intros [I1 I2 I3 I4 I5]. split; rewrite ?I1, ?I2, ?I3, ?I4; try done.
  - apply NoDup_nil_2.
  - intros p. rewrite lookup_empty. split; [by intros ?%elem_of_nil|by intros [? ?]].
  - intros p. rewrite !lookup_empty. by intros [[? ?]|[[? ?]|[? ?]]].
  - by intros p ?%elem_of_nil.
Qed.

(** ** The sectors a state owns, whatever its memory holds *)

Lemma layout_same s s' L : layout s L → dev_size s' = dev_size s → disk s' = disk s → bm_ok (free_map s') → bit_cnt (free_map s') = bit_cnt (free_map s) →
  Bitmap.abs (free_map s') = Bitmap.abs (free_map s) → layout s' L.
Proof.
  intros Hl Ed Ek Hb Hc Ha. apply (layout_frame s); [done|done|done|done| |by intros; rewrite Ek].
  intros sec e x He Hx. assert (0 ≤ x < bit_cnt (free_map s)) as Hr.
  { rewrite (ly_cnt _ _ Hl). destruct (ly_ext _ _ Hl sec e He) as ((? & ? & ? & ?) & ? & _). destruct Hx as [-> |?]; lia. }
  pose proof (ly_used _ _ Hl sec e x He Hx) as Hu. pose proof (bit_at_abs (free_map s) x Hr) as E1. rewrite <- Hc in Hr. pose proof (bit_at_abs (free_map s') x Hr) as E2.
  rewrite Ha, E1 in E2. congruence.
Qed.

Lemma encodes_same c b b' : encodes c b → bit_cnt b' = bit_cnt b → Bitmap.abs b' = Bitmap.abs b → encodes c b'.
Proof. intros (b0 & H1 & H2 & H3 & H4) Hc Ha. exists b0. split_and!; [done|congruence|congruence|done]. Qed.

(** ** Mounting *)

(** The state after [free_map_open], given the memory [b] of the map and the break. *)
Definition map_inode (s : fs) : inode := Inode 0 1 false 0 (inode_of (bytes_at (disk s) (512 * 0) 512)).

Definition mounted (s : fs) (m : bitmap) (k : Z) : fs :=
  FS (dev_size s) (disk s) {[ brk s := map_inode s ]} [brk s] {[ brk s + 1 := File (brk s) 0 false ]} ∅ m (brk s + 1) k [].

Lemma mounted_map s m m' k k' : set_map m' (bump k' (mounted s m k)) = mounted s m' k'.
Proof. done. Qed.

Lemma open_map_inode s : fs_idle s → 0 < dev_size s → inode_open FREE_MAP_SECTOR s = Ret (brk s, loaded 0 s).
Proof.
  intros [I1 I2 I3 I4 I5] Hdev. unfold inode_open. rewrite (bind_Ret _ _ _ (open_inodes s) s) by done. rewrite I2. cbn [find_open]. rewrite ret_bind.
  run_step (fs_malloc_run s I5). destruct I5 as [Hml Hbrk]. rewrite bool_decide_eq_false_2 by lia.
  rewrite (bind_Ret _ _ _ tt (set_open [brk s] (bump (brk s + 1) s))) by done. change FREE_MAP_SECTOR with 0.
  assert (0 < dev_size (set_open [brk s] (bump (brk s + 1) s))) as Hd by done. run_step (block_read_run _ 0 Hd). unfold loaded. by rewrite I2.
Qed.

Lemma open_map_file s : fs_idle s → file_open (brk s) (loaded 0 s) = Ret (brk s + 1, set_map_file (free_map_file s) (mounted s (free_map s) (brk s + 2))).
Proof.
  intros [I1 I2 I3 I4 [Hml Hbrk]]. unfold file_open. rewrite (bind_Ret _ _ _ (brk s + 1) (bump (brk s + 2) (loaded 0 s))).
  - rewrite !bool_decide_eq_true_2 by lia. cbn [andb]. unfold loaded, mounted, set_map_file, bump, set_mem, put_file, modify, set_inodes, set_open, map_inode, mbind, M_bind, mret, M_ret.
    cbn [inodes open_inodes files dirs free_map free_map_file brk mallocs dev_size disk]. unfold set_files. cbn [inodes open_inodes files dirs free_map free_map_file brk mallocs dev_size disk].
    by rewrite I1, I2, I3, I4.
  - assert (mem_ok (loaded 0 s)) as Hok by (split; [done|cbn; lia]). rewrite (fs_malloc_run _ Hok). cbn [brk loaded set_inodes set_open bump set_mem]. by replace (brk s + 1 + 1) with (brk s + 2) by lia.
Qed.

Lemma map_read_run s m k e b0 :
  bm_ok m → bit_cnt m = dev_size s → 0 < dev_size s → bm_ok b0 → bit_cnt b0 = dev_size s →
  0 < k → data (map_inode s) = InodeDisk e.1 e.2 INODE_MAGIC → ext_ok s e → e.2 = byte_cnt (dev_size s) → content s e = map_bytes b0 →
  ∃ m' k', map_read (brk s + 1) (mounted s m k) = Ret (true, mounted s m' k') ∧ bm_ok m' ∧ bit_cnt m' = dev_size s ∧ Bitmap.abs m' = Bitmap.abs b0 ∧ k ≤ k'.
Proof.
  intros Hm Hc Hpos Hb0 Hc0 Hk Hd Hext Hlen Hcon. assert (inodes (mounted s m k) !! brk s = Some (map_inode s)) as Hi by apply lookup_singleton_eq.
  destruct (inode_read_at_run (mounted s m k) (brk s) (map_inode s) (bitmap_file_size m) 0) as (k' & Hk' & E4); [by split|done| |lia|].
  { unfold extent. rewrite Hd. by destruct e. }
  rewrite Hd in E4. cbn [id_start id_length] in E4. change (disk (mounted s m k)) with (disk s) in E4.
  assert (clamp e.2 (bitmap_file_size m) 0 = e.2) as Ek by (unfold clamp, bitmap_file_size; rewrite Hc, <- Hlen; destruct Hext as (_ & ? & _); lia).
  rewrite Ek, Z.add_0_r in E4. fold (content s e) in E4. rewrite Hcon in E4. pose proof (length_map_bytes b0 Hb0) as Hlb.
  destruct (bitmap_reread b0 m (map_bytes b0) Hb0 Hm ltac:(congruence)) as (m' & Em & Hm' & Hcm & Ham); [unfold map_bytes; by rewrite take_take, Nat.min_id|].
  exists m', k'. split_and!; [|done|congruence|congruence|exact Hk']. unfold map_read.
  rewrite (bind_Ret _ _ (mounted s m k) m (mounted s m k)) by done. rewrite bool_decide_eq_true_2 by (rewrite Hc; lia).
  unfold file_read_at. rewrite bind_assoc. assert (files (mounted s m k) !! (brk s + 1) = Some (File (brk s) 0 false)) as Hf by apply lookup_singleton_eq.
  run_step (gets_opt_Some (λ s', files s' !! (brk s + 1)) (mounted s m k) _ Hf). cbn [f_inode]. run_step E4.
  unfold on_map. change (free_map (bump k' (mounted s m k))) with m. rewrite Hlb, Em. by rewrite mounted_map.
Qed.

Lemma free_map_open_run s L D b :
  fs_idle s → bm_ok (free_map s) → bit_cnt (free_map s) = dev_size s → mountable (dev_size s) (disk s) L D b →
  ∃ m k, free_map_open s = Ret (tt, mounted s m k) ∧ bm_ok m ∧ bit_cnt m = dev_size s ∧ Bitmap.abs m = Bitmap.abs b ∧ brk s + 2 ≤ k.
Proof.
  intros Hid Hm Hc [M1 (e & He & Hlen & b0 & Hb0 & Hc0 & Ha0 & Hcon) _ _ _ _].
  pose proof (ly_cnt _ _ M1) as Hcb. destruct (ly_ext _ _ M1 0 e He) as (Hext & Hsec & _). cbn [dev_size ondisk free_map] in Hsec, Hcb.
  pose proof (ly_disk _ _ M1 0 e He) as Hd. destruct (id_mem _ Hid) as [Hml Hbrk].
  destruct (map_read_run s (free_map s) (brk s + 2) e b0) as (m & k & E & Hr); [done|done|lia|done|congruence|lia|exact Hd|exact Hext|done|exact Hcon|].
  exists m, k. rewrite Ha0 in Hr. split; [|exact Hr]. unfold free_map_open. run_step (open_map_inode s Hid ltac:(lia)). run_step (open_map_file s Hid).
  rewrite (bind_Ret _ _ _ tt (mounted s (free_map s) (brk s + 2))) by done. rewrite assert_bind by (apply bool_decide_eq_true_2; lia).
  run_step E. by rewrite assert_true.
Qed.

Lemma mounted_core s L D b m k :
  fs_idle s → mountable (dev_size s) (disk s) L D b → bm_ok m → bit_cnt m = dev_size s → Bitmap.abs m = Bitmap.abs b → brk s + 2 ≤ k →
  core_inv (mounted s m k) L D [].
Proof.
  intros Hid Hmt Hm Hc Ha Hk. pose proof Hid as [I1 I2 I3 I4 [Hml Hbrk]]. pose proof Hmt as [M1 (e & He & Hlen & Henc) M3 M4 M5 M6].
  assert (bit_cnt b = dev_size s) as Hcb by exact (ly_cnt _ _ M1).
  set (t := set_map_file 0 (set_map b s)). assert (st_inv t L []) as Ht.
  { split; [apply (layout_same (ondisk (dev_size s) (disk s) b)); try done; apply M1| |by left|by intros ?].
    apply (mem_same s); [by apply mem_idle|done|done|done|done|done|done]. }
  pose proof (loaded_inv t L [] 0 e Ht He ltac:(by intros p i; cbn; rewrite I1) ltac:(cbn; by rewrite I3, I4)) as Ht1.
  assert (inodes (loaded 0 t) !! brk s = Some (map_inode s)) as Hi by apply lookup_insert_eq.
  destruct (file_open_run (loaded 0 t) L [] (brk s) _ Ht1 Hi) as [_ Ht2].
  assert (data (map_inode s) = InodeDisk e.1 e.2 INODE_MAGIC) as Hd by (exact (ly_disk _ _ M1 0 e He)).
  split.
  - split.
    + by apply (layout_same (ondisk (dev_size s) (disk s) b)); [|..|cbn; congruence|].
    + apply (mem_same _ _ _ _ (si_mem _ _ _ Ht2)); [cbn; by rewrite I1|cbn; by rewrite I2|cbn; by rewrite I3|cbn; by rewrite I4|cbn; lia|done].
    + right. exists (File (brk s) 0 false), (map_inode s), e.
      cbn [files inodes mounted free_map_file f_inode deny_write_cnt sector dev_size]. rewrite !lookup_singleton_eq. split_and!; try done. lia.
    + intros _. exists e. split; [done|]. apply (encodes_same _ b); [exact Henc|cbn; congruence|done].
  - cbn. lia.
  - exact M3.
  - done.
  - done.
  - intros p i. cbn. intros [<- <-]%lookup_singleton_Some. cbn. split; [done|]. intros Hn. destruct Hn. by left.
  - intros sec Hs. left. by apply M6.
  - intros f fl i. cbn. intros [<- <-]%lookup_singleton_Some _ Hne. done.
Qed.

(** ** Unmounting *)

(** Only the file of the free map is open. *)
Record alone (s : fs) (p : Z) (i : inode) : Prop := {
  al_files : ∃ pos, files s = {[ free_map_file s := File p pos false ]};
  al_inodes : inodes s = {[ p := i ]};
  al_open : open_inodes s = [p];
  al_dirs : dirs s = ∅;
  al_cnt : open_cnt i = 1;
  al_kept : removed i = false;
  al_nonzero : free_map_file s ≠ 0 ∧ p ≠ 0
}.

Lemma map_singleton {V} (m : gmap Z V) k v : m !! k = Some v → (∀ j, j ≠ k → m !! j = None) → m = {[ k := v ]}.
Proof.
  intros Hk Hj. apply map_eq. intros j. destruct (decide (j = k)) as [->|Hne]; [by rewrite lookup_singleton_eq|]. rewrite lookup_singleton_ne by done. by apply Hj.
Qed.

Lemma alone_of s L :
  st_inv s L [] → free_map_file s ≠ 0 → dirs s = ∅ → (∀ f, f ≠ free_map_file s → files s !! f = None) →
  (∀ p i, inodes s !! p = Some i → sector i = 0 → removed i = false) → ∃ p i, alone s p i.
Proof.
  intros [Hl Hm Hh _] Hz Hd Hf Hr. destruct Hh as [?|(fl & i & e & Hfl & Hi & Hdn & Hs & _)]; [done|].
  pose proof (map_singleton _ _ _ Hfl Hf) as Ef. destruct (mi_cnt _ _ _ Hm _ _ Hi) as (Hcnt & _ & Hden).
  assert (∀ q, refs s q = at_inode q (f_inode fl)) as Hrefs.
  { intros q. unfold refs. rewrite Ef, Hd. rewrite <- insert_empty. rewrite sum_insert_fresh by apply lookup_empty.
    change (sum_map (λ f, at_inode q (f_inode f)) ∅) with 0. change (sum_map (λ d, at_inode q (d_inode d)) ∅) with 0. lia. }
  assert (∀ q, q ≠ f_inode fl → inodes s !! q = None) as Hone.
  { intros q Hq. destruct (inodes s !! q) as [j|] eqn:Ej; [|done]. destruct (mi_cnt _ _ _ Hm _ _ Ej) as (Hc & H1 & _).
    rewrite Hrefs in Hc. rewrite at_inode_ne in Hc by done. change (occ q []) with 0 in Hc. lia. }
  exists (f_inode fl), i. split.
  - exists (f_pos fl). rewrite Ef. f_equal. destruct fl as [p pos dn]. cbn. f_equal. destruct dn; [|done]. exfalso.
    destruct (counts_split s _ _ Hfl) as (_ & Hsp & Hnn & _). cbn [f_inode f_deny_write Z.b2z] in *. lia.
  - by apply map_singleton.
  - assert (∀ q, q ∈ open_inodes s ↔ q = f_inode fl) as Ho.
    { intros q. rewrite (mi_dom _ _ _ Hm). split; [|intros ->; by exists i]. intros [j Hj]. destruct (decide (q = f_inode fl)) as [|Hq]; [done|]. by rewrite Hone in Hj. }
    pose proof (mi_nodup _ _ _ Hm) as Hnd. destruct (open_inodes s) as [|q l]; [pose proof (proj2 (Ho (f_inode fl)) eq_refl) as Hx; by apply elem_of_nil in Hx|].
    assert (q = f_inode fl) as -> by (apply Ho; left). f_equal. destruct l as [|q' l]; [done|]. assert (q' = f_inode fl) as -> by (apply Ho; right; left).
    apply NoDup_cons in Hnd as [Hnd _]. destruct Hnd. left.
  - done.
  - rewrite Hcnt, Hrefs, at_inode_self. done.
  - by apply (Hr (f_inode fl)).
  - split; [done|]. destruct (inode_nonzero _ _ _ _ _ Hm Hi). lia.
Qed.

Lemma free_map_close_run s p i : alone s p i → mem_ok s → free_map_close s = Ret (tt, set_files ∅ (set_inodes ∅ (set_open [] s))).
Proof.
  intros [A1 A2 A3 A4 A5 A6 [A7 A8]] Hok. unfold free_map_close. rewrite (bind_Ret _ _ _ (free_map_file s) s) by done.
  destruct A1 as [pos Ef].
  assert (files s !! free_map_file s = Some (File p pos false)) as Hf by (rewrite Ef; apply lookup_singleton_eq).
  assert (inodes s !! p = Some i) as Hi by (rewrite A2; apply lookup_singleton_eq).
  unfold file_close. rewrite bool_decide_eq_true_2 by done. unfold file_allow_write.
  rewrite bind_assoc. rewrite (bind_Ret _ _ _ _ _ (gets_opt_Some (λ s', files s' !! free_map_file s) s _ Hf)). cbn [f_deny_write]. rewrite ret_bind.
  rewrite (bind_Ret _ _ _ _ _ (gets_opt_Some (λ s', files s' !! free_map_file s) s _ Hf)). cbn [f_inode].
  set (i1 := with_open_cnt 0 i).
  assert (inode_close p s = Ret (tt, set_inodes ∅ (set_open [] s))) as E.
  { unfold inode_close. rewrite bool_decide_eq_false_2 by done. rewrite (bind_Ret _ _ _ _ _ (gets_opt_Some (λ s', inodes s' !! p) s _ Hi)).
    rewrite A5. change (s32 (1 - 1)) with 0. fold i1. rewrite (bind_Ret _ _ _ tt (set_inodes (<[p := i1]> (inodes s)) s)) by done.
    rewrite bool_decide_eq_true_2 by done. rewrite (bind_Ret _ _ _ tt (set_inodes (<[p := i1]> (inodes s)) (set_open [] s))).
    - cbn [removed i1 with_open_cnt]. rewrite A6, ret_bind. unfold modify. do 2 f_equal. unfold set_inodes. cbn [inodes set_open dev_size disk open_inodes files dirs free_map free_map_file brk mallocs].
      rewrite A2. rewrite insert_singleton_eq. by rewrite delete_singleton_eq.
    - unfold modify. do 2 f_equal. unfold set_open, set_inodes. cbn. rewrite A3. rewrite filter_cons_False by tauto. done. }
  rewrite (bind_Ret _ _ _ _ _ E). unfold modify. do 2 f_equal. unfold set_files. cbn. rewrite Ef. by rewrite delete_singleton_eq.
Qed.

Lemma done_idle s : mem_ok s → dirs s = ∅ → fs_idle (set_files ∅ (set_inodes ∅ (set_open [] s))).
Proof. intros Hm Hd. by split. Qed.

(** A state whose user files are all closed leaves a mountable disk. *)
Lemma done_mountable s a L : models_at s a L → a_files a = ∅ → mountable (dev_size s) (disk s) L (a_names a) (free_map s).
Proof.
  intros Hm Hf. pose proof (md_core _ _ _ Hm) as Hc. destruct Hc as [H1 H2 H3 H4 H5 H6 H7 H8] eqn:E. clear E.
  assert (∃ e, L !! 0 = Some e ∧ e.2 = byte_cnt (dev_size s)) as (e & He & Hlen).
  { destruct (si_home _ _ _ H1) as [?|(fl & i & e & _ & _ & _ & _ & _ & He & Hlen & _)]; [done|by exists e]. }
  split; [|exists e; split_and!; [done|done|]|done|done|done|].
  - apply (layout_same s); try done; apply H1.
  - destruct (si_saved _ _ _ H1 H2) as (e' & He' & Henc). rewrite He in He'. injection He' as <-. exact Henc.
  - intros sec Hs. destruct (decide (sec = 0)) as [->|H0]; [by left|]. destruct (decide (sec = 1)) as [->|H1']; [right; by left|].
    apply (live_iff s L (a_names a) (a_files a) sec (md_core _ _ _ Hm) (md_dirs _ _ _ Hm) (md_files _ _ _ Hm) H0 H1') in Hs.
    unfold a_live in Hs. rewrite Hf, fmap_empty, map_img_empty in Hs. rewrite elem_of_union, elem_of_map_img in Hs.
    destruct Hs as [(n & Hn)|Hs]; [right; right; by exists n|by apply elem_of_empty in Hs].
Qed.

Lemma filesys_done_run s a L :
  models_at s a L → a_files a = ∅ → filesys_done s = Ret (tt, set_files ∅ (set_inodes ∅ (set_open [] s))).
Proof.
  intros Hm Hf. pose proof (md_core _ _ _ Hm) as Hc. pose proof (ci_st _ _ _ _ Hc) as Hst. destruct (alone_of s L Hst (ci_mapf _ _ _ _ Hc) (md_dirs _ _ _ Hm)) as (p & i & Hal).
  - intros f Hne. destruct (files s !! f) as [fl|] eqn:E; [|done]. destruct (mi_files _ _ _ (si_mem _ _ _ Hst) f fl E) as [[i Hi] _].
    pose proof (md_files _ _ _ Hm f) as Hx. rewrite (proj2 (file_at_Some s f _)) in Hx by (split; [done|]; by exists fl, i). by rewrite Hf in Hx.
  - intros p i Hi Hs. destruct (removed i) eqn:Er; [|done]. apply (ci_removed _ _ _ _ Hc p i Hi) in Er. destruct Er. by left.
  - apply (free_map_close_run s p i); [done|]. by apply (st_mem_ok _ _ _ Hst).
Qed.

(** ** Formatting *)

(** Only the sectors of the two inodes of the file system are taken. *)
Record new_map (n : Z) (b : bitmap) : Prop := {
  nm_ok : bm_ok b;
  nm_cnt : bit_cnt b = n;
  nm_bits : ∀ x, 0 ≤ x < n → bit_at b x = bool_decide (x = 0 ∨ x = 1)
}.

Lemma free_map_init_run s junk :
  mem_ok s → 2 ≤ dev_size s < 2 ^ 32 - 32 → fresh_ok (dev_size s) junk →
  ∃ b, free_map_init junk s = Ret (tt, set_map b (bump (brk s + 2) s)) ∧ new_map (dev_size s) b.
Proof.
  intros Hm Hn Hj. destruct (bitmap_create_run (dev_size s) junk ltac:(lia) Hj) as (b & E & Hb & Hc & Ha).
  assert (∀ x, 0 ≤ x < dev_size s → bit_at b x = false) as Hz.
  { intros x Hx. assert (0 ≤ x < bit_cnt b) as Hx' by lia. pose proof (bit_at_abs b x Hx') as Hl. rewrite Ha in Hl. by apply lookup_replicate in Hl as [? _]. }
  destruct (bitmap_mark_run b 0 Hb ltac:(lia)) as (b1 & E1 & Hb1 & Hc1 & Hz1). destruct (bitmap_mark_run b1 1 Hb1 ltac:(lia)) as (b2 & E2 & Hb2 & Hc2 & Hz2).
  exists b2. split.
  2:{ split; [done|congruence|]. intros x Hx. rewrite Hz2, Hz1, Hz by lia. repeat case_decide; case_bool_decide; try done; lia. }
  unfold free_map_init. change FREE_MAP_SECTOR with 0. change ROOT_DIR_SECTOR with 1. rewrite (bind_Ret _ _ _ (dev_size s) s) by done. run_step (fs_malloc_run s Hm). destruct Hm as [Hml Hbrk].
  rewrite bool_decide_eq_true_2 by lia. assert (mem_ok (bump (brk s + 1) s)) as Hm1 by (apply bump_ok; lia). run_step (fs_malloc_run _ Hm1).
  change (brk (bump (brk s + 1) s)) with (brk s + 1). rewrite (bool_decide_eq_true_2 (brk s + 1 ≠ 0)) by lia. replace (brk s + 1 + 1) with (brk s + 2) by lia.
  rewrite (bind_Ret _ _ _ tt (set_map b (bump (brk s + 2) s))) by (by rewrite E).
  rewrite (bind_Ret _ _ _ tt (set_map b1 (bump (brk s + 2) s))) by (unfold on_map; cbn [free_map set_map]; by rewrite E1).
  unfold on_map. cbn [free_map set_map]. by rewrite E2.
Qed.

(** Writing the map's file through its handle. *)
Lemma set_map_file_home s L f fl i e :
  files s !! f = Some fl → inodes s !! f_inode fl = Some i → deny_write_cnt i = 0 → sector i = 0 → data i = InodeDisk e.1 e.2 INODE_MAGIC →
  L !! 0 = Some e → e.2 = byte_cnt (dev_size s) → f ≠ 0 → map_home (set_map_file f s) L.
Proof. intros. right. by exists fl, i, e. Qed.

Lemma no_run_not s n st : no_run s n → 0 ≤ st → st + n ≤ dev_size s → (∀ x, st ≤ x < st + n → bit_at (free_map s) x = false) → False.
Proof. intros Hno H0 Hle Hf. destruct (Hno st H0 Hle) as (x & Hx & Hb). rewrite Hf in Hb; done. Qed.

Lemma byte_cnt_run n : 0 ≤ n < 2 ^ 32 - 32 → byte_cnt n = 4 * ((n + 31) `div` 32).
Proof. intros Hn. unfold byte_cnt. rewrite elem_cnt_spec by done. apply uwrap_id. Z.div_mod_to_equations. lia. Qed.

(** The state once the free map has its file. *)
Record map_made (s s' : fs) (st : Z) : Prop := {
  mm_st : st_inv s' {[ 0 := (st, byte_cnt (dev_size s)) ]} [];
  mm_alone : ∃ p i, alone s' p i;
  mm_dev : dev_size s' = dev_size s;
  mm_bits : ∀ x, 0 ≤ x < dev_size s → bit_at (free_map s') x = bool_decide (x = 0 ∨ x = 1 ∨ in_range st (nsec (byte_cnt (dev_size s))) x);
  mm_start : 2 ≤ st
}.

Lemma free_map_create_run s :
  fs_idle s → new_map (dev_size s) (free_map s) → free_map_file s = 0 → 4 ≤ dev_size s < 2 ^ 32 - 32 →
  ∃ s' st, free_map_create s = Ret (tt, s') ∧ map_made s s' st.
Proof.
  intros Hid [N1 N2 N3] Hf0 Hn. pose proof Hid as [I1 I2 I3 I4 I5]. set (n := dev_size s) in *. pose proof (byte_cnt_run n ltac:(lia)) as Hbc.
  assert (0 ≤ byte_cnt n < 2 ^ 31 - 512) as Hbr by (rewrite Hbc; Z.div_mod_to_equations; lia).
  assert (layout s ∅) as Hl by (split; [done|done|..]; intros; by rewrite lookup_empty in *).
  pose proof (nsec_bounds (byte_cnt n) ltac:(lia)) as [Hns Hns0].
  destruct (inode_create_run s ∅ 0 (byte_cnt n) I5 Hl ltac:(by left) Hbr ltac:(lia) ltac:(by right)) as [(st & s1 & E1 & Hcs)|[_ Hno]].
  { intros x e. by rewrite lookup_empty. }
  { by rewrite N3, bool_decide_eq_true_2 by (fold n; lia). }
  2:{ exfalso. apply (no_run_not _ _ 2 Hno); [lia|fold n; rewrite Hbc in *; Z.div_mod_to_equations; lia|].
      intros x Hx. rewrite N3 by (fold n; rewrite Hbc in *; Z.div_mod_to_equations; lia). apply bool_decide_eq_false_2. lia. }
  set (L := <[0 := (st, byte_cnt n)]> (∅ : gmap Z (Z * Z))). assert (L !! 0 = Some (st, byte_cnt n)) as HL by apply lookup_insert_eq.
  pose proof (cs_rest _ _ _ _ _ _ Hcs) as Hr1. destruct (ly_ext _ _ (cs_layout _ _ _ _ _ _ Hcs) 0 _ HL) as (Hext & _ & Hself). cbn [fst snd] in *.
  assert (dev_size s1 = n ∧ free_map_file s1 = 0 ∧ inodes s1 = ∅ ∧ files s1 = ∅ ∧ dirs s1 = ∅ ∧ open_inodes s1 = [] ∧ mallocs s1 = []) as (Ed1 & Em1 & Ei1 & Ef1 & Edr1 & Eo1 & Eml1)
    by (rewrite Hr1; cbn; split_and!; done).
  assert (2 ≤ st) as Hst2.
  { destruct Hext as (Hs0 & _ & Hs1 & _). cbn [fst snd] in *. rewrite Ed1 in Hs1.
    assert (1 ≤ nsec (byte_cnt n)) as H1 by (rewrite Hbc in *; Z.div_mod_to_equations; lia).
    assert (bit_at (free_map s) st = false) as Hb by (apply (cs_free _ _ _ _ _ _ Hcs); unfold in_range; lia).
    rewrite N3 in Hb by (fold n; lia). apply bool_decide_eq_false_1 in Hb. lia. }
  assert (fs_idle s1) as Hid1. { split; [done..|]. split; [done|]. pose proof (cs_brk _ _ _ _ _ _ Hcs). destruct I5 as [_ I5]. by apply (Z.lt_le_trans _ (brk s)). }
  assert (st_inv s1 L []) as Hs1 by (split; [apply Hcs|by apply mem_idle|by left|apply Hcs]).
  destruct (inode_open_run s1 L [] 0 _ Hs1 HL) as (p & s2 & E2 & Hp & Hos & Hs2); [rewrite Ef1, Edr1, !map_size_empty; cbn; lia|].
  destruct (os_new _ _ _ _ Hos) as (i & Hi & Hisec & [(_ & Hirm & _)|(j & Hj & _)]); [|by rewrite Ei1 in Hj].
  destruct (file_open_run s2 L [] p i Hs2 Hi) as [E3 Hs3]. set (f := brk s2) in *. set (s3 := set_files _ _) in E3, Hs3. pose proof (os_rest _ _ _ _ Hos) as Hr2.
  assert (dev_size s3 = n ∧ files s3 = {[ f := File p 0 false ]} ∧ dirs s3 = ∅) as (Ed3 & Ef3 & Edr3).
  { unfold s3. rewrite Hr2. cbn. rewrite Ef1. done. }
  assert (0 < f) as Hfpos by (destruct (st_mem_ok _ _ _ Hs2); done).
  destruct (mi_node _ _ _ (si_mem _ _ _ Hs3) p i Hi) as (e & He & Hdat). rewrite Hisec, HL in He. injection He as <-.
  assert (deny_write_cnt i = 0) as Hden.
  { destruct (mi_cnt _ _ _ (si_mem _ _ _ Hs3) p i Hi) as (_ & _ & ->). unfold denies. rewrite Ef3, <- insert_empty, sum_insert_fresh by apply lookup_empty.
    change (sum_map (denies_at p) ∅) with 0. unfold denies_at. cbn [f_deny_write]. by rewrite andb_false_r. }
  assert (map_home (set_map_file f s3) L) as Hh.
  { apply (set_map_file_home s3 L f (File p 0 false) i (st, byte_cnt n)); try done; [by rewrite Ef3, lookup_singleton_eq|by rewrite Ed3|lia]. }
  assert (layout (set_map_file f s3) L) as Hl3 by (apply (layout_same s3); try done; apply Hs3).
  destruct (map_write_run (set_map_file f s3) L) as (b & d & Hb & E4 & Hdk & Hsv); [apply (st_mem_ok _ _ _ Hs3)|done|done|cbn; lia|].
  set (s4 := set_disk d (bump b (set_map_file f s3))) in *. exists s4, st. split.
  - unfold free_map_create. rewrite (bind_Ret _ _ _ (free_map s) s) by done. unfold bitmap_file_size. rewrite N2. rewrite swrap_id by lia. run_step E1.
    rewrite assert_bind by done. change FREE_MAP_SECTOR with 0. run_step E2. run_step E3. rewrite (bind_Ret _ _ _ tt (set_map_file f s3)) by done.
    rewrite assert_bind by (apply bool_decide_eq_true_2; lia). change (free_map_file (set_map_file f s3)) with f in E4. run_step E4. by rewrite assert_true.
  - assert (st_inv s4 L []) as Hs4.
    { split; [|by apply (mem_same _ _ _ _ (si_mem _ _ _ Hs3))|exact Hh|exact Hsv].
      apply (layout_frame (set_map_file f s3)); try done; [apply Hl3|apply Hl3|]. intros sec e a He Ha. apply Hdk. rewrite Ha. by apply (map_sector_not_inode (set_map_file f s3) L sec e). }
    split; [exact Hs4| |exact Ed3| |done].
    + apply (alone_of s4 L Hs4); [cbn; lia|exact Edr3| |].
      * intros g Hg. change (files s3 !! g = None). rewrite Ef3. by apply lookup_singleton_ne.
      * intros q j Hj Hjs. change (inodes s2 !! q = Some j) in Hj. assert (q = p) as -> by (apply (mi_inj _ _ _ (si_mem _ _ _ Hs2) q p j i Hj Hi); congruence). congruence.
    + intros x Hx. change (free_map s4) with (free_map s2). rewrite Hr2. change (free_map (set_open _ _)) with (free_map s1).
      rewrite (cs_bits _ _ _ _ _ _ Hcs) by lia. fold n. rewrite N3 by done. case_decide as Hin.
      * symmetry. apply bool_decide_eq_true_2. by right; right.
      * apply bool_decide_ext. tauto.
Qed.

Lemma alone_quiet s s' p i d b m : alone s p i → s' = set_disk d (bump b (set_map m s)) → alone s' p i.
Proof. intros [A1 A2 A3 A4 A5 A6 A7] ->. by split. Qed.

Lemma dir_inv_zero : dir_inv (replicate 320 0) ∅.
Proof.
  assert (∀ k, (k < 16)%nat → e_in_use (slot (replicate 320 0) k) = false) as Hz.
  { intros k Hk. unfold slot. rewrite drop_replicate, take_replicate. replace (20 `min` (320 - 20 * k))%nat with 20%nat by lia. done. }
  split.
  - apply length_replicate.
  - intros k Hk Hu. rewrite Hz in Hu; done.
  - intros name sec. split; [by rewrite lookup_empty|]. intros (k & Hk & Hu & _). rewrite Hz in Hu; done.
  - intros k k' name sec sec' (Hk & Hu & _). rewrite Hz in Hu; done.
Qed.

Lemma do_format_run s :
  fs_idle s → new_map (dev_size s) (free_map s) → free_map_file s = 0 → 4 ≤ dev_size s < 2 ^ 32 - 32 →
  ∃ s' L, do_format s = Ret (tt, s') ∧ fs_idle s' ∧ dev_size s' = dev_size s ∧ mountable (dev_size s') (disk s') L ∅ (free_map s') ∧
    L !! 0 ≠ None ∧ (∀ x, is_Some (L !! x) → x = 0 ∨ x = 1).
Proof.
  intros Hid Hnm Hf0 Hn. destruct (free_map_create_run s Hid Hnm Hf0 Hn) as (s1 & st & E1 & [M1 (p & i & Hal) M3 M4 M5]).
  pose proof (byte_cnt_run (dev_size s) ltac:(lia)) as Hbc. set (n := dev_size s) in *. set (L := {[0 := (st, byte_cnt n)]}) in *.
  pose proof (nsec_bounds (byte_cnt n) ltac:(rewrite Hbc; Z.div_mod_to_equations; lia)) as [Hns Hns0]. pose proof (al_nonzero _ _ _ Hal) as [Hz _].
  assert (∀ x, 0 ≤ x < n → x ≠ 0 → x ≠ 1 → ¬ in_range st (nsec (byte_cnt n)) x → bit_at (free_map s1) x = false) as Hfree.
  { intros x Hx H0 H1 Hin. rewrite M4 by done. apply bool_decide_eq_false_2. tauto. }
  destruct (inode_create_run s1 L 1 320 (st_mem_ok _ _ _ M1) (si_lay _ _ _ M1) (si_home _ _ _ M1) ltac:(lia) ltac:(lia) ltac:(left; lia))
    as [(st2 & s2 & E2 & Hcs)|[_ Hno]].
  { intros x e [<- <-]%lookup_singleton_Some [?|Hx]; [done|]. cbn in Hx. lia. }
  { rewrite M4 by lia. apply bool_decide_eq_true_2. by right; left. }
  2:{ exfalso. change (nsec 320) with 1 in Hno. assert (nsec (byte_cnt n) + 3 ≤ n) as Hle by (rewrite Hbc in *; Z.div_mod_to_equations; lia).
      destruct (decide (st = 2)) as [Est|Est].
      - apply (no_run_not _ _ (2 + nsec (byte_cnt n)) Hno); [lia|rewrite M3; lia|]. intros x Hx. apply Hfree; unfold in_range; lia.
      - apply (no_run_not _ _ 2 Hno); [lia|rewrite M3; lia|]. intros x Hx. apply Hfree; unfold in_range; lia. }
  set (L2 := <[1 := (st2, 320)]> L) in *. pose proof (alone_quiet s1 s2 p i _ _ _ Hal (cs_rest _ _ _ _ _ _ Hcs)) as Hal2.
  assert (dev_size s2 = n ∧ mallocs s2 = []) as [Ed2 Eml2] by (rewrite (cs_rest _ _ _ _ _ _ Hcs); cbn; done).
  assert (mem_ok s2) as Hm2. { split; [done|]. pose proof (cs_brk _ _ _ _ _ _ Hcs). destruct (st_mem_ok _ _ _ M1). lia. }
  pose proof (free_map_close_run s2 p i Hal2 Hm2) as E3. set (s3 := set_files _ _) in E3. exists s3, L2. split_and!.
  - unfold do_format. run_step E1. unfold dir_create. change (s32 (u32 (16 * ENTRY_SIZE))) with 320. change ROOT_DIR_SECTOR with 1. run_step E2. rewrite assert_bind by done. exact E3.
  - apply done_idle; [done|apply Hal2].
  - done.
  - change (dev_size s3) with (dev_size s2). change (disk s3) with (disk s2). change (free_map s3) with (free_map s2). rewrite Ed2. split.
    + apply (layout_same s2); try done; apply Hcs.
    + exists (st, byte_cnt n). split_and!; [unfold L2; rewrite lookup_insert_ne by done; apply lookup_singleton_eq|done|].
      destruct (cs_saved _ _ _ _ _ _ Hcs) as (e & He & Henc); [apply Hal2|]. rewrite lookup_insert_ne in He by done.
      apply lookup_singleton_Some in He as [_ <-]. exact Henc.
    + exists (st2, 320). split_and!; [apply lookup_insert_eq|done|]. pose proof (cs_zero _ _ _ _ _ _ Hcs) as Hc0.
      change (content (ondisk n (disk s2) (free_map s2)) (st2, 320)) with (content s2 (st2, 320)). rewrite Hc0. apply dir_inv_zero.
    + intros name sec. by rewrite lookup_empty.
    + intros a a' sec. by rewrite lookup_empty.
    + intros sec. unfold L2. intros [<-|[_ [e He]]]%lookup_insert_is_Some; [by right; left|]. apply lookup_singleton_Some in He as [<- _]. by left.
  - unfold L2. rewrite lookup_insert_ne by done. unfold L. by rewrite lookup_singleton_eq.
  - intros x. unfold L2. intros [<-|[_ [e He]]]%lookup_insert_is_Some; [by right|]. apply lookup_singleton_Some in He as [<- _]. by left.
Qed.

(** ** [filesys_init] *)

(** The kernel has just started; [inode_init] has not run. *)
Record booted (s : fs) : Prop := {
  bt_inodes : inodes s = ∅;
  bt_files : files s = ∅;
  bt_dirs : dirs s = ∅;
  bt_map_file : free_map_file s = 0;
  bt_mem : mem_ok s;
  bt_dev : 4 ≤ dev_size s < 2 ^ 32 - 32
}.

Lemma init_map_run s junk :
  booted s → fresh_ok (dev_size s) junk →
  ∃ s1, (inode_init;; free_map_init junk) s = Ret (tt, s1) ∧ fs_idle s1 ∧ new_map (dev_size s1) (free_map s1) ∧
    dev_size s1 = dev_size s ∧ disk s1 = disk s ∧ free_map_file s1 = 0.
Proof.
  intros [B1 B2 B3 B4 B5 B6] Hj. destruct (free_map_init_run (set_open [] s) junk B5 ltac:(cbn; lia) Hj) as (b & E & Hb).
  exists (set_map b (bump (brk s + 2) (set_open [] s))). split_and!; [exact E| |done|done|done|done].
  split; try done. apply bump_ok. destruct B5 as [_ ?]. lia.
Qed.

Lemma mounted_models s L D b m k :
  fs_idle s → mountable (dev_size s) (disk s) L D b → bm_ok m → bit_cnt m = dev_size s → Bitmap.abs m = Bitmap.abs b → brk s + 2 ≤ k →
  ∀ a, a_names a = D → a_files a = ∅ → (∀ x, a_data a !! x = data_at s L x) → models (mounted s m k) a.
Proof.
  intros Hid Hmt Hm Hc Ha Hk a <- Hf Hdt. exists L. split; [by apply (mounted_core s L (a_names a) b)|done|exact Hdt|].
  intros f. rewrite Hf, lookup_empty. unfold file_at. case_decide as E; [done|]. cbn [files mounted free_map_file] in *. by rewrite lookup_singleton_ne.
Qed.

Lemma format_models s junk :
  booted s → fresh_ok (dev_size s) junk → ∃ s', filesys_init junk true s = Ret (tt, s') ∧ models s' (AState ∅ ∅ ∅).
Proof.
  intros Hb Hj. destruct (init_map_run s junk Hb Hj) as (s1 & E1 & Hid1 & Hnm & Edv & Edk & Em).
  destruct (do_format_run s1 Hid1 Hnm Em) as (s2 & L & E2 & Hid2 & Edv2 & Hmt & _ & HL); [rewrite Edv; apply Hb|].
  pose proof (mt_layout _ _ _ _ _ Hmt) as Hl. destruct (free_map_open_run s2 L ∅ (free_map s2) Hid2) as (m & k & E3 & Hm & Hc & Ha & Hk); [apply Hl|exact (ly_cnt _ _ Hl)|done|].
  exists (mounted s2 m k). split.
  - unfold filesys_init. rewrite <- bind_assoc. run_step E1. run_step E2. exact E3.
  - apply (mounted_models s2 L ∅ (free_map s2)); try done. intros x. cbn [a_data]. rewrite lookup_empty. unfold data_at. case_decide as E; [done|].
    destruct (L !! x) as [e|] eqn:Ex; [|done]. destruct (HL x); [by eexists|tauto..].
Qed.
