(* ===== verification/FileSysSession.v ===== *)
(** * FileSysSession: what the file system promises its callers

    Sessions of any length and any caller refine the specification of [FileSysSpec];
    the files survive unmounting and mounting again; creation fails for no other reason
    than the name or the room. *)

From S2P Require Import Prelude Bitmap FileSys FileSysIO FileSysInv FileSysMem FileSysFiles FileSysDir FileSysOps FileSysNames FileSysSpec FileSysMount.

(** Every operation returns and does what the specification says. *)
Lemma op_refines junk s a op : length junk = 20%nat → models s a → op_ok a op → step_ok junk s a op.
Proof.
  intros Hj [L Hm] Ho. destruct op.
  - by apply (create_ok junk s a L).
  - by apply (remove_ok junk s a L).
  - by apply (open_ok junk s a L).
  - by apply (reopen_ok junk s a L).
  - by apply (close_ok junk s a L).
  - by apply (read_ok junk s a L).
  - by apply (write_ok junk s a L).
  - by apply (handle_ops_ok junk s a L).
  - by apply (handle_ops_ok junk s a L).
  - by apply (handle_ops_ok junk s a L).
  - by apply (handle_ops_ok junk s a L).
  - by apply (handle_ops_ok junk s a L).
Qed.

Section session.
(** A caller asks for an operation given the answers it has had; [junk] is the content
    of the stack at each call. *)
Context (client : list fres → fop) (junk : list fres → list Z).

Fixpoint session (n : nat) (h : list fres) : M fs (list fres) :=
  match n with
  | O => mret h
  | S n => r ← run_op (junk h) (client h); session n (h ++ [r])
  end.

(** The answers [h'] and the state [a'] are among those the specification allows. *)
Fixpoint allowed (n : nat) (a : astate) (h h' : list fres) (a' : astate) : Prop :=
  match n with
  | O => h' = h ∧ a' = a
  | S n => ∃ r a1, fspec a (client h) r a1 ∧ allowed n a1 (h ++ [r]) h' a'
  end.

(** Whatever the specification allows, the next call is one that may be asked. *)
Fixpoint asks_ok (n : nat) (a : astate) (h : list fres) : Prop :=
  match n with
  | O => True
  | S n => op_ok a (client h) ∧ ∀ r a1, fspec a (client h) r a1 → asks_ok n a1 (h ++ [r])
  end.

Lemma session_refines n s a h :
  (∀ h, length (junk h) = 20%nat) → models s a → asks_ok n a h →
  ∃ h' s' a', session n h s = Ret (h', s') ∧ models s' a' ∧ allowed n a h h' a'.
Proof.
  intros Hj. revert s a h. induction n as [|n IH]; intros s a h Hm Ha; [by exists h, s, a|].
  destruct Ha as [Ho Ha]. destruct (op_refines (junk h) s a (client h) (Hj h) Hm Ho) as (r & s1 & a1 & E & Hm1 & Hsp).
  destruct (IH s1 a1 (h ++ [r]) Hm1 (Ha r a1 Hsp)) as (h' & s' & a' & E' & Hm' & Hal).
  exists h', s', a'. cbn [session]. run_step E. split_and!; [done|done|]. by exists r, a1.
Qed.
End session.

(** C2: a freshly formatted disk of any size from four sectors on and any former contents is
    an empty file system, and, as long as no allocation fails, from then on, for any caller
    that chooses its calls from the answers it has had and for any number of calls, every call returns and does what a map of names
    to files and a table of open files do: creation gives a file of zeros or is refused,
    as a full disk or directory makes it, writes
    change exactly the bytes written and stop at the end of the file, reads return the
    bytes last written, positions advance by what was transferred, a removed file stays
    readable and writable until its last handle is closed and is forgotten then, and
    nobody can write while somebody denies it. *)
Theorem filesys_session_refines client junk init_junk n s :
  booted s → fresh_ok (dev_size s) init_junk → (∀ h, length (junk h) = 20%nat) → asks_ok client n (AState ∅ ∅ ∅) [] →
  ∃ s1 h s2 a, filesys_init init_junk true s = Ret (tt, s1) ∧ session client junk n [] s1 = Ret (h, s2) ∧
    allowed client n (AState ∅ ∅ ∅) [] h a ∧ models s2 a.
Proof.
  intros Hb Hi Hj Ha. destruct (format_models s init_junk Hb Hi) as (s1 & E1 & Hm1).
  destruct (session_refines client junk n s1 _ [] Hj Hm1 Ha) as (h & s2 & a & E2 & Hm2 & Hal). by exists s1, h, s2, a.
Qed.

Definition demo_client (h : list fres) : fop :=
  match h with
  | [] => FCreate [97; 98] 700
  | _ => FOpen [97; 98]
  end.

Lemma blank_booted n : 4 ≤ n < 2 ^ 32 - 32 → booted (blank n).
Proof. intros Hn. by split. Qed.

Lemma filesys_session_refines_witness :
  ∃ s1 h s2 a, filesys_init [7; 7] true (blank 40) = Ret (tt, s1) ∧ session demo_client (λ _, replicate 20 7) 2 [] s1 = Ret (h, s2) ∧
    allowed demo_client 2 (AState ∅ ∅ ∅) [] h a ∧ models s2 a.
Proof.
  apply (filesys_session_refines demo_client (λ _, replicate 20 7) [7; 7] 2 (blank 40)).
  - apply blank_booted. lia.
  - split; [vm_compute; congruence|]. repeat constructor; lia.
  - reflexivity.
  - cbn [asks_ok]. split; [split; [split; [repeat constructor; lia|lia]|vm_compute; reflexivity]|].
    intros r a1 Hs. split; [split; [exact I|]|exact (λ _ _ _, I)].
    destruct Hs as [(id & _ & _ & _ & _ & ->)|[_ ->]]; vm_compute; reflexivity.
Defined.

(** C3: when every file is closed, unmounting and then mounting the same disk in a
    kernel that has just started gives back the same names and the same data, whatever
    that kernel's memory held, as long as no allocation fails. *)
Theorem filesys_remount s a :
  models s a → a_files a = ∅ →
  ∃ s1, filesys_done s = Ret (tt, s1) ∧
    ∀ t init_junk, booted t → fresh_ok (dev_size t) init_junk → dev_size t = dev_size s1 → disk t = disk s1 →
      ∃ t1, filesys_init init_junk false t = Ret (tt, t1) ∧ models t1 a.
Proof.
  intros [L Hm] Hf. eexists. split; [exact (filesys_done_run s a L Hm Hf)|]. cbn [dev_size disk set_files set_inodes set_open]. intros t init_junk Hb Hj Edv Edk.
  destruct (init_map_run t init_junk Hb Hj) as (t1 & E1 & Hid1 & Hnm & Edv1 & Edk1 & Em).
  assert (mountable (dev_size t1) (disk t1) L (a_names a) (free_map s)) as Hmt by (rewrite Edv1, Edk1, Edv, Edk; by apply done_mountable).
  destruct (free_map_open_run t1 L (a_names a) (free_map s) Hid1 (nm_ok _ _ Hnm) (nm_cnt _ _ Hnm) Hmt) as (m & k & E3 & Hbm & Hc & Ha & Hk).
  exists (mounted t1 m k). split.
  - unfold filesys_init. rewrite <- bind_assoc. run_step E1. rewrite ret_bind. exact E3.
  - apply (mounted_models t1 L (a_names a) (free_map s)); try done. intros x. rewrite (md_data _ _ _ Hm). unfold data_at, content. by rewrite Edk1, Edk.
Qed.

(** A formatted disk of 40 sectors with one file. *)
Definition sample : M fs bool := filesys_init [7; 7] true;; filesys_create (replicate 20 7) [97] 5.
Definition sample_state : fs := if sample (blank 40) is Ret (_, s) then s else blank 40.

Lemma ret_map {A B} (m : M fs A) (g : A → B) s r s' : (x ← m; mret (g x)) s = Ret (r, s') → ∃ x, m s = Ret (x, s') ∧ r = g x.
Proof. unfold mbind, M_bind. destruct (m s) as [[x s1]| |]; [|done..]. intros [= <- <-]. by exists x. Qed.

Lemma sample_models_one : ∃ a, models sample_state a ∧ a_files a = ∅ ∧ ∃ id, a_names a = {[ [97] := id ]}.
Proof.
  destruct (format_models (blank 40) [7; 7]) as (s1 & E1 & Hm1).
  { apply blank_booted. lia. }
  { split; [vm_compute; congruence|]. repeat constructor; lia. }
  destruct (op_refines (replicate 20 7) s1 _ (FCreate [97] 5) eq_refl Hm1) as (r & s2 & a & E2 & Hm2 & Hsp).
  { split; [split; [repeat constructor; lia|lia]|vm_compute; reflexivity]. }
  apply ret_map in E2 as (b & E2 & ->). assert (sample (blank 40) = Ret (b, s2)) as E by (unfold sample; run_step E1; exact E2).
  assert (fst <$> (if sample (blank 40) is Ret x then Some x else None) = Some true) as Eb by (vm_compute; reflexivity).
  exists a. unfold sample_state. rewrite E in Eb |- *. cbn in Eb. split; [done|]. destruct Hsp as [(id & _ & _ & _ & _ & ->)|[Hr _]]; [|exfalso; injection Hr as ->; discriminate Eb].
  split; [done|]. by exists id.
Qed.

Lemma sample_models : ∃ a, models sample_state a ∧ a_files a = ∅ ∧ is_Some (a_names a !! [97]).
Proof. destruct sample_models_one as (a & H1 & H2 & id & H3). exists a. split_and!; [exact H1|exact H2|]. rewrite H3, lookup_singleton_eq. by eexists. Qed.

Lemma done_disk s a s1 : models s a → a_files a = ∅ → filesys_done s = Ret (tt, s1) → dev_size s1 = dev_size s ∧ disk s1 = disk s.
Proof. intros [L Hm] Hf. rewrite (filesys_done_run s a L Hm Hf). by intros [= <-]. Qed.

Lemma sample_size : dev_size sample_state = 40.
Proof. vm_compute. reflexivity. Qed.

(** The device of [sample_state] in a kernel that has just started. *)
Definition sample_reboot : fs := FS 40 (disk sample_state) ∅ [] ∅ ∅ (Bitmap 0 []) 0 1 [].

Lemma filesys_remount_witness :
  ∃ s1 t1 a, filesys_done sample_state = Ret (tt, s1) ∧ filesys_init [5; 5] false sample_reboot = Ret (tt, t1) ∧
    models t1 a ∧ is_Some (a_names a !! [97]).
Proof.
  destruct sample_models as (a & Hm & Hf & Hn). destruct (filesys_remount sample_state a Hm Hf) as (s1 & E & H).
  assert (dev_size s1 = 40 ∧ disk s1 = disk sample_state) as [Ed Ek].
  { destruct (done_disk _ _ _ Hm Hf E) as [Ed Ek]. split; [rewrite Ed; exact sample_size|exact Ek]. }
  destruct (H sample_reboot [5; 5]) as (t1 & Et & Ht).
  - split; [reflexivity|reflexivity|reflexivity|reflexivity|split; [reflexivity|reflexivity]|cbn; lia].
  - split; [vm_compute; congruence|]. repeat constructor; lia.
  - rewrite Ed. reflexivity.
  - rewrite Ek. reflexivity.
  - exists s1, t1, a. split; [exact E|split; [exact Et|split; [exact Ht|exact Hn]]].
Defined.

(** ** Creation *)

(** Creating a file succeeds whenever the name is one to fourteen characters and
    new, the directory has fewer than sixteen names, and somewhere on the disk are as many
    free sectors in a row as the data needs and one more. *)
Theorem filesys_create_succeeds junk s a name size st :
  length junk = 20%nat → models s a → op_ok a (FCreate name size) → good_name name → a_names a !! name = None → (base.size (a_names a) < 16)%nat →
  0 ≤ st → st + (nsec size + 1) ≤ dev_size s → (∀ x, st ≤ x < st + (nsec size + 1) → bit_at (free_map s) x = false) →
  ∃ s', filesys_create junk name size s = Ret (true, s').
Proof.
  intros Hj [L Hm] [[Hn Hs] Hf] [Hne Hle] Hno Hsz H0 Hdev Hfree.
  destruct (filesys_create_run junk name size Hj Hn Hs s L _ (md_core _ _ _ Hm) (md_dirs _ _ _ Hm) (models_few _ _ _ Hm Hf))
    as (s' & _ & [(sec & st' & E & _)|(_ & _ & _ & [Hbad|Hrun])]); [by exists s'|exfalso..].
  - destruct Hbad as [?|[?|[[? ?]|?]]]; [done|lia|congruence|lia].
  - by apply (no_run_not _ _ st Hrun).
Qed.

Lemma filesys_create_succeeds_witness :
  ∃ s', filesys_create (replicate 20 7) [98; 99] 1000 sample_state = Ret (true, s').
Proof.
  destruct sample_models_one as (a & Hm & Hf & id & Hn).
  apply (filesys_create_succeeds (replicate 20 7) sample_state a [98; 99] 1000 10); [reflexivity|exact Hm| | | | |lia| |].
  - split; [split; [repeat constructor; lia|lia]|rewrite Hf; vm_compute; reflexivity].
  - split; [discriminate|cbn; lia].
  - rewrite Hn. vm_compute. reflexivity.
  - rewrite Hn. vm_compute. lia.
  - rewrite sample_size. vm_compute. congruence.
  - intros x Hx. assert (10 ≤ x < 13) as Hx' by exact Hx. assert (x = 10 ∨ x = 11 ∨ x = 12) as [-> |[-> | ->]] by lia; vm_compute; reflexivity.
Defined.

(** ** Two defects *)

Definition result_of {A} (m : M fs A) (s : fs) : option A := if m s is Ret (x, _) then Some x else None.

(** Two calls that fail because the name is taken come between two creations. *)
Definition create_between (failed : bool) : M fs bool :=
  filesys_init [7] true;;
  _ ← filesys_create (replicate 20 7) [97] 0;
  (if failed then _ ← filesys_create (replicate 20 7) [97] 512; _ ← filesys_create (replicate 20 7) [97] 512; mret tt else mret tt);;
  filesys_create (replicate 20 7) [98] 512.

(** A creation that fails because the name is taken keeps the data sectors it had
    allocated: on a disk of eight sectors two such calls leave no room for a file that
    fits when they are not made. *)
Theorem filesys_create_leaks_sectors :
  result_of (create_between false) (blank 8) = Some true ∧ result_of (create_between true) (blank 8) = Some false.
Proof. split; vm_compute; reflexivity. Qed.

(** A second creation of a name, during which one allocation fails: that of the bounce
    buffer that the search of the directory needs. *)
Definition create_twice (outcomes : list bool) : M fs (bool * bool) :=
  filesys_init [7; 7] true;;
  a ← filesys_create (replicate 20 7) [97] 5;
  modify (λ s, set_mem (brk s) outcomes s);;
  b ← filesys_create (replicate 20 7) [97] 5;
  mret (a, b).

(** [lookup] takes an entry it cannot read for the end of the directory, so a
    creation during which one allocation fails gives a name that exists a second
    file and reports success; with memory it is refused. *)
Theorem dir_add_duplicates_name :
  result_of (create_twice []) (blank 40) = Some (true, false) ∧
  result_of (create_twice [true; true; true; true; true; false]) (blank 40) = Some (true, true).
Proof. split; vm_compute; reflexivity. Qed.
