(* ===== verification/Arithmetic.v ===== *)
(** * Arithmetic: 64-bit division from 32-bit division ([pintos/src/lib/arithmetic.c])

    [divl] is the processor's instruction: it divides 64 by 32 bits and traps ([None])
    on a zero divisor and on a quotient of more than 32 bits.  The functions the compiler
    calls are shown to compute the quotients of [Z] and not to trap, and the remainders
    to be those of [Z] reduced to 32 bits, the type their helpers return. *)

From S2P Require Import Prelude.

(** [divl %4] on the two halves of [n]. *)
Definition divl (n d : Z) : option Z :=
  let n1 := u32 (Z.shiftr n 32) in
  let n0 := u32 n in
  if bool_decide (d = 0) then None else
  let q := (n1 * 2 ^ 32 + n0) `div` d in
  if bool_decide (q < 2 ^ 32) then Some q else None.

Definition nlz (x : Z) : Z :=
  let '(n, x) := (0, x) in
  let '(n, x) := if bool_decide (x ≤ 65535) then (n + 16, u32 (Z.shiftl x 16)) else (n, x) in
  let '(n, x) := if bool_decide (x ≤ 16777215) then (n + 8, u32 (Z.shiftl x 8)) else (n, x) in
  let '(n, x) := if bool_decide (x ≤ 268435455) then (n + 4, u32 (Z.shiftl x 4)) else (n, x) in
  let '(n, x) := if bool_decide (x ≤ 1073741823) then (n + 2, u32 (Z.shiftl x 2)) else (n, x) in
  if bool_decide (x ≤ 2147483647) then n + 1 else n.

Definition udiv64 (n d : Z) : option Z :=
  if bool_decide (Z.shiftr d 32 = 0) then
    let b := 2 ^ 32 in
    let n1 := u32 (Z.shiftr n 32) in
    let n0 := u32 n in
    let d0 := u32 d in
    if bool_decide (d0 = 0) then None else
    q ← divl (u64 (b * (n1 `mod` d0) + n0)) d0;
    Some (u64 (q + b * (n1 `div` d0)))
  else if bool_decide (n < d) then Some 0 else
    let d1 := u32 (Z.shiftr d 32) in
    let s := nlz d1 in
    q ← divl (Z.shiftr n 1) (u32 (Z.shiftr (u64 (Z.shiftl d s)) 32));
    let q := Z.shiftr q (31 - s) in
    Some (if bool_decide (u64 (n - u64 (q - 1) * d) < d) then u64 (q - 1) else q).

Definition umod64 (n d : Z) : option Z := q ← udiv64 n d; Some (u32 (n - d * q)).

Definition u_abs (n : Z) : Z := if bool_decide (0 ≤ n) then u64 n else u64 (- u64 n).

Definition sdiv64 (n d : Z) : option Z :=
  q_abs ← udiv64 (u_abs n) (u_abs d);
  Some (if bool_decide ((n < 0) ↔ (d < 0)) then s64 q_abs else s64 (- s64 q_abs)).

Definition smod64 (n d : Z) : option Z := q ← sdiv64 n d; Some (s32 (s64 (n - d * q))).

Definition __divdi3 (n d : Z) : option Z := sdiv64 n d.
Definition __moddi3 (n d : Z) : option Z := smod64 n d.
Definition __udivdi3 (n d : Z) : option Z := udiv64 n d.
Definition __umoddi3 (n d : Z) : option Z := umod64 n d.

(** ** The unsigned quotient *)

Lemma halves n : 0 ≤ n < 2 ^ 64 → u32 (Z.shiftr n 32) * 2 ^ 32 + u32 n = n ∧ u32 (Z.shiftr n 32) = n `div` 2 ^ 32 ∧ u32 n = n `mod` 2 ^ 32.
Proof.
  intros Hn. rewrite Z.shiftr_div_pow2 by lia. unfold uwrap at 1 3. rewrite Z.mod_small by (Z.div_mod_to_equations; lia).
  unfold uwrap. split_and!; [|done|done]. Z.div_mod_to_equations. lia.
Qed.

Lemma divl_run n d : 0 ≤ n < 2 ^ 64 → 0 < d → n < d * 2 ^ 32 → divl n d = Some (n `div` d).
Proof.
  intros Hn Hd Hq. unfold divl. destruct (halves n Hn) as (E & _ & _). rewrite E. rewrite bool_decide_eq_false_2 by lia.
  rewrite bool_decide_eq_true_2; [done|]. apply Z.div_lt_upper_bound; lia.
Qed.

Lemma nlz_run x : 0 < x < 2 ^ 32 → 0 ≤ nlz x ≤ 31 ∧ 2 ^ 31 ≤ x * 2 ^ nlz x < 2 ^ 32.
Proof.
  intros Hx. unfold nlz. rewrite !Z.shiftl_mul_pow2 by lia.
  repeat (case_bool_decide; rewrite ?Z.shiftl_mul_pow2, ?uwrap_id by lia); lia.
Qed.

(** The estimate of the quotient from the 32 leading bits of the divisor. *)
Lemma estimate n d s v :
  0 ≤ n < 2 ^ 64 → 0 ≤ s ≤ 31 → 2 ^ 63 ≤ d * 2 ^ s < 2 ^ 64 → v = (d * 2 ^ s) `div` 2 ^ 32 →
  let q := ((n `div` 2) `div` v) `div` 2 ^ (31 - s) in n `div` d ≤ q ≤ n `div` d + 1.
Proof.
  intros Hn Hs Hd Hv q. set (k := 2 ^ (31 - s)). assert (k * 2 ^ s = 2 ^ 31) as Hks by (unfold k; rewrite <- Z.pow_add_r by lia; f_equal; lia).
  assert (0 < k) as Hk by (unfold k; apply Z.pow_pos_nonneg; lia). assert (0 < 2 ^ s) as H2s by (apply Z.pow_pos_nonneg; lia).
  assert (2 ^ 31 ≤ v < 2 ^ 32) as Hvr by (subst v; Z.div_mod_to_equations; lia).
  assert (q = n `div` (2 * v * k)) as Eq by (unfold q; fold k; rewrite !Z.div_div by nia; f_equal; ring).
  set (D := 2 * v * k) in *. assert (v * 2 ^ 32 ≤ d * 2 ^ s < v * 2 ^ 32 + 2 ^ 32) as Hlow by (subst v; Z.div_mod_to_equations; lia).
  assert (D * 2 ^ s = v * 2 ^ 32) as HD by (unfold D; transitivity (2 * v * (k * 2 ^ s)); [ring|rewrite Hks; lia]).
  assert (D ≤ d < D + 2 * k) as Hdd.
  { split; [apply (Z.mul_le_mono_pos_r _ _ (2 ^ s)); lia|]. apply (Z.mul_lt_mono_pos_r (2 ^ s)); [lia|]. rewrite Z.mul_add_distr_r, HD. lia. }
  assert (0 < D) as HD0 by lia. assert (0 < d) as Hd0 by lia. rewrite Eq. split; [by apply Z.div_le_compat_l; lia|].
  set (Q := n `div` d). assert (d * Q ≤ n < d * (Q + 1)) as HQ by (unfold Q; Z.div_mod_to_equations; lia).
  assert (0 ≤ Q) as HQ0 by (apply Z.div_pos; lia).
  apply Z.lt_succ_r. apply Z.div_lt_upper_bound; [lia|]. destruct (Z_lt_le_dec n (D * Z.succ (Q + 1))) as [|Hge]; [done|exfalso].
  assert (Q < 2 * 2 ^ s) as HQs. { apply (Z.mul_lt_mono_pos_l d); [lia|]. apply (Z.le_lt_trans _ n); [lia|]. nia. }
  assert (D < (d - D) * (Q + 1)) as H1 by lia.
  assert ((d - D) * (Q + 1) ≤ (2 * k - 1) * (2 * 2 ^ s)) as H2 by (apply Z.mul_le_mono_nonneg; lia).
  assert ((2 * k - 1) * (2 * 2 ^ s) = 2 ^ 33 - 2 * 2 ^ s) as H3 by lia.
  destruct (decide (s = 31)) as [->|Hs31]; [lia|].
  assert (2 ^ s ≤ 2 ^ 30) as H4 by (apply Z.pow_le_mono_r; lia). assert (D * 2 ^ s ≤ D * 2 ^ 30) as H5 by (apply Z.mul_le_mono_nonneg_l; lia). lia.
Qed.

Lemma udiv64_run n d : 0 ≤ n < 2 ^ 64 → 0 < d < 2 ^ 64 → udiv64 n d = Some (n `div` d).
Proof.
  intros Hn Hd. unfold udiv64. destruct (halves n Hn) as (_ & E1 & E0). rewrite Z.shiftr_div_pow2 by lia. case_bool_decide as Hs.
  - assert (d < 2 ^ 32) as Hd32 by (Z.div_mod_to_equations; lia). rewrite (uwrap_id 32 d) by lia. rewrite bool_decide_eq_false_2 by lia. rewrite E1, E0.
    set (n1 := n `div` 2 ^ 32). set (n0 := n `mod` 2 ^ 32). assert (n = 2 ^ 32 * n1 + n0) as En by (subst n1 n0; Z.div_mod_to_equations; lia).
    assert (0 ≤ n0 < 2 ^ 32) as H0 by (subst n0; apply Z.mod_pos_bound; lia). assert (0 ≤ n1 < 2 ^ 32) as H1 by (subst n1; Z.div_mod_to_equations; lia).
    pose proof (Z.mod_pos_bound n1 d ltac:(lia)) as Hm. rewrite uwrap_id by lia. rewrite divl_run by lia. cbn [mbind option_bind]. f_equal.
    assert (n `div` d = (2 ^ 32 * (n1 `mod` d) + n0) `div` d + 2 ^ 32 * (n1 `div` d)) as Eq.
    { rewrite <- Z.div_add by lia. f_equal. rewrite En at 1. rewrite (Z.div_mod n1 d) at 1 by lia. ring. }
    rewrite <- Eq. apply uwrap_id. split; [apply Z.div_pos; lia|]. apply (Z.le_lt_trans _ n); [|lia]. apply Z.div_le_upper_bound; nia.
  - case_bool_decide as Hlt; [by rewrite Z.div_small by lia|].
    set (d1 := d `div` 2 ^ 32). assert (0 < d1 < 2 ^ 32) as Hd1 by (subst d1; Z.div_mod_to_equations; lia).
    rewrite (uwrap_id 32 d1) by lia. destruct (nlz_run d1 Hd1) as [Hsr Hnorm]. set (s := nlz d1) in *.
    assert (0 < 2 ^ s) as H2s by (apply Z.pow_pos_nonneg; lia).
    assert (d1 * 2 ^ 32 ≤ d < (d1 + 1) * 2 ^ 32) as Hdd by (subst d1; Z.div_mod_to_equations; lia).
    assert ((d1 + 1) * 2 ^ s ≤ 2 ^ 32) as Hup.
    { assert (2 ^ 32 = 2 ^ (32 - s) * 2 ^ s) as E by (rewrite <- Z.pow_add_r by lia; f_equal; lia). rewrite E in Hnorm |- *.
      apply Z.mul_le_mono_nonneg_r; [lia|]. assert (d1 < 2 ^ (32 - s)); [|lia]. apply (Z.mul_lt_mono_pos_r (2 ^ s)); lia. }
    assert (2 ^ 63 ≤ d * 2 ^ s < 2 ^ 64) as Hds by nia. rewrite Z.shiftl_mul_pow2 by lia. rewrite (uwrap_id 64 (d * 2 ^ s)) by lia.
    rewrite (Z.shiftr_div_pow2 _ 32) by lia. set (v := (d * 2 ^ s) `div` 2 ^ 32). assert (2 ^ 31 ≤ v < 2 ^ 32) as Hv by (subst v; Z.div_mod_to_equations; lia).
    rewrite (uwrap_id 32 v) by lia. rewrite (Z.shiftr_div_pow2 n 1) by lia. change (2 ^ 1) with 2.
    rewrite divl_run by (Z.div_mod_to_equations; lia). cbn [mbind option_bind]. f_equal. rewrite Z.shiftr_div_pow2 by lia.
    pose proof (estimate n d s v Hn Hsr Hds eq_refl) as He. cbn zeta in He. set (q := (n `div` 2) `div` v `div` 2 ^ (31 - s)) in *.
    set (Q := n `div` d) in *. assert (d * Q ≤ n < d * (Q + 1)) as HQ by (unfold Q; Z.div_mod_to_equations; lia).
    assert (1 ≤ Q) as HQ1 by (apply Z.div_le_lower_bound; lia). assert (Q < 2 ^ 64 - 1) as HQ2 by nia.
    rewrite (uwrap_id 64 (q - 1)) by lia. destruct (decide (q = Q)) as [->|Hne].
    + rewrite uwrap_id by nia. rewrite bool_decide_eq_false_2 by lia. done.
    + replace q with (Q + 1) by lia. replace (Q + 1 - 1) with Q by lia. rewrite uwrap_id by nia. by rewrite bool_decide_eq_true_2 by lia.
Qed.

(** ** The signed quotient *)

Lemma u_abs_run n : is_s64 n → u_abs n = Z.abs n ∧ 0 ≤ Z.abs n < 2 ^ 64.
Proof.
  unfold is_s64, u_abs. intros Hn. split; [|lia]. case_bool_decide; [rewrite uwrap_id; lia|].
  assert (u64 n = n + 2 ^ 64) as -> by (unfold uwrap; rewrite <- (Z.mod_add n 1) by lia; rewrite Z.mod_small; lia).
  unfold uwrap. rewrite <- (Z.mod_add (- (n + 2 ^ 64)) 1) by lia. rewrite Z.mod_small; lia.
Qed.

Lemma swrap_congr w a b : 0 < w → a `mod` 2 ^ w = b `mod` 2 ^ w → swrap w a = swrap w b.
Proof.
  intros Hw E. assert (0 < 2 ^ w) by (apply Z.pow_pos_nonneg; lia). unfold swrap. f_equal. rewrite <- (Z.add_mod_idemp_l a) by lia. rewrite E. apply Z.add_mod_idemp_l. lia.
Qed.

Lemma swrap_mod w a : 0 < w → swrap w a `mod` 2 ^ w = a `mod` 2 ^ w.
Proof.
  intros Hw. assert (0 < 2 ^ w) by (apply Z.pow_pos_nonneg; lia). unfold swrap. rewrite Zminus_mod_idemp_l. f_equal. lia.
Qed.

Lemma swrap_idemp w a (f : Z → Z) :
  0 < w → (∀ x y, x `mod` 2 ^ w = y `mod` 2 ^ w → f x `mod` 2 ^ w = f y `mod` 2 ^ w) → swrap w (f (swrap w a)) = swrap w (f a).
Proof. intros Hw Hf. apply swrap_congr; [done|]. apply Hf. by apply swrap_mod. Qed.

Lemma opp_mod_congr m x y : x `mod` m = y `mod` m → (- x) `mod` m = (- y) `mod` m.
Proof. intros E. by rewrite <- (Z.sub_0_l x), Zminus_mod, E, <- Zminus_mod. Qed.

Lemma sdiv64_run n d : is_s64 n → is_s64 d → d ≠ 0 → sdiv64 n d = Some (s64 (Z.quot n d)).
Proof.
  intros Hn Hd Hz. unfold sdiv64. destruct (u_abs_run n Hn) as [-> Hna]. destruct (u_abs_run d Hd) as [-> Hda].
  rewrite udiv64_run by lia. cbn [mbind option_bind]. f_equal. rewrite <- Z.quot_div_nonneg by lia.
  case_bool_decide as Hs.
  - f_equal. destruct (Z_lt_le_dec n 0), (Z_lt_le_dec d 0); try (exfalso; tauto || lia).
    + rewrite !Z.abs_neq by lia. by rewrite Z.quot_opp_opp.
    + by rewrite !Z.abs_eq by lia.
  - rewrite (swrap_idemp 64 _ Z.opp); [|lia|intros x y; apply opp_mod_congr]. f_equal.
    destruct (Z_lt_le_dec n 0), (Z_lt_le_dec d 0); try (exfalso; apply Hs; split; lia).
    + rewrite (Z.abs_neq n), (Z.abs_eq d) by lia. rewrite Z.quot_opp_l by lia. lia.
    + rewrite (Z.abs_eq n), (Z.abs_neq d) by lia. rewrite Z.quot_opp_r by lia. lia.
Qed.

(** The remainder before it is cut. *)
Lemma smod_raw n d : is_s64 n → is_s64 d → d ≠ 0 → s64 (n - d * s64 (Z.quot n d)) = Z.rem n d.
Proof.
  intros Hn Hd Hz. rewrite (swrap_idemp 64 _ (λ q, n - d * q)); [|lia|].
  - replace (n - d * Z.quot n d) with (Z.rem n d) by (rewrite Z.rem_eq; lia). apply swrap_id; [lia|]. unfold is_s64 in *. pose proof (Z.rem_bound_abs n d Hz). lia.
  - intros x y E. by rewrite Zminus_mod, Z.mul_mod, E, <- Z.mul_mod, <- Zminus_mod by lia.
Qed.

(** C20: the four routines the compiler calls for 64-bit division, built from an
    instruction that divides by 32 bits and traps when the quotient is wide, never trap on
    a divisor other than zero: both quotients are those of mathematical division
    (truncated, and wrapped for the one case that does not fit), and both remainders are
    the mathematical ones cut to 32 bits. *)
Theorem division_correct n d :
  d ≠ 0 →
  (0 ≤ n < 2 ^ 64 → 0 ≤ d < 2 ^ 64 → __udivdi3 n d = Some (n `div` d) ∧ __umoddi3 n d = Some (u32 (n `mod` d))) ∧
  (is_s64 n → is_s64 d → __divdi3 n d = Some (s64 (Z.quot n d)) ∧ __moddi3 n d = Some (s32 (Z.rem n d))).
Proof.
  intros Hz. split; intros Hn Hd.
  - unfold __udivdi3, __umoddi3, umod64. rewrite udiv64_run by lia. split; [done|]. cbn [mbind option_bind]. do 2 f_equal. rewrite Z.mod_eq by lia. lia.
  - unfold __divdi3, __moddi3, smod64. rewrite sdiv64_run by done. split; [done|]. cbn [mbind option_bind]. f_equal.
    by rewrite smod_raw.
Qed.

Lemma division_correct_witness :
  (__udivdi3 (2 ^ 64 - 1) (2 ^ 33 + 5) = Some ((2 ^ 64 - 1) `div` (2 ^ 33 + 5)) ∧
   __umoddi3 (2 ^ 64 - 1) (2 ^ 33 + 5) = Some (u32 ((2 ^ 64 - 1) `mod` (2 ^ 33 + 5)))) ∧
  __divdi3 (-7) 2 = Some (s64 (Z.quot (-7) 2)).
Proof.
  split.
  - apply (division_correct (2 ^ 64 - 1) (2 ^ 33 + 5)); lia.
  - apply (division_correct (-7) 2); unfold is_s64; lia.
Defined.

(** The unsigned remainder is right exactly when it fits in 32 bits, and the signed
    one exactly when it fits in a 32-bit integer: the helpers [umod64] and [smod64] return
    a 32-bit type, so a remainder by a wide divisor loses its upper half. *)
Theorem remainder_right_iff n d :
  d ≠ 0 →
  (0 ≤ n < 2 ^ 64 → 0 ≤ d < 2 ^ 64 → __umoddi3 n d = Some (n `mod` d) ↔ n `mod` d < 2 ^ 32) ∧
  (is_s64 n → is_s64 d → __moddi3 n d = Some (Z.rem n d) ↔ is_s32 (Z.rem n d)).
Proof.
  intros Hz. split; intros Hn Hd.
  - unfold __umoddi3, umod64. rewrite udiv64_run by lia. cbn [mbind option_bind]. replace (n - d * n `div` d) with (n `mod` d) by (rewrite Z.mod_eq; lia).
    pose proof (Z.mod_pos_bound n d ltac:(lia)). split; [|intros Hm; by rewrite uwrap_id by lia].
    intros [= E]. pose proof (uwrap_range 32 (n `mod` d) ltac:(lia)). lia.
  - unfold __moddi3, smod64. rewrite sdiv64_run by done. cbn [mbind option_bind].
    rewrite smod_raw by done.
    unfold is_s32. split; [|intros Hm; by rewrite swrap_id by lia]. intros [= E]. pose proof (swrap_range 32 (Z.rem n d) ltac:(lia)) as Hr. rewrite E in Hr. exact Hr.
Qed.

Lemma remainder_right_iff_witness : (__umoddi3 (2 ^ 33) (2 ^ 34) = Some (2 ^ 33 `mod` 2 ^ 34) ↔ 2 ^ 33 `mod` 2 ^ 34 < 2 ^ 32) ∧ __umoddi3 (2 ^ 33) (2 ^ 34) = Some 0.
Proof. split; [apply (remainder_right_iff (2 ^ 33) (2 ^ 34)); lia|vm_compute; reflexivity]. Defined.
