(* ===== verification/KStdlib.v ===== *)
(** * KStdlib: sorting, searching and parsing ([pintos/src/lib/stdlib.c])

    The array is a list of bytes; an element is [size] of them.  A comparison function
    is a function of the bytes of two elements.  [sort] is a heap sort that swaps
    elements byte by byte, [binary_search] returns the offset of a match. *)

From S2P Require Import Prelude.

(** ** The code *)

Definition byte_at (i : Z) : M (list Z) Z := gets_opt (λ a, if bool_decide (0 ≤ i) then a !! Z.to_nat i else None).
Definition set_byte (i v : Z) : M (list Z) unit :=
  modify_opt (λ a, if bool_decide (0 ≤ i < Z.of_nat (length a)) then Some (<[Z.to_nat i := v]> a) else None).

Definition elem_ofs (idx size : Z) : Z := u32 (u32 (idx - 1) * size).

(** The [size] bytes at [ofs]. *)
Definition elem_at (ofs size : Z) : M (list Z) (list Z) :=
  gets_opt (λ a, if bool_decide (0 ≤ ofs ∧ ofs + size ≤ Z.of_nat (length a)) then Some (take (Z.to_nat size) (drop (Z.to_nat ofs) a)) else None).

Fixpoint swap_loop (n : nat) (a b i : Z) : M (list Z) unit :=
  match n with
  | O => mret tt
  | S n =>
    t ← byte_at (a + i);
    v ← byte_at (b + i);
    set_byte (a + i) v;;
    set_byte (b + i) t;;
    swap_loop n a b (i + 1)
  end.

Definition do_swap (a_idx b_idx size : Z) : M (list Z) unit :=
  swap_loop (Z.to_nat size) (elem_ofs a_idx size) (elem_ofs b_idx size) 0.

Section sort.
Context (compare : list Z → list Z → Z).

Definition do_compare (a_idx b_idx size : Z) : M (list Z) Z :=
  a ← elem_at (elem_ofs a_idx size) size;
  b ← elem_at (elem_ofs b_idx size) size;
  mret (compare a b).

Fixpoint heapify (fuel : nat) (i cnt size : Z) : M (list Z) unit :=
  match fuel with
  | O => nofuel
  | S fuel =>
    let left := u32 (2 * i) in
    let right := u32 (2 * i + 1) in
    max ← (if bool_decide (left ≤ cnt) then c ← do_compare left i size; mret (if bool_decide (c > 0) then left else i) else mret i);
    max ← (if bool_decide (right ≤ cnt) then c ← do_compare right max size; mret (if bool_decide (c > 0) then right else max) else mret max);
    if bool_decide (max = i) then mret tt else
    do_swap i max size;;
    heapify fuel max cnt size
  end.

(** [for (i = n; i > 0; i--)]. *)
Fixpoint build_loop (n : nat) (cnt size : Z) : M (list Z) unit :=
  match n with
  | O => mret tt
  | S m => heapify (S (Z.to_nat cnt)) (Z.of_nat n) cnt size;; build_loop m cnt size
  end.

(** [for (i = n; i > 1; i--)]. *)
Fixpoint extract_loop (n : nat) (size : Z) : M (list Z) unit :=
  match n with
  | S (S _ as m) =>
    do_swap 1 (Z.of_nat n) size;;
    heapify (S m) 1 (Z.of_nat m) size;;
    extract_loop m size
  | _ => mret tt
  end.

Definition sort (cnt size : Z) : M (list Z) unit :=
  assert (bool_decide (size > 0));;
  build_loop (Z.to_nat (cnt `div` 2)) cnt size;;
  extract_loop (Z.to_nat cnt) size.

Fixpoint search_loop (fuel : nat) (key : list Z) (first last size : Z) : M (list Z) (option Z) :=
  match fuel with
  | O => nofuel
  | S fuel =>
    if bool_decide (first < last) then
      let range := (last - first) `div` size in
      let middle := first + range `div` 2 * size in
      e ← elem_at middle size;
      let cmp := compare key e in
      if bool_decide (cmp < 0) then search_loop fuel key first middle size
      else if bool_decide (cmp > 0) then search_loop fuel key (middle + size) last size
      else mret (Some middle)
    else mret None
  end.

Definition binary_search (key : list Z) (cnt size : Z) : M (list Z) (option Z) :=
  search_loop (S (Z.to_nat cnt)) key 0 (u32 (size * cnt)) size.
End sort.

(** [compare_thunk] calls the function of two arguments it is given. *)
Definition compare_thunk (compare : list Z → list Z → Z) (a b : list Z) : Z := compare a b.
Definition qsort (compare : list Z → list Z → Z) (cnt size : Z) : M (list Z) unit := sort (compare_thunk compare) cnt size.
Definition bsearch (compare : list Z → list Z → Z) (key : list Z) (cnt size : Z) : M (list Z) (option Z) := binary_search (compare_thunk compare) key cnt size.

(** [isspace], [isdigit] of [ctype.h]. *)
Definition isspace (c : Z) : bool := bool_decide (c = 32 ∨ c = 12 ∨ c = 10 ∨ c = 13 ∨ c = 9 ∨ c = 11).
Definition isdigit (c : Z) : bool := bool_decide (48 ≤ c ≤ 57).

(** A string is the characters before its terminator. *)
Fixpoint skip_space (s : list Z) : list Z :=
  match s with
  | c :: s' => if isspace c then skip_space s' else s
  | [] => []
  end.

Fixpoint digits_loop (value : Z) (s : list Z) : Z :=
  match s with
  | c :: s => if isdigit c then digits_loop (s32 (s32 (value * 10) - (c - 48))) s else value
  | [] => value
  end.

Definition atoi (s : list Z) : Z :=
  let s := skip_space s in
  let '(negative, s) := match s with
                        | c :: s' => if bool_decide (c = 43) then (false, s') else if bool_decide (c = 45) then (true, s') else (false, s)
                        | [] => (false, s)
                        end in
  let value := digits_loop 0 s in
  if (negative : bool) then value else s32 (- value).

(** ** Elements of the array *)

Fixpoint chunks (n size : nat) (l : list Z) : list (list Z) :=
  match n with
  | O => []
  | S n => take size l :: chunks n size (drop size l)
  end.

Example sort_runs : snd <$> (if sort (λ a b, default 0 (head a) - default 0 (head b)) 5 2 [3;0;1;1;5;2;4;3;2;4] is Ret r then Some r else None) = Some [1;1;2;4;3;0;4;3;5;2].
Proof. vm_compute. reflexivity. Qed.

(** The array [a] has the elements [es], of [size] bytes each. *)
Record holds (size : nat) (es : list (list Z)) (a : list Z) : Prop := {
  hl_size : (0 < size)%nat;
  hl_elems : Forall (λ e, length e = size) es;
  hl_bytes : a = concat es
}.

Lemma length_concat_uniform size (es : list (list Z)) : Forall (λ e, length e = size) es → length (concat es) = (length es * size)%nat.
Proof. induction 1 as [|e es He _ IH]; [done|]. cbn. rewrite length_app, He, IH. lia. Qed.

Lemma concat_drop size (es : list (list Z)) k : Forall (λ e, length e = size) es → (k ≤ length es)%nat → drop (k * size) (concat es) = concat (drop k es).
Proof.
  intros Hes. revert k. induction Hes as [|e es He _ IH]; intros [|k] Hk; cbn; try done; [by apply drop_nil|].
  rewrite drop_app_ge by lia. rewrite He. replace (size + k * size - size)%nat with (k * size)%nat by lia. apply IH. cbn in Hk. lia.
Qed.

Lemma concat_lookup size (es : list (list Z)) k r e :
  Forall (λ e, length e = size) es → es !! k = Some e → (r < size)%nat → concat es !! (k * size + r)%nat = e !! r.
Proof.
  intros Hes Hk Hr. rewrite <- lookup_drop. rewrite (concat_drop size) by (done || (apply lookup_lt_Some in Hk; lia)).
  assert (drop k es = e :: drop (S k) es) as -> by (by apply drop_S).
  cbn. apply lookup_app_l. rewrite (Forall_lookup_1 _ _ _ _ Hes Hk). done.
Qed.

Lemma holds_chunks size es a : holds size es a → chunks (length es) size a = es.
Proof.
  intros [Hs Hes ->]. induction Hes as [|e es He Hes IH]; [done|]. cbn. f_equal; [by apply take_app_length'|]. by rewrite drop_app_length'.
Qed.

Lemma chunks_holds size n a : (0 < size)%nat → length a = (n * size)%nat → holds size (chunks n size a) a ∧ length (chunks n size a) = n.
Proof.
  intros Hs. revert a. induction n as [|n IH]; intros a Ha; cbn [chunks].
  { destruct a; [|done]. by split. }
  destruct (IH (drop size a)) as [[_ He Hb] Hl]; [rewrite length_drop; lia|]. split; [split|cbn; by rewrite Hl].
  - done.
  - constructor; [rewrite length_take; lia|done].
  - cbn. rewrite <- Hb. by rewrite take_drop.
Qed.

(** ** Comparing and swapping *)

Section elements.
Context (size : nat) (es : list (list Z)) (a : list Z).
Hypothesis Hh : holds size es a.
Hypothesis Hbound : Z.of_nat (length es * size) < 2 ^ 31.

Lemma count_bound : Z.of_nat (length es) < 2 ^ 31.
Proof. pose proof (hl_size _ _ _ Hh). nia. Qed.

Lemma elem_ofs_run i : (1 ≤ i ≤ length es)%nat → elem_ofs (Z.of_nat i) (Z.of_nat size) = Z.of_nat ((i - 1) * size) ∧ ((i - 1) * size + size ≤ length es * size)%nat.
Proof.
  intros Hi. assert ((i - 1) * size + size ≤ length es * size)%nat as Hle by nia. split; [|done]. unfold elem_ofs.
  pose proof count_bound. rewrite (uwrap_id 32 (Z.of_nat i - 1)) by lia.
  replace ((Z.of_nat i - 1) * Z.of_nat size) with (Z.of_nat ((i - 1) * size)) by (rewrite Nat2Z.inj_mul, Nat2Z.inj_sub by lia; lia). apply uwrap_id. set (X := ((i - 1) * size)%nat) in *. set (Y := (length es * size)%nat) in *. lia.
Qed.

Lemma elem_at_run i e : es !! i = Some e → elem_at (Z.of_nat (i * size)) (Z.of_nat size) a = Ret (e, a).
Proof.
  intros Hi. destruct Hh as [Hs He ->]. pose proof (lookup_lt_Some _ _ _ Hi) as Hlt. unfold elem_at, gets_opt.
  rewrite (length_concat_uniform size) by done. rewrite bool_decide_eq_true_2 by nia. rewrite !Nat2Z.id.
  rewrite (concat_drop size) by (done || lia). rewrite (drop_S es e i Hi). cbn [concat].
  by rewrite take_app_length' by (symmetry; exact (Forall_lookup_1 _ _ _ _ He Hi)).
Qed.

Lemma do_compare_run compare i j x y :
  (1 ≤ i)%nat → (1 ≤ j)%nat → es !! (i - 1)%nat = Some x → es !! (j - 1)%nat = Some y →
  do_compare compare (Z.of_nat i) (Z.of_nat j) (Z.of_nat size) a = Ret (compare x y, a).
Proof.
  intros Hi Hj Hx Hy. pose proof (lookup_lt_Some _ _ _ Hx). pose proof (lookup_lt_Some _ _ _ Hy). unfold do_compare.
  destruct (elem_ofs_run i) as [-> _]; [lia|]. destruct (elem_ofs_run j) as [-> _]; [lia|].
  run_step (elem_at_run _ _ Hx). by run_step (elem_at_run _ _ Hy).
Qed.
End elements.

Lemma byte_at_run a i v : a !! i = Some v → byte_at (Z.of_nat i) a = Ret (v, a).
Proof. intros H. unfold byte_at, gets_opt. rewrite bool_decide_eq_true_2 by lia. by rewrite Nat2Z.id, H. Qed.

Lemma set_byte_run a i v : (i < length a)%nat → set_byte (Z.of_nat i) v a = Ret (tt, <[i := v]> a).
Proof. intros H. unfold set_byte, modify_opt. rewrite bool_decide_eq_true_2 by lia. by rewrite Nat2Z.id. Qed.

(** Two regions that do not overlap trade their bytes. *)
Lemma swap_loop_run n x y i a :
  (x + i + n ≤ length a)%nat → (y + i + n ≤ length a)%nat → (x + i + n ≤ y ∨ y + i + n ≤ x)%nat →
  ∃ a', swap_loop n (Z.of_nat x) (Z.of_nat y) (Z.of_nat i) a = Ret (tt, a') ∧ length a' = length a ∧
    ∀ k, a' !! k = if decide (x + i ≤ k < x + i + n)%nat then a !! (y + (k - x))%nat
                   else if decide (y + i ≤ k < y + i + n)%nat then a !! (x + (k - y))%nat else a !! k.
Proof.
  revert i a. induction n as [|n IH]; intros i a Hx Hy Hd; cbn [swap_loop].
  { exists a. split_and!; [done|done|]. intros k. by rewrite !decide_False by lia. }
  destruct (lookup_lt_is_Some_2 a (x + i)) as [t Ht]; [lia|]. destruct (lookup_lt_is_Some_2 a (y + i)) as [v Hv]; [lia|].
  rewrite <- !Nat2Z.inj_add. run_step (byte_at_run _ _ _ Ht). run_step (byte_at_run _ _ _ Hv).
  run_step (set_byte_run a (x + i) v ltac:(lia)). run_step (set_byte_run (<[(x + i)%nat := v]> a) (y + i) t ltac:(rewrite length_insert; lia)).
  replace (Z.of_nat i + 1) with (Z.of_nat (S i)) by lia.
  destruct (IH (S i) (<[(y + i)%nat := t]> (<[(x + i)%nat := v]> a))) as (a' & E & Hl & Hk); [rewrite !length_insert; lia..|lia|].
  exists a'. rewrite !length_insert in Hl. split_and!; [done|done|]. intros k. rewrite Hk.
  repeat case_decide; try lia.
  - rewrite !list_lookup_insert_ne by lia. done.
  - rewrite !list_lookup_insert_ne by lia. done.
  - replace k with (x + i)%nat by lia. rewrite list_lookup_insert_ne, list_lookup_insert_eq by lia. rewrite <- Hv. f_equal. lia.
  - replace k with (y + i)%nat by lia. rewrite list_lookup_insert_eq by (rewrite length_insert; lia). rewrite <- Ht. f_equal. lia.
  - by rewrite !list_lookup_insert_ne by lia.
Qed.

(** ** Swapping elements *)

Definition swap {A} (i j : nat) (l : list A) : list A :=
  match l !! i, l !! j with
  | Some x, Some y => <[i := y]> (<[j := x]> l)
  | _, _ => l
  end.

Lemma length_swap {A} i j (l : list A) : length (swap i j l) = length l.
Proof. unfold swap. destruct (l !! i), (l !! j); by rewrite ?length_insert. Qed.

Lemma swap_lookup {A} i j (l : list A) k :
  (i < length l)%nat → (j < length l)%nat → swap i j l !! k = if decide (k = i) then l !! j else if decide (k = j) then l !! i else l !! k.
Proof.
  intros Hi Hj. destruct (lookup_lt_is_Some_2 l i Hi) as [x Hx]. destruct (lookup_lt_is_Some_2 l j Hj) as [y Hy]. unfold swap. rewrite Hx, Hy.
  rewrite !list_lookup_insert, length_insert. repeat case_decide; subst; try done; try lia.
Qed.

Lemma swap_perm {A} i j (l : list A) : swap i j l ≡ₚ l.
Proof.
  unfold swap. destruct (l !! i) as [x|] eqn:Hx, (l !! j) as [y|] eqn:Hy; try done.
  destruct (decide (i = j)) as [->|Hne].
  { rewrite list_insert_insert_eq, list_insert_id; [done|congruence]. }
  apply Permutation_insert_swap; done.
Qed.

Lemma Forall_swap {A} (P : A → Prop) i j l : Forall P l → Forall P (swap i j l).
Proof. intros H. by rewrite swap_perm. Qed.

Lemma do_swap_run size es a i j :
  holds size es a → Z.of_nat (length es * size) < 2 ^ 31 → (1 ≤ i ≤ length es)%nat → (1 ≤ j ≤ length es)%nat → i ≠ j →
  ∃ a', do_swap (Z.of_nat i) (Z.of_nat j) (Z.of_nat size) a = Ret (tt, a') ∧ holds size (swap (i - 1) (j - 1) es) a'.
Proof.
  intros Hh Hb Hi Hj Hne. pose proof Hh as [Hs He Ha]. unfold do_swap. rewrite Nat2Z.id.
  destruct (elem_ofs_run size es a Hh Hb i Hi) as [-> Hi']. destruct (elem_ofs_run size es a Hh Hb j Hj) as [-> Hj'].
  assert (length a = (length es * size)%nat) as Hla by (rewrite Ha; by apply length_concat_uniform).
  destruct (swap_loop_run size ((i - 1) * size) ((j - 1) * size) 0 a) as (a' & E & Hl & Hk); [lia|lia|nia|].
  exists a'. split; [done|]. assert (Forall (λ e, length e = size) (swap (i - 1) (j - 1) es)) as He' by (by apply Forall_swap).
  split; [done|done|]. apply list_eq. intros k. assert (length (concat (swap (i - 1) (j - 1) es)) = length a') as Hlc.
  { rewrite (length_concat_uniform size), length_swap by done. congruence. }
  destruct (decide (k < length a')%nat) as [Hlt|Hge]; [|by rewrite !lookup_ge_None_2 by lia].
  set (q := (k / size)%nat). set (r := (k mod size)%nat). assert (k = q * size + r)%nat as Ek by (subst q r; rewrite Nat.mul_comm; apply Nat.div_mod; lia).
  assert (r < size)%nat as Hr by (apply Nat.mod_upper_bound; lia). assert (q < length es)%nat as Hq by nia.
  assert (∀ p, (p < length es)%nat → ∃ x, es !! p = Some x ∧ a !! (p * size + r)%nat = x !! r) as Hat.
  { intros p Hp. destruct (lookup_lt_is_Some_2 es p Hp) as [x Hx]. exists x. split; [done|]. rewrite Ha. by apply concat_lookup. }
  destruct (lookup_lt_is_Some_2 (swap (i - 1) (j - 1) es) q) as [z Hz]; [by rewrite length_swap|].
  rewrite Ek at 2. rewrite (concat_lookup size _ q r z He' Hz Hr). rewrite Hk, Nat.add_0_r. rewrite swap_lookup in Hz by lia.
  rewrite !Nat.add_0_r. destruct (Hat (i - 1)%nat ltac:(lia)) as (xi & Hxi & Eai). destruct (Hat (j - 1)%nat ltac:(lia)) as (xj & Hxj & Eaj). destruct (Hat q Hq) as (xq & Hxq & Eaq).
  destruct (decide (q = i - 1)%nat) as [Eq|Nq].
  - rewrite decide_True by nia. rewrite Hxj in Hz. injection Hz as <-. rewrite <- Eaj. f_equal. subst q. nia.
  - rewrite decide_False by nia. destruct (decide (q = j - 1)%nat) as [Eq'|Nq'].
    + rewrite decide_True by nia. rewrite Hxi in Hz. injection Hz as <-. rewrite <- Eai. f_equal. nia.
    + rewrite decide_False by nia. rewrite Hxq in Hz. injection Hz as <-. by rewrite Ek.
Qed.

(** ** The heap *)

Section heap.
Context (compare : list Z → list Z → Z).

(** The element with 1-based index [i]. *)
Definition elt (es : list (list Z)) (i : nat) : list Z := default [] (es !! (i - 1)%nat).
Definition bigger (es : list (list Z)) (i j : nat) : bool := bool_decide (compare (elt es i) (elt es j) > 0).

(** The larger of [i] and its children. *)
Definition largest (es : list (list Z)) (i cnt : nat) : nat :=
  let m := if bool_decide (2 * i ≤ cnt)%nat && bigger es (2 * i) i then (2 * i)%nat else i in
  if bool_decide (2 * i + 1 ≤ cnt)%nat && bigger es (2 * i + 1) m then (2 * i + 1)%nat else m.

Fixpoint sift (fuel i cnt : nat) (es : list (list Z)) : list (list Z) :=
  match fuel with
  | O => es
  | S fuel =>
    let m := largest es i cnt in
    if decide (m = i) then es else sift fuel m cnt (swap (i - 1) (m - 1) es)
  end.

Lemma elt_lookup es i : (1 ≤ i ≤ length es)%nat → es !! (i - 1)%nat = Some (elt es i).
Proof. intros Hi. unfold elt. destruct (lookup_lt_is_Some_2 es (i - 1)) as [x Hx]; [lia|]. by rewrite Hx. Qed.

Lemma largest_cases es i cnt : (1 ≤ i)%nat → largest es i cnt = i ∨ (largest es i cnt = 2 * i ∧ 2 * i ≤ cnt)%nat ∨ (largest es i cnt = 2 * i + 1 ∧ 2 * i + 1 ≤ cnt)%nat.
Proof.
  intros Hi. unfold largest. destruct (bool_decide (2 * i ≤ cnt)%nat) eqn:E1, (bool_decide (2 * i + 1 ≤ cnt)%nat) eqn:E2; cbn [andb];
    repeat match goal with |- context [bigger ?a ?b ?c] => destruct (bigger a b c) end; cbn [andb];
    try apply bool_decide_eq_true_1 in E1; try apply bool_decide_eq_true_1 in E2; lia.
Qed.

Lemma heapify_run fuel i cnt size es a :
  holds size es a → Z.of_nat (length es * size) < 2 ^ 31 → (1 ≤ i ≤ cnt)%nat → (cnt ≤ length es)%nat → (cnt - i < fuel)%nat →
  ∃ a', heapify compare fuel (Z.of_nat i) (Z.of_nat cnt) (Z.of_nat size) a = Ret (tt, a') ∧ holds size (sift fuel i cnt es) a'.
Proof.
  revert i es a. induction fuel as [|fuel IH]; intros i es a Hh Hb Hi Hc Hf; [lia|]. cbn [heapify sift].
  pose proof (count_bound size es a Hh Hb) as Hcb.
  assert (∀ x y, (1 ≤ x ≤ cnt)%nat → (1 ≤ y ≤ cnt)%nat → do_compare compare (Z.of_nat x) (Z.of_nat y) (Z.of_nat size) a = Ret (compare (elt es x) (elt es y), a)) as Hcmp.
  { intros x y Hx Hy. apply (do_compare_run size es a Hh Hb); [lia|lia|apply elt_lookup; lia|apply elt_lookup; lia]. }
  rewrite !uwrap_id by lia. replace (2 * Z.of_nat i + 1) with (Z.of_nat (2 * i + 1)) by lia. replace (2 * Z.of_nat i) with (Z.of_nat (2 * i)) by lia.
  assert (∀ x m, (1 ≤ m ≤ cnt)%nat → (1 ≤ x)%nat →
    (if bool_decide (Z.of_nat x ≤ Z.of_nat cnt) then c ← do_compare compare (Z.of_nat x) (Z.of_nat m) (Z.of_nat size); mret (if bool_decide (c > 0) then Z.of_nat x else Z.of_nat m) else mret (Z.of_nat m)) a
    = Ret (Z.of_nat (if bool_decide (x ≤ cnt)%nat && bigger es x m then x else m), a)) as Hpick.
  { intros x m Hm Hx. destruct (decide (x ≤ cnt)%nat) as [Hle|Hle].
    - rewrite !bool_decide_eq_true_2 by lia. run_step (Hcmp x m ltac:(lia) Hm). unfold bigger. cbn [andb]. by case_bool_decide.
    - by rewrite !bool_decide_eq_false_2 by lia. }
  run_step (Hpick (2 * i)%nat i ltac:(lia) ltac:(lia)). set (m1 := if bool_decide (2 * i ≤ cnt)%nat && bigger es (2 * i) i then (2 * i)%nat else i).
  assert (1 ≤ m1 ≤ cnt)%nat as Hm1. { unfold m1. destruct (bool_decide (2 * i ≤ cnt)%nat) eqn:E; [apply bool_decide_eq_true_1 in E|]; cbn [andb]; [|lia]. destruct (bigger es (2 * i) i); lia. }
  run_step (Hpick (2 * i + 1)%nat m1 Hm1 ltac:(lia)). change (if bool_decide (2 * i + 1 ≤ cnt)%nat && bigger es (2 * i + 1) m1 then (2 * i + 1)%nat else m1) with (largest es i cnt).
  pose proof (largest_cases es i cnt ltac:(lia)) as Hlg. case_decide as Em.
  - rewrite Em, bool_decide_eq_true_2 by done. by exists a.
  - rewrite bool_decide_eq_false_2 by lia. destruct (do_swap_run size es a i (largest es i cnt) Hh Hb) as (a1 & E1 & Hh1); [lia|lia|lia|].
    run_step E1. apply (IH (largest es i cnt) (swap (i - 1) (largest es i cnt - 1) es) a1 Hh1); rewrite ?length_swap; [done|lia|done|lia].
Qed.

(** ** Any comparison: the loops return a permutation *)

Lemma swap_drop {A} i j n (l : list A) : (i < n)%nat → (j < n)%nat → (n ≤ length l)%nat → drop n (swap i j l) = drop n l.
Proof.
  intros Hi Hj Hn. apply list_eq. intros k. rewrite !lookup_drop, swap_lookup by lia. by rewrite !decide_False by lia.
Qed.

Lemma sift_facts fuel i cnt es :
  (1 ≤ i ≤ cnt)%nat → (cnt ≤ length es)%nat →
  sift fuel i cnt es ≡ₚ es ∧ length (sift fuel i cnt es) = length es ∧ drop cnt (sift fuel i cnt es) = drop cnt es.
Proof.
  revert i es. induction fuel as [|fuel IH]; intros i es Hi Hc; cbn [sift]; [done|]. case_decide as Em; [done|].
  pose proof (largest_cases es i cnt ltac:(lia)) as Hlg.
  destruct (IH (largest es i cnt) (swap (i - 1) (largest es i cnt - 1) es)) as (H1 & H2 & H3); [lia|rewrite length_swap; lia|].
  split_and!; [by rewrite H1, swap_perm|by rewrite H2, length_swap|]. rewrite H3. apply swap_drop; lia.
Qed.

Fixpoint build (n cnt : nat) (es : list (list Z)) : list (list Z) :=
  match n with
  | O => es
  | S m => build m cnt (sift (S cnt) n cnt es)
  end.

Fixpoint extract (n : nat) (es : list (list Z)) : list (list Z) :=
  match n with
  | S (S _ as m) => extract m (sift (S m) 1 m (swap 0 m es))
  | _ => es
  end.

Lemma build_run n cnt size es a :
  holds size es a → Z.of_nat (length es * size) < 2 ^ 31 → (n ≤ cnt ≤ length es)%nat →
  ∃ a', build_loop compare n (Z.of_nat cnt) (Z.of_nat size) a = Ret (tt, a') ∧ holds size (build n cnt es) a' ∧ build n cnt es ≡ₚ es.
Proof.
  revert es a. induction n as [|n IH]; intros es a Hh Hb Hn; cbn [build_loop build]; [by exists a|]. rewrite Nat2Z.id.
  destruct (heapify_run (S cnt) (S n) cnt size es a Hh Hb ltac:(lia) ltac:(lia) ltac:(lia)) as (a1 & E1 & Hh1). run_step E1.
  destruct (sift_facts (S cnt) (S n) cnt es ltac:(lia) ltac:(lia)) as (Hp & Hl & _).
  destruct (IH _ a1 Hh1) as (a' & E & Hh' & Hp'); [by rewrite Hl|rewrite Hl; lia|]. exists a'. split_and!; [done|done|by rewrite Hp', Hp].
Qed.

Lemma extract_S n es : extract (S (S n)) es = extract (S n) (sift (S (S n)) 1 (S n) (swap 0 (S n) es)).
Proof. done. Qed.

Lemma extract_loop_S n size :
  extract_loop compare (S (S n)) size = (do_swap 1 (Z.of_nat (S (S n))) size;; heapify compare (S (S n)) 1 (Z.of_nat (S n)) size;; extract_loop compare (S n) size).
Proof. done. Qed.

Lemma extract_run n size es a :
  holds size es a → Z.of_nat (length es * size) < 2 ^ 31 → (n ≤ length es)%nat →
  ∃ a', extract_loop compare n (Z.of_nat size) a = Ret (tt, a') ∧ holds size (extract n es) a' ∧ extract n es ≡ₚ es.
Proof.
  revert es a. induction n as [|n IH]; intros es a Hh Hb Hn; [by exists a|]. destruct n as [|n]; [by exists a|].
  rewrite extract_S, extract_loop_S.
  destruct (do_swap_run size es a 1 (S (S n)) Hh Hb ltac:(lia) ltac:(lia) ltac:(lia)) as (a1 & E1 & Hh1). change (Z.of_nat 1) with 1 in E1. run_step E1.
  change (1 - 1)%nat with 0%nat in Hh1. replace (S (S n) - 1)%nat with (S n) in Hh1 by lia. pose proof (length_swap 0 (S n) es) as Hl1.
  destruct (heapify_run (S (S n)) 1 (S n) size (swap 0 (S n) es) a1 Hh1) as (a2 & E2 & Hh2); [by rewrite Hl1|lia|lia|lia|].
  change (Z.of_nat 1) with 1 in E2. run_step E2. destruct (sift_facts (S (S n)) 1 (S n) (swap 0 (S n) es) ltac:(lia) ltac:(lia)) as (Hp & Hl & _).
  destruct (IH _ a2 Hh2) as (a' & E & Hh' & Hp'); [by rewrite Hl, Hl1|rewrite Hl, Hl1; lia|]. exists a'. split_and!; [done|done|]. by rewrite Hp', Hp, swap_perm.
Qed.

Definition heap_sort (es : list (list Z)) : list (list Z) := extract (length es) (build (length es / 2) (length es) es).

Lemma sort_run size es a :
  holds size es a → Z.of_nat (length es * size) < 2 ^ 31 →
  ∃ a', sort compare (Z.of_nat (length es)) (Z.of_nat size) a = Ret (tt, a') ∧ holds size (heap_sort es) a' ∧ heap_sort es ≡ₚ es.
Proof.
  intros Hh Hb. unfold sort. pose proof (hl_size _ _ _ Hh). rewrite assert_bind by (apply bool_decide_eq_true_2; lia).
  replace (Z.to_nat (Z.of_nat (length es) `div` 2)) with (length es / 2)%nat by (rewrite <- (Nat2Z.id (length es / 2)); f_equal; rewrite Nat2Z.inj_div; done).
  destruct (build_run (length es / 2) (length es) size es a Hh Hb) as (a1 & E1 & Hh1 & Hp1); [split; [apply Nat.Div0.div_le_upper_bound; lia|lia]|].
  run_step E1. rewrite Nat2Z.id. pose proof (Permutation_length Hp1) as Hl1.
  destruct (extract_run (length es) size _ a1 Hh1) as (a' & E & Hh' & Hp'); [by rewrite Hl1|lia|]. exists a'. split_and!; [done|done|]. unfold heap_sort. by rewrite Hp', Hp1.
Qed.

(** ** A consistent comparison: the result is in order *)

Definition le (x y : list Z) : Prop := compare x y ≤ 0.

Hypothesis Hsym : ∀ x y, Z.sgn (compare x y) = - Z.sgn (compare y x).
Hypothesis Htrans : ∀ x y z, le x y → le y z → le x z.

Lemma le_not_bigger es i j : bigger es i j = false → le (elt es i) (elt es j).
Proof. unfold bigger, le. intros H%bool_decide_eq_false_1. lia. Qed.

Lemma le_bigger es i j : bigger es i j = true → le (elt es j) (elt es i).
Proof. unfold bigger, le. intros H%bool_decide_eq_true_1. specialize (Hsym (elt es i) (elt es j)). lia. Qed.

Lemma le_refl x : le x x.
Proof. unfold le. specialize (Hsym x x). lia. Qed.

(** Every node from [lo] on is at least as large as its children. *)
Definition heap_from (lo cnt : nat) (es : list (list Z)) : Prop :=
  ∀ j, (2 ≤ j ≤ cnt)%nat → (lo ≤ j / 2)%nat → le (elt es j) (elt es (j / 2)).

(** The same but for the node [i], whose children are not larger than its parent. *)
Definition heap_except (lo i cnt : nat) (es : list (list Z)) : Prop :=
  (∀ j, (2 ≤ j ≤ cnt)%nat → (lo ≤ j / 2)%nat → (j / 2)%nat ≠ i → le (elt es j) (elt es (j / 2))) ∧
  (∀ j, (2 ≤ j ≤ cnt)%nat → (j / 2)%nat = i → (lo ≤ i / 2)%nat → le (elt es j) (elt es (i / 2))).

Lemma largest_spec es i cnt j :
  (1 ≤ i)%nat → (j ≤ cnt)%nat → j = i ∨ (j / 2 = i)%nat → le (elt es j) (elt es (largest es i cnt)).
Proof.
  intros Hi Hj Hji. assert (j = i ∨ j = 2 * i ∨ j = 2 * i + 1)%nat as Hc.
  { destruct Hji as [|Hd]; [by left|right]. pose proof (Nat.div_mod_eq j 2). pose proof (Nat.mod_upper_bound j 2). lia. }
  unfold largest. set (m := if bool_decide (2 * i ≤ cnt)%nat && bigger es (2 * i) i then (2 * i)%nat else i).
  assert (le (elt es i) (elt es m) ∧ ((2 * i ≤ cnt)%nat → le (elt es (2 * i)) (elt es m))) as [Hm1 Hm2].
  { unfold m. destruct (bool_decide (2 * i ≤ cnt)%nat) eqn:E; cbn [andb].
    - destruct (bigger es (2 * i) i) eqn:Eb; [split; [by apply le_bigger|intros _; apply le_refl]|split; [apply le_refl|intros _; by apply le_not_bigger]].
    - apply bool_decide_eq_false_1 in E. split; [apply le_refl|lia]. }
  destruct (bool_decide (2 * i + 1 ≤ cnt)%nat) eqn:E; cbn [andb].
  - apply bool_decide_eq_true_1 in E. destruct (bigger es (2 * i + 1) m) eqn:Eb.
    + apply le_bigger in Eb. destruct Hc as [-> |[-> | ->]]; [by apply (Htrans _ (elt es m))|apply (Htrans _ (elt es m)); [apply Hm2; lia|done]|apply le_refl].
    + apply le_not_bigger in Eb. destruct Hc as [-> |[-> | ->]]; [done|apply Hm2; lia|done].
  - apply bool_decide_eq_false_1 in E. destruct Hc as [-> |[-> | ->]]; [done|apply Hm2; lia|lia].
Qed.

Lemma elt_swap es i m k :
  (1 ≤ i ≤ length es)%nat → (1 ≤ m ≤ length es)%nat → (1 ≤ k)%nat →
  elt (swap (i - 1) (m - 1) es) k = if decide (k = i) then elt es m else if decide (k = m) then elt es i else elt es k.
Proof.
  intros Hi Hm Hk. unfold elt. rewrite swap_lookup by lia. repeat case_decide; try done; lia.
Qed.

Lemma half j : (2 * (j / 2) ≤ j ≤ 2 * (j / 2) + 1)%nat.
Proof. pose proof (Nat.div_mod_eq j 2). pose proof (Nat.mod_upper_bound j 2). lia. Qed.

Lemma sift_heap fuel lo i cnt es :
  (1 ≤ lo ≤ i)%nat → (i ≤ cnt ≤ length es)%nat → (cnt - i < fuel)%nat → heap_except lo i cnt es → heap_from lo cnt (sift fuel i cnt es).
Proof.
  revert i es. induction fuel as [|fuel IH]; intros i es Hlo Hi Hf [H1 H2]; [lia|]. cbn [sift]. case_decide as Em.
  - intros j Hj Hp. destruct (decide (j / 2 = i)%nat) as [Ej|Ej]; [|by apply H1].
    pose proof (largest_spec es i cnt j) as Hg. rewrite Em in Hg. rewrite Ej. apply Hg; [lia|lia|by right].
  - set (m := largest es i cnt) in *. pose proof (largest_cases es i cnt ltac:(lia)) as Hlg. fold m in Hlg.
    assert (m / 2 = i)%nat as Hmi by (pose proof (half m); lia).
    assert (∀ k, (1 ≤ k)%nat → elt (swap (i - 1) (m - 1) es) k = if decide (k = i) then elt es m else if decide (k = m) then elt es i else elt es k) as Hsw by (intros; apply elt_swap; lia).
    apply IH; [lia|rewrite length_swap; lia|lia|]. split.
    + intros j Hj Hp Hne. pose proof (half j). rewrite !Hsw by lia. rewrite (decide_False _ _ Hne).
      destruct (decide (j / 2 = i)%nat) as [Ej|Ej].
      * rewrite decide_False by lia. destruct (decide (j = m)) as [->|]; apply largest_spec; lia.
      * destruct (decide (j = i)) as [->|Eji].
        { pose proof (half i). apply H2; [lia|done|lia]. }
        rewrite decide_False; [by apply H1|]. intros E. apply Ej. rewrite E. exact Hmi.
    + intros j Hj Ejm Hlm. pose proof (half j). rewrite Hmi, !Hsw by lia. rewrite (decide_True _ _ (eq_refl : i = i)). rewrite !decide_False by lia.
      rewrite <- Ejm. apply H1; lia.
Qed.

Lemma build_heap n cnt es :
  (n ≤ cnt)%nat → cnt = length es → heap_from (S n) cnt es → heap_from 1 cnt (build n cnt es).
Proof.
  revert es. induction n as [|n IH]; intros es Hn Hc Hh; [done|]. cbn [build].
  destruct (sift_facts (S cnt) (S n) cnt es ltac:(lia) ltac:(lia)) as (_ & Hl & _). apply IH; [lia|by rewrite Hl|].
  apply sift_heap; [lia|lia|lia|]. split.
  - intros j Hj Hp Hne. apply Hh; lia.
  - intros j Hj E Hp. pose proof (half (S n)). lia.
Qed.

Lemma heap_root cnt es j : heap_from 1 cnt es → (1 ≤ j ≤ cnt)%nat → le (elt es j) (elt es 1).
Proof.
  intros Hh. induction j as [j IH] using (well_founded_induction lt_wf). intros Hj. destruct (decide (j = 1)%nat) as [->|]; [apply le_refl|].
  pose proof (half j). apply (Htrans _ (elt es (j / 2))); [apply Hh; lia|apply IH; lia].
Qed.

(** What is left to extract is a heap, the rest is in order and nowhere smaller. *)
Record extracting (n : nat) (es : list (list Z)) : Prop := {
  ex_heap : heap_from 1 n es;
  ex_sorted : StronglySorted le (drop n es);
  ex_below : ∀ x y, x ∈ take n es → y ∈ drop n es → le x y
}.

Lemma take_elt n es x : (n ≤ length es)%nat → x ∈ take n es ↔ ∃ j, (1 ≤ j ≤ n)%nat ∧ x = elt es j.
Proof.
  intros Hn. split.
  - intros (k & Hk)%list_elem_of_lookup. pose proof (lookup_lt_Some _ _ _ Hk) as Hlt. rewrite length_take in Hlt. rewrite lookup_take_lt in Hk by lia.
    exists (S k). split; [lia|]. unfold elt. cbn. by rewrite Nat.sub_0_r, Hk.
  - intros (j & Hj & ->). apply list_elem_of_lookup. exists (j - 1)%nat. rewrite lookup_take_lt by lia. apply elt_lookup. lia.
Qed.

Lemma take_same_perm n (l l' : list (list Z)) : l ≡ₚ l' → drop n l = drop n l' → take n l ≡ₚ take n l'.
Proof. intros Hp Hd. rewrite <- (take_drop n l), <- (take_drop n l') in Hp. rewrite Hd in Hp. by apply Permutation_app_inv_r in Hp. Qed.

Lemma extract_step n es :
  (S (S n) ≤ length es)%nat → extracting (S (S n)) es → extracting (S n) (sift (S (S n)) 1 (S n) (swap 0 (S n) es)).
Proof.
  intros Hn [Hh Hs Hb]. set (es1 := swap 0 (S n) es). assert (length es1 = length es) as Hl1 by apply length_swap.
  destruct (sift_facts (S (S n)) 1 (S n) es1 ltac:(lia) ltac:(lia)) as (Hp & Hl & Hd). set (es2 := sift _ _ _ _) in *.
  assert (∀ k, (1 ≤ k)%nat → elt es1 k = if decide (k = 1)%nat then elt es (S (S n)) else if decide (k = S (S n)) then elt es 1 else elt es k) as Hsw.
  { intros k Hk. unfold es1. replace 0%nat with (1 - 1)%nat by lia. replace (S n) with (S (S n) - 1)%nat at 1 by lia. apply elt_swap; lia. }
  assert (drop (S n) es1 = elt es 1 :: drop (S (S n)) es) as Hd1.
  { rewrite (drop_S es1 (elt es 1)).
    - f_equal. apply list_eq. intros k. rewrite !lookup_drop. unfold es1. rewrite swap_lookup by lia. by rewrite !decide_False by lia.
    - unfold es1. rewrite swap_lookup by lia. rewrite decide_False, decide_True by lia. replace 0%nat with (1 - 1)%nat by lia. apply elt_lookup. lia. }
  assert (∀ x, x ∈ take (S n) es2 → ∃ j, (1 ≤ j ≤ S (S n))%nat ∧ x = elt es j) as Hin.
  { intros x Hx. rewrite (take_same_perm (S n) es2 es1 Hp Hd) in Hx. apply take_elt in Hx as (j & Hj & ->); [|lia]. rewrite Hsw by lia.
    destruct (decide (j = 1)%nat); [exists (S (S n)); split; [lia|done]|]. rewrite decide_False by lia. exists j. split; [lia|done]. }
  split.
  - apply sift_heap; [lia|lia|lia|]. split.
    + intros j Hj Hp1 Hne. pose proof (half j). rewrite !Hsw by lia. rewrite !decide_False by lia. apply Hh; lia.
    + intros j Hj E Hp1. cbn in Hp1. lia.
  - rewrite Hd, Hd1. constructor; [done|]. apply Forall_forall. intros y Hy. apply Hb; [|done]. apply take_elt; [lia|]. exists 1%nat. split; [lia|done].
  - intros x y Hx. rewrite Hd, Hd1. intros Hy. destruct (Hin x Hx) as (j & Hj & ->). apply elem_of_cons in Hy as [->|Hy].
    + by apply (heap_root (S (S n))).
    + apply Hb; [|done]. apply take_elt; [lia|]. by exists j.
Qed.

Lemma extract_sorted n es : (n ≤ length es)%nat → extracting n es → StronglySorted le (extract n es).
Proof.
  revert es. induction n as [|n IH]; intros es Hn Hx; [by destruct Hx as [_ Hs _]|]. destruct n as [|n].
  - destruct Hx as [_ Hs Hb]. cbn [extract]. destruct es as [|e es]; [done|]. cbn in Hs, Hb. rewrite drop_0 in Hs, Hb. rewrite take_0 in Hb.
    constructor; [done|]. apply Forall_forall. intros y Hy. apply Hb; [left|done].
  - rewrite extract_S. destruct (sift_facts (S (S n)) 1 (S n) (swap 0 (S n) es) ltac:(lia) ltac:(rewrite length_swap; lia)) as (_ & Hl & _).
    apply IH; [rewrite Hl, length_swap; lia|]. by apply extract_step.
Qed.

Lemma heap_sort_sorted es : StronglySorted le (heap_sort es).
Proof.
  unfold heap_sort. set (n := length es).
  assert (∀ m l, (m ≤ n)%nat → n = length l → length (build m n l) = n) as Hlb.
  { induction m as [|m IH]; intros l Hm Hl; [done|]. cbn [build]. apply IH; [lia|]. destruct (sift_facts (S n) (S m) n l ltac:(lia) ltac:(lia)) as (_ & Hl' & _). lia. }
  pose proof (half n) as Hhalf. assert (length (build (n / 2) n es) = n) as Hl by (apply Hlb; [lia|done]). apply extract_sorted; [lia|]. split.
  - apply build_heap; [lia|done|]. intros j Hj Hp. pose proof (half j). lia.
  - rewrite drop_ge by lia. constructor.
  - intros x y _. rewrite drop_ge by lia. by intros ?%elem_of_nil.
Qed.
End heap.

(** C19: for any comparison function, consistent or not, [sort] returns: it never reads
    or writes outside the array, its loops end, and the elements of the array are a
    permutation of what they were. *)
Theorem sort_returns_permutation compare cnt size a :
  (0 < size)%nat → length a = (cnt * size)%nat → Z.of_nat (cnt * size) < 2 ^ 31 →
  ∃ a', sort compare (Z.of_nat cnt) (Z.of_nat size) a = Ret (tt, a') ∧ chunks cnt size a' ≡ₚ chunks cnt size a.
Proof.
  intros Hs Ha Hb. destruct (chunks_holds size cnt a Hs Ha) as [Hh Hl].
  destruct (sort_run compare size (chunks cnt size a) a Hh) as (a' & E & Hh' & Hp); [by rewrite Hl|].
  rewrite Hl in E. exists a'. split; [done|]. pose proof (holds_chunks _ _ _ Hh') as Hc. rewrite (Permutation_length Hp), Hl in Hc. by rewrite Hc.
Qed.

Lemma sort_returns_permutation_witness :
  ∃ a', sort (λ _ _, 1) 3 2 [3; 0; 1; 1; 5; 2] = Ret (tt, a') ∧ chunks 3 2 a' ≡ₚ [[3; 0]; [1; 1]; [5; 2]].
Proof. apply (sort_returns_permutation (λ _ _, 1) 3 2 [3; 0; 1; 1; 5; 2]); [lia|reflexivity|lia]. Defined.

(** C18: for a comparison function that orders the elements, the array [sort] leaves is
    in order. *)
Theorem sort_sorts compare cnt size a :
  (∀ x y, Z.sgn (compare x y) = - Z.sgn (compare y x)) → (∀ x y z, compare x y ≤ 0 → compare y z ≤ 0 → compare x z ≤ 0) →
  (0 < size)%nat → length a = (cnt * size)%nat → Z.of_nat (cnt * size) < 2 ^ 31 →
  ∃ a', qsort compare (Z.of_nat cnt) (Z.of_nat size) a = Ret (tt, a') ∧ StronglySorted (λ x y, compare x y ≤ 0) (chunks cnt size a').
Proof.
  intros Hsy Htr Hs Ha Hb. destruct (chunks_holds size cnt a Hs Ha) as [Hh Hl].
  destruct (sort_run (compare_thunk compare) size (chunks cnt size a) a Hh) as (a' & E & Hh' & Hp); [by rewrite Hl|].
  rewrite Hl in E. exists a'. split; [done|]. pose proof (holds_chunks _ _ _ Hh') as Hc. rewrite (Permutation_length Hp), Hl in Hc. rewrite Hc.
  by apply (heap_sort_sorted compare).
Qed.

Definition first_byte (x y : list Z) : Z := default 0 (head x) - default 0 (head y).

Lemma sort_sorts_witness :
  ∃ a', qsort first_byte 3 2 [3; 0; 1; 1; 5; 2] = Ret (tt, a') ∧ StronglySorted (λ x y, first_byte x y ≤ 0) (chunks 3 2 a').
Proof. apply (sort_sorts first_byte 3 2 [3; 0; 1; 1; 5; 2]); [unfold first_byte; lia|unfold first_byte; lia|lia|reflexivity|lia]. Defined.

(** ** Searching *)

Section search.
Context (compare : list Z → list Z → Z) (size : nat) (es : list (list Z)) (a key : list Z).
Hypothesis Hsym : ∀ x y, Z.sgn (compare x y) = - Z.sgn (compare y x).
Hypothesis Htrans : ∀ x y z, compare x y ≤ 0 → compare y z ≤ 0 → compare x z ≤ 0.
Hypothesis Hh : holds size es a.
Hypothesis Hbound : Z.of_nat (length es * size) < 2 ^ 31.
Hypothesis Hsorted : StronglySorted (λ x y, compare x y ≤ 0) es.

Lemma above x y : compare key x < 0 → compare x y ≤ 0 → compare key y < 0.
Proof.
  intros H1 H2. pose proof (Htrans key x y ltac:(lia) H2). destruct (decide (compare key y = 0)) as [E|]; [|lia].
  pose proof (Hsym key y). pose proof (Hsym key x). pose proof (Htrans x y key H2 ltac:(lia)). lia.
Qed.

Lemma below x y : 0 < compare key y → compare x y ≤ 0 → 0 < compare key x.
Proof. intros H1 H2. destruct (Z_lt_le_dec 0 (compare key x)) as [|Hle]; [done|]. pose proof (Htrans key x y Hle H2). lia. Qed.

Lemma search_loop_run fuel lo hi :
  (lo ≤ hi ≤ length es)%nat → (hi - lo < fuel)%nat →
  (∀ k e, (k < lo)%nat → es !! k = Some e → 0 < compare key e) → (∀ k e, (hi ≤ k)%nat → es !! k = Some e → compare key e < 0) →
  ∃ r, search_loop compare fuel key (Z.of_nat (lo * size)) (Z.of_nat (hi * size)) (Z.of_nat size) a = Ret (r, a) ∧
    match r with
    | Some o => ∃ k e, o = Z.of_nat (k * size) ∧ es !! k = Some e ∧ compare key e = 0
    | None => ∀ e, e ∈ es → compare key e ≠ 0
    end.
Proof.
  pose proof (hl_size _ _ _ Hh) as Hsz. revert lo hi. induction fuel as [|fuel IH]; intros lo hi Hr Hf Hlo Hhi; [lia|]. cbn [search_loop].
  destruct (decide (lo = hi)) as [->|Hne].
  { rewrite bool_decide_eq_false_2 by lia. exists None. split; [done|]. intros e (k & Hk)%list_elem_of_lookup.
    destruct (decide (k < hi)%nat); [specialize (Hlo k e ltac:(lia) Hk)|specialize (Hhi k e ltac:(lia) Hk)]; lia. }
  rewrite bool_decide_eq_true_2 by nia. set (mid := (lo + (hi - lo) / 2)%nat). assert (lo ≤ mid < hi)%nat as Hmid.
  { unfold mid. pose proof (half (hi - lo)). lia. }
  assert (Z.of_nat (lo * size) + (Z.of_nat (hi * size) - Z.of_nat (lo * size)) `div` Z.of_nat size `div` 2 * Z.of_nat size = Z.of_nat (mid * size)) as ->.
  { replace (Z.of_nat (hi * size) - Z.of_nat (lo * size)) with (Z.of_nat (hi - lo) * Z.of_nat size) by (rewrite !Nat2Z.inj_mul, Nat2Z.inj_sub by lia; ring).
    rewrite Z.div_mul by lia. unfold mid. change 2 with (Z.of_nat 2). rewrite <- Nat2Z.inj_div. lia. }
  destruct (lookup_lt_is_Some_2 es mid) as [e He]; [lia|]. rewrite (bind_Ret _ _ _ e a) by (exact (elem_at_run size es a Hh Hbound mid e He)).
  assert (∀ k k' x y, (k < k')%nat → es !! k = Some x → es !! k' = Some y → compare x y ≤ 0) as Hord by (intros k k' x y Hk Hx Hy; exact (StronglySorted_lookup_lt _ es k k' x y Hsorted Hk Hx Hy)).
  destruct (decide (compare key e < 0)) as [Hlt|Hge].
  - rewrite bool_decide_eq_true_2 by done. apply IH; [lia|lia|done|]. intros k x Hk Hx. destruct (decide (k = mid)) as [->|]; [congruence|].
    apply (above e); [done|]. apply (Hord mid k); [lia|done|done].
  - rewrite bool_decide_eq_false_2 by done. destruct (decide (compare key e > 0)) as [Hgt|Hle].
    + rewrite bool_decide_eq_true_2 by done. replace (Z.of_nat (mid * size) + Z.of_nat size) with (Z.of_nat (S mid * size)) by lia.
      apply IH; [lia|lia| |done]. intros k x Hk Hx. destruct (decide (k = mid)) as [->|]; [assert (x = e) as -> by congruence; lia|].
      apply (below x e); [lia|]. apply (Hord k mid); [lia|done|done].
    + rewrite bool_decide_eq_false_2 by lia. exists (Some (Z.of_nat (mid * size))). split; [done|]. exists mid, e. split_and!; [done|done|lia].
Qed.
End search.

(** In an array in order, [bsearch] returns the offset of an element equal to the
    key if there is one and null if there is none, without changing the array. *)
Theorem bsearch_correct compare key cnt size a :
  (∀ x y, Z.sgn (compare x y) = - Z.sgn (compare y x)) → (∀ x y z, compare x y ≤ 0 → compare y z ≤ 0 → compare x z ≤ 0) →
  (0 < size)%nat → length a = (cnt * size)%nat → Z.of_nat (cnt * size) < 2 ^ 31 → StronglySorted (λ x y, compare x y ≤ 0) (chunks cnt size a) →
  ∃ r, bsearch compare key (Z.of_nat cnt) (Z.of_nat size) a = Ret (r, a) ∧
    match r with
    | Some o => ∃ k e, o = Z.of_nat (k * size) ∧ chunks cnt size a !! k = Some e ∧ compare key e = 0
    | None => ∀ e, e ∈ chunks cnt size a → compare key e ≠ 0
    end.
Proof.
  intros Hsy Htr Hs Ha Hb Hso. destruct (chunks_holds size cnt a Hs Ha) as [Hh Hl]. unfold bsearch, binary_search. rewrite Nat2Z.id.
  replace (Z.of_nat size * Z.of_nat cnt) with (Z.of_nat (cnt * size)) by lia. rewrite uwrap_id by lia. change 0 with (Z.of_nat (0 * size)).
  apply (search_loop_run (compare_thunk compare) size (chunks cnt size a) a key Hsy Htr Hh ltac:(by rewrite Hl) Hso (S cnt) 0 cnt); [lia|lia|lia|].
  intros k e Hk He. apply lookup_lt_Some in He. lia.
Qed.

Lemma bsearch_correct_witness :
  ∃ r, bsearch first_byte [5; 9] 3 2 [1; 1; 3; 0; 5; 2] = Ret (r, [1; 1; 3; 0; 5; 2]) ∧
    match r with
    | Some o => ∃ k e, o = Z.of_nat (k * 2) ∧ [[1; 1]; [3; 0]; [5; 2]] !! k = Some e ∧ first_byte [5; 9] e = 0
    | None => ∀ e, e ∈ [[1; 1]; [3; 0]; [5; 2]] → first_byte [5; 9] e ≠ 0
    end.
Proof.
  apply (bsearch_correct first_byte [5; 9] 3 2 [1; 1; 3; 0; 5; 2]); [unfold first_byte; lia|unfold first_byte; lia|lia|reflexivity|lia|].
  repeat constructor; vm_compute; congruence.
Defined.

(** ** Parsing *)

Definition dec (ds : list Z) : Z := foldl (λ v c, v * 10 + (c - 48)) 0 ds.

Lemma s32_congr_step v w c : v `mod` 2 ^ 32 = w `mod` 2 ^ 32 → s32 (s32 (v * 10) - c) `mod` 2 ^ 32 = (w * 10 - c) `mod` 2 ^ 32.
Proof.
  intros E. assert (∀ x, s32 x `mod` 2 ^ 32 = x `mod` 2 ^ 32) as Hs.
  { intros x. unfold swrap. rewrite Zminus_mod_idemp_l. f_equal. lia. }
  rewrite Hs, Zminus_mod, Hs, Z.mul_mod, E, <- Z.mul_mod, <- Zminus_mod by lia. done.
Qed.

Lemma digits_loop_run ds rest v w :
  Forall (λ c, isdigit c = true) ds → (∀ c, head rest = Some c → isdigit c = false) → v `mod` 2 ^ 32 = (- w) `mod` 2 ^ 32 → s32 v = v →
  digits_loop v (ds ++ rest) = s32 (- foldl (λ v c, v * 10 + (c - 48)) w ds).
Proof.
  intros Hd Hr. revert v w. induction Hd as [|c ds Hc Hds IH]; intros v w E Ev; cbn [app digits_loop foldl].
  - assert (digits_loop v rest = v) as ->. { destruct rest as [|c rest]; [done|]. cbn. by rewrite (Hr c eq_refl). }
    rewrite <- Ev. unfold swrap. f_equal. rewrite <- (Z.add_mod_idemp_l v), E by lia. by rewrite Z.add_mod_idemp_l by lia.
  - rewrite Hc. apply IH.
    + rewrite (s32_congr_step v (- w) (c - 48) E). f_equal. lia.
    + apply swrap_id; [lia|]. apply swrap_range. lia.
Qed.

Lemma digit_not_space c : isdigit c = true → isspace c = false ∧ c ≠ 43 ∧ c ≠ 45.
Proof. unfold isdigit, isspace. intros H%bool_decide_eq_true_1. split; [apply bool_decide_eq_false_2; lia|lia]. Qed.

Lemma skip_space_run ws s : Forall (λ c, isspace c = true) ws → (∀ c, head s = Some c → isspace c = false) → skip_space (ws ++ s) = s.
Proof.
  intros Hw Hs. induction Hw as [|c ws Hc _ IH]; cbn; [|by rewrite Hc]. destruct s as [|c s]; [done|]. cbn. by rewrite (Hs c eq_refl).
Qed.

(** [atoi] skips white space, takes an optional sign and the digits up to the first
    other character, and returns the number they spell, wrapped to 32 bits; so every
    number of type [int] that is written in decimal is read back, the smallest
    included. *)
Theorem atoi_correct ws sign ds rest :
  Forall (λ c, isspace c = true) ws → sign ∈ [[]; [43]; [45]] → ds ≠ [] → Forall (λ c, isdigit c = true) ds →
  (∀ c, head rest = Some c → isdigit c = false) →
  atoi (ws ++ sign ++ ds ++ rest) = s32 (if decide (sign = [45]) then - dec ds else dec ds).
Proof.
  intros Hw Hsg Hne Hd Hr. destruct ds as [|d ds]; [done|]. destruct (digit_not_space d) as (Hd1 & Hd2 & Hd3); [by apply Forall_cons in Hd as [? _]|].
  pose proof (digits_loop_run (d :: ds) rest 0 0 Hd Hr eq_refl eq_refl) as Hloop. fold (dec (d :: ds)) in Hloop.
  assert (s32 (- s32 (- dec (d :: ds))) = s32 (dec (d :: ds))) as Hopp.
  { unfold swrap at 1 3. f_equal. assert ((- s32 (- dec (d :: ds))) `mod` 2 ^ 32 = dec (d :: ds) `mod` 2 ^ 32) as E; [|by rewrite <- Z.add_mod_idemp_l, E, Z.add_mod_idemp_l by lia].
    unfold swrap. set (x := dec (d :: ds)). Z.div_mod_to_equations. lia. }
  unfold atoi. rewrite skip_space_run; [|done|].
  2:{ intros c. rewrite !elem_of_cons in Hsg. destruct Hsg as [->|[->|[->|?%elem_of_nil]]]; [| | |done]; cbn; intros [= <-]; done. }
  rewrite !elem_of_cons in Hsg. destruct Hsg as [->|[->|[->|?%elem_of_nil]]]; [| | |done]; cbn [app].
  - rewrite !bool_decide_eq_false_2 by done. rewrite decide_False by done. cbn [app] in Hloop. by rewrite Hloop.
  - rewrite bool_decide_eq_true_2 by done. rewrite decide_False by done. cbn [app] in Hloop. by rewrite Hloop.
  - rewrite bool_decide_eq_false_2, bool_decide_eq_true_2 by done. rewrite decide_True by done. cbn [app] in Hloop. by rewrite Hloop.
Qed.

Lemma atoi_correct_witness : atoi [32; 9; 45; 50; 49; 52; 55; 52; 56; 51; 54; 52; 56; 120] = - 2 ^ 31.
Proof.
  apply (atoi_correct [32; 9] [45] [50; 49; 52; 55; 52; 56; 51; 54; 52; 56] [120]).
  - repeat constructor.
  - right. right. left.
  - discriminate.
  - repeat constructor.
  - intros c [= <-]. reflexivity.
Defined.
