(* ===== verification/KListSet.v ===== *)
(** * KListSet: several kernel lists in one heap

    [lists h ls] says that the heap [h] holds the lists [ls] (address and elements) at
    disjoint addresses.  The order of [ls] does not matter, so the lemmas on the list
    operations are stated for the first list and used up to permutation.  The hash table
    and the block allocator keep their elements in such lists. *)

From S2P Require Import Prelude Links KList KListFacts.

Definition footprints (ls : list (Z * list Z)) : list Z := ls ≫= λ p, footprint p.1 p.2.
Definition members (ls : list (Z * list Z)) : list Z := ls ≫= snd.

Definition lists (h : lheap) (ls : list (Z * list Z)) : Prop :=
  Forall (λ p, is_list h p.1 p.2) ls ∧ NoDup (footprints ls).

#[export] Instance footprints_perm : Proper ((≡ₚ) ==> (≡ₚ)) footprints.
Proof. apply bind_Permutation. Qed.

#[export] Instance members_perm : Proper ((≡ₚ) ==> (≡ₚ)) members.
Proof. apply bind_Permutation. Qed.

#[export] Instance lists_perm : Proper ((=) ==> (≡ₚ) ==> iff) lists.
Proof. intros h ? <- ls ls' Hp. unfold lists. by rewrite Hp. Qed.

Lemma footprints_cons l xs ls : footprints ((l, xs) :: ls) = footprint l xs ++ footprints ls.
Proof. done. Qed.

Lemma members_cons l xs ls : members ((l, xs) :: ls) = xs ++ members ls.
Proof. done. Qed.

Lemma members_app ls1 ls2 : members (ls1 ++ ls2) = members ls1 ++ members ls2.
Proof. apply bind_app. Qed.

Lemma members_footprints ls e : e ∈ members ls → e ∈ footprints ls.
Proof.
  unfold members, footprints. rewrite !list_elem_of_bind. intros (p & He & Hp).
  exists p. unfold footprint. set_solver.
Qed.

Lemma lists_cons h l xs ls :
  lists h ((l, xs) :: ls) ↔
  is_list h l xs ∧ lists h ls ∧ (∀ q, q ∈ footprint l xs → q ∉ footprints ls).
Proof.
  unfold lists. rewrite Forall_cons, footprints_cons, NoDup_app. simpl. split.
  - intros ([? ?] & ? & ? & ?). done.
  - intros (Hl & [? ?] & ?). split_and!; try done. apply (il_nodup _ _ _ Hl).
Qed.

Lemma lists_app h ls1 ls2 : lists h (ls1 ++ ls2) → lists h ls1 ∧ lists h ls2.
Proof.
  unfold lists. rewrite Forall_app. unfold footprints. rewrite bind_app, NoDup_app. naive_solver.
Qed.

Lemma lists_valid h ls q : lists h ls → q ∈ footprints ls → valid h q.
Proof.
  intros [Hl _]. unfold footprints. rewrite list_elem_of_bind. intros (p & Hq & Hp).
  eapply Forall_forall in Hl; [|done]. by eapply is_list_valid.
Qed.

Lemma lists_frame h h' ls S :
  lists h ls → agree_off S h h' → (∀ q, q ∈ S → q ∉ footprints ls) → lists h' ls.
Proof.
  intros [Hl Hnd] Ha Hd. split; [|done]. apply Forall_forall. intros p Hp.
  eapply Forall_forall in Hl; [|done]. eapply is_list_frame; [exact Hl|exact Ha|].
  intros q Hq HS. apply (Hd q HS). unfold footprints. rewrite list_elem_of_bind. eauto.
Qed.

(** ** The operations on one of the lists *)

Lemma lists_push h l xs ls e :
  lists h ((l, xs) :: ls) → valid h e → e ∉ footprints ((l, xs) :: ls) →
  ∃ h', list_push_front l e h = Ret (tt, h') ∧ same_cells h h' ∧ lists h' ((l, e :: xs) :: ls).
Proof.
  rewrite footprints_cons, not_elem_of_app. intros (Hl & Hls & Hd)%lists_cons Hv [Hn1 Hn2].
  destruct (list_push_front_run h l xs e Hl Hv Hn1) as (h' & Hr & Hc & Hl' & Ha).
  exists h'. split_and!; [done..|]. apply lists_cons. split_and!; [done| |].
  - eapply lists_frame; [done|exact Ha|]. intros q [->|Hq]%elem_of_cons; [done|by apply Hd].
  - intros q [->|[->|Hq]%elem_of_cons]%elem_of_cons; [|done|]; apply Hd; unfold footprint; set_solver.
Qed.

Lemma lists_push_back h l xs ls e :
  lists h ((l, xs) :: ls) → valid h e → e ∉ footprints ((l, xs) :: ls) →
  ∃ h', list_push_back l e h = Ret (tt, h') ∧ same_cells h h' ∧ lists h' ((l, xs ++ [e]) :: ls).
Proof.
  rewrite footprints_cons, not_elem_of_app. intros (Hl & Hls & Hd)%lists_cons Hv [Hn1 Hn2].
  destruct (list_push_back_run h l xs e Hl Hv Hn1) as (h' & Hr & Hc & Hl' & Ha).
  exists h'. split_and!; [done..|]. apply lists_cons. split_and!; [done| |].
  - eapply lists_frame; [done|exact Ha|]. intros q [->|Hq]%elem_of_cons; [done|by apply Hd].
  - intros q Hq. destruct (decide (q = e)) as [->|Hne]; [done|]. apply Hd. unfold footprint in *. set_solver.
Qed.

Lemma lists_remove h l xs e ys ls :
  lists h ((l, xs ++ e :: ys) :: ls) →
  ∃ h' r, list_remove e h = Ret (r, h') ∧ same_cells h h' ∧ lists h' ((l, xs ++ ys) :: ls) ∧
    valid h' e ∧ e ∉ footprints ((l, xs ++ ys) :: ls).
Proof.
  intros Hls0. assert (valid h e) as Hv by (eapply lists_valid; [exact Hls0|rewrite footprints_cons; unfold footprint; set_solver]).
  assert (e ∉ footprints ((l, xs ++ ys) :: ls)) as Hfresh.
  { destruct Hls0 as [_ Hnd]. rewrite footprints_cons, footprint_insert in Hnd. cbn [app] in Hnd.
    apply NoDup_cons in Hnd as [? _]. done. }
  apply lists_cons in Hls0 as (Hl & Hls & Hd).
  destruct (list_remove_is_list h l xs e ys Hl) as (h' & Hr & Hc & Hl' & Ha).
  exists h', (hd (tail_of l) ys). split_and!; [done..| |by apply Hc|done]. apply lists_cons.
  assert (∀ q, q ∈ footprint l (xs ++ ys) → q ∉ footprints ls) as Hd'
    by (intros q Hq; apply Hd; rewrite footprint_insert; set_solver).
  split_and!; [done| |done]. by eapply lists_frame.
Qed.

Lemma lists_pop h l x xs ls :
  lists h ((l, x :: xs) :: ls) →
  ∃ h', list_pop_front l h = Ret (x, h') ∧ same_cells h h' ∧ lists h' ((l, xs) :: ls).
Proof.
  intros (Hl & Hls & Hd)%lists_cons.
  destruct (list_pop_front_run h l x xs Hl) as (h' & Hr & Hc & Hl' & Ha).
  exists h'. split_and!; [done..|]. apply lists_cons.
  assert (∀ q, q ∈ footprint l xs → q ∉ footprints ls) as Hd'
    by (intros q Hq; apply Hd; unfold footprint in *; set_solver).
  split_and!; [done| |done]. by eapply lists_frame.
Qed.

Lemma lists_init h l ls :
  lists h ls → valid h (head_of l) → valid h (tail_of l) →
  head_of l ∉ footprints ls → tail_of l ∉ footprints ls →
  ∃ h', list_init l h = Ret (tt, h') ∧ same_cells h h' ∧ lists h' ((l, []) :: ls).
Proof.
  intros Hls Hv1 Hv2 Hn1 Hn2. destruct (list_init_run h l Hv1 Hv2) as (h' & Hr & Hc & Hl' & Ha).
  exists h'. split_and!; [done..|]. apply lists_cons. split_and!; [done| |].
  - eapply lists_frame; [done|exact Ha|]. by intros q [->|[->|[]%elem_of_nil]%elem_of_cons]%elem_of_cons.
  - unfold footprint. by intros q [->|[->|[]%elem_of_nil]%elem_of_cons]%elem_of_cons.
Qed.

(** [list_init] on a list that has elements: they are dropped. *)
Lemma lists_reinit h l xs ls :
  lists h ((l, xs) :: ls) →
  ∃ h', list_init l h = Ret (tt, h') ∧ same_cells h h' ∧ lists h' ((l, []) :: ls).
Proof.
  intros (Hl & Hls & Hd)%lists_cons.
  apply lists_init; [done|..]; [eapply is_list_valid; [exact Hl|]..|apply Hd|apply Hd]; unfold footprint; set_solver.
Qed.

(** Walking along one of the lists. *)
Lemma lists_next h l xs x ys ls :
  lists h ((l, xs ++ x :: ys) :: ls) → list_next x h = Ret (hd (tail_of l) ys, h).
Proof.
  intros (Hl & _ & _)%lists_cons. pose proof (il_chain _ _ _ Hl) as Hc.
  rewrite <- app_assoc in Hc. destruct ys; apply (chain_next_run h (head_of l :: xs) _ _ _ Hc).
Qed.

Lemma lists_NoDup h ls : lists h ls → NoDup (members ls).
Proof.
  intros [_ Hnd]. induction ls as [|[l xs] ls IH]; [constructor|].
  rewrite footprints_cons, NoDup_app in Hnd. destruct Hnd as (H1 & H2 & H3).
  rewrite members_cons, NoDup_app. unfold footprint in *. apply NoDup_cons in H1 as [_ H1].
  apply NoDup_app in H1 as (H1 & _ & _). split_and!; [done| |by apply IH].
  intros e He Hm%members_footprints. apply (H2 e); [set_solver|done].
Qed.

Lemma valid_lookup (h : lheap) q : valid h q ↔ q ≠ NULL ∧ is_Some (h !! q).
Proof.
  unfold valid, deref. case_bool_decide; [|naive_solver]. split; [by intros [? ?]|naive_solver].
Qed.

(** Lists survive changes of cells that are none of theirs. *)
Lemma lists_ext h h' ls :
  lists h ls → (∀ q, q ∈ footprints ls → h' !! q = h !! q) → lists h' ls.
Proof.
  intros [Hl Hnd] Heq. split; [|done]. apply Forall_forall. intros p Hp.
  eapply Forall_forall in Hl as [Hc Hn Hh Ht]; [|done].
  assert (∀ q, q ∈ footprint p.1 p.2 → nxt h' q = nxt h q ∧ prv h' q = prv h q) as Hq.
  { intros q Hq. unfold nxt, prv, deref. rewrite Heq; [done|].
    unfold footprints. rewrite list_elem_of_bind. eauto. }
  split; [|done|..].
  - eapply chain_ext; [|exact Hc]. intros q Hin. destruct (Hq q Hin). done.
  - destruct (Hq (head_of p.1)) as [_ ->]; [unfold footprint; set_solver|done].
  - destruct (Hq (tail_of p.1)) as [-> _]; [unfold footprint; set_solver|done].
Qed.
