(* ===== verification/Hash.v ===== *)
(** * Hash: the kernel's hash table ([pintos/src/lib/kernel/hash.c])

    The buckets are kernel lists ([KList]) in an array that [malloc] gives; an element of
    the table is the address of the list element inside it, which is its first member.
    The hash and comparison functions of the caller are functions of that address.  The
    calls of a destructor or an action are recorded in the state.  [mallocs] holds the
    outcomes of the coming allocations, all of which succeed once it is empty; fresh
    memory has arbitrary contents. *)

From S2P Require Import Prelude Links KList.

(** [struct hash]; the functions and [aux] are parameters below. *)
Record hash_table := HashTable { elem_cnt : Z; bucket_cnt : Z; buckets : Z }.

Record hstate := HState { cells : lheap; table : hash_table; calls : list Z; brk : Z; mallocs : list bool }.

(** [struct hash_iterator]; the table is the one of the state. *)
Record hash_iterator := HashIterator { it_bucket : Z; it_elem : Z }.

Definition LIST_SIZE : Z := 16.

Section hash.
Context (hash : Z → Z) (less : Z → Z → bool) (junk : Z → list_elem).

Definition set_cells v s := HState v (table s) (calls s) (brk s) (mallocs s).
Definition set_table v s := HState (cells s) v (calls s) (brk s) (mallocs s).
Definition set_calls v s := HState (cells s) (table s) v (brk s) (mallocs s).

(** The kernel list functions, on the cells of the state. *)
Definition on_list {A} (m : M lheap A) : M hstate A := λ s,
  match m (cells s) with
  | Ret (a, h) => Ret (a, set_cells h s)
  | Crash => Crash
  | NoFuel => NoFuel
  end.

(** The cells of an array of [n] lists at [a]. *)
Definition array_cells (a : Z) (n : nat) : list Z := (λ k, a + 8 * Z.of_nat k) <$> seq 0 (2 * n).

(** [malloc (size)] for an array of lists, and [free] of an array of [n]. *)
Definition malloc_lists (size : Z) : M hstate Z := λ s,
  match mallocs s with
  | false :: ms => Ret (0, HState (cells s) (table s) (calls s) (brk s) ms)
  | ms => let a := brk s in
          let n := Z.to_nat (size `div` LIST_SIZE) in
          Ret (a, HState (foldr (λ p h, <[p := junk p]> h) (cells s) (array_cells a n)) (table s) (calls s)
                         (a + size) (tail ms))
  end.

Definition free_lists (a n : Z) : M hstate unit :=
  modify (λ s, set_cells (foldr delete (cells s) (array_cells a (Z.to_nat n))) s).

Definition call (e : Z) : M hstate unit := modify (λ s, set_calls (calls s ++ [e]) s).
Definition set_cnt (n : Z) : M hstate unit := modify (λ s, set_table (HashTable n (bucket_cnt (table s)) (buckets (table s))) s).

Definition find_bucket (e : Z) : M hstate Z :=
  t ← gets table;
  let bucket_idx := Z.land (hash e) (u32 (bucket_cnt t - 1)) in
  mret (buckets t + LIST_SIZE * bucket_idx).

Fixpoint find_loop (fuel : nat) (bucket e i : Z) : M hstate Z :=
  match fuel with
  | O => nofuel
  | S fuel =>
    en ← on_list (list_end bucket);
    if bool_decide (i = en) then mret NULL else
    if negb (less i e) && negb (less e i) then mret i else
    i ← on_list (list_next i);
    find_loop fuel bucket e i
  end.

Definition find_elem (bucket e : Z) : M hstate Z :=
  fuel ← gets (λ s, S (base.size (cells s)));
  i ← on_list (list_begin bucket);
  find_loop fuel bucket e i.

Definition turn_off_least_1bit (x : Z) : Z := Z.land x (u32 (x - 1)).
Definition is_power_of_2 (x : Z) : bool := bool_decide (x ≠ 0) && bool_decide (turn_off_least_1bit x = 0).

Definition MIN_ELEMS_PER_BUCKET : Z := 1.
Definition BEST_ELEMS_PER_BUCKET : Z := 2.
Definition MAX_ELEMS_PER_BUCKET : Z := 4.

Fixpoint pow2_loop (fuel : nat) (n : Z) : M hstate Z :=
  match fuel with
  | O => nofuel
  | S fuel => if is_power_of_2 n then mret n else pow2_loop fuel (turn_off_least_1bit n)
  end.

(** [for (i = 0; i < n; i++) list_init (&a[i])], [n] being the iterations left. *)
Fixpoint init_loop (n : nat) (bucket : Z) : M hstate unit :=
  match n with
  | O => mret tt
  | S n => on_list (list_init bucket);; init_loop n (bucket + LIST_SIZE)
  end.

Fixpoint move_loop (fuel : nat) (old_bucket elem : Z) : M hstate unit :=
  match fuel with
  | O => nofuel
  | S fuel =>
    en ← on_list (list_end old_bucket);
    if bool_decide (elem = en) then mret tt else
    new_bucket ← find_bucket elem;
    next ← on_list (list_next elem);
    _ ← on_list (list_remove elem);
    on_list (list_push_front new_bucket elem);;
    move_loop fuel old_bucket next
  end.

Fixpoint rehash_loop (n : nat) (old_bucket : Z) : M hstate unit :=
  match n with
  | O => mret tt
  | S n =>
    fuel ← gets (λ s, S (base.size (cells s)));
    elem ← on_list (list_begin old_bucket);
    move_loop fuel old_bucket elem;;
    rehash_loop n (old_bucket + LIST_SIZE)
  end.

Definition rehash : M hstate unit :=
  t ← gets table;
  let old_buckets := buckets t in
  let old_bucket_cnt := bucket_cnt t in
  let new_bucket_cnt := elem_cnt t `div` BEST_ELEMS_PER_BUCKET in
  let new_bucket_cnt := if bool_decide (new_bucket_cnt < 4) then 4 else new_bucket_cnt in
  new_bucket_cnt ← pow2_loop 33 new_bucket_cnt;
  if bool_decide (new_bucket_cnt = old_bucket_cnt) then mret tt else
  new_buckets ← malloc_lists (u32 (LIST_SIZE * new_bucket_cnt));
  if bool_decide (new_buckets = NULL) then mret tt else
  init_loop (Z.to_nat new_bucket_cnt) new_buckets;;
  modify (set_table (HashTable (elem_cnt t) new_bucket_cnt new_buckets));;
  rehash_loop (Z.to_nat old_bucket_cnt) old_buckets;;
  free_lists old_buckets old_bucket_cnt.

Definition insert_elem (bucket e : Z) : M hstate unit :=
  t ← gets table;
  set_cnt (u32 (elem_cnt t + 1));;
  on_list (list_push_front bucket e).

Definition remove_elem (e : Z) : M hstate unit :=
  t ← gets table;
  set_cnt (u32 (elem_cnt t - 1));;
  _ ← on_list (list_remove e);
  mret tt.

Fixpoint pop_loop (fuel : nat) (bucket : Z) : M hstate unit :=
  match fuel with
  | O => nofuel
  | S fuel =>
    empty ← on_list (list_empty bucket);
    if (empty : bool) then mret tt else
    e ← on_list (list_pop_front bucket);
    call e;;
    pop_loop fuel bucket
  end.

(** [destructor] says whether one is given. *)
Fixpoint clear_buckets (n : nat) (destructor : bool) (bucket : Z) : M hstate unit :=
  match n with
  | O => mret tt
  | S n =>
    (if destructor then fuel ← gets (λ s, S (base.size (cells s))); pop_loop fuel bucket else mret tt);;
    on_list (list_init bucket);;
    clear_buckets n destructor (bucket + LIST_SIZE)
  end.

Definition hash_clear (destructor : bool) : M hstate unit :=
  t ← gets table;
  clear_buckets (Z.to_nat (bucket_cnt t)) destructor (buckets t);;
  set_cnt 0.

Definition hash_init : M hstate bool :=
  b ← malloc_lists (LIST_SIZE * 4);
  modify (set_table (HashTable 0 4 b));;
  if bool_decide (b ≠ NULL) then hash_clear false;; mret true else mret false.

Definition hash_destroy (destructor : bool) : M hstate unit :=
  (if destructor then hash_clear true else mret tt);;
  t ← gets table;
  free_lists (buckets t) (bucket_cnt t).

Definition hash_insert (new : Z) : M hstate Z :=
  bucket ← find_bucket new;
  old ← find_elem bucket new;
  (if bool_decide (old = NULL) then insert_elem bucket new else mret tt);;
  rehash;;
  mret old.

Definition hash_replace (new : Z) : M hstate Z :=
  bucket ← find_bucket new;
  old ← find_elem bucket new;
  (if bool_decide (old ≠ NULL) then remove_elem old else mret tt);;
  insert_elem bucket new;;
  rehash;;
  mret old.

Definition hash_find (e : Z) : M hstate Z :=
  bucket ← find_bucket e;
  find_elem bucket e.

Definition hash_delete (e : Z) : M hstate Z :=
  bucket ← find_bucket e;
  found ← find_elem bucket e;
  (if bool_decide (found ≠ NULL) then remove_elem found;; rehash else mret tt);;
  mret found.

Fixpoint apply_loop (fuel : nat) (bucket elem : Z) : M hstate unit :=
  match fuel with
  | O => nofuel
  | S fuel =>
    en ← on_list (list_end bucket);
    if bool_decide (elem = en) then mret tt else
    next ← on_list (list_next elem);
    call elem;;
    apply_loop fuel bucket next
  end.

Fixpoint apply_buckets (n : nat) (bucket : Z) : M hstate unit :=
  match n with
  | O => mret tt
  | S n =>
    fuel ← gets (λ s, S (base.size (cells s)));
    elem ← on_list (list_begin bucket);
    apply_loop fuel bucket elem;;
    apply_buckets n (bucket + LIST_SIZE)
  end.

Definition hash_apply : M hstate unit :=
  t ← gets table;
  apply_buckets (Z.to_nat (bucket_cnt t)) (buckets t).

Definition hash_first : M hstate hash_iterator :=
  t ← gets table;
  e ← on_list (list_head (buckets t));
  mret (HashIterator (buckets t) e).

(** The loop over the buckets that are empty. *)
Fixpoint next_loop (fuel : nat) (i : hash_iterator) : M hstate hash_iterator :=
  match fuel with
  | O => nofuel
  | S fuel =>
    en ← on_list (list_end (it_bucket i));
    if bool_decide (it_elem i = en) then
      t ← gets table;
      let bucket := it_bucket i + LIST_SIZE in
      if bool_decide (buckets t + LIST_SIZE * bucket_cnt t ≤ bucket) then mret (HashIterator bucket NULL) else
      e ← on_list (list_begin bucket);
      next_loop fuel (HashIterator bucket e)
    else mret i
  end.

Definition hash_next (i : hash_iterator) : M hstate hash_iterator :=
  t ← gets table;
  e ← on_list (list_next (it_elem i));
  next_loop (S (Z.to_nat (bucket_cnt t))) (HashIterator (it_bucket i) e).

Definition hash_cur (i : hash_iterator) : Z := it_elem i.

Definition hash_size : M hstate Z := t ← gets table; mret (elem_cnt t).
Definition hash_empty : M hstate bool := t ← gets table; mret (bool_decide (elem_cnt t = 0)).
End hash.

(** ** Sample hash functions *)

Definition FNV_32_PRIME : Z := 16777619.
Definition FNV_32_BASIS : Z := 2166136261.

Fixpoint fnv_loop (h : Z) (buf : list Z) : Z :=
  match buf with
  | [] => h
  | b :: buf => fnv_loop (Z.lxor (u32 (h * FNV_32_PRIME)) b) buf
  end.

Definition hash_bytes (buf : list Z) : Z := fnv_loop FNV_32_BASIS buf.

(** [s] is the characters before the terminator. *)
Definition hash_string (s : list Z) : Z := fnv_loop FNV_32_BASIS s.

(** The four bytes of an [int] in memory. *)
Definition hash_int (i : Z) : Z :=
  let u := u32 i in hash_bytes [u `mod` 256; (u `div` 2 ^ 8) `mod` 256; (u `div` 2 ^ 16) `mod` 256; (u `div` 2 ^ 24) `mod` 256].

(** A run: elements at 1000, 1008, ... hashed by themselves and compared modulo 100. *)
Definition demo_hash (e : Z) : Z := (e - 1000) `mod` 100.
Definition demo_less (a b : Z) : bool := bool_decide (demo_hash a < demo_hash b).
Definition demo_state : hstate :=
  HState (list_to_map ((λ k, (1000 + 8 * Z.of_nat k, ListElem 0 0)) <$> seq 0 60)) (HashTable 0 0 0) [] 5000 [].

Fixpoint insert_all (es : list Z) : M hstate (list Z) :=
  match es with
  | [] => mret []
  | e :: es => r ← hash_insert demo_hash demo_less (λ _, ListElem 3 3) e; rs ← insert_all es; mret (r :: rs)
  end.

Definition hash_demo : M hstate (bool * list Z * Z * Z) :=
  ok ← hash_init (λ _, ListElem 3 3);
  rs ← insert_all ((λ k, 1000 + 8 * Z.of_nat k) <$> seq 0 27);
  f ← hash_find demo_hash demo_less 1208;
  n ← hash_size;
  mret (ok, rs, f, n).

Example hash_demo_runs : fst <$> (if hash_demo demo_state is Ret r then Some r else None) = Some (true, replicate 25 0 ++ [1000; 1008], 1008, 25).
Proof. vm_compute. reflexivity. Qed.
