(* ===== verification/HashFacts.v ===== *)
(** * HashFacts: the invariant of the hash table and its operations

    [arr a bs] is an array of [struct list] at [a] with the contents [bs], the buckets of
    the table.

    [repr D bs s]: the buckets of the table hold [bs], every element is in the bucket its
    hash selects, no two elements are equivalent, the count is right, and the cells of the
    heap are the caller's [D] and the bucket array, nothing else.  Each function of
    [hash.c] is shown to return and to keep this, whatever the allocator does. *)

From S2P Require Import Prelude Links KList KListFacts KListSet Hash.

(** ** Arrays of lists *)

Fixpoint arr (a : Z) (bs : list (list Z)) : list (Z * list Z) :=
  match bs with
  | [] => []
  | xs :: bs => (a, xs) :: arr (a + LIST_SIZE) bs
  end.

Lemma arr_lookup a bs i xs : bs !! i = Some xs → (a + LIST_SIZE * Z.of_nat i, xs) ∈ arr a bs.
Proof.
  revert a i. induction bs as [|ys bs IH]; intros a i Hi; [done|]. cbn [arr].
  destruct i as [|i]; simpl in Hi; simplify_eq.
  - rewrite Z.mul_0_r, Z.add_0_r. set_solver.
  - apply list_elem_of_further. replace (a + LIST_SIZE * Z.of_nat (S i)) with (a + LIST_SIZE + LIST_SIZE * Z.of_nat i) by lia. by apply IH.
Qed.

(** One bucket of the array, the others, and what a change of the bucket does. *)
Lemma arr_focus a bs i xs :
  bs !! i = Some xs →
  ∃ rest, arr a bs ≡ₚ (a + LIST_SIZE * Z.of_nat i, xs) :: rest ∧
    ∀ ys, arr a (<[i := ys]> bs) ≡ₚ (a + LIST_SIZE * Z.of_nat i, ys) :: rest.
Proof.
  revert a i. induction bs as [|zs bs IH]; intros a i Hi; [done|].
  destruct i as [|i]; simpl in Hi.
  - simplify_eq. exists (arr (a + LIST_SIZE) bs). rewrite Z.mul_0_r, Z.add_0_r. done.
  - destruct (IH (a + LIST_SIZE) i Hi) as (rest & H1 & H2). exists ((a, zs) :: rest).
    replace (a + LIST_SIZE * Z.of_nat (S i)) with (a + LIST_SIZE + LIST_SIZE * Z.of_nat i) by lia.
    split; [cbn [arr]; rewrite H1; apply Permutation_swap|].
    intros ys. specialize (H2 ys). change (insert (S i) ys (zs :: bs)) with (zs :: <[i:=ys]> bs).
    cbn [arr]. rewrite H2. apply Permutation_swap.
Qed.

Lemma members_arr a bs : members (arr a bs) = concat bs.
Proof. revert a. induction bs as [|xs bs IH]; intros a; [done|]. cbn [arr concat]. by rewrite members_cons, IH. Qed.

Lemma concat_focus (bs : list (list Z)) i (xs : list Z) :
  bs !! i = Some xs → ∃ rest : list Z, concat bs ≡ₚ xs ++ rest ∧ ∀ ys, concat (<[i := ys]> bs) ≡ₚ ys ++ rest.
Proof.
  intros Hi. destruct (arr_focus 0 bs i xs Hi) as (rest & H1 & H2). exists (members rest). split.
  - by rewrite <- (members_arr 0), H1.
  - intros ys. by rewrite <- (members_arr 0), H2.
Qed.

(** The cells of an array. *)
Lemma elem_of_array_cells a n q :
  q ∈ array_cells a n ↔ ∃ k : nat, q = a + 8 * Z.of_nat k ∧ (k < 2 * n)%nat.
Proof.
  unfold array_cells. rewrite list_elem_of_fmap. setoid_rewrite elem_of_seq.
  split; intros (k & ? & ?); exists k; split; (done || lia).
Qed.

Lemma array_cells_bounds a n q : q ∈ array_cells a n → a ≤ q < a + LIST_SIZE * Z.of_nat n.
Proof. rewrite elem_of_array_cells. intros (k & -> & Hk). unfold LIST_SIZE. lia. Qed.

Lemma array_cells_S a n q :
  q ∈ array_cells a (S n) ↔ q = head_of a ∨ q = tail_of a ∨ q ∈ array_cells (a + LIST_SIZE) n.
Proof.
  rewrite !elem_of_array_cells. unfold head_of, tail_of, LIST_SIZE. split.
  - intros (k & -> & Hk). destruct k as [|[|k]]; [left; lia|right; left; lia|].
    right; right. exists k. lia.
  - intros [->|[->|(k & -> & Hk)]]; [exists 0%nat|exists 1%nat|exists (S (S k))]; lia.
Qed.

Lemma footprints_arr a bs q :
  q ∈ footprints (arr a bs) ↔ q ∈ array_cells a (length bs) ∨ q ∈ concat bs.
Proof.
  revert a. induction bs as [|xs bs IH]; intros a; cbn [arr length concat].
  - rewrite elem_of_array_cells. split; [intros ?%elem_of_nil; done|].
    intros [(k & _ & ?)|?%elem_of_nil]; [lia|done].
  - rewrite footprints_cons, array_cells_S, elem_of_app, IH, elem_of_app. unfold footprint. set_solver.
Qed.

Lemma lists_concat h a bs q : lists h (arr a bs) → q ∈ concat bs → valid h q.
Proof. intros Hl Hq. eapply lists_valid; [exact Hl|]. apply footprints_arr. by right. Qed.

(** ** Powers of two *)

Lemma testbit_top k n : 0 ≤ k → 2 ^ k ≤ n < 2 ^ (k + 1) → Z.testbit n k = true.
Proof.
  intros Hk Hn. rewrite Z.testbit_true by done.
  replace (n `div` 2 ^ k) with 1; [done|]. rewrite Z.pow_add_r in Hn by lia.
  apply Z.div_unique with (n - 2 ^ k); lia.
Qed.

Lemma land_top k n m : 0 ≤ k → Z.testbit n k = true → Z.testbit m k = true → 0 ≤ n → 0 ≤ m → 2 ^ k ≤ Z.land n m.
Proof.
  intros Hk Hn Hm ??. assert (0 ≤ Z.land n m) by (apply Z.land_nonneg; lia).
  destruct (Z.le_gt_cases (2 ^ k) (Z.land n m)) as [|Hlt]; [done|].
  assert (Z.testbit (Z.land n m) k = false) as Hf.
  { destruct (decide (Z.land n m = 0)) as [->|]; [apply Z.bits_0|].
    apply Z.bits_above_log2; [done|]. apply Z.log2_lt_pow2; lia. }
  rewrite Z.land_spec, Hn, Hm in Hf. done.
Qed.

Lemma land_below k n m : 0 ≤ k → 0 ≤ n < 2 ^ k → 0 ≤ m → 0 ≤ Z.land n m < 2 ^ k.
Proof.
  intros Hk Hn Hm. split; [apply Z.land_nonneg; lia|].
  replace n with (n `mod` 2 ^ k) by (apply Z.mod_small; lia).
  rewrite <- Z.land_ones, <- Z.land_assoc, (Z.land_comm (Z.ones k)), Z.land_assoc, Z.land_ones by lia.
  apply Z.mod_pos_bound. lia.
Qed.

(** Clearing the lowest one bit of a multiple of [2^t] gives a multiple of [2^(t+1)]. *)
Lemma turn_off_divide t n : 0 ≤ t → 0 < n → (2 ^ t | n) → (2 ^ (t + 1) | Z.land n (n - 1)).
Proof.
  intros Ht Hn [q Hq]. assert (0 < 2 ^ t) by lia. apply Z.mod_divide; [lia|].
  apply Z.bits_inj'. intros i Hi. rewrite Z.bits_0.
  destruct (decide (i < t + 1)); [|by rewrite Z.mod_pow2_bits_high by lia].
  rewrite Z.mod_pow2_bits_low, Z.land_spec by lia.
  destruct (decide (i < t)).
  { replace (Z.testbit n i) with false; [done|]. rewrite Hq. by rewrite Z.mul_pow2_bits_low by lia. }
  assert (i = t) as -> by lia. rewrite !Z.testbit_odd, !Z.shiftr_div_pow2 by lia.
  replace (n `div` 2 ^ t) with q by (rewrite Hq; symmetry; apply Z.div_mul; lia).
  replace ((n - 1) `div` 2 ^ t) with (q - 1).
  - rewrite Z.odd_sub. by destruct (Z.odd q).
  - apply Z.div_unique with (2 ^ t - 1); lia.
Qed.

Lemma turn_off_top k n :
  0 ≤ k → 2 ^ k ≤ n < 2 ^ (k + 1) → n ≠ 2 ^ k → 2 ^ k ≤ Z.land n (n - 1) < 2 ^ (k + 1).
Proof.
  intros Hk Hn Hne. split; [|apply land_below; lia].
  apply land_top; [done|apply testbit_top; lia|apply testbit_top; lia|lia|lia].
Qed.

Lemma turn_off_pow2 k : 0 ≤ k → Z.land (2 ^ k) (2 ^ k - 1) = 0.
Proof.
  intros. replace (2 ^ k - 1) with (Z.ones k) by (rewrite Z.ones_equiv; lia).
  rewrite Z.land_ones, Z.mod_same by lia. done.
Qed.

Lemma pow2_loop_run fuel t k n s :
  0 ≤ t → 0 ≤ k < 32 → (2 ^ t | n) → 2 ^ k ≤ n < 2 ^ (k + 1) → k < t + Z.of_nat fuel →
  pow2_loop fuel n s = Ret (2 ^ k, s).
Proof.
  revert t n. induction fuel as [|fuel IH]; intros t n Ht Hk Hd Hn Hf.
  - exfalso. apply Z.divide_pos_le in Hd; [|lia].
    assert (2 ^ (k + 1) ≤ 2 ^ t) by (apply Z.pow_le_mono_r; lia). lia.
  - cbn [pow2_loop]. assert (2 ^ (k + 1) ≤ 2 ^ 32) by (apply Z.pow_le_mono_r; lia).
    assert (0 < 2 ^ k) by lia.
    unfold is_power_of_2, turn_off_least_1bit. rewrite (uwrap_id 32 (n - 1)) by lia.
    rewrite (bool_decide_eq_true_2 (n ≠ 0)) by lia. destruct (decide (n = 2 ^ k)) as [->|Hne].
    + by rewrite turn_off_pow2 by lia.
    + pose proof (turn_off_top k n ltac:(lia) Hn Hne) as Ht'. rewrite bool_decide_eq_false_2 by lia.
      apply (IH (t + 1)); [lia|lia|apply turn_off_divide; lia || done|done|lia].
Qed.

(** The number of buckets [rehash] chooses. *)
Lemma rehash_cnt n s :
  4 ≤ n < 2 ^ 28 → ∃ k, 2 ≤ k < 28 ∧ pow2_loop 33 n s = Ret (2 ^ k, s).
Proof.
  intros Hn. exists (Z.log2 n). pose proof (Z.log2_spec n ltac:(lia)) as Hs. rewrite <- Z.add_1_r in Hs.
  assert (2 ≤ Z.log2 n) by (apply Z.log2_le_pow2; lia).
  assert (Z.log2 n < 28) by (apply Z.log2_lt_pow2; lia).
  split; [lia|]. apply (pow2_loop_run 33 0); [lia|lia|apply Z.divide_1_l|lia|lia].
Qed.

(** ** What the table relies on *)

(** Two elements are the same for the table when neither is less than the other. *)
Definition eqv (less : Z → Z → bool) (a b : Z) : bool := negb (less a b) && negb (less b a).

(** The contract of the caller's functions ([hash.h]): [hash] returns an [unsigned], [less]
    is irreflexive with a transitive equivalence, equivalent elements have equal hashes. *)
Class HashFns (hash : Z → Z) (less : Z → Z → bool) : Prop := {
  hash_range e : 0 ≤ hash e < 2 ^ 32;
  less_irrefl e : less e e = false;
  eqv_trans a b c : eqv less a b = true → eqv less b c = true → eqv less a c = true;
  hash_eqv a b : eqv less a b = true → hash a = hash b
}.

Lemma eqv_sym less a b : eqv less a b = eqv less b a.
Proof. unfold eqv. apply andb_comm. Qed.

Lemma on_list_run {A} (m : M lheap A) s a h : m (cells s) = Ret (a, h) → on_list m s = Ret (a, set_cells h s).
Proof. unfold on_list. by intros ->. Qed.

Lemma set_cells_id s : set_cells (cells s) s = s.
Proof. by destruct s. Qed.

Lemma on_list_read {A} (m : M lheap A) s a : m (cells s) = Ret (a, cells s) → on_list m s = Ret (a, s).
Proof. intros H. rewrite (on_list_run _ _ _ _ H). by rewrite set_cells_id. Qed.

(** The cells of a heap from which those of [ps] are taken, or to which they are added. *)
Lemma lookup_deletes (ps : list Z) (h : lheap) q :
  foldr delete h ps !! q = if decide (q ∈ ps) then None else h !! q.
Proof.
  induction ps as [|p ps IH]; simpl; [done|]. destruct (decide (p = q)) as [->|Hne].
  - rewrite lookup_delete_eq. by rewrite decide_True by set_solver.
  - rewrite lookup_delete_ne, IH by done. apply decide_ext. set_solver.
Qed.

Lemma lookup_inserts (f : Z → list_elem) (ps : list Z) (h : lheap) q :
  foldr (λ p h, <[p := f p]> h) h ps !! q = if decide (q ∈ ps) then Some (f q) else h !! q.
Proof.
  induction ps as [|p ps IH]; simpl; [done|]. destruct (decide (p = q)) as [->|Hne].
  - rewrite lookup_insert_eq. by rewrite decide_True by set_solver.
  - rewrite lookup_insert_ne, IH by done. apply decide_ext. set_solver.
Qed.

(** Initialising a new array. *)
Lemma init_loop_run n a ls s :
  lists (cells s) ls → (∀ q, q ∈ array_cells a n → valid (cells s) q ∧ q ∉ footprints ls) →
  ∃ h', init_loop n a s = Ret (tt, set_cells h' s) ∧ same_cells (cells s) h' ∧
    lists h' (ls ++ arr a (replicate n [])).
Proof.
  revert a ls s. induction n as [|n IH]; intros a ls s Hls Hq; cbn [init_loop replicate arr].
  - exists (cells s). by rewrite set_cells_id, app_nil_r.
  - destruct (Hq (head_of a)) as [Hv1 Hn1]; [rewrite array_cells_S; tauto|].
    destruct (Hq (tail_of a)) as [Hv2 Hn2]; [rewrite array_cells_S; tauto|].
    destruct (lists_init _ a ls Hls Hv1 Hv2 Hn1 Hn2) as (h1 & Hr1 & Hc1 & Hl1).
    run_step (on_list_run _ s _ _ Hr1).
    destruct (IH (a + LIST_SIZE) ((a, []) :: ls) (set_cells h1 s)) as (h2 & Hr2 & Hc2 & Hl2); [exact Hl1| |].
    { intros q Hin. destruct (Hq q) as [Hv Hn]; [rewrite array_cells_S; tauto|].
      split; [by apply Hc1|]. rewrite footprints_cons, not_elem_of_app. split; [|done].
      apply array_cells_bounds in Hin. unfold footprint, head_of, tail_of, LIST_SIZE in *. set_unfold. lia. }
    exists h2. split_and!; [exact Hr2|by eapply same_cells_trans|].
    rewrite <- Permutation_middle. exact Hl2.
Qed.

Lemma free_lists_run a n s :
  ∃ h', free_lists a (Z.of_nat n) s = Ret (tt, set_cells h' s) ∧
    (∀ p, valid h' p ↔ valid (cells s) p ∧ p ∉ array_cells a n) ∧
    (∀ ls, lists (cells s) ls → (∀ q, q ∈ footprints ls → q ∉ array_cells a n) → lists h' ls).
Proof.
  unfold free_lists. rewrite Nat2Z.id. eexists. split; [reflexivity|]. split.
  - intros p. rewrite !valid_lookup, lookup_deletes. destruct (decide _); [|tauto].
    split; [by intros [_ [? ?]]|tauto].
  - intros ls Hls Hd. eapply lists_ext; [exact Hls|]. intros q Hq. rewrite lookup_deletes.
    rewrite decide_False; [done|]. by apply Hd.
Qed.

Section table.
Context (hash : Z → Z) (less : Z → Z → bool) (junk : Z → list_elem) `{HF : !HashFns hash less}.

(** The bucket of an element among [n], and contents that respect it. *)
Definition slot (n : Z) (e : Z) : nat := Z.to_nat (hash e `mod` n).

Definition placed (n : Z) (bs : list (list Z)) : Prop :=
  ∀ i xs e, bs !! i = Some xs → e ∈ xs → slot n e = i.

Lemma placed_insert n bs i ys : placed n bs → (∀ e, e ∈ ys → slot n e = i) → placed n (<[i := ys]> bs).
Proof.
  intros Hp Hy j xs e Hj He. apply list_lookup_insert_Some in Hj as [(-> & -> & _)|[_ Hj]]; [by apply Hy|by eapply Hp].
Qed.

Lemma placed_replicate n m : placed n (replicate m []).
Proof. intros i xs e [-> _]%lookup_replicate He. by apply elem_of_nil in He. Qed.

Lemma slot_lookup n e (bs : list (list Z)) : 0 < n → Z.of_nat (length bs) = n → ∃ xs, bs !! slot n e = Some xs.
Proof.
  intros Hn Hl. apply lookup_lt_is_Some_2. unfold slot. pose proof (Z.mod_pos_bound (hash e) n). lia.
Qed.

Lemma find_bucket_run k e s :
  0 ≤ k ≤ 32 → bucket_cnt (table s) = 2 ^ k →
  find_bucket hash e s = Ret (buckets (table s) + LIST_SIZE * Z.of_nat (slot (2 ^ k) e), s).
Proof.
  intros Hk Hb. unfold find_bucket. rewrite (bind_Ret _ _ _ (table s) s) by done. rewrite Hb.
  assert (0 < 2 ^ k ≤ 2 ^ 32) by (split; [lia|apply Z.pow_le_mono_r; lia]).
  rewrite uwrap_id by lia. replace (2 ^ k - 1) with (Z.ones k) by (rewrite Z.ones_equiv; lia).
  rewrite Z.land_ones by lia. unfold slot. pose proof (Z.mod_pos_bound (hash e) (2 ^ k)).
  by rewrite Z2Nat.id by lia.
Qed.

(** ** Rehashing *)

(** Moving the elements of an old bucket to their new ones. *)
Lemma move_loop_run k fuel ob xs nbs rest s :
  0 ≤ k ≤ 32 → bucket_cnt (table s) = 2 ^ k → Z.of_nat (length nbs) = 2 ^ k → placed (2 ^ k) nbs →
  lists (cells s) ((ob, xs) :: arr (buckets (table s)) nbs ++ rest) → (length xs < fuel)%nat →
  ∃ h' nbs', move_loop hash fuel ob (hd (tail_of ob) xs) s = Ret (tt, set_cells h' s) ∧
    same_cells (cells s) h' ∧ lists h' ((ob, []) :: arr (buckets (table s)) nbs' ++ rest) ∧
    placed (2 ^ k) nbs' ∧ length nbs' = length nbs ∧ concat nbs' ≡ₚ xs ++ concat nbs.
Proof.
  intros Hk. revert fuel nbs s. induction xs as [|x xs IH]; intros fuel nbs s Hb Hlen Hpl Hls Hf;
    (destruct fuel as [|fuel]; [simpl in Hf; lia|]); cbn [move_loop hd];
    pose proof Hls as (Hl & _ & _)%lists_cons; pose proof (is_list_not_null _ _ _ Hl) as Hnn;
    run_step (on_list_read _ s _ (list_end_run _ _ Hnn)).
  - rewrite bool_decide_eq_true_2 by done. exists (cells s), nbs. by rewrite set_cells_id.
  - rewrite bool_decide_eq_false_2 by (eapply is_list_ne_tail; [exact Hl|set_solver]).
    run_step (find_bucket_run k x s Hk Hb).
    run_step (on_list_read _ s _ (lists_next _ _ [] x xs _ Hls)).
    destruct (lists_remove _ _ [] x xs _ Hls) as (h1 & r & Hr1 & Hc1 & Hl1 & Hv1 & Hn1).
    run_step (on_list_run _ s _ _ Hr1). cbn [app] in Hl1, Hn1.
    destruct (slot_lookup (2 ^ k) x nbs) as [ys Hys]; [lia|done|].
    destruct (arr_focus (buckets (table s)) nbs _ ys Hys) as (others & Hp1 & Hp2).
    destruct (concat_focus nbs _ ys Hys) as (cs & Hq1 & Hq2).
    specialize (Hp2 (x :: ys)). specialize (Hq2 (x :: ys)).
    set (l := buckets (table s) + LIST_SIZE * Z.of_nat (slot (2 ^ k) x)) in *.
    assert (∀ zs, (ob, xs) :: ((l, zs) :: others) ++ rest ≡ₚ (l, zs) :: (ob, xs) :: others ++ rest) as Hsw
      by (intros; apply Permutation_swap).
    rewrite Hp1, Hsw in Hl1, Hn1.
    destruct (lists_push _ _ _ _ _ Hl1 Hv1 Hn1) as (h2 & Hr2 & Hc2 & Hl2).
    rewrite <- (Hsw (x :: ys)), <- Hp2 in Hl2.
    run_step (on_list_run _ (set_cells h1 s) _ _ Hr2).
    destruct (IH fuel (<[slot (2 ^ k) x := x :: ys]> nbs) (set_cells h2 s)) as (h3 & nbs' & Hr3 & Hc3 & Hl3 & Hpl3 & Hlen3 & Hq3).
    + done.
    + by rewrite length_insert.
    + apply placed_insert; [done|]. intros e [->|He]%elem_of_cons; [done|by eapply Hpl].
    + done.
    + simpl in Hf. lia.
    + exists h3, nbs'. split_and!.
      * exact Hr3.
      * eapply same_cells_trans; [exact Hc1|]. eapply same_cells_trans; [exact Hc2|exact Hc3].
      * exact Hl3.
      * done.
      * rewrite Hlen3. apply length_insert.
      * rewrite Hq3, Hq2, Hq1. cbn [app]. rewrite <- !Permutation_middle. done.
Qed.

Lemma rehash_loop_run k oa obs nbs s :
  0 ≤ k ≤ 32 → bucket_cnt (table s) = 2 ^ k → Z.of_nat (length nbs) = 2 ^ k → placed (2 ^ k) nbs →
  lists (cells s) (arr oa obs ++ arr (buckets (table s)) nbs) →
  ∃ h' nbs', rehash_loop hash (length obs) oa s = Ret (tt, set_cells h' s) ∧
    same_cells (cells s) h' ∧ lists h' (arr (buckets (table s)) nbs') ∧
    placed (2 ^ k) nbs' ∧ length nbs' = length nbs ∧ concat nbs' ≡ₚ concat obs ++ concat nbs.
Proof.
  intros Hk. revert oa nbs s. induction obs as [|xs obs IH]; intros oa nbs s Hb Hlen Hpl Hls; cbn [length rehash_loop].
  - exists (cells s), nbs. by rewrite set_cells_id.
  - rewrite (bind_Ret _ _ _ (S (base.size (cells s))) s) by done. cbn [arr app] in Hls.
    pose proof Hls as (Hl & _ & _)%lists_cons.
    run_step (on_list_read _ s _ (list_begin_run _ _ _ Hl)).
    rewrite (Permutation_app_comm (arr _ _)) in Hls.
    destruct (move_loop_run k (S (base.size (cells s))) oa xs nbs (arr (oa + LIST_SIZE) obs) s)
      as (h1 & nbs1 & Hr1 & Hc1 & Hl1 & Hpl1 & Hlen1 & Hq1); [done..| |].
    { pose proof (is_list_size _ _ _ Hl). lia. }
    run_step Hr1. apply lists_cons in Hl1 as (_ & Hl1 & _). rewrite Permutation_app_comm in Hl1.
    destruct (IH (oa + LIST_SIZE) nbs1 (set_cells h1 s)) as (h2 & nbs2 & Hr2 & Hc2 & Hl2 & Hpl2 & Hlen2 & Hq2);
      [done|by rewrite Hlen1|done|exact Hl1|].
    exists h2, nbs2. split_and!; [exact Hr2|by eapply same_cells_trans|exact Hl2|done|by rewrite Hlen2|].
    rewrite Hq2, Hq1. cbn [concat]. rewrite !app_assoc. f_equiv. apply Permutation_app_comm.
Qed.

(** ** The invariant *)

(** [D] are the cells of the caller, where the elements live. *)
Record repr (D : gset Z) (bs : list (list Z)) (s : hstate) : Prop := {
  r_lists : lists (cells s) (arr (buckets (table s)) bs);
  r_cnt : ∃ k, 2 ≤ k < 28 ∧ bucket_cnt (table s) = 2 ^ k ∧ Z.of_nat (length bs) = 2 ^ k ∧ placed (2 ^ k) bs;
  r_elems : elem_cnt (table s) = Z.of_nat (length (concat bs));
  r_in : ∀ e, e ∈ concat bs → e ∈ D;
  r_uniq : ∀ e e', e ∈ concat bs → e' ∈ concat bs → eqv less e e' = true → e = e';
  r_dom : ∀ p, valid (cells s) p ↔ p ∈ D ∨ p ∈ array_cells (buckets (table s)) (length bs);
  r_sep : ∀ p, p ∈ D → p ∉ array_cells (buckets (table s)) (length bs);
  r_brk : 0 < brk s ∧ ∀ p, valid (cells s) p → p < brk s
}.

(** The elements fit in 32-bit memory, so that neither their count nor the size of a
    bucket array overflows. *)
Definition fits (D : gset Z) : Prop := Z.of_nat (size D) < 2 ^ 29.

Lemma repr_NoDup D bs s : repr D bs s → NoDup (concat bs).
Proof. intros R. pose proof (lists_NoDup _ _ (r_lists _ _ _ R)) as Hn. by rewrite members_arr in Hn. Qed.

Lemma repr_size D bs s : repr D bs s → (length (concat bs) ≤ size D)%nat.
Proof.
  intros R. rewrite <- (size_list_to_set (C:=gset Z)) by (by eapply repr_NoDup).
  apply subseteq_size. intros e He%elem_of_list_to_set. by eapply r_in.
Qed.

(** Changes that do not touch what the invariant is about. *)
Lemma repr_same D bs s s' :
  repr D bs s → cells s' = cells s → table s' = table s → brk s' = brk s → repr D bs s'.
Proof. intros [] Hc Ht Hb. split; rewrite ?Hc, ?Ht, ?Hb; done. Qed.

(** An allocation fails, or gives fresh cells. *)
Lemma malloc_lists_run n s :
  (∃ s', malloc_lists junk (LIST_SIZE * Z.of_nat n) s = Ret (NULL, s') ∧
     cells s' = cells s ∧ table s' = table s ∧ calls s' = calls s ∧ brk s' = brk s) ∨
  (∃ s', malloc_lists junk (LIST_SIZE * Z.of_nat n) s = Ret (brk s, s') ∧
     (∀ q, cells s' !! q = if decide (q ∈ array_cells (brk s) n) then Some (junk q) else cells s !! q) ∧
     table s' = table s ∧ calls s' = calls s ∧ brk s' = brk s + LIST_SIZE * Z.of_nat n).
Proof.
  unfold malloc_lists. replace ((LIST_SIZE * Z.of_nat n) `div` LIST_SIZE) with (Z.of_nat n)
    by (unfold LIST_SIZE; rewrite Z.mul_comm, Z.div_mul; lia).
  rewrite Nat2Z.id.
  destruct (mallocs s) as [|[] ms]; [right|right|left]; eexists; (split; [reflexivity|]); simpl;
    split_and!; try done; intros q; apply lookup_inserts.
Qed.

(** What a fresh array means for the cells and the lists already there. *)
Lemma malloc_valid n s s' :
  0 < brk s → (∀ p, valid (cells s) p → p < brk s) →
  (∀ q, cells s' !! q = if decide (q ∈ array_cells (brk s) n) then Some (junk q) else cells s !! q) →
  (∀ p, valid (cells s') p ↔ valid (cells s) p ∨ p ∈ array_cells (brk s) n) ∧
  (∀ ls, lists (cells s) ls → lists (cells s') ls ∧ ∀ q, q ∈ array_cells (brk s) n → q ∉ footprints ls).
Proof.
  intros Hb Hbrk Hc. split.
  - intros p. rewrite !valid_lookup, Hc. destruct (decide _) as [Hp|]; [|tauto].
    split; [tauto|]. intros _. split; [|done]. apply array_cells_bounds in Hp. unfold NULL. lia.
  - intros ls Hls. assert (∀ q, q ∈ array_cells (brk s) n → q ∉ footprints ls) as Hd.
    { intros q Hq Hin. apply (lists_valid _ _ _ Hls), Hbrk in Hin. apply array_cells_bounds in Hq. lia. }
    split; [|done]. eapply lists_ext; [exact Hls|]. intros q Hq. rewrite Hc.
    rewrite decide_False; [done|]. intros Hin. by apply (Hd q).
Qed.

(** Moving everything to a new array of [2 ^ k] buckets, the old one being freed. *)
Lemma rehash_to k D bs s s1 :
  repr D bs s → 2 ≤ k < 28 → let n := Z.to_nat (2 ^ k) in
  (∀ q, cells s1 !! q = if decide (q ∈ array_cells (brk s) n) then Some (junk q) else cells s !! q) →
  table s1 = table s → brk s1 = brk s + LIST_SIZE * Z.of_nat n →
  ∃ h' bs', (init_loop n (brk s);;
     modify (set_table (HashTable (elem_cnt (table s)) (2 ^ k) (brk s)));;
     rehash_loop hash (Z.to_nat (bucket_cnt (table s))) (buckets (table s));;
     free_lists (buckets (table s)) (bucket_cnt (table s))) s1
    = Ret (tt, HState h' (HashTable (elem_cnt (table s)) (2 ^ k) (brk s)) (calls s1) (brk s1) (mallocs s1)) ∧
    repr D bs' (HState h' (HashTable (elem_cnt (table s)) (2 ^ k) (brk s)) (calls s1) (brk s1) (mallocs s1)) ∧
    concat bs' ≡ₚ concat bs.
Proof.
  intros R Hk n Hc1 Ht1 Hb1. destruct (r_brk _ _ _ R) as [Hpos Hbrk].
  destruct (malloc_valid n s s1 Hpos Hbrk Hc1) as [Hv1 Hl1].
  destruct (Hl1 _ (r_lists _ _ _ R)) as [Hls1 Hd1].
  destruct (init_loop_run n (brk s) _ s1 Hls1) as (h2 & Hr2 & Hc2 & Hl2).
  { intros q Hq. split; [apply Hv1; by right|by apply Hd1]. }
  set (t2 := HashTable (elem_cnt (table s)) (2 ^ k) (brk s)).
  destruct (r_cnt _ _ _ R) as (k0 & Hk0 & Hcnt0 & Hlen0 & Hpl0).
  destruct (rehash_loop_run k (buckets (table s)) bs (replicate n []) (set_table t2 (set_cells h2 s1)))
    as (h3 & bs' & Hr3 & Hc3 & Hl3 & Hpl3 & Hlen3 & Hq3).
  { lia. } { done. } { rewrite length_replicate. unfold n. lia. } { apply placed_replicate. } { exact Hl2. }
  assert (concat bs' ≡ₚ concat bs) as Hperm.
  { rewrite Hq3. clear. induction n as [|n IH]; cbn [replicate concat]; [by rewrite app_nil_r|exact IH]. }
  rewrite length_replicate in Hlen3.
  destruct (free_lists_run (buckets (table s)) (length bs) (set_cells h3 (set_table t2 (set_cells h2 s1))))
    as (h4 & Hr4 & Hv4 & Hl4).
  assert (∀ p, valid h3 p ↔ valid (cells s) p ∨ p ∈ array_cells (brk s) n) as Hv3.
  { intros p. rewrite <- Hv1. etransitivity; [apply Hc3|apply Hc2]. }
  assert (∀ q, q ∈ array_cells (brk s) n → ¬ valid (cells s) q) as Hfresh.
  { intros q Hq Hv. apply Hbrk in Hv. apply array_cells_bounds in Hq. lia. }
  exists h4, bs'. split_and!.
  - run_step Hr2. rewrite (bind_Ret _ _ _ tt (set_table t2 (set_cells h2 s1))) by done.
    rewrite Hcnt0, <- Hlen0, Nat2Z.id. run_step Hr3. exact Hr4.
  - split; cbn [cells table brk buckets bucket_cnt elem_cnt].
    + apply Hl4; [exact Hl3|]. intros q [Hq|Hq]%footprints_arr Hin.
      * rewrite Hlen3 in Hq. apply (Hfresh q Hq). apply (r_dom _ _ _ R). by right.
      * rewrite Hperm in Hq. by apply (r_sep _ _ _ R q); [eapply r_in|].
    + exists k. split_and!; [lia|lia|done|rewrite Hlen3; unfold n; lia|done].
    + rewrite Hperm. apply (r_elems _ _ _ R).
    + intros e. rewrite Hperm. apply (r_in _ _ _ R).
    + intros e e'. rewrite Hperm. apply (r_uniq _ _ _ R).
    + intros p. rewrite Hv4. cbn [cells set_cells]. rewrite Hv3, Hlen3, (r_dom _ _ _ R). split; [tauto|].
      intros [Hp|Hp]; [split; [tauto|by apply (r_sep _ _ _ R)]|]. split; [tauto|].
      intros Hin. apply (Hfresh p Hp), (r_dom _ _ _ R). by right.
    + rewrite Hlen3. intros p Hp Hin. apply (Hfresh p Hin), (r_dom _ _ _ R). by left.
    + rewrite Hb1. unfold LIST_SIZE. split; [lia|]. intros p [Hp _]%Hv4. apply Hv3 in Hp as [Hp%Hbrk|Hp%array_cells_bounds]; unfold LIST_SIZE in *; lia.
  - exact Hperm.
Qed.

Lemma rehash_run D bs s :
  repr D bs s → fits D →
  ∃ s' bs', rehash hash junk s = Ret (tt, s') ∧ repr D bs' s' ∧ concat bs' ≡ₚ concat bs ∧ calls s' = calls s.
Proof.
  intros R Hfit. unfold rehash. rewrite (bind_Ret _ _ _ (table s) s) by done.
  set (c := elem_cnt (table s) `div` BEST_ELEMS_PER_BUCKET).
  assert (0 ≤ c < 2 ^ 28) as Hc.
  { unfold c, BEST_ELEMS_PER_BUCKET. rewrite (r_elems _ _ _ R). pose proof (repr_size _ _ _ R).
    unfold fits in Hfit. split; [apply Z.div_pos; lia|apply Z.div_lt_upper_bound; lia]. }
  destruct (rehash_cnt (if bool_decide (c < 4) then 4 else c) s) as (k & Hk & Hrun); [case_bool_decide; lia|].
  run_step Hrun. clear Hrun. case_bool_decide as Hsame; [exists s, bs; split_and!; [reflexivity|exact R|done|done]|].
  assert (2 ^ k ≤ 2 ^ 27) by (apply Z.pow_le_mono_r; lia).
  rewrite uwrap_id by (unfold LIST_SIZE; lia).
  replace (LIST_SIZE * 2 ^ k) with (LIST_SIZE * Z.of_nat (Z.to_nat (2 ^ k))) by lia.
  destruct (malloc_lists_run (Z.to_nat (2 ^ k)) s) as [(s1 & Hm & ? & ? & ? & ?)|(s1 & Hm & Hc1 & Ht1 & Hca1 & Hb1)]; run_step Hm.
  - rewrite bool_decide_eq_true_2 by done. exists s1, bs. split_and!; [done| |done|done]. by eapply repr_same.
  - rewrite bool_decide_eq_false_2 by (pose proof (r_brk _ _ _ R); unfold NULL; lia).
    destruct (rehash_to k D bs s s1 R Hk Hc1 Ht1 Hb1) as (h' & bs' & Hr & R' & Hp).
    eexists _, bs'. split; [exact Hr|done].
Qed.
End table.
