(* ===== verification/HashOps.v ===== *)
(** * HashOps: the functions of the hash table keep its invariant

    For every function of [hash.c]: it returns, [repr] holds again, and how the elements
    of the table changed. *)

From S2P Require Import Prelude Links KList KListFacts KListSet Hash HashFacts.

Section ops.
Context (hash : Z → Z) (less : Z → Z → bool) `{HF : !HashFns hash less}.
Abbreviation repr := (repr hash less).
Abbreviation eqv := (eqv less).
Implicit Types (D : gset Z) (bs : list (list Z)) (s : hstate).

Lemma eqv_refl e : eqv e e = true.
Proof. unfold HashFacts.eqv. by rewrite less_irrefl. Qed.

(** ** Searching *)

Definition first_eqv (e : Z) (xs : list Z) : option Z := head (filter (λ x, eqv x e = true) xs).

Lemma find_loop_run fuel b pre xs ls e s :
  lists (cells s) ((b, pre ++ xs) :: ls) → (length xs < fuel)%nat →
  find_loop less fuel b e (hd (tail_of b) xs) s = Ret (default NULL (first_eqv e xs), s).
Proof.
  revert fuel pre. induction xs as [|x xs IH]; intros fuel pre Hls Hf;
    (destruct fuel as [|fuel]; [simpl in Hf; lia|]); cbn [find_loop hd];
    pose proof Hls as (Hl & _ & _)%lists_cons; pose proof (is_list_not_null _ _ _ Hl) as Hnn;
    run_step (on_list_read _ s _ (list_end_run _ _ Hnn)).
  - by rewrite bool_decide_eq_true_2 by done.
  - rewrite bool_decide_eq_false_2 by (eapply is_list_ne_tail; [exact Hl|set_solver]).
    unfold first_eqv. destruct (eqv x e) eqn:He; pose proof He as He'; unfold HashFacts.eqv in He; rewrite He.
    + rewrite filter_cons_True by done. done.
    + rewrite filter_cons_False by congruence.
      run_step (on_list_read _ s _ (lists_next _ _ _ x xs _ Hls)).
      apply (IH fuel (pre ++ [x])); [by rewrite <- app_assoc|simpl in Hf; lia].
Qed.

Lemma find_elem_run b xs ls e s :
  lists (cells s) ((b, xs) :: ls) → find_elem less b e s = Ret (default NULL (first_eqv e xs), s).
Proof.
  intros Hls. pose proof Hls as (Hl & _ & _)%lists_cons. unfold find_elem.
  rewrite (bind_Ret _ _ _ (S (base.size (cells s))) s) by done.
  run_step (on_list_read _ s _ (list_begin_run _ _ _ Hl)).
  apply (find_loop_run _ _ [] _ ls); [exact Hls|]. pose proof (is_list_size _ _ _ Hl). lia.
Qed.

Lemma first_eqv_spec e xs :
  (first_eqv e xs = None ∧ ∀ x, x ∈ xs → eqv x e = false) ∨
  (∃ x, first_eqv e xs = Some x ∧ x ∈ xs ∧ eqv x e = true).
Proof.
  unfold first_eqv. destruct (filter _ xs) as [|x ys] eqn:Hf; simpl.
  - left. split; [done|]. intros x Hx. destruct (eqv x e) eqn:He; [|done].
    assert (x ∈ filter (λ x, eqv x e = true) xs) as Hin by (by apply list_elem_of_filter).
    rewrite Hf in Hin. by apply elem_of_nil in Hin.
  - right. exists x. split; [done|].
    assert (x ∈ filter (λ x, eqv x e = true) xs) as Hin by (rewrite Hf; set_solver).
    apply list_elem_of_filter in Hin. tauto.
Qed.

(** The bucket of [e] in the table, and the element of the table equivalent to [e]. *)
Definition bucket_at (s : hstate) (e : Z) : Z := buckets (table s) + LIST_SIZE * Z.of_nat (slot hash (bucket_cnt (table s)) e).

Definition located (bs : list (list Z)) (s : hstate) (e r : Z) : Prop :=
  (r = NULL ∧ ∀ x, x ∈ concat bs → eqv x e = false) ∨
  (r ≠ NULL ∧ eqv r e = true ∧ ∃ xs, bs !! slot hash (bucket_cnt (table s)) e = Some xs ∧ r ∈ xs).

Lemma elem_of_concat_lookup bs x : x ∈ concat bs ↔ ∃ i xs, bs !! i = Some xs ∧ x ∈ xs.
Proof.
  induction bs as [|ys bs IH]; cbn [concat].
  - split; [by intros ?%elem_of_nil|by intros (i & xs & ? & _)].
  - rewrite elem_of_app, IH. split.
    + intros [?|(i & xs & ? & ?)]; [by exists 0%nat, ys|by exists (S i), xs].
    + intros ([|i] & xs & ? & ?); simplify_eq/=; [by left|right; eauto].
Qed.

Lemma locate_run D bs s e :
  repr D bs s →
  find_bucket hash e s = Ret (bucket_at s e, s) ∧
  ∃ r, find_elem less (bucket_at s e) e s = Ret (r, s) ∧ located bs s e r.
Proof.
  intros R. destruct (r_cnt _ _ _ _ _ R) as (k & Hk & Hcnt & Hlen & Hpl). unfold bucket_at, located. rewrite Hcnt.
  split; [apply find_bucket_run; [lia|done]|].
  destruct (slot_lookup hash (2 ^ k) e bs) as [xs Hxs]; [lia|done|].
  destruct (arr_focus (buckets (table s)) bs _ xs Hxs) as (rest & Hp & _).
  pose proof (r_lists _ _ _ _ _ R) as Hls. rewrite Hp in Hls.
  exists (default NULL (first_eqv e xs)). split; [by eapply find_elem_run|].
  destruct (first_eqv_spec e xs) as [[-> Hno]|(x & -> & Hx & He)]; simpl.
  - left. split; [done|]. intros x (i & ys & Hi & Hx)%elem_of_concat_lookup.
    destruct (eqv x e) eqn:He; [|done]. assert (slot hash (2 ^ k) e = i) as <-.
    { rewrite <- (Hpl i ys x Hi Hx). unfold slot. by rewrite (hash_eqv (hash:=hash) x e He). }
    simplify_eq. by rewrite Hno in He.
  - right. split_and!; [|done|eauto]. apply (valid_not_null (cells s)).
    eapply lists_valid; [exact Hls|]. rewrite footprints_cons. unfold footprint. set_solver.
Qed.

(** ** Insertion and removal *)

(** The table after a change of the elements of its buckets. *)
Definition with_cells (h : lheap) (n : Z) (s : hstate) : hstate :=
  set_cells h (set_table (HashTable n (bucket_cnt (table s)) (buckets (table s))) s).

Lemma repr_update D bs bs' h' s :
  repr D bs s → same_cells (cells s) h' → lists h' (arr (buckets (table s)) bs') → length bs' = length bs →
  placed hash (bucket_cnt (table s)) bs' → (∀ e, e ∈ concat bs' → e ∈ D) →
  (∀ e e', e ∈ concat bs' → e' ∈ concat bs' → eqv e e' = true → e = e') →
  repr D bs' (with_cells h' (Z.of_nat (length (concat bs'))) s).
Proof.
  intros R [Hc _] Hls Hlen Hpl Hin Hun. split; cbn [with_cells set_cells set_table cells table brk buckets bucket_cnt elem_cnt].
  - done.
  - destruct (r_cnt _ _ _ _ _ R) as (k & Hk & Hcnt & Hl & _). exists k. rewrite Hcnt in Hpl. split_and!; [lia..|done|by rewrite Hlen|done].
  - done.
  - done.
  - done.
  - intros p. rewrite Hc, Hlen. apply (r_dom _ _ _ _ _ R).
  - rewrite Hlen. apply (r_sep _ _ _ _ _ R).
  - destruct (r_brk _ _ _ _ _ R) as [? Hb]. split; [done|]. intros p Hp%Hc. by apply Hb.
Qed.

Lemma insert_elem_run D bs s e :
  repr D bs s → fits D → e ∈ D → (∀ x, x ∈ concat bs → eqv x e = false) →
  ∃ s' bs', insert_elem (bucket_at s e) e s = Ret (tt, s') ∧ repr D bs' s' ∧
    concat bs' ≡ₚ e :: concat bs ∧ calls s' = calls s.
Proof.
  intros R Hfit He Hno. destruct (r_cnt _ _ _ _ _ R) as (k & Hk & Hcnt & Hlen & Hpl).
  destruct (slot_lookup hash (2 ^ k) e bs) as [xs Hxs]; [lia|done|].
  destruct (arr_focus (buckets (table s)) bs _ xs Hxs) as (rest & Hp & Hp').
  destruct (concat_focus bs _ xs Hxs) as (cs & Hq & Hq').
  specialize (Hp' (e :: xs)). specialize (Hq' (e :: xs)).
  assert (concat (<[slot hash (2 ^ k) e := e :: xs]> bs) ≡ₚ e :: concat bs) as Hperm by (by rewrite Hq', Hq).
  assert (e ∉ concat bs) as Hne by (intros Hin; apply Hno in Hin; by rewrite eqv_refl in Hin).
  pose proof (r_lists _ _ _ _ _ R) as Hls.
  assert (e ∉ footprints (arr (buckets (table s)) bs)) as Hnf.
  { intros [Hin|Hin]%footprints_arr; [|done]. by apply (r_sep _ _ _ _ _ R e). }
  rewrite Hp in Hls, Hnf. assert (valid (cells s) e) as Hv by (apply (r_dom _ _ _ _ _ R); by left).
  destruct (lists_push _ _ _ _ _ Hls Hv Hnf) as (h' & Hr & Hc & Hls'). rewrite <- Hp' in Hls'.
  assert (u32 (elem_cnt (table s) + 1) = Z.of_nat (length (concat (<[slot hash (2 ^ k) e := e :: xs]> bs)))) as Hcount.
  { rewrite Hperm, (r_elems _ _ _ _ _ R). cbn [length]. unfold fits in Hfit. pose proof (repr_size _ _ _ _ _ R).
    rewrite uwrap_id by lia. lia. }
  exists (with_cells h' (u32 (elem_cnt (table s) + 1)) s), (<[slot hash (2 ^ k) e := e :: xs]> bs). split; [|split_and!; [|exact Hperm|]].
  - unfold insert_elem. rewrite (bind_Ret _ _ _ (table s) s) by done. unfold set_cnt.
    rewrite (bind_Ret _ _ _ tt (set_table (HashTable (u32 (elem_cnt (table s) + 1)) (bucket_cnt (table s)) (buckets (table s))) s)) by done.
    replace (bucket_at s e) with (buckets (table s) + LIST_SIZE * Z.of_nat (slot hash (2 ^ k) e)) by (unfold bucket_at; by rewrite Hcnt).
    exact (on_list_run _ (set_table (HashTable _ _ _) s) _ _ Hr).
  - rewrite Hcount. eapply (repr_update D bs); [exact R|exact Hc|exact Hls'|apply length_insert|rewrite Hcnt|..].
    + apply placed_insert; [done|]. intros x [->|Hx]%elem_of_cons; [done|by eapply Hpl].
    + intros x. rewrite Hperm. intros [->|Hx]%elem_of_cons; [done|by eapply r_in].
    + intros x y. rewrite Hperm. intros [->|Hx]%elem_of_cons [->|Hy]%elem_of_cons Hxy; [done|..|by eapply r_uniq].
      * rewrite eqv_sym, Hno in Hxy by done. done.
      * by rewrite Hno in Hxy.
  - done.
Qed.

Lemma remove_elem_run D bs s i xs x :
  repr D bs s → fits D → bs !! i = Some xs → x ∈ xs →
  ∃ s' bs', remove_elem x s = Ret (tt, s') ∧ repr D bs' s' ∧ x :: concat bs' ≡ₚ concat bs ∧
    calls s' = calls s ∧ bucket_cnt (table s') = bucket_cnt (table s) ∧ buckets (table s') = buckets (table s).
Proof.
  intros R Hfit Hxs Hx. destruct (r_cnt _ _ _ _ _ R) as (k & Hk & Hcnt & Hlen & Hpl).
  apply list_elem_of_split in Hx as (ys & zs & ->).
  destruct (arr_focus (buckets (table s)) bs _ _ Hxs) as (rest & Hp & Hp').
  destruct (concat_focus bs _ _ Hxs) as (cs & Hq & Hq').
  specialize (Hp' (ys ++ zs)). specialize (Hq' (ys ++ zs)).
  assert (x :: concat (<[i := ys ++ zs]> bs) ≡ₚ concat bs) as Hperm
    by (rewrite Hq', Hq, <- Permutation_middle; done).
  pose proof (r_lists _ _ _ _ _ R) as Hls. rewrite Hp in Hls.
  destruct (lists_remove _ _ _ _ _ _ Hls) as (h' & r & Hr & Hc & Hls' & _). rewrite <- Hp' in Hls'.
  assert (u32 (elem_cnt (table s) - 1) = Z.of_nat (length (concat (<[i := ys ++ zs]> bs)))) as Hcount.
  { rewrite (r_elems _ _ _ _ _ R). rewrite <- Hperm. cbn [length]. rewrite Nat2Z.inj_succ.
    pose proof (repr_size _ _ _ _ _ R) as Hsz. rewrite <- Hperm in Hsz. cbn [length] in Hsz. unfold fits in Hfit.
    rewrite uwrap_id; lia. }
  exists (with_cells h' (u32 (elem_cnt (table s) - 1)) s), (<[i := ys ++ zs]> bs). split; [|split_and!; [|exact Hperm|..]].
  - unfold remove_elem. rewrite (bind_Ret _ _ _ (table s) s) by done. unfold set_cnt.
    rewrite (bind_Ret _ _ _ tt (set_table (HashTable (u32 (elem_cnt (table s) - 1)) (bucket_cnt (table s)) (buckets (table s))) s)) by done.
    rewrite (bind_Ret _ _ _ _ _ (on_list_run _ (set_table _ s) _ _ Hr)). reflexivity.
  - rewrite Hcount. assert (∀ e, e ∈ concat (<[i := ys ++ zs]> bs) → e ∈ concat bs) as Hsub
      by (intros e He; rewrite <- Hperm; by apply list_elem_of_further).
    eapply (repr_update D bs); [exact R|exact Hc|exact Hls'|apply length_insert|rewrite Hcnt|..].
    + apply placed_insert; [done|]. intros e He. apply (Hpl i _ e Hxs). set_solver.
    + intros e He. by eapply r_in, Hsub.
    + intros e e' He He'. by apply (r_uniq _ _ _ _ _ R); apply Hsub.
  - done.
  - done.
  - done.
Qed.
End ops.
