(* ===== verification/HashWalk.v ===== *)
(** * HashWalk: clearing, visiting and iterating over a hash table

    The functions that go through every bucket: what they call the destructor or the
    action on, and where an iterator stands. *)

From S2P Require Import Prelude Links KList KListFacts KListSet Hash HashFacts.

(** ** [hash_apply] *)

Lemma apply_loop_run fuel b pre xs ls s :
  lists (cells s) ((b, pre ++ xs) :: ls) → (length xs < fuel)%nat →
  apply_loop fuel b (hd (tail_of b) xs) s = Ret (tt, set_calls (calls s ++ xs) s).
Proof.
  revert fuel pre s. induction xs as [|x xs IH]; intros fuel pre s Hls Hf;
    (destruct fuel as [|fuel]; [simpl in Hf; lia|]); cbn [apply_loop hd];
    pose proof Hls as (Hl & _ & _)%lists_cons; pose proof (is_list_not_null _ _ _ Hl) as Hnn;
    run_step (on_list_read _ s _ (list_end_run _ _ Hnn)).
  - rewrite bool_decide_eq_true_2 by done. rewrite app_nil_r. by destruct s.
  - rewrite bool_decide_eq_false_2 by (eapply is_list_ne_tail; [exact Hl|set_solver]).
    run_step (on_list_read _ s _ (lists_next _ _ _ x xs _ Hls)).
    rewrite (bind_Ret _ _ _ tt (set_calls (calls s ++ [x]) s)) by done.
    rewrite (IH fuel (pre ++ [x])); [|by rewrite <- app_assoc|simpl in Hf; lia].
    cbn [set_calls calls cells table brk mallocs]. unfold set_calls. cbn. by rewrite <- app_assoc.
Qed.

Lemma apply_buckets_run a bs ls s :
  lists (cells s) (arr a bs ++ ls) →
  apply_buckets (length bs) a s = Ret (tt, set_calls (calls s ++ concat bs) s).
Proof.
  revert a ls s. induction bs as [|xs bs IH]; intros a ls s Hls; cbn [length apply_buckets concat].
  - rewrite app_nil_r. by destruct s.
  - cbn [arr app] in Hls. pose proof Hls as (Hl & Hls' & _)%lists_cons.
    rewrite (bind_Ret _ _ _ (S (base.size (cells s))) s) by done.
    run_step (on_list_read _ s _ (list_begin_run _ _ _ Hl)).
    run_step (apply_loop_run (S (base.size (cells s))) a [] xs _ s Hls
                ltac:(pose proof (is_list_size _ _ _ Hl); lia)).
    rewrite (IH _ ls); [|done]. unfold set_calls. cbn. by rewrite <- app_assoc.
Qed.

(** ** [hash_clear] *)

Lemma pop_loop_run fuel b xs ls s :
  lists (cells s) ((b, xs) :: ls) → (length xs < fuel)%nat →
  ∃ h', pop_loop fuel b s = Ret (tt, set_cells h' (set_calls (calls s ++ xs) s)) ∧
    same_cells (cells s) h' ∧ lists h' ((b, []) :: ls).
Proof.
  revert fuel s. induction xs as [|x xs IH]; intros fuel s Hls Hf;
    (destruct fuel as [|fuel]; [simpl in Hf; lia|]); cbn [pop_loop];
    pose proof Hls as (Hl & _ & _)%lists_cons;
    run_step (on_list_read _ s _ (list_empty_run _ _ _ Hl)).
  - rewrite bool_decide_eq_true_2 by done. exists (cells s). rewrite app_nil_r. by destruct s.
  - rewrite bool_decide_eq_false_2 by done.
    destruct (lists_pop _ _ _ _ _ Hls) as (h1 & Hr1 & Hc1 & Hl1).
    run_step (on_list_run _ s _ _ Hr1).
    rewrite (bind_Ret _ _ _ tt (set_calls (calls s ++ [x]) (set_cells h1 s))) by done.
    destruct (IH fuel (set_calls (calls s ++ [x]) (set_cells h1 s))) as (h2 & Hr2 & Hc2 & Hl2);
      [exact Hl1|simpl in Hf; lia|].
    exists h2. split_and!; [|by eapply same_cells_trans|done].
    rewrite Hr2. unfold set_calls, set_cells. cbn. by rewrite <- app_assoc.
Qed.

Lemma clear_buckets_run d a bs ls s :
  lists (cells s) (arr a bs ++ ls) →
  ∃ h', clear_buckets (length bs) d a s
        = Ret (tt, set_cells h' (set_calls (calls s ++ if d then concat bs else []) s)) ∧
    same_cells (cells s) h' ∧ lists h' (arr a (replicate (length bs) []) ++ ls).
Proof.
  revert a ls s. induction bs as [|xs bs IH]; intros a ls s Hls; cbn [length clear_buckets replicate].
  { exists (cells s). destruct d; cbn [concat]; rewrite app_nil_r; by destruct s. }
  cbn [arr app] in Hls. pose proof Hls as (Hl & _ & _)%lists_cons.
  set (s1 := λ h, set_cells h (set_calls (calls s ++ if d then xs else []) s)).
  assert (∃ h1 ys, (if d then fuel ← gets (λ s, S (base.size (cells s))); pop_loop fuel a else mret tt) s = Ret (tt, s1 h1) ∧
    same_cells (cells s) h1 ∧ lists h1 ((a, ys) :: arr (a + LIST_SIZE) bs ++ ls)) as (h1 & ys & Hr1 & Hc1 & Hl1).
  { unfold s1. destruct d.
    - rewrite (bind_Ret _ _ _ (S (base.size (cells s))) s) by done.
      destruct (pop_loop_run (S (base.size (cells s))) a xs _ s Hls) as (h1 & ? & ? & ?);
        [pose proof (is_list_size _ _ _ Hl); lia|]. by exists h1, [].
    - exists (cells s), xs. rewrite app_nil_r. by destruct s. }
  run_step Hr1. destruct (lists_reinit _ _ _ _ Hl1) as (h2 & Hr2 & Hc2 & Hl2).
  run_step (on_list_run _ (s1 h1) _ _ Hr2).
  rewrite (Permutation_middle (arr (a + LIST_SIZE) bs)) in Hl2.
  destruct (IH (a + LIST_SIZE) ((a, []) :: ls) (set_cells h2 (s1 h1))) as (h3 & Hr3 & Hc3 & Hl3); [exact Hl2|].
  exists h3. split_and!.
  - rewrite Hr3. unfold s1, set_calls, set_cells. cbn. destruct d; cbn [concat]; rewrite <- app_assoc; done.
  - eapply same_cells_trans; [exact Hc1|]. by eapply same_cells_trans.
  - cbn [arr app]. rewrite (Permutation_middle (arr (a + LIST_SIZE) _)). exact Hl3.
Qed.

(** Without a destructor the buckets need not have been lists before. *)
Lemma clear_buckets_init n a s : clear_buckets n false a s = init_loop n a s.
Proof.
  revert a s. induction n as [|n IH]; intros a s; [done|]. cbn [clear_buckets init_loop].
  rewrite ret_bind. unfold mbind, M_bind. destruct (on_list _ s) as [[? ?]| |]; [apply IH|done..].
Qed.

(** ** Iteration *)

(** The loop of a client: [hash_first (&i, h); while (hash_next (&i)) ... hash_cur (&i) ...]. *)
Fixpoint iterate_loop (fuel : nat) (i : hash_iterator) : M hstate (list Z) :=
  match fuel with
  | O => nofuel
  | S fuel =>
    i ← hash_next i;
    if bool_decide (hash_cur i = NULL) then mret [] else
    es ← iterate_loop fuel i;
    mret (hash_cur i :: es)
  end.

Definition iterate : M hstate (list Z) :=
  t ← gets table;
  i ← hash_first;
  iterate_loop (S (Z.to_nat (elem_cnt t))) i.

(** The iterator stands on an element or a bucket head, and [rem] is still to come. *)
Definition stands (a : Z) (bs : list (list Z)) (i : hash_iterator) (rem : list Z) : Prop :=
  ∃ seen pre ys todo, bs = seen ++ (pre ++ ys) :: todo ∧
    it_bucket i = a + LIST_SIZE * Z.of_nat (length seen) ∧
    last (head_of (it_bucket i) :: pre) = Some (it_elem i) ∧ rem = ys ++ concat todo.

Lemma arr_bucket h a seen xs todo :
  lists h (arr a (seen ++ xs :: todo)) →
  is_list h (a + LIST_SIZE * Z.of_nat (length seen)) xs.
Proof.
  intros [Hl _]. eapply Forall_forall in Hl; [|apply (arr_lookup a _ (length seen) xs)]; [exact Hl|].
  by rewrite lookup_app_r, Nat.sub_diag by lia.
Qed.

Lemma is_list_next h l pre ys e :
  is_list h l (pre ++ ys) → last (head_of l :: pre) = Some e → list_next e h = Ret (hd (tail_of l) ys, h).
Proof.
  intros Hl [zs Hz]%last_Some. pose proof (il_chain _ _ _ Hl) as Hc.
  rewrite <- app_assoc, app_comm_cons, Hz, <- app_assoc in Hc. cbn [app] in Hc.
  destruct ys; apply (chain_next_run h zs _ _ _ Hc).
Qed.

(** After the step inside the bucket: the next element, if there is one. *)
Lemma next_loop_run fuel seen pre ys todo s :
  let a := buckets (table s) in
  let b := a + LIST_SIZE * Z.of_nat (length seen) in
  let bs := seen ++ (pre ++ ys) :: todo in
  lists (cells s) (arr a bs) → bucket_cnt (table s) = Z.of_nat (length bs) → (length todo < fuel)%nat →
  ∃ i, next_loop fuel (HashIterator b (hd (tail_of b) ys)) s = Ret (i, s) ∧
    match ys ++ concat todo with [] => it_elem i = NULL | x :: rem => it_elem i = x ∧ stands a bs i rem end.
Proof.
  revert fuel seen pre ys. induction todo as [|xs todo IH]; intros fuel seen pre ys a b bs Hls Hcnt Hf;
    (destruct fuel as [|fuel]; [simpl in Hf; lia|]); cbn [next_loop it_bucket it_elem];
    pose proof (arr_bucket _ _ _ _ _ Hls) as Hl; fold b in Hl; pose proof (is_list_not_null _ _ _ Hl) as Hnn;
    run_step (on_list_read _ s _ (list_end_run _ _ Hnn));
    (destruct ys as [|y ys];
      [|rewrite bool_decide_eq_false_2 by (eapply is_list_ne_tail; [exact Hl|simpl; set_solver]);
        eexists; split; [reflexivity|]; split; [done|]; exists seen, (pre ++ [y]), ys; eexists;
        split_and!; [unfold bs; by rewrite <- app_assoc|done|by rewrite app_comm_cons, last_snoc|done]]);
    cbn [hd]; rewrite bool_decide_eq_true_2 by done; rewrite (bind_Ret _ _ _ (table s) s) by done;
    unfold bs in Hcnt; rewrite length_app in Hcnt; cbn [length] in Hcnt.
  - rewrite bool_decide_eq_true_2 by (unfold b, a, LIST_SIZE; rewrite Hcnt; lia). by eexists.
  - rewrite bool_decide_eq_false_2 by (unfold b, a, LIST_SIZE; rewrite Hcnt; lia).
    assert (bs = (seen ++ [pre]) ++ ([] ++ xs) :: todo) as Hbs by (unfold bs; rewrite app_nil_r, <- app_assoc; done).
    assert (b + LIST_SIZE = a + LIST_SIZE * Z.of_nat (length (seen ++ [pre]))) as Hb'
      by (unfold b; rewrite length_app; cbn [length]; lia).
    assert (lists (cells s) (arr a ((seen ++ [pre]) ++ ([] ++ xs) :: todo))) as Hls' by (by rewrite <- Hbs).
    pose proof (arr_bucket _ _ _ _ _ Hls') as Hl'. cbn [app] in Hl'. rewrite <- Hb' in Hl'.
    run_step (on_list_read _ s _ (list_begin_run _ _ _ Hl')).
    destruct (IH fuel (seen ++ [pre]) [] xs Hls') as (i & Hr & Hi).
    { rewrite <- Hbs. unfold bs. rewrite Hcnt, length_app. cbn [length]. lia. }
    { simpl in Hf. lia. }
    fold a in Hr. rewrite <- Hb' in Hr. exists i. split; [exact Hr|].
    cbn [app concat] in *. fold a in Hi. rewrite <- Hbs in Hi. exact Hi.
Qed.

Lemma hash_next_run bs i rem s :
  lists (cells s) (arr (buckets (table s)) bs) → bucket_cnt (table s) = Z.of_nat (length bs) →
  stands (buckets (table s)) bs i rem →
  ∃ i', hash_next i s = Ret (i', s) ∧
    match rem with [] => it_elem i' = NULL | x :: rem => it_elem i' = x ∧ stands (buckets (table s)) bs i' rem end.
Proof.
  intros Hls Hcnt (seen & pre & ys & todo & -> & Hb & Hlast & ->). unfold hash_next.
  rewrite (bind_Ret _ _ _ (table s) s) by done. pose proof (arr_bucket _ _ _ _ _ Hls) as Hl.
  rewrite Hb in *. run_step (on_list_read _ s _ (is_list_next _ _ _ _ _ Hl Hlast)).
  apply next_loop_run; [done..|]. rewrite Hcnt, length_app. cbn [length]. lia.
Qed.

Lemma iterate_loop_run fuel bs i rem s :
  lists (cells s) (arr (buckets (table s)) bs) → bucket_cnt (table s) = Z.of_nat (length bs) →
  (∀ x, x ∈ rem → x ≠ NULL) → stands (buckets (table s)) bs i rem → (length rem < fuel)%nat →
  iterate_loop fuel i s = Ret (rem, s).
Proof.
  intros Hls Hcnt. revert fuel i. induction rem as [|x rem IH]; intros fuel i Hnn Hst Hf;
    (destruct fuel as [|fuel]; [simpl in Hf; lia|]); cbn [iterate_loop];
    destruct (hash_next_run bs i _ s Hls Hcnt Hst) as (i' & Hr & Hi'); run_step Hr; unfold hash_cur.
  - by rewrite Hi', bool_decide_eq_true_2.
  - destruct Hi' as [-> Hst']. rewrite bool_decide_eq_false_2 by (apply Hnn; set_solver).
    rewrite (bind_Ret _ _ _ rem s); [done|]. apply IH; [set_solver|done|simpl in Hf; lia].
Qed.
