(* ===== verification/HashSpec.v ===== *)
(** * HashSpec: the hash table is a set

    The abstract state is a finite set of elements no two of which are equivalent.
    [hspec] says what each function of [hash.h] may return and how it changes the set;
    a session of any calls, from [hash_init] to [hash_destroy], follows it, whichever of
    the allocations inside fail. *)

From S2P Require Import Prelude Links KList KListFacts KListSet Hash HashFacts HashOps HashWalk.

Inductive hop :=
| OInsert (e : Z)
| OReplace (e : Z)
| OFind (e : Z)
| ODelete (e : Z)
| OSize
| OEmpty
| OApply
| OIterate
| OClear (destructor : bool).

(** The elements a call hands over to the table. *)
Definition given (op : hop) : list Z :=
  match op with OInsert e | OReplace e => [e] | _ => [] end.

Section spec.
Context (hash : Z → Z) (less : Z → Z → bool) (junk : Z → list_elem).
Abbreviation eqv := (eqv less).
Implicit Types (X : gset Z).

(** The result is the value returned and the elements passed to the client's function,
    whose order is not specified. *)
Inductive hspec : hop → gset Z → Z * list Z → gset Z → Prop :=
| s_insert_new X e : (∀ x, x ∈ X → eqv x e = false) → hspec (OInsert e) X (NULL, []) ({[e]} ∪ X)
| s_insert_dup X e x : x ∈ X → eqv x e = true → hspec (OInsert e) X (x, []) X
| s_replace_new X e : (∀ x, x ∈ X → eqv x e = false) → hspec (OReplace e) X (NULL, []) ({[e]} ∪ X)
| s_replace_old X e x : x ∈ X → eqv x e = true → hspec (OReplace e) X (x, []) ({[e]} ∪ (X ∖ {[x]}))
| s_find_none X e : (∀ x, x ∈ X → eqv x e = false) → hspec (OFind e) X (NULL, []) X
| s_find_some X e x : x ∈ X → eqv x e = true → hspec (OFind e) X (x, []) X
| s_delete_none X e : (∀ x, x ∈ X → eqv x e = false) → hspec (ODelete e) X (NULL, []) X
| s_delete_some X e x : x ∈ X → eqv x e = true → hspec (ODelete e) X (x, []) (X ∖ {[x]})
| s_size X : hspec OSize X (Z.of_nat (size X), []) X
| s_empty X : hspec OEmpty X (b2z (bool_decide (X = ∅)), []) X
| s_apply X cs : cs ≡ₚ elements X → hspec OApply X (0, cs) X
| s_iterate X cs : cs ≡ₚ elements X → hspec OIterate X (0, cs) X
| s_clear X : hspec (OClear false) X (0, []) ∅
| s_clear_destroy X cs : cs ≡ₚ elements X → hspec (OClear true) X (0, cs) ∅.

Inductive hspecs : list hop → gset Z → list (Z * list Z) → gset Z → Prop :=
| ss_nil X : hspecs [] X [] X
| ss_cons op ops X X1 X2 r rs : hspec op X r X1 → hspecs ops X1 rs X2 → hspecs (op :: ops) X (r :: rs) X2.

(** ** Running the calls *)

(** A call that reports to the client's function. *)
Definition reporting (m : M hstate unit) : M hstate (Z * list Z) :=
  modify (set_calls []);; m;; cs ← gets calls; mret (0, cs).

Definition value (m : M hstate Z) : M hstate (Z * list Z) := r ← m; mret (r, []).

Definition exec_hop (op : hop) : M hstate (Z * list Z) :=
  match op with
  | OInsert e => value (hash_insert hash less junk e)
  | OReplace e => value (hash_replace hash less junk e)
  | OFind e => value (hash_find hash less e)
  | ODelete e => value (hash_delete hash less junk e)
  | OSize => value hash_size
  | OEmpty => value (b ← hash_empty; mret (b2z b))
  | OApply => reporting hash_apply
  | OIterate => es ← iterate; mret (0, es)
  | OClear d => reporting (hash_clear d)
  end.

Fixpoint exec_hops (ops : list hop) : M hstate (list (Z * list Z)) :=
  match ops with
  | [] => mret []
  | op :: ops => r ← exec_hop op; rs ← exec_hops ops; mret (r :: rs)
  end.

(** From initialisation to destruction: the results of the calls and the elements the
    destructor of [hash_destroy] was given, or nothing when [hash_init] fails. *)
Definition hash_session (ops : list hop) : M hstate (option (list (Z * list Z) * list Z)) :=
  ok ← hash_init junk;
  if (ok : bool) then
    rs ← exec_hops ops;
    '(_, cs) ← reporting (hash_destroy true);
    mret (Some (rs, cs))
  else mret None.

(** ** Refinement *)

Context `{HF : !HashFns hash less}.

Definition holds (D X : gset Z) (s : hstate) : Prop :=
  ∃ bs, repr hash less D bs s ∧ concat bs ≡ₚ elements X.

Lemma elem_of_holds bs X x : concat bs ≡ₚ elements X → x ∈ concat bs ↔ x ∈ X.
Proof. intros ->. apply elem_of_elements. Qed.

Lemma located_set D bs X s e r :
  repr hash less D bs s → concat bs ≡ₚ elements X → located hash less bs s e r →
  (r = NULL ∧ ∀ x, x ∈ X → eqv x e = false) ∨
  (r ≠ NULL ∧ r ∈ X ∧ eqv r e = true ∧ ∃ i xs, bs !! i = Some xs ∧ r ∈ xs).
Proof.
  intros R HX [[-> Hno]|(Hr & He & xs & Hxs & Hin)]; [left|right].
  - split; [done|]. intros x Hx. apply Hno. by apply (elem_of_holds bs X).
  - split_and!; [done| |done|eauto]. apply (elem_of_holds bs X _ HX), elem_of_concat_lookup. eauto.
Qed.

Lemma holds_none X e : (∀ x, x ∈ X → eqv x e = false) → e ∉ X.
Proof. intros Hno Hin. apply Hno in Hin. by rewrite (eqv_refl hash less) in Hin. Qed.

Lemma elements_add X e : e ∉ X → e :: elements X ≡ₚ elements ({[e]} ∪ X).
Proof. intros. by rewrite elements_union_singleton. Qed.

Lemma elements_remove X x : x ∈ X → x :: elements (X ∖ {[x]}) ≡ₚ elements X.
Proof. intros. rewrite elements_add by set_solver. by rewrite <- union_difference_singleton_L. Qed.

(** [insert_elem] and then [rehash]. *)
Lemma insert_rehash D bs X s (e r : Z) :
  repr hash less D bs s → concat bs ≡ₚ elements X → fits D → e ∈ D → (∀ x, x ∈ X → eqv x e = false) →
  ∃ s', (insert_elem (bucket_at hash s e) e;; rehash hash junk;; mret r) s = Ret (r, s') ∧ holds D ({[e]} ∪ X) s'.
Proof.
  intros R HX Hfit He Hno.
  destruct (insert_elem_run hash less D bs s e R Hfit He) as (s1 & bs1 & Hr1 & R1 & Hp1 & _).
  { intros x Hx. apply Hno. by apply (elem_of_holds bs X). }
  destruct (rehash_run hash less junk D bs1 s1 R1 Hfit) as (s2 & bs2 & Hr2 & R2 & Hp2 & _).
  exists s2. split; [by run_step Hr1; run_step Hr2|]. exists bs2. split; [done|].
  rewrite Hp2, Hp1, HX. by apply elements_add, holds_none.
Qed.

Lemma hash_insert_holds D X s e :
  holds D X s → fits D → e ∈ D →
  ∃ r X' s', hash_insert hash less junk e s = Ret (r, s') ∧ hspec (OInsert e) X (r, []) X' ∧ holds D X' s'.
Proof.
  intros (bs & R & HX) Hfit He. destruct (locate_run hash less D bs s e R) as (Hb & r & Hf & Hloc).
  unfold hash_insert. destruct (located_set _ _ _ _ _ _ R HX Hloc) as [[-> Hno]|(Hr & Hin & Heq & _)].
  - destruct (insert_rehash D bs X s e NULL R HX Hfit He Hno) as (s' & Hrun & Hh).
    exists NULL, ({[e]} ∪ X), s'. split_and!; [|by constructor|done]. by run_step Hb; run_step Hf.
  - destruct (rehash_run hash less junk D bs s R Hfit) as (s' & bs' & Hrh & R' & Hp & _).
    exists r, X, s'. split_and!; [|by constructor|exists bs'; by rewrite Hp].
    run_step Hb. run_step Hf. rewrite bool_decide_eq_false_2 by done. rb. by run_step Hrh.
Qed.

Lemma hash_replace_holds D X s e :
  holds D X s → fits D → e ∈ D →
  ∃ r X' s', hash_replace hash less junk e s = Ret (r, s') ∧ hspec (OReplace e) X (r, []) X' ∧ holds D X' s'.
Proof.
  intros (bs & R & HX) Hfit He. destruct (locate_run hash less D bs s e R) as (Hb & r & Hf & Hloc).
  unfold hash_replace. destruct (located_set _ _ _ _ _ _ R HX Hloc) as [[-> Hno]|(Hr & Hin & Heq & i & xs & Hxs & Hinx)].
  - destruct (insert_rehash D bs X s e NULL R HX Hfit He Hno) as (s' & Hrun & Hh).
    exists NULL, ({[e]} ∪ X), s'. split_and!; [|by constructor|done]. by run_step Hb; run_step Hf.
  - destruct (remove_elem_run hash less D bs s i xs r R Hfit Hxs Hinx) as (s1 & bs1 & Hr1 & R1 & Hp1 & _ & Hc1 & Hb1).
    assert (concat bs1 ≡ₚ elements (X ∖ {[r]})) as HX1.
    { apply (Permutation_cons_inv (a:=r)). by rewrite Hp1, HX, elements_remove. }
    assert (∀ x, x ∈ X ∖ {[r]} → eqv x e = false) as Hno.
    { intros x [Hx Hne]%elem_of_difference. destruct (eqv x e) eqn:Hxe; [|done]. destruct Hne. apply elem_of_singleton.
      apply (r_uniq _ _ _ _ _ R); [by apply (elem_of_holds bs X)..|].
      eapply (eqv_trans (hash:=hash)); [exact Hxe|]. by rewrite eqv_sym. }
    destruct (insert_rehash D bs1 _ s1 e r R1 HX1 Hfit He Hno) as (s' & Hrun & Hh).
    exists r, ({[e]} ∪ (X ∖ {[r]})), s'. split_and!; [|by constructor|done].
    assert (bucket_at hash s1 e = bucket_at hash s e) as Hbk by (unfold bucket_at; by rewrite Hc1, Hb1).
    rewrite Hbk in Hrun. run_step Hb. run_step Hf. rewrite bool_decide_eq_true_2 by done. by run_step Hr1.
Qed.

Lemma hash_find_holds D X s e :
  holds D X s → ∃ r, hash_find hash less e s = Ret (r, s) ∧ hspec (OFind e) X (r, []) X.
Proof.
  intros (bs & R & HX). destruct (locate_run hash less D bs s e R) as (Hb & r & Hf & Hloc).
  exists r. unfold hash_find. split; [by run_step Hb|].
  destruct (located_set _ _ _ _ _ _ R HX Hloc) as [[-> Hno]|(Hr & Hin & Heq & _)]; by constructor.
Qed.

Lemma hash_delete_holds D X s e :
  holds D X s → fits D →
  ∃ r X' s', hash_delete hash less junk e s = Ret (r, s') ∧ hspec (ODelete e) X (r, []) X' ∧ holds D X' s'.
Proof.
  intros (bs & R & HX) Hfit. destruct (locate_run hash less D bs s e R) as (Hb & r & Hf & Hloc).
  unfold hash_delete. destruct (located_set _ _ _ _ _ _ R HX Hloc) as [[-> Hno]|(Hr & Hin & Heq & i & xs & Hxs & Hinx)].
  - exists NULL, X, s. split_and!; [|by constructor|by exists bs]. run_step Hb. by run_step Hf.
  - destruct (remove_elem_run hash less D bs s i xs r R Hfit Hxs Hinx) as (s1 & bs1 & Hr1 & R1 & Hp1 & _).
    destruct (rehash_run hash less junk D bs1 s1 R1 Hfit) as (s2 & bs2 & Hr2 & R2 & Hp2 & _).
    exists r, (X ∖ {[r]}), s2. split_and!; [|by constructor|].
    + run_step Hb. run_step Hf. rewrite bool_decide_eq_true_2 by done. rb. run_step Hr1. by run_step Hr2.
    + exists bs2. split; [done|]. rewrite Hp2. apply (Permutation_cons_inv (a:=r)). by rewrite Hp1, HX, elements_remove.
Qed.

Lemma hash_size_holds D X s : holds D X s → elem_cnt (table s) = Z.of_nat (size X).
Proof. intros (bs & R & HX). rewrite (r_elems _ _ _ _ _ R), HX. done. Qed.

Lemma concat_replicate_nil n : concat (replicate n ([] : list Z)) = [].
Proof. induction n; [done|by cbn]. Qed.

Lemma repr_cnt D bs s : repr hash less D bs s → bucket_cnt (table s) = Z.of_nat (length bs).
Proof. intros R. destruct (r_cnt _ _ _ _ _ R) as (k & _ & -> & -> & _). done. Qed.

Lemma hash_clear_run D bs s d :
  repr hash less D bs s →
  ∃ s', hash_clear d s = Ret (tt, s') ∧ calls s' = calls s ++ (if d then concat bs else []) ∧
    repr hash less D (replicate (length bs) []) s' ∧ holds D ∅ s'.
Proof.
  intros R. pose proof (r_lists _ _ _ _ _ R) as Hls. rewrite <- (app_nil_r (arr _ _)) in Hls.
  destruct (clear_buckets_run d _ _ _ s Hls) as (h' & Hr & Hc & Hl'). rewrite app_nil_r in Hl'.
  set (bs' := replicate (length bs) ([] : list Z)).
  assert (concat bs' = []) as Hn by apply concat_replicate_nil.
  set (s1 := set_calls (calls s ++ if d then concat bs else []) s).
  assert (repr hash less D bs' (with_cells h' (Z.of_nat (length (concat bs'))) s1)) as R'.
  { eapply (repr_update hash less D bs); [by eapply repr_same|exact Hc|exact Hl'|apply length_replicate|apply placed_replicate|..];
      rewrite Hn; [intros e He|intros e e' He]; by apply elem_of_nil in He. }
  exists (with_cells h' 0 s1). rewrite Hn in R'. split_and!; [|done|exact R'|].
  - unfold hash_clear. rewrite (bind_Ret _ _ _ (table s) s) by done.
    rewrite (repr_cnt _ _ _ R), Nat2Z.id. by run_step Hr.
  - exists bs'. split; [exact R'|]. by rewrite Hn, elements_empty.
Qed.

Lemma hash_apply_run D bs s :
  repr hash less D bs s → hash_apply s = Ret (tt, set_calls (calls s ++ concat bs) s).
Proof.
  intros R. pose proof (r_lists _ _ _ _ _ R) as Hls. rewrite <- (app_nil_r (arr _ _)) in Hls.
  unfold hash_apply. rewrite (bind_Ret _ _ _ (table s) s) by done.
  rewrite (repr_cnt _ _ _ R), Nat2Z.id. by eapply apply_buckets_run.
Qed.

Lemma iterate_run D bs s : repr hash less D bs s → iterate s = Ret (concat bs, s).
Proof.
  intros R. pose proof (r_lists _ _ _ _ _ R) as Hls.
  destruct bs as [|xs bs].
  { destruct (r_cnt _ _ _ _ _ R) as (k & Hk & _ & Hl & _). simpl in Hl. lia. }
  pose proof (arr_bucket _ _ [] xs bs Hls) as Hl0. cbn [length] in Hl0. rewrite Z.mul_0_r, Z.add_0_r in Hl0.
  unfold iterate, hash_first. rewrite (bind_Ret _ _ _ (table s) s) by done.
  rewrite (bind_Ret _ _ _ (HashIterator (buckets (table s)) (buckets (table s))) s).
  - apply iterate_loop_run with (xs :: bs).
    + done.
    + apply (repr_cnt _ _ _ R).
    + intros x Hx. apply (valid_not_null (cells s)). by eapply lists_concat.
    + exists [], [], xs, bs. cbn [length it_bucket it_elem]. split_and!; [done|lia|done|done].
    + rewrite (r_elems _ _ _ _ _ R). lia.
  - rewrite (bind_Ret _ _ _ (table s) s) by done.
    pose proof (is_list_not_null _ _ _ Hl0).
    rewrite (bind_Ret _ _ _ (buckets (table s)) s); [done|]. apply on_list_read. unfold list_head. rb. done.
Qed.

(** A run from a state whose calls were forgotten. *)
Lemma reporting_run m s s' : m (set_calls [] s) = Ret (tt, s') → reporting m s = Ret ((0, calls s'), s').
Proof.
  intros Hm. unfold reporting. rewrite (bind_Ret _ _ _ tt (set_calls [] s)) by done. by run_step Hm.
Qed.

Lemma exec_hop_refines D X s op :
  holds D X s → fits D → (∀ e, e ∈ given op → e ∈ D) →
  ∃ r X' s', exec_hop op s = Ret (r, s') ∧ hspec op X r X' ∧ holds D X' s'.
Proof.
  intros Hh Hfit Hg. destruct op as [e|e|e|e| | | | |d]; cbn [exec_hop given] in *; unfold value.
  - destruct (hash_insert_holds D X s e Hh Hfit) as (r & X' & s' & Hr & ? & ?); [set_solver|].
    exists (r, []), X', s'. by run_step Hr.
  - destruct (hash_replace_holds D X s e Hh Hfit) as (r & X' & s' & Hr & ? & ?); [set_solver|].
    exists (r, []), X', s'. by run_step Hr.
  - destruct (hash_find_holds D X s e Hh) as (r & Hr & ?). exists (r, []), X, s. by run_step Hr.
  - destruct (hash_delete_holds D X s e Hh Hfit) as (r & X' & s' & Hr & ? & ?). exists (r, []), X', s'. by run_step Hr.
  - eexists _, X, s. split; [reflexivity|]. rewrite (hash_size_holds _ _ _ Hh). split; [constructor|done].
  - eexists _, X, s. split; [reflexivity|]. rewrite (hash_size_holds _ _ _ Hh). split; [|done].
    rewrite (bool_decide_ext (Z.of_nat (size X) = 0) (X = ∅)); [constructor|].
    rewrite <- leibniz_equiv_iff, <- size_empty_iff. lia.
  - destruct Hh as (bs & R & HX). eexists _, X, _. split; [apply reporting_run, (hash_apply_run D bs); by eapply repr_same|].
    split; [by constructor|]. exists bs. split; [by eapply repr_same|done].
  - destruct Hh as (bs & R & HX). exists (0, concat bs), X, s.
    rewrite (bind_Ret _ _ _ _ _ (iterate_run D bs s R)). split_and!; [done|by constructor|by exists bs].
  - destruct Hh as (bs & R & HX).
    destruct (hash_clear_run D bs (set_calls [] s) d) as (s' & Hr & Hc & _ & Hh'); [by eapply repr_same|].
    eexists _, ∅, s'. split; [by apply reporting_run|]. split; [|done]. rewrite Hc. destruct d; by constructor.
Qed.

Lemma exec_hops_refines D X s ops :
  holds D X s → fits D → (∀ e, e ∈ ops ≫= given → e ∈ D) →
  ∃ rs X' s', exec_hops ops s = Ret (rs, s') ∧ hspecs ops X rs X' ∧ holds D X' s'.
Proof.
  revert X s. induction ops as [|op ops IH]; intros X s Hh Hfit Hg; cbn [exec_hops].
  - exists [], X, s. split_and!; [done|constructor|done].
  - destruct (exec_hop_refines D X s op Hh Hfit) as (r & X1 & s1 & Hr & Hs & Hh1); [set_solver|].
    destruct (IH X1 s1 Hh1 Hfit) as (rs & X2 & s2 & Hr2 & Hs2 & Hh2); [set_solver|].
    exists (r :: rs), X2, s2. run_step Hr. run_step Hr2. split_and!; [done|by econstructor|done].
Qed.

(** ** Initialisation and destruction *)

(** Before [hash_init] and after [hash_destroy]: exactly the caller's cells are there. *)
Definition table_idle (D : gset Z) (s : hstate) : Prop :=
  (∀ p, valid (cells s) p ↔ p ∈ D) ∧ 0 < brk s ∧ ∀ p, p ∈ D → p < brk s.

Lemma hash_init_run D s :
  table_idle D s →
  (∃ s', hash_init junk s = Ret (false, s') ∧ table_idle D s' ∧ head (mallocs s) = Some false) ∨
  (∃ s', hash_init junk s = Ret (true, s') ∧ holds D ∅ s').
Proof.
  intros (Hdom & Hpos & Hbrk). unfold hash_init. change (LIST_SIZE * 4) with (LIST_SIZE * Z.of_nat 4).
  destruct (malloc_lists_run junk 4 s) as [(s1 & Hm & Hc & Ht & Hca & Hb)|(s1 & Hm & Hc & Ht & Hca & Hb)]; run_step Hm.
  - left. eexists. split; [reflexivity|]. split; [split_and!; cbn; by rewrite ?Hc, ?Hb|].
    unfold malloc_lists in Hm. destruct (mallocs s) as [|[] ms]; [..|done]; injection Hm as Hz _; unfold NULL in Hz; lia.
  - right. destruct (malloc_valid junk 4 s s1 Hpos) as [Hv Hl]; [intros p Hp%Hdom; by apply Hbrk|done|].
    set (s2 := set_table (HashTable 0 4 (brk s)) s1).
    rewrite (bind_Ret _ _ _ tt s2) by done. rewrite bool_decide_eq_true_2 by (unfold NULL; lia).
    destruct (init_loop_run 4 (brk s) [] s2) as (h' & Hr & [Hc' _] & Hls).
    { split; constructor. } { intros q Hq. split; [apply Hv; by right|by intros ?%elem_of_nil]. }
    assert (∀ p, p ∈ D → p ∉ array_cells (brk s) 4) as Hsep
      by (intros p Hp Hin; apply Hbrk in Hp; apply array_cells_bounds in Hin; lia).
    exists (set_cells h' s2). split.
    + unfold hash_clear. rewrite !bind_assoc, (bind_Ret _ _ _ (table s2) s2) by done.
      change (Z.to_nat (bucket_cnt (table s2))) with 4%nat. change (buckets (table s2)) with (brk s).
      rewrite !bind_assoc, (bind_Ret _ _ _ tt (set_cells h' s2)); [done|]. by rewrite clear_buckets_init.
    + exists (replicate 4 []). split; [|done]. split; try done.
      * exists 2. split_and!; [lia..|done|done|apply placed_replicate].
      * intros e He. by apply elem_of_nil in He.
      * intros e e' He. by apply elem_of_nil in He.
      * intros p. etransitivity; [apply Hc'|]. change (cells s2) with (cells s1). by rewrite Hv, Hdom.
      * cbn. rewrite Hb. split; [unfold LIST_SIZE; lia|]. intros p Hp%Hc'. change (cells s2) with (cells s1) in Hp.
        apply Hv in Hp as [Hp%Hdom%Hbrk|Hp%array_cells_bounds]; unfold LIST_SIZE in *; lia.
Qed.

Lemma hash_destroy_run D X s :
  holds D X s → ∃ cs s', reporting (hash_destroy true) s = Ret ((0, cs), s') ∧ cs ≡ₚ elements X ∧ ∀ p, valid (cells s') p ↔ p ∈ D.
Proof.
  intros (bs & R & HX).
  destruct (hash_clear_run D bs (set_calls [] s) true) as (s1 & Hr1 & Hc1 & R1 & _); [by eapply repr_same|].
  destruct (free_lists_run (buckets (table s1)) (length (replicate (length bs) ([] : list Z))) s1) as (h2 & Hr2 & Hv2 & _).
  exists (calls s1), (set_cells h2 s1). split_and!.
  - apply (reporting_run _ _ (set_cells h2 s1)). unfold hash_destroy. run_step Hr1.
    rewrite (bind_Ret _ _ _ (table s1) s1) by done. rewrite (repr_cnt _ _ _ R1). exact Hr2.
  - by rewrite Hc1, <- HX.
  - intros p. cbn [cells set_cells]. rewrite Hv2, (r_dom _ _ _ _ _ R1). split; [tauto|].
    intros Hp. split; [by left|by apply (r_sep _ _ _ _ _ R1)].
Qed.

(** C17: for caller's functions that keep their contract, any sequence of calls on a hash
    table returns, results and final contents are those of a set of pairwise inequivalent
    elements, whichever allocations fail on the way; [hash_destroy] passes each remaining
    element to the destructor once and leaves exactly the cells there were before, and
    only a failed allocation makes [hash_init] fail. *)
Theorem hash_session_refines D s ops :
  table_idle D s → fits D → (∀ e, e ∈ ops ≫= given → e ∈ D) →
  ∃ r s', hash_session ops s = Ret (r, s') ∧ (∀ p, valid (cells s') p ↔ p ∈ D) ∧
    match r with
    | None => head (mallocs s) = Some false
    | Some (rs, cs) => ∃ X, hspecs ops ∅ rs X ∧ cs ≡ₚ elements X
    end.
Proof using HF.
  intros Hi Hfit Hg. unfold hash_session.
  destruct (hash_init_run D s Hi) as [(s1 & Hr1 & (Hd & _ & _) & Hm)|(s1 & Hr1 & Hh1)].
  - exists None, s1. by run_step Hr1.
  - destruct (exec_hops_refines D ∅ s1 ops Hh1 Hfit Hg) as (rs & X & s2 & Hr2 & Hs & Hh2).
    destruct (hash_destroy_run D X s2 Hh2) as (cs & s3 & Hr3 & Hcs & Hd).
    exists (Some (rs, cs)), s3. split_and!; [|done|eauto]. run_step Hr1. run_step Hr2. by run_step Hr3.
Qed.
End spec.

(** ** The contract holds for the sample functions *)

Lemma demo_eqv a b : eqv demo_less a b = true ↔ demo_hash a = demo_hash b.
Proof. unfold eqv, demo_less. rewrite andb_true_iff, !negb_true_iff, !bool_decide_eq_false. lia. Qed.

#[export] Instance demo_fns : HashFns demo_hash demo_less.
Proof.
  split.
  - intros e. unfold demo_hash. pose proof (Z.mod_pos_bound (e - 1000) 100 ltac:(lia)). lia.
  - intros e. apply bool_decide_eq_false_2. lia.
  - intros a b c. rewrite !demo_eqv. congruence.
  - intros a b. by rewrite demo_eqv.
Qed.

Definition demo_cells : gset Z := list_to_set ((λ k, 1000 + 8 * Z.of_nat k) <$> seq 0 60).
Definition demo_session : list hop :=
  (OInsert <$> [1000; 1008; 1016; 1024; 1032; 1040; 1048; 1056; 1064; 1072])
  ++ [OInsert 1200; OReplace 1208; OFind 1008; ODelete 1016; OApply; OIterate; OSize; OClear true; OEmpty].

Lemma demo_idle : table_idle demo_cells demo_state.
Proof.
  split_and!.
  - intros p. rewrite valid_lookup, <- elem_of_dom. unfold demo_state, demo_cells. cbn [cells].
    rewrite dom_list_to_map_L, <- list_fmap_compose. split; [by intros [_ ?]|]. intros Hp. split; [|exact Hp].
    apply elem_of_list_to_set, list_elem_of_fmap in Hp as (k & -> & _). unfold NULL. cbn. lia.
  - reflexivity.
  - intros p. unfold demo_cells. rewrite elem_of_list_to_set, list_elem_of_fmap.
    intros (k & -> & Hk%elem_of_seq). cbn. lia.
Qed.

Lemma hash_session_refines_witness :
  ∃ r s', hash_session demo_hash demo_less (λ _, ListElem 3 3) demo_session demo_state = Ret (r, s') ∧
    (∀ p, valid (cells s') p ↔ p ∈ demo_cells) ∧
    match r with
    | None => head (mallocs demo_state) = Some false
    | Some (rs, cs) => ∃ X, hspecs demo_less demo_session ∅ rs X ∧ cs ≡ₚ elements X
    end.
Proof.
  apply hash_session_refines.
  - exact demo_fns.
  - exact demo_idle.
  - vm_compute. reflexivity.
  - apply (Forall_forall (λ e, e ∈ demo_cells)). apply (bool_decide_unpack _). vm_compute. exact I.
Defined.
