(* ===== verification/Malloc.v ===== *)
(** * Malloc: the block allocator ([pintos/src/threads/malloc.c])

    On the page allocator ([Palloc]) and the kernel list ([KList]).  A page the allocator
    holds contains an arena header and blocks.  The headers are records, and a free block
    is a list element; everything else is the words of [pmem].  A block changes from one
    to the other when it is put on or taken off a free list: its first two words become
    the element's members ([to_cell]), and the members its first words ([to_words]).  The
    descriptors are the static array at [descs_at].  The lock of a descriptor delimits
    the critical section of a call, which is one step here. *)

From S2P Require Import Prelude Links KList Bitmap Vaddr Palloc.

(** [struct desc], without its lock; [free_list] is the address of the list. *)
Record desc := Desc { d_block_size : Z; blocks_per_arena : Z; free_list : Z }.

Definition ARENA_MAGIC : Z := 2589232877. (* 0x9a548eed *)

(** [struct arena]; the descriptor is its index, [None] the null pointer of a big block. *)
Record arena := Arena { magic : Z; a_desc : option nat; free_cnt : Z }.

Definition ARENA_SIZE : Z := 12.
Definition DESC_SIZE : Z := 48.

Record mstate := MState { pm : pmem; cells : lheap; arenas : gmap Z arena; descs : list desc }.

Definition set_pm v s := MState v (cells s) (arenas s) (descs s).
Definition set_cells v s := MState (pm s) v (arenas s) (descs s).
Definition set_arenas v s := MState (pm s) (cells s) v (descs s).

Definition on_list {A} (m : M lheap A) : M mstate A := λ s,
  match m (cells s) with
  | Ret (a, h) => Ret (a, set_cells h s)
  | Crash => Crash
  | NoFuel => NoFuel
  end.

Definition on_pages {A} (m : M pmem A) : M mstate A := λ s,
  match m (pm s) with
  | Ret (a, p) => Ret (a, set_pm p s)
  | Crash => Crash
  | NoFuel => NoFuel
  end.

Definition with_words (f : (Z → Z) → Z → Z) (s : mstate) : mstate :=
  set_pm (PMem (kernel_pool (pm s)) (user_pool (pm s)) (f (words (pm s)))) s.

(** The memory of a block as a list element, and back. *)
Definition to_cell (b : Z) : M mstate unit :=
  modify (λ s, set_cells (<[b := ListElem (words (pm s) b) (words (pm s) (b + 4))]> (cells s)) s).

Definition store_pair (b v w : Z) (m : Z → Z) (a : Z) : Z :=
  if bool_decide (a = b) then v else if bool_decide (a = b + 4) then w else m a.

Definition to_words (b : Z) : M mstate unit :=
  e ← gets_opt (λ s, cells s !! b);
  modify (λ s, with_words (store_pair b (u32 (prev e)) (u32 (next e))) (set_cells (delete b (cells s)) s)).

(** [memset] and [memcpy] of [n] bytes at a word boundary: the last word may be changed in
    part. *)
Definition low_bytes (k v old : Z) : Z := old - old `mod` 256 ^ k + v `mod` 256 ^ k.

Definition fill_bytes (p byte n : Z) (m : Z → Z) (a : Z) : Z :=
  if bool_decide (p ≤ a) then low_bytes (Z.max 0 (Z.min 4 (p + n - a))) (byte * 16843009) (m a) else m a.

Definition copy_bytes (dst src n : Z) (m : Z → Z) (a : Z) : Z :=
  if bool_decide (dst ≤ a) then low_bytes (Z.max 0 (Z.min 4 (dst + n - a))) (m (src + (a - dst))) (m a) else m a.

Definition memset_bytes (p byte n : Z) : M mstate unit := modify (with_words (fill_bytes p byte n)).
Definition memcpy (dst src n : Z) : M mstate unit := modify (with_words (copy_bytes dst src n)).

Definition get_arena (a : Z) : M mstate arena := gets_opt (λ s, arenas s !! a).
Definition put_arena (a : Z) (ar : arena) : M mstate unit := modify (λ s, set_arenas (<[a := ar]> (arenas s)) s).
Definition drop_arena (a : Z) : M mstate unit := modify (λ s, set_arenas (delete a (arenas s)) s).
Definition get_desc (i : nat) : M mstate desc := gets_opt (λ s, descs s !! i).

Definition block_to_arena (b : Z) : M mstate Z :=
  let a := pg_round_down b in
  assert (bool_decide (a ≠ NULL));;
  ar ← get_arena a;
  assert (bool_decide (magic ar = ARENA_MAGIC));;
  match a_desc ar with
  | Some i =>
    d ← get_desc i;
    assert (bool_decide (u32 (pg_ofs b - ARENA_SIZE) `mod` d_block_size d = 0));;
    mret a
  | None =>
    assert (bool_decide (pg_ofs b = ARENA_SIZE));;
    mret a
  end.

Definition arena_to_block (a idx : Z) : M mstate Z :=
  assert (bool_decide (a ≠ NULL));;
  ar ← get_arena a;
  assert (bool_decide (magic ar = ARENA_MAGIC));;
  match a_desc ar with
  | Some i =>
    d ← get_desc i;
    assert (bool_decide (idx < blocks_per_arena d));;
    mret (u32 (a + ARENA_SIZE + idx * d_block_size d))
  | None => crash
  end.

Section malloc.
Context (descs_at : Z).

Fixpoint malloc_init_loop (fuel : nat) (block_size : Z) : M mstate unit :=
  match fuel with
  | O => nofuel
  | S fuel =>
    if bool_decide (block_size < PGSIZE `div` 2) then
      ds ← gets descs;
      let desc_cnt := Z.of_nat (length ds) in
      assert (bool_decide (desc_cnt + 1 ≤ 10));;
      let fl := descs_at + DESC_SIZE * desc_cnt + 8 in
      modify (λ s, MState (pm s) (cells s) (arenas s)
                     (descs s ++ [Desc block_size ((PGSIZE - ARENA_SIZE) `div` block_size) fl]));;
      on_list (list_init fl);;
      malloc_init_loop fuel (u32 (block_size * 2))
    else mret tt
  end.

Definition malloc_init : M mstate unit := malloc_init_loop 32 16.
End malloc.

(** [for (i = 0; i < n; i++)] over the blocks of an arena, [n] being the iterations left. *)
Fixpoint add_blocks (n : nat) (fl a i : Z) : M mstate unit :=
  match n with
  | O => mret tt
  | S n =>
    b ← arena_to_block a i;
    to_cell b;;
    on_list (list_push_back fl b);;
    add_blocks n fl a (i + 1)
  end.

Fixpoint remove_blocks (n : nat) (a i : Z) : M mstate unit :=
  match n with
  | O => mret tt
  | S n =>
    b ← arena_to_block a i;
    _ ← on_list (list_remove b);
    to_words b;;
    remove_blocks n a (i + 1)
  end.

(** The first descriptor whose blocks are large enough. *)
Fixpoint find_desc (i : nat) (ds : list desc) (size : Z) : option nat :=
  match ds with
  | [] => None
  | d :: ds => if bool_decide (size ≤ d_block_size d) then Some i else find_desc (S i) ds size
  end.

(** A new arena for descriptor [i] when its list is empty; false when there is no page. *)
Definition refill (i : nat) (d : desc) : M mstate bool :=
  empty ← on_list (list_empty (free_list d));
  if (empty : bool) then
    a ← on_pages (palloc_get_page 0);
    if bool_decide (a = NULL) then mret false else
    put_arena a (Arena ARENA_MAGIC (Some i) (blocks_per_arena d));;
    add_blocks (Z.to_nat (blocks_per_arena d)) (free_list d) a 0;;
    mret true
  else mret true.

Definition malloc (size : Z) : M mstate Z :=
  if bool_decide (size = 0) then mret NULL else
  ds ← gets descs;
  match find_desc 0 ds size with
  | None =>
    let page_cnt := DIV_ROUND_UP (u32 (size + ARENA_SIZE)) PGSIZE in
    a ← on_pages (palloc_get_multiple 0 page_cnt);
    if bool_decide (a = NULL) then mret NULL else
    put_arena a (Arena ARENA_MAGIC None page_cnt);;
    mret (u32 (a + ARENA_SIZE))
  | Some i =>
    d ← get_desc i;
    ok ← refill i d;
    if negb ok then mret NULL else
    b ← on_list (list_pop_front (free_list d));
    to_words b;;
    a ← block_to_arena b;
    ar ← get_arena a;
    put_arena a (Arena (magic ar) (a_desc ar) (u32 (free_cnt ar - 1)));;
    mret b
  end.

Definition calloc (a b : Z) : M mstate Z :=
  let size := u32 (a * b) in
  if bool_decide (size < a) || bool_decide (size < b) then mret NULL else
  p ← malloc size;
  (if bool_decide (p ≠ NULL) then memset_bytes p 0 size else mret tt);;
  mret p.

Definition block_size (block : Z) : M mstate Z :=
  a ← block_to_arena block;
  ar ← get_arena a;
  match a_desc ar with
  | Some i => d ← get_desc i; mret (d_block_size d)
  | None => mret (u32 (PGSIZE * free_cnt ar - pg_ofs block))
  end.

Definition free (p : Z) : M mstate unit :=
  if bool_decide (p = NULL) then mret tt else
  a ← block_to_arena p;
  ar ← get_arena a;
  match a_desc ar with
  | Some i =>
    d ← get_desc i;
    memset_bytes p 204 (d_block_size d);;
    to_cell p;;
    on_list (list_push_front (free_list d) p);;
    let cnt := u32 (free_cnt ar + 1) in
    put_arena a (Arena (magic ar) (a_desc ar) cnt);;
    if bool_decide (blocks_per_arena d ≤ cnt) then
      assert (bool_decide (cnt = blocks_per_arena d));;
      remove_blocks (Z.to_nat (blocks_per_arena d)) a 0;;
      on_pages (palloc_free_page a);;
      drop_arena a
    else mret tt
  | None =>
    on_pages (palloc_free_multiple a (free_cnt ar));;
    drop_arena a
  end.

Definition realloc (old_block new_size : Z) : M mstate Z :=
  if bool_decide (new_size = 0) then free old_block;; mret NULL else
  new_block ← malloc new_size;
  (if bool_decide (old_block ≠ NULL) && bool_decide (new_block ≠ NULL) then
     old_size ← block_size old_block;
     let min_size := if bool_decide (new_size < old_size) then new_size else old_size in
     memcpy new_block old_block min_size;;
     free old_block
   else mret tt);;
  mret new_block.
