(* ===== verification/MallocInv.v ===== *)
(** * MallocInv: the layout of the arenas and the invariant of the block allocator

    [malloc_inv A ls s]: [A] maps each block handed out to its capacity and [ls] are the
    free lists.  Arenas are pages in use and apart; every block of a small arena is either
    live or on the free list of its descriptor, and the counter of the arena is the number
    of its free ones; the pages of the kernel pool are as they were at the start, but for
    those of the arenas. *)

From S2P Require Import Prelude Links KList KListFacts KListSet Bitmap Vaddr Palloc Malloc.

(** ** Descriptors and blocks *)

Definition the_descs (descs_at : Z) : list desc :=
  (λ i : nat, Desc (2 ^ (4 + Z.of_nat i)) (4084 `div` 2 ^ (4 + Z.of_nat i)) (descs_at + DESC_SIZE * Z.of_nat i + 8))
    <$> seq 0 7.

(** What the proofs use of a descriptor. *)
Record desc_ok (d : desc) : Prop := {
  do_size : 16 ≤ d_block_size d ≤ 1024;
  do_align : d_block_size d `mod` 4 = 0;
  do_cnt : 1 ≤ blocks_per_arena d;
  do_fits : ARENA_SIZE + blocks_per_arena d * d_block_size d ≤ 4096
}.

Lemma the_descs_ok descs_at d : d ∈ the_descs descs_at → desc_ok d.
Proof.
  unfold the_descs. cbn [seq fmap list_fmap]. intros Hd.
  repeat (apply elem_of_cons in Hd as [->|Hd]; [split; vm_compute; done|]). by apply elem_of_nil in Hd.
Qed.

Lemma the_descs_lookup descs_at i d :
  the_descs descs_at !! i = Some d → (i < 7)%nat ∧ free_list d = descs_at + DESC_SIZE * Z.of_nat i + 8.
Proof.
  unfold the_descs. rewrite list_lookup_fmap_Some. intros (k & -> & Hk). apply lookup_seq in Hk as [-> Hk]. done.
Qed.

Definition block_addr (a : Z) (d : desc) (k : nat) : Z := a + ARENA_SIZE + Z.of_nat k * d_block_size d.

Definition blocks_of (a : Z) (d : desc) : list Z := block_addr a d <$> seq 0 (Z.to_nat (blocks_per_arena d)).

Lemma elem_of_blocks a d b :
  b ∈ blocks_of a d ↔ ∃ k, b = block_addr a d k ∧ Z.of_nat k < blocks_per_arena d.
Proof.
  unfold blocks_of. rewrite list_elem_of_fmap. setoid_rewrite elem_of_seq.
  split; intros (k & ? & ?); exists k; split; (done || lia).
Qed.

Lemma block_addr_bounds a d k :
  desc_ok d → Z.of_nat k < blocks_per_arena d →
  a + ARENA_SIZE ≤ block_addr a d k ∧ block_addr a d k + d_block_size d ≤ a + 4096.
Proof. intros [Hs _ _ Hf] Hk. unfold block_addr in *. nia. Qed.

Lemma block_addr_apart a d j k :
  desc_ok d → j ≠ k →
  block_addr a d j + d_block_size d ≤ block_addr a d k ∨ block_addr a d k + d_block_size d ≤ block_addr a d j.
Proof. intros [Hs _ _ _] Hne. unfold block_addr. destruct (decide (j < k)%nat); [left|right]; nia. Qed.

Lemma blocks_NoDup a d : desc_ok d → NoDup (blocks_of a d).
Proof.
  intros Hd. unfold blocks_of. apply NoDup_fmap_2_strong; [|apply NoDup_seq].
  intros j k _ _ Hjk. destruct (decide (j = k)) as [|Hne]; [done|].
  destruct (block_addr_apart a d j k Hd Hne); pose proof (do_size _ Hd); lia.
Qed.

Lemma blocks_align a d b : desc_ok d → a `mod` 4096 = 0 → b ∈ blocks_of a d → b `mod` 4 = 0.
Proof.
  intros [_ Hal _ _] Ha (k & -> & _)%elem_of_blocks. unfold block_addr, ARENA_SIZE.
  apply Z.mod_divide in Hal as [q ->]; [|lia]. apply Z.mod_divide in Ha as [r ->]; [|lia].
  apply Z.mod_divide; [lia|]. exists (r * 1024 + 3 + Z.of_nat k * q). lia.
Qed.

(** ** The extents of arenas and blocks *)

Definition apages (ar : arena) : Z := match a_desc ar with Some _ => 1 | None => free_cnt ar end.

Definition covered (s : mstate) (q : Z) : Prop := ∃ a ar, arenas s !! a = Some ar ∧ in_block a (apages ar) q.

(** A block of [c] bytes at [p] in the arena at [a], live or free. *)
Definition slot (ds : list desc) (ars : gmap Z arena) (a p c : Z) : Prop :=
  ∃ ar, ars !! a = Some ar ∧
    match a_desc ar with
    | Some i => ∃ d, ds !! i = Some d ∧ p ∈ blocks_of a d ∧ c = d_block_size d
    | None => p = a + ARENA_SIZE ∧ c = 4096 * free_cnt ar - ARENA_SIZE
    end.

(** The arenas: well-formed and apart. *)
Record arenas_ok (ds : list desc) (ars : gmap Z arena) : Prop := {
  ao_magic a ar : ars !! a = Some ar → magic ar = ARENA_MAGIC;
  ao_page a ar : ars !! a = Some ar → is_kpage a ∧ 0 < apages ar ∧ a + 4096 * apages ar ≤ 2 ^ 32;
  ao_desc a ar i : ars !! a = Some ar → a_desc ar = Some i → is_Some (ds !! i);
  ao_apart a ar a' ar' : ars !! a = Some ar → ars !! a' = Some ar' → a ≠ a' →
    a + 4096 * apages ar ≤ a' ∨ a' + 4096 * apages ar' ≤ a
}.

(** A block is inside its arena, after the header. *)
Lemma slot_inside ds ars a p c :
  Forall desc_ok ds → arenas_ok ds ars → slot ds ars a p c →
  ∃ ar, ars !! a = Some ar ∧ a + ARENA_SIZE ≤ p ∧ p + c ≤ a + 4096 * apages ar ∧ 0 < c ∧
    p `mod` 4 = 0 ∧ c `mod` 4 = 0 ∧ p < a + 4096.
Proof.
  intros Hds Hok (ar & Ha & Hs). exists ar.
  destruct (ao_page _ _ Hok _ _ Ha) as ([Hal Hlo] & Hn & Hhi); unfold apages in *; destruct (a_desc ar) as [i|].
  - destruct Hs as (d & Hd & Hp & ->). assert (desc_ok d) as Hdok by (eapply Forall_lookup_1; [exact Hds|exact Hd]).
    pose proof (blocks_align a d p Hdok Hal Hp) as Hpal. apply elem_of_blocks in Hp as (k & -> & Hk).
    pose proof (block_addr_bounds a d k Hdok Hk). pose proof (do_size _ Hdok). split_and!; (done || lia || apply Hdok).
  - destruct Hs as [-> ->]. unfold ARENA_SIZE. split_and!; try done; try lia; Z.div_mod_to_equations; lia.
Qed.

Lemma slot_apart ds ars a p c a' p' c' :
  Forall desc_ok ds → arenas_ok ds ars → slot ds ars a p c → slot ds ars a' p' c' →
  (a = a' ∧ p = p' ∧ c = c') ∨ (p ≠ p' ∧ (p + c ≤ p' ∨ p' + c' ≤ p)).
Proof.
  intros Hds Hok Hs Hs'. destruct (slot_inside _ _ _ _ _ Hds Hok Hs) as (ar & Ha & Hlo & Hhi & Hc & _ & _ & Hp).
  destruct (slot_inside _ _ _ _ _ Hds Hok Hs') as (ar' & Ha' & Hlo' & Hhi' & Hc' & _ & _ & Hp'). unfold ARENA_SIZE in *.
  destruct (decide (a = a')) as [<-|Hne]; [|destruct (ao_apart _ _ Hok _ _ _ _ Ha Ha' Hne); lia].
  destruct Hs as (ar1 & Ha1 & Hs), Hs' as (ar2 & Ha2 & Hs'). assert (ar1 = ar2) as -> by congruence. destruct (a_desc ar2) as [i|]; [|lia].
  destruct Hs as (d & Hd & (j & -> & _)%elem_of_blocks & ->), Hs' as (d' & Hd' & (k & -> & _)%elem_of_blocks & ->). simplify_eq.
  destruct (decide (j = k)) as [->|Hjk]; [by left|]. right.
  assert (desc_ok d) as Hdok by (eapply Forall_lookup_1; [exact Hds|exact Hd]).
  destruct (block_addr_apart a d j k Hdok Hjk); lia.
Qed.

(** Everything above but the counter of a small arena. *)
Definition shape (ar : arena) : Z * option nat * Z := (magic ar, a_desc ar, apages ar).

Definition same_shape (ars ars' : gmap Z arena) : Prop := ∀ a, shape <$> ars' !! a = shape <$> ars !! a.

Lemma same_shape_sym ars ars' : same_shape ars ars' → same_shape ars' ars.
Proof. intros H a. by rewrite H. Qed.

Lemma same_shape_lookup ars ars' a ar' :
  same_shape ars ars' → ars' !! a = Some ar' → ∃ ar, ars !! a = Some ar ∧ shape ar = shape ar'.
Proof.
  intros H Ha. specialize (H a). rewrite Ha in H. cbn in H. destruct (ars !! a) as [ar|]; [|done].
  injection H as H. exists ar. unfold shape. split; [done|congruence].
Qed.

Lemma same_shape_cnt ars a ar n i :
  ars !! a = Some ar → a_desc ar = Some i → same_shape ars (<[a := Arena (magic ar) (a_desc ar) n]> ars).
Proof.
  intros Ha Hi b. destruct (decide (a = b)) as [<-|Hne]; [|by rewrite lookup_insert_ne].
  rewrite lookup_insert_eq, Ha. cbn. unfold shape, apages. cbn. by rewrite Hi.
Qed.

Lemma same_shape_slot ds ars ars' a p c : same_shape ars ars' → slot ds ars' a p c → slot ds ars a p c.
Proof.
  intros H (ar' & Ha & Hs). destruct (same_shape_lookup _ _ _ _ H Ha) as (ar & Ha' & Hsh).
  exists ar. split; [done|]. unfold shape, apages in Hsh. injection Hsh as _ Hd Hp. rewrite Hd in *.
  destruct (a_desc ar'); [done|]. by rewrite Hp.
Qed.

Lemma same_shape_ok ds ars ars' : same_shape ars ars' → arenas_ok ds ars → arenas_ok ds ars'.
Proof.
  intros H Hok. split.
  - intros a ar' Ha. destruct (same_shape_lookup _ _ _ _ H Ha) as (ar & Ha' & [= <- _ _]). by eapply ao_magic.
  - intros a ar' Ha. destruct (same_shape_lookup _ _ _ _ H Ha) as (ar & Ha' & [= _ _ <-]). by eapply ao_page.
  - intros a ar' i Ha Hi. destruct (same_shape_lookup _ _ _ _ H Ha) as (ar & Ha' & [= _ Hd _]).
    eapply ao_desc; [done|exact Ha'|congruence].
  - intros a ar' b br' Ha Hb Hne. destruct (same_shape_lookup _ _ _ _ H Ha) as (ar & Ha' & [= _ _ <-]).
    destruct (same_shape_lookup _ _ _ _ H Hb) as (br & Hb' & [= _ _ <-]). by eapply ao_apart.
Qed.

Lemma same_shape_covered s s' q : same_shape (arenas s) (arenas s') → covered s' q → covered s q.
Proof.
  intros H (a & ar' & Ha & Hq). destruct (same_shape_lookup _ _ _ _ H Ha) as (ar & Ha' & [= _ _ Hp]).
  exists a, ar. by rewrite Hp.
Qed.

(** ** Counting the free blocks of an arena *)

Definition free_blocks (A : gmap Z Z) (a : Z) (d : desc) : list Z := filter (λ b, A !! b = None) (blocks_of a d).

Lemma filter_live_notin (A : gmap Z Z) b c (l : list Z) :
  b ∉ l → filter (λ x, <[b := c]> A !! x = None) l = filter (λ x, A !! x = None) l.
Proof.
  induction l as [|x l IH]; intros Hb; [done|]. apply not_elem_of_cons in Hb as [Hne Hb].
  assert (<[b := c]> A !! x = A !! x) as Hx by (by apply lookup_insert_ne).
  destruct (decide (A !! x = None)) as [HA|HA].
  - rewrite !filter_cons_True by congruence. by rewrite IH.
  - rewrite !filter_cons_False by congruence. by apply IH.
Qed.

Lemma filter_live_in (A : gmap Z Z) b c (l : list Z) :
  NoDup l → b ∈ l → A !! b = None →
  length (filter (λ x, A !! x = None) l) = S (length (filter (λ x, <[b := c]> A !! x = None) l)).
Proof.
  intros Hnd Hb HA. apply list_elem_of_split in Hb as (l1 & l2 & ->).
  rewrite NoDup_app, NoDup_cons in Hnd. destruct Hnd as (_ & Hd & Hn & _).
  rewrite !filter_app, filter_cons_True by done. rewrite filter_cons_False by (by rewrite lookup_insert_eq).
  rewrite !filter_live_notin; [|done|intros Hin; apply (Hd b Hin); set_solver].
  rewrite !length_app. cbn [length]. lia.
Qed.

(** ** The invariant *)

Section inv.
Context (descs_at : Z) (pm0 : pmem).
Abbreviation ds := (the_descs descs_at).

Record malloc_inv (A : gmap Z Z) (ls : list (Z * list Z)) (s : mstate) : Prop := {
  mi_pm : palloc_ok (pm s);
  mi_frame : ∀ v, base (pool_of v (pm s)) = base (pool_of v pm0) ∧ npages (pool_of v (pm s)) = npages (pool_of v pm0);
  mi_descs : descs s = ds;
  mi_arenas : arenas_ok ds (arenas s);
  mi_live : ∀ p c, A !! p = Some c → ∃ a, slot ds (arenas s) a p c;
  mi_big : ∀ a ar, arenas s !! a = Some ar → a_desc ar = None → is_Some (A !! (a + ARENA_SIZE));
  mi_cnt : ∀ a ar i d, arenas s !! a = Some ar → a_desc ar = Some i → ds !! i = Some d →
    free_cnt ar = Z.of_nat (length (free_blocks A a d));
  mi_lists : lists (cells s) ls;
  mi_addr : ls.*1 = free_list <$> ds;
  mi_free : ∀ i l xs d e, ls !! i = Some (l, xs) → ds !! i = Some d →
    e ∈ xs ↔ ∃ a ar, arenas s !! a = Some ar ∧ a_desc ar = Some i ∧ e ∈ blocks_of a d ∧ A !! e = None;
  mi_covered : ∀ q, covered s q → page_state (pm s) false q = Some true ∧ page_state pm0 false q = Some false;
  mi_others : ∀ v q, ¬ (v = false ∧ covered s q) → page_state (pm s) v q = page_state pm0 v q
}.

(** Every small arena has a live block. *)
Definition busy (A : gmap Z Z) (s : mstate) : Prop :=
  ∀ a ar i d, arenas s !! a = Some ar → a_desc ar = Some i → ds !! i = Some d →
    ∃ b, b ∈ blocks_of a d ∧ is_Some (A !! b).

Lemma ds_ok : Forall desc_ok ds.
Proof. apply Forall_forall. apply the_descs_ok. Qed.

Lemma ds_lookup_ok i d : ds !! i = Some d → desc_ok d.
Proof. intros H. by eapply Forall_lookup_1; [apply ds_ok|]. Qed.

(** The static array of descriptors is below the pool. *)
Definition static_ok : Prop := 0 < descs_at ∧ descs_at + 480 ≤ base (kernel_pool pm0) ∧ palloc_ok pm0.

Lemma arena_base A ls s a ar :
  static_ok → malloc_inv A ls s → arenas s !! a = Some ar → descs_at + 480 ≤ a.
Proof.
  intros (_ & Hst & Hok0) I Ha. destruct (ao_page _ _ (mi_arenas _ _ _ I) _ _ Ha) as ([Hal _] & Hn & _).
  assert (covered s a) as Hc by (exists a, ar; split; [done|]; split; [done|lia]).
  destruct (mi_covered _ _ _ I a Hc) as [_ H0]. apply page_state_Some in H0 as (i & -> & _); [|done].
  cbn [pool_of]. lia.
Qed.

Lemma slot_base A ls s a p c :
  static_ok → malloc_inv A ls s → slot ds (arenas s) a p c → descs_at + 480 ≤ p ∧ p + c ≤ 2 ^ 32.
Proof.
  intros Hst I Hs. destruct (slot_inside _ _ _ _ _ ds_ok (mi_arenas _ _ _ I) Hs) as (ar & Ha & Hlo & Hhi & _).
  pose proof (arena_base _ _ _ _ _ Hst I Ha). destruct (ao_page _ _ (mi_arenas _ _ _ I) _ _ Ha). unfold ARENA_SIZE in *. lia.
Qed.

(** The addresses the free lists occupy: the heads in the descriptors, and free blocks. *)
Lemma elem_of_footprints A ls s q :
  malloc_inv A ls s → q ∈ footprints ls →
  (descs_at < q < descs_at + 480) ∨ (A !! q = None ∧ ∃ a c, slot ds (arenas s) a q c).
Proof.
  intros I. unfold footprints. rewrite list_elem_of_bind. intros ([l xs] & Hq & Hp). cbn [fst snd] in Hq.
  apply list_elem_of_lookup in Hp as [i Hi].
  assert (∃ d, ds !! i = Some d ∧ free_list d = l) as (d & Hd & Hl).
  { assert (ls.*1 !! i = Some l) as Hl by (rewrite list_lookup_fmap, Hi; done).
    rewrite (mi_addr _ _ _ I), list_lookup_fmap_Some in Hl. naive_solver. }
  destruct (the_descs_lookup _ _ _ Hd) as [Hi7 Hfl]. unfold footprint, head_of, tail_of, DESC_SIZE in *.
  apply elem_of_cons in Hq as [->|[Hq|[->|[]%elem_of_nil]%elem_of_cons]%elem_of_app]; [left; lia| |left; lia].
  right. destruct (proj1 (mi_free _ _ _ I i l xs d q Hi Hd) Hq) as (a & ar & Ha & Har & Hb & HA). split; [done|].
  exists a, (d_block_size d), ar. split; [done|]. rewrite Har. eauto.
Qed.

Lemma live_not_listed A ls s a p c :
  static_ok → malloc_inv A ls s → slot ds (arenas s) a p c → is_Some (A !! p) → p ∉ footprints ls.
Proof.
  intros Hst I Hs [c' HA] Hin. pose proof (slot_base _ _ _ _ _ _ Hst I Hs) as [Hb _].
  destruct (elem_of_footprints _ _ _ _ I Hin) as [?|[? _]]; [lia|congruence].
Qed.

(** [block_to_arena] finds the header of any block. *)
Lemma block_to_arena_run s a p c :
  descs s = ds → arenas_ok ds (arenas s) → slot ds (arenas s) a p c → block_to_arena p s = Ret (a, s).
Proof.
  intros Hdescs Hok Hs.
  destruct (slot_inside _ _ _ _ _ ds_ok Hok Hs) as (ar & Ha & Hlo & Hhi & Hc & _ & _ & Hp).
  destruct (ao_page _ _ Hok _ _ Ha) as ([Hal Hk] & _ & Hend). unfold PHYS_BASE, ARENA_SIZE in *.
  assert (pg_round_down p = a) as Hrd
    by (rewrite pg_round_down_spec by (unfold is_u32; lia); Z.div_mod_to_equations; lia).
  assert (pg_ofs p = p - a) as Hof by (rewrite pg_ofs_mod; Z.div_mod_to_equations; lia).
  unfold block_to_arena. rewrite Hrd, Hof. rewrite assert_bind by (apply bool_decide_eq_true_2; unfold NULL; lia).
  rewrite (bind_Ret _ _ _ ar s) by (unfold get_arena, gets_opt; by rewrite Ha).
  rewrite assert_bind by (apply bool_decide_eq_true_2; by eapply ao_magic).
  clear Hrd Hof. destruct Hs as (ar' & Ha' & Hs). assert (ar = ar') as -> by congruence. destruct (a_desc ar') as [i|].
  - destruct Hs as (d & Hd & Hp' & ->). rewrite (bind_Ret _ _ _ d s) by (unfold get_desc, gets_opt; by rewrite Hdescs, Hd).
    rewrite assert_bind; [done|]. apply bool_decide_eq_true_2. pose proof (do_size _ (ds_lookup_ok _ _ Hd)).
    apply elem_of_blocks in Hp' as (k & -> & _). unfold block_addr, ARENA_SIZE in *.
    rewrite uwrap_id by lia. apply Z.mod_divide; [lia|]. exists (Z.of_nat k). lia.
  - rewrite assert_bind; [done|]. apply bool_decide_eq_true_2. unfold ARENA_SIZE in *. lia.
Qed.

(** ** Changes that keep it *)

Lemma inv_words A ls s f :
  malloc_inv A ls s → (∀ q, is_u32 (f (words (pm s)) q)) → malloc_inv A ls (with_words f s).
Proof.
  intros [H1 H2 H3 H4 H5 H6 H7 H8 H9 H10 H11 H12] Hf. split; try done.
  - destruct H1 as [Hp Ha _]. split; [intros []; [exact (Hp true)|exact (Hp false)]|done|exact Hf].
Qed.

Lemma inv_cells A ls s h : malloc_inv A ls s → lists h ls → malloc_inv A ls (set_cells h s).
Proof. intros [] Hl. by split. Qed.

(** A free list of the state and the others. *)
Lemma ls_focus ls i (l : Z) (xs ys : list Z) :
  ls !! i = Some (l, xs) →
  ls ≡ₚ (l, xs) :: delete i ls ∧ <[i := (l, ys)]> ls ≡ₚ (l, ys) :: delete i ls.
Proof.
  intros Hi. split; [by apply delete_Permutation|].
  assert (i < length ls)%nat by (by eapply lookup_lt_Some).
  rewrite (delete_Permutation (<[i := (l, ys)]> ls) i (l, ys)) by (by apply list_lookup_insert_eq).
  f_equiv. revert i Hi H. induction ls as [|x ls IH]; intros [|i] Hi Hl; [done..|]. simpl. f_equiv. apply IH; [done|simpl in Hl; lia].
Qed.

Lemma ls_addr_insert ls i (l : Z) (xs ys : list Z) :
  ls !! i = Some (l, xs) → (<[i := (l, ys)]> ls).*1 = ls.*1.
Proof.
  intros Hi. rewrite list_fmap_insert. cbn. apply list_insert_id. by rewrite list_lookup_fmap, Hi.
Qed.

Lemma ls_lookup A ls s i d :
  malloc_inv A ls s → ds !! i = Some d → ∃ xs, ls !! i = Some (free_list d, xs).
Proof.
  intros I Hd. assert (ls.*1 !! i = Some (free_list d)) as H by (rewrite (mi_addr _ _ _ I), list_lookup_fmap, Hd; done).
  apply list_lookup_fmap_Some in H as ([l xs] & ? & ?). simplify_eq/=. eauto.
Qed.
End inv.
