(* ===== verification/MallocOps.v ===== *)
(** * MallocOps: handing out and taking back blocks

    The steps of [malloc] and [free]: a block leaves its free list or returns to it, an
    arena is created from a page or dissolved. *)

From S2P Require Import Prelude Links KList KListFacts KListSet Bitmap Vaddr Palloc Malloc MallocInv.

Lemma on_cells_run {A} (m : M lheap A) s a h : m (cells s) = Ret (a, h) → on_list m s = Ret (a, set_cells h s).
Proof. unfold on_list. by intros ->. Qed.

Lemma on_pages_run {A} (m : M pmem A) s a p : m (pm s) = Ret (a, p) → on_pages m s = Ret (a, set_pm p s).
Proof. unfold on_pages. by intros ->. Qed.

(** Memory outside an interval is untouched. *)
Definition same_off (lo hi : Z) (m m' : Z → Z) : Prop := ∀ q, ¬ (lo ≤ q < hi) → m' q = m q.

Lemma store_pair_off b v w m : same_off b (b + 8) m (store_pair b v w m).
Proof. intros q Hq. unfold store_pair. rewrite !bool_decide_eq_false_2 by lia. done. Qed.

Lemma store_pair_u32 b v w m q : is_u32 v → is_u32 w → (∀ q, is_u32 (m q)) → is_u32 (store_pair b v w m q).
Proof. intros. unfold store_pair. by repeat case_bool_decide. Qed.

Lemma low_bytes_u32 k v old : 0 ≤ k ≤ 4 → is_u32 old → is_u32 (low_bytes k v old).
Proof.
  intros Hk Ho. unfold low_bytes, is_u32 in *.
  assert (0 < 256 ^ k) by lia. assert (256 ^ k * 256 ^ (4 - k) = 2 ^ 32) as Hm
    by (rewrite <- Z.pow_add_r by lia; by replace (k + (4 - k)) with 4 by lia).
  pose proof (Z.mod_pos_bound v (256 ^ k) ltac:(lia)). pose proof (Z.div_mod old (256 ^ k) ltac:(lia)).
  assert (0 ≤ old `div` 256 ^ k < 256 ^ (4 - k)) by (split; [apply Z.div_pos; lia|apply Z.div_lt_upper_bound; lia]). nia.
Qed.

Lemma fill_bytes_u32 p byte n m q : (∀ q, is_u32 (m q)) → is_u32 (fill_bytes p byte n m q).
Proof. intros. unfold fill_bytes. case_bool_decide; [apply low_bytes_u32; [lia|done]|done]. Qed.

Lemma copy_bytes_u32 d p n m q : (∀ q, is_u32 (m q)) → is_u32 (copy_bytes d p n m q).
Proof. intros. unfold copy_bytes. case_bool_decide; [apply low_bytes_u32; [lia|done]|done]. Qed.

Lemma low_bytes_0 v old : low_bytes 0 v old = old.
Proof. unfold low_bytes. rewrite Z.pow_0_r, !Z.mod_1_r. lia. Qed.

Lemma fill_bytes_off p byte n m : same_off p (p + n) m (fill_bytes p byte n m).
Proof.
  intros q Hq. unfold fill_bytes. case_bool_decide; [|done].
  rewrite Z.max_l by lia. apply low_bytes_0.
Qed.

Lemma copy_bytes_off d p n m : same_off d (d + n) m (copy_bytes d p n m).
Proof.
  intros q Hq. unfold copy_bytes. case_bool_decide; [|done].
  rewrite Z.max_l by lia. apply low_bytes_0.
Qed.

Section ops.
Context (descs_at : Z) (pm0 : pmem).
Abbreviation ds := (the_descs descs_at).
Abbreviation malloc_inv := (malloc_inv descs_at pm0).
Abbreviation busy := (busy descs_at).

(** Taking a cell out of the heap and its contents back to the words. *)
Lemma to_words_run s b :
  valid (cells s) b → (∀ q, is_u32 (words (pm s) q)) →
  ∃ m', to_words b s = Ret (tt, with_words (λ _, m') (set_cells (delete b (cells s)) s)) ∧
    same_off b (b + 8) (words (pm s)) m' ∧ ∀ q, is_u32 (m' q).
Proof.
  intros Hv Hw. apply valid_lookup in Hv as [_ [e He]].
  exists (store_pair b (u32 (prev e)) (u32 (next e)) (words (pm s))). split_and!.
  - unfold to_words. by rewrite (bind_Ret _ _ _ e s) by (unfold gets_opt; by rewrite He).
  - apply store_pair_off.
  - intros q. apply store_pair_u32; [apply uwrap_range; lia..|done].
Qed.

(** ** One block changes hands *)

(** A block belongs to one arena. *)
Lemma block_unique A ls s a ar i d a' ar' i' d' b :
  malloc_inv A ls s → arenas s !! a = Some ar → a_desc ar = Some i → ds !! i = Some d → b ∈ blocks_of a d →
  arenas s !! a' = Some ar' → a_desc ar' = Some i' → ds !! i' = Some d' → b ∈ blocks_of a' d' → a' = a ∧ i' = i.
Proof.
  intros I Ha Hi Hd Hb Ha' Hi' Hd' Hb'.
  assert (slot ds (arenas s) a b (d_block_size d)) as Hs by (exists ar; rewrite Hi; eauto).
  assert (slot ds (arenas s) a' b (d_block_size d')) as Hs' by (exists ar'; rewrite Hi'; eauto).
  destruct (slot_apart _ _ _ _ _ _ _ _ (ds_ok descs_at) (mi_arenas _ _ _ _ _ I) Hs Hs') as [(-> & _)|[? _]]; [|done].
  split; [done|congruence].
Qed.

Lemma blocks_length a d : desc_ok d → Z.of_nat (length (blocks_of a d)) = blocks_per_arena d ∧ blocks_per_arena d ≤ 4096.
Proof.
  intros [Hs _ Hc Hf]. unfold blocks_of. rewrite length_fmap, length_seq. unfold ARENA_SIZE in Hf. split; [lia|nia].
Qed.

(** The counter of the arena before and after [b] becomes live. *)
Lemma free_cnt_step A a d b c :
  desc_ok d → b ∈ blocks_of a d → A !! b = None →
  Z.of_nat (length (free_blocks A a d)) = Z.of_nat (length (free_blocks (<[b := c]> A) a d)) + 1 ∧
  Z.of_nat (length (free_blocks A a d)) ≤ blocks_per_arena d ∧ blocks_per_arena d ≤ 4096.
Proof.
  intros Hd Hb HA. destruct (blocks_length a d Hd) as [Hl ?].
  pose proof (length_filter (λ x, A !! x = None) (blocks_of a d)).
  unfold free_blocks in *. rewrite (filter_live_in A b c _ (blocks_NoDup a d Hd) Hb HA) in *. lia.
Qed.

(** The parts of the invariant that a change of the bookkeeping does not concern. *)
Lemma inv_rebook A ls s A' ls' ars' h m' :
  malloc_inv A ls s → same_shape (arenas s) ars' → (∀ q, is_u32 (m' q)) → lists h ls' → ls'.*1 = ls.*1 →
  (∀ p c, A' !! p = Some c → ∃ a, slot ds (arenas s) a p c) →
  (∀ a ar, arenas s !! a = Some ar → a_desc ar = None → is_Some (A' !! (a + ARENA_SIZE))) →
  (∀ a ar i d, ars' !! a = Some ar → a_desc ar = Some i → ds !! i = Some d → free_cnt ar = Z.of_nat (length (free_blocks A' a d))) →
  (∀ i l xs d e, ls' !! i = Some (l, xs) → ds !! i = Some d →
     e ∈ xs ↔ ∃ a ar, arenas s !! a = Some ar ∧ a_desc ar = Some i ∧ e ∈ blocks_of a d ∧ A' !! e = None) →
  malloc_inv A' ls' (set_arenas ars' (with_words (λ _, m') (set_cells h s))).
Proof.
  intros I Hsh Hm Hh Had Hl Hb Hc Hf. pose proof (same_shape_sym _ _ Hsh) as Hsh'.
  split; cbn [pm cells arenas descs set_arenas with_words set_pm set_cells].
  - exact (mi_pm _ _ _ _ _ (inv_words _ _ _ _ _ (λ _, m') I Hm)).
  - exact (mi_frame _ _ _ _ _ I).
  - exact (mi_descs _ _ _ _ _ I).
  - eapply same_shape_ok; [exact Hsh|]. exact (mi_arenas _ _ _ _ _ I).
  - intros p c Hp. destruct (Hl p c Hp) as [a Hs]. exists a. by eapply same_shape_slot.
  - intros a ar Ha Hn. destruct (same_shape_lookup _ _ _ _ Hsh Ha) as (ar0 & Ha0 & [= _ Hd0 _]).
    apply (Hb a ar0 Ha0). congruence.
  - exact Hc.
  - done.
  - rewrite Had. apply (mi_addr _ _ _ _ _ I).
  - intros i l xs d e Hi Hd. rewrite (Hf i l xs d e Hi Hd). split; intros (a & ar & Ha & Har & Hin & HA).
    + destruct (same_shape_lookup _ _ _ _ Hsh' Ha) as (ar0 & Ha0 & [= _ Hd0 _]). exists a, ar0. split_and!; [done|congruence|done..].
    + destruct (same_shape_lookup _ _ _ _ Hsh Ha) as (ar0 & Ha0 & [= _ Hd0 _]). exists a, ar0. split_and!; [done|congruence|done..].
  - intros q Hq. apply (mi_covered _ _ _ _ _ I). eapply same_shape_covered; [|exact Hq]. exact Hsh.
  - intros v q Hq. apply (mi_others _ _ _ _ _ I). intros [-> Hc']. apply Hq. split; [done|].
    eapply same_shape_covered; [|exact Hc']. exact Hsh'.
Qed.

Lemma listed_NoDup A ls s i l xs : malloc_inv A ls s → ls !! i = Some (l, xs) → NoDup xs.
Proof.
  intros I Hi. pose proof (lists_NoDup _ _ (mi_lists _ _ _ _ _ I)) as Hn. destruct (ls_focus ls i l xs xs Hi) as [Hp _].
  rewrite Hp, members_cons, NoDup_app in Hn. tauto.
Qed.

Section block.
Context (A : gmap Z Z) (ls : list (Z * list Z)) (s : mstate) (i : nat) (d : desc) (a : Z) (ar : arena) (b : Z) (xs : list Z).
Context (I : malloc_inv A ls s) (Hd : ds !! i = Some d) (Ha : arenas s !! a = Some ar) (Har : a_desc ar = Some i) (Hb : b ∈ blocks_of a d).

(** [b] is taken off the front of its free list. *)
Lemma inv_take h m' :
  ls !! i = Some (free_list d, b :: xs) → A !! b = None →
  lists h (<[i := (free_list d, xs)]> ls) → (∀ q, is_u32 (m' q)) →
  malloc_inv (<[b := d_block_size d]> A) (<[i := (free_list d, xs)]> ls)
    (set_arenas (<[a := Arena (magic ar) (a_desc ar) (u32 (free_cnt ar - 1))]> (arenas s)) (with_words (λ _, m') (set_cells h s))).
Proof using I Hd Ha Har Hb.
  intros Hls HA Hh Hm. pose proof (ds_lookup_ok _ _ _ Hd) as Hdok.
  eapply inv_rebook; [exact I|by eapply same_shape_cnt|done|done|by eapply ls_addr_insert|..].
  - intros p c [[<- <-]|[_ Hp]]%lookup_insert_Some; [|by eapply mi_live]. exists a, ar. rewrite Har. eauto.
  - intros a' ar' Ha' Hn. apply lookup_insert_is_Some. destruct (decide (b = a' + ARENA_SIZE)); [by left|right; split; [done|by eapply mi_big]].
  - intros a' ar' i' d' [[<- <-]|[Hne Ha']]%lookup_insert_Some Hi' Hd'; cbn [free_cnt a_desc] in *.
    + assert (d' = d) as -> by congruence. destruct (free_cnt_step A a d b (d_block_size d) Hdok Hb HA) as (H1 & H2 & H3).
      rewrite (mi_cnt _ _ _ _ _ I _ _ _ _ Ha Har Hd). rewrite uwrap_id; lia.
    + rewrite (mi_cnt _ _ _ _ _ I _ _ _ _ Ha' Hi' Hd'). unfold free_blocks. rewrite filter_live_notin; [done|].
      intros Hin. destruct (block_unique A ls s a ar i d a' ar' i' d' b) as [? _]; done.
  - intros j l ys dj e [(-> & [= <- <-] & _)|[Hne Hj]]%list_lookup_insert_Some Hdj.
    + assert (dj = d) as -> by congruence. pose proof (mi_free _ _ _ _ _ I _ _ _ _ e Hls Hd) as Hf.
      pose proof (listed_NoDup _ _ _ _ _ _ I Hls) as [Hnx _]%NoDup_cons. split.
      * intros He. destruct (proj1 Hf) as (a' & ar' & ? & ? & ? & ?); [set_solver|]. exists a', ar'.
        split_and!; [done..|]. rewrite lookup_insert_ne; [done|]. by intros <-.
      * intros (a' & ar' & ? & ? & ? & [? ?]%lookup_insert_None). assert (e ∈ b :: xs) as He by (apply Hf; eauto 10). set_solver.
    + rewrite (mi_free _ _ _ _ _ I _ _ _ _ e Hj Hdj). split; intros (a' & ar' & Ha' & Hi' & Hin & HAe); exists a', ar'; split_and!; try done.
      * rewrite lookup_insert_ne; [done|]. intros <-. destruct (block_unique A ls s a ar i d a' ar' j dj b); done.
      * by apply lookup_insert_None in HAe as [? _].
Qed.

(** [b], which was live, is put at the front of its free list. *)
Lemma inv_put h m' c :
  ls !! i = Some (free_list d, xs) → A !! b = Some c →
  lists h (<[i := (free_list d, b :: xs)]> ls) → (∀ q, is_u32 (m' q)) →
  malloc_inv (delete b A) (<[i := (free_list d, b :: xs)]> ls)
    (set_arenas (<[a := Arena (magic ar) (a_desc ar) (u32 (free_cnt ar + 1))]> (arenas s)) (with_words (λ _, m') (set_cells h s))).
Proof using I Hd Ha Har Hb.
  intros Hls HA Hh Hm. pose proof (ds_lookup_ok _ _ _ Hd) as Hdok. assert (<[b := c]> (delete b A) = A) as HAd by (by apply insert_delete_id).
  assert (delete b A !! b = None) as HAb by apply lookup_delete_eq.
  assert (i < length ls)%nat as Hlen by (by eapply lookup_lt_Some).
  eapply inv_rebook; [exact I|by eapply same_shape_cnt|done|done|by eapply ls_addr_insert|..].
  - intros p c' [_ Hp]%lookup_delete_Some. by eapply mi_live.
  - intros a' ar' Ha' Hn. rewrite lookup_delete_ne; [by eapply mi_big|]. intros ->.
    destruct (slot_apart _ _ a (a' + ARENA_SIZE) (d_block_size d) a' (a' + ARENA_SIZE) (4096 * free_cnt ar' - ARENA_SIZE) (ds_ok descs_at) (mi_arenas _ _ _ _ _ I)) as [(-> & _)|[? _]];
      [exists ar; rewrite Har; eauto|exists ar'; by rewrite Hn|congruence|done].
  - intros a' ar' i' d' [[<- <-]|[Hne Ha']]%lookup_insert_Some Hi' Hd'; cbn [free_cnt a_desc] in *.
    + assert (d' = d) as -> by congruence. destruct (free_cnt_step (delete b A) a d b c Hdok Hb HAb) as (H1 & H2 & H3).
      rewrite HAd in H1. rewrite (mi_cnt _ _ _ _ _ I _ _ _ _ Ha Har Hd). rewrite uwrap_id; lia.
    + rewrite (mi_cnt _ _ _ _ _ I _ _ _ _ Ha' Hi' Hd'). unfold free_blocks.
      rewrite <- (filter_live_notin (delete b A) b c), HAd; [done|].
      intros Hin. destruct (block_unique A ls s a ar i d a' ar' i' d' b) as [? _]; done.
  - intros j l ys dj e [(-> & [= <- <-] & _)|[Hne Hj]]%list_lookup_insert_Some Hdj.
    + assert (dj = d) as -> by congruence. pose proof (mi_free _ _ _ _ _ I _ _ _ _ e Hls Hd) as Hf. split.
      * intros [->|He]%elem_of_cons; [by exists a, ar|]. apply Hf in He as (a' & ar' & ? & ? & ? & ?). exists a', ar'.
        split_and!; [done..|]. by apply lookup_delete_None; right.
      * intros (a' & ar' & ? & ? & ? & [->|?]%lookup_delete_None); [apply list_elem_of_here|]. apply list_elem_of_further, Hf. eauto 10.
    + rewrite (mi_free _ _ _ _ _ I _ _ _ _ e Hj Hdj). split; intros (a' & ar' & Ha' & Hi' & Hin & HAe); exists a', ar'; split_and!; try done.
      * by apply lookup_delete_None; right.
      * apply lookup_delete_None in HAe as [<-|?]; [|done]. destruct (block_unique A ls s a ar i d a' ar' j dj b); done.
Qed.
End block.
End ops.
