(* ===== verification/MallocArena.v ===== *)
(** * MallocArena: creating and dissolving arenas

    A page or a run of pages becomes an arena and goes back to the page allocator; the
    blocks of a small arena enter and leave the free list of their descriptor. *)

From S2P Require Import Prelude Links KList KListFacts KListSet Bitmap Vaddr Palloc Malloc MallocInv MallocOps.

Section arena.
Context (descs_at : Z) (pm0 : pmem).
Abbreviation ds := (the_descs descs_at).
Abbreviation malloc_inv := (malloc_inv descs_at pm0).

(** ** The pages *)

(** Two runs of pages that are not apart share a page. *)
Lemma runs_share a n b m :
  a `mod` 4096 = 0 → b `mod` 4096 = 0 → 0 < n → 0 < m → ¬ (a + 4096 * n ≤ b ∨ b + 4096 * m ≤ a) →
  ∃ q, in_block a n q ∧ in_block b m q.
Proof.
  intros Ha Hb Hn Hm Hov. exists (Z.max a b). unfold in_block. destruct (decide (a ≤ b)).
  - rewrite Z.max_r by lia. split; split; lia.
  - rewrite Z.max_l by lia. split; split; lia.
Qed.

Lemma covered_add s s' a ar q :
  arenas s !! a = None → arenas s' = <[a := ar]> (arenas s) →
  covered s' q ↔ covered s q ∨ in_block a (apages ar) q.
Proof.
  intros Hn Hs'. unfold covered. rewrite Hs'. split.
  - intros (b & br & [[<- <-]|[_ Hb]]%lookup_insert_Some & Hq); [by right|left; eauto].
  - intros [(b & br & Hb & Hq)|Hq].
    + exists b, br. split; [|done]. rewrite lookup_insert_ne; [done|congruence].
    + exists a, ar. by rewrite lookup_insert_eq.
Qed.

Section add.
Context (A : gmap Z Z) (ls : list (Z * list Z)) (s : mstate) (a n : Z) (ar : arena) (p' : pmem).
Context (I : malloc_inv A ls s) (Hal : allocated 0 n a (pm s) p') (Hn : 0 < n).
Context (Hmg : magic ar = ARENA_MAGIC) (Hap : apages ar = n) (Hdesc : ∀ i, a_desc ar = Some i → is_Some (ds !! i)).

(** The new run is not part of an arena. *)
Lemma run_fresh q : in_block a n q → ¬ covered s q.
Proof using All.
  intros [Hq1 Hq2] Hc. destruct (mi_covered _ _ _ _ _ I q Hc) as [Ht _]. destruct (al_kpage _ _ _ _ _ Hal) as [Ha _].
  assert (page_state (pm s) false (a + 4096 * ((q - a) `div` 4096)) = Some false) as Hf
    by (apply (al_free _ _ _ _ _ Hal); Z.div_mod_to_equations; lia).
  replace (a + 4096 * ((q - a) `div` 4096)) with q in Hf by (Z.div_mod_to_equations; lia). congruence.
Qed.

Lemma arena_fresh : arenas s !! a = None.
Proof using All.
  destruct (arenas s !! a) as [br|] eqn:Hb; [|done]. exfalso. destruct (al_kpage _ _ _ _ _ Hal) as [Ha _].
  apply (run_fresh a); [split; [done|lia]|]. exists a, br. split; [done|].
  destruct (ao_page _ _ (mi_arenas _ _ _ _ _ I) _ _ Hb) as (_ & ? & _). split; [done|lia].
Qed.

Lemma arenas_add_ok : arenas_ok ds (<[a := ar]> (arenas s)).
Proof using All.
  pose proof (mi_arenas _ _ _ _ _ I) as Hok. pose proof (al_kpage _ _ _ _ _ Hal) as Hk.
  assert (∀ b br, arenas s !! b = Some br → a + 4096 * n ≤ b ∨ b + 4096 * apages br ≤ a) as Hapart.
  { intros b br Hb. destruct (ao_page _ _ Hok _ _ Hb) as ([Hbal _] & Hm & _).
    destruct (decide (a + 4096 * n ≤ b ∨ b + 4096 * apages br ≤ a)) as [|Hov]; [done|].
    destruct (runs_share a n b (apages br)) as (q & H1 & H2); [apply Hk|done..|]. destruct (run_fresh q H1). by exists b, br. }
  split.
  - intros b br [[<- <-]|[_ Hb]]%lookup_insert_Some; [done|by eapply ao_magic].
  - intros b br [[<- <-]|[_ Hb]]%lookup_insert_Some; [|by eapply ao_page]. rewrite Hap. split_and!; [done..|apply Hal].
  - intros b br i [[<- <-]|[_ Hb]]%lookup_insert_Some; [apply Hdesc|by eapply ao_desc].
  - intros b br c cr [[<- <-]|[_ Hb]]%lookup_insert_Some [[<- <-]|[_ Hc]]%lookup_insert_Some Hne; rewrite ?Hap.
    + done.
    + by apply Hapart.
    + destruct (Hapart b br Hb); tauto.
    + by eapply ao_apart.
Qed.

(** The invariant with the new arena, given what it says of blocks and lists. *)
Lemma inv_add A' ls' h :
  lists h ls' → ls'.*1 = ls.*1 →
  (∀ p c, A' !! p = Some c → ∃ b, slot ds (<[a := ar]> (arenas s)) b p c) →
  (∀ b br, <[a := ar]> (arenas s) !! b = Some br → a_desc br = None → is_Some (A' !! (b + ARENA_SIZE))) →
  (∀ b br i d, <[a := ar]> (arenas s) !! b = Some br → a_desc br = Some i → ds !! i = Some d → free_cnt br = Z.of_nat (length (free_blocks A' b d))) →
  (∀ i l xs d e, ls' !! i = Some (l, xs) → ds !! i = Some d →
     e ∈ xs ↔ ∃ b br, <[a := ar]> (arenas s) !! b = Some br ∧ a_desc br = Some i ∧ e ∈ blocks_of b d ∧ A' !! e = None) →
  malloc_inv A' ls' (MState p' h (<[a := ar]> (arenas s)) (descs s)).
Proof using All.
  intros Hh Had Hl Hb Hc Hf. set (s' := MState _ _ _ _).
  assert (∀ q, covered s' q ↔ covered s q ∨ in_block a n q) as Hcov.
  { intros q. rewrite <- Hap. apply covered_add; [apply arena_fresh|done]. }
  pose proof (al_state _ _ _ _ _ Hal) as Hst. change (has_flag 0 PAL_USER) with false in Hst.
  split; try done.
  - apply Hal.
  - intros v. destruct (mi_frame _ _ _ _ _ I v), (al_frame _ _ _ _ _ Hal v). cbn [pm s']. split; congruence.
  - exact (mi_descs _ _ _ _ _ I).
  - apply arenas_add_ok.
  - rewrite Had. apply (mi_addr _ _ _ _ _ I).
  - intros q Hq. cbn [pm s']. rewrite Hst. destruct (decide (in_block a n q)) as [Hin|Hout].
    + rewrite decide_True by done. split; [done|]. rewrite <- (mi_others _ _ _ _ _ I) by (intros [_ ?]; by apply (run_fresh q)).
      destruct Hin as [Hq1 Hq2]. destruct (al_kpage _ _ _ _ _ Hal) as [Ha _].
      replace q with (a + 4096 * ((q - a) `div` 4096)) by (Z.div_mod_to_equations; lia).
      apply (al_free _ _ _ _ _ Hal). Z.div_mod_to_equations; lia.
    + rewrite decide_False by tauto. apply (mi_covered _ _ _ _ _ I). apply Hcov in Hq. tauto.
  - intros v q Hq. cbn [pm s']. rewrite Hcov in Hq. rewrite Hst, decide_False by tauto. apply (mi_others _ _ _ _ _ I). tauto.
Qed.
End add.

Lemma covered_del A ls s s' a ar q :
  malloc_inv A ls s → arenas s !! a = Some ar → arenas s' = delete a (arenas s) →
  covered s' q ↔ covered s q ∧ ¬ in_block a (apages ar) q.
Proof.
  intros I Ha Hs'. unfold covered. rewrite Hs'. split.
  - intros (b & br & [Hne Hb]%lookup_delete_Some & Hq). split; [eauto|]. intros Hq'. unfold in_block in *.
    destruct (ao_apart _ _ (mi_arenas _ _ _ _ _ I) _ _ _ _ Ha Hb Hne); lia.
  - intros [(b & br & Hb & Hq) Hout]. exists b, br. split; [|done]. rewrite lookup_delete_ne; [done|].
    intros <-. simplify_eq. done.
Qed.

Lemma arena_used A ls s a ar :
  malloc_inv A ls s → arenas s !! a = Some ar → all_used (pm s) false a (apages ar).
Proof.
  intros I Ha k Hk. destruct (ao_page _ _ (mi_arenas _ _ _ _ _ I) _ _ Ha) as ([Hal _] & _).
  apply (mi_covered _ _ _ _ _ I). exists a, ar. split; [done|]. split; [Z.div_mod_to_equations; lia|lia].
Qed.

(** The invariant without the arena at [a], given what it says of blocks and lists. *)
Lemma inv_del A ls s a ar p' A' ls' h :
  malloc_inv A ls s → arenas s !! a = Some ar → freed false (apages ar) a (pm s) p' →
  lists h ls' → ls'.*1 = ls.*1 →
  (∀ p c, A' !! p = Some c → ∃ b, slot ds (delete a (arenas s)) b p c) →
  (∀ b br, delete a (arenas s) !! b = Some br → a_desc br = None → is_Some (A' !! (b + ARENA_SIZE))) →
  (∀ b br i d, delete a (arenas s) !! b = Some br → a_desc br = Some i → ds !! i = Some d → free_cnt br = Z.of_nat (length (free_blocks A' b d))) →
  (∀ i l xs d e, ls' !! i = Some (l, xs) → ds !! i = Some d →
     e ∈ xs ↔ ∃ b br, delete a (arenas s) !! b = Some br ∧ a_desc br = Some i ∧ e ∈ blocks_of b d ∧ A' !! e = None) →
  malloc_inv A' ls' (MState p' h (delete a (arenas s)) (descs s)).
Proof.
  intros I Ha Hfr Hh Had Hl Hb Hc Hf. set (s' := MState _ _ _ _). pose proof (mi_arenas _ _ _ _ _ I) as Hok.
  assert (∀ q, covered s' q ↔ covered s q ∧ ¬ in_block a (apages ar) q) as Hcov
    by (intros q; by eapply (covered_del A ls s s')).
  split; try done.
  - apply Hfr.
  - intros v. destruct (mi_frame _ _ _ _ _ I v), (fr_frame _ _ _ _ _ Hfr v). cbn [pm s']. split; congruence.
  - exact (mi_descs _ _ _ _ _ I).
  - change (arenas s') with (delete a (arenas s)). split.
    + intros b br [_ H]%lookup_delete_Some. by eapply ao_magic.
    + intros b br [_ H]%lookup_delete_Some. by eapply ao_page.
    + intros b br i [_ H]%lookup_delete_Some. by eapply ao_desc.
    + intros b br c cr [_ H]%lookup_delete_Some [_ H']%lookup_delete_Some. by eapply ao_apart.
  - rewrite Had. apply (mi_addr _ _ _ _ _ I).
  - intros q Hq. apply Hcov in Hq as [Hq Hout]. cbn [pm s']. rewrite (fr_state _ _ _ _ _ Hfr), decide_False by tauto.
    by apply (mi_covered _ _ _ _ _ I).
  - intros v q Hq. cbn [pm s']. rewrite (fr_state _ _ _ _ _ Hfr). destruct (decide (v = false ∧ in_block a (apages ar) q)) as [[-> Hin]|Hout].
    + symmetry. apply (mi_covered _ _ _ _ _ I). by exists a, ar.
    + apply (mi_others _ _ _ _ _ I). rewrite Hcov in Hq. tauto.
Qed.

(** ** The blocks *)

Lemma arena_to_block_run s a ar i d k :
  descs s = ds → arenas s !! a = Some ar → magic ar = ARENA_MAGIC → a_desc ar = Some i → ds !! i = Some d → is_kpage a →
  a + 4096 ≤ 2 ^ 32 → Z.of_nat k < blocks_per_arena d →
  arena_to_block a (Z.of_nat k) s = Ret (block_addr a d k, s).
Proof.
  intros Hds Ha Hm Hi Hd [_ Hk] Hend Hlt. unfold PHYS_BASE in Hk. unfold arena_to_block.
  rewrite assert_bind by (apply bool_decide_eq_true_2; unfold NULL; lia).
  rewrite (bind_Ret _ _ _ ar s) by (unfold get_arena, gets_opt; by rewrite Ha).
  rewrite assert_bind by (by apply bool_decide_eq_true_2). rewrite Hi.
  rewrite (bind_Ret _ _ _ d s) by (unfold get_desc, gets_opt; by rewrite Hds, Hd).
  rewrite assert_bind by (by apply bool_decide_eq_true_2).
  pose proof (block_addr_bounds a d k (ds_lookup_ok _ _ _ Hd) Hlt). pose proof (do_size _ (ds_lookup_ok _ _ _ Hd)).
  unfold block_addr, ARENA_SIZE in *. rewrite uwrap_id by lia. done.
Qed.

Section blocks.
Context (a : Z) (ar : arena) (i : nat) (d : desc).
Context (Hm : magic ar = ARENA_MAGIC) (Hi : a_desc ar = Some i) (Hd : ds !! i = Some d) (Hk : is_kpage a) (Hend : a + 4096 ≤ 2 ^ 32).

Lemma add_blocks_run n k fl xs rest s :
  descs s = ds → arenas s !! a = Some ar → Z.of_nat (k + n) ≤ blocks_per_arena d →
  lists (cells s) ((fl, xs) :: rest) →
  (∀ j, (k ≤ j < k + n)%nat → block_addr a d j ∉ footprints ((fl, xs) :: rest)) →
  ∃ h', add_blocks n fl a (Z.of_nat k) s = Ret (tt, set_cells h' s) ∧
    lists h' ((fl, xs ++ (block_addr a d <$> seq k n)) :: rest).
Proof using Hm Hi Hd Hk Hend.
  revert k xs s. induction n as [|n IH]; intros k xs s Hds Ha Hn Hls Hfresh; cbn [add_blocks seq fmap list_fmap].
  { exists (cells s). rewrite app_nil_r. by destruct s. }
  run_step (arena_to_block_run s a ar i d k Hds Ha Hm Hi Hd Hk Hend ltac:(lia)).
  pose proof (ds_lookup_ok _ _ _ Hd) as Hdok. pose proof (block_addr_bounds a d k Hdok ltac:(lia)) as [Hb1 _].
  assert (block_addr a d k ∉ footprints ((fl, xs) :: rest)) as Hnk by (apply Hfresh; lia).
  set (b := block_addr a d k) in *. unfold to_cell.
  set (s1 := set_cells (<[b := ListElem (words (pm s) b) (words (pm s) (b + 4))]> (cells s)) s).
  rewrite (bind_Ret _ _ _ tt s1) by done.
  assert (lists (cells s1) ((fl, xs) :: rest)) as Hls1.
  { eapply lists_ext; [exact Hls|]. intros q Hq. cbn. rewrite lookup_insert_ne; [done|]. by intros <-. }
  assert (valid (cells s1) b) as Hv1.
  { apply valid_lookup. cbn. rewrite lookup_insert_eq. unfold NULL, ARENA_SIZE, is_kpage, PHYS_BASE in *. split; [lia|done]. }
  destruct (lists_push_back _ _ _ _ _ Hls1 Hv1 Hnk) as (h2 & Hr2 & _ & Hl2).
  run_step (on_cells_run _ s1 _ _ Hr2). replace (Z.of_nat k + 1) with (Z.of_nat (S k)) by lia.
  destruct (IH (S k) (xs ++ [b]) (set_cells h2 s1)) as (h3 & Hr3 & Hl3); [done|done|lia|exact Hl2| |].
  { intros j Hj Hin. rewrite footprints_cons in Hin. assert (block_addr a d j ≠ b) as Hne.
    { intros Heq. subst b. destruct (block_addr_apart a d j k Hdok ltac:(lia)); pose proof (do_size _ Hdok); lia. }
    apply (Hfresh j); [lia|]. rewrite footprints_cons. unfold footprint in *. set_solver. }
  exists h3. split; [exact Hr3|]. by rewrite <- app_assoc in Hl3.
Qed.

Lemma remove_blocks_run n k fl xs rest s :
  descs s = ds → arenas s !! a = Some ar → Z.of_nat (k + n) ≤ blocks_per_arena d →
  lists (cells s) ((fl, xs) :: rest) → (∀ q, is_u32 (words (pm s) q)) →
  (∀ j, (k ≤ j < k + n)%nat → block_addr a d j ∈ xs) →
  ∃ h' m' xs', remove_blocks n a (Z.of_nat k) s = Ret (tt, with_words (λ _, m') (set_cells h' s)) ∧
    lists h' ((fl, xs') :: rest) ∧ (∀ e, e ∈ xs' ↔ e ∈ xs ∧ e ∉ block_addr a d <$> seq k n) ∧
    same_off a (a + 4096) (words (pm s)) m' ∧ ∀ q, is_u32 (m' q).
Proof using Hm Hi Hd Hk Hend.
  revert k xs s. induction n as [|n IH]; intros k xs s Hds Ha Hn Hls Hw Hin; cbn [remove_blocks seq fmap list_fmap].
  { exists (cells s), (words (pm s)), xs. split_and!; [|done|set_solver|done|done]. unfold with_words. by destruct s as [[] ? ? ?]. }
  run_step (arena_to_block_run s a ar i d k Hds Ha Hm Hi Hd Hk Hend ltac:(lia)).
  pose proof (ds_lookup_ok _ _ _ Hd) as Hdok. pose proof (block_addr_bounds a d k Hdok ltac:(lia)) as [Hb1 Hb2].
  pose proof (Hin k ltac:(lia)) as Hb. set (b := block_addr a d k) in *. pose proof (do_size _ Hdok) as Hsz.
  pose proof (lists_NoDup _ _ Hls) as Hnd. rewrite members_cons, NoDup_app in Hnd. destruct Hnd as [Hnd _].
  apply list_elem_of_split in Hb as (ys & zs & ->). rewrite NoDup_app, NoDup_cons in Hnd. destruct Hnd as (_ & Hnd1 & Hnd2 & _).
  destruct (lists_remove _ _ _ _ _ _ Hls) as (h1 & r & Hr1 & _ & Hl1 & Hv1 & Hn1). run_step (on_cells_run _ s _ _ Hr1).
  destruct (to_words_run (set_cells h1 s) b Hv1 Hw) as (m1 & Hr2 & Ho2 & Hw2). run_step Hr2.
  set (s2 := with_words _ _). replace (Z.of_nat k + 1) with (Z.of_nat (S k)) by lia.
  assert (lists (cells s2) ((fl, ys ++ zs) :: rest)) as Hl2.
  { eapply lists_ext; [exact Hl1|]. intros q Hq. cbn. rewrite lookup_delete_ne; [done|]. by intros <-. }
  destruct (IH (S k) (ys ++ zs) s2) as (h3 & m3 & xs3 & Hr3 & Hl3 & Hx3 & Ho3 & Hw3); [done|done|lia|exact Hl2|exact Hw2| |].
  { intros j Hj. pose proof (Hin j ltac:(lia)) as Hjn. assert (block_addr a d j ≠ b) as Hne.
    { intros Heq. subst b. destruct (block_addr_apart a d j k Hdok ltac:(lia)); lia. } set_solver. }
  exists h3, m3, xs3. split_and!; [exact Hr3|done| | |done].
  - intros e. rewrite Hx3. fold b. assert (b ∉ ys) by (intros Hy; apply (Hnd1 b Hy); set_solver). set_solver.
  - intros q Hq. rewrite Ho3 by done. apply Ho2. unfold ARENA_SIZE in *. lia.
Qed.
End blocks.
End arena.
