(* ===== verification/MallocRun.v ===== *)
(** * MallocRun: the functions of the block allocator on its invariant *)

From S2P Require Import Prelude Links KList KListFacts KListSet Bitmap Vaddr Palloc Malloc MallocInv MallocOps MallocArena.

(** The contents of the live blocks are not touched. *)
Definition keeps (A : gmap Z Z) (s s' : mstate) : Prop :=
  ∀ p c q, A !! p = Some c → p ≤ q < p + c → words (pm s') q = words (pm s) q.

Section run.
Context (descs_at : Z) (pm0 : pmem) (Hst : static_ok descs_at pm0).
Abbreviation ds := (the_descs descs_at).
Abbreviation malloc_inv := (malloc_inv descs_at pm0).
Abbreviation busy := (busy descs_at).

Lemma slot_mono ars a ar b p c : ars !! a = None → slot ds ars b p c → slot ds (<[a := ar]> ars) b p c.
Proof. intros Hn (br & Hb & Hs). exists br. split; [|done]. rewrite lookup_insert_ne; [done|congruence]. Qed.

(** A change inside one block leaves the others as they are. *)
Lemma keeps_off A ls s a p c s' :
  malloc_inv A ls s → slot ds (arenas s) a p c → same_off p (p + c) (words (pm s)) (words (pm s')) →
  keeps (delete p A) s s'.
Proof.
  intros I Hs Ho p' c' q [Hne Hp']%lookup_delete_Some Hq. apply Ho. destruct (mi_live _ _ _ _ _ I _ _ Hp') as [a' Hs'].
  destruct (slot_apart _ _ _ _ _ _ _ _ (ds_ok descs_at) (mi_arenas _ _ _ _ _ I) Hs Hs') as [(_ & -> & _)|[_ ?]]; [done|lia].
Qed.

(** ** [malloc], small blocks *)

Lemma new_arena_blocks_free A ls s a n ar i d p' e :
  malloc_inv A ls s → allocated 0 n a (pm s) p' → 0 < n → magic ar = ARENA_MAGIC → apages ar = n →
  a_desc ar = Some i → ds !! i = Some d → e ∈ blocks_of a d → A !! e = None.
Proof.
  intros I Hal Hn Hm Hap Hi Hd He. destruct (A !! e) as [c|] eqn:HA; [|done]. exfalso.
  assert (∀ j, a_desc ar = Some j → is_Some (ds !! j)) as Hdesc by (intros j ?; simplify_eq; eauto).
  pose proof (arena_fresh _ _ A ls s a n ar p' I Hal Hn Hm Hap Hdesc) as Hfr.
  destruct (mi_live _ _ _ _ _ I _ _ HA) as [b Hs].
  assert (slot ds (<[a := ar]> (arenas s)) a e (d_block_size d)) as Hs'.
  { exists ar. rewrite lookup_insert_eq, Hi. eauto. }
  destruct (slot_apart _ _ _ _ _ _ _ _ (ds_ok descs_at) (arenas_add_ok _ _ A ls s a n ar p' I Hal Hn Hm Hap Hdesc)
    Hs' (slot_mono _ a ar _ _ _ Hfr Hs)) as [(-> & _)|[? _]]; [|done].
  destruct Hs as (br & Hb & _). congruence.
Qed.

(** The blocks of an arena that is not there yet are on no free list. *)
Lemma new_arena_not_listed A ls s a n ar i d p' e :
  malloc_inv A ls s → allocated 0 n a (pm s) p' → 0 < n → magic ar = ARENA_MAGIC → apages ar = n →
  a_desc ar = Some i → ds !! i = Some d → e ∈ blocks_of a d → e ∉ footprints ls.
Proof.
  intros I Hal Hn Hm Hap Hi Hd He Hin.
  assert (∀ j, a_desc ar = Some j → is_Some (ds !! j)) as Hdesc by (intros j ?; simplify_eq; eauto).
  pose proof (arena_fresh _ _ A ls s a n ar p' I Hal Hn Hm Hap Hdesc) as Hfr.
  pose proof (arenas_add_ok _ _ A ls s a n ar p' I Hal Hn Hm Hap Hdesc) as Hok.
  assert (slot ds (<[a := ar]> (arenas s)) a e (d_block_size d)) as Hs by (exists ar; rewrite lookup_insert_eq, Hi; eauto).
  destruct (elem_of_footprints _ _ _ _ _ _ I Hin) as [Hr|[_ (b & c & Hs')]].
  - destruct Hst as (H1 & H2 & Hok0). apply elem_of_blocks in He as (k & -> & Hk).
    pose proof (block_addr_bounds a d k (ds_lookup_ok _ _ _ Hd) Hk) as [Hb _].
    pose proof (al_free _ _ _ _ _ Hal 0 ltac:(lia)) as Hf. change (has_flag 0 PAL_USER) with false in Hf.
    apply page_state_Some in Hf as (j & Hj & _); [|apply (mi_pm _ _ _ _ _ I)].
    destruct (mi_frame _ _ _ _ _ I false) as [Hbase _]. cbn [pool_of] in *. unfold ARENA_SIZE in *. lia.
  - destruct (slot_apart _ _ _ _ _ _ _ _ (ds_ok descs_at) Hok Hs (slot_mono _ a ar _ _ _ Hfr Hs')) as [(-> & _)|[? _]]; [|done].
    destruct Hs' as (br & Hb & _). congruence.
Qed.

(** The invariant when a page has become an arena of descriptor [i], whose list was empty. *)
Lemma inv_new_arena A ls s i d a p' h :
  let ar := Arena ARENA_MAGIC (Some i) (blocks_per_arena d) in
  malloc_inv A ls s → ds !! i = Some d → ls !! i = Some (free_list d, []) → allocated 0 1 a (pm s) p' →
  lists h (<[i := (free_list d, blocks_of a d)]> ls) →
  malloc_inv A (<[i := (free_list d, blocks_of a d)]> ls) (MState p' h (<[a := ar]> (arenas s)) (descs s)).
Proof using Hst.
  intros ar I Hd Hls Hal Hh.
  assert (∀ j, a_desc ar = Some j → is_Some (ds !! j)) as Hdesc by (intros j [= <-]; eauto).
  pose proof (arena_fresh _ _ A ls s a 1 ar p' I Hal ltac:(lia) eq_refl eq_refl Hdesc) as Hfr.
  assert (∀ e, e ∈ blocks_of a d → A !! e = None) as Hnew
    by (intros e; by eapply (new_arena_blocks_free A ls s a 1 ar i d p' e)).
  apply (inv_add _ _ A ls s a 1 ar p' I Hal ltac:(lia) eq_refl eq_refl Hdesc); [done|by eapply ls_addr_insert|..].
  - intros p c Hp. destruct (mi_live _ _ _ _ _ I _ _ Hp) as [b Hs]. exists b. by apply slot_mono.
  - intros b br [[<- <-]|[_ Hb]]%lookup_insert_Some Hn; [done|by eapply mi_big].
  - intros b br j dj [[<- <-]|[_ Hb]]%lookup_insert_Some Hj Hdj; [|by eapply mi_cnt].
    injection Hj as <-. assert (dj = d) as -> by congruence. cbn [free_cnt ar]. unfold free_blocks.
    rewrite filter_all by done. destruct (blocks_length a d (ds_lookup_ok _ _ _ Hd)) as [-> _]. done.
  - intros j l ys dj e [(-> & [= <- <-] & _)|[Hne Hj]]%list_lookup_insert_Some Hdj.
    + assert (dj = d) as -> by congruence. split.
      * intros He. exists a, ar. rewrite lookup_insert_eq. split_and!; [done..|by apply Hnew].
      * intros (b & br & [[<- <-]|[_ Hb]]%lookup_insert_Some & Hj & Hin & HA); [done|].
        assert (e ∈ @nil Z) as He by (apply (mi_free _ _ _ _ _ I _ _ _ _ e Hls Hd); eauto 10). by apply elem_of_nil in He.
    + rewrite (mi_free _ _ _ _ _ I _ _ _ _ e Hj Hdj). split.
      * intros (b & br & Hb & ? & ? & ?). exists b, br. split_and!; [|done..]. rewrite lookup_insert_ne; [done|congruence].
      * intros (b & br & [[<- <-]|[_ Hb]]%lookup_insert_Some & Hj' & ? & ?); [by injection Hj' as ->|eauto 10].
Qed.

(** [refill]: afterwards the list has a block [b], in memory nothing has changed, and every
    arena has a live block or is the one of [b]. *)
Lemma refill_run A ls s i d :
  malloc_inv A ls s → busy A s → ds !! i = Some d →
  (refill i d s = Ret (false, s) ∧ exhausted 0 1 (pm s)) ∨
  (∃ s' ls' b xs, refill i d s = Ret (true, s') ∧ malloc_inv A ls' s' ∧ ls' !! i = Some (free_list d, b :: xs) ∧
     (∀ q, words (pm s') q = words (pm s) q) ∧
     ∀ a ar j dj, arenas s' !! a = Some ar → a_desc ar = Some j → ds !! j = Some dj →
       (∃ b', b' ∈ blocks_of a dj ∧ is_Some (A !! b')) ∨ b ∈ blocks_of a dj).
Proof using Hst.
  intros I Hbusy Hd. destruct (ls_lookup _ _ _ _ _ _ _ I Hd) as [xs Hls]. unfold refill.
  pose proof (mi_lists _ _ _ _ _ I) as Hl. destruct (ls_focus ls i _ xs xs Hls) as [Hp _]. rewrite Hp in Hl.
  pose proof Hl as (Hl0 & _ & _)%lists_cons. rewrite (bind_Ret _ _ _ (bool_decide (xs = [])) s).
  2:{ rewrite (on_cells_run _ s _ _ (list_empty_run _ _ _ Hl0)). by destruct s. }
  destruct xs as [|b xs].
  2:{ rewrite bool_decide_eq_false_2 by done. right. exists s, ls, b, xs. split_and!; [done..|].
      intros a ar j dj Ha Hj Hdj. left. by eapply Hbusy. }
  rewrite bool_decide_eq_true_2 by done.
  destruct (palloc_get_run (pm s) 0 1 (mi_pm _ _ _ _ _ I) ltac:(lia)) as [(a & p' & Hr & Hal)|[Hex Hr]].
  - right. run_step (on_pages_run (palloc_get_page 0) s _ _ Hr). pose proof (al_kpage _ _ _ _ _ Hal) as Hk.
    rewrite bool_decide_eq_false_2 by (destruct Hk; unfold NULL, PHYS_BASE in *; lia).
    set (ar := Arena ARENA_MAGIC (Some i) (blocks_per_arena d)).
    set (s1 := set_arenas (<[a := ar]> (arenas s)) (set_pm p' s)). rewrite (bind_Ret _ _ _ tt s1) by done.
    pose proof (ds_lookup_ok _ _ _ Hd) as Hdok. pose proof (do_cnt _ Hdok) as Hcnt.
    destruct (add_blocks_run descs_at a ar i d eq_refl eq_refl Hd Hk ltac:(pose proof (al_end _ _ _ _ _ Hal); lia)
      (Z.to_nat (blocks_per_arena d)) 0 (free_list d) [] (delete i ls) s1) as (h' & Hr2 & Hl2);
      [exact (mi_descs _ _ _ _ _ I)|apply lookup_insert_eq|lia|exact Hl| |].
    { intros j Hj Hin. rewrite <- Hp in Hin. eapply (new_arena_not_listed A ls s a 1 ar i d p'); [done..| |exact Hin].
      apply elem_of_blocks. exists j. split; [done|lia]. }
    run_step Hr2. cbn [app] in Hl2. fold (blocks_of a d) in Hl2.
    destruct (ls_focus ls i _ [] (blocks_of a d) Hls) as [_ Hp']. rewrite <- Hp' in Hl2.
    destruct (blocks_of a d) as [|b ys] eqn:Hbl.
    { destruct (blocks_length a d Hdok) as [Hz _]. rewrite Hbl in Hz. simpl in Hz. lia. }
    rewrite <- Hbl in Hl2. exists (set_cells h' s1), (<[i := (free_list d, blocks_of a d)]> ls), b, ys. split_and!.
    + done.
    + exact (inv_new_arena A ls s i d a p' h' I Hd Hls Hal Hl2).
    + rewrite Hbl. apply list_lookup_insert_eq. by eapply lookup_lt_Some.
    + intros q. cbn. rewrite (al_words _ _ _ _ _ Hal). by rewrite decide_False by naive_solver.
    + change (arenas (set_cells h' s1)) with (<[a := ar]> (arenas s)).
      intros a' ar' j dj [[<- <-]|[_ Ha']]%lookup_insert_Some Hj Hdj; [right|left; by eapply Hbusy].
      injection Hj as <-. assert (dj = d) as -> by congruence. rewrite Hbl. apply list_elem_of_here.
  - left. split; [|done]. assert (palloc_get_page 0 (pm s) = Ret (0, pm s)) as Hr' by exact Hr.
    run_step (on_pages_run _ s _ _ Hr'). by destruct s.
Qed.

(** A block is taken off the front of a list that has one. *)
Definition take_front (d : desc) : M mstate Z :=
  b ← on_list (list_pop_front (free_list d));
  to_words b;;
  a ← block_to_arena b;
  ar ← get_arena a;
  put_arena a (Arena (magic ar) (a_desc ar) (u32 (free_cnt ar - 1)));;
  mret b.

Lemma take_front_run A ls s i d b xs :
  malloc_inv A ls s → ds !! i = Some d → ls !! i = Some (free_list d, b :: xs) →
  ∃ s' ls', take_front d s = Ret (b, s') ∧ A !! b = None ∧ malloc_inv (<[b := d_block_size d]> A) ls' s' ∧
    keeps A s s' ∧ ∀ a ar, arenas s' !! a = Some ar → ∃ ar', arenas s !! a = Some ar' ∧ a_desc ar' = a_desc ar.
Proof using Hst.
  intros I Hd Hls. pose proof (mi_lists _ _ _ _ _ I) as Hl. destruct (ls_focus ls i _ (b :: xs) xs Hls) as [Hp Hp'].
  rewrite Hp in Hl. destruct (lists_pop _ _ _ _ _ Hl) as (h1 & Hr1 & Hc1 & Hl1).
  assert (valid (cells s) b) as Hv by (eapply lists_valid; [exact Hl|rewrite footprints_cons; unfold footprint; set_solver]).
  assert (b ∉ footprints ((free_list d, xs) :: delete i ls)) as Hnb.
  { destruct Hl as [_ Hnd]. pose proof (footprint_insert (free_list d) [] b xs) as Hfp. cbn [app] in Hfp.
    rewrite footprints_cons, Hfp in Hnd. cbn [app] in Hnd. by apply NoDup_cons in Hnd as [? _]. }
  destruct (proj1 (mi_free _ _ _ _ _ I _ _ _ _ b Hls Hd) ltac:(apply list_elem_of_here)) as (a & ar & Ha & Har & Hb & HA).
  assert (slot ds (arenas s) a b (d_block_size d)) as Hslot by (exists ar; rewrite Har; eauto).
  pose proof (mi_pm _ _ _ _ _ I) as [_ _ Hw].
  destruct (to_words_run (set_cells h1 s) b (proj2 (proj1 Hc1 b) Hv) Hw) as (m' & Hr2 & Ho & Hw').
  assert (lists (delete b h1) (<[i := (free_list d, xs)]> ls)) as Hl2.
  { rewrite Hp'. eapply lists_ext; [exact Hl1|]. intros q Hq. rewrite lookup_delete_ne; [done|]. by intros <-. }
  pose proof (inv_take descs_at pm0 A ls s i d a ar b xs I Hd Ha Har Hb (delete b h1) m' Hls HA Hl2 Hw') as I'.
  eexists _, _. split; [|split_and!; [exact HA|exact I'| |]].
  - unfold take_front. run_step (on_cells_run _ s _ _ Hr1). run_step Hr2.
    set (s2 := with_words _ _).
    rewrite (bind_Ret _ _ _ a s2); [|eapply (block_to_arena_run descs_at); [exact (mi_descs _ _ _ _ _ I)|exact (mi_arenas _ _ _ _ _ I)|exact Hslot]].
    rewrite (bind_Ret _ _ _ ar s2); [|unfold get_arena, gets_opt; cbn; by rewrite Ha]. reflexivity.
  - intros p c q Hpc Hq. cbn. apply Ho. destruct (mi_live _ _ _ _ _ I _ _ Hpc) as [a' Hs'].
    pose proof (do_size _ (ds_lookup_ok _ _ _ Hd)).
    destruct (slot_apart _ _ _ _ _ _ _ _ (ds_ok descs_at) (mi_arenas _ _ _ _ _ I) Hslot Hs') as [(_ & -> & _)|[_ ?]]; [congruence|lia].
  - intros a' ar'. cbn [set_arenas arenas]. intros [[<- <-]|[_ Ha']]%lookup_insert_Some; [by exists ar|by exists ar'].
Qed.

(** What [malloc (size)] owes its caller. *)
Definition malloc_post (A : gmap Z Z) (s : mstate) (size r : Z) (s' : mstate) : Prop :=
  (r = NULL ∧ s' = s ∧
     (size = 0 ∨ 2 ^ 32 ≤ size + 4107 ∨ exhausted 0 (if bool_decide (size ≤ 1024) then 1 else (size + 4107) `div` 4096) (pm s))) ∨
  (∃ c ls', r ≠ NULL ∧ 0 < c ∧ (size + 4107 < 2 ^ 32 → size ≤ c) ∧ A !! r = None ∧
     malloc_inv (<[r := c]> A) ls' s' ∧ busy (<[r := c]> A) s' ∧ keeps A s s').

Lemma find_desc_Some i0 dl size i :
  find_desc i0 dl size = Some i → ∃ d, (i0 ≤ i)%nat ∧ dl !! (i - i0)%nat = Some d ∧ size ≤ d_block_size d.
Proof.
  revert i0. induction dl as [|d dl IH]; intros i0 Hf; cbn [find_desc] in Hf; [done|].
  case_bool_decide.
  - injection Hf as <-. exists d. rewrite Nat.sub_diag. done.
  - destruct (IH _ Hf) as (d' & Hle & Hl & Hs). exists d'. split_and!; [lia| |done].
    by replace (i - i0)%nat with (S (i - S i0)) by lia.
Qed.

Lemma find_desc_None i0 dl size d : find_desc i0 dl size = None → d ∈ dl → d_block_size d < size.
Proof.
  revert i0. induction dl as [|d' dl IH]; intros i0 Hf Hd; cbn [find_desc] in Hf; [by apply elem_of_nil in Hd|].
  case_bool_decide; [done|]. apply elem_of_cons in Hd as [->|Hd]; [lia|by eapply IH].
Qed.

Lemma block_not_null A ls s a p c : malloc_inv A ls s → slot ds (arenas s) a p c → p ≠ NULL ∧ 0 < c.
Proof using Hst.
  intros I Hs. destruct (slot_base _ _ _ _ _ _ _ _ Hst I Hs). destruct Hst as (? & _).
  destruct (slot_inside _ _ _ _ _ (ds_ok descs_at) (mi_arenas _ _ _ _ _ I) Hs) as (? & _ & _ & _ & ? & _). unfold NULL. split; [lia|done].
Qed.

Lemma malloc_small_run A ls s size i :
  malloc_inv A ls s → busy A s → size ≠ 0 → find_desc 0 ds size = Some i →
  ∃ r s', malloc size s = Ret (r, s') ∧ malloc_post A s size r s'.
Proof using Hst.
  intros I Hb Hsz Hf. destruct (find_desc_Some _ _ _ _ Hf) as (d & _ & Hd & Hle). rewrite Nat.sub_0_r in Hd.
  unfold malloc. rewrite bool_decide_eq_false_2 by done. rewrite (bind_Ret _ _ _ ds s) by (unfold gets; by rewrite (mi_descs _ _ _ _ _ I)).
  rewrite Hf. rewrite (bind_Ret _ _ _ d s) by (unfold get_desc, gets_opt; by rewrite (mi_descs _ _ _ _ _ I), Hd).
  pose proof (do_size _ (ds_lookup_ok _ _ _ Hd)).
  destruct (refill_run A ls s i d I Hb Hd) as [[Hr Hex]|(s1 & ls1 & b & xs & Hr & I1 & Hls1 & Hw1 & Hb1)]; run_step Hr.
  - exists NULL, s. split; [done|]. left. rewrite bool_decide_eq_true_2 by lia. tauto.
  - destruct (take_front_run A ls1 s1 i d b xs I1 Hd Hls1) as (s2 & ls2 & Hr2 & HA & I2 & Hk & Hback).
    exists b, s2. split; [exact Hr2|]. right. exists (d_block_size d), ls2.
    assert (∃ a, slot ds (arenas s2) a b (d_block_size d)) as [a Hs] by (eapply (mi_live _ _ _ _ _ I2), lookup_insert_eq).
    split_and!; [by eapply block_not_null|lia|done|done|done| |].
    + intros a' ar' j dj Ha' Hj Hdj. destruct (Hback _ _ Ha') as (ar0 & Ha0 & Hd0). rewrite Hj in Hd0.
      destruct (Hb1 _ _ _ _ Ha0 Hd0 Hdj) as [(b' & Hb' & [c' Hc'])|Hin].
      * exists b'. split; [done|]. apply lookup_insert_is_Some. destruct (decide (b = b')); [by left|right; eauto].
      * exists b. split; [done|]. by rewrite lookup_insert_eq.
    + intros p c q Hp Hq. rewrite (Hk p c q Hp Hq). apply Hw1.
Qed.

(** ** [malloc], big blocks *)

Lemma page_cnt_spec size :
  0 ≤ size < 2 ^ 32 →
  let cnt := DIV_ROUND_UP (u32 (size + ARENA_SIZE)) PGSIZE in
  0 ≤ cnt ∧ (size + 4107 < 2 ^ 32 → cnt = (size + 4107) `div` 4096 ∧ 0 < cnt).
Proof.
  intros Hs. unfold DIV_ROUND_UP. change PGSIZE with 4096. unfold ARENA_SIZE. split.
  - apply Z.div_pos; [|lia]. apply uwrap_range. lia.
  - intros Hlt. rewrite (uwrap_id 32 (size + 12)), uwrap_id by lia.
    replace (size + 12 + 4096 - 1) with (size + 4107) by lia. split; [done|]. Z.div_mod_to_equations. lia.
Qed.

Lemma inv_new_big A ls s a n p' :
  malloc_inv A ls s → busy A s → allocated 0 n a (pm s) p' → 0 < n →
  let s' := MState p' (cells s) (<[a := Arena ARENA_MAGIC None n]> (arenas s)) (descs s) in
  let p := a + ARENA_SIZE in let c := 4096 * n - ARENA_SIZE in
  A !! p = None ∧ malloc_inv (<[p := c]> A) ls s' ∧ busy (<[p := c]> A) s' ∧ keeps A s s'.
Proof.
  intros I Hbusy Hal Hn s' p c. set (ar := Arena ARENA_MAGIC None n) in *.
  assert (∀ j, a_desc ar = Some j → is_Some (ds !! j)) as Hdesc by done.
  pose proof (arena_fresh _ _ A ls s a n ar p' I Hal Hn eq_refl eq_refl Hdesc) as Hfr.
  pose proof (arenas_add_ok _ _ A ls s a n ar p' I Hal Hn eq_refl eq_refl Hdesc) as Hok.
  assert (slot ds (<[a := ar]> (arenas s)) a p c) as Hs by (exists ar; by rewrite lookup_insert_eq).
  assert (∀ b c', slot ds (arenas s) b p c' → False) as Hno.
  { intros b c' Hs'. destruct (slot_apart _ _ _ _ _ _ _ _ (ds_ok descs_at) Hok Hs (slot_mono _ a ar _ _ _ Hfr Hs')) as [(-> & _)|[? _]]; [|done].
    destruct Hs' as (br & Hb & _). congruence. }
  assert (∀ b br i d, arenas s !! b = Some br → a_desc br = Some i → ds !! i = Some d → p ∉ blocks_of b d) as Hnob.
  { intros b br i d Hb Hi Hd Hin. apply (Hno b (d_block_size d)). exists br. rewrite Hi. eauto. }
  assert (A !! p = None) as HA.
  { destruct (A !! p) as [c'|] eqn:HA; [|done]. destruct (mi_live _ _ _ _ _ I _ _ HA) as [b Hs']. by destruct (Hno b c'). }
  split_and!; [done| | |].
  - apply (inv_add _ _ A ls s a n ar p' I Hal Hn eq_refl eq_refl Hdesc); [exact (mi_lists _ _ _ _ _ I)|done|..].
    + intros q c' [[<- <-]|[_ Hq]]%lookup_insert_Some; [by exists a|]. destruct (mi_live _ _ _ _ _ I _ _ Hq) as [b Hs']. exists b. by apply slot_mono.
    + intros b br [[<- <-]|[_ Hb]]%lookup_insert_Some Hnone; [by rewrite lookup_insert_eq|].
      apply lookup_insert_is_Some. destruct (decide (p = b + ARENA_SIZE)); [by left|right; split; [done|by eapply mi_big]].
    + intros b br i d [[<- <-]|[_ Hb]]%lookup_insert_Some Hi Hd; [done|]. rewrite (mi_cnt _ _ _ _ _ I _ _ _ _ Hb Hi Hd).
      unfold free_blocks. rewrite filter_live_notin; [done|by eapply Hnob].
    + intros i l xs d e Hls Hd. rewrite (mi_free _ _ _ _ _ I _ _ _ _ e Hls Hd). split.
      * intros (b & br & Hb & Hi & Hin & HAe). exists b, br. split_and!; [rewrite lookup_insert_ne; [done|congruence]|done|done|].
        rewrite lookup_insert_ne; [done|]. intros <-. by eapply Hnob.
      * intros (b & br & [[<- <-]|[_ Hb]]%lookup_insert_Some & Hi & Hin & [HAe _]%lookup_insert_None); [done|eauto 10].
  - intros b br i d. cbn [arenas s']. intros [[<- <-]|[_ Hb]]%lookup_insert_Some Hi Hd; [done|]. destruct (Hbusy _ _ _ _ Hb Hi Hd) as (b' & Hb' & Hs').
    exists b'. split; [done|]. apply lookup_insert_is_Some. destruct (decide (p = b')); [by left|by right].
  - intros q c' q' Hq Hr. cbn. rewrite (al_words _ _ _ _ _ Hal). by rewrite decide_False by naive_solver.
Qed.

Lemma malloc_big_run A ls s size :
  malloc_inv A ls s → busy A s → 0 ≤ size < 2 ^ 32 → size ≠ 0 → find_desc 0 ds size = None →
  ∃ r s', malloc size s = Ret (r, s') ∧ malloc_post A s size r s'.
Proof using Hst.
  intros I Hb Hu Hsz Hf. destruct (page_cnt_spec size Hu) as [Hc0 Hc]. cbn zeta in *.
  assert (1024 < size) as Hbig by (apply (find_desc_None _ _ _ (Desc 1024 3 (descs_at + 48 * 6 + 8)) Hf); unfold the_descs; cbn; set_solver).
  unfold malloc. rewrite bool_decide_eq_false_2 by done. rewrite (bind_Ret _ _ _ ds s) by (unfold gets; by rewrite (mi_descs _ _ _ _ _ I)).
  rewrite Hf. set (cnt := DIV_ROUND_UP _ _) in *. destruct (decide (cnt = 0)) as [Hz|Hnz].
  { exists NULL, s. rewrite Hz. split.
    - rewrite (bind_Ret _ _ _ 0 s); [done|]. rewrite (on_pages_run _ s 0 (pm s)) by done. by destruct s.
    - left. split_and!; [done|done|]. right. left. destruct (decide (size + 4107 < 2 ^ 32)); lia. }
  destruct (palloc_get_run (pm s) 0 cnt (mi_pm _ _ _ _ _ I) ltac:(lia)) as [(a & p' & Hr & Hal)|[Hex Hr]].
  - run_step (on_pages_run _ s _ _ Hr). pose proof (al_kpage _ _ _ _ _ Hal) as [_ Hk]. pose proof (al_end _ _ _ _ _ Hal) as He.
    unfold PHYS_BASE in Hk. rewrite bool_decide_eq_false_2 by (unfold NULL; lia).
    destruct (inv_new_big A ls s a cnt p' I Hb Hal ltac:(lia)) as (HA & I' & Hb' & Hkeep).
    eexists _, _. split; [reflexivity|]. right. exists (4096 * cnt - ARENA_SIZE), ls.
    rewrite uwrap_id by (unfold ARENA_SIZE; lia). split_and!; [unfold NULL, ARENA_SIZE; lia|unfold ARENA_SIZE; lia| |done|exact I'|exact Hb'|exact Hkeep].
    intros Hlt. destruct (Hc Hlt) as [-> _]. unfold ARENA_SIZE. Z.div_mod_to_equations. lia.
  - exists NULL, s. split.
    + change (has_flag 0 PAL_ASSERT) with false in Hr. cbn beta iota in Hr.
      rewrite (bind_Ret _ _ _ 0 s); [done|]. rewrite (on_pages_run _ s _ _ Hr). by destruct s.
    + left. split_and!; [done|done|]. rewrite bool_decide_eq_false_2 by lia. destruct (decide (size + 4107 < 2 ^ 32)) as [Hlt|]; [|lia].
      destruct (Hc Hlt) as [Hcnt _]. rewrite <- Hcnt. tauto.
Qed.

Lemma malloc_any_run A ls s size :
  malloc_inv A ls s → busy A s → 0 ≤ size < 2 ^ 32 → ∃ r s', malloc size s = Ret (r, s') ∧ malloc_post A s size r s'.
Proof using Hst.
  intros I Hb Hu. destruct (decide (size = 0)) as [->|Hnz].
  - exists NULL, s. split; [done|]. left. tauto.
  - destruct (find_desc 0 ds size) as [i|] eqn:Hf; [by eapply malloc_small_run|by eapply malloc_big_run].
Qed.
End run.
