(* ===== verification/MallocFree.v ===== *)
(** * MallocFree: [free], [block_size], [calloc] and [realloc] on the invariant *)

From S2P Require Import Prelude Links KList KListFacts KListSet Bitmap Vaddr Palloc Malloc MallocInv MallocOps MallocArena MallocRun.

Lemma filter_short {A} (P : A → Prop) `{!∀ x, Decision (P x)} (l : list A) :
  (length (filter P l) < length l)%nat → ∃ x, x ∈ l ∧ ¬ P x.
Proof.
  induction l as [|x l IH]; [simpl; lia|]. destruct (decide (P x)) as [HP|HP].
  - rewrite filter_cons_True by done. simpl. intros Hlt. destruct IH as (y & ? & ?); [lia|]. exists y. set_solver.
  - intros _. exists x. set_solver.
Qed.

Lemma filter_full {A} (P : A → Prop) `{!∀ x, Decision (P x)} (l : list A) :
  (length l ≤ length (filter P l))%nat → ∀ x, x ∈ l → P x.
Proof.
  intros Hle x Hx. destruct (decide (P x)) as [|HP]; [done|]. exfalso. apply list_elem_of_split in Hx as (l1 & l2 & ->).
  rewrite filter_app, filter_cons_False, !length_app in Hle by done. simpl in Hle.
  pose proof (length_filter P l1). pose proof (length_filter P l2). lia.
Qed.

Section free.
Context (descs_at : Z) (pm0 : pmem) (Hst : static_ok descs_at pm0).
Abbreviation ds := (the_descs descs_at).
Abbreviation malloc_inv := (malloc_inv descs_at pm0).
Abbreviation busy := (busy descs_at).

(** ** Dissolving an arena *)

Definition dissolve (a : Z) (d : desc) : M mstate unit :=
  remove_blocks (Z.to_nat (blocks_per_arena d)) a 0;;
  on_pages (palloc_free_page a);;
  drop_arena a.

Lemma inv_dissolve A ls s i d a ar xs' p' h :
  malloc_inv A ls s → arenas s !! a = Some ar → a_desc ar = Some i → ds !! i = Some d →
  (∀ b, b ∈ blocks_of a d → A !! b = None) → freed false 1 a (pm s) p' →
  (∀ xs, ls !! i = Some (free_list d, xs) → ∀ e, e ∈ xs' ↔ e ∈ xs ∧ e ∉ blocks_of a d) →
  lists h (<[i := (free_list d, xs')]> ls) →
  malloc_inv A (<[i := (free_list d, xs')]> ls) (MState p' h (delete a (arenas s)) (descs s)).
Proof.
  intros I Ha Hi Hd Hall Hfr Hx Hh. destruct (ls_lookup _ _ _ _ _ _ _ I Hd) as [xs Hls]. specialize (Hx xs Hls).
  assert (apages ar = 1) as Hap by (unfold apages; by rewrite Hi).
  eapply (inv_del descs_at pm0 A ls s a ar p'); [done|done|by rewrite Hap|done|by eapply ls_addr_insert|..].
  - intros p c Hp. destruct (mi_live _ _ _ _ _ I _ _ Hp) as [b Hs]. exists b. destruct Hs as (br & Hb & Hs). exists br. split; [|done].
    rewrite lookup_delete_ne; [done|]. intros <-. assert (br = ar) as -> by congruence. rewrite Hi in Hs. destruct Hs as (d' & Hd' & Hin & _).
    assert (d' = d) as -> by congruence. by rewrite Hall in Hp.
  - intros b br [_ Hb]%lookup_delete_Some. by eapply mi_big.
  - intros b br j dj [_ Hb]%lookup_delete_Some. by eapply mi_cnt.
  - intros j l ys dj e [(-> & [= <- <-] & _)|[Hne Hj]]%list_lookup_insert_Some Hdj.
    + assert (dj = d) as -> by congruence. rewrite Hx, (mi_free _ _ _ _ _ I _ _ _ _ e Hls Hd). split.
      * intros [(b & br & Hb & Hbi & Hin & HAe) Hout]. exists b, br. split_and!; [|done..]. rewrite lookup_delete_ne; [done|by intros <-].
      * intros (b & br & [Hne Hb]%lookup_delete_Some & Hbi & Hin & HAe). split; [eauto 10|]. intros Hin'.
        destruct (block_unique descs_at pm0 A ls s a ar j d b br j d e) as [? _]; done.
    + rewrite (mi_free _ _ _ _ _ I _ _ _ _ e Hj Hdj). split.
      * intros (b & br & Hb & Hbi & Hin & HAe). exists b, br. split_and!; [|done..]. rewrite lookup_delete_ne; [done|congruence].
      * intros (b & br & [_ Hb]%lookup_delete_Some & Hbi & Hin & HAe). eauto 10.
Qed.

Lemma dissolve_run A ls s i d a ar :
  malloc_inv A ls s → arenas s !! a = Some ar → a_desc ar = Some i → ds !! i = Some d →
  (∀ b, b ∈ blocks_of a d → A !! b = None) →
  ∃ s' ls', dissolve a d s = Ret (tt, s') ∧ malloc_inv A ls' s' ∧ arenas s' = delete a (arenas s) ∧
    same_off a (a + 4096) (words (pm s)) (words (pm s')).
Proof.
  intros I Ha Hi Hd Hall. destruct (ls_lookup _ _ _ _ _ _ _ I Hd) as [xs Hls].
  destruct (ao_page _ _ (mi_arenas _ _ _ _ _ I) _ _ Ha) as (Hk & _ & Hend).
  assert (apages ar = 1) as Hap by (unfold apages; by rewrite Hi). rewrite Hap in Hend.
  pose proof (mi_lists _ _ _ _ _ I) as Hl. destruct (ls_focus ls i _ xs xs Hls) as [Hp _]. rewrite Hp in Hl.
  pose proof (ds_lookup_ok _ _ _ Hd) as Hdok. pose proof (do_cnt _ Hdok). pose proof (mi_pm _ _ _ _ _ I) as [_ _ Hw].
  destruct (remove_blocks_run descs_at a ar i d (ao_magic _ _ (mi_arenas _ _ _ _ _ I) _ _ Ha) Hi Hd Hk ltac:(lia)
    (Z.to_nat (blocks_per_arena d)) 0 (free_list d) xs (delete i ls) s) as (h' & m' & xs' & Hr & Hl' & Hx & Ho & Hw');
    [exact (mi_descs _ _ _ _ _ I)|done|lia|exact Hl|done| |].
  { intros j Hj. apply (mi_free _ _ _ _ _ I _ _ _ _ _ Hls Hd). exists a, ar.
    assert (block_addr a d j ∈ blocks_of a d) as Hin by (apply elem_of_blocks; exists j; split; [done|lia]).
    split_and!; [done..|by apply Hall]. }
  set (s2 := with_words (λ _, m') s). assert (malloc_inv A ls s2) as I2 by (by apply inv_words).
  pose proof (arena_used _ _ A ls s2 a ar I2 Ha) as Hu. rewrite Hap in Hu.
  destruct (palloc_free_run (pm s2) false a 1 (mi_pm _ _ _ _ _ I2) ltac:(lia) Hu) as (p' & Hr2 & Hfr).
  destruct (ls_focus ls i _ xs xs' Hls) as [_ Hp']. rewrite <- Hp' in Hl'. fold (blocks_of a d) in Hx.
  eexists _, _. split; [|split; [eapply (inv_dissolve A ls s2 i d a ar xs' p' h' I2 Ha Hi Hd Hall Hfr); [|exact Hl']|split; [done|]]].
  - unfold dissolve. run_step Hr. run_step (on_pages_run (palloc_free_page a) (with_words (λ _, m') (set_cells h' s)) _ _ Hr2). reflexivity.
  - intros ys Hys. assert (ys = xs) as -> by congruence. exact Hx.
  - intros q Hq. cbn. rewrite (fr_words _ _ _ _ _ Hfr), decide_False by lia. by apply Ho.
Qed.

(** ** [free] *)

Lemma seq4_run (m1 m2 m3 m4 k : M mstate unit) s s1 :
  (m1;; m2;; m3;; m4) s = Ret (tt, s1) → (m1;; m2;; m3;; m4;; k) s = k s1.
Proof.
  unfold mbind, M_bind. destruct (m1 s) as [[[] s2]| |]; [|done..]. destruct (m2 s2) as [[[] s3]| |]; [|done..].
  destruct (m3 s3) as [[[] s4]| |]; [|done..]. by intros ->.
Qed.

Definition free_post (A : gmap Z Z) (s : mstate) (p : Z) (s' : mstate) : Prop :=
  ∃ ls', malloc_inv (delete p A) ls' s' ∧ busy (delete p A) s' ∧ keeps (delete p A) s s'.

(** An arena other than that of [p] keeps a live block when [p] is freed. *)
Lemma busy_others A ls s a ar i d p a' ar' i' d' :
  malloc_inv A ls s → busy A s → arenas s !! a = Some ar → a_desc ar = Some i → ds !! i = Some d → p ∈ blocks_of a d →
  a' ≠ a → arenas s !! a' = Some ar' → a_desc ar' = Some i' → ds !! i' = Some d' →
  ∃ b, b ∈ blocks_of a' d' ∧ is_Some (delete p A !! b).
Proof.
  intros I Hb Ha Hi Hd Hp Hne Ha' Hi' Hd'. destruct (Hb _ _ _ _ Ha' Hi' Hd') as (b & Hin & Hs). exists b. split; [done|].
  rewrite lookup_delete_ne; [done|]. intros ->. destruct (block_unique descs_at pm0 A ls s a ar i d a' ar' i' d' b); done.
Qed.

(** The block is on the free list again, and its arena counts it. *)
Lemma free_put A ls s i d a ar p c xs :
  malloc_inv A ls s → arenas s !! a = Some ar → a_desc ar = Some i → ds !! i = Some d → p ∈ blocks_of a d →
  A !! p = Some c → ls !! i = Some (free_list d, xs) →
  let cnt := u32 (free_cnt ar + 1) in
  ∃ s1, (memset_bytes p 204 (d_block_size d);; to_cell p;; on_list (list_push_front (free_list d) p);;
         put_arena a (Arena (magic ar) (a_desc ar) cnt)) s = Ret (tt, s1) ∧
    malloc_inv (delete p A) (<[i := (free_list d, p :: xs)]> ls) s1 ∧
    arenas s1 = <[a := Arena (magic ar) (a_desc ar) cnt]> (arenas s) ∧
    same_off p (p + d_block_size d) (words (pm s)) (words (pm s1)).
Proof using Hst.
  intros I Ha Hi Hd Hp HA Hls cnt. assert (slot ds (arenas s) a p (d_block_size d)) as Hs by (exists ar; rewrite Hi; eauto).
  pose proof (live_not_listed _ _ _ _ _ _ _ _ Hst I Hs ltac:(eauto)) as Hnl.
  destruct (block_not_null descs_at pm0 Hst A ls s a p _ I Hs) as [Hnn _].
  pose proof (mi_lists _ _ _ _ _ I) as Hl. destruct (ls_focus ls i _ xs (p :: xs) Hls) as [Hpm Hpm']. rewrite Hpm in Hl, Hnl.
  set (m' := fill_bytes p 204 (d_block_size d) (words (pm s))).
  set (s0 := with_words (fill_bytes p 204 (d_block_size d)) s).
  set (h0 := <[p := ListElem (words (pm s0) p) (words (pm s0) (p + 4))]> (cells s)).
  assert (lists h0 ((free_list d, xs) :: delete i ls)) as Hl0.
  { eapply lists_ext; [exact Hl|]. intros q Hq. unfold h0. rewrite lookup_insert_ne; [done|]. by intros <-. }
  assert (valid h0 p) as Hv0 by (apply valid_lookup; unfold h0; by rewrite lookup_insert_eq).
  destruct (lists_push _ _ _ _ _ Hl0 Hv0 Hnl) as (h1 & Hr1 & _ & Hl1). rewrite <- Hpm' in Hl1.
  pose proof (mi_pm _ _ _ _ _ I) as [_ _ Hw].
  assert (∀ q, is_u32 (m' q)) as Hm' by (intros q; by apply fill_bytes_u32).
  eexists. split; [|split; [exact (inv_put descs_at pm0 A ls s i d a ar p xs I Hd Ha Hi Hp h1 m' c Hls HA Hl1 Hm')|split; [done|]]].
  - rewrite (bind_Ret _ _ _ tt s0) by done. rewrite (bind_Ret _ _ _ tt (set_cells h0 s0)) by done.
    run_step (on_cells_run _ (set_cells h0 s0) _ _ Hr1). reflexivity.
  - apply fill_bytes_off.
Qed.

Lemma free_small A ls s i d a ar p c :
  malloc_inv A ls s → busy A s → arenas s !! a = Some ar → a_desc ar = Some i → ds !! i = Some d → p ∈ blocks_of a d →
  A !! p = Some c → ∃ s', free p s = Ret (tt, s') ∧ free_post A s p s'.
Proof using Hst.
  intros I Hb Ha Hi Hd Hp HA. assert (slot ds (arenas s) a p (d_block_size d)) as Hs by (exists ar; rewrite Hi; eauto).
  destruct (ls_lookup _ _ _ _ _ _ _ I Hd) as [xs Hls].
  destruct (free_put A ls s i d a ar p c xs I Ha Hi Hd Hp HA Hls) as (s1 & Hr1 & I1 & Har1 & Ho1).
  set (cnt := u32 (free_cnt ar + 1)) in *. set (ar1 := Arena (magic ar) (a_desc ar) cnt) in *.
  assert (arenas s1 !! a = Some ar1) as Ha1 by (rewrite Har1; apply lookup_insert_eq).
  pose proof (mi_cnt _ _ _ _ _ I1 a ar1 i d Ha1 Hi Hd) as Hcnt. cbn [free_cnt ar1] in Hcnt.
  pose proof (ds_lookup_ok _ _ _ Hd) as Hdok. destruct (blocks_length a d Hdok) as [Hlen _].
  pose proof (length_filter (λ b, delete p A !! b = None) (blocks_of a d)) as Hle. fold (free_blocks (delete p A) a d) in Hle.
  destruct (block_not_null descs_at pm0 Hst A ls s a p _ I Hs) as [Hnn _].
  assert (keeps (delete p A) s s1) as Hk1 by (by eapply keeps_off).
  assert (free p s = (if bool_decide (blocks_per_arena d ≤ cnt) then
      assert (bool_decide (cnt = blocks_per_arena d));; dissolve a d else mret tt) s1) as ->.
  { unfold free. rewrite bool_decide_eq_false_2 by done.
    rewrite (bind_Ret _ _ _ a s) by (eapply (block_to_arena_run descs_at); [exact (mi_descs _ _ _ _ _ I)|exact (mi_arenas _ _ _ _ _ I)|exact Hs]).
    rewrite (bind_Ret _ _ _ ar s) by (unfold get_arena, gets_opt; by rewrite Ha). rewrite Hi.
    rewrite (bind_Ret _ _ _ d s) by (unfold get_desc, gets_opt; by rewrite (mi_descs _ _ _ _ _ I), Hd).
    unfold ar1 in Hr1. rewrite Hi in Hr1. exact (seq4_run _ _ _ _ _ _ _ Hr1). }
  case_bool_decide as Hfull.
  - rewrite assert_bind by (apply bool_decide_eq_true_2; lia).
    destruct (dissolve_run (delete p A) _ s1 i d a ar1 I1 Ha1 Hi Hd) as (s2 & ls2 & Hr2 & I2 & Har2 & Ho2).
    { apply (filter_full (λ b, delete p A !! b = None)). fold (free_blocks (delete p A) a d). lia. }
    exists s2. split; [exact Hr2|]. exists ls2. split_and!; [done| |].
    + intros a' ar' i' d'. rewrite Har2, Har1, delete_insert_eq. intros [Hne Ha']%lookup_delete_Some Hi' Hd'. by eapply (busy_others A ls s a ar i d p).
    + intros p' c' q Hp' Hq. rewrite <- (Hk1 p' c' q Hp' Hq). apply Ho2.
      destruct (mi_live _ _ _ _ _ I2 _ _ Hp') as [a' Hs']. destruct (slot_inside _ _ _ _ _ (ds_ok descs_at) (mi_arenas _ _ _ _ _ I2) Hs') as (br & Hb' & H1 & H2 & _).
      rewrite Har2 in Hb'. apply lookup_delete_Some in Hb' as [Hne Hb']. unfold ARENA_SIZE in *.
      assert (apages ar1 = 1) by (unfold apages; cbn [a_desc ar1]; by rewrite Hi).
      destruct (ao_apart _ _ (mi_arenas _ _ _ _ _ I1) _ _ _ _ Ha1 Hb' Hne); lia.
  - exists s1. split; [done|]. eexists. split_and!; [exact I1| |done].
    intros a' ar' i' d'. rewrite Har1. intros [[<- <-]|[Hne Ha']]%lookup_insert_Some Hi' Hd'; [|by eapply (busy_others A ls s a ar i d p)].
    cbn [a_desc ar1] in Hi'. assert (d' = d) as -> by congruence.
    destruct (filter_short (λ b, delete p A !! b = None) (blocks_of a d)) as (b & Hin & HAb); [fold (free_blocks (delete p A) a d); lia|].
    exists b. split; [done|]. by apply not_eq_None_Some.
Qed.

Lemma free_big A ls s a ar c :
  malloc_inv A ls s → busy A s → arenas s !! a = Some ar → a_desc ar = None → A !! (a + ARENA_SIZE) = Some c →
  ∃ s', free (a + ARENA_SIZE) s = Ret (tt, s') ∧ free_post A s (a + ARENA_SIZE) s'.
Proof using Hst.
  intros I Hb Ha Hi HA. set (p := a + ARENA_SIZE) in *. pose proof (mi_arenas _ _ _ _ _ I) as Hok.
  assert (slot ds (arenas s) a p (4096 * free_cnt ar - ARENA_SIZE)) as Hs by (exists ar; by rewrite Hi).
  destruct (block_not_null descs_at pm0 Hst A ls s a p _ I Hs) as [Hnn _].
  assert (apages ar = free_cnt ar) as Hap by (unfold apages; by rewrite Hi).
  destruct (ao_page _ _ Hok _ _ Ha) as (_ & Hn & _). rewrite Hap in Hn.
  pose proof (arena_used _ _ A ls s a ar I Ha) as Hu. rewrite Hap in Hu.
  destruct (palloc_free_run (pm s) false a (free_cnt ar) (mi_pm _ _ _ _ _ I) Hn Hu) as (p' & Hr & Hfr).
  assert (∀ b q c', slot ds (arenas s) b q c' → q ≠ p → a ≠ b) as Hother.
  { intros b q c' (br & Hb' & Hs') Hne <-. assert (br = ar) as -> by congruence. rewrite Hi in Hs'. by destruct Hs' as [-> _]. }
  exists (MState p' (cells s) (delete a (arenas s)) (descs s)). split.
  { unfold free. rewrite bool_decide_eq_false_2 by done.
    rewrite (bind_Ret _ _ _ a s) by (eapply (block_to_arena_run descs_at); [exact (mi_descs _ _ _ _ _ I)|exact Hok|exact Hs]).
    rewrite (bind_Ret _ _ _ ar s) by (unfold get_arena, gets_opt; by rewrite Ha). rewrite Hi.
    by run_step (on_pages_run _ s _ _ Hr). }
  exists ls. split_and!.
  - eapply (inv_del descs_at pm0 A ls s a ar p'); [done|done|by rewrite Hap|exact (mi_lists _ _ _ _ _ I)|done|..].
    + intros q c' [Hne Hq]%lookup_delete_Some. destruct (mi_live _ _ _ _ _ I _ _ Hq) as [b Hs']. exists b.
      pose proof (Hother b q c' Hs' ltac:(congruence)) as Hab. destruct Hs' as (br & Hb' & Hs'). exists br. by rewrite lookup_delete_ne.
    + intros b br [Hne Hb']%lookup_delete_Some Hn'. rewrite lookup_delete_ne by (unfold p; lia). by eapply mi_big.
    + intros b br i d [Hne Hb']%lookup_delete_Some Hbi Hd. rewrite (mi_cnt _ _ _ _ _ I _ _ _ _ Hb' Hbi Hd). unfold free_blocks.
      rewrite <- (filter_live_notin (delete p A) p c), insert_delete_id; [done|done|]. intros Hin.
      assert (slot ds (arenas s) b p (d_block_size d)) as Hs' by (exists br; rewrite Hbi; eauto).
      destruct (slot_apart _ _ _ _ _ _ _ _ (ds_ok descs_at) Hok Hs Hs') as [(? & _)|[? _]]; done.
    + intros i l xs d e Hls Hd. rewrite (mi_free _ _ _ _ _ I _ _ _ _ e Hls Hd). split.
      * intros (b & br & Hb' & Hbi & Hin & HAe). exists b, br. split_and!; [rewrite lookup_delete_ne; [done|congruence]|done|done|].
        apply lookup_delete_None. by right.
      * intros (b & br & [Hne Hb']%lookup_delete_Some & Hbi & Hin & [<-|HAe]%lookup_delete_None); [|eauto 10]. exfalso.
        assert (slot ds (arenas s) b p (d_block_size d)) as Hs' by (exists br; rewrite Hbi; eauto).
        destruct (slot_apart _ _ _ _ _ _ _ _ (ds_ok descs_at) Hok Hs Hs') as [(? & _)|[? _]]; done.
  - intros b br i d. cbn [arenas]. intros [Hne Hb']%lookup_delete_Some Hbi Hd. destruct (Hb _ _ _ _ Hb' Hbi Hd) as (b' & Hin & Hs'). exists b'.
    split; [done|]. rewrite lookup_delete_ne; [done|]. intros <-.
    assert (slot ds (arenas s) b p (d_block_size d)) as Hs'' by (exists br; rewrite Hbi; eauto).
    destruct (slot_apart _ _ _ _ _ _ _ _ (ds_ok descs_at) Hok Hs Hs'') as [(? & _)|[? _]]; done.
  - intros q c' x [Hne Hq]%lookup_delete_Some Hx. cbn. rewrite (fr_words _ _ _ _ _ Hfr), decide_False; [done|].
    destruct (mi_live _ _ _ _ _ I _ _ Hq) as [b Hs']. pose proof (Hother b q c' Hs' ltac:(congruence)) as Hab.
    destruct (slot_inside _ _ _ _ _ (ds_ok descs_at) Hok Hs') as (br & Hb' & H1 & H2 & _). unfold ARENA_SIZE in *.
    destruct (ao_apart _ _ Hok _ _ _ _ Ha Hb' Hab); lia.
Qed.

Lemma free_run A ls s p c :
  malloc_inv A ls s → busy A s → A !! p = Some c → ∃ s', free p s = Ret (tt, s') ∧ free_post A s p s'.
Proof using Hst.
  intros I Hb HA. destruct (mi_live _ _ _ _ _ I _ _ HA) as (a & ar & Ha & Hs). destruct (a_desc ar) as [i|] eqn:Hi.
  - destruct Hs as (d & Hd & Hp & _). by eapply free_small.
  - destruct Hs as [-> _]. by eapply free_big.
Qed.

Lemma block_size_run A ls s p c : malloc_inv A ls s → A !! p = Some c → block_size p s = Ret (c, s).
Proof.
  intros I HA. destruct (mi_live _ _ _ _ _ I _ _ HA) as (a & Hs). pose proof Hs as (ar & Ha & Hs').
  destruct (slot_inside _ _ _ _ _ (ds_ok descs_at) (mi_arenas _ _ _ _ _ I) Hs) as (ar' & Ha' & Hlo & Hhi & Hc & _).
  destruct (ao_page _ _ (mi_arenas _ _ _ _ _ I) _ _ Ha) as ([Hal Hk] & _ & Hend). unfold PHYS_BASE in Hk.
  unfold block_size. rewrite (bind_Ret _ _ _ a s) by (eapply (block_to_arena_run descs_at); [exact (mi_descs _ _ _ _ _ I)|exact (mi_arenas _ _ _ _ _ I)|exact Hs]).
  rewrite (bind_Ret _ _ _ ar s) by (unfold get_arena, gets_opt; by rewrite Ha). assert (ar' = ar) as -> by congruence.
  destruct (a_desc ar) as [i|] eqn:Hi.
  - destruct Hs' as (d & Hd & _ & ->). by rewrite (bind_Ret _ _ _ d s) by (unfold get_desc, gets_opt; by rewrite (mi_descs _ _ _ _ _ I), Hd).
  - destruct Hs' as [-> ->]. unfold apages in *. rewrite Hi in *. unfold mret, M_ret. do 2 f_equal. rewrite pg_ofs_mod. change PGSIZE with 4096.
    unfold ARENA_SIZE in *. replace ((a + 12) `mod` 4096) with 12 by (Z.div_mod_to_equations; lia). apply uwrap_id. lia.
Qed.
End free.
