(* ===== verification/MallocSpec.v ===== *)
(** * MallocSpec: what the block allocator promises

    The client's view is a map from the live blocks to their requested sizes and the
    bytes of memory.  [malloc_reach] are the states after initialisation and any calls a
    well-behaved client may make, writes to its own blocks included; in each of them every
    call returns with the result its comment promises. *)

From S2P Require Import Prelude Links KList KListFacts KListSet Bitmap Vaddr Palloc Malloc MallocInv MallocOps MallocArena MallocRun MallocFree.

(** ** Bytes of the word memory *)

Definition byte_at (m : Z → Z) (x : Z) : Z := (m (x - x `mod` 4) `div` 256 ^ (x `mod` 4)) `mod` 256.

Definition store_byte (x v : Z) (m : Z → Z) (q : Z) : Z :=
  if bool_decide (q = x - x `mod` 4) then m q + (v - byte_at m x) * 256 ^ (x `mod` 4) else m q.

(** A number below four, case by case. *)
Ltac four o := let H := fresh in assert (o = 0 ∨ o = 1 ∨ o = 2 ∨ o = 3) as H by lia; destruct H as [->|[->|[->| ->]]].

Lemma low_bytes_byte k o v old :
  0 ≤ k ≤ 4 → 0 ≤ o < 4 →
  (low_bytes k v old `div` 256 ^ o) `mod` 256 = ((if bool_decide (o < k) then v else old) `div` 256 ^ o) `mod` 256.
Proof.
  intros Hk Ho. unfold low_bytes. assert (k = 4 ∨ 0 ≤ k < 4) as [->|Hk'] by lia; [|four k]; four o;
    cbn [bool_decide]; rewrite ?bool_decide_eq_true_2, ?bool_decide_eq_false_2 by lia;
    cbn [Z.pow Z.pow_pos Pos.iter Z.mul Pos.mul]; Z.div_mod_to_equations; lia.
Qed.

Lemma byte_fill p v n m x :
  p `mod` 4 = 0 → 0 ≤ v < 256 → p ≤ x < p + n → byte_at (fill_bytes p v n m) x = v.
Proof.
  intros Hp Hv Hx. unfold byte_at, fill_bytes. pose proof (Z.mod_pos_bound x 4 ltac:(lia)).
  rewrite bool_decide_eq_true_2 by (Z.div_mod_to_equations; lia). rewrite low_bytes_byte by lia.
  rewrite bool_decide_eq_true_2 by lia. set (o := x `mod` 4) in *. clearbody o. four o; cbn [Z.pow Z.pow_pos Pos.iter Z.mul Pos.mul]; Z.div_mod_to_equations; lia.
Qed.

Lemma byte_copy d s n m x :
  d `mod` 4 = 0 → s `mod` 4 = 0 → d ≤ x < d + n → byte_at (copy_bytes d s n m) x = byte_at m (s + (x - d)).
Proof.
  intros Hd Hs Hx. unfold byte_at, copy_bytes. pose proof (Z.mod_pos_bound x 4 ltac:(lia)).
  rewrite bool_decide_eq_true_2 by (Z.div_mod_to_equations; lia). rewrite low_bytes_byte by lia.
  rewrite bool_decide_eq_true_2 by lia.
  assert ((s + (x - d)) `mod` 4 = x `mod` 4) as -> by (Z.div_mod_to_equations; lia).
  by replace (s + (x - d) - x `mod` 4) with (s + (x - x `mod` 4 - d)) by lia.
Qed.

Lemma store_byte_u32 x v m q : 0 ≤ v < 256 → (∀ q, is_u32 (m q)) → is_u32 (store_byte x v m q).
Proof.
  intros Hv Hm. unfold store_byte. case_bool_decide as Hq; [|done]. rewrite Hq. unfold byte_at.
  pose proof (Hm (x - x `mod` 4)) as Hw. pose proof (Z.mod_pos_bound x 4 ltac:(lia)) as Ho.
  generalize dependent (m (x - x `mod` 4)). intros w Hw. set (o := x `mod` 4) in *. clearbody o. unfold is_u32 in *. clear Hm Hq.
  four o; cbn [Z.pow Z.pow_pos Pos.iter Z.mul Pos.mul]; Z.div_mod_to_equations; lia.
Qed.

(** ** Calls of a client *)

Inductive mop :=
| OMalloc (n : Z)
| OCalloc (a b : Z)
| ORealloc (p n : Z)
| OFree (p : Z)
| OWrite (x v : Z).

Definition exec_mop (op : mop) : M mstate Z :=
  match op with
  | OMalloc n => malloc n
  | OCalloc a b => calloc a b
  | ORealloc p n => realloc p n
  | OFree p => free p;; mret 0
  | OWrite x v => modify (with_words (store_byte x v));; mret 0
  end.

(** Sizes for which [size + sizeof (struct arena)], rounded up to pages, does not wrap. *)
Definition size_ok (n : Z) : Prop := 0 ≤ n ∧ n + 4107 < 2 ^ 32.

(** What a client may do: free or resize its own blocks, write inside them. *)
Definition op_ok (A : gmap Z Z) (op : mop) : Prop :=
  match op with
  | OMalloc n => size_ok n
  | OCalloc a b => 0 ≤ a < 2 ^ 32 ∧ 0 ≤ b < 2 ^ 32 ∧ size_ok (u32 (a * b))
  | ORealloc p n => size_ok n ∧ (p = NULL ∨ is_Some (A !! p))
  | OFree p => p = NULL ∨ is_Some (A !! p)
  | OWrite x v => 0 ≤ v < 256 ∧ ∃ p n, A !! p = Some n ∧ p ≤ x < p + n
  end.

(** The live blocks after a call that returned [r]. *)
Definition add_block (r n : Z) (A : gmap Z Z) : gmap Z Z := if bool_decide (r = NULL) then A else <[r := n]> A.

Definition next_blocks (op : mop) (r : Z) (A : gmap Z Z) : gmap Z Z :=
  match op with
  | OMalloc n => add_block r n A
  | OCalloc a b => add_block r (u32 (a * b)) A
  | ORealloc p n => if bool_decide (n = 0) then delete p A else if bool_decide (r = NULL) then A else <[r := n]> (delete p A)
  | OFree p => delete p A
  | OWrite _ _ => A
  end.

Section spec.
Context (descs_at : Z).

Inductive malloc_reach (s0 : mstate) : mstate → gmap Z Z → Prop :=
| mr_init s : malloc_init descs_at s0 = Ret (tt, s) → malloc_reach s0 s ∅
| mr_step s A op r s' :
    malloc_reach s0 s A → op_ok A op → exec_mop op s = Ret (r, s') → malloc_reach s0 s' (next_blocks op r A).
End spec.

(** The bytes of the blocks [A] are the same. *)
Definition kept (A : gmap Z Z) (s s' : mstate) : Prop :=
  ∀ p n x, A !! p = Some n → p ≤ x < p + n → byte_at (words (pm s')) x = byte_at (words (pm s)) x.

(** A block of [n] bytes at [r], apart from those of [A]. *)
Definition fresh_block (A : gmap Z Z) (r n : Z) : Prop :=
  r ≠ NULL ∧ r `mod` 4 = 0 ∧ ∀ p m, A !! p = Some m → p ≠ r ∧ (p + m ≤ r ∨ r + n ≤ p).

(** The page allocator has no run of pages for [n] bytes. *)
Definition no_memory (n : Z) (s : mstate) : Prop :=
  exhausted 0 (if bool_decide (n ≤ 1024) then 1 else (n + 4107) `div` 4096) (pm s).

Definition op_post (op : mop) (A : gmap Z Z) (s : mstate) (r : Z) (s' : mstate) : Prop :=
  match op with
  | OMalloc n => kept A s s' ∧ (r = NULL ∧ (n = 0 ∨ no_memory n s) ∨ fresh_block A r n)
  | OCalloc a b => let n := u32 (a * b) in
      kept A s s' ∧ (r = NULL ∧ (n < a ∨ n < b ∨ n = 0 ∨ no_memory n s) ∨
                     fresh_block A r n ∧ ∀ x, r ≤ x < r + n → byte_at (words (pm s')) x = 0)
  | ORealloc p n =>
      if bool_decide (n = 0) then r = NULL ∧ kept (delete p A) s s'
      else (r = NULL ∧ s' = s ∧ no_memory n s) ∨
           (fresh_block A r n ∧ kept (delete p A) s s' ∧
            ∀ m k, A !! p = Some m → 0 ≤ k < n → k < m → byte_at (words (pm s')) (r + k) = byte_at (words (pm s)) (p + k))
  | OFree p => kept (delete p A) s s'
  | OWrite x v => True
  end.

(** ** Proof *)

Section proof.
Context (descs_at : Z) (pm0 : pmem) (Hst : static_ok descs_at pm0).
Abbreviation ds := (the_descs descs_at).
Abbreviation malloc_inv := (malloc_inv descs_at pm0).
Abbreviation busy := (busy descs_at).

(** The client's sizes are within the capacities. *)
Definition sizes_ok (A C : gmap Z Z) : Prop :=
  (∀ p, is_Some (C !! p) → is_Some (A !! p)) ∧ ∀ p n, A !! p = Some n → ∃ c, C !! p = Some c ∧ n ≤ c.

Definition good (s : mstate) (A : gmap Z Z) : Prop :=
  ∃ C ls, malloc_inv C ls s ∧ busy C s ∧ sizes_ok A C.

Lemma sizes_insert A C p n c : sizes_ok A C → n ≤ c → sizes_ok (<[p := n]> A) (<[p := c]> C).
Proof.
  intros [H1 H2] Hn. split.
  - intros q. rewrite !lookup_insert_is_Some. destruct (decide (p = q)); [by left|]. intros [?|[_ ?]]; [done|right; auto].
  - intros q m [[<- <-]|[Hne Hq]]%lookup_insert_Some; [exists c; by rewrite lookup_insert_eq|].
    rewrite lookup_insert_ne by done. auto.
Qed.

Lemma sizes_delete A C p : sizes_ok A C → sizes_ok (delete p A) (delete p C).
Proof.
  intros [H1 H2]. split.
  - intros q. rewrite !lookup_delete_is_Some. naive_solver.
  - intros q m [Hne Hq]%lookup_delete_Some. rewrite lookup_delete_ne by done. auto.
Qed.

(** Words of the capacities, bytes of the sizes. *)
Lemma slot_aligned C ls s p c : malloc_inv C ls s → C !! p = Some c → p `mod` 4 = 0 ∧ c `mod` 4 = 0 ∧ p ≠ NULL.
Proof using Hst.
  intros I HC. destruct (mi_live _ _ _ _ _ I _ _ HC) as [a Hs].
  destruct (slot_inside _ _ _ _ _ (ds_ok descs_at) (mi_arenas _ _ _ _ _ I) Hs) as (? & _ & _ & _ & _ & ? & ? & _).
  destruct (block_not_null descs_at pm0 Hst C ls s a p c I Hs). done.
Qed.

Lemma keeps_kept A C C' ls s0 s s' :
  malloc_inv C ls s0 → (∀ p c, C' !! p = Some c → C !! p = Some c) → sizes_ok A C' → keeps C' s s' → kept A s s'.
Proof using Hst.
  intros I Hsub [_ Hs] Hk p n x HA Hx. destruct (Hs p n HA) as (c & HC & Hn).
  destruct (slot_aligned C ls s0 p c I (Hsub _ _ HC)) as (Hp & Hc & _).
  unfold byte_at. rewrite (Hk p c); [done|done|]. Z.div_mod_to_equations. lia.
Qed.

Lemma delete_sub (C : gmap Z Z) q p c : delete q C !! p = Some c → C !! p = Some c.
Proof. by intros [_ ?]%lookup_delete_Some. Qed.

Lemma keeps_trans C s1 s2 s3 : keeps C s1 s2 → keeps C s2 s3 → keeps C s1 s3.
Proof. intros H1 H2 p c q Hp Hq. by rewrite (H2 p c q), (H1 p c q). Qed.

Lemma keeps_sub C C' s s' : (∀ p c, C' !! p = Some c → C !! p = Some c) → keeps C s s' → keeps C' s s'.
Proof. intros Hsub Hk p c q Hp. apply Hk. by apply Hsub. Qed.

Lemma fresh_of_inv A C ls s r n c :
  malloc_inv (<[r := c]> C) ls s → C !! r = None → sizes_ok A C → n ≤ c → fresh_block A r n.
Proof using Hst.
  intros I HC [H1 H2] Hn. destruct (slot_aligned _ _ _ r c I) as (Hr & _ & Hnn); [apply lookup_insert_eq|].
  split_and!; [done|done|]. intros p m HA. destruct (H2 p m HA) as (cp & HCp & Hm).
  assert (p ≠ r) as Hne by congruence. split; [done|].
  destruct (mi_live _ _ _ _ _ I p cp) as [a Hs]; [by rewrite lookup_insert_ne|].
  destruct (mi_live _ _ _ _ _ I r c) as [a' Hs']; [apply lookup_insert_eq|].
  destruct (slot_apart _ _ _ _ _ _ _ _ (ds_ok descs_at) (mi_arenas _ _ _ _ _ I) Hs Hs') as [(_ & ? & _)|[_ ?]]; [done|lia].
Qed.

Lemma malloc_good s A n :
  good s A → size_ok n →
  ∃ r s', malloc n s = Ret (r, s') ∧
    ((r = NULL ∧ s' = s ∧ (n = 0 ∨ no_memory n s)) ∨
     (∃ C ls c, malloc_inv C ls s' ∧ busy C s' ∧ C !! r = Some c ∧ n ≤ c ∧ fresh_block A r n ∧
        sizes_ok A (delete r C) ∧ keeps (delete r C) s s')).
Proof using Hst.
  intros (C & ls & I & Hb & Hs) [H1 H2]. destruct (malloc_any_run descs_at pm0 Hst C ls s n I Hb ltac:(lia)) as (r & s' & Hr & Hpost).
  exists r, s'. split; [done|]. destruct Hpost as [(-> & -> & Hwhy)|(c & ls' & Hnn & Hc & Hn & HC & I' & Hb' & Hk)].
  - left. split_and!; [done|done|]. destruct Hwhy as [?|[?|?]]; [by left|lia|by right].
  - right. exists (<[r := c]> C), ls', c. rewrite delete_insert_id by done.
    split_and!; [done|done|apply lookup_insert_eq|by apply Hn|eapply fresh_of_inv; [exact I'|done|done|by apply Hn]|done|done].
Qed.

Lemma good_block s A C ls c r n :
  malloc_inv C ls s → busy C s → C !! r = Some c → n ≤ c → sizes_ok A (delete r C) → good s (<[r := n]> A).
Proof.
  intros I Hb HC Hn Hs. exists C, ls. split_and!; [done..|]. rewrite <- (insert_delete_id C r c HC). by apply sizes_insert.
Qed.

Lemma null_not_live s A : good s A → A !! NULL = None.
Proof using Hst.
  intros (C & ls & I & _ & [_ Hs]). destruct (A !! NULL) as [n|] eqn:HA; [|done].
  destruct (Hs _ _ HA) as (c & HC & _). by destruct (slot_aligned C ls s NULL c I HC) as (_ & _ & []).
Qed.

Lemma kept_refl A s : kept A s s.
Proof. done. Qed.

Lemma free_good s A p :
  good s A → p = NULL ∨ is_Some (A !! p) → ∃ s', free p s = Ret (tt, s') ∧ kept (delete p A) s s' ∧ good s' (delete p A).
Proof using Hst.
  intros Hg [->|[n HA]].
  - exists s. rewrite delete_id by (by eapply null_not_live). done.
  - pose proof Hg as (C & ls & I & Hb & Hs). destruct (proj2 Hs _ _ HA) as (c & HC & _).
    destruct (free_run descs_at pm0 Hst C ls s p c I Hb HC) as (s' & Hr & ls' & I' & Hb' & Hk).
    pose proof (sizes_delete _ _ p Hs) as Hs'. exists s'. split_and!; [done| |by exists (delete p C), ls'].
    eapply keeps_kept; [exact I|apply (delete_sub C p)|done|done].
Qed.

(** The last part of [realloc]: the contents are copied and the old block is freed. *)
Lemma realloc_move s s1 A C ls p n r c m :
  good s A → malloc_inv C ls s1 → busy C s1 → C !! r = Some c → n ≤ c → 0 < n → sizes_ok A (delete r C) → keeps (delete r C) s s1 →
  A !! p = Some m → p ≠ r →
  ∃ s', (old_size ← block_size p; memcpy r p (if bool_decide (n < old_size) then n else old_size);; free p) s1 = Ret (tt, s') ∧
    kept (delete p A) s s' ∧ good s' (<[r := n]> (delete p A)) ∧
    ∀ k, 0 ≤ k < n → k < m → byte_at (words (pm s')) (r + k) = byte_at (words (pm s)) (p + k).
Proof using Hst.
  intros Hg I Hb HCr Hn Hn0 Hs Hk1 HA Hne. destruct (proj2 Hs _ _ HA) as (cp & HCp & Hm). pose proof HCp as [_ HCp']%lookup_delete_Some.
  destruct (slot_aligned C ls s1 p cp I HCp') as (Hpal & Hcal & _). destruct (slot_aligned C ls s1 r c I HCr) as (Hral & _ & _).
  run_step (block_size_run descs_at pm0 C ls s1 p cp I HCp'). set (mn := if bool_decide (n < cp) then n else cp).
  assert (mn ≤ n ∧ mn ≤ cp ∧ (∀ k, k < n → k < m → k < mn)) as (Hmn1 & Hmn2 & Hmn3) by (unfold mn; case_bool_decide; split_and!; lia).
  set (s2 := with_words (copy_bytes r p mn) s1). rewrite (bind_Ret _ _ _ tt s2) by done.
  pose proof (mi_pm _ _ _ _ _ I) as [_ _ Hw].
  assert (malloc_inv C ls s2) as I2 by (apply inv_words; [done|]; intros q; by apply copy_bytes_u32).
  destruct (free_run descs_at pm0 Hst C ls s2 p cp I2 Hb HCp') as (s3 & Hr3 & ls3 & I3 & Hb3 & Hk3).
  assert (keeps (delete r C) s1 s2) as Hk2.
  { destruct (mi_live _ _ _ _ _ I _ _ HCr) as [a Hsl]. eapply keeps_off; [exact I|exact Hsl|].
    intros q Hq. cbn. apply (copy_bytes_off r p mn). lia. }
  assert (keeps (delete p (delete r C)) s s3) as Hk.
  { eapply keeps_trans; [eapply keeps_sub; [|eapply keeps_trans; [exact Hk1|exact Hk2]]|eapply keeps_sub; [|exact Hk3]];
      intros q cq; rewrite !lookup_delete_Some; tauto. }
  exists s3. split_and!; [exact Hr3| | |].
  - eapply keeps_kept; [exact I| |apply sizes_delete, Hs|exact Hk]. intros q cq Hq. by eapply delete_sub, delete_sub.
  - eapply good_block; [exact I3|exact Hb3|rewrite lookup_delete_ne by done; exact HCr|done|].
    rewrite delete_delete. by apply sizes_delete.
  - intros k Hk0 Hkm. specialize (Hmn3 k ltac:(lia) Hkm).
    transitivity (byte_at (words (pm s2)) (r + k)).
    + unfold byte_at. rewrite (Hk3 r c); [done|rewrite lookup_delete_ne by done; exact HCr|Z.div_mod_to_equations; lia].
    + cbn [s2 with_words set_pm pm words]. rewrite byte_copy by (done || lia). replace (p + (r + k - r)) with (p + k) by lia.
      unfold byte_at. rewrite (Hk1 p cp); [done|done|Z.div_mod_to_equations; lia].
Qed.

Lemma realloc_good s A p n :
  good s A → op_ok A (ORealloc p n) →
  ∃ r s', realloc p n s = Ret (r, s') ∧ op_post (ORealloc p n) A s r s' ∧ good s' (next_blocks (ORealloc p n) r A).
Proof using Hst.
  intros Hg [Hsz Hp]. cbn [op_post next_blocks]. unfold realloc. case_bool_decide as Hn0.
  { destruct (free_good s A p Hg Hp) as (s' & Hr & Hk & Hg'). exists NULL, s'. run_step Hr. done. }
  destruct (malloc_good s A n Hg Hsz) as (r & s1 & Hr & [(-> & -> & Hwhy)|(C & ls & c & I & Hb & HC & Hn & Hf & Hs & Hk)]); run_step Hr.
  - exists NULL, s. split; [by rewrite andb_false_r|]. rewrite bool_decide_eq_true_2 by done. split; [left|done].
    split_and!; [done|done|]. by destruct Hwhy.
  - pose proof Hf as (Hnn & _ & _). destruct Hp as [->|[m HA]].
    + exists r, s1. split; [done|]. rewrite (bool_decide_eq_false_2 (r = NULL)), delete_id by (done || by eapply null_not_live).
      split; [right|by eapply good_block]. split_and!; [done| |intros m k HA; by rewrite (null_not_live s A Hg) in HA].
      eapply keeps_kept; [exact I|apply (delete_sub C r)|done|done].
    + assert (p ≠ r) by (by eapply (proj2 (proj2 Hf))). assert (p ≠ NULL) by (intros ->; by rewrite (null_not_live s A Hg) in HA).
      destruct (realloc_move s s1 A C ls p n r c m Hg I Hb HC Hn ltac:(destruct Hsz; lia) Hs Hk HA ltac:(done)) as (s' & Hr' & Hk' & Hg' & Hby).
      exists r, s'. rewrite (bool_decide_eq_true_2 (p ≠ NULL)), (bool_decide_eq_true_2 (r ≠ NULL)), (bool_decide_eq_false_2 (r = NULL)) by done.
      split; [by run_step Hr'|]. split; [right|done]. split_and!; [done|done|]. intros m' k HA'. rewrite HA in HA'. injection HA' as <-. apply Hby.
Qed.

Lemma calloc_good s A a b :
  good s A → op_ok A (OCalloc a b) →
  ∃ r s', calloc a b s = Ret (r, s') ∧ op_post (OCalloc a b) A s r s' ∧ good s' (next_blocks (OCalloc a b) r A).
Proof using Hst.
  intros Hg (Ha & Hb & Hsz). cbn [op_post next_blocks]. unfold calloc, add_block. set (n := u32 (a * b)) in *.
  destruct (bool_decide (n < a) || bool_decide (n < b)) eqn:Hov.
  { exists NULL, s. split; [done|]. split; [|done]. split; [done|]. left. split; [done|].
    apply orb_true_iff in Hov as [H%bool_decide_eq_true|H%bool_decide_eq_true]; tauto. }
  destruct (malloc_good s A n Hg Hsz) as (r & s1 & Hr & [(-> & -> & Hwhy)|(C & ls & c & I & Hbu & HC & Hn & Hf & Hs & Hk)]); run_step Hr.
  - exists NULL, s. split; [done|]. split; [|done]. split; [done|]. left. tauto.
  - pose proof Hf as (Hnn & Hral & _). set (s2 := with_words (fill_bytes r 0 n) s1). exists r, s2.
    rewrite (bool_decide_eq_true_2 (r ≠ NULL)), (bool_decide_eq_false_2 (r = NULL)) by done. split; [done|].
    pose proof (mi_pm _ _ _ _ _ I) as [_ _ Hw].
    assert (malloc_inv C ls s2) as I2 by (apply inv_words; [done|]; intros q; by apply fill_bytes_u32).
    split; [|by eapply good_block]. split; [|right; split; [done|]].
    + eapply keeps_kept; [exact I|apply (delete_sub C r)|done|]. eapply keeps_trans; [exact Hk|].
      destruct (mi_live _ _ _ _ _ I _ _ HC) as [a' Hsl]. eapply keeps_off; [exact I|exact Hsl|].
      intros q Hq. cbn. apply (fill_bytes_off r 0 n). destruct Hsz. lia.
    + intros x Hx. cbn [s2 with_words set_pm pm words]. by apply byte_fill.
Qed.

(** Every call returns, keeps its promise and leaves a good state. *)
Lemma op_run s A op :
  good s A → op_ok A op → ∃ r s', exec_mop op s = Ret (r, s') ∧ op_post op A s r s' ∧ good s' (next_blocks op r A).
Proof using Hst.
  intros Hg Hok. destruct op as [n|a b|p n|p|x v]; cbn [exec_mop].
  - destruct (malloc_good s A n Hg Hok) as (r & s1 & Hr & [(-> & -> & Hwhy)|(C & ls & c & I & Hb & HC & Hn & Hf & Hs & Hk)]); exists r || exists NULL; eexists; (split; [exact Hr|]); cbn [op_post next_blocks]; unfold add_block.
    + split; [|done]. split; [done|]. left. tauto.
    + rewrite bool_decide_eq_false_2 by apply Hf. split; [|by eapply good_block]. split; [|by right].
      eapply keeps_kept; [exact I|apply (delete_sub C r)|done|done].
  - by apply calloc_good.
  - by apply realloc_good.
  - destruct (free_good s A p Hg Hok) as (s' & Hr & Hk & Hg'). exists 0, s'. run_step Hr. done.
  - eexists _, _. split; [reflexivity|]. split; [done|]. destruct Hok as (Hv & _). destruct Hg as (C & ls & I & Hb & Hs).
    pose proof (mi_pm _ _ _ _ _ I) as [_ _ Hw]. exists C, ls. split_and!; [|done|done].
    apply inv_words; [done|]. intros q. by apply store_byte_u32.
Qed.
End proof.

(** ** Initialisation *)

(** Before [malloc_init]: the static descriptors are below the pool and not set up. *)
Record boot_ok (descs_at : Z) (s : mstate) : Prop := {
  bo_static : static_ok descs_at (pm s);
  bo_descs : descs s = [];
  bo_arenas : arenas s = ∅;
  bo_cells : ∀ i : nat, (i < 7)%nat → valid (cells s) (descs_at + DESC_SIZE * Z.of_nat i + 8) ∧
                                     valid (cells s) (descs_at + DESC_SIZE * Z.of_nat i + 16)
}.

Section init.
Context (descs_at : Z).

Definition init_lists (k : nat) : list (Z * list Z) := (λ i : nat, (descs_at + DESC_SIZE * Z.of_nat i + 8, [])) <$> seq 0 k.

Lemma footprints_init k q : q ∈ footprints (init_lists k) → q < descs_at + DESC_SIZE * Z.of_nat k.
Proof.
  unfold footprints, init_lists. rewrite list_elem_of_bind. intros (p & Hq & Hp).
  apply list_elem_of_fmap in Hp as (i & -> & [_ Hi]%elem_of_seq). cbn [fst snd] in Hq. unfold footprint, head_of, tail_of, DESC_SIZE in *.
  apply elem_of_cons in Hq as [->|[->|[]%elem_of_nil]%elem_of_cons]; lia.
Qed.

Lemma malloc_init_loop_run n k fuel s :
  (n + k = 7)%nat → (n < fuel)%nat → descs s = take k (the_descs descs_at) → lists (cells s) (init_lists k) →
  (∀ i : nat, (i < 7)%nat → valid (cells s) (descs_at + DESC_SIZE * Z.of_nat i + 8) ∧ valid (cells s) (descs_at + DESC_SIZE * Z.of_nat i + 16)) →
  ∃ h, malloc_init_loop descs_at fuel (2 ^ (4 + Z.of_nat k)) s = Ret (tt, MState (pm s) h (arenas s) (the_descs descs_at)) ∧
    lists h (init_lists 7).
Proof.
  revert k fuel s. induction n as [|n IH]; intros k fuel s Hk Hf Hds Hl Hv; (destruct fuel as [|fuel]; [lia|]); cbn [malloc_init_loop].
  - assert (k = 7%nat) as -> by lia. exists (cells s). split; [|done]. destruct s. cbn in *. by subst.
  - assert (Z.of_nat (length (take k (the_descs descs_at))) = Z.of_nat k) as Hlen by (rewrite length_take; cbn; lia).
    assert (k = 0 ∨ k = 1 ∨ k = 2 ∨ k = 3 ∨ k = 4 ∨ k = 5 ∨ k = 6)%nat as Hcases by lia.
    rewrite bool_decide_eq_true_2 by (change (PGSIZE `div` 2) with 2048; destruct Hcases as [->|[->|[->|[->|[->|[->| ->]]]]]]; vm_compute; done).
    rewrite (bind_Ret _ _ _ (take k (the_descs descs_at)) s) by (unfold gets; by rewrite Hds). rewrite Hlen.
    rewrite assert_bind by (apply bool_decide_eq_true_2; lia). set (fl := descs_at + DESC_SIZE * Z.of_nat k + 8).
    set (s1 := MState (pm s) (cells s) (arenas s) (descs s ++ [Desc (2 ^ (4 + Z.of_nat k)) ((PGSIZE - ARENA_SIZE) `div` 2 ^ (4 + Z.of_nat k)) fl])).
    rewrite (bind_Ret _ _ _ tt s1) by done. destruct (Hv k ltac:(lia)) as [Hv1 Hv2].
    destruct (lists_init (cells s1) fl (init_lists k) Hl) as (h & Hr & Hc & Hl').
    { exact Hv1. } { unfold tail_of, fl. by replace (descs_at + DESC_SIZE * Z.of_nat k + 8 + 8) with (descs_at + DESC_SIZE * Z.of_nat k + 16) by lia. }
    { intros Hin%footprints_init. unfold head_of, fl in Hin. lia. } { intros Hin%footprints_init. unfold tail_of, fl in Hin. lia. }
    run_step (on_cells_run _ s1 _ _ Hr).
    replace (u32 (2 ^ (4 + Z.of_nat k) * 2)) with (2 ^ (4 + Z.of_nat (S k))) by (destruct Hcases as [->|[->|[->|[->|[->|[->| ->]]]]]]; reflexivity).
    apply (IH (S k) fuel (set_cells h s1)); [lia|lia| | |].
    + cbn. rewrite Hds. destruct Hcases as [->|[->|[->|[->|[->|[->| ->]]]]]]; reflexivity.
    + cbn [cells set_cells]. unfold init_lists. rewrite seq_S, fmap_app. cbn [fmap list_fmap Nat.add]. rewrite Permutation_app_comm. exact Hl'.
    + intros i Hi. destruct (Hv i Hi). by split; apply Hc.
Qed.

Lemma malloc_init_good s :
  boot_ok descs_at s → ∃ s', malloc_init descs_at s = Ret (tt, s') ∧ good descs_at (pm s) s' ∅.
Proof.
  intros [Hst Hds Har Hv]. destruct (malloc_init_loop_run 7 0 32 s) as (h & Hr & Hl);
    [done|lia|by rewrite Hds|split; constructor|done|].
  eexists. split; [exact Hr|]. exists ∅, (init_lists 7).
  assert (∀ s' q, arenas s' = ∅ → ¬ covered s' q) as Hcov by (intros s' q Hs' (a & ar & Ha & _); by rewrite Hs', lookup_empty in Ha).
  split_and!.
  - split; cbn [pm cells arenas descs]; rewrite ?Har.
    + apply Hst.
    + done.
    + done.
    + split; intros *; by rewrite lookup_empty.
    + intros p c. by rewrite lookup_empty.
    + intros a ar. by rewrite lookup_empty.
    + intros a ar i d. by rewrite lookup_empty.
    + done.
    + done.
    + intros i l xs d e Hi Hd. unfold init_lists in Hi. rewrite list_lookup_fmap_Some in Hi. destruct Hi as (j & [= -> ->] & _).
      split; [by intros ?%elem_of_nil|]. intros (a & ar & Ha & _). by rewrite lookup_empty in Ha.
    + intros q Hq. by apply Hcov in Hq.
    + done.
  - intros a ar i d. cbn [arenas]. by rewrite Har, lookup_empty.
  - split; [intros p [? ?]|intros p n Hp]; by rewrite lookup_empty in *.
Qed.

Lemma reach_good s0 s A : boot_ok descs_at s0 → malloc_reach descs_at s0 s A → good descs_at (pm s0) s A.
Proof.
  intros Hb. induction 1 as [s Hi|s A op r s' _ IH Hok Hr].
  - destruct (malloc_init_good s0 Hb) as (s' & Hi' & Hg). rewrite Hi in Hi'. by injection Hi' as <-.
  - destruct (op_run descs_at (pm s0) (bo_static _ _ Hb) s A op IH Hok) as (r' & s'' & Hr' & _ & Hg).
    rewrite Hr in Hr'. by injection Hr' as <- <-.
Qed.
End init.

(** ** The promises *)

(** C11: after initialisation and any calls of a client that frees, resizes and writes only
    its own blocks, with sizes that do not wrap, every call returns (no assertion fails).
    [malloc] gives a word-aligned block apart from all live ones, or null when there are no
    pages for it; [calloc] also zeroes it; [realloc] keeps the contents up to the smaller
    size, or changes nothing when it fails; and no call changes a byte of another live
    block. *)
Theorem malloc_calls_return descs_at s0 s A op :
  boot_ok descs_at s0 → malloc_reach descs_at s0 s A → op_ok A op →
  ∃ r s', exec_mop op s = Ret (r, s') ∧ op_post op A s r s'.
Proof.
  intros Hb Hr Hok. pose proof (reach_good descs_at s0 s A Hb Hr) as Hg.
  destruct (op_run descs_at (pm s0) (bo_static _ _ Hb) s A op Hg Hok) as (r & s' & H1 & H2 & _). eauto.
Qed.

(** C12: at any time the live blocks are pairwise disjoint, and every byte of them is in a
    page of the kernel pool that was free before [malloc_init] and is now in use. *)
Theorem malloc_blocks_safe descs_at s0 s A :
  boot_ok descs_at s0 → malloc_reach descs_at s0 s A →
  (∀ p n p' n', A !! p = Some n → A !! p' = Some n' → p ≠ p' → p + n ≤ p' ∨ p' + n' ≤ p) ∧
  (∀ p n x, A !! p = Some n → p ≤ x < p + n →
     page_state (pm s) false (x - x `mod` 4096) = Some true ∧ page_state (pm s0) false (x - x `mod` 4096) = Some false).
Proof.
  intros Hb Hr. destruct (reach_good descs_at s0 s A Hb Hr) as (C & ls & I & _ & [_ Hs]). pose proof (mi_arenas _ _ _ _ _ I) as Hok.
  split.
  - intros p n p' n' HA HA' Hne. destruct (Hs _ _ HA) as (c & HC & ?), (Hs _ _ HA') as (c' & HC' & ?).
    destruct (mi_live _ _ _ _ _ I _ _ HC) as [a Hsl], (mi_live _ _ _ _ _ I _ _ HC') as [a' Hsl'].
    destruct (slot_apart _ _ _ _ _ _ _ _ (ds_ok descs_at) Hok Hsl Hsl') as [(_ & ? & _)|[_ ?]]; [done|lia].
  - intros p n x HA Hx. destruct (Hs _ _ HA) as (c & HC & ?). destruct (mi_live _ _ _ _ _ I _ _ HC) as [a Hsl].
    destruct (slot_inside _ _ _ _ _ (ds_ok descs_at) Hok Hsl) as (ar & Ha & Hlo & Hhi & _).
    destruct (ao_page _ _ Hok _ _ Ha) as ([Hal _] & _). apply (mi_covered _ _ _ _ _ I). exists a, ar. split; [done|].
    unfold ARENA_SIZE in *. split; Z.div_mod_to_equations; lia.
Qed.

(** C13: when the client has freed everything, every page is back: the pools are as they were
    before [malloc_init]. *)
Theorem malloc_no_leak descs_at s0 s :
  boot_ok descs_at s0 → malloc_reach descs_at s0 s ∅ → ∀ v q, page_state (pm s) v q = page_state (pm s0) v q.
Proof.
  intros Hb Hr v q. destruct (reach_good descs_at s0 s ∅ Hb Hr) as (C & ls & I & Hbusy & [Hs _]).
  apply (mi_others _ _ _ _ _ I). intros [_ (a & ar & Ha & _)].
  assert (∀ p, ¬ is_Some (C !! p)) as HC by (intros p [? ?]%Hs; by rewrite lookup_empty in *).
  destruct (a_desc ar) as [i|] eqn:Hi.
  - destruct (ao_desc _ _ (mi_arenas _ _ _ _ _ I) _ _ _ Ha Hi) as [d Hd].
    destruct (Hbusy _ _ _ _ Ha Hi Hd) as (b & _ & HCb). by apply (HC b).
  - by apply (HC (a + ARENA_SIZE)), (mi_big _ _ _ _ _ I _ _ Ha Hi).
Qed.

(** ** A machine of 64 kernel pages *)

Definition demo_descs_at : Z := PHYS_BASE + 2 ^ 16.
Definition demo_pm : pmem :=
  PMem (Pool (Bitmap 64 [0; 0]) (PHYS_BASE + 2 ^ 20)) (Pool (Bitmap 32 [0]) (PHYS_BASE + 2 ^ 20 + 64 * 4096)) (λ _, 0).
Definition demo_boot : mstate :=
  MState demo_pm
    (list_to_map (concat ((λ i : nat, [(demo_descs_at + DESC_SIZE * Z.of_nat i + 8, ListElem 0 0);
                                       (demo_descs_at + DESC_SIZE * Z.of_nat i + 16, ListElem 0 0)]) <$> seq 0 7))) ∅ [].

Lemma demo_boot_ok : boot_ok demo_descs_at demo_boot.
Proof.
  split.
  - split_and!; [done|done|]. split; [|done|done].
    intros []; (split; [split; [done|done|repeat constructor; done]|done|done|done]).
  - done.
  - done.
  - intros i Hi. assert (i = 0 ∨ i = 1 ∨ i = 2 ∨ i = 3 ∨ i = 4 ∨ i = 5 ∨ i = 6)%nat as H by lia.
    destruct H as [->|[->|[->|[->|[->|[->| ->]]]]]]; (split; apply valid_lookup; (split; [done|vm_compute; eauto])).
Qed.

Lemma malloc_calls_return_witness :
  ∃ s, malloc_reach demo_descs_at demo_boot s ∅ ∧
    ∃ r s', exec_mop (OCalloc 10 10) s = Ret (r, s') ∧ op_post (OCalloc 10 10) ∅ s r s'.
Proof.
  destruct (malloc_init_good demo_descs_at demo_boot demo_boot_ok) as (s & Hi & _).
  exists s. split; [by apply mr_init|].
  apply (malloc_calls_return demo_descs_at demo_boot s ∅ (OCalloc 10 10)); [exact demo_boot_ok|by apply mr_init|].
  split_and!; [lia..|split; vm_compute; done].
Defined.

(** One small and one big block are live. *)
Lemma demo_two_blocks :
  ∃ s p q, p ≠ q ∧ malloc_reach demo_descs_at demo_boot s (<[q := 5000]> (<[p := 100]> ∅)).
Proof.
  destruct (malloc_init_good demo_descs_at demo_boot demo_boot_ok) as (s0 & Hi & _).
  assert (∃ s1, malloc_init demo_descs_at demo_boot = Ret (tt, s1) ∧ ∃ s2 s3 p q, malloc 100 s1 = Ret (p, s2) ∧ malloc 5000 s2 = Ret (q, s3) ∧
     p ≠ NULL ∧ q ≠ NULL ∧ p ≠ q) as (s1 & H1 & s2 & s3 & p & q & H2 & H3 & Hp & Hq & Hne).
  { eexists. split; [vm_compute; reflexivity|]. eexists _, _, _, _. split_and!; [vm_compute; reflexivity|vm_compute; reflexivity|done..]. }
  exists s3, p, q. split; [done|].
  pose proof (mr_step _ _ _ _ (OMalloc 100) _ _ (mr_init _ _ _ H1) ltac:(split; vm_compute; done) H2) as R2.
  cbn [next_blocks] in R2. unfold add_block in R2. rewrite bool_decide_eq_false_2 in R2 by done.
  pose proof (mr_step _ _ _ _ (OMalloc 5000) _ _ R2 ltac:(split; vm_compute; done) H3) as R3.
  cbn [next_blocks] in R3. unfold add_block in R3. by rewrite bool_decide_eq_false_2 in R3 by done.
Qed.

Lemma malloc_blocks_safe_witness :
  ∃ s p q, malloc_reach demo_descs_at demo_boot s (<[q := 5000]> (<[p := 100]> ∅)) ∧ (p + 100 ≤ q ∨ q + 5000 ≤ p).
Proof.
  destruct demo_two_blocks as (s & p & q & Hne & Hr). exists s, p, q. split; [exact Hr|].
  apply (malloc_blocks_safe demo_descs_at demo_boot s _ demo_boot_ok Hr); [|apply lookup_insert_eq|exact Hne].
  rewrite lookup_insert_ne by congruence. apply lookup_insert_eq.
Defined.

(** A block was handed out and freed again. *)
Lemma demo_freed :
  ∃ s s' p, malloc_reach demo_descs_at demo_boot s (<[p := 100]> ∅) ∧ free p s = Ret (tt, s') ∧
    malloc_reach demo_descs_at demo_boot s' ∅.
Proof.
  assert (∃ s1, malloc_init demo_descs_at demo_boot = Ret (tt, s1) ∧ ∃ s2 p, malloc 100 s1 = Ret (p, s2) ∧ p ≠ NULL)
    as (s1 & H1 & s2 & p & H2 & Hp).
  { eexists. split; [vm_compute; reflexivity|]. eexists _, _. split; [vm_compute; reflexivity|done]. }
  pose proof (mr_step _ _ _ _ (OMalloc 100) _ _ (mr_init _ _ _ H1) ltac:(split; vm_compute; done) H2) as R2.
  cbn [next_blocks] in R2. unfold add_block in R2. rewrite bool_decide_eq_false_2 in R2 by done.
  destruct (free_good _ _ (bo_static _ _ demo_boot_ok) s2 _ p (reach_good _ _ _ _ demo_boot_ok R2)) as (s3 & H3 & _);
    [right; rewrite lookup_insert_eq; eauto|].
  exists s2, s3, p. split_and!; [done|done|].
  assert (exec_mop (OFree p) s2 = Ret (0, s3)) as H3' by (cbn [exec_mop]; by run_step H3).
  pose proof (mr_step _ _ _ _ (OFree p) _ _ R2 ltac:(right; rewrite lookup_insert_eq; eauto) H3') as R3.
  cbn [next_blocks] in R3. by rewrite delete_insert_id in R3 by apply lookup_empty.
Qed.

Lemma malloc_no_leak_witness :
  ∃ s, malloc_reach demo_descs_at demo_boot s ∅ ∧ ∀ v q, page_state (pm s) v q = page_state (pm demo_boot) v q.
Proof.
  destruct demo_freed as (_ & s & _ & _ & _ & Hr). exists s. split; [exact Hr|].
  exact (malloc_no_leak demo_descs_at demo_boot s demo_boot_ok Hr).
Defined.

(** The sizes are computed modulo [2^32].  [malloc (2^32 - 1)] returns a block of 4084
    bytes, and [calloc (65537, 65537)], whose test [size < a || size < b] the wrapped
    product passes, one of 135156 bytes. *)
Theorem malloc_size_wraps :
  ∃ s, malloc_init demo_descs_at demo_boot = Ret (tt, s) ∧
    (∃ p s', malloc (2 ^ 32 - 1) s = Ret (p, s') ∧ p ≠ NULL ∧ block_size p s' = Ret (4084, s')) ∧
    (∃ p s', calloc 65537 65537 s = Ret (p, s') ∧ p ≠ NULL ∧ block_size p s' = Ret (135156, s')).
Proof.
  eexists. split; [vm_compute; reflexivity|]. split; eexists _, _; (split_and!; [vm_compute; reflexivity|done|vm_compute; reflexivity]).
Qed.
