(* ===== verification/KString.v ===== *)
(** * KString: the string functions of the kernel ([pintos/src/lib/string.c])

    Memory is a map from addresses to bytes (0 .. 255); reading or writing an address that
    is not in it crashes.  A loop over a string that ends at a terminator has as many turns
    as memory has bytes, and one more; a loop over [size] bytes has [size]. *)

From S2P Require Import Prelude Links.

Abbreviation bmem := (gmap Z Z).

Definition load (p : Z) : M bmem Z := gets_opt (λ m, m !! p).
Definition store (p v : Z) : M bmem unit := modify_opt (λ m, (λ _, <[p := u8 v]> m) <$> m !! p).
Definition turns : M bmem nat := gets (λ m, S (size m)).
Definition nonnull (p : Z) (n : nat) : bool := bool_decide (p ≠ NULL) || bool_decide (n = O).

(** ** Blocks of bytes *)

Fixpoint copy_up (n : nat) (dst src : Z) : M bmem unit :=
  match n with
  | O => mret tt
  | S n => b ← load src; store dst b;; copy_up n (dst + 1) (src + 1)
  end.

(** [dst] and [src] are the ends. *)
Fixpoint copy_down (n : nat) (dst src : Z) : M bmem unit :=
  match n with
  | O => mret tt
  | S n => b ← load (src - 1); store (dst - 1) b;; copy_down n (dst - 1) (src - 1)
  end.

Definition memcpy (dst src : Z) (size : nat) : M bmem Z :=
  assert (nonnull dst size);;
  assert (nonnull src size);;
  copy_up size dst src;;
  mret dst.

(** The result is the local [dst], which the loops have moved. *)
Definition memmove (dst src : Z) (size : nat) : M bmem Z :=
  assert (nonnull dst size);;
  assert (nonnull src size);;
  if bool_decide (dst < src) then copy_up size dst src;; mret (dst + Z.of_nat size)
  else copy_down size (dst + Z.of_nat size) (src + Z.of_nat size);; mret dst.

Fixpoint memcmp_loop (n : nat) (a b : Z) : M bmem Z :=
  match n with
  | O => mret 0
  | S n =>
    x ← load a;
    y ← load b;
    if bool_decide (x ≠ y) then mret (if bool_decide (x > y) then 1 else -1) else memcmp_loop n (a + 1) (b + 1)
  end.

Definition memcmp (a b : Z) (size : nat) : M bmem Z :=
  assert (nonnull a size);;
  assert (nonnull b size);;
  memcmp_loop size a b.

Fixpoint memchr_loop (n : nat) (block ch : Z) : M bmem Z :=
  match n with
  | O => mret NULL
  | S n => x ← load block; if bool_decide (x = ch) then mret block else memchr_loop n (block + 1) ch
  end.

Definition memchr (block ch : Z) (size : nat) : M bmem Z :=
  assert (nonnull block size);;
  memchr_loop size block (u8 ch).

Fixpoint memset_loop (n : nat) (dst value : Z) : M bmem unit :=
  match n with
  | O => mret tt
  | S n => store dst value;; memset_loop n (dst + 1) value
  end.

Definition memset (dst value : Z) (size : nat) : M bmem Z :=
  assert (nonnull dst size);;
  memset_loop size dst value;;
  mret dst.

(** ** Strings *)

Fixpoint strcmp_loop (fuel : nat) (a b : Z) : M bmem Z :=
  match fuel with
  | O => nofuel
  | S fuel =>
    x ← load a;
    y ← load b;
    if bool_decide (x ≠ 0) && bool_decide (x = y) then strcmp_loop fuel (a + 1) (b + 1)
    else mret (if bool_decide (x < y) then -1 else if bool_decide (x > y) then 1 else 0)
  end.

Definition strcmp (a b : Z) : M bmem Z :=
  assert (bool_decide (a ≠ NULL));;
  assert (bool_decide (b ≠ NULL));;
  fuel ← turns;
  strcmp_loop fuel a b.

Fixpoint strchr_loop (fuel : nat) (string c : Z) : M bmem Z :=
  match fuel with
  | O => nofuel
  | S fuel =>
    x ← load string;
    if bool_decide (x = c) then mret string else
    if bool_decide (x = 0) then mret NULL else
    strchr_loop fuel (string + 1) c
  end.

Definition strchr (string c : Z) : M bmem Z :=
  assert (bool_decide (string ≠ NULL));;
  fuel ← turns;
  strchr_loop fuel string (u8 c).

(** [strcspn] and [strspn] differ in the test that ends the loop. *)
Fixpoint span_loop (fuel : nat) (inside : bool) (string set length : Z) : M bmem Z :=
  match fuel with
  | O => nofuel
  | S fuel =>
    x ← load (string + length);
    if bool_decide (x = 0) then mret length else
    r ← strchr set x;
    if Bool.eqb (bool_decide (r = NULL)) inside then mret length else
    span_loop fuel inside string set (length + 1)
  end.

Definition strcspn (string stop : Z) : M bmem Z := fuel ← turns; span_loop fuel false string stop 0.
Definition strspn (string skip : Z) : M bmem Z := fuel ← turns; span_loop fuel true string skip 0.

Fixpoint strpbrk_loop (fuel : nat) (string stop : Z) : M bmem Z :=
  match fuel with
  | O => nofuel
  | S fuel =>
    x ← load string;
    if bool_decide (x = 0) then mret NULL else
    r ← strchr stop x;
    if bool_decide (r ≠ NULL) then mret string else strpbrk_loop fuel (string + 1) stop
  end.

Definition strpbrk (string stop : Z) : M bmem Z := fuel ← turns; strpbrk_loop fuel string stop.

Fixpoint strrchr_loop (fuel : nat) (string c p : Z) : M bmem Z :=
  match fuel with
  | O => nofuel
  | S fuel =>
    x ← load string;
    if bool_decide (x = 0) then mret p else
    strrchr_loop fuel (string + 1) c (if bool_decide (x = c) then string else p)
  end.

Definition strrchr (string c : Z) : M bmem Z := fuel ← turns; strrchr_loop fuel string (u8 c) NULL.

Fixpoint strlen_loop (fuel : nat) (p : Z) : M bmem Z :=
  match fuel with
  | O => nofuel
  | S fuel => x ← load p; if bool_decide (x = 0) then mret p else strlen_loop fuel (p + 1)
  end.

Definition strlen (string : Z) : M bmem Z :=
  assert (bool_decide (string ≠ NULL));;
  fuel ← turns;
  p ← strlen_loop fuel string;
  mret (p - string).

Fixpoint strnlen_loop (fuel : nat) (string maxlen length : Z) : M bmem Z :=
  match fuel with
  | O => nofuel
  | S fuel =>
    x ← load (string + length);
    if bool_decide (x ≠ 0) && bool_decide (length < maxlen) then strnlen_loop fuel string maxlen (length + 1) else mret length
  end.

Definition strnlen (string maxlen : Z) : M bmem Z := fuel ← turns; strnlen_loop fuel string maxlen 0.

(** [n] is the number of positions left. *)
Fixpoint strstr_loop (n : nat) (haystack needle : Z) (needle_len : nat) : M bmem Z :=
  match n with
  | O => mret NULL
  | S n =>
    r ← memcmp haystack needle needle_len;
    if bool_decide (r = 0) then mret haystack else strstr_loop n (haystack + 1) needle needle_len
  end.

Definition strstr (haystack needle : Z) : M bmem Z :=
  haystack_len ← strlen haystack;
  needle_len ← strlen needle;
  if bool_decide (needle_len ≤ haystack_len) then
    strstr_loop (Z.to_nat (haystack_len - needle_len + 1)) haystack needle (Z.to_nat needle_len)
  else mret NULL.

(** ** Tokens *)

(** Skipping delimiters: the position, and whether the string ended there. *)
Fixpoint skip_delims (fuel : nat) (s delimiters : Z) : M bmem (Z * bool) :=
  match fuel with
  | O => nofuel
  | S fuel =>
    x ← load s;
    r ← strchr delimiters x;
    if bool_decide (r = NULL) then mret (s, false) else
    if bool_decide (x = 0) then mret (s, true) else
    skip_delims fuel (s + 1) delimiters
  end.

Fixpoint skip_token (fuel : nat) (s delimiters : Z) : M bmem Z :=
  match fuel with
  | O => nofuel
  | S fuel =>
    x ← load s;
    r ← strchr delimiters x;
    if bool_decide (r = NULL) then skip_token fuel (s + 1) delimiters else mret s
  end.

(** [*save_ptr] is a variable of the caller: [save] is its value before, and the results are
    the token and its value after. *)
Definition strtok_r (s delimiters save : Z) : M bmem (Z * Z) :=
  assert (bool_decide (delimiters ≠ NULL));;
  let s := if bool_decide (s = NULL) then save else s in
  assert (bool_decide (s ≠ NULL));;
  fuel ← turns;
  '(token, ended) ← skip_delims fuel s delimiters;
  if (ended : bool) then mret (NULL, token) else
  s ← skip_token fuel token delimiters;
  x ← load s;
  if bool_decide (x ≠ 0) then store s 0;; mret (token, s + 1) else mret (token, s).

(** ** Bounded copies *)

Definition strlcpy (dst src : Z) (size : nat) : M bmem Z :=
  assert (bool_decide (dst ≠ NULL));;
  assert (bool_decide (src ≠ NULL));;
  src_len ← strlen src;
  (if bool_decide (0 < size)%nat then
     let dst_len := Z.of_nat size - 1 in
     let dst_len := if bool_decide (src_len < dst_len) then src_len else dst_len in
     _ ← memcpy dst src (Z.to_nat dst_len);
     store (dst + dst_len) 0
   else mret tt);;
  mret src_len.

Definition strlcat (dst src : Z) (size : nat) : M bmem Z :=
  assert (bool_decide (dst ≠ NULL));;
  assert (bool_decide (src ≠ NULL));;
  src_len ← strlen src;
  dst_len ← strlen dst;
  (if bool_decide (0 < size)%nat && bool_decide (dst_len < Z.of_nat size) then
     let copy_cnt := Z.of_nat size - dst_len - 1 in
     let copy_cnt := if bool_decide (src_len < copy_cnt) then src_len else copy_cnt in
     _ ← memcpy (dst + dst_len) src (Z.to_nat copy_cnt);
     store (dst + dst_len + copy_cnt) 0
   else mret tt);;
  mret (src_len + dst_len).
