(* ===== verification/KStringFacts.v ===== *)
(** * KStringFacts: what the string functions do to memory

    [bytes m p bs] and [cstr m p s]: the bytes [bs], the string [s] with its terminator,
    are at [p].  [put p bs m] is [m] with [bs] written at [p]. *)

From S2P Require Import Prelude Links KString.

Definition bytes (m : bmem) (p : Z) (bs : list Z) : Prop := ∀ k b, bs !! k = Some b → m !! (p + Z.of_nat k) = Some b.

Record cstr (m : bmem) (p : Z) (s : list Z) : Prop := {
  cs_bytes : bytes m p (s ++ [0]);
  cs_chars : Forall (λ b, 0 < b < 256) s;
  cs_pos : 0 < p
}.

Fixpoint put (p : Z) (bs : list Z) (m : bmem) : bmem :=
  match bs with
  | [] => m
  | b :: bs => put (p + 1) bs (<[p := b]> m)
  end.

(** [n] bytes at [p] may be written. *)
Definition mapped (m : bmem) (p : Z) (n : nat) : Prop := ∀ q, p ≤ q < p + Z.of_nat n → is_Some (m !! q).

(** ** Layout *)

Lemma bytes_cons m p b bs : bytes m p (b :: bs) ↔ m !! p = Some b ∧ bytes m (p + 1) bs.
Proof.
  split.
  - intros H. split; [by rewrite <- (H 0%nat b eq_refl), Z.add_0_r|]. intros k c Hk. rewrite <- (H (S k) c Hk). f_equal. lia.
  - intros [H1 H2] [|k] c Hk; simpl in Hk; [simplify_eq; by rewrite Z.add_0_r|]. rewrite <- (H2 k c Hk). f_equal. lia.
Qed.

Lemma bytes_app m p xs ys : bytes m p (xs ++ ys) ↔ bytes m p xs ∧ bytes m (p + Z.of_nat (length xs)) ys.
Proof.
  revert p. induction xs as [|x xs IH]; intros p; cbn [app length].
  - rewrite Z.add_0_r. split; [|tauto]. intros H. split; [by intros k b|done].
  - rewrite !bytes_cons, IH. replace (p + 1 + Z.of_nat (length xs)) with (p + Z.of_nat (S (length xs))) by lia. tauto.
Qed.

Lemma bytes_size m p bs : bytes m p bs → (length bs ≤ size m)%nat.
Proof.
  intros H. set (ks := (λ k, p + Z.of_nat k) <$> seq 0 (length bs)).
  assert (NoDup ks) as Hnd by (apply NoDup_fmap_2_strong; [intros i j _ _ ?; lia|apply NoDup_seq]).
  replace (length bs) with (length ks) by (unfold ks; by rewrite length_fmap, length_seq).
  rewrite <- (size_list_to_set (C:=gset Z)) by done. rewrite <- size_dom. apply subseteq_size.
  intros q Hq%elem_of_list_to_set. apply list_elem_of_fmap in Hq as (k & -> & [_ Hk]%elem_of_seq).
  destruct (lookup_lt_is_Some_2 bs k) as [b Hb]; [lia|]. apply elem_of_dom. rewrite (H k b Hb). eauto.
Qed.

Lemma lookup_put p bs m q :
  put p bs m !! q = if decide (p ≤ q < p + Z.of_nat (length bs)) then bs !! Z.to_nat (q - p) else m !! q.
Proof.
  revert p m. induction bs as [|b bs IH]; intros p m; cbn [put length].
  - by rewrite decide_False by lia.
  - rewrite IH. destruct (decide (p = q)) as [->|Hne].
    + rewrite decide_False, lookup_insert_eq, decide_True by lia. by rewrite Z.sub_diag.
    + rewrite lookup_insert_ne by done. destruct (decide (p + 1 ≤ q < p + 1 + Z.of_nat (length bs))).
      * rewrite decide_True by lia. by replace (Z.to_nat (q - p)) with (S (Z.to_nat (q - (p + 1)))) by lia.
      * by rewrite decide_False by lia.
Qed.

Lemma put_app p xs ys m : put p (xs ++ ys) m = put (p + Z.of_nat (length xs)) ys (put p xs m).
Proof.
  revert p m. induction xs as [|x xs IH]; intros p m; cbn [app put length]; [by rewrite Z.add_0_r|].
  rewrite IH. f_equal. lia.
Qed.

Lemma bytes_put p bs m : bytes (put p bs m) p bs.
Proof.
  intros k b Hk. rewrite lookup_put, decide_True by (apply lookup_lt_Some in Hk; lia). by replace (Z.to_nat (p + Z.of_nat k - p)) with k by lia.
Qed.

Lemma bytes_put_ne p bs m q cs :
  bytes m q cs → q + Z.of_nat (length cs) ≤ p ∨ p + Z.of_nat (length bs) ≤ q → bytes (put p bs m) q cs.
Proof. intros H Hd k c Hk. rewrite lookup_put, decide_False by (apply lookup_lt_Some in Hk; lia). by apply H. Qed.

Lemma bytes_insert_ne m p v q cs :
  bytes m q cs → ¬ (q ≤ p < q + Z.of_nat (length cs)) → bytes (<[p := v]> m) q cs.
Proof. intros H Hd k c Hk. rewrite lookup_insert_ne by (apply lookup_lt_Some in Hk; lia). by apply H. Qed.

Lemma mapped_insert m p n q v : mapped m p n → mapped (<[q := v]> m) p n.
Proof. intros H r Hr. apply lookup_insert_is_Some. destruct (decide (q = r)); [by left|right; auto]. Qed.

Lemma bytes_mapped m p bs : bytes m p bs → mapped m p (length bs).
Proof.
  intros H q Hq. destruct (lookup_lt_is_Some_2 bs (Z.to_nat (q - p))) as [b Hb]; [lia|].
  replace q with (p + Z.of_nat (Z.to_nat (q - p))) by lia. rewrite (H _ _ Hb). eauto.
Qed.

Lemma load_run m p b : m !! p = Some b → load p m = Ret (b, m).
Proof. intros H. unfold load, gets_opt. by rewrite H. Qed.

Lemma byte_store_run m p v : is_Some (m !! p) → store p v m = Ret (tt, <[p := u8 v]> m).
Proof. intros [b H]. unfold store, modify_opt. by rewrite H. Qed.

Lemma u8_id b : 0 ≤ b < 256 → u8 b = b.
Proof. intros. apply uwrap_id. lia. Qed.

(** ** Copying *)

Definition all_bytes (bs : list Z) : Prop := Forall (λ b, 0 ≤ b < 256) bs.

Lemma copy_up_run bs dst src m :
  bytes m src bs → all_bytes bs → mapped m dst (length bs) →
  dst ≤ src ∨ src + Z.of_nat (length bs) ≤ dst →
  copy_up (length bs) dst src m = Ret (tt, put dst bs m).
Proof.
  revert dst src m. induction bs as [|b bs IH]; intros dst src m Hb Ha Hm Hd; cbn [copy_up length put] in *; [done|].
  apply bytes_cons in Hb as [Hb Hbs]. apply Forall_cons in Ha as [Hr Ha]. run_step (load_run m src b Hb).
  run_step (byte_store_run m dst b (Hm dst ltac:(lia))). rewrite u8_id by done. apply IH.
  - apply bytes_insert_ne; [done|lia].
  - done.
  - intros q Hq. apply mapped_insert with (n := S (length bs)) (p := dst); [done|lia].
  - lia.
Qed.

Lemma copy_down_run bs dst src m :
  bytes m src bs → all_bytes bs → mapped m dst (length bs) → src ≤ dst ∨ dst + Z.of_nat (length bs) ≤ src →
  copy_down (length bs) (dst + Z.of_nat (length bs)) (src + Z.of_nat (length bs)) m = Ret (tt, put dst bs m).
Proof.
  revert m. induction bs as [|b bs IH] using rev_ind; intros m Hb Ha Hm Hd; [done|].
  rewrite length_app in *. cbn [length] in *. rewrite Nat.add_1_r in *. cbn [copy_down].
  apply bytes_app in Hb as [Hbs Hb]. apply bytes_cons in Hb as [Hb _]. apply Forall_app in Ha as [Ha [Hr _]%Forall_cons].
  replace (src + Z.of_nat (S (length bs)) - 1) with (src + Z.of_nat (length bs)) by lia.
  replace (dst + Z.of_nat (S (length bs)) - 1) with (dst + Z.of_nat (length bs)) by lia.
  run_step (load_run m _ b Hb). run_step (byte_store_run m (dst + Z.of_nat (length bs)) b (Hm (dst + Z.of_nat (length bs)) ltac:(lia))). rewrite u8_id by done.
  rewrite IH.
  - rewrite put_app. cbn [put]. do 2 f_equal. apply map_eq. intros q. rewrite lookup_insert, !lookup_put.
    destruct (decide (dst + Z.of_nat (length bs) = q)) as [<-|Hne].
    + rewrite decide_False by lia. rewrite lookup_insert_eq. done.
    + rewrite lookup_insert_ne by done. done.
  - apply bytes_insert_ne; [done|lia].
  - done.
  - intros q Hq. apply mapped_insert with (n := S (length bs)) (p := dst); [done|lia].
  - lia.
Qed.

(** ** Searching *)

Lemma cstr_byte m p s k b : cstr m p s → (s ++ [0]) !! k = Some b → m !! (p + Z.of_nat k) = Some b ∧ 0 ≤ b < 256.
Proof.
  intros [Hb Hc _] Hk. split; [by apply Hb|]. rewrite Forall_forall in Hc. apply list_elem_of_lookup_2 in Hk.
  apply elem_of_app in Hk as [H%Hc|[->|[]%elem_of_nil]%elem_of_cons]; lia.
Qed.

Lemma cstr_size m p s : cstr m p s → (length s < size m)%nat.
Proof. intros [Hb _ _]. apply bytes_size in Hb. rewrite length_app in Hb. simpl in Hb. lia. Qed.

Lemma turns_run m : turns m = Ret (S (size m), m).
Proof. done. Qed.

(** The tail of a string. *)
Lemma cstr_tail m p b s : cstr m p (b :: s) → m !! p = Some b ∧ 0 < b < 256 ∧ cstr m (p + 1) s.
Proof.
  intros [Hb Hc Hp]. cbn [app] in Hb. apply bytes_cons in Hb as [? ?]. apply Forall_cons in Hc as [? ?].
  split_and!; try done; [lia..|]. by split; [| |lia].
Qed.

Lemma cstr_drop m p s k : cstr m p s → (k ≤ length s)%nat → cstr m (p + Z.of_nat k) (drop k s).
Proof.
  revert p s. induction k as [|k IH]; intros p s Hs Hk; [by rewrite Z.add_0_r|]. destruct s as [|b s]; [simpl in Hk; lia|].
  apply cstr_tail in Hs as (_ & _ & Hs). cbn [drop]. replace (p + Z.of_nat (S k)) with (p + 1 + Z.of_nat k) by lia.
  apply IH; [done|simpl in Hk; lia].
Qed.

Lemma cstr_nil m p : cstr m p [] → m !! p = Some 0.
Proof. intros [Hb _ _]. cbn [app] in Hb. by apply bytes_cons in Hb as [? _]. Qed.

Lemma strlen_loop_run fuel m p s :
  cstr m p s → (length s < fuel)%nat → strlen_loop fuel p m = Ret (p + Z.of_nat (length s), m).
Proof.
  revert fuel p. induction s as [|b s IH]; intros fuel p Hs Hf; (destruct fuel as [|fuel]; [simpl in Hf; lia|]); cbn [strlen_loop].
  - run_step (load_run m p 0 (cstr_nil _ _ Hs)). rewrite bool_decide_eq_true_2 by done. unfold mret, M_ret. do 2 f_equal. simpl. lia.
  - apply cstr_tail in Hs as (Hb & Hr & Hs). run_step (load_run m p b Hb). rewrite bool_decide_eq_false_2 by lia.
    rewrite IH; [|done|simpl in Hf; lia]. do 2 f_equal. cbn [length]. lia.
Qed.

Lemma strlen_run m p s : cstr m p s → strlen p m = Ret (Z.of_nat (length s), m).
Proof.
  intros Hs. unfold strlen. rewrite assert_bind by (apply bool_decide_eq_true_2; pose proof (cs_pos _ _ _ Hs); unfold NULL; lia).
  run_step (turns_run m). run_step (strlen_loop_run (S (size m)) m p s Hs ltac:(pose proof (cstr_size _ _ _ Hs); lia)).
  unfold mret, M_ret. do 2 f_equal. lia.
Qed.

Lemma strnlen_loop_run fuel m p s k maxlen :
  cstr m (p + Z.of_nat k) s → (length s < fuel)%nat → Z.of_nat k ≤ maxlen →
  strnlen_loop fuel p maxlen (Z.of_nat k) m = Ret (Z.min (Z.of_nat (k + length s)) maxlen, m).
Proof.
  revert fuel k. induction s as [|b s IH]; intros fuel k Hs Hf Hk; (destruct fuel as [|fuel]; [simpl in Hf; lia|]); cbn [strnlen_loop].
  - run_step (load_run m _ 0 (cstr_nil _ _ Hs)). rewrite bool_decide_eq_false_2 by (intros H; by destruct H). cbn [andb]. unfold mret, M_ret. do 2 f_equal. simpl. lia.
  - apply cstr_tail in Hs as (Hb & Hr & Hs). run_step (load_run m _ b Hb). rewrite bool_decide_eq_true_2 by lia. cbn [andb].
    case_bool_decide as Hlt.
    + replace (Z.of_nat k + 1) with (Z.of_nat (S k)) by lia. rewrite IH; [|by replace (p + Z.of_nat (S k)) with (p + Z.of_nat k + 1) by lia|simpl in Hf; lia|lia].
      do 2 f_equal. cbn [length]. lia.
    + unfold mret, M_ret. do 2 f_equal. lia.
Qed.

Lemma strnlen_run m p s maxlen :
  cstr m p s → 0 ≤ maxlen → strnlen p maxlen m = Ret (Z.min (Z.of_nat (length s)) maxlen, m).
Proof.
  intros Hs Hm. unfold strnlen. run_step (turns_run m).
  apply (strnlen_loop_run (S (size m)) m p s 0); [by rewrite Z.add_0_r|pose proof (cstr_size _ _ _ Hs); lia|lia].
Qed.

(** [strchr] finds the first place of a byte, the terminator included. *)
Definition find_byte (c : Z) (s : list Z) : option nat := fst <$> list_find (λ b, b = c) (s ++ [0]).

Definition found_at (p : Z) (o : option nat) : Z := match o with Some i => p + Z.of_nat i | None => NULL end.

Lemma find_byte_cons c b s : find_byte c (b :: s) = if decide (b = c) then Some 0%nat else S <$> find_byte c s.
Proof. unfold find_byte. cbn [app list_find]. case_decide; [done|]. by destruct (list_find _ _) as [[? ?]|]. Qed.

Lemma strchr_loop_run fuel m p s c :
  cstr m p s → (length s < fuel)%nat → strchr_loop fuel p c m = Ret (found_at p (find_byte c s), m).
Proof.
  revert fuel p. induction s as [|b s IH]; intros fuel p Hs Hf; (destruct fuel as [|fuel]; [simpl in Hf; lia|]); cbn [strchr_loop].
  - run_step (load_run m p 0 (cstr_nil _ _ Hs)). unfold find_byte. cbn [app list_find]. case_bool_decide as Hc.
    + rewrite decide_True by done. cbn. by rewrite Z.add_0_r.
    + rewrite decide_False by done. rewrite bool_decide_eq_true_2 by done. done.
  - apply cstr_tail in Hs as (Hb & Hr & Hs). run_step (load_run m p b Hb). rewrite find_byte_cons. case_bool_decide as Hc.
    + rewrite decide_True by done. cbn. by rewrite Z.add_0_r.
    + rewrite decide_False by done. rewrite bool_decide_eq_false_2 by lia. rewrite IH; [|done|simpl in Hf; lia].
      destruct (find_byte c s); cbn; [|done]. do 2 f_equal. lia.
Qed.

Lemma strchr_run m p s c :
  cstr m p s → 0 ≤ c < 256 → strchr p c m = Ret (found_at p (find_byte c s), m).
Proof.
  intros Hs Hc. unfold strchr. rewrite assert_bind by (apply bool_decide_eq_true_2; pose proof (cs_pos _ _ _ Hs); unfold NULL; lia).
  run_step (turns_run m). rewrite u8_id by done. apply strchr_loop_run; [done|]. pose proof (cstr_size _ _ _ Hs). lia.
Qed.

Lemma found_null p s c : 0 < p → (found_at p (find_byte c s) = NULL ↔ c ∉ s ∧ c ≠ 0).
Proof.
  intros Hp. induction s as [|b s IH].
  - unfold find_byte. cbn [app list_find]. case_decide as H; cbn; [|set_solver]. unfold NULL. split; [lia|]. intros [_ []]. done.
  - rewrite find_byte_cons, elem_of_cons. case_decide as H; cbn; [unfold NULL; split; [lia|intros [[] _]; by left]|].
    destruct (find_byte c s) as [i|]; cbn in *; [unfold NULL in *; split; [lia|]|].
    + intros [Hn Hc]. exfalso. destruct (proj2 IH); [tauto|]. lia.
    + split; [|done]. intros _. destruct (proj1 IH eq_refl). naive_solver.
Qed.

Lemma memcmp_loop_eq n a b m xs ys :
  bytes m a xs → bytes m b ys → length xs = n → length ys = n →
  ∃ r, memcmp_loop n a b m = Ret (r, m) ∧ (r = 0 ↔ xs = ys).
Proof.
  revert n a b ys. induction xs as [|x xs IH]; intros n a b [|y ys] Ha Hb Hx Hy; simpl in Hx, Hy; subst; try done; cbn [memcmp_loop length].
  - by exists 0.
  - apply bytes_cons in Ha as [Hxa Ha]. apply bytes_cons in Hb as [Hyb Hb]. run_step (load_run m a x Hxa). run_step (load_run m b y Hyb).
    case_bool_decide as Hne.
    + eexists. split; [reflexivity|]. split; [case_bool_decide; done|congruence].
    + subst y. destruct (IH (length xs) (a + 1) (b + 1) ys) as (r & Hr & Hiff); [done..|lia|].
      exists r. split; [done|]. rewrite Hiff. naive_solver.
Qed.

(** Strings in a memory that is given explicitly. *)
Ltac concrete_bytes :=
  match goal with
  | |- cstr _ _ _ => split; [concrete_bytes|repeat constructor; lia|lia]
  | |- bytes _ _ _ => cbn [app]; repeat (apply bytes_cons; split; [vm_compute; reflexivity|]); by intros ? ?
  end.
