(* ===== verification/KStringSpec.v ===== *)
(** * KStringSpec: correctness of the string functions

    Moving overlapping blocks, bounded copies, searching and splitting into tokens, on the
    strings in memory. *)

From S2P Require Import Prelude Links KString KStringFacts.

(** C34: [memmove] copies the bytes as they were before, however the two blocks overlap, and
    writes nothing else.  Its result is the start of the destination only when the copy went
    downwards; otherwise it is the end. *)
Theorem memmove_correct m dst src bs :
  bytes m src bs → all_bytes bs → mapped m dst (length bs) → 0 < dst → 0 < src →
  memmove dst src (length bs) m = Ret (if bool_decide (dst < src) then dst + Z.of_nat (length bs) else dst, put dst bs m).
Proof.
  intros Hb Ha Hm Hd Hs. unfold memmove, nonnull.
  rewrite !(bool_decide_eq_true_2 (dst ≠ NULL)), !(bool_decide_eq_true_2 (src ≠ NULL)) by (unfold NULL; lia).
  rewrite !assert_bind by done. case_bool_decide as Hlt.
  - rewrite (bind_Ret _ _ _ tt (put dst bs m)); [done|]. apply copy_up_run; [done..|lia].
  - rewrite (bind_Ret _ _ _ tt (put dst bs m)); [done|]. apply copy_down_run; [done..|lia].
Qed.

(** ** Bounded copies *)

Lemma memcpy_run m dst src bs :
  bytes m src bs → all_bytes bs → mapped m dst (length bs) → 0 < dst → 0 < src →
  src + Z.of_nat (length bs) ≤ dst ∨ dst + Z.of_nat (length bs) ≤ src →
  memcpy dst src (length bs) m = Ret (dst, put dst bs m).
Proof.
  intros Hb Ha Hm Hd Hs Hap. unfold memcpy, nonnull.
  rewrite !(bool_decide_eq_true_2 (dst ≠ NULL)), !(bool_decide_eq_true_2 (src ≠ NULL)) by (unfold NULL; lia).
  rewrite !assert_bind by done. rewrite (bind_Ret _ _ _ tt (put dst bs m)); [done|]. apply copy_up_run; [done..|lia].
Qed.

(** Copying a prefix of a string and terminating it. *)
Lemma copy_terminated m dst src s n :
  cstr m src s → (n ≤ length s)%nat → mapped m dst (S n) → 0 < dst →
  src + Z.of_nat n ≤ dst ∨ dst + Z.of_nat n ≤ src →
  (_ ← memcpy dst src n; store (dst + Z.of_nat n) 0) m = Ret (tt, put dst (take n s ++ [0]) m).
Proof.
  intros [Hb Hc Hp] Hn Hm Hd Hap. assert (length (take n s) = n) as Hlen by (rewrite length_take; lia).
  assert (bytes m src (take n s)) as Hb'.
  { apply bytes_app in Hb as [Hb _]. rewrite <- (take_drop n s) in Hb. by apply bytes_app in Hb as [? _]. }
  assert (all_bytes (take n s)) as Ha by (apply Forall_take; eapply Forall_impl; [exact Hc|]; simpl; lia).
  rewrite <- Hlen at 1. rewrite (bind_Ret _ _ _ dst (put dst (take n s) m)).
  2:{ apply memcpy_run; [done..| |done|done|lia]. intros q Hq. apply Hm. lia. }
  rewrite byte_store_run.
  - rewrite put_app. cbn [put]. by rewrite Hlen.
  - rewrite lookup_put, decide_False by lia. apply Hm. lia.
Qed.

(** C33: [strlcpy] and [strlcat], on a destination of [size] bytes apart from the source,
    which for [strlcat] holds a string, write a terminated string of at most [size - 1] characters, which is the source, or the
    two strings in a row, cut to the room there is, and return the length without the
    cut.  [strlcat] leaves a destination that is not terminated within [size] alone. *)
Theorem bounded_copies m dst src s size :
  cstr m src s → mapped m dst size → 0 < dst →
  (src + Z.of_nat (length s) < dst ∨ dst + Z.of_nat size ≤ src →
   strlcpy dst src size m
   = Ret (Z.of_nat (length s), if bool_decide (size = 0)%nat then m else put dst (take (size - 1) s ++ [0]) m)) ∧
  (∀ t, cstr m dst t → src + Z.of_nat (length s) < dst ∨ dst + Z.of_nat size ≤ src ∧ dst + Z.of_nat (length t) < src →
   strlcat dst src size m
   = Ret (Z.of_nat (length s + length t),
          if bool_decide (size ≤ length t)%nat then m
          else put (dst + Z.of_nat (length t)) (take (size - 1 - length t) s ++ [0]) m)).
Proof.
  intros Hs Hm Hd. pose proof (cs_pos _ _ _ Hs). unfold strlcpy, strlcat.
  rewrite !assert_bind by (apply bool_decide_eq_true_2; unfold NULL; lia).
  rewrite (bind_Ret _ _ _ _ _ (strlen_run m src s Hs)).
  rewrite (bind_Ret _ _ _ _ _ (strlen_run m src s Hs)). split.
  - intros Hap. destruct (decide (size = 0)%nat) as [->|Hz]; [done|]. rewrite (bool_decide_eq_true_2 (0 < size)%nat), (bool_decide_eq_false_2 (size = 0)%nat) by lia.
    set (n := Nat.min (length s) (size - 1)).
    replace (if bool_decide (Z.of_nat (length s) < Z.of_nat size - 1) then Z.of_nat (length s) else Z.of_nat size - 1) with (Z.of_nat n)
      by (unfold n; case_bool_decide; lia).
    rewrite Nat2Z.id. assert (take (size - 1) s = take n s) as ->
      by (unfold n; destruct (Nat.le_ge_cases (length s) (size - 1)); [rewrite Nat.min_l, !take_ge by lia|rewrite Nat.min_r by lia]; done).
    rewrite (bind_Ret _ _ _ tt (put dst (take n s ++ [0]) m)); [done|]. apply copy_terminated; [done|lia| |done|lia].
    intros q Hq. apply Hm. lia.
  - intros t Ht Hap. rewrite (bind_Ret _ _ _ _ _ (strlen_run m dst t Ht)). replace (Z.of_nat (length s + length t)) with (Z.of_nat (length s) + Z.of_nat (length t)) by lia.
    destruct (decide (size ≤ length t)%nat) as [Hle|Hlt].
    { rewrite (bool_decide_eq_false_2 (Z.of_nat (length t) < Z.of_nat size)), andb_false_r, (bool_decide_eq_true_2 (size ≤ length t)%nat) by lia. done. }
    rewrite (bool_decide_eq_true_2 (0 < size)%nat), (bool_decide_eq_true_2 (Z.of_nat (length t) < Z.of_nat size)),
      (bool_decide_eq_false_2 (size ≤ length t)%nat) by lia. cbn [andb].
    set (n := Nat.min (length s) (size - 1 - length t)).
    replace (if bool_decide (Z.of_nat (length s) < Z.of_nat size - Z.of_nat (length t) - 1) then Z.of_nat (length s)
             else Z.of_nat size - Z.of_nat (length t) - 1) with (Z.of_nat n) by (unfold n; case_bool_decide; lia).
    rewrite Nat2Z.id. assert (take (size - 1 - length t) s = take n s) as ->
      by (unfold n; destruct (Nat.le_ge_cases (length s) (size - 1 - length t)); [rewrite Nat.min_l, !take_ge by lia|rewrite Nat.min_r by lia]; done).
    rewrite (bind_Ret _ _ _ tt (put (dst + Z.of_nat (length t)) (take n s ++ [0]) m)); [done|].
    apply copy_terminated; [done|lia| |lia|lia]. intros q Hq. apply Hm. lia.
Qed.

(** ** Substrings *)

Definition occurs_at (needle hay : list Z) (i : nat) : Prop := take (length needle) (drop i hay) = needle ∧ (i + length needle ≤ length hay)%nat.

Lemma strstr_loop_run n m p d hs ns k :
  cstr m p hs → bytes m d ns → 0 < d → (k + n = length hs - length ns + 1)%nat → (length ns ≤ length hs)%nat →
  (∀ j, (j < k)%nat → ¬ occurs_at ns hs j) →
  ∃ r, strstr_loop n (p + Z.of_nat k) d (length ns) m = Ret (r, m) ∧
    ((r = NULL ∧ ∀ j, ¬ occurs_at ns hs j) ∨
     (∃ i, r = p + Z.of_nat i ∧ occurs_at ns hs i ∧ ∀ j, (j < i)%nat → ¬ occurs_at ns hs j)).
Proof.
  intros Hs Hn Hd. revert k. induction n as [|n IH]; intros k Hk Hle Hbefore; cbn [strstr_loop].
  - exists NULL. split; [done|]. left. split; [done|]. intros j [Ho Hj]. apply (Hbefore j); [lia|]. by split.
  - assert (bytes m (p + Z.of_nat k) (take (length ns) (drop k hs))) as Hb.
    { pose proof (cs_bytes _ _ _ (cstr_drop m p hs k Hs ltac:(lia))) as Hb. apply bytes_app in Hb as [Hb _].
      rewrite <- (take_drop (length ns) (drop k hs)) in Hb. by apply bytes_app in Hb as [? _]. }
    destruct (memcmp_loop_eq (length ns) _ _ m _ _ Hb Hn) as (r & Hr & Hiff); [rewrite length_take, length_drop; lia|done|].
    pose proof (cs_pos _ _ _ Hs). rewrite (bind_Ret _ _ _ r m).
    2:{ unfold memcmp, nonnull. rewrite !assert_bind by (rewrite bool_decide_eq_true_2 by (unfold NULL; lia); done). exact Hr. }
    case_bool_decide as H0.
    + eexists. split; [reflexivity|]. right. exists k. split_and!; [done|split; [by apply Hiff|lia]|done].
    + replace (p + Z.of_nat k + 1) with (p + Z.of_nat (S k)) by lia. apply IH; [lia|done|].
      intros j Hj [Ho Hl]. destruct (decide (j = k)) as [->|]; [by apply H0, Hiff|]. apply (Hbefore j); [lia|by split].
Qed.

(** [strstr] returns the first place where the needle occurs, or a null pointer when it
    occurs nowhere. *)
Theorem strstr_correct m p d hs ns :
  cstr m p hs → cstr m d ns →
  ∃ r, strstr p d m = Ret (r, m) ∧
    ((r = NULL ∧ ∀ i, ¬ occurs_at ns hs i) ∨
     (∃ i, r = p + Z.of_nat i ∧ occurs_at ns hs i ∧ ∀ j, (j < i)%nat → ¬ occurs_at ns hs j)).
Proof.
  intros Hs Hn. unfold strstr. run_step (strlen_run m p hs Hs). run_step (strlen_run m d ns Hn). case_bool_decide as Hle.
  - rewrite Nat2Z.id. pose proof (cs_bytes _ _ _ Hn) as [Hb _]%bytes_app.
    destruct (strstr_loop_run (Z.to_nat (Z.of_nat (length hs) - Z.of_nat (length ns) + 1)) m p d hs ns 0) as (r & Hr & Hres);
      [done|done|apply (cs_pos _ _ _ Hn)|lia|lia|lia|]. rewrite Z.add_0_r in Hr. eauto.
  - exists NULL. split; [done|]. left. split; [done|]. intros i [_ Hi]. lia.
Qed.

(** ** Tokens *)

(** The maximal runs of characters that are not delimiters; [cur] is the run so far,
    reversed. *)
Fixpoint tokens (ds cur t : list Z) : list (list Z) :=
  match t with
  | [] => if bool_decide (cur = []) then [] else [rev cur]
  | c :: t =>
    if bool_decide (c ∈ ds) then
      if bool_decide (cur = []) then tokens ds [] t else rev cur :: tokens ds [] t
    else tokens ds (c :: cur) t
  end.

Lemma tokens_skip ds pre t : Forall (λ c, c ∈ ds) pre → tokens ds [] (pre ++ t) = tokens ds [] t.
Proof. induction 1 as [|c pre Hc _ IH]; [done|]. cbn [app tokens]. by rewrite bool_decide_eq_true_2. Qed.

Lemma tokens_word ds w cur t : Forall (λ c, c ∉ ds) w → tokens ds cur (w ++ t) = tokens ds (rev w ++ cur) t.
Proof.
  intros Hw. revert cur. induction Hw as [|c w Hc _ IH]; intros cur; [done|]. cbn [app tokens rev].
  rewrite bool_decide_eq_false_2 by done. rewrite IH, <- app_assoc. done.
Qed.

(** The client's loop. *)
Fixpoint tok_loop (fuel : nat) (s delimiters save : Z) : M bmem (list Z) :=
  match fuel with
  | O => nofuel
  | S fuel =>
    '(token, save) ← strtok_r s delimiters save;
    if bool_decide (token = NULL) then mret [] else
    rest ← tok_loop fuel NULL delimiters save;
    mret (token :: rest)
  end.

Section tokens.
Context (m : bmem) (d : Z) (ds : list Z) (Hd : cstr m d ds).

Lemma skip_delims_run fuel q t :
  cstr m q t → (length t < fuel)%nat →
  ∃ pre t', t = pre ++ t' ∧ Forall (λ c, c ∈ ds) pre ∧ (∀ c, head t' = Some c → c ∉ ds) ∧
    skip_delims fuel q d m = Ret ((q + Z.of_nat (length pre), bool_decide (t' = [])), m).
Proof using Hd.
  revert fuel q. induction t as [|c t IH]; intros fuel q Hq Hf; (destruct fuel as [|fuel]; [simpl in Hf; lia|]); cbn [skip_delims];
    pose proof (cs_pos _ _ _ Hd) as Hdp.
  - exists [], []. split_and!; [done|constructor|done|]. run_step (load_run m q 0 (cstr_nil _ _ Hq)).
    run_step (strchr_run m d ds 0 Hd ltac:(lia)). rewrite (bool_decide_eq_false_2 (found_at d _ = NULL)) by (rewrite found_null by done; tauto).
    rewrite bool_decide_eq_true_2 by done. cbn. by rewrite Z.add_0_r.
  - apply cstr_tail in Hq as (Hb & Hr & Hq). run_step (load_run m q c Hb). run_step (strchr_run m d ds c Hd ltac:(lia)).
    destruct (decide (c ∈ ds)) as [Hin|Hout].
    + rewrite (bool_decide_eq_false_2 (found_at d _ = NULL)) by (rewrite found_null by done; tauto). rewrite bool_decide_eq_false_2 by lia.
      destruct (IH fuel (q + 1) Hq) as (pre & t' & -> & Hp & Ht & Hrun); [simpl in Hf; lia|].
      exists (c :: pre), t'. split_and!; [done|by constructor|done|]. rewrite Hrun. do 2 f_equal. cbn [length]. f_equal. lia.
    + rewrite (bool_decide_eq_true_2 (found_at d _ = NULL)) by (rewrite found_null by done; lia || (split; [done|lia])).
      exists [], (c :: t). split_and!; [done|constructor|by intros ? [= <-]|]. cbn. by rewrite Z.add_0_r.
Qed.

Lemma skip_token_run fuel q t :
  cstr m q t → (length t < fuel)%nat →
  ∃ w t', t = w ++ t' ∧ Forall (λ c, c ∉ ds) w ∧ (∀ c, head t' = Some c → c ∈ ds) ∧
    skip_token fuel q d m = Ret (q + Z.of_nat (length w), m).
Proof using Hd.
  revert fuel q. induction t as [|c t IH]; intros fuel q Hq Hf; (destruct fuel as [|fuel]; [simpl in Hf; lia|]); cbn [skip_token];
    pose proof (cs_pos _ _ _ Hd) as Hdp.
  - exists [], []. split_and!; [done|constructor|done|]. run_step (load_run m q 0 (cstr_nil _ _ Hq)).
    run_step (strchr_run m d ds 0 Hd ltac:(lia)). rewrite (bool_decide_eq_false_2 (found_at d _ = NULL)) by (rewrite found_null by done; tauto).
    cbn. by rewrite Z.add_0_r.
  - apply cstr_tail in Hq as (Hb & Hr & Hq). run_step (load_run m q c Hb). run_step (strchr_run m d ds c Hd ltac:(lia)).
    destruct (decide (c ∈ ds)) as [Hin|Hout].
    + rewrite (bool_decide_eq_false_2 (found_at d _ = NULL)) by (rewrite found_null by done; tauto).
      exists [], (c :: t). split_and!; [done|constructor|by intros ? [= <-]|]. cbn. by rewrite Z.add_0_r.
    + rewrite (bool_decide_eq_true_2 (found_at d _ = NULL)) by (rewrite found_null by done; split; [done|lia]).
      destruct (IH fuel (q + 1) Hq) as (w & t' & -> & Hw & Ht & Hrun); [simpl in Hf; lia|].
      exists (c :: w), t'. split_and!; [done|by constructor|done|]. rewrite Hrun. do 2 f_equal. cbn [length]. lia.
Qed.
End tokens.

Lemma cstr_frame m m' p s :
  cstr m p s → (∀ x, p ≤ x ≤ p + Z.of_nat (length s) → m' !! x = m !! x) → cstr m' p s.
Proof.
  intros [Hb Hc Hp] Hx. split; [|done|done]. intros k b Hk. rewrite Hx; [by apply Hb|].
  apply lookup_lt_Some in Hk. rewrite length_app in Hk. simpl in Hk. lia.
Qed.

(** The start of a string, cut off by a terminator. *)
Lemma cstr_cut m p w c t :
  cstr m p (w ++ c :: t) →
  cstr (<[p + Z.of_nat (length w) := 0]> m) p w ∧ cstr (<[p + Z.of_nat (length w) := 0]> m) (p + Z.of_nat (length w) + 1) t.
Proof.
  intros [Hb Hc Hp]. rewrite <- app_assoc in Hb. cbn [app] in Hb. apply bytes_app in Hb as [Hw Hb]. apply bytes_cons in Hb as [_ Ht].
  apply Forall_app in Hc as [Hcw [_ Hct]%Forall_cons]. split; (split; [|done|lia]).
  - apply bytes_app. split; [apply bytes_insert_ne; [done|lia]|]. apply bytes_cons. rewrite lookup_insert_eq. split; [done|]. by intros k b.
  - apply bytes_insert_ne; [done|lia].
Qed.

(** One call: nothing is left, or the first token is split off and the rest is saved. *)
Lemma strtok_run m d ds s save q t :
  cstr m d ds → cstr m q t → q = (if bool_decide (s = NULL) then save else s) →
  d + Z.of_nat (length ds) < q ∨ q + Z.of_nat (length t) < d →
  (tokens ds [] t = [] ∧ ∃ sv, strtok_r s d save m = Ret ((NULL, sv), m)) ∨
  (∃ tok w sv t' m', strtok_r s d save m = Ret ((tok, sv), m') ∧ tok ≠ NULL ∧ tokens ds [] t = w :: tokens ds [] t' ∧
     cstr m' tok w ∧ cstr m' sv t' ∧ q ≤ tok ∧ (t' = [] ∨ tok + Z.of_nat (length w) < sv) ∧
     q < sv ∧ sv + Z.of_nat (length t') = q + Z.of_nat (length t) ∧ ∀ x, ¬ (q ≤ x < q + Z.of_nat (length t)) → m' !! x = m !! x).
Proof.
  intros Hd Hq Hqs Hap. pose proof (cs_pos _ _ _ Hd). pose proof (cs_pos _ _ _ Hq).
  unfold strtok_r. rewrite assert_bind by (apply bool_decide_eq_true_2; unfold NULL; lia). cbn zeta. rewrite <- Hqs.
  rewrite assert_bind by (apply bool_decide_eq_true_2; unfold NULL; lia). rewrite (bind_Ret _ _ _ _ _ (turns_run m)).
  destruct (skip_delims_run m d ds Hd (S (size m)) q t Hq) as (pre & t1 & -> & Hpre & Ht1 & Hr1); [pose proof (cstr_size _ _ _ Hq); lia|].
  rewrite (bind_Ret _ _ _ _ _ Hr1). cbn beta iota. rewrite tokens_skip by done. case_bool_decide as Hnil; [subst; left; eauto|right].
  pose proof (cstr_drop m q (pre ++ t1) (length pre) Hq ltac:(rewrite length_app; lia)) as Hq1. rewrite drop_app_length in Hq1.
  set (tok := q + Z.of_nat (length pre)) in *. rewrite length_app in *.
  destruct (skip_token_run m d ds Hd (S (size m)) tok t1 Hq1) as (w & t2 & -> & Hw & Ht2 & Hr2); [pose proof (cstr_size _ _ _ Hq1); lia|].
  rewrite (bind_Ret _ _ _ _ _ Hr2). rewrite length_app in *. assert (w ≠ []) as Hwn.
  { intros ->. destruct t2 as [|c t2]; [done|]. apply (Ht1 c); [done|by apply Ht2]. }
  assert (rev w ≠ []) as Hrw by (intros Hr; apply (f_equal (@rev Z)) in Hr; rewrite rev_involutive in Hr; done).
  assert (0 < length w)%nat by (destruct w; [done|simpl; lia]).
  rewrite tokens_word, app_nil_r by done. destruct t2 as [|c t2].
  - rewrite app_nil_r in Hq1. cbn [length] in *. pose proof (cstr_drop m tok w (length w) Hq1 ltac:(lia)) as Hend. rewrite drop_all in Hend.
    rewrite (bind_Ret _ _ _ _ _ (load_run m _ 0 (cstr_nil _ _ Hend))). cbn. rewrite (bool_decide_eq_false_2 (rev w = [])) by done. rewrite rev_involutive.
    exists tok, w, (tok + Z.of_nat (length w)), [], m. split_and!; [done|unfold NULL; lia|done|done|done|lia|by left|lia|simpl; lia|done].
  - pose proof (cstr_drop m tok (w ++ c :: t2) (length w) Hq1 ltac:(rewrite length_app; lia)) as Hc. rewrite drop_app_length in Hc.
    apply cstr_tail in Hc as (Hc & Hcr & _). rewrite (bind_Ret _ _ _ _ _ (load_run m _ c Hc)). rewrite bool_decide_eq_true_2 by lia.
    rewrite (bind_Ret _ _ _ _ _ (byte_store_run m (tok + Z.of_nat (length w)) 0 ltac:(rewrite Hc; eauto))). change (u8 0) with 0.
    destruct (cstr_cut m tok w c t2 Hq1) as [Hcw Hct]. cbn [tokens]. rewrite (bool_decide_eq_true_2 (c ∈ ds)) by (by apply Ht2).
    rewrite bool_decide_eq_false_2, rev_involutive by done. cbn [length] in *.
    eexists tok, w, (tok + Z.of_nat (length w) + 1), t2, _. split_and!; [reflexivity|unfold NULL; lia|done|exact Hcw|exact Hct|lia|right; lia|lia|lia|].
    intros x Hx. apply lookup_insert_ne. lia.
Qed.

Lemma tok_loop_run fuel m d ds s save q t :
  cstr m d ds → cstr m q t → q = (if bool_decide (s = NULL) then save else s) →
  d + Z.of_nat (length ds) < q ∨ q + Z.of_nat (length t) < d → (length t < fuel)%nat →
  ∃ ps m', tok_loop fuel s d save m = Ret (ps, m') ∧ Forall2 (cstr m') ps (tokens ds [] t) ∧
    ∀ x, ¬ (q ≤ x < q + Z.of_nat (length t)) → m' !! x = m !! x.
Proof.
  revert m s save q t. induction fuel as [|fuel IH]; intros m s save q t Hd Hq Hqs Hap Hf; [lia|]. cbn [tok_loop].
  destruct (strtok_run m d ds s save q t Hd Hq Hqs Hap) as [(Hnone & sv & Hr)|(tok & w & sv & t' & m1 & Hr & Htok & Hw & Hcw & Hct & Hle & Hend & Hsv & Hsum & Hfr)];
    rewrite (bind_Ret _ _ _ _ _ Hr).
  - exists [], m. rewrite bool_decide_eq_true_2 by done. rewrite Hnone. split_and!; [done|constructor|done].
  - rewrite bool_decide_eq_false_2 by done.
    destruct (IH m1 NULL sv sv t') as (ps & m2 & Hr2 & Hall & Hfr2); [| |done|lia|lia|].
    { eapply cstr_frame; [exact Hd|]. intros x Hx. apply Hfr. lia. } { done. }
    exists (tok :: ps), m2. rewrite (bind_Ret _ _ _ _ _ Hr2). split_and!; [done| |].
    + rewrite Hw. constructor; [|done]. eapply cstr_frame; [exact Hcw|]. intros x Hx. apply Hfr2.
      destruct Hend as [->|?]; simpl; lia.
    + intros x Hx. rewrite Hfr2, Hfr by lia. done.
Qed.

(** C32: called on a string until it returns a null pointer, [strtok_r] returns, for each
    maximal run of characters that are not delimiters, in order, the address of a string
    that then holds exactly that run; it writes only inside the string it splits. *)
Theorem strtok_r_splits m d ds p t :
  cstr m d ds → cstr m p t → d + Z.of_nat (length ds) < p ∨ p + Z.of_nat (length t) < d →
  ∃ ps m', tok_loop (S (length t)) p d NULL m = Ret (ps, m') ∧ Forall2 (cstr m') ps (tokens ds [] t) ∧
    ∀ x, ¬ (p ≤ x < p + Z.of_nat (length t)) → m' !! x = m !! x.
Proof.
  intros Hd Hp Hap. apply tok_loop_run; [done|done| |done|lia].
  rewrite bool_decide_eq_false_2; [done|]. pose proof (cs_pos _ _ _ Hp). unfold NULL. lia.
Qed.

(** ** Witnesses *)

(** The bytes 1 2 3 4 at 20. *)
Definition demo_block : bmem := put 20 [1; 2; 3; 4; 0; 0] ∅.

Lemma memmove_correct_witness :
  memmove 22 20 4 demo_block = Ret (22, put 22 [1; 2; 3; 4] demo_block) ∧
  put 22 [1; 2; 3; 4] demo_block = put 20 [1; 2; 1; 2; 3; 4] ∅.
Proof.
  split; [|vm_compute; reflexivity].
  apply (memmove_correct demo_block 22 20 [1; 2; 3; 4]); [concrete_bytes|repeat constructor; lia| |lia|lia].
  assert (bytes demo_block 22 [3; 4; 0; 0]) as H by concrete_bytes. exact (bytes_mapped _ _ _ H).
Defined.

(** The string "ab" at 10, in 5 bytes, and "cdef" at 20. *)
Definition demo_strings : bmem := put 10 [97; 98; 0; 0; 0] (put 20 [99; 100; 101; 102; 0] ∅).

Lemma bounded_copies_witness :
  strlcpy 10 20 3 demo_strings = Ret (4, put 10 [99; 100; 0] demo_strings) ∧
  strlcat 10 20 5 demo_strings = Ret (6, put 12 [99; 100; 0] demo_strings).
Proof.
  assert (bytes demo_strings 10 [97; 98; 0; 0; 0]) as H by concrete_bytes. split.
  - refine (proj1 (bounded_copies demo_strings 10 20 [99; 100; 101; 102] 3 _ _ _) _); [concrete_bytes| |lia|cbn; lia].
    intros q Hq. apply (bytes_mapped _ _ _ H). cbn. lia.
  - refine (proj2 (bounded_copies demo_strings 10 20 [99; 100; 101; 102] 5 _ _ _) [97; 98] _ _); [concrete_bytes| |lia|concrete_bytes|cbn; lia].
    exact (bytes_mapped _ _ _ H).
Defined.

(** "abab" at 10 and "ba" at 20. *)
Definition demo_hay : bmem := put 10 [97; 98; 97; 98; 0] (put 20 [98; 97; 0] ∅).

Lemma strstr_correct_witness :
  strstr 10 20 demo_hay = Ret (11, demo_hay) ∧
  ∃ r, strstr 10 20 demo_hay = Ret (r, demo_hay) ∧
    ((r = NULL ∧ ∀ i, ¬ occurs_at [98; 97] [97; 98; 97; 98] i) ∨
     (∃ i, r = 10 + Z.of_nat i ∧ occurs_at [98; 97] [97; 98; 97; 98] i ∧
       ∀ j, (j < i)%nat → ¬ occurs_at [98; 97] [97; 98; 97; 98] j)).
Proof. split; [vm_compute; reflexivity|]. apply (strstr_correct demo_hay 10 20 [97; 98; 97; 98] [98; 97]); concrete_bytes. Defined.

(** " ab  c" at 10 and the delimiter " " at 30. *)
Definition demo_line : bmem := put 10 [32; 97; 98; 32; 32; 99; 0] (put 30 [32; 0] ∅).

Lemma strtok_r_splits_witness :
  tokens [32] [] [32; 97; 98; 32; 32; 99] = [[97; 98]; [99]] ∧
  ∃ ps m', tok_loop 7 10 30 NULL demo_line = Ret (ps, m') ∧
    Forall2 (cstr m') ps (tokens [32] [] [32; 97; 98; 32; 32; 99]) ∧
    ∀ x, ¬ (10 ≤ x < 10 + Z.of_nat 6) → m' !! x = demo_line !! x.
Proof.
  split; [vm_compute; reflexivity|].
  apply (strtok_r_splits demo_line 30 [32] 10 [32; 97; 98; 32; 32; 99]); [concrete_bytes|concrete_bytes|right; cbn; lia].
Defined.
