(* ===== verification/KStdio.v ===== *)
(** * KStdio: formatted output ([pintos/src/lib/stdio.c])

    The functions write through a callback [output], which has a state of its own beside
    the memory.  An argument list is the list of the 32-bit words on the stack; reading
    past its end crashes.  A string literal of the source is the string at an address that
    the linker chose, [lit].  A loop over the format has one turn per byte of memory and one
    more; the calls to [__printf] that report a bad conversion nest once. *)

From Stdlib Require Export Ascii.
From S2P Require Import Prelude Links KString KStdlib.

(** ** Characters and literals *)

Definition ch (c : Ascii.ascii) : Z := Z.of_N (Ascii.N_of_ascii c).

Arguments ch c%_char.

Fixpoint chars (s : string) : list Z :=
  match s with
  | EmptyString => []
  | String c s => ch c :: chars s
  end.

(** ** Conversions *)

Definition MINUS : Z := 1.
Definition PLUS : Z := 2.
Definition SPACE : Z := 4.
Definition POUND : Z := 8.
Definition ZERO : Z := 16.
Definition GROUP : Z := 32.

(** [flags & f] as a condition. *)
Definition has (flags f : Z) : bool := bool_decide (Z.land flags f ≠ 0).

Inductive conv_type := CHAR | SHORT | INT | INTMAX | LONG | LONGLONG | PTRDIFFT | SIZET.

Record printf_conversion := PrintfConversion {
  flags : Z;
  width : Z;
  precision : Z;
  type : conv_type
}.

Record integer_base := IntegerBase {
  base : Z;
  digits : list Z;
  b_x : Z;
  group : Z
}.

Definition base_d : integer_base := IntegerBase 10 (chars "0123456789") 0 3.
Definition base_o : integer_base := IntegerBase 8 (chars "01234567") 0 3.
Definition base_x : integer_base := IntegerBase 16 (chars "0123456789abcdef") (ch "x") 4.
Definition base_X : integer_base := IntegerBase 16 (chars "0123456789ABCDEF") (ch "X") 4.

(** The bytes that a [char] buffer [buf[64]] holds up to [cp], the last one first. *)
Definition buf_size : nat := 64.

Section stdio.
Context {A : Type} (lit : string → Z) (output : Z → M (bmem * A) unit).

Abbreviation S := (bmem * A)%type.

Definition on_mem {B} (f : M bmem B) : M S B := λ s,
  match f s.1 with
  | Ret (b, m) => Ret (b, (m, s.2))
  | Crash => Crash
  | NoFuel => NoFuel
  end.

Definition rd (p : Z) : M S Z := on_mem (load p).

(** ** Arguments *)

Definition va_word (args : list Z) : M S (Z * list Z) :=
  match args with
  | w :: args => mret (w, args)
  | [] => crash
  end.

Definition va_int (args : list Z) : M S (Z * list Z) := '(w, args) ← va_word args; mret (s32 w, args).
Definition va_unsigned (args : list Z) : M S (Z * list Z) := '(w, args) ← va_word args; mret (u32 w, args).

(** The low word comes first. *)
Definition va_wide (args : list Z) : M S (Z * list Z) :=
  '(lo, args) ← va_word args;
  '(hi, args) ← va_word args;
  mret (u32 lo + 2 ^ 32 * u32 hi, args).

(** ** Parsing *)

Definition flag_of (c : Z) : option Z :=
  if bool_decide (c = ch "-") then Some MINUS else
  if bool_decide (c = ch "+") then Some PLUS else
  if bool_decide (c = ch " ") then Some SPACE else
  if bool_decide (c = ch "#") then Some POUND else
  if bool_decide (c = ch "0") then Some ZERO else
  if bool_decide (c = ch "'") then Some GROUP else None.

Fixpoint parse_flags (fuel : nat) (format flags : Z) : M S (Z * Z) :=
  match fuel with
  | O => nofuel
  | Datatypes.S fuel =>
    c ← rd format;
    match flag_of c with
    | Some f => parse_flags fuel (format + 1) (Z.lor flags f)
    | None => mret (format, flags)
    end
  end.

Fixpoint parse_number (fuel : nat) (format n : Z) : M S (Z * Z) :=
  match fuel with
  | O => nofuel
  | Datatypes.S fuel =>
    c ← rd format;
    if isdigit c then parse_number fuel (format + 1) (s32 (n * 10 + c - ch "0")) else mret (format, n)
  end.

(** A field width or a precision. *)
Definition parse_amount (format : Z) (args : list Z) : M S (Z * Z * list Z) :=
  c ← rd format;
  if bool_decide (c = ch "*") then
    '(n, args) ← va_int args;
    mret (format + 1, n, args)
  else
    fuel ← on_mem turns;
    '(format, n) ← parse_number fuel format 0;
    mret (format, n, args).

Definition parse_precision (format : Z) (args : list Z) : M S (Z * Z * list Z) :=
  c ← rd format;
  if bool_decide (c = ch ".") then
    '(format, n, args) ← parse_amount (format + 1) args;
    mret (format, if bool_decide (n < 0) then -1 else n, args)
  else mret (format, -1, args).

Definition parse_type (format : Z) : M S (Z * conv_type) :=
  c ← rd format;
  if bool_decide (c = ch "h") then
    d ← rd (format + 1);
    mret (if bool_decide (d = ch "h") then (format + 2, CHAR) else (format + 1, SHORT))
  else if bool_decide (c = ch "j") then mret (format + 1, INTMAX)
  else if bool_decide (c = ch "l") then
    d ← rd (format + 1);
    mret (if bool_decide (d = ch "l") then (format + 2, LONGLONG) else (format + 1, LONG))
  else if bool_decide (c = ch "t") then mret (format + 1, PTRDIFFT)
  else if bool_decide (c = ch "z") then mret (format + 1, SIZET)
  else mret (format, INT).

Definition parse_conversion (format : Z) (args : list Z) : M S (Z * printf_conversion * list Z) :=
  fuel ← on_mem turns;
  '(format, flags) ← parse_flags fuel format 0;
  let flags := if has flags MINUS then Z.ldiff flags ZERO else flags in
  let flags := if has flags PLUS then Z.ldiff flags SPACE else flags in
  '(format, width, args) ← parse_amount format args;
  let '(width, flags) := if bool_decide (width < 0) then (s32 (- width), Z.lor flags MINUS) else (width, flags) in
  '(format, precision, args) ← parse_precision format args;
  let flags := if bool_decide (0 ≤ precision) then Z.ldiff flags ZERO else flags in
  '(format, type) ← parse_type format;
  mret (format, PrintfConversion flags width precision type, args).

(** ** Output *)

Fixpoint output_dup (c : Z) (cnt : nat) : M S unit :=
  match cnt with
  | O => mret tt
  | Datatypes.S cnt => output c;; output_dup c cnt
  end.

Fixpoint output_all (cs : list Z) : M S unit :=
  match cs with
  | [] => mret tt
  | c :: cs => output c;; output_all cs
  end.

(** [*cp++ = c] *)
Definition push (buf : list Z) (c : Z) : M S (list Z) :=
  if bool_decide (length buf < buf_size)%nat then mret (c :: buf) else crash.

Fixpoint digit_loop (fuel : nat) (b : integer_base) (fl value digit_cnt : Z) (buf : list Z) : M S (list Z) :=
  match fuel with
  | O => nofuel
  | Datatypes.S fuel =>
    if bool_decide (value > 0) then
      buf ← (if has fl GROUP && bool_decide (digit_cnt > 0) && bool_decide (digit_cnt `mod` group b = 0)
             then push buf (ch ",") else mret buf);
      d ← gets_opt (λ _, digits b !! Z.to_nat (value `mod` base b));
      buf ← push buf d;
      digit_loop fuel b fl (value `div` base b) (digit_cnt + 1) buf
    else mret buf
  end.

Fixpoint zero_loop (fuel : nat) (precision : Z) (buf : list Z) : M S (list Z) :=
  match fuel with
  | O => nofuel
  | Datatypes.S fuel =>
    if bool_decide (Z.of_nat (length buf) < precision) && bool_decide (length buf < buf_size - 1)%nat then
      buf ← push buf (ch "0");
      zero_loop fuel precision buf
    else mret buf
  end.

Definition format_integer (value : Z) (is_signed negative : bool) (b : integer_base) (c : printf_conversion) : M S unit :=
  let sign :=
    if is_signed then
      if has (flags c) PLUS then (if negative then ch "-" else ch "+")
      else if has (flags c) SPACE then (if negative then ch "-" else ch " ")
      else if negative then ch "-" else 0
    else 0 in
  let x := if has (flags c) POUND && bool_decide (value ≠ 0) then b_x b else 0 in
  buf ← digit_loop 65 b (flags c) value 0 [];
  let precision := if bool_decide (precision c < 0) then 1 else precision c in
  buf ← zero_loop 65 precision buf;
  buf ← (if has (flags c) POUND && bool_decide (base b = 8) && bool_decide (head buf ≠ Some (ch "0"))
         then push buf (ch "0") else mret buf);
  let pad_cnt := s32 (width c - Z.of_nat (length buf) - (if bool_decide (x ≠ 0) then 2 else 0)
                      - (if bool_decide (sign ≠ 0) then 1 else 0)) in
  let pad_cnt := if bool_decide (pad_cnt < 0) then 0 else pad_cnt in
  (if has (flags c) (Z.lor MINUS ZERO) then mret tt else output_dup (ch " ") (Z.to_nat pad_cnt));;
  (if bool_decide (sign ≠ 0) then output sign else mret tt);;
  (if bool_decide (x ≠ 0) then output (ch "0");; output x else mret tt);;
  (if has (flags c) ZERO then output_dup (ch "0") (Z.to_nat pad_cnt) else mret tt);;
  output_all buf;;
  (if has (flags c) MINUS then output_dup (ch " ") (Z.to_nat pad_cnt) else mret tt).

(** [string i] reads [string[i]]; [n] is the number of characters left. *)
Fixpoint string_loop (n : nat) (string : Z → M S Z) (i : Z) : M S unit :=
  match n with
  | O => mret tt
  | Datatypes.S n => c ← string i; output c;; string_loop n string (i + 1)
  end.

Definition format_string (string : Z → M S Z) (length : Z) (c : printf_conversion) : M S unit :=
  (if bool_decide (width c > length) && negb (has (flags c) MINUS)
   then output_dup (ch " ") (Z.to_nat (width c - length)) else mret tt);;
  string_loop (Z.to_nat length) string 0;;
  (if bool_decide (width c > length) && has (flags c) MINUS
   then output_dup (ch " ") (Z.to_nat (width c - length)) else mret tt).

(** ** Conversion of the arguments *)

Definition SIZE_MAX : Z := 2 ^ 32 - 1.

Definition signed_arg (t : conv_type) (args : list Z) : M S (Z * list Z) :=
  match t with
  | CHAR => '(v, args) ← va_int args; mret (s8 v, args)
  | SHORT => '(v, args) ← va_int args; mret (swrap 16 v, args)
  | INT | LONG | PTRDIFFT => va_int args
  | INTMAX | LONGLONG => '(v, args) ← va_wide args; mret (s64 v, args)
  | SIZET =>
    '(v, args) ← va_unsigned args;
    mret (if bool_decide (v > SIZE_MAX `div` 2) then v - SIZE_MAX - 1 else v, args)
  end.

Definition unsigned_arg (t : conv_type) (args : list Z) : M S (Z * list Z) :=
  match t with
  | CHAR => '(v, args) ← va_unsigned args; mret (u8 v, args)
  | SHORT => '(v, args) ← va_unsigned args; mret (u16 v, args)
  | INT | LONG | SIZET => va_unsigned args
  | INTMAX | LONGLONG => va_wide args
  | PTRDIFFT => '(v, args) ← va_int args; mret (Z.land (u64 v) (Z.lor (Z.shiftl (2 ^ 31 - 1) 1) 1), args)
  end.

Definition base_of (c : Z) : integer_base :=
  if bool_decide (c = ch "o") then base_o else
  if bool_decide (c = ch "u") then base_d else
  if bool_decide (c = ch "x") then base_x else base_X.

(** [char ch = va_arg (args, int)], and the pointer to it. *)
Definition local_char (c : Z) (i : Z) : M S Z := if bool_decide (i = 0) then mret c else crash.

(** One conversion: [fc] is the conversion character, [report] is [__printf]. *)
Definition convert (report : Z → list Z → M S unit) (fc : Z) (c : printf_conversion) (args : list Z) : M S (list Z) :=
  if bool_decide (fc ∈ chars "di") then
    '(value, args) ← signed_arg (type c) args;
    format_integer (u64 (if bool_decide (value < 0) then - value else value)) true (bool_decide (value < 0)) base_d c;;
    mret args
  else if bool_decide (fc ∈ chars "ouxX") then
    '(value, args) ← unsigned_arg (type c) args;
    format_integer value false false (base_of fc) c;;
    mret args
  else if bool_decide (fc = ch "c") then
    '(v, args) ← va_int args;
    format_string (local_char (u8 v)) 1 c;;
    mret args
  else if bool_decide (fc = ch "s") then
    '(s, args) ← va_unsigned args;
    let s := if bool_decide (s = NULL) then lit "(null)" else s in
    n ← on_mem (strnlen s (u32 (precision c)));
    format_string (λ i, rd (s + i)) (s32 n) c;;
    mret args
  else if bool_decide (fc = ch "p") then
    '(p, args) ← va_unsigned args;
    format_integer p false false base_x (PrintfConversion POUND (width c) (precision c) (type c));;
    mret args
  else if bool_decide (fc ∈ chars "feEgGn") then
    report (lit "<<no %%%c in kernel>>") [u32 (s8 fc)];; mret args
  else
    report (lit "<<no %%%c conversion>>") [u32 (s8 fc)];; mret args.

Fixpoint vprintf_loop (fuel : nat) (report : Z → list Z → M S unit) (format : Z) (args : list Z) : M S unit :=
  match fuel with
  | O => nofuel
  | Datatypes.S fuel =>
    c ← rd format;
    if bool_decide (c = 0) then mret tt else
    if bool_decide (c ≠ ch "%") then output c;; vprintf_loop fuel report (format + 1) args else
    d ← rd (format + 1);
    if bool_decide (d = ch "%") then output (ch "%");; vprintf_loop fuel report (format + 2) args else
    '(format, conv, args) ← parse_conversion (format + 1) args;
    fc ← rd format;
    args ← convert report fc conv args;
    vprintf_loop fuel report (format + 1) args
  end.

(** [__vprintf], with at most [depth] nested calls; [__printf] is a call with an argument
    list of its own. *)
Fixpoint vprintf_nested (depth : nat) (format : Z) (args : list Z) : M S unit :=
  match depth with
  | O => nofuel
  | Datatypes.S depth =>
    fuel ← on_mem turns;
    vprintf_loop fuel (vprintf_nested depth) format args
  end.

Definition __vprintf (format : Z) (args : list Z) : M S unit := vprintf_nested 2 format args.
Definition __printf (format : Z) (args : list Z) : M S unit := __vprintf format args.
End stdio.

(** ** Output to a buffer *)

Record vsnprintf_aux := VsnprintfAux {
  aux_p : Z;
  aux_length : Z;
  aux_max_length : Z
}.

Definition vsnprintf_helper (c : Z) : M (bmem * vsnprintf_aux) unit :=
  '(_, aux) ← get;
  let length := aux_length aux in
  let aux' := VsnprintfAux (aux_p aux) (s32 (length + 1)) (aux_max_length aux) in
  if bool_decide (length < aux_max_length aux) then
    on_mem (store (aux_p aux) c);;
    modify (λ s, (s.1, VsnprintfAux (aux_p aux' + 1) (aux_length aux') (aux_max_length aux')))
  else modify (λ s, (s.1, aux')).

(** Runs a call whose callback has the auxiliary data [a], a local of the caller. *)
Definition with_aux {A B} (a : A) (f : M (bmem * A) B) : M bmem B := λ m,
  match f (m, a) with
  | Ret (b, (m, _)) => Ret (b, m)
  | Crash => Crash
  | NoFuel => NoFuel
  end.

Definition vsnprintf (lit : string → Z) (buffer size format : Z) (args : list Z) : M bmem Z :=
  with_aux (VsnprintfAux buffer 0 (s32 (if bool_decide (size > 0) then size - 1 else 0)))
    (__vprintf lit vsnprintf_helper format args;;
     '(_, aux) ← get;
     (if bool_decide (size > 0) then on_mem (store (aux_p aux) 0) else mret tt);;
     mret (aux_length aux)).

Definition snprintf (lit : string → Z) (buffer size format : Z) (args : list Z) : M bmem Z :=
  vsnprintf lit buffer size format args.
