(* ===== verification/KStdioFacts.v ===== *)
(** * KStdioFacts: what formatted output emits

    [sink] is what the formatting functions need from their callback: it appends the
    character it is given ([after]), may be called as often as its budget allows, and leaves
    the protected addresses alone.  [gives m f l v]: whenever memory agrees with [m] on the
    protected addresses, [f] emits [l] and returns [v]. *)

From S2P Require Import Prelude Links KString KStringFacts KStdlib KStdio.

Record sink {A : Type} (output : Z → M (bmem * A) unit) (budget : nat → bmem * A → Prop)
    (prot : Z → Prop) (after : list Z → bmem * A → bmem * A) : Prop := {
  sink_step c n s : budget (S n) s → output c s = Ret (tt, after [c] s);
  sink_nil s : after [] s = s;
  sink_app k l s : after (k ++ l) s = after l (after k s);
  sink_budget l n s : budget (length l + n)%nat s → budget n (after l s);
  sink_size l n s : budget (length l + n)%nat s → size (after l s).1 = size s.1;
  sink_frame l n s p : budget (length l + n)%nat s → prot p → (after l s).1 !! p = s.1 !! p
}.

Section gives.
Context {A : Type} (lit : string → Z) (output : Z → M (bmem * A) unit) (budget : nat → bmem * A → Prop)
  (prot : Z → Prop) (after : list Z → bmem * A → bmem * A) (Hsink : sink output budget prot after).

Definition agree (m m' : bmem) : Prop := size m' = size m ∧ ∀ p, prot p → m' !! p = m !! p.

Definition gives {B} (m : bmem) (f : M (bmem * A) B) (l : list Z) (v : B) : Prop :=
  ∀ s n, agree m s.1 → budget (length l + n)%nat s → f s = Ret (v, after l s).

Lemma gives_bind {B C} m (f : M (bmem * A) B) (k : B → M (bmem * A) C) l1 l2 v w :
  gives m f l1 v → gives m (k v) l2 w → gives m (f ≫= k) (l1 ++ l2) w.
Proof using Hsink.
  intros Hf Hk s n Hs Hb. rewrite length_app, <- Nat.add_assoc in Hb.
  rewrite (bind_Ret _ _ _ _ _ (Hf s _ Hs Hb)), (Hk _ n), (sink_app _ _ _ _ Hsink); [done| |by apply (sink_budget _ _ _ _ Hsink)].
  destruct Hs as [Hz Hp]. split.
  - by rewrite (sink_size _ _ _ _ Hsink _ _ _ Hb).
  - intros p Hpp. rewrite (sink_frame _ _ _ _ Hsink _ _ _ _ Hb) by done. auto.
Qed.

Lemma gives_ret {B} m (v : B) : gives m (mret v) [] v.
Proof using Hsink. intros s n _ _. by rewrite (sink_nil _ _ _ _ Hsink). Qed.

(** A step that emits nothing, and one that returns nothing. *)
Lemma gives_read {B C} m (f : M (bmem * A) B) (k : B → M (bmem * A) C) l v w :
  gives m f [] v → gives m (k v) l w → gives m (f ≫= k) l w.
Proof using Hsink. intros Hf Hk. exact (gives_bind m f k [] l v w Hf Hk). Qed.

Lemma gives_last {B C} m (f : M (bmem * A) B) (k : B → M (bmem * A) C) l v w :
  gives m f l v → gives m (k v) [] w → gives m (f ≫= k) l w.
Proof using Hsink. intros Hf Hk. rewrite <- (app_nil_r l). exact (gives_bind m f k l [] v w Hf Hk). Qed.

Lemma gives_eq {B} m (f : M (bmem * A) B) l l' v : gives m f l v → l = l' → gives m f l' v.
Proof. by intros ? <-. Qed.

Lemma gives_output m c : gives m (output c) [c] tt.
Proof using Hsink. intros s n _ Hb. exact (sink_step _ _ _ _ Hsink c n s Hb). Qed.

Lemma gives_dup m c n : gives m (output_dup output c n) (replicate n c) tt.
Proof using Hsink.
  induction n as [|n IH]; cbn [output_dup replicate]; [apply gives_ret|].
  exact (gives_bind m _ _ [c] _ tt tt (gives_output m c) IH).
Qed.

Lemma gives_all m l : gives m (output_all output l) l tt.
Proof using Hsink.
  induction l as [|c l IH]; cbn [output_all]; [apply gives_ret|].
  exact (gives_bind m _ _ [c] _ tt tt (gives_output m c) IH).
Qed.

Lemma gives_when m (b : bool) f l : (b = true → gives m f l tt) → gives m (if b then f else mret tt) (if b then l else []) tt.
Proof using Hsink. destruct b; [auto|]. intros _. apply gives_ret. Qed.

(** ** Reading *)

(** The bytes [l] at [p], all protected. *)
Definition pbytes (m : bmem) (p : Z) (l : list Z) : Prop :=
  bytes m p l ∧ ∀ k, (k < length l)%nat → prot (p + Z.of_nat k).

Lemma pbytes_cons m p c l : pbytes m p (c :: l) ↔ (m !! p = Some c ∧ prot p) ∧ pbytes m (p + 1) l.
Proof.
  unfold pbytes. rewrite bytes_cons. split.
  - intros [[H1 H2] H3]. split_and!; [done| |done|].
    + specialize (H3 0%nat). rewrite Z.add_0_r in H3. apply H3. simpl. lia.
    + intros k Hk. replace (p + 1 + Z.of_nat k) with (p + Z.of_nat (S k)) by lia. apply H3. simpl. lia.
  - intros [[H1 H2] [H3 H4]]. split_and!; [done|done|]. intros [|k] Hk; [by rewrite Z.add_0_r|].
    replace (p + Z.of_nat (S k)) with (p + 1 + Z.of_nat k) by lia. apply H4. simpl in Hk. lia.
Qed.

Lemma pbytes_app m p k l : pbytes m p (k ++ l) → pbytes m p k ∧ pbytes m (p + Z.of_nat (length k)) l.
Proof.
  revert p. induction k as [|c k IH]; intros p; cbn [app length].
  - rewrite Z.add_0_r. intros H. split; [|done]. split; [by intros ? ?|simpl; lia].
  - rewrite !pbytes_cons. intros [Hc [H1 H2]%IH]. split; [done|]. by replace (p + Z.of_nat (S (length k))) with (p + 1 + Z.of_nat (length k)) by lia.
Qed.

Lemma pbytes_size m p l : pbytes m p l → (length l ≤ size m)%nat.
Proof. intros [H _]. exact (bytes_size m p l H). Qed.

Lemma pbytes_agree m m' p l : pbytes m p l → agree m m' → bytes m' p l.
Proof.
  intros [Hb Hp] [_ Hm] k c Hk. rewrite Hm; [by apply Hb|]. apply Hp. by apply lookup_lt_Some in Hk.
Qed.

Lemma on_mem_gives {B} m (f : M bmem B) v : (∀ m', agree m m' → f m' = Ret (v, m')) → gives m (on_mem f) [] v.
Proof using Hsink.
  intros Hf s n Hs _. unfold on_mem. rewrite (Hf _ Hs), (sink_nil _ _ _ _ Hsink). by destruct s.
Qed.

Lemma rd_gives m p c : m !! p = Some c ∧ prot p → gives m (rd p) [] c.
Proof using Hsink. intros [Hc Hp]. apply on_mem_gives. intros m' [_ Hm]. apply load_run. by rewrite Hm. Qed.

Lemma turns_gives m : gives m (on_mem turns) [] (S (size m)).
Proof using Hsink. apply on_mem_gives. intros m' [Hz _]. rewrite turns_run. by rewrite Hz. Qed.
End gives.

Arguments gives_bind {A output budget prot after} Hsink {B C m f k l1 l2 v w}.
Arguments gives_read {A output budget prot after} Hsink {B C m f k l v w}.
Arguments gives_last {A output budget prot after} Hsink {B C m f k l v w}.
Arguments gives_ret {A output budget prot after} Hsink {B}.
Arguments gives_eq {A budget prot after B m f l l' v}.
Arguments pbytes_cons {prot}.
Arguments pbytes_app {prot m p k l}.
