(* ===== verification/KStdioParse.v ===== *)
(** * KStdioParse: conversion specifications are parsed as they are written

    [cspec]: the flags, width, precision and length of a conversion, with the arguments of
    [*]; [cspec_chars] writes it down and [field_of] says what it means.
    [parse_conversion_gives]: parsing what was written gives its meaning. *)

From S2P Require Import Prelude Links KString KStringFacts KStdlib KStdio KStdioFacts.

(** ** Conversion specifications *)

Inductive amount := Digits (ds : list Z) | Star (n : Z).

Definition amount_chars (a : amount) : list Z := match a with Digits ds => ds | Star _ => [ch "*"] end.
Definition amount_words (a : amount) : list Z := match a with Digits _ => [] | Star n => [u32 n] end.
Definition amount_value (a : amount) : Z := match a with Digits ds => dec ds | Star n => n end.

Definition amount_ok (a : amount) : Prop :=
  match a with
  | Digits ds => Forall (λ c, isdigit c = true) ds ∧ dec ds < 2 ^ 31
  | Star n => (- 2 ^ 31) < n < 2 ^ 31
  end.

Definition prec_chars (o : option amount) : list Z := match o with Some a => ch "." :: amount_chars a | None => [] end.
Definition prec_words (o : option amount) : list Z := match o with Some a => amount_words a | None => [] end.

Definition type_chars (t : conv_type) : list Z :=
  match t with
  | CHAR => chars "hh"
  | SHORT => chars "h"
  | INT => []
  | INTMAX => chars "j"
  | LONG => chars "l"
  | LONGLONG => chars "ll"
  | PTRDIFFT => chars "t"
  | SIZET => chars "z"
  end.

Record cspec := CSpec {
  s_flags : list Z;
  s_width : amount;
  s_prec : option amount;
  s_type : conv_type
}.

Definition cspec_chars (s : cspec) : list Z :=
  s_flags s ++ amount_chars (s_width s) ++ prec_chars (s_prec s) ++ type_chars (s_type s).
Definition cspec_words (s : cspec) : list Z := amount_words (s_width s) ++ prec_words (s_prec s).

(** What a field looks like. *)
Record field := Field {
  left : bool;
  plus : bool;
  space : bool;
  alt : bool;
  zero : bool;
  grouped : bool;
  fwidth : Z;
  fprec : option Z
}.

Definition prec_of (o : option amount) : option Z :=
  match o with
  | Some a => if bool_decide (amount_value a < 0) then None else Some (amount_value a)
  | None => None
  end.

Definition given (c : Z) (s : cspec) : bool := bool_decide (c ∈ s_flags s).

(** The flag [-] and a negative [*] make the field left-justified.  Only the flag takes
    back the flag 0: a field with the flag 0 and a negative [*] has both. *)
Definition field_of (s : cspec) : field :=
  Field (given (ch "-") s || bool_decide (amount_value (s_width s) < 0)) (given (ch "+") s) (given (ch " ") s) (given (ch "#") s)
    (given (ch "0") s && negb (given (ch "-") s) && bool_decide (prec_of (s_prec s) = None)) (given (ch "'") s)
    (Z.abs (amount_value (s_width s))) (prec_of (s_prec s)).

(** A width does not start with the flag 0. *)
Record cspec_ok (s : cspec) : Prop := {
  so_flags : Forall (λ c, is_Some (flag_of c)) (s_flags s);
  so_width : amount_ok (s_width s);
  so_first : head (amount_chars (s_width s)) ≠ Some (ch "0");
  so_prec : ∀ a, s_prec s = Some a → amount_ok a
}.

(** ** Flags as bits *)

Lemma has_bit f k : 0 ≤ k → has f (2 ^ k) = Z.testbit f k.
Proof.
  intros Hk. unfold has. destruct (Z.testbit f k) eqn:E.
  - apply bool_decide_eq_true_2. intros H. assert (Z.testbit (Z.land f (2 ^ k)) k = false) as Hf by (rewrite H; apply Z.bits_0).
    rewrite Z.land_spec, E, Z.pow2_bits_true in Hf by done. done.
  - apply bool_decide_eq_false_2. intros []. apply Z.bits_inj'. intros i Hi. rewrite Z.land_spec, Z.bits_0.
    destruct (decide (i = k)) as [->|Hne]; [by rewrite E|]. rewrite Z.pow2_bits_false by done. by rewrite andb_false_r.
Qed.

Definition flag_set (acc : Z) (fl : list Z) : Z := foldl (λ a c, Z.lor a (default 0 (flag_of c))) acc fl.

Definition flag_chars : list (Z * Z) :=
  [(0, ch "-"); (1, ch "+"); (2, ch " "); (3, ch "#"); (4, ch "0"); (5, ch "'")].

Lemma flag_bit k c d : (k, c) ∈ flag_chars → Z.testbit (default 0 (flag_of d)) k = bool_decide (d = c).
Proof.
  unfold flag_chars, flag_of. rewrite !elem_of_cons, elem_of_nil. intros Hk.
  destruct_or?; simplify_eq; repeat (case_bool_decide; subst; try done).
Qed.

Lemma flag_set_bit k c acc fl :
  (k, c) ∈ flag_chars → Z.testbit (flag_set acc fl) k = Z.testbit acc k || bool_decide (c ∈ fl).
Proof.
  intros Hk. revert acc. induction fl as [|d fl IH]; intros acc; cbn [flag_set foldl].
  - rewrite bool_decide_eq_false_2 by apply not_elem_of_nil. by rewrite orb_false_r.
  - fold (flag_set (Z.lor acc (default 0 (flag_of d))) fl). rewrite IH, Z.lor_spec, (flag_bit k c d Hk), <- orb_assoc. f_equal.
    rewrite <- bool_decide_or. apply bool_decide_ext. rewrite elem_of_cons. naive_solver.
Qed.

(** How the six flags change while a conversion is parsed: [neg] is a negative width,
    [prec] a precision that was given. *)
Definition norm_flags (f : Z) (neg prec : bool) : Z :=
  let f := if has f MINUS then Z.ldiff f ZERO else f in
  let f := if has f PLUS then Z.ldiff f SPACE else f in
  let f := if neg then Z.lor f MINUS else f in
  if prec then Z.ldiff f ZERO else f.

Lemma has_flags f :
  has f MINUS = Z.testbit f 0 ∧ has f PLUS = Z.testbit f 1 ∧ has f SPACE = Z.testbit f 2 ∧
  has f POUND = Z.testbit f 3 ∧ has f ZERO = Z.testbit f 4 ∧ has f GROUP = Z.testbit f 5.
Proof. split_and!; [apply (has_bit f 0)|apply (has_bit f 1)|apply (has_bit f 2)|apply (has_bit f 3)|apply (has_bit f 4)|apply (has_bit f 5)]; lia. Qed.

Lemma bit_clear (b : bool) f g k : Z.testbit (if b then Z.ldiff f g else f) k = Z.testbit f k && negb (b && Z.testbit g k).
Proof. destruct b; [by rewrite Z.ldiff_spec|]. cbn. by rewrite andb_true_r. Qed.

Lemma bit_set (b : bool) f g k : Z.testbit (if b then Z.lor f g else f) k = Z.testbit f k || (b && Z.testbit g k).
Proof. destruct b; [by rewrite Z.lor_spec|]. cbn. by rewrite orb_false_r. Qed.

Lemma norm_flags_bits f neg prec :
  let g := norm_flags f neg prec in
  has g MINUS = Z.testbit f 0 || neg ∧ has g PLUS = Z.testbit f 1 ∧
  has g SPACE = Z.testbit f 2 && negb (Z.testbit f 1) ∧ has g POUND = Z.testbit f 3 ∧
  has g ZERO = Z.testbit f 4 && negb (Z.testbit f 0) && negb prec ∧ has g GROUP = Z.testbit f 5.
Proof.
  cbn zeta. destruct (has_flags (norm_flags f neg prec)) as (-> & -> & -> & -> & -> & ->). unfold norm_flags.
  destruct (has_flags f) as (-> & _). destruct (has_flags (if Z.testbit f 0 then Z.ldiff f ZERO else f)) as (_ & -> & _).
  rewrite !bit_clear, !bit_set, !bit_clear.
  change (Z.testbit ZERO) with (Z.testbit 16). change (Z.testbit SPACE) with (Z.testbit 4). change (Z.testbit MINUS) with (Z.testbit 1).
  generalize (Z.testbit f 2) (Z.testbit f 3) (Z.testbit f 4) (Z.testbit f 5). intros b2 b3 b4 b5.
  destruct (Z.testbit f 0), (Z.testbit f 1), neg, prec, b2, b3, b4, b5; vm_compute; split_and!; reflexivity.
Qed.

(** The parsed conversion means the field [f]. *)
Record matches (c : printf_conversion) (f : field) : Prop := {
  mt_left : has (flags c) MINUS = left f;
  mt_plus : has (flags c) PLUS = plus f;
  mt_space : has (flags c) SPACE = space f && negb (plus f);
  mt_alt : has (flags c) POUND = alt f;
  mt_zero : has (flags c) ZERO = zero f;
  mt_grouped : has (flags c) GROUP = grouped f;
  mt_width : width c = fwidth f;
  mt_prec : precision c = default (-1) (fprec f);
  mt_range : 0 ≤ fwidth f < 2 ^ 31;
  mt_prec_ok : ∀ p, fprec f = Some p → 0 ≤ p < 2 ^ 31
}.

Definition dec_from (n : Z) (ds : list Z) : Z := foldl (λ v c, v * 10 + (c - 48)) n ds.

Lemma digit_range c : isdigit c = true → 48 ≤ c ≤ 57.
Proof. unfold isdigit. by intros ?%bool_decide_eq_true_1. Qed.

Lemma dec_from_ge n ds : 0 ≤ n → Forall (λ c, isdigit c = true) ds → n ≤ dec_from n ds.
Proof.
  intros Hn Hd. revert n Hn. induction Hd as [|c ds Hc%digit_range _ IH]; intros n Hn; cbn; [done|].
  specialize (IH (n * 10 + (c - 48))). unfold dec_from in IH. lia.
Qed.

Lemma amount_range a : amount_ok a → (- 2 ^ 31) < amount_value a < 2 ^ 31.
Proof.
  destruct a as [ds|n]; cbn; [|done]. intros [Hd Hlt]. pose proof (dec_from_ge 0 ds ltac:(lia) Hd) as Hge.
  unfold dec_from, dec in *. lia.
Qed.

Lemma norm_matches s :
  cspec_ok s →
  matches (PrintfConversion
     (norm_flags (flag_set 0 (s_flags s)) (bool_decide (amount_value (s_width s) < 0)) (bool_decide (0 ≤ default (-1) (prec_of (s_prec s)))))
     (Z.abs (amount_value (s_width s))) (default (-1) (prec_of (s_prec s))) (s_type s)) (field_of s).
Proof.
  intros Hs. pose proof (norm_flags_bits (flag_set 0 (s_flags s)) (bool_decide (amount_value (s_width s) < 0))
    (bool_decide (0 ≤ default (-1) (prec_of (s_prec s))))) as Hb. cbn zeta in Hb.
  rewrite (flag_set_bit 0 (ch "-")), (flag_set_bit 1 (ch "+")), (flag_set_bit 2 (ch " ")), (flag_set_bit 3 (ch "#")),
    (flag_set_bit 4 (ch "0")), (flag_set_bit 5 (ch "'")), !Z.bits_0 in Hb by (unfold flag_chars; set_solver).
  cbn [orb] in Hb. destruct Hb as (H0 & H1 & H2 & H3 & H4 & H5).
  assert (bool_decide (0 ≤ default (-1) (prec_of (s_prec s))) = negb (bool_decide (prec_of (s_prec s) = None))) as Hpr.
  { unfold prec_of. destruct (s_prec s) as [a|]; [|done]. destruct (decide (amount_value a < 0)) as [E|E].
    - by rewrite (bool_decide_eq_true_2 (_ < 0)) by done.
    - rewrite (bool_decide_eq_false_2 (_ < 0)) by done. cbn. rewrite bool_decide_eq_true_2; [done|lia]. }
  split; cbn [flags width precision]; try done.
  - by rewrite H4, Hpr, negb_involutive.
  - pose proof (amount_range _ (so_width _ Hs)). cbn [fwidth field_of]. lia.
  - cbn [fprec field_of]. pose proof (so_prec _ Hs) as Ha. clear - Ha. unfold prec_of. destruct (s_prec s) as [a|]; [|done].
    pose proof (amount_range a (Ha a eq_refl)). case_bool_decide; intros p Hp; simplify_eq; lia.
Qed.

(** ** Parsing *)

(** The characters that end the flags, a number, a precision. *)
Definition inert (c : Z) : Prop := flag_of c = None ∧ isdigit c = false ∧ c ≠ ch "*".
Definition closing (c : Z) : Prop := inert c ∧ c ≠ ch ".".
Definition starts (P : Z → Prop) (l : list Z) : Prop := ∃ c r, l = c :: r ∧ P c.

(** A conversion character. *)
Definition conv_char (c : Z) : Prop := closing c ∧ c ∉ chars "hjltz%" ∧ 0 < c < 256.

Lemma starts_type t c r : conv_char c → starts closing (type_chars t ++ c :: r).
Proof. intros [Hc _]. destruct t; (eexists _, _; split; [reflexivity|]); first [exact Hc|by split_and!]. Qed.

Lemma starts_prec o t c r : conv_char c → starts inert (prec_chars o ++ type_chars t ++ c :: r).
Proof.
  intros Hc. destruct o as [a|]; [eexists _, _; split; [reflexivity|]; by split_and!|].
  destruct (starts_type t c r Hc) as (d & r' & Hd & [? _]). exists d, r'. done.
Qed.

Lemma digit_not_flag c : isdigit c = true → c ≠ ch "0" → flag_of c = None.
Proof.
  unfold isdigit, flag_of. intros H%bool_decide_eq_true_1 H0.
  repeat (rewrite bool_decide_eq_false_2 by (first [exact H0 | (intros ->; vm_compute in H; naive_solver)])). done.
Qed.

Lemma starts_width a o t c r :
  conv_char c → amount_ok a → head (amount_chars a) ≠ Some (ch "0") →
  starts (λ c, flag_of c = None) (amount_chars a ++ prec_chars o ++ type_chars t ++ c :: r).
Proof.
  intros Hc Ha Hh. destruct a as [[|d ds]|n]; cbn [amount_chars app] in *.
  - destruct (starts_prec o t c r Hc) as (d & r' & Hd & [? _]). exists d, r'. done.
  - eexists _, _. split; [reflexivity|]. destruct Ha as [[? _]%Forall_cons _]. apply digit_not_flag; [done|]. intros ->. by apply Hh.
  - eexists _, _. split; [reflexivity|]. done.
Qed.

Section parse.
Context {A : Type} (lit : string → Z) (output : Z → M (bmem * A) unit) (budget : nat → bmem * A → Prop)
  (prot : Z → Prop) (after : list Z → bmem * A → bmem * A) (Hsink : sink output budget prot after).

Abbreviation gives := (gives budget prot after).
Abbreviation pbytes := (pbytes prot).

Ltac one c := eapply (gives_read Hsink); [apply (rd_gives output budget prot after Hsink); exact c|].

Lemma parse_flags_gives m fuel p fl l acc :
  pbytes m p (fl ++ l) → Forall (λ c, is_Some (flag_of c)) fl → starts (λ c, flag_of c = None) l → (length fl < fuel)%nat →
  gives m (parse_flags fuel p acc) [] (p + Z.of_nat (length fl), flag_set acc fl).
Proof using Hsink.
  intros Hp Hfl (c & r & -> & Hc). revert fuel p acc Hp.
  induction Hfl as [|d fl [f Hf] _ IH]; intros fuel p acc Hp Hfu; (destruct fuel as [|fuel]; [simpl in Hfu; lia|]);
    cbn [parse_flags app] in *; apply pbytes_cons in Hp as [Hd Hp]; one Hd.
  - rewrite Hc, Z.add_0_r. apply (gives_ret Hsink).
  - rewrite Hf. replace (p + Z.of_nat (length (d :: fl))) with (p + 1 + Z.of_nat (length fl)) by (cbn [length]; lia).
    replace (flag_set acc (d :: fl)) with (flag_set (Z.lor acc f) fl) by (unfold flag_set; cbn [foldl]; by rewrite Hf).
    apply IH; [done|]. simpl in Hfu. lia.
Qed.

Lemma parse_number_gives m fuel p ds l n :
  pbytes m p (ds ++ l) → Forall (λ c, isdigit c = true) ds → starts (λ c, isdigit c = false) l → (length ds < fuel)%nat →
  0 ≤ n → dec_from n ds < 2 ^ 31 →
  gives m (parse_number fuel p n) [] (p + Z.of_nat (length ds), dec_from n ds).
Proof using Hsink.
  intros Hp Hds (c & r & -> & Hc). revert fuel p n Hp.
  induction Hds as [|d ds Hd Hds IH]; intros fuel p n Hp Hfu Hn Hlt; (destruct fuel as [|fuel]; [simpl in Hfu; lia|]);
    cbn [parse_number app] in *; apply pbytes_cons in Hp as [Hx Hp]; one Hx.
  - rewrite Hc, Z.add_0_r. apply (gives_ret Hsink).
  - rewrite Hd. apply digit_range in Hd. replace (p + Z.of_nat (length (d :: ds))) with (p + 1 + Z.of_nat (length ds)) by (cbn [length]; lia).
    unfold dec_from in Hlt |- *. cbn [foldl] in Hlt |- *. fold (dec_from (n * 10 + (d - 48)) ds) in Hlt |- *.
    pose proof (dec_from_ge (n * 10 + (d - 48)) ds ltac:(lia) Hds). change (ch "0") with 48.
    replace (s32 (n * 10 + d - 48)) with (n * 10 + (d - 48)) by (rewrite swrap_id; lia).
    apply IH; [done|simpl in Hfu; lia|lia|done].
Qed.

Lemma va_int_gives m n args : (- 2 ^ 31) ≤ n < 2 ^ 31 → gives m (va_int (u32 n :: args)) [] (n, args).
Proof using Hsink.
  intros Hn. eapply (gives_read Hsink); [apply (gives_ret Hsink)|]. cbn beta iota.
  replace (s32 (u32 n)) with n; [apply (gives_ret Hsink)|]. unfold swrap, uwrap. Z.div_mod_to_equations. lia.
Qed.

Lemma parse_amount_gives m p a l args :
  pbytes m p (amount_chars a ++ l) → amount_ok a → starts inert l →
  gives m (parse_amount p (amount_words a ++ args)) [] (p + Z.of_nat (length (amount_chars a)), amount_value a, args).
Proof using Hsink.
  intros Hp Ha Hl. unfold parse_amount. destruct a as [ds|n]; cbn [amount_chars amount_words amount_value app] in *.
  - assert (∃ c r, ds ++ l = c :: r ∧ c ≠ ch "*") as (c & r & He & Hc).
    { destruct Ha as [Hd _], Hl as (c & r & -> & _ & _ & ?). destruct ds as [|d ds]; [by exists c, r|].
      exists d, (ds ++ c :: r). split; [done|]. apply Forall_cons in Hd as [Hd%digit_range _]. intros ->. vm_compute in Hd. naive_solver. }
    pose proof (pbytes_size _ _ _ _ Hp) as Hsz. pose proof Hp as Hp0. rewrite He in Hp. apply pbytes_cons in Hp as [Hx _]. one Hx.
    rewrite bool_decide_eq_false_2 by done. eapply (gives_read Hsink); [apply (turns_gives output budget prot after Hsink)|].
    eapply (gives_read Hsink).
    { apply (parse_number_gives m _ p ds l 0); [done|apply Ha| | |done|apply Ha].
      - destruct Hl as (d & r' & -> & _ & ? & _). by eexists _, _.
      - rewrite length_app in Hsz. lia. }
    apply (gives_ret Hsink).
  - apply pbytes_cons in Hp as [Hx _]. one Hx. rewrite bool_decide_eq_true_2 by done.
    eapply (gives_read Hsink); [apply va_int_gives; cbn in Ha; lia|]. apply (gives_ret Hsink).
Qed.

Lemma parse_precision_gives m p o l args :
  pbytes m p (prec_chars o ++ l) → (∀ a, o = Some a → amount_ok a) → starts closing l →
  gives m (parse_precision p (prec_words o ++ args)) [] (p + Z.of_nat (length (prec_chars o)), default (-1) (prec_of o), args).
Proof using Hsink.
  intros Hp Ho (c & r & -> & Hc & Hdot). unfold parse_precision. destruct o as [a|]; cbn [prec_chars prec_words app] in *.
  - apply pbytes_cons in Hp as [Hx Hp]. one Hx. rewrite bool_decide_eq_true_2 by done.
    eapply (gives_read Hsink); [apply (parse_amount_gives m _ a (c :: r)); [done|by apply Ho|by exists c, r]|]. cbn beta iota.
    replace (if bool_decide (amount_value a < 0) then -1 else amount_value a) with (default (-1) (prec_of (Some a)))
      by (cbn; by case_bool_decide).
    replace (p + 1 + Z.of_nat (length (amount_chars a))) with (p + Z.of_nat (length (ch "." :: amount_chars a))) by (cbn [length]; lia).
    apply (gives_ret Hsink).
  - apply pbytes_cons in Hp as [Hx _]. one Hx. rewrite bool_decide_eq_false_2 by done. rewrite Z.add_0_r. apply (gives_ret Hsink).
Qed.

Lemma parse_type_gives m p t c r :
  pbytes m p (type_chars t ++ c :: r) → c ∉ chars "hjltz%" →
  gives m (parse_type p) [] (p + Z.of_nat (length (type_chars t)), t).
Proof using Hsink.
  intros Hp Hc. change (chars "hjltz%") with [ch "h"; ch "j"; ch "l"; ch "t"; ch "z"; ch "%"] in Hc. rewrite !not_elem_of_cons in Hc. destruct Hc as (Hh & Hj & Hl & Ht & Hz & _).
  unfold parse_type. destruct t; cbn [type_chars chars app length] in *; apply pbytes_cons in Hp as [Hx Hp]; one Hx;
    rewrite ?Z.add_0_r; try (apply (gives_ret Hsink));
    try (apply pbytes_cons in Hp as [Hy _]; cbn; one Hy; rewrite ?(bool_decide_eq_false_2 (c = _)) by done; apply (gives_ret Hsink)).
  rewrite !bool_decide_eq_false_2 by done. apply (gives_ret Hsink).
Qed.

Lemma parse_conversion_gives m p s c r args :
  pbytes m p (cspec_chars s ++ c :: r) → conv_char c → cspec_ok s →
  ∃ cv, gives m (parse_conversion p (cspec_words s ++ args)) [] (p + Z.of_nat (length (cspec_chars s)), cv, args) ∧
    matches cv (field_of s) ∧ type cv = s_type s.
Proof using Hsink.
  intros Hp Hc Hs. unfold cspec_chars, cspec_words in *. rewrite <- !app_assoc in *.
  pose proof (pbytes_size _ _ _ _ Hp) as Hsz. rewrite length_app in Hsz. pose proof Hp as Hp0. apply pbytes_app in Hp as [_ Hp].
  pose proof Hp as Hp1. apply pbytes_app in Hp as [_ Hp]. pose proof Hp as Hp2. apply pbytes_app in Hp as [_ Hp3].
  set (w := amount_value (s_width s)). set (pr := prec_of (s_prec s)).
  exists (PrintfConversion (norm_flags (flag_set 0 (s_flags s)) (bool_decide (w < 0)) (bool_decide (0 ≤ default (-1) pr)))
     (Z.abs w) (default (-1) pr) (s_type s)). split_and!; [|by apply norm_matches|done].
  unfold parse_conversion. eapply (gives_read Hsink); [apply (turns_gives output budget prot after Hsink)|].
  eapply (gives_read Hsink).
  { apply (parse_flags_gives m _ p _ _ 0 Hp0); [apply Hs|apply starts_width; [done|apply Hs|apply Hs]|].
    destruct (starts_width (s_width s) (s_prec s) (s_type s) c r Hc) as (? & ? & E & _); [apply Hs..|].
    apply (f_equal length) in E. cbn [length] in E. lia. }
  cbn beta iota zeta. eapply (gives_read Hsink); [apply (parse_amount_gives m _ (s_width s) _ _ Hp1); [apply Hs|by apply starts_prec]|].
  cbn beta iota zeta. fold w. pose proof (amount_range _ (so_width _ Hs)) as Hwr. fold w in Hwr.
  replace (Z.abs w) with (if bool_decide (w < 0) then s32 (- w) else w) by (case_bool_decide; [rewrite swrap_id by lia|]; lia).
  set (fl := if has (if has (flag_set 0 (s_flags s)) MINUS then Z.ldiff (flag_set 0 (s_flags s)) ZERO else flag_set 0 (s_flags s)) PLUS then _ else _).
  replace (if bool_decide (w < 0) then (s32 (- w), Z.lor fl MINUS) else (w, fl))
    with (if bool_decide (w < 0) then s32 (- w) else w, if bool_decide (w < 0) then Z.lor fl MINUS else fl) by (by destruct (bool_decide (w < 0))).
  eapply (gives_read Hsink); [apply (parse_precision_gives m _ (s_prec s) _ _ Hp2); [apply Hs|by apply starts_type]|].
  cbn beta iota zeta. fold pr. eapply (gives_read Hsink); [apply (parse_type_gives m _ (s_type s) c r Hp3); apply Hc|]. cbn beta iota.
  rewrite !length_app.
  replace (p + Z.of_nat (length (s_flags s) + (length (amount_chars (s_width s)) + (length (prec_chars (s_prec s)) + length (type_chars (s_type s))))))
    with (p + Z.of_nat (length (s_flags s)) + Z.of_nat (length (amount_chars (s_width s))) + Z.of_nat (length (prec_chars (s_prec s))) + Z.of_nat (length (type_chars (s_type s)))) by lia.
  apply (gives_ret Hsink).
Qed.
End parse.
