(* ===== verification/KStdioFields.v ===== *)
(** * KStdioFields: the text of a field

    [int_text] and [string_text] say what an integer and a string look like in a field; the
    formatting functions emit exactly that, and the digit buffer never overflows. *)

From S2P Require Import Prelude Links KString KStringFacts KStdlib KStdio KStdioFacts KStdioParse.

(** ** Digits *)

(** The digits of [v], the last one first. *)
Fixpoint lsd (fuel : nat) (b v : Z) : list Z :=
  match fuel with
  | O => []
  | S fuel => if bool_decide (0 < v) then v `mod` b :: lsd fuel b (v `div` b) else []
  end.

Definition digit (b : integer_base) (d : Z) : Z := default 0 (digits b !! Z.to_nat d).

(** Their characters, with a comma before every [group]-th one from the right. *)
Fixpoint lsd_text (b : integer_base) (grp : bool) (k : Z) (ds : list Z) : list Z :=
  match ds with
  | [] => []
  | d :: ds =>
    (if grp && bool_decide (0 < k) && bool_decide (k `mod` group b = 0) then [ch ","] else []) ++
    digit b d :: lsd_text b grp (k + 1) ds
  end.

Definition number_text (b : integer_base) (grp : bool) (v : Z) : list Z := rev (lsd_text b grp 0 (lsd 64 (base b) v)).

(** ** Fields *)

Definition spaces (n : nat) : list Z := replicate n (ch " ").
Definition zeros (n : nat) : list Z := replicate n (ch "0").

(** A field that is to be both left-justified and filled with zeros is padded twice, to more
    than its width. *)
Definition pad (f : field) (hd body : list Z) : list Z :=
  let n := Z.to_nat (fwidth f - Z.of_nat (length hd + length body)) in
  if left f then hd ++ (if zero f then zeros n else []) ++ body ++ spaces n
  else if zero f then hd ++ zeros n ++ body
  else spaces n ++ hd ++ body.

Definition sign_text (f : field) (is_signed negative : bool) : list Z :=
  if negb is_signed then []
  else if negative then [ch "-"]
  else if plus f then [ch "+"]
  else if space f then [ch " "]
  else [].

(** At least as many digits as the precision says, but no more than 63 characters. *)
Definition extended (f : field) (b : integer_base) (v : Z) : list Z :=
  let ds := number_text b (grouped f) v in
  zeros (Z.to_nat (Z.min 63 (default 1 (fprec f))) - length ds) ++ ds.

Definition digits_text (f : field) (b : integer_base) (v : Z) : list Z :=
  let ds := extended f b v in
  if alt f && bool_decide (base b = 8) && bool_decide (head ds ≠ Some (ch "0")) then ch "0" :: ds else ds.

Definition int_text (f : field) (v : Z) (is_signed negative : bool) (b : integer_base) : list Z :=
  pad f (sign_text f is_signed negative ++ (if alt f && bool_decide (v ≠ 0) && bool_decide (b_x b ≠ 0) then [ch "0"; b_x b] else []))
    (digits_text f b v).

Definition string_text (f : field) (s : list Z) : list Z :=
  let n := Z.to_nat (fwidth f - Z.of_nat (length s)) in
  if left f then s ++ spaces n else spaces n ++ s.

(** ** Facts about digits *)

Record base_ok (b : integer_base) : Prop := {
  bo_base : 8 ≤ base b;
  bo_digits : Z.of_nat (length (digits b)) = base b;
  bo_bytes : Forall (λ d, 0 < d < 256) (digits b);
  bo_group : 0 < group b
}.

Lemma bases_ok : base_ok base_d ∧ base_ok base_o ∧ base_ok base_x ∧ base_ok base_X.
Proof. split_and!; split; cbn; try lia; repeat constructor. Qed.

Lemma lsd_length fuel b v n : 8 ≤ b → 0 ≤ v < b ^ Z.of_nat n → (length (lsd fuel b v) ≤ n)%nat.
Proof.
  intros Hb. revert v n. induction fuel as [|fuel IH]; intros v n Hv; cbn [lsd]; [simpl; lia|]. case_bool_decide as H0; [|simpl; lia].
  destruct n as [|n]; [simpl in Hv; lia|]. cbn [length]. apply le_n_S, IH. rewrite Nat2Z.inj_succ, Z.pow_succ_r in Hv by lia.
  split; [apply Z.div_pos; lia|]. apply Z.div_lt_upper_bound; lia.
Qed.

Lemma lsd_text_length b grp k ds : (length (lsd_text b grp k ds) ≤ 2 * length ds)%nat.
Proof.
  revert k. induction ds as [|d ds IH]; intros k; cbn [lsd_text length]; [lia|]. rewrite length_app. cbn [length]. specialize (IH (k + 1)).
  destruct (_ && _ && _); simpl; lia.
Qed.

Lemma number_length b grp v : base_ok b → is_u64 v → (length (number_text b grp v) ≤ 44)%nat.
Proof.
  intros Hb Hv. unfold number_text. rewrite length_rev. pose proof (lsd_text_length b grp 0 (lsd 64 (base b) v)).
  pose proof (lsd_length 64 (base b) v 22 (bo_base _ Hb)) as Hl. unfold is_u64 in Hv.
  assert (8 ^ 22 ≤ base b ^ 22) by (apply Z.pow_le_mono_l; split; [lia|apply Hb]). change (8 ^ 22) with (2 ^ 66) in *.
  assert (length (lsd 64 (base b) v) ≤ 22)%nat; [apply Hl; change (Z.of_nat 22) with 22; lia|lia].
Qed.

Lemma has_lor f a b : has f (Z.lor a b) = has f a || has f b.
Proof.
  unfold has. rewrite Z.land_lor_distr_r. destruct (decide (Z.land f a = 0)) as [E|E].
  - rewrite (bool_decide_eq_false_2 (Z.land f a ≠ 0)) by tauto. cbn [orb]. apply bool_decide_ext. rewrite Z.lor_eq_0_iff. tauto.
  - rewrite (bool_decide_eq_true_2 (Z.land f a ≠ 0)) by done. cbn [orb]. apply bool_decide_eq_true_2. rewrite Z.lor_eq_0_iff. tauto.
Qed.

(** The sign character, 0 for none. *)
Definition sign_char (fl : Z) (is_signed negative : bool) : Z :=
  if is_signed then
    if has fl PLUS then (if negative then ch "-" else ch "+")
    else if has fl SPACE then (if negative then ch "-" else ch " ")
    else if negative then ch "-" else 0
  else 0.

Lemma sign_char_text c f is_signed negative :
  matches c f →
  (if bool_decide (sign_char (flags c) is_signed negative ≠ 0) then [sign_char (flags c) is_signed negative] else [])
  = sign_text f is_signed negative.
Proof.
  intros Hm. unfold sign_char, sign_text. rewrite (mt_plus _ _ Hm), (mt_space _ _ Hm).
  destruct is_signed, negative, (plus f), (space f); reflexivity.
Qed.

Lemma extended_length f b v : base_ok b → is_u64 v → (length (extended f b v) ≤ 63)%nat.
Proof.
  intros Hb Hv. pose proof (number_length b (grouped f) v Hb Hv). unfold extended. rewrite length_app. unfold zeros. rewrite length_replicate. lia.
Qed.

(** ** The loops *)

Section fields.
Context {A : Type} (lit : string → Z) (output : Z → M (bmem * A) unit) (budget : nat → bmem * A → Prop)
  (prot : Z → Prop) (after : list Z → bmem * A → bmem * A) (Hsink : sink output budget prot after).

Abbreviation gives := (gives budget prot after).
Abbreviation pbytes := (pbytes prot).

Lemma push_gives m buf c : (length buf < 64)%nat → gives m (push buf c) [] (c :: buf).
Proof using Hsink. intros H. unfold push. rewrite bool_decide_eq_true_2 by done. apply (gives_ret Hsink). Qed.

Lemma digit_loop_gives fuel m b fl v k buf :
  base_ok b → 0 ≤ v < 2 ^ Z.of_nat fuel → 0 ≤ k →
  (length buf + length (lsd_text b (has fl GROUP) k (lsd fuel (base b) v)) ≤ 64)%nat →
  gives m (digit_loop (S fuel) b fl v k buf) [] (rev (lsd_text b (has fl GROUP) k (lsd fuel (base b) v)) ++ buf).
Proof using Hsink.
  intros Hb. revert v k buf. induction fuel as [|fuel IH]; intros v k buf Hv Hk Hroom.
  { cbn [digit_loop]. rewrite bool_decide_eq_false_2 by (simpl in Hv; lia). apply (gives_ret Hsink). }
  pose proof (bo_base _ Hb). rewrite Nat2Z.inj_succ, Z.pow_succ_r in Hv by lia.
  cbn [lsd] in Hroom |- *. remember (S fuel) as n eqn:En. cbn [digit_loop]. destruct (decide (0 < v)) as [Hpos|Hz].
  2:{ rewrite (bool_decide_eq_false_2 (v > 0)), (bool_decide_eq_false_2 (0 < v)) by lia. apply (gives_ret Hsink). }
  rewrite (bool_decide_eq_true_2 (v > 0)) by lia. rewrite (bool_decide_eq_true_2 (0 < v)) in Hroom |- * by lia. subst n.
  cbn [lsd_text] in Hroom |- *. rewrite length_app in Hroom. cbn [length] in Hroom.
  assert (is_Some (digits b !! Z.to_nat (v `mod` base b))) as [d Hd].
  { apply lookup_lt_is_Some. pose proof (bo_digits _ Hb). pose proof (Z.mod_pos_bound v (base b) ltac:(lia)). lia. }
  assert (digit b (v `mod` base b) = d) as -> by (unfold digit; by rewrite Hd).
  set (rest := lsd_text b (has fl GROUP) (k + 1) (lsd fuel (base b) (v `div` base b))) in *.
  replace (bool_decide (k > 0)) with (bool_decide (0 < k)) by (apply bool_decide_ext; lia).
  set (sep := has fl GROUP && bool_decide (0 < k) && bool_decide (k `mod` group b = 0)) in *.
  eapply (gives_read Hsink).
  { instantiate (1 := (if sep then [ch ","] else []) ++ buf). destruct sep; [apply push_gives; simpl in Hroom; lia|apply (gives_ret Hsink)]. }
  eapply (gives_read Hsink).
  { intros s n _ _. unfold gets_opt. rewrite Hd, (sink_nil _ _ _ _ Hsink). done. }
  eapply (gives_read Hsink); [apply push_gives; rewrite length_app; lia|].
  replace (rev ((if sep then [ch ","] else []) ++ d :: rest) ++ buf) with (rev rest ++ d :: (if sep then [ch ","] else []) ++ buf)
    by (destruct sep; cbn [app rev]; by rewrite <- ?app_assoc).
  apply IH; [|lia|fold rest; cbn [length]; rewrite length_app; lia].
  split; [apply Z.div_pos; lia|]. apply Z.div_lt_upper_bound; [lia|]. nia.
Qed.

Lemma zero_loop_gives fuel m p buf :
  (63 - length buf < fuel)%nat →
  gives m (zero_loop fuel p buf) [] (zeros (Z.to_nat (Z.min 63 p) - length buf) ++ buf).
Proof using Hsink.
  revert buf. induction fuel as [|fuel IH]; intros buf Hf; [lia|]. cbn [zero_loop]. unfold buf_size.
  destruct (decide (Z.of_nat (length buf) < p ∧ (length buf < 63)%nat)) as [[H1 H2]|Hn].
  - rewrite (bool_decide_eq_true_2 (_ < p)), (bool_decide_eq_true_2 (_ < 64 - 1)%nat) by lia. cbn [andb].
    eapply (gives_read Hsink); [apply push_gives; lia|].
    replace (Z.to_nat (Z.min 63 p) - length buf)%nat with (S (Z.to_nat (Z.min 63 p) - S (length buf))) by lia.
    unfold zeros. replace (replicate (S (Z.to_nat (Z.min 63 p) - S (length buf))) (ch "0") ++ buf)
      with (replicate (Z.to_nat (Z.min 63 p) - length (ch "0" :: buf)) (ch "0") ++ ch "0" :: buf)
      by (rewrite replicate_S_end, <- app_assoc; done).
    apply IH. cbn [length]. lia.
  - replace (bool_decide (Z.of_nat (length buf) < p) && bool_decide (length buf < 64 - 1)%nat) with false.
    + replace (Z.to_nat (Z.min 63 p) - length buf)%nat with 0%nat by lia. apply (gives_ret Hsink).
    + symmetry. apply andb_false_iff. destruct (decide (Z.of_nat (length buf) < p)); [right|left]; apply bool_decide_eq_false_2; lia.
Qed.

Lemma format_integer_gives m c f v is_signed negative b :
  matches c f → base_ok b → is_u64 v →
  gives m (format_integer output v is_signed negative b c) (int_text f v is_signed negative b) tt.
Proof using Hsink.
  intros Hm Hb Hv. unfold format_integer. fold (sign_char (flags c) is_signed negative). cbn zeta.
  pose proof (number_length b (grouped f) v Hb Hv) as Hnum. pose proof (extended_length f b v Hb Hv) as Hlen.
  eapply (gives_read Hsink).
  { apply (digit_loop_gives 64 m b (flags c) v 0 []); [done|exact Hv|lia|]. rewrite (mt_grouped _ _ Hm). unfold number_text in Hnum.
    rewrite length_rev in Hnum. cbn [length]. lia. }
  rewrite (mt_grouped _ _ Hm), app_nil_r. fold (number_text b (grouped f) v).
  eapply (gives_read Hsink).
  { replace (if bool_decide (precision c < 0) then 1 else precision c) with (default 1 (fprec f)).
    2:{ rewrite (mt_prec _ _ Hm). pose proof (mt_prec_ok _ _ Hm) as Hp. destruct (fprec f) as [p|]; [|done]. cbn.
        rewrite bool_decide_eq_false_2; [done|]. specialize (Hp p eq_refl). lia. }
    apply zero_loop_gives. lia. }
  fold (extended f b v).
  eapply (gives_read Hsink).
  { instantiate (1 := digits_text f b v). unfold digits_text. rewrite (mt_alt _ _ Hm).
    destruct (alt f && bool_decide (base b = 8) && _); [apply push_gives; lia|apply (gives_ret Hsink)]. }
  rewrite has_lor, (mt_left _ _ Hm), (mt_zero _ _ Hm), (mt_alt _ _ Hm), (mt_width _ _ Hm).
  set (x := if alt f && bool_decide (v ≠ 0) then b_x b else 0). set (sg := sign_char (flags c) is_signed negative).
  set (hd := sign_text f is_signed negative ++ (if bool_decide (x ≠ 0) then [ch "0"; x] else [])).
  set (n := Z.to_nat (fwidth f - Z.of_nat (length hd + length (digits_text f b v)))).
  assert (Z.of_nat (length hd) = (if bool_decide (x ≠ 0) then 2 else 0) + (if bool_decide (sg ≠ 0) then 1 else 0)) as Hhd.
  { unfold hd, sg. rewrite <- (sign_char_text c f) by done. rewrite length_app. fold sg. by destruct (bool_decide (x ≠ 0)), (bool_decide (sg ≠ 0)). }
  assert (length (digits_text f b v) ≤ 64)%nat by (unfold digits_text; destruct (_ && _ && _); cbn [length]; lia).
  match goal with |- context [Z.to_nat ?e] => replace (Z.to_nat e) with n end.
  2:{ pose proof (mt_range _ _ Hm). unfold n. clearbody hd x sg. clear - Hhd H H0.
      destruct (bool_decide (x ≠ 0)), (bool_decide (sg ≠ 0)); rewrite swrap_id by lia; case_bool_decide; lia. }
  apply (gives_eq (l := (if negb (left f || zero f) then spaces n else []) ++ (if bool_decide (sg ≠ 0) then [sg] else []) ++
     (if bool_decide (x ≠ 0) then [ch "0"; x] else []) ++ (if zero f then zeros n else []) ++ digits_text f b v ++ (if left f then spaces n else []))).
  - eapply (gives_bind Hsink).
    { destruct (left f || zero f); [apply (gives_ret Hsink)|apply (gives_dup output budget prot after Hsink)]. }
    eapply (gives_bind Hsink).
    { apply (gives_when output budget prot after Hsink). intros _. apply (gives_output output budget prot after Hsink). }
    eapply (gives_bind Hsink).
    { apply (gives_when output budget prot after Hsink). intros _. apply (gives_bind Hsink (l1 := [ch "0"]) (l2 := [x]) (v := tt));
        apply (gives_output output budget prot after Hsink). }
    eapply (gives_bind Hsink).
    { apply (gives_when output budget prot after Hsink). intros _. apply (gives_dup output budget prot after Hsink). }
    eapply (gives_bind Hsink); [apply (gives_all output budget prot after Hsink)|].
    apply (gives_when output budget prot after Hsink). intros _. apply (gives_dup output budget prot after Hsink).
  - unfold int_text. replace (if alt f && bool_decide (v ≠ 0) && bool_decide (b_x b ≠ 0) then [ch "0"; b_x b] else [])
      with (if bool_decide (x ≠ 0) then [ch "0"; x] else []) by (unfold x; by destruct (alt f), (bool_decide (v ≠ 0))).
    fold hd. unfold pad. fold n. unfold sg. rewrite (sign_char_text c f) by done. unfold hd.
    destruct (left f), (zero f); cbn [orb negb app]; rewrite ?app_nil_r, <- ?app_assoc; done.
Qed.

(** ** Strings *)

Lemma string_loop_gives m (rdc : Z → M (bmem * A) Z) s i :
  (∀ k c, s !! k = Some c → gives m (rdc (i + Z.of_nat k)) [] c) →
  gives m (string_loop output (length s) rdc i) s tt.
Proof using Hsink.
  revert i. induction s as [|c s IH]; intros i Hr; cbn [string_loop length]; [apply (gives_ret Hsink)|].
  eapply (gives_read Hsink); [rewrite <- (Z.add_0_r i); apply (Hr 0%nat c eq_refl)|].
  apply (gives_bind Hsink (l1 := [c]) (v := tt)); [apply (gives_output output budget prot after Hsink)|].
  apply IH. intros k d Hk. replace (i + 1 + Z.of_nat k) with (i + Z.of_nat (S k)) by lia. by apply Hr.
Qed.

Lemma format_string_gives m c f (rdc : Z → M (bmem * A) Z) s :
  matches c f → (∀ k c, s !! k = Some c → gives m (rdc (Z.of_nat k)) [] c) →
  gives m (format_string output rdc (Z.of_nat (length s)) c) (string_text f s) tt.
Proof using Hsink.
  intros Hm Hr. unfold format_string. rewrite (mt_left _ _ Hm), (mt_width _ _ Hm), Nat2Z.id. pose proof (mt_range _ _ Hm).
  set (n := Z.to_nat (fwidth f - Z.of_nat (length s))).
  set (more := bool_decide (fwidth f > Z.of_nat (length s))).
  apply (gives_eq (l := (if more && negb (left f) then spaces n else []) ++ s ++ (if more && left f then spaces n else []))).
  - eapply (gives_bind Hsink).
    { apply (gives_when output budget prot after Hsink). intros _. apply (gives_dup output budget prot after Hsink). }
    eapply (gives_bind Hsink); [by apply string_loop_gives|].
    apply (gives_when output budget prot after Hsink). intros _. apply (gives_dup output budget prot after Hsink).
  - unfold string_text. fold n. assert (more = false → n = 0%nat) as Hmore.
    { unfold more, n. intros ?%bool_decide_eq_false_1. lia. }
    destruct more, (left f); cbn [andb negb app]; rewrite ?app_nil_r, ?Hmore by done; cbn; rewrite ?app_nil_r; done.
Qed.
End fields.
