(* ===== verification/KStdioSpec.v ===== *)
(** * KStdioSpec: correctness of formatted output

    A call of [printf] is a list of items: plain characters, [%%], and conversions with
    their arguments.  [item_chars] is the format, [item_words] the argument words and
    [item_text] the output.  Any callback that is a [sink] receives exactly that output,
    whatever the flags, widths and precisions; [vsnprintf] stores it, cut to the buffer. *)

From S2P Require Import Prelude Links KString KStringFacts KStdlib KStdio KStdioFacts KStdioParse KStdioFields.

Inductive directive :=
| DSigned (i : bool) (v : Z)
| DUnsigned (fc v : Z)
| DChar (v : Z)
| DString (p : Z) (s : list Z)
| DPointer (p : Z)
| DOther (fc : Z).

Inductive item := Plain (c : Z) | Percent | Conv (s : cspec) (d : directive).

Definition d_char (d : directive) : Z :=
  match d with
  | DSigned i _ => if i then ch "i" else ch "d"
  | DUnsigned fc _ => fc
  | DChar _ => ch "c"
  | DString _ _ => ch "s"
  | DPointer _ => ch "p"
  | DOther fc => fc
  end.

Definition wide (t : conv_type) : bool := match t with INTMAX | LONGLONG => true | _ => false end.
Definition int_words (t : conv_type) (v : Z) : list Z := if wide t then [u32 v; u32 (v `div` 2 ^ 32)] else [u32 v].

Definition d_words (t : conv_type) (d : directive) : list Z :=
  match d with
  | DSigned _ v | DUnsigned _ v => int_words t v
  | DChar v => [u32 v]
  | DString p _ => [p]
  | DPointer p => [p]
  | DOther _ => []
  end.

Definition report_text (fc : Z) : list Z :=
  chars "<<no %" ++ [fc] ++ (if bool_decide (fc ∈ chars "feEgGn") then chars " in kernel>>" else chars " conversion>>").

Definition d_text (f : field) (d : directive) : list Z :=
  match d with
  | DSigned _ v => int_text f (Z.abs v) true (bool_decide (v < 0)) base_d
  | DUnsigned fc v => int_text f v false false (base_of fc)
  | DChar v => string_text f [u8 v]
  | DString _ s => string_text f (match fprec f with Some n => take (Z.to_nat n) s | None => s end)
  | DPointer p => int_text (Field false false false true false false (fwidth f) (fprec f)) p false false base_x
  | DOther fc => report_text fc
  end.

Definition item_chars (i : item) : list Z :=
  match i with
  | Plain c => [c]
  | Percent => chars "%%"
  | Conv s d => ch "%" :: cspec_chars s ++ [d_char d]
  end.

Definition item_words (i : item) : list Z :=
  match i with
  | Conv s d => cspec_words s ++ d_words (s_type s) d
  | _ => []
  end.

Definition item_text (i : item) : list Z :=
  match i with
  | Plain c => [c]
  | Percent => [ch "%"]
  | Conv s d => d_text (field_of s) d
  end.

Definition format_of (its : list item) : list Z := concat (item_chars <$> its).
Definition words_of (its : list item) : list Z := concat (item_words <$> its).
Definition text_of (its : list item) : list Z := concat (item_text <$> its).

(** ** Valid calls *)

Definition bits (t : conv_type) : Z := match t with CHAR => 8 | SHORT => 16 | INTMAX | LONGLONG => 64 | _ => 32 end.

Section valid.
Context (lit : string → Z) (prot : Z → Prop) (m : bmem).

Definition pstr (p : Z) (s : list Z) : Prop := cstr m p s ∧ pbytes prot m p (s ++ [0]).

Definition d_ok (t : conv_type) (d : directive) : Prop :=
  match d with
  | DSigned _ v => (- 2 ^ (bits t - 1)) ≤ v < 2 ^ (bits t - 1)
  | DUnsigned fc v => fc ∈ chars "ouxX" ∧ 0 ≤ v < 2 ^ bits t
  | DChar v => is_s32 v
  | DString p s => pstr (if bool_decide (p = NULL) then lit "(null)" else p) s ∧ is_u32 p ∧ Z.of_nat (length s) < 2 ^ 31
  | DPointer p => is_u32 p
  | DOther fc => conv_char fc ∧ fc ∉ chars "diouxXcsp"
  end.

Definition item_ok (i : item) : Prop :=
  match i with
  | Plain c => 0 < c < 256 ∧ c ≠ ch "%"
  | Percent => True
  | Conv s d => cspec_ok s ∧ d_ok (s_type s) d
  end.

(** The literals of [__vprintf]. *)
Definition lits_ok : Prop :=
  pstr (lit "<<no %%%c in kernel>>") (chars "<<no %%%c in kernel>>") ∧
  pstr (lit "<<no %%%c conversion>>") (chars "<<no %%%c conversion>>").
End valid.

Lemma d_conv_char lit prot m t d : d_ok lit prot m t d → conv_char (d_char d).
Proof.
  assert (Forall conv_char (chars "diouxXcsp")) as Hall.
  { repeat constructor; try done; vm_compute; intros H; repeat (apply elem_of_cons in H as [H|H]; [done|]); by apply elem_of_nil in H. }
  rewrite Forall_forall in Hall. destruct d as [i v|fc v|v|p s|p|fc]; cbn [d_ok d_char].
  - intros _. apply Hall. destruct i; vm_compute; set_solver.
  - intros [H _]. apply Hall. revert H. vm_compute. set_solver.
  - intros _. apply Hall. vm_compute. set_solver.
  - intros _. apply Hall. vm_compute. set_solver.
  - intros _. apply Hall. vm_compute. set_solver.
  - by intros [H _].
Qed.

Lemma cspec_first s c r : cspec_ok s → conv_char c → starts (λ d, d ≠ ch "%") (cspec_chars s ++ c :: r).
Proof.
  intros Hs Hc. unfold cspec_chars. rewrite <- !app_assoc. destruct (s_flags s) as [|f fl] eqn:Ef; cbn [app].
  - destruct (s_width s) as [[|d ds]|n] eqn:Ew; cbn [amount_chars app].
    + destruct (s_prec s); cbn [prec_chars app]; [by eexists _, _|]. destruct (s_type s); cbn [type_chars app]; (eexists _, _; split; [reflexivity|]); try done.
      intros ->. destruct Hc as (_ & Hn & _). apply Hn. vm_compute. set_solver.
    + eexists _, _. split; [reflexivity|]. pose proof (so_width _ Hs) as Hw. rewrite Ew in Hw. destruct Hw as [[Hd _]%Forall_cons _]. by intros ->.
    + by eexists _, _.
  - eexists _, _. split; [reflexivity|]. pose proof (so_flags _ Hs) as Hf. rewrite Ef in Hf. apply Forall_cons in Hf as [Hf _]. intros ->. by destruct Hf.
Qed.

(** ** One conversion *)

Section calls.
Context {A : Type} (lit : string → Z) (output : Z → M (bmem * A) unit) (budget : nat → bmem * A → Prop)
  (prot : Z → Prop) (after : list Z → bmem * A → bmem * A) (Hsink : sink output budget prot after).

Abbreviation gives := (gives budget prot after).

Lemma words_wide v : u32 (u32 v) + 2 ^ 32 * u32 (u32 (v `div` 2 ^ 32)) = u64 v.
Proof. rewrite !uwrap_uwrap by lia. unfold uwrap. Z.div_mod_to_equations. lia. Qed.

Lemma s_of_u w v : 0 < w → (- 2 ^ (w - 1)) ≤ v < 2 ^ (w - 1) → swrap w (uwrap w v) = v.
Proof.
  intros Hw Hv. unfold swrap, uwrap. rewrite Z.add_mod_idemp_l by lia. rewrite Z.mod_small; [lia|].
  assert (2 ^ w = 2 * 2 ^ (w - 1)) by (rewrite <- Z.pow_succ_r by lia; f_equal; lia). lia.
Qed.

Lemma va_wide_gives m v args : gives m (va_wide (u32 v :: u32 (v `div` 2 ^ 32) :: args)) [] (u64 v, args).
Proof using Hsink.
  eapply (gives_read Hsink); [apply (gives_ret Hsink)|]. eapply (gives_read Hsink); [apply (gives_ret Hsink)|].
  cbn beta iota. rewrite words_wide. apply (gives_ret Hsink).
Qed.

Lemma signed_arg_gives m t v args :
  (- 2 ^ (bits t - 1)) ≤ v < 2 ^ (bits t - 1) → gives m (signed_arg t (int_words t v ++ args)) [] (v, args).
Proof using Hsink.
  intros Hv. destruct t; cbn [bits Z.sub] in Hv; unfold int_words; cbn [wide app signed_arg];
    try (apply (va_int_gives output budget prot after Hsink); lia).
  - eapply (gives_read Hsink); [apply (va_int_gives output budget prot after Hsink); lia|]. cbn beta iota.
    rewrite swrap_id by lia. apply (gives_ret Hsink).
  - eapply (gives_read Hsink); [apply (va_int_gives output budget prot after Hsink); lia|]. cbn beta iota.
    rewrite swrap_id by lia. apply (gives_ret Hsink).
  - eapply (gives_read Hsink); [apply va_wide_gives|]. cbn beta iota. rewrite s_of_u by lia. apply (gives_ret Hsink).
  - eapply (gives_read Hsink); [apply va_wide_gives|]. cbn beta iota. rewrite s_of_u by lia. apply (gives_ret Hsink).
  - eapply (gives_read Hsink); [apply (gives_ret Hsink)|]. cbn beta iota. rewrite uwrap_uwrap by lia.
    replace (if bool_decide (u32 v > SIZE_MAX `div` 2) then u32 v - SIZE_MAX - 1 else u32 v) with v; [apply (gives_ret Hsink)|].
    change (SIZE_MAX `div` 2) with (2 ^ 31 - 1). unfold SIZE_MAX, uwrap. case_bool_decide; Z.div_mod_to_equations; lia.
Qed.

Lemma unsigned_arg_gives m t v args :
  0 ≤ v < 2 ^ bits t → gives m (unsigned_arg t (int_words t v ++ args)) [] (v, args).
Proof using Hsink.
  intros Hv. destruct t; cbn [bits] in Hv; unfold int_words; cbn [wide app unsigned_arg];
    first [eapply (gives_eq (l := [])); [|done]; rewrite <- (uwrap_id 64 v) at 3 by lia; exact (va_wide_gives m v args)
          |eapply (gives_read Hsink); [apply (gives_ret Hsink)|]; cbn beta iota].
  all: rewrite ?uwrap_uwrap, ?(uwrap_id 32 v), ?(uwrap_id 8 v), ?(uwrap_id 16 v) by lia; try apply (gives_ret Hsink).
  change (Z.lor (Z.shiftl (2 ^ 31 - 1) 1) 1) with (Z.ones 32). rewrite Z.land_ones by lia.
  replace (u64 (s32 v) `mod` 2 ^ 32) with v; [apply (gives_ret Hsink)|].
  unfold uwrap, swrap. Z.div_mod_to_equations. lia.
Qed.

Lemma char_back v : is_s32 v → s32 (u32 v) = v.
Proof. intros Hv. apply (s_of_u 32); [lia|exact Hv]. Qed.

Lemma base_of_ok fc : base_ok (base_of fc).
Proof. destruct bases_ok as (? & ? & ? & ?). unfold base_of. by repeat case_bool_decide. Qed.

Lemma format_string_mem m c f p s :
  matches c f → pstr prot m p s → Z.of_nat (length s) < 2 ^ 31 →
  gives m (n ← on_mem (strnlen p (u32 (precision c))); format_string output (λ i, rd (p + i)) (s32 n) c)
    (string_text f (match fprec f with Some n => take (Z.to_nat n) s | None => s end)) tt.
Proof using Hsink.
  intros Hm [Hs Hp] Hlen. set (s' := match fprec f with Some n => take (Z.to_nat n) s | None => s end).
  assert (Z.min (Z.of_nat (length s)) (u32 (precision c)) = Z.of_nat (length s')) as Hn.
  { unfold s'. rewrite (mt_prec _ _ Hm). pose proof (mt_prec_ok _ _ Hm) as Hpr. destruct (fprec f) as [n|]; cbn [from_option id].
    - rewrite uwrap_id, length_take by (specialize (Hpr n eq_refl); lia). specialize (Hpr n eq_refl). lia.
    - change (u32 (-1)) with (2 ^ 32 - 1). lia. }
  eapply (gives_read Hsink).
  { apply (on_mem_gives output budget prot after Hsink). intros m' Ha. rewrite (strnlen_run m' p s).
    - rewrite Hn. reflexivity.
    - split; [exact (pbytes_agree prot m m' p _ Hp Ha)|apply Hs|apply Hs].
    - apply uwrap_range. lia. }
  assert (s' `prefix_of` s) as [r Hr] by (unfold s'; destruct (fprec f); [exists (drop (Z.to_nat z) s); by rewrite take_drop|done]).
  rewrite swrap_id by (rewrite Hr, length_app in Hlen; lia).
  apply (format_string_gives output budget prot after Hsink); [done|]. intros k c' Hk.
  apply (rd_gives output budget prot after Hsink). destruct Hp as [Hb Hp]. split.
  - apply Hb. rewrite Hr, <- app_assoc. by apply lookup_app_l_Some.
  - apply Hp. apply lookup_lt_Some in Hk. rewrite Hr, !length_app. lia.
Qed.

(** [__printf] as it reports a conversion that is not supported. *)
Definition reports (m : bmem) (report : Z → list Z → M (bmem * A) unit) : Prop :=
  ∀ fc, conv_char fc →
    gives m (report (lit (if bool_decide (fc ∈ chars "feEgGn") then "<<no %%%c in kernel>>" else "<<no %%%c conversion>>")) [u32 (s8 fc)])
      (report_text fc) tt.

Lemma convert_gives m report d cv f args :
  matches cv f → d_ok lit prot m (type cv) d → ((∃ fc, d = DOther fc) → reports m report) →
  gives m (convert lit output report (d_char d) cv (d_words (type cv) d ++ args)) (d_text f d) args.
Proof using Hsink.
  intros Hm Hd Hrep. unfold convert. destruct d as [i v|fc v|v|p s|p|fc]; cbn [d_ok d_char d_words d_text app] in *.
  - rewrite (bool_decide_eq_true_2 (_ ∈ chars "di")) by (destruct i; vm_compute; set_solver).
    eapply (gives_read Hsink); [by apply signed_arg_gives|]. cbn beta iota.
    eapply (gives_last Hsink); [|apply (gives_ret Hsink)].
    assert (- 2 ^ 63 ≤ v < 2 ^ 63) by (destruct (type cv); cbn [bits] in Hd; lia).
    replace (u64 (if bool_decide (v < 0) then - v else v)) with (Z.abs v) by (case_bool_decide; rewrite uwrap_id by lia; lia).
    apply (format_integer_gives output budget prot after Hsink); [done|apply bases_ok|unfold is_u64; lia].
  - destruct Hd as [Hfc Hv]. assert (fc ∉ chars "di") as Hno by (revert Hfc; vm_compute; set_solver).
    rewrite (bool_decide_eq_false_2 (_ ∈ chars "di")), (bool_decide_eq_true_2 (_ ∈ chars "ouxX")) by done.
    eapply (gives_read Hsink); [by apply unsigned_arg_gives|]. cbn beta iota.
    eapply (gives_last Hsink); [|apply (gives_ret Hsink)].
    apply (format_integer_gives output budget prot after Hsink); [done|apply base_of_ok|].
    unfold is_u64. destruct (type cv); cbn [bits] in Hv; lia.
  - change (bool_decide (ch "c" ∈ chars "di")) with false. change (bool_decide (ch "c" ∈ chars "ouxX")) with false. cbn iota.
    rewrite (bool_decide_eq_true_2 (ch "c" = ch "c")) by done.
    eapply (gives_read Hsink); [apply (va_int_gives output budget prot after Hsink); exact Hd|]. cbn beta iota.
    eapply (gives_last Hsink); [|apply (gives_ret Hsink)].
    apply (format_string_gives output budget prot after Hsink m cv f _ [u8 v]); [done|].
    intros [|k] c Hk; [|done]. injection Hk as <-. apply (gives_ret Hsink).
  - destruct Hd as (Hs & Hp & Hlen).
    change (bool_decide (ch "s" ∈ chars "di")) with false. change (bool_decide (ch "s" ∈ chars "ouxX")) with false. cbn iota.
    rewrite (bool_decide_eq_false_2 (ch "s" = ch "c")), (bool_decide_eq_true_2 (ch "s" = ch "s")) by done.
    eapply (gives_read Hsink); [apply (gives_ret Hsink)|]. cbn beta iota zeta. rewrite uwrap_id by exact Hp.
    pose proof (format_string_mem m cv f _ s Hm Hs Hlen) as Hmem.
    intros st n Ha Hb. specialize (Hmem st n Ha Hb). apply bind_inv in Hmem as (k & st' & Hk & Hst).
    rewrite (bind_Ret _ _ _ _ _ Hk). by rewrite (bind_Ret _ _ _ _ _ Hst).
  - change (bool_decide (ch "p" ∈ chars "di")) with false. change (bool_decide (ch "p" ∈ chars "ouxX")) with false. cbn iota.
    rewrite (bool_decide_eq_false_2 (ch "p" = ch "c")), (bool_decide_eq_false_2 (ch "p" = ch "s")), (bool_decide_eq_true_2 (ch "p" = ch "p")) by done.
    eapply (gives_read Hsink); [apply (gives_ret Hsink)|]. cbn beta iota. rewrite uwrap_id by exact Hd.
    eapply (gives_last Hsink); [|apply (gives_ret Hsink)].
    apply (format_integer_gives output budget prot after Hsink); [|apply bases_ok|unfold is_u64, is_u32 in *; lia].
    split; cbn [flags width precision left plus space alt zero grouped fwidth fprec]; try done; apply Hm.
  - destruct Hd as [Hc Hno]. specialize (Hrep (ex_intro _ fc eq_refl) fc Hc).
    rewrite (bool_decide_eq_false_2 (fc ∈ chars "di")), (bool_decide_eq_false_2 (fc ∈ chars "ouxX")), (bool_decide_eq_false_2 (fc = ch "c")),
      (bool_decide_eq_false_2 (fc = ch "s")), (bool_decide_eq_false_2 (fc = ch "p")) by (intros H; apply Hno; first [subst fc; vm_compute; set_solver|revert H; vm_compute; set_solver]).
    destruct (bool_decide (fc ∈ chars "feEgGn")); (eapply (gives_last Hsink); [exact Hrep|apply (gives_ret Hsink)]).
Qed.

(** ** The loop *)

Lemma vprintf_loop_gives m fuel report p its args :
  pbytes prot m p (format_of its ++ [0]) → Forall (item_ok lit prot m) its → (length its < fuel)%nat →
  ((∃ s fc, Conv s (DOther fc) ∈ its) → reports m report) →
  gives m (vprintf_loop lit output fuel report p (words_of its ++ args)) (text_of its) tt.
Proof using Hsink.
  intros Hp Hok. revert fuel p Hp. induction Hok as [|i its Hi _ IH]; intros fuel p Hp Hf Hrep;
    (destruct fuel as [|fuel]; [simpl in Hf; lia|]); cbn [vprintf_loop].
  { apply pbytes_cons in Hp as [Hc _]. eapply (gives_read Hsink); [by apply (rd_gives output budget prot after Hsink)|]. apply (gives_ret Hsink). }
  assert (∀ q, pbytes prot m q (format_of its ++ [0]) → gives m (vprintf_loop lit output fuel report q (words_of its ++ args)) (text_of its) tt) as Hrest.
  { intros q Hq. apply IH; [done|simpl in Hf; lia|]. intros (s & fc & Hin). apply Hrep. exists s, fc. by right. }
  unfold format_of, words_of, text_of in *. rewrite !fmap_cons, !concat_cons, <- ?app_assoc in *.
  destruct i as [c| |s d]; cbn [item_chars item_words item_text item_ok] in *.
  - apply pbytes_cons in Hp as [Hc Hp]. eapply (gives_read Hsink); [by apply (rd_gives output budget prot after Hsink)|].
    rewrite bool_decide_eq_false_2 by lia. rewrite bool_decide_eq_true_2 by apply Hi.
    apply (gives_bind Hsink (l1 := [c]) (v := tt)); [apply (gives_output output budget prot after Hsink)|]. by apply Hrest.
  - cbn [chars app] in Hp. apply pbytes_cons in Hp as [Hc Hp]. apply pbytes_cons in Hp as [Hc' Hp].
    eapply (gives_read Hsink); [by apply (rd_gives output budget prot after Hsink)|]. cbn.
    eapply (gives_read Hsink); [by apply (rd_gives output budget prot after Hsink)|]. cbn.
    apply (gives_bind Hsink (l1 := [ch "%"]) (v := tt)); [apply (gives_output output budget prot after Hsink)|]. apply Hrest.
    by replace (p + 2) with (p + 1 + 1) by lia.
  - destruct Hi as [Hs Hd]. pose proof (d_conv_char _ _ _ _ _ Hd) as Hcc. cbn [app] in Hp. rewrite <- app_assoc in Hp.
    apply pbytes_cons in Hp as [Hc Hp]. eapply (gives_read Hsink); [by apply (rd_gives output budget prot after Hsink)|].
    rewrite bool_decide_eq_false_2 by done. rewrite bool_decide_eq_false_2 by tauto.
    destruct (cspec_first s (d_char d) (concat (item_chars <$> its) ++ [0]) Hs Hcc) as (d0 & r0 & E0 & Hd0).
    cbn [app] in Hp. eapply (gives_read Hsink).
    { apply (rd_gives output budget prot after Hsink m (p + 1) d0). pose proof Hp as Hp'. rewrite E0 in Hp'. by apply pbytes_cons in Hp' as [? _]. }
    rewrite bool_decide_eq_false_2 by done.
    destruct (parse_conversion_gives output budget prot after Hsink m (p + 1) s (d_char d) (concat (item_chars <$> its) ++ [0])
      (d_words (s_type s) d ++ concat (item_words <$> its) ++ args)) as (cv & Hparse & Hm & Ht); [done..|].
    rewrite <- (app_assoc (cspec_words s)). eapply (gives_read Hsink); [exact Hparse|]. cbn beta iota. apply pbytes_app in Hp as [_ Hp]. apply pbytes_cons in Hp as [Hfc Hp].
    eapply (gives_read Hsink); [by apply (rd_gives output budget prot after Hsink)|].
    eapply (gives_bind Hsink); [|by apply Hrest]. rewrite <- Ht. apply convert_gives; [done|by rewrite Ht|].
    intros [fc ->]. apply Hrep. exists s, fc. left.
Qed.

Lemma format_length its : (length its ≤ length (format_of its))%nat.
Proof.
  induction its as [|i its IH]; [done|]. unfold format_of in *. rewrite fmap_cons, concat_cons, length_app. cbn [length].
  assert (1 ≤ length (item_chars i))%nat by (destruct i; cbn [item_chars length chars]; lia). lia.
Qed.

Lemma vprintf_nested_gives m depth p its args :
  pbytes prot m p (format_of its ++ [0]) → Forall (item_ok lit prot m) its →
  ((∃ s fc, Conv s (DOther fc) ∈ its) → reports m (vprintf_nested lit output depth)) →
  gives m (vprintf_nested lit output (S depth) p (words_of its ++ args)) (text_of its) tt.
Proof using Hsink.
  intros Hp Hok Hrep. cbn [vprintf_nested]. eapply (gives_read Hsink); [apply (turns_gives output budget prot after Hsink)|].
  apply vprintf_loop_gives; [done|done| |done].
  pose proof (pbytes_size _ _ _ _ Hp) as Hsz. rewrite length_app in Hsz. cbn [length] in Hsz. pose proof (format_length its). lia.
Qed.

(** The two literals, as items. *)
Definition report_items (fc : Z) (ending : string) : list item :=
  (Plain <$> chars "<<no ") ++ [Percent; Conv (CSpec [] (Digits []) None INT) (DChar (s8 fc))] ++ (Plain <$> chars ending).

Lemma report_items_ok m fc ending :
  Forall (λ c, 0 < c < 256 ∧ c ≠ ch "%") (chars ending) → Forall (item_ok lit prot m) (report_items fc ending).
Proof.
  intros He. unfold report_items. apply Forall_app. split; [apply Forall_fmap; repeat constructor; done|].
  constructor; [done|]. constructor; [|by apply Forall_fmap]. split.
  - split; cbn; try done.
  - cbn. pose proof (swrap_range 8 fc ltac:(lia)). unfold is_s32. simpl in *. lia.
Qed.

Lemma s8_back fc : 0 < fc < 256 → u8 (s8 fc) = fc.
Proof. intros H. unfold uwrap, swrap. Z.div_mod_to_equations. lia. Qed.

Lemma plain_items l : format_of (Plain <$> l) = l ∧ words_of (Plain <$> l) = [] ∧ text_of (Plain <$> l) = l.
Proof.
  unfold format_of, words_of, text_of. induction l as [|c l (IH1 & IH2 & IH3)]; [done|]. rewrite !fmap_cons, !concat_cons, IH1, IH2, IH3. done.
Qed.

Lemma items_app its its' :
  format_of (its ++ its') = format_of its ++ format_of its' ∧ words_of (its ++ its') = words_of its ++ words_of its' ∧
  text_of (its ++ its') = text_of its ++ text_of its'.
Proof. unfold format_of, words_of, text_of. by rewrite !fmap_app, !concat_app. Qed.

Lemma report_gives m fc (format ending : string) :
  conv_char fc → pbytes prot m (lit format) (chars format ++ [0]) → chars format = chars "<<no %%%c" ++ chars ending →
  Forall (λ c, 0 < c < 256 ∧ c ≠ ch "%") (chars ending) →
  gives m (vprintf_nested lit output 1 (lit format) [u32 (s8 fc)]) (chars "<<no %" ++ [fc] ++ chars ending) tt.
Proof using Hsink.
  intros Hfc Hp Hf He. pose proof (vprintf_nested_gives m 0 (lit format) (report_items fc ending) []) as Hg.
  destruct (plain_items (chars ending)) as (E1 & E2 & E3). unfold report_items in Hg. rewrite app_assoc in Hg.
  destruct (items_app ((Plain <$> chars "<<no ") ++ [Percent; Conv (CSpec [] (Digits []) None INT) (DChar (s8 fc))]) (Plain <$> chars ending)) as (F1 & F2 & F3).
  rewrite F1, F2, F3, E1, E2, E3 in Hg. rewrite <- (s8_back fc) at 2 by apply Hfc. apply Hg.
  - rewrite Hf in Hp. exact Hp.
  - rewrite <- app_assoc. by apply report_items_ok.
  - intros (s & fc' & Hin). exfalso. rewrite !elem_of_app, !list_elem_of_fmap, !elem_of_cons, elem_of_nil in Hin. naive_solver.
Qed.

Lemma reports_nested m : lits_ok lit prot m → reports m (vprintf_nested lit output 1).
Proof using Hsink.
  intros [[_ Hk] [_ Hc]] fc Hfc. unfold report_text.
  destruct (bool_decide (fc ∈ chars "feEgGn")); apply report_gives; try done; repeat constructor; done.
Qed.

Lemma vprintf_gives m p its args :
  pbytes prot m p (format_of its ++ [0]) → Forall (item_ok lit prot m) its → lits_ok lit prot m →
  gives m (__vprintf lit output p (words_of its ++ args)) (text_of its) tt.
Proof using Hsink. intros Hp Hok Hl. apply vprintf_nested_gives; [done|done|]. intros _. by apply reports_nested. Qed.
End calls.
