(* ===== verification/KSnprintf.v ===== *)
(** * KSnprintf: correctness of [vsnprintf]

    The buffer of [vsnprintf] is a [sink]: it takes the text, cut to its size, and nothing
    outside it changes.  Numbers that were printed are read back by [atoi]. *)

From S2P Require Import Prelude Links KString KStringFacts KStdlib KStdio KStdioFacts KStdioParse KStdioFields KStdioSpec.

Section buffer.
Context (B size : Z) (Hsize : 0 ≤ size < 2 ^ 31).

Definition room (aux : vsnprintf_aux) : nat := Z.to_nat (aux_max_length aux - aux_length aux).

Definition buf_after (l : list Z) (s : bmem * vsnprintf_aux) : bmem * vsnprintf_aux :=
  (put (aux_p s.2) (u8 <$> take (room s.2) l) s.1,
   VsnprintfAux (aux_p s.2 + Z.of_nat (length (take (room s.2) l))) (aux_length s.2 + Z.of_nat (length l)) (aux_max_length s.2)).

Definition buf_budget (n : nat) (s : bmem * vsnprintf_aux) : Prop :=
  0 ≤ aux_length s.2 ∧ aux_length s.2 + Z.of_nat n < 2 ^ 31 ∧ aux_max_length s.2 = Z.max 0 (size - 1) ∧
  aux_p s.2 = B + Z.min (aux_length s.2) (aux_max_length s.2) ∧ mapped s.1 B (Z.to_nat size).

Definition buf_prot (p : Z) : Prop := ¬ (B ≤ p < B + size).

Lemma put_size m p bs : mapped m p (length bs) → stdpp.base.size (put p bs m) = stdpp.base.size m.
Proof.
  revert m p. induction bs as [|b bs IH]; intros m p Hm; [done|]. cbn [put length] in *. rewrite IH.
  - rewrite map_size_insert. destruct (Hm p ltac:(lia)) as [x ->]. done.
  - intros q Hq. apply (mapped_insert m p (S (length bs))); [done|lia].
Qed.

Lemma mapped_put m p bs q n : mapped m q n → mapped (put p bs m) q n.
Proof.
  intros Hm r Hr. rewrite lookup_put. destruct (decide _) as [Hd|_]; [|by apply Hm].
  apply lookup_lt_is_Some. lia.
Qed.

Lemma buf_inside (l : list Z) n s : buf_budget (length l + n)%nat s →
  (Z.of_nat (length (take (room s.2) l)) ≤ Z.max 0 (B + size - 1 - aux_p s.2)).
Proof. intros (H0 & _ & Hmax & Hp & _). rewrite length_take. unfold room. lia. Qed.

Lemma buf_mapped (l : list Z) n s : buf_budget (length l + n)%nat s → mapped s.1 (aux_p s.2) (length (u8 <$> take (room s.2) l)).
Proof.
  intros Hb q Hq. rewrite length_fmap in Hq. pose proof (buf_inside l n s Hb) as Hi. destruct Hb as (H0 & _ & Hmax & Hp & Hm).
  apply Hm. lia.
Qed.

Lemma buf_sink : sink vsnprintf_helper buf_budget buf_prot buf_after.
Proof using Hsize.
  split.
  - intros c n [m [p len max]] (H0 & Hn & Hmax & Hp & Hm). cbn in *. unfold vsnprintf_helper, get. rewrite (bind_Ret _ _ _ _ _ eq_refl). cbn zeta beta iota.
    unfold buf_after, room. cbn [fst snd aux_p aux_length aux_max_length]. rewrite swrap_id by lia. case_bool_decide as Hlt.
    + assert (is_Some (m !! p)) as Hs by (apply Hm; lia). replace (Z.to_nat (max - len)) with (S (Z.to_nat (max - len - 1))) by lia.
      unfold mbind, M_bind, on_mem. cbn [fst snd]. rewrite (byte_store_run m p c Hs). cbn [take]. rewrite take_nil. done.
    + replace (Z.to_nat (max - len)) with 0%nat by lia. cbn. by rewrite Z.add_0_r.
  - intros [m [p len max]]. unfold buf_after. cbn. rewrite take_nil. cbn. by rewrite !Z.add_0_r.
  - intros k l [m [p len max]]. unfold buf_after, room. cbn [fst snd aux_p aux_length aux_max_length].
    set (r := Z.to_nat (max - len)). replace (Z.to_nat (max - (len + Z.of_nat (length k)))) with (r - length k)%nat by lia.
    rewrite take_app, fmap_app, put_app, !length_app, length_fmap. f_equal. f_equal; lia.
  - intros l n [m [p len max]] Hb. pose proof Hb as (H0 & Hn & Hmax & Hp & Hm). unfold buf_after, buf_budget, room.
    cbn [fst snd aux_p aux_length aux_max_length] in *. split_and!; [lia|lia|done| |by apply mapped_put]. rewrite length_take. lia.
  - intros l n s Hb. apply put_size. exact (buf_mapped l n s Hb).
  - intros l n s q Hb Hq. unfold buf_after. cbn [fst]. rewrite lookup_put, decide_False; [done|]. rewrite length_fmap.
    pose proof (buf_inside l n s Hb). destruct Hb as (H0 & _ & Hmax & Hp & Hm). unfold buf_prot in Hq. lia.
Qed.
End buffer.

(** ** The output is made of bytes *)

Lemma all_bytes_chars s : all_bytes (chars s).
Proof.
  induction s as [|c s IH]; cbn [chars]; [constructor|]. constructor; [|done]. unfold ch.
  pose proof (Ascii.N_ascii_bounded c). lia.
Qed.

Lemma all_bytes_app k l : all_bytes k → all_bytes l → all_bytes (k ++ l).
Proof. intros. by apply Forall_app. Qed.

Lemma all_bytes_dup n c : 0 ≤ c < 256 → all_bytes (replicate n c).
Proof. intros. by apply Forall_replicate. Qed.

Lemma all_bytes_rev l : all_bytes l → all_bytes (rev l).
Proof. apply List.Forall_rev. Qed.

Lemma digit_byte b d : base_ok b → 0 ≤ digit b d < 256.
Proof.
  intros Hb. unfold digit. destruct (digits b !! Z.to_nat d) as [c|] eqn:E; cbn; [|lia].
  pose proof (bo_bytes _ Hb) as Hall. rewrite Forall_forall in Hall. apply list_elem_of_lookup_2, Hall in E. lia.
Qed.

Lemma lsd_text_bytes b grp k ds : base_ok b → all_bytes (lsd_text b grp k ds).
Proof.
  intros Hb. revert k. induction ds as [|d ds IH]; intros k; cbn [lsd_text]; [constructor|].
  apply all_bytes_app; [destruct (_ && _ && _); repeat constructor; done|]. constructor; [by apply digit_byte|apply IH].
Qed.

Create HintDb bytes.
#[local] Hint Resolve all_bytes_chars all_bytes_app all_bytes_rev lsd_text_bytes : bytes.
#[local] Hint Extern 1 (all_bytes (spaces _)) => apply all_bytes_dup; by vm_compute : bytes.
#[local] Hint Extern 1 (all_bytes (zeros _)) => apply all_bytes_dup; by vm_compute : bytes.
#[local] Hint Extern 3 (all_bytes (if ?b then _ else _)) => destruct b : bytes.
#[local] Hint Extern 1 (all_bytes []) => constructor : bytes.
#[local] Hint Extern 1 (all_bytes [ch ?c]) => exact (all_bytes_chars (String c "")) : bytes.

Lemma b_x_byte b : b ∈ [base_d; base_o; base_x; base_X] → 0 ≤ b_x b < 256.
Proof. rewrite !elem_of_cons, elem_of_nil. by intros [->|[->|[->|[->|[]]]]]. Qed.

Lemma int_text_bytes f v is_signed negative b :
  b ∈ [base_d; base_o; base_x; base_X] → all_bytes (int_text f v is_signed negative b).
Proof.
  intros Hin. pose proof (b_x_byte b Hin) as Hx. assert (base_ok b) as Hb.
  { destruct bases_ok as (? & ? & ? & ?). rewrite !elem_of_cons, elem_of_nil in Hin. by destruct Hin as [->|[->|[->|[->|[]]]]]. }
  assert (all_bytes (digits_text f b v)) as Hd.
  { assert (all_bytes (extended f b v)) as He by (unfold extended, number_text; auto 6 with bytes nocore).
    unfold digits_text. destruct (_ && _ && _); [|done]. by constructor. }
  unfold int_text. assert (all_bytes (sign_text f is_signed negative)) by (unfold sign_text; auto 8 with bytes nocore).
  assert (all_bytes (if alt f && bool_decide (v ≠ 0) && bool_decide (b_x b ≠ 0) then [ch "0"; b_x b] else [])).
  { destruct (_ && _ && _); [|constructor]. repeat constructor; try done; apply Hx. }
  unfold pad. auto 10 with bytes nocore.
Qed.

Lemma base_of_in fc : base_of fc ∈ [base_d; base_o; base_x; base_X].
Proof. unfold base_of. repeat case_bool_decide; set_solver. Qed.

Lemma string_text_bytes f s : all_bytes s → all_bytes (string_text f s).
Proof. unfold string_text. auto 6 with bytes nocore. Qed.

Lemma text_bytes lit prot m its : Forall (item_ok lit prot m) its → all_bytes (text_of its).
Proof.
  unfold text_of. induction 1 as [|i its Hi _ IH]; [constructor|]. rewrite fmap_cons, concat_cons. apply all_bytes_app; [|done].
  destruct i as [c| |s d]; cbn [item_text item_ok] in *; [constructor; [lia|constructor]|by auto with bytes nocore|].
  destruct Hi as [_ Hd]. destruct d as [i v|fc v|v|p s'|p|fc]; cbn [d_text d_ok] in *.
  - apply int_text_bytes. set_solver.
  - apply int_text_bytes, base_of_in.
  - apply string_text_bytes. constructor; [|constructor]. apply uwrap_range. lia.
  - destruct Hd as ([[_ Hc _] _] & _). apply string_text_bytes.
    assert (all_bytes s') as Hs by (eapply Forall_impl; [exact Hc|]; simpl; lia). destruct (fprec _); [by apply Forall_take|done].
  - apply int_text_bytes. set_solver.
  - destruct Hd as [(_ & _ & ?) _]. unfold report_text. apply all_bytes_app; [apply all_bytes_chars|]. constructor; [lia|]. destruct (bool_decide _); apply all_bytes_chars.
Qed.

Lemma u8_bytes l : all_bytes l → u8 <$> l = l.
Proof. induction 1 as [|c l Hc _ IH]; [done|]. rewrite fmap_cons, IH, u8_id by done. done. Qed.

(** ** The claims *)

(** A valid call that formats into a buffer: the format, the strings and the literals are in
    memory outside the buffer, whose bytes may be written. *)
Record call_ok (lit : string → Z) (m : bmem) (B size p : Z) (its : list item) : Prop := {
  co_size : 0 ≤ size < 2 ^ 31;
  co_buffer : mapped m B (Z.to_nat size);
  co_format : pbytes (buf_prot B size) m p (format_of its ++ [0]);
  co_items : Forall (item_ok lit (buf_prot B size) m) its;
  co_lits : lits_ok lit (buf_prot B size) m;
  co_length : Z.of_nat (length (text_of its)) < 2 ^ 31
}.

Lemma vsnprintf_run lit m B size p its :
  call_ok lit m B size p its →
  vsnprintf lit B size p (words_of its) m
  = Ret (Z.of_nat (length (text_of its)),
         if bool_decide (size = 0) then m else put B (take (Z.to_nat (size - 1)) (text_of its) ++ [0]) m).
Proof.
  intros [Hs Hm Hf Hi Hl Hlen]. unfold vsnprintf, with_aux. set (aux := VsnprintfAux B 0 _).
  pose proof (vprintf_gives lit vsnprintf_helper (buf_budget B size) (buf_prot B size) buf_after (buf_sink B size Hs) m p its [] Hf Hi Hl) as Hg.
  rewrite app_nil_r in Hg.
  assert (aux_max_length aux = Z.max 0 (size - 1)) as Hmax.
  { unfold aux. cbn [aux_max_length]. case_bool_decide; rewrite swrap_id by lia; lia. }
  rewrite (bind_Ret _ _ _ _ _ (Hg (m, aux) 0%nat ltac:(done) ltac:(unfold buf_budget; cbn [fst snd aux_length aux_p aux]; split_and!; [lia|lia|done|rewrite Hmax; lia|done]))).
  unfold buf_after, room. cbn [fst snd]. rewrite Hmax. unfold aux. cbn [aux_p aux_length aux_max_length].
  rewrite Z.sub_0_r, u8_bytes by (apply Forall_take; by eapply text_bytes). set (txt := text_of its) in *.
  unfold get. rewrite (bind_Ret _ _ _ _ _ eq_refl). cbn beta iota. cbn [aux_p aux_length].
  destruct (decide (size = 0)) as [->|Hne]; [done|]. rewrite (bool_decide_eq_true_2 (size > 0)), (bool_decide_eq_false_2 (size = 0)) by lia.
  replace (Z.max 0 (size - 1)) with (size - 1) by lia. rewrite put_app. cbn [put].
  unfold mbind at 1, M_bind at 1, on_mem. cbn [fst snd].
  rewrite byte_store_run; [done|]. rewrite lookup_put, decide_False by lia. apply Hm. rewrite length_take. lia.
Qed.

(** C30: for every format made of plain characters, [%%] and conversions with any flags,
    widths, precisions and lengths, and arguments that fit them, [vsnprintf] writes into the
    buffer the text that the items stand for, cut to one byte less than the buffer and
    terminated, changes nothing else, and returns the length of the whole text.  A buffer of
    size zero is not touched.  This includes the flag 0 with a negative width taken from the
    arguments, for which the text is what the code writes against the C standard: the number
    padded with zeros on the left and once more with spaces on the right.  The format and the
    strings lie outside the buffer, and the whole text is shorter than 2^31.  Of the widths
    and precisions only [INT_MIN], which cannot be negated, is left out. *)
Theorem vsnprintf_correct lit m B size p its :
  call_ok lit m B size p its →
  vsnprintf lit B size p (words_of its) m
  = Ret (Z.of_nat (length (text_of its)),
         if bool_decide (size = 0) then m else put B (take (Z.to_nat (size - 1)) (text_of its) ++ [0]) m).
Proof. apply vsnprintf_run. Qed.

(** ** Numbers are read back *)

Lemma base_d_digit d : 0 ≤ d < 10 → digit base_d d = d + 48.
Proof.
  intros Hd. assert (Forall (λ d, digit base_d d = d + 48) (seqZ 0 10)) as Hall by (repeat constructor).
  rewrite Forall_forall in Hall. apply Hall, elem_of_seqZ. lia.
Qed.

Lemma decimal_value fuel k v : 0 ≤ v < 2 ^ Z.of_nat fuel → dec (rev (lsd_text base_d false k (lsd fuel 10 v))) = v.
Proof.
  revert k v. induction fuel as [|fuel IH]; intros k v Hv; [cbn in *; lia|]. cbn [lsd]. case_bool_decide as Hp; [|cbn; lia].
  rewrite Nat2Z.inj_succ, Z.pow_succ_r in Hv by lia. cbn [lsd_text andb app rev]. unfold dec. rewrite foldl_app. cbn [foldl].
  fold (dec (rev (lsd_text base_d false (k + 1) (lsd fuel 10 (v `div` 10))))). rewrite IH.
  - rewrite base_d_digit by (apply Z.mod_pos_bound; lia). pose proof (Z.div_mod v 10 ltac:(lia)). lia.
  - split; [apply Z.div_pos; lia|]. apply Z.div_lt_upper_bound; lia.
Qed.

Lemma decimal_digits k fuel v : Forall (λ c, isdigit c = true) (lsd_text base_d false k (lsd fuel 10 v)).
Proof.
  revert k v. induction fuel as [|fuel IH]; intros k v; [constructor|]. cbn [lsd]. case_bool_decide; [|constructor].
  cbn [lsd_text andb app]. constructor; [|apply IH]. pose proof (Z.mod_pos_bound v 10 ltac:(lia)).
  rewrite base_d_digit by done. unfold isdigit. apply bool_decide_eq_true_2. lia.
Qed.

(** A plain [%d]. *)
Definition plain_d (v : Z) : item := Conv (CSpec [] (Digits []) None INT) (DSigned false v).

Lemma plain_length b k ds : length (lsd_text b false k ds) = length ds.
Proof. revert k. induction ds as [|d ds IH]; intros k; [done|]. cbn. by rewrite IH. Qed.

Lemma plain_d_text v : is_s32 v →
  ∃ ds, text_of [plain_d v] = (if bool_decide (v < 0) then [ch "-"] else []) ++ ds ∧ ds ≠ [] ∧
    Forall (λ c, isdigit c = true) ds ∧ dec ds = Z.abs v ∧ (length ds ≤ 10)%nat.
Proof.
  intros Hv. unfold is_s32 in Hv. set (n := rev (lsd_text base_d false 0 (lsd 64 10 (Z.abs v)))).
  assert (dec n = Z.abs v) as Hdec by (apply decimal_value; change (Z.of_nat 64) with 64; lia).
  assert (Forall (λ c, isdigit c = true) n) as Hdig by apply List.Forall_rev, decimal_digits.
  assert (length n ≤ 10)%nat as Hlen.
  { unfold n. rewrite length_rev, plain_length. apply lsd_length; [lia|]. change (10 ^ Z.of_nat 10) with 10000000000. lia. }
  exists (zeros (1 - length n) ++ n). split.
  - unfold text_of, plain_d. cbn [fmap list_fmap concat item_text d_text]. rewrite app_nil_r.
    change (field_of (CSpec [] (Digits []) None INT)) with (Field false false false false false false 0 None).
    unfold int_text, pad, digits_text, extended, number_text. cbn [left zero alt grouped fprec fwidth andb from_option].
    change (base base_d) with 10. fold n. change (Z.to_nat (Z.min 63 (id 1))) with 1%nat.
    replace (Z.to_nat (0 - _)) with 0%nat by lia. cbn [spaces replicate app]. rewrite app_nil_r. unfold sign_text. cbn. done.
  - clearbody n. destruct n as [|c n]; cbn [length Nat.sub zeros replicate app] in *; [|done].
    split_and!; [done|by repeat constructor|rewrite <- Hdec; reflexivity|simpl; lia].
Qed.

(** C31: a number printed with [%d] into a buffer of at least 12 bytes is there as a
    terminated string, and [atoi] reads it back. *)
Theorem snprintf_atoi lit m B size p v :
  is_s32 v → 12 ≤ size → 0 < B → call_ok lit m B size p [plain_d v] →
  ∃ s m', snprintf lit B size p [u32 v] m = Ret (Z.of_nat (length s), m') ∧ cstr m' B s ∧ atoi s = v.
Proof.
  intros Hv Hsz HB Hok. destruct (plain_d_text v Hv) as (ds & Ht & Hne & Hd & Hdec & Hlen).
  exists (text_of [plain_d v]). eexists. split; [apply (vsnprintf_run lit m B size p [plain_d v] Hok)|].
  rewrite bool_decide_eq_false_2 by lia. rewrite Ht. set (sg := if bool_decide (v < 0) then [ch "-"] else []).
  assert (length sg ≤ 1)%nat by (unfold sg; case_bool_decide; simpl; lia).
  assert (Forall (λ b, 0 < b < 256) (sg ++ ds)) as Hb.
  { apply Forall_app. split; [unfold sg; case_bool_decide; repeat constructor|]. eapply Forall_impl; [exact Hd|].
    intros c Hc%digit_range. lia. }
  rewrite take_ge by (rewrite length_app; lia). split.
  - split; [apply bytes_put|done|done].
  - pose proof (atoi_correct [] sg ds []) as Ha. rewrite app_nil_r in Ha. cbn [app] in Ha. rewrite Ha, Hdec; try done.
    + unfold sg. unfold is_s32 in Hv. destruct (decide (v < 0)).
      * rewrite bool_decide_eq_true_2 by done. rewrite decide_True by done. rewrite swrap_id; lia.
      * rewrite bool_decide_eq_false_2 by done. rewrite decide_False by done. rewrite swrap_id; lia.
    + unfold sg. case_bool_decide; set_solver.
Qed.

(** ** Witnesses and defects *)

Definition demo_lit (s : string) : Z :=
  if bool_decide (s = "(null)"%string) then 1000
  else if bool_decide (s = "<<no %%%c in kernel>>"%string) then 1100 else 1200.

(** The literals, a format at 10, a string at 200 and a buffer of 16 bytes at 300. *)
Definition demo_mem (format str : string) : bmem :=
  put 1000 (chars "(null)" ++ [0]) (put 1100 (chars "<<no %%%c in kernel>>" ++ [0]) (put 1200 (chars "<<no %%%c conversion>>" ++ [0])
    (put 10 (chars format ++ [0]) (put 200 (chars str ++ [0]) (put 300 (replicate 16 255) ∅))))).

(** "%05d %s %f" with -42 and "abc". *)
Definition demo_items : list item :=
  [Conv (CSpec [ch "0"] (Digits [ch "5"]) None INT) (DSigned false (-42)); Plain (ch " ");
   Conv (CSpec [] (Digits []) None INT) (DString 200 (chars "abc")); Plain (ch " ");
   Conv (CSpec [] (Digits []) None INT) (DOther (ch "f"))].

Ltac concrete_pbytes := split; [concrete_bytes|intros k Hk; unfold buf_prot; cbn in Hk |- *; lia].

Lemma demo_buffer f s : mapped (demo_mem f s) 300 16.
Proof.
  unfold demo_mem. do 5 apply mapped_put. apply (bytes_mapped _ 300 (replicate 16 255)), bytes_put.
Qed.

Ltac concrete_pstr := split; [concrete_bytes|concrete_pbytes].

Ltac concrete_lits :=
  unfold lits_ok; change (demo_lit "<<no %%%c in kernel>>") with 1100; change (demo_lit "<<no %%%c conversion>>") with 1200;
  split; concrete_pstr.

Lemma plain_cspec_ok t : cspec_ok (CSpec [] (Digits []) None t).
Proof. split; [constructor|by split; [constructor|]|done|done]. Qed.

Lemma vsnprintf_correct_witness :
  text_of demo_items = chars "-0042 abc <<no %f in kernel>>" ∧
  vsnprintf demo_lit 300 16 10 (words_of demo_items) (demo_mem "%05d %s %f" "abc")
  = Ret (29, put 300 (chars "-0042 abc <<no " ++ [0]) (demo_mem "%05d %s %f" "abc")).
Proof.
  split; [vm_compute; reflexivity|].
  apply (vsnprintf_correct demo_lit (demo_mem "%05d %s %f" "abc") 300 16 10 demo_items). split.
  - lia.
  - apply demo_buffer.
  - concrete_pbytes.
  - unfold demo_items. apply Forall_cons. split; [|apply Forall_cons; split; [|apply Forall_cons; split; [|apply Forall_cons; split; [|apply Forall_cons; split; [|constructor]]]]].
    + split; [|cbn; lia]. split; [by repeat constructor|split; [by repeat constructor|by vm_compute]|done|done].
    + by vm_compute.
    + split; [apply plain_cspec_ok|]. cbn [d_ok]. change (if bool_decide (200 = NULL) then demo_lit "(null)" else 200) with 200. split; [concrete_pstr|by vm_compute].
    + by vm_compute.
    + split; [apply plain_cspec_ok|]. cbn [d_ok]. split; [|intros H; vm_compute in H; set_solver].
      split; [by split_and!|]. split; [intros H; vm_compute in H; set_solver|by vm_compute].
  - concrete_lits.
  - vm_compute. reflexivity.
Defined.

Lemma snprintf_atoi_witness :
  ∃ s m', snprintf demo_lit 300 16 10 [u32 (-2147483648)] (demo_mem "%d" "") = Ret (Z.of_nat (length s), m') ∧
    cstr m' 300 s ∧ atoi s = -2147483648.
Proof.
  apply (snprintf_atoi demo_lit (demo_mem "%d" "") 300 16 10 (-2147483648)); [unfold is_s32; lia|lia|lia|]. split.
  - lia.
  - apply demo_buffer.
  - concrete_pbytes.
  - apply Forall_cons. split; [|constructor]. split; [apply plain_cspec_ok|cbn; lia].
  - concrete_lits.
  - vm_compute. reflexivity.
Defined.

Definition printed (o : outcome (Z * bmem)) (B : Z) : option (list Z) :=
  match o with
  | Ret (n, m) => mapM (λ k, m !! (B + k)) (seqZ 0 n)
  | _ => None
  end.

(** The flag 0 stays set when [*] takes a negative width from the arguments: the field is
    padded with zeros on the left and again with spaces on the right. *)
Theorem zero_star_pads_twice :
  printed (snprintf demo_lit 300 16 10 [u32 (-5); 7] (demo_mem "%0*d" "")) 300 = Some (chars "00007    ").
Proof. vm_compute. reflexivity. Qed.

(** A format that ends in a single [%] is read past its terminator. *)
Theorem trailing_percent_overruns :
  snprintf demo_lit 300 16 10 [] (demo_mem "100%" "") = Crash ∧
  (snprintf demo_lit 300 16 10 [] (<[15 := 0]> (demo_mem "100%" "")) = Crash → False).
Proof. split; [vm_compute; reflexivity|vm_compute; discriminate]. Qed.

(** [%.3s] on three characters without a terminator reads a fourth. *)
Theorem precision_reads_past_end :
  snprintf demo_lit 300 16 10 [400] (put 400 (chars "abc") (demo_mem "%.3s" "")) = Crash.
Proof. vm_compute. reflexivity. Qed.
