(* ===== verification/Process.v ===== *)
(** * Process: loading a user program ([pintos/src/userprog/process.c])

    The loader of ELF executables on the page directories of [PageDir] and the file system
    of [FileSys].  The state is the memory with its page tables, the file system, and the
    page directory of the current thread.  The messages [load] prints and the task state
    segment are left out.  The blocks that the file system takes with [malloc] succeed or
    fail by the list of outcomes in its own state, not by the pages left in the pools of the
    page directories, from which the kernel's [malloc] takes its pages. *)

From S2P Require Import Prelude Bitmap Vaddr Palloc PageDir FileSys.

Record proc := Proc { p_vm : vm; p_fs : fs; pagedir : Z }.

Definition on_vm {A} (m : M vm A) : M proc A := λ s,
  match m (p_vm s) with
  | Ret (a, v) => Ret (a, Proc v (p_fs s) (pagedir s))
  | Crash => Crash
  | NoFuel => NoFuel
  end.

Definition on_fs {A} (m : M fs A) : M proc A := λ s,
  match m (p_fs s) with
  | Ret (a, f) => Ret (a, Proc (p_vm s) f (pagedir s))
  | Crash => Crash
  | NoFuel => NoFuel
  end.

(** ** Bytes in a memory of words *)

Definition get_byte (m : Z → Z) (x : Z) : Z := (m (x - x `mod` 4) `div` 256 ^ (x `mod` 4)) `mod` 256.

(** The byte at [x] after the bytes [bs] were stored at [a]. *)
Definition new_byte (a : Z) (bs : list Z) (m : Z → Z) (x : Z) : Z :=
  if bool_decide (a ≤ x < a + Z.of_nat (length bs)) then default 0 (bs !! Z.to_nat (x - a)) else get_byte m x.

Definition set_bytes (a : Z) (bs : list Z) (m : Z → Z) (y : Z) : Z :=
  if bool_decide (y `mod` 4 = 0 ∧ a < y + 4 ∧ y < a + Z.of_nat (length bs)) then
    new_byte a bs m y + 256 * new_byte a bs m (y + 1) + 256 ^ 2 * new_byte a bs m (y + 2) + 256 ^ 3 * new_byte a bs m (y + 3)
  else m y.

Definition write_bytes (a : Z) (bs : list Z) : M vm unit := modify (λ s,
  VM (PMem (kernel_pool (pm s)) (user_pool (pm s)) (set_bytes a bs (words (pm s)))) (cr3 s) (tlb s)).

(** ** ELF headers *)

Record Elf32_Ehdr := Ehdr {
  e_ident : list Z;
  e_type : Z;
  e_machine : Z;
  e_version : Z;
  e_entry : Z;
  e_phoff : Z;
  e_shoff : Z;
  e_flags : Z;
  e_ehsize : Z;
  e_phentsize : Z;
  e_phnum : Z;
  e_shentsize : Z;
  e_shnum : Z;
  e_shstrndx : Z
}.

Definition ehdr_of (b : list Z) : Elf32_Ehdr :=
  Ehdr (take 16 b) (le_field b 16 2) (le_field b 18 2) (le_field b 20 4) (le_field b 24 4) (le_field b 28 4) (le_field b 32 4) (le_field b 36 4)
    (le_field b 40 2) (le_field b 42 2) (le_field b 44 2) (le_field b 46 2) (le_field b 48 2) (le_field b 50 2).

Record Elf32_Phdr := Phdr {
  p_type : Z;
  p_offset : Z;
  p_vaddr : Z;
  p_paddr : Z;
  p_filesz : Z;
  p_memsz : Z;
  p_flags : Z;
  p_align : Z
}.

Definition phdr_of (b : list Z) : Elf32_Phdr :=
  Phdr (le_field b 0 4) (le_field b 4 4) (le_field b 8 4) (le_field b 12 4) (le_field b 16 4) (le_field b 20 4) (le_field b 24 4) (le_field b 28 4).

Definition EHDR_SIZE : Z := 52.
Definition PHDR_SIZE : Z := 32.

Definition PT_LOAD : Z := 1.
Definition PT_DYNAMIC : Z := 2.
Definition PT_INTERP : Z := 3.
Definition PT_SHLIB : Z := 5.
Definition PF_W : Z := 2.

(** The test of the executable header. *)
Definition ehdr_ok (b : list Z) : bool :=
  let e := ehdr_of b in
  bool_decide (Z.of_nat (length b) = EHDR_SIZE) &&
  bool_decide (take 7 (e_ident e) = [127; 69; 76; 70; 1; 1; 1]) &&
  bool_decide (e_type e = 2) && bool_decide (e_machine e = 3) && bool_decide (e_version e = 1) &&
  bool_decide (e_phentsize e = PHDR_SIZE) && bool_decide (e_phnum e ≤ 1024).

Section process.
Context (init_ram_pages init_page_dir : Z).

Definition process_activate : M proc unit :=
  pd ← gets pagedir;
  on_vm (pagedir_activate init_page_dir pd).

Definition install_page (upage kpage : Z) (writable : bool) : M proc bool :=
  pd ← gets pagedir;
  k ← on_vm (pagedir_get_page pd upage);
  if bool_decide (k = 0) then on_vm (pagedir_set_page init_ram_pages init_page_dir pd upage kpage writable)
  else mret false.

(** The initial stack pointer. *)
Definition setup_stack : M proc (option Z) :=
  kpage ← on_vm (palloc (palloc_get_page (Z.lor PAL_USER PAL_ZERO)));
  if bool_decide (kpage ≠ 0) then
    success ← install_page (PHYS_BASE - PGSIZE) kpage true;
    if (success : bool) then mret (Some PHYS_BASE)
    else on_vm (palloc (palloc_free_page kpage));; mret None
  else mret None.

Fixpoint load_pages (fuel : nat) (f upage read_bytes zero_bytes : Z) (writable : bool) : M proc bool :=
  match fuel with
  | O => nofuel
  | S fuel =>
    if bool_decide (read_bytes > 0) || bool_decide (zero_bytes > 0) then
      let page_read_bytes := if bool_decide (read_bytes < PGSIZE) then read_bytes else PGSIZE in
      let page_zero_bytes := PGSIZE - page_read_bytes in
      kpage ← on_vm (palloc (palloc_get_page PAL_USER));
      if bool_decide (kpage = 0) then mret false else
      bs ← on_fs (file_read f page_read_bytes);
      on_vm (write_bytes kpage bs);;
      if bool_decide (Z.of_nat (length bs) ≠ page_read_bytes) then
        on_vm (palloc (palloc_free_page kpage));; mret false
      else
      on_vm (write_bytes (kpage + page_read_bytes) (replicate (Z.to_nat page_zero_bytes) 0));;
      ok ← install_page upage kpage writable;
      if negb ok then on_vm (palloc (palloc_free_page kpage));; mret false else
      load_pages fuel f (u32 (upage + PGSIZE)) (u32 (read_bytes - page_read_bytes)) (u32 (zero_bytes - page_zero_bytes)) writable
    else mret true
  end.

Definition load_segment (f ofs upage read_bytes zero_bytes : Z) (writable : bool) : M proc bool :=
  assert (bool_decide (u32 (read_bytes + zero_bytes) `mod` PGSIZE = 0));;
  assert (bool_decide (pg_ofs upage = 0));;
  assert (bool_decide (u32 ofs `mod` PGSIZE = 0));;
  on_fs (file_seek f ofs);;
  load_pages (S (Z.to_nat ((read_bytes + zero_bytes) `div` PGSIZE))) f upage read_bytes zero_bytes writable.

Definition validate_segment (phdr : Elf32_Phdr) (f : Z) : M proc bool :=
  if bool_decide (Z.land (p_offset phdr) PGMASK ≠ Z.land (p_vaddr phdr) PGMASK) then mret false else
  len ← on_fs (file_length f);
  if bool_decide (p_offset phdr > u32 len) then mret false else
  if bool_decide (p_memsz phdr < p_filesz phdr) then mret false else
  if bool_decide (p_memsz phdr = 0) then mret false else
  if negb (is_user_vaddr (p_vaddr phdr)) then mret false else
  if negb (is_user_vaddr (u32 (p_vaddr phdr + p_memsz phdr))) then mret false else
  if bool_decide (u32 (p_vaddr phdr + p_memsz phdr) < p_vaddr phdr) then mret false else
  if bool_decide (p_vaddr phdr < PGSIZE) then mret false else
  mret true.

Definition ROUND_UP (x step : Z) : Z := u32 (u32 (x + step - 1) `div` step * step).

(** The arguments [load] gives to [load_segment]: the bytes to read and to clear. *)
Definition segment_bytes (phdr : Elf32_Phdr) : Z * Z :=
  let page_offset := Z.land (p_vaddr phdr) PGMASK in
  let total := ROUND_UP (u32 (page_offset + p_memsz phdr)) PGSIZE in
  if bool_decide (p_filesz phdr > 0) then
    let read_bytes := u32 (page_offset + p_filesz phdr) in
    (read_bytes, u32 (total - read_bytes))
  else (0, total).

(** One program header; the result is false for [goto done]. *)
Definition load_phdr (f : Z) (phdr : Elf32_Phdr) : M proc bool :=
  if bool_decide (p_type phdr ∈ [PT_DYNAMIC; PT_INTERP; PT_SHLIB]) then mret false
  else if bool_decide (p_type phdr = PT_LOAD) then
    ok ← validate_segment phdr f;
    if (ok : bool) then
      let writable := bool_decide (Z.land (p_flags phdr) PF_W ≠ 0) in
      let file_page := Z.land (p_offset phdr) (u32 (Z.lnot PGMASK)) in
      let mem_page := Z.land (p_vaddr phdr) (u32 (Z.lnot PGMASK)) in
      let '(read_bytes, zero_bytes) := segment_bytes phdr in
      load_segment f (s32 file_page) mem_page read_bytes zero_bytes writable
    else mret false
  else mret true.

(** [n] program headers from [file_ofs] on. *)
Fixpoint phdr_loop (n : nat) (f file_ofs : Z) : M proc bool :=
  match n with
  | O => mret true
  | S n =>
    len ← on_fs (file_length f);
    if bool_decide (file_ofs < 0) || bool_decide (file_ofs > len) then mret false else
    on_fs (file_seek f file_ofs);;
    bs ← on_fs (file_read f PHDR_SIZE);
    if bool_decide (Z.of_nat (length bs) ≠ PHDR_SIZE) then mret false else
    ok ← load_phdr f (phdr_of bs);
    if (ok : bool) then phdr_loop n f (s32 (u32 (file_ofs + PHDR_SIZE))) else mret false
  end.

(** [load] between opening and closing the file: the entry point and the stack pointer. *)
Definition load_file (f : Z) : M proc (option (Z * Z)) :=
  bs ← on_fs (file_read f EHDR_SIZE);
  if negb (ehdr_ok bs) then mret None else
  ok ← phdr_loop (Z.to_nat (e_phnum (ehdr_of bs))) f (s32 (e_phoff (ehdr_of bs)));
  if negb ok then mret None else
  esp ← setup_stack;
  mret (match esp with Some esp => Some (e_entry (ehdr_of bs), esp) | None => None end).

Definition load (file_name : list Z) : M proc (option (Z * Z)) :=
  pd ← on_vm (pagedir_create init_page_dir);
  modify (λ s, Proc (p_vm s) (p_fs s) pd);;
  if bool_decide (pd = 0) then on_fs (file_close 0);; mret None else
  process_activate;;
  f ← on_fs (filesys_open file_name);
  r ← (if bool_decide (f = 0) then mret None else load_file f);
  on_fs (file_close f);;
  mret r.

(** [process_exit] before it wakes its parent: the page directory is given up. *)
Definition release_pagedir : M proc unit :=
  pd ← gets pagedir;
  if bool_decide (pd ≠ 0) then
    modify (λ s, Proc (p_vm s) (p_fs s) 0);;
    on_vm (pagedir_activate init_page_dir 0);;
    on_vm (pagedir_destroy init_page_dir pd)
  else mret tt.
End process.
