(* ===== verification/ProcessFacts.v ===== *)
(** * ProcessFacts: pages of a user program

    Bytes in a memory of words, the invariant of a directory that is being filled with
    pages of the user pool, and the step that adds one page. *)

From S2P Require Import Prelude Bitmap Vaddr Palloc PageDir FileSys Process.

Definition is_bytes (bs : list Z) : Prop := Forall (λ b, 0 ≤ b < 256) bs.

(** ** Bytes *)

Lemma get_byte_range m x : 0 ≤ get_byte m x < 256.
Proof. apply Z.mod_pos_bound. lia. Qed.

Lemma new_byte_range a bs m x : is_bytes bs → 0 ≤ new_byte a bs m x < 256.
Proof.
  intros Hb. unfold new_byte. case_bool_decide; [|apply get_byte_range]. destruct (bs !! Z.to_nat (x - a)) as [b|] eqn:E; cbn; [|lia].
  unfold is_bytes in Hb. rewrite Forall_forall in Hb. apply (Hb b), list_elem_of_lookup_2 with (Z.to_nat (x - a)). done.
Qed.

Lemma word_byte b0 b1 b2 b3 k :
  0 ≤ b0 < 256 → 0 ≤ b1 < 256 → 0 ≤ b2 < 256 → 0 ≤ b3 < 256 → 0 ≤ k < 4 →
  ((b0 + 256 * b1 + 256 ^ 2 * b2 + 256 ^ 3 * b3) `div` 256 ^ k) `mod` 256 =
  if decide (k = 0) then b0 else if decide (k = 1) then b1 else if decide (k = 2) then b2 else b3.
Proof.
  intros H0 H1 H2 H3 Hk. change (256 ^ 2) with 65536. change (256 ^ 3) with 16777216.
  assert (k = 0 ∨ k = 1 ∨ k = 2 ∨ k = 3) as [-> | [-> | [-> | ->]]] by lia; repeat case_decide; try lia.
  - change (256 ^ 0) with 1. Z.div_mod_to_equations. lia.
  - change (256 ^ 1) with 256. Z.div_mod_to_equations. lia.
  - change (256 ^ 2) with 65536. Z.div_mod_to_equations. lia.
  - change (256 ^ 3) with 16777216. Z.div_mod_to_equations. lia.
Qed.

Lemma get_set_bytes a bs m x : is_bytes bs → get_byte (set_bytes a bs m) x = new_byte a bs m x.
Proof.
  intros Hb. pose proof (new_byte_range a bs m) as Hr. unfold get_byte at 1, set_bytes. set (y := x - x `mod` 4).
  pose proof (Z.mod_pos_bound x 4 ltac:(lia)) as Hk. case_bool_decide as Hw.
  - rewrite word_byte by auto. assert (x = y + x `mod` 4) as Hx by (unfold y; lia). transitivity (new_byte a bs m (y + x `mod` 4)); [|by rewrite <- Hx]. clearbody y.
    assert (x `mod` 4 = 0 ∨ x `mod` 4 = 1 ∨ x `mod` 4 = 2 ∨ x `mod` 4 = 3) as [E|[E|[E|E]]] by lia; rewrite E;
      repeat (rewrite decide_True by done || rewrite decide_False by done); by rewrite ?Z.add_0_r.
  - unfold new_byte. rewrite bool_decide_eq_false_2; [done|]. intros Hin. apply Hw. split; [unfold y; Z.div_mod_to_equations; lia|lia].
Qed.

Lemma set_bytes_far a bs m y : y + 4 ≤ a ∨ a + Z.of_nat (length bs) ≤ y → set_bytes a bs m y = m y.
Proof. intros H. unfold set_bytes. rewrite bool_decide_eq_false_2; [done|]. intros (_ & ? & ?). lia. Qed.

Lemma set_bytes_u32 a bs m y : is_bytes bs → (∀ x, is_u32 (m x)) → is_u32 (set_bytes a bs m y).
Proof.
  intros Hb Hm. unfold set_bytes. case_bool_decide; [|done]. pose proof (new_byte_range a bs m) as Hr. unfold is_u32.
  pose proof (Hr y Hb). pose proof (Hr (y + 1) Hb). pose proof (Hr (y + 2) Hb). pose proof (Hr (y + 3) Hb). lia.
Qed.

(** ** The memory of the program *)

(** The page a present entry points to. *)
Definition kframe (e : Z) : Z := PHYS_BASE + Z.land e PTE_ADDR.

(** The byte the program sees at [va]. *)
Definition ubyte (s : vm) (pd va : Z) : Z := get_byte (words (pm s)) (translate (view s pd va) va).

Definition writable_page (e : Z) : bool := bool_decide (Z.land e PTE_W ≠ 0).

(** Every mapped page is a page in use of the user pool, mapped once. *)
Record linv (ram ipd : Z) (s : vm) (pd : Z) : Prop := {
  li_pd : pd_ok s pd;
  li_tlb : tlb_ok s pd;
  li_ipd : pd ≠ ipd;
  li_used : ∀ va, user va → present (view s pd va) → page_state (pm s) true (kframe (view s pd va)) = Some true;
  li_inj : ∀ va vb, user va → user vb → present (view s pd va) → present (view s pd vb) →
    kframe (view s pd va) = kframe (view s pd vb) → same_page va vb;
  li_ram : ∀ a b, page_state (pm s) true a = Some b → frame a `div` 4096 < ram
}.

(** Both pools are as in [s0] but for the pages of the program, which were free. *)
Record account (s0 : pmem) (s : vm) (pd : Z) : Prop := {
  ac_kernel : kernel_account s0 s pd;
  ac_new : ∀ va, user va → present (view s pd va) → page_state s0 true (kframe (view s pd va)) = Some false;
  ac_old : ∀ x, (∀ va, user va → present (view s pd va) → kframe (view s pd va) ≠ x) → page_state (pm s) true x = page_state s0 true x
}.

(** What was mapped stays mapped and keeps its contents. *)
Definition grows (pd : Z) (s s' : vm) : Prop :=
  ∀ va, user va → present (view s pd va) → view s' pd va = view s pd va ∧ ubyte s' pd va = ubyte s pd va.

Lemma grows_refl pd s : grows pd s s.
Proof. done. Qed.

Lemma grows_trans pd s1 s2 s3 : grows pd s1 s2 → grows pd s2 s3 → grows pd s1 s3.
Proof.
  intros H1 H2 va Hu Hp. destruct (H1 va Hu Hp) as [E1 F1]. destruct (H2 va Hu) as [E2 F2]; [by rewrite E1|].
  by rewrite E2, E1, F2, F1.
Qed.

Lemma pages_apart a b : a `mod` 4096 = 0 → b `mod` 4096 = 0 → a ≠ b → a + 4096 ≤ b ∨ b + 4096 ≤ a.
Proof. intros. Z.div_mod_to_equations. lia. Qed.

(** The words of the pages in use of the user pool. *)
Definition user_words (s s' : vm) : Prop :=
  ∀ a x, page_state (pm s) true a = Some true → a ≤ x < a + 4096 → words (pm s') x = words (pm s) x.

Lemma kernel_change_words s s' :
  palloc_ok (pm s') → kernel_change s s' → user_words s s'.
Proof.
  intros Hok [Hs Hw] a x Ha Hx. apply dec_stable. intros Hne. destruct (Hw x Hne) as (b & Hb & Hxb).
  rewrite <- Hs in Ha. destruct (page_state_kpage _ _ _ _ Hok Ha) as [[Ha4 _] _]. destruct (page_state_kpage _ _ _ _ Hok Hb) as [[Hb4 _] _].
  assert (a = b) as <- by (apply dec_stable; intros Hd; destruct (pages_apart a b) as [?|?]; done || lia).
  by pose proof (page_state_one _ _ _ _ _ _ Hok Ha Hb).
Qed.

Lemma translate_in e va : present e → kframe e ≤ translate e va < kframe e + 4096.
Proof.
  intros Hp. unfold translate, kframe. rewrite decide_True by done. rewrite pg_ofs_mod. pose proof (Z.mod_pos_bound va 4096 ltac:(lia)). lia.
Qed.

Lemma ubyte_same s s' pd va :
  pd_ok s pd → user va → present (view s pd va) → view s' pd va = view s pd va → user_words s s' →
  page_state (pm s) true (kframe (view s pd va)) = Some true → ubyte s' pd va = ubyte s pd va.
Proof.
  intros Hok Hu Hp Hv Hw Hs. unfold ubyte, get_byte. rewrite Hv. pose proof (translate_in _ va Hp) as Ht.
  destruct (page_state_kpage _ _ _ _ (pk_palloc _ _ Hok) Hs) as [[H4 _] _].
  rewrite (Hw _ _ Hs); [done|]. Z.div_mod_to_equations. lia.
Qed.

(** ** A page on its way into the program *)

(** [s2] is [s] with the free page [kp] of the user pool taken ([b]) and written, or given
    back. *)
Record fresh_page (b : bool) (kp : Z) (s s2 : vm) : Prop := {
  fp_ok : palloc_ok (pm s2);
  fp_free : page_state (pm s) true kp = Some false;
  fp_kernel : ∀ a, page_state (pm s2) false a = page_state (pm s) false a;
  fp_user : ∀ a, page_state (pm s2) true a = if decide (a = kp) then Some b else page_state (pm s) true a;
  fp_words : ∀ x, words (pm s2) x ≠ words (pm s) x → kp ≤ x < kp + 4096;
  fp_cr3 : cr3 s2 = cr3 s;
  fp_tlb : tlb s2 = tlb s
}.

Lemma fresh_kpage b kp s s2 : palloc_ok (pm s) → fresh_page b kp s s2 → is_kpage kp ∧ kp + 4096 ≤ 2 ^ 32.
Proof. intros Hok Hf. exact (page_state_kpage _ _ _ _ Hok (fp_free _ _ _ _ Hf)). Qed.

Lemma fresh_alloc s flags kp p :
  palloc_ok (pm s) → has_flag flags PAL_USER = true → allocated flags 1 kp (pm s) p → fresh_page true kp s (VM p (cr3 s) (tlb s)).
Proof.
  intros Hok Hu Hal. pose proof (al_kpage _ _ _ _ _ Hal) as [H4 _]. split; cbn; try done.
  - apply Hal.
  - pose proof (al_free _ _ _ _ _ Hal 0 ltac:(lia)) as Hf. by rewrite Hu, Z.add_0_r in Hf.
  - intros a. rewrite (al_state _ _ _ _ _ Hal), Hu. by rewrite decide_False by (by intros [? _]).
  - intros a. rewrite (al_state _ _ _ _ _ Hal), Hu. destruct (decide (a = kp)) as [->|Hne].
    + rewrite decide_True; [done|]. split; [done|]. split; [done|lia].
    + rewrite decide_False; [done|]. intros [_ [Ha ?]]. destruct (pages_apart a kp) as [?|?]; try done; lia.
  - intros x. rewrite (al_words _ _ _ _ _ Hal). case_decide as Hd; [|done]. destruct Hd as [_ ?]. intros _. lia.
Qed.

(** Bytes stored in it. *)
Definition stored (a : Z) (bs : list Z) (s : vm) : vm :=
  VM (PMem (kernel_pool (pm s)) (user_pool (pm s)) (set_bytes a bs (words (pm s)))) (cr3 s) (tlb s).

Lemma write_bytes_run a bs s : write_bytes a bs s = Ret (tt, stored a bs s).
Proof. done. Qed.

Lemma fresh_write b kp a bs s s2 :
  palloc_ok (pm s) → fresh_page b kp s s2 → is_bytes bs → kp ≤ a → a + Z.of_nat (length bs) ≤ kp + 4096 → fresh_page b kp s (stored a bs s2).
Proof.
  intros Hok Hf Hb Ha He. destruct (fresh_kpage _ _ _ _ Hok Hf) as [[H4 _] _]. destruct Hf as [F1 F2 F3 F4 F5 F6 F7]. split; cbn; try done.
  - destruct F1 as [Hp Hap Hw]. split; [intros []; [apply (Hp true)|apply (Hp false)]|done|]. intros y. by apply set_bytes_u32.
  - intros x Hx. unfold set_bytes in Hx. case_bool_decide as Hc; [|by apply F5]. destruct Hc as (Hx4 & ? & ?). Z.div_mod_to_equations. lia.
Qed.

Section fresh.
Context (ram ipd pd kp : Z) (b : bool) (s s2 : vm) (Hl : linv ram ipd s pd) (Hf : fresh_page b kp s s2).

Lemma fresh_kernel_words a x : page_state (pm s) false a = Some true → a ≤ x < a + 4096 → words (pm s2) x = words (pm s) x.
Proof using Hl Hf.
  intros Ha Hx. apply dec_stable. intros Hne%(fp_words _ _ _ _ Hf). pose proof (pk_palloc _ _ (li_pd _ _ _ _ Hl)) as Hok.
  destruct (page_state_kpage _ _ _ _ Hok Ha) as [[Ha4 _] _]. destruct (fresh_kpage _ _ _ _ Hok Hf) as [[Hk4 _] _].
  assert (a = kp) as -> by (apply dec_stable; intros Hd; destruct (pages_apart a kp) as [?|?]; done || lia).
  by pose proof (page_state_one _ _ _ _ _ _ Hok Ha (fp_free _ _ _ _ Hf)).
Qed.

Lemma fresh_pde i : user_index i → pde s2 pd i = pde s pd i.
Proof using Hl Hf. intros Hi. unfold user_index in Hi. apply (fresh_kernel_words pd); [apply (li_pd _ _ _ _ Hl)|lia]. Qed.

Lemma fresh_table i : user_index i → table s2 pd i = table s pd i.
Proof using Hl Hf. intros Hi. unfold table. by rewrite fresh_pde. Qed.

Lemma fresh_pte i k : user_index i → 0 ≤ k < 1024 → pte s2 pd i k = pte s pd i k.
Proof using Hl Hf.
  intros Hi Hk. unfold pte. rewrite fresh_table by done. destruct (table s pd i) as [pt|] eqn:Et; [|done].
  apply (fresh_kernel_words pt); [|lia]. by apply (pk_table _ _ (li_pd _ _ _ _ Hl) i).
Qed.

Lemma fresh_view va : user va → view s2 pd va = view s pd va.
Proof using Hl Hf. intros Hu. apply fresh_pte; [by apply va_index|apply pt_no_range]. Qed.

Lemma fresh_pd_ok : pd_ok s2 pd.
Proof using Hl Hf.
  destruct (li_pd _ _ _ _ Hl) as [P1 P2 P3 P4 P5 P6 P7]. split.
  - apply Hf.
  - by rewrite (fp_kernel _ _ _ _ Hf).
  - intros i Hi. unfold pde_ok. rewrite fresh_pde by done. by apply P3.
  - intros i pt Hi. rewrite fresh_table, (fp_kernel _ _ _ _ Hf) by done. by apply P4.
  - intros i j pt Hi Hj. rewrite !fresh_table by done. by apply P5.
  - intros i k Hi Hk. rewrite fresh_pte by done. by apply P6.
  - by rewrite (fp_cr3 _ _ _ _ Hf).
Qed.

Lemma fresh_user_words : user_words s s2.
Proof using Hl Hf.
  intros a x Ha Hx. apply dec_stable. intros Hne%(fp_words _ _ _ _ Hf). pose proof (pk_palloc _ _ (li_pd _ _ _ _ Hl)) as Hok.
  destruct (page_state_kpage _ _ _ _ Hok Ha) as [[Ha4 _] _]. destruct (fresh_kpage _ _ _ _ Hok Hf) as [[Hk4 _] _].
  assert (a = kp) as -> by (apply dec_stable; intros Hd; destruct (pages_apart a kp) as [?|?]; done || lia).
  pose proof (fp_free _ _ _ _ Hf). congruence.
Qed.

(** The page is not mapped anywhere. *)
Lemma fresh_unmapped va : user va → present (view s pd va) → kframe (view s pd va) ≠ kp.
Proof using Hl Hf. intros Hu Hp E. pose proof (li_used _ _ _ _ Hl va Hu Hp) as H. rewrite E in H. pose proof (fp_free _ _ _ _ Hf). congruence. Qed.
Lemma fresh_linv : linv ram ipd s2 pd.
Proof using Hl Hf.
  destruct Hl as [L1 L2 L3 L4 L5 L6]. split; [apply fresh_pd_ok| |done|..].
  - apply (tlb_change s s2 pd L2); [apply Hf|apply Hf|]. intros va e Hu. by rewrite fresh_view.
  - intros va Hu. rewrite fresh_view, (fp_user _ _ _ _ Hf) by done. intros Hp. rewrite decide_False by (by apply fresh_unmapped). by apply L4.
  - intros va vb Hu Hv. rewrite !fresh_view by done. by apply L5.
  - intros a x. rewrite (fp_user _ _ _ _ Hf). case_decide as E; [|by apply L6]. intros _. rewrite E. by apply (L6 kp false), Hf.
Qed.

Lemma fresh_grows : grows pd s s2.
Proof using Hl Hf.
  intros va Hu Hp. split; [by apply fresh_view|]. apply ubyte_same; [apply Hl|done|done|by apply fresh_view|apply fresh_user_words|by apply (li_used _ _ _ _ Hl)].
Qed.

Lemma fresh_account s0 : b = false → account s0 s pd → account s0 s2 pd.
Proof using Hl Hf.
  intros Hb [K1 K2 K3]. split.
  - apply (account_same s0 s); [apply fresh_table|apply Hf|done].
  - intros va Hu. rewrite fresh_view by done. by apply K2.
  - intros x Hx. rewrite (fp_user _ _ _ _ Hf), Hb. transitivity (page_state (pm s) true x).
    + case_decide; [subst x; symmetry; apply Hf|done].
    + apply K3. intros va Hu. rewrite <- fresh_view by done. by apply Hx.
Qed.
End fresh.

(** ** Mapping it *)

Lemma user_entry kp w : is_kpage kp →
  present (entry kp (user_flags w)) ∧ kframe (entry kp (user_flags w)) = kp ∧ writable_page (entry kp (user_flags w)) = w.
Proof.
  intros Hk. assert (0 ≤ user_flags w < 4096) by (destruct w; cbn; lia). unfold present, kframe, writable_page.
  rewrite (entry_flag kp _ PTE_P), (entry_flag kp _ PTE_W), entry_of_pt by (done || (unfold PTE_P, PTE_W; lia)).
  destruct w; (split; [by vm_compute|split; [done|reflexivity]]).
Qed.

Record mapped_page (ram ipd pd kp up : Z) (w : bool) (s s2 s3 : vm) : Prop := {
  mp_inv : linv ram ipd s3 pd;
  mp_grows : grows pd s s3;
  mp_view : ∀ vb, user vb → view s3 pd vb = if decide (same_page vb up) then entry kp (user_flags w) else view s pd vb;
  mp_bytes : ∀ va, user va → same_page va up → ubyte s3 pd va = get_byte (words (pm s2)) (kp + va `mod` 4096);
  mp_cr3 : cr3 s3 = cr3 s;
  mp_account : ∀ s0, account s0 s pd → account s0 s3 pd
}.

Lemma map_fresh ram ipd pd kp s s2 up w :
  linv ram ipd s pd → fresh_page true kp s s2 → user up → up `mod` 4096 = 0 → ¬ present (view s pd up) →
  (∃ s3, pagedir_set_page ram ipd pd up kp w s2 = Ret (true, s3) ∧ mapped_page ram ipd pd kp up w s s2 s3) ∨
  pagedir_set_page ram ipd pd up kp w s2 = Ret (false, s2).
Proof.
  intros Hl Hf Hu Hal Hnp. pose proof (pk_palloc _ _ (li_pd _ _ _ _ Hl)) as Hok. destruct (fresh_kpage _ _ _ _ Hok Hf) as [Hk _].
  pose proof (fresh_linv _ _ _ _ _ _ _ Hl Hf) as [M1 M2 M3 M4 M5 M6]. pose proof (fresh_view _ _ _ _ _ _ _ Hl Hf) as Hv.
  destruct (user_entry kp w Hk) as (Hep & Hek & _).
  destruct (set_page_run ram ipd s2 pd up kp w) as [(s3 & E & H1 & H2 & H3 & H4 & H5 & H6)|[_ E]]; try done;
    [by apply (li_ram _ _ _ _ Hl kp false), Hf|by rewrite Hv| |by right].
  left. exists s3. split; [done|]. pose proof (kernel_change_words _ _ (pk_palloc _ _ H1) H4) as Hw. destruct H4 as [Hst _].
  assert (page_state (pm s3) true kp = Some true) as Hkp by (rewrite Hst, (fp_user _ _ _ _ Hf); by rewrite decide_True).
  assert (∀ vb, user vb → present (view s2 pd vb) → kframe (view s2 pd vb) ≠ kp) as Hnew.
  { intros vb Hvb. rewrite Hv by done. by apply (fresh_unmapped _ _ _ _ _ _ _ Hl Hf). }
  split.
  - split; [done|done|done|..].
    + intros va Hva. rewrite H3 by done. case_decide; [by rewrite Hek|]. rewrite Hst. by apply M4.
    + intros va vb Hva Hvb. rewrite !H3 by done. unfold same_page in *. repeat case_decide; rewrite ?Hek; intros Hpa Hpb Hkk; try congruence.
      * by destruct (Hnew vb Hvb Hpb).
      * by destruct (Hnew va Hva Hpa).
      * by apply M5.
    + intros a b. rewrite Hst. apply M6.
  - apply (grows_trans pd s s2); [by apply (fresh_grows _ _ _ _ _ _ _ Hl Hf)|]. intros va Hva Hp.
    assert (view s3 pd va = view s2 pd va) as E3.
    { rewrite H3 by done. case_decide as Hs; [|done]. destruct Hnp. apply same_indices in Hs as [Hi Hj].
      rewrite Hv in Hp by done. unfold view in *. by rewrite Hi, Hj in Hp. }
    split; [done|]. apply ubyte_same; try done. by apply M4.
  - intros vb Hvb. rewrite H3 by done. case_decide; [done|by apply Hv].
  - intros va Hva Hs. unfold ubyte. rewrite H3, decide_True by done. pose proof (translate_in _ va Hep) as Ht. rewrite Hek in Ht.
    unfold get_byte. destruct Hk as [Hk4 _]. assert (page_state (pm s2) true kp = Some true) as Hkp2 by (by rewrite <- Hst).
    rewrite (Hw kp); [|done|Z.div_mod_to_equations; lia].
    replace (translate (entry kp (user_flags w)) va) with (kp + va `mod` 4096); [done|].
    unfold translate. rewrite decide_True by done. unfold kframe in Hek. by rewrite Hek, pg_ofs_mod.
  - rewrite H5. apply Hf.
  - intros s0 [K1 K2 K3].
    assert (page_state s0 true kp = Some false) as Hkp0 by (rewrite <- K3; [apply Hf|]; by apply (fresh_unmapped _ _ _ _ _ _ _ Hl Hf)).
    split.
    + apply H6, (account_same s0 s); [apply (fresh_table _ _ _ _ _ _ _ Hl Hf)|apply Hf|done].
    + intros va Hva. rewrite H3 by done. case_decide; [by rewrite Hek|]. rewrite Hv by done. by apply K2.
    + intros x Hx. assert (x ≠ kp) as Hne.
      { intros ->. apply (Hx up Hu); rewrite H3, decide_True by done; done. }
      rewrite Hst, (fp_user _ _ _ _ Hf), decide_False by done. apply K3. intros va Hva Hp Hxv. apply (Hx va Hva); rewrite H3 by done; case_decide as Hs;
        try (by rewrite Hv); destruct Hnp; apply same_indices in Hs as [Hi Hj]; unfold view in Hp |- *; by rewrite Hi, Hj in Hp.
Qed.
