(* ===== verification/ProcessLoad.v ===== *)
(** * ProcessLoad: segments are loaded as the program headers say

    The loader reads its file through [readable], what an open file promises; the pages it
    maps hold the bytes of the file and zeros.  Every call returns, also when memory runs
    out, the file is too short or a page is taken. *)

From S2P Require Import Prelude Bitmap Vaddr Palloc PageDir FileSys Process ProcessFacts.

(** What the loader needs of an open file: its contents are [c], it is at position [pos]. *)
Class readable (f : Z) (R : list Z → Z → fs → Prop) : Prop := {
  rd_read c pos n s : R c pos s → ∃ s', file_read f n s = Ret (take (Z.to_nat n) (drop (Z.to_nat pos) c), s') ∧
    R c (pos + Z.of_nat (length (take (Z.to_nat n) (drop (Z.to_nat pos) c)))) s';
  rd_seek c pos q s : R c pos s → 0 ≤ q < 2 ^ 31 → ∃ s', file_seek f q s = Ret (tt, s') ∧ R c q s';
  rd_length c pos s : R c pos s → file_length f s = Ret (Z.of_nat (length c), s);
  rd_range c pos s : R c pos s → 0 ≤ pos < 2 ^ 31 ∧ Z.of_nat (length c) < 2 ^ 31
}.

Section loading.
Context (s0 : pmem) (ram ipd f : Z) (R : list Z → Z → fs → Prop) `{!readable f R} (c : list Z) (Hc : is_bytes c) (pd : Z).

(** The state of the loader: the invariant, every page accounted for since [s0], the open
    file, the current directory. *)
Record lstate (s : proc) : Prop := {
  ls_vm : linv ram ipd (p_vm s) pd;
  ls_account : account s0 (p_vm s) pd;
  ls_file : ∃ pos, R c pos (p_fs s);
  ls_pd : pagedir s = pd
}.

Lemma lstate_intro v fs' pos : linv ram ipd v pd → account s0 v pd → R c pos fs' → lstate (Proc v fs' pd).
Proof. intros. split; [done|done|by exists pos|done]. Qed.

Lemma on_vm_run {A} (m : M vm A) v v' fs' q a : m v = Ret (a, v') → on_vm m (Proc v fs' q) = Ret (a, Proc v' fs' q).
Proof. intros E. unfold on_vm. cbn. by rewrite E. Qed.

Lemma on_fs_run {A} (m : M fs A) v s s' q a : m s = Ret (a, s') → on_fs m (Proc v s q) = Ret (a, Proc v s' q).
Proof. intros E. unfold on_fs. cbn. by rewrite E. Qed.

(** Getting a page. *)
Lemma get_page_fresh s flags :
  linv ram ipd s pd → has_flag flags PAL_USER = true → has_flag flags PAL_ASSERT = false →
  (∃ kp p, palloc (palloc_get_page flags) s = Ret (kp, VM p (cr3 s) (tlb s)) ∧ kp ≠ 0 ∧ allocated flags 1 kp (pm s) p ∧
     fresh_page true kp s (VM p (cr3 s) (tlb s))) ∨
  palloc (palloc_get_page flags) s = Ret (0, s).
Proof.
  intros Hl Hu Ha. pose proof (pk_palloc _ _ (li_pd _ _ _ _ Hl)) as Hok.
  destruct (palloc_get_run (pm s) flags 1 Hok ltac:(lia)) as [(kp & p & E & Hal)|[_ E]].
  - left. exists kp, p. split_and!; [unfold palloc, palloc_get_page; by rewrite E| |done|by apply (fresh_alloc s flags)].
    pose proof (al_kpage _ _ _ _ _ Hal) as [_ ?]. unfold PHYS_BASE in *. lia.
  - right. unfold palloc, palloc_get_page. rewrite E, Ha. by destruct s.
Qed.

(** Giving it back. *)
Lemma free_page_fresh kp s s2 :
  linv ram ipd s pd → account s0 s pd → fresh_page true kp s s2 →
  ∃ s3, palloc (palloc_free_page kp) s2 = Ret (tt, s3) ∧ linv ram ipd s3 pd ∧ account s0 s3 pd.
Proof.
  intros Hl Ha Hf. pose proof Hf as [F1 F2 F3 F4 F5 F6 F7]. destruct (page_state_kpage _ _ _ _ (pk_palloc _ _ (li_pd _ _ _ _ Hl)) F2) as [[Hk _] _].
  destruct (palloc_free_run (pm s2) true kp 1 F1 ltac:(lia)) as (p & E & Hfr).
  { intros k Hk'. replace (kp + 4096 * k) with kp by lia. rewrite F4. by rewrite decide_True. }
  assert (fresh_page false kp s (VM p (cr3 s2) (tlb s2))) as Hf3.
  { destruct Hfr as [R1 R2 R3 _]. split; cbn; try done.
    - intros a. rewrite R2, F3. by rewrite decide_False by (by intros [? _]).
    - intros a. rewrite R2, F4. destruct (decide (a = kp)) as [->|Hne].
      + rewrite decide_True; [done|]. split; [done|]. split; [done|lia].
      + rewrite decide_False; [done|]. intros [_ [Ha4 ?]]. destruct (pages_apart a kp) as [?|?]; done || lia.
    - intros x. rewrite R3. case_decide; [lia|apply F5]. }
  exists (VM p (cr3 s2) (tlb s2)). split_and!; [unfold palloc, palloc_free_page; by rewrite E|..].
  - by apply (fresh_linv _ _ _ _ _ _ _ Hl Hf3).
  - by apply (fresh_account _ _ _ _ _ _ _ Hl Hf3).
Qed.

(** Installing it: the page is mapped, or it is not and nothing changed. *)
Lemma install_fresh kp s s2 fs' up w :
  linv ram ipd s pd → fresh_page true kp s s2 → user up → up `mod` 4096 = 0 →
  (∃ s3, install_page ram ipd up kp w (Proc s2 fs' pd) = Ret (true, Proc s3 fs' pd) ∧ mapped_page ram ipd pd kp up w s s2 s3 ∧ ¬ present (view s pd up)) ∨
  install_page ram ipd up kp w (Proc s2 fs' pd) = Ret (false, Proc s2 fs' pd).
Proof.
  intros Hl Hf Hu Hal. unfold install_page, gets. rewrite (bind_Ret _ _ _ _ _ eq_refl). cbn [pagedir].
  pose proof (fresh_pd_ok _ _ _ _ _ _ _ Hl Hf) as Hok2. pose proof (fresh_view _ _ _ _ _ _ _ Hl Hf up Hu) as Hv.
  run_step (on_vm_run _ _ _ fs' pd _ (get_page_run s2 pd up Hok2 Hu)). rewrite Hv. unfold translate. case_decide as Hp.
  - right. rewrite bool_decide_eq_false_2; [done|]. pose proof (view_range s pd up (li_pd _ _ _ _ Hl) Hu) as Hr.
    rewrite land_page_mask, pg_ofs_mod by (unfold is_u32; lia). unfold PHYS_BASE. Z.div_mod_to_equations. lia.
  - rewrite bool_decide_eq_true_2 by done. destruct (map_fresh ram ipd pd kp s s2 up w Hl Hf Hu Hal Hp) as [(s3 & E & Hm)|E].
    + left. exists s3. split_and!; [by apply on_vm_run|done|done].
    + right. by apply on_vm_run.
Qed.

(** [total] bytes at [up]: the first [rb] are those of the file from [pos] on, the others
    are zero. *)
Definition filled (s : vm) (up total rb : Z) (w : bool) (pos : Z) : Prop :=
  ∀ k, 0 ≤ k < total →
    present (view s pd (up + k)) ∧ writable_page (view s pd (up + k)) = w ∧
    ubyte s pd (up + k) = if decide (k < rb) then default 0 (c !! Z.to_nat (pos + k)) else 0.

Lemma filled_grows s s' up total rb w pos :
  0 ≤ up → up + total ≤ PHYS_BASE → grows pd s s' → filled s up total rb w pos → filled s' up total rb w pos.
Proof.
  intros H0 Hu Hg Hf k Hk. destruct (Hf k Hk) as (H1 & H2 & H3). destruct (Hg (up + k)) as [E1 E2]; [unfold user; lia|done|].
  by rewrite E1, E2.
Qed.

(** The bytes of one page. *)
Lemma page_bytes m kp prb pos k :
  is_bytes (take (Z.to_nat prb) (drop (Z.to_nat pos) c)) → 0 ≤ prb ≤ 4096 → 0 ≤ pos → 0 ≤ k < 4096 →
  Z.of_nat (length (take (Z.to_nat prb) (drop (Z.to_nat pos) c))) = prb →
  get_byte (set_bytes (kp + prb) (replicate (Z.to_nat (4096 - prb)) 0) (set_bytes kp (take (Z.to_nat prb) (drop (Z.to_nat pos) c)) m)) (kp + k)
  = if decide (k < prb) then default 0 (c !! Z.to_nat (pos + k)) else 0.
Proof.
  intros Hb Hp Hpos Hk Hlen. rewrite get_set_bytes by (apply Forall_replicate; lia). unfold new_byte at 1. rewrite length_replicate.
  destruct (decide (k < prb)).
  - rewrite bool_decide_eq_false_2 by lia. rewrite get_set_bytes by done. unfold new_byte. rewrite bool_decide_eq_true_2 by lia.
    f_equal. rewrite lookup_take_lt, lookup_drop by lia. f_equal. lia.
  - rewrite bool_decide_eq_true_2 by lia. rewrite lookup_replicate_2 by lia. done.
Qed.

Lemma slice_bytes n k : is_bytes (take n (drop k c)).
Proof using Hc. by apply Forall_take, Forall_drop. Qed.

Lemma page_split n rb zb :
  0 ≤ rb → 0 ≤ zb → rb + zb = 4096 * Z.of_nat (S n) →
  let prb := if bool_decide (rb < PGSIZE) then rb else PGSIZE in
  0 ≤ prb ≤ 4096 ∧ prb ≤ rb ∧ 4096 - prb ≤ zb ∧ (prb < 4096 → prb = rb) ∧ (rb - prb) + (zb - (4096 - prb)) = 4096 * Z.of_nat n.
Proof. intros H1 H2 H3. change PGSIZE with 4096. case_bool_decide; cbn zeta; lia. Qed.

Lemma load_pages_run w n v fs' pos up rb zb :
  linv ram ipd v pd → account s0 v pd → R c pos fs' → 0 ≤ rb → 0 ≤ zb → rb + zb = 4096 * Z.of_nat n → up `mod` 4096 = 0 → 0 ≤ up →
  up + 4096 * Z.of_nat n ≤ PHYS_BASE →
  (∃ v' s' pos', load_pages ram ipd (S n) f up rb zb w (Proc v fs' pd) = Ret (true, Proc v' s' pd) ∧ linv ram ipd v' pd ∧ account s0 v' pd ∧ R c pos' s' ∧
     grows pd v v' ∧ cr3 v' = cr3 v ∧ filled v' up (4096 * Z.of_nat n) rb w pos) ∨
  (∃ s', load_pages ram ipd (S n) f up rb zb w (Proc v fs' pd) = Ret (false, s') ∧ lstate s').
Proof using readable0 Hc.
  revert v fs' pos up rb zb. induction n as [|n IH]; intros v fs' pos up rb zb Hl Ha HR Hrb Hzb Hsum Hal Hup Hend.
  { left. exists v, fs', pos. cbn [load_pages]. rewrite (bool_decide_eq_false_2 (rb > 0)), (bool_decide_eq_false_2 (zb > 0)) by lia.
    split_and!; try done. intros k Hk. lia. }
  remember (S n) as fuel eqn:Ef. cbn [load_pages]. subst fuel. pose proof (pk_palloc _ _ (li_pd _ _ _ _ Hl)) as Hok.
  replace (bool_decide (rb > 0) || bool_decide (zb > 0)) with true by (symmetry; rewrite <- bool_decide_or; apply bool_decide_eq_true_2; lia).
  pose proof (page_split n rb zb Hrb Hzb Hsum) as Hprb. cbn zeta in Hprb |- *.
  set (prb := if bool_decide (rb < PGSIZE) then rb else PGSIZE) in *. change PGSIZE with 4096. destruct Hprb as (Hp1 & Hp2 & Hp3 & Hp4 & Hp5).
  destruct (get_page_fresh v PAL_USER Hl eq_refl eq_refl) as [(kp & p & E & Hkp & Hal1 & Hf1)|E];
    run_step (on_vm_run _ _ _ fs' pd _ E); [|right; exists (Proc v fs' pd); split; [done|by apply (lstate_intro v fs' pos)]].
  rewrite bool_decide_eq_false_2 by done. destruct (rd_read c pos prb fs' HR) as (s1 & Er & HR1).
  set (bs := take (Z.to_nat prb) (drop (Z.to_nat pos) c)) in *. run_step (on_fs_run _ (VM p (cr3 v) (tlb v)) _ _ pd _ Er).
  assert (is_bytes bs) as Hbs by apply slice_bytes. assert (Z.of_nat (length bs) ≤ prb) as Hlen by (unfold bs; rewrite length_take; lia).
  assert (fresh_page true kp v (stored kp bs (VM p (cr3 v) (tlb v)))) as Hf2 by (apply fresh_write; [done|done|done|lia|lia]).
  run_step (on_vm_run _ _ _ s1 pd _ (write_bytes_run kp bs (VM p (cr3 v) (tlb v)))). case_bool_decide as Hshort.
  { right. destruct (free_page_fresh _ _ _ Hl Ha Hf2) as (s3 & E3 & L3 & A3). run_step (on_vm_run _ _ _ s1 pd _ E3). eexists. split; [done|by eapply lstate_intro]. }
  set (v2 := stored (kp + prb) (replicate (Z.to_nat (4096 - prb)) 0) (stored kp bs (VM p (cr3 v) (tlb v)))).
  assert (fresh_page true kp v v2) as Hf3 by (apply fresh_write; [done|done|apply Forall_replicate; lia|lia|rewrite length_replicate; lia]).
  run_step (on_vm_run _ _ _ s1 pd _ (write_bytes_run (kp + prb) (replicate (Z.to_nat (4096 - prb)) 0) (stored kp bs (VM p (cr3 v) (tlb v))))).
  fold v2. assert (user up) as Hu by (unfold user; lia).
  destruct (install_fresh kp v v2 s1 up w Hl Hf3 Hu Hal) as [(v3 & E3 & Hm & _)|E3]; run_step E3.
  2:{ right. destruct (free_page_fresh _ _ _ Hl Ha Hf3) as (s3 & E4 & L3 & A3). cbn [negb]. run_step (on_vm_run _ _ _ s1 pd _ E4). eexists. split; [done|by eapply lstate_intro]. }
  destruct Hm as [N1 N2 N3 N4 N5 N6]. cbn [negb].
  rewrite (uwrap_id 32 (up + 4096)), (uwrap_id 32 (rb - prb)), (uwrap_id 32 (zb - _)) by (unfold PHYS_BASE in *; lia).
  rewrite Hshort in HR1. destruct (IH v3 s1 (pos + prb) (up + 4096) (rb - prb) (zb - (4096 - prb))) as [(v' & s' & pos' & E' & I1 & I0 & I2 & I3 & I4 & I5)|(s' & E' & I1)];
    [done|by apply N6|done|lia|lia|lia|Z.div_mod_to_equations; lia|lia|lia| |right; by exists s'].
  left. exists v', s', pos'. split_and!; [done|done|done|done|by apply (grows_trans pd v v3)|congruence|].
  assert (filled v3 up 4096 rb w pos) as Hfirst.
  { intros k Hk. assert (same_page (up + k) up) as Hsp by (unfold same_page; rewrite !pg_no_div; Z.div_mod_to_equations; lia).
    assert (user (up + k)) as Huk by (unfold user; lia). destruct (user_entry kp w) as (U1 & U2 & U3); [by apply (fresh_kpage true kp v v2)|].
    rewrite N3, decide_True by done. split_and!; [done|done|]. rewrite N4 by done.
    replace ((up + k) `mod` 4096) with k by (Z.div_mod_to_equations; lia). unfold v2. cbn [pm words stored].
    unfold bs. rewrite page_bytes; [|done|lia|by apply (rd_range c pos fs')|done|done].
    destruct (decide (k < prb)), (decide (k < rb)); done || lia. }
  apply (filled_grows v3 v') in Hfirst; [|lia|lia|done]. intros k Hk. destruct (decide (k < 4096)) as [Hlo|Hhi]; [apply Hfirst; lia|].
  destruct (I5 (k - 4096)) as (J1 & J2 & J3); [lia|]. replace (up + 4096 + (k - 4096)) with (up + k) in * by lia.
  split_and!; [done|done|]. rewrite J3. destruct (decide (k - 4096 < rb - prb)), (decide (k < rb)); try lia.
  do 2 f_equal. lia.
Qed.

(** ** Segments *)

Record phdr_u32 (ph : Elf32_Phdr) : Prop := {
  pu_offset : is_u32 (p_offset ph);
  pu_vaddr : is_u32 (p_vaddr ph);
  pu_filesz : is_u32 (p_filesz ph);
  pu_memsz : is_u32 (p_memsz ph)
}.

(** What [validate_segment] accepts. *)
Record seg_ok (ph : Elf32_Phdr) : Prop := {
  sg_align : p_offset ph `mod` 4096 = p_vaddr ph `mod` 4096;
  sg_offset : p_offset ph ≤ Z.of_nat (length c);
  sg_size : p_filesz ph ≤ p_memsz ph;
  sg_some : 0 < p_memsz ph;
  sg_low : 4096 ≤ p_vaddr ph;
  sg_high : p_vaddr ph + p_memsz ph < PHYS_BASE
}.

#[export] Instance seg_ok_dec ph : Decision (seg_ok ph).
Proof.
  destruct (decide (p_offset ph `mod` 4096 = p_vaddr ph `mod` 4096 ∧ p_offset ph ≤ Z.of_nat (length c) ∧ p_filesz ph ≤ p_memsz ph ∧
    0 < p_memsz ph ∧ 4096 ≤ p_vaddr ph ∧ p_vaddr ph + p_memsz ph < PHYS_BASE)) as [(?&?&?&?&?&?)|H].
  - left. by split.
  - right. intros []. by apply H.
Defined.

Lemma u32_sum a b : is_u32 a → is_u32 b → u32 (a + b) = if decide (a + b < 2 ^ 32) then a + b else a + b - 2 ^ 32.
Proof. unfold is_u32, uwrap. intros Ha Hb. case_decide; Z.div_mod_to_equations; lia. Qed.

(** A test that refuses the segment, and does so rightly. *)
Ltac refuse P Hno :=
  let T := fresh "T" in
  destruct (decide P) as [T|T];
  [rewrite (bool_decide_eq_true_2 P) by done; apply Hno; intros []; unfold PHYS_BASE in *; repeat match goal with x := _ |- _ => subst x end; try case_decide; lia
  |rewrite (bool_decide_eq_false_2 P) by done].

Lemma validate_segment_run ph v fs' pos :
  phdr_u32 ph → R c pos fs' → validate_segment ph f (Proc v fs' pd) = Ret (bool_decide (seg_ok ph), Proc v fs' pd).
Proof using readable0.
  intros [U1 U2 U3 U4] HR. unfold validate_segment. fold (pg_ofs (p_offset ph)) (pg_ofs (p_vaddr ph)). rewrite !pg_ofs_mod.
  destruct (decide (p_offset ph `mod` 4096 = p_vaddr ph `mod` 4096)) as [Ha|Ha].
  2:{ rewrite (bool_decide_eq_true_2 (_ ≠ _)) by done. rewrite bool_decide_eq_false_2; [done|]. by intros []. }
  rewrite (bool_decide_eq_false_2 (_ ≠ _)) by tauto. run_step (on_fs_run _ v _ _ pd _ (rd_length c pos fs' HR)).
  pose proof (rd_range c pos fs' HR) as [_ Hlen]. rewrite uwrap_id by lia. unfold is_user_vaddr. rewrite u32_sum by done.
  change PGSIZE with 4096. unfold is_u32, PHYS_BASE in *.
  assert (¬ seg_ok ph → Ret (false, Proc v fs' pd) = Ret (bool_decide (seg_ok ph), Proc v fs' pd)) as Hno by (intros H; by rewrite bool_decide_eq_false_2).
  set (sum := if decide _ then _ else _).
  refuse (p_offset ph > Z.of_nat (length c)) Hno. refuse (p_memsz ph < p_filesz ph) Hno. refuse (p_memsz ph = 0) Hno.
  destruct (decide (p_vaddr ph < 3221225472)) as [T4|T4]; [rewrite (bool_decide_eq_true_2 (p_vaddr ph < _)) by done|
    rewrite (bool_decide_eq_false_2 (p_vaddr ph < 3221225472)) by done; apply Hno; intros []; unfold PHYS_BASE in *; lia].
  destruct (decide (sum < 3221225472)) as [T5|T5]; [rewrite (bool_decide_eq_true_2 (sum < _)) by done|
    rewrite (bool_decide_eq_false_2 (sum < 3221225472)) by done; apply Hno; intros []; unfold sum, PHYS_BASE in *; case_decide; lia].
  cbn [negb]. refuse (sum < p_vaddr ph) Hno. refuse (p_vaddr ph < 4096) Hno.
  unfold mret, M_ret. rewrite bool_decide_eq_true_2; [done|]. unfold sum in *. split; try done; unfold PHYS_BASE; case_decide; lia.
Qed.

(** The pages of an accepted segment: whole pages of user memory above page 0 that cover it. *)
Record geometry (ph : Elf32_Phdr) (up rb zb : Z) (n : nat) : Prop := {
  ge_up : up = p_vaddr ph - p_vaddr ph `mod` 4096;
  ge_aligned : up `mod` 4096 = 0;
  ge_rb : rb = if decide (p_filesz ph = 0) then 0 else p_vaddr ph `mod` 4096 + p_filesz ph;
  ge_zb : 0 ≤ zb;
  ge_sum : rb + zb = 4096 * Z.of_nat n;
  ge_low : 4096 ≤ up;
  ge_high : up + 4096 * Z.of_nat n ≤ PHYS_BASE;
  ge_cover : p_vaddr ph + p_memsz ph ≤ up + 4096 * Z.of_nat n
}.

Lemma seg_geometry ph :
  phdr_u32 ph → seg_ok ph →
  ∃ n, geometry ph (Z.land (p_vaddr ph) (u32 (Z.lnot PGMASK))) (segment_bytes ph).1 (segment_bytes ph).2 n.
Proof.
  intros [U1 U2 U3 U4] [S1 S2 S3 S4 S5 S6]. unfold is_u32, PHYS_BASE in *. fold (pg_round_down (p_vaddr ph)). rewrite pg_round_down_spec by done.
  set (po := p_vaddr ph `mod` 4096). pose proof (Z.mod_pos_bound (p_vaddr ph) 4096 ltac:(lia)) as Hpo. fold po in Hpo.
  exists (Z.to_nat ((po + p_memsz ph + 4095) `div` 4096)).
  assert (0 < (po + p_memsz ph + 4095) `div` 4096) as Hn by (apply Z.div_str_pos; lia).
  assert (segment_bytes ph = (if decide (p_filesz ph = 0) then 0 else po + p_filesz ph,
    (po + p_memsz ph + 4095) `div` 4096 * 4096 - (if decide (p_filesz ph = 0) then 0 else po + p_filesz ph))) as ->.
  { unfold segment_bytes, ROUND_UP. fold (pg_ofs (p_vaddr ph)). rewrite pg_ofs_mod. fold po. change PGSIZE with 4096.
    assert (po ≤ p_vaddr ph) by (unfold po; apply Z.mod_le; lia).
    rewrite (uwrap_id 32 (po + p_memsz ph)), (uwrap_id 32 (_ + _ - 1)) by lia. replace (po + p_memsz ph + 4096 - 1) with (po + p_memsz ph + 4095) by lia.
    rewrite (uwrap_id 32 (_ * 4096)) by (Z.div_mod_to_equations; lia). destruct (decide (p_filesz ph = 0)).
    - rewrite bool_decide_eq_false_2 by lia. f_equal. lia.
    - rewrite bool_decide_eq_true_2 by lia. rewrite (uwrap_id 32 (po + p_filesz ph)), uwrap_id by (Z.div_mod_to_equations; lia). done. }
  cbn [fst snd]. unfold po in *. split; try done; unfold PHYS_BASE; rewrite ?Z2Nat.id by lia; destruct (decide (p_filesz ph = 0)); Z.div_mod_to_equations; lia.
Qed.

(** The segment in the program's memory. *)
Definition seg_loaded (s : vm) (ph : Elf32_Phdr) : Prop :=
  seg_ok ph ∧ ∀ k, 0 ≤ k < p_memsz ph →
    let va := p_vaddr ph + k in
    present (view s pd va) ∧ writable_page (view s pd va) = bool_decide (Z.land (p_flags ph) PF_W ≠ 0) ∧
    ubyte s pd va = if decide (k < p_filesz ph) then default 0 (c !! Z.to_nat (p_offset ph + k)) else 0.

Lemma seg_loaded_grows s s' ph : is_u32 (p_vaddr ph) → grows pd s s' → seg_loaded s ph → seg_loaded s' ph.
Proof.
  intros Hv Hg [Hok Hs]. split; [done|]. intros k Hk va. destruct (Hs k Hk) as (H1 & H2 & H3). unfold is_u32 in Hv. pose proof (sg_high _ Hok).
  destruct (Hg va) as [E1 E2]; [unfold user, va; lia|done|]. unfold va in *. by rewrite E1, E2.
Qed.

(** A call of the loader: it succeeds and keeps what was loaded, or fails. *)
Definition loads (o : outcome (bool * proc)) (v : vm) (Q : vm → Prop) : Prop :=
  (∃ s', o = Ret (true, s') ∧ lstate s' ∧ grows pd v (p_vm s') ∧ cr3 (p_vm s') = cr3 v ∧ Q (p_vm s')) ∨
  (∃ s', o = Ret (false, s') ∧ lstate s').

Lemma load_phdr_run s ph : phdr_u32 ph → lstate s → loads (load_phdr ram ipd f ph s) (p_vm s) (λ v, p_type ph = PT_LOAD → seg_loaded v ph).
Proof using readable0 Hc.
  intros Hu [Hl Ha [pos HR] Hpd]. destruct s as [v fs' q]. cbn in *. subst q. unfold load_phdr.
  case_bool_decide as Ht1; [right; exists (Proc v fs' pd); split; [done|by apply (lstate_intro v fs' pos)]|].
  destruct (decide (p_type ph = PT_LOAD)) as [Ht|Ht].
  2:{ rewrite bool_decide_eq_false_2 by done. left. exists (Proc v fs' pd). split_and!; try done. by apply (lstate_intro v fs' pos). }
  rewrite bool_decide_eq_true_2 by done. run_step (validate_segment_run ph v fs' pos Hu HR). case_bool_decide as Hok; [|right; exists (Proc v fs' pd); split; [done|by apply (lstate_intro v fs' pos)]].
  destruct (seg_geometry ph Hu Hok) as [n Hg]. destruct (segment_bytes ph) as [rb zb] eqn:Esb. cbn [fst snd] in Hg. destruct Hg as [G1 G2 G3 G4 G5 G6 G7 G8].
  destruct Hu as [U1 U2 U3 U4]. pose proof (rd_range c pos fs' HR) as [_ Hlen]. pose proof Hok as [K1 K2 K3 K4 K5 K6]. unfold is_u32 in *.
  cbn beta iota zeta. fold (pg_round_down (p_offset ph)). rewrite (pg_round_down_spec (p_offset ph)) by (unfold is_u32; lia).
  pose proof (Z.mod_pos_bound (p_offset ph) 4096 ltac:(lia)) as Hpo. pose proof (Z.mod_pos_bound (p_vaddr ph) 4096 ltac:(lia)) as Hvo.
  assert (0 ≤ rb) as Hrb by (rewrite G3; case_decide; lia).
  assert (0 ≤ p_offset ph - p_offset ph `mod` 4096) as Hfp by (Z.div_mod_to_equations; lia).
  rewrite swrap_id by lia. unfold load_segment, PHYS_BASE in *. change PGSIZE with 4096.
  rewrite assert_bind by (apply bool_decide_eq_true_2; rewrite uwrap_id, G5 by lia; Z.div_mod_to_equations; lia).
  rewrite assert_bind by (apply bool_decide_eq_true_2; by rewrite pg_ofs_mod).
  rewrite assert_bind by (apply bool_decide_eq_true_2; rewrite uwrap_id by lia; Z.div_mod_to_equations; lia).
  destruct (rd_seek c pos (p_offset ph - p_offset ph `mod` 4096) fs' HR ltac:(lia)) as (s1 & Es & HR1). run_step (on_fs_run _ v _ _ pd _ Es).
  rewrite G5. replace (Z.to_nat ((4096 * Z.of_nat n) `div` 4096)) with n by (rewrite Z.mul_comm, Z.div_mul by lia; lia).
  destruct (load_pages_run (bool_decide (Z.land (p_flags ph) PF_W ≠ 0)) n v s1 (p_offset ph - p_offset ph `mod` 4096)
    (Z.land (p_vaddr ph) (u32 (Z.lnot PGMASK))) rb zb) as [(v' & s' & pos' & E & L1 & L0 & L2 & L3 & L4 & L5)|(s' & E & Hf)];
    [done|done|done|done|done|done|done|lia|unfold PHYS_BASE; lia| |right; by exists s'].
  left. exists (Proc v' s' pd). split_and!; [done|by apply (lstate_intro v' s' pos')|done|done|]. intros _. split; [done|]. intros k Hk va.
  destruct (L5 (p_vaddr ph `mod` 4096 + k)) as (J1 & J2 & J3); [lia|]. rewrite G1 in J1, J2, J3.
  replace (p_vaddr ph - p_vaddr ph `mod` 4096 + (p_vaddr ph `mod` 4096 + k)) with va in * by (unfold va; lia).
  split_and!; [done|done|]. cbn [p_vm]. rewrite J3, G3. rewrite K1. replace (p_offset ph - p_vaddr ph `mod` 4096 + (p_vaddr ph `mod` 4096 + k)) with (p_offset ph + k) by lia.
  repeat case_decide; try done; lia.
Qed.
End loading.
