(* ===== verification/ProcessSpec.v ===== *)
(** * ProcessSpec: what [load] promises

    The open files of the file system are [readable], so the loader's lemmas hold for them.
    A program that [load] accepts is in memory as its headers say.

    The pages that [load] takes for the program, its page tables and its stack come from the
    pools of [Palloc], which may be exhausted at any of these allocations.  The blocks that the
    file system takes with [malloc] are a separate list of outcomes of [FileSys], and the
    theorems assume that these allocations succeed: a kernel pool too full for a block
    of the file system is outside of them. *)

From S2P Require Import Prelude Bitmap Vaddr Palloc PageDir FileSys FileSysIO FileSysInv FileSysMem FileSysFiles FileSysOps FileSysSpec FileSysMount FileSysSession Process ProcessFacts ProcessLoad.

(** ** An open file *)

Section opened.
Context (a : astate) (f id : Z) (Hfresh : a_files a !! f = None) (Hfew : Z.of_nat (size (a_files a)) < 2 ^ 31 - 9).

(** The file system of [a] with the file [id] open as [f] at [pos]. *)
Definition opened (c : list Z) (pos : Z) (s : fs) : Prop :=
  ∃ b, models s (on_files (<[f := AFile id pos b]> (a_files a)) a) ∧ a_data a !! id = Some c.

Lemma opened_few b pos : Z.of_nat (size (a_files (on_files (<[f := AFile id pos b]> (a_files a)) a))) < 2 ^ 31 - 8.
Proof using Hfresh Hfew. cbn. rewrite map_size_insert_None by done. lia. Qed.

Lemma opened_op c pos s op :
  opened c pos s → (∀ b, op_ok (on_files (<[f := AFile id pos b]> (a_files a)) a) op) →
  ∃ b r s' a', run_op (replicate 20 0) op s = Ret (r, s') ∧ models s' a' ∧ fspec (on_files (<[f := AFile id pos b]> (a_files a)) a) op r a'.
Proof.
  intros (b & Hm & _) Hok. destruct (op_refines (replicate 20 0) s _ op eq_refl Hm (Hok b)) as (r & s' & a' & E & Hm' & Hs). by exists b, r, s', a'.
Qed.

Lemma opened_range c pos s : opened c pos s → 0 ≤ pos < 2 ^ 31 ∧ Z.of_nat (length c) < 2 ^ 31.
Proof.
  intros (b & [L Hm] & Hd). destruct (handle_of s _ L Hm f (AFile id pos b)) as (fl & i & e & Hh); [by apply lookup_insert_eq|].
  destruct Hh as [_ _ Hab _ _ _ _ Hl Hp Hda]. injection Hab as -> -> _. split; [done|]. cbn in Hda. rewrite Hd in Hda. injection Hda as ->.
  rewrite length_content. lia.
Qed.

Lemma moved pos b q : move f (AFile id pos b) q (on_files (<[f := AFile id pos b]> (a_files a)) a) = on_files (<[f := AFile id q b]> (a_files a)) a.
Proof. unfold move, on_files. cbn. by rewrite insert_insert_eq. Qed.

#[export] Instance opened_readable : readable f opened.
Proof using Hfresh Hfew.
  split.
  - intros c pos n s Hs. destruct (opened_op c pos s (FRead f n) Hs) as (b & r & s' & a' & E & Hm & Hsp).
    { intros b. split; [cbn; rewrite lookup_insert_eq; by eexists|apply opened_few]. }
    destruct Hs as (_ & _ & Hd). destruct Hsp as (g & c' & Hg & Hc' & Hr & ->). cbn in Hg, Hc'. rewrite lookup_insert_eq in Hg. injection Hg as <-.
    cbn in Hc'. rewrite Hd in Hc'. injection Hc' as <-. cbn [af_pos] in *.
    apply ret_map in E as (bs & E & ->). injection Hr as ->. exists s'. split; [done|]. rewrite moved in Hm. by exists b.
  - intros c pos q s Hs Hq. destruct (opened_op c pos s (FSeek f q) Hs) as (b & r & s' & a' & E & Hm & Hsp).
    { intros b. split; [cbn; rewrite lookup_insert_eq; split; [by eexists|done]|apply opened_few]. }
    destruct Hs as (_ & _ & Hd). destruct Hsp as (g & Hg & Hr & ->). cbn in Hg. rewrite lookup_insert_eq in Hg. injection Hg as <-.
    apply (ret_map (file_seek f q) (λ _, RUnit)) in E as ([] & E & _). exists s'. split; [done|]. rewrite moved in Hm. by exists b.
  - intros c pos s Hs. pose proof Hs as (b0 & [L Hm0] & Hd). destruct (handle_of s _ L Hm0 f (AFile id pos b0)) as (fl & i & e & Hh); [by apply lookup_insert_eq|].
    destruct Hh as [Hfl Hi Hab _ _ _ Hdk Hl _ Hda]. injection Hab as Eid _ _. cbn in Hda. rewrite <- Eid, Hd in Hda. injection Hda as ->.
    unfold file_length, inode_length, get_file, get_inode. run_step (gets_opt_Some (λ s, files s !! f) s fl Hfl).
    run_step (gets_opt_Some (λ s, inodes s !! f_inode fl) s i Hi). unfold mret, M_ret. rewrite Hdk, length_content, Z2Nat.id by lia. done.
  - apply opened_range.
Qed.

Lemma close_opened c pos s : opened c pos s → ∃ s', file_close f s = Ret (tt, s') ∧ models s' (gc a).
Proof using Hfresh Hfew.
  intros Hs. destruct (opened_op c pos s (FClose f) Hs) as (b & r & s' & a' & E & Hm & Hsp).
  { intros b. split; [cbn; rewrite lookup_insert_eq; by eexists|apply opened_few]. }
  destruct Hsp as [_ ->]. apply (ret_map (file_close f) (λ _, RUnit)) in E as ([] & E & _). exists s'. split; [done|].
  cbn in Hm. rewrite delete_insert_id in Hm by done. by destruct a.
Qed.
End opened.

(** ** The headers *)

Lemma phdr_of_u32 b : is_bytes b → phdr_u32 (phdr_of b).
Proof. intros Hb. split; exact (le_field_range b _ 4 Hb). Qed.

(** The program header at [ofs] of the file. *)
Definition phdr_at (c : list Z) (ofs : Z) : Elf32_Phdr := phdr_of (take 32 (drop (Z.to_nat ofs) c)).

Section program.
Context (s0 : pmem) (ram ipd f : Z) (R : list Z → Z → fs → Prop) `{!readable f R} (c : list Z) (Hc : is_bytes c) (pd : Z).

Abbreviation lstate := (lstate s0 ram ipd R c pd).
Abbreviation loads := (loads s0 ram ipd R c pd).

(** The headers of the program were obeyed. *)
Definition headers_loaded (ofs n : Z) (v : vm) : Prop :=
  ∀ i, 0 ≤ i < n → let ph := phdr_at c (ofs + 32 * i) in
    (p_type ph ∉ [PT_DYNAMIC; PT_INTERP; PT_SHLIB]) ∧ (p_type ph = PT_LOAD → seg_loaded c pd v ph).

Lemma load_phdr_type s ph : loads (load_phdr ram ipd f ph s) (p_vm s) (λ v, p_type ph = PT_LOAD → seg_loaded c pd v ph) →
  loads (load_phdr ram ipd f ph s) (p_vm s) (λ v, (p_type ph ∉ [PT_DYNAMIC; PT_INTERP; PT_SHLIB]) ∧ (p_type ph = PT_LOAD → seg_loaded c pd v ph)).
Proof.
  intros [(s' & E & H1 & H2 & H3 & H4)|H]; [left|by right]. exists s'. split_and!; try done.
  intros Hin. unfold load_phdr in E. by rewrite bool_decide_eq_true_2 in E.
Qed.

Lemma phdr_loop_run n s ofs :
  lstate s → is_s32 ofs → loads (phdr_loop ram ipd n f ofs s) (p_vm s) (headers_loaded ofs (Z.of_nat n)).
Proof using readable0 Hc.
  revert s ofs. induction n as [|n IH]; intros s ofs Hs Ho.
  { left. exists s. split_and!; try done. intros i Hi. lia. }
  pose proof Hs as [Hl Ha [pos HR] Hpd]. cbn [phdr_loop]. destruct s as [v fs' q]. cbn in Hl, Ha, HR, Hpd. subst q.
  pose proof (rd_range c pos fs' HR) as [_ Hlen]. run_step (on_fs_run _ v _ _ pd _ (rd_length c pos fs' HR)).
  destruct (decide (0 ≤ ofs ≤ Z.of_nat (length c))) as [Hr|Hr].
  2:{ right. exists (Proc v fs' pd). split; [|by apply (lstate_intro s0 ram ipd R c pd v fs' pos)]. destruct (decide (ofs < 0)).
      - by rewrite (bool_decide_eq_true_2 (ofs < 0)).
      - rewrite (bool_decide_eq_false_2 (ofs < 0)), (bool_decide_eq_true_2 (ofs > _)) by lia. done. }
  rewrite (bool_decide_eq_false_2 (ofs < 0)), (bool_decide_eq_false_2 (ofs > _)) by lia. cbn [orb].
  destruct (rd_seek c pos ofs fs' HR ltac:(lia)) as (s1 & E1 & HR1). run_step (on_fs_run _ v _ _ pd _ E1).
  destruct (rd_read c ofs PHDR_SIZE s1 HR1) as (s2 & E2 & HR2). run_step (on_fs_run _ v _ _ pd _ E2).
  change (Z.to_nat PHDR_SIZE) with 32%nat in *. set (bs := take 32 (drop (Z.to_nat ofs) c)) in *.
  case_bool_decide as Hshort; [right; exists (Proc v s2 pd); split; [done|by eapply lstate_intro]|].
  assert (ofs + 32 ≤ Z.of_nat (length c)) as Hroom by (unfold bs in Hshort; rewrite length_take, length_drop in Hshort; unfold PHDR_SIZE in Hshort; lia).
  assert (is_bytes bs) as Hbs by (by apply Forall_take, Forall_drop).
  assert (lstate (Proc v s2 pd)) as Hs2 by (by eapply lstate_intro).
  pose proof (load_phdr_run s0 ram ipd f R c Hc pd _ _ (phdr_of_u32 bs Hbs) Hs2) as Hload. apply load_phdr_type in Hload.
  destruct Hload as [([v3 s3 q3] & E3 & L1 & L2 & L3 & L4 & L5)|(s3 & E3 & Hf)]; run_step E3; [|right; by exists s3].
  cbn [p_vm] in *. unfold is_s32 in Ho. unfold PHDR_SIZE. rewrite uwrap_id, swrap_id by lia.
  destruct (IH (Proc v3 s3 q3) (ofs + 32) L1 ltac:(unfold is_s32; lia)) as [(s4 & E4 & M1 & M2 & M3 & M4)|(s4 & E4 & Hf)]; [left|right; by exists s4].
  exists s4. cbn [p_vm] in *. split_and!; [done|done|by apply (grows_trans pd v v3)|congruence|]. intros i Hi ph.
  destruct (decide (i = 0)) as [->|Hi0].
  - unfold ph, phdr_at. rewrite Z.mul_0_r, Z.add_0_r. fold bs. split; [done|]. intros Ht. apply (seg_loaded_grows c pd v3); [apply (phdr_of_u32 bs Hbs)|done|by apply L5].
  - destruct (M4 (i - 1) ltac:(lia)) as [J1 J2]. unfold ph. replace (ofs + 32 + 32 * (i - 1)) with (ofs + 32 * i) in * by lia. done.
Qed.

(** The stack: the last page of user memory, writable and zero. *)
Definition stack_ready (v : vm) : Prop :=
  ∀ va, PHYS_BASE - 4096 ≤ va < PHYS_BASE → present (view v pd va) ∧ writable_page (view v pd va) = true ∧ ubyte v pd va = 0.

Lemma setup_stack_run s :
  lstate s →
  (∃ s', setup_stack ram ipd s = Ret (Some PHYS_BASE, s') ∧ lstate s' ∧ grows pd (p_vm s) (p_vm s') ∧ cr3 (p_vm s') = cr3 (p_vm s) ∧ stack_ready (p_vm s')) ∨
  (∃ s', setup_stack ram ipd s = Ret (None, s') ∧ lstate s').
Proof using readable0.
  intros [Hl Ha [pos HR] Hpd]. destruct s as [v fs' q]. cbn in *. subst q. unfold setup_stack.
  destruct (get_page_fresh ram ipd pd v (Z.lor PAL_USER PAL_ZERO) Hl eq_refl eq_refl) as [(kp & p & E & Hkp & Hal & Hf)|E];
    run_step (on_vm_run _ _ _ fs' pd _ E); [|right; exists (Proc v fs' pd); split; [done|by apply (lstate_intro s0 ram ipd R c pd v fs' pos)]].
  rewrite bool_decide_eq_true_2 by done. set (v2 := VM p (cr3 v) (tlb v)) in *. change PGSIZE with 4096.
  destruct (install_fresh ram ipd pd kp v v2 fs' (PHYS_BASE - 4096) true Hl Hf) as [(v3 & E3 & [N1 N2 N3 N4 N5 N6] & _)|E3];
    [unfold user, PHYS_BASE; lia|done| |]; run_step E3.
  - left. exists (Proc v3 fs' pd). split_and!; [done|by apply (lstate_intro s0 ram ipd R c pd v3 fs' pos); [|apply N6|]|done|done|]. intros va Hva.
    destruct (user_entry kp true) as (U1 & U2 & U3); [apply Hal|].
    assert (user va) as Hu by (unfold user, PHYS_BASE in *; lia).
    assert (same_page va (PHYS_BASE - 4096)) as Hsp by (unfold same_page, PHYS_BASE in *; rewrite !pg_no_div; Z.div_mod_to_equations; lia).
    cbn [p_vm]. rewrite N3, decide_True by done. split_and!; [done|done|]. rewrite N4 by done. unfold get_byte. cbn [pm v2].
    pose proof (al_kpage _ _ _ _ _ Hal) as [H4 _]. pose proof (Z.mod_pos_bound va 4096 ltac:(lia)).
    rewrite (al_words _ _ _ _ _ Hal), decide_True; [by rewrite Z.div_0_l by (apply Z.pow_nonzero; [lia|apply Z.mod_pos_bound; lia])|].
    split; [done|]. Z.div_mod_to_equations. lia.
  - right. destruct (free_page_fresh s0 ram ipd pd kp v v2 Hl Ha Hf) as (s4 & E4 & L4 & A4). run_step (on_vm_run _ _ _ fs' pd _ E4). eexists. split; [done|by eapply lstate_intro].
Qed.

(** The program with contents [c] is in the memory [v]. *)
Record program_loaded (v : vm) (eip esp : Z) : Prop := {
  pl_header : ehdr_ok (take 52 c) = true;
  pl_entry : eip = e_entry (ehdr_of (take 52 c));
  pl_esp : esp = PHYS_BASE;
  pl_segments : headers_loaded (s32 (e_phoff (ehdr_of (take 52 c)))) (e_phnum (ehdr_of (take 52 c))) v;
  pl_stack : stack_ready v
}.

Lemma headers_grow ofs n v v' : grows pd v v' → headers_loaded ofs n v → headers_loaded ofs n v'.
Proof using Hc.
  intros Hg Hh i Hi ph. destruct (Hh i Hi) as [H1 H2]. split; [done|]. intros Ht. apply (seg_loaded_grows c pd v); [|done|by apply H2].
  apply (phdr_of_u32 (take 32 (drop (Z.to_nat (ofs + 32 * i)) c))). by apply Forall_take, Forall_drop.
Qed.

Lemma load_file_run s :
  lstate s → R c 0 (p_fs s) →
  (∃ eip esp s', load_file ram ipd f s = Ret (Some (eip, esp), s') ∧ lstate s' ∧ cr3 (p_vm s') = cr3 (p_vm s) ∧ program_loaded (p_vm s') eip esp) ∨
  (∃ s', load_file ram ipd f s = Ret (None, s') ∧ lstate s').
Proof using readable0 Hc.
  intros [Hl Ha _ Hpd] HR. destruct s as [v fs' q]. cbn in *. subst q. unfold load_file.
  destruct (rd_read c 0 EHDR_SIZE fs' HR) as (s1 & E1 & HR1). run_step (on_fs_run _ v _ _ pd _ E1).
  change (Z.to_nat EHDR_SIZE) with 52%nat in *. change (drop (Z.to_nat 0) c) with c in *. set (b := take 52 c) in *.
  destruct (ehdr_ok b) eqn:Eok; cbn [negb]; [|right; exists (Proc v s1 pd); split; [done|by eapply lstate_intro]].
  assert (is_bytes b) as Hb by (by apply Forall_take).
  pose proof (le_field_range b 44 2 Hb) as Hn. pose proof (swrap_range 32 (e_phoff (ehdr_of b)) ltac:(lia)) as Ho.
  destruct (phdr_loop_run (Z.to_nat (e_phnum (ehdr_of b))) (Proc v s1 pd) (s32 (e_phoff (ehdr_of b)))) as [(s2 & E2 & L1 & L2 & L3 & L4)|(s2 & E2 & Hf)];
    [by eapply lstate_intro|exact Ho| |]; run_step E2; cbn [negb]; [|right; by exists s2].
  destruct (setup_stack_run s2 L1) as [(s3 & E3 & M1 & M2 & M3 & M4)|(s3 & E3 & Hf)]; run_step E3; [left|right; by exists s3].
  exists (e_entry (ehdr_of b)), PHYS_BASE, s3. split_and!; [done|done|by rewrite M3, L3|]. split; try done.
  apply (headers_grow _ _ (p_vm s2)); [done|]. by rewrite Z2Nat.id in L4 by apply Hn.
Qed.
End program.

(** ** The claim *)

(** The machine and the file system when [load] is called.  No [malloc] of the file system
    fails; the page allocator may fail at any time. *)
Record ready (ram ipd : Z) (s : proc) (a : astate) : Prop := {
  rs_mem : mem_ok (p_fs s);
  rs_kernel : kernel_ok ipd (p_vm s);
  rs_ram : ∀ x b, page_state (pm (p_vm s)) true x = Some b → frame x `div` 4096 < ram;
  rs_files : models (p_fs s) a;
  rs_few : Z.of_nat (size (a_files a)) < 2 ^ 31 - 9;
  rs_bytes : ∀ id c, a_data a !! id = Some c → is_bytes c
}.

Lemma models_mem s a : models s a → mem_ok s.
Proof. intros [L Hm]. exact (st_mem_ok _ _ _ (ci_st _ _ _ _ (md_core _ _ _ Hm))). Qed.

(** The new directory, activated. *)
Lemma fresh_directory ram ipd v :
  kernel_ok ipd v → (∀ x b, page_state (pm v) true x = Some b → frame x `div` 4096 < ram) →
  pagedir_create ipd v = Ret (0, v) ∨
  ∃ pd v1 v2, pagedir_create ipd v = Ret (pd, v1) ∧ pd ≠ 0 ∧ pagedir_activate ipd pd v1 = Ret (tt, v2) ∧ linv ram ipd v2 pd ∧ account (pm v) v2 pd ∧ cr3 v2 = frame pd.
Proof.
  intros Hk Hram. destruct (pagedir_create_run ipd v Hk) as [[_ E]|(pd & v1 & E & Hne & Hok & Ht & _ & Hv & Hst & Hka)]; [by left|right].
  destruct (pd_page v1 pd Hok) as [Hkp _].
  assert (∀ va, user va → ¬ present (view (VM (pm v1) (frame pd) ∅) pd va)) as Hnp.
  { intros va Hu. assert (view (VM (pm v1) (frame pd) ∅) pd va = 0) as -> by exact (Hv va Hu). intros Hp. by apply Hp. }
  exists pd, v1, (VM (pm v1) (frame pd) ∅). split; [done|].
  assert (pd ≠ 0) as Hnz by (destruct Hkp as [_ ?]; unfold PHYS_BASE in *; lia). split_and!; [done| | | |done].
  - unfold pagedir_activate. rewrite bool_decide_eq_false_2 by done. by run_step (vtop_run v1 pd Hkp).
  - split; [apply pd_ok_tlb; [done|by exists pd]| |done|..].
    + intros _ va e _. cbn [tlb]. by rewrite lookup_empty.
    + intros va Hu Hp. by destruct (Hnp va Hu).
    + intros va vb Hu _ Hp. by destruct (Hnp va Hu).
    + cbn [pm]. intros x b. rewrite Hst. apply Hram.
  - split; [by apply (account_same (pm v) v1)| |intros x _; apply Hst]. intros va Hu Hp. by destruct (Hnp va Hu).
Qed.

(** What is left of a call of [load]: no directory, or one whose pages are accounted for. *)
Definition left_over (ram ipd : Z) (s s' : proc) : Prop :=
  pagedir s' = 0 ∧ p_vm s' = p_vm s ∨
  pagedir s' ≠ 0 ∧ linv ram ipd (p_vm s') (pagedir s') ∧ account (pm (p_vm s)) (p_vm s') (pagedir s').

Lemma load_outcome ram ipd s a name :
  ready ram ipd s a →
  ∃ r s', load ram ipd name s = Ret (r, s') ∧ left_over ram ipd s s' ∧ (models (p_fs s') a ∨ models (p_fs s') (gc a)) ∧
    ∀ eip esp, r = Some (eip, esp) → ∃ id c, a_names a !! name = Some id ∧ a_data a !! id = Some c ∧
      cr3 (p_vm s') = frame (pagedir s') ∧ program_loaded c (pagedir s') (p_vm s') eip esp.
Proof.
  intros [_ Hk Hram Hm Hfew Hby]. destruct s as [v fs' q]. cbn in *. unfold load.
  destruct (fresh_directory ram ipd v Hk Hram) as [E|(pd & v1 & v2 & E & Hnz & Ea & Hl & Hac & Hcr)]; run_step (on_vm_run _ _ _ fs' q _ E);
    unfold modify; rewrite (bind_Ret _ _ _ _ _ eq_refl); cbn [p_vm p_fs].
  { rewrite bool_decide_eq_true_2 by done. exists None, (Proc v fs' 0). split_and!; [done|by left|by left|done]. }
  rewrite bool_decide_eq_false_2 by done. unfold process_activate, gets. rewrite bind_assoc, (bind_Ret _ _ _ _ _ eq_refl). cbn [pagedir].
  run_step (on_vm_run _ _ _ fs' pd _ Ea).
  destruct (op_refines (replicate 20 0) fs' a (FOpen name) eq_refl Hm) as (r & s1 & a1 & E1 & Hm1 & Hsp); [split; [done|lia]|].
  cbn [run_op] in E1. apply ret_map in E1 as (f & E1 & ->). run_step (on_fs_run _ v2 _ _ pd _ E1). cbn [fspec] in Hsp.
  destruct (a_names a !! name) as [id|] eqn:En.
  2:{ destruct Hsp as [[= ->] ->]. exists None, (Proc v2 s1 pd). split_and!; [done|by right|by left|done]. }
  destruct Hsp as (f' & Hfr & Hf0 & [= <-] & ->). rewrite bool_decide_eq_false_2 by done.
  assert (∃ c, opened a f id c 0 s1) as [c Hop].
  { pose proof Hm1 as [L Hm1']. destruct (handle_of s1 _ L Hm1' f (AFile id 0 false)) as (fl & i & e & Hh); [by apply lookup_insert_eq|].
    destruct Hh as [_ _ Hab _ _ _ _ _ _ Hda]. injection Hab as -> _ _. exists (content s1 e). by exists false. }
  pose proof (opened_readable a f id Hfr Hfew) as Hread. assert (a_data a !! id = Some c) as Hd by (by destruct Hop as (? & _ & ?)).
  pose proof (lstate_intro (pm v) ram ipd (opened a f id) c pd v2 s1 0 Hl Hac Hop) as Hls.
  destruct (load_file_run (pm v) ram ipd f (opened a f id) c (Hby id c Hd) pd _ Hls Hop) as [(eip & esp & s2 & E2 & [Hl2 Ha2 [pos Hp2] Hpd2] & Hc2 & Hload)|(s2 & E2 & [Hl2 Ha2 [pos Hp2] Hpd2])];
    run_step E2; destruct (close_opened a f id Hfr Hfew c pos (p_fs s2) Hp2) as (s3 & E3 & Hm3); destruct s2 as [v3 fs3 q3]; cbn in *; subst q3;
    run_step (on_fs_run _ v3 _ _ pd _ E3).
  - exists (Some (eip, esp)), (Proc v3 s3 pd). split_and!; [done|by right|by right|]. intros ? ? [= <- <-]. exists id, c. cbn. split_and!; [done|done|congruence|done].
  - exists None, (Proc v3 s3 pd). split_and!; [done|by right|by right|done].
Qed.

(** C8: [load] returns, whatever the file holds and wherever the page allocator runs out of
    pages for the directory, the page tables, the program or the stack, as long as no [malloc]
    of the file system fails, and closes the file it opened; the file system is as before.
    When it accepts, the named
    file has a valid header, every loadable segment passed validation and is in user memory
    above page 0, its first bytes those of the file, the rest zero, writable when its header
    says so; the stack is a page of zeros below the kernel; and the entry point is that of
    the header. *)
Theorem load_correct ram ipd s a name :
  ready ram ipd s a →
  ∃ r s', load ram ipd name s = Ret (r, s') ∧ (models (p_fs s') a ∨ models (p_fs s') (gc a)) ∧
    ∀ eip esp, r = Some (eip, esp) → ∃ id c, a_names a !! name = Some id ∧ a_data a !! id = Some c ∧
      cr3 (p_vm s') = frame (pagedir s') ∧ program_loaded c (pagedir s') (p_vm s') eip esp.
Proof.
  intros Hs. destruct (load_outcome ram ipd s a name Hs) as (r & s' & E & _ & H). by exists r, s'.
Qed.

(** ** A program on a disk *)

Definition le4 (x : Z) : list Z := [x `mod` 256; x `div` 256 `mod` 256; x `div` 256 ^ 2 `mod` 256; x `div` 256 ^ 3].

(** A program of one segment, the whole file with zeros after it, at 0x8048000. *)
Definition elf : list Z :=
  [127; 69; 76; 70; 1; 1; 1; 0; 0; 0; 0; 0; 0; 0; 0; 0; 2; 0; 3; 0] ++ le4 1 ++ le4 134512724 ++ le4 52 ++ le4 0 ++ le4 0 ++
  [52; 0; 32; 0; 1; 0; 0; 0; 0; 0; 0; 0] ++
  le4 1 ++ le4 0 ++ le4 134512640 ++ le4 134512640 ++ le4 88 ++ le4 5000 ++ le4 5 ++ le4 4096 ++ [1; 2; 3; 4].

Definition write_elf : M fs (bool * Z * Z) :=
  filesys_init [7; 7] true;;
  b ← filesys_create (replicate 20 0) [97] 88;
  f ← filesys_open [97]; n ← file_write f elf; file_close f;; mret (b, f, n).

Definition final {A S} (s : S) (o : outcome (A * S)) : S := if o is Ret (_, s') then s' else s.
Definition returned {A S} (o : outcome (A * S)) : option A := if o is Ret (a, _) then Some a else None.

Lemma final_eq {A S} (s : S) (o : outcome (A * S)) a : returned o = Some a → o = Ret (a, final s o).
Proof. destruct o as [[]| |]; naive_solver. Qed.

Definition elf_state : fs := final (blank 40) (write_elf (blank 40)).

Lemma elf_written : write_elf (blank 40) = Ret ((true, 39, 88), elf_state).
Proof. apply final_eq. vm_compute. reflexivity. Qed.

Lemma elf_bytes : is_bytes elf.
Proof. vm_compute. repeat constructor; congruence. Qed.

Lemma patch_bytes c n bs : is_bytes c → is_bytes bs → is_bytes (patch c n bs).
Proof. intros Hc Hb. unfold patch, is_bytes. rewrite !Forall_app. split_and!; [by apply Forall_take|done|by apply Forall_drop]. Qed.

Lemma write_tail (A : M fs Z) (B : Z → M fs Z) (C : Z → M fs unit) (b : bool) s r s' :
  (f ← A; n ← B f; C f;; mret (b, f, n)) s = Ret (r, s') → fst (fst r) = b.
Proof. unfold mbind, M_bind. destruct (A s) as [[f s1]| |]; [|done..]. destruct (B f s1) as [[n s2]| |]; [|done..]. destruct (C f s2) as [[]| |]; [|done..]. by intros [= <- _]. Qed.

Lemma write_elf_models s0 f n s' :
  booted s0 → fresh_ok (dev_size s0) [7; 7] → write_elf s0 = Ret ((true, f, n), s') →
  ∃ a, models s' a ∧ a_files a = ∅ ∧ ∀ id c, a_data a !! id = Some c → is_bytes c.
Proof.
  intros Hb Hj. unfold write_elf. destruct (format_models s0 [7; 7] Hb Hj) as (s1 & E1 & Hm1). run_step E1.
  destruct (op_refines (replicate 20 0) s1 _ (FCreate [97] 88) eq_refl Hm1) as (r2 & s2 & a2 & E2 & Hm2 & H2).
  { split; [split; [repeat constructor; lia|lia]|cbn; rewrite map_size_empty; lia]. }
  apply ret_map in E2 as (b & E2 & ->). run_step E2. destruct H2 as [(id & _ & _ & _ & _ & ->)|[[= ->] _]].
  2:{ intros E. by apply write_tail in E. }
  destruct (op_refines (replicate 20 0) s2 _ (FOpen [97]) eq_refl Hm2) as (r3 & s3 & a3 & E3 & Hm3 & H3); [split; [done|cbn; rewrite map_size_empty; lia]|].
  apply ret_map in E3 as (f0 & E3 & ->). run_step E3. cbn [fspec a_names] in H3. rewrite lookup_insert_eq in H3. destruct H3 as (f' & _ & _ & [= <-] & ->).
  destruct (op_refines (replicate 20 0) s3 _ (FWrite f0 elf) eq_refl Hm3) as (r4 & s4 & a4 & E4 & Hm4 & H4).
  { split; [cbn [a_files on_files]; rewrite lookup_insert_eq; by eexists|]. cbn [a_files on_files]. rewrite map_size_insert_None, map_size_empty by done. lia. }
  apply ret_map in E4 as (n0 & E4 & ->). run_step E4. destruct H4 as (g & c & Hg & Hc & _ & ->). cbn [a_files on_files a_data] in Hg, Hc.
  rewrite lookup_insert_eq in Hg. injection Hg as <-. cbn [af_id] in Hc. rewrite lookup_insert_eq in Hc. apply (inj Some) in Hc.
  assert (is_bytes c) as Hcb by (rewrite <- Hc; apply Forall_replicate; lia). cbn [af_pos af_id af_deny move a_data a_files a_names on_files] in Hm4.
  destruct (op_refines (replicate 20 0) s4 _ (FClose f0) eq_refl Hm4) as (r5 & s5 & a5 & E5 & Hm5 & H5).
  { split; [cbn [a_files on_files move]; rewrite lookup_insert_eq; by eexists|]. cbn [a_files on_files move]. rewrite insert_insert_eq, map_size_insert_None, map_size_empty by done. lia. }
  apply (ret_map (file_close f0) (λ _, RUnit)) in E5 as ([] & E5 & _). run_step E5. destruct H5 as [_ ->]. intros [= _ _ _ <-].
  eexists. split_and!; [exact Hm5|..]; cbn [a_files a_data gc on_files move].
  - rewrite insert_insert_eq. by apply delete_insert_id.
  - intros x d. rewrite map_lookup_filter_Some, insert_insert_eq. intros [Hd _]. apply lookup_insert_Some in Hd as [[_ <-]|[_ Hd]]; [|done].
    apply patch_bytes; [exact Hcb|apply Forall_take, elf_bytes].
Qed.

Lemma elf_ram x b : page_state (pm vm1) true x = Some b → frame x `div` 4096 < 300.
Proof.
  intros H. apply page_state_Some in H as (i & -> & Hi & _); [|exact (ko_palloc _ _ vm1_ok)].
  assert (base (pool_of true (pm vm1)) = 3222368256) as -> by (vm_compute; reflexivity).
  assert (npages (pool_of true (pm vm1)) = 21) as En by (vm_compute; reflexivity). rewrite En in Hi.
  unfold frame, PHYS_BASE. Z.div_mod_to_equations. lia.
Qed.

Lemma elf_models : ∃ a, models elf_state a ∧ a_files a = ∅ ∧ ∀ id c, a_data a !! id = Some c → is_bytes c.
Proof.
  apply (write_elf_models (blank 40) 39 88 elf_state (blank_booted 40 ltac:(lia))); [|exact elf_written].
  split; [vm_compute; congruence|]. repeat constructor; lia.
Qed.

Definition elf_machine : proc := Proc vm1 elf_state 0.

Lemma elf_accepted : returned (load 300 kdir [97] elf_machine) = Some (Some (134512724, 3221225472)).
Proof. vm_compute. reflexivity. Qed.

Lemma elf_ready : ∃ a, ready 300 kdir elf_machine a.
Proof.
  destruct elf_models as (a & Hm & Hf & Hb). exists a. split; [exact (models_mem _ _ Hm)|exact vm1_ok|exact elf_ram|exact Hm| |exact Hb]. rewrite Hf, map_size_empty. lia.
Qed.

Lemma load_correct_witness :
  ∃ s' c, load 300 kdir [97] elf_machine = Ret (Some (134512724, 3221225472), s') ∧
    program_loaded c (pagedir s') (p_vm s') 134512724 3221225472.
Proof.
  destruct elf_ready as [a Ha]. destruct (load_correct 300 kdir elf_machine a [97] Ha) as (r & s' & E & _ & H).
  assert (r = Some (134512724, 3221225472)) as ->.
  { pose proof elf_accepted as El. rewrite E in El. injection El as ->. reflexivity. }
  destruct (H _ _ eq_refl) as (id & c & _ & _ & _ & Hl). exists s', c. split; [exact E|exact Hl].
Defined.
