(* ===== verification/ProcessExit.v ===== *)
(** * ProcessExit: a process gives back all its memory

    [pagedir_destroy] frees the pages a directory maps, its page tables and the directory,
    and nothing else.  After [load] and [process_exit] both pools of the page allocator are
    as they were. *)

From S2P Require Import Prelude Bitmap Vaddr Palloc PageDir FileSys FileSysSpec Process ProcessFacts ProcessLoad ProcessSpec.

(** ** Freeing pages one by one *)

(** [s'] is [s] with the pages of [F] given back; the other pages in use keep their words. *)
Record freeing (s : vm) (F : bool → Z → Prop) (s' : vm) : Prop := {
  fg_ok : palloc_ok (pm s');
  fg_used : ∀ u x, F u x → page_state (pm s) u x = Some true;
  fg_freed : ∀ u x, F u x → page_state (pm s') u x = Some false;
  fg_kept : ∀ u x, ¬ F u x → page_state (pm s') u x = page_state (pm s) u x;
  fg_words : ∀ u a x, page_state (pm s) u a = Some true → ¬ F u a → a ≤ x < a + 4096 → words (pm s') x = words (pm s) x;
  fg_cr3 : cr3 s' = cr3 s
}.

Lemma freeing_none s : palloc_ok (pm s) → freeing s (λ _ _, False) s.
Proof. intros Hok. by split. Qed.

Lemma freeing_iff s F G s' : (∀ u x, F u x ↔ G u x) → freeing s F s' → freeing s G s'.
Proof.
  intros H [F1 F2 F3 F4 F5 F6]. split; [done|..|done].
  - intros u x Hx. by apply F2, H.
  - intros u x Hx. by apply F3, H.
  - intros u x Hx. apply F4. by rewrite H.
  - intros u a x Ha Hn. apply (F5 u a x Ha). by rewrite H.
Qed.

Definition also (F : bool → Z → Prop) (u : bool) (p : Z) (v : bool) (x : Z) : Prop := F v x ∨ v = u ∧ x = p.

Lemma free_one s F s1 u p :
  palloc_ok (pm s) → freeing s F s1 → page_state (pm s) u p = Some true → ¬ F u p →
  ∃ s2, palloc (palloc_free_page p) s1 = Ret (tt, s2) ∧ freeing s (also F u p) s2.
Proof.
  intros Hok0 [F1 F2 F3 F4 F5 F6] Hp Hn. destruct (page_state_kpage _ _ _ _ Hok0 Hp) as [[Hp4 _] _].
  destruct (palloc_free_run (pm s1) u p 1 F1 ltac:(lia)) as (q & E & [R1 R2 R3 _]).
  { intros k Hk. replace (p + 4096 * k) with p by lia. by rewrite F4. }
  exists (VM q (cr3 s1) (tlb s1)). split; [unfold palloc, palloc_free_page; by rewrite E|].
  assert (∀ v x, page_state q v x = if decide (v = u ∧ x = p) then Some false else page_state (pm s1) v x) as Hst.
  { intros v x. rewrite R2. destruct (decide (v = u ∧ x = p)) as [[-> ->]|Hne].
    - rewrite decide_True; [done|]. split; [done|]. split; [done|lia].
    - rewrite decide_False; [done|]. intros [-> [Hx Hr]]. apply Hne. split; [done|]. Z.div_mod_to_equations. lia. }
  split; cbn [pm cr3].
  - done.
  - intros v x [Hx|[-> ->]]; [by apply F2|done].
  - intros v x Hx. rewrite Hst. case_decide; [done|]. apply F3. by destruct Hx.
  - intros v x Hx. rewrite Hst, decide_False by (intros ?; apply Hx; by right). apply F4. intros ?. apply Hx. by left.
  - intros v a x Ha Hx Hr. rewrite R3, decide_False; [apply (F5 v a x Ha); [|done]; intros ?; apply Hx; by left|]. intros Hr'.
    destruct (page_state_kpage _ _ _ _ Hok0 Ha) as [[Ha4 _] _].
    assert (a = p) as -> by (apply dec_stable; intros Hd; destruct (pages_apart a p) as [?|?]; done || lia).
    apply Hx. right. split; [|done]. destruct (decide (v = u)) as [|Hvu]; [done|]. exfalso.
    assert (page_state (pm s) false p = Some true ∧ page_state (pm s) true p = Some true) as [H1 H2] by (destruct u, v; done).
    by pose proof (page_state_one _ _ _ _ _ _ Hok0 H1 H2).
  - done.
Qed.

(** ** Entries and addresses *)

Definition va_of (i k : Z) : Z := i * 4194304 + k * 4096.

Lemma va_of_indices i k : user_index i → 0 ≤ k < 1024 → user (va_of i k) ∧ pd_no (va_of i k) = i ∧ pt_no (va_of i k) = k.
Proof.
  unfold user_index, user, PHYS_BASE, va_of. intros Hi Hk. rewrite pd_no_spec, pt_no_spec. change (2 ^ 22) with 4194304.
  assert ((i * 4194304 + k * 4096) `div` 4096 = i * 1024 + k) as -> by (Z.div_mod_to_equations; lia).
  split_and!; Z.div_mod_to_equations; lia.
Qed.

Section destroy.
Context (ram ipd : Z) (s : vm) (pd : Z) (Hl : linv ram ipd s pd).

Lemma entry_view i k : user_index i → 0 ≤ k < 1024 → view s pd (va_of i k) = pte s pd i k.
Proof. intros Hi Hk. unfold view. by destruct (va_of_indices i k Hi Hk) as (_ & -> & ->). Qed.

Lemma entry_used i k : user_index i → 0 ≤ k < 1024 → present (pte s pd i k) → page_state (pm s) true (kframe (pte s pd i k)) = Some true.
Proof using Hl.
  intros Hi Hk. rewrite <- entry_view by done. destruct (va_of_indices i k Hi Hk) as (Hu & _ & _). by apply (li_used _ _ _ _ Hl).
Qed.

Lemma entry_inj i k j l :
  user_index i → 0 ≤ k < 1024 → user_index j → 0 ≤ l < 1024 → present (pte s pd i k) → present (pte s pd j l) →
  kframe (pte s pd i k) = kframe (pte s pd j l) → i = j ∧ k = l.
Proof using Hl.
  intros Hi Hk Hj Hl'. rewrite <- !entry_view by done. destruct (va_of_indices i k Hi Hk) as (Hu & E1 & E2). destruct (va_of_indices j l Hj Hl') as (Hv & E3 & E4).
  intros Hp Hq E. pose proof (li_inj _ _ _ _ Hl _ _ Hu Hv Hp Hq E) as Hs. apply same_indices in Hs. by rewrite E1, E2, E3, E4 in Hs.
Qed.

(** The pages that are free when the loops have come to entry [k] of table [i]. *)
Definition gone (i k : Z) (u : bool) (x : Z) : Prop :=
  if u then ∃ j l, user_index j ∧ 0 ≤ l < 1024 ∧ (j < i ∨ j = i ∧ l < k) ∧ present (pte s pd j l) ∧ kframe (pte s pd j l) = x
  else ∃ j, user_index j ∧ j < i ∧ table s pd j = Some x.

Lemma gone_absent i k : ¬ present (pte s pd i k) → ∀ u x, gone i k u x ↔ gone i (k + 1) u x.
Proof.
  intros Hn [] x; cbn; [|done]. split; intros (j & l & Hj & Hl' & Ho & Hp & E); exists j, l; [split_and!; done || lia|].
  destruct (decide (j = i ∧ l = k)) as [[-> ->]|]; [done|split_and!; done || lia].
Qed.

Lemma gone_present i k : user_index i → 0 ≤ k < 1024 → present (pte s pd i k) →
  ∀ u x, also (gone i k) true (kframe (pte s pd i k)) u x ↔ gone i (k + 1) u x.
Proof.
  intros Hi Hk Hp u x. unfold also. destruct u; cbn; [|naive_solver]. split.
  - intros [(j & l & Hj & Hl' & Ho & Hq & E)|[_ ->]]; [exists j, l|exists i, k]; split_and!; done || lia.
  - intros (j & l & Hj & Hl' & Ho & Hq & E). destruct (decide (j = i ∧ l = k)) as [[-> ->]|Hne]; [by right|left].
    exists j, l. split_and!; done || lia.
Qed.

Lemma gone_no_table i : table s pd i = None → ∀ u x, gone i 0 u x ↔ gone (i + 1) 0 u x.
Proof.
  intros Hn [] x; cbn; split.
  - intros (j & l & Hj & Hl' & Ho & Hp & E). exists j, l. split_and!; done || lia.
  - intros (j & l & Hj & Hl' & Ho & Hp & E). exists j, l. destruct (decide (j = i)) as [->|]; [|split_and!; done || lia].
    unfold pte in Hp. rewrite Hn in Hp. by destruct Hp.
  - intros (j & Hj & ? & E). exists j. split_and!; done || lia.
  - intros (j & Hj & ? & E). exists j. destruct (decide (j = i)) as [->|]; [congruence|split_and!; done || lia].
Qed.

Lemma gone_table i pt : user_index i → table s pd i = Some pt → ∀ u x, also (gone i 1024) false pt u x ↔ gone (i + 1) 0 u x.
Proof.
  intros Hi Et u x. unfold also. destruct u; cbn; split.
  - intros [(j & l & Hj & Hl' & Ho & Hp & E)|[? _]]; [|done]. exists j, l. split_and!; done || lia.
  - intros (j & l & Hj & Hl' & Ho & Hp & E). left. exists j, l. split_and!; done || lia.
  - intros [(j & Hj & ? & E)|[_ ->]]; [exists j|exists i]; split_and!; done || lia.
  - intros (j & Hj & ? & E). destruct (decide (j = i)) as [->|]; [right; split; congruence|left]. exists j. split_and!; done || lia.
Qed.

Lemma table_alive i k pt : user_index i → table s pd i = Some pt → ¬ gone i k false pt.
Proof using Hl.
  intros Hi Et (j & Hj & Hji & Ej). pose proof (pk_distinct _ _ (li_pd _ _ _ _ Hl) i j pt Hi Hj Et Ej). lia.
Qed.

Lemma dir_alive i k : ¬ gone i k false pd.
Proof using Hl. intros (j & Hj & Hji & Ej). by destruct (pk_table _ _ (li_pd _ _ _ _ Hl) j pd Hj Ej). Qed.

Lemma free_pages_run n i k s1 pt :
  user_index i → table s pd i = Some pt → k + Z.of_nat n = 1024 → 0 ≤ k → freeing s (gone i k) s1 →
  ∃ s2, free_pages n (u32 (pt + 4 * k)) s1 = Ret (tt, s2) ∧ freeing s (gone i 1024) s2.
Proof using Hl.
  intros Hi Et. pose proof (li_pd _ _ _ _ Hl) as Hok. pose proof (pk_palloc _ _ Hok) as Hp0.
  destruct (pk_table _ _ Hok i pt Hi Et) as [_ Hpt]. destruct (page_state_kpage _ _ _ _ Hp0 Hpt) as [[_ Hr] Hend]. unfold PHYS_BASE in Hr.
  revert k s1. induction n as [|n IH]; intros k s1 Hn H0 Hf.
  { exists s1. split; [done|]. by replace 1024 with k by lia. }
  assert (∃ s2, (if bool_decide (Z.land (pte s pd i k) PTE_P ≠ 0) then page ← pte_get_page (pte s pd i k); palloc (palloc_free_page page) else mret tt) s1 = Ret (tt, s2) ∧
    freeing s (gone i (k + 1)) s2) as (s2 & E2 & Hf2).
  { destruct (decide (present (pte s pd i k))) as [Hp|Hp].
    - rewrite bool_decide_eq_true_2 by done. pose proof (entry_used i k Hi ltac:(lia) Hp) as Hu.
      destruct (free_one s (gone i k) s1 true (kframe (pte s pd i k)) Hp0 Hf Hu) as (s2 & E & Hf2).
      { intros (j & l & Hj & Hl' & Ho & Hq & Eq). destruct (entry_inj j l i k) as [-> ->]; try done; lia. }
      exists s2. split; [|apply (freeing_iff s _ _ s2 (gone_present i k Hi ltac:(lia) Hp) Hf2)].
      destruct (as_entry (pte s pd i k)) as (page & f & Ee & Hk & Hff & _); [by apply Hok; [|lia]|].
      assert (kframe (pte s pd i k) = page) as Hkf by (unfold kframe; rewrite Ee; by apply entry_of_pt). rewrite Hkf in E.
      rewrite Ee. run_step (pte_get_page_run s1 page f Hk Hff). done.
    - rewrite bool_decide_eq_false_2 by done. exists s1. split; [done|]. by apply (freeing_iff s (gone i k)); [apply gone_absent|]. }
  assert (PageDir.load (u32 (pt + 4 * k)) s1 = Ret (pte s pd i k, s1)) as E1.
  { rewrite uwrap_id by lia. unfold PageDir.load, gets. rewrite (fg_words _ _ _ Hf false pt); [|done|by apply table_alive|lia]. unfold pte. by rewrite Et. }
  cbn [free_pages]. run_step E1. run_step E2. replace (u32 (u32 (pt + 4 * k) + 4)) with (u32 (pt + 4 * (k + 1))) by (rewrite (uwrap_id 32 (pt + 4 * k)) by lia; f_equal; lia).
  apply IH; [lia|lia|done].
Qed.

Lemma free_tables_run n i s1 :
  i + Z.of_nat n = 768 → 0 ≤ i → freeing s (gone i 0) s1 →
  ∃ s2, free_tables n (u32 (pd + 4 * i)) s1 = Ret (tt, s2) ∧ freeing s (gone 768 0) s2.
Proof using Hl.
  pose proof (li_pd _ _ _ _ Hl) as Hok. pose proof (pk_palloc _ _ Hok) as Hp0. pose proof (pk_used _ _ Hok) as Hpd.
  destruct (page_state_kpage _ _ _ _ Hp0 Hpd) as [[_ Hr] Hend]. unfold PHYS_BASE in Hr.
  revert i s1. induction n as [|n IH]; intros i s1 Hn H0 Hf.
  { exists s1. split; [done|]. by replace 768 with i by lia. }
  assert (user_index i) as Hi by (unfold user_index; lia).
  assert (PageDir.load (u32 (pd + 4 * i)) s1 = Ret (pde s pd i, s1)) as E1.
  { rewrite uwrap_id by lia. unfold PageDir.load, gets. rewrite (fg_words _ _ _ Hf false pd); [done|done|by apply dir_alive|lia]. }
  cbn [free_tables]. run_step E1.
  replace (u32 (u32 (pd + 4 * i) + 4)) with (u32 (pd + 4 * (i + 1))) by (rewrite (uwrap_id 32 (pd + 4 * i)) by lia; f_equal; lia).
  destruct (table s pd i) as [pt|] eqn:Et.
  - destruct (table_Some s pd i pt Hok Hi Et) as (Hk & f & Ee & Hf' & Hp). destruct (pk_table _ _ Hok i pt Hi Et) as [_ Hpt].
    rewrite bool_decide_eq_true_2 by (rewrite Ee, entry_flag by (done || (unfold PTE_P; lia)); done). rewrite Ee, bind_assoc.
    run_step (pde_get_pt_run s1 pt f Hk Hf' Hp). destruct (free_pages_run 1024 i 0 s1 pt Hi Et eq_refl ltac:(lia) Hf) as (s2 & E2 & Hf2).
    assert (u32 (pt + 4 * 0) = pt) as Ept by (destruct Hk as [_ ?]; unfold PHYS_BASE in *; rewrite uwrap_id; lia). rewrite Ept in E2.
    change (Z.to_nat (PGSIZE `div` 4)) with 1024%nat. rewrite bind_assoc. run_step E2.
    destruct (free_one s _ s2 false pt Hp0 Hf2 Hpt) as (s3 & E3 & Hf3); [by apply table_alive|]. run_step E3.
    apply IH; [lia|lia|]. exact (freeing_iff s _ _ s3 (gone_table i pt Hi Et) Hf3).
  - rewrite bool_decide_eq_false_2.
    + rewrite ret_bind. apply IH; [lia|lia|]. exact (freeing_iff s _ _ s1 (gone_no_table i Et) Hf).
    + unfold table in Et. case_bool_decide as E0; [|done]. rewrite E0. by intros H; apply H.
Qed.

(** The pages of the program. *)
Definition owned (u : bool) (x : Z) : Prop :=
  if u then ∃ va, user va ∧ present (view s pd va) ∧ kframe (view s pd va) = x else own_tables s pd x.

Lemma all_gone u x : also (gone 768 0) false pd u x ↔ owned u x.
Proof.
  unfold also, owned, own_tables, user_index. destruct u; cbn; split.
  - intros [(j & l & Hj & Hl' & _ & Hp & E)|[? _]]; [|done]. exists (va_of j l). rewrite entry_view by done.
    by destruct (va_of_indices j l Hj Hl') as (? & _ & _).
  - intros (va & Hu & Hp & E). left. exists (pd_no va), (pt_no va). pose proof (va_index va Hu) as Hi. pose proof (pt_no_range va). unfold user_index in Hi.
    split_and!; done || lia.
  - intros [(j & Hj & _ & E)|[_ ->]]; [right; eauto|by left].
  - intros [->|(j & Hj & E)]; [by right|left]. exists j. unfold user_index in Hj. split_and!; done || lia.
Qed.

Lemma destroy_run s0 :
  pd ≠ 0 → account s0 s pd →
  ∃ s', pagedir_destroy ipd pd s = Ret (tt, s') ∧ cr3 s' = cr3 s ∧ ∀ u x, page_state (pm s') u x = page_state s0 u x.
Proof using Hl.
  intros Hnz [[K1 K2] A1 A2]. pose proof (li_pd _ _ _ _ Hl) as Hok. pose proof (pk_palloc _ _ Hok) as Hp0. pose proof (pk_used _ _ Hok) as Hpd.
  unfold pagedir_destroy. rewrite bool_decide_eq_false_2 by done. rewrite assert_bind by (apply bool_decide_eq_true_2; apply Hl).
  destruct (free_tables_run 768 0 s eq_refl ltac:(lia)) as (s1 & E1 & Hf1).
  { apply (freeing_iff s (λ _ _, False)); [|by apply freeing_none]. intros [] x; cbn; unfold user_index; naive_solver lia. }
  destruct (page_state_kpage _ _ _ _ Hp0 Hpd) as [[_ Hr] Hend]. unfold PHYS_BASE in Hr.
  assert (u32 (pd + 4 * 0) = pd) as Epd by (rewrite uwrap_id; lia). rewrite Epd in E1. change (Z.to_nat (pd_no PHYS_BASE)) with 768%nat. run_step E1.
  destruct (free_one s _ s1 false pd Hp0 Hf1 Hpd) as (s2 & E2 & Hf2); [by apply dir_alive|]. exists s2. split; [done|].
  apply (freeing_iff s _ _ s2 all_gone) in Hf2. split; [apply Hf2|]. intros u x. apply dec_stable. intros Hne.
  assert (¬ owned u x) as Hno.
  { intros Ho. apply Hne. rewrite (fg_freed _ _ _ Hf2) by done. destruct u; [|by rewrite K1]. destruct Ho as (va & Hu & Hp & <-). by rewrite A1. }
  apply Hne. rewrite (fg_kept _ _ _ Hf2) by done. destruct u; [|by apply K2]. apply A2. intros va Hu Hp E. apply Hno. by exists va.
Qed.
End destroy.

Lemma linv_switch ram ipd s pd c : linv ram ipd s pd → is_kpage c → linv ram ipd (VM (pm s) (frame c) ∅) pd.
Proof.
  intros [L1 L2 L3 L4 L5 L6] Hc. split; [apply pd_ok_tlb; [done|by exists c]| |done..]. intros _ va e _. cbn [tlb]. by rewrite lookup_empty.
Qed.

Lemma release_run s0 ram ipd v f pd :
  pd ≠ 0 → is_kpage ipd → linv ram ipd v pd → account s0 v pd →
  ∃ v', release_pagedir ipd (Proc v f pd) = Ret (tt, Proc v' f 0) ∧ cr3 v' = frame ipd ∧ ∀ u x, page_state (pm v') u x = page_state s0 u x.
Proof.
  intros Hnz Hk Hl Ha. apply (linv_switch ram ipd v pd ipd) in Hl; [|done]. set (v1 := VM (pm v) (frame ipd) ∅) in *.
  assert (account s0 v1 pd) as Ha1 by (destruct Ha as [K A1 A2]; split; [by apply (account_same s0 v)|done|done]).
  destruct (destroy_run ram ipd v1 pd Hl s0 Hnz Ha1) as (v2 & E2 & Hc & Hst). exists v2. split; [|done].
  unfold release_pagedir, gets, modify. rewrite (bind_Ret _ _ _ _ _ eq_refl). cbn [pagedir]. rewrite bool_decide_eq_true_2 by done.
  rewrite (bind_Ret _ _ _ _ _ eq_refl). cbn [p_vm p_fs].
  assert (pagedir_activate ipd 0 v = Ret (tt, v1)) as E1 by (unfold pagedir_activate; cbn; by run_step (vtop_run v ipd Hk)).
  run_step (on_vm_run _ _ _ f 0 _ E1). exact (on_vm_run _ _ _ f 0 _ E2).
Qed.

(** ** The claim *)

(** C9: a process gives back all its memory.  Whether [load] accepts the program or fails
    at any point, for want of a page too, though not of a block of the file system, the memory part of [process_exit] returns, leaves the process without a
    directory and the processor on the kernel's, and every page of both pools is as before
    [load]: none leaks, and none that was in use is freed. *)
Theorem load_exit_no_leak ram ipd s a name :
  ready ram ipd s a →
  ∃ r s1 s2, load ram ipd name s = Ret (r, s1) ∧ release_pagedir ipd s1 = Ret (tt, s2) ∧ pagedir s2 = 0 ∧ p_fs s2 = p_fs s1 ∧ (pagedir s1 ≠ 0 → cr3 (p_vm s2) = frame ipd) ∧
    ∀ u x, page_state (pm (p_vm s2)) u x = page_state (pm (p_vm s)) u x.
Proof.
  intros Hs. destruct (load_outcome ram ipd s a name Hs) as (r & [v f pd] & E & Hlo & _). exists r, (Proc v f pd).
  destruct Hlo as [[Hp Hv]|(Hnz & Hl & Ha)]; cbn in *.
  { exists (Proc v f pd). rewrite Hp, Hv in *. split_and!; try done. }
  destruct (release_run (pm (p_vm s)) ram ipd v f pd Hnz (ko_page _ _ (rs_kernel _ _ _ _ Hs)) Hl Ha) as (v' & E' & Hc & Hst).
  exists (Proc v' f 0). by split_and!.
Qed.

Lemma load_exit_no_leak_witness :
  ∃ s1 s2, load 300 kdir [97] elf_machine = Ret (Some (134512724, 3221225472), s1) ∧ release_pagedir kdir s1 = Ret (tt, s2) ∧
    ∀ u x, page_state (pm (p_vm s2)) u x = page_state (pm vm1) u x.
Proof.
  destruct elf_ready as [a Ha]. destruct (load_exit_no_leak 300 kdir elf_machine a [97] Ha) as (r & s1 & s2 & E & E2 & _ & _ & _ & H).
  exists s1, s2. split; [|split; [exact E2|exact H]]. pose proof elf_accepted as El. rewrite E in El. injection El as ->. exact E.
Defined.
