(* ===== verification/Random.v ===== *)
(** * Random: the pseudo-random generator ([pintos/src/lib/random.c])

    The generator with its table, its two indices and the flag that says whether it was
    initialised, and the RC4 cipher written independently of it, on functions of the index
    and with a key of any length.  The theorem says that the generator's output is the
    cipher's key stream for the four bytes of the seed. *)

From S2P Require Import Prelude.

Record rng := Rng { rs : list Z; s_i : Z; s_j : Z; inited : bool }.

(** [s[i]] and [s[i] = v]; out of bounds they crash. *)
Definition get_s (i : Z) : M rng Z := gets_opt (λ g, rs g !! Z.to_nat i).
Definition set_s (i v : Z) : M rng unit :=
  n ← gets (λ g, length (rs g));
  assert (bool_decide (Z.to_nat i < n)%nat);;
  modify (λ g, Rng (<[Z.to_nat i := v]> (rs g)) (s_i g) (s_j g) (inited g)).

Definition swap_byte (a b : Z) : M rng unit :=
  t ← get_s a;
  x ← get_s b;
  set_s a x;;
  set_s b t.

(** Byte [k] of the seed. *)
Definition seed_byte (seed k : Z) : Z := u8 (Z.shiftr seed (8 * k)).

(** The second loop of [random_init], [n] being the iterations left. *)
Fixpoint seed_loop (n : nat) (seed i j : Z) : M rng unit :=
  match n with
  | O => mret tt
  | S n =>
    x ← get_s i;
    let j := u8 (j + (x + seed_byte seed (i `mod` 4))) in
    swap_byte i j;;
    seed_loop n seed (i + 1) j
  end.

Definition random_init (seed : Z) : M rng unit :=
  modify (λ g, Rng (seqZ 0 256) (s_i g) (s_j g) (inited g));;
  seed_loop 256 seed 0 0;;
  modify (λ g, Rng (rs g) 0 0 true).

Definition random_byte : M rng Z :=
  modify (λ g, Rng (rs g) (u8 (s_i g + 1)) (s_j g) (inited g));;
  i ← gets s_i;
  x ← get_s i;
  modify (λ g, Rng (rs g) (s_i g) (u8 (s_j g + x)) (inited g));;
  j ← gets s_j;
  swap_byte i j;;
  a ← get_s i;
  b ← get_s j;
  get_s (u8 (a + b)).

Fixpoint byte_loop (size : nat) : M rng (list Z) :=
  match size with
  | O => mret []
  | S size => b ← random_byte; bs ← byte_loop size; mret (b :: bs)
  end.

Definition random_bytes (size : nat) : M rng (list Z) :=
  ok ← gets inited;
  (if (ok : bool) then mret tt else random_init 0);;
  byte_loop size.

Definition random_ulong : M rng Z :=
  bs ← random_bytes 4;
  mret (foldr (λ b v, b + 256 * v) 0 bs).

(** ** The cipher

    RC4 on a substitution of the bytes given as a function: the key schedule, one step of the
    generator, and byte [n] of the key stream. *)

Module Rc4.
Record state := State { sub : Z → Z; pi : Z; pj : Z }.

Definition swap (i j : Z) (f : Z → Z) : Z → Z := λ k, if bool_decide (k = j) then f i else if bool_decide (k = i) then f j else f k.

(** One round of the key schedule on the substitution and [j]. *)
Definition mix (key : list Z) (p : (Z → Z) * Z) (i : Z) : (Z → Z) * Z :=
  let j := (p.2 + p.1 i + key !!! Z.to_nat (i `mod` Z.of_nat (length key))) `mod` 256 in (swap i j p.1, j).

Definition key_schedule (key : list Z) : state := State (foldl (mix key) (λ k, k, 0) (seqZ 0 256)).1 0 0.

Definition next (s : state) : state :=
  let i := (pi s + 1) `mod` 256 in
  let j := (pj s + sub s i) `mod` 256 in
  State (swap i j (sub s)) i j.

Definition output (s : state) : Z := sub s ((sub s (pi s) + sub s (pj s)) `mod` 256).

Definition key_stream (key : list Z) (n : nat) : Z := output (Nat.iter (S n) next (key_schedule key)).
End Rc4.

(** The bytes of a 32-bit number as they lie in memory. *)
Definition le_bytes (z : Z) : list Z := [z `mod` 256; (z / 2 ^ 8) `mod` 256; (z / 2 ^ 16) `mod` 256; (z / 2 ^ 24) `mod` 256].

(** ** The table *)

(** The table holds the substitution. *)
Definition table (l : list Z) (f : Z → Z) : Prop := length l = 256%nat ∧ ∀ i, 0 ≤ i < 256 → l !! Z.to_nat i = Some (f i).

Lemma u8_range z : 0 ≤ u8 z < 256.
Proof. exact (uwrap_range 8 z ltac:(lia)). Qed.

Lemma get_s_run g f i : table (rs g) f → 0 ≤ i < 256 → get_s i g = Ret (f i, g).
Proof. intros [_ H] Hi. by apply gets_opt_Some, H. Qed.

Lemma set_s_run g i v : length (rs g) = 256%nat → 0 ≤ i < 256 →
  set_s i v g = Ret (tt, Rng (<[Z.to_nat i := v]> (rs g)) (s_i g) (s_j g) (inited g)).
Proof. intros Hl Hi. unfold set_s, gets. rewrite (bind_Ret _ _ _ _ _ eq_refl). by rewrite assert_bind by (apply bool_decide_eq_true_2; lia). Qed.

Lemma table_swap l f a b :
  table l f → 0 ≤ a < 256 → 0 ≤ b < 256 → table (<[Z.to_nat b := f a]> (<[Z.to_nat a := f b]> l)) (Rc4.swap a b f).
Proof.
  intros [Hl H] Ha Hb. split; [by rewrite !length_insert|]. intros k Hk. unfold Rc4.swap.
  destruct (decide (k = b)) as [->|]; [rewrite bool_decide_eq_true_2 by done; apply list_lookup_insert_eq; rewrite length_insert; lia|].
  rewrite (bool_decide_eq_false_2 (k = b)), list_lookup_insert_ne by (done || lia).
  destruct (decide (k = a)) as [->|]; [rewrite bool_decide_eq_true_2 by done; apply list_lookup_insert_eq; lia|].
  rewrite (bool_decide_eq_false_2 (k = a)), list_lookup_insert_ne by (done || lia). by apply H.
Qed.

Lemma swap_byte_run g f a b :
  table (rs g) f → 0 ≤ a < 256 → 0 ≤ b < 256 →
  ∃ l, swap_byte a b g = Ret (tt, Rng l (s_i g) (s_j g) (inited g)) ∧ table l (Rc4.swap a b f).
Proof.
  intros Ht Ha Hb. exists (<[Z.to_nat b := f a]> (<[Z.to_nat a := f b]> (rs g))). split; [|by apply table_swap].
  unfold swap_byte. run_step (get_s_run g f a Ht Ha). run_step (get_s_run g f b Ht Hb). destruct Ht as [Hl _].
  run_step (set_s_run g a (f b) Hl Ha). rewrite set_s_run; [done| |done]. cbn. by rewrite length_insert.
Qed.

(** ** The two phases *)

Lemma seed_byte_key seed k : 0 ≤ k < 4 → seed_byte seed k = le_bytes seed !!! Z.to_nat k.
Proof.
  intros Hk. unfold seed_byte, u8, uwrap, le_bytes. rewrite Z.shiftr_div_pow2 by lia.
  assert (k = 0 ∨ k = 1 ∨ k = 2 ∨ k = 3) as [-> | [-> | [-> | ->]]] by lia; [|reflexivity..].
  change (2 ^ (8 * 0)) with 1. by rewrite Z.div_1_r.
Qed.

Lemma seed_loop_run n seed i j g f :
  table (rs g) f → 0 ≤ i → i + Z.of_nat n ≤ 256 →
  ∃ l, seed_loop n seed i j g = Ret (tt, Rng l (s_i g) (s_j g) (inited g)) ∧
    table l (foldl (Rc4.mix (le_bytes seed)) (f, j) (seqZ i (Z.of_nat n))).1.
Proof.
  revert i j g f. induction n as [|n IH]; intros i j g f Ht H0 Hn; [exists (rs g); by destruct g|].
  cbn [seed_loop]. run_step (get_s_run g f i Ht ltac:(lia)). cbn zeta.
  rewrite seqZ_cons by lia. cbn [foldl]. rewrite seed_byte_key by (apply Z.mod_pos_bound; lia).
  assert (Rc4.mix (le_bytes seed) (f, j) i =
    (Rc4.swap i (u8 (j + (f i + le_bytes seed !!! Z.to_nat (i `mod` 4)))) f, u8 (j + (f i + le_bytes seed !!! Z.to_nat (i `mod` 4))))) as ->.
  { unfold Rc4.mix, u8, uwrap. cbn [fst snd length le_bytes]. rewrite <- Z.add_assoc. done. }
  set (j' := u8 _). destruct (swap_byte_run g f i j' Ht ltac:(lia) (u8_range _)) as (l & E2 & Hl). run_step E2.
  replace (Z.pred (Z.of_nat (S n))) with (Z.of_nat n) by lia. apply (IH (Z.succ i) j' (Rng l (s_i g) (s_j g) (inited g)) _ Hl); lia.
Qed.

(** The generator's state is the cipher's. *)
Record follows (g : rng) (s : Rc4.state) : Prop := {
  fo_table : table (rs g) (Rc4.sub s);
  fo_i : s_i g = Rc4.pi s;
  fo_j : s_j g = Rc4.pj s;
  fo_inited : inited g = true
}.

Lemma random_init_run seed g : ∃ g', random_init seed g = Ret (tt, g') ∧ follows g' (Rc4.key_schedule (le_bytes seed)).
Proof.
  unfold random_init, modify. rewrite (bind_Ret _ _ _ _ _ eq_refl).
  destruct (seed_loop_run 256 seed 0 0 (Rng (seqZ 0 256) (s_i g) (s_j g) (inited g)) (λ k, k)) as (l & E & Hl); [|lia|lia|].
  { split; [done|]. intros i Hi. cbn [rs]. apply lookup_seqZ. lia. }
  run_step E. eexists. split; [done|]. by split.
Qed.

Lemma random_byte_run g s : follows g s → ∃ g', random_byte g = Ret (Rc4.output (Rc4.next s), g') ∧ follows g' (Rc4.next s).
Proof.
  intros [Ht Ei Ej Hin]. unfold random_byte, modify, gets. rewrite !(bind_Ret _ _ _ _ _ eq_refl). cbn [rs s_i s_j inited].
  pose proof (u8_range (s_i g + 1)) as Hi. set (i := u8 (s_i g + 1)) in *.
  run_step (get_s_run (Rng (rs g) i (s_j g) (inited g)) _ i Ht Hi). rewrite !(bind_Ret _ _ _ _ _ eq_refl). cbn [rs s_i s_j inited].
  pose proof (u8_range (s_j g + Rc4.sub s i)) as Hj. set (j := u8 (s_j g + Rc4.sub s i)) in *.
  destruct (swap_byte_run (Rng (rs g) i j (inited g)) _ i j Ht Hi Hj) as (l & E2 & Hl). run_step E2. cbn [rs s_i s_j inited].
  assert (Rc4.next s = Rc4.State (Rc4.swap i j (Rc4.sub s)) i j) as -> by (unfold Rc4.next; cbn zeta; by rewrite <- Ei, <- Ej).
  run_step (get_s_run (Rng l i j (inited g)) _ i Hl Hi). run_step (get_s_run (Rng l i j (inited g)) _ j Hl Hj).
  rewrite (get_s_run (Rng l i j (inited g)) _ _ Hl (u8_range _)). eexists. split; [reflexivity|]. by split.
Qed.

(** [n] bytes of the key stream from byte [k] on. *)
Definition stream (key : list Z) (k n : nat) : list Z := Rc4.key_stream key <$> seq k n.

Lemma byte_loop_run key n k g :
  follows g (Nat.iter k Rc4.next (Rc4.key_schedule key)) →
  ∃ g', byte_loop n g = Ret (stream key k n, g') ∧ follows g' (Nat.iter (k + n) Rc4.next (Rc4.key_schedule key)).
Proof.
  revert k g. induction n as [|n IH]; intros k g Hg; [exists g; by rewrite Nat.add_0_r|]. cbn [byte_loop].
  destruct (random_byte_run g _ Hg) as (g1 & E & Hg1). run_step E. destruct (IH (S k) g1 Hg1) as (g2 & E2 & Hg2). run_step E2.
  exists g2. split; [done|]. by rewrite Nat.add_succ_r.
Qed.

(** ** The generator *)

(** A caller's requests, by their sizes. *)
Fixpoint random_calls (sizes : list nat) : M rng (list (list Z)) :=
  match sizes with
  | [] => mret []
  | n :: sizes => bs ← random_bytes n; rest ← random_calls sizes; mret (bs :: rest)
  end.

(** The consecutive pieces of the key stream from byte [k] on. *)
Fixpoint pieces (key : list Z) (k : nat) (sizes : list nat) : list (list Z) :=
  match sizes with
  | [] => []
  | n :: sizes => stream key k n :: pieces key (k + n) sizes
  end.

Lemma random_bytes_inited n g : inited g = true → random_bytes n g = byte_loop n g.
Proof. intros Hi. unfold random_bytes, gets. by rewrite (bind_Ret _ _ _ _ _ eq_refl), Hi, ret_bind. Qed.

Lemma random_calls_run key sizes k g :
  follows g (Nat.iter k Rc4.next (Rc4.key_schedule key)) →
  ∃ g', random_calls sizes g = Ret (pieces key k sizes, g') ∧ follows g' (Nat.iter (k + foldr Nat.add 0 sizes)%nat Rc4.next (Rc4.key_schedule key)).
Proof.
  revert k g. induction sizes as [|n sizes IH]; intros k g Hg; [exists g; cbn; by rewrite Nat.add_0_r|]. cbn [random_calls pieces foldr].
  destruct (byte_loop_run key n k g Hg) as (g1 & E & Hg1).
  rewrite (bind_Ret _ _ _ _ _ (eq_trans (random_bytes_inited n g (fo_inited _ _ Hg)) E)).
  destruct (IH _ _ Hg1) as (g2 & E2 & Hg2). exists g2. rewrite Nat.add_assoc. by run_step E2.
Qed.

(** Without [random_init], the first call seeds the generator with 0. *)
Lemma random_calls_boot n sizes g :
  inited g = false → random_calls (n :: sizes) g = (random_init 0;; random_calls (n :: sizes)) g.
Proof.
  intros Hi. destruct (random_init_run 0 g) as (g1 & E & Hg1). rewrite (bind_Ret _ _ _ _ _ E). cbn [random_calls].
  assert (random_bytes n g = random_bytes n g1) as Hn.
  { rewrite (random_bytes_inited n g1) by apply Hg1. unfold random_bytes, gets. rewrite (bind_Ret _ _ _ _ _ eq_refl), Hi.
    by rewrite (bind_Ret _ _ _ _ _ E). }
  unfold mbind, M_bind. by rewrite Hn.
Qed.

(** C40: the generator is RC4.  From any state, [random_init seed] followed by any calls of
    [random_bytes] returns the consecutive pieces of the key stream that RC4 gives for the
    four bytes of the seed, whatever the sizes asked for; a generator that was never
    initialised gives the key stream of four zeros, and [random_ulong] the next four bytes of
    the stream, the lowest first. *)
Theorem random_is_rc4 seed sizes g :
  (∃ g', (random_init seed;; random_calls sizes) g = Ret (pieces (le_bytes seed) 0 sizes, g')) ∧
  (∃ g', (random_init seed;; random_calls sizes;; random_ulong) g =
     Ret (foldr (λ b v, b + 256 * v) 0 (stream (le_bytes seed) (foldr Nat.add 0%nat sizes) 4), g')) ∧
  (inited g = false → sizes ≠ [] → ∃ g', random_calls sizes g = Ret (pieces [0; 0; 0; 0] 0 sizes, g')).
Proof.
  destruct (random_init_run seed g) as (g1 & E1 & Hg1). destruct (random_calls_run (le_bytes seed) sizes 0 g1 Hg1) as (g2 & E2 & Hg2).
  split_and!.
  - exists g2. run_step E1. exact E2.
  - run_step E1. run_step E2. destruct (byte_loop_run _ 4 _ g2 Hg2) as (g3 & E3 & _). exists g3. unfold random_ulong.
    rewrite (bind_Ret _ _ _ _ _ (eq_trans (random_bytes_inited 4 g2 (fo_inited _ _ Hg2)) E3)). done.
  - intros Hi Hne. destruct sizes as [|n sizes]; [done|]. rewrite random_calls_boot by done.
    destruct (random_init_run 0 g) as (g3 & E3 & Hg3). destruct (random_calls_run _ (n :: sizes) 0 g3 Hg3) as (g4 & E4 & _).
    exists g4. run_step E3. exact E4.
Qed.

(** The generator as the kernel finds it at the start. *)
Definition rng_boot : rng := Rng (replicate 256 0) 0 0 false.

Lemma random_is_rc4_witness :
  (∃ g', (random_init 7;; random_calls [3; 2]%nat) rng_boot = Ret ([[44; 236; 30]; [232; 190]], g')) ∧
  ∃ g', random_calls [3; 2]%nat rng_boot = Ret (pieces [0; 0; 0; 0] 0 [3; 2]%nat, g').
Proof.
  split.
  - destruct (random_is_rc4 7 [3; 2]%nat rng_boot) as ((g' & E) & _). exists g'. rewrite E. reflexivity.
  - apply (random_is_rc4 0 [3; 2]%nat rng_boot); [reflexivity|discriminate].
Defined.

(** The published key stream of RC4 for a key of zeros. *)
Example rc4_key_stream :
  (if random_bytes 8 rng_boot is Ret (bs, _) then Some bs else None) = Some [222; 24; 137; 65; 163; 55; 93; 58].
Proof. vm_compute. reflexivity. Qed.

(** The cipher on published inputs: the keys [Key] and [Wiki] of the usual test vectors. *)
Example rc4_test_vectors :
  stream [75; 101; 121] 0 10 = [235; 159; 119; 129; 183; 52; 202; 114; 167; 25] ∧
  stream [87; 105; 107; 105] 0 6 = [96; 68; 219; 109; 65; 183].
Proof. split; vm_compute; reflexivity. Qed.
