(* ===== verification/Block.v ===== *)
(** * Block: block devices and partitions ([pintos/src/devices/block.c] and
      [partition.c], and the choice of devices in [threads/init.c])

    The list of block devices in probe order, their roles and statistics, and the partitions
    a scan of a device's partition table registers as devices of their own.  The driver of a
    disk (outside the model) is a medium of sectors; the driver of a partition is that of
    [partition.c].  Printed messages are left out; allocation fails as the list of outcomes
    says. *)

From S2P Require Import Prelude KStdio KStdioFields.

Inductive block_type := BLOCK_KERNEL | BLOCK_FILESYS | BLOCK_SCRATCH | BLOCK_SWAP | BLOCK_RAW | BLOCK_FOREIGN.

#[export] Instance block_type_eq_dec : EqDecision block_type.
Proof. solve_decision. Defined.

(** The enumeration's values; those below [BLOCK_ROLE_CNT] are roles. *)
Definition type_code (t : block_type) : nat :=
  match t with
  | BLOCK_KERNEL => 0 | BLOCK_FILESYS => 1 | BLOCK_SCRATCH => 2 | BLOCK_SWAP => 3 | BLOCK_RAW => 4 | BLOCK_FOREIGN => 5
  end.
Definition BLOCK_ROLE_CNT : nat := 4.

Definition SECTOR_SIZE : Z := 512.

(** [struct partition]. *)
Record partition := Partition { p_block : Z; p_start : Z }.

(** The driver with its data: a disk, or a partition of another device. *)
Inductive driver := Disk (d : Z) | Part (p : partition).

Record block := Block { b_name : list Z; b_type : block_type; b_size : Z; b_ops : driver; read_cnt : Z; write_cnt : Z }.

(** [media] are the sectors of the disks. *)
Record bdevs := BDevs {
  blocks : gmap Z block;
  all_blocks : list Z;
  block_by_role : list Z;
  media : Z → Z → list Z;
  brk : Z;
  mallocs : list bool
}.

Definition set_blocks v s := BDevs v (all_blocks s) (block_by_role s) (media s) (brk s) (mallocs s).
Definition set_all v s := BDevs (blocks s) v (block_by_role s) (media s) (brk s) (mallocs s).
Definition set_roles v s := BDevs (blocks s) (all_blocks s) v (media s) (brk s) (mallocs s).
Definition set_media v s := BDevs (blocks s) (all_blocks s) (block_by_role s) v (brk s) (mallocs s).
Definition set_mem b ms s := BDevs (blocks s) (all_blocks s) (block_by_role s) (media s) b ms.

(** A fresh address, or a panic of the caller. *)
Definition malloc_or_panic : M bdevs Z := λ s,
  match mallocs s with
  | false :: ms => Crash
  | ms => Ret (brk s, set_mem (brk s + 1) (tail ms) s)
  end.

Definition get_block (b : Z) : M bdevs block := gets_opt (λ s, blocks s !! b).
Definition put_block (b : Z) (v : block) : M bdevs unit := modify (λ s, set_blocks (<[b := v]> (blocks s)) s).

Definition count_read v := Block (b_name v) (b_type v) (b_size v) (b_ops v) (u64 (read_cnt v + 1)) (write_cnt v).
Definition count_write v := Block (b_name v) (b_type v) (b_size v) (b_ops v) (read_cnt v) (u64 (write_cnt v + 1)).

(** ** Finding devices *)

Definition block_get_role (role : block_type) : M bdevs Z :=
  assert (bool_decide (type_code role < BLOCK_ROLE_CNT)%nat);;
  gets_opt (λ s, block_by_role s !! type_code role).

Definition block_set_role (role : block_type) (b : Z) : M bdevs unit :=
  assert (bool_decide (type_code role < BLOCK_ROLE_CNT)%nat);;
  modify (λ s, set_roles (<[type_code role := b]> (block_by_role s)) s).

Definition block_first : M bdevs Z := gets (λ s, default 0 (head (all_blocks s))).

Fixpoint successor (b : Z) (l : list Z) : option Z :=
  match l with
  | [] => None
  | x :: l => if bool_decide (x = b) then Some (default 0 (head l)) else successor b l
  end.

Definition block_next (b : Z) : M bdevs Z := gets_opt (λ s, successor b (all_blocks s)).

Fixpoint by_name_loop (l : list Z) (name : list Z) : M bdevs Z :=
  match l with
  | [] => mret 0
  | b :: l =>
    v ← get_block b;
    if bool_decide (name = b_name v) then mret b else by_name_loop l name
  end.

Definition block_get_by_name (name : list Z) : M bdevs Z :=
  l ← gets all_blocks;
  by_name_loop l name.

Definition block_size (b : Z) : M bdevs Z := v ← get_block b; mret (b_size v).
Definition block_name (b : Z) : M bdevs (list Z) := v ← get_block b; mret (b_name v).
Definition block_type_of (b : Z) : M bdevs block_type := v ← get_block b; mret (b_type v).

(** ** Access *)

Definition check_sector (b sector : Z) : M bdevs unit :=
  v ← get_block b;
  assert (bool_decide (sector < b_size v)).

Definition partition_read (rd : Z → Z → M bdevs (list Z)) (p : partition) (sector : Z) : M bdevs (list Z) :=
  rd (p_block p) (u32 (p_start p + sector)).

Definition partition_write (wr : Z → Z → list Z → M bdevs unit) (p : partition) (sector : Z) (buffer : list Z) : M bdevs unit :=
  wr (p_block p) (u32 (p_start p + sector)) buffer.

(** The driver's [read] and [write] of a partition call the functions again, one device
    further down: [fuel] bounds the nesting. *)
Fixpoint block_read (fuel : nat) (b sector : Z) : M bdevs (list Z) :=
  match fuel with
  | O => nofuel
  | S fuel =>
    check_sector b sector;;
    v ← get_block b;
    buffer ← (match b_ops v with
              | Disk d => gets (λ s, media s d sector)
              | Part p => partition_read (block_read fuel) p sector
              end);
    v ← get_block b;
    put_block b (count_read v);;
    mret buffer
  end.

Definition write_medium (d sector : Z) (buffer : list Z) (m : Z → Z → list Z) (e k : Z) : list Z :=
  if bool_decide (e = d ∧ k = sector) then buffer else m e k.

Fixpoint block_write (fuel : nat) (b sector : Z) (buffer : list Z) : M bdevs unit :=
  match fuel with
  | O => nofuel
  | S fuel =>
    check_sector b sector;;
    v ← get_block b;
    assert (bool_decide (b_type v ≠ BLOCK_FOREIGN));;
    (match b_ops v with
     | Disk d => modify (λ s, set_media (write_medium d sector buffer (media s)) s)
     | Part p => partition_write (block_write fuel) p sector buffer
     end);;
    v ← get_block b;
    put_block b (count_write v)
  end.

(** ** Registration *)

Definition block_register (name : list Z) (type : block_type) (size : Z) (ops : driver) : M bdevs Z :=
  b ← malloc_or_panic;
  modify (λ s, set_all (all_blocks s ++ [b]) s);;
  put_block b (Block (take 15 name) type size ops 0 0);;
  mret b.

(** ** Partitions *)

Definition role_of_type (part_type : Z) : block_type :=
  if bool_decide (part_type = 32) then BLOCK_KERNEL
  else if bool_decide (part_type = 33) then BLOCK_FILESYS
  else if bool_decide (part_type = 34) then BLOCK_SCRATCH
  else if bool_decide (part_type = 35) then BLOCK_SWAP
  else BLOCK_FOREIGN.

(** The name is what [snprintf] writes for ["%s%d"], up to 15 characters; the number is
    positive, so that it has no sign. *)
Definition found_partition (b part_type start size part_nr : Z) : M bdevs unit :=
  bsize ← block_size b;
  if bool_decide (start >= bsize) then mret tt
  else if bool_decide (u32 (start + size) < start) || bool_decide (u32 (start + size) > bsize) then mret tt
  else
    _ ← malloc_or_panic;
    bname ← block_name b;
    let name := take 15 (bname ++ number_text base_d false part_nr) in
    _ ← block_register name (role_of_type part_type) size (Part (Partition b start));
    mret tt.

(** Entry [i] of a partition table: its type, offset and size. *)
Definition entry_type (pt : list Z) (i : nat) : Z := le_field pt (446 + 16 * i + 4) 1.
Definition entry_offset (pt : list Z) (i : nat) : Z := le_field pt (446 + 16 * i + 8) 4.
Definition entry_size (pt : list Z) (i : nat) : Z := le_field pt (446 + 16 * i + 12) 4.

Definition is_extended (t : Z) : bool := bool_decide (t ∈ [5; 15; 133; 197]).

(** The loop over the entries; [rec] reads another table. *)
Fixpoint entries_loop (rec : Z → Z → Z → M bdevs Z) (b sector primary : Z) (pt : list Z) (ids : list nat) (part_nr : Z) : M bdevs Z :=
  match ids with
  | [] => mret part_nr
  | i :: ids =>
    part_nr ← (if bool_decide (entry_size pt i = 0) || bool_decide (entry_type pt i = 0) then mret part_nr
               else if is_extended (entry_type pt i) then
                 if bool_decide (sector = 0) then rec (entry_offset pt i) (entry_offset pt i) part_nr
                 else rec (u32 (entry_offset pt i + primary)) primary part_nr
               else
                 found_partition b (entry_type pt i) (u32 (entry_offset pt i + sector)) (entry_size pt i) (part_nr + 1);;
                 mret (part_nr + 1));
    entries_loop rec b sector primary pt ids part_nr
  end.

(** [depth] bounds the nesting of tables, [nest] that of devices.  The result is
    [*part_nr]. *)
Fixpoint read_partition_table (depth nest : nat) (b sector primary_extended_sector part_nr : Z) : M bdevs Z :=
  match depth with
  | O => nofuel
  | S depth =>
    bsize ← block_size b;
    if bool_decide (sector >= bsize) then mret part_nr else
    _ ← malloc_or_panic;
    pt ← block_read nest b 0;
    if bool_decide (le_field pt 510 2 ≠ 43605) then mret part_nr else
    entries_loop (read_partition_table depth nest b) b sector primary_extended_sector pt [0; 1; 2; 3]%nat part_nr
  end.

Definition partition_scan (depth nest : nat) (b : Z) : M bdevs Z := read_partition_table depth nest b 0 0 0.

(** ** Roles *)

(** The [for] loop: the first device of the type from [b] on. *)
Fixpoint first_of_type (fuel : nat) (role : block_type) (b : Z) : M bdevs Z :=
  match fuel with
  | O => nofuel
  | S fuel =>
    if bool_decide (b = 0) then mret 0 else
    t ← block_type_of b;
    if bool_decide (t = role) then mret b else
    n ← block_next b;
    first_of_type fuel role n
  end.

Definition locate_block_device (role : block_type) (name : option (list Z)) : M bdevs unit :=
  b ← (match name with
       | Some name => b ← block_get_by_name name; assert (bool_decide (b ≠ 0));; mret b
       | None => b ← block_first; n ← gets (λ s, length (all_blocks s)); first_of_type (S n) role b
       end);
  if bool_decide (b ≠ 0) then block_set_role role b else mret tt.
