(* ===== verification/BlockFacts.v ===== *)
(** * BlockFacts: the devices and their sectors

    The invariant of the list of devices (a partition lies within a device registered
    before it) and what reading, writing and registering do to it. *)

From S2P Require Import Prelude KStdio KStdioFields Block.

(** ** The invariant *)

Record devs_ok (s : bdevs) : Prop := {
  dv_dom : ∀ b, b ∈ all_blocks s ↔ is_Some (blocks s !! b);
  dv_nodup : NoDup (all_blocks s);
  dv_addr : ∀ b v, blocks s !! b = Some v → 0 < b < brk s ∧ 0 ≤ b_size v < 2 ^ 32;
  dv_part : ∀ b v p, blocks s !! b = Some v → b_ops v = Part p →
    ∃ u, blocks s !! p_block p = Some u ∧ p_block p < b ∧ 0 ≤ p_start p ∧ p_start p + b_size v ≤ b_size u;
  dv_media : ∀ d k, Forall (λ x, 0 ≤ x < 256) (media s d k);
  dv_roles : length (block_by_role s) = 4%nat;
  dv_brk : 0 < brk s
}.

(** The sector of a disk that sector [k] of device [b] is. *)
Fixpoint phys (fuel : nat) (m : gmap Z block) (b k : Z) : option (Z * Z) :=
  match fuel with
  | O => None
  | S fuel =>
    v ← m !! b;
    match b_ops v with Disk d => Some (d, k) | Part p => phys fuel m (p_block p) (p_start p + k) end
  end.

(** Two states whose devices differ in the statistics only. *)
Definition shape (v : block) : list Z * block_type * Z * driver := (b_name v, b_type v, b_size v, b_ops v).

Record same_devs (s s' : bdevs) : Prop := {
  sd_shape : shape <$> blocks s' = shape <$> blocks s;
  sd_all : all_blocks s' = all_blocks s;
  sd_roles : block_by_role s' = block_by_role s;
  sd_brk : brk s' = brk s;
  sd_mallocs : mallocs s' = mallocs s
}.

#[export] Instance same_devs_preorder : PreOrder same_devs.
Proof. split; [by intros s; split|]. intros s1 s2 s3 [A1 A2 A3 A4 A5] [B1 B2 B3 B4 B5]. split; [by rewrite B1|by rewrite B2|by rewrite B3|by rewrite B4|by rewrite B5]. Qed.

Lemma shape_lookup s s' b v : same_devs s s' → blocks s !! b = Some v → ∃ v', blocks s' !! b = Some v' ∧ shape v' = shape v.
Proof.
  intros Hs Hb. pose proof (sd_shape _ _ Hs) as H. apply (f_equal (lookup b)) in H. rewrite !lookup_fmap, Hb in H.
  destruct (blocks s' !! b) as [v'|]; [|done]. apply (inj Some) in H. by exists v'.
Qed.

Lemma shape_sym s s' : same_devs s s' → same_devs s' s.
Proof. intros []. by split. Qed.

Lemma same_ok s s' : same_devs s s' → (∀ d k, Forall (λ x, 0 ≤ x < 256) (media s' d k)) → devs_ok s → devs_ok s'.
Proof.
  intros Hs Hm [D1 D2 D3 D4 D5 D6 D7]. pose proof Hs as [S1 S2 S3 S4 S5]. apply shape_sym in Hs. split; rewrite ?S2, ?S3, ?S4; try done.
  - intros b. rewrite D1, <- (fmap_is_Some shape (blocks s !! b)), <- (fmap_is_Some shape (blocks s' !! b)), <- !lookup_fmap. by rewrite S1.
  - intros b v Hb. destruct (shape_lookup _ _ _ _ Hs Hb) as (v' & Hb' & E). injection E as _ _ E _. rewrite <- E. by apply D3.
  - intros b v p Hb Hp. destruct (shape_lookup _ _ _ _ Hs Hb) as (v' & Hb' & E). injection E as _ _ E1 E2.
    destruct (D4 b v' p Hb' ltac:(congruence)) as (u & Hu & H1 & H2 & H3). apply shape_sym in Hs.
    destruct (shape_lookup _ _ _ _ Hs Hu) as (u' & Hu' & E'). injection E' as _ _ E' _. exists u'. split_and!; [done|done|done|congruence].
Qed.

(** ** Access *)

Lemma get_block_run s b v : blocks s !! b = Some v → get_block b s = Ret (v, s).
Proof. exact (gets_opt_Some (λ s, blocks s !! b) s v). Qed.

Lemma check_sector_run s b v k : blocks s !! b = Some v → k < b_size v → check_sector b k s = Ret (tt, s).
Proof. intros Hb Hk. unfold check_sector. run_step (get_block_run s b v Hb). by rewrite bool_decide_eq_true_2. Qed.

(** Counting an access. *)
Lemma put_block_same s b v v' : blocks s !! b = Some v → shape v' = shape v → same_devs s (set_blocks (<[b := v']> (blocks s)) s).
Proof.
  intros Hb Hv. split; try done. cbn. rewrite fmap_insert, Hv. apply insert_id. by rewrite lookup_fmap, Hb.
Qed.

Lemma media_same s s' : same_devs s s' → media s' = media s → devs_ok s → devs_ok s'.
Proof. intros Hs Hm Hok. apply (same_ok s); [done|rewrite Hm; apply Hok|done]. Qed.

Lemma part_sector s b v p k :
  devs_ok s → blocks s !! b = Some v → b_ops v = Part p → 0 ≤ k < b_size v →
  ∃ u, blocks s !! p_block p = Some u ∧ p_block p < b ∧ 0 < p_block p ∧ u32 (p_start p + k) = p_start p + k ∧ 0 ≤ p_start p + k < b_size u.
Proof.
  intros Hok Hb Hp Hk. destruct (dv_part _ Hok b v p Hb Hp) as (u & Hu & H1 & H2 & H3). pose proof (dv_addr _ Hok _ _ Hu) as [Ha Hs].
  exists u. split_and!; try done; try lia. apply uwrap_id. lia.
Qed.

Lemma device_read_run n s b k v :
  devs_ok s → blocks s !! b = Some v → 0 ≤ k < b_size v → (Z.to_nat b < n)%nat →
  ∃ d x s', phys n (blocks s) b k = Some (d, x) ∧ block_read n b k s = Ret (media s d x, s') ∧ same_devs s s' ∧ media s' = media s.
Proof.
  revert b k v. induction n as [|n IH]; intros b k v Hok Hb Hk Hn; [lia|]. cbn [block_read phys]. rewrite Hb. cbn [mbind option_bind].
  run_step (check_sector_run s b v k Hb ltac:(lia)). run_step (get_block_run s b v Hb). destruct (b_ops v) as [d|p] eqn:Eo.
  - exists d, k. unfold gets. rewrite (bind_Ret _ _ _ _ _ eq_refl). run_step (get_block_run s b v Hb). eexists. split_and!; [done|done| |done].
    by apply (put_block_same s b v).
  - destruct (part_sector s b v p k Hok Hb Eo Hk) as (u & Hu & Hlt & Hpos & E32 & Hr). unfold partition_read. rewrite E32.
    destruct (IH (p_block p) (p_start p + k) u Hok Hu Hr ltac:(lia)) as (d & x & s1 & Ep & E & Hs & Hm). run_step E.
    destruct (shape_lookup _ _ _ _ Hs Hb) as (v1 & Hb1 & Hv1). run_step (get_block_run s1 b v1 Hb1).
    exists d, x. eexists. split_and!; [done|done| |done]. etrans; [exact Hs|]. by apply (put_block_same s1 b v1).
Qed.

(** A device whose sectors may be written: neither it nor a device it lies on is foreign. *)
Fixpoint writable (fuel : nat) (m : gmap Z block) (b : Z) : bool :=
  match fuel with
  | O => false
  | S fuel =>
    match m !! b with
    | Some v => bool_decide (b_type v ≠ BLOCK_FOREIGN) && (match b_ops v with Disk _ => true | Part p => writable fuel m (p_block p) end)
    | None => false
    end
  end.

Lemma device_write_run n s b k v buffer :
  devs_ok s → blocks s !! b = Some v → 0 ≤ k < b_size v → (Z.to_nat b < n)%nat →
  if writable n (blocks s) b then
    ∃ d x s', phys n (blocks s) b k = Some (d, x) ∧ block_write n b k buffer s = Ret (tt, s') ∧ same_devs s s' ∧ media s' = write_medium d x buffer (media s)
  else block_write n b k buffer s = Crash.
Proof.
  revert b k v. induction n as [|n IH]; intros b k v Hok Hb Hk Hn; [lia|]. cbn [block_write phys writable]. rewrite Hb. cbn [mbind option_bind].
  destruct (decide (b_type v = BLOCK_FOREIGN)) as [Hf|Hf].
  { rewrite bool_decide_eq_false_2 by tauto. cbn [andb]. run_step (check_sector_run s b v k Hb ltac:(lia)). run_step (get_block_run s b v Hb).
    by rewrite bool_decide_eq_false_2 by tauto. }
  rewrite bool_decide_eq_true_2 by done. cbn [andb]. destruct (b_ops v) as [d|p] eqn:Eo.
  - exists d, k. run_step (check_sector_run s b v k Hb ltac:(lia)). run_step (get_block_run s b v Hb). rewrite assert_bind by (by apply bool_decide_eq_true_2). rewrite Eo.
    unfold modify. rewrite (bind_Ret _ _ _ _ _ eq_refl). set (s1 := set_media _ s). run_step (get_block_run s1 b v Hb). eexists. split_and!; [done|done| |done].
    etrans; [|by apply (put_block_same s1 b v)]. by split.
  - destruct (part_sector s b v p k Hok Hb Eo Hk) as (u & Hu & Hlt & Hpos & E32 & Hr).
    specialize (IH (p_block p) (p_start p + k) u Hok Hu Hr ltac:(lia)). destruct (writable n (blocks s) (p_block p)).
    + destruct IH as (d & x & s1 & Ep & E & Hs & Hm). exists d, x. run_step (check_sector_run s b v k Hb ltac:(lia)). run_step (get_block_run s b v Hb).
      rewrite assert_bind by (by apply bool_decide_eq_true_2). rewrite Eo. unfold partition_write. rewrite E32. run_step E.
      destruct (shape_lookup _ _ _ _ Hs Hb) as (v1 & Hb1 & Hv1). run_step (get_block_run s1 b v1 Hb1).
      eexists. split_and!; [done|done| |done]. etrans; [exact Hs|]. by apply (put_block_same s1 b v1).
    + run_step (check_sector_run s b v k Hb ltac:(lia)). run_step (get_block_run s b v Hb). rewrite assert_bind by (by apply bool_decide_eq_true_2). rewrite Eo.
      unfold partition_write. rewrite E32. by rewrite (bind_Crash _ _ _ IH).
Qed.

Lemma phys_same n s s' b k : same_devs s s' → phys n (blocks s') b k = phys n (blocks s) b k.
Proof.
  intros Hs. revert b k. induction n as [|n IH]; intros b k; [done|]. cbn [phys]. pose proof (sd_shape _ _ Hs) as H. apply (f_equal (lookup b)) in H.
  rewrite !lookup_fmap in H. destruct (blocks s' !! b) as [v'|], (blocks s !! b) as [v|]; try done. apply (inj Some) in H. cbn [mbind option_bind].
  injection H as _ _ _ ->. destruct (b_ops v); [done|apply IH].
Qed.

Lemma phys_enough s n m b k :
  devs_ok s → is_Some (blocks s !! b) → (Z.to_nat b < n)%nat → (Z.to_nat b < m)%nat → phys n (blocks s) b k = phys m (blocks s) b k.
Proof.
  intros Hok. revert m b k. induction n as [|n IH]; intros m b k [v Hb] Hn Hm; [lia|]. destruct m as [|m]; [lia|]. cbn [phys]. rewrite Hb. cbn [mbind option_bind].
  destruct (b_ops v) as [d|p] eqn:Eo; [done|]. destruct (dv_part _ Hok b v p Hb Eo) as (u & Hu & H1 & _). pose proof (dv_addr _ Hok _ _ Hu) as [Ha _].
  apply IH; [by exists u|lia|lia].
Qed.

(** ** Registration *)

(** [s'] is [s] with devices added at its end. *)
Record extended (s s' : bdevs) (new : list Z) : Prop := {
  ex_all : all_blocks s' = all_blocks s ++ new;
  ex_old : ∀ b v, blocks s !! b = Some v → ∃ v', blocks s' !! b = Some v' ∧ shape v' = shape v;
  ex_media : media s' = media s;
  ex_roles : block_by_role s' = block_by_role s;
  ex_mem : mallocs s = [] → mallocs s' = []
}.

Lemma extended_refl s : extended s s [].
Proof. split; [by rewrite app_nil_r|by eauto|done|done|done]. Qed.

Lemma extended_trans s1 s2 s3 a b : extended s1 s2 a → extended s2 s3 b → extended s1 s3 (a ++ b).
Proof.
  intros [A1 A2 A3 A4 A5] [B1 B2 B3 B4 B5]. split; [by rewrite B1, A1, app_assoc| |congruence|congruence|auto].
  intros x v Hx. destruct (A2 x v Hx) as (v1 & H1 & E1). destruct (B2 x v1 H1) as (v2 & H2 & E2). exists v2. split; [done|congruence].
Qed.

Lemma extended_same s s' : same_devs s s' → media s' = media s → extended s s' [].
Proof.
  intros Hs Hm. split; [rewrite app_nil_r; apply Hs| |done|apply Hs|intros H; rewrite <- H; apply Hs]. intros b v. by apply shape_lookup.
Qed.

Lemma descriptor_run s : mallocs s = [] → malloc_or_panic s = Ret (brk s, set_mem (brk s + 1) [] s).
Proof. intros E. unfold malloc_or_panic. by rewrite E. Qed.

Lemma extended_malloc s : mallocs s = [] → devs_ok s → extended s (set_mem (brk s + 1) [] s) [] ∧ devs_ok (set_mem (brk s + 1) [] s).
Proof.
  intros E [D1 D2 D3 D4 D5 D6 D7]. split; [split; [by rewrite app_nil_r|by eauto|done|done|done]|].
  split; cbn; try done; [|lia]. intros b v Hb. destruct (D3 b v Hb). split; [lia|done].
Qed.

Lemma block_register_run s name type size ops :
  devs_ok s → mallocs s = [] → 0 ≤ size < 2 ^ 32 →
  (∀ p, ops = Part p → ∃ u, blocks s !! p_block p = Some u ∧ 0 ≤ p_start p ∧ p_start p + size ≤ b_size u) →
  ∃ s', block_register name type size ops s = Ret (brk s, s') ∧ devs_ok s' ∧ extended s s' [brk s] ∧
    blocks s' !! brk s = Some (Block (take 15 name) type size ops 0 0) ∧ brk s < brk s'.
Proof.
  intros Hok E Hsz Hops. pose proof Hok as [D1 D2 D3 D4 D5 D6 D7]. unfold block_register. run_step (descriptor_run s E).
  unfold modify. rewrite (bind_Ret _ _ _ _ _ eq_refl). unfold put_block, modify. rewrite (bind_Ret _ _ _ _ _ eq_refl). set (v := Block _ _ _ _ _ _).
  assert (blocks s !! brk s = None) as Hn.
  { destruct (blocks s !! brk s) as [u|] eqn:Eu; [|done]. pose proof (D3 _ _ Eu). lia. }
  eexists. split_and!; [done|..]; cbn; [|split; cbn|by rewrite lookup_insert_eq|lia].
  - split; cbn; try done; [..|lia].
    + intros b. rewrite elem_of_app, D1, list_elem_of_singleton. destruct (decide (b = brk s)) as [->|Hne].
      * rewrite lookup_insert_eq. split; [by eexists|by right].
      * rewrite lookup_insert_ne by done. split; [by intros [?|?]|by left].
    + apply NoDup_app. split_and!; [done| |apply NoDup_singleton]. intros b Hb ->%list_elem_of_singleton. apply D1 in Hb. rewrite Hn in Hb. by destruct Hb.
    + intros b u Hb. apply lookup_insert_Some in Hb as [[<- <-]|[_ Hb]]; [split; [lia|done]|]. destruct (D3 b u Hb). split; [lia|done].
    + intros b u p Hb Hp. apply lookup_insert_Some in Hb as [[<- <-]|[Hne Hb]].
      * destruct (Hops p Hp) as (u & Hu & H1 & H2). pose proof (D3 _ _ Hu) as [Ha _]. exists u. rewrite lookup_insert_ne by lia. split_and!; done || lia.
      * destruct (D4 b u p Hb Hp) as (w & Hw & H1 & H2 & H3). exists w. pose proof (D3 _ _ Hw) as [Ha _]. rewrite lookup_insert_ne by lia. done.
  - done.
  - intros b u Hb. pose proof (D3 _ _ Hb). exists u. rewrite lookup_insert_ne by lia. done.
  - done.
  - done.
  - done.
Qed.
