(* ===== verification/BlockSpec.v ===== *)
(** * BlockSpec: what the block layer promises

    Sectors read back what was written to them, through any nesting of partitions; a scan
    registers what the partition table lists; and the defect of the scan. *)

From S2P Require Import Prelude KStdio KStdioFields Block BlockFacts.

(** ** Sectors *)

(** The sector of a disk behind a sector of a device. *)
Definition loc (s : bdevs) (b k : Z) : option (Z * Z) := phys (S (Z.to_nat b)) (blocks s) b k.

Lemma loc_phys s n b k : devs_ok s → is_Some (blocks s !! b) → (Z.to_nat b < n)%nat → phys n (blocks s) b k = loc s b k.
Proof. intros Hok Hb Hn. by apply phys_enough; [| |lia|lia]. Qed.

Lemma read_loc n s b k v :
  devs_ok s → blocks s !! b = Some v → 0 ≤ k < b_size v → (Z.to_nat b < n)%nat →
  ∃ d x s', loc s b k = Some (d, x) ∧ block_read n b k s = Ret (media s d x, s') ∧ same_devs s s' ∧ media s' = media s.
Proof.
  intros Hok Hb Hk Hn. destruct (device_read_run n s b k v Hok Hb Hk Hn) as (d & x & s' & Ep & H). exists d, x, s'.
  split; [|done]. rewrite <- Ep. symmetry. apply loc_phys; [done|by exists v|done].
Qed.

(** A sector beyond the end is refused. *)
Lemma read_beyond n s b k v : blocks s !! b = Some v → b_size v ≤ k → block_read (S n) b k s = Crash.
Proof.
  intros Hb Hk. cbn [block_read]. apply bind_Crash. unfold check_sector. run_step (get_block_run s b v Hb). by rewrite bool_decide_eq_false_2 by lia.
Qed.

Lemma write_beyond n s b k v buffer : blocks s !! b = Some v → b_size v ≤ k → block_write (S n) b k buffer s = Crash.
Proof.
  intros Hb Hk. cbn [block_write]. apply bind_Crash. unfold check_sector. run_step (get_block_run s b v Hb). by rewrite bool_decide_eq_false_2 by lia.
Qed.

(** C35: the sectors of the devices are cells.  Writing a sector of a device that is not
    foreign, and lies on none that is, returns; a read of any sector of any device gives
    afterwards the buffer when it is the same sector of the same disk, and what it gave
    before otherwise.  A write to any other device crashes, and so do reading and writing
    any sector beyond the end of any device. *)
Theorem block_read_write n s b k v buffer c l w :
  devs_ok s → blocks s !! b = Some v → 0 ≤ k < b_size v → (Z.to_nat b < n)%nat → writable n (blocks s) b = true →
  Forall (λ x, 0 ≤ x < 256) buffer → blocks s !! c = Some w → 0 ≤ l < b_size w → (Z.to_nat c < n)%nat →
  ∃ s1 s2 s3 old, block_write n b k buffer s = Ret (tt, s1) ∧ devs_ok s1 ∧ block_read n c l s = Ret (old, s2) ∧
    block_read n c l s1 = Ret (if bool_decide (loc s c l = loc s b k) then buffer else old, s3) ∧
    (∀ f u x, blocks s !! f = Some u → 0 ≤ x < b_size u → (Z.to_nat f < n)%nat → writable n (blocks s) f = false →
      block_write n f x buffer s = Crash) ∧
    (∀ f u x, blocks s !! f = Some u → b_size u ≤ x → block_read n f x s = Crash ∧ block_write n f x buffer s = Crash).
Proof.
  intros Hok Hb Hk Hn Hw Hbuf Hc Hl Hcn. pose proof (device_write_run n s b k v buffer Hok Hb Hk Hn) as H. rewrite Hw in H.
  destruct H as (d & x & s1 & Ep & E & Hs & Hm). rewrite (loc_phys s n b k Hok) in Ep by (done || by exists v).
  destruct (read_loc n s c l w Hok Hc Hl Hcn) as (e & y & s2 & El & E2 & _ & _). destruct (shape_lookup _ _ _ _ Hs Hc) as (w1 & Hc1 & Hw1).
  assert (devs_ok s1) as Hok1.
  { apply (same_ok s); [done| |done]. intros d' k'. rewrite Hm. unfold write_medium. case_bool_decide; [done|apply Hok]. }
  assert (b_size w1 = b_size w) as Hsz by (by injection Hw1 as _ _ ? _).
  destruct (read_loc n s1 c l w1 Hok1 Hc1 ltac:(lia) Hcn) as (e' & y' & s3 & El' & E3 & _ & _).
  assert (loc s1 c l = loc s c l) as Eloc by (by apply phys_same). rewrite Eloc, El in El'. injection El' as <- <-.
  exists s1, s2, s3, (media s e y). split_and!; [done|done|done| | |].
  2:{ intros f u z Hf Hz Hfn Hfw. pose proof (device_write_run n s f z u buffer Hok Hf Hz Hfn) as H. by rewrite Hfw in H. }
  2:{ intros f u z Hf Hz. destruct n; [lia|]. split; [by apply (read_beyond n s f _ u)|by apply (write_beyond n s f _ u)]. }
  rewrite E3, Hm, El, Ep. unfold write_medium. do 2 f_equal. destruct (decide (e = d ∧ y = x)) as [[-> ->]|Hne].
  - by rewrite !bool_decide_eq_true_2.
  - rewrite !bool_decide_eq_false_2; [done| |done]. intros [= -> ->]. by apply Hne.
Qed.

(** ** Scanning a partition table *)

Definition fits (bsize start size : Z) : bool := bool_decide (start < bsize ∧ start + size ≤ bsize).

(** The device for a partition. *)
Definition part_shape (b : Z) (bname : list Z) (t start size nr : Z) : list Z * block_type * Z * driver :=
  (take 15 (bname ++ number_text base_d false nr), role_of_type t, size, Part (Partition b start)).

Lemma found_partition_run s b v t start size nr :
  devs_ok s → mallocs s = [] → blocks s !! b = Some v → 0 ≤ start < 2 ^ 32 → 0 ≤ size < 2 ^ 32 →
  ∃ s' new, found_partition b t start size nr s = Ret (tt, s') ∧ devs_ok s' ∧ extended s s' new ∧
    Forall2 (λ a sh, shape <$> blocks s' !! a = Some sh) new (if fits (b_size v) start size then [part_shape b (b_name v) t start size nr] else []).
Proof.
  intros Hok Hm Hb Hst Hsz. pose proof (dv_addr _ Hok b v Hb) as [_ Hbs]. unfold found_partition, block_size. rewrite bind_assoc. run_step (get_block_run s b v Hb). rewrite ret_bind.
  unfold fits. destruct (decide (start < b_size v)) as [H1|H1].
  2:{ rewrite (bool_decide_eq_true_2 (start >= b_size v)) by lia. rewrite bool_decide_eq_false_2 by lia. exists s, []. split_and!; [done|done|apply extended_refl|constructor]. }
  rewrite (bool_decide_eq_false_2 (start >= b_size v)) by lia.
  assert (u32 (start + size) = if decide (start + size < 2 ^ 32) then start + size else start + size - 2 ^ 32) as Eu by (unfold uwrap; case_decide; Z.div_mod_to_equations; lia).
  destruct (decide (start + size ≤ b_size v)) as [H2|H2].
  2:{ rewrite <- bool_decide_or, bool_decide_eq_true_2 by (rewrite Eu; case_decide; lia). rewrite bool_decide_eq_false_2 by lia.
      exists s, []. split_and!; [done|done|apply extended_refl|constructor]. }
  rewrite <- bool_decide_or, bool_decide_eq_false_2 by (rewrite Eu; case_decide; lia). rewrite (bool_decide_eq_true_2 (_ ∧ _)) by done.
  run_step (descriptor_run s Hm). destruct (extended_malloc s Hm Hok) as [Hex1 Hok1]. set (s1 := set_mem (brk s + 1) [] s) in *.
  unfold block_name. rewrite bind_assoc. run_step (get_block_run s1 b v Hb). rewrite ret_bind. cbn zeta.
  destruct (block_register_run s1 (take 15 (b_name v ++ number_text base_d false nr)) (role_of_type t) size (Part (Partition b start)) Hok1 eq_refl Hsz)
    as (s2 & E2 & Hok2 & Hex2 & Ha & _).
  { intros p [= <-]. exists v. cbn. split_and!; [done|lia|lia]. }
  run_step E2. exists s2, [brk s1]. split_and!; [done|done|exact (extended_trans _ _ _ _ _ Hex1 Hex2)|].
  constructor; [|constructor]. rewrite Ha. cbn. unfold shape, part_shape. cbn. by rewrite take_take, Nat.min_id.
Qed.

(** An entry the loop passes over, and one it descends into. *)
Definition empty_entry (pt : list Z) (i : nat) : bool := bool_decide (entry_size pt i = 0) || bool_decide (entry_type pt i = 0).
Definition descends (pt : list Z) (i : nat) : bool := negb (empty_entry pt i) && is_extended (entry_type pt i).

(** The devices for the entries [ids] of a table, when [nr] entries came before. *)
Fixpoint listed (b : Z) (bname : list Z) (bsize sector : Z) (pt : list Z) (ids : list nat) (nr : Z) : list (list Z * block_type * Z * driver) :=
  match ids with
  | [] => []
  | i :: ids =>
    if empty_entry pt i then listed b bname bsize sector pt ids nr
    else
      let start := u32 (entry_offset pt i + sector) in
      (if fits bsize start (entry_size pt i) then [part_shape b bname (entry_type pt i) start (entry_size pt i) (nr + 1)] else []) ++
      listed b bname bsize sector pt ids (nr + 1)
  end.

Lemma entries_run rec s b v sector primary pt ids nr :
  devs_ok s → mallocs s = [] → blocks s !! b = Some v → Forall (λ x, 0 ≤ x < 256) pt → Forall (λ i, descends pt i = false) ids →
  ∃ s' new nr', entries_loop rec b sector primary pt ids nr s = Ret (nr', s') ∧ devs_ok s' ∧ extended s s' new ∧ nr ≤ nr' ∧
    Forall2 (λ a sh, shape <$> blocks s' !! a = Some sh) new (listed b (b_name v) (b_size v) sector pt ids nr).
Proof.
  intros Hok Hm Hb Hpt Hids. revert s v nr Hok Hm Hb. induction Hids as [|i ids Hi _ IH]; intros s v nr Hok Hm Hb.
  { exists s, [], nr. split_and!; [done|done|apply extended_refl|lia|constructor]. }
  cbn [entries_loop listed]. unfold descends in Hi. fold (empty_entry pt i). destruct (empty_entry pt i); cbn [negb andb] in Hi.
  { rewrite ret_bind. by apply IH. }
  rewrite Hi, bind_assoc. pose proof (le_field_range pt (446 + 16 * i + 12) 4 Hpt) as Hsz. fold (entry_size pt i) in Hsz.
  destruct (found_partition_run s b v (entry_type pt i) (u32 (entry_offset pt i + sector)) (entry_size pt i) (nr + 1) Hok Hm Hb (uwrap_range 32 _ ltac:(lia)) Hsz)
    as (s1 & new1 & E1 & Hok1 & Hex1 & Hf1). run_step E1. rewrite ret_bind.
  destruct (ex_old _ _ _ Hex1 b v Hb) as (v1 & Hb1 & Hv1). injection Hv1 as En _ Es _.
  destruct (IH s1 v1 (nr + 1) Hok1 (ex_mem _ _ _ Hex1 Hm) Hb1) as (s2 & new2 & nr2 & E2 & Hok2 & Hex2 & Hnr & Hf2). rewrite En, Es in Hf2.
  exists s2, (new1 ++ new2), nr2. split_and!; [done|done|by apply (extended_trans s s1)|lia|]. apply Forall2_app; [|done].
  eapply Forall2_impl; [exact Hf1|]. intros a sh Ha. apply fmap_Some in Ha as (u & Eu & ->).
  destruct (ex_old _ _ _ Hex2 a u Eu) as (u' & -> & Hu'). cbn. by rewrite Hu'.
Qed.

Lemma read_table_prefix depth nest s b v sector primary nr :
  devs_ok s → mallocs s = [] → blocks s !! b = Some v → 0 ≤ sector < b_size v → (Z.to_nat b < nest)%nat →
  ∃ d x s1, loc s b 0 = Some (d, x) ∧ devs_ok s1 ∧ extended s s1 [] ∧
    read_partition_table (S depth) nest b sector primary nr s =
      (if bool_decide (le_field (media s d x) 510 2 ≠ 43605) then mret nr
       else entries_loop (read_partition_table depth nest b) b sector primary (media s d x) [0; 1; 2; 3]%nat nr) s1.
Proof.
  intros Hok Hm Hb Hsec Hn. destruct (extended_malloc s Hm Hok) as [Hex1 Hok1]. set (s0 := set_mem (brk s + 1) [] s) in *.
  destruct (read_loc nest s0 b 0 v Hok1 Hb ltac:(lia) Hn) as (d & x & s1 & El & E1 & Hs & Hmed).
  exists d, x, s1. split_and!; [done|by apply (media_same s0)|exact (extended_trans _ _ _ _ _ Hex1 (extended_same _ _ Hs Hmed))|].
  cbn [read_partition_table]. unfold block_size. rewrite bind_assoc. run_step (get_block_run s b v Hb). rewrite ret_bind.
  rewrite (bool_decide_eq_false_2 (sector >= _)) by lia. run_step (descriptor_run s Hm). by run_step E1.
Qed.

(** C36: a scan registers what the table lists.  On a device whose first sector holds a
    partition table without extended partitions, the scan returns if no allocation fails; the devices it adds, in
    the order of the table, are those of the entries that are not empty and lie within the
    device, each with its number among the entries that are not empty in its name, the role of its type, its size
    and its first sector; and every partition lies within its device. *)
Theorem partition_scan_registers depth nest s b v d x :
  devs_ok s → mallocs s = [] → blocks s !! b = Some v → 0 < b_size v → (Z.to_nat b < nest)%nat → loc s b 0 = Some (d, x) →
  le_field (media s d x) 510 2 = 43605 → Forall (λ i, descends (media s d x) i = false) [0; 1; 2; 3]%nat →
  ∃ nr s' new, partition_scan (S depth) nest b s = Ret (nr, s') ∧ devs_ok s' ∧ all_blocks s' = all_blocks s ++ new ∧ media s' = media s ∧
    Forall2 (λ a sh, shape <$> blocks s' !! a = Some sh) new (listed b (b_name v) (b_size v) 0 (media s d x) [0; 1; 2; 3]%nat 0).
Proof.
  intros Hok Hm Hb Hsz Hn Hl Hsig Hids. destruct (read_table_prefix depth nest s b v 0 0 0 Hok Hm Hb ltac:(lia) Hn) as (d' & x' & s1 & El & Hok1 & Hex1 & E).
  rewrite Hl in El. injection El as <- <-. rewrite bool_decide_eq_false_2 in E by tauto. unfold partition_scan. rewrite E.
  destruct (ex_old _ _ _ Hex1 b v Hb) as (v1 & Hb1 & Hv1). injection Hv1 as En _ Es _.
  destruct (entries_run (read_partition_table depth nest b) s1 b v1 0 0 (media s d x) [0; 1; 2; 3]%nat 0 Hok1 (ex_mem _ _ _ Hex1 Hm) Hb1 (dv_media _ Hok d x) Hids)
    as (s2 & new & nr & E2 & Hok2 & Hex2 & _ & Hf). rewrite En, Es in Hf. pose proof (extended_trans _ _ _ _ _ Hex1 Hex2) as Hex.
  exists nr, s2, new. split_and!; [done|done|apply Hex|apply Hex|done].
Qed.

(** ** The extended partition *)

Lemma phys_extended n s s' new b k r : extended s s' new → phys n (blocks s) b k = Some r → phys n (blocks s') b k = Some r.
Proof.
  intros Hex. revert b k. induction n as [|n IH]; intros b k; [done|]. cbn [phys]. destruct (blocks s !! b) as [v|] eqn:Eb; [|done].
  destruct (ex_old _ _ _ Hex b v Eb) as (v' & -> & Hv). injection Hv as _ _ _ Hv. cbn [mbind option_bind]. rewrite Hv. destruct (b_ops v); [done|apply IH].
Qed.

Lemma bind_same {S A B} (m : M S A) (k1 k2 : A → M S B) s : (∀ a s', k1 a s' = k2 a s') → (m ≫= k1) s = (m ≫= k2) s.
Proof. intros H. unfold mbind, M_bind. by destruct (m s) as [[a s']| |]; [apply H|..]. Qed.

Lemma entries_app rec b sector primary pt l1 l2 nr s :
  entries_loop rec b sector primary pt (l1 ++ l2) nr s = (nr' ← entries_loop rec b sector primary pt l1 nr; entries_loop rec b sector primary pt l2 nr') s.
Proof.
  revert nr s. induction l1 as [|i l1 IH]; intros nr s; cbn [app entries_loop]; [by rewrite ret_bind|].
  rewrite bind_assoc. apply bind_same. intros nr1 s1. apply IH.
Qed.

Section loop.
Context (nest : nat) (b d x : Z) (pt : list Z) (bsize : Z) (i : nat) (before after : list nat).
Hypothesis (Hn : (Z.to_nat b < nest)%nat) (Hsig : le_field pt 510 2 = 43605) (Hsz : bsize < 2 ^ 32).
Hypothesis (Hids : [0; 1; 2; 3]%nat = before ++ i :: after) (Hbefore : Forall (λ j, descends pt j = false) before) (Hi : descends pt i = true).
Hypothesis (Hoff : 0 < entry_offset pt i) (Hroom : 2 * entry_offset pt i < bsize).

(** The states the scan goes through. *)
Definition scanning (s : bdevs) : Prop :=
  devs_ok s ∧ mallocs s = [] ∧ loc s b 0 = Some (d, x) ∧ media s d x = pt ∧ ∃ v, blocks s !! b = Some v ∧ b_size v = bsize.

Lemma scanning_extended s s' new : devs_ok s' → extended s s' new → scanning s → scanning s'.
Proof.
  intros Hok' Hex (Hok & Hm & Hl & Hp & v & Hb & Hv). destruct (ex_old _ _ _ Hex b v Hb) as (v' & Hb' & Hv'). injection Hv' as _ _ Es _.
  split_and!; [done|by apply (ex_mem _ _ _ Hex)|by apply (phys_extended _ s s' new)|by rewrite (ex_media _ _ _ Hex)|]. exists v'. split; [done|congruence].
Qed.

(** Wherever the scan believes it is, it reads the first sector and descends again. *)
Lemma table_loops depth s sector primary nr :
  scanning s → sector = 0 ∨ primary = entry_offset pt i ∧ (sector = entry_offset pt i ∨ sector = 2 * entry_offset pt i) →
  read_partition_table depth nest b sector primary nr s = NoFuel.
Proof using Hn Hsig Hsz Hids Hbefore Hi Hoff Hroom.
  revert s sector primary nr. induction depth as [|depth IH]; intros s sector primary nr Hsc Hsec; [done|].
  pose proof Hsc as (Hok & Hm & Hl & Hp & v & Hb & Hv).
  destruct (read_table_prefix depth nest s b v sector primary nr Hok Hm Hb ltac:(lia) Hn) as (d' & x' & s1 & El & Hok1 & Hex1 & ->).
  rewrite Hl in El. injection El as <- <-. rewrite Hp, bool_decide_eq_false_2 by tauto. pose proof (scanning_extended _ _ _ Hok1 Hex1 Hsc) as Hsc1.
  pose proof Hsc1 as (_ & Hm1 & _ & Hp1 & v1 & Hb1 & _). rewrite Hids, entries_app.
  assert (Forall (λ y, 0 ≤ y < 256) pt) as Hpt by (rewrite <- Hp1; apply Hok1).
  destruct (entries_run (read_partition_table depth nest b) s1 b v1 sector primary pt before nr Hok1 Hm1 Hb1 Hpt Hbefore) as (s2 & new & nr2 & E2 & Hok2 & Hex2 & _ & _).
  run_step E2. pose proof (scanning_extended _ _ _ Hok2 Hex2 Hsc1) as Hsc2. cbn [entries_loop]. fold (empty_entry pt i).
  unfold descends in Hi. apply andb_true_iff in Hi as [He%negb_true_iff Hx]. rewrite He, Hx. unfold mbind, M_bind.
  destruct (decide (sector = 0)) as [Hs0|Hs0].
  - rewrite bool_decide_eq_true_2 by done. by rewrite IH by (done || (right; split; [done|by left])).
  - rewrite bool_decide_eq_false_2 by done. destruct Hsec as [?|[-> _]]; [done|]. rewrite uwrap_id by lia. rewrite IH; [done|done|].
    right. split; [done|]. right. lia.
Qed.
End loop.

(** C37: an extended partition hangs the scan.  [read_partition_table] reads the first
    sector of the device whatever sector it is asked for, so a table with an extended
    partition in the first half of the device is read again and again: while allocations
    succeed, the scan does not return, whatever depth of tables it is allowed. *)
Theorem extended_partition_loops depth nest s b v d x i before after :
  devs_ok s → mallocs s = [] → blocks s !! b = Some v → (Z.to_nat b < nest)%nat → loc s b 0 = Some (d, x) →
  le_field (media s d x) 510 2 = 43605 → [0; 1; 2; 3]%nat = before ++ i :: after → Forall (λ j, descends (media s d x) j = false) before →
  descends (media s d x) i = true → 0 < entry_offset (media s d x) i → 2 * entry_offset (media s d x) i < b_size v →
  partition_scan depth nest b s = NoFuel.
Proof.
  intros Hok Hm Hb Hn Hl Hsig Hids Hbef Hi Hoff Hroom. unfold partition_scan.
  apply (table_loops nest b d x (media s d x) (b_size v) i before after); try done; [apply (dv_addr _ Hok b v Hb)| |by left].
  split_and!; try done. by exists v.
Qed.

(** ** Roles *)

(** The first device of a type in probe order. *)
Fixpoint first_typed (s : bdevs) (role : block_type) (l : list Z) : Z :=
  match l with
  | [] => 0
  | b :: l => if bool_decide (b_type <$> blocks s !! b = Some role) then b else first_typed s role l
  end.

Lemma successor_app pre b l : b ∉ pre → successor b (pre ++ b :: l) = Some (default 0 (head l)).
Proof.
  induction pre as [|y pre IH]; cbn [app successor]; intros Hb; [by rewrite bool_decide_eq_true_2|].
  apply not_elem_of_cons in Hb as [Hne Hb]. rewrite bool_decide_eq_false_2 by done. by apply IH.
Qed.

Lemma first_of_type_run s role pre l :
  devs_ok s → all_blocks s = pre ++ l → first_of_type (S (length l)) role (default 0 (head l)) s = Ret (first_typed s role l, s).
Proof.
  intros Hok. revert pre. induction l as [|b l IH]; intros pre Hl; [done|].
  assert (is_Some (blocks s !! b)) as [v Hb] by (apply (dv_dom _ Hok); rewrite Hl; apply elem_of_app; right; left).
  pose proof (dv_addr _ Hok b v Hb) as [Ha _]. pose proof (dv_nodup _ Hok) as Hnd. rewrite Hl in Hnd. apply NoDup_app in Hnd as (_ & Hd & _).
  cbn [length head default from_option]. remember (S (length l)) as n eqn:En. cbn [first_of_type first_typed]. rewrite (bool_decide_eq_false_2 (b = 0)) by lia.
  unfold block_type_of. rewrite bind_assoc. run_step (get_block_run s b v Hb). rewrite ret_bind, Hb. cbn [fmap option_fmap option_map].
  destruct (decide (b_type v = role)) as [Ht|Ht]; [by rewrite !bool_decide_eq_true_2 by congruence|]. rewrite !bool_decide_eq_false_2 by congruence.
  assert (block_next b s = Ret (default 0 (head l), s)) as En'.
  { apply gets_opt_Some. rewrite Hl. apply successor_app. intros Hin. apply (Hd b Hin). left. }
  run_step En'. subst n. apply (IH (pre ++ [b])). by rewrite <- app_assoc.
Qed.

(** Without a name the first device of the type gets the role; when there is none the roles
    stay as they are. *)
Theorem locate_by_type s role :
  devs_ok s → (type_code role < 4)%nat →
  locate_block_device role None s =
    Ret (tt, if bool_decide (first_typed s role (all_blocks s) = 0) then s
             else set_roles (<[type_code role := first_typed s role (all_blocks s)]> (block_by_role s)) s).
Proof.
  intros Hok Hr. unfold locate_block_device, block_first, gets. rewrite !bind_assoc, !(bind_Ret _ _ _ _ _ eq_refl), bind_assoc, (bind_Ret _ _ _ _ _ eq_refl).
  run_step (first_of_type_run s role [] (all_blocks s) Hok eq_refl). destruct (decide (first_typed s role (all_blocks s) = 0)) as [E|E].
  - rewrite bool_decide_eq_false_2 by tauto. by rewrite bool_decide_eq_true_2.
  - rewrite bool_decide_eq_true_2 by done. rewrite bool_decide_eq_false_2 by done. unfold block_set_role. by rewrite assert_bind by (by apply bool_decide_eq_true_2).
Qed.

(** ** Disks *)

(** A disk of 100 sectors with the table [pt], and the same with a partition of 20 sectors
    from sector 10 on. *)
Definition hda : block := Block [104; 100; 97] BLOCK_RAW 100 (Disk 0) 0 0.
Definition hda1 : block := Block [104; 100; 97; 49] BLOCK_FILESYS 20 (Part (Partition 1 10)) 0 0.
Definition disk_of (pt : list Z) (d k : Z) : list Z := if bool_decide (k = 0) then pt else [].
Definition one_disk (pt : list Z) : bdevs := BDevs {[1 := hda]} [1] (replicate 4 0) (disk_of pt) 2 [].
Definition two_devices : bdevs := BDevs (<[3 := hda1]> {[1 := hda]}) [1; 3] (replicate 4 0) (disk_of []) 4 [].

Definition slot_bytes (t offset size : Z) : list Z := [0; 0; 0; 0; t; 0; 0; 0; offset; 0; 0; 0; size; 0; 0; 0].
Definition table_bytes (es : list (list Z)) : list Z := replicate 446 0 ++ concat es ++ [85; 170].

Lemma one_disk_ok pt : Forall (λ x, 0 ≤ x < 256) pt → devs_ok (one_disk pt).
Proof.
  intros Hpt. split; cbn [all_blocks blocks one_disk brk media block_by_role].
  - intros b. rewrite list_elem_of_singleton, lookup_singleton_is_Some. naive_solver.
  - apply NoDup_singleton.
  - intros b v [<- <-]%lookup_singleton_Some. cbn. lia.
  - intros b v p [<- <-]%lookup_singleton_Some. done.
  - intros d k. unfold disk_of. case_bool_decide; [done|constructor].
  - done.
  - lia.
Qed.

Lemma two_devices_ok : devs_ok two_devices.
Proof.
  split; cbn [all_blocks blocks two_devices brk media block_by_role].
  - intros b. rewrite elem_of_cons, list_elem_of_singleton, lookup_insert_is_Some, lookup_singleton_is_Some. naive_solver.
  - repeat constructor; rewrite ?list_elem_of_singleton, ?elem_of_nil; lia || tauto.
  - intros b v [[<- <-]|[_ [<- <-]%lookup_singleton_Some]]%lookup_insert_Some; cbn; lia.
  - intros b v p [[<- <-]|[_ [<- <-]%lookup_singleton_Some]]%lookup_insert_Some; [|done].
    intros [= <-]. exists hda. cbn. split_and!; [reflexivity|lia|lia|lia].
  - intros d k. unfold disk_of. case_bool_decide; constructor.
  - done.
  - lia.
Qed.

(** Sector 5 of the partition is sector 15 of the disk. *)
Lemma block_read_write_witness :
  (∃ s1 s2 s3 old, block_write 4 3 5 [42] two_devices = Ret (tt, s1) ∧ devs_ok s1 ∧ block_read 4 1 15 two_devices = Ret (old, s2) ∧
    block_read 4 1 15 s1 = Ret ([42], s3)) ∧ block_read 4 3 20 two_devices = Crash ∧ block_write 4 3 25 [42] two_devices = Crash.
Proof.
  destruct (block_read_write 4 two_devices 3 5 hda1 [42] 1 15 hda) as (s1 & s2 & s3 & old & E1 & Hok & E2 & E3 & _ & Hb);
    [exact two_devices_ok|reflexivity|cbn; lia|cbn; lia|reflexivity|repeat constructor; lia|reflexivity|cbn; lia|cbn; lia|].
  split; [exists s1, s2, s3, old; split; [exact E1|split; [exact Hok|split; [exact E2|exact E3]]]|].
  split; [apply (Hb 3 hda1)|apply (Hb 3 hda1)]; reflexivity || (cbn; lia).
Defined.

(** A file system, a scratch area, an empty entry and one beyond the end of the disk. *)
Definition plain_table : list Z := table_bytes [slot_bytes 33 10 20; slot_bytes 34 40 30; slot_bytes 0 0 0; slot_bytes 131 90 20].

Lemma partition_scan_registers_witness :
  ∃ nr s' new, partition_scan 1 2 1 (one_disk plain_table) = Ret (nr, s') ∧ devs_ok s' ∧ all_blocks s' = [1] ++ new ∧ media s' = disk_of plain_table ∧
    Forall2 (λ a sh, shape <$> blocks s' !! a = Some sh) new
      [([104; 100; 97; 49], BLOCK_FILESYS, 20, Part (Partition 1 10)); ([104; 100; 97; 50], BLOCK_SCRATCH, 30, Part (Partition 1 40))].
Proof.
  apply (partition_scan_registers 0 2 (one_disk plain_table) 1 hda 0 0); [apply one_disk_ok; vm_compute; repeat constructor; congruence|reflexivity|reflexivity|cbn; lia|cbn; lia|reflexivity|reflexivity|].
  repeat constructor.
Defined.

Definition extended_table : list Z := table_bytes [slot_bytes 33 1 5; slot_bytes 5 10 20; slot_bytes 0 0 0; slot_bytes 0 0 0].

Lemma extended_partition_loops_witness : partition_scan 1000 2 1 (one_disk extended_table) = NoFuel.
Proof.
  apply (extended_partition_loops 1000 2 (one_disk extended_table) 1 hda 0 0 1 [0%nat] [2; 3]%nat);
    [apply one_disk_ok; vm_compute; repeat constructor; congruence|reflexivity|reflexivity|cbn; lia|reflexivity|reflexivity|reflexivity|repeat constructor|reflexivity|reflexivity|reflexivity].
Defined.
