(* ===== verification/Intq.v ===== *)
(** * Intq: interrupt queues ([pintos/src/devices/intq.c])

    A ring of bytes shared by threads and interrupt handlers.  Every function runs with
    interrupts off, so a call runs from one blocking point to the next: a thread blocks on
    the queue's lock, or in [wait] as the queue's only waiting thread.  The machine below
    runs one such stretch per event.  The lock is that of [threads/synch.c]: a release makes
    the first thread that waits for it ready, which then tries again.

    What is taken out is what was put in, in order; a thread sleeps only while it has to;
    and there is one way in which the queue's code panics. *)

From S2P Require Import Prelude.

Definition INTQ_BUFSIZE : Z := 64.

(** [struct intq]; the lock is its holder (0 when free) and the threads blocked on it. *)
Record intq := Intq {
  holder : Z;
  waiters : list Z;
  not_full : Z;
  not_empty : Z;
  buf : list Z;
  head : Z;
  tail : Z
}.

Inductive iop := Getc | Putc (byte : Z).

(** Where a thread is: running or not in the queue's code, blocked on the lock, ready to try the lock
    again, blocked in [wait], ready to return from [wait]. *)
Inductive pc := Free | LockBlocked (o : iop) | LockReady (o : iop) | Asleep (o : iop) | Awake (o : iop).

#[export] Instance iop_eq_dec : EqDecision iop.
Proof. solve_decision. Defined.
#[export] Instance pc_eq_dec : EqDecision pc.
Proof. solve_decision. Defined.

(** [puts] and [gots] are the bytes added and removed so far. *)
Record mon := Mon { q : intq; pcs : gmap Z pc; puts : list Z; gots : list Z }.

Definition pc_of (s : mon) (t : Z) : pc := default Free (pcs s !! t).
Definition set_q (f : intq → intq) : M mon unit := modify (λ s, Mon (f (q s)) (pcs s) (puts s) (gots s)).
Definition set_pc (t : Z) (p : pc) : M mon unit := modify (λ s, Mon (q s) (<[t := p]> (pcs s)) (puts s) (gots s)).

Definition with_lock (h : Z) (ws : list Z) (i : intq) := Intq h ws (not_full i) (not_empty i) (buf i) (head i) (tail i).
Definition with_not_full (t : Z) (i : intq) := Intq (holder i) (waiters i) t (not_empty i) (buf i) (head i) (tail i).
Definition with_not_empty (t : Z) (i : intq) := Intq (holder i) (waiters i) (not_full i) t (buf i) (head i) (tail i).
Definition with_ring (b : list Z) (h t : Z) (i : intq) := Intq (holder i) (waiters i) (not_full i) (not_empty i) b h t.

(** ** The functions *)

Definition intq_init (b : list Z) : intq := Intq 0 [] 0 0 b 0 0.

Definition next (pos : Z) : Z := Z.rem (pos + 1) INTQ_BUFSIZE.
Definition is_empty (i : intq) : bool := bool_decide (head i = tail i).
Definition is_full (i : intq) : bool := bool_decide (next (head i) = tail i).
Definition intq_empty : M mon bool := gets (λ s, is_empty (q s)).
Definition intq_full : M mon bool := gets (λ s, is_full (q s)).

(** [thread_unblock] of a thread that sleeps in [wait]. *)
Definition wake (t : Z) : M mon unit :=
  p ← gets (λ s, pc_of s t);
  match p with
  | Asleep o => set_pc t (Awake o)
  | _ => crash
  end.

(** [signal (q, &q->not_full)] and [signal (q, &q->not_empty)]. *)
Definition signal_not_full : M mon unit :=
  f ← intq_full;
  assert (negb f);;
  w ← gets (λ s, not_full (q s));
  if bool_decide (w ≠ 0) then wake w;; set_q (with_not_full 0) else mret tt.

Definition signal_not_empty : M mon unit :=
  e ← intq_empty;
  assert (negb e);;
  w ← gets (λ s, not_empty (q s));
  if bool_decide (w ≠ 0) then wake w;; set_q (with_not_empty 0) else mret tt.

(** [wait] of thread [t] for what [o] needs. *)
Definition wait (t : Z) (o : iop) : M mon unit :=
  (match o with
   | Getc => e ← intq_empty; assert e;; set_q (with_not_empty t)
   | Putc _ => f ← intq_full; assert f;; set_q (with_not_full t)
   end);;
  set_pc t (Asleep o).

(** [lock_acquire] and what follows it in the loop, or a thread that blocks. *)
Definition acquire_wait (t : Z) (o : iop) : M mon unit :=
  h ← gets (λ s, holder (q s));
  assert (bool_decide (h ≠ t));;
  if bool_decide (h = 0) then
    set_q (λ i, with_lock t (waiters i) i);;
    wait t o
  else
    set_q (λ i, with_lock (holder i) (waiters i ++ [t]) i);;
    set_pc t (LockBlocked o).

Definition queue_lock_release (t : Z) : M mon unit :=
  h ← gets (λ s, holder (q s));
  assert (bool_decide (h = t));;
  ws ← gets (λ s, waiters (q s));
  match ws with
  | [] => set_q (with_lock 0 [])
  | w :: ws =>
    set_q (with_lock 0 ws);;
    p ← gets (λ s, pc_of s w);
    match p with
    | LockBlocked o => set_pc w (LockReady o)
    | _ => crash
    end
  end.

(** The bodies of [intq_getc] and [intq_putc] after the loop. *)
Definition take_byte : M mon Z :=
  byte ← gets_opt (λ s, buf (q s) !! Z.to_nat (tail (q s)));
  set_q (λ i, with_ring (buf i) (head i) (next (tail i)) i);;
  modify (λ s, Mon (q s) (pcs s) (puts s) (gots s ++ [byte]));;
  signal_not_full;;
  mret byte.

Definition add_byte (byte : Z) : M mon unit :=
  n ← gets (λ s, length (buf (q s)));
  h ← gets (λ s, head (q s));
  assert (bool_decide (Z.to_nat h < n)%nat);;
  set_q (λ i, with_ring (<[Z.to_nat (head i) := byte]> (buf i)) (next (head i)) (tail i) i);;
  modify (λ s, Mon (q s) (pcs s) (puts s ++ [byte]) (gots s));;
  signal_not_empty.

(** One turn of the loop of [intq_getc] or [intq_putc] in thread [t], and its end. *)
Definition turn (t : Z) (o : iop) : M mon unit :=
  match o with
  | Getc =>
    e ← intq_empty;
    if (e : bool) then acquire_wait t Getc else _ ← take_byte; set_pc t Free
  | Putc byte =>
    f ← intq_full;
    if (f : bool) then acquire_wait t (Putc byte) else add_byte byte;; set_pc t Free
  end.

(** In an interrupt handler the loop must not be entered. *)
Definition handler (o : iop) : M mon unit :=
  match o with
  | Getc => e ← intq_empty; assert (negb e);; _ ← take_byte; mret tt
  | Putc byte => f ← intq_full; assert (negb f);; add_byte byte
  end.

(** ** The machine *)

Inductive event := Call (t : Z) (o : iop) | Resume (t : Z) | Interrupt (o : iop).

(** What can happen next: a thread that is elsewhere makes a call, a ready thread runs, a
    handler that has checked the queue uses it. *)
Definition enabled (s : mon) (e : event) : bool :=
  match e with
  | Call t _ => bool_decide (0 < t) && bool_decide (pc_of s t = Free)
  | Resume t => match pc_of s t with LockReady _ | Awake _ => true | _ => false end
  | Interrupt Getc => negb (is_empty (q s))
  | Interrupt (Putc _) => negb (is_full (q s))
  end.

Definition exec (e : event) : M mon unit :=
  match e with
  | Call t o => turn t o
  | Resume t =>
    p ← gets (λ s, pc_of s t);
    set_pc t Free;;
    match p with
    | LockReady o => acquire_wait t o
    | Awake o => queue_lock_release t;; turn t o
    | _ => crash
    end
  | Interrupt o => handler o
  end.

Definition boot (b : list Z) : mon := Mon (intq_init b) ∅ [] [].

Inductive ireach (b : list Z) : mon → Prop :=
| ir_init : ireach b (boot b)
| ir_step s e s' : ireach b s → enabled s e = true → exec e s = Ret (tt, s') → ireach b s'.

(** ** The ring *)

Record ring_ok (i : intq) : Prop := {
  ri_len : length (buf i) = 64%nat;
  ri_head : 0 ≤ head i < 64;
  ri_tail : 0 ≤ tail i < 64
}.

(** The bytes in the queue, the oldest first. *)
Definition contents (i : intq) : list Z :=
  (λ k, default 0 (buf i !! Z.to_nat ((tail i + k) `mod` 64))) <$> seqZ 0 ((head i - tail i) `mod` 64).

Lemma next_mod p : 0 ≤ p < 64 → next p = (p + 1) `mod` 64 ∧ 0 ≤ next p < 64.
Proof. intros Hp. unfold next, INTQ_BUFSIZE. rewrite Z.rem_mod_nonneg by lia. pose proof (Z.mod_pos_bound (p + 1) 64 ltac:(lia)). lia. Qed.

Lemma length_contents i : Z.of_nat (length (contents i)) = (head i - tail i) `mod` 64.
Proof. unfold contents. rewrite length_fmap, length_seqZ. pose proof (Z.mod_pos_bound (head i - tail i) 64 ltac:(lia)). lia. Qed.

Lemma empty_contents i : ring_ok i → is_empty i = true ↔ contents i = [].
Proof.
  intros [_ Hh Ht]. pose proof (length_contents i) as Hl. unfold is_empty. rewrite bool_decide_eq_true. rewrite <- length_zero_iff_nil. split.
  - intros E. rewrite E, Z.sub_diag in Hl. change (0 `mod` 64) with 0 in Hl. lia.
  - intros H. rewrite H in Hl. Z.div_mod_to_equations. lia.
Qed.

Lemma full_contents i : ring_ok i → is_full i = true ↔ length (contents i) = 63%nat.
Proof.
  intros [_ Hh Ht]. pose proof (length_contents i) as Hl. unfold is_full. rewrite bool_decide_eq_true. destruct (next_mod (head i) Hh) as [-> _].
  split; intros H; Z.div_mod_to_equations; lia.
Qed.

Lemma contents_lookup i k : 0 ≤ k < (head i - tail i) `mod` 64 → contents i !! Z.to_nat k = Some (default 0 (buf i !! Z.to_nat ((tail i + k) `mod` 64))).
Proof. intros Hk. unfold contents. rewrite list_lookup_fmap, lookup_seqZ_lt by lia. cbn. by rewrite Z2Nat.id by lia. Qed.

Lemma contents_take i : ring_ok i → is_empty i = false →
  ∃ byte, buf i !! Z.to_nat (tail i) = Some byte ∧ contents i = byte :: contents (with_ring (buf i) (head i) (next (tail i)) i).
Proof.
  intros [Hb Hh Ht] He. apply bool_decide_eq_false in He. destruct (next_mod (tail i) Ht) as [En Hn].
  destruct (lookup_lt_is_Some_2 (buf i) (Z.to_nat (tail i))) as [x Hx]; [lia|]. exists x. split; [done|].
  unfold contents. cbn [with_ring head tail buf]. rewrite En.
  assert ((head i - (tail i + 1) `mod` 64) `mod` 64 = (head i - tail i) `mod` 64 - 1) as -> by (Z.div_mod_to_equations; lia).
  rewrite (seqZ_cons 0 _) by (Z.div_mod_to_equations; lia). cbn [fmap list_fmap]. rewrite Z.add_0_r, Z.mod_small, Hx by lia. cbn. f_equal.
  change (Z.succ 0) with (1 + 0). rewrite <- fmap_add_seqZ, <- list_fmap_compose. replace (Z.pred ((head i - tail i) `mod` 64)) with ((head i - tail i) `mod` 64 - 1) by lia.
  apply list_fmap_ext. intros j y Hy. apply lookup_seqZ in Hy as [-> Hj]. cbn. do 3 f_equal. Z.div_mod_to_equations. lia.
Qed.

Lemma contents_add i x : ring_ok i → is_full i = false →
  contents (with_ring (<[Z.to_nat (head i) := x]> (buf i)) (next (head i)) (tail i) i) = contents i ++ [x].
Proof.
  intros [Hb Hh Ht] Hf. apply bool_decide_eq_false in Hf. destruct (next_mod (head i) Hh) as [En Hn]. rewrite En in Hf. unfold contents. cbn [with_ring head tail buf]. rewrite En.
  assert (((head i + 1) `mod` 64 - tail i) `mod` 64 = (head i - tail i) `mod` 64 + 1) as -> by (Z.div_mod_to_equations; lia).
  pose proof (Z.mod_pos_bound (head i - tail i) 64 ltac:(lia)). rewrite seqZ_app, fmap_app by lia. f_equal.
  - apply list_fmap_ext. intros j y Hy. apply lookup_seqZ in Hy as [-> Hj]. rewrite list_lookup_insert_ne; [done|]. Z.div_mod_to_equations. lia.
  - rewrite (seqZ_cons _ 1) by lia. cbn [fmap list_fmap]. f_equal.
    assert ((tail i + (0 + (head i - tail i) `mod` 64)) `mod` 64 = head i) as -> by (Z.div_mod_to_equations; lia).
    rewrite list_lookup_insert_eq by lia. done.
Qed.

(** ** The invariant *)

Definition asleep (p : pc) : Prop := ∃ o, p = Asleep o.
Definition holds_lock (p : pc) : Prop := ∃ o, p = Asleep o ∨ p = Awake o.

Record iinv (s : mon) : Prop := {
  iv_ring : ring_ok (q s);
  iv_log : puts s = gots s ++ contents (q s);
  iv_thread : ∀ t, pc_of s t ≠ Free → 0 < t;
  iv_holds : ∀ t, holds_lock (pc_of s t) → holder (q s) = t;
  iv_holder : holder (q s) ≠ 0 → holds_lock (pc_of s (holder (q s)));
  iv_get : ∀ t, pc_of s t = Asleep Getc ↔ not_empty (q s) = t ∧ t ≠ 0;
  iv_put : ∀ t, (∃ b, pc_of s t = Asleep (Putc b)) ↔ not_full (q s) = t ∧ t ≠ 0;
  iv_empty : not_empty (q s) ≠ 0 → is_empty (q s) = true;
  iv_full : not_full (q s) ≠ 0 → is_full (q s) = true;
  iv_waiters : ∀ t, t ∈ waiters (q s) ↔ ∃ o, pc_of s t = LockBlocked o;
  iv_nodup : NoDup (waiters (q s))
}.

Lemma pc_set s t p u c P G : pc_of (Mon c (<[t := p]> (pcs s)) P G) u = if decide (u = t) then p else pc_of s u.
Proof. unfold pc_of. cbn. destruct (decide (u = t)) as [->|]; [by rewrite lookup_insert_eq|by rewrite lookup_insert_ne]. Qed.

(** A state that differs in its logs and its ring only. *)
Definition same_mon (s s' : mon) : Prop :=
  pcs s' = pcs s ∧ holder (q s') = holder (q s) ∧ waiters (q s') = waiters (q s) ∧ not_full (q s') = not_full (q s) ∧ not_empty (q s') = not_empty (q s).

(** The state after [signal]: the thread that waited, if any, is awake. *)
Definition signalled (w : Z) (clear : intq → intq) (s : mon) : mon :=
  if bool_decide (w ≠ 0) then
    match pc_of s w with Asleep o => Mon (clear (q s)) (<[w := Awake o]> (pcs s)) (puts s) (gots s) | _ => s end
  else s.

Lemma signal_not_full_run s : is_full (q s) = false → (∀ t, (∃ b, pc_of s t = Asleep (Putc b)) ↔ not_full (q s) = t ∧ t ≠ 0) →
  signal_not_full s = Ret (tt, signalled (not_full (q s)) (with_not_full 0) s).
Proof.
  intros Hf Hw. unfold signal_not_full, intq_full, gets. rewrite (bind_Ret _ _ _ _ _ eq_refl), Hf, assert_bind, (bind_Ret _ _ _ _ _ eq_refl) by done.
  unfold signalled. destruct (decide (not_full (q s) = 0)) as [E|E]; [by rewrite !bool_decide_eq_false_2 by tauto|].
  rewrite !bool_decide_eq_true_2 by done. destruct (proj2 (Hw _) (conj eq_refl E)) as [b Hb]. unfold wake, gets. rewrite bind_assoc, (bind_Ret _ _ _ _ _ eq_refl), Hb. done.
Qed.

Lemma signal_not_empty_run s : is_empty (q s) = false → (∀ t, pc_of s t = Asleep Getc ↔ not_empty (q s) = t ∧ t ≠ 0) →
  signal_not_empty s = Ret (tt, signalled (not_empty (q s)) (with_not_empty 0) s).
Proof.
  intros Hf Hw. unfold signal_not_empty, intq_empty, gets. rewrite (bind_Ret _ _ _ _ _ eq_refl), Hf, assert_bind, (bind_Ret _ _ _ _ _ eq_refl) by done.
  unfold signalled. destruct (decide (not_empty (q s) = 0)) as [E|E]; [by rewrite !bool_decide_eq_false_2 by tauto|].
  rewrite !bool_decide_eq_true_2 by done. pose proof (proj2 (Hw _) (conj eq_refl E)) as Hb. unfold wake, gets. rewrite bind_assoc, (bind_Ret _ _ _ _ _ eq_refl), Hb. done.
Qed.

(** Waking the thread that sleeps for [o]. *)
Lemma wake_inv s w o :
  ring_ok (q s) → puts s = gots s ++ contents (q s) →
  (∀ t, pc_of s t ≠ Free → 0 < t) → (∀ t, holds_lock (pc_of s t) → holder (q s) = t) → (holder (q s) ≠ 0 → holds_lock (pc_of s (holder (q s)))) →
  (∀ t, pc_of s t = Asleep Getc ↔ not_empty (q s) = t ∧ t ≠ 0) → (∀ t, (∃ b, pc_of s t = Asleep (Putc b)) ↔ not_full (q s) = t ∧ t ≠ 0) →
  (∀ t, t ∈ waiters (q s) ↔ ∃ o, pc_of s t = LockBlocked o) → NoDup (waiters (q s)) →
  pc_of s w = Asleep o →
  (match o with Getc => not_full (q s) ≠ 0 → is_full (q s) = true | Putc _ => not_empty (q s) ≠ 0 → is_empty (q s) = true end) →
  let s' := Mon ((match o with Getc => with_not_empty 0 | Putc _ => with_not_full 0 end) (q s)) (<[w := Awake o]> (pcs s)) (puts s) (gots s) in
  iinv s' ∧ ∀ t, pc_of s t = Free → pc_of s' t = Free.
Proof.
  intros Hr Hlog Ht Hh Hho Hg Hp Hw Hn Hb Hx s'. assert (holder (q s) = w) as Ehw by (apply Hh; exists o; by left).
  assert (∀ u, pc_of s' u = if decide (u = w) then Awake o else pc_of s u) as Hpc by (intros u; apply pc_set).
  split; [|intros u Hu; rewrite Hpc; case_decide; congruence]. split; unfold s'; cbn [q puts gots]; fold s'; try (destruct o; done).
  - destruct o; by destruct Hr.
  - intros u. rewrite Hpc. case_decide; [subst u; intros _; apply Ht; by rewrite Hb|apply Ht].
  - intros u. rewrite Hpc. assert (holder ((match o with Getc => with_not_empty 0 | Putc _ => with_not_full 0 end) (q s)) = w) as -> by (by destruct o).
    case_decide; [done|]. intros Hu. by rewrite <- (Hh u Hu).
  - assert (holder ((match o with Getc => with_not_empty 0 | Putc _ => with_not_full 0 end) (q s)) = w) as -> by (by destruct o).
    intros _. rewrite Hpc, decide_True by done. exists o. by right.
  - intros u. rewrite Hpc. destruct o as [|b]; cbn [with_not_empty with_not_full not_empty].
    + case_decide; [naive_solver|]. rewrite Hg. pose proof (proj1 (Hg w) Hb). naive_solver.
    + case_decide; [subst u|apply Hg]. split; [done|]. intros H. apply Hg in H. congruence.
  - intros u. rewrite Hpc. destruct o as [|b]; cbn [with_not_empty with_not_full not_full].
    + case_decide; [subst u|apply Hp]. split; [by intros [? ?]|]. intros [b H]%Hp. congruence.
    + case_decide; [naive_solver|]. rewrite Hp. pose proof (proj1 (Hp w) (ex_intro _ b Hb)). naive_solver.
  - intros u. assert (waiters ((match o with Getc => with_not_empty 0 | Putc _ => with_not_full 0 end) (q s)) = waiters (q s)) as -> by (by destruct o).
    rewrite Hw, Hpc. case_decide; [subst u; rewrite Hb; naive_solver|done].
Qed.

(** The invariant without the two clauses on the ring's state, which a signal restores. *)
Lemma signalled_inv (get : bool) s :
  ring_ok (q s) → puts s = gots s ++ contents (q s) →
  (∀ t, pc_of s t ≠ Free → 0 < t) → (∀ t, holds_lock (pc_of s t) → holder (q s) = t) → (holder (q s) ≠ 0 → holds_lock (pc_of s (holder (q s)))) →
  (∀ t, pc_of s t = Asleep Getc ↔ not_empty (q s) = t ∧ t ≠ 0) → (∀ t, (∃ b, pc_of s t = Asleep (Putc b)) ↔ not_full (q s) = t ∧ t ≠ 0) →
  (∀ t, t ∈ waiters (q s) ↔ ∃ o, pc_of s t = LockBlocked o) → NoDup (waiters (q s)) →
  (if get then not_empty (q s) ≠ 0 → is_empty (q s) = true else not_full (q s) ≠ 0 → is_full (q s) = true) →
  let s' := if get then signalled (not_full (q s)) (with_not_full 0) s else signalled (not_empty (q s)) (with_not_empty 0) s in
  iinv s' ∧ ∀ t, pc_of s t = Free → pc_of s' t = Free.
Proof.
  intros Hr Hlog Ht Hh Hho Hg Hp Hw Hn Hx. destruct get; cbn zeta; unfold signalled.
  - destruct (decide (not_full (q s) = 0)) as [E|E]; [rewrite bool_decide_eq_false_2 by tauto; split; [by split|done]|].
    rewrite bool_decide_eq_true_2 by done. destruct (proj2 (Hp _) (conj eq_refl E)) as [b Hb]. rewrite Hb. by apply (wake_inv s (not_full (q s)) (Putc b)).
  - destruct (decide (not_empty (q s) = 0)) as [E|E]; [rewrite bool_decide_eq_false_2 by tauto; split; [by split|done]|].
    rewrite bool_decide_eq_true_2 by done. pose proof (proj2 (Hg _) (conj eq_refl E)) as Hb. rewrite Hb. by apply (wake_inv s (not_empty (q s)) Getc).
Qed.

Lemma iinv_ext s s' : q s' = q s → puts s' = puts s → gots s' = gots s → (∀ u, pc_of s' u = pc_of s u) → iinv s → iinv s'.
Proof.
  intros E1 E2 E3 Hpc [I1 I2 I3 I4 I5 I6 I7 I8 I9 I10 I11]. split; rewrite ?E1, ?E2, ?E3; try done; intros; rewrite ?Hpc in *; auto.
Qed.

Lemma stay_free s t : pc_of s t = Free → iinv s → ∃ s', set_pc t Free s = Ret (tt, s') ∧ iinv s' ∧ q s' = q s ∧ ∀ u, pc_of s' u = pc_of s u.
Proof.
  intros Ht Hs. eexists. split; [done|]. assert (∀ u, pc_of (Mon (q s) (<[t := Free]> (pcs s)) (puts s) (gots s)) u = pc_of s u) as Hpc.
  { intros u. rewrite pc_set. case_decide; congruence. }
  split_and!; [|done|done]. by apply (iinv_ext s).
Qed.

Lemma take_byte_run s : iinv s → is_empty (q s) = false →
  ∃ byte s', take_byte s = Ret (byte, s') ∧ iinv s' ∧ ∀ t, pc_of s t = Free → pc_of s' t = Free.
Proof.
  intros [I1 I2 I3 I4 I5 I6 I7 I8 I9 I10 I11] He. destruct (contents_take (q s) I1 He) as (x & Hx & Hc). pose proof I1 as [Hb Hh Ht].
  unfold take_byte. run_step (gets_opt_Some (λ s, buf (q s) !! Z.to_nat (tail (q s))) s x Hx). unfold set_q, modify. rewrite !(bind_Ret _ _ _ _ _ eq_refl). cbn [q pcs puts gots].
  set (s1 := Mon (with_ring (buf (q s)) (head (q s)) (next (tail (q s))) (q s)) (pcs s) (puts s) (gots s ++ [x])).
  assert (ring_ok (q s1)) as Hr1 by (split; cbn; [done|done|by apply next_mod]).
  assert (is_full (q s1) = false) as Hf1.
  { apply not_true_iff_false. rewrite full_contents by done. pose proof (length_contents (q s)) as Hl. rewrite Hc in Hl. cbn [length] in Hl.
    pose proof (Z.mod_pos_bound (head (q s) - tail (q s)) 64 ltac:(lia)). change (contents (q s1)) with (contents (with_ring (buf (q s)) (head (q s)) (next (tail (q s))) (q s))). lia. }
  run_step (signal_not_full_run s1 Hf1 I7). destruct (signalled_inv true s1) as [Hi Hfree]; try done.
  - unfold s1. cbn [puts gots]. rewrite I2, Hc. by rewrite <- app_assoc.
  - intros Hne. change (not_empty (q s1)) with (not_empty (q s)) in Hne. rewrite (I8 Hne) in He. done.
  - exists x. eexists. split_and!; [done|exact Hi|exact Hfree].
Qed.

Lemma add_byte_run s x : iinv s → is_full (q s) = false →
  ∃ s', add_byte x s = Ret (tt, s') ∧ iinv s' ∧ ∀ t, pc_of s t = Free → pc_of s' t = Free.
Proof.
  intros [I1 I2 I3 I4 I5 I6 I7 I8 I9 I10 I11] He. pose proof (contents_add (q s) x I1 He) as Hc. pose proof I1 as [Hb Hh Ht].
  unfold add_byte, gets. rewrite !(bind_Ret _ _ _ _ _ eq_refl). rewrite assert_bind by (apply bool_decide_eq_true_2; lia).
  unfold set_q, modify. rewrite !(bind_Ret _ _ _ _ _ eq_refl). cbn [q pcs puts gots].
  set (s1 := Mon (with_ring (<[Z.to_nat (head (q s)) := x]> (buf (q s))) (next (head (q s))) (tail (q s)) (q s)) (pcs s) (puts s ++ [x]) (gots s)).
  assert (ring_ok (q s1)) as Hr1 by (split; cbn; [by rewrite length_insert|by apply next_mod|done]).
  assert (is_empty (q s1) = false) as Hf1.
  { apply not_true_iff_false. rewrite empty_contents by done. change (contents (q s1)) with (contents (with_ring (<[Z.to_nat (head (q s)) := x]> (buf (q s))) (next (head (q s))) (tail (q s)) (q s))).
    rewrite Hc. by destruct (contents (q s)). }
  rewrite (signal_not_empty_run s1 Hf1 I6). destruct (signalled_inv false s1) as [Hi Hfree]; try done.
  - unfold s1. cbn [puts gots q]. rewrite I2, Hc. by rewrite app_assoc.
  - intros Hne. change (not_full (q s1)) with (not_full (q s)) in Hne. rewrite (I9 Hne) in He. done.
  - eexists. split_and!; [done|exact Hi|exact Hfree].
Qed.

(** What [o] waits for. *)
Definition must_wait (o : iop) (i : intq) : bool := match o with Getc => is_empty i | Putc _ => is_full i end.

Lemma wait_run s t o : wait t o s = if must_wait o (q s) then
    Ret (tt, Mon ((match o with Getc => with_not_empty t | Putc _ => with_not_full t end) (q s)) (<[t := Asleep o]> (pcs s)) (puts s) (gots s)) else Crash.
Proof. unfold wait, must_wait, intq_empty, intq_full, gets, mbind, M_bind, assert. destruct o; [destruct (is_empty (q s))|destruct (is_full (q s))]; done. Qed.

(** A thread takes the free lock and sleeps. *)
Lemma sleep_inv s t o :
  iinv s → 0 < t → pc_of s t = Free → holder (q s) = 0 → must_wait o (q s) = true →
  iinv (Mon ((match o with Getc => with_not_empty t | Putc _ => with_not_full t end) (with_lock t (waiters (q s)) (q s))) (<[t := Asleep o]> (pcs s)) (puts s) (gots s)).
Proof.
  intros [I1 I2 I3 I4 I5 I6 I7 I8 I9 I10 I11] Hpos Hfree E Em. set (s' := Mon _ _ _ _).
  assert (∀ u, ¬ holds_lock (pc_of s u)) as Hnone.
  { intros u Hu. pose proof (I4 u Hu). assert (0 < u); [|lia]. apply I3. destruct Hu as [? [-> | ->]]; done. }
  assert (∀ u o', pc_of s u ≠ Asleep o') as Hno by (intros u o' Hu; apply (Hnone u); exists o'; by left).
  assert (not_empty (q s) = 0) as E1 by (apply dec_stable; intros Hne; apply (Hno (not_empty (q s)) Getc), I6; done).
  assert (not_full (q s) = 0) as E2 by (apply dec_stable; intros Hne; destruct (proj2 (I7 _) (conj eq_refl Hne)) as [b Hb]; by apply (Hno _ _ Hb)).
  assert (∀ u, pc_of s' u = if decide (u = t) then Asleep o else pc_of s u) as Hpc by (intros u; apply pc_set).
  assert (holder (q s') = t ∧ waiters (q s') = waiters (q s)) as [Eh Ew] by (unfold s'; by destruct o).
  split; rewrite ?Eh, ?Ew; try (unfold s'; destruct o; done).
  - unfold s'. destruct o; by destruct I1.
  - intros u. rewrite Hpc. case_decide; [by subst u|apply I3].
  - intros u. rewrite Hpc. case_decide; [done|]. intros Hu. by destruct (Hnone u).
  - intros _. rewrite Hpc, decide_True by done. exists o. by left.
  - intros u. rewrite Hpc. unfold s'. destruct o as [|b]; cbn; rewrite ?E1; case_decide; split; try naive_solver lia; intros Hu; by destruct (Hno u Getc).
  - intros u. rewrite Hpc. unfold s'. destruct o as [|b]; cbn; rewrite ?E2; case_decide; split; try naive_solver lia; intros [b' Hu]; by destruct (Hno u (Putc b')).
  - intros u. rewrite I10, Hpc. case_decide; [subst u; rewrite Hfree; naive_solver|done].
Qed.

(** A thread blocks on the lock. *)
Lemma queue_inv s t o :
  iinv s → 0 < t → pc_of s t = Free → holder (q s) ≠ 0 →
  iinv (Mon (with_lock (holder (q s)) (waiters (q s) ++ [t]) (q s)) (<[t := LockBlocked o]> (pcs s)) (puts s) (gots s)).
Proof.
  intros [I1 I2 I3 I4 I5 I6 I7 I8 I9 I10 I11] Hpos Hfree E. set (s' := Mon _ _ _ _).
  assert (∀ u, pc_of s' u = if decide (u = t) then LockBlocked o else pc_of s u) as Hpc by (intros u; apply pc_set).
  assert (holder (q s) ≠ t) as Hnt by (intros Et; destruct (I5 E) as [o' [?|?]]; congruence).
  split; try (by destruct I1); try done.
  - intros u. rewrite Hpc. case_decide; [by subst u|apply I3].
  - intros u. rewrite Hpc. case_decide; [by intros [? [?|?]]|apply I4].
  - intros _. rewrite Hpc. cbn. rewrite decide_False by done. by apply I5.
  - intros u. rewrite Hpc. case_decide; [subst u|apply I6]. change (not_empty (q s')) with (not_empty (q s)). rewrite <- (I6 t), Hfree. done.
  - intros u. rewrite Hpc. case_decide; [subst u|apply I7]. change (not_full (q s')) with (not_full (q s)). rewrite <- (I7 t), Hfree. naive_solver.
  - intros u. cbn. rewrite elem_of_app, list_elem_of_singleton, I10, Hpc. case_decide; [subst u|]; naive_solver.
  - cbn. apply NoDup_app. split_and!; [done| |apply NoDup_singleton]. intros u Hu ->%list_elem_of_singleton. apply I10 in Hu as [o' Hu]. congruence.
Qed.

Lemma acquire_wait_run s t o :
  iinv s → 0 < t → pc_of s t = Free →
  if bool_decide (holder (q s) = 0) && negb (must_wait o (q s)) then acquire_wait t o s = Crash
  else ∃ s', acquire_wait t o s = Ret (tt, s') ∧ iinv s'.
Proof.
  intros Hs Hpos Hfree. pose proof (iv_holder _ Hs) as I5. unfold acquire_wait, gets. rewrite (bind_Ret _ _ _ _ _ eq_refl).
  assert (holder (q s) ≠ t) as Hnt by (intros <-; destruct (I5 ltac:(lia)) as [o' [?|?]]; congruence). rewrite assert_bind by (by apply bool_decide_eq_true_2).
  destruct (decide (holder (q s) = 0)) as [E|E].
  - rewrite !bool_decide_eq_true_2 by done. unfold set_q, modify. rewrite (bind_Ret _ _ _ _ _ eq_refl), wait_run. cbn [q puts gots pcs]. cbn [andb].
    change (must_wait o (with_lock t (waiters (q s)) (q s))) with (must_wait o (q s)). destruct (must_wait o (q s)) eqn:Em; cbn [negb]; [|done].
    eexists. split; [done|]. exact (sleep_inv s t o Hs Hpos Hfree E Em).
  - rewrite !bool_decide_eq_false_2 by done. cbn [andb]. eexists. split; [done|]. exact (queue_inv s t o Hs Hpos Hfree E).
Qed.

(** The lock is free again and the first thread that waited for it is ready. *)
Lemma unlocked_inv s t o s' :
  iinv s → pc_of s t = Awake o → q s' = with_lock 0 (tl (waiters (q s))) (q s) → puts s' = puts s → gots s' = gots s → pc_of s' t = Free →
  (∀ w, hd_error (waiters (q s)) = Some w → ∃ o', pc_of s' w = LockReady o') →
  (∀ u, u ≠ t → hd_error (waiters (q s)) ≠ Some u → pc_of s' u = pc_of s u) → iinv s'.
Proof.
  intros [I1 I2 I3 I4 I5 I6 I7 I8 I9 I10 I11] Ht Eq Ep Eg Hft Hw Hu. assert (holder (q s) = t) as Eh by (apply I4; exists o; by right).
  assert (∀ u, hd_error (waiters (q s)) = Some u → u ∈ waiters (q s)) as Hin.
  { intros u. destruct (waiters (q s)); [done|]. intros [= ->]. left. }
  assert (∀ u, holds_lock (pc_of s' u) → False) as Hnh.
  { intros u Hh. destruct (decide (u = t)) as [->|Hne]; [rewrite Hft in Hh; by destruct Hh as [? [?|?]]|].
    destruct (decide (hd_error (waiters (q s)) = Some u)) as [Hd|Hd].
    - destruct (Hw u Hd) as [o' Ho]. rewrite Ho in Hh. by destruct Hh as [? [?|?]].
    - rewrite Hu in Hh by done. by rewrite <- (I4 u Hh) in Hne. }
  assert (∀ u o', pc_of s' u ≠ Asleep o') as Hna by (intros u o' H; apply (Hnh u); exists o'; by left).
  assert (∀ u o', pc_of s u ≠ Asleep o') as Hns.
  { intros u o' H. assert (u = t) as -> by (rewrite <- Eh; symmetry; apply I4; exists o'; by left). congruence. }
  assert (not_empty (q s) = 0) as E1 by (apply dec_stable; intros Hne; apply (Hns (not_empty (q s)) Getc), I6; done).
  assert (not_full (q s) = 0) as E2 by (apply dec_stable; intros Hne; destruct (proj2 (I7 _) (conj eq_refl Hne)) as [b Hb]; by apply (Hns _ _ Hb)).
  split; rewrite ?Eq, ?Ep, ?Eg; cbn [with_lock holder waiters not_empty not_full]; try done.
  - by destruct I1.
  - intros u Hf. destruct (decide (u = t)) as [->|Hne]; [done|]. destruct (decide (hd_error (waiters (q s)) = Some u)) as [Hd|Hd].
    + apply I3. destruct (proj1 (I10 u) (Hin u Hd)) as [o' Ho]. by rewrite Ho.
    + rewrite Hu in Hf by done. by apply I3.
  - intros u Hh. by destruct (Hnh u).
  - intros u. split; [intros H; by destruct (Hna u Getc)|]. rewrite E1. naive_solver.
  - intros u. split; [intros [b H]; by destruct (Hna u (Putc b))|]. rewrite E2. naive_solver.
  - intros u. assert (NoDup (waiters (q s))) as Hnd by done. pose proof (I10 t) as Itw. pose proof (I10 u) as Iu. destruct (waiters (q s)) as [|w ws]; cbn [tl hd_error] in *.
    + rewrite elem_of_nil. split; [done|]. intros [o' Ho]. apply (elem_of_nil (A := Z) u), Iu. exists o'. rewrite <- Ho. symmetry. apply Hu; [congruence|done].
    + apply NoDup_cons in Hnd as [Hwn _]. destruct (decide (u = w)) as [->|Hne].
      * destruct (Hw w eq_refl) as [o' Ho]. rewrite Ho. split; [done|by intros [? ?]].
      * rewrite elem_of_cons in Iu. destruct (decide (u = t)) as [->|Hnt]; [rewrite Hft; rewrite Ht in Iu; naive_solver|].
        rewrite Hu by congruence. naive_solver.
  - destruct (waiters (q s)); [constructor|]. by apply NoDup_cons in I11 as [_ ?].
Qed.

(** A thread that was woken gives the lock up. *)
Lemma release_inv s t o :
  iinv s → pc_of s t = Awake o →
  ∃ s', (set_pc t Free;; queue_lock_release t) s = Ret (tt, s') ∧ iinv s' ∧ pc_of s' t = Free.
Proof.
  intros Hs Ht. pose proof (iv_holds _ Hs t (ex_intro _ o (or_intror Ht))) as Eh. pose proof (iv_waiters _ Hs) as I10.
  unfold set_pc, modify. rewrite (bind_Ret _ _ _ _ _ eq_refl). set (s1 := Mon _ _ _ _).
  assert (∀ u, pc_of s1 u = if decide (u = t) then Free else pc_of s u) as Hpc1 by (intros u; apply pc_set).
  unfold queue_lock_release, gets. rewrite (bind_Ret _ _ _ _ _ eq_refl), assert_bind, (bind_Ret _ _ _ _ _ eq_refl) by (by apply bool_decide_eq_true_2).
  change (waiters (q s1)) with (waiters (q s)). destruct (waiters (q s)) as [|w ws] eqn:Ew.
  - eexists. split; [done|]. set (s2 := Mon _ _ _ _). assert (∀ u, pc_of s2 u = pc_of s1 u) as Hpc2 by done.
    assert (pc_of s2 t = Free) as Hf by (by rewrite Hpc2, Hpc1, decide_True). split; [|done].
    apply (unlocked_inv s t o); try done; rewrite ?Ew; try done. intros u Hne _. by rewrite Hpc2, Hpc1, decide_False.
  - unfold set_q, modify. rewrite (bind_Ret _ _ _ _ _ eq_refl). set (s2 := Mon _ _ _ _). assert (∀ u, pc_of s2 u = pc_of s1 u) as Hpc2 by done.
    destruct (proj1 (I10 w) ltac:(left)) as [o' Ho]. assert (w ≠ t) as Hwt by congruence.
    rewrite (bind_Ret _ _ _ _ _ eq_refl), Hpc2, Hpc1, decide_False, Ho by done. eexists. split; [done|]. set (s3 := Mon _ _ _ _).
    assert (∀ u, pc_of s3 u = if decide (u = w) then LockReady o' else pc_of s2 u) as Hpc3 by (intros u; apply pc_set).
    assert (pc_of s3 t = Free) as Hf by (by rewrite Hpc3, decide_False, Hpc2, Hpc1, decide_True). split; [|done].
    apply (unlocked_inv s t o); try done; rewrite ?Ew; try done.
    + intros x [= <-]. exists o'. by rewrite Hpc3, decide_True.
    + cbn. intros u Hne Hnw. by rewrite Hpc3, decide_False, Hpc2, Hpc1, decide_False by congruence.
Qed.

Lemma turn_run s t o : iinv s → 0 < t → pc_of s t = Free → ∃ s', turn t o s = Ret (tt, s') ∧ iinv s'.
Proof.
  intros Hs Hpos Hfree. pose proof (acquire_wait_run s t o Hs Hpos Hfree) as Ha. destruct o as [|x]; unfold turn, intq_empty, intq_full, gets; rewrite (bind_Ret _ _ _ _ _ eq_refl).
  - cbn [must_wait] in Ha. destruct (is_empty (q s)) eqn:E; [by rewrite andb_false_r in Ha|].
    destruct (take_byte_run s Hs E) as (b & s1 & E1 & Hs1 & Hf). run_step E1. destruct (stay_free s1 t (Hf t Hfree) Hs1) as (s2 & E2 & Hs2 & _). by exists s2.
  - cbn [must_wait] in Ha. destruct (is_full (q s)) eqn:E; [by rewrite andb_false_r in Ha|].
    destruct (add_byte_run s x Hs E) as (s1 & E1 & Hs1 & Hf). run_step E1. destruct (stay_free s1 t (Hf t Hfree) Hs1) as (s2 & E2 & Hs2 & _). by exists s2.
Qed.

(** A thread that waited for the lock gets it when what it wanted to wait for has already
    come. *)
Definition stale (s : mon) (e : event) : bool :=
  match e with
  | Resume t => match pc_of s t with LockReady o => bool_decide (holder (q s) = 0) && negb (must_wait o (q s)) | _ => false end
  | _ => false
  end.

Lemma exec_run s e : iinv s → enabled s e = true → if stale s e then exec e s = Crash else ∃ s', exec e s = Ret (tt, s') ∧ iinv s'.
Proof.
  intros Hs He. destruct e as [t o|t|o]; cbn [enabled stale exec] in *.
  - apply andb_true_iff in He as [H1%bool_decide_eq_true H2%bool_decide_eq_true]. by apply turn_run.
  - unfold gets. rewrite (bind_Ret _ _ _ _ _ eq_refl). destruct (pc_of s t) as [|o|o|o|o] eqn:Et; try done.
    + assert (0 < t) as Hpos by (apply (iv_thread _ Hs); by rewrite Et). unfold set_pc, modify. rewrite (bind_Ret _ _ _ _ _ eq_refl). set (s1 := Mon _ _ _ _).
      assert (∀ u, pc_of s1 u = if decide (u = t) then Free else pc_of s u) as Hpc by (intros u; apply pc_set).
      assert (iinv s1) as Hs1.
      { destruct Hs as [I1 I2 I3 I4 I5 I6 I7 I8 I9 I10 I11]. split; try done; change (q s1) with (q s).
        - intros u. rewrite Hpc. case_decide; [done|apply I3].
        - intros u. rewrite Hpc. case_decide; [by intros [? [?|?]]|apply I4].
        - intros Hh. rewrite Hpc. case_decide as E; [|by apply I5]. destruct (I5 Hh) as [o' [H|H]]; rewrite E in H; congruence.
        - intros u. rewrite Hpc. case_decide; [subst u|apply I6]. rewrite <- I6, Et. done.
        - intros u. rewrite Hpc. case_decide; [subst u|apply I7]. rewrite <- I7, Et. naive_solver.
        - intros u. rewrite I10, Hpc. case_decide; [subst u; rewrite Et; naive_solver|done]. }
      apply (acquire_wait_run s1 t o Hs1 Hpos). by rewrite Hpc, decide_True.
    + assert (0 < t) as Hpos by (apply (iv_thread _ Hs); by rewrite Et). destruct (release_inv s t o Hs Et) as (s1 & E1 & Hs1 & Hf).
      rewrite <- bind_assoc. run_step E1. by apply turn_run.
  - destruct o as [|x]; unfold handler, intq_empty, intq_full, gets; rewrite (bind_Ret _ _ _ _ _ eq_refl), assert_bind by done; apply negb_true_iff in He.
    + destruct (take_byte_run s Hs He) as (b & s1 & E1 & Hs1 & _). run_step E1. by exists s1.
    + destruct (add_byte_run s x Hs He) as (s1 & E1 & Hs1 & _). by exists s1.
Qed.

Lemma reach_inv b s : length b = 64%nat → ireach b s → iinv s.
Proof.
  intros Hb. induction 1 as [|s e s' _ IH He E].
  - assert (∀ t, pc_of (boot b) t = Free) as Hpc by done. split; try done; intros; rewrite ?Hpc in *; try done.
    + by destruct H as [? [?|?]].
    + cbn. naive_solver.
    + cbn. naive_solver.
    + cbn. rewrite elem_of_nil. naive_solver.
    + constructor.
  - pose proof (exec_run s e IH He) as H. destruct (stale s e); [congruence|]. destruct H as (s1 & E1 & Hs1). rewrite E in E1. by injection E1 as ->.
Qed.

(** C27: an interrupt queue is a first-in first-out queue of at most 63 bytes.  However the
    threads and the interrupt handlers that use it interleave, the bytes put in are the
    bytes taken out followed by those in the queue; a thread sleeps for a byte only while
    the queue is empty, and for room only while it is full, and the queue remembers it as
    the thread to wake; and every call runs to its end or to its blocking point, but for one
    case: a thread that waited for the queue's lock finds on getting it that what it was to
    wait for has come, and the assertion in [wait] fails. *)
Theorem intq_refines_queue b s :
  length b = 64%nat → ireach b s →
  puts s = gots s ++ contents (q s) ∧ (length (contents (q s)) ≤ 63)%nat ∧
  (∀ t, pc_of s t = Asleep Getc → contents (q s) = [] ∧ not_empty (q s) = t) ∧
  (∀ t x, pc_of s t = Asleep (Putc x) → length (contents (q s)) = 63%nat ∧ not_full (q s) = t) ∧
  ∀ e, enabled s e = true → if stale s e then exec e s = Crash else ∃ s', exec e s = Ret (tt, s').
Proof.
  intros Hb Hr. pose proof (reach_inv b s Hb Hr) as Hs. pose proof Hs as [I1 I2 I3 I4 I5 I6 I7 I8 I9 I10 I11]. split_and!.
  - done.
  - pose proof (length_contents (q s)). pose proof (Z.mod_pos_bound (head (q s) - tail (q s)) 64 ltac:(lia)). lia.
  - intros t [E Hne]%I6. split; [|done]. apply empty_contents; [done|]. apply I8. congruence.
  - intros t x Ht. destruct (proj1 (I7 t) (ex_intro _ x Ht)) as [E Hne]. split; [|done]. apply full_contents; [done|]. apply I9. congruence.
  - intros e He. pose proof (exec_run s e Hs He) as H. destruct (stale s e); [done|]. destruct H as (s' & E & _). by exists s'.
Qed.

(** ** Traces *)

Fixpoint run_events (es : list event) : M mon unit :=
  match es with
  | [] => mret tt
  | e :: es => ok ← gets (λ s, enabled s e); if (ok : bool) then exec e;; run_events es else crash
  end.

Lemma run_reach b es s s' : ireach b s → run_events es s = Ret (tt, s') → ireach b s'.
Proof.
  revert s. induction es as [|e es IH]; intros s Hs; cbn [run_events]; [by intros [= <-]|].
  unfold gets. rewrite (bind_Ret _ _ _ _ _ eq_refl). destruct (enabled s e) eqn:Ee; [|done]. intros H. unfold mbind, M_bind in H.
  destruct (exec e s) as [[[] s1]| |] eqn:E; [|done..]. apply (IH s1); [|done]. by apply (ir_step b s e).
Qed.

Definition zeros : list Z := replicate 64 0.

(** Two threads want to read; two bytes come before the first runs again, so a byte is left
    when the second one gets the lock. *)
Definition two_readers : list event := [Call 1 Getc; Call 2 Getc; Interrupt (Putc 97); Interrupt (Putc 98); Resume 1].
Definition reached (es : list event) : mon := if run_events es (boot zeros) is Ret (_, s) then s else boot zeros.

Lemma two_readers_run : run_events two_readers (boot zeros) = Ret (tt, reached two_readers).
Proof. vm_compute. reflexivity. Qed.

Lemma intq_refines_queue_witness :
  puts (reached two_readers) = gots (reached two_readers) ++ contents (q (reached two_readers)) ∧ exec (Resume 2) (reached two_readers) = Crash.
Proof.
  destruct (intq_refines_queue zeros (reached two_readers)) as (H & _ & _ & _ & He).
  - reflexivity.
  - apply (run_reach zeros two_readers (boot zeros)); [apply ir_init|exact two_readers_run].
  - split; [exact H|]. specialize (He (Resume 2) ltac:(vm_compute; reflexivity)). exact He.
Defined.
